(* ===== verification/_CoqProject ===== *)
-Q . S2P
Prelude.v
CacheTypes.v
ConsistentHashing.v
Versions.v
HashTable.v
HashTableInv.v
KVStorage.v
KVSpec.v
KVSystem.v
KVTheorems.v
ViewService.v
ViewTheorems.v
Client.v
ClientTheorems.v
Bytes.v
CStrings.v
Rounding.v
Md5.v
Ketama.v
KetamaContinuum.v
KetamaTheorems.v
Transport.v
BufferTransports.v
MemoryBufferTheorems.v
LayeredTheorems.v
Protocol.v
BinaryTheorems.v
BinaryTyping.v
CompactProtocol.v
CompactTheorems.v
Socket.v
NonblockingServer.v
NonblockingSteps.v
NonblockingTheorems.v
NonblockingReplies.v
NonblockingExample.v
ItemHeap.v
McUtil.v
MemcachedHash.v
Assoc.v
AssocTheorems.v
Slabs.v
SlabsTheorems.v
SlabsAlloc.v
SlabsSafety.v
ChunkAllocator.v
Items.v
ItemsInv.v
ItemsOps.v
ItemsAlloc.v
ItemsRefs.v
Store.v
StoreOps.v
ItemsFlush.v
ItemsRequests.v
ItemsTheorems.v
StoreTheorems.v
Tokens.v
Connection.v
Commands.v
Machine.v
Output.v
ItemBodies.v
ItemUse.v
ConnInv.v
CommandOps.v
GetOps.v
LineOps.v
MachineOps.v
ReadValue.v
SetCommand.v
Worker.v
ProtocolTheorems.v
Sessions.v
ThreadManager.v
ThreadManagerTheorems.v
