(* ===== verification/Prelude.v ===== *)
(** * Verification of a replicated key-value cache and of the libraries it runs on

    This library models the programs of [src/prototype] and the parts of the
    thrift runtime below them, and proves what makes them correct.  It also covers
    two programs that the repository keeps beside the prototype: the consistent hashing
    library [src/ketama] and the server [src/memcached-1.4.15], from its hash function up
    to the connections of the text protocol.

    ** The program

    [prototype] is a replicated in-memory key-value cache.  A {i view service}
    ([view.cpp]) keeps the numbered history of views; a view is a consistent
    hashing ring from positions to replica sets.  {i Storage servers}
    ([server.cpp]) register with the view service, ping it, hold the entries of
    the hashes they are in charge of in an open-addressing hash table threaded by
    a least-recently-used list, and exchange entries with the other replicas by
    anti-entropy, with version vectors to order them.  {i Clients} ([client.h],
    and [console.cpp], [stress.cpp], [monitor.cpp] on top of it) fetch the view,
    find the replicas of a key and call one of them.  All calls go through
    thrift: [ServerConnection.h] stacks [TBinaryProtocol] on [TFramedTransport]
    on [TSocket], and both servers are [TNonblockingServer]s, which collect a
    frame and hand it to the processor in a [TMemoryBuffer].

    {i memcached} ([src/memcached-1.4.15]) is the server that the prototype is compared
    with.  A connection ([drive_machine] in [memcached.c]) reads lines, cuts them into
    words and executes commands on the items: reference counted values ([items.c]) in the
    chunks of a slab allocator ([slabs.c]), found by a growing hash table ([assoc.c]).
    Output is queued as pieces of memory that belong to the items; a connection holds a
    reference to each until it has been sent.

    ** How the code is modelled

    The modelling conventions are in this file.  A w-bit integer is a [Z] and
    every conversion is written out ([u32], [i32], ...).  Code that updates an
    object is a function in the monad [M E S]: it returns, leaves by an exception
    with the updates done so far, or is [Stuck] with a [fault] (failed assertion,
    access out of range, erased iterator, deadlock, deleted object, ...).  A loop
    that is not structural takes fuel; running out of it is the fault [OutOfFuel],
    and the theorems show that it does not occur: the fuel is the size of the
    table for the probes and the list of the hash table, the number of bytes for
    the loops of [readAll] and [write], the number of retries for
    [TSocket::read], and a constant of at least 33 for the loops that double a
    32-bit size.  Code outside the repository (the operating system, libevent,
    [boost::posix_time], the processors generated by the thrift compiler, the
    allocator, the random generator) is a class or an argument, and what is
    assumed of it is a class of laws with a concrete instance in a witness.

    ** Files

    - [Prelude]: machine integers, the monads, vectors with checked access.
    - [CacheTypes]: the structs of [cache.thrift], the order of servers, the
      iteration order of [std::map].
    - [ConsistentHashing]: [ConsistentHashing.h], [ir_hash] and [getServer].
    - [Versions]: the version vectors of [server.cpp].
    - [HashTable], [HashTableInv]: the hash table of [server.cpp] and its
      invariant (probe sequences reach every record, the list is doubly linked,
      the counters are right), with the effect of each operation.
    - [KVStorage]: the handler of the storage server, every operation with its
      mutexes; [KVSpec]: the abstract cache and the refinement lemmas;
      [KVSystem]: the threads as a step relation; [KVTheorems]: the theorems.
    - [ViewService], [ViewTheorems]: [view.cpp].
    - [Client], [ClientTheorems]: [client.h] and the three programs on it.
    - [Bytes], [Transport], [BufferTransports]: byte blocks, the interface
      [TTransport] with its laws, [TBufferBase], [TMemoryBuffer],
      [TBufferedTransport], [TFramedTransport]; [MemoryBufferTheorems],
      [LayeredTheorems]: their properties.
    - [Protocol], [BinaryTheorems]: [TProtocol], [skip] and [TBinaryProtocol].
    - [Socket]: [TSocket] over an abstract operating system.
    - [NonblockingServer], [NonblockingSteps], [NonblockingTheorems],
      [NonblockingReplies], [NonblockingExample]: [TNonblockingServer].
    - [BinaryTyping]: what a reader of [TBinaryProtocol] may rely on.
    - [CompactProtocol], [CompactTheorems]: [protocol/TCompactProtocol.{h,tcc}], the other
      instance of the interface of protocols.
    - [ThreadManager], [ThreadManagerTheorems]: [concurrency/ThreadManager.cpp] with
      the condition variables of [Monitor.cpp], as an interleaving of critical
      sections.
    - [Md5], [Ketama], [KetamaContinuum], [KetamaTheorems]: [ketama/libketama], the
      consistent hashing library, with its digest, its file of server definitions, the
      continuum in shared memory and the search.
    - [CStrings], [Rounding]: the strings of C with the scanning of numbers, and
      arithmetic in [float] and [double], which ketama and memcached share.
    - [ItemHeap]: the items of memcached at their addresses, and linked lists of them;
      [MemcachedHash], [McUtil]: [hash.c] and [util.c].
    - [Assoc], [AssocTheorems]: [memcached-1.4.15/assoc.c], the hash table that grows
      while it is in use, over the heap of items.
    - [Slabs]: [slabs.c]; [SlabsTheorems], [SlabsAlloc], [SlabsSafety]: the classes, the
      invariant, and that chunks in use never overlap.  [ChunkAllocator] is the class that
      states what the allocator promises to its client; the items are verified against it,
      and [SlabsSafety] provides the instance.
    - [Items]: [items.c] with the wrappers of [thread.c]; [ItemsInv] the invariant,
      [ItemsOps], [ItemsAlloc], [ItemsRefs], [ItemsFlush] the operations;
      [ItemsRequests] the users as a step relation over all of them; [ItemsTheorems].
    - [Store], [StoreOps], [StoreTheorems]: [do_store_item] and [do_add_delta] of
      [memcached.c].
    - [Tokens]: [tokenize_command]; [Connection]: [struct conn] with the queue of output and
      the end of a command; [Commands]: [process_command] and every command;
      [Machine]: [try_read_command], [try_read_network], [transmit], [drive_machine].
    - [Output]: output as a stream of bytes; [ItemBodies]: which operations leave the
      contents of items alone; [ItemUse]: the cache as one user sees it, who holds some
      references while others hold the rest.
    - [ConnInv]: the invariant of a connection; [CommandOps], [GetOps], [LineOps],
      [MachineOps]: every command, line and turn keeps it.
    - [ReadValue]: the turns that read a value, however it arrives; [SetCommand]: a [set]
      from its line to the item for its value.
    - [Worker]: the connections of a worker thread, by their sockets, whose turns come in
      any order; [ProtocolTheorems]: the theorems about clients; [Sessions]: sessions that
      are computed, with what goes wrong in some.

    The fuel of the loops over a chain of items is the number of items of the heap plus
    one, that of the search in a continuum its number of points plus two, and that of
    reading a file its number of bytes plus two; [ketama_roll], whose loop need not end,
    takes its fuel as an argument.
    A [get] takes its line's length plus two, since each round of its outer loop leaves a
    shorter rest; [add_iov], which splits a piece at most at the end of the first packet,
    takes three and one for every answer of [realloc] that is still to come.

    ** Theorems

    - Storage server: no interleaving of its threads leaves the defined behaviour
      except at two known faults; [put], [get] and [propagate] refine the abstract
      least-recently-used cache; probing terminates, rehashing keeps the entries,
      eviction keeps the memory bound; version vectors are ordered pointwise.
      Five theorems describe what goes wrong (erased iterators, a purge that stops
      early, a forgotten conflict, an exception that keeps a mutex locked, an
      update lost by anti-entropy).
    - View service: invariant of the history, what each operation does to the
      ring, and its two faults.
    - Client: read-your-writes through all components; every outcome of a call;
      registration.
    - Thrift: buffers are queues, flushing delivers everything, messages survive
      framing, values of every type and depth survive the binary protocol,
      truncated and malformed input is refused, sockets are streams, the server
      answers every request and survives everything but an empty frame.
    - [BinaryTyping]: type safety of reading arbitrary bytes.
    - [CompactTheorems]: round trip of values, whose integers take as few bytes as they
      need, and of the headers of messages, except that oneway calls lose their type.
    - Thread manager: exact counters and first-in-first-out accounting of tasks under
      every interleaving; the workers drain the queue (no wake-up of a worker is lost);
      three ways in which a caller is forgotten.
    - Ketama: the incremental digest is the digest of the message; the search finds the
      successor of a hash; rounding in single precision never overflows the array of
      points (the rounding of the hardware is modelled on rational numbers, with its
      relative error); definitions are read as written; [ketama_roll] publishes the
      file when it is left alone and never ends when it is touched at a bad moment.
    - memcached, below its protocol: the growing hash table is a finite map at every
      moment, and an expansion ends; the three ways to read a key give one hash; chunks in
      use never overlap; references are exact, no item in use is freed or evicted, lookups
      and flushes are exact; storing and counting do what each command means.
    - memcached, its protocol: the tokens are the words of the line; queued output is sent
      byte for byte; a [get] is answered with the values of its keys; a [set] and its
      value, in whatever pieces it arrives, are answered with STORED and a later [get] with
      that value; and any connections with any input, in any order and whatever the system
      answers, keep the server safe and its references exact.  The hypotheses are those of
      [turn_env] in [MachineOps]: there is memory for the lists of the connection, no item
      has nearly 2^16 references, an item that is counted or appended to has been used
      within three hours; [gives_up] in [LineOps] is the one kind of line that loses
      references.

    ** Not modelled

    The [main] functions, logging and printing; the thrift compiler and the code
    it generates from [cache.thrift]; of the thrift runtime the transports and
    servers that the prototype does not use (HTTP, files, zlib, SSL, pipes,
    [TSimpleServer], [TThreadedServer], [TThreadPoolServer]), opening a socket
    and creating the threads; the bindings to other languages; SimpleBlog (Java).
    Of memcached the binary protocol, UDP, SASL and the options; the thread that moves the
    items of a page from one class to another (a page that is being moved is modelled, the
    loop over its items is not); the counters and the texts of the statistics, the latter
    an argument; the queues by which connections come to a worker.  Several workers run
    at the same time in the program and exclude each other by locks on items; here an
    operation on the cache is one step, and a turn of a connection is not interrupted.
    Printing the continuum of ketama; how the operating system schedules threads, beyond
    that it may schedule any.
*)

From stdpp Require Import base gmap list list_numbers strings sorting.
From Stdlib Require Import ZArith Lia.

(** * Machine integers

    The C++ code is compiled for x86-64: [int] and [unsigned int] are 32 bits
    wide, [long long], [int64_t] and [size_t] 64 bits.  A value of such a type
    is a [Z] and every conversion is one of the functions below. *)
Section MachineIntegers.
Local Open Scope Z_scope.

(** Conversion to an unsigned type of [w] bits. *)
Definition wrapu (w z : Z) : Z := z mod 2 ^ w.

(** Conversion to a signed two's complement type of [w] bits. *)
Definition wraps (w z : Z) : Z := (z + 2 ^ (w - 1)) mod 2 ^ w - 2 ^ (w - 1).

Definition u8 : Z → Z := wrapu 8.
Definition u16 : Z → Z := wrapu 16.
Definition u32 : Z → Z := wrapu 32.
Definition u64 : Z → Z := wrapu 64.
Definition i8 : Z → Z := wraps 8.
Definition i16 : Z → Z := wraps 16.
Definition i32 : Z → Z := wraps 32.
Definition i64 : Z → Z := wraps 64.

Lemma pow2_pos w : 0 ≤ w → 0 < 2 ^ w.
Proof. intros. apply Z.pow_pos_nonneg; lia. Qed.

Lemma wrapu_range w z : 0 ≤ w → 0 ≤ wrapu w z < 2 ^ w.
Proof. intros Hw. apply Z.mod_pos_bound, pow2_pos, Hw. Qed.

Lemma wrapu_small w z : 0 ≤ z < 2 ^ w → wrapu w z = z.
Proof. apply Z.mod_small. Qed.

Lemma wraps_range w z : 0 < w → - 2 ^ (w - 1) ≤ wraps w z < 2 ^ (w - 1).
Proof.
  intros Hw. unfold wraps.
  pose proof (Z.mod_pos_bound (z + 2 ^ (w - 1)) (2 ^ w) (pow2_pos w ltac:(lia))).
  assert (2 ^ w = 2 * 2 ^ (w - 1)) as Heq
    by (rewrite <- Z.pow_succ_r by lia; f_equal; lia).
  lia.
Qed.

Lemma wraps_small w z : 0 < w → - 2 ^ (w - 1) ≤ z < 2 ^ (w - 1) → wraps w z = z.
Proof.
  intros Hw Hz. unfold wraps.
  assert (2 ^ w = 2 * 2 ^ (w - 1)) as Heq
    by (rewrite <- Z.pow_succ_r by lia; f_equal; lia).
  rewrite Z.mod_small by lia. lia.
Qed.

(** Both conversions only look at the residue modulo [2 ^ w]. *)
Lemma wraps_congr w a b : 0 < w → a mod 2 ^ w = b mod 2 ^ w → wraps w a = wraps w b.
Proof.
  intros Hw Hab. unfold wraps.
  rewrite <- (Z.add_mod_idemp_l a), <- (Z.add_mod_idemp_l b), Hab;
    [done | apply Z.pow_nonzero; lia ..].
Qed.

Lemma wraps_mod w z : 0 < w → wraps w z mod 2 ^ w = z mod 2 ^ w.
Proof.
  intros Hw. unfold wraps.
  rewrite Zminus_mod_idemp_l. f_equal. lia.
Qed.

Lemma wraps_wraps_add w a b : 0 < w → wraps w (wraps w a + b) = wraps w (a + b).
Proof.
  intros Hw. apply wraps_congr; [done|].
  rewrite <- Zplus_mod_idemp_l, wraps_mod, Zplus_mod_idemp_l; done.
Qed.

Lemma wraps_wrapu w z : 0 < w → wraps w (wrapu w z) = wraps w z.
Proof. intros Hw. apply wraps_congr; [done|]. apply Zmod_mod. Qed.

Lemma wrapu_wraps w z : 0 < w → wrapu w (wraps w z) = wrapu w z.
Proof. intros Hw. unfold wrapu. by apply wraps_mod. Qed.

Lemma wraps_inj_range w a b :
  0 < w → - 2 ^ (w - 1) ≤ a < 2 ^ (w - 1) → wraps w b = a → wraps w a = wraps w b.
Proof. intros Hw Ha <-. by rewrite wraps_small. Qed.

Lemma u32_add_l a b : u32 (u32 a + b) = u32 (a + b).
Proof. apply Zplus_mod_idemp_l. Qed.
Lemma u32_add_r a b : u32 (a + u32 b) = u32 (a + b).
Proof. apply Zplus_mod_idemp_r. Qed.

End MachineIntegers.

(** Equations between sums modulo [2 ^ 32]. *)
Ltac u32_solve :=
  unfold u32, wrapu; change (2 ^ 32)%Z with 4294967296%Z;
  Z.to_euclidean_division_equations; lia.


(** * Outcomes of C++ code

    [fault] collects the ways in which the execution of a piece of C++ does not
    deliver a value: a failed [assert], an access outside a container, the use
    of an invalidated iterator, a division by zero, a thread that waits for a
    mutex which nobody is going to release, an allocation that fails, an overflow
    of a signed counter, the use of a deleted object or of a null pointer, the
    conversion of a number to a type that cannot hold it, the end of the whole process,
    and a loop of the model that ran out of fuel (the
    theorems show that this one never happens). *)
Inductive fault :=
| AssertFailed
| OutOfBounds
| IteratorInvalidated
| DivisionByZero
| Deadlock
| OutOfFuel
| BadAlloc
| SignedOverflow
| UseAfterFree
| NullPointer
| BadConversion
| Aborted.

(** Code that updates no object other than its result. *)
Inductive result (A : Type) :=
| Ok (a : A)
| Fail (f : fault).
Arguments Ok {A} a.
Arguments Fail {A} f.

#[export] Instance result_ret : MRet result := λ A a, Ok a.
#[export] Instance result_bind : MBind result := λ A B k m,
  match m with Ok a => k a | Fail f => Fail f end.

(** Code that updates an object of type [S] and may leave by an exception of
    type [E]; the updates done before the exception stay. *)
Inductive outcome (E S A : Type) :=
| Ret (a : A) (s : S)
| Exn (e : E) (s : S)
| Stuck (f : fault).
Arguments Ret {E S A} a s.
Arguments Exn {E S A} e s.
Arguments Stuck {E S A} f.

Definition M (E S A : Type) : Type := S → outcome E S A.

#[export] Instance M_ret E S : MRet (M E S) := λ A a s, Ret a s.
#[export] Instance M_bind E S : MBind (M E S) := λ A B k m s,
  match m s with
  | Ret a s' => k a s'
  | Exn e s' => Exn e s'
  | Stuck f => Stuck f
  end.

Declare Scope cpp_scope.
Delimit Scope cpp_scope with cpp.
Notation "'let*' x := m 'in' k" := (mbind (λ x, k) m)
  (at level 10, x binder, m at level 100, k at level 200) : cpp_scope.
Notation "'let*' ' x := m 'in' k" := (mbind (λ y, match y with x => k end) m)
  (at level 10, x strict pattern, m at level 100, k at level 200) : cpp_scope.
Notation "m ;; k" := (mbind (λ _, k) m)
  (at level 100, k at level 200, right associativity) : cpp_scope.
Notation "'when' b 'then' m" := (if b then m else mret tt)
  (at level 60, b at level 59, m at level 60) : cpp_scope.
#[global] Open Scope cpp_scope.

Section StateOperations.
Context {E S : Type}.

(** Reading, updating and leaving. *)
Definition gets {A} (f : S → A) : M E S A := λ s, Ret (f s) s.
Definition modify (f : S → S) : M E S unit := λ s, Ret tt (f s).
Definition throw {A} (e : E) : M E S A := λ s, Exn e s.
Definition stuck {A} (f : fault) : M E S A := λ s, Stuck f.
Definition lift_result {A} (r : result A) : M E S A :=
  match r with Ok a => mret a | Fail f => stuck f end.

(** [try { m } catch (e) { h e }]. *)
Definition catch {A} (m : M E S A) (h : E → M E S A) : M E S A := λ s,
  match m s with
  | Exn e s' => h e s'
  | o => o
  end.

(** A loop over the elements of a container, in order. *)
Fixpoint for_each {A} (l : list A) (body : A → M E S unit) : M E S unit :=
  match l with
  | [] => mret tt
  | x :: l' => body x ;; for_each l' body
  end.

End StateOperations.

Lemma M_bind_eq {E S A B} (m : M E S A) (k : A → M E S B) s :
  mbind k m s =
  match m s with Ret a s' => k a s' | Exn e s' => Exn e s' | Stuck f => Stuck f end.
Proof. done. Qed.

Lemma M_bind_ret {E S A B} (m : M E S A) (k : A → M E S B) s a s' :
  m s = Ret a s' → mbind k m s = k a s'.
Proof. intros H. unfold mbind, M_bind. by rewrite H. Qed.

Lemma M_bind_assoc {E S A B C} (m : M E S A) (f : A → M E S B) (g : B → M E S C) s :
  (mbind g (mbind f m)) s = (mbind (λ a, mbind g (f a)) m) s.
Proof. unfold mbind, M_bind. by destruct (m s). Qed.
Lemma M_bind_ext {E S A B} (m : M E S A) (f g : A → M E S B) s :
  (∀ a s', f a s' = g a s') → (mbind f m) s = (mbind g m) s.
Proof. intros H. unfold mbind, M_bind. by destruct (m s). Qed.

Lemma M_bind_exn {E S A B} (m : M E S A) (k : A → M E S B) s e s' :
  m s = Exn e s' → mbind k m s = Exn e s'.
Proof. intros H. unfold mbind, M_bind. by rewrite H. Qed.

Lemma M_bind_inv {E S A B} (m : M E S A) (k : A → M E S B) s b s'' :
  mbind k m s = Ret b s'' → ∃ a s', m s = Ret a s' ∧ k a s' = Ret b s''.
Proof.
  unfold mbind, M_bind. destruct (m s) as [a s'| |] eqn:Hm; intros H; try done.
  eauto.
Qed.

Lemma result_bind_inv {A B} (m : result A) (k : A → result B) b :
  mbind k m = Ok b → ∃ a, m = Ok a ∧ k a = Ok b.
Proof. destruct m as [a|f]; [eauto | done]. Qed.

Lemma for_each_app {E S A} (l1 l2 : list A) (body : A → M E S unit) s s1 :
  for_each l1 body s = Ret tt s1 →
  for_each (l1 ++ l2) body s = for_each l2 body s1.
Proof.
  revert s. induction l1 as [|x l1 IH]; simpl; intros s H.
  - by injection H as <-.
  - apply M_bind_inv in H as ([] & s' & H1 & H2).
    erewrite M_bind_ret by done. by apply IH.
Qed.

(** Rule for loops: an invariant of the body is an invariant of the loop. *)
Lemma for_each_inv {E S A} (l : list A) (body : A → M E S unit) (I : S → Prop) s s' :
  (∀ x t t', x ∈ l → I t → body x t = Ret tt t' → I t') →
  I s → for_each l body s = Ret tt s' → I s'.
Proof.
  revert s. induction l as [|x l IH]; simpl; intros s Hb HI H.
  - by injection H as <-.
  - apply M_bind_inv in H as ([] & s1 & H1 & H2).
    eapply IH; [|eapply Hb, H1; [apply elem_of_cons; by left|done]|done].
    intros; eapply Hb; [by apply elem_of_cons; right|done..].
Qed.

(** One step of the symbolic execution of a program in [M]: run the first
    action of a bind with an equation from the context. *)
Ltac mstep :=
  match goal with
  | |- context [ @mbind (M ?E ?S) _ _ _ ?k ?m ?s ] =>
      first
        [ erewrite (M_bind_ret m k s) by eassumption
        | erewrite (M_bind_ret m k s) by reflexivity
        | erewrite (M_bind_exn m k s) by eassumption
        | erewrite (M_bind_exn m k s) by reflexivity ]
  end; cbv beta iota.

Ltac minv :=
  repeat match goal with
  | H : @mbind (M _ _) _ _ _ _ _ _ = Ret _ _ |- _ =>
      let a := fresh "a" in let s := fresh "s" in let H1 := fresh "H" in
      apply M_bind_inv in H as (a & s & H1 & H)
  | H : @mbind result _ _ _ _ _ = Ok _ |- _ =>
      let a := fresh "a" in let H1 := fresh "H" in
      apply result_bind_inv in H as (a & H1 & H)
  | H : Ret _ _ = Ret _ _ |- _ => injection H as ?; subst
  | H : Ok _ = Ok _ |- _ => injection H as ?; subst
  end.

(** * Vectors indexed by machine integers *)
Section ZLists.
Local Open Scope Z_scope.
Context {A : Type}.
Implicit Types (l : list A) (i j : Z) (x : A).

Definition zlen l : Z := Z.of_nat (length l).

(** [v[i]] for an index that need not be in range. *)
Definition zlookup l i : option A := if 0 <=? i then l !! Z.to_nat i else None.

(** [v[i] = x]; nothing happens out of range, the callers check the range. *)
Definition zinsert i x l : list A := if 0 <=? i then <[Z.to_nat i := x]> l else l.

(** The accesses [v[i]] and [v[i] = x] of the code. *)
Definition vec_at l i : result A :=
  match zlookup l i with Some x => Ok x | None => Fail OutOfBounds end.
Definition vec_set l i x : result (list A) :=
  match zlookup l i with Some _ => Ok (zinsert i x l) | None => Fail OutOfBounds end.

Lemma zlookup_Some_range l i x : zlookup l i = Some x → 0 ≤ i < zlen l.
Proof.
  unfold zlookup, zlen. destruct (Z.leb_spec 0 i); [|done].
  intros Hx%lookup_lt_Some. lia.
Qed.

Lemma zlookup_is_Some l i : 0 ≤ i < zlen l → ∃ x, zlookup l i = Some x.
Proof.
  unfold zlookup, zlen. intros Hi. destruct (Z.leb_spec 0 i); [|lia].
  apply lookup_lt_is_Some. lia.
Qed.

Lemma zlen_insert i x l : zlen (zinsert i x l) = zlen l.
Proof. unfold zlen, zinsert. case_match; [by rewrite length_insert|done]. Qed.

Lemma zlookup_insert_eq l i x y : zlookup l i = Some y → zlookup (zinsert i x l) i = Some x.
Proof.
  unfold zlookup, zinsert. case_match; [|done].
  intros Hx%lookup_lt_Some. by apply list_lookup_insert_eq.
Qed.

Lemma zlookup_insert_ne l i j x : i ≠ j → zlookup (zinsert i x l) j = zlookup l j.
Proof.
  unfold zlookup, zinsert. intros Hne.
  destruct (Z.leb_spec 0 i), (Z.leb_spec 0 j); try done.
  apply list_lookup_insert_ne. lia.
Qed.

Lemma zlookup_insert l i j x y :
  zlookup l i = Some y →
  zlookup (zinsert i x l) j = if decide (i = j) then Some x else zlookup l j.
Proof.
  intros H. case_decide; subst.
  - by eapply zlookup_insert_eq.
  - by apply zlookup_insert_ne.
Qed.

Lemma vec_at_Ok l i x : zlookup l i = Some x → vec_at l i = Ok x.
Proof. intros H. unfold vec_at. by rewrite H. Qed.

Lemma vec_set_Ok l i x y : zlookup l i = Some y → vec_set l i x = Ok (zinsert i x l).
Proof. intros H. unfold vec_set. by rewrite H. Qed.

Lemma zlookup_nat l i x : zlookup l i = Some x → l !! Z.to_nat i = Some x.
Proof. unfold zlookup. by case_match. Qed.

Lemma zlookup_of_nat l (n : nat) : zlookup l (Z.of_nat n) = l !! n.
Proof. unfold zlookup. destruct (Z.leb_spec 0 (Z.of_nat n)); [|lia]. by rewrite Nat2Z.id. Qed.

Lemma zlookup_replicate n x i y : zlookup (replicate n x) i = Some y → y = x.
Proof. unfold zlookup. case_match; [|done]. by intros [-> _]%lookup_replicate. Qed.
Lemma zlookup_replicate_2 n x i : 0 ≤ i < Z.of_nat n → zlookup (replicate n x) i = Some x.
Proof. intros Hi. unfold zlookup. rewrite (proj2 (Z.leb_le 0 i)) by lia. apply lookup_replicate_2. lia. Qed.

End ZLists.

(** * Boolean quantifiers over lists *)
Lemma forallb_elem {A} (f : A → bool) (l : list A) :
  forallb f l = true ↔ ∀ x, x ∈ l → f x = true.
Proof. rewrite forallb_forall. by setoid_rewrite list_elem_of_In. Qed.

Lemma existsb_elem {A} (f : A → bool) (l : list A) :
  existsb f l = true ↔ ∃ x, x ∈ l ∧ f x = true.
Proof. rewrite existsb_exists. by setoid_rewrite list_elem_of_In. Qed.
