(* ===== verification/CacheTypes.v ===== *)
(** * The data types of [prototype/cache.thrift]

    The structs and the enum that the view service, the storage servers and the
    clients exchange, with the ordering [cmpServers]/[ltstr] under which the
    C++ code keys its [std::map]s by server, and the ordered traversal of a
    [std::map] that is modelled by a [gmap]. *)

From S2P Require Import Prelude.
From stdpp Require Import base gmap list strings sorting.
From Stdlib Require Import ZArith Lia String Ascii.

(** ** Structs *)

(** [struct Server]. *)
Record Server := mkServer { srv_server : string; srv_port : Z }.

#[export] Instance Server_eq_dec : EqDecision Server.
Proof. solve_decision. Defined.

#[export] Instance Server_countable : Countable Server.
Proof.
  refine (inj_countable' (λ s, (srv_server s, srv_port s))
                         (λ p, mkServer p.1 p.2) _).
  by intros [].
Defined.

(** [enum Status]. *)
Inductive Status := OK | NO_KEY | WRONG_SERVER.

#[export] Instance Status_eq_dec : EqDecision Status.
Proof. solve_decision. Defined.

(** The numbers the enum constants have on the wire. *)
Definition Status_to_Z (s : Status) : Z :=
  match s with OK => 1 | NO_KEY => 2 | WRONG_SERVER => 3 end%Z.

Record PutArgs := mkPutArgs { put_key : string; put_value : string; put_viewNum : Z }.
Record GetArgs := mkGetArgs { get_key : string; get_viewNum : Z }.
Record PutReply := mkPutReply { put_status : Status }.
Record GetReply := mkGetReply { get_status : Status; get_value : string }.

(** [struct View]: the ring, a [std::map<int, std::vector<Server> >]. *)
Record View := mkView { hashToServer : gmap Z (list Server) }.

Record GetServersReply := mkGetServersReply { gsr_view : View; gsr_viewNum : Z }.

Record GetStatisticsReply := mkStatistics {
  numInsertions : Z; numUpdates : Z; numGoodGets : Z; numFailedGets : Z;
  dataSize : Z; memoryOverhead : Z; numEvictions : Z; numPurges : Z }.

(** The thrift compiler initialises every numeric field with 0. *)
Definition zero_statistics : GetStatisticsReply := mkStatistics 0 0 0 0 0 0 0 0.
Definition default_GetServersReply : GetServersReply := mkGetServersReply (mkView ∅) 0.

Record VersionEntry := mkVersionEntry { ve_server : Server; ve_version : Z }.
Record Entry := mkEntry { e_key : string; e_value : string; e_version : list VersionEntry }.
Record AntiEntropyArgs := mkAntiEntropyArgs { aea_entries : list Entry; aea_viewNum : Z }.
Record AntiEntropyReply := mkAntiEntropyReply {
  aer_status : Status; aer_invalidatedEntries : list string }.

(** A version vector as the server keeps it,
    [std::vector<std::pair<Server, long long> >]. *)
Abbreviation Version := (list (Server * Z)).

(** ** Exceptions of the program *)
Inductive cache_exn :=
| EmptyRingException
| ViewServiceException
| WrongServerException
| ConnectionFailedException
| TTransportException
| std_bad_alloc.

#[export] Instance cache_exn_eq_dec : EqDecision cache_exn.
Proof. solve_decision. Defined.

(** ** The ordering of servers *)

Section Order.
Local Open Scope Z_scope.

(** [make_pair(a.server, a.port) < make_pair(b.server, b.port)]: strings are
    compared byte by byte as unsigned characters. *)
Definition cmpServers (a b : Server) : bool :=
  match String.compare (srv_server a) (srv_server b) with
  | Lt => true
  | Gt => false
  | Eq => srv_port a <? srv_port b
  end.

(** [not (b < a)], the order in which a [std::map] with this comparator is
    traversed. *)
Definition server_le (a b : Server) : Prop := cmpServers b a = false.

#[export] Instance server_le_dec : RelDecision server_le.
Proof. intros a b. unfold server_le. apply _. Defined.

Lemma ascii_compare_lt_trans a b c :
  Ascii.compare a b = Lt → Ascii.compare b c = Lt → Ascii.compare a c = Lt.
Proof. unfold Ascii.compare. rewrite !N.compare_lt_iff. lia. Qed.

Lemma string_compare_eq s t : String.compare s t = Eq ↔ s = t.
Proof.
  split; [apply String.compare_eq_iff|]. intros ->. induction t as [|c t IH]; simpl; [done|].
  replace (Ascii.compare c c) with Eq; [done|].
  unfold Ascii.compare. by rewrite N.compare_refl.
Qed.

Lemma string_compare_lt_trans a b c :
  String.compare a b = Lt → String.compare b c = Lt → String.compare a c = Lt.
Proof.
  revert b c. induction a as [|x a IH]; intros [|y b] [|z c]; simpl; try done.
  destruct (Ascii.compare x y) eqn:Hxy, (Ascii.compare y z) eqn:Hyz; intros; try done.
  - apply Ascii.compare_eq_iff in Hxy as ->. apply Ascii.compare_eq_iff in Hyz as ->.
    unfold Ascii.compare. rewrite N.compare_refl. eauto.
  - apply Ascii.compare_eq_iff in Hxy as ->. by rewrite Hyz.
  - apply Ascii.compare_eq_iff in Hyz as ->. by rewrite Hxy.
  - by rewrite (ascii_compare_lt_trans _ _ _ Hxy Hyz).
Qed.

(** The comparator is a strict weak order in which incomparable servers are
    equal, which is what [std::map] requires of it. *)
Lemma cmpServers_irrefl a : cmpServers a a = false.
Proof.
  unfold cmpServers. rewrite (proj2 (string_compare_eq _ _) eq_refl). apply Z.ltb_irrefl.
Qed.

Lemma cmpServers_trans a b c :
  cmpServers a b = true → cmpServers b c = true → cmpServers a c = true.
Proof.
  unfold cmpServers.
  destruct (String.compare (srv_server a) (srv_server b)) eqn:Hab; try done;
  destruct (String.compare (srv_server b) (srv_server c)) eqn:Hbc; try done; intros Hp Hq.
  - apply string_compare_eq in Hab as ->. rewrite Hbc. lia.
  - apply string_compare_eq in Hab as ->. by rewrite Hbc.
  - apply string_compare_eq in Hbc as <-. by rewrite Hab.
  - by rewrite (string_compare_lt_trans _ _ _ Hab Hbc).
Qed.

Lemma cmpServers_total a b : cmpServers a b = true ∨ a = b ∨ cmpServers b a = true.
Proof.
  destruct a as [sa pa], b as [sb pb]; unfold cmpServers; simpl.
  rewrite (String.compare_antisym sa sb).
  destruct (String.compare sb sa) eqn:Hab; simpl; auto.
  apply string_compare_eq in Hab as ->.
  destruct (Z.lt_trichotomy pa pb) as [?|[->|?]];
    [left|right; left|right; right]; by rewrite ?Z.ltb_lt.
Qed.

#[export] Instance server_le_total : Total server_le.
Proof.
  intros a b. unfold server_le.
  destruct (cmpServers_total a b) as [H|[->|H]].
  - left. destruct (cmpServers b a) eqn:Hba; [|done].
    pose proof (cmpServers_trans _ _ _ H Hba) as Hc. by rewrite cmpServers_irrefl in Hc.
  - left. apply cmpServers_irrefl.
  - right. destruct (cmpServers a b) eqn:Hab; [|done].
    pose proof (cmpServers_trans _ _ _ H Hab) as Hc. by rewrite cmpServers_irrefl in Hc.
Qed.

#[export] Instance server_le_trans : Transitive server_le.
Proof.
  intros a b c. unfold server_le. intros Hab Hbc.
  destruct (cmpServers c a) eqn:Hca; [|done].
  destruct (cmpServers_total a b) as [H|[->|H]]; [|congruence..].
  pose proof (cmpServers_trans _ _ _ Hca H). congruence.
Qed.

End Order.

(** ** Traversal of a [std::map]

    [map_iter le m] lists the entries of [m] in the order of their keys. *)
Section MapIter.
Context {K V : Type} `{Countable K} (le : relation K) `{!RelDecision le}.

Definition entry_le : relation (K * V) := λ p q, le p.1 q.1.
#[local] Instance entry_le_dec : RelDecision entry_le.
Proof. intros p q. unfold entry_le. apply _. Defined.
#[local] Instance entry_le_total `{!Total le} : Total entry_le.
Proof. intros p q. apply (total le). Qed.
#[local] Instance entry_le_trans `{!Transitive le} : Transitive entry_le.
Proof. intros p q r Hpq Hqr. unfold entry_le in *. by etrans. Qed.

Definition map_iter (m : gmap K V) : list (K * V) := merge_sort entry_le (map_to_list m).

Lemma map_iter_perm m : map_iter m ≡ₚ map_to_list m.
Proof. apply merge_sort_Permutation. Qed.

Lemma elem_of_map_iter m k v : (k, v) ∈ map_iter m ↔ m !! k = Some v.
Proof. rewrite map_iter_perm. apply elem_of_map_to_list. Qed.

Lemma map_iter_sorted `{!Total le, !Transitive le} m : StronglySorted entry_le (map_iter m).
Proof. apply StronglySorted_merge_sort; apply _. Qed.

Lemma map_iter_nil m : map_iter m = [] ↔ m = ∅.
Proof.
  split.
  - intros Hn. apply map_to_list_empty_iff, Permutation_nil_r.
    by rewrite <- Hn, map_iter_perm.
  - intros ->. apply Permutation_nil_r. by rewrite map_iter_perm, map_to_list_empty.
Qed.

Lemma map_iter_NoDup m : NoDup (map_iter m).*1.
Proof. rewrite map_iter_perm. apply NoDup_fst_map_to_list. Qed.

End MapIter.
