(* ===== verification/ConsistentHashing.v ===== *)
(** * [prototype/ConsistentHashing.h]

    The hash function [ir_hash] and [getServer], which maps a hash to the
    replica set in charge of it. *)

From S2P Require Import Prelude CacheTypes.
From stdpp Require Import base gmap list strings sorting.
From Stdlib Require Import ZArith Lia String Ascii.

Section Hash.
Local Open Scope Z_scope.

(** [(unsigned int) key[i]]: [char] is signed, so the conversion extends the
    sign. *)
Definition char_to_uint (c : ascii) : Z := u32 (i8 (Z.of_N (N_of_ascii c))).

(** One iteration of the loop of [ir_hash]. *)
Definition hash_step (result : Z) (c : ascii) : Z :=
  let result := Z.lxor result (char_to_uint c) in
  u32 (result + u32 (u32 (Z.shiftl result 1) + u32 (Z.shiftl result 4)
                     + u32 (Z.shiftl result 7) + u32 (Z.shiftl result 8)
                     + u32 (Z.shiftl result 24))).

Fixpoint hash_loop (result : Z) (key : string) : Z :=
  match key with
  | EmptyString => result
  | String c key' => hash_loop (hash_step result c) key'
  end.

(** [ir_hash]: the unsigned result is returned as an [int]. *)
Definition ir_hash (key : string) : Z := i32 (hash_loop 0 key).

(** ** The reference definition: 32-bit FNV-1a with a zero offset basis *)
Definition FNV_prime : Z := 16777619.
Fixpoint fnv1a (h : Z) (key : string) : Z :=
  match key with
  | EmptyString => h
  | String c key' => fnv1a (Z.lxor h (char_to_uint c) * FNV_prime mod 2 ^ 32) key'
  end.

Lemma hash_step_fnv r c :
  hash_step r c = Z.lxor r (char_to_uint c) * FNV_prime mod 2 ^ 32.
Proof.
  unfold hash_step, u32, wrapu, FNV_prime. set (x := Z.lxor r (char_to_uint c)).
  rewrite !Z.shiftl_mul_pow2, Zplus_mod_idemp_r by lia.
  rewrite (Z.mod_eq (x * 2 ^ 1)), (Z.mod_eq (x * 2 ^ 4)), (Z.mod_eq (x * 2 ^ 7)),
    (Z.mod_eq (x * 2 ^ 8)), (Z.mod_eq (x * 2 ^ 24)) by lia.
  match goal with |- ?l mod _ = ?r mod ?m =>
    replace l with (r + (- (x * 2 ^ 1 / m) - (x * 2 ^ 4 / m) - (x * 2 ^ 7 / m)
                         - (x * 2 ^ 8 / m) - (x * 2 ^ 24 / m)) * m) by ring end.
  apply Z_mod_plus_full.
Qed.

Lemma hash_loop_fnv h key : hash_loop h key = fnv1a h key.
Proof.
  revert h. induction key as [|c key IH]; intros h; simpl; [done|].
  by rewrite IH, hash_step_fnv.
Qed.

Lemma hash_loop_range h key : 0 ≤ h < 2 ^ 32 → 0 ≤ hash_loop h key < 2 ^ 32.
Proof.
  revert h. induction key as [|c key IH]; intros h Hh; simpl; [done|].
  apply IH, wrapu_range; lia.
Qed.

End Hash.

(** ** The ring *)
Section Ring.
Local Open Scope Z_scope.

Abbreviation ring := (gmap Z (list Server)).

(** [std::map::lower_bound]: the first entry, in key order, whose key is not
    below [hash]. *)
Fixpoint lower_bound (hash : Z) (it : list (Z * list Server)) : option (Z * list Server) :=
  match it with
  | [] => None
  | (k, ss) :: it' => if hash <=? k then Some (k, ss) else lower_bound hash it'
  end.

(** [getServer]. *)
Definition getServer (hash : Z) (v : View) : cache_exn + list Server :=
  match map_iter Z.le (hashToServer v) with
  | [] => inl EmptyRingException
  | ((_, first) :: _) as it =>
      match lower_bound hash it with
      | None => inr first
      | Some (_, ss) => inr ss
      end
  end.

(** *** Specification

    The owner of a hash is its successor on the circle: the least position that
    is not below it or, when there is none, the least position of the ring. *)
Definition is_owner (r : ring) (h k : Z) : Prop :=
  is_Some (r !! k) ∧
  ((h ≤ k ∧ ∀ j, is_Some (r !! j) → h ≤ j → k ≤ j) ∨
   ((∀ j, is_Some (r !! j) → j < h) ∧ ∀ j, is_Some (r !! j) → k ≤ j)).

Lemma is_owner_unique r h k1 k2 : is_owner r h k1 → is_owner r h k2 → k1 = k2.
Proof.
  intros [Hs1 [[H1 M1]|[N1 M1]]] [Hs2 [[H2 M2]|[N2 M2]]].
  - pose proof (M1 _ Hs2 H2). pose proof (M2 _ Hs1 H1). lia.
  - pose proof (N2 _ Hs1). lia.
  - pose proof (N1 _ Hs2). lia.
  - pose proof (M1 _ Hs2). pose proof (M2 _ Hs1). lia.
Qed.

Lemma lower_bound_Some hash it k ss :
  StronglySorted (entry_le Z.le) it →
  lower_bound hash it = Some (k, ss) →
  (k, ss) ∈ it ∧ hash ≤ k ∧ ∀ j ss', (j, ss') ∈ it → hash ≤ j → k ≤ j.
Proof.
  induction it as [|[j ssj] it IH]; simpl; [done|]. intros Hs.
  apply StronglySorted_inv in Hs as [Hs Hall].
  destruct (Z.leb_spec hash j) as [Hle|Hlt]; intros Heq.
  - injection Heq as -> ->. split; [apply elem_of_cons; by left|]. split; [done|].
    intros j ss' [[= -> ->]|Hin]%elem_of_cons Hj; [lia|].
    rewrite Forall_forall in Hall. apply (Hall (j, ss') Hin).
  - destruct (IH Hs Heq) as (Hin & Hk & Hmin). split; [apply elem_of_cons; by right|].
    split; [done|]. intros j' ss' [[= -> ->]|Hin']%elem_of_cons Hj; [lia|eauto].
Qed.

Lemma lower_bound_None hash it j ss :
  lower_bound hash it = None → (j, ss) ∈ it → j < hash.
Proof.
  induction it as [|[j' ss'] it IH]; simpl; [by intros _ ?%elem_of_nil|].
  destruct (Z.leb_spec hash j'); [done|].
  intros Hn [[= -> ->]|Hin]%elem_of_cons; [done|eauto].
Qed.

(** [getServer] computes the replica set of the owner. *)
Lemma getServer_complete (r : ring) h :
  match getServer h (mkView r) with
  | inl e => e = EmptyRingException ∧ r = ∅
  | inr ss => ∃ k, is_owner r h k ∧ r !! k = Some ss
  end.
Proof.
  unfold getServer, is_owner. cbn [hashToServer].
  pose proof (map_iter_sorted Z.le r) as Hs.
  assert (∀ k ss, (k, ss) ∈ map_iter Z.le r ↔ r !! k = Some ss) as Hin
    by apply elem_of_map_iter.
  destruct (map_iter Z.le r) as [|[k0 ss0] it] eqn:Hit.
  { split; [done|]. by apply (map_iter_nil Z.le). }
  destruct (lower_bound h ((k0, ss0) :: it)) as [[k ss]|] eqn:Hlb; cbv beta iota.
  - apply lower_bound_Some in Hlb as (Hk & Hle & Hmin); [|done].
    apply Hin in Hk. exists k. split; [|done]. split; [by eapply mk_is_Some|]. left.
    split; [done|]. intros j [ssj Hj%Hin]. eauto.
  - exists k0. assert (r !! k0 = Some ss0) as Hk0 by (apply Hin, elem_of_cons; by left).
    split; [|done]. split; [by eapply mk_is_Some|]. right. split.
    + intros j [ssj Hj%Hin]. by eapply lower_bound_None.
    + intros j [ssj [[= -> ->]|Hj]%Hin%elem_of_cons]; [lia|].
      apply StronglySorted_inv in Hs as [_ Hall]. rewrite Forall_forall in Hall.
      apply (Hall _ Hj).
Qed.

Lemma getServer_owner_iff (r : ring) h ss :
  getServer h (mkView r) = inr ss ↔ ∃ k, is_owner r h k ∧ r !! k = Some ss.
Proof.
  pose proof (getServer_complete r h) as Hc.
  destruct (getServer h (mkView r)) as [e|ss'].
  - destruct Hc as [-> ->]. split; [done|]. intros (k & _ & Hk). by rewrite lookup_empty in Hk.
  - split; [intros [= ->]; done|]. intros (k & Hk & Hss).
    destruct Hc as (k' & Hk' & Hss'). rewrite (is_owner_unique _ _ _ _ Hk Hk') in Hss.
    congruence.
Qed.

Lemma getServer_of_owner (r : ring) h k ss :
  is_owner r h k → r !! k = Some ss → getServer h (mkView r) = inr ss.
Proof. intros. apply getServer_owner_iff. eauto. Qed.

(** Position [p] lies on the arc that starts at [h] and runs upwards, around the
    end of the circle if need be, to [k]. *)
Definition on_arc (h p k : Z) : bool :=
  if h <=? k then (h <=? p) && (p <=? k) else (h <=? p) || (p <=? k).

Lemma is_owner_insert (r : ring) h k p ss :
  is_owner r h k → is_owner (<[p := ss]> r) h (if on_arc h p k then p else k).
Proof.
  intros [Hs Hk]. unfold on_arc, is_owner.
  assert (∀ j, is_Some (<[p := ss]> r !! j) ↔ j = p ∨ is_Some (r !! j)) as Hi.
  { intros j. rewrite lookup_insert. case_decide as Hd; subst; [|by intuition congruence].
    split; [by left|]. intros _. by eapply mk_is_Some. }
  rewrite Hi. setoid_rewrite Hi.
  destruct Hk as [[Hle Hmin]|[Hnone Hmin]].
  - destruct (Z.leb_spec h k), (Z.leb_spec h p), (Z.leb_spec p k); simpl; try lia;
      (split; [auto|left; split; [lia|]; intros j [->|Hj] ?; try lia;
        specialize (Hmin _ Hj); lia]).
  - pose proof (Hnone _ Hs).
    destruct (Z.leb_spec h k), (Z.leb_spec h p), (Z.leb_spec p k); simpl; try lia;
      (split; [auto|]).
    1: left; split; [lia|]; intros j [->|Hj] ?; [lia|]; specialize (Hnone _ Hj); lia.
    all: right; split; intros j [->|Hj]; try lia;
      specialize (Hnone _ Hj); specialize (Hmin _ Hj); lia.
Qed.

(** A position keeps the hashes it owns when other positions disappear. *)
Lemma is_owner_sub (r r' : ring) h k :
  is_owner r h k → is_Some (r' !! k) → (∀ j, is_Some (r' !! j) → is_Some (r !! j)) →
  is_owner r' h k.
Proof.
  intros [Hs Hk] Hs' Hi. split; [done|].
  destruct Hk as [[Hle Hmin]|[Hnone Hmin]]; [left|right]; eauto 6.
Qed.

End Ring.

(** ** Properties *)

(** [ir_hash] is the 32-bit FNV-1a hash with offset basis 0 (the sum of
    shifts is a multiplication by the prime 16777619), read as an [int]. *)
Theorem ir_hash_is_fnv1a key :
  ir_hash key = i32 (fnv1a 0 key) ∧ (- 2 ^ 31 ≤ ir_hash key < 2 ^ 31)%Z.
Proof.
  unfold ir_hash. rewrite hash_loop_fnv. split; [done|]. by apply (wraps_range 32).
Qed.

(** C12: [getServer] throws exactly on the empty ring, and otherwise returns the
    replicas at the successor of the hash on the circle, wrapping around to the
    least position. *)
Theorem getServer_is_successor (r : gmap Z (list Server)) h :
  (getServer h (mkView r) = inl EmptyRingException ↔ r = ∅) ∧
  (∀ ss, getServer h (mkView r) = inr ss ↔ ∃ k, is_owner r h k ∧ r !! k = Some ss).
Proof.
  split; [|intros; apply getServer_owner_iff]. pose proof (getServer_complete r h) as Hc.
  destruct (getServer h (mkView r)) as [e|ss].
  - destruct Hc as [-> ->]. done.
  - destruct Hc as (k & _ & Hk). split; [done|]. intros ->. by rewrite lookup_empty in Hk.
Qed.
