(* ===== verification/Versions.v ===== *)
(** * Version vectors of [prototype/server.cpp]

    Every record of a storage server carries a version vector, a list of pairs
    of a server and the number of writes it has performed on the key.  This file
    models the functions that compare, merge and advance version vectors. *)

From S2P Require Import Prelude CacheTypes.
From stdpp Require Import base gmap list strings.
From Stdlib Require Import ZArith Lia.

Section Versions.
Local Open Scope Z_scope.

(** [atMost]: the first double loop looks for a component of [v1] that exceeds
    the one of [v2], the second one for a component that [v2] lacks. *)
Definition atMost (v1 v2 : Version) : bool :=
  forallb (λ p1, forallb (λ p2,
      negb (bool_decide (p1.1 = p2.1) && (p1.2 >? p2.2))) v2) v1 &&
  forallb (λ p1, existsb (λ p2, bool_decide (p1.1 = p2.1)) v2) v1.

(** [updateVersion]: components of [v1] for the server of [v2] are raised. *)
Definition updateVersion (v1 : Version) (v2 : Server * Z) : Version :=
  (λ p, if bool_decide (v2.1 = p.1) then (p.1, Z.max p.2 v2.2) else p) <$> v1.

(** [maximumVersion]: the result starts empty. *)
Definition maximumVersion (v1 v2 : Version) : Version :=
  foldl updateVersion (foldl updateVersion [] v1) v2.

(** The loop of [put] that advances the component of the server itself, or adds
    it when there is none: [++it->second; break]. *)
Fixpoint bump (self : Server) (v : Version) : option Version :=
  match v with
  | [] => None
  | (s, n) :: v' =>
      if bool_decide (s = self) then Some ((s, i64 (n + 1)) :: v')
      else cons (s, n) <$> bump self v'
  end.

Definition bump_version (self : Server) (v : Version) : Version :=
  match bump self v with
  | Some v' => v'
  | None => v ++ [(self, 1)]
  end.

(** [find] over the replica set and [push_back] of the components to keep, the
    first part of [adjustVersion]. *)
Definition restrict_version (servers : list Server) (v : Version) : Version :=
  filter (λ p, p.1 ∈ servers) v.

(** ** What the functions compute *)

(** A version vector without repeated servers, read as a function. *)
Definition vv (v : Version) : gmap Server Z := list_to_map v.

Definition version_wf (v : Version) : Prop := NoDup v.*1.

Lemma vv_lookup v s n : version_wf v → vv v !! s = Some n ↔ (s, n) ∈ v.
Proof. intros Hv. symmetry. by apply elem_of_list_to_map. Qed.

(** The pointwise order on version vectors, a missing component being below
    every component. *)
Definition vv_le (m1 m2 : gmap Server Z) : Prop :=
  ∀ s n, m1 !! s = Some n → ∃ n', m2 !! s = Some n' ∧ n ≤ n'.

#[export] Instance vv_le_preorder : PreOrder vv_le.
Proof.
  split.
  - intros m s n Hs. eauto with lia.
  - intros m1 m2 m3 H12 H23 s n Hs.
    destruct (H12 s n Hs) as (n' & Hs' & ?). destruct (H23 s n' Hs') as (n'' & ? & ?).
    eauto with lia.
Qed.

#[export] Instance vv_le_antisymm : AntiSymm eq vv_le.
Proof.
  intros m1 m2 H12 H21. apply map_eq. intros s.
  destruct (m1 !! s) as [n|] eqn:H1.
  - destruct (H12 s n H1) as (n' & H2 & ?). destruct (H21 s n' H2) as (n'' & H1' & ?).
    simplify_eq. rewrite H2. f_equal. lia.
  - destruct (m2 !! s) as [n|] eqn:H2; [|done].
    destruct (H21 s n H2) as (n' & H1' & ?). congruence.
Qed.

Lemma atMost_spec v1 v2 :
  version_wf v1 → version_wf v2 → atMost v1 v2 = true ↔ vv_le (vv v1) (vv v2).
Proof.
  intros Hv1 Hv2. unfold atMost. rewrite andb_true_iff, !forallb_elem. split.
  - intros [Hle Hex] s n Hs%vv_lookup; [|done].
    specialize (Hle _ Hs). specialize (Hex _ Hs). simpl in *.
    apply existsb_elem in Hex as ([s' n'] & Hin & ->%bool_decide_eq_true). simpl in *.
    exists n'. split; [by apply vv_lookup|].
    rewrite forallb_elem in Hle. specialize (Hle _ Hin). simpl in Hle.
    rewrite bool_decide_true in Hle by done.
    destruct (Z.gtb_spec n n'); [done|lia].
  - intros Hle. split; intros [s n] Hin; simpl.
    + apply forallb_elem. intros [s' n'] Hin'; simpl.
      case_bool_decide as Heq; [subst s'|done]. simpl.
      destruct (Hle s n) as (m & Hm & ?); [by apply vv_lookup|].
      apply (vv_lookup _ _ _ Hv2) in Hin'. simplify_eq.
      destruct (Z.gtb_spec n n'); [lia|done].
    + apply existsb_elem.
      destruct (Hle s n) as (m & Hm%vv_lookup & ?); [by apply vv_lookup| |done].
      exists (s, m). split; [done|]. by apply bool_decide_eq_true.
Qed.

(** [atMost] ignores the order of the components. *)
#[export] Instance atMost_perm : Proper ((≡ₚ) ==> (≡ₚ) ==> eq) atMost.
Proof.
  assert (∀ (f : Server * Z → bool) v v', v ≡ₚ v' → forallb f v = forallb f v') as Hall.
  { intros f v v' Hp. apply eq_true_iff_eq. rewrite !forallb_elem. by setoid_rewrite Hp. }
  assert (∀ (f : Server * Z → bool) v v', v ≡ₚ v' → existsb f v = existsb f v') as Hex.
  { intros f v v' Hp. apply eq_true_iff_eq. rewrite !existsb_elem. by setoid_rewrite Hp. }
  intros v1 v1' H1 v2 v2' H2. unfold atMost. f_equal.
  - rewrite (Hall _ _ _ H1). clear H1 v1. induction v1' as [|p v IH]; simpl; [done|].
    by rewrite IH, (Hall _ _ _ H2).
  - rewrite (Hall _ _ _ H1). clear H1 v1. induction v1' as [|p v IH]; simpl; [done|].
    by rewrite IH, (Hex _ _ _ H2).
Qed.

Lemma updateVersion_nil p : updateVersion [] p = [].
Proof. done. Qed.

Lemma foldl_updateVersion_nil v : foldl updateVersion [] v = [].
Proof. by induction v. Qed.

(** A merge that is the join of the two vectors, for comparison. *)
Definition vv_join (m1 m2 : gmap Server Z) : gmap Server Z :=
  union_with (λ n1 n2, Some (Z.max n1 n2)) m1 m2.

Lemma vv_join_ub m1 m2 : vv_le m1 (vv_join m1 m2) ∧ vv_le m2 (vv_join m1 m2).
Proof.
  unfold vv_join. split; intros s n Hs; rewrite lookup_union_with, Hs.
  - destruct (m2 !! s); simpl; eauto with lia.
  - destruct (m1 !! s); simpl; eauto with lia.
Qed.

Lemma bump_None self v : bump self v = None ↔ self ∉ v.*1.
Proof.
  induction v as [|[s n] v IH]; simpl.
  - split; [intros _ H; by apply elem_of_nil in H|done].
  - case_bool_decide as Heq.
    + subst. split; [done|]. intros H. exfalso. apply H, elem_of_cons. by left.
    + rewrite not_elem_of_cons, <- IH. destruct (bump self v); simpl; naive_solver.
Qed.

Lemma bump_Some self v v' :
  bump self v = Some v' →
  ∃ v1 n v2, v = v1 ++ (self, n) :: v2 ∧ v' = v1 ++ (self, i64 (n + 1)) :: v2.
Proof.
  revert v'. induction v as [|[s n] v IH]; intros v'; simpl; [done|].
  case_bool_decide as Heq.
  - subst. intros [= <-]. by exists [], n, v.
  - destruct (bump self v) as [w|]; simpl; [|done]. intros [= <-].
    destruct (IH w eq_refl) as (v1 & m & v2 & -> & ->).
    by exists ((s, n) :: v1), m, v2.
Qed.

Lemma bump_version_wf self v : version_wf v → version_wf (bump_version self v).
Proof.
  unfold bump_version, version_wf. intros Hv. destruct (bump self v) eqn:Hb.
  - apply bump_Some in Hb as (v1 & n & v2 & -> & ->). by rewrite fmap_app in *.
  - apply bump_None in Hb. rewrite fmap_app. apply NoDup_app. split; [done|].
    split; [|apply NoDup_singleton]. intros s Hs. simpl.
    intros ->%list_elem_of_singleton. done.
Qed.

Lemma restrict_version_wf servers v : version_wf v → version_wf (restrict_version servers v).
Proof.
  unfold version_wf, restrict_version. intros Hv. eapply sublist_NoDup; [exact Hv|].
  apply fmap_sublist, sublist_filter.
Qed.

(** The components advanced by [put]: every value stays in the range of
    [long long]. *)
Definition version_bounded (v : Version) : Prop := Forall (λ p, 0 < p.2 < 2 ^ 63 - 1) v.

Lemma bump_version_lookup self v :
  version_wf v → version_bounded v →
  vv (bump_version self v) = <[self := default 0 (vv v !! self) + 1]> (vv v).
Proof.
  intros Hv Hb. pose proof (bump_version_wf self v Hv) as Hv'.
  apply map_eq. intros s. apply option_eq. intros m.
  rewrite vv_lookup by done. rewrite lookup_insert.
  unfold bump_version in *. destruct (bump self v) as [w|] eqn:Hbump.
  - apply bump_Some in Hbump as (v1 & n & v2 & -> & ->).
    assert (vv (v1 ++ (self, n) :: v2) !! self = Some n) as Hn.
    { apply vv_lookup; [done|]. apply elem_of_app. right. apply elem_of_cons. by left. }
    assert (i64 (n + 1) = n + 1) as Hi.
    { apply wraps_small; [lia|]. unfold version_bounded in Hb. rewrite Forall_forall in Hb.
      specialize (Hb (self, n)). simpl in Hb. enough (0 < n < 2 ^ 63 - 1) by lia. apply Hb.
      apply elem_of_app. right. apply elem_of_cons. by left. }
    rewrite Hn, Hi in *. simpl.
    case_decide as Hs.
    + subst s. rewrite <- (vv_lookup _ _ _ Hv').
      assert (vv (v1 ++ (self, n + 1) :: v2) !! self = Some (n + 1)) as ->.
      { apply vv_lookup; [done|]. apply elem_of_app. right. apply elem_of_cons. by left. }
      done.
    + rewrite vv_lookup by done. rewrite !elem_of_app, !elem_of_cons. naive_solver.
  - apply bump_None in Hbump.
    assert (vv v !! self = None) as ->.
    { unfold vv. by apply not_elem_of_list_to_map. }
    simpl. rewrite elem_of_app, list_elem_of_singleton.
    case_decide as Hs.
    + subst s. split; [|naive_solver]. intros [Hin|[= ->]]; [|done].
      exfalso. apply Hbump. apply list_elem_of_fmap. by exists (self, m).
    + rewrite vv_lookup by done. naive_solver.
Qed.

End Versions.
