(* ===== verification/HashTable.v ===== *)
(** * The hash table of [prototype/server.cpp]

    [KVStorageHandler] keeps its records in an open-addressing hash table with
    linear probing.  The records that are alive are also linked, by position,
    into a doubly linked list in the order of their last use.  This file holds
    the table, its operations, its invariant [wf] and the abstract view of it as
    a list of entries, most recently used first. *)

From S2P Require Import Prelude CacheTypes ConsistentHashing Versions.
From stdpp Require Import base gmap list strings.
From Stdlib Require Import ZArith Lia.

Local Open Scope Z_scope.

(** ** Data *)

Inductive State := EMPTY | ALIVE | DEAD.

#[export] Instance State_eq_dec : EqDecision State.
Proof. solve_decision. Defined.

(** [struct Record]. *)
Record HRecord := mkRecord {
  state : State; key : string; value : string; prev : Z; next : Z; version : Version }.

(** [Record()]. *)
Definition emptyRecord : HRecord := mkRecord EMPTY "" "" (-1) (-1) [].

Definition set_state (x : State) (r : HRecord) : HRecord :=
  mkRecord x (key r) (value r) (prev r) (next r) (version r).
Definition set_key (x : string) (r : HRecord) : HRecord :=
  mkRecord (state r) x (value r) (prev r) (next r) (version r).
Definition set_value (x : string) (r : HRecord) : HRecord :=
  mkRecord (state r) (key r) x (prev r) (next r) (version r).
Definition set_prev (x : Z) (r : HRecord) : HRecord :=
  mkRecord (state r) (key r) (value r) x (next r) (version r).
Definition set_next (x : Z) (r : HRecord) : HRecord :=
  mkRecord (state r) (key r) (value r) (prev r) x (version r).
Definition set_version (x : Version) (r : HRecord) : HRecord :=
  mkRecord (state r) (key r) (value r) (prev r) (next r) x.

(** The members of [KVStorageHandler] that make up the table. *)
Record Table := mkTable {
  hashTable : list HRecord;
  listHead : Z;
  listTail : Z;
  totalKeyValueSize : Z;
  numEntries : Z;
  numDeadEntries : Z }.

Definition with_hashTable (T : list HRecord) (t : Table) : Table :=
  mkTable T (listHead t) (listTail t) (totalKeyValueSize t) (numEntries t) (numDeadEntries t).
Definition with_listHead (x : Z) (t : Table) : Table :=
  mkTable (hashTable t) x (listTail t) (totalKeyValueSize t) (numEntries t) (numDeadEntries t).
Definition with_listTail (x : Z) (t : Table) : Table :=
  mkTable (hashTable t) (listHead t) x (totalKeyValueSize t) (numEntries t) (numDeadEntries t).
Definition with_totalKeyValueSize (x : Z) (t : Table) : Table :=
  mkTable (hashTable t) (listHead t) (listTail t) x (numEntries t) (numDeadEntries t).
Definition with_counts (n d : Z) (t : Table) : Table :=
  mkTable (hashTable t) (listHead t) (listTail t) (totalKeyValueSize t) n d.

Definition MEMORY_LIMIT : Z := 2 ^ 30.

(** The largest vector of records for which [operator new] finds memory.  A
    [Record] takes 56 bytes, so 2^31 of them need 120 GB. *)
Class Allocator := {
  max_records : Z;
  max_records_range : 10 ≤ max_records ≤ 2 ^ 31 }.

(** ** Operations *)

(** [std::string::size]. *)
Definition str_size (s : string) : Z := Z.of_nat (String.length s).

(** [hash]: the loop of [ir_hash], with an unsigned result. *)
Definition hash (k : string) : Z := hash_loop 0 k.

(** [hashTable[i].f = x]. *)
Definition upd (t : Table) (i : Z) (f : HRecord → HRecord) : result Table :=
  let* r := vec_at (hashTable t) i in
  Ok (with_hashTable (zinsert i (f r) (hashTable t)) t).

(** [getPosition]: the loop visits every position of the table before it repeats
    itself, so a run that exhausts a fuel of [hashTable.size()] never ends. *)
Fixpoint getPosition_loop (fuel : nat) (T : list HRecord) (k : string) (pos : Z) : result Z :=
  match fuel with
  | O => Fail OutOfFuel
  | S fuel' =>
      let* r := vec_at T pos in
      if decide (state r = EMPTY) then Ok (i32 pos)
      else if decide (state r = ALIVE ∧ key r = k) then Ok (i32 pos)
      else
        let pos := u32 (pos + 1) in
        getPosition_loop fuel' T k (if zlen T <=? pos then 0 else pos)
  end.

Definition getPosition (t : Table) (k : string) : result Z :=
  if zlen (hashTable t) =? 0 then Fail DivisionByZero
  else getPosition_loop (length (hashTable t)) (hashTable t) k
         (u32 (hash k mod zlen (hashTable t))).

(** [removeFromList]. *)
Definition removeFromList (pos : Z) (t : Table) : result Table :=
  let* r := vec_at (hashTable t) pos in
  if decide (state r ≠ ALIVE) then Fail AssertFailed else
  let* t :=
    (if prev r =? (-1) then Ok (with_listHead (next r) t)
     else upd t (prev r) (set_next (next r))) in
  let* r := vec_at (hashTable t) pos in
  if next r =? (-1) then Ok (with_listTail (prev r) t)
  else upd t (next r) (set_prev (prev r)).

(** [addToFront]. *)
Definition addToFront (pos : Z) (t : Table) : result Table :=
  let* r := vec_at (hashTable t) pos in
  if decide (state r ≠ ALIVE) then Fail AssertFailed else
  let* t := upd t pos (set_prev (-1)) in
  let* t := upd t pos (set_next (listHead t)) in
  let* t := (if listHead t =? (-1) then Ok t else upd t (listHead t) (set_prev pos)) in
  let t := with_listHead pos t in
  Ok (if listTail t =? (-1) then with_listTail pos t else t).

(** [accessEntry]. *)
Definition accessEntry (pos : Z) (t : Table) : result Table :=
  let* r := vec_at (hashTable t) pos in
  if decide (state r ≠ ALIVE) then Fail AssertFailed else
  let* t := removeFromList pos t in
  addToFront pos t.

(** [removeEntry]: the record is exchanged for a fresh one, which is marked
    [DEAD]. *)
Definition removeEntry (pos : Z) (t : Table) : result Table :=
  let* t := removeFromList pos t in
  let* r := vec_at (hashTable t) pos in
  let t := with_totalKeyValueSize
             (i32 (totalKeyValueSize t - (str_size (key r) + str_size (value r)))) t in
  let* t := upd t pos (λ _, emptyRecord) in
  let* t := upd t pos (set_state DEAD) in
  let* t := upd t pos (set_version []) in
  Ok (with_counts (numEntries t - 1) (numDeadEntries t + 1) t).

(** [addEntry(pos, key, value)] of the server [self]. *)
Definition addEntry (self : Server) (pos : Z) (k v : string) (t : Table) : result Table :=
  let* r := vec_at (hashTable t) pos in
  if decide (state r ≠ EMPTY) then Fail AssertFailed else
  let* t := upd t pos (set_state ALIVE) in
  let t := with_totalKeyValueSize (i32 (totalKeyValueSize t + (str_size k + str_size v))) t in
  let* t := upd t pos (set_key k) in
  let* t := upd t pos (set_value v) in
  let* t := upd t pos (set_version [(self, 1)]) in
  let* t := addToFront pos t in
  Ok (with_counts (numEntries t + 1) (numDeadEntries t) t).

(** The conversion of a version of the wire format. *)
Definition of_VersionEntries (v : list VersionEntry) : Version :=
  (λ e, (ve_server e, ve_version e)) <$> v.

(** [addEntry(pos, key, value, version)]. *)
Definition addEntry_version (self : Server) (pos : Z) (k v : string)
    (ver : list VersionEntry) (t : Table) : result Table :=
  let* t := addEntry self pos k v t in
  upd t pos (set_version (of_VersionEntries ver)).

(** [hashTable[pos].value = v] together with the bookkeeping around it in [put]
    and [propagate]. *)
Definition replaceValue (pos : Z) (v : string) (t : Table) : result Table :=
  let* r := vec_at (hashTable t) pos in
  let t := with_totalKeyValueSize (i32 (totalKeyValueSize t - str_size (value r))) t in
  let* t := upd t pos (set_value v) in
  let* r := vec_at (hashTable t) pos in
  Ok (with_totalKeyValueSize (i32 (totalKeyValueSize t + str_size (value r))) t).

(** [getUsedMemory]. *)
Definition getUsedMemory (t : Table) : Z := totalKeyValueSize t.

(** The loop of [rehash] that looks for an empty position of the new table. *)
Fixpoint rehash_probe (fuel : nat) (T : list HRecord) (pos : Z) : result Z :=
  match fuel with
  | O => Fail OutOfFuel
  | S fuel' =>
      let* r := vec_at T pos in
      if decide (state r = EMPTY) then Ok pos
      else
        let pos := u32 (pos + 1) in
        rehash_probe fuel' T (if zlen T <=? pos then 0 else pos)
  end.

(** The loop of [rehash] over the list of the old table [T].  The state is the
    new table with [newListHead] and [newListTail]; key, value and version are
    swapped out of the old record, which is not looked at again. *)
Fixpoint rehash_loop (fuel : nat) (T : list HRecord) (i : Z)
    (N : list HRecord) (newListHead newListTail : Z) : result (list HRecord * Z * Z) :=
  if i =? (-1) then Ok (N, newListHead, newListTail) else
  match fuel with
  | O => Fail OutOfFuel
  | S fuel' =>
      let* r := vec_at T i in
      let* pos := (if zlen N =? 0 then Fail DivisionByZero
                   else rehash_probe (length N) N (u32 (hash (key r) mod zlen N))) in
      let* N := vec_set N pos (mkRecord ALIVE (key r) (value r) newListTail (-1) (version r)) in
      let* N := (if newListTail =? (-1) then Ok N
                 else let* rt := vec_at N newListTail in
                      vec_set N newListTail (set_next (i32 pos) rt)) in
      rehash_loop fuel' T (next r) N
        (if newListHead =? (-1) then i32 pos else newListHead) (i32 pos)
  end.

Section Rehash.
Context `{Allocator}.

(** [rehash]: the vector of [newSize] records may not fit into memory. *)
Definition rehash (newSize : Z) (t : Table) : result Table :=
  if max_records <? newSize then Fail BadAlloc else
  let newTable := replicate (Z.to_nat newSize) emptyRecord in
  let* '(N, h, l) :=
    rehash_loop (length (hashTable t)) (hashTable t) (listHead t) newTable (-1) (-1) in
  Ok (mkTable N h l (totalKeyValueSize t) (numEntries t) 0).

(** The two conditional rehashes at the end of [normalizeTable].  The
    comparisons with [LOAD_FACTOR1 = 0.25] and [LOAD_FACTOR2 = 0.5] and the
    product with [GROWTH_FACTOR = 2.0] are exact in [double] for all table sizes
    below 2^53. *)
Definition normalizeLoad (t : Table) : result Table :=
  let* t := (if zlen (hashTable t) <? 4 * numEntries t
             then rehash (2 * zlen (hashTable t)) t else Ok t) in
  if zlen (hashTable t) <? 2 * (numEntries t + numDeadEntries t)
  then rehash (zlen (hashTable t)) t else Ok t.

End Rehash.

(** The initial table of the constructor, [hashTable(10)]. *)
Definition initialTable : Table := mkTable (replicate 10 emptyRecord) (-1) (-1) 0 0 0.
