(* ===== verification/HashTableInv.v ===== *)
(** * Invariant of the hash table

    [links] describes the doubly linked list that runs through the records,
    [body] the open-addressing table underneath, [wf] is their conjunction.  The
    lemmas of this file give, for every operation of [HashTable], the result it
    delivers on a well-formed table and the effect on the list of entries. *)

From S2P Require Import Prelude CacheTypes ConsistentHashing Versions HashTable.
From stdpp Require Import base gmap list strings.
From Stdlib Require Import ZArith Lia.

Local Open Scope Z_scope.
Set Warnings "-clear-no-such-hyp".

(** ** Generic facts *)

Section Generic.
Context {A B : Type}.

Lemma zlookup_fmap (f : A → B) (l : list A) i : zlookup (f <$> l) i = f <$> zlookup l i.
Proof. unfold zlookup. case_match; [by rewrite list_lookup_fmap|done]. Qed.

Lemma fmap_zinsert (f : A → B) (l : list A) i x : f <$> zinsert i x l = zinsert i (f x) (f <$> l).
Proof. unfold zinsert. case_match; [by rewrite list_fmap_insert|done]. Qed.

Lemma zlen_fmap (f : A → B) (l : list A) : zlen (f <$> l) = zlen l.
Proof. unfold zlen. by rewrite length_fmap. Qed.

Lemma zinsert_id (l : list A) i x : zlookup l i = Some x → zinsert i x l = l.
Proof. unfold zlookup, zinsert. case_match; [apply list_insert_id|done]. Qed.

Lemma zinsert_zinsert (l : list A) i x y : zinsert i x (zinsert i y l) = zinsert i x l.
Proof. unfold zinsert. case_match; [apply list_insert_insert_eq|done]. Qed.

(** First and last element with a default. *)
Definition hdd (d : A) (l : list A) : A := match l with [] => d | x :: _ => x end.
Fixpoint lastd (d : A) (l : list A) : A := match l with [] => d | x :: l' => lastd x l' end.

Lemma hdd_app d (l1 l2 : list A) : hdd d (l1 ++ l2) = hdd (hdd d l2) l1.
Proof. by destruct l1. Qed.
Lemma lastd_app d (l1 l2 : list A) : lastd d (l1 ++ l2) = lastd (lastd d l1) l2.
Proof. revert d. induction l1; intros d; simpl; auto. Qed.

(** Number of elements that satisfy a test. *)
Definition zcount (f : A → bool) (l : list A) : Z := Z.of_nat (length (filter (λ x, f x = true) l)).
Definition b2z (b : bool) : Z := if b then 1 else 0.

Lemma zcount_nil (f : A → bool) : zcount f [] = 0.
Proof. done. Qed.

Lemma zcount_cons (f : A → bool) x l : zcount f (x :: l) = b2z (f x) + zcount f l.
Proof.
  unfold zcount. rewrite filter_cons. case_decide as Hd; destruct (f x); simpl;
    try congruence; lia.
Qed.

Lemma zcount_insert (f : A → bool) l i x y :
  zlookup l i = Some y → zcount f (zinsert i x l) = zcount f l - b2z (f y) + b2z (f x).
Proof.
  unfold zlookup, zinsert. case_match; [|done]. clear. revert i.
  intros i. generalize (Z.to_nat i). clear i. induction l as [|z l IH]; intros [|n]; simpl; try done.
  - intros [= ->]. rewrite !zcount_cons. lia.
  - intros Hl. rewrite !zcount_cons, (IH n Hl). lia.
Qed.

Lemma zcount_bounds (f : A → bool) l : 0 ≤ zcount f l ≤ zlen l.
Proof.
  unfold zlen. induction l as [|x l IH]; [done|].
  rewrite zcount_cons. simpl. destruct (f x); simpl; lia.
Qed.

Lemma zcount_all (f : A → bool) l : (∀ x, x ∈ l → f x = true) → zcount f l = zlen l.
Proof.
  unfold zlen. induction l as [|x l IH]; intros Hf; [done|].
  rewrite zcount_cons, Hf by (apply elem_of_cons; by left). simpl.
  rewrite IH by (intros; apply Hf, elem_of_cons; by right). lia.
Qed.

End Generic.

(** A list of distinct positions of a table is no longer than the table. *)
Lemma positions_length {A} (T : list A) (l : list Z) :
  NoDup l → (∀ i, i ∈ l → is_Some (zlookup T i)) → (length l ≤ length T)%nat.
Proof.
  intros Hnd Hl.
  assert (NoDup (Z.to_nat <$> l)) as Hnd'.
  { apply NoDup_fmap_2_strong; [|done]. intros i j Hi Hj Heq.
    destruct (Hl i Hi) as [? ?%zlookup_Some_range], (Hl j Hj) as [? ?%zlookup_Some_range]. lia. }
  rewrite <- (length_fmap Z.to_nat l), <- (length_seq (length T) 0).
  apply submseteq_length, NoDup_submseteq; [done|].
  intros n (i & -> & Hi)%list_elem_of_fmap. apply elem_of_seq.
  destruct (Hl i Hi) as [? ?%zlookup_Some_range]. unfold zlen in *. lia.
Qed.

(** ** The linked list *)

(** [dseg T p l n]: the positions [l] are linked in this order by records of [T]
    that are alive; [p] precedes the first and [n] follows the last one. *)
Fixpoint dseg (T : list HRecord) (p : Z) (l : list Z) (n : Z) : Prop :=
  match l with
  | [] => True
  | i :: l' =>
      (∃ r, zlookup T i = Some r ∧ state r = ALIVE ∧ prev r = p ∧ next r = hdd n l') ∧
      dseg T i l' n
  end.

Record links (t : Table) (l : list Z) : Prop := {
  links_dseg : dseg (hashTable t) (-1) l (-1);
  links_head : listHead t = hdd (-1) l;
  links_tail : listTail t = lastd (-1) l;
  links_NoDup : NoDup l }.

Section Links.
Implicit Types (T : list HRecord) (t : Table) (l : list Z).

Lemma dseg_app T p l1 l2 n :
  dseg T p (l1 ++ l2) n ↔ dseg T p l1 (hdd n l2) ∧ dseg T (lastd p l1) l2 n.
Proof.
  revert p. induction l1 as [|i l1 IH]; intros p; simpl; [tauto|].
  rewrite IH, hdd_app. tauto.
Qed.

Lemma dseg_frame T T' p l n :
  (∀ i, i ∈ l → zlookup T' i = zlookup T i) → dseg T p l n → dseg T' p l n.
Proof.
  revert p. induction l as [|i l IH]; intros p Hf; simpl; [done|].
  intros [(r & Hr & ?) Hd]. split.
  - exists r. rewrite Hf by (apply elem_of_cons; by left). done.
  - apply IH; [|done]. intros j Hj. apply Hf, elem_of_cons. by right.
Qed.

Lemma dseg_alive T p l n i :
  dseg T p l n → i ∈ l → ∃ r, zlookup T i = Some r ∧ state r = ALIVE.
Proof.
  revert p. induction l as [|j l IH]; intros p; simpl; [by intros _ ?%elem_of_nil|].
  intros [(r & ? & ? & _) Hd] [->|Hi]%elem_of_cons; eauto.
Qed.

Lemma dseg_nonneg T p l n i : dseg T p l n → i ∈ l → 0 ≤ i.
Proof.
  intros Hd Hi. destruct (dseg_alive _ _ _ _ _ Hd Hi) as (r & Hr & _).
  apply zlookup_Some_range in Hr. lia.
Qed.

Lemma dseg_frame_insert T p l n j r :
  j ∉ l → dseg T p l n → dseg (zinsert j r T) p l n.
Proof.
  intros Hj. apply dseg_frame. intros i Hi. apply zlookup_insert_ne. congruence.
Qed.

(** Redirecting the pointer that leaves a segment at its end ... *)
Lemma dseg_set_next T p l j n n' r :
  j ∉ l → zlookup T j = Some r → dseg T p (l ++ [j]) n →
  dseg (zinsert j (set_next n' r) T) p (l ++ [j]) n'.
Proof.
  intros Hj Hr. rewrite !dseg_app. simpl. intros [Hl [(r' & Hr' & ? & ? & _) _]].
  split; [by apply dseg_frame_insert|]. split; [|done].
  simplify_eq. exists (set_next n' r). split_and!; try done.
  by eapply zlookup_insert_eq.
Qed.

(** ... and at its beginning. *)
Lemma dseg_set_prev T p p' j l n r :
  j ∉ l → zlookup T j = Some r → dseg T p (j :: l) n →
  dseg (zinsert j (set_prev p' r) T) p' (j :: l) n.
Proof.
  intros Hj Hr. simpl. intros [(r' & Hr' & ? & _ & ?) Hl].
  split; [|by apply dseg_frame_insert].
  simplify_eq. exists (set_prev p' r). split_and!; try done.
  by eapply zlookup_insert_eq.
Qed.


(** The fields of a table that the list operations leave alone. *)
Definition same_counters t t' : Prop :=
  totalKeyValueSize t' = totalKeyValueSize t ∧ numEntries t' = numEntries t ∧
  numDeadEntries t' = numDeadEntries t.

End Links.

(** ** Slots: records without their links *)

Inductive slot := SEmpty | SAlive (k v : string) (ver : Version) | SDead.

#[export] Instance slot_eq_dec : EqDecision slot.
Proof. solve_decision. Defined.

Definition slot_of (r : HRecord) : slot :=
  match state r with
  | EMPTY => SEmpty
  | ALIVE => SAlive (key r) (value r) (version r)
  | DEAD => SDead
  end.

Abbreviation slots T := (slot_of <$> T).

Lemma slots_upd_id T i r r' :
  zlookup T i = Some r → slot_of r' = slot_of r → slots (zinsert i r' T) = slots T.
Proof.
  intros Hr Hs. rewrite fmap_zinsert, Hs. apply zinsert_id. by rewrite zlookup_fmap, Hr.
Qed.

Lemma upd_Ok t i f r :
  zlookup (hashTable t) i = Some r →
  upd t i f = Ok (with_hashTable (zinsert i (f r) (hashTable t)) t).
Proof. intros Hr. unfold upd. by rewrite (vec_at_Ok _ _ _ Hr). Qed.

Section ListOperations.
Implicit Types (T : list HRecord) (t : Table) (l : list Z).

(** Unlinking, first half: the pointer from the left, which is the head of the
    list or the [next] of the predecessor, now skips the position. *)
Lemma unlink_left t l1 i l2 r :
  dseg (hashTable t) (-1) l1 i → dseg (hashTable t) i l2 (-1) →
  listHead t = hdd (-1) (l1 ++ i :: l2) → i ∉ l1 → NoDup (l1 ++ l2) →
  zlookup (hashTable t) i = Some r → prev r = lastd (-1) l1 → next r = hdd (-1) l2 →
  ∃ T1 h1,
    (if prev r =? (-1) then Ok (with_listHead (next r) t)
     else upd t (prev r) (set_next (next r)))
      = Ok (with_hashTable T1 (with_listHead h1 t)) ∧
    h1 = hdd (-1) (l1 ++ l2) ∧ dseg T1 (-1) l1 (hdd (-1) l2) ∧ dseg T1 i l2 (-1) ∧
    zlookup T1 i = Some r ∧ slots T1 = slots (hashTable t).
Proof.
  intros Hd1 Hd2 Hh Hi1 Hnd' Hr Hp Hn.
  destruct l1 as [|j l1' _] using rev_ind; simpl in *.
  - exists (hashTable t), (next r). rewrite Hp. by split_and!.
  - rewrite lastd_app in Hp. simpl in Hp.
    apply NoDup_app in Hnd' as (Hndl1 & Hdisj & _).
    apply NoDup_app in Hndl1 as (_ & Hjl1 & _).
    assert (j ∉ l1') as Hj by (intros Hj; by apply (Hjl1 j Hj), list_elem_of_singleton).
    assert (j ∈ l1' ++ [j]) as Hjin by (apply elem_of_app; right; by apply list_elem_of_singleton).
    destruct (dseg_alive _ _ _ _ _ Hd1 Hjin) as (rj & Hrj & Hstj).
    pose proof (dseg_nonneg _ _ _ _ _ Hd1 Hjin).
    assert (i ≠ j) as Hij by (intros ->; done).
    destruct (Z.eqb_spec (prev r) (-1)); [lia|]. rewrite Hp, (upd_Ok _ _ _ _ Hrj).
    eexists _, (listHead t). split_and!.
    + by destruct t.
    + rewrite Hh, <- !app_assoc. simpl. by destruct l1'.
    + rewrite Hn. by eapply dseg_set_next.
    + apply dseg_frame_insert; [|done]. intros Hjl2. by apply (Hdisj j).
    + by rewrite zlookup_insert_ne.
    + by eapply slots_upd_id.
Qed.

(** *** [removeFromList] unlinks a position. *)
Lemma removeFromList_spec t l1 i l2 :
  links t (l1 ++ i :: l2) →
  ∃ t', removeFromList i t = Ok t' ∧ links t' (l1 ++ l2) ∧
        slots (hashTable t') = slots (hashTable t) ∧ same_counters t t' ∧
        zlookup (hashTable t') i = zlookup (hashTable t) i.
Proof.
  intros [Hd Hh Ht Hnd]. pose proof Hd as Hd0.
  apply dseg_app in Hd as [Hd1 [(r & Hr & Hst & Hp & Hn) Hd2]].
  assert ((i ∉ l1) ∧ (i ∉ l2) ∧ NoDup (l1 ++ l2)) as (Hi1 & Hi2 & Hnd').
  { rewrite <- Permutation_middle in Hnd. apply NoDup_cons in Hnd as [Hn1 ?].
    rewrite not_elem_of_app in Hn1. tauto. }
  unfold removeFromList. rewrite (vec_at_Ok _ _ _ Hr). cbn [mbind result_bind].
  rewrite decide_False by (intros Hne; by apply Hne).
  destruct (unlink_left t l1 i l2 r) as
    (T1 & h1 & -> & Hh1 & Hd1' & Hd2' & Hr1 & Hs1); [done..|].
  cbn [mbind result_bind hashTable with_hashTable].
  rewrite (vec_at_Ok _ _ _ Hr1). cbn [mbind result_bind].
  (* the pointer from the right *)
  destruct l2 as [|j l2']; simpl in Hn.
  - rewrite Hn. simpl. eexists. split; [done|]. split_and!; try done; simpl;
      [|congruence].
    rewrite app_nil_r in *. by split.
  - assert (j ∈ j :: l2') as Hjin by (apply elem_of_cons; by left).
    pose proof (dseg_nonneg _ _ _ _ _ Hd2' Hjin).
    destruct (dseg_alive _ _ _ _ _ Hd2' Hjin) as (rj & Hrj & Hstj).
    destruct (Z.eqb_spec (next r) (-1)); [lia|].
    rewrite Hn, (upd_Ok (with_hashTable T1 (with_listHead h1 t)) _ _ _ Hrj).
    apply NoDup_app in Hnd' as (Hndl1 & Hdisj & Hndl2).
    eexists. split; [done|]. split_and!; try done; simpl.
    + split; simpl; try done.
      * apply dseg_app. simpl in *. split.
        { apply dseg_frame_insert; [|done]. intros Hj. exact (Hdisj j Hj Hjin). }
        rewrite <- Hp. apply (dseg_set_prev T1 i (prev r) j l2' (-1) rj); [|done..].
        apply NoDup_cons in Hndl2. tauto.
      * rewrite Ht, !lastd_app. done.
      * by apply NoDup_app.
    + rewrite <- Hs1. by eapply slots_upd_id.
    + rewrite zlookup_insert_ne, Hr1, Hr; [done|]. intros ->. done.
Qed.

(** *** [addToFront] links a position that is not in the list. *)
Lemma addToFront_spec t l i r :
  links t l → i ∉ l → zlookup (hashTable t) i = Some r → state r = ALIVE →
  ∃ t', addToFront i t = Ok t' ∧ links t' (i :: l) ∧
        slots (hashTable t') = slots (hashTable t) ∧ same_counters t t'.
Proof.
  intros [Hd Hh Ht Hnd] Hi Hr Hst. unfold addToFront.
  rewrite (vec_at_Ok _ _ _ Hr). cbn [mbind result_bind].
  rewrite decide_False by (intros Hne; by apply Hne).
  rewrite (upd_Ok _ _ _ _ Hr). cbn [mbind result_bind].
  erewrite upd_Ok by (simpl; by eapply zlookup_insert_eq).
  cbn [mbind result_bind with_hashTable hashTable listHead].
  rewrite zinsert_zinsert. set (r' := set_next _ _). set (T1 := zinsert i r' _).
  assert (zlookup T1 i = Some r') as Hr1 by (by eapply zlookup_insert_eq).
  assert (slots T1 = slots (hashTable t)) as Hs1.
  { eapply slots_upd_id; [done|]. unfold slot_of, r'. simpl. done. }
  assert (dseg T1 (-1) l (-1)) as Hd1 by (by apply dseg_frame_insert).
  pose proof (zlookup_Some_range _ _ _ Hr).
  destruct l as [|j l'].
  - simpl in Hh, Ht. rewrite Hh. simpl. rewrite Ht. simpl.
    eexists. split; [done|]. split_and!; try done.
    split; simpl; try done.
    + split; [|done]. exists r'. by split_and!.
    + apply NoDup_singleton.
  - simpl in Hh, Ht. pose proof Hd1 as [(rj & Hrj & Hstj & _) _].
    pose proof (zlookup_Some_range _ _ _ Hrj).
    destruct (Z.eqb_spec (listHead t) (-1)); [lia|].
    rewrite Hh. erewrite upd_Ok by (simpl; exact Hrj).
    cbn [mbind result_bind with_hashTable hashTable listTail with_listHead].
    assert (j ∉ l') as Hj by (apply NoDup_cons in Hnd; tauto).
    assert (lastd j l' ∈ j :: l') as Hlast.
    { clear. revert j. induction l' as [|x l' IH]; intros j; simpl; [by apply list_elem_of_singleton|].
      apply elem_of_cons. right. apply IH. }
    pose proof (dseg_nonneg _ _ _ _ _ Hd Hlast).
    destruct (Z.eqb_spec (listTail t) (-1)); [lia|].
    assert (j ≠ i) as Hji by (intros ->; apply Hi, elem_of_cons; by left).
    eexists. split; [done|]. split_and!; try done; simpl.
    + split; simpl; try done.
      * split; [|eapply dseg_set_prev; [done|exact Hrj|exact Hd1]].
        exists r'. rewrite zlookup_insert_ne by done.
        by split_and!.
      * by apply NoDup_cons.
    + rewrite <- Hs1. eapply slots_upd_id; [done|]. done.
Qed.

(** *** [accessEntry] moves a position to the front. *)
Lemma accessEntry_spec t l1 i l2 :
  links t (l1 ++ i :: l2) →
  ∃ t', accessEntry i t = Ok t' ∧ links t' (i :: l1 ++ l2) ∧
        slots (hashTable t') = slots (hashTable t) ∧ same_counters t t'.
Proof.
  intros Hl. pose proof (links_dseg _ _ Hl) as Hd.
  destruct (dseg_alive _ _ _ _ i Hd) as (r & Hr & Hst).
  { apply elem_of_app. right. apply elem_of_cons. by left. }
  unfold accessEntry. rewrite (vec_at_Ok _ _ _ Hr). cbn [mbind result_bind].
  rewrite decide_False by (intros Hne; by apply Hne).
  pose proof (links_NoDup _ _ Hl) as Hnd. rewrite <- Permutation_middle in Hnd.
  apply NoDup_cons in Hnd as [Hi _].
  destruct (removeFromList_spec _ _ _ _ Hl) as (t1 & -> & Hl1 & Hs1 & Hc1 & Hi1).
  cbn [mbind result_bind]. rewrite Hr in Hi1.
  destruct (addToFront_spec _ _ _ _ Hl1 Hi Hi1 Hst) as (t2 & -> & Hl2 & Hs2 & Hc2).
  exists t2. split_and!; try done; [congruence|].
  unfold same_counters in *. intuition congruence.
Qed.

End ListOperations.

(** ** The table underneath *)

(** An entry of the cache. *)
Record centry := mkCE { ce_key : string; ce_value : string; ce_version : Version }.

Definition entry_at (S : list slot) (i : Z) : option centry :=
  match zlookup S i with Some (SAlive k v ver) => Some (mkCE k v ver) | _ => None end.

(** The entries stored at the positions of a list. *)
Definition entries (S : list slot) (l : list Z) : list centry := omap (entry_at S) l.

Definition ce_size (e : centry) : Z := str_size (ce_key e) + str_size (ce_value e).
Fixpoint total_size (es : list centry) : Z :=
  match es with [] => 0 | e :: es' => ce_size e + total_size es' end.

Definition is_alive (s : slot) : bool := match s with SAlive _ _ _ => true | _ => false end.
Definition is_dead (s : slot) : bool := match s with SDead => true | _ => false end.

(** The slots at which the search for key [k] stops. *)
Definition stops (k : string) (s : slot) : bool :=
  match s with SEmpty => true | SAlive k' _ _ => bool_decide (k' = k) | SDead => false end.

(** The position visited after [d] steps of the search for [k] in a table of
    size [n]. *)
Definition probe (n : Z) (k : string) (d : Z) : Z := (hash k + d) mod n.

(** The search for [k] gets to position [i] without having stopped before. *)
Definition reach (S : list slot) (k : string) (i : Z) : Prop :=
  ∃ d, 0 ≤ d < zlen S ∧ i = probe (zlen S) k d ∧
       ∀ e, 0 ≤ e < d → ∃ s, zlookup S (probe (zlen S) k e) = Some s ∧ stops k s = false.

(** The search for [k] ends at the free position [i]. *)
Definition free_for (S : list slot) (k : string) (i : Z) : Prop :=
  zlookup S i = Some SEmpty ∧ reach S k i ∧ ∀ j e, entry_at S j = Some e → ce_key e ≠ k.

Record body `{Allocator} (S : list slot) (l : list Z) (tot n d : Z) : Prop := {
  body_size : 10 ≤ zlen S ≤ max_records;
  body_alive : ∀ i, i ∈ l ↔ is_Some (entry_at S i);
  body_probe : ∀ i e, entry_at S i = Some e → reach S (ce_key e) i;
  body_length : n = Z.of_nat (length l);
  body_entries : n = zcount is_alive S;
  body_dead : d = zcount is_dead S;
  body_load : 2 * (n + d) ≤ zlen S + 2;
  body_total : tot = i32 (total_size (entries S l)) }.

Section Body.
Context `{Allocator}.
Implicit Types (S : list slot) (l : list Z).

#[export] Instance total_size_perm : Proper ((≡ₚ) ==> eq) total_size.
Proof. induction 1; simpl; lia. Qed.

#[export] Instance entries_perm S : Proper ((≡ₚ) ==> (≡ₚ)) (entries S).
Proof. intros l l' Hl. unfold entries. by rewrite Hl. Qed.

Lemma total_size_app es1 es2 : total_size (es1 ++ es2) = total_size es1 + total_size es2.
Proof. induction es1; simpl; lia. Qed.

Lemma str_size_nonneg k : 0 ≤ str_size k.
Proof. unfold str_size. lia. Qed.

Lemma total_size_nonneg es : 0 ≤ total_size es.
Proof.
  induction es as [|e es IH]; simpl; [lia|].
  pose proof (str_size_nonneg (ce_key e)). pose proof (str_size_nonneg (ce_value e)).
  unfold ce_size. lia.
Qed.

Lemma entries_app S l1 l2 : entries S (l1 ++ l2) = entries S l1 ++ entries S l2.
Proof. apply omap_app. Qed.

Lemma entries_cons_match S i l :
  entries S (i :: l) =
  match entry_at S i with Some e => e :: entries S l | None => entries S l end.
Proof. done. Qed.

Lemma entries_cons S i l e : entry_at S i = Some e → entries S (i :: l) = e :: entries S l.
Proof. intros He. by rewrite entries_cons_match, He. Qed.

Lemma entry_at_insert_ne S i s j : i ≠ j → entry_at (zinsert i s S) j = entry_at S j.
Proof. intros Hne. unfold entry_at. by rewrite zlookup_insert_ne. Qed.

Lemma entries_insert_ne S i s l : i ∉ l → entries (zinsert i s S) l = entries S l.
Proof.
  induction l as [|j l IH]; [done|].
  intros [Hne Hni]%not_elem_of_cons.
  by rewrite !entries_cons_match, entry_at_insert_ne, IH.
Qed.

Lemma entry_at_insert S i s j s0 :
  zlookup S i = Some s0 →
  entry_at (zinsert i s S) j =
    if decide (i = j) then match s with SAlive k v ver => Some (mkCE k v ver) | _ => None end
    else entry_at S j.
Proof.
  intros Hi. unfold entry_at. rewrite (zlookup_insert _ _ _ _ _ Hi).
  by case_decide.
Qed.

Lemma entry_at_slot S i e :
  entry_at S i = Some e ↔ zlookup S i = Some (SAlive (ce_key e) (ce_value e) (ce_version e)).
Proof.
  unfold entry_at. destruct e as [k v ver]. simpl.
  destruct (zlookup S i) as [[]|]; naive_solver.
Qed.

Lemma body_perm S l l' tot n d : l ≡ₚ l' → body S l tot n d → body S l' tot n d.
Proof.
  intros Hp []. split; try done.
  - intros i. by rewrite <- Hp.
  - by rewrite <- Hp.
  - by rewrite <- Hp.
Qed.

Lemma probe_range S k d : 0 < zlen S → ∃ s, zlookup S (probe (zlen S) k d) = Some s.
Proof. intros Hn. apply zlookup_is_Some. apply Z.mod_pos_bound. lia. Qed.

(** Every position lies on the path of every key. *)
Lemma probe_surj n k i : 0 ≤ i < n → ∃ d, 0 ≤ d < n ∧ i = probe n k d.
Proof.
  intros Hi. exists ((i - hash k) mod n). split; [apply Z.mod_pos_bound; lia|].
  unfold probe. rewrite Zplus_mod_idemp_r. symmetry.
  replace (hash k + (i - hash k)) with i by lia. apply Z.mod_small. lia.
Qed.

(** The load bound leaves a free slot. *)
Lemma body_free_slot S l tot n d : body S l tot n d → ∃ i, zlookup S i = Some SEmpty.
Proof.
  intros []. destruct (decide (SEmpty ∈ S)) as [Hin|Hnot].
  { apply list_elem_of_lookup in Hin as [j Hj]. exists (Z.of_nat j). by rewrite zlookup_of_nat. }
  exfalso.
  assert (zcount is_alive S + zcount is_dead S = zlen S).
  { clear -Hnot. unfold zlen. induction S as [|s S IH]; [done|].
    apply not_elem_of_cons in Hnot as [Hs HS]. specialize (IH HS).
    rewrite !zcount_cons. simpl. destruct s; simpl; [done|lia..]. }
  lia.
Qed.

End Body.

Section BodyUpdates.
Context `{Allocator}.
Implicit Types (S : list slot) (l : list Z).

Lemma reach_insert S k j i s0 s :
  zlookup S i = Some s0 → (stops k s0 = false → stops k s = false) →
  reach S k j → reach (zinsert i s S) k j.
Proof.
  intros Hi Hs (d & Hd & -> & Hpath). exists d. rewrite zlen_insert.
  split_and!; [lia..|done|]. intros e He. destruct (Hpath e He) as (s' & Hs' & Hst).
  rewrite (zlookup_insert _ _ _ _ _ Hi). case_decide as Heq; [|eauto].
  exists s. split; [done|]. apply Hs. rewrite Heq in Hi. congruence.
Qed.

(** A key has at most one position. *)
Lemma reach_unique S k i j si sj :
  reach S k i → reach S k j →
  zlookup S i = Some si → zlookup S j = Some sj → stops k si = true → stops k sj = true →
  i = j.
Proof.
  intros (di & Hdi & -> & Hpi) (dj & Hdj & -> & Hpj) Hi Hj Hsi Hsj.
  destruct (Z.lt_trichotomy di dj) as [Hlt|[->|Hlt]]; [|done|].
  - destruct (Hpj di) as (s & Hs & ?); [lia|]. congruence.
  - destruct (Hpi dj) as (s & Hs & ?); [lia|]. congruence.
Qed.

Lemma body_key_unique S l tot n d i j e e' :
  body S l tot n d → entry_at S i = Some e → entry_at S j = Some e' →
  ce_key e = ce_key e' → i = j.
Proof.
  intros Hb Hi Hj Hk. pose proof (body_probe _ _ _ _ _ Hb _ _ Hi) as Hri.
  pose proof (body_probe _ _ _ _ _ Hb _ _ Hj) as Hrj. rewrite <- Hk in Hrj.
  apply entry_at_slot in Hi, Hj.
  eapply reach_unique; eauto; simpl; by apply bool_decide_true.
Qed.

Lemma i32_add_i32 a b : i32 (i32 a + b) = i32 (a + b).
Proof. apply wraps_wraps_add. lia. Qed.

Lemma body_remove S l l' tot n d i e :
  body S l tot n d → l ≡ₚ i :: l' → NoDup l → entry_at S i = Some e →
  body (zinsert i SDead S) l' (i32 (tot - ce_size e)) (n - 1) (d + 1).
Proof.
  intros Hb Hp Hnd He. pose proof (proj1 (entry_at_slot _ _ _) He) as Hi.
  rewrite Hp in Hnd. apply NoDup_cons in Hnd as [Hni _].
  apply (body_perm _ _ _ _ _ _ Hp) in Hb.
  destruct Hb as [Hsz Hal Hpr Hlen Hen Hde Hld Htot].
  split; rewrite ?zlen_insert; try done.
  - intros j. rewrite (entry_at_insert _ _ _ _ _ Hi). case_decide as Hij.
    + subst j. split; [done|]. by intros [].
    + rewrite <- Hal, elem_of_cons. naive_solver.
  - intros j e'. rewrite (entry_at_insert _ _ _ _ _ Hi). case_decide as Hij; [done|].
    intros Hj. eapply reach_insert; eauto.
  - rewrite Hlen. simpl. lia.
  - erewrite (zcount_insert _ _ _ _ _ Hi). simpl. lia.
  - erewrite (zcount_insert _ _ _ _ _ Hi). simpl. lia.
  - lia.
  - rewrite entries_insert_ne by done. rewrite Htot, (entries_cons _ _ _ _ He). simpl.
    unfold Z.sub. rewrite i32_add_i32. f_equal. lia.
Qed.

Lemma body_add S l tot n d i k v ver :
  body S l tot n d → free_for S k i → 2 * (n + d) ≤ zlen S →
  body (zinsert i (SAlive k v ver) S) (i :: l) (i32 (tot + (str_size k + str_size v))) (n + 1) d.
Proof.
  intros [Hsz Hal Hpr Hlen Hen Hde Hld Htot] (Hi & Hreach & Habs) Hroom.
  assert (i ∉ l) as Hni.
  { rewrite Hal. unfold entry_at. rewrite Hi. by intros []. }
  split; rewrite ?zlen_insert; try done.
  - intros j. rewrite (entry_at_insert _ _ _ _ _ Hi), elem_of_cons. case_decide as Hij.
    + subst j. split; [by eexists|]. by left.
    + rewrite <- Hal. naive_solver.
  - intros j e. rewrite (entry_at_insert _ _ _ _ _ Hi). case_decide as Hij.
    + intros [= <-]. subst j. simpl. eapply reach_insert; [done| |done]. done.
    + intros Hj. eapply reach_insert; [done| |eauto]. done.
  - simpl. lia.
  - erewrite (zcount_insert _ _ _ _ _ Hi). simpl. lia.
  - erewrite (zcount_insert _ _ _ _ _ Hi). simpl. lia.
  - lia.
  - erewrite entries_cons; [|rewrite (entry_at_insert _ _ _ _ _ Hi); by rewrite decide_True].
    rewrite entries_insert_ne by done. simpl. rewrite Htot, i32_add_i32. f_equal.
    unfold ce_size. simpl. lia.
Qed.

Lemma body_replace S l1 i l2 tot n d e v ver :
  body S (l1 ++ i :: l2) tot n d → NoDup (l1 ++ i :: l2) → entry_at S i = Some e →
  body (zinsert i (SAlive (ce_key e) v ver) S) (l1 ++ i :: l2)
    (i32 (i32 (tot - str_size (ce_value e)) + str_size v)) n d.
Proof.
  intros Hb Hnd He. pose proof (proj1 (entry_at_slot _ _ _) He) as Hi.
  rewrite <- Permutation_middle in Hnd. apply NoDup_cons in Hnd as [Hni _].
  eapply body_perm; [apply Permutation_middle|].
  apply (body_perm _ _ _ _ _ _ (symmetry (Permutation_middle l1 l2 i))) in Hb.
  destruct Hb as [Hsz Hal Hpr Hlen Hen Hde Hld Htot].
  split; rewrite ?zlen_insert; try done.
  - intros j. rewrite Hal, (entry_at_insert _ _ _ _ _ Hi). case_decide as Hij; [|done].
    subst j. rewrite He. split; by eexists.
  - intros j e'. rewrite (entry_at_insert _ _ _ _ _ Hi). case_decide as Hij.
    + intros [= <-]. subst j. simpl. eapply reach_insert; [done| |by apply Hpr].
      simpl. done.
    + intros Hj. eapply reach_insert; [done| |by apply Hpr]. done.
  - erewrite (zcount_insert _ _ _ _ _ Hi). simpl. lia.
  - erewrite (zcount_insert _ _ _ _ _ Hi). simpl. lia.
  - erewrite entries_cons; [|rewrite (entry_at_insert _ _ _ _ _ Hi); by rewrite decide_True].
    rewrite entries_insert_ne by done. rewrite Htot, (entries_cons _ _ _ _ He).
    unfold Z.sub. rewrite i32_add_i32, <- Z.add_assoc, i32_add_i32. simpl. f_equal.
    unfold ce_size. simpl. lia.
Qed.

End BodyUpdates.

(** ** Searching *)
Section Search.
Context `{Allocator}.
Implicit Types (T : list HRecord).

Lemma probe_next n k d : 0 < n ≤ 2 ^ 31 → 0 ≤ d →
  (let pos := u32 (probe n k d + 1) in if n <=? pos then 0 else pos) = probe n k (d + 1).
Proof.
  intros Hn Hd. unfold probe. pose proof (Z.mod_pos_bound (hash k + d) n) as Hb.
  unfold u32. rewrite wrapu_small by lia. cbv zeta.
  rewrite Z.add_assoc, <- (Zplus_mod_idemp_l (hash k + d) 1).
  destruct (Z.leb_spec n ((hash k + d) mod n + 1)).
  - replace ((hash k + d) mod n + 1) with n by lia. by rewrite Z_mod_same_full.
  - by rewrite (Z.mod_small ((hash k + d) mod n + 1)) by lia.
Qed.

Lemma stops_record r k :
  stops k (slot_of r) = true ↔ state r = EMPTY ∨ (state r = ALIVE ∧ key r = k).
Proof.
  unfold slot_of, stops. destruct (state r); rewrite ?bool_decide_eq_true; naive_solver.
Qed.

(** The search returns the first stopping position on its path. *)
Lemma getPosition_loop_spec T k fuel d0 :
  0 < zlen T ≤ 2 ^ 31 → 0 ≤ d0 →
  (∃ d s, d0 ≤ d < d0 + Z.of_nat fuel ∧
          zlookup (slots T) (probe (zlen T) k d) = Some s ∧ stops k s = true) →
  ∃ d s, d0 ≤ d < d0 + Z.of_nat fuel ∧
    zlookup (slots T) (probe (zlen T) k d) = Some s ∧ stops k s = true ∧
    (∀ e, d0 ≤ e < d → ∃ s, zlookup (slots T) (probe (zlen T) k e) = Some s ∧ stops k s = false) ∧
    getPosition_loop fuel T k (probe (zlen T) k d0) = Ok (probe (zlen T) k d).
Proof.
  intros Hn. revert d0. induction fuel as [|fuel IH]; intros d0 Hd0 (d & s & Hd & Hs & Hst); [lia|].
  destruct (probe_range (slots T) k d0) as [s0 Hs0]; [rewrite zlen_fmap; lia|].
  rewrite zlen_fmap in Hs0. pose proof Hs0 as Hs0'.
  rewrite zlookup_fmap in Hs0. destruct (zlookup T (probe (zlen T) k d0)) as [r|] eqn:Hr; [|done].
  injection Hs0 as <-.
  assert (i32 (probe (zlen T) k d0) = probe (zlen T) k d0) as Hi32.
  { apply wraps_small; [lia|]. unfold probe.
    pose proof (Z.mod_pos_bound (hash k + d0) (zlen T)). lia. }
  cbn [getPosition_loop]. rewrite (vec_at_Ok _ _ _ Hr). cbn [mbind result_bind].
  destruct (stops k (slot_of r)) eqn:Hst0.
  - exists d0, (slot_of r). split_and!; try done; [lia..| |].
    + intros e He. lia.
    + apply stops_record in Hst0. rewrite Hi32.
      case_decide; [done|]. case_decide; [done|]. tauto.
  - pose proof (stops_record r k) as Hrec. rewrite Hst0 in Hrec.
    rewrite decide_False by naive_solver. rewrite decide_False by naive_solver.
    rewrite probe_next by lia.
    destruct (IH (d0 + 1)) as (d' & s' & Hd' & Hs' & Hst' & Hmin & Heq).
    + lia.
    + exists d, s. split_and!; try done; [|lia].
      destruct (decide (d = d0)) as [->|]; [congruence|lia].
    + exists d', s'. split_and!; try done; [lia..|].
      intros e He. destruct (decide (e = d0)) as [->|]; [eauto|]. apply Hmin. lia.
Qed.

Definition found (S : list slot) (k : string) (pos : Z) : Prop :=
  (∃ e, entry_at S pos = Some e ∧ ce_key e = k) ∨ free_for S k pos.

(** *** [getPosition] terminates and finds the key or the place for it. *)
Lemma getPosition_spec t l tot n d k :
  body (slots (hashTable t)) l tot n d →
  ∃ pos, getPosition t k = Ok pos ∧ found (slots (hashTable t)) k pos.
Proof.
  intros Hb. set (T := hashTable t) in *. pose proof (body_size _ _ _ _ _ Hb) as Hsz.
  rewrite zlen_fmap in Hsz. pose proof max_records_range as Hmax.
  destruct (body_free_slot _ _ _ _ _ Hb) as [j Hj].
  pose proof (zlookup_Some_range _ _ _ Hj) as Hjr. rewrite zlen_fmap in Hjr.
  destruct (probe_surj (zlen T) k j Hjr) as (dj & Hdj & ->).
  destruct (getPosition_loop_spec T k (length T) 0) as (d' & s & Hd & Hs & Hst & Hmin & Heq);
    [lia..| |].
  { exists dj, SEmpty. unfold zlen in Hdj. split_and!; [lia..|done|done]. }
  exists (probe (zlen T) k d'). split.
  - unfold getPosition. fold T. destruct (Z.eqb_spec (zlen T) 0); [lia|].
    rewrite <- Heq. f_equal. unfold probe. rewrite Z.add_0_r. apply wrapu_small.
    pose proof (Z.mod_pos_bound (hash k) (zlen T)). lia.
  - assert (reach (slots T) k (probe (zlen T) k d')) as Hreach.
    { exists d'. rewrite zlen_fmap. unfold zlen in *. split_and!; [lia..|done|]. done. }
    destruct s as [|k' v ver|]; simpl in Hst; [| |done].
    + right. split_and!; try done. intros i e Hi Hk.
      pose proof (body_probe _ _ _ _ _ Hb _ _ Hi) as Hri. rewrite Hk in Hri.
      apply entry_at_slot in Hi. rewrite Hk in Hi.
      assert (i = probe (zlen T) k d') as ->.
      { eapply reach_unique; eauto; simpl; try done. by apply bool_decide_true. }
      congruence.
    + left. apply bool_decide_eq_true in Hst as ->. exists (mkCE k v ver).
      split; [|done]. by apply entry_at_slot.
Qed.

Lemma found_alive S l tot n d k pos i e :
  body S l tot n d → found S k pos → entry_at S i = Some e → ce_key e = k → pos = i.
Proof.
  intros Hb Hf Hi Hk. destruct Hf as [(e' & He' & Hk')|(_ & _ & Habs)].
  - eapply body_key_unique; eauto. congruence.
  - exfalso. by eapply Habs.
Qed.

End Search.

(** ** Well-formed tables *)
Section Wf.
Context `{Allocator}.
Implicit Types (t : Table) (l : list Z).

Definition wf t l : Prop :=
  links t l ∧
  body (slots (hashTable t)) l (totalKeyValueSize t) (numEntries t) (numDeadEntries t).

(** The entries of a table, most recently used first. *)
Definition contents t l : list centry := entries (slots (hashTable t)) l.

Lemma elem_of_entries S l e : e ∈ entries S l ↔ ∃ i, i ∈ l ∧ entry_at S i = Some e.
Proof. unfold entries. by rewrite list_elem_of_omap. Qed.

Lemma entries_keys_NoDup S l :
  NoDup l →
  (∀ i j e e', entry_at S i = Some e → entry_at S j = Some e' → ce_key e = ce_key e' → i = j) →
  NoDup (ce_key <$> entries S l).
Proof.
  intros Hnd Huniq. induction Hnd as [|i l Hi Hnd IH]; [constructor|].
  rewrite entries_cons_match. destruct (entry_at S i) as [e|] eqn:He; [|done].
  simpl. constructor; [|done].
  intros (e' & Hk & (j & Hj & He')%elem_of_entries)%list_elem_of_fmap.
  apply Hi. by rewrite (Huniq i j e e').
Qed.

Lemma body_keys_NoDup S l tot n d :
  body S l tot n d → NoDup l → NoDup (ce_key <$> entries S l).
Proof. intros Hb Hnd. apply entries_keys_NoDup; [done|]. intros. by eapply body_key_unique. Qed.

Lemma wf_keys_NoDup t l : wf t l → NoDup (ce_key <$> contents t l).
Proof. intros [Hl Hb]. eapply body_keys_NoDup; [done|by apply Hl]. Qed.

Lemma wf_entry t l i : wf t l → i ∈ l → ∃ e r,
  entry_at (slots (hashTable t)) i = Some e ∧ zlookup (hashTable t) i = Some r ∧
  state r = ALIVE ∧ e = mkCE (key r) (value r) (version r).
Proof.
  intros [Hl Hb] Hi. destruct (proj1 (body_alive _ _ _ _ _ Hb i) Hi) as [e He].
  exists e. apply entry_at_slot in He as Hs. rewrite zlookup_fmap in Hs.
  destruct (zlookup (hashTable t) i) as [r|] eqn:Hr; [|done].
  exists r. split_and!; try done; injection Hs as Hs; unfold slot_of in Hs;
    destruct (state r); try done. destruct e; simpl in *. congruence.
Qed.

Lemma entries_length S l :
  (∀ i, i ∈ l → is_Some (entry_at S i)) → length (entries S l) = length l.
Proof.
  induction l as [|i l IH]; intros Hal; [done|].
  destruct (Hal i) as [e He]; [apply elem_of_cons; by left|].
  rewrite (entries_cons _ _ _ _ He). simpl. f_equal. apply IH.
  intros j Hj. apply Hal, elem_of_cons. by right.
Qed.

Lemma wf_contents_length t l : wf t l → length (contents t l) = length l.
Proof. intros [_ Hb]. apply entries_length. intros i. apply (body_alive _ _ _ _ _ Hb). Qed.

(** *** [accessEntry] *)
Lemma accessEntry_wf t l1 i l2 :
  wf t (l1 ++ i :: l2) →
  ∃ t', accessEntry i t = Ok t' ∧ wf t' (i :: l1 ++ l2) ∧
        slots (hashTable t') = slots (hashTable t) ∧ same_counters t t'.
Proof.
  intros [Hl Hb]. destruct (accessEntry_spec _ _ _ _ Hl) as (t' & Hok & Hl' & Hs & Ht & Hn & Hd).
  exists t'. split_and!; try done. split; [done|]. rewrite Hs, Ht, Hn, Hd.
  eapply body_perm; [|done]. by rewrite Permutation_middle.
Qed.

(** *** [removeEntry] *)
Lemma removeEntry_wf t l1 i l2 :
  wf t (l1 ++ i :: l2) →
  ∃ t', removeEntry i t = Ok t' ∧ wf t' (l1 ++ l2) ∧
        slots (hashTable t') = zinsert i SDead (slots (hashTable t)) ∧
        zlookup (hashTable t') i = Some (mkRecord DEAD "" "" (-1) (-1) []).
Proof.
  intros Hwf. pose proof Hwf as [Hl Hb].
  pose proof (links_NoDup _ _ Hl) as Hnd.
  destruct (wf_entry _ _ i Hwf) as (e & r & He & Hr & Hst & ->).
  { apply elem_of_app. right. apply elem_of_cons. by left. }
  destruct (removeFromList_spec _ _ _ _ Hl) as (t1 & Hok & Hl1 & Hs1 & (Ht & Hn & Hd) & Hi1).
  rewrite Hr in Hi1. unfold removeEntry. rewrite Hok. cbn [mbind result_bind].
  rewrite (vec_at_Ok _ _ _ Hi1). cbn [mbind result_bind].
  erewrite upd_Ok by (simpl; exact Hi1). cbn [mbind result_bind].
  erewrite upd_Ok by (simpl; by eapply zlookup_insert_eq). cbn [mbind result_bind].
  erewrite upd_Ok by (simpl; eapply zlookup_insert_eq; by eapply zlookup_insert_eq).
  cbn [mbind result_bind]. eexists. split; [done|].
  cbn [hashTable with_counts with_hashTable with_totalKeyValueSize].
  rewrite !zinsert_zinsert, fmap_zinsert, Hs1.
  assert (i ∉ l1 ++ l2) as Hni.
  { rewrite <- Permutation_middle in Hnd. apply NoDup_cons in Hnd. tauto. }
  split; [|split; [done|by eapply zlookup_insert_eq]]. split.
  - destruct Hl1 as [? ? ? ?]. split; simpl; try done.
    by apply dseg_frame_insert.
  - simpl. rewrite fmap_zinsert, Hs1, Ht, Hn, Hd.
    eapply (body_remove _ _ _ _ _ _ _ (mkCE _ _ _)); [done| |done|done].
    by rewrite Permutation_middle.
Qed.

(** *** [addEntry] *)
Lemma addEntry_wf self t l i k v :
  wf t l → free_for (slots (hashTable t)) k i →
  2 * (numEntries t + numDeadEntries t) ≤ zlen (hashTable t) →
  ∃ t', addEntry self i k v t = Ok t' ∧ wf t' (i :: l) ∧
        slots (hashTable t') = zinsert i (SAlive k v [(self, 1)]) (slots (hashTable t)).
Proof.
  intros [Hl Hb] Hfree Hroom. pose proof Hfree as (Hi & _).
  rewrite zlookup_fmap in Hi. destruct (zlookup (hashTable t) i) as [r|] eqn:Hr; [|done].
  injection Hi as Hi. assert (state r = EMPTY) as Hst by (unfold slot_of in Hi; by destruct (state r)).
  assert (i ∉ l) as Hni.
  { rewrite (body_alive _ _ _ _ _ Hb). unfold entry_at. rewrite zlookup_fmap, Hr. simpl.
    rewrite Hi. by intros []. }
  unfold addEntry. rewrite (vec_at_Ok _ _ _ Hr). cbn [mbind result_bind].
  rewrite decide_False by (intros Hne; by apply Hne).
  rewrite (upd_Ok _ _ _ _ Hr). cbn [mbind result_bind].
  erewrite upd_Ok by (simpl; by eapply zlookup_insert_eq).
  cbn [mbind result_bind hashTable with_hashTable with_totalKeyValueSize]. rewrite zinsert_zinsert.
  erewrite upd_Ok by (simpl; by eapply zlookup_insert_eq).
  cbn [mbind result_bind hashTable with_hashTable with_totalKeyValueSize]. rewrite zinsert_zinsert.
  erewrite upd_Ok by (simpl; by eapply zlookup_insert_eq).
  cbn [mbind result_bind hashTable with_hashTable with_totalKeyValueSize]. rewrite zinsert_zinsert.
  set (r' := set_version _ _). set (t1 := with_hashTable _ _).
  destruct (addToFront_spec t1 l i r') as (t2 & Hok & Hl2 & Hs2 & Ht & Hn & Hd).
  - destruct Hl as [Hdseg ? ? ?]. split; try done. by apply dseg_frame_insert.
  - done.
  - by eapply zlookup_insert_eq.
  - done.
  - rewrite Hok. cbn [mbind result_bind]. eexists. split; [done|].
    assert (slots (hashTable t2) = zinsert i (SAlive k v [(self, 1)]) (slots (hashTable t))) as Hs.
    { rewrite Hs2. simpl. by rewrite fmap_zinsert. }
    split; [|done]. split.
    + destruct Hl2. by split.
    + simpl. rewrite Hs, Ht, Hn, Hd. simpl. apply body_add; [done..|]. by rewrite zlen_fmap.
Qed.

(** *** Updates of a record that is alive *)
Lemma dseg_update T p l n i r r' :
  zlookup T i = Some r → state r' = state r → prev r' = prev r → next r' = next r →
  dseg T p l n → dseg (zinsert i r' T) p l n.
Proof.
  intros Hr Hst Hp Hn. revert p. induction l as [|j l IH]; intros p; simpl; [done|].
  intros [(rj & Hrj & Hal & Hpj & Hnj) Hd]. split; [|by apply IH].
  rewrite (zlookup_insert _ _ _ _ _ Hr). case_decide as Hij; [|by exists rj].
  subst j. simplify_eq. exists r'. split_and!; congruence.
Qed.

Lemma links_update t l i r r' :
  links t l → zlookup (hashTable t) i = Some r →
  state r' = state r → prev r' = prev r → next r' = next r →
  links (with_hashTable (zinsert i r' (hashTable t)) t) l.
Proof. intros [Hd ? ? ?] Hr Hst Hp Hn. split; try done. simpl. by eapply dseg_update. Qed.

Lemma replaceValue_wf t l1 i l2 e v :
  wf t (l1 ++ i :: l2) → entry_at (slots (hashTable t)) i = Some e →
  ∃ t', replaceValue i v t = Ok t' ∧ wf t' (l1 ++ i :: l2) ∧
        slots (hashTable t') = zinsert i (SAlive (ce_key e) v (ce_version e)) (slots (hashTable t)).
Proof.
  intros Hwf He. pose proof Hwf as [Hl Hb].
  destruct (wf_entry _ _ i Hwf) as (e' & r & He' & Hr & Hst & ->).
  { apply elem_of_app. right. apply elem_of_cons. by left. }
  rewrite He in He'. injection He' as ->.
  unfold replaceValue. rewrite (vec_at_Ok _ _ _ Hr). cbn [mbind result_bind].
  erewrite upd_Ok by (simpl; exact Hr). cbn [mbind result_bind].
  erewrite vec_at_Ok by (simpl; by eapply zlookup_insert_eq). cbn [mbind result_bind].
  eexists. split; [done|].
  assert (slot_of (set_value v r) = SAlive (key r) v (version r)) as Hs
    by (unfold slot_of; simpl; by rewrite Hst).
  cbn [hashTable with_hashTable with_totalKeyValueSize]. rewrite fmap_zinsert, Hs.
  split; [|done]. split.
  - by destruct (links_update _ _ _ _ (set_value v r) Hl Hr).
  - simpl. rewrite fmap_zinsert, Hs.
    apply (body_replace _ _ _ _ _ _ _ (mkCE (key r) (value r) (version r))); [done| |done].
    by apply Hl.
Qed.

Lemma set_version_wf t l1 i l2 e ver :
  wf t (l1 ++ i :: l2) → entry_at (slots (hashTable t)) i = Some e →
  ∃ t', upd t i (set_version ver) = Ok t' ∧ wf t' (l1 ++ i :: l2) ∧
        slots (hashTable t') = zinsert i (SAlive (ce_key e) (ce_value e) ver) (slots (hashTable t)).
Proof.
  intros Hwf He. pose proof Hwf as [Hl Hb].
  destruct (wf_entry _ _ i Hwf) as (e' & r & He' & Hr & Hst & ->).
  { apply elem_of_app. right. apply elem_of_cons. by left. }
  rewrite He in He'. injection He' as ->.
  rewrite (upd_Ok _ _ _ _ Hr). eexists. split; [done|].
  assert (slot_of (set_version ver r) = SAlive (key r) (value r) ver) as Hs
    by (unfold slot_of; simpl; by rewrite Hst).
  cbn [hashTable with_hashTable]. rewrite fmap_zinsert, Hs.
  split; [|done]. split; [by apply links_update with r|].
  simpl. rewrite fmap_zinsert, Hs.
  replace (totalKeyValueSize t) with
    (i32 (i32 (totalKeyValueSize t - str_size (value r)) + str_size (value r))).
  { apply (body_replace _ _ _ _ _ _ _ (mkCE (key r) (value r) (version r))); [done| |done].
    by apply Hl. }
  rewrite i32_add_i32. rewrite (body_total _ _ _ _ _ Hb) at 2.
  rewrite (body_total _ _ _ _ _ Hb). unfold Z.sub.
  rewrite <- Z.add_assoc, i32_add_i32. f_equal. lia.
Qed.

(** The effect of an update of one record on the contents. *)
Lemma contents_update t l1 i l2 e k v ver :
  wf t (l1 ++ i :: l2) → entry_at (slots (hashTable t)) i = Some e →
  entries (zinsert i (SAlive k v ver) (slots (hashTable t))) (l1 ++ i :: l2) =
  contents t l1 ++ mkCE k v ver :: contents t l2.
Proof.
  intros [Hl Hb] He. pose proof (links_NoDup _ _ Hl) as Hnd.
  apply NoDup_app in Hnd as (_ & Hd & [Hi _]%NoDup_cons).
  assert (i ∉ l1) as Hi1 by (intros Hi1; apply (Hd i Hi1), elem_of_cons; by left).
  apply entry_at_slot in He. rewrite entries_app, entries_insert_ne by done. f_equal.
  erewrite entries_cons; [|rewrite (entry_at_insert _ _ _ _ _ He); by rewrite decide_True].
  by rewrite entries_insert_ne.
Qed.

Lemma contents_remove t l1 i l2 :
  wf t (l1 ++ i :: l2) →
  entries (zinsert i SDead (slots (hashTable t))) (l1 ++ l2) = contents t (l1 ++ l2).
Proof.
  intros [Hl Hb]. apply entries_insert_ne. pose proof (links_NoDup _ _ Hl) as Hnd.
  rewrite <- Permutation_middle in Hnd. apply NoDup_cons in Hnd. tauto.
Qed.

End Wf.

(** ** Rehashing *)
Section RehashProofs.
Context `{Allocator}.
Implicit Types (T N : list HRecord) (l : list Z).

(** On a table without the key, the search of [rehash] takes the same path as
    [getPosition]. *)
Lemma rehash_probe_getPosition fuel N k pos :
  zlen N ≤ 2 ^ 31 → 0 ≤ pos < zlen N →
  (∀ r, r ∈ N → ~ (state r = ALIVE ∧ key r = k)) →
  getPosition_loop fuel N k pos = rehash_probe fuel N pos.
Proof.
  intros Hn Hpos Hk. revert pos Hpos. induction fuel as [|fuel IH]; intros pos Hpos; [done|].
  simpl. destruct (zlookup_is_Some N pos Hpos) as [r Hr]. rewrite (vec_at_Ok _ _ _ Hr).
  cbn [mbind result_bind]. case_decide.
  - f_equal. apply wraps_small; lia.
  - rewrite decide_False.
    + apply IH. unfold u32. rewrite wrapu_small by lia.
      destruct (Z.leb_spec (zlen N) (pos + 1)); lia.
    + apply Hk. eapply list_elem_of_lookup_2, zlookup_nat, Hr.
Qed.

Lemma rehash_probe_spec N (h tl : Z) l tot n d k :
  body (slots N) l tot n d → (∀ i e, entry_at (slots N) i = Some e → ce_key e ≠ k) →
  ∃ pos, rehash_probe (length N) N (u32 (hash k mod zlen N)) = Ok pos ∧
         free_for (slots N) k pos ∧ 0 ≤ pos < zlen N.
Proof.
  intros Hb Habs. pose proof (body_size _ _ _ _ _ Hb) as Hsz. rewrite zlen_fmap in Hsz.
  pose proof max_records_range.
  destruct (getPosition_spec (mkTable N h tl tot n d) l tot n d k Hb) as (pos & Hpos & Hf).
  exists pos. unfold getPosition in Hpos. simpl in Hpos.
  destruct (Z.eqb_spec (zlen N) 0); [lia|].
  pose proof (Z.mod_pos_bound (hash k) (zlen N)).
  rewrite rehash_probe_getPosition in Hpos; [| lia | unfold u32; rewrite wrapu_small; lia |].
  - destruct Hf as [(e & He & Hk)|Hf]; [exfalso; by eapply Habs|].
    split_and!; try done; pose proof (zlookup_Some_range _ _ _ (proj1 Hf)) as Hr;
      rewrite zlen_fmap in Hr; simpl in Hr; lia.
  - intros r (j & Hj)%list_elem_of_lookup [Hst Hk].
    apply (Habs (Z.of_nat j) (mkCE (key r) (value r) (version r))); [|done].
    apply entry_at_slot. rewrite zlookup_fmap, zlookup_of_nat, Hj. simpl.
    unfold slot_of. by rewrite Hst.
Qed.

(** The tables [rehash] goes through. *)
Definition partial N (h tl : Z) l : Table :=
  mkTable N h tl (i32 (total_size (entries (slots N) l))) (Z.of_nat (length l)) 0.

(** The link of the old tail to a record just written behind it. *)
Lemma append_link N1 tl l pos rn :
  dseg N1 (-1) l (-1) → NoDup l → pos ∉ l → tl = lastd (-1) l →
  zlookup N1 pos = Some rn → state rn = ALIVE → prev rn = tl → next rn = -1 →
  ∃ N', (if tl =? (-1) then Ok N1
         else let* rt := vec_at N1 tl in vec_set N1 tl (set_next pos rt)) = Ok N' ∧
    dseg N' (-1) (l ++ [pos]) (-1) ∧ slots N' = slots N1 ∧ zlen N' = zlen N1.
Proof.
  intros Hd1 Hnd Hni Ht Hrn Hst Hp Hn.
  destruct l as [|j l' _] using rev_ind.
  - simpl in Ht. subst tl. simpl. exists N1. split; [done|]. split; [|done].
    split; [by exists rn|done].
  - rewrite lastd_app in Ht. simpl in Ht. subst tl.
    assert (j ∈ l' ++ [j]) as Hj by (apply elem_of_app; right; by apply list_elem_of_singleton).
    pose proof (dseg_nonneg _ _ _ _ _ Hd1 Hj).
    destruct (Z.eqb_spec j (-1)); [lia|].
    destruct (dseg_alive _ _ _ _ _ Hd1 Hj) as (rj & Hrj & _).
    rewrite (vec_at_Ok _ _ _ Hrj). cbn [mbind result_bind]. rewrite (vec_set_Ok _ _ _ _ Hrj).
    eexists. split; [done|]. split_and!; [|by eapply slots_upd_id|by rewrite zlen_insert].
    apply dseg_app. rewrite lastd_app. simpl. split.
    + eapply dseg_set_next; [|done|done].
      apply NoDup_app in Hnd as (_ & Hnd & _). intros Hj'.
      by apply (Hnd j Hj'), list_elem_of_singleton.
    + split; [|done]. exists rn. split_and!; try done.
      rewrite zlookup_insert_ne; [done|]. intros ->. done.
Qed.

(** One record is appended at the end of the new list. *)
Lemma rehash_append N h tl l pos k v ver :
  wf (partial N h tl l) l → free_for (slots N) k pos → 2 * Z.of_nat (length l) ≤ zlen N →
  0 ≤ pos < zlen N →
  ∃ N', (let* N := vec_set N pos (mkRecord ALIVE k v tl (-1) ver) in
         if tl =? (-1) then Ok N
         else let* rt := vec_at N tl in vec_set N tl (set_next (i32 pos) rt)) = Ok N' ∧
    wf (partial N' (if h =? (-1) then i32 pos else h) (i32 pos) (l ++ [pos])) (l ++ [pos]) ∧
    zlen N' = zlen N ∧
    entries (slots N') (l ++ [pos]) = entries (slots N) l ++ [mkCE k v ver].
Proof.
  intros [Hl Hb] Hfree Hroom Hpos. pose proof Hfree as (Hi & _ & _). simpl in Hb.
  pose proof (body_size _ _ _ _ _ Hb) as Hsz. rewrite zlen_fmap in Hsz.
  pose proof max_records_range.
  assert (i32 pos = pos) as -> by (apply wraps_small; lia).
  rewrite zlookup_fmap in Hi. destruct (zlookup N pos) as [r|] eqn:Hr; [|done].
  assert (pos ∉ l) as Hni.
  { rewrite (body_alive _ _ _ _ _ Hb). unfold entry_at. rewrite zlookup_fmap, Hr. simpl in *.
    injection Hi as ->. by intros []. }
  set (rn := mkRecord ALIVE k v tl (-1) ver). rewrite (vec_set_Ok _ _ _ _ Hr).
  cbn [mbind result_bind]. set (N1 := zinsert pos rn N).
  assert (zlookup N1 pos = Some rn) as Hrn by (by eapply zlookup_insert_eq).
  destruct Hl as [Hd Hh Ht Hnd]; simpl in Hd, Hh, Ht.
  destruct (append_link N1 tl l pos rn) as (N' & HN' & Hd' & Hs' & Hz');
    [by apply dseg_frame_insert|done..|].
  rewrite HN'. exists N'. split; [done|].
  assert (slots N' = zinsert pos (SAlive k v ver) (slots N)) as Hs.
  { rewrite Hs'. unfold N1. by rewrite fmap_zinsert. }
  pose proof (body_add _ _ _ _ _ _ k v ver Hb Hfree) as Hadd.
  assert (entries (slots N') (l ++ [pos]) = entries (slots N) l ++ [mkCE k v ver]) as Hes.
  { rewrite Hs, entries_app, entries_insert_ne by done. f_equal.
    apply entries_cons. erewrite entry_at_insert by (rewrite zlookup_fmap, Hr; done).
    by rewrite decide_True. }
  split_and!; [|by rewrite Hz'; unfold N1; rewrite zlen_insert|done].
  split.
  - split; simpl; try done.
    + rewrite Hh. destruct l as [|j l']; [done|]. simpl.
      destruct Hd as [(rj & Hrj%zlookup_Some_range & _) _].
      destruct (Z.eqb_spec j (-1)); [lia|done].
    + by rewrite lastd_app.
    + apply NoDup_app. split; [done|]. split; [|apply NoDup_singleton].
      intros x Hx ->%list_elem_of_singleton. done.
  - simpl. rewrite Hes, Hs. eapply body_perm; [apply Permutation_cons_append|].
    replace (Z.of_nat (length (l ++ [pos]))) with (Z.of_nat (length l) + 1)
      by (rewrite length_app; simpl; lia).
    replace (i32 (total_size _)) with
      (i32 (i32 (total_size (entries (slots N) l)) + (str_size k + str_size v))).
    { apply Hadd. rewrite zlen_fmap. lia. }
    rewrite i32_add_i32, total_size_app. f_equal. unfold ce_size. simpl. unfold ce_size. simpl. lia.
Qed.

Lemma rehash_loop_spec T lr fuel p N h tl l :
  dseg T p lr (-1) → (length lr ≤ fuel)%nat →
  wf (partial N h tl l) l →
  NoDup (ce_key <$> (entries (slots N) l ++ entries (slots T) lr)) →
  2 * Z.of_nat (length l + length lr) ≤ zlen N + 2 →
  ∃ N' h' tl' l',
    rehash_loop fuel T (hdd (-1) lr) N h tl = Ok (N', h', tl') ∧
    wf (partial N' h' tl' l') l' ∧ zlen N' = zlen N ∧
    entries (slots N') l' = entries (slots N) l ++ entries (slots T) lr ∧
    length l' = (length l + length lr)%nat.
Proof.
  revert fuel p N h tl l. induction lr as [|i lr IH]; intros fuel p N h tl l Hd Hf Hwf Hnd Hroom.
  - exists N, h, tl, l. split; [by destruct fuel|]. split; [done|]. split; [done|].
    split; [by rewrite app_nil_r|simpl; lia].
  - destruct Hd as [(r & Hr & Hst & _ & Hn) Hd]. destruct fuel as [|fuel]; [simpl in Hf; lia|].
    pose proof (zlookup_Some_range _ _ _ Hr). cbn [rehash_loop hdd].
    destruct (Z.eqb_spec i (-1)); [lia|].
    rewrite (vec_at_Ok _ _ _ Hr). cbn [mbind result_bind].
    assert (entry_at (slots T) i = Some (mkCE (key r) (value r) (version r))) as He.
    { apply entry_at_slot. rewrite zlookup_fmap, Hr. simpl. unfold slot_of. by rewrite Hst. }
    rewrite (entries_cons _ _ _ _ He), fmap_app in Hnd. simpl in Hnd.
    pose proof Hwf as [Hl Hb]. simpl in Hb.
    pose proof (body_size _ _ _ _ _ Hb) as Hsz. rewrite zlen_fmap in Hsz.
    destruct (rehash_probe_spec N h tl _ _ _ _ (key r) Hb) as (pos & Hpos & Hfree & Hrange).
    { intros j e Hj Hk. apply NoDup_app in Hnd as (_ & Hdisj & _).
      apply (Hdisj (key r)); [|apply elem_of_cons; by left].
      rewrite <- Hk. apply list_elem_of_fmap. exists e. split; [done|].
      apply elem_of_entries. exists j. split; [|done].
      apply (body_alive _ _ _ _ _ Hb). by eexists. }
    destruct (Z.eqb_spec (zlen N) 0); [lia|]. rewrite Hpos. cbn [mbind result_bind].
    destruct (rehash_append N h tl l pos (key r) (value r) (version r)) as
      (N1 & HN1 & Hwf1 & Hz1 & Hes1); [done..| simpl in Hroom; lia|done|].
    destruct (vec_set N pos _) as [N0|] eqn:HN0 in HN1; [|done].
    rewrite HN0. cbn [mbind result_bind] in HN1 |- *. rewrite HN1. cbn [mbind result_bind].
    rewrite Hn.
    destruct (IH fuel i N1 _ (i32 pos) _ Hd ltac:(simpl in Hf; lia) Hwf1)
      as (N' & h' & tl' & l' & Hok & Hwf' & Hz' & Hes' & Hlen').
    + rewrite Hes1, <- app_assoc. simpl. by rewrite fmap_app.
    + rewrite Hz1, length_app. simpl in *. lia.
    + exists N', h', tl', l'. split_and!; try done.
      * congruence.
      * by rewrite Hes', Hes1, <- app_assoc, (entries_cons _ _ _ _ He).
      * rewrite Hlen', length_app. simpl. lia.
Qed.

(** *** [rehash] keeps the entries and their order and drops the dead slots. *)
Lemma rehash_wf t l newSize :
  wf t l → 10 ≤ newSize ≤ max_records → 2 * numEntries t ≤ newSize + 2 →
  ∃ t' l', rehash newSize t = Ok t' ∧ wf t' l' ∧ contents t' l' = contents t l ∧
           zlen (hashTable t') = newSize ∧ numEntries t' = numEntries t ∧ numDeadEntries t' = 0.
Proof.
  intros Hwf Hsz Hload. pose proof Hwf as [Hl Hb].
  pose proof (body_length _ _ _ _ _ Hb) as Hlen. pose proof (body_size _ _ _ _ _ Hb) as Hsz0.
  set (N := replicate (Z.to_nat newSize) emptyRecord).
  assert (zlen N = newSize) as HzN by (unfold zlen, N; rewrite length_replicate; lia).
  assert (∀ i e, entry_at (slots N) i ≠ Some e) as Hnone.
  { intros i e He%entry_at_slot. unfold N in He. rewrite fmap_replicate in He.
    by apply zlookup_replicate in He. }
  assert (wf (partial N (-1) (-1) []) []) as Hwf0.
  { split; [by split; simpl; try constructor|]. split; simpl; try rewrite zlen_fmap; try lia.
    - intros i. split; [by intros ?%elem_of_nil|]. intros [e He]. by destruct (Hnone i e).
    - intros i e He. by destruct (Hnone i e).
    - unfold N. rewrite fmap_replicate. clear. by induction (Z.to_nat newSize).
    - unfold N. rewrite fmap_replicate. clear. by induction (Z.to_nat newSize). }
  destruct (rehash_loop_spec (hashTable t) l (length (hashTable t)) (-1) N (-1) (-1) [])
    as (N' & h' & tl' & l' & Hok & Hwf' & Hz' & Hes' & Hlen').
  - apply Hl.
  - apply positions_length; [apply Hl|]. intros i Hi.
    destruct (dseg_alive _ _ _ _ _ (links_dseg _ _ Hl) Hi) as (r & -> & _). by eexists.
  - done.
  - by apply wf_keys_NoDup.
  - rewrite HzN. simpl. lia.
  - unfold rehash. destruct (Z.ltb_spec max_records newSize); [lia|].
    rewrite (links_head _ _ Hl). fold N. rewrite Hok. cbn [mbind result_bind].
    eexists _, l'. split; [done|]. simpl in Hes', Hlen'.
    assert (contents (mkTable N' h' tl' (totalKeyValueSize t) (numEntries t) 0) l' = contents t l)
      as Hc by done.
    split_and!; try done; [|simpl; lia].
    destruct Hwf' as [Hl' Hb']. split; [by destruct Hl'|]. simpl in *.
    rewrite (body_total _ _ _ _ _ Hb). fold (contents t l). rewrite <- Hc. unfold contents. simpl.
    rewrite Hlen, <- Hlen'. done.
Qed.

Lemma rehash_bad_alloc t newSize : max_records < newSize → rehash newSize t = Fail BadAlloc.
Proof. intros Hlt. unfold rehash. destruct (Z.ltb_spec max_records newSize); [done|lia]. Qed.

(** *** The end of [normalizeTable] bounds the load, or fails for lack of memory
    without having changed the table. *)
Lemma normalizeLoad_wf t l :
  wf t l →
  (∃ t' l', normalizeLoad t = Ok t' ∧ wf t' l' ∧ contents t' l' = contents t l ∧
            2 * (numEntries t' + numDeadEntries t') ≤ zlen (hashTable t')) ∨
  (normalizeLoad t = Fail BadAlloc ∧ max_records < 2 * zlen (hashTable t) ∧
   zlen (hashTable t) < 4 * numEntries t).
Proof.
  intros Hwf. pose proof Hwf as [Hl Hb]. unfold normalizeLoad.
  pose proof (body_size _ _ _ _ _ Hb) as Hsz. rewrite zlen_fmap in Hsz.
  pose proof (body_load _ _ _ _ _ Hb) as Hld. rewrite zlen_fmap in Hld.
  pose proof (zcount_bounds is_dead (slots (hashTable t))) as Hdead.
  rewrite <- (body_dead _ _ _ _ _ Hb) in Hdead.
  destruct (Z.ltb_spec (zlen (hashTable t)) (4 * numEntries t)) as [Hgrow|Hkeep].
  - destruct (decide (2 * zlen (hashTable t) ≤ max_records)) as [Hfit|Hbig].
    + left. destruct (rehash_wf t l (2 * zlen (hashTable t)) Hwf) as
        (t1 & l1 & Hok & Hwf1 & Hc1 & Hz1 & Hn1 & Hd1); [lia..|].
      rewrite Hok. cbn [mbind result_bind]. rewrite Hz1, Hn1, Hd1.
      destruct (Z.ltb_spec (2 * zlen (hashTable t)) (2 * (numEntries t + 0))); [lia|].
      exists t1, l1. split_and!; first [done|lia].
    + right. rewrite rehash_bad_alloc by lia. split_and!; [done|lia|lia].
  - left. cbn [mbind result_bind].
    destruct (Z.ltb_spec (zlen (hashTable t)) (2 * (numEntries t + numDeadEntries t))).
    + destruct (rehash_wf t l (zlen (hashTable t)) Hwf) as
        (t1 & l1 & Hok & Hwf1 & Hc1 & Hz1 & Hn1 & Hd1); [lia..|].
      exists t1, l1. split_and!; first [done|lia].
    + exists t, l. split_and!; first [done|lia].
Qed.

(** The constructor's table is well formed and empty. *)
Lemma initialTable_wf : wf initialTable [].
Proof.
  pose proof max_records_range.
  split; [by split; simpl; try constructor|]. split; try done.
  - simpl. unfold zlen. simpl. lia.
  - intros i. split; [by intros ?%elem_of_nil|]. intros [e He%entry_at_slot].
    by apply (zlookup_replicate 10 SEmpty) in He.
  - intros i e He%entry_at_slot. by apply (zlookup_replicate 10 SEmpty) in He.
Qed.

End RehashProofs.
