(* ===== verification/KVStorage.v ===== *)
(** * The storage server, class [KVStorageHandler] of [prototype/server.cpp]

    The handler's members form [KVState]; its methods are programs of the monad
    [K], which updates the state, may throw, and gets stuck on undefined
    behaviour.  The two mutexes are members of the state: a thread that locks a
    mutex that is taken and will not be given back is [Stuck Deadlock].  Remote
    calls appear as an argument, the answer of the other side. *)

From S2P Require Import Prelude CacheTypes ConsistentHashing Versions HashTable.
From stdpp Require Import base gmap list strings sorting.
From Stdlib Require Import ZArith Lia.

Local Open Scope Z_scope.

(** ** State *)

Record KVState := mkKV {
  tbl : Table;
  statistics : GetStatisticsReply;
  server : Server;
  currentView : GetServersReply;
  diffs : gmap Server (gset string);
  hashMutex : bool;
  currentViewMutex : bool }.

Definition with_tbl (t : Table) (s : KVState) : KVState :=
  mkKV t (statistics s) (server s) (currentView s) (diffs s) (hashMutex s) (currentViewMutex s).
Definition with_statistics (x : GetStatisticsReply) (s : KVState) : KVState :=
  mkKV (tbl s) x (server s) (currentView s) (diffs s) (hashMutex s) (currentViewMutex s).
Definition with_currentView (v : GetServersReply) (s : KVState) : KVState :=
  mkKV (tbl s) (statistics s) (server s) v (diffs s) (hashMutex s) (currentViewMutex s).
Definition with_diffs (d : gmap Server (gset string)) (s : KVState) : KVState :=
  mkKV (tbl s) (statistics s) (server s) (currentView s) d (hashMutex s) (currentViewMutex s).
Definition with_hashMutex (b : bool) (s : KVState) : KVState :=
  mkKV (tbl s) (statistics s) (server s) (currentView s) (diffs s) b (currentViewMutex s).
Definition with_currentViewMutex (b : bool) (s : KVState) : KVState :=
  mkKV (tbl s) (statistics s) (server s) (currentView s) (diffs s) (hashMutex s) b.

(** The members after the initialisers of the constructor. *)
Definition initial_KVState (self : Server) : KVState :=
  mkKV initialTable zero_statistics self default_GetServersReply ∅ false false.

(** Increments of single counters of [statistics]. *)
Definition inc_numInsertions (s : GetStatisticsReply) : GetStatisticsReply :=
  mkStatistics (numInsertions s + 1) (numUpdates s) (numGoodGets s) (numFailedGets s)
    (dataSize s) (memoryOverhead s) (numEvictions s) (numPurges s).
Definition inc_numUpdates (s : GetStatisticsReply) : GetStatisticsReply :=
  mkStatistics (numInsertions s) (numUpdates s + 1) (numGoodGets s) (numFailedGets s)
    (dataSize s) (memoryOverhead s) (numEvictions s) (numPurges s).
Definition inc_numGoodGets (s : GetStatisticsReply) : GetStatisticsReply :=
  mkStatistics (numInsertions s) (numUpdates s) (numGoodGets s + 1) (numFailedGets s)
    (dataSize s) (memoryOverhead s) (numEvictions s) (numPurges s).
Definition inc_numFailedGets (s : GetStatisticsReply) : GetStatisticsReply :=
  mkStatistics (numInsertions s) (numUpdates s) (numGoodGets s) (numFailedGets s + 1)
    (dataSize s) (memoryOverhead s) (numEvictions s) (numPurges s).
Definition inc_numEvictions (s : GetStatisticsReply) : GetStatisticsReply :=
  mkStatistics (numInsertions s) (numUpdates s) (numGoodGets s) (numFailedGets s)
    (dataSize s) (memoryOverhead s) (numEvictions s + 1) (numPurges s).
Definition inc_numPurges (s : GetStatisticsReply) : GetStatisticsReply :=
  mkStatistics (numInsertions s) (numUpdates s) (numGoodGets s) (numFailedGets s)
    (dataSize s) (memoryOverhead s) (numEvictions s) (numPurges s + 1).

Abbreviation K := (M cache_exn KVState).

(** ** Primitive actions *)

Definition lock_hashMutex : K unit := λ s,
  if hashMutex s then Stuck Deadlock else Ret tt (with_hashMutex true s).
Definition unlock_hashMutex : K unit := modify (with_hashMutex false).
Definition lock_currentViewMutex : K unit := λ s,
  if currentViewMutex s then Stuck Deadlock else Ret tt (with_currentViewMutex true s).
Definition unlock_currentViewMutex : K unit := modify (with_currentViewMutex false).

(** Running an operation of the hash table on the member [tbl].  The only
    exception among its failures is [std::bad_alloc]. *)
Definition on_table (f : Table → result Table) : K unit := λ s,
  match f (tbl s) with
  | Ok t => Ret tt (with_tbl t s)
  | Fail BadAlloc => Exn std_bad_alloc s
  | Fail f => Stuck f
  end.

Definition position (k : string) : K Z := λ s,
  match getPosition (tbl s) k with Ok p => Ret p s | Fail f => Stuck f end.

Definition record_at (pos : Z) : K HRecord := λ s,
  match vec_at (hashTable (tbl s)) pos with Ok r => Ret r s | Fail f => Stuck f end.

Definition count_with (f : GetStatisticsReply → GetStatisticsReply) : K unit :=
  modify (λ s, with_statistics (f (statistics s)) s).

(** [getServer(hash, view)] as a call that may throw. *)
Definition get_server (hash : Z) (v : View) : K (list Server) :=
  match getServer hash v with inl e => throw e | inr ss => mret ss end.

(** The outcome of a remote call: the reply, or the exception that the
    connection or the call raises. *)
Definition remote {A} (r : cache_exn + A) : K A :=
  match r with inl e => throw e | inr a => mret a end.

Definition string_le (a b : string) : Prop := String.leb a b = true.
#[export] Instance string_le_dec : RelDecision string_le.
Proof. intros a b. unfold string_le. apply _. Defined.

(** Traversal of a [std::set<std::string>]. *)
Definition set_iter (X : gset string) : list string := merge_sort string_le (elements X).

Section Handler.
Context `{Allocator}.

(** ** Eviction and normalisation *)

Definition evictEntry : K unit :=
  let* t := gets tbl in
  if listTail t =? (-1) then stuck AssertFailed else
  on_table (removeEntry (listTail t)) ;;
  count_with inc_numEvictions.

(** [while (getUsedMemory() > MEMORY_LIMIT) evictEntry();] *)
Fixpoint evict_loop (fuel : nat) : K unit :=
  let* t := gets tbl in
  if MEMORY_LIMIT <? getUsedMemory t then
    match fuel with
    | O => stuck OutOfFuel
    | S fuel' => evictEntry ;; evict_loop fuel'
    end
  else mret tt.

(** Every round of the loop removes a record, so [hashTable.size()] rounds are
    enough. *)
Definition normalizeTable : K unit :=
  let* t := gets tbl in
  evict_loop (length (hashTable t)) ;;
  on_table normalizeLoad.

(** ** [put] and [get] *)

(** [for (...) diffs[servers[i]].insert(key)] for the other replicas. *)
Definition record_diffs (self : Server) (servers : list Server) (k : string)
    (d : gmap Server (gset string)) : gmap Server (gset string) :=
  foldl (λ d s, if decide (s = self) then d else <[s := {[k]} ∪ default ∅ (d !! s)]> d) d servers.

(** The part of [put] that runs under [hashMutex].  The version is advanced
    between the two updates of [totalKeyValueSize] that [replaceValue] joins. *)
Definition put_locked (q : PutArgs) : K PutReply :=
  lock_hashMutex ;;
  normalizeTable ;;
  let* pos := position (put_key q) in
  let* r := record_at pos in
  (if decide (state r = ALIVE) then
     on_table (replaceValue pos (put_value q)) ;;
     let* self := gets server in
     on_table (λ t, upd t pos (λ r, set_version (bump_version self (version r)) r)) ;;
     count_with inc_numUpdates ;;
     on_table (accessEntry pos)
   else
     count_with inc_numInsertions ;;
     let* self := gets server in
     on_table (addEntry self pos (put_key q) (put_value q))) ;;
  lock_currentViewMutex ;;
  let* v := gets currentView in
  let* servers := get_server (ir_hash (put_key q)) (gsr_view v) in
  unlock_currentViewMutex ;;
  let* self := gets server in
  modify (λ s, with_diffs (record_diffs self servers (put_key q) (diffs s)) s) ;;
  unlock_hashMutex ;;
  mret (mkPutReply OK).

(** The part of [get] that runs under [hashMutex]; [value] of a reply that
    reports no key stays empty. *)
Definition get_locked (q : GetArgs) : K GetReply :=
  lock_hashMutex ;;
  let* pos := position (get_key q) in
  let* r := record_at pos in
  let* reply :=
    (if decide (state r = ALIVE) then
       count_with inc_numGoodGets ;;
       on_table (accessEntry pos) ;;
       mret (mkGetReply OK (value r))
     else
       count_with inc_numFailedGets ;;
       mret (mkGetReply NO_KEY "")) in
  unlock_hashMutex ;;
  mret reply.

(** ** Views *)

(** The traversal of the linked list in [adjustVersion] that inserts every key
    into the set of one replica.  [pos] runs over the links; a list without end
    would exhaust the fuel. *)
Fixpoint list_keys (fuel : nat) (T : list HRecord) (pos : Z) : result (list string) :=
  if pos =? (-1) then Ok [] else
  match fuel with
  | O => Fail OutOfFuel
  | S fuel' =>
      let* r := vec_at T pos in
      let* ks := list_keys fuel' T (next r) in
      Ok (key r :: ks)
  end.

(** [if (!diffs.count(s) && s != server) for (...) diffs[s].insert(key)]; with
    an empty list [diffs[s]] is not created. *)
Definition add_replica_diff (self : Server) (ks : list string)
    (d : gmap Server (gset string)) (s : Server) : gmap Server (gset string) :=
  if decide (is_Some (d !! s) ∨ s = self ∨ ks = []) then d
  else <[s := list_to_set ks]> d.

(** [adjustVersion] on the record at [pos].  The last loop increments its
    iterator after [diffs.erase(it)] has invalidated it. *)
Definition adjustVersion (pos : Z) (servers : list Server) : K unit :=
  on_table (λ t, upd t pos (λ r, set_version (restrict_version servers (version r)) r)) ;;
  let* t := gets tbl in
  let* ks := lift_result (list_keys (length (hashTable t)) (hashTable t) (listHead t)) in
  let* self := gets server in
  modify (λ s, with_diffs (foldl (add_replica_diff self ks) (diffs s) servers) s) ;;
  let* d := gets diffs in
  if decide (∀ s, s ∈ dom d → s ∈ servers) then mret tt else stuck IteratorInvalidated.

(** The loop of [cleanHash].  [removeEntry] resets the links of the record, and
    [pos = hashTable[pos].next] is evaluated after it. *)
Fixpoint cleanHash_loop (fuel : nat) (pos : Z) : K unit :=
  if pos =? (-1) then mret tt else
  match fuel with
  | O => stuck OutOfFuel
  | S fuel' =>
      let* r := record_at pos in
      let* v := gets currentView in
      let* supposedServer := get_server (ir_hash (key r)) (gsr_view v) in
      let* self := gets server in
      (if decide (self ∈ supposedServer) then adjustVersion pos supposedServer
       else on_table (removeEntry pos) ;; count_with inc_numPurges) ;;
      let* r := record_at pos in
      cleanHash_loop fuel' (next r)
  end.

Definition cleanHash : K unit :=
  lock_hashMutex ;;
  let* t := gets tbl in
  cleanHash_loop (length (hashTable t)) (listHead t) ;;
  unlock_hashMutex.

(** [currentView = _currentView] under [currentViewMutex], followed by
    [cleanHash] when the number has changed; common to [checkServer] and
    [pingViewService]. *)
Definition installView (v : GetServersReply) : K unit :=
  lock_currentViewMutex ;;
  let* old := gets currentView in
  modify (with_currentView v) ;;
  unlock_currentViewMutex ;;
  if gsr_viewNum old =? gsr_viewNum v then mret tt else cleanHash.

(** [checkServer]; [ping] is the answer of the view service to [receivePing],
    which is only asked when the client's view is newer. *)
Definition checkServer (ping : cache_exn + GetServersReply) (viewNum : Z) (k : string) : K bool :=
  lock_currentViewMutex ;;
  let* _currentView := gets currentView in
  unlock_currentViewMutex ;;
  if viewNum <? gsr_viewNum _currentView then mret false else
  let* v :=
    (if gsr_viewNum _currentView <? viewNum then
       let* v := remote ping in
       installView v ;;
       mret (if viewNum =? gsr_viewNum v then Some v else None)
     else mret (Some _currentView)) in
  match v with
  | None => mret false
  | Some v =>
      let* supposedServer := get_server (ir_hash k) (gsr_view v) in
      let* self := gets server in
      mret (bool_decide (self ∈ supposedServer))
  end.

Definition put (ping : cache_exn + GetServersReply) (q : PutArgs) : K PutReply :=
  let* ok := checkServer ping (put_viewNum q) (put_key q) in
  if ok : bool then put_locked q else mret (mkPutReply WRONG_SERVER).

Definition get (ping : cache_exn + GetServersReply) (q : GetArgs) : K GetReply :=
  let* ok := checkServer ping (get_viewNum q) (get_key q) in
  if ok : bool then get_locked q else mret (mkGetReply WRONG_SERVER "").

(** [getStatistics]; the size of a [Record] depends on the C++ library. *)
Definition getStatistics (sizeof_Record : Z) : K GetStatisticsReply :=
  modify (λ s, with_statistics
    (mkStatistics (numInsertions (statistics s)) (numUpdates (statistics s))
       (numGoodGets (statistics s)) (numFailedGets (statistics s))
       (getUsedMemory (tbl s)) (sizeof_Record * zlen (hashTable (tbl s)))
       (numEvictions (statistics s)) (numPurges (statistics s))) s) ;;
  gets statistics.

(** One round of the thread [pingViewService]; [catch (...)] drops every
    exception. *)
Definition pingViewService_round (ping : cache_exn + GetServersReply) : K unit :=
  catch (let* v := remote ping in installView v) (λ _, mret tt).

(** ** Anti-entropy *)

(** [propagate]; the result is the list of keys pushed to
    [invalidatedEntries]. *)
Definition propagate (entry : Entry) : K (list string) :=
  normalizeTable ;;
  let* pos := position (e_key entry) in
  let* r := record_at pos in
  if decide (state r = ALIVE) then
    let v := of_VersionEntries (e_version entry) in
    if atMost v (version r) then mret []
    else if atMost (version r) v then
      on_table (replaceValue pos (e_value entry)) ;;
      on_table (accessEntry pos) ;;
      on_table (λ t, upd t pos (set_version v)) ;;
      mret []
    else if bool_decide (e_value entry = value r) then
      on_table (λ t, upd t pos (set_version (maximumVersion v (version r)))) ;;
      mret []
    else
      on_table (removeEntry pos) ;;
      mret [key r]
  else
    let* self := gets server in
    on_table (addEntry_version self pos (e_key entry) (e_value entry) (e_version entry)) ;;
    mret [].

Fixpoint propagate_all (es : list Entry) : K (list string) :=
  match es with
  | [] => mret []
  | e :: es' =>
      let* inv := propagate e in
      let* invs := propagate_all es' in
      mret (inv ++ invs)
  end.

(** [antiEntropy], the handler of the receiving replica. *)
Definition antiEntropy (query : AntiEntropyArgs) : K AntiEntropyReply :=
  lock_currentViewMutex ;;
  let* v := gets currentView in
  unlock_currentViewMutex ;;
  if gsr_viewNum v =? aea_viewNum query then
    lock_hashMutex ;;
    let* invs := propagate_all (aea_entries query) in
    unlock_hashMutex ;;
    mret (mkAntiEntropyReply OK invs)
  else mret (mkAntiEntropyReply WRONG_SERVER []).

(** The entries for the keys of a set that are still stored. *)
Fixpoint collect_entries (ks : list string) : K (list Entry) :=
  match ks with
  | [] => mret []
  | k :: ks' =>
      let* pos := position k in
      let* r := record_at pos in
      let* es := collect_entries ks' in
      mret (if decide (state r = ALIVE) then
              mkEntry (key r) (value r) ((λ p, mkVersionEntry p.1 p.2) <$> version r) :: es
            else es)
  end.

(** The first replica, in the order of the map, with keys to send. *)
Definition next_diff (d : gmap Server (gset string)) : option (Server * gset string) :=
  head (filter (λ p, p.2 ≠ ∅) (map_iter server_le d)).

(** One round of the thread [antiEntropyHandler], from the lock of [hashMutex]
    to its release before the remote call ... *)
Definition antiEntropyHandler_collect : K (option (Server * AntiEntropyArgs)) :=
  lock_hashMutex ;;
  let* d := gets diffs in
  match next_diff d with
  | None => unlock_hashMutex ;; mret None
  | Some (dest, ks) =>
      lock_currentViewMutex ;;
      let* v := gets currentView in
      unlock_currentViewMutex ;;
      let* es := collect_entries (set_iter ks) in
      unlock_hashMutex ;;
      mret (Some (dest, mkAntiEntropyArgs es (gsr_viewNum v)))
  end.

Fixpoint invalidate (ks : list string) : K unit :=
  match ks with
  | [] => mret tt
  | k :: ks' =>
      let* pos := position k in
      let* r := record_at pos in
      (if decide (state r = ALIVE) then on_table (removeEntry pos) else mret tt) ;;
      invalidate ks'
  end.

(** ... and from the lock that follows the call to the end of the round.
    [diffs.erase(it)] needs the entry to be in the map still. *)
Definition antiEntropyHandler_finish (dest : Server) (reply : AntiEntropyReply) : K unit :=
  lock_hashMutex ;;
  (if decide (aer_status reply = OK) then
     let* d := gets diffs in
     match d !! dest with
     | None => stuck IteratorInvalidated
     | Some _ =>
         modify (with_diffs (delete dest d)) ;;
         invalidate (aer_invalidatedEntries reply)
     end
   else mret tt) ;;
  unlock_hashMutex.

(** The round as a whole when no other thread runs during the call; a call that
    fails counts as [WRONG_SERVER]. *)
Definition antiEntropyHandler_round
    (call : Server → AntiEntropyArgs → cache_exn + AntiEntropyReply) : K unit :=
  let* work := antiEntropyHandler_collect in
  match work with
  | None => mret tt
  | Some (dest, args) =>
      antiEntropyHandler_finish dest
        (match call dest args with
         | inl _ => mkAntiEntropyReply WRONG_SERVER []
         | inr reply => reply
         end)
  end.

End Handler.
