(* ===== verification/KVSpec.v ===== *)
(** * The storage server as a cache

    The abstract cache is a list of entries, most recently used first.  This
    file states what [put], [get], [propagate] and eviction do to it and proves
    that the hash table implementation does just that. *)

From S2P Require Import Prelude CacheTypes ConsistentHashing Versions HashTable HashTableInv.
From S2P Require Import KVStorage.
From stdpp Require Import base gmap list strings sorting.
From Stdlib Require Import ZArith Lia.

Local Open Scope Z_scope.
Set Warnings "-clear-no-such-hyp".

(** ** The abstract cache *)

Abbreviation cache := (list centry).

Definition cache_find (k : string) (es : cache) : option centry :=
  head (filter (λ e, ce_key e = k) es).
Definition cache_remove (k : string) (es : cache) : cache := filter (λ e, ce_key e ≠ k) es.

(** Moving an entry to the front, replacing value and version. *)
Definition cache_set (k v : string) (ver : Version) (es : cache) : cache :=
  mkCE k v ver :: cache_remove k es.

(** The memory in use as the server computes it, in 32 bits. *)
Definition cache_memory (es : cache) : Z := i32 (total_size es).

(** Removal of the least recently used entries until the memory is in bounds. *)
Fixpoint cache_evict (fuel : nat) (es : cache) : cache :=
  if MEMORY_LIMIT <? cache_memory es then
    match fuel with
    | O => es
    | S fuel' => cache_evict fuel' (removelast es)
    end
  else es.

Definition cache_normalize (es : cache) : cache := cache_evict (length es) es.

Definition cache_put (self : Server) (k v : string) (es : cache) : cache :=
  match cache_find k es with
  | Some e => cache_set k v (bump_version self (ce_version e)) es
  | None => mkCE k v [(self, 1)] :: es
  end.

Definition cache_get (k : string) (es : cache) : option string * cache :=
  match cache_find k es with
  | Some e => (Some (ce_value e), e :: cache_remove k es)
  | None => (None, es)
  end.

(** The reaction to an entry received from another replica. *)
Definition cache_propagate (entry : Entry) (es : cache) : cache * list string :=
  let k := e_key entry in
  let ver := of_VersionEntries (e_version entry) in
  match cache_find k es with
  | None => (mkCE k (e_value entry) ver :: es, [])
  | Some e =>
      if atMost ver (ce_version e) then (es, [])
      else if atMost (ce_version e) ver then (cache_set k (e_value entry) ver es, [])
      else if bool_decide (e_value entry = ce_value e) then
        ((λ e', if decide (ce_key e' = k)
                then mkCE k (ce_value e') (maximumVersion ver (ce_version e')) else e') <$> es, [])
      else (cache_remove k es, [k])
  end.

(** ** Facts about the abstract cache *)
Section CacheFacts.
Implicit Types (es : cache).

Lemma cache_remove_absent k es : k ∉ ce_key <$> es → cache_remove k es = es.
Proof.
  unfold cache_remove. induction es as [|e es IH]; [done|].
  rewrite fmap_cons, not_elem_of_cons, filter_cons. intros [Hne Hni].
  rewrite decide_True by congruence. by rewrite IH.
Qed.

Lemma cache_find_absent k es : k ∉ ce_key <$> es → cache_find k es = None.
Proof.
  unfold cache_find. induction es as [|e es IH]; [done|].
  rewrite fmap_cons, not_elem_of_cons, filter_cons. intros [Hne Hni].
  rewrite decide_False by congruence. by apply IH.
Qed.

Lemma cache_find_Some k es e : cache_find k es = Some e → e ∈ es ∧ ce_key e = k.
Proof.
  unfold cache_find. intros Hf. assert (e ∈ filter (λ e, ce_key e = k) es) as Hin.
  { destruct (filter _ es) as [|e' es']; [done|]. injection Hf as ->. apply elem_of_cons. by left. }
  apply list_elem_of_filter in Hin. tauto.
Qed.

(** With distinct keys, an entry is found at its place and removal deletes it. *)
Lemma cache_split es1 e es2 :
  NoDup (ce_key <$> (es1 ++ e :: es2)) →
  cache_find (ce_key e) (es1 ++ e :: es2) = Some e ∧
  cache_remove (ce_key e) (es1 ++ e :: es2) = es1 ++ es2.
Proof.
  rewrite fmap_app, fmap_cons, <- Permutation_middle, <- fmap_app.
  intros [Hni _]%NoDup_cons. rewrite fmap_app, not_elem_of_app in Hni. destruct Hni as [H1 H2].
  unfold cache_find, cache_remove. rewrite !filter_app, !filter_cons.
  rewrite decide_True, (decide_False (P := ce_key e ≠ ce_key e)) by (auto || by intros []).
  fold (cache_remove (ce_key e) es1) (cache_remove (ce_key e) es2).
  rewrite !cache_remove_absent by done. split; [|done].
  pose proof (cache_find_absent _ _ H1) as Hf. unfold cache_find in Hf.
  by destruct (filter _ es1).
Qed.

Lemma cache_evict_length fuel es : (length (cache_evict fuel es) ≤ length es)%nat.
Proof.
  revert es. induction fuel as [|fuel IH]; intros es; simpl; case_match; try lia.
  specialize (IH (removelast es)).
  destruct es as [|e es _] using rev_ind; [done|].
  rewrite removelast_last in *. rewrite length_app. simpl. lia.
Qed.

Lemma cache_memory_nil : cache_memory [] = 0.
Proof. done. Qed.

(** Eviction ends with the memory in bounds. *)
Lemma cache_evict_bound fuel es :
  (length es ≤ fuel)%nat → cache_memory (cache_evict fuel es) ≤ MEMORY_LIMIT.
Proof.
  revert es. induction fuel as [|fuel IH]; intros es Hf.
  - destruct es; [|simpl in Hf; lia]. simpl. done.
  - simpl. destruct (Z.ltb_spec MEMORY_LIMIT (cache_memory es)); [|lia].
    apply IH. destruct es as [|e es _] using rev_ind; [simpl; lia|].
    rewrite removelast_last. rewrite length_app in Hf. simpl in Hf. lia.
Qed.

Lemma cache_normalize_bound es : cache_memory (cache_normalize es) ≤ MEMORY_LIMIT.
Proof. by apply cache_evict_bound. Qed.

(** Eviction keeps a prefix, the most recently used entries. *)
Lemma cache_evict_prefix fuel es : cache_evict fuel es `prefix_of` es.
Proof.
  revert es. induction fuel as [|fuel IH]; intros es; simpl; case_match; try done.
  destruct es as [|e es _] using rev_ind; [apply IH|].
  rewrite removelast_last. etrans; [apply IH|]. by apply prefix_app_r.
Qed.

(** If the total size fits in 32 bits, the bound is on the true size. *)
Lemma cache_memory_exact es : total_size es < 2 ^ 31 → cache_memory es = total_size es.
Proof.
  intros Hlt. apply wraps_small; [lia|]. pose proof (total_size_nonneg es). lia.
Qed.

Lemma total_size_prefix es es' : es `prefix_of` es' → total_size es ≤ total_size es'.
Proof.
  intros [es2 ->]. rewrite total_size_app. pose proof (total_size_nonneg es2). lia.
Qed.

End CacheFacts.

(** ** Refinement *)
Section Refinement.
Context `{Allocator}.
Implicit Types (st : KVState) (l : list Z).

(** What the table operations leave alone. *)
Definition kv_frame st st' : Prop :=
  server st' = server st ∧ currentView st' = currentView st ∧ diffs st' = diffs st ∧
  hashMutex st' = hashMutex st ∧ currentViewMutex st' = currentViewMutex st.

#[export] Instance kv_frame_preorder : PreOrder kv_frame.
Proof. split; unfold kv_frame; [done|]. intros ???. intuition congruence. Qed.

(** The cache that a state represents. *)
Definition kv_cache st l : cache := contents (tbl st) l.

Lemma lock_hashMutex_free st :
  hashMutex st = false → lock_hashMutex st = Ret tt (with_hashMutex true st).
Proof. intros Hm. unfold lock_hashMutex. by rewrite Hm. Qed.

Lemma lock_hashMutex_taken st : hashMutex st = true → lock_hashMutex st = Stuck Deadlock.
Proof. intros Hm. unfold lock_hashMutex. by rewrite Hm. Qed.

Lemma lock_currentViewMutex_free st :
  currentViewMutex st = false → lock_currentViewMutex st = Ret tt (with_currentViewMutex true st).
Proof. intros Hm. unfold lock_currentViewMutex. by rewrite Hm. Qed.

Lemma on_table_Ok f st t : f (tbl st) = Ok t → on_table f st = Ret tt (with_tbl t st).
Proof. intros Hf. unfold on_table. by rewrite Hf. Qed.

Lemma record_at_Ok pos st r :
  zlookup (hashTable (tbl st)) pos = Some r → record_at pos st = Ret r st.
Proof. intros Hr. unfold record_at. by rewrite (vec_at_Ok _ _ _ Hr). Qed.

Lemma contents_app (t : Table) l1 l2 : contents t (l1 ++ l2) = contents t l1 ++ contents t l2.
Proof. apply entries_app. Qed.

Lemma contents_slots (t t' : Table) l :
  slots (hashTable t') = slots (hashTable t) → contents t' l = contents t l.
Proof. unfold contents. by intros ->. Qed.

Lemma wf_contents_split (t : Table) l1 i l2 e :
  wf t (l1 ++ i :: l2) → entry_at (slots (hashTable t)) i = Some e →
  contents t (l1 ++ i :: l2) = contents t l1 ++ e :: contents t l2 ∧
  cache_find (ce_key e) (contents t (l1 ++ i :: l2)) = Some e ∧
  cache_remove (ce_key e) (contents t (l1 ++ i :: l2)) = contents t (l1 ++ l2).
Proof.
  intros Hwf He. pose proof (wf_keys_NoDup _ _ Hwf) as Hnd.
  assert (contents t (l1 ++ i :: l2) = contents t l1 ++ e :: contents t l2) as Hc.
  { rewrite contents_app. f_equal. by apply entries_cons. }
  rewrite Hc in *. rewrite contents_app. split; [done|]. by apply cache_split.
Qed.

(** *** Eviction *)

Lemma evictEntry_spec st l i :
  wf (tbl st) (l ++ [i]) →
  ∃ st', evictEntry st = Ret tt st' ∧ wf (tbl st') l ∧ kv_frame st st' ∧
    kv_cache st' l = removelast (kv_cache st (l ++ [i])) ∧
    zlen (hashTable (tbl st')) = zlen (hashTable (tbl st)) ∧
    numEvictions (statistics st') = numEvictions (statistics st) + 1.
Proof.
  intros Hwf. pose proof Hwf as [Hl Hb].
  assert (listTail (tbl st) = i) as Htail by (rewrite (links_tail _ _ Hl), lastd_app; done).
  destruct (wf_entry _ _ i Hwf) as (e & r & He & Hr & _ & _).
  { apply elem_of_app. right. by apply list_elem_of_singleton. }
  pose proof (zlookup_Some_range _ _ _ Hr).
  destruct (removeEntry_wf _ _ _ _ Hwf) as (t' & Hok & Hwf' & Hs & _).
  rewrite app_nil_r in Hwf'.
  exists (with_statistics (inc_numEvictions (statistics st)) (with_tbl t' st)).
  split_and!; try done.
  - unfold evictEntry. mstep. rewrite Htail. destruct (Z.eqb_spec i (-1)); [lia|].
    erewrite M_bind_ret by (by apply on_table_Ok). done.
  - unfold kv_cache. simpl. destruct (wf_contents_split _ _ _ _ _ Hwf He) as (Hc & _ & _).
    rewrite Hc. change (contents (tbl st) []) with (@nil centry). rewrite removelast_last.
    unfold contents at 1. rewrite Hs. rewrite <- (app_nil_r l) at 1.
    rewrite (contents_remove _ _ _ _ Hwf). by rewrite app_nil_r.
  - simpl. rewrite <- (zlen_fmap slot_of t'.(hashTable)), Hs, zlen_insert. apply zlen_fmap.
Qed.

Lemma evict_loop_spec fuel st l :
  wf (tbl st) l → (length l ≤ fuel)%nat →
  ∃ st' l', evict_loop fuel st = Ret tt st' ∧ wf (tbl st') l' ∧ kv_frame st st' ∧
    kv_cache st' l' = cache_evict fuel (kv_cache st l) ∧
    zlen (hashTable (tbl st')) = zlen (hashTable (tbl st)) ∧
    numEvictions (statistics st') =
      numEvictions (statistics st) + Z.of_nat (length l) - Z.of_nat (length l').
Proof.
  revert st l. induction fuel as [|fuel IH]; intros st l Hwf Hf.
  - destruct l; [|simpl in Hf; lia]. exists st, []. pose proof Hwf as [_ Hb].
    simpl. unfold getUsedMemory, mbind, M_bind, gets. rewrite (body_total _ _ _ _ _ Hb). simpl.
    split_and!; try done. lia.
  - pose proof Hwf as [_ Hb]. cbn [evict_loop cache_evict]. mstep. unfold getUsedMemory.
    rewrite (body_total _ _ _ _ _ Hb).
    fold (contents (tbl st) l). fold (kv_cache st l). fold (cache_memory (kv_cache st l)).
    destruct (Z.ltb_spec MEMORY_LIMIT (cache_memory (kv_cache st l))) as [Hov|Hin].
    + destruct l as [|i l _] using rev_ind.
      { unfold kv_cache, contents, cache_memory in Hov. simpl in Hov. by vm_compute in Hov. }
      destruct (evictEntry_spec st l i Hwf) as (st1 & Hok & Hwf1 & Hfr1 & Hc1 & Hz1 & Hn1).
      rewrite length_app in Hf. simpl in Hf.
      destruct (IH st1 l Hwf1 ltac:(lia)) as (st2 & l2 & Hok2 & Hwf2 & Hfr2 & Hc2 & Hz2 & Hn2).
      exists st2, l2. erewrite M_bind_ret by done. split_and!; try done.
      * by etrans.
      * by rewrite Hc2, Hc1.
      * congruence.
      * rewrite length_app. simpl. lia.
    + exists st, l. split_and!; try done. lia.
Qed.

Lemma cache_evict_fuel fuel es :
  (length es ≤ fuel)%nat → cache_evict fuel es = cache_normalize es.
Proof.
  unfold cache_normalize. remember (length es) as n eqn:Hn. revert fuel es Hn.
  induction n as [|n IH]; intros fuel es Hn Hf.
  - destruct es; [|done]. by destruct fuel.
  - destruct fuel as [|fuel]; [lia|]. simpl. case_match; [|done].
    apply IH; [|lia]. destruct es as [|e es _] using rev_ind; [done|].
    rewrite removelast_last. rewrite length_app in Hn. simpl in Hn. lia.
Qed.

(** *** [normalizeTable] *)
Lemma normalizeTable_spec st l :
  wf (tbl st) l →
  ∃ st' l', wf (tbl st') l' ∧ kv_frame st st' ∧
    kv_cache st' l' = cache_normalize (kv_cache st l) ∧
    (normalizeTable st = Ret tt st' ∧
       2 * (numEntries (tbl st') + numDeadEntries (tbl st')) ≤ zlen (hashTable (tbl st')) ∨
     normalizeTable st = Exn std_bad_alloc st' ∧ max_records < 2 * zlen (hashTable (tbl st))).
Proof.
  intros Hwf. pose proof Hwf as [Hl Hb].
  assert (length l ≤ length (hashTable (tbl st)))%nat as Hlen.
  { apply positions_length; [apply Hl|]. intros i Hi.
    destruct (dseg_alive _ _ _ _ _ (links_dseg _ _ Hl) Hi) as (r & -> & _). by eexists. }
  destruct (evict_loop_spec _ _ _ Hwf Hlen) as (st1 & l1 & Hok1 & Hwf1 & Hfr1 & Hc1 & Hz1 & _).
  rewrite cache_evict_fuel in Hc1 by (unfold kv_cache; by rewrite wf_contents_length).
  unfold normalizeTable.
  destruct (normalizeLoad_wf _ _ Hwf1) as [(t2 & l2 & Hok2 & Hwf2 & Hc2 & Hroom)|(Hbad & Hbig & _)].
  - exists (with_tbl t2 st1), l2. split_and!; try done.
    + unfold kv_cache in *. simpl. congruence.
    + left. split; [|done]. mstep. erewrite M_bind_ret by done. by apply on_table_Ok.
  - exists st1, l1. split_and!; try done. right. split; [|lia].
    mstep. erewrite M_bind_ret by done. unfold on_table. by rewrite Hbad.
Qed.

(** *** Searching *)
Lemma position_spec st l k :
  wf (tbl st) l →
  ∃ pos r, position k st = Ret pos st ∧ record_at pos st = Ret r st ∧
    zlookup (hashTable (tbl st)) pos = Some r ∧
    ((∃ l1 l2 e, l = l1 ++ pos :: l2 ∧ state r = ALIVE ∧ key r = k ∧
        entry_at (slots (hashTable (tbl st))) pos = Some e ∧
        e = mkCE k (value r) (version r) ∧ cache_find k (kv_cache st l) = Some e) ∨
     (state r = EMPTY ∧ free_for (slots (hashTable (tbl st))) k pos ∧
        cache_find k (kv_cache st l) = None ∧ k ∉ ce_key <$> kv_cache st l)).
Proof.
  intros Hwf. pose proof Hwf as [Hl Hb].
  destruct (getPosition_spec (tbl st) l _ _ _ k Hb) as (pos & Hpos & Hf).
  exists pos. unfold position. rewrite Hpos.
  destruct Hf as [(e & He & Hk)|Hfree].
  - assert (pos ∈ l) as Hin by (apply (body_alive _ _ _ _ _ Hb); by eexists).
    destruct (wf_entry _ _ pos Hwf Hin) as (e' & r & He' & Hr & Hst & ->).
    rewrite He in He'. injection He' as ->. simpl in Hk.
    exists r. split_and!; try done; [by apply record_at_Ok|]. left.
    apply list_elem_of_split in Hin as (l1 & l2 & ->).
    exists l1, l2, (mkCE k (value r) (version r)). rewrite Hk in He.
    split_and!; try done.
    destruct (wf_contents_split _ _ _ _ _ Hwf He) as (_ & Hfind & _). done.
  - pose proof Hfree as (Hi & _ & Habs). rewrite zlookup_fmap in Hi.
    destruct (zlookup (hashTable (tbl st)) pos) as [r|] eqn:Hr; [|done].
    exists r. split_and!; try done; [by apply record_at_Ok|]. right.
    assert (k ∉ ce_key <$> kv_cache st l) as Hni.
    { intros (e & -> & (i & Hi' & He)%elem_of_entries)%list_elem_of_fmap. by eapply Habs. }
    split_and!; try done; [|by apply cache_find_absent].
    injection Hi as Hi. unfold slot_of in Hi. by destruct (state r).
Qed.

(** *** Updating a stored entry *)

Lemma upd_version_wf (t : Table) l1 i l2 e (f : Version → Version) :
  wf t (l1 ++ i :: l2) → entry_at (slots (hashTable t)) i = Some e →
  ∃ t', upd t i (λ r, set_version (f (version r)) r) = Ok t' ∧ wf t' (l1 ++ i :: l2) ∧
    slots (hashTable t') =
      zinsert i (SAlive (ce_key e) (ce_value e) (f (ce_version e))) (slots (hashTable t)).
Proof.
  intros Hwf He.
  destruct (set_version_wf t l1 i l2 e (f (ce_version e)) Hwf He) as (t' & Hok & Hwf' & Hs).
  exists t'. split_and!; try done. rewrite <- Hok.
  destruct (wf_entry _ _ i Hwf) as (e' & r & He' & Hr & _ & ->).
  { apply elem_of_app. right. apply elem_of_cons. by left. }
  rewrite He in He'. injection He' as ->. by rewrite !(upd_Ok _ _ _ _ Hr).
Qed.

Lemma entry_at_updated S i e k v ver :
  entry_at S i = Some e → entry_at (zinsert i (SAlive k v ver) S) i = Some (mkCE k v ver).
Proof.
  intros He%entry_at_slot. rewrite (entry_at_insert _ _ _ _ _ He). by rewrite decide_True.
Qed.

(** [replaceValue], an update of the version and [accessEntry], in this order:
    the entry gets new contents and moves to the front. *)
Lemma replace_and_access st l1 i l2 e v (f : Version → Version) :
  wf (tbl st) (l1 ++ i :: l2) → entry_at (slots (hashTable (tbl st))) i = Some e →
  ∃ t1 t2 t3,
    replaceValue i v (tbl st) = Ok t1 ∧
    upd t1 i (λ r, set_version (f (version r)) r) = Ok t2 ∧
    accessEntry i t2 = Ok t3 ∧ wf t3 (i :: l1 ++ l2) ∧
    contents t3 (i :: l1 ++ l2) =
      cache_set (ce_key e) v (f (ce_version e)) (kv_cache st (l1 ++ i :: l2)).
Proof.
  intros Hwf He.
  destruct (replaceValue_wf _ _ _ _ _ v Hwf He) as (t1 & H1 & Hwf1 & Hs1).
  assert (entry_at (slots (hashTable t1)) i = Some (mkCE (ce_key e) v (ce_version e))) as He1
    by (rewrite Hs1; by eapply entry_at_updated).
  destruct (upd_version_wf _ _ _ _ _ f Hwf1 He1) as (t2 & H2 & Hwf2 & Hs2). simpl in Hs2.
  assert (entry_at (slots (hashTable t2)) i = Some (mkCE (ce_key e) v (f (ce_version e)))) as He2
    by (rewrite Hs2; by eapply entry_at_updated).
  destruct (accessEntry_wf _ _ _ _ Hwf2) as (t3 & H3 & Hwf3 & Hs3 & _).
  exists t1, t2, t3. split_and!; try done.
  rewrite (contents_slots t2 t3) by done.
  unfold contents. rewrite (entries_cons _ _ _ _ He2). unfold cache_set, kv_cache. f_equal.
  destruct (wf_contents_split _ _ _ _ _ Hwf He) as (_ & _ & ->).
  rewrite Hs2, Hs1, zinsert_zinsert.
  apply entries_insert_ne. destruct Hwf as [Hl _]. pose proof (links_NoDup _ _ Hl) as Hnd.
  rewrite <- Permutation_middle in Hnd. apply NoDup_cons in Hnd. tauto.
Qed.

(** *** Adding an entry *)
Lemma addEntry_contents self (t : Table) l i k v :
  wf t l → free_for (slots (hashTable t)) k i →
  2 * (numEntries t + numDeadEntries t) ≤ zlen (hashTable t) →
  ∃ t', addEntry self i k v t = Ok t' ∧ wf t' (i :: l) ∧
        contents t' (i :: l) = mkCE k v [(self, 1)] :: contents t l.
Proof.
  intros Hwf Hfree Hroom. pose proof Hfree as (Hi & _ & _).
  destruct (addEntry_wf self t l i k v Hwf Hfree Hroom) as (t' & Hok & Hwf' & Hs).
  exists t'. split_and!; try done. unfold contents. rewrite Hs.
  erewrite entries_cons; [|rewrite (entry_at_insert _ _ _ _ _ Hi); by rewrite decide_True].
  f_equal. apply entries_insert_ne. destruct Hwf as [_ Hb].
  rewrite (body_alive _ _ _ _ _ Hb). unfold entry_at. rewrite Hi. by intros [].
Qed.

(** *** [put] *)

(** The state that a successful [put] leaves, apart from table and counters. *)
Definition put_post (q : PutArgs) (servers : list Server) st st' : Prop :=
  server st' = server st ∧ currentView st' = currentView st ∧
  diffs st' = record_diffs (server st) servers (put_key q) (diffs st) ∧
  hashMutex st' = false ∧ currentViewMutex st' = false.

(** The critical section of [put], up to the look at the view. *)
Lemma put_store st l q :
  wf (tbl st) l →
  2 * (numEntries (tbl st) + numDeadEntries (tbl st)) ≤ zlen (hashTable (tbl st)) →
  ∃ st' l',
    (let* pos := position (put_key q) in
     let* r := record_at pos in
     if decide (state r = ALIVE) then
       on_table (replaceValue pos (put_value q)) ;;
       let* self := gets server in
       on_table (λ t, upd t pos (λ r, set_version (bump_version self (version r)) r)) ;;
       count_with inc_numUpdates ;;
       on_table (accessEntry pos)
     else
       count_with inc_numInsertions ;;
       let* self := gets server in
       on_table (addEntry self pos (put_key q) (put_value q))) st = Ret tt st' ∧
    wf (tbl st') l' ∧ kv_frame st st' ∧
    kv_cache st' l' = cache_put (server st) (put_key q) (put_value q) (kv_cache st l).
Proof.
  intros Hwf Hroom.
  destruct (position_spec st l (put_key q) Hwf) as (pos & r & Hpos & Hrec & Hr & Hcase).
  do 2 mstep. unfold cache_put.
  destruct Hcase as [(l1 & l2 & e & -> & Hst & Hk & He & Hev & Hfind)|(Hst & Hfree & Hfind & _)].
  - rewrite decide_True by done. rewrite Hfind.
    destruct (replace_and_access st l1 pos l2 e (put_value q) (bump_version (server st)) Hwf He)
      as (t1 & t2 & t3 & H1 & H2 & H3 & Hwf3 & Hc3).
    exists (with_tbl t3 (with_statistics (inc_numUpdates (statistics st)) (with_tbl t2 (with_tbl t1 st)))),
      (pos :: l1 ++ l2).
    split_and!; try done.
    + erewrite M_bind_ret by (by apply on_table_Ok). mstep.
      erewrite M_bind_ret by (by apply on_table_Ok). mstep. by apply on_table_Ok.
    + transitivity (contents t3 (pos :: l1 ++ l2)); [done|]. rewrite Hc3. by subst e.
  - rewrite decide_False by congruence. rewrite Hfind.
    destruct (addEntry_contents (server st) (tbl st) l pos (put_key q) (put_value q) Hwf Hfree Hroom)
      as (t' & Hok & Hwf' & Hc').
    exists (with_tbl t' (with_statistics (inc_numInsertions (statistics st)) st)), (pos :: l).
    split_and!; try done. do 2 mstep. by apply on_table_Ok.
Qed.

Lemma put_locked_unfold q st :
  put_locked q st =
  (lock_hashMutex ;; normalizeTable ;;
   (let* pos := position (put_key q) in
    let* r := record_at pos in
    if decide (state r = ALIVE) then
      on_table (replaceValue pos (put_value q)) ;;
      let* self := gets server in
      on_table (λ t, upd t pos (λ r, set_version (bump_version self (version r)) r)) ;;
      count_with inc_numUpdates ;;
      on_table (accessEntry pos)
    else
      count_with inc_numInsertions ;;
      let* self := gets server in
      on_table (addEntry self pos (put_key q) (put_value q))) ;;
   lock_currentViewMutex ;;
   let* v := gets currentView in
   let* servers := get_server (ir_hash (put_key q)) (gsr_view v) in
   unlock_currentViewMutex ;;
   let* self := gets server in
   modify (λ s, with_diffs (record_diffs self servers (put_key q) (diffs s)) s) ;;
   unlock_hashMutex ;;
   mret (mkPutReply OK)) st.
Proof.
  unfold put_locked, mbind, M_bind. destruct (lock_hashMutex st) as [[] s| |]; try done.
  destruct (normalizeTable s) as [[] s'| |]; try done.
  destruct (position (put_key q) s') as [p s2| |]; try done.
  destruct (record_at p s2) as [r s3| |]; done.
Qed.

Lemma put_locked_spec st l q :
  wf (tbl st) l → hashMutex st = false → currentViewMutex st = false →
  ∃ st' l', wf (tbl st') l' ∧
    match getServer (ir_hash (put_key q)) (gsr_view (currentView st)) with
    | inr servers =>
        (put_locked q st = Ret (mkPutReply OK) st' ∧ put_post q servers st st' ∧
         kv_cache st' l' = cache_put (server st) (put_key q) (put_value q)
                             (cache_normalize (kv_cache st l))) ∨
        (put_locked q st = Exn std_bad_alloc st' ∧ hashMutex st' = true ∧
         max_records < 2 * zlen (hashTable (tbl st)))
    | inl e =>
        ((put_locked q st = Exn e st' ∧ currentViewMutex st' = true) ∨
         (put_locked q st = Exn std_bad_alloc st' ∧
          max_records < 2 * zlen (hashTable (tbl st)))) ∧ hashMutex st' = true
    end.
Proof.
  intros Hwf Hhm Hvm. pose proof (put_locked_unfold q st) as Heq.
  rewrite (M_bind_ret _ _ _ _ _ (lock_hashMutex_free st Hhm)) in Heq.
  destruct (normalizeTable_spec (with_hashMutex true st) l Hwf)
    as (st1 & l1 & Hwf1 & Hfr1 & Hc1 & [[Hok1 Hroom]|[Hbad Hbig]]).
  - destruct (put_store st1 l1 q Hwf1 Hroom) as (st2 & l2 & Hok2 & Hwf2 & Hfr2 & Hc2).
    assert (kv_frame (with_hashMutex true st) st2) as (Hse & Hcv & Hdi & Hh & Hv) by (by etrans).
    simpl in *. rewrite Hvm in Hv.
    rewrite (M_bind_ret _ _ _ _ _ Hok1), (M_bind_ret _ _ _ _ _ Hok2),
      (M_bind_ret _ _ _ _ _ (lock_currentViewMutex_free st2 Hv)) in Heq.
    destruct (getServer (ir_hash (put_key q)) (gsr_view (currentView st))) as [e|servers] eqn:Hg.
    + exists (with_currentViewMutex true st2), l2. split; [done|]. split; [|done].
      left. split; [|done]. rewrite Heq. mstep. unfold get_server. simpl. by rewrite Hcv, Hg.
    + exists (with_hashMutex false (with_diffs (record_diffs (server st) servers (put_key q) (diffs st))
                (with_currentViewMutex false st2))), l2.
      split; [done|]. left. split_and!; try done.
      * rewrite Heq. mstep. unfold get_server. simpl. rewrite Hcv, Hg.
        unfold mbind, M_bind, gets, modify, mret, M_ret. simpl. rewrite Hse, Hdi. done.
      * unfold kv_cache in *. simpl in *. rewrite Hc2, Hc1. simpl.
        destruct Hfr1 as (-> & _). done.
  - exists st1, l1. split; [done|]. destruct Hfr1 as (_ & _ & _ & Hh & _). simpl in *.
    rewrite (M_bind_exn _ _ _ _ _ Hbad) in Heq. rewrite Heq.
    destruct (getServer _ _); [split; [right; by split|done]|right; by split_and!].
Qed.

(** *** [get] *)
Lemma get_locked_spec st l q :
  wf (tbl st) l → hashMutex st = false →
  ∃ st' l',
    get_locked q st = Ret (match (cache_get (get_key q) (kv_cache st l)).1 with
                           | Some v => mkGetReply OK v
                           | None => mkGetReply NO_KEY ""
                           end) st' ∧
    wf (tbl st') l' ∧ kv_frame st st' ∧
    kv_cache st' l' = (cache_get (get_key q) (kv_cache st l)).2.
Proof.
  intros Hwf Hhm. unfold get_locked.
  erewrite M_bind_ret by (by apply lock_hashMutex_free).
  set (st0 := with_hashMutex true st).
  destruct (position_spec st0 l (get_key q) Hwf) as (pos & r & Hpos & Hrec & Hr & Hcase).
  do 2 mstep. unfold cache_get. change (kv_cache st0 l) with (kv_cache st l) in Hcase.
  destruct Hcase as [(l1 & l2 & e & -> & Hst & Hk & He & -> & Hfind)|(Hst & Hfree & Hfind & _)].
  - rewrite decide_True by done. rewrite Hfind.
    destruct (accessEntry_wf _ _ _ _ Hwf) as (t' & Hok & Hwf' & Hs & _).
    exists (with_hashMutex false (with_tbl t' (with_statistics (inc_numGoodGets (statistics st)) st0))),
      (pos :: l1 ++ l2).
    split_and!; try done.
    + unfold mbind, M_bind, count_with, modify, on_table. simpl. rewrite Hok. done.
    + transitivity (contents t' (pos :: l1 ++ l2)); [done|].
      rewrite (contents_slots (tbl st) t') by done. unfold contents.
      rewrite (entries_cons _ _ _ _ He). simpl. f_equal.
      destruct (wf_contents_split _ _ _ _ _ Hwf He) as (_ & _ & Hrem). by symmetry.
  - rewrite decide_False by congruence. rewrite Hfind.
    exists (with_hashMutex false (with_statistics (inc_numFailedGets (statistics st)) st0)), l.
    by split_and!.
Qed.

(** *** [propagate] *)

Lemma cache_map_at es1 e es2 (f : centry → centry) :
  NoDup (ce_key <$> (es1 ++ e :: es2)) →
  (λ e', if decide (ce_key e' = ce_key e) then f e' else e') <$> (es1 ++ e :: es2) =
  es1 ++ f e :: es2.
Proof.
  rewrite fmap_app, fmap_cons, <- Permutation_middle, <- fmap_app.
  intros [Hni _]%NoDup_cons. rewrite fmap_app, not_elem_of_app in Hni. destruct Hni as [H1 H2].
  assert (∀ es : cache, ce_key e ∉ ce_key <$> es →
    (λ e', if decide (ce_key e' = ce_key e) then f e' else e') <$> es = es) as Hid.
  { intros es. induction es as [|x es IH]; [done|].
    rewrite !fmap_cons, not_elem_of_cons. intros [Hne Hni].
    rewrite decide_False by congruence. by rewrite IH. }
  rewrite fmap_app, fmap_cons, !Hid by done. by rewrite decide_True.
Qed.

Lemma addEntry_version_contents self (t : Table) l i k v ver :
  wf t l → free_for (slots (hashTable t)) k i →
  2 * (numEntries t + numDeadEntries t) ≤ zlen (hashTable t) →
  ∃ t', addEntry_version self i k v ver t = Ok t' ∧ wf t' (i :: l) ∧
        contents t' (i :: l) = mkCE k v (of_VersionEntries ver) :: contents t l.
Proof.
  intros Hwf Hfree Hroom.
  destruct (addEntry_contents self t l i k v Hwf Hfree Hroom) as (t1 & Hok1 & Hwf1 & Hc1).
  assert (entry_at (slots (hashTable t1)) i = Some (mkCE k v [(self, 1)])) as He.
  { destruct (wf_entry _ _ i Hwf1) as (e & r & He & _); [apply elem_of_cons; by left|].
    unfold contents in Hc1. rewrite (entries_cons _ _ _ _ He) in Hc1. congruence. }
  destruct (set_version_wf t1 [] i l _ (of_VersionEntries ver) Hwf1 He) as (t2 & Hok2 & Hwf2 & Hs2).
  exists t2. unfold addEntry_version. rewrite Hok1. split_and!; try done.
  unfold contents. rewrite Hs2. rewrite (contents_update t1 [] i l _ _ _ _ Hwf1 He). simpl.
  f_equal. unfold contents in Hc1. rewrite (entries_cons _ _ _ _ He) in Hc1.
  by injection Hc1.
Qed.

(** [propagate] of a newer version: [replaceValue], [accessEntry] and then the
    version, which leave the entry in front. *)
Lemma replace_access_version st l1 i l2 e v ver :
  wf (tbl st) (l1 ++ i :: l2) → entry_at (slots (hashTable (tbl st))) i = Some e →
  ∃ t1 t2 t3,
    replaceValue i v (tbl st) = Ok t1 ∧ accessEntry i t1 = Ok t2 ∧
    upd t2 i (set_version ver) = Ok t3 ∧ wf t3 (i :: l1 ++ l2) ∧
    contents t3 (i :: l1 ++ l2) = mkCE (ce_key e) v ver :: contents (tbl st) (l1 ++ l2).
Proof.
  intros Hwf He.
  destruct (replaceValue_wf _ _ _ _ _ v Hwf He) as (t1 & H1 & Hwf1 & Hs1).
  destruct (accessEntry_wf _ _ _ _ Hwf1) as (t2 & H2 & Hwf2 & Hs2 & _).
  assert (entry_at (slots (hashTable t2)) i = Some (mkCE (ce_key e) v (ce_version e))) as He2.
  { rewrite Hs2, Hs1. by eapply entry_at_updated. }
  destruct (set_version_wf t2 [] i (l1 ++ l2) _ ver Hwf2 He2) as (t3 & H3 & Hwf3 & Hs3).
  exists t1, t2, t3. split_and!; try done. unfold contents. rewrite Hs3.
  rewrite (contents_update t2 [] i _ _ _ _ _ Hwf2 He2). simpl. f_equal. unfold contents.
  rewrite Hs2, Hs1. apply entries_insert_ne. destruct Hwf as [Hl _].
  pose proof (links_NoDup _ _ Hl) as Hnd.
  rewrite <- Permutation_middle in Hnd. apply NoDup_cons in Hnd. tauto.
Qed.

Lemma propagate_spec st l entry :
  wf (tbl st) l →
  ∃ st' l', wf (tbl st') l' ∧ kv_frame st st' ∧
    ((propagate entry st = Ret (cache_propagate entry (cache_normalize (kv_cache st l))).2 st' ∧
      kv_cache st' l' = (cache_propagate entry (cache_normalize (kv_cache st l))).1) ∨
     (propagate entry st = Exn std_bad_alloc st' ∧ max_records < 2 * zlen (hashTable (tbl st)))).
Proof.
  intros Hwf. unfold propagate.
  destruct (normalizeTable_spec st l Hwf) as (st1 & l1 & Hwf1 & Hfr1 & Hc1 & [[Hok1 Hroom]|[Hbad Hbig]]);
    [|exists st1, l1; split_and!; try done; right; split; [|done]; by erewrite M_bind_exn].
  rewrite <- Hc1. erewrite M_bind_ret by done.
  destruct (position_spec st1 l1 (e_key entry) Hwf1) as (pos & r & Hpos & Hrec & Hr & Hcase).
  rewrite (M_bind_ret _ _ _ _ _ Hpos), (M_bind_ret _ _ _ _ _ Hrec). unfold cache_propagate.
  destruct Hcase as [(la & lb & e & -> & Hst & Hk & He & Hev & Hfind)|(Hst & Hfree & Hfind & _)].
  - rewrite decide_True by done. rewrite Hfind. subst e. cbn [ce_version ce_value].
    set (v := of_VersionEntries (e_version entry)). cbv zeta.
    destruct (wf_contents_split _ _ _ _ _ Hwf1 He) as (Hsplit & _ & Hrem). cbn [ce_key] in Hrem.
    destruct (atMost v (version r)).
    { exists st1, (la ++ pos :: lb). split_and!; try done. by left. }
    destruct (atMost (version r) v).
    { destruct (replace_access_version st1 la pos lb _ (e_value entry) v Hwf1 He)
        as (t1 & t2 & t3 & H1 & H2 & H3 & Hwft3 & Hc3).
      exists (with_tbl t3 (with_tbl t2 (with_tbl t1 st1))), (pos :: la ++ lb).
      split_and!; try done. left. split.
      - do 3 (erewrite M_bind_ret by (by apply on_table_Ok)). done.
      - transitivity (contents t3 (pos :: la ++ lb)); [done|]. rewrite Hc3. simpl. unfold cache_set.
        f_equal. unfold kv_cache. by rewrite Hrem. }
    case_bool_decide as Hval.
    { destruct (set_version_wf _ _ _ _ _ (maximumVersion v (version r)) Hwf1 He)
        as (t1 & H1 & Hwft1 & Hs1).
      exists (with_tbl t1 st1), (la ++ pos :: lb). split_and!; try done. left. split.
      - erewrite M_bind_ret by (by apply on_table_Ok). done.
      - transitivity (contents t1 (la ++ pos :: lb)); [done|]. unfold contents at 1. rewrite Hs1.
        rewrite (contents_update _ _ _ _ _ _ _ _ Hwf1 He). unfold kv_cache. rewrite Hsplit.
        pose proof (wf_keys_NoDup _ _ Hwf1) as Hnd. rewrite Hsplit in Hnd.
        symmetry. exact (cache_map_at _ (mkCE (e_key entry) (value r) (version r)) _
          (λ e', mkCE (e_key entry) (ce_value e') (maximumVersion v (ce_version e'))) Hnd). }
    destruct (removeEntry_wf _ _ _ _ Hwf1) as (t1 & H1 & Hwft1 & Hs1 & _).
    exists (with_tbl t1 st1), (la ++ lb). split_and!; try done. left. split.
    + erewrite M_bind_ret by (by apply on_table_Ok). by rewrite Hk.
    + transitivity (contents t1 (la ++ lb)); [done|]. unfold contents at 1.
      rewrite Hs1, (contents_remove _ _ _ _ Hwf1). unfold kv_cache. by rewrite Hrem.
  - rewrite decide_False by congruence. rewrite Hfind.
    destruct (addEntry_version_contents (server st1) (tbl st1) l1 pos (e_key entry) (e_value entry)
      (e_version entry) Hwf1 Hfree Hroom) as (t' & Hok & Hwf' & Hc').
    exists (with_tbl t' st1), (pos :: l1). split_and!; try done. left. split; [|done].
    mstep. by erewrite M_bind_ret by (by apply on_table_Ok).
Qed.

End Refinement.
