(* ===== verification/KVSystem.v ===== *)
(** * The storage server as a system of threads

    Three threads share the members of [KVStorageHandler]: the server thread
    that executes the remote procedures, the thread of [pingViewService] and the
    thread of [antiEntropyHandler].  They interleave at the granularity of the
    sections guarded by the mutexes.  [kv_step] lets any such section run at any
    time with any arguments; the invariant [kv_wf] and the absence of
    assertion failures, bad indices and endless loops are proved for all
    reachable states. *)

From S2P Require Import Prelude CacheTypes ConsistentHashing Versions HashTable HashTableInv.
From S2P Require Import KVStorage KVSpec.
From stdpp Require Import base gmap list strings sorting.
From Stdlib Require Import ZArith Lia.

Local Open Scope Z_scope.
Set Warnings "-clear-no-such-hyp".

Section System.
Context `{Allocator}.
Implicit Types (st : KVState) (l : list Z).

(** ** The invariant and safety *)

Definition kv_wf st : Prop := ∃ l, wf (tbl st) l.

(** The faults that the code can run into: a mutex that was never released and
    the use of an erased iterator. *)
Definition benign (f : fault) : Prop := f = Deadlock ∨ f = IteratorInvalidated.

Definition ok_outcome {A} (o : outcome cache_exn KVState A) : Prop :=
  match o with
  | Ret _ st => kv_wf st
  | Exn _ st => kv_wf st
  | Stuck f => benign f
  end.

Definition safe {A} (m : K A) : Prop := ∀ st, kv_wf st → ok_outcome (m st).

Lemma safe_bind {A B} (m : K A) (k : A → K B) :
  safe m → (∀ a, safe (k a)) → safe (mbind k m).
Proof.
  intros Hm Hk st Hst. unfold mbind, M_bind. specialize (Hm st Hst).
  destruct (m st); [by apply Hk|done..].
Qed.

Lemma safe_ret {A} (a : A) : safe (mret a).
Proof. by intros st Hst. Qed.
Lemma safe_gets {A} (f : KVState → A) : safe (gets f).
Proof. by intros st Hst. Qed.
Lemma safe_throw {A} e : safe (throw (A := A) e).
Proof. by intros st Hst. Qed.
Lemma safe_modify f : (∀ st, tbl (f st) = tbl st) → safe (modify f).
Proof. intros Hf st Hst. unfold modify, ok_outcome, kv_wf. by rewrite Hf. Qed.
Lemma safe_lock_hashMutex : safe lock_hashMutex.
Proof. intros st Hst. unfold lock_hashMutex. case_match; [by left|done]. Qed.
Lemma safe_lock_currentViewMutex : safe lock_currentViewMutex.
Proof. intros st Hst. unfold lock_currentViewMutex. case_match; [by left|done]. Qed.
Lemma safe_unlock_hashMutex : safe unlock_hashMutex.
Proof. by apply safe_modify. Qed.
Lemma safe_unlock_currentViewMutex : safe unlock_currentViewMutex.
Proof. by apply safe_modify. Qed.
Lemma safe_get_server h v : safe (get_server h v).
Proof. intros st Hst. unfold get_server. by destruct (getServer h v). Qed.
Lemma safe_remote {A} (r : cache_exn + A) : safe (remote r).
Proof. intros st Hst. by destruct r. Qed.
Lemma safe_if {A} (b : bool) (m1 m2 : K A) : safe m1 → safe m2 → safe (if b then m1 else m2).
Proof. by destruct b. Qed.

Lemma safe_normalizeTable : safe normalizeTable.
Proof.
  intros st [l Hwf]. destruct (normalizeTable_spec st l Hwf) as (st' & l' & Hwf' & _ & _ & Hc).
  destruct Hc as [[-> _]|[-> _]]; by exists l'.
Qed.

Lemma safe_propagate e : safe (propagate e).
Proof.
  intros st [l Hwf]. destruct (propagate_spec st l e Hwf) as (st' & l' & Hwf' & _ & Hc).
  destruct Hc as [[-> _]|[-> _]]; by exists l'.
Qed.

End System.

Create HintDb kv.
#[export] Hint Resolve safe_ret safe_gets safe_throw safe_lock_hashMutex safe_lock_currentViewMutex
  safe_unlock_hashMutex safe_unlock_currentViewMutex safe_get_server safe_remote
  safe_normalizeTable safe_propagate : kv.

(** Safety of a program from the safety of its actions. *)
Ltac safe_step :=
  match goal with
  | |- safe (mbind _ _) => apply safe_bind; [|intros ?]
  | |- safe (modify _) => by apply safe_modify
  | |- safe (count_with _) => by apply safe_modify
  | |- safe (if _ then _ else _) => case_match
  | |- safe (match _ with _ => _ end) => case_match
  | |- safe _ => solve [auto with kv]
  end.
Ltac safe_tac := repeat safe_step.

Section Sections.
Context `{Allocator}.
Implicit Types (st : KVState) (l : list Z).

(** *** [position] and [record_at] together *)
Lemma safe_at {A} k (m : Z → HRecord → K A) :
  (∀ st l pos r, wf (tbl st) l → zlookup (hashTable (tbl st)) pos = Some r →
     (∃ l1 l2, l = l1 ++ pos :: l2 ∧ state r = ALIVE) ∨ state r = EMPTY →
     ok_outcome (m pos r st)) →
  safe (let* pos := position k in let* r := record_at pos in m pos r).
Proof.
  intros Hm st [l Hwf].
  destruct (position_spec st l k Hwf) as (pos & r & Hpos & Hrec & Hr & Hc).
  rewrite (M_bind_ret _ _ _ _ _ Hpos), (M_bind_ret _ _ _ _ _ Hrec).
  apply (Hm st l pos r); [done..|]. naive_solver.
Qed.

(** [put] waits for [currentViewMutex] while it holds [hashMutex]. *)
Lemma put_locked_view_taken st l q :
  wf (tbl st) l → hashMutex st = false → currentViewMutex st = true →
  put_locked q st = Stuck Deadlock ∨
  ∃ st' l', put_locked q st = Exn std_bad_alloc st' ∧ wf (tbl st') l'.
Proof.
  intros Hwf Hhm Hvm. rewrite put_locked_unfold.
  erewrite M_bind_ret by (by apply lock_hashMutex_free).
  destruct (normalizeTable_spec (with_hashMutex true st) l Hwf)
    as (st1 & l1 & Hwf1 & Hfr1 & _ & [[Hok Hroom]|[Hbad _]]);
    [|right; exists st1, l1; by rewrite (M_bind_exn _ _ _ _ _ Hbad)].
  rewrite (M_bind_ret _ _ _ _ _ Hok).
  destruct (put_store st1 l1 q Hwf1 Hroom) as (st2 & l2 & Hok2 & Hwf2 & Hfr2 & _).
  rewrite (M_bind_ret _ _ _ _ _ Hok2). unfold mbind, M_bind, lock_currentViewMutex.
  assert (currentViewMutex st2 = true) as ->; [|by left].
  destruct Hfr1 as (_ & _ & _ & _ & Hv1), Hfr2 as (_ & _ & _ & _ & Hv2). simpl in *. congruence.
Qed.

Lemma put_locked_hash_taken st q : hashMutex st = true → put_locked q st = Stuck Deadlock.
Proof. intros Hhm. unfold put_locked, mbind, M_bind, lock_hashMutex. by rewrite Hhm. Qed.

Lemma safe_put_locked q : safe (put_locked q).
Proof.
  intros st [l Hwf]. destruct (hashMutex st) eqn:Hhm.
  { rewrite put_locked_hash_taken by done. by left. }
  destruct (currentViewMutex st) eqn:Hvm.
  - destruct (put_locked_view_taken st l q Hwf Hhm Hvm) as [->|(st' & l' & -> & Hwf')];
      [by left|by exists l'].
  - destruct (put_locked_spec st l q Hwf Hhm Hvm) as (st' & l' & Hwf' & Hc).
    destruct (getServer _ _) as [e|servers].
    + destruct Hc as [[[-> _]|[-> _]] _]; by exists l'.
    + destruct Hc as [[-> _]|[-> _]]; by exists l'.
Qed.

Lemma safe_get_locked q : safe (get_locked q).
Proof.
  intros st [l Hwf]. destruct (hashMutex st) eqn:Hhm.
  { unfold get_locked, mbind, M_bind, lock_hashMutex. rewrite Hhm. by left. }
  destruct (get_locked_spec st l q Hwf Hhm) as (st' & l' & -> & Hwf' & _). by exists l'.
Qed.

Lemma safe_propagate_all es : safe (propagate_all es).
Proof. induction es as [|e es IH]; simpl; safe_tac. Qed.

Lemma safe_collect_entries ks : safe (collect_entries ks).
Proof.
  induction ks as [|k ks IH]; simpl; [safe_tac|].
  apply safe_at. intros st l pos r Hwf Hr Hc.
  apply (safe_bind (collect_entries ks)); [done| |by exists l]. intros es. safe_tac.
Qed.

Lemma safe_invalidate ks : safe (invalidate ks).
Proof.
  induction ks as [|k ks IH]; simpl; [safe_tac|].
  apply safe_at. intros st l pos r Hwf Hr Hc. case_decide as Hst.
  - destruct Hc as [(l1 & l2 & -> & _)|Hst']; [|congruence].
    destruct (removeEntry_wf _ _ _ _ Hwf) as (t' & Hok & Hwf' & _).
    erewrite M_bind_ret by (by apply on_table_Ok). apply IH. by exists (l1 ++ l2).
  - apply IH. by exists l.
Qed.

#[local] Hint Resolve safe_put_locked safe_get_locked safe_propagate_all safe_collect_entries
  safe_invalidate : kv.

Lemma safe_antiEntropy q : safe (antiEntropy q).
Proof. unfold antiEntropy. safe_tac. Qed.

Lemma safe_collect : safe antiEntropyHandler_collect.
Proof. unfold antiEntropyHandler_collect. safe_tac. Qed.

Lemma safe_stuck_iterator {A} : safe (A := A) (stuck IteratorInvalidated).
Proof. intros st _. by right. Qed.
#[local] Hint Resolve safe_stuck_iterator : kv.

Lemma safe_finish dest reply : safe (antiEntropyHandler_finish dest reply).
Proof. unfold antiEntropyHandler_finish. safe_tac. Qed.

(** *** [adjustVersion] *)

Lemma list_keys_spec T p l fuel :
  dseg T p l (-1) → (length l ≤ fuel)%nat →
  list_keys fuel T (hdd (-1) l) = Ok (ce_key <$> entries (slots T) l).
Proof.
  revert p fuel. induction l as [|i l IH]; intros p fuel Hd Hf; [by destruct fuel|].
  destruct fuel as [|fuel]; [simpl in Hf; lia|].
  destruct Hd as [(r & Hr & Hst & _ & Hn) Hd]. pose proof (zlookup_Some_range _ _ _ Hr).
  cbn [list_keys hdd]. destruct (Z.eqb_spec i (-1)); [lia|].
  rewrite (vec_at_Ok _ _ _ Hr). cbn [mbind result_bind]. rewrite Hn.
  rewrite (IH i fuel Hd) by (simpl in Hf; lia). cbn [mbind result_bind].
  assert (entry_at (slots T) i = Some (mkCE (key r) (value r) (version r))) as He.
  { apply entry_at_slot. rewrite zlookup_fmap, Hr. simpl. unfold slot_of. by rewrite Hst. }
  by rewrite (entries_cons _ _ _ _ He).
Qed.

Lemma wf_length (t : Table) l : wf t l → (length l ≤ length (hashTable t))%nat.
Proof.
  intros [Hl _]. apply positions_length; [apply Hl|]. intros i Hi.
  destruct (dseg_alive _ _ _ _ _ (links_dseg _ _ Hl) Hi) as (r & -> & _). by eexists.
Qed.

Lemma wf_list_keys (t : Table) l :
  wf t l → list_keys (length (hashTable t)) (hashTable t) (listHead t) = Ok (ce_key <$> contents t l).
Proof.
  intros Hwf. pose proof Hwf as [Hl _]. rewrite (links_head _ _ Hl).
  eapply list_keys_spec; [apply Hl|by apply wf_length].
Qed.

(** The replica sets after the second loop of [adjustVersion]. *)
Definition adjusted_diffs st l (servers : list Server) : gmap Server (gset string) :=
  foldl (add_replica_diff (server st) (ce_key <$> kv_cache st l)) (diffs st) servers.

Lemma adjustVersion_spec st l1 i l2 e servers :
  wf (tbl st) (l1 ++ i :: l2) → entry_at (slots (hashTable (tbl st))) i = Some e →
  ∃ t', wf t' (l1 ++ i :: l2) ∧
    slots (hashTable t') = zinsert i (SAlive (ce_key e) (ce_value e)
      (restrict_version servers (ce_version e))) (slots (hashTable (tbl st))) ∧
    let d := adjusted_diffs st (l1 ++ i :: l2) servers in
    adjustVersion i servers st =
      if decide (∀ s, s ∈ dom d → s ∈ servers) then Ret tt (with_diffs d (with_tbl t' st))
      else Stuck IteratorInvalidated.
Proof.
  intros Hwf He.
  destruct (upd_version_wf _ _ _ _ _ (restrict_version servers) Hwf He) as (t' & Hok & Hwf' & Hs).
  exists t'. split_and!; try done. cbv zeta. unfold adjustVersion.
  erewrite M_bind_ret by (by apply on_table_Ok). mstep.
  cbn [tbl with_tbl]. rewrite (wf_list_keys _ _ Hwf'). mstep. do 3 mstep.
  assert (ce_key <$> contents t' (l1 ++ i :: l2) = ce_key <$> kv_cache st (l1 ++ i :: l2)) as Hk.
  { unfold contents at 1. rewrite Hs, (contents_update _ _ _ _ _ _ _ _ Hwf He).
    unfold kv_cache. destruct (wf_contents_split _ _ _ _ _ Hwf He) as (-> & _).
    by rewrite !fmap_app. }
  cbn [diffs with_diffs server with_tbl].
  rewrite Hk. fold (adjusted_diffs st (l1 ++ i :: l2) servers). by case_decide.
Qed.

Lemma dseg_next (t : Table) l1 i l2 r :
  links t (l1 ++ i :: l2) → zlookup (hashTable t) i = Some r → next r = hdd (-1) l2.
Proof.
  intros [Hd _ _ _] Hr. apply dseg_app in Hd as [_ [(r' & Hr' & _ & _ & Hn) _]]. congruence.
Qed.

Lemma cleanHash_loop_safe fuel st l1 l2 :
  wf (tbl st) (l1 ++ l2) → (length l2 ≤ fuel)%nat →
  ok_outcome (cleanHash_loop fuel (hdd (-1) l2) st).
Proof.
  revert st l1 l2. induction fuel as [|fuel IH]; intros st l1 l2 Hwf Hf.
  - destruct l2; [|simpl in Hf; lia]. by exists (l1 ++ []).
  - destruct l2 as [|i l2]; [by exists (l1 ++ [])|]. cbn [cleanHash_loop hdd].
    destruct (wf_entry _ _ i Hwf) as (e & r & He & Hr & Hst & ->).
    { apply elem_of_app. right. apply elem_of_cons. by left. }
    pose proof (zlookup_Some_range _ _ _ Hr). destruct (Z.eqb_spec i (-1)); [lia|].
    rewrite (M_bind_ret _ _ _ _ _ (record_at_Ok _ _ _ Hr)). mstep.
    unfold get_server. destruct (getServer _ _) as [ex|ss]; [by exists (l1 ++ i :: l2)|].
    do 2 mstep. case_decide as Hin.
    + destruct (adjustVersion_spec _ _ _ _ _ ss Hwf He) as (t' & Hwf' & Hs & Hadj).
      cbv zeta in Hadj. unfold mbind at 1, M_bind at 1. rewrite Hadj. case_decide; [|by right].
      destruct (wf_entry _ _ i Hwf') as (e' & r' & _ & Hr' & _).
      { apply elem_of_app. right. apply elem_of_cons. by left. }
      erewrite M_bind_ret by (by apply record_at_Ok).
      rewrite (dseg_next t' l1 i l2 r'); [|apply Hwf'|done].
      apply (IH _ (l1 ++ [i])); [by rewrite <- app_assoc|simpl in Hf; lia].
    + destruct (removeEntry_wf _ _ _ _ Hwf) as (t' & Hok & Hwf' & _ & Hri).
      erewrite M_bind_ret; [|erewrite M_bind_ret by (by apply on_table_Ok); done].
      erewrite M_bind_ret by (by apply record_at_Ok). simpl.
      destruct fuel; by exists (l1 ++ l2).
Qed.

Lemma safe_cleanHash : safe cleanHash.
Proof.
  unfold cleanHash. apply safe_bind; [apply safe_lock_hashMutex|intros _].
  intros st [l Hwf]. mstep. unfold mbind, M_bind.
  pose proof (cleanHash_loop_safe (length (hashTable (tbl st))) st [] l Hwf (wf_length _ _ Hwf)) as Hs.
  destruct Hwf as [Hl _]. rewrite (links_head _ _ Hl).
  destruct (cleanHash_loop _ _ _) as [[] st'| |]; done.
Qed.

#[local] Hint Resolve safe_antiEntropy safe_collect safe_finish safe_cleanHash : kv.

Lemma safe_installView v : safe (installView v).
Proof. unfold installView. safe_tac. Qed.
#[local] Hint Resolve safe_installView : kv.

Lemma safe_checkServer ping n k : safe (checkServer ping n k).
Proof. unfold checkServer. safe_tac. Qed.
#[local] Hint Resolve safe_checkServer : kv.

Lemma safe_put ping q : safe (put ping q).
Proof. unfold put. safe_tac. Qed.
Lemma safe_get ping q : safe (get ping q).
Proof. unfold get. safe_tac. Qed.
Lemma safe_getStatistics n : safe (getStatistics n).
Proof. unfold getStatistics. safe_tac. Qed.
Lemma safe_ping_round ping : safe (pingViewService_round ping).
Proof.
  intros st Hst. unfold pingViewService_round, catch.
  assert (safe (let* v := remote ping in installView v)) as Hs by safe_tac.
  specialize (Hs st Hst). by case_match.
Qed.

(** ** Interleavings *)

(** The sections of the three threads. *)
Inductive section :=
| SPut (ping : cache_exn + GetServersReply) (q : PutArgs)
| SPutLocked (q : PutArgs)
| SGet (ping : cache_exn + GetServersReply) (q : GetArgs)
| SGetLocked (q : GetArgs)
| SCheckServer (ping : cache_exn + GetServersReply) (viewNum : Z) (k : string)
| SAntiEntropy (q : AntiEntropyArgs)
| SGetStatistics (sizeof_Record : Z)
| SPing (ping : cache_exn + GetServersReply)
| SInstallView (v : GetServersReply)
| SCleanHash
| SCollect
| SFinish (dest : Server) (reply : AntiEntropyReply).

Definition run (sec : section) : K unit :=
  match sec with
  | SPut ping q => put ping q ;; mret tt
  | SPutLocked q => put_locked q ;; mret tt
  | SGet ping q => get ping q ;; mret tt
  | SGetLocked q => get_locked q ;; mret tt
  | SCheckServer ping n k => checkServer ping n k ;; mret tt
  | SAntiEntropy q => antiEntropy q ;; mret tt
  | SGetStatistics n => getStatistics n ;; mret tt
  | SPing ping => pingViewService_round ping
  | SInstallView v => installView v
  | SCleanHash => cleanHash
  | SCollect => antiEntropyHandler_collect ;; mret tt
  | SFinish dest reply => antiEntropyHandler_finish dest reply
  end.

(** A section ends normally or by an exception. *)
Inductive kv_step : KVState → KVState → Prop :=
| step_ret sec st st' : run sec st = Ret tt st' → kv_step st st'
| step_exn sec st e st' : run sec st = Exn e st' → kv_step st st'.

Inductive kv_reachable (self : Server) : KVState → Prop :=
| reach_init : kv_reachable self (initial_KVState self)
| reach_step st st' : kv_reachable self st → kv_step st st' → kv_reachable self st'.

Lemma safe_run sec : safe (run sec).
Proof.
  destruct sec; simpl; repeat (apply safe_bind; [|intros; apply safe_ret]);
    auto using safe_put, safe_get, safe_getStatistics, safe_ping_round with kv.
Qed.

Lemma kv_wf_initial self : kv_wf (initial_KVState self).
Proof. exists []. apply initialTable_wf. Qed.

Lemma kv_step_wf st st' : kv_wf st → kv_step st st' → kv_wf st'.
Proof.
  intros Hst Hstep. destruct Hstep as [sec ? ? Hr|sec ? e ? Hr];
    pose proof (safe_run sec _ Hst) as Hs; by rewrite Hr in Hs.
Qed.

Lemma kv_reachable_wf self st : kv_reachable self st → kv_wf st.
Proof.
  induction 1 as [|st st' _ IH Hstep]; [apply kv_wf_initial|by eapply kv_step_wf].
Qed.

End Sections.
