(* ===== verification/KVTheorems.v ===== *)
(** * Properties of the storage server

    The theorems of this file speak about the handlers of [KVStorage] and the
    executable abstraction [cache_of], which reads the list of entries off a
    state by following the links. *)

From S2P Require Import Prelude CacheTypes ConsistentHashing Versions HashTable HashTableInv.
From S2P Require Import KVStorage KVSpec KVSystem.
From stdpp Require Import base gmap list strings sorting.
From Stdlib Require Import ZArith Lia.

Local Open Scope Z_scope.
Set Warnings "-clear-no-such-hyp".

(** ** The abstraction function *)

Fixpoint walk (fuel : nat) (T : list HRecord) (pos : Z) : cache :=
  if pos =? (-1) then [] else
  match fuel with
  | O => []
  | S fuel' =>
      match zlookup T pos with
      | Some r => mkCE (key r) (value r) (version r) :: walk fuel' T (next r)
      | None => []
      end
  end.

Definition table_cache (t : Table) : cache := walk (length (hashTable t)) (hashTable t) (listHead t).
Definition cache_of (st : KVState) : cache := table_cache (tbl st).

Section Helpers.
Context `{Allocator}.
Implicit Types (st : KVState) (l : list Z).

Lemma walk_dseg T p l fuel :
  dseg T p l (-1) → (length l ≤ fuel)%nat → walk fuel T (hdd (-1) l) = entries (slots T) l.
Proof.
  revert p fuel. induction l as [|i l IH]; intros p fuel Hd Hf; [by destruct fuel|].
  destruct fuel as [|fuel]; [simpl in Hf; lia|].
  destruct Hd as [(r & Hr & Hst & _ & Hn) Hd]. pose proof (zlookup_Some_range _ _ _ Hr).
  cbn [walk hdd]. destruct (Z.eqb_spec i (-1)); [lia|]. rewrite Hr, Hn.
  rewrite (IH i fuel Hd) by (simpl in Hf; lia). symmetry. apply entries_cons.
  apply entry_at_slot. rewrite zlookup_fmap, Hr. simpl. unfold slot_of. by rewrite Hst.
Qed.

Lemma table_cache_contents (t : Table) l : wf t l → table_cache t = contents t l.
Proof.
  intros Hwf. pose proof Hwf as [Hl _]. unfold table_cache. rewrite (links_head _ _ Hl).
  eapply walk_dseg; [apply Hl|by apply wf_length].
Qed.

Lemma cache_of_kv_cache st l : wf (tbl st) l → cache_of st = kv_cache st l.
Proof. apply table_cache_contents. Qed.

Lemma relock_view st :
  currentViewMutex st = false → with_currentViewMutex false (with_currentViewMutex true st) = st.
Proof. destruct st; simpl. by intros ->. Qed.

(** [checkServer] for a client that has the server's view. *)
Lemma checkServer_current st ping n k :
  currentViewMutex st = false → n = gsr_viewNum (currentView st) →
  checkServer ping n k st =
  match getServer (ir_hash k) (gsr_view (currentView st)) with
  | inl e => Exn e st
  | inr ss => Ret (bool_decide (server st ∈ ss)) st
  end.
Proof.
  intros Hvm ->. unfold checkServer.
  rewrite (M_bind_ret _ _ _ _ _ (lock_currentViewMutex_free st Hvm)). do 2 mstep.
  cbn [currentView with_currentViewMutex]. rewrite relock_view by done.
  rewrite Z.ltb_irrefl. mstep. unfold get_server.
  by destruct (getServer _ _).
Qed.

Lemma checkServer_stale st ping n k :
  currentViewMutex st = false → n < gsr_viewNum (currentView st) →
  checkServer ping n k st = Ret false st.
Proof.
  intros Hvm Hlt. unfold checkServer.
  rewrite (M_bind_ret _ _ _ _ _ (lock_currentViewMutex_free st Hvm)). do 2 mstep.
  cbn [currentView with_currentViewMutex]. rewrite relock_view by done.
  destruct (Z.ltb_spec n (gsr_viewNum (currentView st))); [done|lia].
Qed.

Lemma cache_find_put self k v es :
  ∃ ver, cache_find k (cache_put self k v es) = Some (mkCE k v ver).
Proof.
  unfold cache_put. destruct (cache_find k es) as [e|] eqn:Hf; unfold cache_find, cache_set;
    rewrite filter_cons, decide_True by done; simpl; eauto.
Qed.

Lemma cache_propagate_resolved e1 e es :
  cache_find (e_key e1) es = Some e →
  atMost (of_VersionEntries (e_version e1)) (ce_version e) = false →
  atMost (ce_version e) (of_VersionEntries (e_version e1)) = false →
  e_value e1 = ce_value e →
  cache_find (e_key e1) (cache_propagate e1 es).1 = Some (mkCE (e_key e1) (ce_value e) []).
Proof.
  intros Hfind Ha1 Ha2 Hval. unfold cache_propagate.
  rewrite Hfind, Ha1, Ha2, bool_decide_true by done. cbn [fst].
  revert Hfind. unfold cache_find. clear.
  induction es as [|x es IH]; [done|]. rewrite fmap_cons, !filter_cons.
  destruct (decide (ce_key x = e_key e1)) as [Hx|Hx].
  - intros [= ->]. rewrite decide_True by done. simpl. do 2 f_equal.
    unfold maximumVersion. by rewrite !foldl_updateVersion_nil.
  - by rewrite decide_False by done.
Qed.

(** An entry without version is replaced by whatever arrives. *)
Lemma cache_propagate_versionless e2 es :
  e_version e2 ≠ [] → (∀ e, cache_find (e_key e2) es = Some e → ce_version e = []) →
  cache_find (e_key e2) (cache_propagate e2 es).1 =
    Some (mkCE (e_key e2) (e_value e2) (of_VersionEntries (e_version e2))).
Proof.
  intros Hv Hes. unfold cache_propagate.
  destruct (cache_find (e_key e2) es) as [e|]; [rewrite (Hes e eq_refl)|].
  - assert (atMost (of_VersionEntries (e_version e2)) [] = false) as ->
      by (destruct (e_version e2); [done|apply andb_false_r]).
    change (atMost [] _) with true. cbn [fst]. unfold cache_find, cache_set.
    by rewrite filter_cons, decide_True.
  - unfold cache_find. cbn [fst]. by rewrite filter_cons, decide_True.
Qed.

Lemma cache_find_normalize k es e :
  cache_find k (cache_normalize es) = Some e → cache_find k es = Some e.
Proof.
  destruct (cache_evict_prefix (length es) es) as [es2 Heq].
  unfold cache_normalize. intros Hf. rewrite Heq. unfold cache_find in *.
  rewrite filter_app. by destruct (filter _ (cache_evict _ es)).
Qed.

(** The first entry of the cache sits at the head of the list. *)
Lemma cache_head st l e es :
  wf (tbl st) l → cache_of st = e :: es →
  ∃ i l' r, l = i :: l' ∧ entry_at (slots (hashTable (tbl st))) i = Some e ∧
    zlookup (hashTable (tbl st)) i = Some r ∧ e = mkCE (key r) (value r) (version r) ∧
    contents (tbl st) l' = es.
Proof.
  intros Hwf. rewrite (cache_of_kv_cache _ _ Hwf). unfold kv_cache, contents.
  destruct l as [|i l]; [done|].
  destruct (wf_entry _ _ i Hwf) as (e' & r & He & Hr & _ & ->); [apply elem_of_cons; by left|].
  rewrite (entries_cons _ _ _ _ He). intros [= <- <-]. by exists i, l, r.
Qed.

(** The loop of [cleanHash] starts at the head of the list. *)
Lemma cleanHash_unfold st i l' :
  wf (tbl st) (i :: l') → hashMutex st = false →
  i ≠ -1 ∧ ∃ fuel, cleanHash st =
    (cleanHash_loop (S fuel) i ;; unlock_hashMutex) (with_hashMutex true st).
Proof.
  intros Hwf Hhm. pose proof (wf_length _ _ Hwf) as Hlen. pose proof Hwf as [Hl _].
  split.
  { pose proof (dseg_nonneg _ _ _ _ i (links_dseg _ _ Hl)) as Hi.
    specialize (Hi ltac:(apply elem_of_cons; by left)). lia. }
  exists (pred (length (hashTable (tbl st)))).
  unfold cleanHash. erewrite M_bind_ret by (by apply lock_hashMutex_free). mstep.
  cbn [tbl with_hashMutex]. rewrite (links_head _ _ Hl). cbn [hdd].
  simpl in Hlen. by rewrite Nat.succ_pred by lia.
Qed.

Lemma add_replica_diff_dom self ks d servers s :
  s ∈ dom d → s ∈ dom (foldl (add_replica_diff self ks) d servers).
Proof.
  revert d. induction servers as [|x servers IH]; intros d Hs; [done|].
  simpl. apply IH. unfold add_replica_diff. case_decide; [done|]. set_solver.
Qed.

Lemma on_table_frame f st st' : on_table f st = Ret tt st' → kv_frame st st'.
Proof. unfold on_table. repeat case_match; try done. by intros [= <-]. Qed.

Lemma invalidate_frame ks st st' : invalidate ks st = Ret tt st' → kv_frame st st'.
Proof.
  revert st. induction ks as [|k ks IH]; intros st; simpl; [by intros [= ->]|].
  intros Hi. apply M_bind_inv in Hi as (pos & s1 & Hpos & Hi).
  assert (s1 = st) as -> by (unfold position in Hpos; destruct (getPosition (tbl st) k); by simplify_eq).
  apply M_bind_inv in Hi as (r & s2 & Hrec & Hi).
  assert (s2 = st) as -> by (unfold record_at in Hrec; destruct (vec_at (hashTable (tbl st)) pos); by simplify_eq).
  apply M_bind_inv in Hi as ([] & s3 & Hrem & Hi). etrans; [|by apply IH].
  case_decide; [by eapply on_table_frame|]. by injection Hrem as <-.
Qed.

Lemma record_diffs_mono self servers k d s :
  (∃ X, d !! s = Some X ∧ k ∈ X) → ∃ X, record_diffs self servers k d !! s = Some X ∧ k ∈ X.
Proof.
  unfold record_diffs. revert d. induction servers as [|x servers IH]; intros d Hd; [done|].
  simpl. apply IH. case_decide; [done|]. destruct (decide (x = s)) as [->|Hx].
  - rewrite lookup_insert_eq. eexists. split; [done|]. set_solver.
  - by rewrite lookup_insert_ne.
Qed.

Lemma record_diffs_lookup self servers k d s :
  s ∈ servers → s ≠ self → ∃ X, record_diffs self servers k d !! s = Some X ∧ k ∈ X.
Proof.
  intros Hs Hne. revert d. induction servers as [|x servers IH]; intros d; [by apply elem_of_nil in Hs|].
  destruct (decide (x = s)) as [->|Hx].
  - unfold record_diffs. simpl. rewrite decide_False by done. apply record_diffs_mono.
    rewrite lookup_insert_eq. eexists. split; [done|]. set_solver.
  - apply elem_of_cons in Hs as [->|Hs]; [done|]. unfold record_diffs. simpl. by apply IH.
Qed.

(** The entries sent for a set of keys. *)
Definition wire_entry (e : centry) : Entry :=
  mkEntry (ce_key e) (ce_value e) ((λ p, mkVersionEntry p.1 p.2) <$> ce_version e).

Lemma collect_entries_spec st l ks :
  wf (tbl st) l →
  collect_entries ks st = Ret (omap (λ k, wire_entry <$> cache_find k (kv_cache st l)) ks) st.
Proof.
  intros Hwf. induction ks as [|k ks IH]; [done|]. simpl.
  destruct (position_spec st l k Hwf) as (pos & r & Hpos & Hrec & Hr & Hc).
  rewrite (M_bind_ret _ _ _ _ _ Hpos), (M_bind_ret _ _ _ _ _ Hrec), (M_bind_ret _ _ _ _ _ IH).
  destruct Hc as [(? & ? & e & _ & Hst & Hk & _ & -> & ->)|(Hst & _ & -> & _)]; simpl.
  - rewrite decide_True by done. unfold wire_entry. simpl. by rewrite Hk.
  - by rewrite decide_False by congruence.
Qed.

End Helpers.

(** A machine with room for 2^20 records, for the examples. *)
Definition example_allocator : Allocator.
Proof. refine {| max_records := 2 ^ 20 |}. lia. Defined.

Definition srv1 : Server := mkServer "127.0.0.1" 10001.
Definition srv2 : Server := mkServer "127.0.0.1" 10002.
Definition example_view : GetServersReply :=
  mkGetServersReply (mkView {[ 100 := [srv1; srv2] ]}) 1.
Definition example_state : KVState := with_currentView example_view (initial_KVState srv1).

Section Theorems.
Context `{Allocator}.
Implicit Types (st : KVState).


(** C3: [put] implements the abstract cache.  On a well-formed state, when the
    client has the server's view, the server is in charge of the key and memory
    for the table is available, [put] answers [OK], first evicts least recently
    used entries down to the memory limit, then stores the value at the front
    with an advanced version, schedules the key for the other replicas and
    releases both mutexes. *)
Theorem put_refines_cache st ping q servers :
  kv_wf st → hashMutex st = false → currentViewMutex st = false →
  put_viewNum q = gsr_viewNum (currentView st) →
  getServer (ir_hash (put_key q)) (gsr_view (currentView st)) = inr servers →
  server st ∈ servers →
  2 * zlen (hashTable (tbl st)) ≤ max_records →
  ∃ st', put ping q st = Ret (mkPutReply OK) st' ∧ kv_wf st' ∧ put_post q servers st st' ∧
    cache_of st' =
      cache_put (server st) (put_key q) (put_value q) (cache_normalize (cache_of st)).
Proof.
  intros [l Hwf] Hhm Hvm Hn Hg Hin Hroom.
  destruct (put_locked_spec st l q Hwf Hhm Hvm) as (st' & l' & Hwf' & Hc). rewrite Hg in Hc.
  destruct Hc as [(Hok & Hpost & Hc)|(_ & _ & Hbig)]; [|lia].
  exists st'. split_and!; [|by exists l'|apply Hpost..|].
  - unfold put. erewrite M_bind_ret by (rewrite checkServer_current, Hg; done).
    by rewrite bool_decide_true.
  - by rewrite (cache_of_kv_cache _ _ Hwf), (cache_of_kv_cache _ _ Hwf').
Qed.

(** C4: [get] implements the abstract cache: it returns the value stored for the
    key and moves the entry to the front, or reports that there is none and
    changes nothing. *)
Theorem get_refines_cache st ping q servers :
  kv_wf st → hashMutex st = false → currentViewMutex st = false →
  get_viewNum q = gsr_viewNum (currentView st) →
  getServer (ir_hash (get_key q)) (gsr_view (currentView st)) = inr servers →
  server st ∈ servers →
  ∃ st', get ping q st = Ret (match (cache_get (get_key q) (cache_of st)).1 with
                              | Some v => mkGetReply OK v
                              | None => mkGetReply NO_KEY ""
                              end) st' ∧
    kv_wf st' ∧ kv_frame st st' ∧ cache_of st' = (cache_get (get_key q) (cache_of st)).2.
Proof.
  intros [l Hwf] Hhm Hvm Hn Hg Hin. rewrite (cache_of_kv_cache _ _ Hwf).
  destruct (get_locked_spec st l q Hwf Hhm) as (st' & l' & Hok & Hwf' & Hfr & Hc).
  exists st'. split_and!; [|by exists l'|apply Hfr..|by rewrite (cache_of_kv_cache _ _ Hwf')].
  unfold get. erewrite M_bind_ret by (rewrite checkServer_current, Hg; done).
  by rewrite bool_decide_true.
Qed.

(** Read your writes on one server: a [get] that follows a successful [put] of the
    same key returns the value that was put. *)
Lemma put_then_get st ping ping' k v n servers :
  kv_wf st → hashMutex st = false → currentViewMutex st = false →
  n = gsr_viewNum (currentView st) →
  getServer (ir_hash k) (gsr_view (currentView st)) = inr servers →
  server st ∈ servers →
  2 * zlen (hashTable (tbl st)) ≤ max_records →
  ∃ st1 st2, put ping (mkPutArgs k v n) st = Ret (mkPutReply OK) st1 ∧
             get ping' (mkGetArgs k n) st1 = Ret (mkGetReply OK v) st2 ∧ server st1 = server st.
Proof.
  intros [l Hwf] Hhm Hvm Hn Hg Hin Hroom.
  destruct (put_locked_spec st l (mkPutArgs k v n) Hwf Hhm Hvm) as (st1 & l1 & Hwf1 & Hc).
  simpl in Hc. rewrite Hg in Hc.
  destruct Hc as [(Hok & (Hse & Hcv & Hdi & Hh & Hv) & Hc)|(_ & _ & Hbig)]; [|lia].
  destruct (get_locked_spec st1 l1 (mkGetArgs k n) Hwf1 Hh) as (st2 & l2 & Hok2 & _).
  exists st1, st2. split_and!; [| |done].
  - unfold put. simpl. erewrite M_bind_ret by (rewrite checkServer_current, Hg; done).
    by rewrite bool_decide_true.
  - unfold get. simpl. erewrite M_bind_ret by (rewrite checkServer_current by congruence; rewrite Hcv, Hg; done).
    rewrite Hse, bool_decide_true by done. rewrite Hok2, Hc. simpl. unfold cache_get.
    destruct (cache_find_put (server st) k v (cache_normalize (kv_cache st l))) as [ver ->].
    done.
Qed.

(** A request with an outdated view number is refused without any effect. *)
Theorem stale_view_refused st ping q ping' q' :
  currentViewMutex st = false →
  put_viewNum q < gsr_viewNum (currentView st) →
  get_viewNum q' < gsr_viewNum (currentView st) →
  put ping q st = Ret (mkPutReply WRONG_SERVER) st ∧
  get ping' q' st = Ret (mkGetReply WRONG_SERVER "") st.
Proof.
  intros Hvm Hp Hg. unfold put, get. split.
  - by erewrite M_bind_ret by (by apply checkServer_stale).
  - by erewrite M_bind_ret by (by apply checkServer_stale).
Qed.

(** C8: the search for a key terminates on every well-formed table.  It returns
    a position in range whose record is alive with that key if the cache holds
    the key, and empty otherwise. *)
Theorem getPosition_total st k :
  kv_wf st →
  ∃ pos r, getPosition (tbl st) k = Ok pos ∧ zlookup (hashTable (tbl st)) pos = Some r ∧
    match cache_find k (cache_of st) with
    | Some e => state r = ALIVE ∧ e = mkCE k (value r) (version r)
    | None => state r = EMPTY
    end.
Proof.
  intros [l Hwf]. rewrite (cache_of_kv_cache _ _ Hwf).
  destruct (position_spec st l k Hwf) as (pos & r & Hpos & _ & Hr & Hc).
  exists pos, r. unfold position in Hpos. destruct (getPosition (tbl st) k); [|done].
  split_and!; [congruence|done|].
  destruct Hc as [(? & ? & e & _ & ? & _ & _ & ? & ->)|(? & _ & -> & _)]; done.
Qed.

(** C9: [rehash] to a table that is large enough keeps every entry and the order
    of use, discards the dead slots and leaves a well-formed table of the
    requested size. *)
Theorem rehash_preserves_cache st newSize :
  kv_wf st → 10 ≤ newSize ≤ max_records → 2 * numEntries (tbl st) ≤ newSize + 2 →
  ∃ t', rehash newSize (tbl st) = Ok t' ∧ table_cache t' = cache_of st ∧
        zlen (hashTable t') = newSize ∧ numDeadEntries t' = 0 ∧ kv_wf (with_tbl t' st).
Proof.
  intros [l Hwf] Hsz Hload.
  destruct (rehash_wf _ _ _ Hwf Hsz Hload) as (t' & l' & Hok & Hwf' & Hc & Hz & _ & Hd).
  exists t'. split_and!; try done; [|by exists l'].
  by rewrite (cache_of_kv_cache _ _ Hwf), (table_cache_contents _ _ Hwf').
Qed.



(** [atMost] decides the pointwise order of version vectors with distinct
    servers, so on them it is a partial order. *)
Theorem atMost_pointwise v1 v2 :
  version_wf v1 → version_wf v2 →
  (atMost v1 v2 = true ↔
   ∀ s n, (s, n) ∈ v1 → ∃ n', (s, n') ∈ v2 ∧ n ≤ n') ∧
  (atMost v1 v2 = true → atMost v2 v1 = true → v1 ≡ₚ v2).
Proof.
  intros H1 H2. rewrite !atMost_spec by done. unfold vv_le. split.
  - split; intros Hle s n Hs.
    + destruct (Hle s n) as (n' & Hn' & ?); [by apply vv_lookup|]. exists n'.
      split; [by apply vv_lookup|done].
    + apply vv_lookup in Hs; [|done]. destruct (Hle s n Hs) as (n' & Hn' & ?). exists n'.
      split; [by apply vv_lookup|done].
  - intros H12 H21. pose proof (anti_symm vv_le _ _ H12 H21) as Heq. unfold vv in Heq.
    by apply (list_to_map_inj v1 v2).
Qed.

(** The write counter of a key advances with every [put]: the new version
    covers the old one and is not covered by it. *)
Theorem bump_version_advances self v :
  version_wf v → version_bounded v →
  version_wf (bump_version self v) ∧
  atMost v (bump_version self v) = true ∧ atMost (bump_version self v) v = false.
Proof.
  intros Hv Hb. pose proof (bump_version_wf self v Hv) as Hv'.
  pose proof (bump_version_lookup self v Hv Hb) as Hl.
  split; [done|]. split.
  - apply atMost_spec; [done..|]. rewrite Hl. intros s n Hs. rewrite lookup_insert.
    case_decide as Heq; [|eauto with lia]. subst s. rewrite Hs. simpl. eauto with lia.
  - destruct (atMost _ v) eqn:Ha; [|done]. apply atMost_spec in Ha; [|done..].
    rewrite Hl in Ha. destruct (Ha self (default 0 (vv v !! self) + 1)) as (n & Hn & ?).
    + apply lookup_insert_eq.
    + rewrite Hn in *. simpl in *. lia.
Qed.

(** [maximumVersion] does not compute a maximum: its result is always empty,
    because [updateVersion] only raises components that are already there.  The
    join of two vectors covers both. *)
Theorem maximumVersion_empty v1 v2 :
  maximumVersion v1 v2 = [] ∧
  vv_le (vv v1) (vv_join (vv v1) (vv v2)) ∧ vv_le (vv v2) (vv_join (vv v1) (vv v2)).
Proof.
  unfold maximumVersion. rewrite !foldl_updateVersion_nil. split; [done|apply vv_join_ub].
Qed.

(** After a replica has resolved a conflict by finding equal values, the
    entry has lost its version, and the next entry received for the key
    overwrites it, however old that entry is. *)
Theorem resolved_conflict_forgets st e1 e2 e st1 inv2 st2 :
  kv_wf st →
  cache_find (e_key e1) (cache_normalize (cache_of st)) = Some e →
  atMost (of_VersionEntries (e_version e1)) (ce_version e) = false →
  atMost (ce_version e) (of_VersionEntries (e_version e1)) = false →
  e_value e1 = ce_value e →
  e_key e2 = e_key e1 → e_version e2 ≠ [] →
  propagate e1 st = Ret [] st1 → propagate e2 st1 = Ret inv2 st2 →
  cache_find (e_key e1) (cache_of st1) = Some (mkCE (e_key e1) (ce_value e) []) ∧
  cache_find (e_key e1) (cache_of st2) =
    Some (mkCE (e_key e1) (e_value e2) (of_VersionEntries (e_version e2))).
Proof.
  intros [l Hwf] Hfind Ha1 Ha2 Hval Hk2 Hv2 Hp1 Hp2.
  rewrite (cache_of_kv_cache _ _ Hwf) in Hfind.
  destruct (propagate_spec st l e1 Hwf) as (st1' & l1 & Hwf1 & _ & [[Hok1 Hc1]|[? _]]); [|congruence].
  rewrite Hp1 in Hok1. injection Hok1 as _ <-.
  destruct (propagate_spec st1 l1 e2 Hwf1) as (st2' & l2 & Hwf2 & _ & [[Hok2 Hc2]|[? _]]); [|congruence].
  rewrite Hp2 in Hok2. injection Hok2 as _ <-.
  rewrite (cache_of_kv_cache _ _ Hwf1), (cache_of_kv_cache _ _ Hwf2).
  assert (cache_find (e_key e1) (kv_cache st1 l1) = Some (mkCE (e_key e1) (ce_value e) [])) as Hf1.
  { rewrite Hc1. by apply cache_propagate_resolved. }
  split; [done|]. rewrite Hc2, <- Hk2. apply cache_propagate_versionless; [done|].
  intros e' He'. apply cache_find_normalize in He'. rewrite Hk2, Hf1 in He'.
  by injection He' as <-.
Qed.


(** [cleanHash] stops at the first entry that it purges.  When the most
    recently used entry no longer belongs to the server, exactly this entry is
    removed, whatever the others are, because the traversal continues at the
    links of the record that [removeEntry] has just reset. *)
Theorem cleanHash_stops_at_purge st e es ss :
  kv_wf st → hashMutex st = false → cache_of st = e :: es →
  getServer (ir_hash (ce_key e)) (gsr_view (currentView st)) = inr ss → server st ∉ ss →
  ∃ st', cleanHash st = Ret tt st' ∧ cache_of st' = es ∧
    numPurges (statistics st') = numPurges (statistics st) + 1 ∧ hashMutex st' = false.
Proof.
  intros [l Hwf] Hhm Hc Hg Hni.
  destruct (cache_head _ _ _ _ Hwf Hc) as (i & l' & r & -> & He & Hr & -> & Hes).
  destruct (cleanHash_unfold _ _ _ Hwf Hhm) as [Hi [fuel ->]].
  cbn [cleanHash_loop]. destruct (Z.eqb_spec i (-1)); [done|].
  destruct (removeEntry_wf _ [] _ _ Hwf) as (t' & Hok & Hwf' & Hs & Hri).
  exists (with_hashMutex false (with_statistics (inc_numPurges (statistics st)) (with_tbl t' st))).
  split_and!; try done.
  - rewrite (M_bind_ret _ _ _ tt (with_statistics (inc_numPurges (statistics st))
      (with_tbl t' (with_hashMutex true st)))); [done|].
    rewrite (M_bind_ret _ _ _ _ _ (record_at_Ok i (with_hashMutex true st) r Hr)). mstep.
    unfold get_server. simpl in *. rewrite Hg. do 2 mstep. rewrite decide_False by done.
    erewrite M_bind_ret; [|erewrite M_bind_ret by (by apply on_table_Ok); done].
    erewrite M_bind_ret by (by apply record_at_Ok). simpl. by destruct fuel.
  - transitivity (contents t' l'); [by apply table_cache_contents|].
    unfold contents. rewrite Hs, <- Hes. exact (contents_remove _ [] _ _ Hwf).
Qed.

(** When the view service answers a ping with an empty ring, the ping thread
    swallows the exception that [getServer] throws inside [cleanHash] but never
    releases [hashMutex]: from then on every [put], every [get] and every
    [cleanHash] blocks forever. *)
Theorem ping_empty_ring_deadlocks st v :
  kv_wf st → hashMutex st = false → currentViewMutex st = false → cache_of st ≠ [] →
  hashToServer (gsr_view v) = ∅ → gsr_viewNum v ≠ gsr_viewNum (currentView st) →
  ∃ st', pingViewService_round (inr v) st = Ret tt st' ∧ hashMutex st' = true ∧
    (∀ q, put_locked q st' = Stuck Deadlock) ∧ (∀ q, get_locked q st' = Stuck Deadlock) ∧
    cleanHash st' = Stuck Deadlock.
Proof.
  intros [l Hwf] Hhm Hvm Hc Hring Hnum.
  destruct (cache_of st) as [|e es] eqn:Hce; [done|].
  destruct (cache_head _ _ _ _ Hwf Hce) as (i & l' & r & -> & He & Hr & -> & Hes).
  assert (∀ h, getServer h (gsr_view v) = inl EmptyRingException) as Hg.
  { intros h. pose proof (getServer_complete (hashToServer (gsr_view v)) h) as Hgc.
    destruct v as [[ring] n]. simpl in *.
    destruct (getServer h {| hashToServer := ring |}) as [ex|ss]; [by destruct Hgc as [-> _]|].
    destruct Hgc as (k & _ & Hk). by rewrite Hring, lookup_empty in Hk. }
  set (st1 := with_currentViewMutex false (with_currentView v (with_currentViewMutex true st))).
  exists (with_hashMutex true st1). split_and!; try done.
  unfold pingViewService_round, catch. rewrite (M_bind_ret (remote (inr v)) _ st v st eq_refl).
  unfold installView. rewrite (M_bind_ret _ _ _ _ _ (lock_currentViewMutex_free st Hvm)).
  do 3 mstep. cbn [currentView with_currentViewMutex].
  destruct (Z.eqb_spec (gsr_viewNum (currentView st)) (gsr_viewNum v)); [congruence|].
  fold st1. destruct (cleanHash_unfold st1 i l' Hwf Hhm) as [Hi [fuel ->]].
  cbn [cleanHash_loop]. destruct (Z.eqb_spec i (-1)); [done|].
  unfold mbind, M_bind. rewrite (record_at_Ok i (with_hashMutex true st1) r Hr).
  unfold gets. simpl. unfold get_server. by rewrite Hg.
Qed.

(** [adjustVersion] increments an iterator that it has erased: when the first
    entry stays on the server but the server has updates scheduled for a replica
    that does not hold this entry, [cleanHash] is undefined. *)
Theorem cleanHash_invalid_iterator st e es ss d :
  kv_wf st → hashMutex st = false → cache_of st = e :: es →
  getServer (ir_hash (ce_key e)) (gsr_view (currentView st)) = inr ss → server st ∈ ss →
  d ∈ dom (diffs st) → d ∉ ss →
  cleanHash st = Stuck IteratorInvalidated.
Proof.
  intros [l Hwf] Hhm Hc Hg Hin Hd Hds.
  destruct (cache_head _ _ _ _ Hwf Hc) as (i & l' & r & -> & He & Hr & -> & Hes).
  destruct (cleanHash_unfold _ _ _ Hwf Hhm) as [Hi [fuel ->]].
  cbn [cleanHash_loop]. destruct (Z.eqb_spec i (-1)); [done|].
  destruct (adjustVersion_spec (with_hashMutex true st) [] i l' _ ss Hwf He) as (t' & _ & _ & Ha).
  cbv zeta in Ha. rewrite decide_False in Ha.
  - unfold mbind, M_bind. rewrite (record_at_Ok i (with_hashMutex true st) r Hr).
    unfold gets. simpl in *. unfold get_server. rewrite Hg. simpl.
    rewrite decide_True by done. by rewrite Ha.
  - intros Hall. apply Hds, Hall. by apply add_replica_diff_dom.
Qed.

(** A round of anti-entropy sends, to the first replica with scheduled keys,
    exactly the current entries of those keys that are still stored, in key
    order, with the number of the current view, and changes nothing. *)
Theorem antiEntropy_collects st dest ks :
  kv_wf st → hashMutex st = false → currentViewMutex st = false →
  next_diff (diffs st) = Some (dest, ks) →
  antiEntropyHandler_collect st =
    Ret (Some (dest, mkAntiEntropyArgs
      (omap (λ k, wire_entry <$> cache_find k (cache_of st)) (set_iter ks))
      (gsr_viewNum (currentView st)))) st.
Proof.
  intros [l Hwf] Hhm Hvm Hn. rewrite (cache_of_kv_cache _ _ Hwf).
  unfold antiEntropyHandler_collect. erewrite M_bind_ret by (by apply lock_hashMutex_free). mstep.
  cbn [diffs with_hashMutex]. rewrite Hn.
  erewrite M_bind_ret by (by apply lock_currentViewMutex_free). do 2 mstep.
  erewrite M_bind_ret by (by apply collect_entries_spec). mstep.
  destruct st; simpl in *; by subst.
Qed.

(** An update that arrives while an anti-entropy call is under way is lost
    for the called replica: [put] schedules the key for the replica, and the end
    of the round, which erases everything scheduled for it, forgets the key. *)
Theorem antiEntropy_loses_update st q servers dest r st1 inv st2 :
  getServer (ir_hash (put_key q)) (gsr_view (currentView st)) = inr servers →
  kv_wf st → dest ∈ servers → dest ≠ server st →
  put_locked q st = Ret r st1 →
  antiEntropyHandler_finish dest (mkAntiEntropyReply OK inv) st1 = Ret tt st2 →
  (∃ X, diffs st1 !! dest = Some X ∧ put_key q ∈ X) ∧ diffs st2 !! dest = None.
Proof.
  intros Hg [l Hwf] Hin Hne Hput Hfin.
  destruct (hashMutex st) eqn:Hhm; [by rewrite put_locked_hash_taken in Hput|].
  split.
  - destruct (currentViewMutex st) eqn:Hvm.
    + destruct (put_locked_view_taken st l q Hwf Hhm Hvm) as [?|(? & ? & ? & _)]; congruence.
    + destruct (put_locked_spec st l q Hwf Hhm Hvm) as (st' & l' & _ & Hc). rewrite Hg in Hc.
      destruct Hc as [(Hok & (_ & _ & Hdi & _) & _)|(Hbad & _)]; [|congruence].
      assert (st' = st1) as -> by congruence. rewrite Hdi. by apply record_diffs_lookup.
  - unfold antiEntropyHandler_finish in Hfin.
    apply M_bind_inv in Hfin as ([] & s1 & Hl & Hfin).
    apply M_bind_inv in Hfin as ([] & s2 & Hbody & Hfin). injection Hfin as <-. simpl.
    rewrite decide_True in Hbody by done. unfold gets in Hbody. apply M_bind_inv in Hbody
      as (d & s3 & Hd & Hbody). injection Hd as <- <-.
    destruct (diffs s1 !! dest); [|done]. apply M_bind_inv in Hbody as ([] & s4 & Hm & Hbody).
    injection Hm as <-. apply invalidate_frame in Hbody as (_ & _ & -> & _). simpl.
    apply lookup_delete_eq.
Qed.

End Theorems.

(** ** The theorems at work *)

(** The state after the server has learnt its first view. *)
Definition example_query : PutArgs := mkPutArgs "k" "v" 1.

Lemma example_state_wf : @kv_wf example_allocator example_state.
Proof. exists []. apply initialTable_wf. Qed.

(** The state after [put "k" "v"]. *)
Definition example_stored : KVState :=
  match @put example_allocator (inl TTransportException) example_query example_state with
  | Ret _ st => st
  | _ => example_state
  end.

Lemma example_stored_wf : @kv_wf example_allocator example_stored.
Proof.
  apply (@kv_reachable_wf example_allocator srv1).
  eapply (reach_step srv1 example_state);
    [eapply (reach_step srv1 (initial_KVState srv1)); [apply reach_init|]|].
  - apply (@step_ret example_allocator (SInstallView example_view)). vm_compute. reflexivity.
  - apply (@step_ret example_allocator (SPut (inl TTransportException) example_query)).
    vm_compute. reflexivity.
Qed.


Lemma put_refines_cache_witness :
  ∃ st', @put example_allocator (inl TTransportException) example_query example_state
           = Ret (mkPutReply OK) st' ∧
         cache_of st' = [mkCE "k" "v" [(srv1, 1)]].
Proof.
  destruct (@put_refines_cache example_allocator example_state (inl TTransportException)
    example_query [srv1; srv2]) as (st' & Hok & _ & _ & Hc);
    [apply example_state_wf|vm_compute; done..| |vm_compute; done|].
  - apply elem_of_cons. by left.
  - exists st'. split; [exact Hok|]. rewrite Hc. vm_compute. reflexivity.
Defined.

Lemma get_refines_cache_witness :
  ∃ st', get (inl TTransportException) (mkGetArgs "k" 1) example_stored
           = Ret (mkGetReply OK "v") st'.
Proof.
  destruct (@get_refines_cache example_allocator example_stored (inl TTransportException)
    (mkGetArgs "k" 1) [srv1; srv2]) as (st' & Hok & _);
    [apply example_stored_wf|vm_compute; done..| |].
  - change (server example_stored) with srv1. apply elem_of_cons. by left.
  - exists st'. rewrite Hok. vm_compute. reflexivity.
Defined.

Lemma stale_view_refused_witness :
  @put example_allocator (inl TTransportException) (mkPutArgs "k" "v" 0) example_state
    = Ret (mkPutReply WRONG_SERVER) example_state ∧
  get (inl TTransportException) (mkGetArgs "k" 0) example_state
    = Ret (mkGetReply WRONG_SERVER "") example_state.
Proof. apply (@stale_view_refused example_allocator); vm_compute; done. Defined.

Lemma getPosition_total_witness :
  ∃ pos r, getPosition (tbl example_stored) "k" = Ok pos ∧
    zlookup (hashTable (tbl example_stored)) pos = Some r ∧ state r = ALIVE.
Proof.
  destruct (@getPosition_total example_allocator example_stored "k" example_stored_wf)
    as (pos & r & Hp & Hr & Hc).
  exists pos, r. split; [exact Hp|]. split; [exact Hr|]. vm_compute in Hc. apply Hc.
Defined.

Lemma rehash_preserves_cache_witness :
  ∃ t', @rehash example_allocator 20 (tbl example_stored) = Ok t' ∧
        table_cache t' = [mkCE "k" "v" [(srv1, 1)]].
Proof.
  destruct (@rehash_preserves_cache example_allocator example_stored 20 example_stored_wf)
    as (t' & Hok & Hc & _); [vm_compute; split; congruence|vm_compute; congruence|].
  exists t'. split; [exact Hok|]. rewrite Hc. vm_compute. reflexivity.
Defined.


(** An entry for [k] written by the second server. *)
Definition example_entry (v : string) : Entry := mkEntry "k" v [mkVersionEntry srv2 1].


Lemma atMost_pointwise_witness :
  atMost [(srv1, 1)] [(srv2, 4); (srv1, 2)] = true ↔
  ∀ s n, (s, n) ∈ [(srv1, 1)] → ∃ n', (s, n') ∈ [(srv2, 4); (srv1, 2)] ∧ n ≤ n'.
Proof.
  apply (atMost_pointwise [(srv1, 1)] [(srv2, 4); (srv1, 2)]);
    unfold version_wf; simpl; repeat constructor; set_solver.
Defined.

Lemma bump_version_advances_witness :
  atMost [(srv1, 1)] (bump_version srv1 [(srv1, 1)]) = true ∧
  bump_version srv1 [(srv1, 1)] = [(srv1, 2)].
Proof.
  split; [|vm_compute; reflexivity].
  apply (bump_version_advances srv1 [(srv1, 1)]).
  - unfold version_wf. simpl. repeat constructor. set_solver.
  - repeat constructor.
Defined.

Definition run_state {A} (o : outcome cache_exn KVState A) : KVState :=
  match o with Ret _ st => st | Exn _ st => st | Stuck _ => example_state end.

(** The second server wrote the same value on its own; then a stale value
    arrives and wins. *)
Definition example_resolved : KVState :=
  run_state (@propagate example_allocator (example_entry "v") example_stored).
Definition example_overwritten : KVState :=
  run_state (@propagate example_allocator (example_entry "old") example_resolved).

Lemma resolved_conflict_forgets_witness :
  cache_find "k" (cache_of example_overwritten) = Some (mkCE "k" "old" [(srv2, 1)]).
Proof.
  apply (@resolved_conflict_forgets example_allocator example_stored (example_entry "v")
    (example_entry "old") (mkCE "k" "v" [(srv1, 1)]) example_resolved [] example_overwritten);
    [apply example_stored_wf|vm_compute; first [reflexivity|discriminate|idtac]..].
Defined.

(** Two entries that the server is no longer in charge of. *)
Definition example_two : KVState :=
  run_state (@put example_allocator (inl TTransportException) (mkPutArgs "k2" "w" 1) example_stored).
Definition moved_view : GetServersReply := mkGetServersReply (mkView {[ 100 := [srv2] ]}) 2.
Definition example_moved : KVState := with_currentView moved_view example_two.

Lemma example_two_wf : @kv_wf example_allocator example_two.
Proof.
  eapply (@kv_step_wf example_allocator); [apply example_stored_wf|].
  apply (@step_ret example_allocator (SPut (inl TTransportException) (mkPutArgs "k2" "w" 1))).
  vm_compute. reflexivity.
Qed.

Lemma with_currentView_wf `{Allocator} v st : kv_wf st → kv_wf (with_currentView v st).
Proof. by destruct st. Qed.

Lemma cleanHash_stops_at_purge_witness :
  ∃ st', cleanHash example_moved = Ret tt st' ∧ cache_of st' = [mkCE "k" "v" [(srv1, 1)]] ∧
         getServer (ir_hash "k") (gsr_view (currentView example_moved)) = inr [srv2].
Proof.
  destruct (@cleanHash_stops_at_purge example_allocator example_moved
    (mkCE "k2" "w" [(srv1, 1)]) [mkCE "k" "v" [(srv1, 1)]] [srv2]) as (st' & Hok & Hc & _);
    [apply with_currentView_wf, example_two_wf|vm_compute; done..| |].
  - change (server example_moved) with srv1. intros Hin%list_elem_of_singleton. discriminate Hin.
  - exists st'. split; [exact Hok|]. split; [exact Hc|]. vm_compute. reflexivity.
Defined.

Lemma ping_empty_ring_deadlocks_witness :
  ∃ st', pingViewService_round (inr (mkGetServersReply (mkView ∅) 2)) example_stored = Ret tt st' ∧
         ∀ q, get_locked q st' = Stuck Deadlock.
Proof.
  destruct (@ping_empty_ring_deadlocks example_allocator example_stored
    (mkGetServersReply (mkView ∅) 2)) as (st' & Hok & _ & _ & Hg & _);
    [apply example_stored_wf|vm_compute; congruence..|].
  exists st'. split; [exact Hok|exact Hg].
Defined.

(** The view in which the server has no other replica any more. *)
Definition alone_view : GetServersReply := mkGetServersReply (mkView {[ 100 := [srv1] ]}) 2.

Lemma cleanHash_invalid_iterator_witness :
  cleanHash (with_currentView alone_view example_stored) = Stuck IteratorInvalidated.
Proof.
  apply (@cleanHash_invalid_iterator example_allocator (with_currentView alone_view example_stored)
    (mkCE "k" "v" [(srv1, 1)]) [] [srv1] srv2).
  - apply with_currentView_wf, example_stored_wf.
  - vm_compute; reflexivity.
  - vm_compute; reflexivity.
  - vm_compute; reflexivity.
  - change (server _) with srv1. by apply list_elem_of_singleton.
  - apply elem_of_dom. vm_compute. eexists. reflexivity.
  - intros Hin%list_elem_of_singleton. discriminate Hin.
Defined.

Lemma antiEntropy_collects_witness :
  antiEntropyHandler_collect example_stored =
  Ret (Some (srv2, mkAntiEntropyArgs [mkEntry "k" "v" [mkVersionEntry srv1 1]] 1)) example_stored.
Proof.
  rewrite (@antiEntropy_collects example_allocator example_stored srv2 {[ "k" ]});
    [vm_compute; reflexivity|apply example_stored_wf|vm_compute; reflexivity..].
Defined.

(** While the call with the entry of [k] is under way, [k2] is stored; after the
    call, [k2] is not scheduled for the replica any more. *)
Definition example_finished : KVState :=
  run_state (antiEntropyHandler_finish srv2 (mkAntiEntropyReply OK []) example_two).

Lemma antiEntropy_loses_update_witness :
  (∃ X, diffs example_two !! srv2 = Some X ∧ "k2" ∈ X) ∧ diffs example_finished !! srv2 = None ∧
  cache_find "k2" (cache_of example_finished) = Some (mkCE "k2" "w" [(srv1, 1)]).
Proof.
  destruct (@antiEntropy_loses_update example_allocator example_stored (mkPutArgs "k2" "w" 1)
    [srv1; srv2] srv2 (mkPutReply OK) example_two [] example_finished) as [H1 H2].
  - vm_compute. reflexivity.
  - apply example_stored_wf.
  - apply elem_of_cons. right. by apply list_elem_of_singleton.
  - change (server example_stored) with srv1. discriminate.
  - vm_compute. reflexivity.
  - vm_compute. reflexivity.
  - split; [exact H1|]. split; [exact H2|]. vm_compute. reflexivity.
Defined.
