(* ===== verification/ViewService.v ===== *)
(** * The view service, class [ViewServiceHandler] of [prototype/view.cpp]

    The view service keeps every view there has been: a list of servers and a
    ring, indexed by the view number.  Its methods are programs over [VSState].
    The clock and the random generator are boost code: the current time and the
    next output of the generator are arguments, and [PosixTime] collects the
    operations on times that the code uses. *)

From S2P Require Import Prelude CacheTypes ConsistentHashing.
From stdpp Require Import base gmap list strings sorting.
From Stdlib Require Import ZArith Lia.

Local Open Scope Z_scope.
Set Warnings "-clear-no-such-hyp".

(** [boost::posix_time::ptime]: a default-constructed time, the comparison [<]
    and the subtraction of a number of milliseconds. *)
Class PosixTime := {
  ptime : Type;
  default_ptime : ptime;
  ptime_lt : ptime → ptime → bool;
  minus_milliseconds : ptime → Z → ptime }.

Definition DEAD_TIME : Z := 1000.

(** ** State *)

Section State.
Context `{PosixTime}.

Record VSState := mkVS {
  viewNum : Z;
  views : list (list Server);
  hashToServers : list (gmap Z (list Server));
  pings : gmap Server ptime;
  viewMutex : bool;
  pingsMutex : bool }.

(** The members after the constructor. *)
Definition initial_VSState : VSState := mkVS 0 [[]] [∅] ∅ false false.

Definition with_pings (p : gmap Server ptime) (s : VSState) : VSState :=
  mkVS (viewNum s) (views s) (hashToServers s) p (viewMutex s) (pingsMutex s).
Definition with_viewMutex (b : bool) (s : VSState) : VSState :=
  mkVS (viewNum s) (views s) (hashToServers s) (pings s) b (pingsMutex s).
Definition with_pingsMutex (b : bool) (s : VSState) : VSState :=
  mkVS (viewNum s) (views s) (hashToServers s) (pings s) (viewMutex s) b.

(** [views.push_back(newView); hashToServer.push_back(newHash); viewNum++]. *)
Definition push_view (newView : list Server) (newHash : gmap Z (list Server)) (s : VSState) : VSState :=
  mkVS (viewNum s + 1) (views s ++ [newView]) (hashToServers s ++ [newHash]) (pings s)
    (viewMutex s) (pingsMutex s).

Abbreviation V := (M cache_exn VSState).

Definition lock_viewMutex : V unit := λ s,
  if viewMutex s then Stuck Deadlock else Ret tt (with_viewMutex true s).
Definition unlock_viewMutex : V unit := modify (with_viewMutex false).
Definition lock_pingsMutex : V unit := λ s,
  if pingsMutex s then Stuck Deadlock else Ret tt (with_pingsMutex true s).
Definition unlock_pingsMutex : V unit := modify (with_pingsMutex false).

(** [views[viewNum]] and [hashToServer[viewNum]]. *)
Definition current_view : V (list Server) := λ s,
  match vec_at (views s) (viewNum s) with Ok x => Ret x s | Fail f => Stuck f end.
Definition current_ring : V (gmap Z (list Server)) := λ s,
  match vec_at (hashToServers s) (viewNum s) with Ok x => Ret x s | Fail f => Stuck f end.

(** The three pushes of a new view; [viewNum] is an [int]. *)
Definition new_view (newView : list Server) (newHash : gmap Z (list Server)) : V unit := λ s,
  if viewNum s <? 2 ^ 31 - 1 then Ret tt (push_view newView newHash s) else Stuck SignedOverflow.

(** ** Methods *)

Definition getView : V GetServersReply :=
  lock_viewMutex ;;
  let* r := current_ring in
  let* n := gets viewNum in
  unlock_viewMutex ;;
  mret (mkGetServersReply (mkView r) n).

(** [aggregateStatistics]: the counters are 64-bit. *)
Definition aggregateStatistics (a b : GetStatisticsReply) : GetStatisticsReply :=
  mkStatistics
    (i64 (numInsertions a + numInsertions b)) (i64 (numUpdates a + numUpdates b))
    (i64 (numGoodGets a + numGoodGets b)) (i64 (numFailedGets a + numFailedGets b))
    (i64 (dataSize a + dataSize b)) (i64 (memoryOverhead a + memoryOverhead b))
    (i64 (numEvictions a + numEvictions b)) (i64 (numPurges a + numPurges b)).

(** [getStatistics]; [call s] is the answer of server [s], or the exception of
    the connection or of the call, which is swallowed. *)
Definition getStatistics (call : Server → cache_exn + GetStatisticsReply) : V GetStatisticsReply :=
  lock_viewMutex ;;
  let* view := current_view in
  unlock_viewMutex ;;
  mret (foldl (λ result s,
    match call s with
    | inl _ => result
    | inr local => aggregateStatistics result local
    end) zero_statistics view).

(** The two critical sections of [addServer].  [gen()] delivers an [unsigned],
    the key of the map is an [int]. *)
Definition addServer_ping (now : ptime) (s : Server) : V unit :=
  lock_pingsMutex ;;
  modify (λ st, with_pings (<[s := now]> (pings st)) st) ;;
  unlock_pingsMutex.

Definition addServer_view (gen : Z) (s : Server) : V unit :=
  lock_viewMutex ;;
  let* v := current_view in
  let* r := current_ring in
  new_view (v ++ [s]) (<[i32 gen := [s]]> r) ;;
  unlock_viewMutex.

Definition addServer (now : ptime) (gen : Z) (s : Server) : V unit :=
  addServer_ping now s ;; addServer_view gen s.

(** The first position of the ring, in its order, at which [master] is. *)
Fixpoint find_replica_set (master : Server) (it : list (Z * list Server)) : option Z :=
  match it with
  | [] => None
  | (k, ss) :: it' =>
      if bool_decide (master ∈ ss) then Some k else find_replica_set master it'
  end.

Definition add_to_replica_set (s master : Server) (r : gmap Z (list Server)) : gmap Z (list Server) :=
  match find_replica_set master (map_iter Z.le r) with
  | None => r
  | Some k => alter (λ ss, ss ++ [s]) k r
  end.

Definition addReplica (now : ptime) (s master : Server) : V unit :=
  lock_viewMutex ;;
  let* v := current_view in
  if bool_decide (master ∈ v) then
    let* r := current_ring in
    new_view (v ++ [s]) (add_to_replica_set s master r) ;;
    addServer_ping now s ;;
    unlock_viewMutex
  else unlock_viewMutex.

(** [receivePing]: its critical section, which only refreshes known servers, and
    the whole method. *)
Definition receivePing_mark (now : ptime) (s : Server) : V unit :=
  lock_pingsMutex ;;
  let* p := gets pings in
  (match p !! s with
   | None => mret tt
   | Some _ => modify (with_pings (<[s := now]> p))
   end) ;;
  unlock_pingsMutex.

Definition receivePing (now : ptime) (s : Server) : V GetServersReply :=
  receivePing_mark now s ;; getView.

(** ** The thread [checkPings] *)

(** The output of the ring.  [pings[*it2]] creates an entry with a default time
    when there is none. *)
Definition touch_ping (st : VSState) (s : Server) : VSState :=
  match pings st !! s with
  | None => with_pings (<[s := default_ptime]> (pings st)) st
  | Some _ => st
  end.

Definition checkPings_print : V unit :=
  lock_viewMutex ;;
  unlock_viewMutex ;;
  let* r := current_ring in
  for_each (map_iter Z.le r) (λ p, modify (λ st, foldl touch_ping st p.2)).

(** The search for unresponsive servers.  After [pings.erase(iter->first)] the
    loop increments the iterator of the erased entry. *)
Fixpoint scan_pings (now : ptime) (it : list (Server * ptime)) (toRemove : list Server) :
    V (list Server) :=
  match it with
  | [] => mret toRemove
  | (s, t) :: it' =>
      if ptime_lt t (minus_milliseconds now DEAD_TIME) then
        modify (λ st, with_pings (delete s (pings st)) st) ;;
        stuck IteratorInvalidated
      else scan_pings now it' toRemove
  end.

Definition checkPings_scan (now : ptime) : V (list Server) :=
  lock_pingsMutex ;;
  let* p := gets pings in
  let* toRemove := scan_pings now (map_iter server_le p) [] in
  unlock_pingsMutex ;;
  mret toRemove.

(** The new view without the servers [toRemove].  [newHash[it->first]] comes
    into being with the first server that stays. *)
Definition remove_from_view (toRemove v : list Server) : list Server :=
  filter (λ s, s ∉ toRemove) v.

Definition remove_from_ring (toRemove : list Server) (r : gmap Z (list Server)) :
    gmap Z (list Server) :=
  omap (λ ss, match remove_from_view toRemove ss with [] => None | ss' => Some ss' end) r.

Definition checkPings_remove (toRemove : list Server) : V unit :=
  match toRemove with
  | [] => mret tt
  | _ =>
      lock_viewMutex ;;
      let* v := current_view in
      let* r := current_ring in
      new_view (remove_from_view toRemove v) (remove_from_ring toRemove r) ;;
      unlock_viewMutex
  end.

(** One round of the loop when no other thread runs in between. *)
Definition checkPings_round (now : ptime) : V unit :=
  checkPings_print ;;
  let* toRemove := checkPings_scan now in
  checkPings_remove toRemove.

End State.
