(* ===== verification/ViewTheorems.v ===== *)
(** * Properties of the view service

    The two threads of the view service, the server thread and [checkPings],
    interleave at the granularity of the sections guarded by the mutexes.
    [vs_step] lets any section run at any time; the invariant [vs_wf] holds in
    every reachable state. *)

From S2P Require Import Prelude CacheTypes ConsistentHashing ViewService.
From stdpp Require Import base gmap list strings sorting relations.
From Stdlib Require Import ZArith Lia.

Local Open Scope Z_scope.
Set Warnings "-clear-no-such-hyp".

(** Every position of the ring has a server. *)
Definition ring_ok (r : gmap Z (list Server)) : Prop := ∀ k ss, r !! k = Some ss → ss ≠ [].

(** The servers of the ring are servers of the view. *)
Definition ring_in (r : gmap Z (list Server)) (v : list Server) : Prop :=
  ∀ k ss s, r !! k = Some ss → s ∈ ss → s ∈ v.

Section Invariant.
Context `{PosixTime}.
Implicit Types (st : VSState) (r : gmap Z (list Server)).

Record vs_wf st : Prop := {
  wf_views : zlen (views st) = viewNum st + 1;
  wf_rings : zlen (hashToServers st) = viewNum st + 1;
  wf_num : 0 ≤ viewNum st < 2 ^ 31;
  wf_viewMutex : viewMutex st = false;
  wf_pingsMutex : pingsMutex st = false;
  wf_ring_ok : ∀ r, r ∈ hashToServers st → ring_ok r;
  wf_ring_in : ∀ n v r, views st !! n = Some v → hashToServers st !! n = Some r → ring_in r v }.

(** The history of views only grows. *)
Record extends st st' : Prop := {
  ext_views : views st `prefix_of` views st';
  ext_rings : hashToServers st `prefix_of` hashToServers st';
  ext_num : viewNum st ≤ viewNum st' }.

#[export] Instance extends_preorder : PreOrder extends.
Proof.
  split; [by split|]. intros x y z [Hv Hr Hn] [Hv' Hr' Hn'].
  split; [by etrans..|lia].
Qed.

Lemma vs_wf_initial : vs_wf initial_VSState.
Proof.
  split; try done.
  - intros r ->%list_elem_of_singleton k ss Hk. by rewrite lookup_empty in Hk.
  - intros n v r Hv Hr k ss s Hk. simpl in Hr. apply list_lookup_singleton_Some in Hr as [_ <-].
    by rewrite lookup_empty in Hk.
Qed.

(** The current view and ring. *)
Lemma vs_current st :
  vs_wf st → ∃ v r, zlookup (views st) (viewNum st) = Some v ∧
    zlookup (hashToServers st) (viewNum st) = Some r ∧ ring_ok r ∧ ring_in r v.
Proof.
  intros [Hv Hr Hn _ _ Hok Hin].
  destruct (zlookup_is_Some (views st) (viewNum st)) as [v Hv']; [lia|].
  destruct (zlookup_is_Some (hashToServers st) (viewNum st)) as [r Hr']; [lia|].
  exists v, r. apply zlookup_nat in Hv' as Hv2. apply zlookup_nat in Hr' as Hr2.
  split_and!; [done..| |by eapply Hin]. by eapply Hok, list_elem_of_lookup_2.
Qed.

Lemma current_view_Ok st v : zlookup (views st) (viewNum st) = Some v → current_view st = Ret v st.
Proof. intros Hv. unfold current_view. by rewrite (vec_at_Ok _ _ _ Hv). Qed.
Lemma current_ring_Ok st r : zlookup (hashToServers st) (viewNum st) = Some r → current_ring st = Ret r st.
Proof. intros Hv. unfold current_ring. by rewrite (vec_at_Ok _ _ _ Hv). Qed.
Lemma lock_viewMutex_free st : viewMutex st = false → lock_viewMutex st = Ret tt (with_viewMutex true st).
Proof. intros Hm. unfold lock_viewMutex. by rewrite Hm. Qed.
Lemma lock_pingsMutex_free st : pingsMutex st = false → lock_pingsMutex st = Ret tt (with_pingsMutex true st).
Proof. intros Hm. unfold lock_pingsMutex. by rewrite Hm. Qed.
Lemma relock_viewMutex st : viewMutex st = false → with_viewMutex false (with_viewMutex true st) = st.
Proof. destruct st; simpl. by intros ->. Qed.

Lemma vs_wf_with_pings p st : vs_wf st → vs_wf (with_pings p st).
Proof. by intros []. Qed.
Lemma extends_with_pings p st : extends st (with_pings p st).
Proof. by split. Qed.

Lemma zlookup_snoc {A} (l : list A) x n : zlen l = n → zlookup (l ++ [x]) n = Some x.
Proof.
  intros <-. unfold zlen. rewrite zlookup_of_nat. by apply list_lookup_middle.
Qed.

Lemma push_view_current v r st :
  vs_wf st →
  zlookup (views (push_view v r st)) (viewNum (push_view v r st)) = Some v ∧
  zlookup (hashToServers (push_view v r st)) (viewNum (push_view v r st)) = Some r.
Proof. intros Hwf. split; apply zlookup_snoc; apply Hwf. Qed.

Lemma push_view_wf v r st :
  vs_wf st → viewNum st < 2 ^ 31 - 1 → ring_ok r → ring_in r v → vs_wf (push_view v r st).
Proof.
  intros [Hv Hr Hn Hm Hp Hok Hin] Hlt Hrok Hrin.
  split; simpl; try done; unfold zlen in *; rewrite ?length_app; simpl; try lia.
  - intros r' [Hr'|Hr']%elem_of_app; [by apply Hok|].
    apply list_elem_of_singleton in Hr' as ->. done.
  - intros n v' r' Hv' Hr'.
    apply lookup_app_Some in Hv' as [Hv'|[Hle Hv']]; apply lookup_app_Some in Hr' as [Hr'|[Hle' Hr']].
    + eauto.
    + apply lookup_lt_Some in Hv'. lia.
    + apply lookup_lt_Some in Hr'. lia.
    + apply list_lookup_singleton_Some in Hv' as [_ <-].
      by apply list_lookup_singleton_Some in Hr' as [_ <-].
Qed.

Lemma push_view_extends v r st : extends st (push_view v r st).
Proof. split; simpl; [by apply prefix_app_r..|lia]. Qed.

(** ** The methods on a well-formed state *)

Lemma getView_spec st r :
  vs_wf st → zlookup (hashToServers st) (viewNum st) = Some r →
  getView st = Ret (mkGetServersReply (mkView r) (viewNum st)) st.
Proof.
  intros Hwf Hr. unfold getView.
  rewrite (M_bind_ret _ _ _ _ _ (lock_viewMutex_free st (wf_viewMutex _ Hwf))).
  rewrite (M_bind_ret _ _ _ _ _ (current_ring_Ok (with_viewMutex true st) r Hr)). do 2 mstep.
  rewrite relock_viewMutex by apply Hwf. done.
Qed.

Lemma new_view_bind {A} v r (k : unit → M cache_exn VSState A) st :
  mbind k (new_view v r) st =
  if viewNum st <? 2 ^ 31 - 1 then k tt (push_view v r st) else Stuck SignedOverflow.
Proof. unfold mbind, M_bind, new_view. by destruct (viewNum st <? 2 ^ 31 - 1). Qed.

(** A section that pushes a view computed from the current one. *)
Lemma pushing_section st v r newv newr :
  vs_wf st → zlookup (views st) (viewNum st) = Some v →
  zlookup (hashToServers st) (viewNum st) = Some r →
  (lock_viewMutex ;;
   let* v := current_view in
   let* r := current_ring in
   new_view (newv v) (newr r) ;; unlock_viewMutex) st =
  if viewNum st <? 2 ^ 31 - 1 then Ret tt (push_view (newv v) (newr r) st) else Stuck SignedOverflow.
Proof.
  intros Hwf Hv Hr.
  rewrite (M_bind_ret _ _ _ _ _ (lock_viewMutex_free st (wf_viewMutex _ Hwf))).
  rewrite (M_bind_ret _ _ _ _ _ (current_view_Ok (with_viewMutex true st) v Hv)).
  rewrite (M_bind_ret _ _ _ _ _ (current_ring_Ok (with_viewMutex true st) r Hr)).
  rewrite new_view_bind. cbn [viewNum with_viewMutex]. case_match; [|done].
  apply wf_viewMutex in Hwf. destruct st; simpl in *. by subst.
Qed.

Lemma addServer_view_spec st v r g s :
  vs_wf st → zlookup (views st) (viewNum st) = Some v →
  zlookup (hashToServers st) (viewNum st) = Some r →
  addServer_view g s st =
  if viewNum st <? 2 ^ 31 - 1 then Ret tt (push_view (v ++ [s]) (<[i32 g := [s]]> r) st)
  else Stuck SignedOverflow.
Proof. apply (pushing_section st v r (λ v, v ++ [s]) (λ r, <[i32 g := [s]]> r)). Qed.

Lemma checkPings_remove_spec st v r toRemove :
  vs_wf st → zlookup (views st) (viewNum st) = Some v →
  zlookup (hashToServers st) (viewNum st) = Some r → toRemove ≠ [] →
  checkPings_remove toRemove st =
  if viewNum st <? 2 ^ 31 - 1
  then Ret tt (push_view (remove_from_view toRemove v) (remove_from_ring toRemove r) st)
  else Stuck SignedOverflow.
Proof.
  intros Hwf Hv Hr Hne. destruct toRemove as [|x xs]; [done|].
  apply (pushing_section st v r (remove_from_view (x :: xs)) (remove_from_ring (x :: xs)) Hwf Hv Hr).
Qed.

Lemma addServer_ping_spec st now s :
  pingsMutex st = false → addServer_ping now s st = Ret tt (with_pings (<[s := now]> (pings st)) st).
Proof.
  intros Hm. unfold addServer_ping.
  rewrite (M_bind_ret _ _ _ _ _ (lock_pingsMutex_free st Hm)). mstep.
  destruct st; simpl in *. by subst.
Qed.

Lemma addServer_spec st v r now g s :
  vs_wf st → zlookup (views st) (viewNum st) = Some v →
  zlookup (hashToServers st) (viewNum st) = Some r →
  addServer now g s st =
  if viewNum st <? 2 ^ 31 - 1
  then Ret tt (push_view (v ++ [s]) (<[i32 g := [s]]> r) (with_pings (<[s := now]> (pings st)) st))
  else Stuck SignedOverflow.
Proof.
  intros Hwf Hv Hr. unfold addServer.
  rewrite (M_bind_ret _ _ _ _ _ (addServer_ping_spec st now s (wf_pingsMutex _ Hwf))).
  exact (addServer_view_spec (with_pings _ st) v r g s (vs_wf_with_pings _ _ Hwf) Hv Hr).
Qed.

Lemma addReplica_spec st v r now s master :
  vs_wf st → zlookup (views st) (viewNum st) = Some v →
  zlookup (hashToServers st) (viewNum st) = Some r →
  addReplica now s master st =
  if bool_decide (master ∈ v) then
    if viewNum st <? 2 ^ 31 - 1
    then Ret tt (push_view (v ++ [s]) (add_to_replica_set s master r)
                   (with_pings (<[s := now]> (pings st)) st))
    else Stuck SignedOverflow
  else Ret tt st.
Proof.
  intros Hwf Hv Hr. unfold addReplica.
  rewrite (M_bind_ret _ _ _ _ _ (lock_viewMutex_free st (wf_viewMutex _ Hwf))).
  rewrite (M_bind_ret _ _ _ _ _ (current_view_Ok (with_viewMutex true st) v Hv)).
  case_bool_decide.
  - rewrite (M_bind_ret _ _ _ _ _ (current_ring_Ok (with_viewMutex true st) r Hr)).
    rewrite new_view_bind. cbn [viewNum with_viewMutex]. case_match; [|done].
    erewrite M_bind_ret by (apply addServer_ping_spec, Hwf). unfold unlock_viewMutex, modify. f_equal.
    apply wf_viewMutex in Hwf. destruct st; simpl in *. by subst.
  - unfold unlock_viewMutex, modify. by rewrite relock_viewMutex by apply Hwf.
Qed.

Lemma receivePing_mark_spec st now s :
  pingsMutex st = false →
  receivePing_mark now s st =
  Ret tt (match pings st !! s with
          | None => st
          | Some _ => with_pings (<[s := now]> (pings st)) st
          end).
Proof.
  intros Hm. unfold receivePing_mark.
  rewrite (M_bind_ret _ _ _ _ _ (lock_pingsMutex_free st Hm)). mstep.
  cbn [pings with_pingsMutex].
  destruct (pings st !! s); mstep; destruct st; simpl in *; by subst.
Qed.

Lemma getStatistics_spec st v call :
  vs_wf st → zlookup (views st) (viewNum st) = Some v →
  getStatistics call st = Ret (foldl (λ result s,
    match call s with
    | inl _ => result
    | inr local => aggregateStatistics result local
    end) zero_statistics v) st.
Proof.
  intros Hwf Hv. unfold getStatistics.
  rewrite (M_bind_ret _ _ _ _ _ (lock_viewMutex_free st (wf_viewMutex _ Hwf))).
  rewrite (M_bind_ret _ _ _ _ _ (current_view_Ok (with_viewMutex true st) v Hv)). mstep.
  by rewrite relock_viewMutex by apply Hwf.
Qed.

Lemma scan_pings_spec now it st acc :
  scan_pings now it acc st =
  if existsb (λ p, ptime_lt p.2 (minus_milliseconds now DEAD_TIME)) it
  then Stuck IteratorInvalidated else Ret acc st.
Proof.
  induction it as [|[s t] it IH]; simpl; [done|]. by destruct (ptime_lt _ _).
Qed.

Lemma checkPings_scan_spec st now :
  pingsMutex st = false →
  checkPings_scan now st =
  if existsb (λ p, ptime_lt p.2 (minus_milliseconds now DEAD_TIME)) (map_iter server_le (pings st))
  then Stuck IteratorInvalidated else Ret [] st.
Proof.
  intros Hm. unfold checkPings_scan.
  rewrite (M_bind_ret _ _ _ _ _ (lock_pingsMutex_free st Hm)). mstep.
  rewrite M_bind_eq, scan_pings_spec. cbn [pings with_pingsMutex].
  destruct (existsb _ _); [done|]. destruct st; simpl in *. by subst.
Qed.

End Invariant.

(** ** Rings *)
Section Rings.
Implicit Types (r : gmap Z (list Server)).

Lemma ring_ok_insert r k ss : ring_ok r → ss ≠ [] → ring_ok (<[k := ss]> r).
Proof.
  intros Hr Hss k' ss' Hk. apply lookup_insert_Some in Hk as [[_ <-]|[_ Hk]]; eauto.
Qed.

Lemma ring_in_insert r v k s : ring_in r v → ring_in (<[k := [s]]> r) (v ++ [s]).
Proof.
  intros Hr k' ss' s' Hk Hs'. apply elem_of_app.
  apply lookup_insert_Some in Hk as [[_ <-]|[_ Hk]]; eauto.
Qed.

Lemma add_to_replica_set_lookup s master r k :
  add_to_replica_set s master r !! k =
  (λ ss, if bool_decide (find_replica_set master (map_iter Z.le r) = Some k) then ss ++ [s] else ss)
    <$> r !! k.
Proof.
  unfold add_to_replica_set. destruct (find_replica_set _ _) as [k'|].
  - destruct (decide (k' = k)) as [->|Hne].
    + rewrite lookup_alter_eq. destruct (r !! k); cbn [fmap option_fmap option_map]; [|done]. by rewrite bool_decide_true.
    + rewrite lookup_alter_ne by done. destruct (r !! k); cbn [fmap option_fmap option_map]; [|done].
      by rewrite bool_decide_false by congruence.
  - destruct (r !! k); cbn [fmap option_fmap option_map]; [|done]. by rewrite bool_decide_false.
Qed.

Lemma ring_ok_replica r s master : ring_ok r → ring_ok (add_to_replica_set s master r).
Proof.
  intros Hr k ss. rewrite add_to_replica_set_lookup. intros (ss' & Hk & ->)%fmap_Some.
  specialize (Hr _ _ Hk). case_bool_decide; [|done]. by destruct ss'.
Qed.

Lemma ring_in_replica r v s master : ring_in r v → ring_in (add_to_replica_set s master r) (v ++ [s]).
Proof.
  intros Hr k ss x. rewrite add_to_replica_set_lookup. intros (ss' & Hk & ->)%fmap_Some Hx.
  apply elem_of_app. case_bool_decide; [apply elem_of_app in Hx as [Hx|Hx]|]; eauto.
Qed.

Lemma remove_from_ring_lookup toRemove r k ss :
  remove_from_ring toRemove r !! k = Some ss ↔
  ∃ ss0, r !! k = Some ss0 ∧ ss = remove_from_view toRemove ss0 ∧ ss ≠ [].
Proof.
  unfold remove_from_ring. rewrite lookup_omap. destruct (r !! k) as [ss0|]; simpl.
  - destruct (remove_from_view toRemove ss0) eqn:Heq; split; try done.
    + intros (? & [= <-] & -> & ?). congruence.
    + intros [= <-]. eauto.
    + intros (? & [= <-] & -> & ?). congruence.
  - split; [done|]. by intros (? & ? & _).
Qed.

Lemma ring_ok_remove r toRemove : ring_ok (remove_from_ring toRemove r).
Proof. intros k ss (ss0 & _ & _ & Hne)%remove_from_ring_lookup. done. Qed.

Lemma ring_in_remove r v toRemove :
  ring_in r v → ring_in (remove_from_ring toRemove r) (remove_from_view toRemove v).
Proof.
  intros Hr k ss s (ss0 & Hk & -> & _)%remove_from_ring_lookup [Hs Hin]%list_elem_of_filter.
  apply list_elem_of_filter. eauto.
Qed.

Lemma find_replica_set_Some master it k :
  find_replica_set master it = Some k →
  ∃ l1 ss l2, it = l1 ++ (k, ss) :: l2 ∧ master ∈ ss ∧ ∀ k' ss', (k', ss') ∈ l1 → master ∉ ss'.
Proof.
  induction it as [|[k0 ss0] it IH]; simpl; [done|]. case_bool_decide as Hin.
  - intros [= <-]. exists [], ss0, it. split_and!; [done..|]. by intros ? ? ?%elem_of_nil.
  - intros (l1 & ss & l2 & -> & Hss & Hl1)%IH. exists ((k0, ss0) :: l1), ss, l2.
    split_and!; [done..|]. intros k' ss' [[= -> ->]|?]%elem_of_cons; eauto.
Qed.

Lemma find_replica_set_None master it k ss :
  find_replica_set master it = None → (k, ss) ∈ it → master ∉ ss.
Proof.
  induction it as [|[k0 ss0] it IH]; simpl; [by intros _ ?%elem_of_nil|].
  case_bool_decide; [done|]. intros Hn [[= -> ->]|Hin]%elem_of_cons; auto.
Qed.

Lemma getServer_at_position r k ss : r !! k = Some ss → getServer k (mkView r) = inr ss.
Proof.
  intros Hk. eapply getServer_of_owner; [|done]. split; [by eapply mk_is_Some|]. left.
  split; [lia|]. lia.
Qed.

End Rings.

(** ** Interleavings *)
Section System.
Context `{PosixTime}.
Implicit Types (st : VSState) (r : gmap Z (list Server)).

Lemma with_pings_same st : with_pings (pings st) st = st.
Proof. by destruct st. Qed.

Lemma touch_pings_spec ss st : ∃ p, foldl touch_ping st ss = with_pings p st.
Proof.
  revert st. induction ss as [|s ss IH]; intros st; simpl.
  - exists (pings st). by rewrite with_pings_same.
  - destruct (IH (touch_ping st s)) as [p ->]. exists p. unfold touch_ping.
    by destruct (pings st !! s).
Qed.

Lemma checkPings_print_spec st : vs_wf st → ∃ p, checkPings_print st = Ret tt (with_pings p st).
Proof.
  intros Hwf. destruct (vs_current st Hwf) as (v & r & _ & Hr & _). unfold checkPings_print.
  rewrite (M_bind_ret _ _ _ _ _ (lock_viewMutex_free st (wf_viewMutex _ Hwf))). mstep.
  rewrite relock_viewMutex by apply Hwf.
  rewrite (M_bind_ret _ _ _ _ _ (current_ring_Ok st r Hr)).
  generalize (map_iter Z.le r) as it. intros it. clear Hwf Hr. revert st.
  induction it as [|[k ss] it IH]; intros st; simpl.
  - exists (pings st). by rewrite with_pings_same.
  - mstep. destruct (touch_pings_spec ss st) as [p ->].
    destruct (IH (with_pings p st)) as [p' ->]. by exists p'.
Qed.

Inductive vs_section :=
| VGetView
| VGetStatistics (call : Server → cache_exn + GetStatisticsReply)
| VAddServerPing (now : ptime) (s : Server)
| VAddServerView (gen : Z) (s : Server)
| VAddReplica (now : ptime) (s master : Server)
| VPing (now : ptime) (s : Server)
| VPrint
| VScan (now : ptime)
| VRemove (toRemove : list Server).

Definition vs_run (sec : vs_section) : M cache_exn VSState unit :=
  match sec with
  | VGetView => getView ;; mret tt
  | VGetStatistics call => getStatistics call ;; mret tt
  | VAddServerPing now s => addServer_ping now s
  | VAddServerView g s => addServer_view g s
  | VAddReplica now s master => addReplica now s master
  | VPing now s => receivePing_mark now s
  | VPrint => checkPings_print
  | VScan now => checkPings_scan now ;; mret tt
  | VRemove toRemove => checkPings_remove toRemove
  end.

(** The removal may be given any list of servers: what [checkPings] has collected
    by the time the section runs. *)
Inductive vs_step : VSState → VSState → Prop :=
| vs_step_intro sec st st' : vs_run sec st = Ret tt st' → vs_step st st'.

Abbreviation vs_steps := (rtc vs_step).
Definition vs_reachable st : Prop := vs_steps initial_VSState st.

(** The faults that a section can run into. *)
Definition vs_fault st (sec : vs_section) (f : fault) : Prop :=
  (f = SignedOverflow ∧ viewNum st = 2 ^ 31 - 1) ∨
  (f = IteratorInvalidated ∧ ∃ now s t, sec = VScan now ∧ pings st !! s = Some t ∧
     ptime_lt t (minus_milliseconds now DEAD_TIME) = true).

Lemma pushed_ok sec st v r p :
  vs_wf st → ring_ok r → ring_in r v →
  match (if viewNum st <? 2 ^ 31 - 1 then Ret tt (push_view v r (with_pings p st))
         else Stuck SignedOverflow) : outcome cache_exn VSState unit with
  | Ret _ st' => vs_wf st' ∧ extends st st'
  | Exn _ _ => False
  | Stuck f => vs_fault st sec f
  end.
Proof.
  intros Hwf Hok Hin. destruct (Z.ltb_spec (viewNum st) (2 ^ 31 - 1)).
  - split; [by apply push_view_wf; [apply vs_wf_with_pings|..]|].
    etrans; [apply extends_with_pings|apply push_view_extends].
  - left. pose proof (wf_num _ Hwf). split; [done|lia].
Qed.

Lemma vs_run_ok sec st :
  vs_wf st →
  match vs_run sec st with
  | Ret _ st' => vs_wf st' ∧ extends st st'
  | Exn _ _ => False
  | Stuck f => vs_fault st sec f
  end.
Proof.
  intros Hwf. destruct (vs_current st Hwf) as (v & r & Hv & Hr & Hok & Hin).
  pose proof (λ v r, pushed_ok sec st v r (pings st) Hwf) as Hpush.
  rewrite with_pings_same in Hpush. destruct sec; simpl.
  - erewrite M_bind_ret by (by apply getView_spec). by split.
  - erewrite M_bind_ret by (by apply getStatistics_spec). by split.
  - rewrite addServer_ping_spec by apply Hwf. split; [by apply vs_wf_with_pings|apply extends_with_pings].
  - rewrite (addServer_view_spec st v r) by done.
    apply Hpush; [by apply ring_ok_insert|by apply ring_in_insert].
  - rewrite (addReplica_spec st v r) by done. case_bool_decide; [|by split].
    apply pushed_ok; [done|by apply ring_ok_replica|by apply ring_in_replica].
  - rewrite receivePing_mark_spec by apply Hwf. destruct (pings st !! s); [|by split].
    split; [by apply vs_wf_with_pings|apply extends_with_pings].
  - destruct (checkPings_print_spec st Hwf) as [p ->].
    split; [by apply vs_wf_with_pings|apply extends_with_pings].
  - rewrite M_bind_eq, checkPings_scan_spec by apply Hwf.
    destruct (existsb _ _) eqn:He; [|by split]. right. split; [done|].
    apply existsb_elem in He as ([s t] & Hin'%elem_of_map_iter & Hlt). eauto 8.
  - destruct toRemove as [|x xs]; [by split|].
    rewrite (checkPings_remove_spec st v r) by done.
    apply Hpush; [by apply ring_ok_remove|by apply ring_in_remove].
Qed.

Lemma vs_steps_wf st st' : vs_wf st → vs_steps st st' → vs_wf st' ∧ extends st st'.
Proof.
  intros Hwf Hs. induction Hs as [st|st st1 st' [sec ?? Hrun] _ IH]; [by split|].
  pose proof (vs_run_ok sec _ Hwf) as Hok. rewrite Hrun in Hok. destruct Hok as [Hwf1 Hext].
  destruct (IH Hwf1) as [Hwf' Hext']. split; [done|by etrans].
Qed.

Lemma vs_reachable_wf st : vs_reachable st → vs_wf st.
Proof. intros Hr. eapply vs_steps_wf; [apply vs_wf_initial|done]. Qed.

Lemma getView_inv st reply st' :
  vs_wf st → getView st = Ret reply st' →
  st' = st ∧ ∃ r, zlookup (hashToServers st) (viewNum st) = Some r ∧
    reply = mkGetServersReply (mkView r) (viewNum st) ∧ ring_ok r.
Proof.
  intros Hwf Hg. destruct (vs_current st Hwf) as (v & r & _ & Hr & Hok & _).
  rewrite (getView_spec st r Hwf Hr) in Hg. injection Hg as <- <-. eauto.
Qed.

Lemma push_view_getView v r st :
  vs_wf st → viewNum st < 2 ^ 31 - 1 → ring_ok r → ring_in r v →
  getView (push_view v r st) =
  Ret (mkGetServersReply (mkView r) (viewNum st + 1)) (push_view v r st).
Proof.
  intros Hwf Hlt Hok Hin.
  apply (getView_spec _ _ (push_view_wf v r st Hwf Hlt Hok Hin)), (push_view_current v r st Hwf).
Qed.

End System.

(** ** Theorems *)
Section Theorems.
Context `{PosixTime}.
Implicit Types (st : VSState) (r : gmap Z (list Server)).


(** View numbers identify views: two replies of [getView] with the same
    number carry the same ring, whatever happened in between, and numbers never
    decrease. *)
Theorem view_number_identifies_ring st st' reply1 reply2 s1 s2 :
  vs_reachable st → rtc vs_step st st' →
  getView st = Ret reply1 s1 → getView st' = Ret reply2 s2 →
  gsr_viewNum reply1 ≤ gsr_viewNum reply2 ∧
  (gsr_viewNum reply1 = gsr_viewNum reply2 → reply1 = reply2).
Proof.
  intros Hwf%vs_reachable_wf Hs Hg1 Hg2. destruct (vs_steps_wf _ _ Hwf Hs) as [Hwf' [_ Hr Hn]].
  apply (getView_inv _ _ _ Hwf) in Hg1 as (_ & x & Hx & -> & _).
  apply (getView_inv _ _ _ Hwf') in Hg2 as (_ & y & Hy & -> & _).
  simpl. split; [done|]. intros Heq. rewrite <- Heq in *. do 2 f_equal.
  apply zlookup_nat in Hx, Hy. pose proof (prefix_lookup_Some _ _ _ _ Hx Hr). congruence.
Qed.

(** C14: [addServer] disturbs as little as possible: the new server becomes the
    only replica for the hashes on the arc that ends at its position, and every
    other hash keeps its replicas. *)
Theorem addServer_minimal_disruption st reply now g s st' :
  vs_wf st → getView st = Ret reply st → addServer now g s st = Ret tt st' →
  ∃ reply', getView st' = Ret reply' st' ∧ gsr_viewNum reply' = gsr_viewNum reply + 1 ∧
  (hashToServer (gsr_view reply) = ∅ → ∀ h, getServer h (gsr_view reply') = inr [s]) ∧
  (∀ h k, is_owner (hashToServer (gsr_view reply)) h k →
     getServer h (gsr_view reply') =
     if on_arc h (i32 g) k then inr [s] else getServer h (gsr_view reply)).
Proof.
  intros Hwf Hg Ha. destruct (vs_current st Hwf) as (v & r & Hv & Hr & Hok & Hin).
  rewrite (getView_spec st r Hwf Hr) in Hg. injection Hg as <-.
  rewrite (addServer_spec st v r now g s Hwf Hv Hr) in Ha.
  destruct (Z.ltb_spec (viewNum st) (2 ^ 31 - 1)) as [Hlt|]; [|done]. injection Ha as <-.
  apply (vs_wf_with_pings (<[s := now]> (pings st))) in Hwf as Hwf1.
  eexists. split; [apply push_view_getView; auto using ring_ok_insert, ring_in_insert|].
  simpl. split; [done|]. split.
  - intros -> h. apply getServer_owner_iff. exists (i32 g). rewrite lookup_insert_eq. split; [|done].
    assert (∀ j, is_Some (<[i32 g:=[s]]> (∅ : gmap Z (list Server)) !! j) → j = i32 g) as Hj.
    { intros j. rewrite lookup_insert. case_decide; [done|]. rewrite lookup_empty. by intros []. }
    split; [rewrite lookup_insert_eq; eauto|]. destruct (Z.le_gt_cases h (i32 g)).
    + left. split; [done|]. intros j ->%Hj _. lia.
    + right. split; intros j ->%Hj; lia.
  - intros h k Hk. pose proof (is_owner_insert r h k (i32 g) [s] Hk) as Hk'. case_match eqn:Harc.
    + eapply getServer_of_owner; [done|]. by rewrite lookup_insert_eq.
    + destruct Hk as [[ss Hss] Hk]. rewrite (getServer_of_owner r h k ss); [|by split; eauto|done].
      eapply getServer_of_owner; [done|]. rewrite lookup_insert_ne; [done|].
      intros <-. unfold on_arc in Harc. revert Harc.
      destruct (Z.leb_spec h (i32 g)); simpl; rewrite ?Z.leb_refl, ?orb_true_r; done.
Qed.

(** [addReplica] adds the server to the replicas of exactly one position,
    the first of the ring at which the master is, and leaves every other hash
    alone; when the master is not in the view, nothing at all happens. *)
Theorem addReplica_extends_one_set st reply now s master st' :
  vs_wf st → getView st = Ret reply st → addReplica now s master st = Ret tt st' →
  ∃ reply', getView st' = Ret reply' st' ∧
  ((st' = st ∧ ∀ v, zlookup (views st) (viewNum st) = Some v → master ∉ v) ∨
   (gsr_viewNum reply' = gsr_viewNum reply + 1 ∧
    ∀ h k ss, is_owner (hashToServer (gsr_view reply)) h k →
      hashToServer (gsr_view reply) !! k = Some ss →
      getServer h (gsr_view reply') =
      inr (if bool_decide
              (find_replica_set master (map_iter Z.le (hashToServer (gsr_view reply))) = Some k)
           then ss ++ [s] else ss))).
Proof.
  intros Hwf Hg Ha. destruct (vs_current st Hwf) as (v & r & Hv & Hr & Hok & Hin).
  pose proof Hg as Hg0. rewrite (getView_spec st r Hwf Hr) in Hg. injection Hg as <-.
  rewrite (addReplica_spec st v r now s master Hwf Hv Hr) in Ha.
  case_bool_decide as Hm.
  - destruct (Z.ltb_spec (viewNum st) (2 ^ 31 - 1)) as [Hlt|]; [|done]. injection Ha as <-.
    apply (vs_wf_with_pings (<[s := now]> (pings st))) in Hwf as Hwf1.
    eexists. split; [apply push_view_getView; auto using ring_ok_replica, ring_in_replica|].
    right. simpl. split; [done|]. intros h k ss Hk Hss.
    eapply getServer_of_owner; [|by rewrite add_to_replica_set_lookup, Hss].
    eapply is_owner_sub; [done| |].
    + rewrite add_to_replica_set_lookup, Hss. by eapply mk_is_Some.
    + intros j [ss' Hj]. rewrite add_to_replica_set_lookup in Hj.
      apply fmap_Some in Hj as (? & ? & _). eauto.
  - injection Ha as <-. eexists. split; [exact Hg0|]. left. split; [done|].
    intros v' Hv'. congruence.
Qed.

(** A view from which [checkPings] has removed servers no longer names them
    for any hash, and every replica set that keeps a member keeps its hashes and
    loses exactly the removed servers. *)
Theorem checkPings_remove_purges st reply toRemove st' :
  vs_wf st → toRemove ≠ [] → getView st = Ret reply st → checkPings_remove toRemove st = Ret tt st' →
  ∃ reply', getView st' = Ret reply' st' ∧ gsr_viewNum reply' = gsr_viewNum reply + 1 ∧
  (∀ h ss, getServer h (gsr_view reply') = inr ss → ss ≠ [] ∧ ∀ s, s ∈ ss → s ∉ toRemove) ∧
  (∀ h ss, getServer h (gsr_view reply) = inr ss →
     remove_from_view toRemove ss ≠ [] →
     getServer h (gsr_view reply') = inr (remove_from_view toRemove ss)).
Proof.
  intros Hwf Hne Hg Ha. destruct (vs_current st Hwf) as (v & r & Hv & Hr & Hok & Hin).
  rewrite (getView_spec st r Hwf Hr) in Hg. injection Hg as <-.
  rewrite (checkPings_remove_spec st v r toRemove Hwf Hv Hr Hne) in Ha.
  destruct (Z.ltb_spec (viewNum st) (2 ^ 31 - 1)) as [Hlt|]; [|done]. injection Ha as <-.
  eexists. split; [apply push_view_getView; auto using ring_ok_remove, ring_in_remove|].
  simpl. split_and!; [done| |].
  - intros h ss (k & _ & Hk)%getServer_owner_iff.
    apply remove_from_ring_lookup in Hk as (ss0 & _ & -> & Hss). split; [done|].
    by intros s [Hs _]%list_elem_of_filter.
  - intros h ss (k & Hk & Hss)%getServer_owner_iff Hkeep.
    assert (remove_from_ring toRemove r !! k = Some (remove_from_view toRemove ss)) as Hk'
      by (apply remove_from_ring_lookup; eauto).
    eapply getServer_of_owner; [|done]. eapply is_owner_sub; [done|by eapply mk_is_Some|].
    intros j [ss' (ss0 & Hj & _)%remove_from_ring_lookup]. eauto.
Qed.

(** As soon as one server has been silent for longer than [DEAD_TIME], the
    search of [checkPings] increments an iterator that it has just erased; when
    none has, the search changes nothing. *)
Theorem checkPings_dead_server_undefined st now :
  vs_wf st →
  ((∃ s t, pings st !! s = Some t ∧ ptime_lt t (minus_milliseconds now DEAD_TIME) = true) →
   checkPings_scan now st = Stuck IteratorInvalidated) ∧
  ((∀ s t, pings st !! s = Some t → ptime_lt t (minus_milliseconds now DEAD_TIME) = false) →
   checkPings_scan now st = Ret [] st).
Proof.
  intros Hwf. rewrite checkPings_scan_spec by apply Hwf. split.
  - intros (s & t & Hs & Ht). rewrite (proj2 (existsb_elem _ _)); [done|].
    exists (s, t). by rewrite elem_of_map_iter.
  - intros Hall. destruct (existsb _ _) eqn:He; [|done].
    apply existsb_elem in He as ([s t] & Hin%elem_of_map_iter & Ht). simpl in Ht.
    by rewrite (Hall s t Hin) in Ht.
Qed.

(** When the random position of a new server is taken, the servers at that
    position are in charge of no hash afterwards, unless they are replicas at
    another position too, although they are still members of the view. *)
Theorem addServer_collision_orphans st v r now g s old s0 st' :
  vs_wf st → zlookup (views st) (viewNum st) = Some v →
  zlookup (hashToServers st) (viewNum st) = Some r →
  r !! i32 g = Some old → s0 ∈ old → s0 ≠ s →
  (∀ k ss, r !! k = Some ss → s0 ∈ ss → k = i32 g) →
  addServer now g s st = Ret tt st' →
  ∃ v' reply', zlookup (views st') (viewNum st') = Some v' ∧ s0 ∈ v' ∧
    getView st' = Ret reply' st' ∧
    ∀ h ss, getServer h (gsr_view reply') = inr ss → s0 ∉ ss.
Proof.
  intros Hwf Hv Hr Hold Hs0 Hne Honly Ha.
  destruct (vs_current st Hwf) as (v2 & r2 & Hv2 & Hr2 & Hok & Hin).
  assert (v2 = v) as -> by congruence. assert (r2 = r) as -> by congruence.
  rewrite (addServer_spec st v r now g s Hwf Hv Hr) in Ha.
  destruct (Z.ltb_spec (viewNum st) (2 ^ 31 - 1)) as [Hlt|]; [|done]. injection Ha as <-.
  apply (vs_wf_with_pings (<[s := now]> (pings st))) in Hwf as Hwf1.
  eexists _, _. split; [apply (push_view_current (v ++ [s]) _ _ Hwf1)|].
  split; [apply elem_of_app; left; by eapply Hin|].
  split; [apply push_view_getView; auto using ring_ok_insert, ring_in_insert|].
  intros h ss (k & _ & Hk)%getServer_owner_iff Hin'.
  apply lookup_insert_Some in Hk as [[_ <-]|[Hk1 Hk2]].
  - by apply list_elem_of_singleton in Hin'.
  - by apply Hk1, eq_sym, (Honly _ _ Hk2).
Qed.

(** The eight counters of the statistics. *)
Definition counters : list (GetStatisticsReply → Z) :=
  [numInsertions; numUpdates; numGoodGets; numFailedGets;
   dataSize; memoryOverhead; numEvictions; numPurges].

(** The statistics of the servers that answer. *)
Definition answers (call : Server → cache_exn + GetStatisticsReply) (v : list Server) :
    list GetStatisticsReply :=
  omap (λ s, match call s with inl _ => None | inr local => Some local end) v.

Lemma counter_aggregate f a b :
  f ∈ counters → f (aggregateStatistics a b) = i64 (f a + f b).
Proof. unfold counters. set_unfold. intros Hf. by repeat destruct Hf as [->|Hf]. Qed.

Lemma statistics_fold f call v acc :
  f ∈ counters →
  i64 (f (foldl (λ result s, match call s with
                 | inl _ => result
                 | inr local => aggregateStatistics result local end) acc v)) =
  i64 (f acc + foldr Z.add 0 (f <$> answers call v)).
Proof.
  intros Hf. revert acc. induction v as [|s v IH]; intros acc.
  - simpl. by rewrite Z.add_0_r.
  - cbn [foldl]. rewrite IH. unfold answers. cbn [omap list_omap].
    destruct (call s) as [e|local]; [done|]. simpl. rewrite (counter_aggregate f) by done.
    unfold i64. rewrite (wraps_wraps_add 64) by done. by rewrite <- Z.add_assoc.
Qed.

(** [getStatistics] of the view service delivers, for each of the eight
    counters, the sum over the servers of the current view that answer, as a
    64-bit number; servers that do not answer are left out. *)
Theorem getStatistics_sums st v call :
  vs_wf st → zlookup (views st) (viewNum st) = Some v →
  ∃ res, getStatistics call st = Ret res st ∧
    ∀ f, f ∈ counters → i64 (f res) = i64 (foldr Z.add 0 (f <$> answers call v)).
Proof.
  intros Hwf Hv. eexists. split; [by apply getStatistics_spec|]. intros f Hf.
  rewrite statistics_fold by done. f_equal.
  unfold counters in Hf. set_unfold in Hf. by repeat destruct Hf as [->|Hf].
Qed.

(** A ping of a known server refreshes its time and a ping of an unknown one
    registers nothing; in both cases the answer is the current view. *)
Theorem receivePing_spec st now s :
  vs_wf st →
  ∃ st' reply, receivePing now s st = Ret reply st' ∧ getView st = Ret reply st ∧ vs_wf st' ∧
    views st' = views st ∧ hashToServers st' = hashToServers st ∧
    pings st' = alter (λ _, now) s (pings st).
Proof.
  intros Hwf. destruct (vs_current st Hwf) as (v & r & Hv & Hr & _).
  unfold receivePing.
  rewrite (M_bind_ret _ _ _ _ _ (receivePing_mark_spec st now s (wf_pingsMutex _ Hwf))).
  rewrite (getView_spec st r Hwf Hr).
  destruct (pings st !! s) as [t|] eqn:Hs; eexists _, _.
  - split; [by apply (getView_spec (with_pings _ st)); [apply vs_wf_with_pings|]|].
    split_and!; try done; [by apply vs_wf_with_pings|]. simpl. apply map_eq. intros s'.
    destruct (decide (s = s')) as [->|].
    + rewrite lookup_insert_eq, lookup_alter_eq. by rewrite Hs.
    + by rewrite lookup_insert_ne, lookup_alter_ne.
  - split; [by apply (getView_spec st)|]. split_and!; try done.
    apply map_eq. intros s'. destruct (decide (s = s')) as [->|].
    + by rewrite lookup_alter_eq, Hs.
    + by rewrite lookup_alter_ne.
Qed.

End Theorems.

(** ** The theorems at work *)

(** Times in microseconds; the default time is the special value that compares
    with no other. *)
#[local] Instance example_time : PosixTime := {
  ptime := option Z;
  default_ptime := None;
  ptime_lt a b := match a, b with Some x, Some y => x <? y | _, _ => false end;
  minus_milliseconds t n := (λ x, x - 1000 * n) <$> t }.

Definition vs_run_state {A} (o : outcome cache_exn VSState A) : VSState :=
  match o with Ret _ st => st | Exn _ st => st | Stuck _ => initial_VSState end.

Definition ex_s1 : Server := mkServer "a" 1.
Definition ex_s2 : Server := mkServer "b" 2.
Definition ex_s3 : Server := mkServer "c" 3.

(** One server at position 100, then a second one at 200. *)
Definition ex_one : VSState := vs_run_state (addServer (Some 0) 100 ex_s1 initial_VSState).
Definition ex_two : VSState := vs_run_state (addServer (Some 0) 200 ex_s2 ex_one).

Lemma ex_reachable now g s st st' :
  vs_reachable st → addServer now g s st = Ret tt st' → rtc vs_step st st' ∧ vs_reachable st'.
Proof.
  intros Hr Ha. assert (rtc vs_step st st') as Hs.
  { unfold addServer in Ha. apply M_bind_inv in Ha as ([] & st1 & H1 & H2).
    eapply rtc_l; [by apply (vs_step_intro (VAddServerPing now s))|].
    eapply rtc_l; [by apply (vs_step_intro (VAddServerView g s))|done]. }
  split; [done|]. unfold vs_reachable in *. by etrans.
Qed.

Lemma ex_one_reachable : vs_reachable ex_one.
Proof. apply (ex_reachable (Some 0) 100 ex_s1 initial_VSState); [constructor|vm_compute; reflexivity]. Qed.
Lemma ex_two_reachable : rtc vs_step ex_one ex_two ∧ vs_reachable ex_two.
Proof. apply (ex_reachable (Some 0) 200 ex_s2 ex_one); [apply ex_one_reachable|vm_compute; reflexivity]. Qed.

Definition vs_view {A} (o : outcome cache_exn VSState A) (d : A) : A :=
  match o with Ret a _ => a | _ => d end.


Lemma view_number_identifies_ring_witness :
  ∃ reply1 reply2, getView ex_one = Ret reply1 ex_one ∧ getView ex_two = Ret reply2 ex_two ∧
    gsr_viewNum reply1 ≤ gsr_viewNum reply2 ∧ gsr_viewNum reply2 = 2.
Proof.
  eexists _, _. split; [vm_compute; reflexivity|]. split; [vm_compute; reflexivity|].
  split; [|reflexivity].
  eapply (view_number_identifies_ring ex_one ex_two);
    [apply ex_one_reachable|apply ex_two_reachable|vm_compute; reflexivity..].
Defined.

Definition ex_view_one : GetServersReply := vs_view (getView ex_one) default_GetServersReply.

Lemma ex_ring_one j : is_Some (hashToServer (gsr_view ex_view_one) !! j) → j = 100.
Proof.
  intros [ss Hj]. apply elem_of_map_to_list in Hj. vm_compute in Hj.
  by apply list_elem_of_singleton in Hj as [= -> _].
Qed.

Lemma addServer_minimal_disruption_witness :
  ∃ reply', getView ex_two = Ret reply' ex_two ∧
    getServer 150 (gsr_view reply') = inr [ex_s2] ∧ getServer 50 (gsr_view reply') = inr [ex_s1].
Proof.
  destruct (addServer_minimal_disruption ex_one ex_view_one (Some 0) 200 ex_s2 ex_two) as (reply' & Hg & _ & _ & Hown).
  - apply vs_reachable_wf, ex_one_reachable.
  - vm_compute. reflexivity.
  - vm_compute. reflexivity.
  - exists reply'. split; [exact Hg|]. split.
    + rewrite (Hown 150 100); [vm_compute; reflexivity|].
      split; [vm_compute; eauto|]. right. split; intros j ->%ex_ring_one; lia.
    + rewrite (Hown 50 100); [vm_compute; reflexivity|].
      split; [vm_compute; eauto|]. left. split; [lia|]. intros j ->%ex_ring_one; lia.
Defined.

(** The third server as a replica of the second one. *)
Definition ex_three : VSState := vs_run_state (addReplica (Some 0) ex_s3 ex_s2 ex_two).

Lemma ex_two_wf : vs_wf ex_two.
Proof. apply vs_reachable_wf, ex_two_reachable. Qed.

Lemma ex_three_wf : vs_wf ex_three.
Proof.
  apply vs_reachable_wf. unfold vs_reachable. etrans; [apply ex_two_reachable|].
  apply rtc_once, (@vs_step_intro example_time (@VAddReplica example_time (Some 0) ex_s3 ex_s2)).
  vm_compute. reflexivity.
Qed.

Lemma addReplica_extends_one_set_witness :
  ∃ reply', getView ex_three = Ret reply' ex_three ∧
    getServer 150 (gsr_view reply') = inr [ex_s2; ex_s3].
Proof.
  destruct (addReplica_extends_one_set ex_two (vs_view (getView ex_two) default_GetServersReply)
    (Some 0) ex_s3 ex_s2 ex_three) as (reply' & Hg & _).
  - apply ex_two_wf.
  - vm_compute. reflexivity.
  - vm_compute. reflexivity.
  - exists reply'. split; [exact Hg|]. vm_compute in Hg. injection Hg as <-. vm_compute. reflexivity.
Defined.

Lemma checkPings_remove_purges_witness :
  ∃ reply', getView (vs_run_state (checkPings_remove [ex_s2] ex_three)) =
      Ret reply' (vs_run_state (checkPings_remove [ex_s2] ex_three)) ∧
    getServer 150 (gsr_view reply') = inr [ex_s3].
Proof.
  destruct (checkPings_remove_purges ex_three (vs_view (getView ex_three) default_GetServersReply)
    [ex_s2] (vs_run_state (checkPings_remove [ex_s2] ex_three))) as (reply' & Hg & _ & _ & Hkeep).
  - apply ex_three_wf.
  - discriminate.
  - vm_compute. reflexivity.
  - vm_compute. reflexivity.
  - exists reply'. split; [exact Hg|].
    rewrite (Hkeep 150 [ex_s2; ex_s3]); [vm_compute; reflexivity..|vm_compute; discriminate].
Defined.

Lemma checkPings_dead_server_undefined_witness :
  checkPings_scan (Some 2000000) ex_two = Stuck IteratorInvalidated ∧
  checkPings_scan (Some 900000) ex_two = Ret [] ex_two.
Proof.
  split.
  - apply (checkPings_dead_server_undefined ex_two (Some 2000000) ex_two_wf).
    exists ex_s1, (Some 0 : option Z). split; vm_compute; reflexivity.
  - apply (checkPings_dead_server_undefined ex_two (Some 900000) ex_two_wf).
    intros s t Hs. apply elem_of_map_to_list in Hs. vm_compute in Hs.
    repeat (apply elem_of_cons in Hs as [[= -> ->]|Hs]; [vm_compute; reflexivity|]).
    by apply elem_of_nil in Hs.
Defined.

(** The third server draws the position of the second one. *)
Definition ex_collision : VSState := vs_run_state (addServer (Some 0) 200 ex_s3 ex_two).

Lemma addServer_collision_orphans_witness :
  ∃ v' reply', zlookup (views ex_collision) (viewNum ex_collision) = Some v' ∧ ex_s2 ∈ v' ∧
    getView ex_collision = Ret reply' ex_collision ∧
    ∀ h ss, getServer h (gsr_view reply') = inr ss → ex_s2 ∉ ss.
Proof.
  apply (addServer_collision_orphans ex_two [ex_s1; ex_s2] {[ 100 := [ex_s1]; 200 := [ex_s2] ]}
    (Some 0) 200 ex_s3 [ex_s2]).
  - apply ex_two_wf.
  - vm_compute. reflexivity.
  - vm_compute. reflexivity.
  - vm_compute. reflexivity.
  - by apply list_elem_of_singleton.
  - discriminate.
  - intros k ss Hk. apply elem_of_map_to_list in Hk. vm_compute in Hk.
    repeat (apply elem_of_cons in Hk as [[= -> ->]|Hk]; [try reflexivity|]);
      try (by apply elem_of_nil in Hk); by intros Hs%list_elem_of_singleton.
  - vm_compute. reflexivity.
Defined.

(** The first server answers, the second one does not. *)
Definition ex_call (s : Server) : cache_exn + GetStatisticsReply :=
  if decide (s = ex_s1) then inr (mkStatistics 1 2 3 4 5 6 7 8) else inl TTransportException.

Lemma getStatistics_sums_witness :
  ∃ res, getStatistics ex_call ex_two = Ret res ex_two ∧ i64 (numGoodGets res) = 3.
Proof.
  destruct (getStatistics_sums ex_two [ex_s1; ex_s2] ex_call) as (res & Hok & Hf);
    [apply ex_two_wf|vm_compute; reflexivity|].
  exists res. split; [exact Hok|]. rewrite Hf; [vm_compute; reflexivity|].
  unfold counters. set_solver.
Defined.

Lemma receivePing_spec_witness :
  ∃ st' reply, receivePing (Some 7) ex_s3 ex_two = Ret reply st' ∧ pings st' !! ex_s3 = None.
Proof.
  destruct (receivePing_spec ex_two (Some 7) ex_s3 ex_two_wf) as (st' & reply & Hok & _ & _ & _ & _ & Hp).
  exists st', reply. split; [exact Hok|]. rewrite Hp. vm_compute. reflexivity.
Defined.
