(* ===== verification/Client.v ===== *)
(** * The clients: [prototype/client.h], [console.cpp], [stress.cpp] and
    [monitor.cpp], and the start of a server

    [CacheClient] keeps the last view it has seen and asks one of the replicas
    that are in charge of a key.  Every failure makes it ask for a new view. *)

From S2P Require Import Prelude CacheTypes ConsistentHashing.
From stdpp Require Import base gmap list strings sorting.
From Stdlib Require Import ZArith Lia Ascii.

Local Open Scope Z_scope.

(** ** [CacheClient] *)

(** The member [reply_]; the address of the view service is fixed and the
    outputs of the random generator are arguments. *)
Record ClientState := mkClient { reply_ : GetServersReply }.

Abbreviation C := (M cache_exn ClientState).

(** The call of the view service: whether it returns, and what the object passed
    to it holds afterwards.  A call that fails half-way leaves a part of the
    answer in the object. *)
Definition Fetch : Type := GetServersReply → bool * GetServersReply.

(** The call of a storage server; [None] is any exception of the connection or
    of the call. *)
Definition Rpc (A B : Type) : Type := Server → A → option B.

Definition rpc {A B} (f : Rpc A B) (s : Server) (a : A) : C B :=
  match f s a with
  | None => throw TTransportException
  | Some b => mret b
  end.

Definition getView (vs : Fetch) : C unit := λ c,
  if (vs (reply_ c)).1 then Ret tt (mkClient (vs (reply_ c)).2)
  else Exn ViewServiceException (mkClient (vs (reply_ c)).2).

(** [serversList[gen() % serversList.size()]]. *)
Definition getServerID (gen : Z) (k : string) : C Server :=
  let* v := gets reply_ in
  match getServer (ir_hash k) (gsr_view v) with
  | inl e => throw e
  | inr serversList =>
      if zlen serversList =? 0 then stuck DivisionByZero
      else lift_result (vec_at serversList (gen mod zlen serversList))
  end.

(** The [catch] clauses of [get] and [put]. *)
Definition handlers {A} (vs : Fetch) (e : cache_exn) : C A :=
  match e with
  | EmptyRingException => getView vs ;; throw EmptyRingException
  | ViewServiceException => throw ViewServiceException
  | WrongServerException => throw WrongServerException
  | _ => getView vs ;; throw ConnectionFailedException
  end.

Definition get (vs : Fetch) (gen : Z) (call : Rpc GetArgs GetReply) (k : string) :
    C (option string) :=
  catch
    (let* s := getServerID gen k in
     let* v := gets reply_ in
     let* reply := rpc call s (mkGetArgs k (gsr_viewNum v)) in
     match get_status reply with
     | OK => mret (Some (get_value reply))
     | WRONG_SERVER => getView vs ;; throw WrongServerException
     | NO_KEY => mret None
     end)
    (handlers vs).

Definition put (vs : Fetch) (gen : Z) (call : Rpc PutArgs PutReply) (k v : string) : C unit :=
  catch
    (let* s := getServerID gen k in
     let* view := gets reply_ in
     let* reply := rpc call s (mkPutArgs k v (gsr_viewNum view)) in
     match put_status reply with
     | WRONG_SERVER => getView vs ;; throw WrongServerException
     | _ => mret tt
     end)
    (handlers vs).

(** The constructor asks for the first view. *)
Definition CacheClient (vs : Fetch) : outcome cache_exn ClientState unit :=
  getView vs (mkClient default_GetServersReply).

(** ** [console.cpp]: one command; [value] is the word read after a [put] *)
Definition console_step (vs : Fetch) (gen : Z) (cget : Rpc GetArgs GetReply)
    (cput : Rpc PutArgs PutReply) (cmd k value : string) : C (list string) :=
  if bool_decide (cmd = "get") then
    let* v := get vs gen cget k in
    mret [match v with None => "no such key"%string | Some x => x end]
  else if bool_decide (cmd = "put") then
    put vs gen cput k value ;; mret []
  else mret [].

(** ** [stress.cpp] *)

Definition KEY_LENGTH : nat := 7.
Definition PUT_PROPORTION : Z := 50.
Definition VALUE_SIZE : nat := 1024.

(** ['0' + (rand() % 10)] for the successive outputs of [rand()]. *)
Definition rand_digit (rand : Z) : ascii := ascii_of_nat (Z.to_nat (48 + Z.rem rand 10)).

Fixpoint rand_digits (n : nat) (rand : nat → Z) : string :=
  match n with
  | O => ""
  | S n' => String (rand_digit (rand O)) (rand_digits n' (λ i, rand (S i)))
  end.

Record StressState := mkStress {
  cacheClient : ClientState; cnt : Z; numFailedPuts : Z; numFailedGets : Z }.

(** One round of the loop; [rand] is the stream of outputs of [rand()].  The
    exceptions of the client are all [std::runtime_error]s.  [None] stands for
    an execution that does not get to the end of the round. *)
Definition stress_step (vs : Fetch) (gen : Z) (cget : Rpc GetArgs GetReply)
    (cput : Rpc PutArgs PutReply) (rand : nat → Z) (s : StressState) : option StressState :=
  let k := rand_digits KEY_LENGTH rand in
  if Z.rem (rand KEY_LENGTH) PUT_PROPORTION =? 0 then
    let v := rand_digits VALUE_SIZE (λ i, rand (S (KEY_LENGTH + i))) in
    match put vs gen cput k v (cacheClient s) with
    | Ret _ c => Some (mkStress c (i32 (cnt s + 1)) (numFailedPuts s) (numFailedGets s))
    | Exn _ c => Some (mkStress c (i32 (cnt s + 1)) (i32 (numFailedPuts s + 1)) (numFailedGets s))
    | Stuck _ => None
    end
  else
    match get vs gen cget k (cacheClient s) with
    | Ret _ c => Some (mkStress c (i32 (cnt s + 1)) (numFailedPuts s) (numFailedGets s))
    | Exn _ c => Some (mkStress c (i32 (cnt s + 1)) (numFailedPuts s) (i32 (numFailedGets s + 1)))
    | Stuck _ => None
    end.

(** ** [monitor.cpp] *)

Definition getOps (s : GetStatisticsReply) : Z :=
  i64 (numInsertions s + numUpdates s + numGoodGets s + CacheTypes.numFailedGets s).

(** The numbers that [printStatistics] prints: operations since the last round,
    data size, size of the hash tables, evictions and purges. *)
Definition printStatistics (statistics last : GetStatisticsReply) : list Z :=
  [i64 (getOps statistics - getOps last); dataSize statistics; memoryOverhead statistics;
   numEvictions statistics; numPurges statistics].

(** The rounds of the monitor for the successive answers of the view service. *)
Fixpoint monitor (last : GetStatisticsReply) (answers : list GetStatisticsReply) : list (list Z) :=
  match answers with
  | [] => []
  | s :: answers' => printStatistics s last :: monitor s answers'
  end.

(** ** Registration, in the constructor of [KVStorageHandler] *)

Inductive Registration :=
| RegisterServer (s : Server)
| RegisterReplica (s master : Server).

Definition registration (self : Server) (masterAddress : string) (masterPort : Z) : Registration :=
  if bool_decide (masterAddress = "") then RegisterServer self
  else RegisterReplica self (mkServer masterAddress masterPort).
