(* ===== verification/ClientTheorems.v ===== *)
(** * Properties of the clients

    What a client relies on is stated by the class [ViewProvider]; the view
    service is an instance of it.  The last theorems put client, storage server
    and view service together. *)

From S2P Require Import Prelude CacheTypes ConsistentHashing Versions HashTable HashTableInv.
From S2P Require Import KVStorage KVSpec KVSystem KVTheorems ViewService ViewTheorems Client.
From stdpp Require Import base gmap list strings sorting relations.
From Stdlib Require Import ZArith Lia Ascii.

Local Open Scope Z_scope.
Set Warnings "-clear-no-such-hyp".

(** ** The interface between the view service and its clients *)

(** Replies for which [P] holds have no position without a server. *)
Class ViewProvider (P : GetServersReply → Prop) :=
  provider_ring_ok : ∀ reply, P reply → ring_ok (hashToServer (gsr_view reply)).

(** The replies of the view service. *)
Definition service_reply `{PosixTime} (reply : GetServersReply) : Prop :=
  ∃ st st', vs_reachable st ∧ ViewService.getView st = Ret reply st'.

#[export] Instance service_provider `{PosixTime} : ViewProvider service_reply.
Proof.
  intros reply (st & st' & Hwf%vs_reachable_wf & Hg).
  by apply (getView_inv _ _ _ Hwf) in Hg as (_ & r & _ & -> & Hok).
Qed.

(** ** The operations of the client *)

Section Client.
Context {P : GetServersReply → Prop} `{!ViewProvider P}.
Implicit Types (c : ClientState) (vs : Fetch).

Lemma getServerID_spec c g k :
  P (reply_ c) →
  match getServer (ir_hash k) (gsr_view (reply_ c)) with
  | inl e => e = EmptyRingException ∧ getServerID g k c = Exn e c
  | inr ss => ∃ s, s ∈ ss ∧ ss !! Z.to_nat (g mod zlen ss) = Some s ∧ getServerID g k c = Ret s c
  end.
Proof.
  intros HP. unfold getServerID. mstep.
  destruct (reply_ c) as [[ring] num] eqn:Hrep. simpl.
  pose proof (getServer_complete ring (ir_hash k)) as Hc.
  destruct (getServer (ir_hash k) (mkView ring)) as [e|ss]; [by destruct Hc as [-> _]|].
  destruct Hc as (p & _ & Hp).
  assert (ss ≠ []) as Hne by (apply (provider_ring_ok _ HP p ss); exact Hp).
  assert (0 < zlen ss) as Hpos by (destruct ss; [done|unfold zlen; simpl; lia]).
  destruct (Z.eqb_spec (zlen ss) 0); [lia|].
  destruct (zlookup_is_Some ss (g mod zlen ss)) as [s Hs]; [apply Z.mod_pos_bound; lia|].
  rewrite (vec_at_Ok _ _ _ Hs). apply zlookup_nat in Hs. exists s.
  split_and!; [by eapply list_elem_of_lookup_2|done..].
Qed.

(** What leaving by an exception means: the view has been asked for, and the
    exception says whether the view service answered. *)
Definition refreshed vs c (e : cache_exn) c' : Prop :=
  c' = mkClient (vs (reply_ c)).2 ∧ (e = ViewServiceException ↔ (vs (reply_ c)).1 = false).

Lemma getView_throw {A} vs c e :
  e ≠ ViewServiceException →
  ∃ e' c', (Client.getView vs ;; throw (A := A) e) c = Exn e' c' ∧ refreshed vs c e' c' ∧
    (e' = e ∨ e' = ViewServiceException).
Proof.
  intros He. rewrite M_bind_eq. unfold Client.getView, refreshed.
  destruct (vs (reply_ c)) as [[] r']; simpl; eexists _, _; (split; [reflexivity|]);
    (split; [|auto]); by split.
Qed.

(** The common shape of [get] and [put]: pick a replica, call it, handle the
    answer. *)
Definition client_call {Q R A} vs g (call : Rpc Q R) k (args : GetServersReply → Q)
    (answer : R → option A) : M cache_exn ClientState A :=
  catch
    (let* s := getServerID g k in
     let* v := gets reply_ in
     let* reply := rpc call s (args v) in
     match answer reply with
     | Some a => mret a
     | None => Client.getView vs ;; throw WrongServerException
     end) (handlers vs).

Definition get_answer (r : GetReply) : option (option string) :=
  match get_status r with
  | OK => Some (Some (get_value r))
  | NO_KEY => Some None
  | WRONG_SERVER => None
  end.
Definition put_answer (r : PutReply) : option unit :=
  match put_status r with WRONG_SERVER => None | _ => Some tt end.

Lemma client_get_call vs g call k c :
  Client.get vs g call k c =
  client_call vs g call k (λ v, mkGetArgs k (gsr_viewNum v)) get_answer c.
Proof.
  unfold Client.get, client_call, catch, mbind, M_bind, gets, rpc.
  destruct (getServerID g k c) as [s c'| |]; [|done..].
  by destruct (call s _) as [[[] ?]|].
Qed.

Lemma client_put_call vs g call k v c :
  Client.put vs g call k v c =
  client_call vs g call k (λ w, mkPutArgs k v (gsr_viewNum w)) put_answer c.
Proof.
  unfold Client.put, client_call, catch, mbind, M_bind, gets, rpc.
  destruct (getServerID g k c) as [s c'| |]; [|done..].
  by destruct (call s _) as [[[]]|].
Qed.

Lemma client_call_spec {Q R A} vs g (call : Rpc Q R) k (args : GetServersReply → Q)
    (answer : R → option A) c :
  P (reply_ c) →
  let o := client_call vs g call k args answer c in
  match getServer (ir_hash k) (gsr_view (reply_ c)) with
  | inl _ => ∃ e c', o = Exn e c' ∧ refreshed vs c e c' ∧
      (e = EmptyRingException ∨ e = ViewServiceException)
  | inr ss => ∃ s, s ∈ ss ∧ ss !! Z.to_nat (g mod zlen ss) = Some s ∧
      match call s (args (reply_ c)) with
      | None => ∃ e c', o = Exn e c' ∧ refreshed vs c e c' ∧
          (e = ConnectionFailedException ∨ e = ViewServiceException)
      | Some reply =>
          match answer reply with
          | Some a => o = Ret a c
          | None => ∃ e c', o = Exn e c' ∧ refreshed vs c e c' ∧
              (e = WrongServerException ∨ e = ViewServiceException)
          end
      end
  end.
Proof.
  intros HP. pose proof (getServerID_spec c g k HP) as Hid. cbv zeta. unfold client_call, catch.
  destruct (getServer _ _) as [e|ss].
  - destruct Hid as [-> Hid]. rewrite (M_bind_exn _ _ _ _ _ Hid).
    by apply getView_throw.
  - destruct Hid as (s & Hs & Hsel & Hid). exists s. split_and!; [done..|].
    rewrite (M_bind_ret _ _ _ _ _ Hid). mstep. rewrite M_bind_eq. unfold rpc.
    destruct (call s (args (reply_ c))) as [reply|]; [|by apply getView_throw].
    unfold mret, M_ret. destruct (answer reply) as [a|]; [done|].
    destruct (getView_throw (A := A) vs c WrongServerException) as (e & c' & -> & Hr & He); [done|].
    exists e, c'. split; [by destruct He as [-> | ->]|done].
Qed.

(** [CacheClient::get] with a view whose positions all have servers: it
    never divides by zero; it asks one of the replicas in charge of the key,
    chosen by the random number; an answer leaves the client as it is, and every
    exception comes after a request for a new view, reporting the failure of
    that request if it fails, and otherwise the empty ring, the wrong server or
    the failed connection. *)
Theorem client_get_spec vs g call k c :
  P (reply_ c) →
  let o := Client.get vs g call k c in
  match getServer (ir_hash k) (gsr_view (reply_ c)) with
  | inl _ => ∃ e c', o = Exn e c' ∧ refreshed vs c e c' ∧
      (e = EmptyRingException ∨ e = ViewServiceException)
  | inr ss => ∃ s, s ∈ ss ∧ ss !! Z.to_nat (g mod zlen ss) = Some s ∧
      match call s (mkGetArgs k (gsr_viewNum (reply_ c))) with
      | None => ∃ e c', o = Exn e c' ∧ refreshed vs c e c' ∧
          (e = ConnectionFailedException ∨ e = ViewServiceException)
      | Some (mkGetReply OK v) => o = Ret (Some v) c
      | Some (mkGetReply NO_KEY _) => o = Ret None c
      | Some (mkGetReply WRONG_SERVER _) => ∃ e c', o = Exn e c' ∧ refreshed vs c e c' ∧
          (e = WrongServerException ∨ e = ViewServiceException)
      end
  end.
Proof.
  intros HP o. pose proof (client_call_spec vs g call k (λ v, mkGetArgs k (gsr_viewNum v))
    get_answer c HP) as Hspec.
  cbv zeta in Hspec. rewrite <- client_get_call in Hspec. fold o in Hspec.
  destruct (getServer _ _) as [|ss]; [done|].
  destruct Hspec as (s & Hs & Hsel & Hspec). exists s. split_and!; [done..|].
  by destruct (call _ _) as [[[] ?]|].
Qed.

(** [CacheClient::put] behaves like [get]: one of the replicas in charge is
    asked, with the number of the client's view; it returns when the server
    stored the value and otherwise throws after a request for a new view. *)
Theorem client_put_spec vs g call k v c :
  P (reply_ c) →
  let o := Client.put vs g call k v c in
  match getServer (ir_hash k) (gsr_view (reply_ c)) with
  | inl _ => ∃ e c', o = Exn e c' ∧ refreshed vs c e c' ∧
      (e = EmptyRingException ∨ e = ViewServiceException)
  | inr ss => ∃ s, s ∈ ss ∧ ss !! Z.to_nat (g mod zlen ss) = Some s ∧
      match call s (mkPutArgs k v (gsr_viewNum (reply_ c))) with
      | None => ∃ e c', o = Exn e c' ∧ refreshed vs c e c' ∧
          (e = ConnectionFailedException ∨ e = ViewServiceException)
      | Some (mkPutReply WRONG_SERVER) => ∃ e c', o = Exn e c' ∧ refreshed vs c e c' ∧
          (e = WrongServerException ∨ e = ViewServiceException)
      | Some _ => o = Ret tt c
      end
  end.
Proof.
  intros HP o. pose proof (client_call_spec vs g call k (λ w, mkPutArgs k v (gsr_viewNum w))
    put_answer c HP) as Hspec.
  cbv zeta in Hspec. rewrite <- client_put_call in Hspec. fold o in Hspec.
  destruct (getServer _ _) as [|ss]; [done|].
  destruct Hspec as (s & Hs & Hsel & Hspec). exists s. split_and!; [done..|].
  by destruct (call _ _) as [[[]]|].
Qed.

(** A call that is answered. *)
Lemma client_call_answered {Q R A} vs g (call : Rpc Q R) k (args : GetServersReply → Q)
    (answer : R → option A) c ss s r a :
  P (reply_ c) →
  getServer (ir_hash k) (gsr_view (reply_ c)) = inr ss → ss !! Z.to_nat (g mod zlen ss) = Some s →
  call s (args (reply_ c)) = Some r → answer r = Some a →
  client_call vs g call k args answer c = Ret a c.
Proof.
  intros HP Hg Hsel Hcall Ha. pose proof (client_call_spec vs g call k args answer c HP) as Hs.
  cbv zeta in Hs. rewrite Hg in Hs. destruct Hs as (s' & _ & Hsel' & Hs).
  assert (s' = s) as -> by congruence. by rewrite Hcall, Ha in Hs.
Qed.

End Client.

(** ** The system *)

Section System.
Context `{PosixTime} `{Allocator}.

(** A storage server as seen by a client: the handler's reply, and no answer
    from other addresses or when the handler does not return. *)
Definition served {Q R} (handler : Q → M cache_exn KVState R) (st : KVState) : Rpc Q R := λ s q,
  if decide (s = server st) then
    match handler q st with Ret r _ => Some r | _ => None end
  else None.

(** What the constructor of a storage server asks of the view service. *)
Definition register_at (now : ptime) (gen : Z) (reg : Registration) : M cache_exn VSState unit :=
  match reg with
  | RegisterServer s => addServer now gen s
  | RegisterReplica s master => addReplica now s master
  end.

(** A storage server that has registered is in charge of some hash in the
    current view, except as a replica of a master that is not in the view (then
    nothing has changed) or that is itself in charge of no hash. *)
Theorem registration_joins (vst vst' : VSState) now g self masterAddress masterPort :
  vs_wf vst →
  register_at now g (registration self masterAddress masterPort) vst = Ret tt vst' →
  ∃ reply, ViewService.getView vst' = Ret reply vst' ∧
    ((∃ h ss, getServer h (gsr_view reply) = inr ss ∧ self ∈ ss) ∨
     (masterAddress ≠ "" ∧ vst' = vst) ∨
     (masterAddress ≠ "" ∧ ∀ h ss, getServer h (gsr_view reply) = inr ss →
        mkServer masterAddress masterPort ∉ ss)).
Proof.
  intros Hwf. unfold registration.
  destruct (vs_current vst Hwf) as (v & r & Hv & Hr & Hok & Hin).
  apply (vs_wf_with_pings (<[self := now]> (pings vst))) in Hwf as Hwf1.
  case_bool_decide as Hm; simpl.
  - rewrite (addServer_spec vst v r) by done. case_match eqn:Hlt; [|done]. intros [= <-].
    eexists. split; [apply push_view_getView; auto using ring_ok_insert, ring_in_insert; simpl; lia|].
    left. exists (i32 g), [self]. split; [|by apply list_elem_of_singleton].
    apply getServer_at_position, lookup_insert_eq.
  - rewrite (addReplica_spec vst v r) by done. case_bool_decide as Hmv.
    + case_match eqn:Hlt; [|done]. intros [= <-].
      eexists. split; [apply push_view_getView; auto using ring_ok_replica, ring_in_replica; simpl; lia|].
      set (master := mkServer masterAddress masterPort).
      destruct (find_replica_set master (map_iter Z.le r)) as [k|] eqn:Hf.
      * left. apply find_replica_set_Some in Hf as Hf'. destruct Hf' as (l1 & ss & l2 & Hit & _).
        assert (r !! k = Some ss) as Hk.
        { apply (elem_of_map_iter Z.le). rewrite Hit. apply elem_of_app. right. by left. }
        exists k, (ss ++ [self]). split; [|apply elem_of_app; right; by left].
        apply getServer_at_position. rewrite add_to_replica_set_lookup, Hk. simpl.
        by rewrite bool_decide_true.
      * right. right. split; [done|]. simpl. intros h ss (k & _ & Hk)%getServer_owner_iff.
        rewrite add_to_replica_set_lookup, Hf in Hk. apply fmap_Some in Hk as (ss' & Hk & ->).
        rewrite bool_decide_false by done. intros Hin'.
        eapply find_replica_set_None; [done| |done]. by apply elem_of_map_iter.
    + intros [= <-]. eexists. split; [by apply getView_spec|]. by right; left.
Qed.


End System.

(** ** The programs around the client *)

Section Programs.
Context {P : GetServersReply → Prop} `{!ViewProvider P}.

Lemma client_call_outcome {Q R A} vs g (call : Rpc Q R) k (args : GetServersReply → Q)
    (answer : R → option A) c :
  P (reply_ c) →
  (∃ a, client_call vs g call k args answer c = Ret a c) ∨
  (∃ e, client_call vs g call k args answer c = Exn e (mkClient (vs (reply_ c)).2)).
Proof.
  intros HP. pose proof (client_call_spec vs g call k args answer c HP) as Hs. cbv zeta in Hs.
  destruct (getServer _ _) as [|ss].
  - destruct Hs as (e & c' & -> & [-> _] & _). eauto.
  - destruct Hs as (s & _ & _ & Hs). destruct (call s _) as [r|]; [destruct (answer r) as [a|]|].
    + eauto.
    + destruct Hs as (e & c' & -> & [-> _] & _). eauto.
    + destruct Hs as (e & c' & -> & [-> _] & _). eauto.
Qed.

(** A round of the stress test always ends: it counts one round and at most
    one failure, a failed [put] and a failed [get] in their own counters, and the
    view of the client changes only in a round that failed. *)
Theorem stress_step_total vs g cget cput rand s :
  P (reply_ (cacheClient s)) →
  ∃ s', stress_step vs g cget cput rand s = Some s' ∧ cnt s' = i32 (cnt s + 1) ∧
    ((cacheClient s' = cacheClient s ∧ numFailedPuts s' = numFailedPuts s ∧
      Client.numFailedGets s' = Client.numFailedGets s) ∨
     (cacheClient s' = mkClient (vs (reply_ (cacheClient s))).2 ∧
      ((numFailedPuts s' = i32 (numFailedPuts s + 1) ∧
        Client.numFailedGets s' = Client.numFailedGets s) ∨
       (numFailedPuts s' = numFailedPuts s ∧
        Client.numFailedGets s' = i32 (Client.numFailedGets s + 1))))).
Proof.
  intros HP. unfold stress_step. case_match.
  - rewrite client_put_call.
    destruct (client_call_outcome vs g cput (rand_digits KEY_LENGTH rand)
      (λ w, mkPutArgs (rand_digits KEY_LENGTH rand)
              (rand_digits VALUE_SIZE (λ i, rand (S (KEY_LENGTH + i)))) (gsr_viewNum w))
      put_answer _ HP) as [[a ->]|[e ->]];
      eexists; (split; [reflexivity|]); simpl; intuition.
  - rewrite client_get_call.
    destruct (client_call_outcome vs g cget (rand_digits KEY_LENGTH rand)
      (λ w, mkGetArgs (rand_digits KEY_LENGTH rand) (gsr_viewNum w))
      get_answer _ HP) as [[a ->]|[e ->]];
      eexists; (split; [reflexivity|]); simpl; intuition.
Qed.

(** The numbers of operations that the monitor prints add up, modulo
    [2 ^ 64], to the difference between the last and the first statistics. *)
Theorem monitor_ops_telescope first answers :
  i64 (foldr Z.add 0 (hd 0 <$> monitor first answers)) =
  i64 (getOps (foldl (λ _ s, s) first answers) - getOps first).
Proof.
  revert first. induction answers as [|s answers IH]; intros first.
  - simpl. by rewrite Z.sub_diag.
  - cbn [monitor fmap list_fmap foldr printStatistics hd].
    rewrite Z.add_comm. unfold i64 at 1.
    rewrite <- (wraps_wraps_add 64) by done. fold i64. change (wraps 64) with i64. rewrite IH.
    unfold i64 at 1 2 3. rewrite (wraps_wraps_add 64), Z.add_comm, (wraps_wraps_add 64) by done.
    cbn [foldl]. f_equal. lia.
Qed.

End Programs.

(** ** The theorems at work *)

(** Any view with servers at all its positions. *)
#[local] Instance ring_ok_provider : ViewProvider (λ reply, ring_ok (hashToServer (gsr_view reply))).
Proof. by intros reply. Qed.

Definition ex_client : ClientState := mkClient example_view.
Definition ex_fetch : Fetch := λ old, (true, moved_view).

Lemma example_view_ok : ring_ok (hashToServer (gsr_view example_view)).
Proof.
  intros k ss Hk. apply elem_of_map_to_list in Hk. vm_compute in Hk.
  by apply list_elem_of_singleton in Hk as [= -> ->].
Qed.

Lemma client_get_spec_witness :
  ∃ e c', Client.get ex_fetch 1 (λ _ _, Some (mkGetReply WRONG_SERVER "")) "k" ex_client = Exn e c' ∧
    reply_ c' = moved_view ∧ (e = WrongServerException ∨ e = ViewServiceException).
Proof.
  destruct (client_get_spec (P := λ reply, ring_ok (hashToServer (gsr_view reply))) ex_fetch 1
    (λ _ _, Some (mkGetReply WRONG_SERVER "")) "k" ex_client example_view_ok)
    as (s & _ & _ & e & c' & Ho & [Hc _] & He).
  exists e, c'. split; [exact Ho|]. split; [by rewrite Hc|exact He].
Defined.

Lemma client_put_spec_witness :
  ∃ e c', Client.put ex_fetch 1 (λ _ _, None) "k" "v" ex_client = Exn e c' ∧
    (e = ConnectionFailedException ∨ e = ViewServiceException).
Proof.
  destruct (client_put_spec (P := λ reply, ring_ok (hashToServer (gsr_view reply))) ex_fetch 1
    (λ _ _, None) "k" "v" ex_client example_view_ok) as (s & _ & _ & e & c' & Ho & _ & He).
  exists e, c'. split; [exact Ho|exact He].
Defined.

Lemma stress_step_total_witness :
  ∃ s', stress_step ex_fetch 0 (λ _ _, Some (mkGetReply NO_KEY "")) (λ _ _, None) (λ i, Z.of_nat i)
          (mkStress ex_client 0 0 0) = Some s' ∧ cnt s' = 1.
Proof.
  destruct (stress_step_total (P := λ reply, ring_ok (hashToServer (gsr_view reply))) ex_fetch 0
    (λ _ _, Some (mkGetReply NO_KEY "")) (λ _ _, None) (λ i, Z.of_nat i)
    (mkStress ex_client 0 0 0) example_view_ok) as (s' & Hs & Hc & _).
  exists s'. split; [exact Hs|exact Hc].
Defined.

(** Two servers register, the second as a replica of the first. *)
Lemma registration_joins_witness :
  ∃ reply, ViewService.getView ex_three = Ret reply ex_three ∧
    ((∃ h ss, getServer h (gsr_view reply) = inr ss ∧ ex_s3 ∈ ss) ∨
     ("b" ≠ "" ∧ ex_three = ex_two) ∨
     ("b" ≠ "" ∧ ∀ h ss, getServer h (gsr_view reply) = inr ss → mkServer "b" 2 ∉ ss)).
Proof.
  apply (registration_joins (H := example_time) ex_two ex_three (Some 0) 0 ex_s3 "b" 2 ex_two_wf).
  vm_compute. reflexivity.
Defined.

(** A client and a server that have the view with one server. *)
Definition ex_server : KVState :=
  with_currentView ex_view_one (initial_KVState ex_s1).

