(* ===== verification/Bytes.v ===== *)
(** * Byte strings

    A byte is a [Z] between 0 and 255 and a memory block a list of bytes.  This
    file has the copies between blocks ([memcpy]) and the network representation
    of integers ([htons], [htonl], [htonll] followed by a copy of the bytes). *)

From S2P Require Import Prelude.
From stdpp Require Import base list.
From Stdlib Require Import ZArith Lia.

Local Open Scope Z_scope.

Abbreviation bytes := (list Z).

Definition is_byte (b : Z) : Prop := 0 ≤ b < 256.

(** ** Blocks of memory *)

(** The [len] bytes of [buf] that start at [from]. *)
Definition sub (buf : bytes) (from len : Z) : bytes :=
  take (Z.to_nat len) (drop (Z.to_nat from) buf).

(** [memcpy(buf + at_, data, data.size())]. *)
Definition memcpy (buf : bytes) (at_ : Z) (data : bytes) : bytes :=
  take (Z.to_nat at_) buf ++ data ++ drop (Z.to_nat at_ + length data) buf.

Definition ztake (n : Z) (l : bytes) : bytes := take (Z.to_nat n) l.
Definition zdrop (n : Z) (l : bytes) : bytes := drop (Z.to_nat n) l.

Lemma zlen_nil : zlen (A := Z) [] = 0.
Proof. done. Qed.
Lemma zlen_cons (x : Z) l : zlen (x :: l) = 1 + zlen l.
Proof. unfold zlen. cbn [length]. lia. Qed.
Lemma zlen_app (l k : bytes) : zlen (l ++ k) = zlen l + zlen k.
Proof. unfold zlen. rewrite length_app. lia. Qed.
Lemma zlen_nonneg {A} (l : list A) : 0 ≤ zlen l.
Proof. unfold zlen. lia. Qed.
Lemma zlen_zero_nil (l : bytes) : zlen l = 0 → l = [].
Proof. destruct l; [done|]. rewrite zlen_cons. pose proof (zlen_nonneg l). lia. Qed.
Lemma zlen_ztake n (l : bytes) : 0 ≤ n ≤ zlen l → zlen (ztake n l) = n.
Proof. unfold zlen, ztake. rewrite length_take. lia. Qed.
Lemma zlen_ztake_min n (l : bytes) : 0 ≤ n → zlen (ztake n l) = Z.min n (zlen l).
Proof. unfold zlen, ztake. rewrite length_take. lia. Qed.
Lemma zlen_zdrop n (l : bytes) : 0 ≤ n ≤ zlen l → zlen (zdrop n l) = zlen l - n.
Proof. unfold zlen, zdrop. rewrite length_drop. lia. Qed.
Lemma ztake_zdrop n l : ztake n l ++ zdrop n l = l.
Proof. apply take_drop. Qed.
Lemma ztake_app n (l k : bytes) : n = zlen l → ztake n (l ++ k) = l.
Proof. intros ->. unfold ztake, zlen. rewrite Nat2Z.id. apply take_app_length. Qed.
Lemma zdrop_app n (l k : bytes) : n = zlen l → zdrop n (l ++ k) = k.
Proof. intros ->. unfold zdrop, zlen. rewrite Nat2Z.id. apply drop_app_length. Qed.
Lemma ztake_ge n (l : bytes) : zlen l ≤ n → ztake n l = l.
Proof. unfold ztake, zlen. intros. apply take_ge. lia. Qed.
Lemma zdrop_ge n (l : bytes) : zlen l ≤ n → zdrop n l = [].
Proof. unfold zdrop, zlen. intros. apply drop_ge. lia. Qed.
Lemma zdrop_zdrop n m (l : bytes) : 0 ≤ n → 0 ≤ m → zdrop n (zdrop m l) = zdrop (m + n) l.
Proof. intros. unfold zdrop. rewrite drop_drop. f_equal. lia. Qed.
Lemma ztake_ztake_le n m (l : bytes) : n ≤ m → ztake n (ztake m l) = ztake n l.
Proof. intros. unfold ztake. rewrite take_take. f_equal. lia. Qed.
Lemma ztake_app_le n (l k : bytes) : n ≤ zlen l → ztake n (l ++ k) = ztake n l.
Proof. unfold ztake, zlen. intros. apply take_app_le. lia. Qed.
Lemma ztake_app_ge n (l k : bytes) : zlen l ≤ n → ztake n (l ++ k) = l ++ ztake (n - zlen l) k.
Proof.
  unfold ztake, zlen. intros. rewrite take_app_ge by lia. do 2 f_equal. lia.
Qed.
Lemma zdrop_app_le n (l k : bytes) : n ≤ zlen l → zdrop n (l ++ k) = zdrop n l ++ k.
Proof. unfold zdrop, zlen. intros. apply drop_app_le. lia. Qed.
Lemma zdrop_app_ge n (l k : bytes) : zlen l ≤ n → zdrop n (l ++ k) = zdrop (n - zlen l) k.
Proof. unfold zdrop, zlen. intros. rewrite drop_app_ge by lia. f_equal. lia. Qed.

Lemma sub_zdrop buf from len : sub buf from len = ztake len (zdrop from buf).
Proof. done. Qed.
Lemma sub_0 buf from : sub buf from 0 = [].
Proof. done. Qed.
Lemma ztake_zdrop_comm from len (l : bytes) :
  0 ≤ from → 0 ≤ len → zdrop from (ztake (from + len) l) = ztake len (zdrop from l).
Proof.
  intros. unfold ztake, zdrop. rewrite take_drop_commute. do 2 f_equal. lia.
Qed.
Lemma zlen_sub buf from len :
  0 ≤ from → 0 ≤ len → from + len ≤ zlen buf → zlen (sub buf from len) = len.
Proof. intros. rewrite sub_zdrop, zlen_ztake; [done|]. rewrite zlen_zdrop; lia. Qed.

(** A part of the buffer splits at every point. *)
Lemma sub_split buf from len n :
  0 ≤ from → 0 ≤ n ≤ len → sub buf from len = sub buf from n ++ sub buf (from + n) (len - n).
Proof.
  intros Hf Hn. rewrite !sub_zdrop.
  rewrite <- (zdrop_zdrop n from buf) by lia. set (l := zdrop from buf).
  unfold ztake, zdrop. rewrite <- (take_drop (Z.to_nat n) (take (Z.to_nat len) l)) at 1.
  rewrite take_take, take_drop_commute. do 3 f_equal; lia.
Qed.
Lemma ztake_sub buf from len n :
  0 ≤ from → 0 ≤ n ≤ len → from + len ≤ zlen buf → ztake n (sub buf from len) = sub buf from n.
Proof. intros. rewrite !sub_zdrop, ztake_ztake_le by lia. done. Qed.
Lemma zdrop_sub buf from len n :
  0 ≤ from → 0 ≤ n ≤ len → from + len ≤ zlen buf →
  zdrop n (sub buf from len) = sub buf (from + n) (len - n).
Proof.
  intros Hf Hn Hl. rewrite (sub_split buf from len n) by lia. rewrite zdrop_app; [done|].
  rewrite zlen_sub; lia.
Qed.

Lemma zlen_memcpy buf at_ data :
  0 ≤ at_ → at_ + zlen data ≤ zlen buf → zlen (memcpy buf at_ data) = zlen buf.
Proof.
  unfold memcpy, zlen. intros. rewrite !length_app, length_take, length_drop. lia.
Qed.

(** Writing behind a prefix extends it. *)
Lemma memcpy_prefix buf at_ data :
  0 ≤ at_ ≤ zlen buf → ztake (at_ + zlen data) (memcpy buf at_ data) = ztake at_ buf ++ data.
Proof.
  intros Hat. unfold memcpy. rewrite app_assoc. apply ztake_app.
  rewrite zlen_app. f_equal. symmetry. apply (zlen_ztake at_ buf Hat).
Qed.

Lemma memcpy_prefix_0 buf data : ztake (zlen data) (memcpy buf 0 data) = data.
Proof. by apply (ztake_app (zlen data) data). Qed.

(** Reading before the written part is not affected. *)
Lemma sub_memcpy_before buf at_ data from len :
  0 ≤ from → 0 ≤ len → from + len ≤ at_ ≤ zlen buf →
  sub (memcpy buf at_ data) from len = sub buf from len.
Proof.
  intros Hf Hl Hat. unfold sub, memcpy.
  rewrite drop_app_le by (rewrite length_take; unfold zlen in Hat; lia).
  rewrite take_app_le by (rewrite length_drop, length_take; unfold zlen in Hat; lia).
  rewrite !take_drop_commute, take_take. do 2 f_equal. lia.
Qed.

(** ** Network byte order *)

(** The [n] bytes of [z], most significant first. *)
Fixpoint to_be (n : nat) (z : Z) : bytes :=
  match n with
  | O => []
  | S n' => (z / 256 ^ Z.of_nat n') mod 256 :: to_be n' z
  end.

Definition of_be (l : bytes) : Z := foldl (λ acc b, acc * 256 + b) 0 l.

Lemma to_be_length n z : length (to_be n z) = n.
Proof. induction n; simpl; congruence. Qed.
Lemma zlen_to_be n z : zlen (to_be n z) = Z.of_nat n.
Proof. unfold zlen. by rewrite to_be_length. Qed.

Lemma of_be_cons b l : of_be (b :: l) = foldl (λ acc b, acc * 256 + b) b l.
Proof. done. Qed.

Lemma of_be_acc l acc : foldl (λ acc b, acc * 256 + b) acc l = acc * 256 ^ zlen l + of_be l.
Proof.
  revert acc. induction l as [|b l IH]; intros acc; simpl.
  - rewrite zlen_nil. unfold of_be. simpl. lia.
  - rewrite IH, of_be_cons, (IH b).
    rewrite zlen_cons, Z.pow_add_r by (pose proof (zlen_nonneg l); lia). lia.
Qed.

Lemma of_be_to_be n z : of_be (to_be n z) = z mod 256 ^ Z.of_nat n.
Proof.
  induction n as [|n IH]; simpl to_be.
  - unfold of_be. simpl. by rewrite Z.mod_1_r.
  - rewrite of_be_cons, of_be_acc, zlen_to_be, IH.
    rewrite Nat2Z.inj_succ, Z.pow_succ_r by lia.
    rewrite (Z.mul_comm 256), Z.rem_mul_r by (try apply Z.pow_nonzero; lia). lia.
Qed.

Lemma to_be_bytes n z : Forall is_byte (to_be n z).
Proof.
  induction n; simpl; constructor; [|done]. apply Z.mod_pos_bound. lia.
Qed.

Lemma to_be_mod n z : to_be n (z mod 256 ^ Z.of_nat n) = to_be n z.
Proof.
  assert (∀ m z, (m ≤ n)%nat → to_be m (z mod 256 ^ Z.of_nat n) = to_be m z) as H; [|by apply H].
  intros m w. induction m as [|m IH]; intros Hm; simpl; [done|]. f_equal; [|apply IH; lia].
  replace (Z.of_nat n) with (Z.of_nat m + (1 + Z.of_nat (n - S m))) by lia.
  rewrite Z.pow_add_r by lia. rewrite (Z.rem_mul_r w) by (try apply Z.pow_nonzero; lia).
  rewrite Z.mul_comm, Z.div_add by (apply Z.pow_nonzero; lia).
  rewrite Z.div_small by (apply Z.mod_pos_bound, Z.pow_pos_nonneg; lia). simpl.
  rewrite Z.pow_add_r by lia. change (256 ^ 1) with 256.
  apply Z.mod_mod_divide. apply Z.divide_factor_l.
Qed.

Lemma of_be_range l : Forall is_byte l → 0 ≤ of_be l < 256 ^ zlen l.
Proof.
  induction l as [|b l IH]; intros Hl; [by rewrite zlen_nil|].
  apply Forall_cons in Hl as [Hb Hl]. specialize (IH Hl). unfold is_byte in Hb.
  rewrite of_be_cons, of_be_acc, zlen_cons.
  rewrite Z.pow_add_r by (pose proof (zlen_nonneg l); lia).
  assert (b * 256 ^ zlen l ≤ 255 * 256 ^ zlen l) by (apply Z.mul_le_mono_nonneg_r; lia). nia.
Qed.

Lemma to_be_of_be l : Forall is_byte l → to_be (length l) (of_be l) = l.
Proof.
  induction l as [|b l IH]; intros Hl; simpl; [done|].
  apply Forall_cons in Hl as [Hb Hl]. pose proof (of_be_range l Hl) as Hr.
  rewrite of_be_cons, of_be_acc.
  change (Z.of_nat (length l)) with (zlen l) in *. unfold is_byte in Hb. f_equal.
  - rewrite Z.add_comm, Z.div_add, Z.div_small by (try apply Z.pow_nonzero; pose proof (zlen_nonneg l); lia).
    rewrite Z.add_0_l. apply Z.mod_small. lia.
  - etrans; [|by apply IH]. rewrite <- (to_be_mod (length l) (b * 256 ^ zlen l + of_be l)).
    change (Z.of_nat (length l)) with (zlen l).
    rewrite Z.add_comm, Z.mod_add, Z.mod_small by (try apply Z.pow_nonzero; pose proof (zlen_nonneg l); lia).
    done.
Qed.

(** Signed integers of [n] bytes. *)
Lemma wraps_to_be n z :
  (0 < n)%nat → - 2 ^ (8 * Z.of_nat n - 1) ≤ z < 2 ^ (8 * Z.of_nat n - 1) →
  wraps (8 * Z.of_nat n) (of_be (to_be n z)) = z.
Proof.
  intros Hn Hz. rewrite of_be_to_be.
  replace (256 ^ Z.of_nat n) with (2 ^ (8 * Z.of_nat n)) by (by rewrite Z.pow_mul_r by lia).
  change (z mod 2 ^ (8 * Z.of_nat n)) with (wrapu (8 * Z.of_nat n) z).
  rewrite wraps_wrapu by lia. apply wraps_small; lia.
Qed.
