(* ===== verification/CStrings.v ===== *)
(** * Strings of C

    A string is the list of its characters without the terminating zero.  The part of
    the functions of [strtol]'s family that they share, and the decimal notation. *)

From S2P Require Import Prelude Bytes.
From stdpp Require Import base list.
From Stdlib Require Import ZArith Lia.

Local Open Scope Z_scope.

Fixpoint skip_while (p : Z → bool) (l : bytes) : bytes :=
  match l with
  | [] => []
  | c :: l' => if p c then skip_while p l' else l
  end.
Fixpoint take_while (p : Z → bool) (l : bytes) : bytes :=
  match l with
  | [] => []
  | c :: l' => if p c then c :: take_while p l' else []
  end.

Definition is_digit (c : Z) : bool := (48 <=? c) && (c <=? 57).
Definition is_space (c : Z) : bool := (c =? 32) || ((9 <=? c) && (c <=? 13)).
Definition digits_value (ds : bytes) : Z := foldl (λ a c, 10 * a + (c - 48)) 0 ds.

(** What [strtol], [strtoul] and their like scan in base 10: the sign, the digits and
    what follows them ([endptr]); nothing when there is no digit. *)
Definition scan (s : bytes) : option (bool * bytes * bytes) :=
  let s := skip_while is_space s in
  let (neg, s) :=
    match s with
    | c :: s' => if c =? 45 then (true, s') else if c =? 43 then (false, s') else (false, s)
    | [] => (false, s)
    end in
  match take_while is_digit s with
  | [] => None
  | ds => Some (neg, ds, skip_while is_digit s)
  end.

(** [%d]. *)
Fixpoint decimal_digits (fuel : nat) (n : Z) : bytes :=
  match fuel with
  | O => []
  | S fuel' => (if n <? 10 then [] else decimal_digits fuel' (n / 10)) ++ [48 + n mod 10]
  end.
Definition decimal (n : Z) : bytes := decimal_digits 20 n.

Lemma take_while_app p l c r :
  Forall (λ x, p x = true) l → p c = false → take_while p (l ++ c :: r) = l.
Proof. intros Hl Hc. induction Hl as [|x l Hx _ IH]; simpl; [by rewrite Hc|]. by rewrite Hx, IH. Qed.
Lemma take_while_all p l : Forall (λ x, p x = true) l → take_while p l = l.
Proof. intros Hl. induction Hl as [|x l Hx _ IH]; simpl; [done|]. by rewrite Hx, IH. Qed.
Lemma skip_while_app p l c r :
  Forall (λ x, p x = true) l → p c = false → skip_while p (l ++ c :: r) = c :: r.
Proof. intros Hl Hc. induction Hl as [|x l Hx _ IH]; simpl; [by rewrite Hc|]. by rewrite Hx, IH. Qed.
Lemma skip_while_all p l : Forall (λ x, p x = true) l → skip_while p l = [].
Proof. intros Hl. induction Hl as [|x l Hx _ IH]; simpl; [done|]. by rewrite Hx, IH. Qed.

(** *** Decimal numbers *)

Lemma decimal_digits_are_digits fuel n :
  0 ≤ n → Forall (λ c, is_digit c = true) (decimal_digits fuel n).
Proof.
  revert n. induction fuel as [|fuel IH]; intros n Hn; cbn [decimal_digits]; [constructor|].
  apply Forall_app. split.
  - destruct (n <? 10); [constructor|]. apply IH. apply Z.div_pos; lia.
  - constructor; [|constructor]. unfold is_digit. pose proof (Z.mod_pos_bound n 10 ltac:(lia)).
    rewrite !(proj2 (Z.leb_le _ _)) by lia. done.
Qed.

Lemma digits_value_snoc ds c : digits_value (ds ++ [c]) = 10 * digits_value ds + (c - 48).
Proof. unfold digits_value. by rewrite foldl_app. Qed.

Lemma decimal_digits_value fuel n :
  0 ≤ n < 10 ^ Z.of_nat fuel → digits_value (decimal_digits fuel n) = n.
Proof.
  revert n. induction fuel as [|fuel IH]; intros n Hn; cbn [decimal_digits].
  - change (10 ^ Z.of_nat 0) with 1 in Hn. cbn. lia.
  - rewrite digits_value_snoc. pose proof (Z.div_mod n 10 ltac:(lia)).
    rewrite Nat2Z.inj_succ, Z.pow_succ_r in Hn by lia.
    destruct (Z.ltb_spec n 10).
    + rewrite (Z.mod_small n 10) by lia. cbn. lia.
    + rewrite IH; [lia|]. split; [apply Z.div_pos; lia|apply Z.div_lt_upper_bound; lia].
Qed.

Lemma decimal_nonempty fuel n : decimal_digits (S fuel) n ≠ [].
Proof. cbn [decimal_digits]. intros [_ ?]%app_eq_nil. done. Qed.


(** *** Scanning *)

Definition starts_with_digit (s : bytes) : bool :=
  match s with c :: _ => is_digit c | [] => false end.

Lemma take_while_rest p l r :
  Forall (λ x, p x = true) l → match r with c :: _ => p c | [] => false end = false →
  take_while p (l ++ r) = l ∧ skip_while p (l ++ r) = r.
Proof.
  intros Hl Hr. destruct r as [|c r].
  - rewrite app_nil_r. by rewrite take_while_all, skip_while_all.
  - by rewrite take_while_app, skip_while_app.
Qed.

Lemma is_digit_range c : is_digit c = true ↔ 48 ≤ c ≤ 57.
Proof. unfold is_digit. rewrite andb_true_iff, !Z.leb_le. lia. Qed.

Lemma not_space_digit c : is_digit c = true → is_space c = false.
Proof.
  rewrite is_digit_range. intros Hc. unfold is_space.
  rewrite (proj2 (Z.eqb_neq c 32)), (proj2 (Z.leb_gt c 13)) by lia. by rewrite andb_false_r.
Qed.

(** Digits without a sign, with a sign, and what follows them. *)
Lemma scan_digits ds rest :
  Forall (λ c, is_digit c = true) ds → ds ≠ [] → starts_with_digit rest = false →
  scan (ds ++ rest) = Some (false, ds, rest).
Proof.
  intros Hd Hne Hr. destruct (take_while_rest is_digit ds rest Hd Hr) as [Ht Hs].
  destruct ds as [|c ds]; [done|]. pose proof (Forall_inv Hd) as Hc. cbn in Hc.
  unfold scan. cbn [app skip_while]. rewrite not_space_digit by done.
  apply is_digit_range in Hc. rewrite (proj2 (Z.eqb_neq c 45)), (proj2 (Z.eqb_neq c 43)) by lia.
  cbn [app] in Ht, Hs. by rewrite Ht, Hs.
Qed.

Lemma scan_negative ds rest :
  Forall (λ c, is_digit c = true) ds → ds ≠ [] → starts_with_digit rest = false →
  scan (45 :: ds ++ rest) = Some (true, ds, rest).
Proof.
  intros Hd Hne Hr. destruct (take_while_rest is_digit ds rest Hd Hr) as [Ht Hs].
  unfold scan. cbn. rewrite Ht, Hs. by destruct ds.
Qed.

Lemma decimal_is_digits n : 0 ≤ n → Forall (λ c, is_digit c = true) (decimal n).
Proof. apply decimal_digits_are_digits. Qed.
Lemma decimal_value n : 0 ≤ n < 10 ^ 20 → digits_value (decimal n) = n.
Proof. apply (decimal_digits_value 20). Qed.
Lemma decimal_not_nil n : decimal n ≠ [].
Proof. apply (decimal_nonempty 19). Qed.

Lemma scan_decimal n rest :
  0 ≤ n → starts_with_digit rest = false → scan (decimal n ++ rest) = Some (false, decimal n, rest).
Proof. intros Hn. apply scan_digits; [by apply decimal_is_digits|apply decimal_not_nil]. Qed.
