(* ===== verification/Rounding.v ===== *)
(** * Floating point

    The arithmetic of [float] and [double] where the C code uses it: the weights of
    ketama and the chunk sizes of memcached's slab allocator.

    Rounding to nearest, ties to even, with a significand of [p] bits.  The values
    that occur are positive and far from the ends of the exponent range, so there
    are neither subnormal numbers nor infinities; a value is a rational number. *)

From S2P Require Import Prelude.
From stdpp Require Import base list.
From Stdlib Require Import ZArith QArith Qround Lia Lqa.

Local Open Scope Z_scope.

(** The exponent [e] with [2 ^ e ≤ n / d < 2 ^ (e + 1)]. *)
Definition binade (n d : Z) : Z :=
  let e := Z.log2 n - Z.log2 d in
  if d * 2 ^ Z.max 0 e <=? n * 2 ^ Z.max 0 (- e) then e else e - 1.

(** The integer nearest to [n / d]. *)
Definition nearest_even (n d : Z) : Z :=
  let q := n / d in
  let r := n mod d in
  if (2 * r <? d) || ((2 * r =? d) && Z.even q) then q else q + 1.

Definition rnd (p : Z) (x : Q) : Q :=
  let n := Qnum x in
  let d := Zpos (Qden x) in
  if n <=? 0 then 0%Q else
  let e := binade n d - (p - 1) in
  let m := nearest_even (n * 2 ^ Z.max 0 (- e)) (d * 2 ^ Z.max 0 e) in
  (inject_Z (m * 2 ^ Z.max 0 e) / inject_Z (2 ^ Z.max 0 (- e)))%Q.

Definition to_float (x : Q) : Q := rnd 24 x.
Definition to_double (x : Q) : Q := rnd 53 x.

(** ** The error of a rounding *)

Lemma binade_spec n d :
  0 < n → 0 < d →
  let e := binade n d in d * 2 ^ Z.max 0 e ≤ n * 2 ^ Z.max 0 (- e).
Proof.
  intros Hn Hd. unfold binade.
  pose proof (Z.log2_spec n Hn) as Ln. pose proof (Z.log2_spec d Hd) as Ld.
  pose proof (Z.log2_nonneg n). pose proof (Z.log2_nonneg d).
  set (a := Z.log2 n) in *. set (b := Z.log2 d) in *.
  destruct (Z.leb_spec (d * 2 ^ Z.max 0 (a - b)) (n * 2 ^ Z.max 0 (- (a - b)))) as [|_]; [done|].
  assert (d * 2 ^ Z.max 0 (a - b - 1) ≤ 2 ^ (Z.succ b + Z.max 0 (a - b - 1))) as H1.
  { rewrite Z.pow_add_r by lia. apply Z.mul_le_mono_nonneg_r; lia. }
  assert (2 ^ (a + Z.max 0 (- (a - b - 1))) ≤ n * 2 ^ Z.max 0 (- (a - b - 1))) as H2.
  { rewrite Z.pow_add_r by lia. apply Z.mul_le_mono_nonneg_r; lia. }
  assert (Z.succ b + Z.max 0 (a - b - 1) = a + Z.max 0 (- (a - b - 1))) as He by lia.
  rewrite He in H1. lia.
Qed.

Lemma nearest_even_spec n d :
  0 < d → 2 * (nearest_even n d * d) ≤ 2 * n + d ∧ 2 * n - d ≤ 2 * (nearest_even n d * d).
Proof.
  intros Hd. unfold nearest_even.
  pose proof (Z.div_mod n d ltac:(lia)) as H. pose proof (Z.mod_pos_bound n d Hd) as Hr.
  set (q := n / d) in *. set (r := n mod d) in *.
  destruct (Z.ltb_spec (2 * r) d); cbn [orb]; [nia|].
  destruct (Z.eqb_spec (2 * r) d); cbn [andb]; [|nia]. destruct (Z.even q); nia.
Qed.

(** The significand has at least [p] bits. *)
Lemma binade_scaled p n d :
  0 < n → 0 < d → 1 ≤ p →
  let e := binade n d - (p - 1) in d * 2 ^ Z.max 0 e * 2 ^ (p - 1) ≤ n * 2 ^ Z.max 0 (- e).
Proof.
  intros Hn Hd Hp e. pose proof (binade_spec n d Hn Hd) as Hb. cbv zeta in Hb.
  set (b := binade n d) in *.
  set (k := Z.max 0 (- e) - Z.max 0 (- b)). assert (0 ≤ k) by lia.
  replace (Z.max 0 (- e)) with (Z.max 0 (- b) + k) by lia.
  rewrite <- Z.mul_assoc, <- Z.pow_add_r by lia.
  replace (Z.max 0 e + (p - 1)) with (Z.max 0 b + k) by lia.
  rewrite !Z.pow_add_r, !Z.mul_assoc by lia. apply Z.mul_le_mono_nonneg_r; lia.
Qed.

(** Comparing quotients of integers. *)
Lemma Qle_quot a b c d :
  0 < b → 0 < d → a * d ≤ c * b → (inject_Z a / inject_Z b <= inject_Z c / inject_Z d)%Q.
Proof.
  intros Hb Hd H.
  assert (0 < inject_Z b)%Q by (change 0%Q with (inject_Z 0); by rewrite <- Zlt_Qlt).
  assert (0 < inject_Z d)%Q by (change 0%Q with (inject_Z 0); by rewrite <- Zlt_Qlt).
  apply Qle_shift_div_r; [done|].
  assert (inject_Z c / inject_Z d * inject_Z b == inject_Z c * inject_Z b / inject_Z d)%Q as ->
    by (field; lra).
  apply Qle_shift_div_l; [done|]. by rewrite <- !inject_Z_mult, <- Zle_Qle.
Qed.

Lemma rnd_spec p x :
  1 ≤ p → (0 < x)%Q →
  (rnd p x * inject_Z (2 ^ p) <= x * inject_Z (2 ^ p + 1))%Q ∧
  (x * inject_Z (2 ^ p - 1) <= rnd p x * inject_Z (2 ^ p))%Q.
Proof.
  intros Hp Hx. destruct x as [n d]. unfold Qlt in Hx. cbn in Hx. rewrite Z.mul_1_r in Hx.
  unfold rnd. cbn [Qnum Qden]. rewrite (proj2 (Z.leb_gt n 0)) by lia.
  pose proof (binade_scaled p n (Zpos d) ltac:(lia) ltac:(lia) Hp) as Hs. cbv zeta in *.
  set (e := binade n (Zpos d) - (p - 1)) in *.
  assert (0 < 2 ^ Z.max 0 e) as HE by (apply Z.pow_pos_nonneg; lia).
  assert (0 < 2 ^ Z.max 0 (- e)) as HF by (apply Z.pow_pos_nonneg; lia).
  assert (2 ^ p = 2 * 2 ^ (p - 1)) as Hpow by (rewrite <- Z.pow_succ_r by lia; f_equal; lia).
  assert (0 < 2 ^ (p - 1)) as HP by (apply Z.pow_pos_nonneg; lia).
  set (E := 2 ^ Z.max 0 e) in *. set (F := 2 ^ Z.max 0 (- e)) in *. set (P := 2 ^ (p - 1)) in *.
  destruct (nearest_even_spec (n * F) (Zpos d * E)) as [Hup Hlo]; [nia|].
  set (m := nearest_even _ _) in *.
  rewrite (Qmake_Qdiv n d), Hpow.
  assert (∀ a b c : Z, 0 < b → (inject_Z a / inject_Z b * inject_Z c == inject_Z (a * c) / inject_Z b)%Q) as Hq.
  { intros a b c Hb. rewrite inject_Z_mult. field. change 0%Q with (inject_Z 0).
    rewrite inject_Z_injective. lia. }
  rewrite !Hq by lia.
  apply (Z.mul_le_mono_nonneg_r _ _ P) in Hup, Hlo; [|lia..].
  split; apply Qle_quot; lia.
Qed.

Lemma inject_Z_pos z : 0 < z → (0 < inject_Z z)%Q.
Proof. intros. change 0%Q with (inject_Z 0). by rewrite <- Zlt_Qlt. Qed.

Lemma float_bounds x :
  (0 < x)%Q →
  (0 < to_float x)%Q ∧ (to_float x <= x * (16777217 # 16777216))%Q ∧
  (x * (16777215 # 16777216) <= to_float x)%Q.
Proof.
  intros Hx. destruct (rnd_spec 24 x ltac:(done) Hx) as [H1 H2].
  change (inject_Z (2 ^ 24)) with 16777216%Q in *.
  change (inject_Z (2 ^ 24 + 1)) with 16777217%Q in *.
  change (inject_Z (2 ^ 24 - 1)) with 16777215%Q in *. unfold to_float. repeat split; lra.
Qed.

Lemma double_bounds x :
  (0 < x)%Q →
  (0 < to_double x)%Q ∧ (to_double x <= x * (9007199254740993 # 9007199254740992))%Q.
Proof.
  intros Hx. destruct (rnd_spec 53 x ltac:(done) Hx) as [H1 H2].
  change (inject_Z (2 ^ 53)) with 9007199254740992%Q in *.
  change (inject_Z (2 ^ 53 + 1)) with 9007199254740993%Q in *.
  change (inject_Z (2 ^ 53 - 1)) with 9007199254740991%Q in *. unfold to_double. split; lra.
Qed.

(** The quotient of two rounded numbers. *)
Lemma quotient_bound m M :
  (0 < m)%Q → (0 < M)%Q →
  (0 < to_float m / to_float M)%Q ∧
  (to_float m / to_float M <= m / M * (16777217 # 16777215))%Q.
Proof.
  intros Hm HM. destruct (float_bounds m Hm) as (Hm0 & Hm1 & _).
  destruct (float_bounds M HM) as (HM0 & _ & HM2).
  split; [apply Qlt_shift_div_l; lra|].
  apply Qle_shift_div_r; [done|].
  assert (0 < m / M)%Q by (apply Qlt_shift_div_l; lra).
  assert (m == m / M * M)%Q as He by (field; lra).
  assert (m / M * (M * (16777215 # 16777216)) <= m / M * to_float M)%Q as Hx.
  { apply Qmult_le_l; done. }
  lra.
Qed.

(** Rounding does not go below an integer that has a representation. *)
Lemma nearest_even_ge k n d : 0 < d → k * d ≤ n → k ≤ nearest_even n d.
Proof.
  intros Hd Hk. unfold nearest_even.
  assert (k ≤ n / d) by (apply Z.div_le_lower_bound; lia).
  destruct (_ || _); lia.
Qed.

Lemma rnd_ge_integer p x s :
  1 ≤ p → 0 < s < 2 ^ p → (inject_Z s <= x)%Q → (inject_Z s <= rnd p x)%Q.
Proof.
  intros Hp Hs Hx. destruct x as [n d]. unfold Qle in Hx. cbn in Hx. rewrite Z.mul_1_r in Hx.
  assert (0 < n) as Hn by nia. unfold rnd. cbn [Qnum Qden]. rewrite (proj2 (Z.leb_gt n 0)) by lia.
  pose proof (binade_scaled p n (Zpos d) ltac:(lia) ltac:(lia) Hp) as Hsc. cbv zeta in *.
  set (e := binade n (Zpos d) - (p - 1)) in *.
  assert (0 < 2 ^ Z.max 0 e) as HE by (apply Z.pow_pos_nonneg; lia).
  assert (0 < 2 ^ Z.max 0 (- e)) as HF by (apply Z.pow_pos_nonneg; lia).
  assert (inject_Z s == inject_Z s / inject_Z 1)%Q as -> by (change (inject_Z 1) with 1%Q; field).
  apply Qle_quot; [done|done|]. rewrite Z.mul_1_r.
  destruct (Z.le_gt_cases e 0) as [He|He].
  - rewrite (Z.max_l 0 e) in * by lia. rewrite Z.pow_0_r, !Z.mul_1_r in *.
    apply nearest_even_ge; [lia|]. nia.
  - rewrite (Z.max_l 0 (- e)) in * by lia. rewrite Z.pow_0_r, !Z.mul_1_r in *.
    assert (2 ^ (p - 1) ≤ nearest_even n (Zpos d * 2 ^ Z.max 0 e)) as Hm by (apply nearest_even_ge; lia).
    assert (2 ≤ 2 ^ Z.max 0 e) as H2 by (change 2 with (2 ^ 1) at 1; apply Z.pow_le_mono_r; lia).
    assert (2 ^ p = 2 * 2 ^ (p - 1)) as Hpow by (rewrite <- Z.pow_succ_r by lia; f_equal; lia).
    nia.
Qed.
