(* ===== verification/Md5.v ===== *)
(** * MD5

    [ketama/libketama/md5.{h,c}]: the digest from which ketama takes the points of
    its continuum and the hashes of keys. *)

From S2P Require Import Prelude Bytes.
From stdpp Require Import base list.
From Stdlib Require Import ZArith Lia.

Local Open Scope Z_scope.

(** ** The compression function *)

Definition T_MASK : Z := 2 ^ 32 - 1.
Definition T_MASK_xor (z : Z) : Z := Z.lxor T_MASK z.

(** The constants [T1] to [T64]. *)
Definition T_table : list Z :=
  [T_MASK_xor 0x28955b87; T_MASK_xor 0x173848a9; 0x242070db; T_MASK_xor 0x3e423111;
   T_MASK_xor 0x0a83f050; 0x4787c62a; T_MASK_xor 0x57cfb9ec; T_MASK_xor 0x02b96afe;
   0x698098d8; T_MASK_xor 0x74bb0850; T_MASK_xor 0x0000a44e; T_MASK_xor 0x76a32841;
   0x6b901122; T_MASK_xor 0x02678e6c; T_MASK_xor 0x5986bc71; 0x49b40821;
   T_MASK_xor 0x09e1da9d; T_MASK_xor 0x3fbf4cbf; 0x265e5a51; T_MASK_xor 0x16493855;
   T_MASK_xor 0x29d0efa2; 0x02441453; T_MASK_xor 0x275e197e; T_MASK_xor 0x182c0437;
   0x21e1cde6; T_MASK_xor 0x3cc8f829; T_MASK_xor 0x0b2af278; 0x455a14ed;
   T_MASK_xor 0x561c16fa; T_MASK_xor 0x03105c07; 0x676f02d9; T_MASK_xor 0x72d5b375;
   T_MASK_xor 0x0005c6bd; T_MASK_xor 0x788e097e; 0x6d9d6122; T_MASK_xor 0x021ac7f3;
   T_MASK_xor 0x5b4115bb; 0x4bdecfa9; T_MASK_xor 0x0944b49f; T_MASK_xor 0x4140438f;
   0x289b7ec6; T_MASK_xor 0x155ed805; T_MASK_xor 0x2b10cf7a; 0x04881d05;
   T_MASK_xor 0x262b2fc6; T_MASK_xor 0x1924661a; 0x1fa27cf8; T_MASK_xor 0x3b53a99a;
   T_MASK_xor 0x0bd6ddbb; 0x432aff97; T_MASK_xor 0x546bdc58; T_MASK_xor 0x036c5fc6;
   0x655b59c3; T_MASK_xor 0x70f3336d; T_MASK_xor 0x00100b82; T_MASK_xor 0x7a7ba22e;
   0x6fa87e4f; T_MASK_xor 0x01d3191f; T_MASK_xor 0x5cfebceb; 0x4e0811a1;
   T_MASK_xor 0x08ac817d; T_MASK_xor 0x42c50dca; 0x2ad7d2bb; T_MASK_xor 0x14792c6e].
Definition T (i : nat) : Z := nth (i - 1) T_table 0.

(** The complement of a 32-bit word. *)
Definition cpl (x : Z) : Z := Z.lxor T_MASK x.

Definition ROTATE_LEFT (x n : Z) : Z := Z.lor (u32 (Z.shiftl x n)) (Z.shiftr x (32 - n)).

Definition md5_F (x y z : Z) : Z := Z.lor (Z.land x y) (Z.land (cpl x) z).
Definition md5_G (x y z : Z) : Z := Z.lor (Z.land x z) (Z.land y (cpl z)).
Definition md5_H (x y z : Z) : Z := Z.lxor (Z.lxor x y) z.
Definition md5_I (x y z : Z) : Z := Z.lxor y (Z.lor x (cpl z)).

Record regs := mkRegs { ra : Z; rb : Z; rc : Z; rd : Z }.

(** [SET(a, b, c, d, k, s, Ti)].  The next [SET] of a round has the registers in
    the order [d, a, b, c], so the result is rotated; after four of them the
    registers are back in their places. *)
Definition SET (f : Z → Z → Z → Z) (X : list Z) (r : regs) (op : nat * Z * Z) : regs :=
  let '(k, s, Ti) := op in
  let t := u32 (ra r + f (rb r) (rc r) (rd r) + nth k X 0 + Ti) in
  mkRegs (rd r) (u32 (ROTATE_LEFT t s + rb r)) (rb r) (rc r).

Definition round1 : list (nat * Z * Z) :=
  [ (0%nat, 7, T 1); (1%nat, 12, T 2); (2%nat, 17, T 3); (3%nat, 22, T 4);
    (4%nat, 7, T 5); (5%nat, 12, T 6); (6%nat, 17, T 7); (7%nat, 22, T 8);
    (8%nat, 7, T 9); (9%nat, 12, T 10); (10%nat, 17, T 11); (11%nat, 22, T 12);
    (12%nat, 7, T 13); (13%nat, 12, T 14); (14%nat, 17, T 15); (15%nat, 22, T 16) ].
Definition round2 : list (nat * Z * Z) :=
  [ (1%nat, 5, T 17); (6%nat, 9, T 18); (11%nat, 14, T 19); (0%nat, 20, T 20);
    (5%nat, 5, T 21); (10%nat, 9, T 22); (15%nat, 14, T 23); (4%nat, 20, T 24);
    (9%nat, 5, T 25); (14%nat, 9, T 26); (3%nat, 14, T 27); (8%nat, 20, T 28);
    (13%nat, 5, T 29); (2%nat, 9, T 30); (7%nat, 14, T 31); (12%nat, 20, T 32) ].
Definition round3 : list (nat * Z * Z) :=
  [ (5%nat, 4, T 33); (8%nat, 11, T 34); (11%nat, 16, T 35); (14%nat, 23, T 36);
    (1%nat, 4, T 37); (4%nat, 11, T 38); (7%nat, 16, T 39); (10%nat, 23, T 40);
    (13%nat, 4, T 41); (0%nat, 11, T 42); (3%nat, 16, T 43); (6%nat, 23, T 44);
    (9%nat, 4, T 45); (12%nat, 11, T 46); (15%nat, 16, T 47); (2%nat, 23, T 48) ].
Definition round4 : list (nat * Z * Z) :=
  [ (0%nat, 6, T 49); (7%nat, 10, T 50); (14%nat, 15, T 51); (5%nat, 21, T 52);
    (12%nat, 6, T 53); (3%nat, 10, T 54); (10%nat, 15, T 55); (1%nat, 21, T 56);
    (8%nat, 6, T 57); (15%nat, 10, T 58); (6%nat, 15, T 59); (13%nat, 21, T 60);
    (4%nat, 6, T 61); (11%nat, 10, T 62); (2%nat, 15, T 63); (9%nat, 21, T 64) ].

(** The sixteen little-endian words of a block. *)
Fixpoint words (n : nat) (data : bytes) : list Z :=
  match n with
  | O => []
  | S n' => of_be (reverse (ztake 4 data)) :: words n' (zdrop 4 data)
  end.

Definition md5_process (abcd : regs) (data : bytes) : regs :=
  let X := words 16 data in
  let r := foldl (SET md5_F X) abcd round1 in
  let r := foldl (SET md5_G X) r round2 in
  let r := foldl (SET md5_H X) r round3 in
  let r := foldl (SET md5_I X) r round4 in
  mkRegs (u32 (ra abcd + ra r)) (u32 (rb abcd + rb r)) (u32 (rc abcd + rc r)) (u32 (rd abcd + rd r)).

(** ** The state *)

Record md5_state_t := mkMd5 { count0 : Z; count1 : Z; abcd : regs; md5_buf : bytes }.

Definition md5_start : regs :=
  mkRegs 0x67452301 (T_MASK_xor 0x10325476) (T_MASK_xor 0x67452301) 0x10325476.

(** [md5_init] leaves [buf] as it is. *)
Definition md5_init (buf : bytes) : md5_state_t := mkMd5 0 0 md5_start buf.

(** The loop over the full blocks; the rest is less than a block. *)
Fixpoint process_blocks (fuel : nat) (r : regs) (p : bytes) : regs * bytes :=
  match fuel with
  | O => (r, p)
  | S fuel' =>
      if 64 <=? zlen p then process_blocks fuel' (md5_process r (ztake 64 p)) (zdrop 64 p)
      else (r, p)
  end.

Definition md5_append (data : bytes) (s : md5_state_t) : md5_state_t :=
  let nbytes := zlen data in
  let offset := Z.land (Z.shiftr (count0 s) 3) 63 in
  let nbits := u32 (Z.shiftl nbytes 3) in
  if nbytes <=? 0 then s else
  let c1 := u32 (count1 s + Z.shiftr nbytes 29) in
  let c0 := u32 (count0 s + nbits) in
  let c1 := if c0 <? nbits then u32 (c1 + 1) else c1 in
  let full r buf p :=
    let (r', rest) := process_blocks (length p) r p in
    mkMd5 c0 c1 r' (if zlen rest =? 0 then buf else memcpy buf 0 rest) in
  if negb (offset =? 0) then
    let copy := if 64 <? offset + nbytes then 64 - offset else nbytes in
    let buf := memcpy (md5_buf s) offset (ztake copy data) in
    if offset + copy <? 64 then mkMd5 c0 c1 (abcd s) buf
    else full (md5_process (abcd s) buf) buf (zdrop copy data)
  else full (abcd s) (md5_buf s) data.

Definition pad : bytes := 0x80 :: replicate 63 0.

(** The bytes of a word, least significant first. *)
Definition word_bytes (z : Z) : bytes := (λ i, u8 (Z.shiftr z (8 * i))) <$> [0; 1; 2; 3].

Definition md5_finish (s : md5_state_t) : bytes :=
  let data := word_bytes (count0 s) ++ word_bytes (count1 s) in
  let s := md5_append (ztake (Z.land (55 - Z.shiftr (count0 s) 3) 63 + 1) pad) s in
  let s := md5_append data s in
  word_bytes (ra (abcd s)) ++ word_bytes (rb (abcd s)) ++ word_bytes (rc (abcd s)) ++
  word_bytes (rd (abcd s)).

(** The digest of RFC 1321 for the message "abc". *)
Example md5_abc :
  md5_finish (md5_append [97; 98; 99] (md5_init (replicate 64 0))) =
    [0x90; 0x01; 0x50; 0x98; 0x3c; 0xd2; 0x4f; 0xb0; 0xd6; 0x96; 0x3f; 0x7d; 0x28; 0xe1; 0x7f; 0x72].
Proof. vm_compute. reflexivity. Qed.

(** ** The digest of a message

    The algorithm of RFC 1321 on the whole message: it is padded to a multiple of
    64 bytes with a one bit, zeros and its length in bits, and the blocks are
    absorbed in order. *)
Fixpoint absorb (n : nat) (r : regs) (m : bytes) : regs :=
  match n with
  | O => r
  | S n' => absorb n' (md5_process r (ztake 64 m)) (zdrop 64 m)
  end.

Definition full_blocks (m : bytes) : nat := Z.to_nat (zlen m / 64).
Definition tail (m : bytes) : bytes := zdrop (64 * (zlen m / 64)) m.

Definition padded (m : bytes) : bytes :=
  m ++ ztake ((55 - zlen m) mod 64 + 1) pad ++
  word_bytes (8 * zlen m mod 2 ^ 32) ++ word_bytes (8 * zlen m / 2 ^ 32 mod 2 ^ 32).

Definition md5_ref (m : bytes) : bytes :=
  let r := absorb (full_blocks (padded m)) md5_start (padded m) in
  word_bytes (ra r) ++ word_bytes (rb r) ++ word_bytes (rc r) ++ word_bytes (rd r).

Lemma absorb_app n k r a b :
  zlen a = 64 * Z.of_nat n → absorb (n + k) r (a ++ b) = absorb k (absorb n r a) b.
Proof.
  revert r a. induction n as [|n IH]; intros r a Ha.
  - by rewrite (zlen_zero_nil a) by lia.
  - cbn [Nat.add absorb]. rewrite ztake_app_le, zdrop_app_le by lia. apply IH.
    rewrite zlen_zdrop; lia.
Qed.

(** Only the full blocks are looked at. *)
Lemma absorb_prefix n r a b : zlen a = 64 * Z.of_nat n → absorb n r (a ++ b) = absorb n r a.
Proof. intros Ha. rewrite <- (Nat.add_0_r n) at 1. by rewrite absorb_app. Qed.

Lemma process_blocks_spec fuel r p :
  zlen p ≤ Z.of_nat fuel → process_blocks fuel r p = (absorb (full_blocks p) r p, tail p).
Proof.
  revert r p. induction fuel as [|fuel IH]; intros r p Hf; cbn [process_blocks].
  - by rewrite (zlen_zero_nil p) by (pose proof (zlen_nonneg p); lia).
  - unfold full_blocks, tail. pose proof (zlen_nonneg p).
    destruct (Z.leb_spec 64 (zlen p)) as [Hle|Hlt].
    + assert (zlen (zdrop 64 p) = zlen p - 64) as Hd by (apply zlen_zdrop; lia).
      rewrite IH by lia. unfold full_blocks, tail. rewrite Hd.
      assert (zlen p / 64 = (zlen p - 64) / 64 + 1) as Hq
        by (rewrite <- Z.div_add by lia; f_equal; lia).
      assert (0 ≤ (zlen p - 64) / 64) by (apply Z.div_pos; lia).
      rewrite Hq, Z2Nat.inj_add, Nat.add_comm by lia. cbn [Nat.add absorb Z.to_nat Pos.to_nat].
      f_equal. rewrite zdrop_zdrop by lia. f_equal. lia.
    + by rewrite Z.div_small by lia.
Qed.

Lemma tail_length m : zlen (tail m) = zlen m mod 64.
Proof.
  unfold tail. pose proof (zlen_nonneg m). pose proof (Z.mul_div_le (zlen m) 64 ltac:(lia)).
  rewrite zlen_zdrop by (split; [apply Z.mul_nonneg_nonneg; [lia|apply Z.div_pos; lia]|lia]).
  rewrite Z.mod_eq; lia.
Qed.

Lemma message_split m : m = ztake (64 * (zlen m / 64)) m ++ tail m.
Proof. symmetry. apply ztake_zdrop. Qed.

Lemma zlen_blocks m : zlen (ztake (64 * (zlen m / 64)) m) = 64 * Z.of_nat (full_blocks m).
Proof.
  unfold full_blocks. pose proof (zlen_nonneg m). pose proof (Z.mul_div_le (zlen m) 64 ltac:(lia)).
  assert (0 ≤ zlen m / 64) by (apply Z.div_pos; lia).
  rewrite zlen_ztake, Z2Nat.id; lia.
Qed.

(** Absorbing goes on where it stopped. *)
Lemma absorb_continue r m data :
  absorb (full_blocks (m ++ data)) r (m ++ data) =
  absorb (full_blocks (tail m ++ data)) (absorb (full_blocks m) r m) (tail m ++ data).
Proof.
  rewrite (message_split m) at 2. rewrite <- app_assoc.
  assert (full_blocks (m ++ data) = full_blocks m + full_blocks (tail m ++ data))%nat as ->.
  { unfold full_blocks. rewrite !zlen_app, tail_length. pose proof (zlen_nonneg m).
    pose proof (zlen_nonneg data). assert (0 ≤ zlen m / 64) by (apply Z.div_pos; lia).
    pose proof (Z.mod_pos_bound (zlen m) 64 ltac:(lia)).
    assert (0 ≤ (zlen m mod 64 + zlen data) / 64) by (apply Z.div_pos; lia).
    rewrite <- Z2Nat.inj_add by lia. f_equal. rewrite <- Z.div_add_l by lia. f_equal.
    rewrite Z.mod_eq by lia. lia. }
  rewrite absorb_app by apply zlen_blocks. f_equal.
  pose proof (absorb_prefix (full_blocks m) r _ (tail m) (zlen_blocks m)) as Hp.
  rewrite <- message_split in Hp. by rewrite Hp.
Qed.

Lemma tail_continue m data : tail (m ++ data) = tail (tail m ++ data).
Proof.
  transitivity (zdrop (64 * (zlen (m ++ data) / 64)) (ztake (64 * (zlen m / 64)) m ++ tail m ++ data)).
  { unfold tail at 1. by rewrite app_assoc, <- message_split. }
  unfold tail at 2. pose proof (zlen_nonneg m). pose proof (zlen_nonneg data).
  pose proof (zlen_blocks m) as Hb. unfold full_blocks in Hb.
  assert (0 ≤ zlen m / 64) by (apply Z.div_pos; lia). rewrite Z2Nat.id in Hb by lia.
  pose proof (Z.mod_pos_bound (zlen m) 64 ltac:(lia)).
  assert (0 ≤ (zlen m mod 64 + zlen data) / 64) by (apply Z.div_pos; lia).
  rewrite !zlen_app, tail_length.
  assert ((zlen m + zlen data) / 64 = zlen m / 64 + (zlen m mod 64 + zlen data) / 64) as ->.
  { rewrite <- Z.div_add_l by lia. f_equal. rewrite Z.mod_eq by lia. lia. }
  rewrite zdrop_app_ge by lia. f_equal. lia.
Qed.

(** ** The incremental digest computes the digest of the message *)

(** What the state says about the bytes appended so far. *)
Record md5_inv (m : bytes) (s : md5_state_t) : Prop := {
  inv_count0 : count0 s = 8 * zlen m mod 2 ^ 32;
  inv_count1 : count1 s = 8 * zlen m / 2 ^ 32 mod 2 ^ 32;
  inv_abcd : abcd s = absorb (full_blocks m) md5_start m;
  inv_buf_size : zlen (md5_buf s) = 64;
  inv_buf : ztake (zlen m mod 64) (md5_buf s) = tail m
}.

Lemma md5_init_inv buf : zlen buf = 64 → md5_inv [] (md5_init buf).
Proof. by split. Qed.

Lemma offset_spec L : 0 ≤ L → Z.land (Z.shiftr (8 * L mod 2 ^ 32) 3) 63 = L mod 64.
Proof.
  intros HL. change 63 with (Z.ones 6). rewrite Z.land_ones by lia. rewrite Z.shiftr_div_pow2 by lia.
  change (2 ^ 32) with (8 * 2 ^ 29). change (2 ^ 3) with 8.
  rewrite Z.mul_mod_distr_l by lia. rewrite Z.mul_comm, Z.div_mul by lia.
  apply Z.mod_mod_divide. by exists (2 ^ 23).
Qed.

(** The two words of the length in bits, with the carry between them. *)
Lemma count_spec L n :
  0 ≤ L → 0 < n < 2 ^ 28 →
  let nbits := u32 (Z.shiftl n 3) in
  let c0 := u32 (8 * L mod 2 ^ 32 + nbits) in
  c0 = 8 * (L + n) mod 2 ^ 32 ∧
  (if c0 <? nbits then u32 (u32 (8 * L / 2 ^ 32 mod 2 ^ 32 + Z.shiftr n 29) + 1)
   else u32 (8 * L / 2 ^ 32 mod 2 ^ 32 + Z.shiftr n 29)) = 8 * (L + n) / 2 ^ 32 mod 2 ^ 32.
Proof.
  intros HL Hn nbits c0. unfold u32, wrapu in *.
  assert (nbits = 8 * n) as Hb.
  { unfold nbits. rewrite Z.shiftl_mul_pow2, Z.mod_small; lia. }
  assert (Z.shiftr n 29 = 0) as -> by (rewrite Z.shiftr_div_pow2, Z.div_small; lia).
  subst c0. rewrite Hb. clear nbits Hb.
  pose proof (Z.div_mod (8 * L) (2 ^ 32) ltac:(lia)) as Hd.
  pose proof (Z.mod_pos_bound (8 * L) (2 ^ 32) ltac:(lia)) as Hm.
  set (q := 8 * L / 2 ^ 32) in *. set (r := 8 * L mod 2 ^ 32) in *.
  assert (8 * (L + n) = (r + 8 * n) + q * 2 ^ 32) as -> by lia.
  rewrite Z.mod_add, Z.div_add by lia. split; [done|].
  rewrite (Z.add_comm _ q), Z.add_0_r, Z.mod_mod by lia.
  destruct (Z.lt_ge_cases (r + 8 * n) (2 ^ 32)) as [Hs|Hs].
  - rewrite Z.mod_small, Z.div_small by lia. rewrite (proj2 (Z.ltb_ge _ _)) by lia.
    by rewrite Z.add_0_r.
  - assert ((r + 8 * n) mod 2 ^ 32 = r + 8 * n - 2 ^ 32) as ->.
    { rewrite <- (Z.mod_add _ (-1)) by lia. rewrite Z.mod_small; lia. }
    assert ((r + 8 * n) / 2 ^ 32 = 1) as ->.
    { symmetry. apply Z.div_unique with (r + 8 * n - 2 ^ 32); lia. }
    rewrite (proj2 (Z.ltb_lt _ _)) by lia. by rewrite Zplus_mod_idemp_l.
Qed.

(** After a whole number of blocks, the loop over the blocks and the final copy. *)
Lemma blocks_inv m p buf r' rest :
  zlen m mod 64 = 0 → zlen buf = 64 →
  process_blocks (length p) (absorb (full_blocks m) md5_start m) p = (r', rest) →
  let buf' := if zlen rest =? 0 then buf else memcpy buf 0 rest in
  r' = absorb (full_blocks (m ++ p)) md5_start (m ++ p) ∧
  zlen buf' = 64 ∧ ztake (zlen (m ++ p) mod 64) buf' = tail (m ++ p).
Proof.
  intros Hm Hbuf. rewrite process_blocks_spec by done. intros [= <- <-].
  assert (tail m = []) as Ht by (apply zlen_zero_nil; by rewrite tail_length).
  rewrite absorb_continue, tail_continue, <- tail_length, tail_continue, Ht. cbn [app].
  pose proof (tail_length p). pose proof (Z.mod_pos_bound (zlen p) 64 ltac:(lia)).
  split; [done|]. destruct (Z.eqb_spec (zlen (tail p)) 0) as [Hz|Hz].
  - rewrite Hz. by rewrite (zlen_zero_nil (tail p)).
  - rewrite memcpy_prefix_0, zlen_memcpy; lia || done.
Qed.

(** Bytes that do not complete the block are kept ... *)
Lemma fill_short r m data :
  zlen m mod 64 + zlen data < 64 →
  absorb (full_blocks (m ++ data)) r (m ++ data) = absorb (full_blocks m) r m ∧
  tail (m ++ data) = tail m ++ data.
Proof.
  intros Hs. assert (0 ≤ zlen (tail m ++ data) < 64).
  { rewrite zlen_app, tail_length. pose proof (Z.mod_pos_bound (zlen m) 64 ltac:(lia)).
    pose proof (zlen_nonneg data). lia. }
  rewrite absorb_continue, tail_continue. generalize dependent (tail m ++ data). intros t Hl.
  unfold full_blocks at 1, tail. by rewrite Z.div_small.
Qed.

(** ... and bytes that complete it are processed with those kept. *)
Lemma fill_block r m data :
  zlen m mod 64 + zlen data = 64 →
  absorb (full_blocks (m ++ data)) r (m ++ data) =
    md5_process (absorb (full_blocks m) r m) (tail m ++ data) ∧
  zlen (m ++ data) mod 64 = 0.
Proof.
  intros Hs. assert (zlen (tail m ++ data) = 64) as Hl by (rewrite zlen_app, tail_length; lia).
  rewrite absorb_continue. unfold full_blocks at 1. rewrite Hl. split.
  - change (Z.to_nat (64 / 64)) with 1%nat. cbn [absorb]. by rewrite ztake_ge by lia.
  - rewrite <- tail_length, tail_continue, tail_length. by rewrite Hl.
Qed.

Lemma md5_append_inv m s data :
  md5_inv m s → zlen data < 2 ^ 28 → md5_inv (m ++ data) (md5_append data s).
Proof.
  intros [H0 H1 Ha Hbuf Ht] Hlen. unfold md5_append.
  pose proof (zlen_nonneg m) as Hm. pose proof (zlen_nonneg data).
  destruct (Z.leb_spec (zlen data) 0).
  { rewrite (zlen_zero_nil data) by lia. by rewrite app_nil_r. }
  rewrite H0, H1. destruct (count_spec (zlen m) (zlen data)) as [-> ->]; [lia..|].
  rewrite <- zlen_app, offset_spec by lia.
  pose proof (Z.mod_pos_bound (zlen m) 64 ltac:(lia)) as Hoff.
  destruct (Z.eqb_spec (zlen m mod 64) 0) as [He|He]; cbn [negb].
  { destruct (process_blocks _ _ data) as [r' rest] eqn:Hpb. rewrite Ha in Hpb.
    destruct (blocks_inv m data (md5_buf s) r' rest) as (-> & ? & ?); done. }
  set (copy := if 64 <? _ then _ else _).
  assert (copy = Z.min (64 - zlen m mod 64) (zlen data)) as Hc.
  { subst copy. destruct (Z.ltb_spec 64 (zlen m mod 64 + zlen data)); lia. }
  assert (zlen (ztake copy data) = copy) as Hzc by (apply zlen_ztake; lia).
  set (buf := memcpy _ _ _).
  assert (zlen buf = 64) as Hb by (subst buf; rewrite zlen_memcpy; lia).
  assert (ztake (zlen m mod 64 + copy) buf = tail m ++ ztake copy data) as Hp.
  { subst buf. rewrite <- Hzc at 1. rewrite memcpy_prefix, Ht; [done|lia]. }
  destruct (Z.ltb_spec (zlen m mod 64 + copy) 64) as [Hlt|Hge].
  - rewrite Hc, Z.min_r, (ztake_ge _ data) in Hp by lia.
    destruct (fill_short md5_start m data) as [Hf1 Hf2]; [lia|].
    split; cbn [count0 count1 abcd md5_buf]; [done|done|congruence|done|].
    by rewrite <- tail_length, Hf2, zlen_app, tail_length.
  - rewrite (ztake_ge _ buf) in Hp by lia.
    destruct (fill_block md5_start m (ztake copy data)) as [Hf1 Hf2]; [lia|].
    rewrite Hp, Ha, <- Hf1, <- Hp.
    destruct (process_blocks _ _ _) as [r' rest] eqn:Hpb.
    apply (blocks_inv _ _ buf) in Hpb as (-> & ? & ?); [|done..].
    rewrite <- (app_assoc m) in *. rewrite ztake_zdrop in *. done.
Qed.

Lemma pad_spec L :
  0 ≤ L → Z.land (55 - Z.shiftr (8 * L mod 2 ^ 32) 3) 63 = (55 - L) mod 64.
Proof.
  intros HL. pose proof (offset_spec L HL) as Ho. change 63 with (Z.ones 6) in *.
  rewrite Z.land_ones in * by lia. change (2 ^ 6) with 64 in *.
  by rewrite Zminus_mod, Ho, <- Zminus_mod.
Qed.

Lemma md5_finish_inv m s : md5_inv m s → md5_finish s = md5_ref m.
Proof.
  intros Hi. unfold md5_finish, md5_ref. pose proof (zlen_nonneg m).
  rewrite (inv_count0 _ _ Hi), (inv_count1 _ _ Hi), pad_spec by lia.
  set (p := ztake _ pad). set (len := word_bytes _ ++ word_bytes _).
  assert (md5_inv (padded m) (md5_append len (md5_append p s))) as Hi'.
  { unfold padded. fold p len. rewrite app_assoc. apply md5_append_inv; [|done].
    apply md5_append_inv; [done|]. subst p.
    pose proof (Z.mod_pos_bound (55 - zlen m) 64 ltac:(lia)).
    rewrite zlen_ztake_min by lia. lia. }
  by rewrite (inv_abcd _ _ Hi').
Qed.

Lemma md5_appends_inv chunks m s :
  md5_inv m s → Forall (λ c, zlen c < 2 ^ 28) chunks →
  md5_inv (m ++ concat chunks) (foldl (λ s c, md5_append c s) s chunks).
Proof.
  intros Hi Hc. revert m s Hi. induction Hc as [|c chunks Hl _ IH]; intros m s Hi.
  - by rewrite app_nil_r.
  - cbn [concat foldl]. rewrite app_assoc. by apply IH, md5_append_inv.
Qed.

(** However a message is cut into pieces, calling [md5_append] on the pieces in
    turn and then [md5_finish] gives the digest of the whole message: the carries of
    the bit count, the partial block kept between calls and the padding agree with
    the definition of the digest on the padded message.  A piece is shorter than
    [2 ^ 28] bytes, so that [nbytes << 3] fits an [int]; the initial contents of the
    buffer do not matter. *)
Theorem md5_incremental (buf : bytes) (chunks : list bytes)
  (Hbuf : zlen buf = 64) (Hchunks : Forall (λ c, zlen c < 2 ^ 28) chunks) :
  md5_finish (foldl (λ s c, md5_append c s) (md5_init buf) chunks) = md5_ref (concat chunks).
Proof. apply md5_finish_inv. by apply (md5_appends_inv chunks [] _ (md5_init_inv buf Hbuf)). Qed.

(** A message of 70 bytes in pieces of 60, 0 and 10 bytes. *)
Example md5_incremental_witness :
  let a := replicate 60 97 in
  let b := replicate 10 98 in
  md5_finish (md5_append b (md5_append [] (md5_append a (md5_init (replicate 64 7))))) =
    md5_ref (a ++ b).
Proof.
  intros a b. pose proof (md5_incremental (replicate 64 7) [a; []; b] eq_refl) as H.
  cbn [foldl concat app] in H. rewrite app_nil_r in H. apply H. repeat constructor.
Defined.
