(* ===== verification/Ketama.v ===== *)
(** * ketama

    [ketama/libketama/ketama.{h,c}]: the consistent hashing library.  A file lists
    servers with the memory each of them has; every server gets points on a circle
    in proportion to its memory; the sorted points are published in a segment of
    shared memory, and a key belongs to the server whose point follows its hash. *)

From S2P Require Import Prelude Bytes CStrings Rounding Md5.
From stdpp Require Import base list sorting.
From Stdlib Require Import ZArith QArith Qround Lia.

Local Open Scope Z_scope.

(** ** Points and servers *)

Record mcs := mkMcs { point : Z; ip : bytes }.

(** [addr] is the string in the array of 22 bytes. *)
Record serverinfo := mkServerinfo { addr : bytes; memory : Z }.

(** A string of C without its terminating zero. *)
Definition ketama_md5_digest (inString : bytes) : bytes :=
  md5_finish (md5_append inString (md5_init (replicate 64 0))).

(** The [h]-th group of four bytes of a digest. *)
Definition digest_point (digest : bytes) (h : nat) : Z :=
  let d i := nth (i + h * 4) digest 0 in
  u32 (Z.lor (Z.lor (Z.lor (Z.shiftl (d 3%nat) 24) (Z.shiftl (d 2%nat) 16)) (Z.shiftl (d 1%nat) 8)) (d 0%nat)).

Definition ketama_hashi (inString : bytes) : Z := digest_point (ketama_md5_digest inString) 0.

Definition ketama_compare (a b : mcs) : Z :=
  if point a <? point b then -1 else if point b <? point a then 1 else 0.

(** ** The search *)

(** One round of the loop of [ketama_get_server]: the index of the answer or the
    next values of [lowp] and [highp]. *)
Definition search_round (points : list mcs) (numpoints h lowp highp : Z) : result (Z + Z * Z) :=
  let midp := Z.quot (lowp + highp) 2 in
  if midp =? numpoints then Ok (inl 0) else
  match points !! Z.to_nat midp with
  | None => Fail OutOfBounds
  | Some mid =>
      let midval := point mid in
      let midval1 := if midp =? 0 then Some 0 else point <$> points !! Z.to_nat (midp - 1) in
      match midval1 with
      | None => Fail OutOfBounds
      | Some midval1 =>
          if (h <=? midval) && (midval1 <? h) then Ok (inl midp)
          else
            let lowp' := if midval <? h then midp + 1 else lowp in
            let highp' := if midval <? h then highp else midp - 1 in
            if highp' <? lowp' then Ok (inl 0) else Ok (inr (lowp', highp'))
      end
  end.

Fixpoint search (fuel : nat) (points : list mcs) (numpoints h lowp highp : Z) : result Z :=
  match fuel with
  | O => Fail OutOfFuel
  | S fuel' =>
      let* r := search_round points numpoints h lowp highp in
      match r with
      | inl i => Ok i
      | inr (lowp', highp') => search fuel' points numpoints h lowp' highp'
      end
  end.

(** [points] is what the shared memory holds at [cont->array]; the pointer that is
    returned is given as an index. *)
Definition ketama_get_server (key : bytes) (numpoints : Z) (points : list mcs) : result Z :=
  search (S (S (Z.to_nat numpoints))) points numpoints (ketama_hashi key) 0 numpoints.

(** ** Server definitions *)

Inductive kmsg :=
| UnableToFindDelimiter
| InvalidMemoryValue
| AtLine (lineno : Z)
| FileDoesNotExist
| NoValidServers
| CannotOpenShm
| InvalidFilename
| FailedShmData.

Definition is_delim (c : Z) : bool := (c =? 9) || (c =? 32).

(** [strtok]: the first token, if there is one, and what is left to be scanned; the
    delimiter behind the token is overwritten. *)
Definition strtok (s : bytes) : option (bytes * bytes) :=
  match skip_while is_delim s with
  | [] => None
  | s' => Some (take_while (λ c, negb (is_delim c)) s',
                drop 1 (skip_while (λ c, negb (is_delim c)) s'))
  end.

(** [strtol(s, &endptr, 10)]: [None] when no digit was found ([endptr == s]) or the
    value does not fit a [long]. *)
Definition strtol (s : bytes) : option Z :=
  '(neg, ds, _) ← scan s;
  let v := if neg : bool then - digits_value ds else digits_value ds in
  if (- 2 ^ 63 <=? v) && (v <? 2 ^ 63) then Some v else None.

Definition addr_size : Z := 22.

(** [read_server_line]: the server and the error message it leaves.  A first token of
    24 and more characters leaves [addr] as it is, here the empty string; one of 22
    or 23 passes the test but does not fit the array. *)
Definition read_server_line (line : bytes) : result (serverinfo * list kmsg) :=
  match strtok line with
  | None => Fail NullPointer
  | Some (tok, rest) =>
      if negb (zlen tok - 1 <? 23) then Ok (mkServerinfo [] 0, []) else
      if addr_size <=? zlen tok then Fail OutOfBounds else
      match strtok rest with
      | None => Ok (mkServerinfo tok 0, [UnableToFindDelimiter])
      | Some (tok2, _) =>
          let mem := ztake (zlen tok2 - 1) tok2 in
          match strtol mem with
          | None => Ok (mkServerinfo tok 0, [InvalidMemoryValue])
          | Some v => Ok (mkServerinfo tok (u64 v), [])
          end
      end
  end.

(** [fgets(sline, 127, fi)]: the characters read, what is left of the file and whether
    the end of the file was met. *)
Fixpoint fgets (n : nat) (fi : bytes) : bytes * bytes * bool :=
  match n with
  | O => ([], fi, false)
  | S n' =>
      match fi with
      | [] => ([], [], true)
      | c :: fi' =>
          if c =? 10 then ([c], fi', false)
          else let '(l, rest, eof) := fgets n' fi' in (c :: l, rest, eof)
      end
  end.

(** What a line contributes: nothing, a server, or the failure of the whole file. *)
Inductive line_result :=
| SkipLine
| ServerLine (s : serverinfo)
| BadLine (e : list kmsg).

Definition read_line (sline : bytes) (lineno : Z) : result line_result :=
  if (zlen sline <? 2) || match sline with c :: _ => c =? 35 | [] => false end then Ok SkipLine
  else
    let* '(server, e) := read_server_line sline in
    if (0 <? memory server) && negb (zlen (addr server) =? 0) then Ok (ServerLine server)
    else Ok (BadLine (e ++ [AtLine lineno])).

(** The loop of [read_server_definitions]; [slist] and [memtotal] are what has been
    read so far.  A zero byte of the file ends the string in [sline]. *)
Fixpoint read_lines (fuel : nat) (fi : bytes) (eof : bool) (lineno : Z)
    (slist : list serverinfo) (memtotal : Z) : result (list kmsg + list serverinfo * Z) :=
  match fuel with
  | O => Fail OutOfFuel
  | S fuel' =>
      if eof then Ok (inr (slist, memtotal)) else
      let '(l, fi, eof) := fgets 126 fi in
      let sline := take_while (λ c, negb (c =? 0)) l in
      let* r := read_line sline (lineno + 1) in
      match r with
      | SkipLine => read_lines fuel' fi eof (lineno + 1) slist memtotal
      | ServerLine server =>
          read_lines fuel' fi eof (lineno + 1) (slist ++ [server]) (u64 (memtotal + memory server))
      | BadLine e => Ok (inl e)
      end
  end.

(** [*count], the array that is returned with [*memory], and the error message. *)
Definition read_server_definitions (fi : option bytes) :
    result (Z * option (list serverinfo * Z) * list kmsg) :=
  match fi with
  | None => Ok (0, None, [FileDoesNotExist])
  | Some fi =>
      let* r := read_lines (S (S (length fi))) fi false 0 [] 0 in
      match r with
      | inl e => Ok (1, None, e)
      | inr ([], memtotal) => Ok (0, None, [])
      | inr (slist, memtotal) => Ok (zlen slist, Some (slist, memtotal), [])
      end
  end.

(** ** The continuum *)

(** A loop whose body may fail. *)
Fixpoint fold_result {A B} (f : B → A → result B) (b : B) (l : list A) : result B :=
  match l with
  | [] => Ok b
  | x :: l' => let* b' := f b x in fold_result f b' l'
  end.

(** [ks]: how many digests the server gets. *)
Definition ks_of (memory_i total numservers : Z) : result Z :=
  if total =? 0 then Fail BadConversion else
  let pct := to_float (to_float (inject_Z memory_i) / to_float (inject_Z total))%Q in
  let x := to_double (to_double (pct * 40) * to_float (inject_Z numservers))%Q in
  let ks := Qfloor (to_float x) in
  if ks <? 2 ^ 32 then Ok ks else Fail BadConversion.

(** [continuum[cont] = p; cont++] in an array of [cap] elements. *)
Definition store (cap : Z) (continuum : list mcs) (p : mcs) : result (list mcs) :=
  if zlen continuum <? cap then Ok (continuum ++ [p]) else Fail OutOfBounds.

(** The body of the loop over [k]; [ss] has 30 bytes. *)
Definition add_digest (cap : Z) (server : serverinfo) (continuum : list mcs) (k : nat) :
    result (list mcs) :=
  let ss := addr server ++ [45] ++ decimal (Z.of_nat k) in
  if 30 <=? zlen ss then Fail OutOfBounds else
  let digest := ketama_md5_digest ss in
  fold_result (store cap) continuum ((λ h, mkMcs (digest_point digest h) (addr server)) <$> seq 0 4).

Definition add_server (cap total numservers : Z) (continuum : list mcs) (server : serverinfo) :
    result (list mcs) :=
  let* ks := ks_of (memory server) total numservers in
  fold_result (add_digest cap server) continuum (seq 0 (Z.to_nat ks)).

Definition build_continuum (slist : list serverinfo) (total : Z) : result (list mcs) :=
  let numservers := zlen slist in
  fold_result (add_server (u32 (numservers * 160)) total numservers) [] slist.

(** ** The shared memory *)

Definition MC_SHMSIZE : Z := 524288.

(** The segment: the number of points, the modification time of the file they come
    from and the points. *)
Record segment := mkSegment { seg_nump : Z; seg_modtime : Z; seg_points : list mcs }.

(** The handle of a client.  [numpoints] is a copy; [modtime] and [array] point into
    the segment, so that only whether they are null is part of the handle. *)
Record continuum := mkContinuum { numpoints : Z; attached : bool }.

(** What the process sees of the machine: [clock] counts its looks at the file. *)
Record world := mkWorld {
  clock : nat;
  sem : option Z;
  shm : option segment;
  k_error : list kmsg
}.

Section Roll.

(** The library function that sorts; the file and its modification time at every
    moment; whether the operating system grants semaphores and shared memory; what
    other processes do to the semaphore while this one waits for it. *)
Context (qsort : (mcs → mcs → Z) → list mcs → list mcs).
Context (file_at : nat → option bytes) (mtime_at : nat → Z) (key_ok sem_ok shm_ok : bool).
Context (sem_released : nat → bool).

Definition tick (w : world) : world := mkWorld (S (clock w)) (sem w) (shm w) (k_error w).
Definition set_sem (v : option Z) (w : world) : world := mkWorld (clock w) v (shm w) (k_error w).
Definition set_shm (v : option segment) (w : world) : world := mkWorld (clock w) (sem w) v (k_error w).
Definition set_error (e : list kmsg) (w : world) : world := mkWorld (clock w) (sem w) (shm w) e.

(** [semctl(sem_set_id, 0, SETVAL, v)] on the semaphore of the file. *)
Definition semctl_set (v : Z) (w : world) : world := set_sem ((λ _, v) <$> sem w) w.
Definition ketama_sem_lock (w : world) : world := semctl_set 2 w.
Definition ketama_sem_unlock (w : world) : world := semctl_set 1 w.
Definition ketama_sem_init (w : world) : world :=
  match sem w with
  | Some _ => w
  | None => if sem_ok then ketama_sem_unlock (set_sem (Some 0) w) else w
  end.

Definition file_modtime (w : world) : Z * world := (mtime_at (clock w), tick w).

(** The result is the return value.  The message of a missing file is replaced. *)
Definition ketama_create_continuum (w : world) : result (bool * world) :=
  let* '(numservers, slist, e) := read_server_definitions (file_at (clock w)) in
  let w := tick w in
  if numservers <? 1 then Ok (false, set_error [NoValidServers] w) else
  match slist with
  | None => Ok (false, set_error e w)
  | Some (slist, total) =>
      let* points := build_continuum slist total in
      let points := qsort ketama_compare points in
      if negb shm_ok then Ok (false, set_error [CannotOpenShm] w) else
      let (modtime, w) := file_modtime w in
      if MC_SHMSIZE <? 36 + 28 * zlen points then Fail OutOfBounds
      else Ok (true, set_shm (Some (mkSegment (zlen points) modtime points)) w)
  end.

(** The loop that waits for the semaphore and, after a million rounds, takes it. *)
Fixpoint sem_wait (rounds i : nat) (w : world) : world :=
  if bool_decide (sem w = Some 2) then
    if sem_released i then ketama_sem_unlock w
    else match rounds with
         | O => ketama_sem_unlock w
         | S rounds' => sem_wait rounds' (S i) w
         end
  else w.

(** The loop of [ketama_roll]; [modtime] was read before it. *)
Fixpoint roll_loop (fuel : nat) (modtime : Z) (cont : continuum) (w : world) :
    result (bool * continuum * world) :=
  match fuel with
  | O => Fail OutOfFuel
  | S fuel' =>
      let* '(ok, w) :=
        (if bool_decide (shm w = None) || attached cont then
           let* '(ok, w) := ketama_create_continuum (ketama_sem_lock w) in
           Ok (ok, ketama_sem_unlock w)
         else Ok (true, w)) in
      if negb ok then Ok (false, cont, w) else
      match shm w with
      | None => Ok (false, cont, set_error [FailedShmData] w)
      | Some seg =>
          let cont := mkContinuum (seg_nump seg) true in
          if seg_modtime seg =? modtime then Ok (true, cont, w)
          else roll_loop fuel' modtime cont w
      end
  end.

Definition ketama_roll (fuel : nat) (w : world) : result (bool * option continuum * world) :=
  let w := set_error [] w in
  if negb key_ok then Ok (false, None, set_error [InvalidFilename] w) else
  let w := ketama_sem_init w in
  let w := sem_wait (Z.to_nat 1000000) 0 w in
  let (modtime, w) := file_modtime w in
  let* '(ok, cont, w) := roll_loop fuel modtime (mkContinuum 0 false) w in
  Ok (ok, Some cont, w).

End Roll.

Definition server_file : bytes :=
  [97; 58; 49; 9; 51; 48; 48; 10; 98; 58; 49; 9; 49; 48; 48; 10].

Example read_file :
  read_server_definitions (Some server_file) =
    Ok (2, Some ([mkServerinfo [97; 58; 49] 300; mkServerinfo [98; 58; 49] 100], 400), []).
Proof. vm_compute. reflexivity. Qed.
Example ks_three : ks_of 300 400 2 = Ok 60.
Proof. vm_compute. reflexivity. Qed.
