(* ===== verification/KetamaContinuum.v ===== *)
(** * The continuum of ketama

    The binary search finds the successor of a hash; the points of the servers never
    leave the array of [ketama_create_continuum], by a bound on the rounding errors,
    unless the memory sizes wrap around. *)

From S2P Require Import Prelude Bytes CStrings Rounding Md5 Ketama.
From stdpp Require Import base list sorting.
From Stdlib Require Import ZArith QArith Qround Lqa Lia.

Local Open Scope Z_scope.

(** ** The search *)

(** The first index whose point is not before [h], if there is one. *)
Fixpoint next_point (h : Z) (points : list mcs) : nat :=
  match points with
  | [] => O
  | p :: points' => if h <=? point p then O else S (next_point h points')
  end.

(** The server of a hash: the next point on the circle. *)
Definition successor (h : Z) (points : list mcs) : Z :=
  let i := next_point h points in
  if decide (i < length points)%nat then Z.of_nat i else 0.

Definition point_le (a b : mcs) : Prop := point a ≤ point b.
#[export] Instance point_le_dec a b : Decision (point_le a b) := decide (point a ≤ point b).
#[export] Instance point_le_trans : Transitive point_le.
Proof. unfold point_le. intros a b c. lia. Qed.
#[export] Instance point_le_total : Total point_le.
Proof. unfold point_le. intros a b. lia. Qed.

Lemma next_point_le_length h points : (next_point h points ≤ length points)%nat.
Proof. induction points as [|p l IH]; simpl; [lia|]. destruct (h <=? point p); lia. Qed.

Lemma next_point_before h points i p :
  points !! i = Some p → h ≤ point p → (next_point h points ≤ i)%nat.
Proof.
  revert i. induction points as [|q l IH]; intros i Hi Hp; simpl; [done|].
  destruct (Z.leb_spec h (point q)); [lia|]. destruct i as [|i]; [simplify_eq/=; lia|].
  apply le_n_S. by apply IH.
Qed.

Lemma next_point_after h points i p :
  StronglySorted point_le points → points !! i = Some p → point p < h →
  (i < next_point h points)%nat.
Proof.
  intros Hs. revert i. induction Hs as [|q l Hs IH Hq]; intros i Hi Hp; simpl; [done|].
  assert (point q < h).
  { destruct i as [|i]; [by simplify_eq/=|]. rewrite Forall_lookup in Hq.
    pose proof (Hq i p Hi). unfold point_le in *. lia. }
  rewrite (proj2 (Z.leb_gt _ _)) by lia. destruct i as [|i]; [lia|].
  apply -> Nat.succ_lt_mono. by apply IH.
Qed.

(** A round of the loop keeps the answer between [lowp] and [highp] and narrows the
    interval, or returns it. *)
Lemma search_round_spec points h lowp highp :
  StronglySorted point_le points → 0 ≤ h →
  0 ≤ lowp ≤ Z.of_nat (next_point h points) → Z.of_nat (next_point h points) ≤ highp ≤ zlen points →
  match search_round points (zlen points) h lowp highp with
  | Ok (inl i) => i = successor h points
  | Ok (inr (lowp', highp')) =>
      0 ≤ lowp' ≤ Z.of_nat (next_point h points) ∧
      Z.of_nat (next_point h points) ≤ highp' ≤ zlen points ∧ highp' - lowp' < highp - lowp
  | Fail _ => False
  end.
Proof.
  intros Hs Hh Hl Hu. unfold search_round, successor.
  rewrite Z.quot_div_nonneg by lia.
  pose proof (Z.div_mod (lowp + highp) 2 ltac:(lia)) as Hd.
  pose proof (Z.mod_pos_bound (lowp + highp) 2 ltac:(lia)) as Hm.
  set (midp := (lowp + highp) / 2) in *. set (ans := next_point h points) in *.
  destruct (Z.eqb_spec midp (zlen points)) as [He|He].
  { rewrite decide_False; [done|]. unfold zlen in *. lia. }
  destruct (lookup_lt_is_Some_2 points (Z.to_nat midp)) as [mid Hmid].
  { unfold zlen in *. lia. }
  rewrite Hmid.
  assert (∃ midval1, (if midp =? 0 then Some 0 else point <$> points !! Z.to_nat (midp - 1)) = Some midval1
    ∧ (midval1 < h → (Z.to_nat midp ≤ ans)%nat)
    ∧ (h ≤ midval1 → midp = 0 ∨ Z.of_nat ans ≤ midp - 1)) as (midval1 & -> & Hlt & Hge).
  { destruct (Z.eqb_spec midp 0) as [H0|H0].
    - exists 0. split; [done|]. split; intros; [lia|by left].
    - destruct (lookup_lt_is_Some_2 points (Z.to_nat (midp - 1))) as [q Hq]; [unfold zlen in *; lia|].
      rewrite Hq. exists (point q). split; [done|]. split; intros Hc.
      + pose proof (next_point_after h points _ q Hs Hq Hc). lia.
      + right. pose proof (next_point_before h points _ q Hq Hc). lia. }
  destruct (Z.leb_spec h (point mid)) as [Hle|Hgt]; cbn [andb].
  - pose proof (next_point_before h points _ mid Hmid Hle) as Hb. fold ans in Hb.
    rewrite (proj2 (Z.ltb_ge (point mid) h)) by lia.
    destruct (Z.ltb_spec midval1 h) as [Hc|Hc].
    + specialize (Hlt Hc). apply lookup_lt_Some in Hmid.
      rewrite decide_True by lia. lia.
    + destruct (Hge Hc) as [H0|H0].
      * rewrite H0. rewrite (proj2 (Z.ltb_lt _ _)) by lia.
        destruct (decide _); lia.
      * rewrite (proj2 (Z.ltb_ge _ _)) by lia. lia.
  - pose proof (next_point_after h points _ mid Hs Hmid Hgt) as Hb. fold ans in Hb.
    rewrite (proj2 (Z.ltb_lt (point mid) h)) by lia.
    rewrite (proj2 (Z.ltb_ge _ _)) by lia. lia.
Qed.

Lemma search_spec fuel points h lowp highp :
  StronglySorted point_le points → 0 ≤ h →
  0 ≤ lowp ≤ Z.of_nat (next_point h points) → Z.of_nat (next_point h points) ≤ highp ≤ zlen points →
  highp - lowp < Z.of_nat fuel →
  search fuel points (zlen points) h lowp highp = Ok (successor h points).
Proof.
  intros Hs Hh. revert lowp highp. induction fuel as [|fuel IH]; intros lowp highp Hl Hu Hf; [lia|].
  cbn [search]. pose proof (search_round_spec points h lowp highp Hs Hh Hl Hu) as Hr.
  destruct (search_round _ _ _ _ _) as [[i|[lowp' highp']]|f]; [|destruct Hr as (?&?&?)|done].
  - cbn. by rewrite Hr.
  - apply IH; lia || done.
Qed.

Lemma ketama_hashi_range key : 0 ≤ ketama_hashi key < 2 ^ 32.
Proof. by apply wrapu_range. Qed.

(** C38: On a continuum whose points are sorted, the binary search of
    [ketama_get_server] ends, never reads outside the array, and returns the server
    of the first point that is not before the hash of the key, the first server of
    all when there is no such point: equal points, a hash of zero and a hash beyond
    the last point included. *)
Theorem ketama_get_server_successor (key : bytes) (points : list mcs)
  (Hs : StronglySorted point_le points) :
  ketama_get_server key (zlen points) points = Ok (successor (ketama_hashi key) points).
Proof.
  unfold ketama_get_server. pose proof (next_point_le_length (ketama_hashi key) points).
  apply search_spec; [done|apply ketama_hashi_range|unfold zlen; lia..].
Qed.

(** The key "abc" among five points, two of them equal. *)
Example ketama_get_server_successor_witness :
  let points := (λ p, mkMcs p [97]) <$> [5; 0x98500190; 0x98500190; 0x98500191; 0xffffffff] in
  ketama_get_server [97; 98; 99] 5 points = Ok 1.
Proof.
  intros points. apply (eq_trans (ketama_get_server_successor [97; 98; 99] points ltac:(
    subst points; repeat constructor; unfold point_le; simpl; lia))).
  vm_compute. reflexivity.
Defined.

(** ** The number of digests *)

(** The number of digests of a server exceeds its share of [40 * numservers] by less
    than one part in two million. *)
Lemma ks_of_bound m M n :
  0 < m → m ≤ M → 0 < n ≤ 2 ^ 15 →
  ∃ k, ks_of m M n = Ok k ∧ 0 ≤ k ∧ k * M * 2 ^ 21 ≤ 40 * n * m * (2 ^ 21 + 1).
Proof.
  intros Hm HM Hn. unfold ks_of. rewrite (proj2 (Z.eqb_neq M 0)) by lia.
  pose proof (inject_Z_pos m Hm) as Qm. pose proof (inject_Z_pos M ltac:(lia)) as QM.
  pose proof (inject_Z_pos n ltac:(lia)) as Qn.
  destruct (quotient_bound _ _ Qm QM) as [Hr0 Hr].
  set (r := (to_float _ / to_float _)%Q) in *. set (b := (inject_Z m / inject_Z M)%Q) in *.
  destruct (float_bounds r Hr0) as (Hp0 & Hp & _). set (pct := to_float r) in *.
  destruct (double_bounds (pct * 40)) as (H10 & H1); [lra|]. set (x1 := to_double (pct * 40)) in *.
  destruct (float_bounds _ Qn) as (Hn0 & Hn1 & _). set (fn := to_float (inject_Z n)) in *.
  destruct (double_bounds (x1 * fn)) as (H20 & H2); [nra|]. set (x2 := to_double (x1 * fn)) in *.
  destruct (float_bounds x2 H20) as (Hy0 & Hy & _). set (y := to_float x2) in *.
  assert (x1 * fn <= (b * (16777217 # 16777215) * (16777217 # 16777216) * 40 *
            (9007199254740993 # 9007199254740992)) * (inject_Z n * (16777217 # 16777216)))%Q as Hx.
  { apply Qmult_le_compat_nonneg; split; lra. }
  assert (0 < b)%Q as Hb0 by (apply Qlt_shift_div_l; lra).
  assert (0 < b * inject_Z n)%Q as Hbn by nra.
  assert (y <= b * inject_Z n * 40 * (2097153 # 2097152))%Q as Hyb by lra.
  set (k := Qfloor y). assert (inject_Z k <= y)%Q as Hk by apply Qfloor_le.
  assert (0 ≤ k) as Hk0 by (change 0 with (Qfloor 0); apply Qfloor_resp_le; lra).
  assert (k * M * 2 ^ 21 ≤ 40 * n * m * (2 ^ 21 + 1)) as Hkb.
  { rewrite Zle_Qle, !inject_Z_mult. change (inject_Z (2 ^ 21)) with 2097152%Q.
    change (inject_Z (2 ^ 21 + 1)) with 2097153%Q. change (inject_Z 40) with 40%Q.
    assert (inject_Z m == b * inject_Z M)%Q as -> by (unfold b; field; lra).
    assert (inject_Z k * inject_Z M <= b * inject_Z n * 40 * (2097153 # 2097152) * inject_Z M)%Q.
    { apply Qmult_le_r; lra. }
    lra. }
  exists k. rewrite (proj2 (Z.ltb_lt k _)); [done|]. nia.
Qed.

(** ** The continuum *)

Lemma decimal_digits_length fuel n k :
  0 ≤ n < 10 ^ Z.of_nat k → (1 ≤ k)%nat → zlen (decimal_digits fuel n) ≤ Z.of_nat k.
Proof.
  revert n k. induction fuel as [|fuel IH]; intros n k Hn Hk; cbn [decimal_digits]; [unfold zlen; simpl; lia|].
  rewrite zlen_app. change (zlen [48 + n mod 10]) with 1.
  destruct (Z.ltb_spec n 10); [rewrite zlen_nil; lia|].
  destruct k as [|[|k]]; [lia|simpl in Hn; lia|].
  enough (zlen (decimal_digits fuel (n / 10)) ≤ Z.of_nat (S k)) by lia.
  apply IH; [|lia]. rewrite (Nat2Z.inj_succ (S k)), Z.pow_succ_r in Hn by lia.
  split; [apply Z.div_pos; lia|apply Z.div_lt_upper_bound; lia].
Qed.

(** The four points of the [k]-th digest of a server, and all its points. *)
Definition digest_points (a : bytes) (k : nat) : list mcs :=
  (λ h, mkMcs (digest_point (ketama_md5_digest (a ++ [45] ++ decimal (Z.of_nat k))) h) a) <$> seq 0 4.
Definition server_points (a : bytes) (ks : nat) : list mcs := seq 0 ks ≫= digest_points a.

Lemma server_points_length a ks : length (server_points a ks) = (4 * ks)%nat.
Proof.
  unfold server_points. enough (∀ i, length (seq i ks ≫= digest_points a) = (4 * ks)%nat) as H by apply H.
  induction ks as [|ks IH]; intros i; [done|].
  cbn [seq mbind list_bind]. rewrite length_app. unfold mbind in IH. rewrite IH. cbn. lia.
Qed.

Lemma fold_result_app {A B} (f : list B → A → result (list B)) (g : A → list B) cap l c :
  (∀ c x, x ∈ l → zlen c + zlen (g x) ≤ cap → f c x = Ok (c ++ g x)) →
  zlen c + zlen (l ≫= g) ≤ cap → fold_result f c l = Ok (c ++ (l ≫= g)).
Proof.
  revert c. induction l as [|x l IH]; intros c Hf Hc.
  - cbn. by rewrite app_nil_r.
  - cbn [fold_result]. unfold zlen in Hc. cbn [mbind list_bind] in *. rewrite length_app in Hc.
    rewrite Hf; [|apply elem_of_cons; by left|unfold zlen; lia]. cbn [mbind result_bind].
    rewrite IH; [by rewrite app_assoc| |].
    + intros c' y Hy. apply Hf. by apply elem_of_cons; right.
    + unfold zlen. rewrite length_app. cbn [mbind]. lia.
Qed.

Lemma store_all cap l c : zlen c + zlen l ≤ cap → fold_result (store cap) c l = Ok (c ++ l).
Proof.
  revert c. induction l as [|x l IH]; intros c Hc.
  - cbn. by rewrite app_nil_r.
  - unfold zlen in *. cbn [length] in Hc. cbn [fold_result].
    assert (store cap c x = Ok (c ++ [x])) as ->.
    { unfold store, zlen. by rewrite (proj2 (Z.ltb_lt _ _)) by lia. }
    cbn [mbind result_bind]. rewrite IH; [by rewrite <- app_assoc|]. rewrite length_app. cbn. lia.
Qed.

Lemma add_digest_spec cap s c k :
  zlen (addr s) < addr_size → Z.of_nat k < 10 ^ 7 → zlen c + 4 ≤ cap →
  add_digest cap s c k = Ok (c ++ digest_points (addr s) k).
Proof.
  intros Ha Hk Hc. unfold add_digest. rewrite (proj2 (Z.leb_gt _ _)).
  - apply store_all. exact Hc.
  - rewrite !zlen_app. change (zlen [45]) with 1. unfold addr_size in Ha.
    pose proof (decimal_digits_length 20 (Z.of_nat k) 7) as Hd.
    change (10 ^ Z.of_nat 7) with (10 ^ 7) in Hd. unfold decimal. lia.
Qed.

Lemma add_server_spec cap total n s c ks :
  ks_of (memory s) total n = Ok ks → zlen (addr s) < addr_size → ks ≤ 10 ^ 7 →
  zlen c + zlen (server_points (addr s) (Z.to_nat ks)) ≤ cap →
  add_server cap total n c s = Ok (c ++ server_points (addr s) (Z.to_nat ks)).
Proof.
  intros Hks Ha Hk Hc. unfold add_server. rewrite Hks. cbn [mbind result_bind].
  apply (fold_result_app _ _ cap); [|done]. intros c' k [_ Hin]%elem_of_seq Hc'.
  apply add_digest_spec; [done|lia|done].
Qed.

(** The number of digests as a number. *)
Definition ks_value (total n : Z) (s : serverinfo) : Z :=
  match ks_of (memory s) total n with Ok k => k | Fail _ => 0 end.

Definition sum_memory (slist : list serverinfo) : Z := foldr (λ s t, memory s + t) 0 slist.

(** All the points of all servers, in the order of the file. *)
Definition all_points (slist : list serverinfo) (total : Z) : list mcs :=
  slist ≫= λ s, server_points (addr s) (Z.to_nat (ks_value total (zlen slist) s)).

Lemma sum_memory_elem slist s :
  Forall (λ s, 0 < memory s) slist → s ∈ slist → memory s ≤ sum_memory slist.
Proof.
  intros Hp. induction Hp as [|t l Ht Hl IH]; intros Hs; [by apply elem_of_nil in Hs|].
  assert (0 ≤ sum_memory l).
  { clear -Hl. unfold sum_memory. induction Hl; simpl; [done|]. lia. }
  unfold sum_memory in *. cbn [foldr]. apply elem_of_cons in Hs as [->|Hs]; [lia|].
  specialize (IH Hs). lia.
Qed.

(** The sum over a part of the servers. *)
Lemma points_length_bound total n l :
  Forall (λ s, 0 < memory s ∧ memory s ≤ total) l → 0 < n ≤ 2 ^ 15 →
  zlen (l ≫= λ s, server_points (addr s) (Z.to_nat (ks_value total n s))) * total * 2 ^ 21 ≤
  160 * n * sum_memory l * (2 ^ 21 + 1).
Proof.
  intros Hl Hn. induction Hl as [|s l [Hs Ht] Hl IH]; [unfold zlen, sum_memory; cbn [mbind list_bind length foldr]; lia|].
  cbn [mbind list_bind]. unfold zlen in *. rewrite length_app, server_points_length.
  destruct (ks_of_bound (memory s) total n Hs Ht Hn) as (k & Hk & Hk0 & Hb).
  unfold ks_value at 1. rewrite Hk. unfold sum_memory in *. cbn [foldr mbind] in *. lia.
Qed.

Lemma all_points_length slist total :
  Forall (λ s, 0 < memory s) slist → total = sum_memory slist → slist ≠ [] →
  zlen slist ≤ 2 ^ 13 → zlen (all_points slist total) ≤ 160 * zlen slist.
Proof.
  intros Hp Ht Hne Hn.
  assert (0 < zlen slist) as Hz by (destruct slist; [done|unfold zlen; simpl; lia]).
  assert (0 < total) as HM.
  { destruct slist as [|s l]; [done|]. subst total. pose proof (Forall_inv Hp) as Hs. cbn in Hs.
    pose proof (sum_memory_elem (s :: l) s Hp ltac:(apply elem_of_cons; by left)). lia. }
  pose proof (points_length_bound total (zlen slist) slist) as Hb. rewrite <- Ht in Hb.
  fold (all_points slist total) in Hb.
  assert (zlen (all_points slist total) * 2 ^ 21 ≤ 160 * zlen slist * (2 ^ 21 + 1)) as H.
  { apply (Z.mul_le_mono_pos_r _ _ total HM). rewrite <- Z.mul_assoc, (Z.mul_comm (2 ^ 21)), Z.mul_assoc.
    transitivity (160 * zlen slist * total * (2 ^ 21 + 1)); [apply Hb; [|lia]|lia].
    apply Forall_forall. intros s Hs. rewrite Forall_forall in Hp. split; [by apply Hp|].
    subst total. apply sum_memory_elem; [by apply Forall_forall|done]. }
  lia.
Qed.

Lemma build_continuum_spec slist :
  slist ≠ [] → Forall (λ s, 0 < memory s ∧ zlen (addr s) < addr_size) slist → zlen slist ≤ 2 ^ 13 →
  build_continuum slist (sum_memory slist) = Ok (all_points slist (sum_memory slist)) ∧
  zlen (all_points slist (sum_memory slist)) ≤ 160 * zlen slist.
Proof.
  intros Hne Hs Hn.
  assert (Forall (λ s, 0 < memory s) slist) as Hp by (eapply Forall_impl; [exact Hs|]; by intros ? [? _]).
  pose proof (all_points_length slist _ Hp eq_refl Hne Hn) as Hl. split; [|done].
  pose proof (zlen_nonneg slist). assert (0 < zlen slist) by (destruct slist; [done|unfold zlen; simpl; lia]).
  unfold build_continuum. unfold u32. rewrite wrapu_small by lia.
  apply (fold_result_app _ _ (zlen slist * 160) slist []); 
    [|change (0 + zlen (all_points slist (sum_memory slist)) ≤ zlen slist * 160); lia].
  intros c s Hin Hc. rewrite Forall_forall in Hs. destruct (Hs s Hin) as [Hm Ha].
  pose proof (sum_memory_elem slist s Hp Hin) as Ht.
  destruct (ks_of_bound (memory s) (sum_memory slist) (zlen slist)) as (k & Hk & Hk0 & Hb); [lia..|].
  unfold ks_value in *. rewrite Hk in *. apply add_server_spec; [done|done| |done].
  nia.
Qed.

(** C39: The points of all servers fit the array [continuum[numservers * 160]] of
    [ketama_create_continuum], whatever memory sizes the servers have: although [pct]
    and its products are rounded to single precision, the numbers of digests never
    add up to more than [40 * numservers].  So the function stays within the array
    and within the string [ss], and the points are those of the digests of
    "address-0", "address-1", ... of every server.  The memory sizes are positive and
    their sum does not wrap around; there are at most 8192 servers. *)
Theorem continuum_fits (slist : list serverinfo) (Hne : slist ≠ [])
  (Hs : Forall (λ s, 0 < memory s ∧ zlen (addr s) < addr_size) slist)
  (Hn : zlen slist ≤ 2 ^ 13) :
  let points := all_points slist (sum_memory slist) in
  build_continuum slist (sum_memory slist) = Ok points ∧ zlen points ≤ 160 * zlen slist.
Proof. exact (build_continuum_spec slist Hne Hs Hn). Qed.

(** Three servers, with memory sizes that are not representable in single precision. *)
Example continuum_fits_witness :
  let slist := [mkServerinfo [97] 123456789; mkServerinfo [98] 987654321; mkServerinfo [99] 1] in
  let points := all_points slist (sum_memory slist) in
  build_continuum slist (sum_memory slist) = Ok points ∧ zlen points ≤ 480.
Proof.
  intros slist points. exact (continuum_fits slist ltac:(done)
    ltac:(repeat constructor; vm_compute; reflexivity) ltac:(vm_compute; discriminate)).
Defined.

(** A file with a negative memory size: "b 12" and "a -11". *)
Definition negative_file : bytes := [98; 32; 49; 50; 10; 97; 32; 45; 49; 49; 10].

(** A negative memory size is accepted and becomes a huge unsigned number, the
    total wraps around, and the other server gets more points than the array holds:
    [ketama_create_continuum] writes beyond the end of [continuum]. *)
Theorem negative_memory_overflows :
  ∃ slist total, read_server_definitions (Some negative_file) = Ok (2, Some (slist, total), []) ∧
  total < sum_memory slist ∧ build_continuum slist total = Fail OutOfBounds.
Proof.
  exists [mkServerinfo [98] 12; mkServerinfo [97] (2 ^ 64 - 11)], 1.
  split; [vm_compute; reflexivity|]. split; [vm_compute; reflexivity|].
  vm_compute. reflexivity.
Qed.
