(* ===== verification/KetamaTheorems.v ===== *)
(** * Reading and publishing a continuum

    A file of server definitions is read back as it was written; [ketama_roll]
    publishes the current file and ends when the file is left alone. *)

From S2P Require Import Prelude Bytes CStrings Rounding Md5 Ketama KetamaContinuum.
From stdpp Require Import base list sorting.
From Stdlib Require Import ZArith Lia.

Local Open Scope Z_scope.

(** ** Reading the definitions *)

(** The lines of a file. *)
Inductive file_line :=
| LServer (s : serverinfo)
| LComment (text : bytes)
| LBlank.

Definition render_line (l : file_line) : bytes :=
  match l with
  | LServer s => addr s ++ [9] ++ decimal (memory s) ++ [10]
  | LComment text => [35] ++ text ++ [10]
  | LBlank => [10]
  end.

(** Characters that are neither zero nor a newline, and those of an address. *)
Definition text_char (c : Z) : Prop := c ≠ 0 ∧ c ≠ 10.
Definition addr_char (c : Z) : Prop := text_char c ∧ c ≠ 9 ∧ c ≠ 32.

Definition line_ok (l : file_line) : Prop :=
  match l with
  | LServer s =>
      Forall addr_char (addr s) ∧ 0 < zlen (addr s) < addr_size ∧ head (addr s) ≠ Some 35 ∧
      0 < memory s < 2 ^ 63
  | LComment text => Forall text_char text ∧ zlen text < 124
  | LBlank => True
  end.

Definition servers_of (ls : list file_line) : list serverinfo :=
  omap (λ l, match l with LServer s => Some s | _ => None end) ls.

Lemma strtok_token t c r :
  Forall (λ x, is_delim x = false) t → t ≠ [] → is_delim c = true →
  strtok (t ++ c :: r) = Some (t, r).
Proof.
  intros Ht Hne Hc. destruct t as [|x t]; [done|]. pose proof (Forall_inv Ht) as Hx. cbn in Hx.
  assert (Forall (λ x, negb (is_delim x) = true) (x :: t)) as Hn
    by (eapply Forall_impl; [exact Ht|]; intros y Hy; cbn in *; by rewrite Hy).
  unfold strtok.
  assert (skip_while is_delim ((x :: t) ++ c :: r) = x :: t ++ c :: r) as -> by (cbn; by rewrite Hx).
  cbv iota. change (x :: t ++ c :: r) with ((x :: t) ++ c :: r).
  rewrite take_while_app, skip_while_app; [done|done|by rewrite Hc|done|by rewrite Hc].
Qed.

Lemma strtok_last t :
  Forall (λ x, is_delim x = false) t → t ≠ [] → strtok t = Some (t, []).
Proof.
  intros Ht Hne. destruct t as [|x t]; [done|]. pose proof (Forall_inv Ht) as Hx. cbn in Hx.
  assert (Forall (λ x, negb (is_delim x) = true) (x :: t)) as Hn
    by (eapply Forall_impl; [exact Ht|]; intros y Hy; cbn in *; by rewrite Hy).
  unfold strtok. assert (skip_while is_delim (x :: t) = x :: t) as -> by (cbn; by rewrite Hx).
  cbv iota. by rewrite take_while_all, skip_while_all.
Qed.

Lemma strtol_decimal n : 0 ≤ n < 2 ^ 63 → strtol (decimal n) = Some n.
Proof.
  intros Hn. unfold strtol. rewrite <- (app_nil_r (decimal n)), scan_decimal by (done || lia).
  cbn [mbind option_bind].
  rewrite decimal_value by lia.
  rewrite (proj2 (Z.leb_le _ _)), (proj2 (Z.ltb_lt _ _)) by lia. done.
Qed.

(** *** Lines *)

(** The last character of the second token is dropped, whatever it is. *)
Lemma read_server_line_spec a m c :
  Forall addr_char a → 0 < zlen a < addr_size → 0 < m < 2 ^ 63 → is_delim c = false →
  read_server_line (a ++ [9] ++ decimal m ++ [c]) = Ok (mkServerinfo a m, []).
Proof.
  intros Ha Hl Hm Hc. unfold read_server_line. cbn [app].
  assert (Forall (λ x, is_delim x = false) a) as Had.
  { eapply Forall_impl; [exact Ha|]. intros x (_ & H9 & H32). unfold is_delim.
    by rewrite !(proj2 (Z.eqb_neq _ _)). }
  rewrite strtok_token; [|done|intros ->; rewrite zlen_nil in Hl; lia|done].
  unfold addr_size in *. rewrite (proj2 (Z.ltb_lt _ _)), (proj2 (Z.leb_gt _ _)) by lia. cbn [negb].
  assert (Forall (λ x, is_delim x = false) (decimal m ++ [c])) as Hdd.
  { apply Forall_app. split; [|by repeat constructor].
    eapply Forall_impl; [apply decimal_digits_are_digits; lia|]. intros x Hx.
    unfold is_digit in Hx. apply andb_prop in Hx as [Hx1%Z.leb_le Hx2%Z.leb_le].
    unfold is_delim. by rewrite !(proj2 (Z.eqb_neq _ _)) by lia. }
  rewrite strtok_last; [|done|by intros [_ ?]%app_eq_nil].
  rewrite ztake_app by (rewrite zlen_app; change (zlen [c]) with 1; lia).
  rewrite strtol_decimal by lia. unfold u64. by rewrite wrapu_small by lia.
Qed.

Lemma fgets_line n l rest :
  Forall (λ c, c ≠ 10) l → (length l < n)%nat → fgets n (l ++ 10 :: rest) = (l ++ [10], rest, false).
Proof.
  revert n. induction l as [|c l IH]; intros n Hl Hn; (destruct n as [|n]; [cbn in Hn; lia|]); [done|].
  cbn [fgets app]. pose proof (Forall_inv Hl) as Hc. cbn in Hc.
  rewrite (proj2 (Z.eqb_neq c 10)) by done. rewrite IH; [done|by inversion Hl|cbn in Hn; lia].
Qed.

(** The text of a line without its newline. *)
Definition line_text (l : file_line) : bytes :=
  match l with
  | LServer s => addr s ++ [9] ++ decimal (memory s)
  | LComment text => [35] ++ text
  | LBlank => []
  end.

Lemma render_line_text l : render_line l = line_text l ++ [10].
Proof. destruct l; cbn [render_line line_text]; by rewrite <- ?app_assoc. Qed.

Lemma line_text_ok l : line_ok l → Forall text_char (line_text l) ∧ zlen (line_text l) < 126.
Proof.
  destruct l as [s|text|]; cbn [line_ok line_text].
  - intros (Ha & Hl & _ & Hm). split.
    + apply Forall_app. split; [eapply Forall_impl; [exact Ha|]; by intros x [? _]|].
      constructor; [split; lia|]. eapply Forall_impl; [apply decimal_digits_are_digits; lia|].
      intros x Hx. unfold is_digit in Hx. apply andb_prop in Hx as [Hx1%Z.leb_le Hx2%Z.leb_le]. split; lia.
    + rewrite !zlen_app. change (zlen [9]) with 1. unfold addr_size in Hl.
      pose proof (decimal_digits_length 20 (memory s) 20) as Hd.
      change (10 ^ Z.of_nat 20) with (10 ^ 20) in Hd. unfold decimal. lia.
  - intros [Ht Hl]. split; [constructor; [split; lia|done]|]. rewrite zlen_app. change (zlen [35]) with 1. lia.
  - intros _. split; [constructor|]. done.
Qed.

(** What a line of the file is read as. *)
Lemma read_line_spec l lineno :
  line_ok l →
  read_line (line_text l ++ [10]) lineno =
  Ok (match l with LServer s => ServerLine s | _ => SkipLine end).
Proof.
  destruct l as [s|text|]; cbn [line_ok line_text].
  - intros (Ha & Hl & Hh & Hm). rewrite <- !app_assoc. unfold read_line.
    assert ((zlen (addr s ++ [9] ++ decimal (memory s) ++ [10]) <? 2) = false) as ->.
    { rewrite !zlen_app. change (zlen [9]) with 1. change (zlen [10]) with 1.
      pose proof (zlen_nonneg (decimal (memory s))). apply Z.ltb_ge. lia. }
    rewrite read_server_line_spec by done. cbn [orb mbind result_bind memory addr].
    rewrite (proj2 (Z.ltb_lt 0 _)), (proj2 (Z.eqb_neq _ 0)) by lia.
    destruct s as [a m]. cbn [addr memory] in *. destruct a as [|c a]; [done|]. cbn [app].
    destruct (Z.eqb_spec c 35) as [->|]; [done|]. done.
  - intros _. unfold read_line. cbn [app]. by rewrite orb_true_r.
  - done.
Qed.

Lemma u64_add_l a b : u64 (u64 a + b) = u64 (a + b).
Proof. apply Zplus_mod_idemp_l. Qed.

(** The loop over rendered lines; two more rounds see the end of the file. *)
Lemma read_lines_spec ls fuel lineno slist total :
  Forall line_ok ls → (length ls + 2 ≤ fuel)%nat → u64 total = total →
  read_lines fuel (ls ≫= render_line) false lineno slist total =
  Ok (inr (slist ++ servers_of ls, u64 (total + sum_memory (servers_of ls)))).
Proof.
  intros Hls. revert fuel lineno slist total.
  induction Hls as [|l ls Hl Hls IH]; intros fuel lineno slist total Hf Ht.
  - destruct fuel as [|[|fuel]]; [cbn in Hf; lia..|]. cbn. by rewrite app_nil_r, Z.add_0_r, Ht.
  - destruct fuel as [|fuel]; [cbn in Hf; lia|]. cbn [read_lines mbind list_bind].
    destruct (line_text_ok l Hl) as [Htext Hlen].
    rewrite render_line_text, <- app_assoc. cbn [app]. rewrite fgets_line.
    2: { eapply Forall_impl; [exact Htext|]. by intros x [_ ?]. }
    2: { unfold zlen in Hlen. lia. }
    rewrite take_while_all.
    2: { apply Forall_app. split; [|by repeat constructor].
         eapply Forall_impl; [exact Htext|]. intros x [Hx _]. by rewrite (proj2 (Z.eqb_neq x 0)). }
    rewrite read_line_spec by done. cbn [mbind result_bind].
    assert (length ls + 2 ≤ fuel)%nat as Hf' by (cbn [length] in Hf; lia).
    destruct l as [s|text|]; cbn [servers_of omap list_omap]; [|by apply IH..].
    unfold mbind in IH. rewrite IH; [|done|apply Z.mod_mod; lia].
    rewrite <- app_assoc. cbn [app sum_memory foldr]. rewrite u64_add_l.
    unfold sum_memory. by rewrite Z.add_assoc.
Qed.

Lemma length_rendered ls : (length ls ≤ length (ls ≫= render_line))%nat.
Proof.
  induction ls as [|l ls IH]; [done|].
  rewrite bind_cons, length_app, render_line_text, length_app. cbn [length]. lia.
Qed.

Lemma definitions_spec ls :
  Forall line_ok ls → servers_of ls ≠ [] →
  read_server_definitions (Some (ls ≫= render_line)) =
  Ok (zlen (servers_of ls), Some (servers_of ls, u64 (sum_memory (servers_of ls))), []).
Proof.
  intros Hls Hne.
  unfold read_server_definitions. pose proof (length_rendered ls).
  rewrite read_lines_spec; [|done|lia|done]. cbn [mbind result_bind app]. rewrite Z.add_0_l.
  by destruct (servers_of ls).
Qed.

(** A file of server definitions is read as it was written: every line
    "address<tab>memory" with an address of at most 21 characters and a positive
    memory size gives that server, in order, comments and blank lines give nothing,
    and the total is the sum of the memory sizes as a 64-bit number. *)
Theorem definitions_roundtrip (ls : list file_line) (Hls : Forall line_ok ls)
  (Hne : servers_of ls ≠ []) :
  read_server_definitions (Some (ls ≫= render_line)) =
  Ok (zlen (servers_of ls), Some (servers_of ls, u64 (sum_memory (servers_of ls))), []).
Proof. exact (definitions_spec ls Hls Hne). Qed.

Example definitions_roundtrip_witness :
  let ls := [LComment [104; 105]; LServer (mkServerinfo [97; 58; 49] 300); LBlank;
             LServer (mkServerinfo [98; 58; 49] 100)] in
  read_server_definitions (Some (ls ≫= render_line)) =
  Ok (2, Some ([mkServerinfo [97; 58; 49] 300; mkServerinfo [98; 58; 49] 100], 400), []).
Proof.
  intros ls. apply (definitions_roundtrip ls); [|done].
  repeat constructor; cbn; unfold text_char, addr_char, addr_size, zlen; cbn; lia || done.
Defined.

Lemma decimal_digits_fuel fuel n :
  0 ≤ n < 10 ^ Z.of_nat (S fuel) → decimal_digits (S (S fuel)) n = decimal_digits (S fuel) n.
Proof.
  revert n. induction fuel as [|fuel IH]; intros n Hn.
  - change (10 ^ Z.of_nat 1) with 10 in Hn. cbn [decimal_digits].
    by rewrite (proj2 (Z.ltb_lt n 10)) by lia.
  - rewrite Nat2Z.inj_succ, Z.pow_succ_r in Hn by lia.
    change (decimal_digits (S (S (S fuel))) n) with
      ((if n <? 10 then [] else decimal_digits (S (S fuel)) (n / 10)) ++ [48 + n mod 10]).
    rewrite IH; [done|]. split; [apply Z.div_pos; lia|apply Z.div_lt_upper_bound; lia].
Qed.

(** A last line without a newline loses the last digit of its memory size: the
    code takes the character behind the number to be the newline. *)
Theorem unterminated_line_loses_digit (a : bytes) (m : Z)
  (Ha : Forall addr_char a) (Hl : 0 < zlen a < addr_size) (Hm : 10 ≤ m < 2 ^ 63) :
  read_server_line (a ++ [9] ++ decimal m) = Ok (mkServerinfo a (m / 10), []).
Proof.
  assert (0 < m / 10 < 2 ^ 63) as Hq
    by (split; [apply Z.div_str_pos; lia|apply Z.div_lt_upper_bound; lia]).
  assert (decimal m = decimal (m / 10) ++ [48 + m mod 10]) as ->.
  { unfold decimal. rewrite (decimal_digits_fuel 18 (m / 10)).
    - change (decimal_digits 20 m) with
        ((if m <? 10 then [] else decimal_digits 19 (m / 10)) ++ [48 + m mod 10]).
      by rewrite (proj2 (Z.ltb_ge m 10)) by lia.
    - change (10 ^ Z.of_nat 19) with (10 ^ 19). lia. }
  apply read_server_line_spec; [done|done|done|]. pose proof (Z.mod_pos_bound m 10 ltac:(lia)).
  unfold is_delim. by rewrite !(proj2 (Z.eqb_neq _ _)) by lia.
Qed.

(** "a:1<tab>300" is read as 30. *)
Example unterminated_line_loses_digit_witness :
  read_server_line [97; 58; 49; 9; 51; 48; 48] = Ok (mkServerinfo [97; 58; 49] 30, []).
Proof.
  apply (unterminated_line_loses_digit [97; 58; 49] 300).
  - repeat constructor; done.
  - done.
  - done.
Defined.

(** ** Publishing the continuum *)

(** What the code relies on [qsort] for. *)
Class Qsort (qsort : (mcs → mcs → Z) → list mcs → list mcs) : Prop := {
  qsort_perm : ∀ cmp l, Permutation (qsort cmp l) l;
  qsort_sorted : ∀ cmp l,
    (∀ a b, cmp a b ≤ 0 ∨ cmp b a ≤ 0) → (∀ a b c, cmp a b ≤ 0 → cmp b c ≤ 0 → cmp a c ≤ 0) →
    StronglySorted (λ a b, cmp a b ≤ 0) (qsort cmp l)
}.

Lemma ketama_compare_le a b : ketama_compare a b ≤ 0 ↔ point_le a b.
Proof.
  unfold ketama_compare, point_le.
  destruct (Z.ltb_spec (point a) (point b)); [lia|]. destruct (Z.ltb_spec (point b) (point a)); lia.
Qed.

(** A file whose continuum can be published: its servers fit the segment. *)
Record publishable (ls : list file_line) : Prop := {
  pub_lines : Forall line_ok ls;
  pub_some : servers_of ls ≠ [];
  pub_total : sum_memory (servers_of ls) < 2 ^ 64;
  pub_size : zlen (servers_of ls) ≤ 117
}.

Lemma servers_of_ok ls :
  Forall line_ok ls → Forall (λ s, 0 < memory s ∧ zlen (addr s) < addr_size) (servers_of ls).
Proof.
  induction 1 as [|l ls Hl _ IH]; [constructor|]. destruct l as [s|text|]; cbn [servers_of omap list_omap];
    [|done..]. constructor; [|done]. destruct Hl as (_ & Hl & _ & Hm). split; [lia|apply Hl].
Qed.

Lemma sum_memory_nonneg l : Forall (λ s, 0 < memory s ∧ zlen (addr s) < addr_size) l → 0 ≤ sum_memory l.
Proof. unfold sum_memory. induction 1 as [|s l [Hs _] _ IH]; cbn [foldr]; lia. Qed.

Section Publish.
Context (qsort : (mcs → mcs → Z) → list mcs → list mcs) `{Hq : !Qsort qsort}.
Context (file_at : nat → option bytes) (mtime_at : nat → Z) (sem_ok : bool).
Context (sem_released : nat → bool).
Context (ls : list file_line) (Hpub : publishable ls).
Context (Hfile : ∀ t, file_at t = Some (ls ≫= render_line)).

Abbreviation create := (ketama_create_continuum qsort file_at mtime_at true).
Abbreviation loop := (roll_loop qsort file_at mtime_at true).
Abbreviation roll := (ketama_roll qsort file_at mtime_at true sem_ok true sem_released).

(** The points that are published. *)
Definition published : list mcs :=
  qsort ketama_compare (all_points (servers_of ls) (sum_memory (servers_of ls))).

Lemma published_sorted : StronglySorted point_le published.
Proof.
  assert (∀ l, StronglySorted (λ a b, ketama_compare a b ≤ 0) l → StronglySorted point_le l) as Hmono.
  { induction 1 as [|x l _ IH Hx]; constructor; [done|]. eapply Forall_impl; [exact Hx|].
    intros y. apply ketama_compare_le. }
  apply Hmono, qsort_sorted; intros a b; rewrite ?ketama_compare_le; [unfold point_le; lia|].
  intros c. rewrite !ketama_compare_le. unfold point_le. lia.
Qed.

Lemma create_spec w :
  create w =
  Ok (true, mkWorld (S (S (clock w))) (sem w)
              (Some (mkSegment (zlen published) (mtime_at (S (clock w))) published)) (k_error w)).
Proof.
  destruct Hpub as [Hls Hne Ht Hn]. pose proof (servers_of_ok ls Hls) as Hs.
  pose proof (sum_memory_nonneg _ Hs). unfold ketama_create_continuum.
  rewrite Hfile, definitions_spec by done. unfold u64. rewrite wrapu_small by lia.
  destruct (build_continuum_spec (servers_of ls)) as [Hb Hl]; [done|done|lia|].
  assert (zlen published = zlen (all_points (servers_of ls) (sum_memory (servers_of ls)))) as Hz.
  { unfold zlen, published. by rewrite qsort_perm. }
  cbn [mbind result_bind]. assert ((zlen (servers_of ls) <? 1) = false) as ->.
  { apply Z.ltb_ge. destruct (servers_of ls); [done|]. unfold zlen. cbn [length]. lia. }
  rewrite Hb. cbn [mbind result_bind negb file_modtime]. unfold file_modtime. fold published.
  rewrite (proj2 (Z.ltb_ge _ _)); [done|]. unfold MC_SHMSIZE. lia.
Qed.

(** The world after the continuum was published. *)
Definition published_world (w : world) : world :=
  mkWorld (S (S (clock w))) ((λ _, 1) <$> sem w)
    (Some (mkSegment (zlen published) (mtime_at (S (clock w))) published)) (k_error w).

(** A round that creates the continuum. *)
Lemma loop_create fuel modtime cont w :
  shm w = None ∨ attached cont = true →
  loop (S fuel) modtime cont w =
  if mtime_at (S (clock w)) =? modtime
  then Ok (true, mkContinuum (zlen published) true, published_world w)
  else loop fuel modtime (mkContinuum (zlen published) true) (published_world w).
Proof.
  intros Hc. cbn [roll_loop].
  assert (bool_decide (shm w = None) || attached cont = true) as ->.
  { destruct Hc as [->| ->]; [done|]. by rewrite orb_true_r. }
  rewrite create_spec. cbn [mbind result_bind negb]. unfold ketama_sem_unlock, ketama_sem_lock, semctl_set.
  cbn [set_sem sem shm clock k_error seg_nump seg_modtime].
  assert (∀ o : option Z, (λ _ : Z, 1) <$> ((λ _ : Z, 2) <$> o) = (λ _ : Z, 1) <$> o) as Hsem by by intros [].
  by rewrite Hsem.
Qed.

(** A round that only attaches to the segment. *)
Lemma loop_attach fuel modtime cont w old :
  shm w = Some old → attached cont = false →
  loop (S fuel) modtime cont w =
  if seg_modtime old =? modtime then Ok (true, mkContinuum (seg_nump old) true, w)
  else loop fuel modtime (mkContinuum (seg_nump old) true) w.
Proof.
  intros Hw Hc. cbn [roll_loop]. rewrite Hc, Hw, bool_decide_eq_false_2 by done.
  cbn [orb mbind result_bind negb]. by rewrite Hw.
Qed.

(** Waiting for the semaphore changes nothing but the semaphore, which is free at the end. *)
Lemma sem_wait_spec rounds i w :
  ∃ v, sem_wait sem_released rounds i w = set_sem v w ∧ v ≠ Some 2.
Proof.
  revert i. induction rounds as [|rounds IH]; intros i; cbn [sem_wait];
    (destruct (bool_decide_reflect (sem w = Some 2)) as [Hs|Hs];
     [|exists (sem w); by destruct w]);
    unfold ketama_sem_unlock, semctl_set; rewrite Hs.
  - exists (Some 1). by destruct (sem_released i).
  - destruct (sem_released i); [by exists (Some 1)|apply IH].
Qed.

(** [ketama_roll] up to its loop. *)
Lemma roll_unfold fuel w :
  ∃ v, v ≠ Some 2 ∧
  roll fuel w =
  let* '(ok, cont, w') := loop fuel (mtime_at (clock w)) (mkContinuum 0 false)
                            (mkWorld (S (clock w)) v (shm w) []) in
  Ok (ok, Some cont, w').
Proof.
  unfold ketama_roll. cbn [negb].
  destruct (sem_wait_spec (Z.to_nat 1000000) 0 (ketama_sem_init sem_ok (set_error [] w))) as (v & -> & Hv).
  exists v. split; [done|]. unfold ketama_sem_init, ketama_sem_unlock, semctl_set, file_modtime.
  destruct w as [c s m e]. cbn [set_error sem]. by destruct s, sem_ok.
Qed.

(** When the file is left alone. *)
Lemma roll_stable fuel w mt :
  (∀ t, mtime_at t = mt) → (2 ≤ fuel)%nat →
  ∃ seg w', roll fuel w = Ok (true, Some (mkContinuum (seg_nump seg) true), w') ∧
    shm w' = Some seg ∧ seg_modtime seg = mt ∧ sem w' ≠ Some 2 ∧ k_error w' = [] ∧
    ((∃ old, shm w = Some old ∧ seg_modtime old = mt ∧ seg = old) ∨
     seg = mkSegment (zlen published) mt published).
Proof.
  intros Hmt Hf. destruct (roll_unfold fuel w) as (v & Hv & ->). rewrite Hmt.
  destruct fuel as [|[|fuel]]; [lia..|].
  assert (∀ w', sem (published_world w') ≠ Some 2) as Hfree by (intros w'; cbn; by destruct (sem w')).
  destruct (shm w) as [old|] eqn:Hw.
  - destruct (Z.eqb_spec (seg_modtime old) mt) as [He|He].
    + exists old. eexists. erewrite loop_attach by done. rewrite (proj2 (Z.eqb_eq _ _) He).
      split; [reflexivity|]. naive_solver.
    + exists (mkSegment (zlen published) mt published). eexists. erewrite loop_attach by done.
      rewrite (proj2 (Z.eqb_neq _ _) He). rewrite loop_create by by right.
      rewrite Hmt, Z.eqb_refl. split; [reflexivity|].
      split; [cbn; by rewrite Hmt|]. split; [done|]. split; [apply Hfree|]. split; [done|by right].
  - exists (mkSegment (zlen published) mt published). eexists.
    rewrite loop_create by by left. rewrite Hmt, Z.eqb_refl. split; [reflexivity|].
    split; [cbn; by rewrite Hmt|]. split; [done|]. split; [apply Hfree|]. split; [done|by right].
Qed.

End Publish.


(** An insertion sort in the place of [qsort]. *)
Fixpoint insert_by (cmp : mcs → mcs → Z) (x : mcs) (l : list mcs) : list mcs :=
  match l with
  | [] => [x]
  | y :: l' => if cmp x y <=? 0 then x :: l else y :: insert_by cmp x l'
  end.
Definition insertion_sort (cmp : mcs → mcs → Z) (l : list mcs) : list mcs :=
  foldr (insert_by cmp) [] l.

Lemma insert_by_perm cmp x l : Permutation (insert_by cmp x l) (x :: l).
Proof.
  induction l as [|y l IH]; simpl; [done|]. destruct (cmp x y <=? 0); [done|].
  rewrite IH. apply Permutation_swap.
Qed.

#[export] Instance insertion_sort_qsort : Qsort insertion_sort.
Proof.
  split.
  - intros cmp l. unfold insertion_sort. induction l as [|x l IH]; simpl; [done|].
    by rewrite insert_by_perm, IH.
  - intros cmp l Htot Htr. unfold insertion_sort. induction l as [|x l IH]; simpl; [constructor|].
    induction IH as [|y l' Hs IH' Hy]; simpl; [repeat constructor|].
    destruct (Z.leb_spec (cmp x y) 0) as [Hle|Hgt].
    + constructor; [by constructor|]. constructor; [done|].
      eapply Forall_impl; [exact Hy|]. intros z Hz. by apply (Htr x y z).
    + constructor; [done|]. rewrite insert_by_perm. constructor; [|done].
      destruct (Htot x y); [lia|done].
Qed.


(** [ketama_roll] reads the modification time of the file once, before its loop.  If
    the file is touched after that, the loop never ends: every round publishes the
    continuum with the new time and compares it with the old one. *)
Theorem ketama_roll_livelock (qsort : (mcs → mcs → Z) → list mcs → list mcs) (Hq : Qsort qsort)
  (ls : list file_line) (Hpub : publishable ls) (mtime_at : nat → Z) (sem_ok : bool)
  (sem_released : nat → bool) (w : world)
  (Hshm : ∀ old, shm w = Some old → seg_modtime old ≠ mtime_at (clock w))
  (Htouch : ∀ t, (clock w < t)%nat → mtime_at t ≠ mtime_at (clock w)) (fuel : nat) :
  ketama_roll qsort (λ _, Some (ls ≫= render_line)) mtime_at true sem_ok true sem_released fuel w =
    Fail OutOfFuel.
Proof.
  destruct (roll_unfold qsort (λ _, Some (ls ≫= render_line)) mtime_at sem_ok sem_released fuel w)
    as (v & _ & ->).
  assert (∀ fuel cont w', (clock w < clock w')%nat → shm w' = None ∨ attached cont = true →
    roll_loop qsort (λ _, Some (ls ≫= render_line)) mtime_at true fuel (mtime_at (clock w)) cont w' =
      Fail OutOfFuel) as Hloop.
  { induction fuel0 as [|fuel' IH]; intros cont w' Hc Hs; [done|].
    rewrite (loop_create qsort _ mtime_at ls Hpub (λ _, eq_refl)) by done.
    rewrite (proj2 (Z.eqb_neq _ _)) by (apply Htouch; lia).
    apply IH; [cbn; lia|by right]. }
  destruct (shm w) as [old|] eqn:Hw; [|rewrite Hloop; [done|cbn; lia|by left]].
  destruct fuel as [|fuel]; [done|].
  erewrite loop_attach by done. rewrite (proj2 (Z.eqb_neq _ _)) by (by apply Hshm).
  rewrite Hloop; [done|cbn; lia|by right].
Qed.

Example ketama_roll_livelock_witness :
  let ls := [LServer (mkServerinfo [97; 58; 49] 3)] in
  ketama_roll insertion_sort (λ _, Some (ls ≫= render_line))
    (λ t, match t with O => 41 | _ => 42 end) true true true (λ _, false) 1000
    (mkWorld 0 None None []) = Fail OutOfFuel.
Proof.
  intros ls. apply (ketama_roll_livelock insertion_sort insertion_sort_qsort ls).
  - split; [|done|done|done].
    repeat constructor; cbn; unfold text_char, addr_size, zlen; cbn; lia || done.
  - done.
  - intros t Ht. destruct t; [cbn in Ht; lia|]. done.
Defined.
