(* ===== verification/Transport.v ===== *)
(** * Transports of the thrift library: interface and common parts

    [lib/cpp/src/thrift/transport/TTransport.h] and the class [TBufferBase] of
    [TBufferTransports.h].  A transport is a type of states with the operations
    of the class [Transport]; what its users rely on is stated by
    [ReadLaws] and [WriteLaws], which the implementations discharge. *)

From S2P Require Import Prelude Bytes.
From stdpp Require Import base list.
From Stdlib Require Import ZArith Lia.

Local Open Scope Z_scope.

(** ** Exceptions *)

(** [TTransportExceptionType] of [TTransportException.h]. *)
Inductive TTransportExceptionType :=
| UNKNOWN | NOT_OPEN | TIMED_OUT | END_OF_FILE | INTERRUPTED | BAD_ARGS | CORRUPTED_DATA
| INTERNAL_ERROR.

(** [TProtocolExceptionType] of [TProtocolException.h]. *)
Inductive TProtocolExceptionType :=
| P_UNKNOWN | INVALID_DATA | NEGATIVE_SIZE | SIZE_LIMIT | BAD_VERSION | P_NOT_IMPLEMENTED.

(** What the code throws: the two classes above, the base class [TException]
    itself and [std::bad_alloc]. *)
Inductive texn :=
| TTransportExn (t : TTransportExceptionType)
| TProtocolExn (t : TProtocolExceptionType)
| TPlainExn
| TBadAlloc.

#[export] Instance TTransportExceptionType_eq_dec : EqDecision TTransportExceptionType.
Proof. solve_decision. Defined.
#[export] Instance TProtocolExceptionType_eq_dec : EqDecision TProtocolExceptionType.
Proof. solve_decision. Defined.
#[export] Instance texn_eq_dec : EqDecision texn.
Proof. solve_decision. Defined.

(** ** The interface [TTransport]

    [read len] delivers between 1 and [len] bytes, or none at the end of the
    stream; [borrow len] delivers [None] for a null pointer and otherwise all
    the bytes that can be borrowed. *)
Class Transport (S : Type) := {
  t_read : Z → M texn S bytes;
  t_readAll : Z → M texn S bytes;
  t_write : bytes → M texn S unit;
  t_flush : M texn S unit;
  t_borrow : Z → M texn S (option bytes);
  t_consume : Z → M texn S unit }.

(** The template [readAll]: [read] until all bytes are there.  Every round gets
    at least one byte, so [len] rounds are enough. *)
Section ReadAll.
Context {St : Type} (read : Z → M texn St bytes).

Fixpoint readAll_loop (fuel : nat) (len : Z) (have : bytes) : M texn St bytes :=
  if zlen have <? len then
    match fuel with
    | O => stuck OutOfFuel
    | S fuel' =>
        let* get := read (len - zlen have) in
        if zlen get <=? 0 then throw (TTransportExn END_OF_FILE)
        else readAll_loop fuel' len (have ++ get)
    end
  else mret have.

Definition readAll (len : Z) : M texn St bytes := readAll_loop (Z.to_nat len) len [].
End ReadAll.

(** ** Laws

    [inp s] are the bytes that can still be read, [out s] the bytes that have
    been written. *)
Class StreamRead {S} (read : Z → M texn S bytes) (inp out : S → bytes) (ok : S → Prop) :=
  stream_read : ∀ s n, ok s → 0 < n →
    ∃ s' got, read n s = Ret got s' ∧ ok s' ∧ out s' = out s ∧ inp s = got ++ inp s' ∧
      zlen got ≤ n ∧ (inp s ≠ [] → got ≠ []).

Class ReadLaws (S : Type) `{Transport S} (inp out : S → bytes) (ok : S → Prop) := {
  law_readAll : ∀ s n, ok s → 0 ≤ n ≤ zlen (inp s) →
    ∃ s', t_readAll n s = Ret (ztake n (inp s)) s' ∧ ok s' ∧
          inp s' = zdrop n (inp s) ∧ out s' = out s;
  law_readAll_eof : ∀ s n, ok s → zlen (inp s) < n →
    ∃ s', t_readAll n s = Exn (TTransportExn END_OF_FILE) s' ∧ ok s';
  law_borrow : ∀ s n, ok s → 0 < n →
    ∃ s' o, t_borrow n s = Ret o s' ∧ ok s' ∧ inp s' = inp s ∧ out s' = out s ∧
      match o with
      | None => True
      | Some l => n ≤ zlen (inp s) ∧ ztake n l = ztake n (inp s) ∧
          ∀ k, 0 ≤ k ≤ n → ∃ s'', t_consume k s' = Ret tt s'' ∧ ok s'' ∧ inp s'' = zdrop k (inp s) ∧ out s'' = out s
      end }.

(** [room s] bytes can be written without an error. *)
Class WriteLaws (S : Type) `{Transport S} (out : S → bytes) (room : S → Z) (ok : S → Prop) :=
  law_write : ∀ s data, ok s → zlen data ≤ room s →
    ∃ s', t_write data s = Ret tt s' ∧ ok s' ∧ out s' = out s ++ data ∧
          room s - zlen data ≤ room s'.

Section ReadAllSpec.
Context {S : Type} (read : Z → M texn S bytes) (inp out : S → bytes) (ok : S → Prop)
  `{!StreamRead read inp out ok}.

Lemma readAll_loop_spec fuel len have s :
  ok s → zlen have ≤ len → len - zlen have ≤ Z.of_nat fuel →
  if len - zlen have <=? zlen (inp s) then
    ∃ s', readAll_loop read fuel len have s = Ret (have ++ ztake (len - zlen have) (inp s)) s' ∧
      ok s' ∧ inp s' = zdrop (len - zlen have) (inp s) ∧ out s' = out s
  else ∃ s', readAll_loop read fuel len have s = Exn (TTransportExn END_OF_FILE) s' ∧ ok s'.
Proof.
  revert have s. induction fuel as [|fuel IH]; intros have s Hok Hle Hf; simpl.
  - destruct (Z.ltb_spec (zlen have) len); [lia|].
    assert (len - zlen have = 0) as -> by lia. pose proof (zlen_nonneg (inp s)).
    destruct (Z.leb_spec 0 (zlen (inp s))); [|lia]. exists s. by rewrite app_nil_r.
  - destruct (Z.ltb_spec (zlen have) len) as [Hlt|].
    2: { assert (len - zlen have = 0) as -> by lia. pose proof (zlen_nonneg (inp s)).
         destruct (Z.leb_spec 0 (zlen (inp s))); [|lia]. exists s. by rewrite app_nil_r. }
    destruct (stream_read s (len - zlen have) Hok) as (s' & got & Hr & Hok' & Hout & Hin & Hgot & Hne);
      [lia|].
    rewrite (M_bind_ret _ _ _ _ _ Hr). destruct (Z.leb_spec (zlen got) 0) as [Hz|Hz].
    + assert (got = []) as -> by (apply zlen_zero_nil; pose proof (zlen_nonneg got); lia).
      assert (inp s = []) as ->.
      { destruct (decide (inp s = [])) as [|Hn]; [done|]. by specialize (Hne Hn). }
      rewrite zlen_nil. destruct (Z.leb_spec (len - zlen have) 0); [lia|]. by exists s'.
    + specialize (IH (have ++ got) s' Hok'). rewrite zlen_app in IH.
      specialize (IH ltac:(lia) ltac:(lia)).
      rewrite Hin, zlen_app. destruct (Z.leb_spec (len - (zlen have + zlen got)) (zlen (inp s'))).
      * destruct IH as (s2 & -> & Hok2 & Hin2 & Hout2).
        destruct (Z.leb_spec (len - zlen have) (zlen got + zlen (inp s'))); [|lia].
        exists s2. rewrite ztake_app_ge, zdrop_app_ge, app_assoc by lia.
        rewrite Hin2, Z.sub_add_distr. split_and!; [done..|congruence].
      * destruct (Z.leb_spec (len - zlen have) (zlen got + zlen (inp s'))); [lia|done].
Qed.

Lemma readAll_spec s n :
  ok s → 0 ≤ n ≤ zlen (inp s) →
  ∃ s', readAll read n s = Ret (ztake n (inp s)) s' ∧ ok s' ∧
        inp s' = zdrop n (inp s) ∧ out s' = out s.
Proof.
  intros Hok Hn. pose proof (readAll_loop_spec (Z.to_nat n) n [] s Hok) as Hs.
  rewrite zlen_nil, Z.sub_0_r in Hs. destruct (Z.leb_spec n (zlen (inp s))); [|lia].
  destruct Hs as (s' & Hr & Hs); [lia..|]. exists s'. by split.
Qed.

Lemma readAll_eof s n :
  ok s → zlen (inp s) < n → ∃ s', readAll read n s = Exn (TTransportExn END_OF_FILE) s' ∧ ok s'.
Proof.
  intros Hok Hn. pose proof (readAll_loop_spec (Z.to_nat n) n [] s Hok) as Hs.
  rewrite zlen_nil, Z.sub_0_r in Hs. pose proof (zlen_nonneg (inp s)).
  destruct (Z.leb_spec n (zlen (inp s))); [lia|]. apply Hs; lia.
Qed.
End ReadAllSpec.

(** ** [TBufferBase]

    The fast paths of [read], [readAll], [write], [borrow] and [consume], shared
    by the transports that keep their data in buffers.  Pointers are offsets
    into the buffer they point to. *)
Class BufferBase (S : Type) := {
  bb_rbuf : S → bytes;
  bb_rBase : S → Z;
  bb_rBound : S → Z;
  bb_set_rBase : Z → S → S;
  bb_wBase : S → Z;
  bb_wBound : S → Z;
  bb_copy : bytes → S → S;        (* memcpy(wBase_, data, len); wBase_ += len *)
  bb_readSlow : Z → M texn S bytes;
  bb_writeSlow : bytes → M texn S unit;
  bb_borrowSlow : Z → M texn S (option bytes) }.

Section BufferBase.
Context {S : Type} `{BufferBase S}.

Definition base_read (len : Z) : M texn S bytes := λ s,
  if bb_rBase s + len <=? bb_rBound s then
    Ret (sub (bb_rbuf s) (bb_rBase s) len) (bb_set_rBase (bb_rBase s + len) s)
  else bb_readSlow len s.

Definition base_readAll (len : Z) : M texn S bytes := λ s,
  if bb_rBase s + len <=? bb_rBound s then
    Ret (sub (bb_rbuf s) (bb_rBase s) len) (bb_set_rBase (bb_rBase s + len) s)
  else readAll base_read len s.

Definition base_write (data : bytes) : M texn S unit := λ s,
  if bb_wBase s + zlen data <=? bb_wBound s then Ret tt (bb_copy data s)
  else bb_writeSlow data s.

Definition base_borrow (len : Z) : M texn S (option bytes) := λ s,
  if len <=? bb_rBound s - bb_rBase s then
    Ret (Some (sub (bb_rbuf s) (bb_rBase s) (bb_rBound s - bb_rBase s))) s
  else bb_borrowSlow len s.

Definition base_consume (len : Z) : M texn S unit := λ s,
  if len <=? bb_rBound s - bb_rBase s then Ret tt (bb_set_rBase (bb_rBase s + len) s)
  else Exn (TTransportExn BAD_ARGS) s.

End BufferBase.

(** The transport made of the fast paths and a [flush]. *)
Definition base_transport {S} `{BufferBase S} (flush : M texn S unit) : Transport S := {|
  t_read := base_read; t_readAll := base_readAll; t_write := base_write;
  t_flush := flush; t_borrow := base_borrow; t_consume := base_consume |}.

(** What the slow paths have to provide for the fast paths to be correct. *)
Class BufferBaseLaws (S : Type) `{BufferBase S} (inp out : S → bytes) (ok : S → Prop) := {
  bb_range : ∀ s, ok s → 0 ≤ bb_rBase s ≤ bb_rBound s ∧ bb_rBound s ≤ zlen (bb_rbuf s);
  bb_inp : ∀ s, ok s →
    ∃ rest, inp s = sub (bb_rbuf s) (bb_rBase s) (bb_rBound s - bb_rBase s) ++ rest;
  bb_set_rBase_law : ∀ s p, ok s → bb_rBase s ≤ p ≤ bb_rBound s →
    ok (bb_set_rBase p s) ∧ inp (bb_set_rBase p s) = zdrop (p - bb_rBase s) (inp s) ∧
    out (bb_set_rBase p s) = out s;
  bb_readSlow_law : ∀ s n, ok s → bb_rBound s < bb_rBase s + n →
    ∃ s' got, bb_readSlow n s = Ret got s' ∧ ok s' ∧ out s' = out s ∧ inp s = got ++ inp s' ∧
      zlen got ≤ n ∧ (inp s ≠ [] → got ≠ []);
  bb_borrowSlow_law : ∀ s n, ok s → bb_rBound s - bb_rBase s < n →
    ∃ s' o, bb_borrowSlow n s = Ret o s' ∧ ok s' ∧ inp s' = inp s ∧ out s' = out s ∧
      match o with
      | None => True
      | Some l => n ≤ bb_rBound s' - bb_rBase s' ∧
          l = sub (bb_rbuf s') (bb_rBase s') (bb_rBound s' - bb_rBase s')
      end }.

Section BufferBaseSpec.
Context {S : Type} `{BufferBaseLaws S inp out ok}.

Lemma bb_inp_prefix s n :
  ok s → 0 ≤ n → bb_rBase s + n ≤ bb_rBound s →
  n ≤ zlen (inp s) ∧ sub (bb_rbuf s) (bb_rBase s) n = ztake n (inp s).
Proof.
  intros Hok Hn Hle. destruct (bb_range s Hok) as [[? ?] ?]. destruct (bb_inp s Hok) as [rest ->].
  rewrite zlen_app, zlen_sub by lia. pose proof (zlen_nonneg rest).
  split; [lia|]. rewrite ztake_app_le by (rewrite zlen_sub; lia). by rewrite ztake_sub by lia.
Qed.

Lemma base_fast_read s n :
  ok s → 0 ≤ n → bb_rBase s + n ≤ bb_rBound s →
  let s' := bb_set_rBase (bb_rBase s + n) s in
  sub (bb_rbuf s) (bb_rBase s) n = ztake n (inp s) ∧ ok s' ∧ n ≤ zlen (inp s) ∧
  inp s' = zdrop n (inp s) ∧ out s' = out s.
Proof.
  intros Hok Hn Hle. destruct (bb_inp_prefix s n Hok Hn Hle) as [Hlen Hsub].
  destruct (bb_set_rBase_law s (bb_rBase s + n) Hok) as (Hok' & Hin & Hout); [lia|].
  rewrite Z.add_simpl_l in Hin. by split_and!.
Qed.

#[export] Instance base_read_stream : StreamRead base_read inp out ok.
Proof.
  intros s n Hok Hn. unfold base_read. destruct (Z.leb_spec (bb_rBase s + n) (bb_rBound s)).
  - destruct (base_fast_read s n Hok) as (Hsub & Hok' & Hlen & Hin & Hout); [lia..|].
    eexists _, _. split; [reflexivity|]. rewrite Hin, Hout, Hsub, ztake_zdrop.
    rewrite zlen_ztake by lia. split_and!; try done.
    intros _ Heq. apply (f_equal (zlen (A := Z))) in Heq. rewrite zlen_ztake, zlen_nil in Heq; lia.
  - by apply bb_readSlow_law.
Qed.

Lemma base_read_laws flush :
  ReadLaws S (H := base_transport flush) inp out ok.
Proof.
  split; simpl.
  - intros s n Hok Hn. unfold base_readAll. destruct (Z.leb_spec (bb_rBase s + n) (bb_rBound s)).
    + destruct (base_fast_read s n Hok) as (Hsub & Hok' & Hlen & Hin & Hout); [lia..|].
      eexists. split; [by rewrite Hsub|]. done.
    + by apply (readAll_spec base_read inp out ok).
  - intros s n Hok Hn. unfold base_readAll. destruct (Z.leb_spec (bb_rBase s + n) (bb_rBound s)).
    + destruct (bb_inp_prefix s n Hok) as [Hle _]; [pose proof (zlen_nonneg (inp s)); lia..|lia].
    + by apply (readAll_eof base_read inp out ok).
  - intros s n Hok Hn. unfold base_borrow.
    assert (∀ s1, ok s1 → inp s1 = inp s → out s1 = out s → n ≤ bb_rBound s1 - bb_rBase s1 →
      n ≤ zlen (inp s) ∧
      ztake n (sub (bb_rbuf s1) (bb_rBase s1) (bb_rBound s1 - bb_rBase s1)) = ztake n (inp s) ∧
      ∀ k, 0 ≤ k ≤ n → ∃ s'', base_consume k s1 = Ret tt s'' ∧ ok s'' ∧ inp s'' = zdrop k (inp s) ∧ out s'' = out s)
      as Hsome.
    { intros s1 Hok1 Hin1 Hout1 Hle. destruct (bb_range s1 Hok1) as [[? ?] ?].
      destruct (base_fast_read s1 n Hok1) as (Hsub & Hok' & Hlen & Hin & Hout); [lia..|].
      rewrite Hin1 in *. rewrite Hout1 in *. split; [done|].
      rewrite ztake_sub by lia. split; [done|]. intros k Hk. unfold base_consume.
      destruct (base_fast_read s1 k Hok1) as (_ & Hokk & _ & Hink & Houtk); [lia..|].
      destruct (Z.leb_spec k (bb_rBound s1 - bb_rBase s1)); [|lia]. rewrite Hin1 in Hink. rewrite Hout1 in Houtk. eauto. }
    destruct (Z.leb_spec n (bb_rBound s - bb_rBase s)).
    + eexists _, _. split; [reflexivity|]. do 3 (split; [done|]). apply Hsome; [done..|lia].
    + destruct (bb_borrowSlow_law s n Hok) as (s' & o & Hb & Hok' & Hin & Hout & Ho); [lia|].
      exists s', o. do 4 (split; [done|]). destruct o as [l|]; [|done].
      destruct Ho as [Hle ->]. by apply Hsome.
Qed.

End BufferBaseSpec.
