(* ===== verification/BufferTransports.v ===== *)
(** * [TMemoryBuffer], [TBufferedTransport] and [TFramedTransport]

    The three transports of [transport/TBufferTransports.{h,cpp}].  The storage
    servers and the view service exchange frames: [ServerConnection] puts a
    [TFramedTransport] on its socket and [TNonblockingServer] hands each frame to
    the processor in a [TMemoryBuffer]. *)

From S2P Require Import Prelude Bytes Transport.
From stdpp Require Import base list.
From Stdlib Require Import ZArith Lia.

Local Open Scope Z_scope.

(** [malloc], [realloc] and [new] of the given number of bytes may fail. *)
Class Malloc := malloc_ok : Z → bool.

(** The contents of fresh memory are not specified. *)
Definition fresh_block (n : Z) : bytes := replicate (Z.to_nat n) 0.

Lemma zlen_fresh_block n : 0 ≤ n → zlen (fresh_block n) = n.
Proof. unfold zlen, fresh_block. rewrite length_replicate. lia. Qed.

(** ** [TMemoryBuffer]

    The pointers are offsets from [buffer_]; a null [buffer_] is the empty
    block. *)
Record TMemoryBuffer := mkMB {
  buffer_ : bytes; bufferSize_ : Z;
  rBase_ : Z; rBound_ : Z; wBase_ : Z; wBound_ : Z; owner_ : bool }.

Definition mb_with_r (rb rn : Z) (s : TMemoryBuffer) : TMemoryBuffer :=
  mkMB (buffer_ s) (bufferSize_ s) rb rn (wBase_ s) (wBound_ s) (owner_ s).

Inductive MemoryPolicy := OBSERVE | COPY | TAKE_OWNERSHIP.

Definition defaultSize : Z := 1024.

Module MemoryBuffer.
Section MemoryBuffer.
Context `{Malloc}.

Abbreviation MB := (M texn TMemoryBuffer).

(** [initCommon] for a given block, and for a fresh one. *)
Definition initCommon (buf : bytes) (size : Z) (owner : bool) (wPos : Z) : TMemoryBuffer :=
  mkMB buf size 0 wPos wPos size owner.

Definition available_read (s : TMemoryBuffer) : Z := u32 (wBase_ s - rBase_ s).
Definition available_write (s : TMemoryBuffer) : Z := u32 (wBound_ s - wBase_ s).

(** The loop that doubles the size; the sizes are [uint32_t].  33 rounds are
    enough to reach every size up to [2 ^ 31]. *)
Fixpoint grow_loop (fuel : nat) (len bufferSize avail0 new_size avail : Z) : option Z :=
  if avail <? len then
    match fuel with
    | O => None
    | S fuel' =>
        let new_size := if 0 <? new_size then u32 (new_size * 2) else 1 in
        grow_loop fuel' len bufferSize avail0 new_size (u32 (avail0 + u32 (new_size - bufferSize)))
    end
  else Some new_size.

(** [realloc] keeps the contents up to the smaller of the two sizes. *)
Definition realloc (buf : bytes) (new_size : Z) : bytes :=
  ztake new_size (buf ++ fresh_block (new_size - zlen buf)).

Definition ensureCanWrite (len : Z) : MB unit := λ s,
  let avail := available_write s in
  if len <=? avail then Ret tt s else
  if negb (owner_ s) then Exn (TTransportExn UNKNOWN) s else
  match grow_loop 40 len (bufferSize_ s) avail (bufferSize_ s) avail with
  | None => Stuck OutOfFuel
  | Some new_size =>
      if malloc_ok new_size then
        Ret tt (mkMB (realloc (buffer_ s) new_size) new_size (rBase_ s) (rBound_ s) (wBase_ s)
                  new_size (owner_ s))
      else Exn TBadAlloc s
  end.

(** [memcpy(wBase_, buf, len); wBase_ += len]. *)
Definition copy (data : bytes) (s : TMemoryBuffer) : TMemoryBuffer :=
  mkMB (memcpy (buffer_ s) (wBase_ s) data) (bufferSize_ s) (rBase_ s) (rBound_ s)
    (wBase_ s + zlen data) (wBound_ s) (owner_ s).

Definition copy_checked (data : bytes) : MB unit := λ s,
  if wBase_ s + zlen data <=? zlen (buffer_ s) then Ret tt (copy data s) else Stuck OutOfBounds.

Definition writeSlow (data : bytes) : MB unit :=
  ensureCanWrite (zlen data) ;; copy_checked data.

(** [computeRead]: the bytes from [out_start] on, of which there are
    [out_give]. *)
Definition computeRead (len : Z) : MB bytes := λ s,
  let give := Z.min len (available_read s) in
  Ret (sub (buffer_ s) (rBase_ s) give) (mb_with_r (rBase_ s + give) (wBase_ s) s).

Definition readSlow (len : Z) : MB bytes := computeRead len.

Definition borrowSlow (len : Z) : MB (option bytes) := λ s,
  let s' := mb_with_r (rBase_ s) (wBase_ s) s in
  if len <=? available_read s' then Ret (Some (sub (buffer_ s) (rBase_ s) (available_read s'))) s'
  else Ret None s'.

#[export] Instance memory_buffer_base : BufferBase TMemoryBuffer := {
  bb_rbuf := buffer_; bb_rBase := rBase_; bb_rBound := rBound_;
  bb_set_rBase p s := mb_with_r p (rBound_ s) s;
  bb_wBase := wBase_; bb_wBound := wBound_; bb_copy := copy;
  bb_readSlow := readSlow; bb_writeSlow := writeSlow; bb_borrowSlow := borrowSlow }.

(** [TTransport::flush] does nothing. *)
#[export] Instance memory_buffer_transport : Transport TMemoryBuffer := base_transport (mret tt).

(** The constructors. *)
Definition TMemoryBuffer_sized (sz : Z) : texn + TMemoryBuffer :=
  if (sz =? 0) || malloc_ok sz then inr (initCommon (fresh_block sz) sz true 0) else inl TBadAlloc.

Definition TMemoryBuffer_of (buf : bytes) (policy : MemoryPolicy) : outcome texn TMemoryBuffer unit :=
  let sz := zlen buf in
  match policy with
  | OBSERVE => Ret tt (initCommon buf sz false sz)
  | TAKE_OWNERSHIP => Ret tt (initCommon buf sz true sz)
  | COPY =>
      match TMemoryBuffer_sized sz with
      | inl e => Exn e (initCommon [] 0 true 0)
      | inr s => t_write buf s
      end
  end.

(** [getBuffer]: the offset and the number of the bytes that can be read. *)
Definition getBuffer (s : TMemoryBuffer) : Z * Z := (rBase_ s, u32 (wBase_ s - rBase_ s)).

Definition getBufferAsString (s : TMemoryBuffer) : bytes :=
  sub (buffer_ s) (rBase_ s) (u32 (wBase_ s - rBase_ s)).
Definition appendBufferToString (str : bytes) (s : TMemoryBuffer) : bytes :=
  str ++ getBufferAsString s.

Definition resetBuffer (s : TMemoryBuffer) : TMemoryBuffer :=
  if owner_ s then mkMB (buffer_ s) (bufferSize_ s) 0 0 0 (wBound_ s) true
  else mkMB (buffer_ s) 0 0 0 0 0 false.

(** [resetBuffer(buf, sz, policy)] and [resetBuffer(sz)]: the object takes over
    a new one. *)
Definition resetBuffer_of (buf : bytes) (policy : MemoryPolicy) : MB unit := λ s,
  match TMemoryBuffer_of buf policy with
  | Ret _ s' => Ret tt s'
  | Exn e _ => Exn e s
  | Stuck f => Stuck f
  end.
Definition resetBuffer_sized (sz : Z) : MB unit := λ s,
  match TMemoryBuffer_sized sz with inl e => Exn e s | inr s' => Ret tt s' end.

Definition readAppendToString (str : bytes) (len : Z) : MB bytes :=
  let* got := computeRead len in mret (str ++ got).
Definition readAsString (len : Z) : MB bytes := readAppendToString [] len.

Definition readEnd : MB Z := λ s,
  Ret (u32 (rBase_ s)) (if rBase_ s =? wBase_ s then resetBuffer s else s).
Definition writeEnd (s : TMemoryBuffer) : Z := u32 (wBase_ s).

Definition peek (s : TMemoryBuffer) : bool := rBase_ s <? wBase_ s.

Definition getWritePtr (len : Z) : MB Z :=
  ensureCanWrite len ;; gets wBase_.

Definition wroteBytes (len : Z) : MB unit := λ s,
  if available_write s <? len then Exn (TTransportExn UNKNOWN) s
  else Ret tt (mkMB (buffer_ s) (bufferSize_ s) (rBase_ s) (rBound_ s) (wBase_ s + len)
                 (wBound_ s) (owner_ s)).

End MemoryBuffer.
End MemoryBuffer.

(** ** Transports on top of another one *)

Section Layered.
Context {U : Type} `{Transport U}.

(** [TBufferedTransport]: [rBuf_] and [wBuf_] are two blocks; [rBase_] and
    [rBound_] are offsets into the first, [wBase_] into the second.  [wBound_] is
    always the end of [wBuf_]. *)
Record TBufferedTransport := mkBT {
  bt_transport : U;
  bt_rBuf : bytes; bt_rBufSize : Z; bt_rBase : Z; bt_rBound : Z;
  bt_wBuf : bytes; bt_wBufSize : Z; bt_wBase : Z }.

(** [TFramedTransport]. *)
Record TFramedTransport := mkFT {
  ft_transport : U;
  ft_rBuf : bytes; ft_rBufSize : Z; ft_rBase : Z; ft_rBound : Z;
  ft_wBuf : bytes; ft_wBufSize : Z; ft_wBase : Z }.
End Layered.
Arguments TBufferedTransport : clear implicits.
Arguments TFramedTransport : clear implicits.
Arguments mkBT {U}.
Arguments mkFT {U}.

Module Buffered.
Section Buffered.
Context {U : Type} `{Transport U}.
Abbreviation BT := (M texn (TBufferedTransport U)).

Definition with_transport (u : U) (s : TBufferedTransport U) : TBufferedTransport U :=
  mkBT u (bt_rBuf s) (bt_rBufSize s) (bt_rBase s) (bt_rBound s) (bt_wBuf s) (bt_wBufSize s) (bt_wBase s).
Definition with_read (buf : bytes) (rb rn : Z) (s : TBufferedTransport U) : TBufferedTransport U :=
  mkBT (bt_transport s) buf (bt_rBufSize s) rb rn (bt_wBuf s) (bt_wBufSize s) (bt_wBase s).
Definition with_write (buf : bytes) (wb : Z) (s : TBufferedTransport U) : TBufferedTransport U :=
  mkBT (bt_transport s) (bt_rBuf s) (bt_rBufSize s) (bt_rBase s) (bt_rBound s) buf (bt_wBufSize s) wb.

(** A call of the underlying transport. *)
Definition under {A} (m : M texn U A) : BT A := λ s,
  match m (bt_transport s) with
  | Ret a u => Ret a (with_transport u s)
  | Exn e u => Exn e (with_transport u s)
  | Stuck f => Stuck f
  end.

Definition new (transport : U) (rsz wsz : Z) : TBufferedTransport U :=
  mkBT transport (fresh_block rsz) rsz 0 0 (fresh_block wsz) wsz 0.

(** Fill the empty read buffer. *)
Definition fill : BT unit :=
  let* sz := gets bt_rBufSize in
  let* got := under (t_read sz) in
  modify (λ s, with_read (memcpy (bt_rBuf s) 0 got) 0 (zlen got) s).

Definition readSlow (len : Z) : BT bytes :=
  let* have := gets (λ s, bt_rBound s - bt_rBase s) in
  if len <=? have then stuck AssertFailed else
  if 0 <? have then
    let* data := gets (λ s, sub (bt_rBuf s) (bt_rBase s) have) in
    modify (λ s, with_read (bt_rBuf s) 0 0 s) ;;
    mret data
  else
    fill ;;
    let* give := gets (λ s, Z.min len (bt_rBound s - bt_rBase s)) in
    let* data := gets (λ s, sub (bt_rBuf s) (bt_rBase s) give) in
    modify (λ s, with_read (bt_rBuf s) (bt_rBase s + give) (bt_rBound s) s) ;;
    mret data.

Definition writeSlow (buf : bytes) : BT unit :=
  let* s := gets id in
  let have_bytes := bt_wBase s in
  let space := bt_wBufSize s - bt_wBase s in
  let len := zlen buf in
  if len <=? space then stuck AssertFailed else
  if (u32 (2 * bt_wBufSize s) <=? u32 (have_bytes + len)) || (have_bytes =? 0) then
    (if 0 <? have_bytes then under (t_write (ztake have_bytes (bt_wBuf s))) else mret tt) ;;
    under (t_write buf) ;;
    modify (λ s, with_write (bt_wBuf s) 0 s)
  else
    modify (λ s, with_write (memcpy (bt_wBuf s) (bt_wBase s) (ztake space buf)) (bt_wBase s) s) ;;
    let* full := gets bt_wBuf in
    under (t_write full) ;;
    let rest := zdrop space buf in
    if bt_wBufSize s <=? zlen rest then stuck AssertFailed else
    modify (λ s, with_write (memcpy (bt_wBuf s) 0 rest) (zlen rest) s).

Definition borrowSlow (len : Z) : BT (option bytes) := mret None.

Definition flush : BT unit :=
  let* s := gets id in
  (if 0 <? bt_wBase s then
     modify (λ s, with_write (bt_wBuf s) 0 s) ;;
     under (t_write (ztake (bt_wBase s) (bt_wBuf s)))
   else mret tt) ;;
  under t_flush.

#[export] Instance buffered_base : BufferBase (TBufferedTransport U) := {
  bb_rbuf := bt_rBuf; bb_rBase := bt_rBase; bb_rBound := bt_rBound;
  bb_set_rBase p s := with_read (bt_rBuf s) p (bt_rBound s) s;
  bb_wBase := bt_wBase; bb_wBound := bt_wBufSize;
  bb_copy data s := with_write (memcpy (bt_wBuf s) (bt_wBase s) data) (bt_wBase s + zlen data) s;
  bb_readSlow := readSlow; bb_writeSlow := writeSlow; bb_borrowSlow := borrowSlow }.

#[export] Instance buffered_transport : Transport (TBufferedTransport U) := base_transport flush.

Definition peek : BT bool :=
  let* s := gets id in
  (if bt_rBase s =? bt_rBound s then fill else mret tt) ;;
  gets (λ s, bt_rBase s <? bt_rBound s).

End Buffered.
End Buffered.

Module Framed.
Section Framed.
Context {U : Type} `{Transport U}.
Abbreviation FT := (M texn (TFramedTransport U)).

Definition with_transport (u : U) (s : TFramedTransport U) : TFramedTransport U :=
  mkFT u (ft_rBuf s) (ft_rBufSize s) (ft_rBase s) (ft_rBound s) (ft_wBuf s) (ft_wBufSize s) (ft_wBase s).
Definition with_read (buf : bytes) (sz rb rn : Z) (s : TFramedTransport U) : TFramedTransport U :=
  mkFT (ft_transport s) buf sz rb rn (ft_wBuf s) (ft_wBufSize s) (ft_wBase s).
Definition with_write (buf : bytes) (sz wb : Z) (s : TFramedTransport U) : TFramedTransport U :=
  mkFT (ft_transport s) (ft_rBuf s) (ft_rBufSize s) (ft_rBase s) (ft_rBound s) buf sz wb.

Definition under {A} (m : M texn U A) : FT A := λ s,
  match m (ft_transport s) with
  | Ret a u => Ret a (with_transport u s)
  | Exn e u => Exn e (with_transport u s)
  | Stuck f => Stuck f
  end.

(** The loop of [readFrame] that collects the four bytes of the size; [None] is
    the end of the stream before the first of them. *)
Fixpoint size_loop (fuel : nat) (have : bytes) : FT (option bytes) :=
  if zlen have <? 4 then
    match fuel with
    | O => stuck OutOfFuel
    | S fuel' =>
        let* got := under (t_read (4 - zlen have)) in
        if zlen got =? 0 then
          if zlen have =? 0 then mret None else throw (TTransportExn END_OF_FILE)
        else size_loop fuel' (have ++ got)
    end
  else mret (Some have).

Definition readFrame : FT bool :=
  let* szb := size_loop 4 [] in
  match szb with
  | None => mret false
  | Some b =>
      let sz := i32 (of_be b) in
      if sz <? 0 then throw (TTransportExn UNKNOWN) else
      let* rsz := gets ft_rBufSize in
      (if i32 rsz <? sz then modify (λ s, with_read (fresh_block sz) sz (ft_rBase s) (ft_rBound s) s)
       else mret tt) ;;
      let* data := under (t_readAll sz) in
      modify (λ s, with_read (memcpy (ft_rBuf s) 0 data) (ft_rBufSize s) 0 sz s) ;;
      mret true
  end.

Definition readSlow (len : Z) : FT bytes :=
  let* have := gets (λ s, ft_rBound s - ft_rBase s) in
  if len <=? have then stuck AssertFailed else
  if 0 <? have then
    let* data := gets (λ s, sub (ft_rBuf s) (ft_rBase s) have) in
    modify (λ s, with_read (ft_rBuf s) (ft_rBufSize s) 0 0 s) ;;
    mret data
  else
    let* ok := readFrame in
    if ok : bool then
      let* give := gets (λ s, Z.min len (ft_rBound s - ft_rBase s)) in
      let* data := gets (λ s, sub (ft_rBuf s) (ft_rBase s) give) in
      modify (λ s, with_read (ft_rBuf s) (ft_rBufSize s) (ft_rBase s + give) (ft_rBound s) s) ;;
      mret data
    else mret [].

(** [while (new_size < len + have) new_size = new_size > 0 ? new_size * 2 : 1]. *)
Fixpoint double_loop (fuel : nat) (need new_size : Z) : option Z :=
  if new_size <? need then
    match fuel with
    | O => None
    | S fuel' => double_loop fuel' need (if 0 <? new_size then u32 (new_size * 2) else 1)
    end
  else Some new_size.

Definition writeSlow (buf : bytes) : FT unit := λ s,
  let have := ft_wBase s in
  let len := zlen buf in
  let need := u32 (len + have) in
  if (need <? have) || (2147483647 <? need) then Exn (TTransportExn BAD_ARGS) s else
  match double_loop 40 need (ft_wBufSize s) with
  | None => Stuck OutOfFuel
  | Some new_size =>
      let new_buf := memcpy (fresh_block new_size) 0 (ztake have (ft_wBuf s)) in
      Ret tt (with_write (memcpy new_buf have buf) new_size (have + len) s)
  end.

Definition borrowSlow (len : Z) : FT (option bytes) := mret None.

Definition flush : FT unit :=
  let* s := gets id in
  if ft_wBufSize s <=? 4 then stuck AssertFailed else
  let sz_hbo := ft_wBase s - 4 in
  modify (λ s, with_write (memcpy (ft_wBuf s) 0 (to_be 4 sz_hbo)) (ft_wBufSize s) (ft_wBase s) s) ;;
  (if 0 <? sz_hbo then
     let* frame := gets (λ s, ztake (4 + sz_hbo) (ft_wBuf s)) in
     modify (λ s, with_write (ft_wBuf s) (ft_wBufSize s) 4 s) ;;
     under (t_write frame)
   else mret tt) ;;
  under t_flush.

#[export] Instance framed_base : BufferBase (TFramedTransport U) := {
  bb_rbuf := ft_rBuf; bb_rBase := ft_rBase; bb_rBound := ft_rBound;
  bb_set_rBase p s := with_read (ft_rBuf s) (ft_rBufSize s) p (ft_rBound s) s;
  bb_wBase := ft_wBase; bb_wBound := ft_wBufSize;
  bb_copy data s :=
    with_write (memcpy (ft_wBuf s) (ft_wBase s) data) (ft_wBufSize s) (ft_wBase s + zlen data) s;
  bb_readSlow := readSlow; bb_writeSlow := writeSlow; bb_borrowSlow := borrowSlow }.

#[export] Instance framed_transport : Transport (TFramedTransport U) := base_transport flush.

(** The constructor: four bytes are kept for the size. *)
Definition new (transport : U) (sz : Z) : outcome texn (TFramedTransport U) unit :=
  t_write [0; 0; 0; 0] (mkFT transport [] 0 0 0 (fresh_block sz) sz 0).

Definition readEnd (s : TFramedTransport U) : Z := u32 (ft_rBound s + 4).
Definition writeEnd (s : TFramedTransport U) : Z := u32 (ft_wBase s).

End Framed.
End Framed.
