(* ===== verification/MemoryBufferTheorems.v ===== *)
(** * Properties of [TMemoryBuffer] *)

From S2P Require Import Prelude Bytes Transport BufferTransports.
From stdpp Require Import base list.
From Stdlib Require Import ZArith Lia.

Local Open Scope Z_scope.
Import MemoryBuffer.

(** [malloc] does not fail for blocks of less than 4 GiB. *)
Class MallocLaws `{Malloc} := malloc_law : ∀ n, 0 < n < 2 ^ 32 → malloc_ok n = true.

Section MemoryBuffer.
Context `{Malloc}.
Implicit Types (s : TMemoryBuffer).

(** ** The invariant *)
Record mb_ok s : Prop := {
  mb_order : 0 ≤ rBase_ s ≤ rBound_ s ∧ rBound_ s ≤ wBase_ s ∧ wBase_ s ≤ wBound_ s;
  mb_size : wBound_ s = bufferSize_ s ∧ bufferSize_ s ≤ zlen (buffer_ s) ∧ bufferSize_ s < 2 ^ 32 }.

(** The bytes to be read and all the bytes written. *)
Definition mb_inp s : bytes := sub (buffer_ s) (rBase_ s) (wBase_ s - rBase_ s).
Definition mb_out s : bytes := ztake (wBase_ s) (buffer_ s).

(** The number of bytes that can be written: an owned buffer grows up to
    2 GiB. *)
Definition mb_room s : Z := if owner_ s then 2 ^ 31 - wBase_ s else wBound_ s - wBase_ s.

Lemma mb_wBase_len s : mb_ok s → wBase_ s ≤ zlen (buffer_ s).
Proof. intros [? ?]. lia. Qed.

Lemma available_read_ok s : mb_ok s → available_read s = wBase_ s - rBase_ s.
Proof. intros [? ?]. apply wrapu_small. lia. Qed.
Lemma available_write_ok s : mb_ok s → available_write s = wBound_ s - wBase_ s.
Proof. intros [? ?]. apply wrapu_small. lia. Qed.

Lemma zlen_mb_inp s : mb_ok s → zlen (mb_inp s) = wBase_ s - rBase_ s.
Proof. intros [? ?]. unfold mb_inp. rewrite zlen_sub; lia. Qed.

Lemma mb_with_r_ok rb rn s :
  mb_ok s → 0 ≤ rb ≤ rn → rn ≤ wBase_ s → mb_ok (mb_with_r rb rn s).
Proof. intros [? ?] ? ?. split; simpl; lia. Qed.

#[export] Instance memory_buffer_laws : BufferBaseLaws TMemoryBuffer mb_inp mb_out mb_ok.
Proof.
  split; simpl.
  - intros s [? ?]. lia.
  - intros s Hok. pose proof Hok as [? ?]. unfold mb_inp.
    rewrite (sub_split _ _ (wBase_ s - rBase_ s) (rBound_ s - rBase_ s)) by lia. eauto.
  - intros s p Hok Hp. pose proof Hok as [? ?]. split; [apply mb_with_r_ok; [done|lia..]|].
    split; [|done]. unfold mb_inp. simpl. rewrite zdrop_sub by lia. f_equal; lia.
  - intros s n Hok Hn. pose proof Hok as [? ?]. unfold readSlow, computeRead.
    rewrite (available_read_ok s Hok). eexists _, _. split; [reflexivity|].
    split; [apply mb_with_r_ok; [done|lia..]|]. split; [done|]. unfold mb_inp. simpl.
    rewrite (sub_split _ _ (wBase_ s - rBase_ s) (Z.min n (wBase_ s - rBase_ s))) by lia.
    split; [do 2 f_equal; lia|]. rewrite zlen_sub by lia. split; [lia|].
    intros Hne Heq. apply Hne. apply (f_equal (zlen (A := Z))) in Heq.
    rewrite zlen_sub, zlen_nil in Heq by lia.
    apply zlen_zero_nil. rewrite zlen_app, !zlen_sub; lia.
  - intros s n Hok Hn. pose proof Hok as [? ?]. unfold borrowSlow.
    assert (mb_ok (mb_with_r (rBase_ s) (wBase_ s) s)) as Hok'
      by (apply mb_with_r_ok; [done|lia..]).
    rewrite (available_read_ok _ Hok'). simpl.
    destruct (Z.leb_spec n (wBase_ s - rBase_ s)); by eexists _, _.
Qed.

(** ** Writing *)

Lemma grow_loop_spec fuel need bufferSize avail0 len new_size :
  need = bufferSize - avail0 + len → 0 ≤ avail0 ≤ bufferSize → need ≤ 2 ^ 31 →
  bufferSize ≤ new_size → need ≤ (if 0 <? new_size then new_size * 2 else 1) * 2 ^ (Z.of_nat fuel - 1) →
  new_size < 2 ^ 32 → (0 < fuel)%nat →
  ∃ n, grow_loop fuel len bufferSize avail0 new_size (avail0 + (new_size - bufferSize)) = Some n ∧
    need ≤ n ∧ new_size ≤ n < 2 ^ 32 ∧ (new_size < need → n ≤ 2 * need).
Proof.
  intros Hneed Ha Hle. revert new_size.
  induction fuel as [|fuel IH]; intros new_size Hb Hpow Hlt Hfuel; [lia|]. cbn [grow_loop].
  destruct (Z.ltb_spec (avail0 + (new_size - bufferSize)) len) as [Hgo|].
  2: { exists new_size. split; [done|lia]. }
  set (n' := if 0 <? new_size then u32 (new_size * 2) else 1).
  assert (n' = if 0 <? new_size then new_size * 2 else 1) as Hn'.
  { unfold n'. destruct (Z.ltb_spec 0 new_size); [|done]. apply wrapu_small. lia. }
  assert (bufferSize ≤ n' ∧ new_size < n' ≤ 2 * Z.max 1 new_size ∧ Z.max 1 new_size ≤ n') as Hr.
  { rewrite Hn'. destruct (Z.ltb_spec 0 new_size); lia. }
  assert (u32 (avail0 + u32 (n' - bufferSize)) = avail0 + (n' - bufferSize)) as ->.
  { unfold u32. rewrite (wrapu_small 32 (n' - bufferSize)) by lia. apply wrapu_small. lia. }
  destruct fuel as [|fuel].
  - rewrite <- Hn' in Hpow. simpl in Hpow. cbn [grow_loop]. destruct (Z.ltb_spec (avail0 + (n' - bufferSize)) len); [lia|].
    exists n'. split; [done|lia].
  - destruct (decide (need ≤ n')) as [Hd|Hd].
    + exists n'. split; [|lia].
      cbn [grow_loop]. by destruct (Z.ltb_spec (avail0 + (n' - bufferSize)) len); [lia|].
    + destruct (IH n') as (n & -> & Hn & Hn2 & Hn3); [lia| | |lia|].
      * replace (Z.of_nat (S (S fuel)) - 1) with (Z.succ (Z.of_nat (S fuel) - 1)) in Hpow by lia.
        rewrite Z.pow_succ_r in Hpow by lia.
        assert (0 < 2 ^ (Z.of_nat (S fuel) - 1)) by (apply Z.pow_pos_nonneg; lia).
        rewrite <- Hn' in Hpow. destruct (Z.ltb_spec 0 n'); [|lia]. clear -Hpow. nia.
      * lia.
      * exists n. split; [done|lia].
Qed.

Lemma grow_loop_full fuel len :
  0 < len ≤ 2 ^ 31 → grow_loop (S (S fuel)) len (2 ^ 31) 0 (2 ^ 31) 0 = Some 0.
Proof.
  intros Hlen. cbn [grow_loop]. destruct (Z.ltb_spec 0 len); [|lia].
  change (if 0 <? 2 ^ 31 then u32 (2 ^ 31 * 2) else 1) with 0.
  change (u32 (0 + u32 (0 - 2 ^ 31))) with (2 ^ 31).
  by destruct (Z.ltb_spec (2 ^ 31) len); [lia|].
Qed.

Lemma zlen_realloc buf n : 0 ≤ n → zlen (realloc buf n) = n.
Proof.
  intros Hn. unfold realloc. pose proof (zlen_nonneg buf).
  rewrite zlen_ztake; [done|]. rewrite zlen_app. split; [done|].
  unfold fresh_block, zlen. rewrite length_replicate. lia.
Qed.

Lemma ztake_realloc buf n k : k ≤ zlen buf → k ≤ n → ztake k (realloc buf n) = ztake k buf.
Proof. intros. unfold realloc. rewrite ztake_ztake_le, ztake_app_le by lia. done. Qed.

Lemma ensureCanWrite_spec `{!MallocLaws} s len :
  mb_ok s → 0 ≤ len ≤ mb_room s →
  ∃ s', ensureCanWrite len s = Ret tt s' ∧ mb_ok s' ∧ mb_out s' = mb_out s ∧ wBase_ s' = wBase_ s ∧
    rBase_ s' = rBase_ s ∧ rBound_ s' = rBound_ s ∧ owner_ s' = owner_ s ∧
    wBase_ s' + len ≤ wBound_ s'.
Proof.
  intros Hok Hlen. pose proof Hok as [? ?]. unfold ensureCanWrite, mb_room in *.
  rewrite (available_write_ok s Hok). destruct (Z.leb_spec len (wBound_ s - wBase_ s)).
  { exists s. by split_and!; [..|lia]. }
  destruct (owner_ s) eqn:Ho; [|lia]. cbn [negb].
  destruct (grow_loop_spec 40 (wBase_ s + len) (bufferSize_ s) (wBound_ s - wBase_ s) len (bufferSize_ s))
    as (n & Hg & Hn1 & Hn2 & Hn3); [lia|lia|lia|lia| |lia|lia|].
  { change (Z.of_nat 40 - 1) with 39. destruct (Z.ltb_spec 0 (bufferSize_ s)); lia. }
  rewrite Z.sub_diag, Z.add_0_r in Hg. rewrite Hg, malloc_law by lia.
  eexists. split; [reflexivity|]. unfold mb_out. simpl.
  rewrite ztake_realloc by lia. split; [|by split_and!; [..|lia]].
  split; simpl; [lia|]. rewrite zlen_realloc; lia.
Qed.

Lemma copy_spec s data :
  mb_ok s → wBase_ s + zlen data ≤ wBound_ s →
  mb_ok (copy data s) ∧ mb_out (copy data s) = mb_out s ++ data ∧
  mb_inp (copy data s) = mb_inp s ++ data ∧ mb_room s - zlen data ≤ mb_room (copy data s).
Proof.
  intros Hok Hle. pose proof Hok as [? ?]. pose proof (zlen_nonneg data).
  assert (mb_out (copy data s) = mb_out s ++ data) as Hout
    by (unfold mb_out; simpl; apply memcpy_prefix; lia).
  split_and!; [|done| |].
  - split; simpl; [lia|]. rewrite zlen_memcpy; lia.
  - unfold mb_inp. simpl. replace (wBase_ s + zlen data - rBase_ s)
      with ((wBase_ s - rBase_ s) + zlen data) by lia.
    rewrite !sub_zdrop, <- !(ztake_zdrop_comm _ _ (_ : bytes)) by lia.
    unfold mb_out in Hout. simpl in Hout. 
    replace (rBase_ s + (wBase_ s - rBase_ s + zlen data)) with (wBase_ s + zlen data) by lia.
    rewrite Hout, zdrop_app_le by (rewrite zlen_ztake; lia).
    by replace (rBase_ s + (wBase_ s - rBase_ s)) with (wBase_ s) by lia.
  - unfold mb_room. simpl. destruct (owner_ s); lia.
Qed.

Lemma mb_inp_out s : mb_ok s → mb_inp s = zdrop (rBase_ s) (mb_out s).
Proof.
  intros Hok. pose proof Hok as [? ?]. unfold mb_inp, mb_out.
  rewrite sub_zdrop, <- ztake_zdrop_comm by lia. do 2 f_equal. lia.
Qed.

Lemma write_spec `{!MallocLaws} s data :
  mb_ok s → zlen data ≤ mb_room s →
  ∃ s', t_write data s = Ret tt s' ∧ mb_ok s' ∧ mb_out s' = mb_out s ++ data ∧
    mb_inp s' = mb_inp s ++ data ∧ mb_room s - zlen data ≤ mb_room s'.
Proof.
  intros Hok Hroom. pose proof Hok as [? ?]. pose proof (zlen_nonneg data).
  simpl. unfold base_write. simpl. destruct (Z.leb_spec (wBase_ s + zlen data) (wBound_ s)).
  - eexists. split; [reflexivity|]. by apply copy_spec.
  - destruct (ensureCanWrite_spec s (zlen data) Hok)
      as (s' & He & Hok' & Hout & Hwb & Hrb & Hrn & How & Hle); [lia|].
    unfold writeSlow. rewrite (M_bind_ret _ _ _ _ _ He). unfold copy_checked.
    pose proof Hok' as [? ?].
    destruct (Z.leb_spec (wBase_ s' + zlen data) (zlen (buffer_ s'))); [|lia].
    destruct (copy_spec s' data Hok' Hle) as (Hok2 & Hout2 & Hin2 & Hr2).
    eexists. split; [reflexivity|]. rewrite Hout2, Hout, Hin2, (mb_inp_out s' Hok').
    rewrite Hout, Hrb, <- (mb_inp_out s Hok). split_and!; [done..|].
    unfold mb_room in *. rewrite How in *. destruct (owner_ s); lia.
Qed.

#[export] Instance memory_buffer_write_laws `{!MallocLaws} :
  WriteLaws TMemoryBuffer mb_out mb_room mb_ok.
Proof.
  intros s data Hok Hroom. destruct (write_spec s data Hok Hroom) as (s' & Hw & Hok' & Ho & _ & Hr).
  eauto.
Qed.

#[export] Instance memory_buffer_read_laws : ReadLaws TMemoryBuffer mb_inp mb_out mb_ok.
Proof. apply base_read_laws. Qed.

(** ** Theorems *)

(** C25: a memory buffer is a queue of bytes: what has been written in any number
    of pieces (growing the buffer as needed, up to 2 GiB) is read back by
    [readAll] in the same order, and reading more than there is throws
    [END_OF_FILE]. *)
Theorem memory_buffer_is_queue `{!MallocLaws} s data n :
  mb_ok s → zlen data ≤ mb_room s → 0 ≤ n →
  ∃ s', t_write data s = Ret tt s' ∧ mb_ok s' ∧
    if n <=? zlen (mb_inp s ++ data) then
      ∃ s'', t_readAll n s' = Ret (ztake n (mb_inp s ++ data)) s'' ∧ mb_ok s'' ∧
             mb_inp s'' = zdrop n (mb_inp s ++ data)
    else ∃ s'', t_readAll n s' = Exn (TTransportExn END_OF_FILE) s'' ∧ mb_ok s''.
Proof.
  intros Hok Hroom Hn. destruct (write_spec s data Hok Hroom) as (s' & Hw & Hok' & _ & Hin & _).
  exists s'. split_and!; [done..|]. rewrite <- Hin. destruct (Z.leb_spec n (zlen (mb_inp s'))).
  - destruct (law_readAll s' n Hok') as (s'' & Hr & Hok2 & Hin2 & _); [lia|]. eauto.
  - by apply (law_readAll_eof s' n Hok').
Qed.

(** A full buffer of 2 GiB cannot grow: doubling its size wraps around to 0,
    which the loop takes for enough room, so that [realloc] is asked for an
    empty block and the copy runs past its end. *)
Theorem memory_buffer_growth_wraps s data :
  mb_ok s → owner_ s = true → bufferSize_ s = 2 ^ 31 → wBase_ s = wBound_ s →
  data ≠ [] → zlen data ≤ 2 ^ 31 → malloc_ok 0 = true →
  t_write data s = Stuck OutOfBounds.
Proof.
  intros Hok Ho Hsz Hfull Hne Hlen Hm. pose proof Hok as [? ?].
  assert (0 < zlen data) as Hpos
    by (destruct data; [done|]; rewrite zlen_cons; pose proof (zlen_nonneg data); lia).
  simpl. unfold base_write. simpl. destruct (Z.leb_spec (wBase_ s + zlen data) (wBound_ s)); [lia|].
  unfold writeSlow. rewrite M_bind_eq. unfold ensureCanWrite.
  rewrite (available_write_ok s Hok), Hfull, Z.sub_diag, Ho, Hsz.
  destruct (Z.leb_spec (zlen data) 0); [lia|]. cbn [negb].
  rewrite (grow_loop_full 38) by lia.
  rewrite Hm. unfold copy_checked. cbn [wBase_ buffer_].
  assert (zlen (realloc (buffer_ s) 0) = 0) as -> by (by apply zlen_realloc).
  destruct (Z.leb_spec (wBound_ s + zlen data) 0); [lia|done].
Qed.

(** [readEnd] reports the bytes read so far and empties the buffer for reuse
    exactly when everything has been read; no unread byte is lost. *)
Theorem readEnd_keeps_unread s n s' :
  mb_ok s → readEnd s = Ret n s' →
  n = rBase_ s ∧ mb_ok s' ∧ mb_inp s' = mb_inp s ∧ (mb_inp s = [] → wBase_ s' = 0).
Proof.
  intros Hok Hr. pose proof Hok as [? ?]. unfold readEnd in Hr. injection Hr as <- <-.
  split; [apply wrapu_small; lia|]. pose proof (zlen_mb_inp s Hok) as Hlen.
  destruct (Z.eqb_spec (rBase_ s) (wBase_ s)) as [Heq|Hne].
  - assert (mb_inp s = []) as -> by (apply zlen_zero_nil; lia).
    pose proof (zlen_nonneg (buffer_ s)).
    unfold resetBuffer. by destruct (owner_ s); (split; [split; simpl; lia|]).
  - split_and!; [done..|]. intros Hnil. rewrite Hnil, zlen_nil in Hlen. lia.
Qed.

End MemoryBuffer.

(** ** The theorems at work *)

#[local] Instance always_malloc : Malloc := λ _, true.
#[local] Instance always_malloc_laws : MallocLaws.
Proof. by intros n. Qed.

(** A buffer of four bytes. *)
Definition small_buffer : TMemoryBuffer := initCommon (fresh_block 4) 4 true 0.

Lemma small_buffer_ok : mb_ok small_buffer.
Proof. split; vm_compute; intuition discriminate. Qed.

Lemma memory_buffer_is_queue_witness :
  ∃ s' s'', t_write [1; 2; 3; 4; 5] small_buffer = Ret tt s' ∧ t_readAll 3 s' = Ret [1; 2; 3] s'' ∧
    mb_inp s'' = [4; 5].
Proof.
  destruct (memory_buffer_is_queue small_buffer [1; 2; 3; 4; 5] 3)
    as (s' & Hw & _ & s'' & Hr & _ & Hin);
    [apply small_buffer_ok|vm_compute; discriminate|discriminate|].
  exists s', s''. split_and!; [exact Hw|exact Hr|exact Hin].
Defined.

(** A full buffer of 2 GiB exists, though not one that can be written out. *)
Definition full_buffer (buf : bytes) : TMemoryBuffer := initCommon buf (2 ^ 31) true (2 ^ 31).

Lemma memory_buffer_growth_wraps_witness :
  t_write [7] (full_buffer (fresh_block (2 ^ 31))) = Stuck OutOfBounds.
Proof.
  apply memory_buffer_growth_wraps; [|reflexivity..|discriminate|discriminate|reflexivity].
  split; [cbn; lia|]. cbn [wBound_ bufferSize_ buffer_ full_buffer initCommon].
  rewrite zlen_fresh_block by lia. lia.
Defined.

Lemma readEnd_keeps_unread_witness :
  ∃ n s', readEnd small_buffer = Ret n s' ∧ n = 0 ∧ mb_ok s'.
Proof.
  exists 0, small_buffer. split; [reflexivity|].
  destruct (readEnd_keeps_unread small_buffer 0 small_buffer small_buffer_ok eq_refl) as (Hn & Hok & _).
  split; [exact Hn|exact Hok].
Defined.
