(* ===== verification/LayeredTheorems.v ===== *)
(** * Properties of [TBufferedTransport] and [TFramedTransport]

    Both are proved correct over any transport that is a reliable stream
    ([StreamLaws]): reads deliver the next bytes, possibly fewer than asked for,
    and writes append. *)

From S2P Require Import Prelude Bytes Transport BufferTransports.
From stdpp Require Import base list.
From Stdlib Require Import ZArith Lia.

Local Open Scope Z_scope.

Class StreamLaws (U : Type) `{Transport U} (inp out : U → bytes) (ok : U → Prop) := {
  #[global] stream_reads :: StreamRead t_read inp out ok;
  #[global] stream_readAll :: ReadLaws U inp out ok;
  stream_write : ∀ u data, ok u → zlen data < 2 ^ 32 →
    ∃ u', t_write data u = Ret tt u' ∧ ok u' ∧ out u' = out u ++ data ∧ inp u' = inp u;
  stream_flush : ∀ u, ok u →
    ∃ u', t_flush u = Ret tt u' ∧ ok u' ∧ out u' = out u ∧ inp u' = inp u }.

(** ** [TBufferedTransport] *)

Section Buffered.
Import Buffered.
Context {U : Type} `{StreamLaws U uinp uout uok}.
Implicit Types (s : TBufferedTransport U).

Record bt_ok s : Prop := {
  bt_under : uok (bt_transport s);
  bt_r : zlen (bt_rBuf s) = bt_rBufSize s ∧ 0 < bt_rBufSize s;
  bt_r_order : 0 ≤ bt_rBase s ≤ bt_rBound s ∧ bt_rBound s ≤ bt_rBufSize s;
  bt_w : zlen (bt_wBuf s) = bt_wBufSize s ∧ 0 < bt_wBufSize s ≤ 2 ^ 30;
  bt_w_order : 0 ≤ bt_wBase s ≤ bt_wBufSize s }.

Definition bt_inp s : bytes :=
  sub (bt_rBuf s) (bt_rBase s) (bt_rBound s - bt_rBase s) ++ uinp (bt_transport s).
Definition bt_out s : bytes := uout (bt_transport s) ++ ztake (bt_wBase s) (bt_wBuf s).

(** Writes of up to 2 GiB at a time. *)
Definition bt_room s : Z := 2 ^ 31.

Lemma under_ret {A} (m : M texn U A) s a u :
  m (bt_transport s) = Ret a u → under m s = Ret a (with_transport u s).
Proof. intros Hm. unfold under. by rewrite Hm. Qed.

Lemma fill_spec s :
  bt_ok s → bt_rBase s = bt_rBound s →
  ∃ s', fill s = Ret tt s' ∧ bt_ok s' ∧ bt_out s' = bt_out s ∧ bt_inp s' = bt_inp s ∧
    bt_rBase s' = 0 ∧ (bt_inp s ≠ [] → 0 < bt_rBound s').
Proof.
  intros [Hu [Hr1 Hr2] Hro Hw Hwo] Heq. unfold fill. mstep.
  destruct (stream_read (bt_transport s) (bt_rBufSize s) Hu Hr2)
    as (u' & got & Hread & Hok' & Hout & Hin & Hgot & Hne).
  rewrite (M_bind_ret _ _ _ _ _ (under_ret _ s _ _ Hread)). unfold modify.
  eexists. split; [reflexivity|]. pose proof (zlen_nonneg got).
  assert (zlen (memcpy (bt_rBuf s) 0 got) = zlen (bt_rBuf s)) as Hlen by (apply zlen_memcpy; lia).
  split_and!.
  - split; simpl; [done|lia..].
  - unfold bt_out. simpl. by rewrite Hout.
  - unfold bt_inp. simpl. rewrite Heq, Z.sub_diag, Z.sub_0_r, sub_0, Hin. simpl. f_equal.
    rewrite sub_zdrop. apply memcpy_prefix_0.
  - done.
  - simpl. unfold bt_inp. rewrite Heq, Z.sub_diag, sub_0. simpl.
    intros Hn. specialize (Hne Hn). destruct got; [done|]. rewrite zlen_cons.
    pose proof (zlen_nonneg got). lia.
Qed.

#[export] Instance buffered_laws : BufferBaseLaws (TBufferedTransport U) bt_inp bt_out bt_ok.
Proof.
  split; simpl.
  - intros s [? ? ? ? ?]. lia.
  - intros s _. by eexists.
  - intros s p [Hu [Hr1 Hr2] Hro Hw Hwo] Hp. split; [split; simpl; [done|lia..]|].
    split; [|done]. unfold bt_inp. simpl.
    rewrite zdrop_app_le by (rewrite zlen_sub; lia). rewrite zdrop_sub by lia. do 2 f_equal; lia.
  - intros s n Hok Hn. pose proof Hok as [Hu [Hr1 Hr2] Hro Hw Hwo]. unfold readSlow. mstep.
    destruct (Z.leb_spec n (bt_rBound s - bt_rBase s)); [lia|].
    destruct (Z.ltb_spec 0 (bt_rBound s - bt_rBase s)) as [Hpos|Hz].
    + do 2 mstep. eexists _, _. split; [reflexivity|].
      split; [split; simpl; [done|lia..]|]. split; [done|]. unfold bt_inp. simpl.
      split; [done|]. rewrite zlen_sub by lia. split; [lia|]. intros _ Hnil.
      apply (f_equal (zlen (A := Z))) in Hnil. rewrite zlen_sub, zlen_nil in Hnil; lia.
    + destruct (fill_spec s Hok) as (s' & Hf & Hok' & Hout & Hin & Hrb & Hne); [lia|].
      rewrite (M_bind_ret _ _ _ _ _ Hf). do 3 mstep.
      pose proof Hok' as [Hu' [Hr1' Hr2'] Hro' Hw' Hwo'].
      eexists _, _. split; [reflexivity|]. split; [split; simpl; [done|lia..]|].
      split; [exact Hout|]. rewrite <- Hin. unfold bt_inp. simpl.
      rewrite app_assoc, (sub_split _ _ (bt_rBound s' - bt_rBase s')
        (Z.min n (bt_rBound s' - bt_rBase s'))) by lia.
      split; [do 3 f_equal; lia|]. rewrite zlen_sub by lia. split; [lia|].
      rewrite <- sub_split by lia. fold (bt_inp s'). rewrite Hin. intros Hnil.
      specialize (Hne Hnil). intros Heq. apply (f_equal (zlen (A := Z))) in Heq.
      rewrite zlen_sub, zlen_nil in Heq; lia.
  - intros s n Hok _. by eexists s, None.
Qed.

#[export] Instance buffered_read_laws : ReadLaws (TBufferedTransport U) bt_inp bt_out bt_ok.
Proof. apply base_read_laws. Qed.

Lemma buffered_writeSlow_spec s data :
  bt_ok s → bt_wBufSize s < bt_wBase s + zlen data → zlen data ≤ 2 ^ 31 →
  ∃ s', writeSlow data s = Ret tt s' ∧ bt_ok s' ∧ bt_out s' = bt_out s ++ data ∧
    bt_inp s' = bt_inp s.
Proof.
  intros [Hu Hr Hro [Hw1 Hw2] Hwo] Hslow Hlen. unfold writeSlow. mstep. cbv zeta. unfold id.
  destruct (Z.leb_spec (zlen data) (bt_wBufSize s - bt_wBase s)); [lia|].
  unfold u32. rewrite !wrapu_small by lia.
  destruct ((2 * bt_wBufSize s <=? bt_wBase s + zlen data) || (bt_wBase s =? 0)) eqn:Hcase.
  - assert (∃ u1, (if 0 <? bt_wBase s then under (t_write (ztake (bt_wBase s) (bt_wBuf s)))
                   else mret tt) s = Ret tt (with_transport u1 s) ∧ uok u1 ∧
              uout u1 = uout (bt_transport s) ++ ztake (bt_wBase s) (bt_wBuf s) ∧
              uinp u1 = uinp (bt_transport s)) as (u1 & Hw0 & Hok1 & Hout1 & Hin1).
    { destruct (Z.ltb_spec 0 (bt_wBase s)).
      - destruct (stream_write (bt_transport s) (ztake (bt_wBase s) (bt_wBuf s)) Hu)
          as (u1 & Hwr & ?); [rewrite zlen_ztake; lia|]. exists u1. by rewrite (under_ret _ s _ _ Hwr).
      - exists (bt_transport s). assert (bt_wBase s = 0) as -> by lia.
        rewrite app_nil_r. by destruct s. }
    rewrite (M_bind_ret _ _ _ _ _ Hw0).
    destruct (stream_write u1 data Hok1) as (u2 & Hwr & Hok2 & Hout2 & Hin2); [lia|].
    rewrite (M_bind_ret _ _ _ _ _ (under_ret _ (with_transport u1 s) _ _ Hwr)).
    eexists. split; [reflexivity|]. split; [split; simpl; [done|lia..]|].
    unfold bt_out, bt_inp. simpl. rewrite Hout2, Hout1, Hin2, Hin1.
    split; [by rewrite app_nil_r|done].
  - apply orb_false_iff in Hcase as [Hc1 Hc2]. set (space := bt_wBufSize s - bt_wBase s).
    do 2 mstep. simpl.
    set (full := memcpy (bt_wBuf s) (bt_wBase s) (ztake space data)).
    assert (zlen (ztake space data) = space) as Hsp by (rewrite zlen_ztake; lia).
    assert (zlen full = bt_wBufSize s) as Hfull by (unfold full; rewrite zlen_memcpy; lia).
    destruct (stream_write (bt_transport s) full Hu) as (u1 & Hwr & Hok1 & Hout1 & Hin1); [lia|].
    erewrite M_bind_ret by (apply under_ret; exact Hwr).
    assert (zlen (zdrop space data) = zlen data - space) as Hrest by (apply zlen_zdrop; lia).
    destruct (Z.leb_spec (bt_wBufSize s) (zlen (zdrop space data))); [lia|].
    eexists. split; [reflexivity|]. unfold bt_out, bt_inp.
    split; [split; simpl; rewrite ?zlen_memcpy by (rewrite ?Hfull; lia); [done|lia..]|].
    simpl. rewrite Hout1, Hin1. split; [|done].
    rewrite memcpy_prefix_0.
    rewrite <- !app_assoc. f_equal. rewrite <- (ztake_ge (bt_wBufSize s) full) by lia.
    assert (ztake (bt_wBufSize s) full = ztake (bt_wBase s) (bt_wBuf s) ++ ztake space data) as ->.
    { unfold full. rewrite <- memcpy_prefix by lia. f_equal. lia. }
    by rewrite <- app_assoc, ztake_zdrop.
Qed.

Lemma buffered_write_spec s data :
  bt_ok s → zlen data ≤ 2 ^ 31 →
  ∃ s', t_write data s = Ret tt s' ∧ bt_ok s' ∧ bt_out s' = bt_out s ++ data ∧ bt_inp s' = bt_inp s.
Proof.
  intros Hok Hlen. simpl. unfold base_write. simpl. pose proof (zlen_nonneg data).
  destruct (Z.leb_spec (bt_wBase s + zlen data) (bt_wBufSize s)).
  - pose proof Hok as [Hu Hr Hro [Hw1 Hw2] Hwo]. eexists. split; [reflexivity|].
    split; [split; simpl; rewrite ?zlen_memcpy by lia; [done|lia..]|].
    unfold bt_out. simpl. split; [|done]. by rewrite memcpy_prefix, app_assoc by lia.
  - by apply buffered_writeSlow_spec.
Qed.

#[export] Instance buffered_write_laws : WriteLaws (TBufferedTransport U) bt_out bt_room bt_ok.
Proof.
  intros s data Hok Hroom.
  destruct (buffered_write_spec s data Hok Hroom) as (s' & Hw & Hok' & Hout & _).
  exists s'. split_and!; [done..|]. unfold bt_room. pose proof (zlen_nonneg data). lia.
Qed.

(** Nothing is lost or reordered in a [TBufferedTransport]: after any writes,
    [flush] leaves the underlying transport with exactly the bytes written so
    far, in order, and the buffer empty. *)
Theorem buffered_flush_delivers s data :
  bt_ok s → zlen data ≤ 2 ^ 31 →
  ∃ s' s'', t_write data s = Ret tt s' ∧ flush s' = Ret tt s'' ∧ bt_ok s'' ∧
    uout (bt_transport s'') = bt_out s ++ data ∧ bt_wBase s'' = 0 ∧ bt_inp s'' = bt_inp s.
Proof.
  intros Hok Hlen. destruct (buffered_write_spec s data Hok Hlen) as (s' & Hw & Hok' & Hout & Hin).
  exists s'. rewrite <- Hout, <- Hin. pose proof Hok' as [Hu Hr Hro Hw' Hwo].
  assert (∃ s1, (if 0 <? bt_wBase s' then
             modify (λ s, with_write (bt_wBuf s) 0 s) ;;
             under (t_write (ztake (bt_wBase s') (bt_wBuf s')))
           else mret tt) s' = Ret tt s1 ∧ bt_ok s1 ∧ uout (bt_transport s1) = bt_out s' ∧
           bt_wBase s1 = 0 ∧ bt_inp s1 = bt_inp s') as (s1 & Hw0 & Hok1 & Hout1 & Hwb1 & Hin1).
  { destruct (Z.ltb_spec 0 (bt_wBase s')).
    - destruct (stream_write (bt_transport s') (ztake (bt_wBase s') (bt_wBuf s')) Hu)
        as (u1 & Hwr & Hok1 & Hout1 & Hin1); [rewrite zlen_ztake; lia|]. mstep.
      eexists. split; [by apply under_ret|]. unfold bt_inp. simpl. rewrite Hin1.
      by split; [split; simpl; [done|lia..]|].
    - exists s'. split; [done|]. split; [done|]. unfold bt_out.
      assert (bt_wBase s' = 0) as -> by lia. by rewrite app_nil_r. }
  destruct (stream_flush (bt_transport s1) (bt_under _ Hok1)) as (u2 & Hf & Hok2 & Hout2 & Hin2).
  eexists. split; [done|]. unfold flush. mstep. unfold id. rewrite (M_bind_ret _ _ _ _ _ Hw0).
  split; [by apply under_ret|]. pose proof Hok1 as [? ? ? ? ?].
  split; [by split|]. simpl. rewrite Hout2. split_and!; [done..|].
  unfold bt_inp in *. simpl. by rewrite Hin2.
Qed.

End Buffered.

(** ** [TFramedTransport] *)

(** The frame for a payload, and the payloads of a sequence of frames. *)
Definition frame (p : bytes) : bytes := to_be 4 (zlen p) ++ p.

Fixpoint deframe (fuel : nat) (l : bytes) : list bytes :=
  match fuel with
  | O => []
  | S fuel' =>
      if zlen l <? 4 then [] else
      let n := of_be (ztake 4 l) in
      ztake n (zdrop 4 l) :: deframe fuel' (zdrop (4 + n) l)
  end.

Definition payloads (l : bytes) : list bytes := deframe (length l) l.

Definition good_payload (p : bytes) : Prop := p ≠ [] ∧ zlen p < 2 ^ 31.

Lemma zlen_frame p : zlen (frame p) = 4 + zlen p.
Proof. unfold frame. by rewrite zlen_app, zlen_to_be. Qed.

Lemma deframe_frames fuel ps :
  Forall good_payload ps → (length ps ≤ fuel)%nat → deframe fuel (concat (frame <$> ps)) = ps.
Proof.
  revert ps. induction fuel as [|fuel IH]; intros ps Hps Hf.
  - by destruct ps; [|simpl in Hf; lia].
  - destruct ps as [|p ps]; [done|]. apply Forall_cons in Hps as [[Hne Hp] Hps].
    change (concat (frame <$> p :: ps)) with (frame p ++ concat (frame <$> ps)). cbn [deframe].
    rewrite zlen_app, zlen_frame. pose proof (zlen_nonneg p). pose proof (zlen_nonneg (concat (frame <$> ps))).
    destruct (Z.ltb_spec (4 + zlen p + zlen (concat (frame <$> ps))) 4); [lia|].
    rewrite ztake_app_le by (rewrite zlen_frame; lia). unfold frame at 1 2 4 5.
    rewrite (ztake_app 4), of_be_to_be by (by rewrite zlen_to_be).
    change (256 ^ Z.of_nat 4) with (2 ^ 32). rewrite Z.mod_small by lia.
    rewrite <- !app_assoc, (zdrop_app 4) by (by rewrite zlen_to_be).
    rewrite (ztake_app (zlen p)) by done. f_equal.
    rewrite zdrop_app_ge, zlen_to_be by (rewrite zlen_to_be; lia).
    rewrite (zdrop_app _ p) by lia. apply IH; [done|simpl in Hf; lia].
Qed.

Lemma payloads_frames ps : Forall good_payload ps → payloads (concat (frame <$> ps)) = ps.
Proof.
  intros Hps. apply deframe_frames; [done|].
  induction ps as [|p ps IH]; [done|]. apply Forall_cons in Hps as [_ Hps].
  change (concat (frame <$> p :: ps)) with (frame p ++ concat (frame <$> ps)).
  rewrite length_app. specialize (IH Hps). unfold frame at 1. rewrite length_app, to_be_length. simpl. lia.
Qed.

Section Framed.
Import Framed.
Context {U : Type} `{StreamLaws U uinp uout uok}.
Implicit Types (s : TFramedTransport U).

Record ft_ok s : Prop := {
  ft_under : uok (ft_transport s);
  ft_frames : ∃ ps, Forall good_payload ps ∧ uinp (ft_transport s) = concat (frame <$> ps);
  ft_r : zlen (ft_rBuf s) = ft_rBufSize s ∧ ft_rBufSize s < 2 ^ 31;
  ft_r_order : 0 ≤ ft_rBase s ≤ ft_rBound s ∧ ft_rBound s ≤ ft_rBufSize s;
  ft_w : zlen (ft_wBuf s) = ft_wBufSize s ∧ 4 < ft_wBufSize s < 2 ^ 32;
  ft_w_order : 4 ≤ ft_wBase s ≤ ft_wBufSize s ∧ ft_wBase s < 2 ^ 31 }.

(** The bytes to be read: the rest of the current frame and the payloads of the
    frames that follow; the bytes written to the frame under construction. *)
Definition ft_inp s : bytes :=
  sub (ft_rBuf s) (ft_rBase s) (ft_rBound s - ft_rBase s) ++ concat (payloads (uinp (ft_transport s))).
Definition ft_out s : bytes := sub (ft_wBuf s) 4 (ft_wBase s - 4).
Definition ft_room s : Z := 2 ^ 31 - 1 - ft_wBase s.

Lemma funder_ret {A} (m : M texn U A) s a u :
  m (ft_transport s) = Ret a u → under m s = Ret a (with_transport u s).
Proof. intros Hm. unfold under. by rewrite Hm. Qed.

Lemma size_loop_done have s :
  uok (ft_transport s) → zlen have = 4 →
  ∃ u', (mret (Some have) : M texn (TFramedTransport U) _) s =
        Ret (Some (have ++ ztake (4 - zlen have) (uinp (ft_transport s)))) (with_transport u' s) ∧
    uok u' ∧ uinp u' = zdrop (4 - zlen have) (uinp (ft_transport s)) ∧
    uout u' = uout (ft_transport s).
Proof.
  intros Hu ->. exists (ft_transport s). change (4 - 4) with 0.
  change (ztake 0 _) with (@nil Z). rewrite app_nil_r. by destruct s.
Qed.

Lemma size_loop_spec fuel have s :
  uok (ft_transport s) → zlen have ≤ 4 → 4 - zlen have ≤ Z.of_nat fuel →
  4 - zlen have ≤ zlen (uinp (ft_transport s)) →
  ∃ u', size_loop fuel have s =
          Ret (Some (have ++ ztake (4 - zlen have) (uinp (ft_transport s)))) (with_transport u' s) ∧
    uok u' ∧ uinp u' = zdrop (4 - zlen have) (uinp (ft_transport s)) ∧
    uout u' = uout (ft_transport s).
Proof.
  revert have s. induction fuel as [|fuel IH]; intros have s Hu Hle Hf Hlen; simpl.
  - destruct (Z.ltb_spec (zlen have) 4); [lia|]. apply size_loop_done; [done|lia].
  - destruct (Z.ltb_spec (zlen have) 4) as [Hlt|]; [|apply size_loop_done; [done|lia]].
    destruct (stream_read (ft_transport s) (4 - zlen have) Hu)
      as (u1 & got & Hr & Hok1 & Hout1 & Hin1 & Hgot & Hne); [lia|].
    rewrite (M_bind_ret _ _ _ _ _ (funder_ret _ s _ _ Hr)).
    destruct (Z.eqb_spec (zlen got) 0) as [Hz|Hz].
    { apply zlen_zero_nil in Hz as ->. destruct Hne; [|done]. intros Hnil.
      rewrite Hnil, zlen_nil in Hlen. lia. }
    pose proof (zlen_nonneg got). rewrite Hin1, zlen_app in Hlen.
    destruct (IH (have ++ got) (with_transport u1 s)) as (u2 & Hs & Hok2 & Hin2 & Hout2);
      [done|rewrite ?zlen_app; simpl; lia..|].
    exists u2. rewrite Hs. simpl in *. rewrite zlen_app in *. rewrite Hin1.
    rewrite ztake_app_ge, zdrop_app_ge, app_assoc by lia.
    rewrite Hin2, Hout2, Z.sub_add_distr. by split_and!.
Qed.

Lemma readFrame_spec s p rest :
  uok (ft_transport s) → good_payload p → uinp (ft_transport s) = frame p ++ rest →
  zlen (ft_rBuf s) = ft_rBufSize s → ft_rBufSize s < 2 ^ 31 →
  ∃ u' buf sz, readFrame s = Ret true (with_read buf sz 0 (zlen p) (with_transport u' s)) ∧
    uok u' ∧ uinp u' = rest ∧ uout u' = uout (ft_transport s) ∧
    zlen buf = sz ∧ zlen p ≤ sz < 2 ^ 31 ∧ ztake (zlen p) buf = p.
Proof.
  intros Hu [Hne Hp] Hin Hr1 Hr2. pose proof (zlen_nonneg p). pose proof (zlen_nonneg rest).
  unfold readFrame. destruct (size_loop_spec 4 [] s Hu) as (u1 & Hs & Hok1 & Hin1 & Hout1);
    rewrite ?zlen_nil, ?Hin, ?zlen_app, ?zlen_frame; try lia.
  rewrite (M_bind_ret _ _ _ _ _ Hs). rewrite zlen_nil, Hin in *. change (4 - 0) with 4 in *.
  unfold frame in Hin1 |- *. rewrite <- app_assoc in *.
  rewrite (ztake_app 4), (zdrop_app 4) in * by (by rewrite zlen_to_be).
  rewrite app_nil_l, of_be_to_be. change (256 ^ Z.of_nat 4) with (2 ^ 32).
  rewrite (Z.mod_small (zlen p)) by lia. unfold i32. rewrite wraps_small by lia.
  destruct (Z.ltb_spec (zlen p) 0); [lia|]. mstep. cbn [ft_rBufSize with_transport].
  pose proof (zlen_nonneg (ft_rBuf s)). rewrite wraps_small by lia.
  destruct (law_readAll u1 (zlen p) Hok1) as (u2 & Hra & Hok2 & Hin2 & Hout2);
    [rewrite Hin1, zlen_app; lia|].
  rewrite Hin1, (ztake_app (zlen p)), (zdrop_app (zlen p)) in * by done.
  assert (∃ buf sz, zlen buf = sz ∧ zlen p ≤ sz < 2 ^ 31 ∧
    ((if ft_rBufSize s <? zlen p then
       modify (λ s, with_read (fresh_block (zlen p)) (zlen p) (ft_rBase s) (ft_rBound s) s)
     else mret tt) : M texn (TFramedTransport U) unit) (with_transport u1 s) =
    Ret tt (with_read buf sz (ft_rBase s) (ft_rBound s) (with_transport u1 s)))
    as (buf & sz & Hb & Hsz & Hif).
  { destruct (Z.ltb_spec (ft_rBufSize s) (zlen p)).
    - eexists _, _. split; [|split; [|reflexivity]]; [by rewrite zlen_fresh_block|lia].
    - exists (ft_rBuf s), (ft_rBufSize s). split_and!; [done|lia..|]. by destruct s. }
  rewrite (M_bind_ret _ _ _ _ _ Hif). 
  erewrite M_bind_ret by (apply funder_ret; exact Hra). mstep.
  exists u2, (memcpy buf 0 p), sz. split; [done|].
  rewrite zlen_memcpy, memcpy_prefix_0 by lia. split_and!; try done; try lia. congruence.
Qed.

Lemma readFrame_eof s :
  uok (ft_transport s) → uinp (ft_transport s) = [] →
  ∃ u', readFrame s = Ret false (with_transport u' s) ∧ uok u' ∧ uinp u' = [] ∧
    uout u' = uout (ft_transport s).
Proof.
  intros Hu Hin. unfold readFrame.
  destruct (stream_read (ft_transport s) 4 Hu) as (u' & got & Hr & Hok & Hout & Hin' & _); [lia|].
  rewrite Hin in Hin'. symmetry in Hin'. apply app_eq_nil in Hin' as [-> Hin'].
  assert (size_loop 4 [] s = Ret None (with_transport u' s)) as Hs.
  { cbn [size_loop]. change (zlen (A := Z) []) with 0. cbn [Z.ltb Z.compare].
    by rewrite (M_bind_ret _ _ _ _ _ (funder_ret _ s _ _ Hr)). }
  exists u'. split; [|done]. by rewrite (M_bind_ret _ _ _ _ _ Hs).
Qed.

#[export] Instance framed_laws : BufferBaseLaws (TFramedTransport U) ft_inp ft_out ft_ok.
Proof.
  split; simpl.
  - intros s [? ? ? ? ? ?]. lia.
  - intros s _. by eexists.
  - intros s p [Hu Hfr [Hr1 Hr2] Hro Hw Hwo] Hp. split; [split; simpl; [done..|lia|lia|lia|lia]|].
    split; [|done]. unfold ft_inp. simpl.
    rewrite zdrop_app_le by (rewrite zlen_sub; lia). rewrite zdrop_sub by lia. do 2 f_equal; lia.
  - intros s n Hok Hn. pose proof Hok as [Hu Hfr [Hr1 Hr2] Hro Hw Hwo]. unfold readSlow. mstep.
    destruct (Z.leb_spec n (ft_rBound s - ft_rBase s)); [lia|].
    destruct (Z.ltb_spec 0 (ft_rBound s - ft_rBase s)) as [Hpos|Hz].
    + do 2 mstep. eexists _, _. split; [reflexivity|].
      split; [split; simpl; [done..|lia|lia|lia|lia]|]. split; [done|]. unfold ft_inp. simpl.
      split; [done|]. rewrite zlen_sub by lia. split; [lia|]. intros _ Hnil.
      apply (f_equal (zlen (A := Z))) in Hnil. rewrite zlen_sub, zlen_nil in Hnil; lia.
    + destruct Hfr as (ps & Hps & Hin). unfold ft_inp at 1 3.
      replace (ft_rBound s - ft_rBase s) with 0 by lia. rewrite sub_0, Hin, payloads_frames by done. simpl.
      destruct ps as [|p ps].
      * destruct (readFrame_eof s Hu Hin) as (u' & Hrf & Hok' & Hin' & Hout').
        rewrite (M_bind_ret _ _ _ _ _ Hrf). eexists _, []. split; [reflexivity|].
        split; [split; simpl; [done|by exists []|lia|lia|lia|lia]|]. split; [done|].
        unfold ft_inp. simpl. replace (ft_rBound s - ft_rBase s) with 0 by lia.
        rewrite sub_0, Hin', zlen_nil. split; [done|]. split; [lia|done].
      * apply Forall_cons in Hps as [Hp Hps]. destruct Hp as [Hpne Hpl] eqn:Hp'. clear Hp'.
        destruct (readFrame_spec s p (concat (frame <$> ps))) as
          (u' & buf & sz & Hrf & Hok' & Hin' & Hout' & Hb & Hsz & Hpre); [done..|].
        rewrite (M_bind_ret _ _ _ _ _ Hrf). do 3 mstep. pose proof (zlen_nonneg p).
        cbn [ft_rBuf ft_rBase ft_rBound with_read with_transport ft_rBufSize].
        rewrite Z.sub_0_r, Z.add_0_l. eexists _, _. split; [reflexivity|].
        split; [split; simpl; [done|by exists ps|lia|lia|lia|lia]|]. split; [done|].
        unfold ft_inp. simpl. rewrite Hin', payloads_frames by done.
        set (m := Z.min n (zlen p)).
        assert (sub buf 0 m = ztake m p) as Hm.
        { rewrite sub_zdrop. change (zdrop 0 buf) with buf. rewrite <- (ztake_ztake_le m (zlen p)) by lia. by rewrite Hpre. }
        assert (sub buf m (zlen p - m) = zdrop m p) as Hm2.
        { rewrite sub_zdrop, <- ztake_zdrop_comm by lia. rewrite <- Hpre at 2.
          do 2 f_equal. lia. }
        rewrite Hm, Hm2, app_assoc, ztake_zdrop, zlen_ztake by lia. split; [done|]. split; [lia|].
        intros _ Hnil. apply (f_equal (zlen (A := Z))) in Hnil.
        rewrite zlen_ztake, zlen_nil in Hnil by lia.
        apply Hpne, zlen_zero_nil. lia.
  - intros s n Hok _. by eexists s, None.
Qed.

#[export] Instance framed_read_laws : ReadLaws (TFramedTransport U) ft_inp ft_out ft_ok.
Proof. apply base_read_laws. Qed.

(** *** Writing *)

Lemma double_loop_spec fuel need new_size :
  need < 2 ^ 31 → 0 < new_size < 2 ^ 32 → need ≤ new_size * 2 ^ Z.of_nat fuel →
  ∃ n, double_loop fuel need new_size = Some n ∧ need ≤ n ∧ new_size ≤ n < 2 ^ 32.
Proof.
  intros Hneed. revert new_size. induction fuel as [|fuel IH]; intros new_size Hn Hpow; simpl.
  - rewrite Z.pow_0_r in Hpow. destruct (Z.ltb_spec new_size need); [lia|].
    exists new_size. split; [done|lia].
  - destruct (Z.ltb_spec new_size need); [|exists new_size; split; [done|lia]].
    destruct (Z.ltb_spec 0 new_size); [|lia]. unfold u32. rewrite wrapu_small by lia.
    rewrite Nat2Z.inj_succ, Z.pow_succ_r in Hpow by lia.
    destruct (IH (new_size * 2)) as (n & -> & Hn1 & Hn2); [lia..|]. exists n. split; [done|lia].
Qed.

(** Appending to the frame under construction. *)
Lemma ft_append buf sz wb data s :
  ft_ok s → zlen buf = sz → 4 < sz < 2 ^ 32 → 4 ≤ wb → wb = ft_wBase s →
  ztake wb buf = ztake wb (ft_wBuf s) → wb + zlen data ≤ sz → wb + zlen data < 2 ^ 31 →
  let s' := with_write (memcpy buf wb data) sz (wb + zlen data) s in
  ft_ok s' ∧ ft_out s' = ft_out s ++ data ∧ ft_inp s' = ft_inp s ∧
  ft_transport s' = ft_transport s ∧ ft_room s' = ft_room s - zlen data.
Proof.
  intros [Hu Hfr Hr Hro [Hw1 Hw2] Hwo] Hb Hsz Hwb Heq Hpre Hle Hlt. pose proof (zlen_nonneg data).
  cbv zeta. split; [split; simpl; try done; [rewrite zlen_memcpy; lia|lia]|].
  unfold ft_out, ft_inp, ft_room. simpl. split_and!; [|done|done|lia].
  assert (∀ b n, 4 ≤ n → sub b 4 (n - 4) = zdrop 4 (ztake n b)) as Hsub.
  { intros b n Hn. rewrite sub_zdrop, <- ztake_zdrop_comm by lia. do 2 f_equal. lia. }
  rewrite !Hsub, memcpy_prefix by lia. rewrite Hpre, <- Heq.
  apply zdrop_app_le. rewrite zlen_ztake; lia.
Qed.

Lemma framed_write_spec s data :
  ft_ok s → zlen data ≤ ft_room s →
  ∃ s', t_write data s = Ret tt s' ∧ ft_ok s' ∧ ft_out s' = ft_out s ++ data ∧
    ft_inp s' = ft_inp s ∧ ft_transport s' = ft_transport s ∧ ft_room s' = ft_room s - zlen data.
Proof.
  intros Hok Hroom. pose proof Hok as [Hu Hfr Hr Hro [Hw1 Hw2] Hwo]. pose proof (zlen_nonneg data).
  unfold ft_room in Hroom. simpl. unfold base_write. simpl.
  destruct (Z.leb_spec (ft_wBase s + zlen data) (ft_wBufSize s)).
  - eexists. split; [reflexivity|]. apply (ft_append (ft_wBuf s) (ft_wBufSize s)); try done; lia.
  - unfold writeSlow. cbv zeta. unfold u32. rewrite wrapu_small by lia.
    destruct (Z.ltb_spec (zlen data + ft_wBase s) (ft_wBase s)); [lia|].
    destruct (Z.ltb_spec 2147483647 (zlen data + ft_wBase s)); [lia|]. cbn [orb].
    destruct (double_loop_spec 40 (zlen data + ft_wBase s) (ft_wBufSize s)) as (n & Hd & Hn1 & Hn2);
      [lia|lia|change (2 ^ Z.of_nat 40) with (2 ^ 40); lia|].
    rewrite Hd. eexists. split; [reflexivity|].
    assert (zlen (ztake (ft_wBase s) (ft_wBuf s)) = ft_wBase s) as Hz by (rewrite zlen_ztake; lia).
    apply (ft_append _ n); try done; try lia.
    + rewrite zlen_memcpy; rewrite ?zlen_fresh_block by lia; lia.
    + rewrite <- Hz at 1. by rewrite memcpy_prefix_0.
Qed.

#[export] Instance framed_write_laws : WriteLaws (TFramedTransport U) ft_out ft_room ft_ok.
Proof.
  intros s data Hok Hroom.
  destruct (framed_write_spec s data Hok Hroom) as (s' & Hw & Hok' & Hout & _ & _ & Hr).
  exists s'. split_and!; [done..|lia].
Qed.

Lemma framed_flush_spec s :
  ft_ok s →
  ∃ s', flush s = Ret tt s' ∧ ft_ok s' ∧ ft_out s' = [] ∧ ft_inp s' = ft_inp s ∧
    ft_wBase s' = 4 ∧
    uout (ft_transport s') =
      uout (ft_transport s) ++ (if decide (ft_out s = []) then [] else frame (ft_out s)).
Proof.
  intros Hok. pose proof Hok as [Hu Hfr Hr Hro [Hw1 Hw2] Hwo]. unfold flush. mstep. unfold id.
  destruct (Z.leb_spec (ft_wBufSize s) 4); [lia|]. mstep.
  set (wbuf := memcpy (ft_wBuf s) 0 (to_be 4 (ft_wBase s - 4))).
  assert (zlen wbuf = ft_wBufSize s) as Hlen by (unfold wbuf; rewrite zlen_memcpy; rewrite ?zlen_to_be; lia).
  assert (zlen (ft_out s) = ft_wBase s - 4) as Hout by (unfold ft_out; rewrite zlen_sub; lia).
  set (s1 := with_write wbuf (ft_wBufSize s) (ft_wBase s) s).
  assert (ztake (ft_wBase s) wbuf = frame (ft_out s)) as Hframe.
  { unfold wbuf, frame. rewrite Hout. change (memcpy (ft_wBuf s) 0 (to_be 4 (ft_wBase s - 4)))
      with (to_be 4 (ft_wBase s - 4) ++ zdrop 4 (ft_wBuf s)).
    rewrite ztake_app_ge by (rewrite zlen_to_be; lia). by rewrite zlen_to_be. }
  assert (∃ u1, ((if 0 <? ft_wBase s - 4 then
      let* frame := gets (λ s, ztake (4 + (ft_wBase s1 - 4)) (ft_wBuf s)) in
      modify (λ s, with_write (ft_wBuf s) (ft_wBufSize s) 4 s) ;; under (t_write frame)
    else mret tt) : M texn (TFramedTransport U) unit) s1 =
      Ret tt (with_transport u1 (with_write wbuf (ft_wBufSize s) 4 s)) ∧ uok u1 ∧
      uinp u1 = uinp (ft_transport s) ∧
      uout u1 = uout (ft_transport s) ++ (if decide (ft_out s = []) then [] else frame (ft_out s)))
    as (u1 & Hw & Hok1 & Hin1 & Hout1).
  { destruct (Z.ltb_spec 0 (ft_wBase s - 4)).
    - rewrite decide_False by (intros Hnil; rewrite Hnil, zlen_nil in Hout; lia).
      do 2 mstep. cbn [ft_wBuf ft_wBufSize s1 with_write ft_wBase].
      replace (4 + (ft_wBase s - 4)) with (ft_wBase s) by lia. rewrite Hframe.
      destruct (stream_write (ft_transport s) (frame (ft_out s)) Hu) as (u1 & Hw & ? & ? & ?);
        [rewrite <- Hframe, zlen_ztake; lia|].
      exists u1. split; [by apply funder_ret|done].
    - assert (ft_wBase s = 4) as Heq by lia. rewrite decide_True by (apply zlen_zero_nil; lia).
      exists (ft_transport s). rewrite app_nil_r. split; [|done]. unfold s1. rewrite Heq. done. }
  rewrite (M_bind_ret _ _ _ _ _ Hw).
  destruct (stream_flush u1 Hok1) as (u2 & Hfl & Hok2 & Hout2 & Hin2).
  eexists. split; [by apply funder_ret|]. simpl. unfold ft_out at 1, ft_inp. simpl.
  rewrite Hout2, Hout1, Hin2, Hin1. split_and!; try done.
  split; simpl; rewrite ?Hin2, ?Hin1; first [done|lia].
Qed.

(** *** Messages over frames *)

(** Sending each message in a frame of its own, and reading messages of given
    lengths. *)
Definition send (ms : list bytes) : M texn (TFramedTransport U) unit :=
  for_each ms (λ m, t_write m ;; flush).

Fixpoint receive (ns : list Z) : M texn (TFramedTransport U) (list bytes) :=
  match ns with
  | [] => mret []
  | n :: ns' =>
      let* m := t_readAll n in
      let* ms := receive ns' in
      mret (m :: ms)
  end.

Definition message (m : bytes) : Prop := m ≠ [] ∧ zlen m ≤ 2 ^ 31 - 5.

Lemma send_spec ms w :
  ft_ok w → ft_out w = [] → ft_wBase w = 4 → Forall message ms →
  ∃ w', send ms w = Ret tt w' ∧ ft_ok w' ∧ ft_inp w' = ft_inp w ∧
    uout (ft_transport w') = uout (ft_transport w) ++ concat (frame <$> ms).
Proof.
  revert w. induction ms as [|m ms IH]; intros w Hok Hout Hwb Hms.
  - exists w. by rewrite app_nil_r.
  - apply Forall_cons in Hms as [[Hne Hm] Hms].
    destruct (framed_write_spec w m Hok) as (w1 & Hw & Hok1 & Hout1 & Hin1 & Htr1 & _).
    { unfold ft_room. lia. }
    destruct (framed_flush_spec w1 Hok1) as (w2 & Hf & Hok2 & Hout2 & Hin2 & Hwb2 & Huo2).
    destruct (IH w2 Hok2 Hout2 Hwb2 Hms) as (w3 & Hs & Hok3 & Hin3 & Huo3).
    exists w3. split; [|split; [done|split; [congruence|]]].
    + unfold send. cbn [for_each]. erewrite M_bind_ret; [exact Hs|].
      by rewrite (M_bind_ret _ _ _ _ _ Hw).
    + rewrite Huo3, Huo2, Htr1, Hout1, Hout, app_nil_l, decide_False by done.
      by rewrite <- app_assoc.
Qed.

Lemma receive_spec ms r :
  ft_ok r → ft_inp r = concat ms →
  ∃ r', receive (zlen <$> ms) r = Ret ms r' ∧ ft_ok r' ∧ ft_inp r' = [].
Proof.
  revert r. induction ms as [|m ms IH]; intros r Hok Hin; [by exists r|].
  cbn [concat] in Hin. destruct (law_readAll r (zlen m) Hok) as (r1 & Hr & Hok1 & Hin1 & _).
  { rewrite Hin, zlen_app. pose proof (zlen_nonneg m). pose proof (zlen_nonneg (concat ms)). lia. }
  rewrite Hin, ztake_app in Hr by done. rewrite Hin, zdrop_app in Hin1 by done.
  destruct (IH r1 Hok1 Hin1) as (r2 & Hrec & Hok2 & Hin2).
  exists r2. split; [|done]. cbn [receive fmap list_fmap].
  rewrite (M_bind_ret _ _ _ _ _ Hr). by rewrite (M_bind_ret _ _ _ _ _ Hrec).
Qed.

(** C26: messages survive framing: what a [TFramedTransport] sends, one message
    per [flush], another one that reads from the other end of the stream
    receives as the same messages in the same order, however the stream cuts the
    bytes into pieces, and then it has nothing left. *)
Theorem framed_roundtrip w r ms :
  ft_ok w → ft_out w = [] → ft_wBase w = 4 → Forall message ms →
  ft_ok r → ft_rBase r = ft_rBound r →
  uinp (ft_transport r) = concat (frame <$> ms) →
  ∃ w' r', send ms w = Ret tt w' ∧
    uout (ft_transport w') = uout (ft_transport w) ++ uinp (ft_transport r) ∧
    receive (zlen <$> ms) r = Ret ms r' ∧ ft_inp r' = [].
Proof.
  intros Hokw Hout Hwb Hms Hokr Hempty Hin.
  destruct (send_spec ms w Hokw Hout Hwb Hms) as (w' & Hs & _ & _ & Huo).
  destruct (receive_spec ms r Hokr) as (r' & Hr & _ & Hin').
  { unfold ft_inp. rewrite Hempty, Z.sub_diag, sub_0, Hin, payloads_frames; [done|].
    eapply Forall_impl; [exact Hms|]. intros m [Hne Hm]. split; [done|lia]. }
  exists w', r'. by rewrite Hin.
Qed.

(** A write that would make the frame larger than [2 ^ 31 - 1] bytes is
    refused with [BAD_ARGS] and changes nothing. *)
Theorem framed_write_too_large s data :
  ft_ok s → zlen data < 2 ^ 32 → 2 ^ 31 - 1 < ft_wBase s + zlen data →
  ft_wBufSize s < ft_wBase s + zlen data →
  t_write data s = Exn (TTransportExn BAD_ARGS) s.
Proof.
  intros Hok Hlen Hbig Hsize. pose proof Hok as [Hu Hfr Hr Hro [Hw1 Hw2] Hwo].
  pose proof (zlen_nonneg data). simpl. unfold base_write. simpl.
  destruct (Z.leb_spec (ft_wBase s + zlen data) (ft_wBufSize s)); [lia|].
  unfold writeSlow. cbv zeta. unfold u32.
  destruct (decide (zlen data + ft_wBase s < 2 ^ 32)) as [Hd|Hd].
  - rewrite wrapu_small by lia.
    destruct (Z.ltb_spec 2147483647 (zlen data + ft_wBase s)); [|lia]. by rewrite orb_true_r.
  - unfold wrapu. assert ((zlen data + ft_wBase s) mod 2 ^ 32 = zlen data + ft_wBase s - 2 ^ 32) as ->.
    { symmetry. apply (Z.mod_unique _ _ 1); lia. }
    by destruct (Z.ltb_spec (zlen data + ft_wBase s - 2 ^ 32) (ft_wBase s)); [|lia].
Qed.

End Framed.

(** ** The theorems at work

    A connection that delivers at most three bytes at a time. *)
#[local] Existing Instances Framed.framed_transport Buffered.buffered_transport.

Record Wire := mkWire { w_in : bytes; w_out : bytes }.

Definition wire_read (n : Z) : M texn Wire bytes := λ w,
  Ret (ztake (Z.min n 3) (w_in w)) (mkWire (zdrop (Z.min n 3) (w_in w)) (w_out w)).

#[local] Instance wire_transport : Transport Wire := {
  t_read := wire_read;
  t_readAll := readAll wire_read;
  t_write data w := Ret tt (mkWire (w_in w) (w_out w ++ data));
  t_flush := mret tt;
  t_borrow _ := mret None;
  t_consume _ := mret tt }.

#[local] Instance wire_stream : StreamRead wire_read w_in w_out (λ _, True).
Proof.
  intros w n _ Hn. eexists _, _. split; [reflexivity|]. simpl. rewrite ztake_zdrop.
  split_and!; try done.
  - rewrite zlen_ztake_min by lia. lia.
  - intros Hne Hnil. apply Hne, zlen_zero_nil. apply (f_equal (zlen (A := Z))) in Hnil.
    rewrite zlen_ztake_min, zlen_nil in Hnil by lia. pose proof (zlen_nonneg (w_in w)). lia.
Qed.

#[local] Instance wire_laws : StreamLaws Wire w_in w_out (λ _, True).
Proof.
  split; try apply _.
  - split.
    + intros w n Hok Hn. by apply (readAll_spec wire_read w_in w_out (λ _, True)).
    + intros w n Hok Hn. by apply (readAll_eof wire_read w_in w_out (λ _, True)).
    + intros w n _ _. by eexists w, None.
  - intros w data _ _. by eexists.
  - intros w _. by eexists.
Qed.

Definition ex_messages : list bytes := [[1; 2; 3; 4; 5]; [6]; [7; 8]].

Definition fresh_framed (w : Wire) : TFramedTransport Wire :=
  mkFT w [] 0 0 0 (fresh_block 6) 6 4.

Lemma fresh_framed_ok w ms :
  w_in w = concat (frame <$> ms) → Forall good_payload ms →
  ft_ok (uinp := w_in) (uok := λ _, True) (fresh_framed w).
Proof.
  intros Hw Hms. split; simpl; try done; [by exists ms|..]; vm_compute; intuition discriminate.
Qed.

Lemma ex_messages_ok : Forall good_payload ex_messages.
Proof. repeat constructor; discriminate. Qed.

Lemma framed_roundtrip_witness :
  ∃ w' r', send ex_messages (fresh_framed (mkWire [] [])) = Ret tt w' ∧
    w_out (ft_transport w') = concat (frame <$> ex_messages) ∧
    receive (zlen <$> ex_messages)
      (fresh_framed (mkWire (concat (frame <$> ex_messages)) [])) = Ret ex_messages r'.
Proof.
  destruct (framed_roundtrip (uinp := w_in) (uout := w_out) (uok := λ _, True)
    (fresh_framed (mkWire [] [])) (fresh_framed (mkWire (concat (frame <$> ex_messages)) []))
    ex_messages) as (w' & r' & Hs & Ho & Hr & _).
  - by apply (fresh_framed_ok _ []).
  - reflexivity.
  - reflexivity.
  - repeat constructor; discriminate.
  - apply (fresh_framed_ok _ ex_messages); [done|apply ex_messages_ok].
  - reflexivity.
  - reflexivity.
  - exists w', r'. split; [exact Hs|]. split; [exact Ho|exact Hr].
Defined.

Lemma framed_write_too_large_witness :
  t_write (fresh_block (2 ^ 31)) (fresh_framed (mkWire [] [])) =
  Exn (TTransportExn BAD_ARGS) (fresh_framed (mkWire [] [])).
Proof.
  apply (framed_write_too_large (uinp := w_in) (uok := λ _, True)).
  - by apply (fresh_framed_ok _ []).
  - rewrite zlen_fresh_block by lia. lia.
  - rewrite zlen_fresh_block by lia. simpl. lia.
  - rewrite zlen_fresh_block by lia. simpl. lia.
Defined.

Lemma buffered_flush_delivers_witness :
  ∃ s' s'', t_write [1; 2; 3; 4; 5] (Buffered.new (mkWire [] []) 4 4) = Ret tt s' ∧
    Buffered.flush s' = Ret tt s'' ∧ w_out (bt_transport s'') = [1; 2; 3; 4; 5].
Proof.
  destruct (buffered_flush_delivers (uinp := w_in) (uout := w_out) (uok := λ _, True)
    (Buffered.new (mkWire [] []) 4 4) [1; 2; 3; 4; 5]) as (s' & s'' & Hw & Hf & _ & Ho & _).
  - split; vm_compute; intuition discriminate.
  - vm_compute. discriminate.
  - exists s', s''. split; [exact Hw|]. split; [exact Hf|exact Ho].
Defined.
