(* ===== verification/Protocol.v ===== *)
(** * Protocols of the thrift library: interface, [skip] and [TBinaryProtocol]

    [protocol/TProtocol.h] and [protocol/TBinaryProtocol.{h,tcc}].  The class
    [Protocol] has the operations of [TProtocol]; an operation that reads
    delivers its values and the number of bytes it reports.  [TBinaryProtocolT]
    is a template over the transport, and so is its model. *)

From S2P Require Import Prelude Bytes Transport BufferTransports.
From stdpp Require Import base list.
From Stdlib Require Import ZArith Lia.

Local Open Scope Z_scope.

(** ** Types and messages

    Types are read from the wire as bytes, so every [int8_t] can occur as a
    [TType]. *)
Definition T_STOP : Z := 0.
Definition T_VOID : Z := 1.
Definition T_BOOL : Z := 2.
Definition T_BYTE : Z := 3.
Definition T_DOUBLE : Z := 4.
Definition T_I16 : Z := 6.
Definition T_I32 : Z := 8.
Definition T_U64 : Z := 9.
Definition T_I64 : Z := 10.
Definition T_STRING : Z := 11.
Definition T_STRUCT : Z := 12.
Definition T_MAP : Z := 13.
Definition T_SET : Z := 14.
Definition T_LIST : Z := 15.
Definition T_UTF8 : Z := 16.
Definition T_UTF16 : Z := 17.

(** [TMessageType]. *)
Definition T_CALL : Z := 1.
Definition T_REPLY : Z := 2.
Definition T_EXCEPTION : Z := 3.
Definition T_ONEWAY : Z := 4.

(** ** The interface [TProtocol]

    A [double] is represented by its 64 bits. *)
Class Protocol (P : Type) := {
  writeMessageBegin : bytes → Z → Z → M texn P Z;
  writeMessageEnd : M texn P Z;
  writeStructBegin : bytes → M texn P Z;
  writeStructEnd : M texn P Z;
  writeFieldBegin : bytes → Z → Z → M texn P Z;
  writeFieldEnd : M texn P Z;
  writeFieldStop : M texn P Z;
  writeMapBegin : Z → Z → Z → M texn P Z;
  writeMapEnd : M texn P Z;
  writeListBegin : Z → Z → M texn P Z;
  writeListEnd : M texn P Z;
  writeSetBegin : Z → Z → M texn P Z;
  writeSetEnd : M texn P Z;
  writeBool : bool → M texn P Z;
  writeByte : Z → M texn P Z;
  writeI16 : Z → M texn P Z;
  writeI32 : Z → M texn P Z;
  writeI64 : Z → M texn P Z;
  writeDouble : Z → M texn P Z;
  writeString : bytes → M texn P Z;
  writeBinary : bytes → M texn P Z;
  readMessageBegin : M texn P (bytes * Z * Z * Z);
  readMessageEnd : M texn P Z;
  readStructBegin : M texn P Z;
  readStructEnd : M texn P Z;
  readFieldBegin : M texn P (Z * Z * Z);
  readFieldEnd : M texn P Z;
  readMapBegin : M texn P (Z * Z * Z * Z);
  readMapEnd : M texn P Z;
  readListBegin : M texn P (Z * Z * Z);
  readListEnd : M texn P Z;
  readSetBegin : M texn P (Z * Z * Z);
  readSetEnd : M texn P Z;
  readBool : M texn P (bool * Z);
  readByte : M texn P (Z * Z);
  readI16 : M texn P (Z * Z);
  readI32 : M texn P (Z * Z);
  readI64 : M texn P (Z * Z);
  readDouble : M texn P (Z * Z);
  readString : M texn P (bytes * Z);
  readBinary : M texn P (bytes * Z) }.

(** ** [skip]

    The recursion follows the data, so it gets fuel; a struct with [n] fields
    needs [n + 1] units for its loop. *)
Section Skip.
Context {P : Type} `{Protocol P}.

(** [while (true) { readFieldBegin; if (ftype == T_STOP) break; skip; readFieldEnd }]. *)
Fixpoint skip_fields (fuel : nat) (skip : Z → M texn P Z) (result : Z) : M texn P Z :=
  match fuel with
  | O => stuck OutOfFuel
  | S fuel' =>
      let* '(ftype, fid, n) := readFieldBegin in
      let result := u32 (result + n) in
      if ftype =? T_STOP then mret result else
      let* k := skip ftype in
      let* e := readFieldEnd in
      skip_fields fuel' skip (u32 (u32 (result + k) + e))
  end.

(** [for (i = 0; i < size; i++) result += body()]. *)
Fixpoint skip_times (count : nat) (body : M texn P Z) (result : Z) : M texn P Z :=
  match count with
  | O => mret result
  | S count' =>
      let* k := body in
      skip_times count' body (u32 (result + k))
  end.

Fixpoint skip (fuel : nat) (type : Z) : M texn P Z :=
  match fuel with
  | O => stuck OutOfFuel
  | S fuel' =>
      if type =? T_BOOL then let* '(_, n) := readBool in mret n
      else if type =? T_BYTE then let* '(_, n) := readByte in mret n
      else if type =? T_I16 then let* '(_, n) := readI16 in mret n
      else if type =? T_I32 then let* '(_, n) := readI32 in mret n
      else if type =? T_I64 then let* '(_, n) := readI64 in mret n
      else if type =? T_DOUBLE then let* '(_, n) := readDouble in mret n
      else if type =? T_STRING then let* '(_, n) := readBinary in mret n
      else if type =? T_STRUCT then
        let* n := readStructBegin in
        let* result := skip_fields fuel' (skip fuel') n in
        let* e := readStructEnd in
        mret (u32 (result + e))
      else if type =? T_MAP then
        let* '(keyType, valType, size, n) := readMapBegin in
        let* result := skip_times (Z.to_nat size)
          (let* a := skip fuel' keyType in
           let* b := skip fuel' valType in
           mret (u32 (a + b))) n in
        let* e := readMapEnd in
        mret (u32 (result + e))
      else if type =? T_SET then
        let* '(elemType, size, n) := readSetBegin in
        let* result := skip_times (Z.to_nat size) (skip fuel' elemType) n in
        let* e := readSetEnd in
        mret (u32 (result + e))
      else if type =? T_LIST then
        let* '(elemType, size, n) := readListBegin in
        let* result := skip_times (Z.to_nat size) (skip fuel' elemType) n in
        let* e := readListEnd in
        mret (u32 (result + e))
      else mret 0
  end.

End Skip.

(** ** [TBinaryProtocolT] *)

(** The parameters of the constructor and of the setters. *)
Record BinaryConfig := mkBinaryConfig {
  string_limit_ : Z; container_limit_ : Z; strict_read_ : bool; strict_write_ : bool }.

Definition default_config : BinaryConfig := mkBinaryConfig 0 0 false true.

Definition setStringSizeLimit (n : Z) (c : BinaryConfig) : BinaryConfig :=
  mkBinaryConfig n (container_limit_ c) (strict_read_ c) (strict_write_ c).
Definition setContainerSizeLimit (n : Z) (c : BinaryConfig) : BinaryConfig :=
  mkBinaryConfig (string_limit_ c) n (strict_read_ c) (strict_write_ c).
Definition setStrict (r w : bool) (c : BinaryConfig) : BinaryConfig :=
  mkBinaryConfig (string_limit_ c) (container_limit_ c) r w.

(** The object: its transport and the size of the buffer that it keeps for
    reading strings. *)
Record TBinaryProtocol (T : Type) := mkBinary { trans_ : T; string_buf_size_ : Z }.
Arguments mkBinary {T}.
Arguments trans_ {T}.
Arguments string_buf_size_ {T}.

Definition VERSION_MASK : Z := i32 4294901760.   (* 0xffff0000 *)
Definition VERSION_1 : Z := i32 2147549184.      (* 0x80010000 *)

Module Binary.
Section Binary.
Context {T : Type} `{Transport T} `{Malloc} (cfg : BinaryConfig).
Abbreviation B := (M texn (TBinaryProtocol T)).

(** A call of the transport. *)
Definition trans {A} (m : M texn T A) : B A := λ p,
  match m (trans_ p) with
  | Ret a t => Ret a (mkBinary t (string_buf_size_ p))
  | Exn e t => Exn e (mkBinary t (string_buf_size_ p))
  | Stuck f => Stuck f
  end.

(** *** Writing *)

Definition write_byte (byte : Z) : B Z := trans (t_write (to_be 1 byte)) ;; mret 1.
Definition write_bool (value : bool) : B Z := trans (t_write [if value then 1 else 0]) ;; mret 1.
Definition write_i16 (i : Z) : B Z := trans (t_write (to_be 2 i)) ;; mret 2.
Definition write_i32 (i : Z) : B Z := trans (t_write (to_be 4 i)) ;; mret 4.
Definition write_i64 (i : Z) : B Z := trans (t_write (to_be 8 i)) ;; mret 8.
Definition write_double (bits : Z) : B Z := trans (t_write (to_be 8 bits)) ;; mret 8.

Definition write_string (str : bytes) : B Z :=
  if 2147483647 <? zlen str then throw (TProtocolExn SIZE_LIMIT) else
  let size := u32 (zlen str) in
  let* result := write_i32 (i32 size) in
  (if 0 <? size then trans (t_write str) else mret tt) ;;
  mret (u32 (result + size)).

Definition write_message_begin (name : bytes) (messageType seqid : Z) : B Z :=
  if strict_write_ cfg then
    let version := Z.lor VERSION_1 messageType in
    let* a := write_i32 version in
    let* b := write_string name in
    let* c := write_i32 seqid in
    mret (u32 (a + b + c))
  else
    let* a := write_string name in
    let* b := write_byte (i8 messageType) in
    let* c := write_i32 seqid in
    mret (u32 (a + b + c)).

Definition write_field_begin (name : bytes) (fieldType fieldId : Z) : B Z :=
  let* a := write_byte (i8 fieldType) in
  let* b := write_i16 fieldId in
  mret (u32 (a + b)).

Definition write_field_stop : B Z := write_byte (i8 T_STOP).

Definition write_map_begin (keyType valType size : Z) : B Z :=
  let* a := write_byte (i8 keyType) in
  let* b := write_byte (i8 valType) in
  let* c := write_i32 (i32 size) in
  mret (u32 (a + b + c)).

Definition write_list_begin (elemType size : Z) : B Z :=
  let* a := write_byte (i8 elemType) in
  let* b := write_i32 (i32 size) in
  mret (u32 (a + b)).

Definition write_set_begin (elemType size : Z) : B Z :=
  let* a := write_byte (i8 elemType) in
  let* b := write_i32 (i32 size) in
  mret (u32 (a + b)).

(** *** Reading *)

Definition read_byte : B (Z * Z) :=
  let* b := trans (t_readAll 1) in mret (i8 (of_be b), 1).
Definition read_bool : B (bool * Z) :=
  let* b := trans (t_readAll 1) in mret (negb (i8 (of_be b) =? 0), 1).
Definition read_i16 : B (Z * Z) :=
  let* b := trans (t_readAll 2) in mret (i16 (of_be b), 2).
Definition read_i32 : B (Z * Z) :=
  let* b := trans (t_readAll 4) in mret (i32 (of_be b), 4).
Definition read_i64 : B (Z * Z) :=
  let* b := trans (t_readAll 8) in mret (i64 (of_be b), 8).
Definition read_double : B (Z * Z) :=
  let* b := trans (t_readAll 8) in mret (u64 (of_be b), 8).

(** The buffer grows to the size of the string. *)
Definition reserve (size : Z) : B unit := λ p,
  if (string_buf_size_ p <? size) || (string_buf_size_ p =? 0) then
    if malloc_ok size then Ret tt (mkBinary (trans_ p) size) else Exn TBadAlloc p
  else Ret tt p.

Definition read_string_body (size : Z) : B (bytes * Z) :=
  if size <? 0 then throw (TProtocolExn NEGATIVE_SIZE) else
  if (0 <? string_limit_ cfg) && (string_limit_ cfg <? size) then throw (TProtocolExn SIZE_LIMIT) else
  if size =? 0 then mret ([], 0) else
  let* borrow_buf := trans (t_borrow size) in
  match borrow_buf with
  | Some buf =>
      trans (t_consume size) ;;
      mret (ztake size buf, size)
  | None =>
      reserve size ;;
      let* b := trans (t_readAll size) in
      mret (b, size)
  end.

Definition read_string : B (bytes * Z) :=
  let* '(size, result) := read_i32 in
  let* '(str, n) := read_string_body size in
  mret (str, u32 (result + n)).

(** [name], [messageType], [seqid] and the number of bytes. *)
Definition read_message_begin : B (bytes * Z * Z * Z) :=
  let* '(sz, r0) := read_i32 in
  if sz <? 0 then
    let version := Z.land sz VERSION_MASK in
    if negb (version =? VERSION_1) then throw (TProtocolExn BAD_VERSION) else
    let messageType := Z.land sz 255 in
    let* '(name, r1) := read_string in
    let* '(seqid, r2) := read_i32 in
    mret (name, messageType, seqid, u32 (r0 + r1 + r2))
  else if strict_read_ cfg then throw (TProtocolExn BAD_VERSION)
  else
    let* '(name, r1) := read_string_body sz in
    let* '(type, r2) := read_byte in
    let* '(seqid, r3) := read_i32 in
    mret (name, type, seqid, u32 (r0 + r1 + r2 + r3)).

Definition read_field_begin : B (Z * Z * Z) :=
  let* '(type, r0) := read_byte in
  if type =? T_STOP then mret (type, 0, r0) else
  let* '(fieldId, r1) := read_i16 in
  mret (type, fieldId, u32 (r0 + r1)).

(** The checks of [readMapBegin], [readListBegin] and [readSetBegin]. *)
Definition check_size (sizei : Z) : B Z :=
  if sizei <? 0 then throw (TProtocolExn NEGATIVE_SIZE)
  else if negb (container_limit_ cfg =? 0) && (container_limit_ cfg <? sizei) then
    throw (TProtocolExn SIZE_LIMIT)
  else mret (u32 sizei).

Definition read_map_begin : B (Z * Z * Z * Z) :=
  let* '(k, r0) := read_byte in
  let* '(v, r1) := read_byte in
  let* '(sizei, r2) := read_i32 in
  let* size := check_size sizei in
  mret (k, v, size, u32 (r0 + r1 + r2)).

Definition read_list_begin : B (Z * Z * Z) :=
  let* '(e, r0) := read_byte in
  let* '(sizei, r1) := read_i32 in
  let* size := check_size sizei in
  mret (e, size, u32 (r0 + r1)).

Definition read_set_begin : B (Z * Z * Z) :=
  let* '(e, r0) := read_byte in
  let* '(sizei, r1) := read_i32 in
  let* size := check_size sizei in
  mret (e, size, u32 (r0 + r1)).

(** The operations that neither read nor write return 0. *)
Definition nothing : B Z := mret 0.

Definition binary_protocol : Protocol (TBinaryProtocol T) := {|
  writeMessageBegin := write_message_begin; writeMessageEnd := nothing;
  writeStructBegin _ := nothing; writeStructEnd := nothing;
  writeFieldBegin := write_field_begin; writeFieldEnd := nothing;
  writeFieldStop := write_field_stop;
  writeMapBegin := write_map_begin; writeMapEnd := nothing;
  writeListBegin := write_list_begin; writeListEnd := nothing;
  writeSetBegin := write_set_begin; writeSetEnd := nothing;
  writeBool := write_bool; writeByte := write_byte; writeI16 := write_i16;
  writeI32 := write_i32; writeI64 := write_i64; writeDouble := write_double;
  writeString := write_string; writeBinary := write_string;
  readMessageBegin := read_message_begin; readMessageEnd := nothing;
  readStructBegin := nothing; readStructEnd := nothing;
  readFieldBegin := read_field_begin; readFieldEnd := nothing;
  readMapBegin := read_map_begin; readMapEnd := nothing;
  readListBegin := read_list_begin; readListEnd := nothing;
  readSetBegin := read_set_begin; readSetEnd := nothing;
  readBool := read_bool; readByte := read_byte; readI16 := read_i16;
  readI32 := read_i32; readI64 := read_i64; readDouble := read_double;
  readString := read_string; readBinary := read_string |}.

End Binary.
End Binary.

(** [TBinaryProtocolFactoryT]: the configuration and [getProtocol]. *)
Definition getProtocol {T} (transport : T) : TBinaryProtocol T := mkBinary transport 0.
