(* ===== verification/BinaryTheorems.v ===== *)
(** * Properties of [TBinaryProtocol] and [skip]

    The protocol is proved correct over every transport that satisfies the laws
    of [Transport]: what it writes it reads back, for messages and for values of
    any depth, and [skip] passes over exactly the bytes of one value. *)

From S2P Require Import Prelude Bytes Transport BufferTransports MemoryBufferTheorems Protocol.
From stdpp Require Import base list.
From Stdlib Require Import ZArith Lia.

Local Open Scope Z_scope.

(** ** Programs that read or write a given byte string *)
Section Programs.
Context {P : Type} (inp out : P → bytes) (room : P → Z) (ok : P → Prop).

Definition reads {A} (m : M texn P A) (l : bytes) (a : A) : Prop := ∀ s rest,
  ok s → inp s = l ++ rest →
  ∃ s', m s = Ret a s' ∧ ok s' ∧ inp s' = rest ∧ out s' = out s.

Definition writes {A} (m : M texn P A) (l : bytes) (a : A) : Prop := ∀ s,
  ok s → zlen l ≤ room s →
  ∃ s', m s = Ret a s' ∧ ok s' ∧ out s' = out s ++ l ∧ room s - zlen l ≤ room s'.

Lemma reads_ret {A} (a : A) : reads (mret a) [] a.
Proof. intros s rest Hok Hin. by exists s. Qed.

Lemma reads_bind {A B} (m : M texn P A) (k : A → M texn P B) l1 l2 a b :
  reads m l1 a → reads (k a) l2 b → reads (mbind k m) (l1 ++ l2) b.
Proof.
  intros Hm Hk s rest Hok Hin. rewrite <- app_assoc in Hin.
  destruct (Hm s _ Hok Hin) as (s1 & H1 & Hok1 & Hin1 & Hout1).
  destruct (Hk s1 rest Hok1 Hin1) as (s2 & H2 & Hok2 & Hin2 & Hout2).
  exists s2. rewrite (M_bind_ret _ _ _ _ _ H1). split_and!; congruence.
Qed.

Lemma reads_bind_nil {A B} (m : M texn P A) (k : A → M texn P B) l a b :
  reads m [] a → reads (k a) l b → reads (mbind k m) l b.
Proof. apply reads_bind. Qed.

Lemma reads_bind_last {A B} (m : M texn P A) (k : A → M texn P B) l a b :
  reads m l a → reads (k a) [] b → reads (mbind k m) l b.
Proof. intros Hm Hk. rewrite <- (app_nil_r l). by eapply reads_bind. Qed.

Lemma writes_ret {A} (a : A) : writes (mret a) [] a.
Proof.
  intros s Hok _. exists s. rewrite app_nil_r, zlen_nil. split_and!; [done..|lia].
Qed.

Lemma writes_bind {A B} (m : M texn P A) (k : A → M texn P B) l1 l2 a b :
  writes m l1 a → writes (k a) l2 b → writes (mbind k m) (l1 ++ l2) b.
Proof.
  intros Hm Hk s Hok Hroom. rewrite zlen_app in *.
  pose proof (zlen_nonneg l1). pose proof (zlen_nonneg l2).
  destruct (Hm s Hok) as (s1 & H1 & Hok1 & Hout1 & Hr1); [lia|].
  destruct (Hk s1 Hok1) as (s2 & H2 & Hok2 & Hout2 & Hr2); [lia|].
  exists s2. rewrite (M_bind_ret _ _ _ _ _ H1), app_assoc. split_and!; try congruence. lia.
Qed.

Lemma writes_bind_nil {A B} (m : M texn P A) (k : A → M texn P B) l a b :
  writes m [] a → writes (k a) l b → writes (mbind k m) l b.
Proof. apply writes_bind. Qed.

Lemma writes_bind_last {A B} (m : M texn P A) (k : A → M texn P B) l a b :
  writes m l a → writes (k a) [] b → writes (mbind k m) l b.
Proof. intros Hm Hk. rewrite <- (app_nil_r l). by eapply writes_bind. Qed.

(** A program that throws [END_OF_FILE] on every proper prefix of [l]. *)
Definition eofs {A} (m : M texn P A) (l : bytes) : Prop := ∀ s k,
  ok s → k ≠ [] → l = inp s ++ k → ∃ s', m s = Exn (TTransportExn END_OF_FILE) s'.

Lemma eofs_nil {A} (m : M texn P A) : eofs m [].
Proof. intros s k _ Hk Hl. symmetry in Hl. by apply app_nil in Hl as [_ ->]. Qed.

Lemma eofs_bind {A B} (m : M texn P A) (k : A → M texn P B) l1 l2 a :
  reads m l1 a → eofs m l1 → eofs (k a) l2 → eofs (mbind k m) (l1 ++ l2).
Proof.
  intros Hm Hm' Hk s x Hok Hx Hl.
  destruct (decide (zlen l1 ≤ zlen (inp s))) as [Hle|Hlt].
  - assert (l1 = ztake (zlen l1) (inp s)) as H1.
    { rewrite <- (ztake_app_le (zlen l1) (inp s) x), <- Hl by done. by rewrite ztake_app. }
    destruct (Hm s (zdrop (zlen l1) (inp s)) Hok) as (s1 & Hs1 & Hok1 & Hin1 & _).
    { rewrite H1 at 1. by rewrite ztake_zdrop. }
    rewrite (M_bind_ret _ _ _ _ _ Hs1). apply (Hk s1 x Hok1 Hx). rewrite Hin1.
    by rewrite <- zdrop_app_le, <- Hl, zdrop_app.
  - destruct (Hm' s (zdrop (zlen (inp s)) l1) Hok) as (s1 & Hs1).
    + intros Hnil. apply (f_equal (zlen (A := Z))) in Hnil. rewrite zlen_nil in Hnil.
      rewrite zlen_zdrop in Hnil by (pose proof (zlen_nonneg (inp s)); lia). lia.
    + rewrite <- (ztake_zdrop (zlen (inp s)) l1) at 1. f_equal.
      rewrite <- (ztake_app_le _ l1 l2), Hl by lia. by apply ztake_app.
    + exists s1. by rewrite (M_bind_exn _ _ _ _ _ Hs1).
Qed.

Lemma eofs_bind_nil {A B} (m : M texn P A) (k : A → M texn P B) l a :
  reads m [] a → eofs (k a) l → eofs (mbind k m) l.
Proof. intros Hm. apply (eofs_bind m k [] l a Hm (eofs_nil m)). Qed.

Lemma eofs_bind_last {A B} (m : M texn P A) (k : A → M texn P B) l :
  eofs m l → eofs (mbind k m) l.
Proof.
  intros Hm s x Hok Hx Hl. destruct (Hm s x Hok Hx Hl) as [s' Hs'].
  exists s'. by rewrite (M_bind_exn _ _ _ _ _ Hs').
Qed.

(** A program that throws [e] after reading [l]. *)
Definition throws {A} (m : M texn P A) (l : bytes) (e : texn) : Prop := ∀ s rest,
  ok s → inp s = l ++ rest → ∃ s', m s = Exn e s' ∧ ok s' ∧ inp s' = rest.

Lemma throws_throw {A} e : throws (throw (A := A) e) [] e.
Proof. intros s rest Hok Hin. by exists s. Qed.

Lemma throws_bind {A B} (m : M texn P A) (k : A → M texn P B) l1 l2 a e :
  reads m l1 a → throws (k a) l2 e → throws (mbind k m) (l1 ++ l2) e.
Proof.
  intros Hm Hk s rest Hok Hin. rewrite <- app_assoc in Hin.
  destruct (Hm s _ Hok Hin) as (s1 & H1 & Hok1 & Hin1 & _).
  destruct (Hk s1 rest Hok1 Hin1) as (s2 & H2 & Hok2 & Hin2).
  exists s2. rewrite (M_bind_ret _ _ _ _ _ H1). done.
Qed.

Lemma throws_bind_last {A B} (m : M texn P A) (k : A → M texn P B) l a e :
  reads m l a → throws (k a) [] e → throws (mbind k m) l e.
Proof. intros Hm Hk. rewrite <- (app_nil_r l). by eapply throws_bind. Qed.

Lemma throws_bind_first {A B} (m : M texn P A) (k : A → M texn P B) l e :
  throws m l e → throws (mbind k m) l e.
Proof.
  intros Hm s rest Hok Hin. destruct (Hm s rest Hok Hin) as (s' & Hs & ?).
  exists s'. by rewrite (M_bind_exn _ _ _ _ _ Hs).
Qed.

(** The arithmetic of a result does not matter for what is read. *)
Lemma reads_eq {A} (m : M texn P A) l l' a a' : reads m l a → l = l' → a = a' → reads m l' a'.
Proof. by intros ? -> ->. Qed.
Lemma writes_eq {A} (m : M texn P A) l l' a a' : writes m l a → l = l' → a = a' → writes m l' a'.
Proof. by intros ? -> ->. Qed.

End Programs.

(** ** Values

    The values that the code generated for a thrift file sends through a
    protocol; a [double] is given by its bits. *)
#[warnings="-register-all"]
Inductive tval :=
| VBool (b : bool)
| VByte (z : Z)
| VI16 (z : Z)
| VI32 (z : Z)
| VI64 (z : Z)
| VDouble (bits : Z)
| VString (str : bytes)
| VStruct (fields : list (Z * tval))
| VMap (kt vt : Z) (l : list (tval * tval))
| VSet (et : Z) (l : list tval)
| VList (et : Z) (l : list tval).

Section TvalInd.
Variable Q : tval → Prop.
Hypothesis HBool : ∀ b, Q (VBool b).
Hypothesis HByte : ∀ z, Q (VByte z).
Hypothesis HI16 : ∀ z, Q (VI16 z).
Hypothesis HI32 : ∀ z, Q (VI32 z).
Hypothesis HI64 : ∀ z, Q (VI64 z).
Hypothesis HDouble : ∀ z, Q (VDouble z).
Hypothesis HString : ∀ str, Q (VString str).
Hypothesis HStruct : ∀ fs, Forall (λ f, Q f.2) fs → Q (VStruct fs).
Hypothesis HMap : ∀ kt vt l, Forall (λ p, Q p.1 ∧ Q p.2) l → Q (VMap kt vt l).
Hypothesis HSet : ∀ et l, Forall Q l → Q (VSet et l).
Hypothesis HList : ∀ et l, Forall Q l → Q (VList et l).

Fixpoint tval_ind' (v : tval) : Q v :=
  match v with
  | VBool b => HBool b
  | VByte z => HByte z
  | VI16 z => HI16 z
  | VI32 z => HI32 z
  | VI64 z => HI64 z
  | VDouble z => HDouble z
  | VString str => HString str
  | VStruct fs => HStruct fs
      ((fix go l : Forall (λ f, Q f.2) l :=
          match l with
          | [] => Forall_nil_2 _
          | f :: l' => Forall_cons_2 _ f l' (tval_ind' f.2) (go l')
          end) fs)
  | VMap kt vt l => HMap kt vt l
      ((fix go l : Forall (λ p, Q p.1 ∧ Q p.2) l :=
          match l with
          | [] => Forall_nil_2 _
          | p :: l' => Forall_cons_2 _ p l' (conj (tval_ind' p.1) (tval_ind' p.2)) (go l')
          end) l)
  | VSet et l => HSet et l
      ((fix go l : Forall Q l :=
          match l with
          | [] => Forall_nil_2 _
          | x :: l' => Forall_cons_2 _ x l' (tval_ind' x) (go l')
          end) l)
  | VList et l => HList et l
      ((fix go l : Forall Q l :=
          match l with
          | [] => Forall_nil_2 _
          | x :: l' => Forall_cons_2 _ x l' (tval_ind' x) (go l')
          end) l)
  end.
End TvalInd.

(** The [TType] of a value. *)
Definition type_of (v : tval) : Z :=
  match v with
  | VBool _ => T_BOOL | VByte _ => T_BYTE | VI16 _ => T_I16 | VI32 _ => T_I32 | VI64 _ => T_I64
  | VDouble _ => T_DOUBLE | VString _ => T_STRING | VStruct _ => T_STRUCT | VMap _ _ _ => T_MAP
  | VSet _ _ => T_SET | VList _ _ => T_LIST
  end.

(** Values that the types of the protocol can represent, within the limits that
    the reader has been given. *)
Definition in_signed (w z : Z) : bool := (- 2 ^ (w - 1) <=? z) && (z <? 2 ^ (w - 1)).

Section Wf.
Context (cfg : BinaryConfig).
Definition string_ok (n : Z) : bool :=
  (n <? 2 ^ 31) && negb ((0 <? string_limit_ cfg) && (string_limit_ cfg <? n)).
Definition container_ok (n : Z) : bool :=
  (n <? 2 ^ 31) && negb (negb (container_limit_ cfg =? 0) && (container_limit_ cfg <? n)).

Fixpoint tval_wf (v : tval) : bool :=
  match v with
  | VBool _ => true
  | VByte z => in_signed 8 z
  | VI16 z => in_signed 16 z
  | VI32 z => in_signed 32 z
  | VI64 z => in_signed 64 z
  | VDouble z => (0 <=? z) && (z <? 2 ^ 64)
  | VString str => string_ok (zlen str)
  | VStruct fs => forallb (λ f, in_signed 16 f.1 && tval_wf f.2) fs
  | VMap kt vt l =>
      in_signed 8 kt && in_signed 8 vt && container_ok (zlen l) &&
      forallb (λ p, (type_of p.1 =? kt) && (type_of p.2 =? vt) && tval_wf p.1 && tval_wf p.2) l
  | VSet et l | VList et l =>
      in_signed 8 et && container_ok (zlen l) &&
      forallb (λ x, (type_of x =? et) && tval_wf x) l
  end.
End Wf.

(** ** The wire format *)
Definition enc_string (str : bytes) : bytes := to_be 4 (zlen str) ++ str.

Fixpoint enc (v : tval) : bytes :=
  match v with
  | VBool b => [if b then 1 else 0]
  | VByte z => to_be 1 z
  | VI16 z => to_be 2 z
  | VI32 z => to_be 4 z
  | VI64 z => to_be 8 z
  | VDouble z => to_be 8 z
  | VString str => enc_string str
  | VStruct fs => flat_map (λ f, to_be 1 (type_of f.2) ++ to_be 2 f.1 ++ enc f.2) fs ++ to_be 1 T_STOP
  | VMap kt vt l =>
      to_be 1 kt ++ to_be 1 vt ++ to_be 4 (zlen l) ++ flat_map (λ p, enc p.1 ++ enc p.2) l
  | VSet et l | VList et l => to_be 1 et ++ to_be 4 (zlen l) ++ flat_map enc l
  end.

(** ** The way generated code uses a protocol *)
Section Drivers.
Context {P : Type} `{Protocol P}.

Section WriteSeq.
Context {A : Type} (f : A → M texn P Z).
Fixpoint write_seq (l : list A) : M texn P Z :=
  match l with
  | [] => mret 0
  | x :: l' =>
      let* a := f x in
      let* b := write_seq l' in
      mret (u32 (a + b))
  end.
End WriteSeq.

Fixpoint write_val (v : tval) : M texn P Z :=
  match v with
  | VBool b => writeBool b
  | VByte z => writeByte z
  | VI16 z => writeI16 z
  | VI32 z => writeI32 z
  | VI64 z => writeI64 z
  | VDouble z => writeDouble z
  | VString str => writeString str
  | VStruct fs =>
      let* a := writeStructBegin [] in
      let* b := write_seq (λ f,
        let* a := writeFieldBegin [] (type_of f.2) f.1 in
        let* b := write_val f.2 in
        let* c := writeFieldEnd in
        mret (u32 (a + b + c))) fs in
      let* c := writeFieldStop in
      let* d := writeStructEnd in
      mret (u32 (a + b + c + d))
  | VMap kt vt l =>
      let* a := writeMapBegin kt vt (zlen l) in
      let* b := write_seq (λ p,
        let* a := write_val p.1 in
        let* b := write_val p.2 in
        mret (u32 (a + b))) l in
      let* c := writeMapEnd in
      mret (u32 (a + b + c))
  | VSet et l =>
      let* a := writeSetBegin et (zlen l) in
      let* b := write_seq write_val l in
      let* c := writeSetEnd in
      mret (u32 (a + b + c))
  | VList et l =>
      let* a := writeListBegin et (zlen l) in
      let* b := write_seq write_val l in
      let* c := writeListEnd in
      mret (u32 (a + b + c))
  end.

(** Reading a struct until its stop field, and [n] elements of a container. *)
Fixpoint read_fields (fuel : nat) (read : Z → M texn P tval) : M texn P (list (Z * tval)) :=
  match fuel with
  | O => stuck OutOfFuel
  | S fuel' =>
      let* '(ftype, fid, _) := readFieldBegin in
      if ftype =? T_STOP then mret [] else
      let* x := read ftype in
      let* _ := readFieldEnd in
      let* xs := read_fields fuel' read in
      mret ((fid, x) :: xs)
  end.

Fixpoint read_times {A} (count : nat) (read : M texn P A) : M texn P (list A) :=
  match count with
  | O => mret []
  | S count' =>
      let* x := read in
      let* xs := read_times count' read in
      mret (x :: xs)
  end.

Fixpoint read_val (fuel : nat) (type : Z) : M texn P tval :=
  match fuel with
  | O => stuck OutOfFuel
  | S fuel' =>
      if type =? T_BOOL then let* '(b, _) := readBool in mret (VBool b)
      else if type =? T_BYTE then let* '(z, _) := readByte in mret (VByte z)
      else if type =? T_I16 then let* '(z, _) := readI16 in mret (VI16 z)
      else if type =? T_I32 then let* '(z, _) := readI32 in mret (VI32 z)
      else if type =? T_I64 then let* '(z, _) := readI64 in mret (VI64 z)
      else if type =? T_DOUBLE then let* '(z, _) := readDouble in mret (VDouble z)
      else if type =? T_STRING then let* '(str, _) := readString in mret (VString str)
      else if type =? T_STRUCT then
        let* _ := readStructBegin in
        let* fs := read_fields fuel' (read_val fuel') in
        let* _ := readStructEnd in
        mret (VStruct fs)
      else if type =? T_MAP then
        let* '(kt, vt, size, _) := readMapBegin in
        let* l := read_times (Z.to_nat size)
          (let* k := read_val fuel' kt in
           let* x := read_val fuel' vt in
           mret (k, x)) in
        let* _ := readMapEnd in
        mret (VMap kt vt l)
      else if type =? T_SET then
        let* '(et, size, _) := readSetBegin in
        let* l := read_times (Z.to_nat size) (read_val fuel' et) in
        let* _ := readSetEnd in
        mret (VSet et l)
      else if type =? T_LIST then
        let* '(et, size, _) := readListBegin in
        let* l := read_times (Z.to_nat size) (read_val fuel' et) in
        let* _ := readListEnd in
        mret (VList et l)
      else stuck OutOfFuel
  end.

End Drivers.

(** Fuel that is enough for a value. *)
Fixpoint depth (v : tval) : nat :=
  S (match v with
     | VStruct fs => S (length fs + list_max (map (λ f, depth f.2) fs))
     | VMap _ _ l => list_max (map (λ p, Nat.max (depth p.1) (depth p.2)) l)
     | VSet _ l | VList _ l => list_max (map depth l)
     | _ => 0
     end)%nat.

(** ** The protocol reads what it writes *)
Section Binary.
Import Binary.
Context {T : Type} `{Transport T} `{MallocLaws} (cfg : BinaryConfig)
  (tinp tout : T → bytes) (troom : T → Z) (tok : T → Prop)
  `{!ReadLaws T tinp tout tok} `{!WriteLaws T tout troom tok}.
#[local] Instance the_protocol : Protocol (TBinaryProtocol T) := binary_protocol cfg.

Abbreviation BP := (TBinaryProtocol T).
Definition b_inp (p : BP) : bytes := tinp (trans_ p).
Definition b_out (p : BP) : bytes := tout (trans_ p).
Definition b_room (p : BP) : Z := troom (trans_ p).
Definition b_ok (p : BP) : Prop := tok (trans_ p).
Abbreviation breads := (reads b_inp b_out b_ok).
Abbreviation bwrites := (writes b_out b_room b_ok).

Lemma trans_readAll_reads l : breads (trans (t_readAll (zlen l))) l l.
Proof.
  intros p rest Hok Hin. unfold b_inp, b_ok, b_out in *.
  destruct (law_readAll (trans_ p) (zlen l) Hok) as (t' & Hr & Hok' & Hin' & Hout').
  { rewrite Hin, zlen_app. pose proof (zlen_nonneg l). pose proof (zlen_nonneg rest). lia. }
  rewrite Hin, ztake_app in Hr by done. rewrite Hin, zdrop_app in Hin' by done.
  eexists. unfold trans. rewrite Hr. by split_and!.
Qed.

Lemma trans_write_writes l : bwrites (trans (t_write l)) l tt.
Proof.
  intros p Hok Hroom. unfold b_out, b_ok, b_room in *.
  destruct (law_write (trans_ p) l Hok Hroom) as (t' & Hw & Hok' & Hout' & Hr').
  eexists. unfold trans. rewrite Hw. by split_and!.
Qed.

(** An integer of [n] bytes. *)
Lemma read_be_reads n l :
  length l = n → breads (trans (t_readAll (Z.of_nat n))) l l.
Proof. intros <-. apply trans_readAll_reads. Qed.

Lemma write_be_writes l (r : Z) : bwrites (trans (t_write l) ;; mret r) l r.
Proof. eapply writes_bind_last; [apply trans_write_writes|apply writes_ret]. Qed.

Lemma read_int_reads {A} n z (f : bytes → A) (r : Z) :
  breads (let* b := trans (t_readAll (Z.of_nat n)) in mret (f b, r)) (to_be n z) (f (to_be n z), r).
Proof.
  eapply reads_bind_last; [apply read_be_reads, to_be_length|apply reads_ret].
Qed.

Lemma in_signed_iff w z : in_signed w z = true ↔ - 2 ^ (w - 1) ≤ z < 2 ^ (w - 1).
Proof. unfold in_signed. rewrite andb_true_iff, Z.leb_le, Z.ltb_lt. done. Qed.

Lemma read_byte_reads z : in_signed 8 z = true → breads read_byte (to_be 1 z) (z, 1).
Proof.
  intros Hz%in_signed_iff. eapply reads_eq; [apply (read_int_reads 1)|done|].
  f_equal. apply (wraps_to_be 1); [lia|done].
Qed.
Lemma read_i16_reads z : in_signed 16 z = true → breads read_i16 (to_be 2 z) (z, 2).
Proof.
  intros Hz%in_signed_iff. eapply reads_eq; [apply (read_int_reads 2)|done|].
  f_equal. apply (wraps_to_be 2); [lia|done].
Qed.
Lemma read_i32_reads z : in_signed 32 z = true → breads read_i32 (to_be 4 z) (z, 4).
Proof.
  intros Hz%in_signed_iff. eapply reads_eq; [apply (read_int_reads 4)|done|].
  f_equal. apply (wraps_to_be 4); [lia|done].
Qed.
Lemma read_i64_reads z : in_signed 64 z = true → breads read_i64 (to_be 8 z) (z, 8).
Proof.
  intros Hz%in_signed_iff. eapply reads_eq; [apply (read_int_reads 8)|done|].
  f_equal. apply (wraps_to_be 8); [lia|done].
Qed.
Lemma read_double_reads z : 0 ≤ z < 2 ^ 64 → breads read_double (to_be 8 z) (z, 8).
Proof.
  intros Hz. eapply reads_eq; [apply (read_int_reads 8)|done|].
  f_equal. unfold u64. rewrite of_be_to_be. change (256 ^ Z.of_nat 8) with (2 ^ 64).
  rewrite Z.mod_small by done. by apply wrapu_small.
Qed.
Lemma read_bool_reads (b : bool) : breads read_bool [if b then 1 else 0] (b, 1).
Proof.
  eapply reads_eq; [|reflexivity|].
  - eapply reads_bind_last; [|apply reads_ret]. by apply (read_be_reads 1).
  - by destruct b.
Qed.

Lemma read_string_body_reads str :
  string_ok cfg (zlen str) = true → breads (read_string_body cfg (zlen str)) str (str, zlen str).
Proof.
  unfold string_ok. rewrite andb_true_iff, negb_true_iff, Z.ltb_lt. intros [Hlen Hlim].
  unfold read_string_body. pose proof (zlen_nonneg str).
  destruct (Z.ltb_spec (zlen str) 0); [lia|]. rewrite Hlim.
  destruct (Z.eqb_spec (zlen str) 0) as [Hz|Hz].
  { rewrite Hz. apply zlen_zero_nil in Hz as ->. apply reads_ret. }
  intros p rest Hok Hin. unfold b_inp, b_ok, b_out in *.
  destruct (law_borrow (trans_ p) (zlen str) Hok) as (t1 & o & Hb & Hok1 & Hin1 & Hout1 & Ho); [lia|].
  erewrite (M_bind_ret (trans (t_borrow (zlen str)))) by (unfold trans; rewrite Hb; done).
  destruct o as [l|].
  - destruct Ho as (_ & Hl & Hconsume). destruct (Hconsume (zlen str)) as (t2 & Hc & Hok2 & Hin2 & Hout2); [lia|].
    erewrite M_bind_ret by (unfold trans; simpl; rewrite Hc; done).
    eexists. rewrite Hl, Hin, ztake_app by done. split; [done|]. simpl.
    rewrite Hin2, Hin, zdrop_app by done. by split_and!.
  - assert (∃ sz, reserve (zlen str) (mkBinary t1 (string_buf_size_ p)) = Ret tt (mkBinary t1 sz))
      as [sz Hres].
    { unfold reserve. simpl. rewrite malloc_law by lia. case_match; eauto. }
    rewrite (M_bind_ret _ _ _ _ _ Hres).
    destruct (trans_readAll_reads str (mkBinary t1 sz) rest) as (p2 & Hr & Hok2 & Hin2 & Hout2);
      [done|unfold b_inp; simpl; congruence|].
    rewrite (M_bind_ret _ _ _ _ _ Hr). exists p2. unfold b_out in Hout2. simpl in Hout2.
    split_and!; [done..|congruence].
Qed.

Lemma string_ok_range n : 0 ≤ n → string_ok cfg n = true → in_signed 32 n = true.
Proof. unfold string_ok. intros Hn [Hl%Z.ltb_lt _]%andb_true_iff. apply in_signed_iff. change (32 - 1) with 31. lia. Qed.

Lemma zlen_enc_string str : zlen (enc_string str) = 4 + zlen str.
Proof. unfold enc_string. by rewrite zlen_app, zlen_to_be. Qed.

Lemma read_string_reads str :
  string_ok cfg (zlen str) = true →
  breads (read_string cfg) (enc_string str) (str, u32 (zlen (enc_string str))).
Proof.
  intros Hs. unfold read_string, enc_string.
  eapply reads_bind; [apply read_i32_reads, string_ok_range; [apply zlen_nonneg|done]|]. cbv beta iota.
  eapply reads_bind_last; [by apply read_string_body_reads|]. cbv beta iota.
  eapply reads_eq; [apply reads_ret|done|]. by rewrite zlen_app, zlen_to_be.
Qed.

Lemma write_string_writes str :
  zlen str < 2 ^ 31 → bwrites (write_string str) (enc_string str) (u32 (zlen (enc_string str))).
Proof.
  intros Hlen. unfold write_string, enc_string. pose proof (zlen_nonneg str).
  destruct (Z.ltb_spec 2147483647 (zlen str)); [lia|]. cbv zeta.
  assert (u32 (zlen str) = zlen str) as -> by (apply wrapu_small; lia).
  assert (i32 (zlen str) = zlen str) as -> by (apply wraps_small; lia).
  eapply writes_bind; [apply write_be_writes|].
  eapply writes_bind_last; [|eapply writes_eq; [apply writes_ret|done|by rewrite zlen_app, zlen_to_be]].
  destruct (Z.ltb_spec 0 (zlen str)) as [|Hz]; [apply trans_write_writes|].
  assert (str = []) as -> by (apply zlen_zero_nil; lia). apply writes_ret.
Qed.

Lemma write_type_writes t : in_signed 8 t = true → bwrites (write_byte (i8 t)) (to_be 1 t) 1.
Proof.
  intros Ht%in_signed_iff. unfold i8. rewrite wraps_small by lia. apply write_be_writes.
Qed.

(** *** Containers and fields *)

Lemma check_size_reads n :
  0 ≤ n → container_ok cfg n = true → breads (check_size cfg n) [] n.
Proof.
  unfold container_ok. rewrite andb_true_iff, negb_true_iff, Z.ltb_lt. intros Hn [Hlt Hlim].
  unfold check_size. destruct (Z.ltb_spec n 0); [lia|]. rewrite Hlim.
  assert (u32 n = n) as -> by (apply wrapu_small; lia). apply reads_ret.
Qed.

Lemma container_ok_range n : 0 ≤ n → container_ok cfg n = true → in_signed 32 n = true.
Proof.
  unfold container_ok. intros Hn [Hl%Z.ltb_lt _]%andb_true_iff. apply in_signed_iff.
  change (32 - 1) with 31. lia.
Qed.

Lemma write_size_writes n : 0 ≤ n → container_ok cfg n = true → bwrites (write_i32 (i32 n)) (to_be 4 n) 4.
Proof.
  intros Hn Hc. apply (container_ok_range n Hn), in_signed_iff in Hc.
  unfold i32. rewrite wraps_small by lia. apply write_be_writes.
Qed.

Lemma read_list_begin_reads et n :
  in_signed 8 et = true → 0 ≤ n → container_ok cfg n = true →
  breads (read_list_begin cfg) (to_be 1 et ++ to_be 4 n) (et, n, 5).
Proof.
  intros Het Hn Hc. unfold read_list_begin.
  eapply reads_bind; [by apply read_byte_reads|]. cbv beta iota.
  eapply reads_bind_last; [by apply read_i32_reads, container_ok_range|]. cbv beta iota.
  eapply reads_bind_nil; [by apply check_size_reads|]. apply reads_ret.
Qed.

Lemma write_list_begin_writes et n :
  in_signed 8 et = true → 0 ≤ n → container_ok cfg n = true →
  bwrites (write_list_begin et n) (to_be 1 et ++ to_be 4 n) 5.
Proof.
  intros Het Hn Hc. unfold write_list_begin.
  eapply writes_bind; [by apply write_type_writes|].
  eapply writes_bind_last; [by apply write_size_writes|apply writes_ret].
Qed.

Lemma read_map_begin_reads kt vt n :
  in_signed 8 kt = true → in_signed 8 vt = true → 0 ≤ n → container_ok cfg n = true →
  breads (read_map_begin cfg) (to_be 1 kt ++ to_be 1 vt ++ to_be 4 n) (kt, vt, n, 6).
Proof.
  intros Hkt Hvt Hn Hc. unfold read_map_begin.
  eapply reads_bind; [by apply read_byte_reads|]. cbv beta iota.
  eapply reads_bind; [by apply read_byte_reads|]. cbv beta iota.
  eapply reads_bind_last; [by apply read_i32_reads, container_ok_range|]. cbv beta iota.
  eapply reads_bind_nil; [by apply check_size_reads|]. apply reads_ret.
Qed.

Lemma write_map_begin_writes kt vt n :
  in_signed 8 kt = true → in_signed 8 vt = true → 0 ≤ n → container_ok cfg n = true →
  bwrites (write_map_begin kt vt n) (to_be 1 kt ++ to_be 1 vt ++ to_be 4 n) 6.
Proof.
  intros Hkt Hvt Hn Hc. unfold write_map_begin.
  eapply writes_bind; [by apply write_type_writes|].
  eapply writes_bind; [by apply write_type_writes|].
  eapply writes_bind_last; [by apply write_size_writes|apply writes_ret].
Qed.

Lemma type_of_range v : in_signed 8 (type_of v) = true.
Proof. by destruct v. Qed.
Lemma type_of_not_stop v : (type_of v =? T_STOP) = false.
Proof. by destruct v. Qed.

Lemma read_field_begin_reads v id :
  in_signed 16 id = true →
  breads read_field_begin (to_be 1 (type_of v) ++ to_be 2 id) (type_of v, id, 3).
Proof.
  intros Hid. unfold read_field_begin.
  eapply reads_bind; [apply read_byte_reads, type_of_range|]. cbv beta iota.
  rewrite type_of_not_stop. eapply reads_bind_last; [by apply read_i16_reads|apply reads_ret].
Qed.

Lemma read_field_stop_reads : breads read_field_begin (to_be 1 T_STOP) (T_STOP, 0, 1).
Proof.
  unfold read_field_begin. eapply reads_bind_last; [by apply read_byte_reads|]. apply reads_ret.
Qed.

Lemma write_field_begin_writes v id :
  bwrites (write_field_begin [] (type_of v) id) (to_be 1 (type_of v) ++ to_be 2 id) 3.
Proof.
  unfold write_field_begin. eapply writes_bind; [apply write_type_writes, type_of_range|].
  eapply writes_bind_last; [apply write_be_writes|apply writes_ret].
Qed.

(** *** Sequences *)

Lemma write_seq_writes {A} (f : A → M texn BP Z) (e : A → bytes) l :
  Forall (λ x, bwrites (f x) (e x) (u32 (zlen (e x)))) l →
  bwrites (write_seq f l) (flat_map e l) (u32 (zlen (flat_map e l))).
Proof.
  induction 1 as [|x l Hx Hl IH]; simpl; [apply writes_ret|].
  eapply writes_bind; [exact Hx|]. eapply writes_bind_last; [exact IH|].
  eapply writes_eq; [apply writes_ret|done|]. by rewrite u32_add_l, u32_add_r, zlen_app.
Qed.

Lemma read_times_reads {A} (m : M texn BP A) (e : A → bytes) l :
  Forall (λ x, breads m (e x) x) l →
  breads (read_times (length l) m) (flat_map e l) l.
Proof.
  induction 1 as [|x l Hx Hl IH]; simpl; [apply reads_ret|].
  eapply reads_bind; [exact Hx|]. eapply reads_bind_last; [exact IH|apply reads_ret].
Qed.

Lemma skip_times_reads {A} (m : M texn BP Z) (e : A → bytes) l r :
  0 ≤ r < 2 ^ 32 → Forall (λ x, breads m (e x) (u32 (zlen (e x)))) l →
  breads (skip_times (length l) m r) (flat_map e l) (u32 (r + zlen (flat_map e l))).
Proof.
  intros Hr Hl. revert r Hr. induction Hl as [|x l Hx Hl IH]; intros r Hr; simpl.
  - eapply reads_eq; [apply reads_ret|done|]. rewrite zlen_nil, Z.add_0_r. symmetry.
    by apply wrapu_small.
  - eapply reads_bind; [exact Hx|]. eapply reads_eq; [apply IH; by apply (wrapu_range 32)|done|].
    rewrite u32_add_l, zlen_app. rewrite <- (Z.add_assoc r), <- u32_add_r.
    by rewrite u32_add_l, u32_add_r, Z.add_assoc.
Qed.

(** *** Values *)

Definition enc_field (f : Z * tval) : bytes := to_be 1 (type_of f.2) ++ to_be 2 f.1 ++ enc f.2.

Lemma read_fields_reads fuel (read : Z → M texn BP tval) fs :
  (length fs < fuel)%nat →
  Forall (λ f, in_signed 16 f.1 = true ∧ breads (read (type_of f.2)) (enc f.2) f.2) fs →
  breads (read_fields fuel read) (flat_map enc_field fs ++ to_be 1 T_STOP) fs.
Proof.
  intros Hf Hfs. revert fuel Hf. induction Hfs as [|[id x] fs [Hid Hx] Hfs IH]; intros [|fuel] Hf;
    simpl in Hf; try lia; cbn [read_fields flat_map].
  - eapply reads_bind_last; [apply read_field_stop_reads|]. apply reads_ret.
  - rewrite <- app_assoc. unfold enc_field at 1. cbn [fst snd] in *.
    rewrite (app_assoc (to_be 1 _)), <- app_assoc.
    eapply reads_bind; [by apply read_field_begin_reads|]. cbv beta iota.
    rewrite type_of_not_stop. eapply reads_bind; [exact Hx|].
    eapply reads_bind_nil; [apply reads_ret|].
    eapply reads_bind_last; [apply IH; lia|apply reads_ret].
Qed.

Lemma skip_fields_reads fuel (skip : Z → M texn BP Z) fs r :
  0 ≤ r < 2 ^ 32 → (length fs < fuel)%nat →
  Forall (λ f, in_signed 16 f.1 = true ∧
    breads (skip (type_of f.2)) (enc f.2) (u32 (zlen (enc f.2)))) fs →
  breads (skip_fields fuel skip r) (flat_map enc_field fs ++ to_be 1 T_STOP)
    (u32 (r + zlen (flat_map enc_field fs ++ to_be 1 T_STOP))).
Proof.
  intros Hr Hf Hfs. revert r Hr fuel Hf.
  induction Hfs as [|[id x] fs [Hid Hx] Hfs IH]; intros r Hr [|fuel] Hf;
    simpl in Hf; try lia; cbn [skip_fields flat_map].
  - eapply reads_bind_last; [apply read_field_stop_reads|]. apply reads_ret.
  - rewrite <- app_assoc. unfold enc_field at 1 3. cbn [fst snd] in *.
    rewrite (app_assoc (to_be 1 _)), <- app_assoc.
    eapply reads_bind; [by apply read_field_begin_reads|]. cbv beta iota.
    rewrite type_of_not_stop. eapply reads_bind; [exact Hx|].
    eapply reads_bind_nil; [apply reads_ret|].
    eapply reads_eq; [apply IH; [by apply (wrapu_range 32)|lia]|done|].
    rewrite !zlen_app, !zlen_to_be. u32_solve.
Qed.

Lemma Forall_forallb {A} (f : A → bool) (Q : A → Prop) l :
  forallb f l = true → Forall (λ x, f x = true → Q x) l → Forall Q l.
Proof.
  induction l as [|x l IH]; simpl; [done|]. intros [Hx Hl]%andb_true_iff [Hq Hql]%Forall_cons. eauto.
Qed.

(** A set and a list have the same header and the same elements. *)
Lemma write_elements_writes et l :
  Forall (λ x, tval_wf cfg x = true → bwrites (write_val x) (enc x) (u32 (zlen (enc x)))) l →
  tval_wf cfg (VList et l) = true →
  bwrites (write_val (VList et l)) (enc (VList et l)) (u32 (zlen (enc (VList et l)))).
Proof.
  intros IH Hwf. cbn [tval_wf] in Hwf. rewrite !andb_true_iff in Hwf. destruct Hwf as [[Het Hc] Hl].
  cbn [write_val enc]. pose proof (zlen_nonneg l). rewrite (app_assoc (to_be 1 et)).
  eapply writes_bind; [by apply write_list_begin_writes|].
  eapply writes_bind_last; [eapply (write_seq_writes _ enc)|].
  - eapply Forall_forallb; [exact Hl|]. eapply Forall_impl; [exact IH|].
    intros x Hx [_ Hw]%andb_true_iff. auto.
  - eapply writes_bind_nil; [apply writes_ret|]. eapply writes_eq; [apply writes_ret|done|].
    rewrite Z.add_0_r, u32_add_r, !zlen_app, !zlen_to_be. done.
Qed.

Lemma write_val_writes v :
  tval_wf cfg v = true → bwrites (write_val v) (enc v) (u32 (zlen (enc v))).
Proof.
  induction v as [b|z|z|z|z|z|str|fs IH|kt vt l IH|et l IH|et l IH] using tval_ind'; cbn [tval_wf]; intros Hwf.
  1-6: apply write_be_writes.
  - apply write_string_writes. apply andb_true_iff in Hwf as [Hl%Z.ltb_lt _]. done.
  - cbn [write_val enc]. eapply writes_bind_nil; [apply writes_ret|].
    eapply writes_bind; [eapply (write_seq_writes _ enc_field)|].
    + eapply Forall_forallb; [exact Hwf|]. eapply Forall_impl; [exact IH|].
      intros [id x] Hx [Hid Hw]%andb_true_iff. cbn [fst snd] in *. unfold enc_field. cbn [fst snd].
      rewrite app_assoc. eapply writes_bind; [apply write_field_begin_writes|].
      eapply writes_bind_last; [by apply Hx|].
      eapply writes_bind_nil; [apply writes_ret|].
      eapply writes_eq; [apply writes_ret|done|].
      rewrite Z.add_0_r, u32_add_r. rewrite !zlen_app, !zlen_to_be. done.
    + eapply writes_bind_last; [apply write_type_writes; done|].
      eapply writes_bind_nil; [apply writes_ret|]. eapply writes_eq; [apply writes_ret|done|].
      rewrite Z.add_0_l, Z.add_0_r, u32_add_l, zlen_app, zlen_to_be. done.
  - rewrite !andb_true_iff in Hwf. destruct Hwf as [[[Hkt Hvt] Hc] Hl].
    cbn [write_val enc]. pose proof (zlen_nonneg l).
    rewrite (app_assoc (to_be 1 vt)), (app_assoc (to_be 1 kt)).
    eapply writes_bind; [by apply write_map_begin_writes|].
    eapply writes_bind_last; [eapply (write_seq_writes _ (λ p, enc p.1 ++ enc p.2))|].
    + eapply Forall_forallb; [exact Hl|]. eapply Forall_impl; [exact IH|].
      intros [k x] [Hk Hx]. rewrite !andb_true_iff. intros [[_ Hwk] Hwx]. cbn [fst snd] in *.
      eapply writes_bind; [by apply Hk|]. eapply writes_bind_last; [by apply Hx|].
      eapply writes_eq; [apply writes_ret|done|]. by rewrite u32_add_l, u32_add_r, zlen_app.
    + eapply writes_bind_nil; [apply writes_ret|]. eapply writes_eq; [apply writes_ret|done|].
      rewrite Z.add_0_r, u32_add_r, !zlen_app, !zlen_to_be. done.
  - by apply write_elements_writes.
  - by apply write_elements_writes.
Qed.

Lemma list_max_elem {A} (f : A → nat) l x : x ∈ l → (f x ≤ list_max (map f l))%nat.
Proof.
  induction l as [|y l IH]; [by intros ?%elem_of_nil|].
  intros [->|Hx]%elem_of_cons; simpl; [lia|]. specialize (IH Hx). lia.
Qed.

(** The hypotheses of an induction, for the elements of a container. *)
Lemma Forall_elements {A} (f : A → bool) (g : A → nat) (Q : nat → A → Prop) l n :
  forallb f l = true → Forall (λ x, ∀ n, (g x ≤ n)%nat → f x = true → Q n x) l →
  (list_max (map g l) ≤ n)%nat → Forall (λ x, f x = true ∧ Q n x) l.
Proof.
  intros Hf Hq Hn. rewrite Forall_forall in *. intros x Hx.
  assert (f x = true) as Hfx by by eapply forallb_elem in Hf. split; [done|].
  apply Hq; [done| |done]. pose proof (list_max_elem g l x Hx). lia.
Qed.

Abbreviation for_depth Q := (λ x, ∀ n, (depth x ≤ n)%nat → tval_wf cfg x = true → Q n x).

Lemma elements_forall (Q : nat → tval → Prop) et l n :
  forallb (λ x, (type_of x =? et) && tval_wf cfg x) l = true → Forall (for_depth Q) l →
  (list_max (map depth l) ≤ n)%nat → Forall (λ x, type_of x = et ∧ Q n x) l.
Proof.
  intros Hl IH Hn. eapply Forall_impl; [eapply (Forall_elements _ depth Q); [exact Hl| |exact Hn]|].
  - eapply Forall_impl; [exact IH|]. intros x Hx m Hm [_ Hw]%andb_true_iff. by apply Hx.
  - by intros x [[<-%Z.eqb_eq _]%andb_true_iff Hx].
Qed.

Lemma pairs_forall (Q : nat → tval → Prop) kt vt l n :
  forallb (λ p, (type_of p.1 =? kt) && (type_of p.2 =? vt) && tval_wf cfg p.1 && tval_wf cfg p.2) l = true →
  Forall (λ p, for_depth Q p.1 ∧ for_depth Q p.2) l →
  (list_max (map (λ p, Nat.max (depth p.1) (depth p.2)) l) ≤ n)%nat →
  Forall (λ p, (type_of p.1 = kt ∧ Q n p.1) ∧ type_of p.2 = vt ∧ Q n p.2) l.
Proof.
  intros Hl IH Hn. eapply Forall_impl; [eapply (Forall_elements _
    (λ p, Nat.max (depth p.1) (depth p.2)) (λ n p, Q n p.1 ∧ Q n p.2)); [exact Hl| |exact Hn]|].
  - eapply Forall_impl; [exact IH|]. intros [k x] [Hk Hx] m Hm. rewrite !andb_true_iff.
    intros [[_ Hwk] Hwx]. cbn [fst snd] in *. split; [apply Hk|apply Hx]; (done || lia).
  - intros [k x] [Hb [Hk Hx]]. rewrite !andb_true_iff, !Z.eqb_eq in Hb.
    by destruct Hb as [[[<- <-] _] _].
Qed.

Lemma fields_forall (Q : nat → tval → Prop) fs n :
  forallb (λ f, in_signed 16 f.1 && tval_wf cfg f.2) fs = true →
  Forall (λ f, for_depth Q f.2) fs → (list_max (map (λ f, depth f.2) fs) ≤ n)%nat →
  Forall (λ f, in_signed 16 f.1 = true ∧ Q n f.2) fs.
Proof.
  intros Hl IH Hn. eapply Forall_impl; [eapply (Forall_elements _
    (λ f, depth f.2) (λ n f, Q n f.2)); [exact Hl| |exact Hn]|].
  - eapply Forall_impl; [exact IH|]. intros [id x] Hx m Hm [_ Hw]%andb_true_iff. by apply Hx.
  - by intros [id x] [[Hid _]%andb_true_iff Hx].
Qed.

(** The part common to sets and lists. *)
Lemma read_elements_reads {A} et l (Q : Z → M texn BP A) (e : tval → bytes) (fin : Z → list A → tval)
    (r : list A) :
  in_signed 8 et = true → container_ok cfg (zlen l) = true →
  breads (read_times (length l) (Q et)) (flat_map e l) r →
  breads (let* '(et, size, _) := read_list_begin cfg in
          let* l := read_times (Z.to_nat size) (Q et) in
          let* _ := nothing in
          mret (fin et l)) (to_be 1 et ++ to_be 4 (zlen l) ++ flat_map e l) (fin et r).
Proof.
  intros Het Hc Hr. rewrite app_assoc. pose proof (zlen_nonneg l).
  eapply reads_bind; [by apply read_list_begin_reads|]. cbv beta iota.
  unfold zlen. rewrite Nat2Z.id. eapply reads_bind_last; [exact Hr|].
  eapply reads_bind_nil; [apply reads_ret|]. apply reads_ret.
Qed.

Lemma read_val_reads v fuel :
  (depth v ≤ fuel)%nat → tval_wf cfg v = true → breads (read_val fuel (type_of v)) (enc v) v.
Proof.
  revert fuel. set (Q := λ n v, breads (read_val n (type_of v)) (enc v) v).
  induction v as [b|z|z|z|z|z|str|fs IH|kt vt l IH|et l IH|et l IH] using tval_ind';
    cbn [tval_wf depth]; intros [|fuel] Hfuel Hwf; try lia; apply le_S_n in Hfuel;
    rewrite ?andb_true_iff in Hwf.
  - eapply reads_bind_last; [apply read_bool_reads|apply reads_ret].
  - eapply reads_bind_last; [by apply read_byte_reads|apply reads_ret].
  - eapply reads_bind_last; [by apply read_i16_reads|apply reads_ret].
  - eapply reads_bind_last; [by apply read_i32_reads|apply reads_ret].
  - eapply reads_bind_last; [by apply read_i64_reads|apply reads_ret].
  - eapply reads_bind_last; [apply read_double_reads; lia|apply reads_ret].
  - eapply reads_bind_last; [by apply read_string_reads|apply reads_ret].
  - cbn [enc]. eapply reads_bind_nil; [apply reads_ret|].
    eapply reads_bind_last; [apply (read_fields_reads fuel _ fs); [lia|]|].
    + apply (fields_forall Q); [done..|lia].
    + eapply reads_bind_nil; [apply reads_ret|]. apply reads_ret.
  - destruct Hwf as [[[Hkt Hvt] Hc] Hl]. pose proof (zlen_nonneg l).
    cbn [enc]. rewrite (app_assoc (to_be 1 vt)), (app_assoc (to_be 1 kt)).
    eapply reads_bind; [by apply read_map_begin_reads|]. cbv beta iota.
    unfold zlen. rewrite Nat2Z.id.
    eapply reads_bind_last; [apply (read_times_reads _ (λ p, enc p.1 ++ enc p.2))|].
    + eapply Forall_impl; [by apply (pairs_forall Q kt vt l fuel)|].
      intros [k x] [[<- Hk] [<- Hx]]. cbn [fst snd] in *.
      eapply reads_bind; [exact Hk|]. eapply reads_bind_last; [exact Hx|apply reads_ret].
    + eapply reads_bind_nil; [apply reads_ret|]. apply reads_ret.
  - destruct Hwf as [[Het Hc] Hl].
    apply (read_elements_reads et l (read_val fuel) enc VSet); [done..|].
    apply read_times_reads. eapply Forall_impl; [by apply (elements_forall Q et l fuel)|].
    by intros x [<- Hx].
  - destruct Hwf as [[Het Hc] Hl].
    apply (read_elements_reads et l (read_val fuel) enc VList); [done..|].
    apply read_times_reads. eapply Forall_impl; [by apply (elements_forall Q et l fuel)|].
    by intros x [<- Hx].
Qed.

(** The part common to sets and lists, for [skip]. *)
Lemma skip_elements_reads fuel et l :
  in_signed 8 et = true → container_ok cfg (zlen l) = true →
  Forall (λ x, breads (skip fuel et) (enc x) (u32 (zlen (enc x)))) l →
  breads (let* '(elemType, size, n) := read_list_begin cfg in
          let* result := skip_times (Z.to_nat size) (skip fuel elemType) n in
          let* e := nothing in
          mret (u32 (result + e))) (to_be 1 et ++ to_be 4 (zlen l) ++ flat_map enc l)
         (u32 (zlen (to_be 1 et ++ to_be 4 (zlen l) ++ flat_map enc l))).
Proof.
  intros Het Hc Hl. rewrite app_assoc. pose proof (zlen_nonneg l).
  eapply reads_bind; [by apply read_list_begin_reads|]. cbv beta iota.
  replace (Z.to_nat (zlen l)) with (length l) by (unfold zlen; lia).
  eapply reads_bind_last; [by apply (skip_times_reads _ enc l 5)|].
  eapply reads_bind_nil; [apply reads_ret|]. eapply reads_eq; [apply reads_ret|done|].
  rewrite !zlen_app, !zlen_to_be. u32_solve.
Qed.

Lemma skip_val_reads v fuel :
  (depth v ≤ fuel)%nat → tval_wf cfg v = true →
  breads (skip fuel (type_of v)) (enc v) (u32 (zlen (enc v))).
Proof.
  revert fuel. set (Q := λ n v, breads (skip n (type_of v)) (enc v) (u32 (zlen (enc v)))).
  induction v as [b|z|z|z|z|z|str|fs IH|kt vt l IH|et l IH|et l IH] using tval_ind';
    cbn [tval_wf depth]; intros [|fuel] Hfuel Hwf; try lia; apply le_S_n in Hfuel;
    rewrite ?andb_true_iff in Hwf.
  - eapply reads_bind_last; [apply read_bool_reads|apply reads_ret].
  - eapply reads_bind_last; [by apply read_byte_reads|apply reads_ret].
  - eapply reads_bind_last; [by apply read_i16_reads|apply reads_ret].
  - eapply reads_bind_last; [by apply read_i32_reads|apply reads_ret].
  - eapply reads_bind_last; [by apply read_i64_reads|apply reads_ret].
  - eapply reads_bind_last; [apply read_double_reads; lia|apply reads_ret].
  - eapply reads_bind_last; [by apply read_string_reads|apply reads_ret].
  - cbn [enc]. eapply reads_bind_nil; [apply reads_ret|].
    eapply reads_bind_last; [apply (skip_fields_reads fuel _ fs 0); [done|lia|]|].
    + apply (fields_forall Q); [done..|lia].
    + eapply reads_bind_nil; [apply reads_ret|]. eapply reads_eq; [apply reads_ret|done|].
      by rewrite u32_add_l, Z.add_0_r.
  - destruct Hwf as [[[Hkt Hvt] Hc] Hl]. pose proof (zlen_nonneg l).
    cbn [enc]. rewrite (app_assoc (to_be 1 vt)), (app_assoc (to_be 1 kt)).
    eapply reads_bind; [by apply read_map_begin_reads|]. cbv beta iota.
    replace (Z.to_nat (zlen l)) with (length l) by (unfold zlen; lia).
    eapply reads_bind_last; [apply (skip_times_reads _ (λ p, enc p.1 ++ enc p.2) l 6); [done|]|].
    + eapply Forall_impl; [by apply (pairs_forall Q kt vt l fuel)|].
      intros [k x] [[<- Hk] [<- Hx]]. cbn [fst snd] in *.
      eapply reads_bind; [exact Hk|]. eapply reads_bind_last; [exact Hx|].
      eapply reads_eq; [apply reads_ret|done|]. by rewrite u32_add_l, u32_add_r, zlen_app.
    + eapply reads_bind_nil; [apply reads_ret|]. eapply reads_eq; [apply reads_ret|done|].
      rewrite !zlen_app, !zlen_to_be. u32_solve.
  - destruct Hwf as [[Het Hc] Hl]. apply skip_elements_reads; [done..|].
    eapply Forall_impl; [by apply (elements_forall Q et l fuel)|]. by intros x [<- Hx].
  - destruct Hwf as [[Het Hc] Hl]. apply skip_elements_reads; [done..|].
    eapply Forall_impl; [by apply (elements_forall Q et l fuel)|]. by intros x [<- Hx].
Qed.

(** *** Truncated input *)
Abbreviation beofs := (eofs b_inp b_ok).

Lemma readAll_eofs l : beofs (trans (t_readAll (zlen l))) l.
Proof.
  intros p k Hok Hk Hl. unfold b_inp, b_ok in *.
  destruct (law_readAll_eof (trans_ p) (zlen l) Hok) as (t' & Hr & _).
  { rewrite Hl, zlen_app. destruct k; [done|]. rewrite zlen_cons. pose proof (zlen_nonneg k). lia. }
  unfold trans. rewrite Hr. eauto.
Qed.

Lemma read_int_eofs {A} n z (f : bytes → A) :
  beofs (let* b := trans (t_readAll (Z.of_nat n)) in mret (f b)) (to_be n z).
Proof. apply eofs_bind_last. rewrite <- (zlen_to_be n z). apply readAll_eofs. Qed.

Lemma read_string_body_eofs str :
  string_ok cfg (zlen str) = true → beofs (read_string_body cfg (zlen str)) str.
Proof.
  unfold string_ok. rewrite andb_true_iff, negb_true_iff, Z.ltb_lt. intros [Hlen Hlim].
  unfold read_string_body. pose proof (zlen_nonneg str).
  destruct (Z.ltb_spec (zlen str) 0); [lia|]. rewrite Hlim.
  destruct (Z.eqb_spec (zlen str) 0) as [Hz|Hz].
  { apply zlen_zero_nil in Hz as ->. apply eofs_nil. }
  intros p k Hok Hk Hl. unfold b_inp, b_ok in *.
  destruct (law_borrow (trans_ p) (zlen str) Hok) as (t1 & o & Hb & Hok1 & Hin1 & Hout1 & Ho); [lia|].
  erewrite (M_bind_ret (trans (t_borrow (zlen str)))) by (unfold trans; rewrite Hb; done).
  destruct o as [l|].
  { destruct Ho as [Hle _]. rewrite Hl, zlen_app in Hle. destruct k; [done|].
    rewrite zlen_cons in Hle. pose proof (zlen_nonneg k). lia. }
  assert (∃ sz, reserve (zlen str) (mkBinary t1 (string_buf_size_ p)) = Ret tt (mkBinary t1 sz))
    as [sz Hres].
  { unfold reserve. simpl. rewrite malloc_law by lia. case_match; eauto. }
  rewrite (M_bind_ret _ _ _ _ _ Hres).
  destruct (readAll_eofs str (mkBinary t1 sz) k) as [p2 Hr]; [done..|unfold b_inp; simpl; congruence|].
  rewrite (M_bind_exn _ _ _ _ _ Hr). eauto.
Qed.

Lemma read_string_eofs str : string_ok cfg (zlen str) = true → beofs (read_string cfg) (enc_string str).
Proof.
  intros Hs. unfold read_string, enc_string.
  eapply eofs_bind; [apply read_i32_reads, string_ok_range; [apply zlen_nonneg|done]|apply (read_int_eofs 4)|].
  cbv beta iota. by apply eofs_bind_last, read_string_body_eofs.
Qed.

Lemma read_list_begin_eofs et n :
  in_signed 8 et = true → 0 ≤ n → container_ok cfg n = true →
  beofs (read_list_begin cfg) (to_be 1 et ++ to_be 4 n).
Proof.
  intros Het Hn Hc. eapply eofs_bind; [by apply read_byte_reads|apply (read_int_eofs 1)|].
  apply eofs_bind_last, (read_int_eofs 4).
Qed.

Lemma read_map_begin_eofs kt vt n :
  in_signed 8 kt = true → in_signed 8 vt = true → 0 ≤ n → container_ok cfg n = true →
  beofs (read_map_begin cfg) (to_be 1 kt ++ to_be 1 vt ++ to_be 4 n).
Proof.
  intros Hkt Hvt Hn Hc. eapply eofs_bind; [by apply read_byte_reads|apply (read_int_eofs 1)|].
  eapply eofs_bind; [by apply read_byte_reads|apply (read_int_eofs 1)|].
  apply eofs_bind_last, (read_int_eofs 4).
Qed.

Lemma read_times_eofs {A} (m : M texn BP A) (e : A → bytes) l :
  Forall (λ x, breads m (e x) x ∧ beofs m (e x)) l → beofs (read_times (length l) m) (flat_map e l).
Proof.
  induction 1 as [|x l [Hx Hx'] Hl IH]; simpl; [apply eofs_nil|].
  eapply eofs_bind; [exact Hx|exact Hx'|]. by apply eofs_bind_last.
Qed.

Lemma read_fields_eofs fuel (read : Z → M texn BP tval) fs :
  (length fs < fuel)%nat →
  Forall (λ f, in_signed 16 f.1 = true ∧ breads (read (type_of f.2)) (enc f.2) f.2 ∧
    beofs (read (type_of f.2)) (enc f.2)) fs →
  beofs (read_fields fuel read) (flat_map enc_field fs ++ to_be 1 T_STOP).
Proof.
  intros Hf Hfs. revert fuel Hf. induction Hfs as [|[id x] fs (Hid & Hx & Hx') Hfs IH]; intros [|fuel] Hf;
    simpl in Hf; try lia; cbn [read_fields flat_map].
  - apply eofs_bind_last, eofs_bind_last, (read_int_eofs 1).
  - rewrite <- app_assoc. unfold enc_field at 1. cbn [fst snd] in *.
    rewrite (app_assoc (to_be 1 _)), <- app_assoc.
    eapply eofs_bind; [by apply read_field_begin_reads| |].
    { eapply eofs_bind; [apply read_byte_reads, type_of_range|apply (read_int_eofs 1)|].
      cbv beta iota. rewrite type_of_not_stop. apply eofs_bind_last, (read_int_eofs 2). }
    cbv beta iota. rewrite type_of_not_stop. eapply eofs_bind; [exact Hx|exact Hx'|].
    eapply (eofs_bind_nil b_inp b_out b_ok); [apply reads_ret|]. apply eofs_bind_last, IH. lia.
Qed.

(** The part common to sets and lists. *)
Lemma read_elements_eofs {A} et l (Q : Z → M texn BP A) (e : tval → bytes) (fin : Z → list A → tval) :
  in_signed 8 et = true → container_ok cfg (zlen l) = true →
  beofs (read_times (length l) (Q et)) (flat_map e l) →
  beofs (let* '(et, size, _) := read_list_begin cfg in
         let* l := read_times (Z.to_nat size) (Q et) in
         let* _ := nothing in
         mret (fin et l)) (to_be 1 et ++ to_be 4 (zlen l) ++ flat_map e l).
Proof.
  intros Het Hc Hr. rewrite app_assoc. pose proof (zlen_nonneg l).
  eapply eofs_bind; [by apply read_list_begin_reads|by apply read_list_begin_eofs|]. cbv beta iota.
  unfold zlen. rewrite Nat2Z.id. by apply eofs_bind_last.
Qed.

Lemma read_val_eofs v fuel :
  (depth v ≤ fuel)%nat → tval_wf cfg v = true → beofs (read_val fuel (type_of v)) (enc v).
Proof.
  revert fuel. set (Q := λ n v, breads (read_val n (type_of v)) (enc v) v ∧
                               beofs (read_val n (type_of v)) (enc v)).
  assert (∀ v fuel, (depth v ≤ fuel)%nat → tval_wf cfg v = true → Q fuel v) as HQ;
    [|intros fuel Hf Hw; by apply HQ].
  clear v. intros v. induction v as [b|z|z|z|z|z|str|fs IH|kt vt l IH|et l IH|et l IH] using tval_ind';
    intros fuel Hd Hw; (split; [by apply read_val_reads|]); revert Hd Hw;
    destruct fuel as [|fuel]; cbn [tval_wf depth]; intros Hfuel Hwf; try lia; apply le_S_n in Hfuel;
    rewrite ?andb_true_iff in Hwf.
  - apply eofs_bind_last, eofs_bind_last, (readAll_eofs [if b then 1 else 0]).
  - apply eofs_bind_last, (read_int_eofs 1).
  - apply eofs_bind_last, (read_int_eofs 2).
  - apply eofs_bind_last, (read_int_eofs 4).
  - apply eofs_bind_last, (read_int_eofs 8).
  - apply eofs_bind_last, (read_int_eofs 8).
  - by apply eofs_bind_last, read_string_eofs.
  - cbn [enc]. eapply (eofs_bind_nil b_inp b_out b_ok); [apply reads_ret|].
    apply eofs_bind_last, (read_fields_eofs fuel _ fs); [lia|].
    apply (fields_forall Q); [done..|lia].
  - destruct Hwf as [[[Hkt Hvt] Hc] Hl]. pose proof (zlen_nonneg l).
    cbn [enc]. rewrite (app_assoc (to_be 1 vt)), (app_assoc (to_be 1 kt)).
    eapply eofs_bind; [by apply read_map_begin_reads|by apply read_map_begin_eofs|]. cbv beta iota.
    unfold zlen. rewrite Nat2Z.id. apply eofs_bind_last, (read_times_eofs _ (λ p, enc p.1 ++ enc p.2)).
    eapply Forall_impl; [by apply (pairs_forall Q kt vt l fuel)|].
    intros [k x] [[<- [Hk Hk']] [<- [Hx Hx']]]. cbn [fst snd] in *. split.
    + eapply reads_bind; [exact Hk|]. eapply reads_bind_last; [exact Hx|apply reads_ret].
    + eapply eofs_bind; [exact Hk|exact Hk'|]. by apply eofs_bind_last.
  - destruct Hwf as [[Het Hc] Hl]. apply (read_elements_eofs et l (read_val fuel) enc VSet); [done..|].
    apply read_times_eofs. eapply Forall_impl; [by apply (elements_forall Q et l fuel)|].
    by intros x [<- Hx].
  - destruct Hwf as [[Het Hc] Hl]. apply (read_elements_eofs et l (read_val fuel) enc VList); [done..|].
    apply read_times_eofs. eapply Forall_impl; [by apply (elements_forall Q et l fuel)|].
    by intros x [<- Hx].
Qed.

(** *** Messages *)

Definition enc_message (name : bytes) (type seqid : Z) : bytes :=
  if strict_write_ cfg then
    to_be 4 (Z.lor VERSION_1 type) ++ enc_string name ++ to_be 4 seqid
  else enc_string name ++ to_be 1 type ++ to_be 4 seqid.

(** The version word of every message type. *)
Lemma version_word t :
  0 ≤ t < 128 →
  let w := Z.lor VERSION_1 t in
  in_signed 32 w = true ∧ w < 0 ∧ Z.land w VERSION_MASK = VERSION_1 ∧ Z.land w 255 = t.
Proof.
  intros Ht.
  set (good := λ t, let w := Z.lor VERSION_1 t in
    in_signed 32 w && (w <? 0) && (Z.land w VERSION_MASK =? VERSION_1) && (Z.land w 255 =? t)).
  assert (forallb good (Z.of_nat <$> seq 0 128) = true) as Hall by (vm_compute; reflexivity).
  assert (good t = true) as Hg.
  { apply (proj1 (forallb_elem _ _) Hall). apply list_elem_of_fmap. exists (Z.to_nat t).
    split; [lia|]. apply elem_of_seq. lia. }
  unfold good in Hg. rewrite !andb_true_iff, !Z.eqb_eq in Hg.
  destruct Hg as [[[H1' H2'%Z.ltb_lt] H3'] H4'].
  exact (conj H1' (conj H2' (conj H3' H4'))).
Qed.

Lemma write_message_writes name t seqid :
  zlen name < 2 ^ 31 → 0 ≤ t < 128 →
  bwrites (write_message_begin cfg name t seqid) (enc_message name t seqid)
    (u32 (zlen (enc_message name t seqid))).
Proof.
  intros Hn Ht. unfold write_message_begin, enc_message. destruct (strict_write_ cfg).
  - eapply writes_bind; [apply write_be_writes|].
    eapply writes_bind; [by apply write_string_writes|].
    eapply writes_bind_last; [apply write_be_writes|]. eapply writes_eq; [apply writes_ret|done|].
    rewrite !zlen_app, !zlen_to_be. u32_solve.
  - eapply writes_bind; [by apply write_string_writes|].
    eapply writes_bind; [apply write_type_writes; apply in_signed_iff; lia|].
    eapply writes_bind_last; [apply write_be_writes|]. eapply writes_eq; [apply writes_ret|done|].
    rewrite !zlen_app, !zlen_to_be. u32_solve.
Qed.

Lemma read_message_reads name t seqid :
  string_ok cfg (zlen name) = true → 0 ≤ t < 128 → in_signed 32 seqid = true →
  (strict_read_ cfg = true → strict_write_ cfg = true) →
  breads (read_message_begin cfg) (enc_message name t seqid)
    (name, t, seqid, u32 (zlen (enc_message name t seqid))).
Proof.
  intros Hn Ht Hs Hstrict. unfold read_message_begin, enc_message.
  pose proof (zlen_nonneg name). destruct (strict_write_ cfg).
  - destruct (version_word t Ht) as (Hw & Hneg & Hmask & Htype).
    eapply reads_bind; [by apply read_i32_reads|]. cbv beta iota.
    destruct (Z.ltb_spec (Z.lor VERSION_1 t) 0); [|lia]. cbv zeta.
    rewrite Hmask, Htype, Z.eqb_refl. cbn [negb].
    eapply reads_bind; [by apply read_string_reads|]. cbv beta iota.
    eapply reads_bind_last; [by apply read_i32_reads|]. cbv beta iota.
    eapply reads_eq; [apply reads_ret|done|]. f_equal. rewrite !zlen_app, !zlen_to_be. u32_solve.
  - unfold enc_string at 1. rewrite <- app_assoc.
    eapply reads_bind; [by apply read_i32_reads, string_ok_range|]. cbv beta iota.
    destruct (Z.ltb_spec (zlen name) 0); [lia|].
    destruct (strict_read_ cfg); [by discriminate Hstrict|].
    eapply reads_bind; [by apply read_string_body_reads|]. cbv beta iota.
    eapply reads_bind; [apply read_byte_reads; apply in_signed_iff; lia|]. cbv beta iota.
    eapply reads_bind_last; [by apply read_i32_reads|]. cbv beta iota.
    eapply reads_eq; [apply reads_ret|done|]. f_equal.
    rewrite !zlen_app, zlen_enc_string, !zlen_to_be. f_equal. lia.
Qed.

(** ** Theorems *)

(** C27: the binary protocol is lossless: a value of any type and depth that the
    writer accepts is written as [enc v] (and reported with its length), and a
    reader that finds these bytes gets back exactly the value and stops behind
    them; [skip], which reads a value without keeping it, passes over exactly these
    bytes and reports their number. *)
Theorem binary_roundtrip v p :
  tval_wf cfg v = true → b_ok p → zlen (enc v) ≤ b_room p →
  (∃ p', write_val v p = Ret (u32 (zlen (enc v))) p' ∧ b_ok p' ∧ b_out p' = b_out p ++ enc v) ∧
  (∀ q rest fuel, b_ok q → b_inp q = enc v ++ rest → (depth v ≤ fuel)%nat →
     (∃ q', read_val fuel (type_of v) q = Ret v q' ∧ b_ok q' ∧ b_inp q' = rest) ∧
     (∃ q', skip fuel (type_of v) q = Ret (u32 (zlen (enc v))) q' ∧ b_ok q' ∧ b_inp q' = rest)).
Proof.
  intros Hwf Hok Hroom. split.
  - destruct (write_val_writes v Hwf p Hok Hroom) as (p' & Hw & Hok' & Hout & _). eauto.
  - intros q rest fuel Hokq Hin Hf. split.
    + destruct (read_val_reads v fuel Hf Hwf q rest Hokq Hin) as (q' & Hr & Hok' & Hin' & _). eauto.
    + destruct (skip_val_reads v fuel Hf Hwf q rest Hokq Hin) as (q' & Hs & Hok' & Hin' & _). eauto.
Qed.

(** C29: truncated data is never misread: on every proper prefix of a written
    value the reader throws [END_OF_FILE]. *)
Theorem binary_truncated v q k fuel :
  tval_wf cfg v = true → b_ok q → k ≠ [] → enc v = b_inp q ++ k → (depth v ≤ fuel)%nat →
  ∃ q', read_val fuel (type_of v) q = Exn (TTransportExn END_OF_FILE) q'.
Proof. intros Hwf Hok Hk Hl Hf. by apply (read_val_eofs v fuel Hf Hwf q k). Qed.

(** Message headers survive the wire in the strict and in the old format, as
    long as a strict reader meets a strict writer. *)
Theorem message_roundtrip name t seqid p :
  string_ok cfg (zlen name) = true → 0 ≤ t < 128 → in_signed 32 seqid = true →
  (strict_read_ cfg = true → strict_write_ cfg = true) →
  b_ok p → zlen (enc_message name t seqid) ≤ b_room p →
  (∃ p' n, write_message_begin cfg name t seqid p = Ret n p' ∧ b_ok p' ∧
     b_out p' = b_out p ++ enc_message name t seqid) ∧
  (∀ q rest, b_ok q → b_inp q = enc_message name t seqid ++ rest →
     ∃ q' n, read_message_begin cfg q = Ret (name, t, seqid, n) q' ∧ b_inp q' = rest).
Proof.
  intros Hn Ht Hs Hstrict Hok Hroom. split.
  - assert (zlen name < 2 ^ 31) as Hlen by (apply andb_true_iff in Hn as [Hl%Z.ltb_lt _]; done).
    destruct (write_message_writes name t seqid Hlen Ht p Hok Hroom) as (p' & Hw & Hok' & Hout & _).
    eauto.
  - intros q rest Hokq Hin.
    destruct (read_message_reads name t seqid Hn Ht Hs Hstrict q rest Hokq Hin)
      as (q' & Hr & _ & Hin' & _). eauto.
Qed.

(** Sizes from the wire are checked before anything is allocated or read: a
    negative size throws [NEGATIVE_SIZE] and a size above the configured limit
    [SIZE_LIMIT], for strings, lists, sets and maps, right after the header. *)
Theorem size_checks n et vt :
  in_signed 32 n = true → in_signed 8 et = true → in_signed 8 vt = true →
  (n < 0 ∨ (0 < string_limit_ cfg < n) →
     throws b_inp b_ok (read_string cfg) (to_be 4 n)
       (TProtocolExn (if n <? 0 then NEGATIVE_SIZE else SIZE_LIMIT))) ∧
  (n < 0 ∨ (0 < container_limit_ cfg < n) →
     throws b_inp b_ok (read_list_begin cfg) (to_be 1 et ++ to_be 4 n)
       (TProtocolExn (if n <? 0 then NEGATIVE_SIZE else SIZE_LIMIT)) ∧
     throws b_inp b_ok (read_set_begin cfg) (to_be 1 et ++ to_be 4 n)
       (TProtocolExn (if n <? 0 then NEGATIVE_SIZE else SIZE_LIMIT)) ∧
     throws b_inp b_ok (read_map_begin cfg) (to_be 1 et ++ to_be 1 vt ++ to_be 4 n)
       (TProtocolExn (if n <? 0 then NEGATIVE_SIZE else SIZE_LIMIT))).
Proof.
  intros Hn Het Hvt. split.
  - intros Hbad. eapply throws_bind_last; [by apply read_i32_reads|]. cbv beta iota.
    apply throws_bind_first. unfold read_string_body.
    destruct (Z.ltb_spec n 0); [apply throws_throw|].
    destruct (Z.ltb_spec 0 (string_limit_ cfg)); [|lia].
    destruct (Z.ltb_spec (string_limit_ cfg) n); [apply throws_throw|lia].
  - intros Hbad.
    assert (throws b_inp b_ok (check_size cfg n) []
      (TProtocolExn (if n <? 0 then NEGATIVE_SIZE else SIZE_LIMIT))) as Hc.
    { unfold check_size. destruct (Z.ltb_spec n 0); [apply throws_throw|].
      destruct (Z.eqb_spec (container_limit_ cfg) 0); [lia|].
      destruct (Z.ltb_spec (container_limit_ cfg) n); [apply throws_throw|lia]. }
    split_and!; (eapply throws_bind; [by apply read_byte_reads|]); cbv beta iota;
      try (eapply throws_bind; [by apply read_byte_reads|]); cbv beta iota;
      (eapply throws_bind_last; [by apply read_i32_reads|]); by apply throws_bind_first.
Qed.

(** A strict reader refuses messages without a version, and every reader
    refuses a version other than the first. *)
Theorem bad_versions_refused n :
  in_signed 32 n = true →
  (0 ≤ n ∧ strict_read_ cfg = true) ∨ (n < 0 ∧ Z.land n VERSION_MASK ≠ VERSION_1) →
  throws b_inp b_ok (read_message_begin cfg) (to_be 4 n) (TProtocolExn BAD_VERSION).
Proof.
  intros Hn Hbad. eapply throws_bind_last; [by apply read_i32_reads|]. cbv beta iota zeta.
  destruct (Z.ltb_spec n 0).
  - destruct Hbad as [[? _]|[_ Hv]]; [lia|]. destruct (Z.eqb_spec (Z.land n VERSION_MASK) VERSION_1);
      [done|apply throws_throw].
  - destruct Hbad as [[_ ->]|[? _]]; [apply throws_throw|lia].
Qed.

End Binary.

(** ** The theorems at work, over a memory buffer *)
#[local] Instance ex_malloc : Malloc := λ _, true.
#[local] Instance ex_malloc_laws : MallocLaws.
Proof. by intros n. Qed.
#[local] Existing Instances MemoryBuffer.memory_buffer_transport memory_buffer_read_laws
  memory_buffer_write_laws.
#[local] Instance ex_protocol : Protocol (TBinaryProtocol TMemoryBuffer) :=
  Binary.binary_protocol default_config.

(** A struct with a number, a string and a list of numbers. *)
Definition ex_value : tval :=
  VStruct [(1, VI32 (-5)); (2, VString [104; 105]); (3, VList T_I16 [VI16 7; VI16 8])].

Definition ex_writer : TBinaryProtocol TMemoryBuffer :=
  mkBinary (MemoryBuffer.initCommon (fresh_block 8) 8 true 0) 0.
Definition ex_reader (l : bytes) : TBinaryProtocol TMemoryBuffer :=
  mkBinary (MemoryBuffer.initCommon l (zlen l) false (zlen l)) 0.

Lemma ex_reader_ok l : zlen l < 2 ^ 32 → mb_ok (trans_ (ex_reader l)).
Proof. intros Hl. pose proof (zlen_nonneg l). split; simpl; lia. Qed.

Lemma ex_writer_ok : mb_ok (trans_ ex_writer).
Proof. split; vm_compute; intuition discriminate. Qed.

Lemma binary_roundtrip_witness :
  ∃ p' q', write_val ex_value ex_writer = Ret 29 p' ∧
    read_val 10 T_STRUCT (ex_reader (enc ex_value ++ [9])) = Ret ex_value q' ∧
    mb_inp (trans_ q') = [9] ∧ ∃ q'', skip 10 T_STRUCT (ex_reader (enc ex_value ++ [9])) = Ret 29 q''.
Proof.
  destruct (binary_roundtrip default_config mb_inp mb_out mb_room mb_ok ex_value ex_writer)
    as [(p' & Hw & _) Hread].
  - vm_compute. reflexivity.
  - apply ex_writer_ok.
  - vm_compute. discriminate.
  - destruct (Hread (ex_reader (enc ex_value ++ [9])) [9] 10%nat) as [(q' & Hr & _ & Hin) (q'' & Hs & _)].
    + by apply ex_reader_ok.
    + vm_compute. reflexivity.
    + vm_compute. lia.
    + exists p', q'. split; [exact Hw|]. split; [exact Hr|]. split; [exact Hin|]. exists q''. exact Hs.
Defined.

Lemma binary_truncated_witness :
  ∃ q', read_val 10 T_STRUCT (ex_reader (ztake 20 (enc ex_value))) =
    Exn (TTransportExn END_OF_FILE) q'.
Proof.
  apply (binary_truncated default_config mb_inp mb_out mb_ok ex_value
    (ex_reader (ztake 20 (enc ex_value))) (zdrop 20 (enc ex_value)) 10%nat).
  - vm_compute. reflexivity.
  - by apply ex_reader_ok.
  - discriminate.
  - vm_compute. reflexivity.
  - vm_compute. lia.
Defined.

Lemma message_roundtrip_witness :
  ∃ p' n, Binary.write_message_begin default_config [112; 117; 116] T_CALL 3 ex_writer = Ret n p' ∧
    mb_out (trans_ p') = [128; 1; 0; 1; 0; 0; 0; 3; 112; 117; 116; 0; 0; 0; 3].
Proof.
  destruct (message_roundtrip default_config mb_inp mb_out mb_room mb_ok [112; 117; 116] T_CALL 3
    ex_writer) as [(p' & n & Hw & _ & Hout) _].
  - reflexivity.
  - by vm_compute.
  - reflexivity.
  - done.
  - apply ex_writer_ok.
  - vm_compute. discriminate.
  - exists p', n. split; [exact Hw|exact Hout].
Defined.

Lemma size_checks_witness :
  ∃ s', Binary.read_list_begin default_config (ex_reader [3; 255; 255; 255; 255; 1]) =
    Exn (TProtocolExn NEGATIVE_SIZE) s' ∧ mb_inp (trans_ s') = [1].
Proof.
  destruct (size_checks default_config mb_inp mb_out mb_ok (-1) T_BYTE T_BYTE) as [_ Hc];
    [reflexivity..|].
  destruct Hc as [Hl _]; [by left|].
  destruct (Hl (ex_reader [3; 255; 255; 255; 255; 1]) [1]) as (s' & Hs & _ & Hin).
  - by apply ex_reader_ok.
  - vm_compute. reflexivity.
  - exists s'. split; [exact Hs|exact Hin].
Defined.

Lemma bad_versions_refused_witness :
  ∃ s', Binary.read_message_begin default_config (ex_reader [128; 2; 0; 1; 5]) =
    Exn (TProtocolExn BAD_VERSION) s' ∧ mb_inp (trans_ s') = [5].
Proof.
  destruct (bad_versions_refused default_config mb_inp mb_out mb_ok (-2147352575)) with
    (s := ex_reader [128; 2; 0; 1; 5]) (rest := [5]) as (s' & Hs & _ & Hin).
  - reflexivity.
  - right. split; [lia|]. vm_compute. discriminate.
  - by apply ex_reader_ok.
  - vm_compute. reflexivity.
  - exists s'. split; [exact Hs|exact Hin].
Defined.
