(* ===== verification/BinaryTyping.v ===== *)
(** * What a reader of [TBinaryProtocol] may rely on

    Whatever bytes come from the network, a value that the protocol delivers has the
    type that was asked for and respects the ranges and limits of its types. *)

From S2P Require Import Prelude Bytes Transport BufferTransports MemoryBufferTheorems Protocol BinaryTheorems.
From stdpp Require Import base list.
From Stdlib Require Import ZArith Lia.

Local Open Scope Z_scope.

(** ** Programs whose results satisfy a condition *)
Section Yields.
Context {P : Type} (ok : P → Prop).

Definition yields {A} (m : M texn P A) (Q : A → Prop) : Prop := ∀ s a s',
  ok s → m s = Ret a s' → ok s' ∧ Q a.

Lemma yields_ret {A} (a : A) (Q : A → Prop) : Q a → yields (mret a) Q.
Proof. intros Ha s b s' Hok [= <- <-]. done. Qed.
Lemma yields_throw {A} e (Q : A → Prop) : yields (throw e) Q.
Proof. by intros s a s' _. Qed.
Lemma yields_stuck {A} f (Q : A → Prop) : yields (stuck f) Q.
Proof. by intros s a s' _. Qed.

Lemma yields_bind {A B} (m : M texn P A) (k : A → M texn P B) Q R :
  yields m Q → (∀ a, Q a → yields (k a) R) → yields (mbind k m) R.
Proof.
  intros Hm Hk s b s' Hok (a & s1 & H1 & H2)%M_bind_inv. destruct (Hm s a s1 Hok H1) as [Hok1 Ha].
  by apply (Hk a Ha s1 b s' Hok1).
Qed.
End Yields.

Section Typing.
Import Binary.
Context {T : Type} `{Transport T} `{MallocLaws} (cfg : BinaryConfig)
  (tinp tout : T → bytes) (tok : T → Prop) `{!ReadLaws T tinp tout tok}.
#[local] Instance this_protocol : Protocol (TBinaryProtocol T) := binary_protocol cfg.
Abbreviation gives := (yields (b_ok tok)).

Lemma readAll_gives n : 0 ≤ n → gives (trans (t_readAll n)) (λ l, zlen l = n).
Proof.
  intros Hn s l s' Hok. unfold trans. unfold b_ok in Hok.
  destruct (decide (n ≤ zlen (tinp (trans_ s)))) as [Hle|Hlt].
  - destruct (law_readAll (trans_ s) n Hok) as (t' & -> & Hok' & _); [lia|].
    intros [= <- <-]. split; [done|]. apply zlen_ztake. lia.
  - destruct (law_readAll_eof (trans_ s) n Hok) as (t' & -> & _); [lia|done].
Qed.

(** Integers are in the range of their type. *)
Lemma int_gives n w (Hn : 0 ≤ n) (Hw : 0 < w) (r : Z) :
  gives (let* b := trans (t_readAll n) in mret (wraps w (of_be b), r)) (λ x, in_signed w x.1 = true).
Proof.
  eapply yields_bind; [by apply readAll_gives|]. intros l _. apply yields_ret.
  apply in_signed_iff, wraps_range, Hw.
Qed.

Lemma read_byte_gives : gives read_byte (λ x, in_signed 8 x.1 = true).
Proof. by apply (int_gives 1 8). Qed.
Lemma read_i16_gives : gives read_i16 (λ x, in_signed 16 x.1 = true).
Proof. by apply (int_gives 2 16). Qed.
Lemma read_i32_gives : gives read_i32 (λ x, in_signed 32 x.1 = true).
Proof. by apply (int_gives 4 32). Qed.
Lemma read_i64_gives : gives read_i64 (λ x, in_signed 64 x.1 = true).
Proof. by apply (int_gives 8 64). Qed.
Lemma read_double_gives : gives read_double (λ x, 0 ≤ x.1 < 2 ^ 64).
Proof.
  eapply yields_bind; [by apply readAll_gives|]. intros l _. apply yields_ret. by apply wrapu_range.
Qed.

Lemma reserve_gives n : gives (reserve n) (λ _, True).
Proof.
  intros s a s' Hok. unfold reserve. destruct (_ || _); [|by intros [= _ <-]].
  destruct (malloc_ok n); [|done]. by intros [= _ <-].
Qed.

Lemma read_string_body_gives size :
  size < 2 ^ 31 → gives (read_string_body cfg size) (λ x, string_ok cfg (zlen x.1) = true).
Proof.
  intros Hs. unfold read_string_body. destruct (Z.ltb_spec size 0); [apply yields_throw|].
  destruct (_ && _) eqn:Hl; [apply yields_throw|].
  assert (string_ok cfg size = true) as Hok.
  { unfold string_ok. by rewrite (proj2 (Z.ltb_lt _ _)), Hl. }
  destruct (Z.eqb_spec size 0) as [->|Hn]; [by apply yields_ret|].
  intros s [str k] s' Hoks Hm. apply M_bind_inv in Hm as (o & s1 & Hb & Hk).
  unfold trans in Hb. destruct (law_borrow (trans_ s) size Hoks) as (t1 & o' & Ht & Hok1 & Hin & _ & Ho); [lia|].
  rewrite Ht in Hb. injection Hb as <- <-. destruct o' as [buf|].
  - destruct Ho as (Hle & Htake & Hconsume). destruct (Hconsume size) as (t2 & Hc & Hok2 & _); [lia|].
    apply M_bind_inv in Hk as (u & s2 & Hc' & Hr). unfold trans in Hc'. cbn in Hc'. rewrite Hc in Hc'.
    injection Hc' as <- <-. injection Hr as <- <- <-. split; [done|]. cbn.
    rewrite Htake, zlen_ztake by lia. done.
  - refine ((_ : gives _ (λ x, string_ok cfg (zlen x.1) = true)) _ _ _ _ Hk); [|exact Hok1].
    eapply yields_bind; [apply reserve_gives|]. intros _ _.
    eapply yields_bind; [apply readAll_gives; lia|]. intros l <-. by apply yields_ret.
Qed.

Lemma signed32 z : in_signed 32 z = true → - 2 ^ 31 ≤ z < 2 ^ 31.
Proof. apply in_signed_iff. Qed.

Lemma read_string_gives : gives (read_string cfg) (λ x, string_ok cfg (zlen x.1) = true).
Proof.
  eapply yields_bind; [apply read_i32_gives|]. intros [size r] Hs%signed32. cbn in Hs. cbv beta iota.
  eapply yields_bind; [apply read_string_body_gives; lia|]. intros [str n] Hn. by apply yields_ret.
Qed.

Lemma check_size_gives n :
  in_signed 32 n = true → gives (check_size cfg n) (λ size, 0 ≤ size ∧ container_ok cfg size = true).
Proof.
  intros Hn%signed32. unfold check_size. destruct (Z.ltb_spec n 0); [apply yields_throw|].
  destruct (_ && _) eqn:Hl; [apply yields_throw|]. apply yields_ret. unfold u32.
  rewrite wrapu_small by lia. split; [done|]. unfold container_ok. by rewrite (proj2 (Z.ltb_lt _ _)), Hl by lia.
Qed.

Lemma read_list_begin_gives :
  gives (read_list_begin cfg) (λ '(et, size, _), in_signed 8 et = true ∧ 0 ≤ size ∧ container_ok cfg size = true).
Proof.
  eapply yields_bind; [apply read_byte_gives|]. intros [e r0] He. cbv beta iota.
  eapply yields_bind; [apply read_i32_gives|]. intros [n r1] Hn. cbv beta iota.
  eapply yields_bind; [by apply check_size_gives|]. intros size Hs. by apply yields_ret.
Qed.
Lemma read_set_begin_gives :
  gives (read_set_begin cfg) (λ '(et, size, _), in_signed 8 et = true ∧ 0 ≤ size ∧ container_ok cfg size = true).
Proof. exact read_list_begin_gives. Qed.

Lemma read_map_begin_gives :
  gives (read_map_begin cfg) (λ '(kt, vt, size, _),
    in_signed 8 kt = true ∧ in_signed 8 vt = true ∧ 0 ≤ size ∧ container_ok cfg size = true).
Proof.
  eapply yields_bind; [apply read_byte_gives|]. intros [k r0] Hk. cbv beta iota.
  eapply yields_bind; [apply read_byte_gives|]. intros [v r1] Hv. cbv beta iota.
  eapply yields_bind; [apply read_i32_gives|]. intros [n r2] Hn. cbv beta iota.
  eapply yields_bind; [by apply check_size_gives|]. intros size Hs. by apply yields_ret.
Qed.

Lemma read_field_begin_gives : gives read_field_begin (λ '(_, fid, _), in_signed 16 fid = true).
Proof.
  eapply yields_bind; [apply read_byte_gives|]. intros [t r0] _. cbv beta iota.
  destruct (t =? T_STOP); [by apply yields_ret|].
  eapply yields_bind; [apply read_i16_gives|]. intros [fid r1] Hf. by apply yields_ret.
Qed.

(** ** Containers and structs *)

Lemma read_times_gives {A} n (m : M texn (TBinaryProtocol T) A) (Q : A → Prop) :
  gives m Q → gives (read_times n m) (λ l, length l = n ∧ Forall Q l).
Proof.
  intros Hm. induction n as [|n IH]; cbn [read_times]; [by apply yields_ret|].
  eapply yields_bind; [exact Hm|]. intros a Ha. eapply yields_bind; [exact IH|]. intros l [Hl HQ].
  apply yields_ret. split; [cbn; lia|by constructor].
Qed.

Definition typed (type : Z) (v : tval) : Prop := type_of v = type ∧ tval_wf cfg v = true.

Lemma read_fields_gives fuel (read : Z → M texn (TBinaryProtocol T) tval) :
  (∀ t, gives (read t) (typed t)) →
  gives (read_fields fuel read) (λ fs, forallb (λ f, in_signed 16 f.1 && tval_wf cfg f.2) fs = true).
Proof.
  intros Hr. induction fuel as [|fuel IH]; cbn [read_fields]; [apply yields_stuck|].
  eapply yields_bind; [apply read_field_begin_gives|]. intros [[t fid] r] Hf. cbv beta iota.
  destruct (t =? T_STOP); [by apply yields_ret|].
  eapply yields_bind; [apply Hr|]. intros x [_ Hx].
  eapply yields_bind; [by apply (yields_ret _ 0 (λ _, True))|]. intros _ _.
  eapply yields_bind; [exact IH|]. intros xs Hxs. apply yields_ret. cbn. by rewrite Hf, Hx.
Qed.

Lemma typed_forallb et l :
  Forall (typed et) l → forallb (λ x, (type_of x =? et) && tval_wf cfg x) l = true.
Proof. induction 1 as [|x l [Ht Hx] _ IH]; cbn; [done|]. by rewrite Ht, Z.eqb_refl, Hx. Qed.

(** A container whose elements are read one after the other. *)
Lemma read_elements_gives fuel (begin_ : M texn (TBinaryProtocol T) (Z * Z * Z)) (V : Z → list tval → tval) ty :
  (∀ t, gives (read_val fuel t) (typed t)) →
  gives begin_ (λ '(et, size, _), in_signed 8 et = true ∧ 0 ≤ size ∧ container_ok cfg size = true) →
  (∀ et l, type_of (V et l) = ty) →
  (∀ et l, tval_wf cfg (V et l) =
     in_signed 8 et && container_ok cfg (zlen l) && forallb (λ x, (type_of x =? et) && tval_wf cfg x) l) →
  gives (let* '(et, size, _) := begin_ in
         let* l := read_times (Z.to_nat size) (read_val fuel et) in
         let* _ := (nothing : M texn (TBinaryProtocol T) Z) in
         mret (V et l)) (typed ty).
Proof.
  intros IH Hb Hty Hwf. eapply yields_bind; [exact Hb|]. intros [[e n] r] (He & Hn & Hc). cbv beta iota.
  eapply yields_bind; [apply read_times_gives, IH|]. intros l [Hl Hf].
  eapply yields_bind; [by apply (yields_ret _ 0 (λ _, True))|]. intros _ _.
  apply yields_ret. split; [apply Hty|]. rewrite Hwf, He.
  assert (zlen l = n) as -> by (unfold zlen; lia). rewrite Hc. cbn [andb]. by apply typed_forallb.
Qed.

Lemma read_map_gives fuel :
  (∀ t, gives (read_val fuel t) (typed t)) →
  gives (let* '(kt, vt, size, _) := (read_map_begin cfg : M texn (TBinaryProtocol T) _) in
         let* l := read_times (Z.to_nat size)
           (let* k := read_val fuel kt in
            let* x := read_val fuel vt in
            mret (k, x)) in
         let* _ := (nothing : M texn (TBinaryProtocol T) Z) in
         mret (VMap kt vt l)) (typed T_MAP).
Proof.
  intros IH. eapply yields_bind; [apply read_map_begin_gives|].
  intros [[[k v] n] r] (Hk & Hv & Hn & Hc). cbv beta iota.
  eapply yields_bind.
  { apply (read_times_gives _ _ (λ p, typed k p.1 ∧ typed v p.2)).
    eapply yields_bind; [apply IH|]. intros x Hx. eapply yields_bind; [apply IH|]. intros y Hy.
    by apply yields_ret. }
  intros l [Hl Hf]. eapply yields_bind; [by apply (yields_ret _ 0 (λ _, True))|]. intros _ _.
  apply yields_ret. split; [done|]. cbn [tval_wf]. rewrite Hk, Hv.
  assert (zlen l = n) as -> by (unfold zlen; lia). rewrite Hc. cbn [andb].
  clear Hl. induction Hf as [|[x y] l' [[Hx1 Hx2] [Hy1 Hy2]] _ IHf]; [done|]. cbn in *.
  rewrite Hx1, Hx2, Hy1, Hy2, !Z.eqb_refl. cbn. apply IHf.
Qed.

Lemma read_val_gives fuel type : gives (read_val fuel type) (typed type).
Proof.
  revert type. induction fuel as [|fuel IH]; intros type; [apply yields_stuck|]. cbn [read_val].
  destruct (Z.eqb_spec type T_BOOL) as [->|_].
  { eapply yields_bind; [|intros [b r] _; by apply yields_ret].
    eapply yields_bind; [by apply (readAll_gives 1)|]. intros l _. by apply (yields_ret _ _ (λ _, True)). }
  destruct (Z.eqb_spec type T_BYTE) as [->|_].
  { eapply yields_bind; [apply read_byte_gives|]. intros [z r] Hz. by apply yields_ret. }
  destruct (Z.eqb_spec type T_I16) as [->|_].
  { eapply yields_bind; [apply read_i16_gives|]. intros [z r] Hz. by apply yields_ret. }
  destruct (Z.eqb_spec type T_I32) as [->|_].
  { eapply yields_bind; [apply read_i32_gives|]. intros [z r] Hz. by apply yields_ret. }
  destruct (Z.eqb_spec type T_I64) as [->|_].
  { eapply yields_bind; [apply read_i64_gives|]. intros [z r] Hz. by apply yields_ret. }
  destruct (Z.eqb_spec type T_DOUBLE) as [->|_].
  { eapply yields_bind; [apply read_double_gives|]. intros [z r] Hz. apply yields_ret.
    split; [done|]. cbn [tval_wf]. apply andb_true_iff. by rewrite Z.leb_le, Z.ltb_lt. }
  destruct (Z.eqb_spec type T_STRING) as [->|_].
  { eapply yields_bind; [apply read_string_gives|]. intros [z r] Hz. by apply yields_ret. }
  destruct (Z.eqb_spec type T_STRUCT) as [->|_].
  { eapply yields_bind; [by apply (yields_ret _ 0 (λ _, True))|]. intros _ _.
    eapply yields_bind; [by apply read_fields_gives|]. intros fs Hfs.
    eapply yields_bind; [by apply (yields_ret _ 0 (λ _, True))|]. intros _ _. by apply yields_ret. }
  destruct (Z.eqb_spec type T_MAP) as [->|_]; [by apply read_map_gives|].
  destruct (Z.eqb_spec type T_SET) as [->|_].
  { by apply (read_elements_gives fuel _ VSet _ IH read_set_begin_gives). }
  destruct (Z.eqb_spec type T_LIST) as [->|_]; [|apply yields_stuck].
  by apply (read_elements_gives fuel _ VList _ IH read_list_begin_gives).
Qed.


End Typing.

(** A list of booleans with bytes that no writer produces, over a memory buffer. *)
#[local] Existing Instances MemoryBuffer.memory_buffer_transport memory_buffer_read_laws.
#[local] Instance any_malloc : Malloc := λ _, true.
#[local] Instance any_malloc_laws : MallocLaws.
Proof. by intros n. Qed.

Definition odd_bytes : bytes := [2; 0; 0; 0; 2; 7; 0].
Definition odd_reader : TBinaryProtocol TMemoryBuffer := ex_reader odd_bytes.

