(* ===== verification/CompactProtocol.v ===== *)
(** * [TCompactProtocol]

    [protocol/TCompactProtocol.{h,tcc}] of the thrift library: a protocol that writes
    integers in as few bytes as they need, field numbers as differences and the value
    of a field of type [bool] in its header.  It is another instance of the interface
    [TProtocol]. *)

From S2P Require Import Prelude Bytes Transport BufferTransports Protocol.
From stdpp Require Import base list.
From Stdlib Require Import ZArith Lia.

Local Open Scope Z_scope.

Module Compact.

(** ** Types on the wire *)

(** [detail::compact::Types]. *)
Definition CT_STOP : Z := 0.
Definition CT_BOOLEAN_TRUE : Z := 1.
Definition CT_BOOLEAN_FALSE : Z := 2.
Definition CT_BYTE : Z := 3.
Definition CT_I16 : Z := 4.
Definition CT_I32 : Z := 5.
Definition CT_I64 : Z := 6.
Definition CT_DOUBLE : Z := 7.
Definition CT_BINARY : Z := 8.
Definition CT_LIST : Z := 9.
Definition CT_SET : Z := 10.
Definition CT_MAP : Z := 11.
Definition CT_STRUCT : Z := 12.

Definition TTypeToCType : list Z :=
  [CT_STOP; 0; CT_BOOLEAN_TRUE; CT_BYTE; CT_DOUBLE; 0; CT_I16; 0; CT_I32; 0; CT_I64; CT_BINARY;
   CT_STRUCT; CT_MAP; CT_SET; CT_LIST].

Definition getCompactType (ttype : Z) : result Z := vec_at TTypeToCType ttype.

(** [None]: the default case, which throws. *)
Definition getTType (type : Z) : option Z :=
  if type =? T_STOP then Some T_STOP
  else if (type =? CT_BOOLEAN_FALSE) || (type =? CT_BOOLEAN_TRUE) then Some T_BOOL
  else if type =? CT_BYTE then Some T_BYTE
  else if type =? CT_I16 then Some T_I16
  else if type =? CT_I32 then Some T_I32
  else if type =? CT_I64 then Some T_I64
  else if type =? CT_DOUBLE then Some T_DOUBLE
  else if type =? CT_BINARY then Some T_STRING
  else if type =? CT_LIST then Some T_LIST
  else if type =? CT_SET then Some T_SET
  else if type =? CT_MAP then Some T_MAP
  else if type =? CT_STRUCT then Some T_STRUCT
  else None.

(** ** Integers *)

(** The right shift of a negative number is arithmetic, as the code requires; the left
    shift drops the bits that do not fit. *)
Definition i64ToZigzag (l : Z) : Z := u64 (Z.lxor (i64 (Z.shiftl l 1)) (Z.shiftr l 63)).
Definition i32ToZigzag (n : Z) : Z := u32 (Z.lxor (i32 (Z.shiftl n 1)) (Z.shiftr n 31)).
Definition zigzagToI32 (n : Z) : Z := i32 (Z.lxor (Z.shiftr n 1) (u32 (- Z.land n 1))).
Definition zigzagToI64 (n : Z) : Z := i64 (Z.lxor (Z.shiftr n 1) (u64 (- Z.land n 1))).

(** The loop of [writeVarint32] and [writeVarint64], which fills a buffer of [room] bytes. *)
Fixpoint varint_loop (room : nat) (n : Z) : result bytes :=
  match room with
  | O => Fail OutOfBounds
  | S room' =>
      if Z.land n (Z.lnot 127) =? 0 then Ok [u8 n]
      else
        let* rest := varint_loop room' (Z.shiftr n 7) in
        Ok (u8 (Z.lor (Z.land n 127) 128) :: rest)
  end.

(** ** The object *)

Record CompactConfig := mkCompactConfig { c_string_limit_ : Z; c_container_limit_ : Z }.
Definition setStringSizeLimit (n : Z) (c : CompactConfig) : CompactConfig := mkCompactConfig n (c_container_limit_ c).
Definition setContainerSizeLimit (n : Z) (c : CompactConfig) : CompactConfig := mkCompactConfig (c_string_limit_ c) n.

(** [booleanField_] is [None] when its name is the null pointer, and otherwise the type and
    the number of the field; [boolValue_] is [None] when it has no value.  The stack
    [lastField_] has its top first. *)
Record TCompactProtocol (T : Type) := mkCompact {
  c_trans : T;
  booleanField_ : option (Z * Z);
  boolValue_ : option bool;
  lastField_ : list Z;
  lastFieldId_ : Z;
  c_string_buf_size_ : Z
}.
Arguments mkCompact {T}.
Arguments c_trans {T}.
Arguments booleanField_ {T}.
Arguments boolValue_ {T}.
Arguments lastField_ {T}.
Arguments lastFieldId_ {T}.
Arguments c_string_buf_size_ {T}.

(** [TCompactProtocolT(trans, string_limit, container_limit)], and [getProtocol] of the
    factory. *)
Definition newCompact {T} (trans : T) : TCompactProtocol T := mkCompact trans None None [] 0 0.

Section Compact.
Context {T : Type} `{Transport T} `{Malloc} (cfg : CompactConfig).
Abbreviation C := (M texn (TCompactProtocol T)).

(** A call of the transport. *)
Definition with_trans (t : T) (p : TCompactProtocol T) : TCompactProtocol T :=
  mkCompact t (booleanField_ p) (boolValue_ p) (lastField_ p) (lastFieldId_ p) (c_string_buf_size_ p).
Definition trans {A} (m : M texn T A) : C A := λ p,
  match m (c_trans p) with
  | Ret a t => Ret a (with_trans t p)
  | Exn e t => Exn e (with_trans t p)
  | Stuck f => Stuck f
  end.

Definition set_booleanField (v : option (Z * Z)) : C unit := modify (λ p,
  mkCompact (c_trans p) v (boolValue_ p) (lastField_ p) (lastFieldId_ p) (c_string_buf_size_ p)).
Definition set_boolValue (v : option bool) : C unit := modify (λ p,
  mkCompact (c_trans p) (booleanField_ p) v (lastField_ p) (lastFieldId_ p) (c_string_buf_size_ p)).
Definition set_lastFieldId (v : Z) : C unit := modify (λ p,
  mkCompact (c_trans p) (booleanField_ p) (boolValue_ p) (lastField_ p) v (c_string_buf_size_ p)).

(** [lastField_.push(lastFieldId_); lastFieldId_ = 0]. *)
Definition push_field : C unit := modify (λ p,
  mkCompact (c_trans p) (booleanField_ p) (boolValue_ p) (lastFieldId_ p :: lastField_ p) 0 (c_string_buf_size_ p)).
(** [lastFieldId_ = lastField_.top(); lastField_.pop()]. *)
Definition pop_field : C unit := λ p,
  match lastField_ p with
  | top :: rest => Ret tt (mkCompact (c_trans p) (booleanField_ p) (boolValue_ p) rest top (c_string_buf_size_ p))
  | [] => Stuck OutOfBounds
  end.

(** ** Writing *)

Definition write_byte (byte : Z) : C Z := trans (t_write (to_be 1 byte)) ;; mret 1.

Definition write_varint32 (n : Z) : C Z :=
  let* buf := lift_result (varint_loop 5 n) in trans (t_write buf) ;; mret (zlen buf).
Definition write_varint64 (n : Z) : C Z :=
  let* buf := lift_result (varint_loop 10 n) in trans (t_write buf) ;; mret (zlen buf).

Definition write_i16 (n : Z) : C Z := write_varint32 (i32ToZigzag n).
Definition write_i32 (n : Z) : C Z := write_varint32 (i32ToZigzag n).
Definition write_i64 (n : Z) : C Z := write_varint64 (i64ToZigzag n).

(** The bytes of a [double], the least significant first. *)
Definition write_double (bits : Z) : C Z := trans (t_write (rev (to_be 8 bits))) ;; mret 8.

Definition write_binary (str : bytes) : C Z :=
  let ssize := u32 (zlen str) in
  let* n := write_varint32 ssize in
  let wsize := u32 (n + ssize) in
  trans (t_write (ztake ssize str)) ;; mret wsize.

Definition PROTOCOL_ID : Z := i8 130.   (* 0x82 *)
Definition VERSION_N : Z := 1.
Definition VERSION_MASK : Z := 31.      (* 0x1f *)
Definition TYPE_MASK : Z := i8 224.     (* 0xE0 *)
Definition TYPE_SHIFT_AMOUNT : Z := 5.

Definition write_message_begin (name : bytes) (messageType seqid : Z) : C Z :=
  let* a := write_byte PROTOCOL_ID in
  let* b := write_byte (i8 (Z.lor (Z.land VERSION_N VERSION_MASK) (Z.land (Z.shiftl messageType TYPE_SHIFT_AMOUNT) TYPE_MASK))) in
  let* c := write_varint32 (u32 seqid) in
  let* d := write_binary name in
  mret (u32 (a + b + c + d)).

Definition write_struct_begin (name : bytes) : C Z := push_field ;; mret 0.
Definition write_struct_end : C Z := pop_field ;; mret 0.

(** [typeOverride] is -1 when there is none. *)
Definition writeFieldBeginInternal (fieldType fieldId typeOverride : Z) : C Z :=
  let* typeToWrite := if typeOverride =? -1 then lift_result (getCompactType (i8 fieldType)) else mret typeOverride in
  let* last := gets lastFieldId_ in
  let* wsize :=
    if (last <? fieldId) && (fieldId - last <=? 15) then write_byte (i8 (Z.lor (Z.shiftl (fieldId - last) 4) typeToWrite))
    else
      let* a := write_byte typeToWrite in
      let* b := write_i16 fieldId in
      mret (u32 (a + b)) in
  set_lastFieldId fieldId ;; mret wsize.

Definition write_field_begin (name : bytes) (fieldType fieldId : Z) : C Z :=
  if fieldType =? T_BOOL then set_booleanField (Some (fieldType, fieldId)) ;; mret 0
  else writeFieldBeginInternal fieldType fieldId (-1).

Definition write_field_stop : C Z := write_byte T_STOP.

Definition writeCollectionBegin (elemType size : Z) : C Z :=
  if size <=? 14 then
    let* t := lift_result (getCompactType elemType) in
    write_byte (i8 (Z.lor (Z.shiftl size 4) t))
  else
    let* t := lift_result (getCompactType elemType) in
    let* a := write_byte (i8 (Z.lor 240 t)) in
    let* b := write_varint32 (u32 size) in
    mret (u32 (a + b)).
Definition write_list_begin (elemType size : Z) : C Z := writeCollectionBegin (i8 elemType) (i32 size).
Definition write_set_begin (elemType size : Z) : C Z := writeCollectionBegin (i8 elemType) (i32 size).

Definition write_map_begin (keyType valType size : Z) : C Z :=
  if size =? 0 then write_byte 0
  else
    let* a := write_varint32 size in
    let* k := lift_result (getCompactType (i8 keyType)) in
    let* v := lift_result (getCompactType (i8 valType)) in
    let* b := write_byte (i8 (Z.lor (Z.shiftl k 4) v)) in
    mret (u32 (a + b)).

Definition write_bool (value : bool) : C Z :=
  let t := if value then CT_BOOLEAN_TRUE else CT_BOOLEAN_FALSE in
  let* pending := gets booleanField_ in
  match pending with
  | Some (fieldType, fieldId) =>
      let* wsize := writeFieldBeginInternal fieldType fieldId t in
      set_booleanField None ;; mret wsize
  | None => write_byte t
  end.

(** ** Reading *)

Definition read_byte : C (Z * Z) := let* b := trans (t_readAll 1) in mret (i8 (of_be b), 1).

(** The loop of [readVarint64] over the bytes that the transport lends: the value and the
    number of bytes, [None] when the number is longer than the buffer. *)
Fixpoint fast_loop (fuel : nat) (borrowed : bytes) (rsize val shift : Z) : result (option (Z * Z)) :=
  match fuel with
  | O => Fail OutOfFuel
  | S fuel' =>
      let* byte := vec_at borrowed rsize in
      let rsize := rsize + 1 in
      let val := Z.lor val (u64 (Z.shiftl (Z.land byte 127) shift)) in
      let shift := shift + 7 in
      if Z.land byte 128 =? 0 then Ok (Some (val, rsize))
      else if rsize =? 10 then Ok None
      else fast_loop fuel' borrowed rsize val shift
  end.
(** The loop that reads one byte at a time. *)
Fixpoint slow_loop (fuel : nat) (rsize val shift : Z) : C (Z * Z) :=
  match fuel with
  | O => stuck OutOfFuel
  | S fuel' =>
      let* b := trans (t_readAll 1) in
      let byte := of_be b in
      let rsize := rsize + 1 in
      let val := Z.lor val (u64 (Z.shiftl (Z.land byte 127) shift)) in
      let shift := shift + 7 in
      if Z.land byte 128 =? 0 then mret (i64 val, rsize)
      else if 10 <=? rsize then throw (TProtocolExn INVALID_DATA)
      else slow_loop fuel' rsize val shift
  end.
Definition readVarint64 : C (Z * Z) :=
  let* borrowed := trans (t_borrow 10) in
  match borrowed with
  | Some l =>
      let* r := lift_result (fast_loop 10 l 0 0 0) in
      match r with
      | Some (val, rsize) => trans (t_consume rsize) ;; mret (i64 val, rsize)
      | None => throw (TProtocolExn INVALID_DATA)
      end
  | None => slow_loop 10 0 0 0
  end.
Definition readVarint32 : C (Z * Z) := let* '(val, rsize) := readVarint64 in mret (i32 val, rsize).

Definition read_i16 : C (Z * Z) := let* '(value, rsize) := readVarint32 in mret (i16 (zigzagToI32 (u32 value)), rsize).
Definition read_i32 : C (Z * Z) := let* '(value, rsize) := readVarint32 in mret (zigzagToI32 (u32 value), rsize).
Definition read_i64 : C (Z * Z) := let* '(value, rsize) := readVarint64 in mret (zigzagToI64 (u64 value), rsize).
Definition read_double : C (Z * Z) := let* b := trans (t_readAll 8) in mret (of_be (rev b), 8).

(** The buffer grows to the size of the string. *)
Definition reserve (size : Z) : C unit := λ p,
  if (c_string_buf_size_ p <? size) || (c_string_buf_size_ p =? 0) then
    if malloc_ok size then Ret tt (mkCompact (c_trans p) (booleanField_ p) (boolValue_ p) (lastField_ p) (lastFieldId_ p) size)
    else Exn TBadAlloc p
  else Ret tt p.

Definition read_binary : C (bytes * Z) :=
  let* '(size, rsize) := readVarint32 in
  if size =? 0 then mret ([], rsize)
  else if size <? 0 then throw (TProtocolExn NEGATIVE_SIZE)
  else if (0 <? c_string_limit_ cfg) && (c_string_limit_ cfg <? size) then throw (TProtocolExn SIZE_LIMIT)
  else
    reserve size ;;
    let* str := trans (t_readAll size) in
    mret (str, u32 (rsize + size)).

(** [getTType], which throws for a number that is none of the types. *)
Definition the_type (type : Z) : C Z :=
  match getTType type with Some t => mret t | None => throw TPlainExn end.

Definition read_message_begin : C (bytes * Z * Z * Z) :=
  let* '(protocolId, r0) := read_byte in
  if negb (protocolId =? PROTOCOL_ID) then throw (TProtocolExn BAD_VERSION) else
  let* '(versionAndType, r1) := read_byte in
  let version := i8 (Z.land versionAndType VERSION_MASK) in
  if negb (version =? VERSION_N) then throw (TProtocolExn BAD_VERSION) else
  let messageType := Z.land (Z.shiftr versionAndType TYPE_SHIFT_AMOUNT) 3 in
  let* '(seqid, r2) := readVarint32 in
  let* '(name, r3) := read_binary in
  mret (name, messageType, seqid, u32 (r0 + r1 + r2 + r3)).

Definition read_struct_begin : C Z := push_field ;; mret 0.
Definition read_struct_end : C Z := pop_field ;; mret 0.

Definition read_field_begin : C (Z * Z * Z) :=
  let* '(byte, r0) := read_byte in
  let type := i8 (Z.land byte 15) in
  if type =? T_STOP then mret (T_STOP, 0, r0) else
  let modifier := Z.shiftr (Z.land (u8 byte) 240) 4 in
  let* '(fieldId, r1) :=
    if modifier =? 0 then read_i16
    else let* last := gets lastFieldId_ in mret (i16 (last + modifier), 0) in
  let* fieldType := the_type type in
  (if (type =? CT_BOOLEAN_TRUE) || (type =? CT_BOOLEAN_FALSE) then set_boolValue (Some (type =? CT_BOOLEAN_TRUE)) else mret tt) ;;
  set_lastFieldId fieldId ;;
  mret (fieldType, fieldId, u32 (r0 + r1)).

(** The checks of [readMapBegin] and [readListBegin]. *)
Definition check_size (size : Z) : C unit :=
  if size <? 0 then throw (TProtocolExn NEGATIVE_SIZE)
  else if negb (c_container_limit_ cfg =? 0) && (c_container_limit_ cfg <? size) then throw (TProtocolExn SIZE_LIMIT)
  else mret tt.

Definition read_map_begin : C (Z * Z * Z * Z) :=
  let* '(msize, r0) := readVarint32 in
  let* '(kvType, r1) := if negb (msize =? 0) then read_byte else mret (0, 0) in
  check_size msize ;;
  let* keyType := the_type (i8 (Z.shiftr (u8 kvType) 4)) in
  let* valType := the_type (i8 (Z.land (u8 kvType) 15)) in
  mret (keyType, valType, u32 msize, u32 (r0 + r1)).

Definition read_list_begin : C (Z * Z * Z) :=
  let* '(size_and_type, r0) := read_byte in
  let lsize := Z.land (Z.shiftr (u8 size_and_type) 4) 15 in
  let* '(lsize, r1) := if lsize =? 15 then readVarint32 else mret (lsize, 0) in
  check_size lsize ;;
  let* elemType := the_type (i8 (Z.land size_and_type 15)) in
  mret (elemType, u32 lsize, u32 (r0 + r1)).
Definition read_set_begin : C (Z * Z * Z) := read_list_begin.

Definition read_bool : C (bool * Z) :=
  let* stored := gets boolValue_ in
  match stored with
  | Some value => set_boolValue None ;; mret (value, 0)
  | None => let* '(val, _) := read_byte in mret (val =? CT_BOOLEAN_TRUE, 1)
  end.

(** The operations that neither read nor write return 0. *)
Definition nothing : C Z := mret 0.

Definition compact_protocol : Protocol (TCompactProtocol T) := {|
  writeMessageBegin := write_message_begin; writeMessageEnd := nothing;
  writeStructBegin := write_struct_begin; writeStructEnd := write_struct_end;
  writeFieldBegin := write_field_begin; writeFieldEnd := nothing;
  writeFieldStop := write_field_stop;
  writeMapBegin := write_map_begin; writeMapEnd := nothing;
  writeListBegin := write_list_begin; writeListEnd := nothing;
  writeSetBegin := write_set_begin; writeSetEnd := nothing;
  writeBool := write_bool; writeByte := write_byte; writeI16 := write_i16;
  writeI32 := write_i32; writeI64 := write_i64; writeDouble := write_double;
  writeString := write_binary; writeBinary := write_binary;
  readMessageBegin := read_message_begin; readMessageEnd := nothing;
  readStructBegin := read_struct_begin; readStructEnd := read_struct_end;
  readFieldBegin := read_field_begin; readFieldEnd := nothing;
  readMapBegin := read_map_begin; readMapEnd := nothing;
  readListBegin := read_list_begin; readListEnd := nothing;
  readSetBegin := read_set_begin; readSetEnd := nothing;
  readBool := read_bool; readByte := read_byte; readI16 := read_i16;
  readI32 := read_i32; readI64 := read_i64; readDouble := read_double;
  readString := read_binary; readBinary := read_binary |}.

End Compact.
End Compact.
