(* ===== verification/CompactTheorems.v ===== *)
(** * Properties of [TCompactProtocol]

    What the protocol writes it reads back, over every transport that satisfies the laws
    of [Transport]: numbers, whatever their size, values of every type and depth with the
    differences of their field numbers and the booleans in the headers, and the headers of
    messages. *)

From S2P Require Import Prelude Bytes Transport BufferTransports MemoryBufferTheorems Protocol BinaryTheorems CompactProtocol.
From stdpp Require Import base list.
From Stdlib Require Import ZArith Lia.

Local Open Scope Z_scope.

Module CompactTheorems.
Import Compact.

(** ** Numbers *)

(** The conversion of [w] bits: small absolute values become small numbers. *)
Definition zigzag (w n : Z) : Z := wrapu w (Z.lxor (wraps w (Z.shiftl n 1)) (Z.shiftr n (w - 1))).
Definition unzigzag (w m : Z) : Z := wraps w (Z.lxor (Z.shiftr m 1) (wrapu w (- Z.land m 1))).

Lemma pow_half w : 0 < w → 2 ^ w = 2 * 2 ^ (w - 1).
Proof. intros Hw. rewrite <- Z.pow_succ_r by lia. f_equal. lia. Qed.

Lemma shiftr_sign w n : 0 < w → - 2 ^ w ≤ n < 2 ^ w → Z.shiftr n w = if n <? 0 then -1 else 0.
Proof.
  intros Hw Hn. rewrite Z.shiftr_div_pow2 by lia. destruct (Z.ltb_spec n 0).
  - symmetry. apply (Z.div_unique _ _ _ (n + 2 ^ w)); lia.
  - apply Z.div_small. lia.
Qed.

Lemma zigzag_eq w n : 1 < w → - 2 ^ (w - 1) ≤ n < 2 ^ (w - 1) → zigzag w n = if n <? 0 then - 2 * n - 1 else 2 * n.
Proof.
  intros Hw Hn. unfold zigzag. rewrite shiftr_sign by lia. rewrite Z.shiftl_mul_pow2 by lia. change (2 ^ 1) with 2.
  pose proof (pow_half w ltac:(lia)) as Hp. destruct (Z.ltb_spec n 0).
  - rewrite Z.lxor_m1_r. unfold wraps, wrapu, Z.lnot. pose proof (Z.div_mod (n * 2 + 2 ^ (w - 1)) (2 ^ w) ltac:(lia)) as Hd.
    set (q := (n * 2 + 2 ^ (w - 1)) / 2 ^ w) in *. set (r := (n * 2 + 2 ^ (w - 1)) mod 2 ^ w) in *.
    replace (Z.pred (- (r - 2 ^ (w - 1)))) with (- 2 * n - 1 + q * 2 ^ w) by lia.
    rewrite Z.mod_add by lia. apply Z.mod_small. lia.
  - rewrite Z.lxor_0_r, wrapu_wraps by lia. rewrite Z.mul_comm. apply wrapu_small. lia.
Qed.

Lemma high_bit a w k : 0 ≤ w ≤ k → 0 ≤ a < 2 ^ w → Z.testbit a k = false.
Proof. intros Hk Ha. rewrite <- (Z.mod_small a (2 ^ w)) by done. by apply Z.mod_pow2_bits_high. Qed.

Lemma lxor_ones w a : 0 ≤ w → 0 ≤ a < 2 ^ w → Z.lxor a (2 ^ w - 1) = 2 ^ w - 1 - a.
Proof.
  intros Hw Ha. rewrite Z.sub_1_r, <- Z.ones_equiv.
  rewrite Z.sub_nocarry_ldiff.
  - apply Z.bits_inj'. intros k Hk. rewrite Z.lxor_spec, Z.ldiff_spec. destruct (Z.ltb_spec k w).
    + rewrite Z.ones_spec_low by lia. by destruct (Z.testbit a k).
    + rewrite Z.ones_spec_high by lia. rewrite xorb_false_r. apply (high_bit _ w); lia.
  - apply Z.bits_inj'. intros k Hk. rewrite Z.ldiff_spec, Z.bits_0. destruct (Z.ltb_spec k w).
    + rewrite Z.ones_spec_low by lia. by rewrite andb_false_r.
    + by rewrite (high_bit _ w) by lia.
Qed.

Lemma unzigzag_zigzag w n : 1 < w → - 2 ^ (w - 1) ≤ n < 2 ^ (w - 1) → unzigzag w (zigzag w n) = n.
Proof.
  intros Hw Hn. rewrite zigzag_eq by done. unfold unzigzag. pose proof (pow_half w ltac:(lia)) as Hp.
  rewrite (Z.land_ones _ 1) by lia. change (2 ^ 1) with 2. rewrite Z.shiftr_div_pow2 by lia. change (2 ^ 1) with 2. destruct (Z.ltb_spec n 0).
  - replace (- 2 * n - 1) with (1 + (- n - 1) * 2) by lia. rewrite Z.mod_add, Z.div_add by lia.
    change (1 / 2) with 0. change (1 mod 2) with 1. rewrite Z.add_0_l.
    assert (wrapu w (- (1)) = 2 ^ w - 1) as ->.
    { unfold wrapu. symmetry. apply (Z.mod_unique _ _ (-1)); lia. }
    rewrite lxor_ones by lia. rewrite (wraps_congr w _ n); [apply wraps_small; lia|lia|].
    replace (2 ^ w - 1 - (- n - 1)) with (n + 1 * 2 ^ w) by lia. apply Z.mod_add. lia.
  - rewrite Z.mul_comm, Z.mod_mul, Z.div_mul by lia. change (wrapu w (- 0)) with (0 mod 2 ^ w). rewrite Z.mod_0_l by lia.
    rewrite Z.lxor_0_r. apply wraps_small; lia.
Qed.

Lemma zigzag_range w n : 0 ≤ w → 0 ≤ zigzag w n < 2 ^ w.
Proof. apply wrapu_range. Qed.

(** The bytes of a number, seven bits each, the lowest first. *)
Fixpoint varint (room : nat) (n : Z) : bytes :=
  match room with
  | O => []
  | S room' => if n <? 128 then [n] else (n mod 128 + 128) :: varint room' (n / 128)
  end.

(** Facts about single bytes are tried on all of them. *)
Lemma all_below (p : Z → bool) n : forallb p (Z.of_nat <$> seq 0 n) = true → ∀ b, 0 ≤ b < Z.of_nat n → p b = true.
Proof.
  intros Hall b Hb. apply (proj1 (forallb_elem _ _) Hall). apply list_elem_of_fmap. exists (Z.to_nat b). split; [lia|]. apply elem_of_seq. lia.
Qed.

Lemma continued n : 0 ≤ n → (Z.land n (Z.lnot 127) =? 0) = (n <? 128).
Proof.
  intros Hn. rewrite <- Z.ldiff_land. change 127 with (Z.ones 7). rewrite Z.ldiff_ones_r, Z.shiftl_mul_pow2, Z.shiftr_div_pow2 by lia.
  change (2 ^ 7) with 128. destruct (Z.ltb_spec n 128).
  - rewrite Z.div_small by lia. done.
  - apply Z.eqb_neq. pose proof (Z.div_le_mono 128 n 128). change (128 / 128) with 1 in *. lia.
Qed.
Lemma continuation n : 0 ≤ n → u8 (Z.lor (Z.land n 127) 128) = n mod 128 + 128.
Proof.
  intros Hn. change 127 with (Z.ones 7). rewrite Z.land_ones by lia. change (2 ^ 7) with 128. pose proof (Z.mod_pos_bound n 128).
  pose proof (all_below (λ b, u8 (Z.lor b 128) =? b + 128) 128 ltac:(vm_compute; reflexivity) (n mod 128) ltac:(lia)) as Hb. by apply Z.eqb_eq in Hb.
Qed.

Lemma seven_bits room n : 0 ≤ n < 2 ^ (7 * Z.of_nat (S room)) → 128 ≤ n → ∃ r, room = S r ∧ 0 ≤ n / 128 < 2 ^ (7 * Z.of_nat (S r)).
Proof.
  intros Hn Hge. destruct room as [|r]; [change (2 ^ _) with 128 in Hn; lia|]. exists r. split; [done|].
  replace (7 * Z.of_nat (S (S r))) with (7 + 7 * Z.of_nat (S r)) in Hn by lia. rewrite Z.pow_add_r in Hn by lia.
  change (2 ^ 7) with 128 in Hn. split; [apply Z.div_pos; lia|apply Z.div_lt_upper_bound; lia].
Qed.

Lemma varint_loop_ok room n : 0 ≤ n < 2 ^ (7 * Z.of_nat (S room)) → varint_loop (S room) n = Ok (varint (S room) n).
Proof.
  revert n. induction room as [room IH] using lt_wf_ind. intros n Hn. cbn [varint_loop varint]. rewrite continued by lia. destruct (Z.ltb_spec n 128).
  - unfold u8. by rewrite wrapu_small by lia.
  - destruct (seven_bits room n Hn) as (r & -> & Hr); [done|]. rewrite Z.shiftr_div_pow2 by lia. change (2 ^ 7) with 128.
    rewrite IH by (done || lia). cbn. by rewrite continuation by lia.
Qed.

Lemma lor_above a x k : 0 ≤ k → 0 ≤ a < 2 ^ k → Z.lor a (Z.shiftl x k) = a + x * 2 ^ k.
Proof.
  intros Hk Ha. rewrite <- Z.add_nocarry_lor; [by rewrite Z.shiftl_mul_pow2|].
  apply Z.bits_inj'. intros i Hi. rewrite Z.land_spec, Z.bits_0, Z.shiftl_spec by done.
  destruct (Z.ltb_spec i k); [rewrite (Z.testbit_neg_r x) by lia; apply andb_false_r|]. by rewrite (high_bit a k) by lia.
Qed.

(** One byte more of a number: [x] is what is left of it, [b] its next byte. *)
Lemma next_bits val x b shift : 0 ≤ shift → 0 ≤ val < 2 ^ shift → 0 ≤ x → val + x * 2 ^ shift < 2 ^ 64 → Z.land b 127 = x mod 128 →
  Z.lor val (u64 (Z.shiftl (Z.land b 127) shift)) = val + (x mod 128) * 2 ^ shift ∧
  0 ≤ val + (x mod 128) * 2 ^ shift < 2 ^ (shift + 7) ∧ val + x * 2 ^ shift = val + (x mod 128) * 2 ^ shift + (x / 128) * 2 ^ (shift + 7).
Proof.
  intros Hs Hv Hx Hmax Hb. rewrite Hb. pose proof (Z.mod_pos_bound x 128 ltac:(lia)) as Hm. pose proof (Z.div_mod x 128 ltac:(lia)) as Hd.
  pose proof (pow2_pos shift Hs). rewrite Z.pow_add_r by lia. change (2 ^ 7) with 128.
  assert (0 ≤ x / 128) by (apply Z.div_pos; lia).
  assert ((x mod 128) * 2 ^ shift ≤ x * 2 ^ shift) by (apply Z.mul_le_mono_nonneg_r; lia).
  assert (0 ≤ (x mod 128) * 2 ^ shift) by (apply Z.mul_nonneg_nonneg; lia).
  split; [|split; nia]. unfold u64. rewrite (wrapu_small 64) by (rewrite Z.shiftl_mul_pow2 by lia; lia). by apply lor_above.
Qed.

Lemma byte_low x : 0 ≤ x < 128 → Z.land x 127 = x mod 128 ∧ Z.land x 128 = 0.
Proof.
  intros Hx. pose proof (all_below (λ x, (Z.land x 127 =? x mod 128) && (Z.land x 128 =? 0)) 128 ltac:(vm_compute; reflexivity) x ltac:(lia)) as Hb.
  by apply andb_true_iff in Hb as [?%Z.eqb_eq ?%Z.eqb_eq].
Qed.
Lemma byte_high x : 0 ≤ x → Z.land (x mod 128 + 128) 127 = x mod 128 ∧ Z.land (x mod 128 + 128) 128 = 128.
Proof.
  intros Hx. pose proof (Z.mod_pos_bound x 128 ltac:(lia)) as Hm.
  pose proof (all_below (λ y, (Z.land (y + 128) 127 =? y) && (Z.land (y + 128) 128 =? 128)) 128 ltac:(vm_compute; reflexivity) (x mod 128) ltac:(lia)) as Hb.
  by apply andb_true_iff in Hb as [?%Z.eqb_eq ?%Z.eqb_eq].
Qed.
Lemma zlen_varint room n : 0 ≤ zlen (varint room n) ≤ Z.of_nat room.
Proof.
  split; [apply zlen_nonneg|]. revert n. induction room as [|room IH]; intros n; [done|]. cbn [varint].
  destruct (n <? 128); [change (zlen [n]) with 1; lia|]. rewrite zlen_cons. specialize (IH (n / 128)). lia.
Qed.

(** The loop over bytes that are there. *)
Lemma fast_loop_ok fuel room l n rsize val shift :
  0 ≤ n < 2 ^ (7 * Z.of_nat (S room)) → (S room ≤ fuel)%nat → rsize = 10 - Z.of_nat fuel → 0 ≤ shift → 0 ≤ val < 2 ^ shift → val + n * 2 ^ shift < 2 ^ 64 →
  (∀ i, 0 ≤ i < zlen (varint (S room) n) → zlookup l (rsize + i) = zlookup (varint (S room) n) i) →
  fast_loop fuel l rsize val shift = Ok (Some (val + n * 2 ^ shift, rsize + zlen (varint (S room) n))).
Proof.
  revert room n rsize val shift. induction fuel as [|fuel IH]; intros room n rsize val shift Hn Hroom Hsize Hs Hv Hmax Hl; [lia|].
  cbn [fast_loop]. cbn [varint] in Hl |- *. pose proof (zlen_varint room (n / 128)) as Hz. destruct (Z.ltb_spec n 128) as [Hlow|Hhigh].
  - destruct (byte_low n ltac:(lia)) as [B1 B2]. assert (zlookup l rsize = Some n) as Hb by (rewrite <- (Z.add_0_r rsize), Hl by (change (zlen [n]) with 1; lia); done).
    rewrite (vec_at_Ok _ _ _ Hb). cbn [mbind result_bind]. rewrite B2. cbn [Z.eqb].
    destruct (next_bits val n n shift Hs Hv ltac:(lia) Hmax B1) as (-> & _). by rewrite Z.mod_small by lia.
  - destruct (byte_high n ltac:(lia)) as [B1 B2].
    assert (zlookup l rsize = Some (n mod 128 + 128)) as Hb by (rewrite <- (Z.add_0_r rsize), Hl by (rewrite zlen_cons; lia); done).
    rewrite (vec_at_Ok _ _ _ Hb). cbn [mbind result_bind]. rewrite B2. cbn [Z.eqb].
    destruct (next_bits val n _ shift Hs Hv ltac:(lia) Hmax B1) as (-> & Hv' & Heq).
    destruct (seven_bits room n Hn Hhigh) as (r & -> & Hr). destruct (Z.eqb_spec (rsize + 1) 10); [lia|].
    rewrite (IH r (n / 128)); [|done|lia|lia|lia|done|lia|].
    + by rewrite Heq, zlen_cons, (Z.add_assoc rsize 1).
    + intros i Hi. replace (rsize + 1 + i) with (rsize + (i + 1)) by lia. rewrite Hl by (rewrite zlen_cons; lia).
      unfold zlookup. rewrite (proj2 (Z.leb_le 0 (i + 1))), (proj2 (Z.leb_le 0 i)) by lia. by rewrite Z.add_1_r, Z2Nat.inj_succ by lia.
Qed.

(** ** Programs that change the state of the protocol

    As [reads] and [writes], but the state is one before and another one after. *)
Section Steps.
Context {P S : Type} (inp out : P → bytes) (room : P → Z) (ok : P → Prop) (st : P → S).

Definition reads_to {A} (s : S) (m : M texn P A) (l : bytes) (a : A) (s' : S) : Prop := ∀ p rest,
  ok p → st p = s → inp p = l ++ rest → ∃ p', m p = Ret a p' ∧ ok p' ∧ st p' = s' ∧ inp p' = rest ∧ out p' = out p.
Definition writes_to {A} (s : S) (m : M texn P A) (l : bytes) (a : A) (s' : S) : Prop := ∀ p,
  ok p → st p = s → zlen l ≤ room p → ∃ p', m p = Ret a p' ∧ ok p' ∧ st p' = s' ∧ out p' = out p ++ l ∧ room p - zlen l ≤ room p'.

Lemma rt_ret {A} s (a : A) : reads_to s (mret a) [] a s.
Proof. intros p rest Hok Hs Hin. by exists p. Qed.
Lemma rt_bind {A B} s1 s2 s3 (m : M texn P A) (k : A → M texn P B) l1 l2 a b :
  reads_to s1 m l1 a s2 → reads_to s2 (k a) l2 b s3 → reads_to s1 (mbind k m) (l1 ++ l2) b s3.
Proof.
  intros Hm Hk p rest Hok Hs Hin. rewrite <- app_assoc in Hin.
  destruct (Hm p _ Hok Hs Hin) as (p1 & H1 & Hok1 & Hs1 & Hin1 & Hout1). destruct (Hk p1 rest Hok1 Hs1 Hin1) as (p2 & H2 & Hok2 & Hs2 & Hin2 & Hout2).
  exists p2. rewrite (M_bind_ret _ _ _ _ _ H1). split_and!; congruence.
Qed.
Lemma rt_bind_nil {A B} s1 s2 s3 (m : M texn P A) (k : A → M texn P B) l a b :
  reads_to s1 m [] a s2 → reads_to s2 (k a) l b s3 → reads_to s1 (mbind k m) l b s3.
Proof. apply rt_bind. Qed.
Lemma rt_bind_last {A B} s1 s2 s3 (m : M texn P A) (k : A → M texn P B) l a b :
  reads_to s1 m l a s2 → reads_to s2 (k a) [] b s3 → reads_to s1 (mbind k m) l b s3.
Proof. intros Hm Hk. rewrite <- (app_nil_r l). by eapply rt_bind. Qed.
Lemma rt_eq {A} s s' (m : M texn P A) l l' a a' : reads_to s m l a s' → l = l' → a = a' → reads_to s m l' a' s'.
Proof. by intros ? -> ->. Qed.
Lemma rt_times {A B} s (m : M texn P B) (e : A → bytes) (g : A → B) l :
  Forall (λ x, reads_to s m (e x) (g x) s) l → reads_to s (read_times (length l) m) (flat_map e l) (map g l) s.
Proof.
  induction 1 as [|x l Hx Hl IH]; simpl; [apply rt_ret|]. eapply rt_bind; [exact Hx|]. eapply rt_bind_last; [exact IH|apply rt_ret].
Qed.

Lemma wt_ret {A} s (a : A) : writes_to s (mret a) [] a s.
Proof. intros p Hok Hs _. exists p. rewrite app_nil_r, zlen_nil. split_and!; [done..|lia]. Qed.
Lemma wt_bind {A B} s1 s2 s3 (m : M texn P A) (k : A → M texn P B) l1 l2 a b :
  writes_to s1 m l1 a s2 → writes_to s2 (k a) l2 b s3 → writes_to s1 (mbind k m) (l1 ++ l2) b s3.
Proof.
  intros Hm Hk p Hok Hs Hroom. rewrite zlen_app in *. pose proof (zlen_nonneg l1). pose proof (zlen_nonneg l2).
  destruct (Hm p Hok Hs) as (p1 & H1 & Hok1 & Hs1 & Hout1 & Hr1); [lia|]. destruct (Hk p1 Hok1 Hs1) as (p2 & H2 & Hok2 & Hs2 & Hout2 & Hr2); [lia|].
  exists p2. rewrite (M_bind_ret _ _ _ _ _ H1), app_assoc. split_and!; try congruence. lia.
Qed.
Lemma wt_bind_nil {A B} s1 s2 s3 (m : M texn P A) (k : A → M texn P B) l a b :
  writes_to s1 m [] a s2 → writes_to s2 (k a) l b s3 → writes_to s1 (mbind k m) l b s3.
Proof. apply wt_bind. Qed.
Lemma wt_bind_last {A B} s1 s2 s3 (m : M texn P A) (k : A → M texn P B) l a b :
  writes_to s1 m l a s2 → writes_to s2 (k a) [] b s3 → writes_to s1 (mbind k m) l b s3.
Proof. intros Hm Hk. rewrite <- (app_nil_r l). by eapply wt_bind. Qed.
Lemma wt_eq {A} s s' (m : M texn P A) l l' a a' : writes_to s m l a s' → l = l' → a = a' → writes_to s m l' a' s'.
Proof. by intros ? -> ->. Qed.
Lemma wt_seq {A} s (f : A → M texn P Z) (e : A → bytes) l :
  Forall (λ x, writes_to s (f x) (e x) (u32 (zlen (e x))) s) l → writes_to s (write_seq f l) (flat_map e l) (u32 (zlen (flat_map e l))) s.
Proof.
  induction 1 as [|x l Hx Hl IH]; simpl; [apply wt_ret|]. eapply wt_bind; [exact Hx|]. eapply wt_bind_last; [exact IH|].
  eapply wt_eq; [apply wt_ret|done|]. by rewrite u32_add_l, u32_add_r, zlen_app.
Qed.
Lemma rt_skips {A} s (m : M texn P Z) (e : A → bytes) l r :
  0 ≤ r < 2 ^ 32 → Forall (λ x, reads_to s m (e x) (u32 (zlen (e x))) s) l →
  reads_to s (skip_times (length l) m r) (flat_map e l) (u32 (r + zlen (flat_map e l))) s.
Proof.
  intros Hr Hl. revert r Hr. induction Hl as [|x l Hx Hl IH]; intros r Hr; simpl.
  - eapply rt_eq; [apply rt_ret|done|]. rewrite zlen_nil, Z.add_0_r. symmetry. by apply wrapu_small.
  - eapply rt_bind; [exact Hx|]. eapply rt_eq; [apply IH; by apply (wrapu_range 32)|done|]. rewrite zlen_app. u32_solve.
Qed.
End Steps.

(** ** The wire format *)

(** The type on the wire of a type that values have. *)
Definition ctype (t : Z) : Z := match getCompactType (i8 t) with Ok c => c | Fail _ => 0 end.
Definition value_types : list Z := [T_BOOL; T_BYTE; T_I16; T_I32; T_I64; T_DOUBLE; T_STRING; T_STRUCT; T_MAP; T_SET; T_LIST].
Definition value_type (t : Z) : bool := existsb (Z.eqb t) value_types.

Lemma value_type_facts t : value_type t = true →
  getCompactType (i8 t) = Ok (ctype t) ∧ 1 ≤ ctype t ≤ 12 ∧ getTType (ctype t) = Some t ∧ (t ≠ T_BOOL → ctype t ≠ 1 ∧ ctype t ≠ 2) ∧ t ≠ T_STOP.
Proof.
  unfold value_type, value_types. cbn [existsb]. rewrite !orb_true_iff, !Z.eqb_eq.
  intros Ht. repeat destruct Ht as [->|Ht]; try done; vm_compute; repeat split; congruence.
Qed.
Lemma type_of_value v : value_type (type_of v) = true.
Proof. by destruct v. Qed.

Definition field_header (last id t : Z) : bytes :=
  if (last <? id) && (id - last <=? 15) then [(id - last) * 16 + t] else t :: varint 5 (zigzag 32 id).
(** A boolean is in the header of its field. *)
Definition field_type (v : tval) : Z := match v with VBool b => if b then CT_BOOLEAN_TRUE else CT_BOOLEAN_FALSE | _ => ctype (type_of v) end.
Definition collection_header (et n : Z) : bytes := if n <=? 14 then [n * 16 + ctype et] else (240 + ctype et) :: varint 5 n.
Definition map_header (kt vt n : Z) : bytes := if n =? 0 then [0] else varint 5 n ++ [ctype kt * 16 + ctype vt].
Definition cenc_string (str : bytes) : bytes := varint 5 (zlen str) ++ str.

Section Fields.
Context (e : tval → bytes).
Fixpoint cenc_fields (last : Z) (fs : list (Z * tval)) : bytes :=
  match fs with
  | [] => []
  | (id, x) :: fs' => field_header last id (field_type x) ++ match x with VBool _ => [] | _ => e x end ++ cenc_fields id fs'
  end.
End Fields.

Fixpoint cenc (v : tval) : bytes :=
  match v with
  | VBool b => [if b then CT_BOOLEAN_TRUE else CT_BOOLEAN_FALSE]
  | VByte z => to_be 1 z
  | VI16 z | VI32 z => varint 5 (zigzag 32 z)
  | VI64 z => varint 10 (zigzag 64 z)
  | VDouble z => rev (to_be 8 z)
  | VString str => cenc_string str
  | VStruct fs => cenc_fields cenc 0 fs ++ [T_STOP]
  | VMap kt vt l => map_header kt vt (zlen l) ++ flat_map (λ p, cenc p.1 ++ cenc p.2) l
  | VSet et l | VList et l => collection_header et (zlen l) ++ flat_map cenc l
  end.

(** The types of a map without entries are not on the wire. *)
Fixpoint norm (v : tval) : tval :=
  match v with
  | VStruct fs => VStruct (map (λ f, (f.1, norm f.2)) fs)
  | VMap kt vt l => match l with [] => VMap T_STOP T_STOP [] | _ => VMap kt vt (map (λ p, (norm p.1, norm p.2)) l) end
  | VSet et l => VSet et (map norm l)
  | VList et l => VList et (map norm l)
  | _ => v
  end.
Lemma type_of_norm v : type_of (norm v) = type_of v.
Proof. destruct v as [| | | | | | | |kt vt [|]| |]; done. Qed.

(** ** Reading and writing over a transport *)
Section Protocol.
Context {T : Type} `{Transport T} `{MallocLaws} (cfg : CompactConfig)
  (tinp tout : T → bytes) (troom : T → Z) (tok : T → Prop) `{!ReadLaws T tinp tout tok} `{!WriteLaws T tout troom tok}.
#[local] Instance the_compact : Protocol (TCompactProtocol T) := compact_protocol cfg.

Abbreviation CP := (TCompactProtocol T).
Definition c_inp (p : CP) : bytes := tinp (c_trans p).
Definition c_out (p : CP) : bytes := tout (c_trans p).
Definition c_room (p : CP) : Z := troom (c_trans p).
Definition c_ok (p : CP) : Prop := tok (c_trans p).
(** The boolean field that is waiting for its value, the value that is waiting for
    [readBool], and the numbers of the fields. *)
Definition c_state (p : CP) : option (Z * Z) * option bool * list Z * Z := (booleanField_ p, boolValue_ p, lastField_ p, lastFieldId_ p).
Abbreviation creads := (reads_to c_inp c_out c_ok c_state).
Abbreviation cwrites := (writes_to c_out c_room c_ok c_state).

Lemma readAll_creads s l : creads s (trans (t_readAll (zlen l))) l l s.
Proof.
  intros p rest Hok Hs Hin. unfold c_inp, c_ok, c_out in *.
  destruct (law_readAll (c_trans p) (zlen l) Hok) as (t' & Hr & Hok' & Hin' & Hout').
  { rewrite Hin, zlen_app. pose proof (zlen_nonneg l). pose proof (zlen_nonneg rest). lia. }
  rewrite Hin, ztake_app in Hr by done. rewrite Hin, zdrop_app in Hin' by done.
  eexists. unfold trans. rewrite Hr. by split_and!.
Qed.
Lemma write_cwrites {A} s l (r : A) : cwrites s (trans (t_write l) ;; mret r) l r s.
Proof.
  eapply wt_bind_last; [|apply wt_ret]. intros p Hok Hs Hroom. unfold c_out, c_ok, c_room in *.
  destruct (law_write (c_trans p) l Hok Hroom) as (t' & Hw & Hok' & Hout' & Hr').
  eexists. unfold trans. rewrite Hw. by split_and!.
Qed.

(** *** Numbers *)

Lemma read_byte_creads s b : 0 ≤ b < 256 → creads s read_byte [b] (i8 b, 1) s.
Proof.
  intros Hb. eapply rt_bind_last; [apply (readAll_creads s [b])|]. apply rt_ret.
Qed.
Lemma to_be_1 z : to_be 1 z = [z mod 256].
Proof. cbn. by rewrite Z.div_1_r. Qed.
Lemma write_byte_cwrites s z : cwrites s (write_byte z) [z mod 256] 1 s.
Proof. rewrite <- to_be_1. apply write_cwrites. Qed.

Lemma slow_loop_creads s fuel room n rsize val shift :
  0 ≤ n < 2 ^ (7 * Z.of_nat (S room)) → (S room ≤ fuel)%nat → rsize = 10 - Z.of_nat fuel → 0 ≤ shift → 0 ≤ val < 2 ^ shift → val + n * 2 ^ shift < 2 ^ 64 →
  creads s (slow_loop fuel rsize val shift) (varint (S room) n) (i64 (val + n * 2 ^ shift), rsize + zlen (varint (S room) n)) s.
Proof.
  revert room n rsize val shift. induction fuel as [|fuel IH]; intros room n rsize val shift Hn Hroom Hsize Hs Hv Hmax; [lia|].
  cbn [slow_loop varint]. destruct (Z.ltb_spec n 128) as [Hlow|Hhigh].
  - destruct (byte_low n ltac:(lia)) as [B1 B2]. eapply rt_bind_last; [apply (readAll_creads s [n])|]. cbv zeta. change (of_be [n]) with n.
    rewrite B2. cbn [Z.eqb]. destruct (next_bits val n n shift Hs Hv ltac:(lia) Hmax B1) as (-> & _). rewrite Z.mod_small by lia. apply rt_ret.
  - destruct (byte_high n ltac:(lia)) as [B1 B2]. change ((n mod 128 + 128) :: varint room (n / 128)) with ([n mod 128 + 128] ++ varint room (n / 128)).
    eapply rt_bind; [apply (readAll_creads s [n mod 128 + 128])|]. cbv zeta. change (of_be [n mod 128 + 128]) with (n mod 128 + 128).
    rewrite B2. cbn [Z.eqb]. destruct (next_bits val n _ shift Hs Hv ltac:(lia) Hmax B1) as (-> & Hv' & Heq).
    destruct (seven_bits room n Hn Hhigh) as (r & -> & Hr). destruct (Z.leb_spec 10 (rsize + 1)); [lia|].
    eapply rt_eq; [apply (IH r (n / 128)); [done|lia|lia|lia|done|lia]|done|]. change ([n mod 128 + 128] ++ ?l) with ((n mod 128 + 128) :: l).
    by rewrite Heq, zlen_cons, (Z.add_assoc rsize 1).
Qed.

Lemma zlookup_prefix (l1 l2 : bytes) i : 0 ≤ i < zlen l1 → zlookup (l1 ++ l2) i = zlookup l1 i.
Proof. intros Hi. unfold zlookup, zlen in *. rewrite (proj2 (Z.leb_le 0 i)) by lia. apply lookup_app_l. lia. Qed.
Lemma zlookup_ztake n (l : bytes) i : 0 ≤ i < n → zlookup (ztake n l) i = zlookup l i.
Proof. intros Hi. unfold zlookup, ztake. rewrite (proj2 (Z.leb_le 0 i)) by lia. apply lookup_take_lt. lia. Qed.

Lemma readVarint64_creads s room n : (room < 10)%nat → 0 ≤ n < 2 ^ (7 * Z.of_nat (S room)) → n < 2 ^ 64 →
  creads s readVarint64 (varint (S room) n) (i64 n, zlen (varint (S room) n)) s.
Proof.
  intros Hroom Hn Hmax p rest Hok Hs Hin. unfold readVarint64. pose proof (zlen_varint (S room) n) as Hlen.
  destruct (law_borrow (c_trans p) 10 Hok) as (t1 & o & Hb & Hok1 & Hin1 & Hout1 & Ho); [lia|].
  erewrite (M_bind_ret (trans (t_borrow 10))) by (unfold trans; rewrite Hb; done). destruct o as [l|].
  - destruct Ho as (H10 & Htake & Hconsume). unfold c_inp in Hin.
    rewrite (fast_loop_ok 10 room l n 0 0 0); [|done|lia|done|lia|done|rewrite Z.mul_1_r; lia|].
    2: { intros i Hi. rewrite Z.add_0_l, <- (zlookup_ztake 10 l), Htake, zlookup_ztake, Hin by lia. by apply zlookup_prefix. }
    erewrite M_bind_ret by reflexivity. cbv beta iota. rewrite !Z.add_0_l, Z.mul_1_r.
    destruct (Hconsume (zlen (varint (S room) n))) as (t2 & Hc & Hok2 & Hin2 & Hout2); [lia|].
    erewrite M_bind_ret by (unfold trans; cbn [c_trans with_trans]; rewrite Hc; reflexivity). eexists. split; [reflexivity|].
    unfold c_ok, c_inp, c_out. cbn [c_trans with_trans]. rewrite Hin2, Hin, zdrop_app by done. split_and!; try done; congruence.
  - destruct (slow_loop_creads s 10 room n 0 0 0 Hn ltac:(lia) eq_refl ltac:(lia) ltac:(done) ltac:(rewrite Z.mul_1_r; lia) (with_trans t1 p) rest)
      as (p' & Hr & Hok' & Hs' & Hin' & Hout'); [done|by destruct p|unfold c_inp in *; cbn [c_trans with_trans]; congruence|].
    rewrite !Z.add_0_l, Z.mul_1_r in Hr. exists p'. split; [exact Hr|]. unfold c_out in *. cbn in Hout'. split_and!; try done. congruence.
Qed.

Lemma varint5 n : 0 ≤ n < 2 ^ 32 → 0 ≤ n < 2 ^ (7 * Z.of_nat 5).
Proof. change (2 ^ (7 * Z.of_nat 5)) with (2 ^ 35). lia. Qed.
Lemma varint10 n : 0 ≤ n < 2 ^ 64 → 0 ≤ n < 2 ^ (7 * Z.of_nat 10).
Proof. change (2 ^ (7 * Z.of_nat 10)) with (2 ^ 70). lia. Qed.

Lemma small_u32 n : 0 ≤ n < 2 ^ 32 → u32 n = n.
Proof. apply (wrapu_small 32). Qed.
Lemma small_i64 n : - 2 ^ 63 ≤ n < 2 ^ 63 → i64 n = n.
Proof. by apply (wraps_small 64). Qed.
Lemma small_i32 n : - 2 ^ 31 ≤ n < 2 ^ 31 → i32 n = n.
Proof. by apply (wraps_small 32). Qed.
Lemma small_i16 n : - 2 ^ 15 ≤ n < 2 ^ 15 → i16 n = n.
Proof. by apply (wraps_small 16). Qed.
Lemma in_signed32 z : in_signed 32 z = true → - 2 ^ 31 ≤ z < 2 ^ 31.
Proof. apply in_signed_iff. Qed.

Lemma readVarint32_creads s n : 0 ≤ n < 2 ^ 32 → creads s readVarint32 (varint 5 n) (i32 n, zlen (varint 5 n)) s.
Proof.
  intros Hn. eapply rt_bind_last; [apply readVarint64_creads; [lia|by apply varint5|lia]|]. cbv beta iota.
  eapply rt_eq; [apply rt_ret|done|]. by rewrite small_i64 by lia.
Qed.
Lemma write_varint32_cwrites s n : 0 ≤ n < 2 ^ 32 → cwrites s (write_varint32 n) (varint 5 n) (zlen (varint 5 n)) s.
Proof.
  intros Hn. unfold write_varint32. rewrite varint_loop_ok by (by apply varint5). eapply wt_bind_nil; [apply wt_ret|]. apply write_cwrites.
Qed.

Lemma read_size_creads s n : 0 ≤ n < 2 ^ 31 → creads s readVarint32 (varint 5 n) (n, zlen (varint 5 n)) s.
Proof. intros Hn. eapply rt_eq; [apply (readVarint32_creads s n); lia|done|]. by rewrite small_i32 by lia. Qed.

Lemma read_i8_creads s z : in_signed 8 z = true → creads s read_byte (to_be 1 z) (z, 1) s.
Proof.
  intros Hz%in_signed_iff. rewrite to_be_1. eapply rt_eq; [apply read_byte_creads; by apply Z.mod_pos_bound|done|].
  f_equal. unfold i8. rewrite (wraps_congr 8 _ z); [by apply wraps_small|done|]. by rewrite Z.mod_mod.
Qed.
Lemma read_double_creads s z : 0 ≤ z < 2 ^ 64 → creads s read_double (rev (to_be 8 z)) (z, 8) s.
Proof.
  intros Hz. eapply rt_bind_last; [apply (readAll_creads _ (rev (to_be 8 z)))|]. eapply rt_eq; [apply rt_ret|done|].
  rewrite rev_involutive, of_be_to_be. change (256 ^ Z.of_nat 8) with (2 ^ 64). by rewrite Z.mod_small.
Qed.
Lemma read_i32_creads s z : in_signed 32 z = true → creads s read_i32 (varint 5 (zigzag 32 z)) (z, zlen (varint 5 (zigzag 32 z))) s.
Proof.
  intros Hz%in_signed_iff. pose proof (zigzag_range 32 z ltac:(lia)) as Hr. eapply rt_bind_last; [by apply readVarint32_creads|]. cbv beta iota.
  eapply rt_eq; [apply rt_ret|done|]. unfold u32, i32. rewrite wrapu_wraps, wrapu_small by lia.
  change (zigzagToI32 ?m) with (unzigzag 32 m). by rewrite unzigzag_zigzag by lia.
Qed.
Lemma signed16 z : in_signed 16 z = true → in_signed 32 z = true ∧ i16 z = z.
Proof. intros Hz%in_signed_iff. change (2 ^ (16 - 1)) with (2 ^ 15) in Hz. split; [apply in_signed_iff; change (2 ^ (32 - 1)) with (2 ^ 31); lia|]. by apply small_i16. Qed.
Lemma read_i16_creads s z : in_signed 16 z = true → creads s read_i16 (varint 5 (zigzag 32 z)) (z, zlen (varint 5 (zigzag 32 z))) s.
Proof.
  intros [Hz Hs]%signed16. pose proof (zigzag_range 32 z ltac:(lia)) as Hr. apply in_signed_iff in Hz. eapply rt_bind_last; [by apply readVarint32_creads|]. cbv beta iota.
  eapply rt_eq; [apply rt_ret|done|]. unfold u32, i32. rewrite wrapu_wraps, wrapu_small by lia.
  change (zigzagToI32 ?m) with (unzigzag 32 m). by rewrite unzigzag_zigzag, Hs by lia.
Qed.
Lemma read_i64_creads s z : in_signed 64 z = true → creads s read_i64 (varint 10 (zigzag 64 z)) (z, zlen (varint 10 (zigzag 64 z))) s.
Proof.
  intros Hz%in_signed_iff. pose proof (zigzag_range 64 z ltac:(lia)) as Hr. eapply rt_bind_last; [apply readVarint64_creads; [lia|by apply varint10|lia]|]. cbv beta iota.
  eapply rt_eq; [apply rt_ret|done|]. unfold u64, i64. rewrite wrapu_wraps, wrapu_small by lia.
  change (zigzagToI64 ?m) with (unzigzag 64 m). by rewrite unzigzag_zigzag by lia.
Qed.
Lemma write_i32_cwrites s z : cwrites s (write_i32 z) (varint 5 (zigzag 32 z)) (zlen (varint 5 (zigzag 32 z))) s.
Proof. apply write_varint32_cwrites, zigzag_range. lia. Qed.
Lemma write_i64_cwrites s z : cwrites s (write_i64 z) (varint 10 (zigzag 64 z)) (zlen (varint 10 (zigzag 64 z))) s.
Proof.
  unfold write_i64, write_varint64. change (i64ToZigzag z) with (zigzag 64 z). rewrite varint_loop_ok by (apply varint10, zigzag_range; lia).
  eapply wt_bind_nil; [apply wt_ret|]. apply write_cwrites.
Qed.

(** *** Strings and headers *)

Abbreviation limits := (mkBinaryConfig (c_string_limit_ cfg) (c_container_limit_ cfg) false false).

Lemma string_limits n : 0 ≤ n → string_ok limits n = true → n < 2 ^ 31 ∧ (0 <? c_string_limit_ cfg) && (c_string_limit_ cfg <? n) = false.
Proof. unfold string_ok. intros Hn [Hl%Z.ltb_lt Hlim%negb_true_iff]%andb_true_iff. done. Qed.

Lemma reserve_creads s n : 0 < n < 2 ^ 31 → creads s (reserve n) [] tt s.
Proof.
  intros Hn p rest Hok Hs Hin. unfold reserve. rewrite malloc_law by lia. destruct (_ || _); (eexists; split; [reflexivity|]); by destruct p.
Qed.

Lemma read_binary_creads s str : string_ok limits (zlen str) = true →
  creads s (read_binary cfg) (cenc_string str) (str, u32 (zlen (cenc_string str))) s.
Proof.
  intros Hs. pose proof (zlen_nonneg str). destruct (string_limits (zlen str) ltac:(lia) Hs) as [Hlt Hlim]. unfold read_binary, cenc_string.
  pose proof (zlen_varint 5 (zlen str)) as Hv. eapply rt_bind; [by apply read_size_creads|]. cbv beta iota.
  destruct (Z.eqb_spec (zlen str) 0) as [Hz|Hz].
  - apply zlen_zero_nil in Hz as ->. eapply rt_eq; [apply rt_ret|done|done].
  - destruct (Z.ltb_spec (zlen str) 0); [lia|]. rewrite Hlim. eapply rt_bind_nil; [apply reserve_creads; lia|].
    eapply rt_bind_last; [apply readAll_creads|]. eapply rt_eq; [apply rt_ret|done|]. by rewrite zlen_app.
Qed.
Lemma write_binary_cwrites s str : zlen str < 2 ^ 31 → cwrites s (write_binary str) (cenc_string str) (u32 (zlen (cenc_string str))) s.
Proof.
  intros Hs. pose proof (zlen_nonneg str). unfold write_binary, cenc_string. cbv zeta.
  assert (u32 (zlen str) = zlen str) as Hu by (apply (wrapu_small 32); lia). rewrite !Hu.
  eapply wt_bind; [apply write_varint32_cwrites; lia|]. unfold ztake at 1. rewrite take_ge by (unfold zlen; lia).
  eapply wt_eq; [apply write_cwrites|done|]. by rewrite zlen_app.
Qed.

(** A byte with two parts. *)
Lemma two_parts d t : 0 ≤ d < 16 → 0 ≤ t < 16 →
  i8 (Z.lor (Z.shiftl d 4) t) mod 256 = d * 16 + t ∧ 0 ≤ d * 16 + t < 256 ∧
  i8 (Z.land (i8 (d * 16 + t)) 15) = t ∧ Z.shiftr (Z.land (u8 (i8 (d * 16 + t))) 240) 4 = d ∧
  i8 (Z.shiftr (u8 (i8 (d * 16 + t))) 4) = d ∧ i8 (Z.land (u8 (i8 (d * 16 + t))) 15) = t ∧ Z.land (Z.shiftr (u8 (i8 (d * 16 + t))) 4) 15 = d.
Proof.
  intros Hd Ht.
  pose proof (all_below (λ b, let d := b / 16 in let t := b mod 16 in
    (i8 (Z.lor (Z.shiftl d 4) t) mod 256 =? b) && (i8 (Z.land (i8 b) 15) =? t) && (Z.shiftr (Z.land (u8 (i8 b)) 240) 4 =? d) &&
    (i8 (Z.shiftr (u8 (i8 b)) 4) =? d) && (i8 (Z.land (u8 (i8 b)) 15) =? t) && (Z.land (Z.shiftr (u8 (i8 b)) 4) 15 =? d))
    256 ltac:(vm_compute; reflexivity) (d * 16 + t) ltac:(lia)) as Hb.
  cbv beta zeta in Hb. assert ((d * 16 + t) / 16 = d ∧ (d * 16 + t) mod 16 = t) as [E1 E2].
  { rewrite Z.add_comm, Z.div_add, Z.mod_add, Z.div_small, Z.mod_small by lia. lia. }
  rewrite E1, E2 in Hb. rewrite !andb_true_iff, !Z.eqb_eq in Hb. destruct Hb as [[[[[H1' H2'] H3'] H4'] H5'] H6']. by split_and!; try lia.
Qed.

Lemma the_type_creads s t ty : getTType t = Some ty → creads s (the_type t) [] ty s.
Proof. intros Ht. unfold the_type. rewrite Ht. apply rt_ret. Qed.

(** Sizes that the reader accepts. *)
Lemma check_size_creads s n : 0 ≤ n → container_ok limits n = true → creads s (check_size cfg n) [] tt s.
Proof.
  intros Hn [_ Hlim%negb_true_iff]%andb_true_iff. unfold check_size. destruct (Z.ltb_spec n 0); [lia|]. cbn in Hlim. rewrite Hlim. apply rt_ret.
Qed.
Lemma container_limit n : container_ok limits n = true → n < 2 ^ 31.
Proof. by intros [Hl%Z.ltb_lt _]%andb_true_iff. Qed.

Lemma read_list_begin_creads s et n : value_type et = true → 0 ≤ n → container_ok limits n = true →
  creads s (read_list_begin cfg) (collection_header et n) (et, n, u32 (zlen (collection_header et n))) s.
Proof.
  intros Het Hn Hc. destruct (value_type_facts et Het) as (_ & Hrange & Hty & _). pose proof (container_limit n Hc) as Hlt.
  unfold read_list_begin, collection_header. destruct (Z.leb_spec n 14).
  - destruct (two_parts n (ctype et) ltac:(lia) ltac:(lia)) as (_ & Hb & H1' & _ & _ & _ & H2').
    eapply rt_bind_last; [by apply read_byte_creads|]. cbv beta iota zeta. rewrite H1', H2'.
    destruct (Z.eqb_spec n 15); [lia|]. eapply rt_bind_nil; [apply rt_ret|]. cbv beta iota. eapply rt_bind_nil; [by apply check_size_creads|].
    eapply rt_bind_nil; [by apply the_type_creads|]. eapply rt_eq; [apply rt_ret|done|]. by rewrite (small_u32 n) by lia.
  - destruct (two_parts 15 (ctype et) ltac:(lia) ltac:(lia)) as (_ & Hb & H1' & _ & _ & _ & H2'). change (15 * 16) with 240 in *.
    change ((240 + ctype et) :: varint 5 n) with ([240 + ctype et] ++ varint 5 n).
    eapply rt_bind; [by apply read_byte_creads|]. cbv beta iota zeta. rewrite H1', H2'. cbn [Z.eqb Pos.eqb].
    eapply rt_bind_last; [apply read_size_creads; lia|]. cbv beta iota. eapply rt_bind_nil; [by apply check_size_creads|].
    eapply rt_bind_nil; [by apply the_type_creads|]. eapply rt_eq; [apply rt_ret|done|]. rewrite (small_u32 n) by lia.
    by rewrite zlen_app.
Qed.

Lemma write_list_begin_cwrites s et n : value_type et = true → 0 ≤ n → container_ok limits n = true →
  cwrites s (write_list_begin et n) (collection_header et n) (u32 (zlen (collection_header et n))) s.
Proof.
  intros Het Hn Hc. destruct (value_type_facts et Het) as (Hct & Hrange & _). pose proof (container_limit n Hc) as Hlt.
  assert (i8 (i8 et) = i8 et) as Hi8 by (apply wraps_small; [done|apply wraps_range; done]).
  unfold write_list_begin, writeCollectionBegin, collection_header. rewrite (small_i32 n) by lia. rewrite Hct.
  destruct (Z.leb_spec n 14).
  - destruct (two_parts n (ctype et) ltac:(lia) ltac:(lia)) as (Hb & _). eapply wt_bind_nil; [apply wt_ret|].
    eapply wt_eq; [apply write_byte_cwrites|by rewrite Hb|done].
  - destruct (two_parts 15 (ctype et) ltac:(lia) ltac:(lia)) as (Hb & _). change (Z.shiftl 15 4) with 240 in Hb. change (15 * 16) with 240 in Hb.
    eapply wt_bind_nil; [apply wt_ret|]. change ((240 + ctype et) :: varint 5 n) with ([240 + ctype et] ++ varint 5 n).
    eapply wt_bind; [eapply wt_eq; [apply write_byte_cwrites|by rewrite Hb|done]|]. rewrite (small_u32 n) by lia.
    eapply wt_bind_last; [apply write_varint32_cwrites; lia|]. eapply wt_eq; [apply wt_ret|done|]. by rewrite zlen_app.
Qed.

Lemma read_map_begin_creads s kt vt n : value_type kt = true → value_type vt = true → 0 ≤ n → container_ok limits n = true →
  creads s (read_map_begin cfg) (map_header kt vt n)
    (if n =? 0 then T_STOP else kt, if n =? 0 then T_STOP else vt, n, u32 (zlen (map_header kt vt n))) s.
Proof.
  intros Hkt Hvt Hn Hc. destruct (value_type_facts kt Hkt) as (_ & Hk & Htk & _). destruct (value_type_facts vt Hvt) as (_ & Hv & Htv & _).
  pose proof (container_limit n Hc) as Hlt. unfold read_map_begin, map_header. destruct (Z.eqb_spec n 0) as [->|Hne].
  - eapply rt_bind_last; [apply (read_size_creads s 0); lia|]. cbv beta iota. cbn [negb Z.eqb].
    eapply rt_bind_nil; [apply rt_ret|]. cbv beta iota. eapply rt_bind_nil; [by apply check_size_creads|].
    eapply rt_bind_nil; [by apply the_type_creads|]. eapply rt_bind_nil; [by apply the_type_creads|]. apply rt_ret.
  - destruct (two_parts (ctype kt) (ctype vt) ltac:(lia) ltac:(lia)) as (_ & Hb & _ & _ & H1' & H2' & _).
    eapply rt_bind; [apply read_size_creads; lia|]. cbv beta iota. destruct (Z.eqb_spec n 0); [done|]. cbn [negb].
    eapply rt_bind_last; [by apply read_byte_creads|]. cbv beta iota. eapply rt_bind_nil; [by apply check_size_creads|]. rewrite H1', H2'.
    eapply rt_bind_nil; [by apply the_type_creads|]. eapply rt_bind_nil; [by apply the_type_creads|].
    eapply rt_eq; [apply rt_ret|done|]. rewrite (small_u32 n) by lia. by rewrite zlen_app.
Qed.

Lemma write_map_begin_cwrites s kt vt n : value_type kt = true → value_type vt = true → 0 ≤ n → container_ok limits n = true →
  cwrites s (write_map_begin kt vt n) (map_header kt vt n) (u32 (zlen (map_header kt vt n))) s.
Proof.
  intros Hkt Hvt Hn Hc. destruct (value_type_facts kt Hkt) as (Hck & Hk & _). destruct (value_type_facts vt Hvt) as (Hcv & Hv & _).
  pose proof (container_limit n Hc) as Hlt. unfold write_map_begin, map_header. destruct (Z.eqb_spec n 0) as [->|Hne].
  - apply (write_byte_cwrites s 0).
  - rewrite Hck, Hcv. eapply wt_bind; [apply write_varint32_cwrites; lia|]. eapply wt_bind_nil; [apply wt_ret|]. eapply wt_bind_nil; [apply wt_ret|].
    destruct (two_parts (ctype kt) (ctype vt) ltac:(lia) ltac:(lia)) as (Hb & _).
    eapply wt_bind_last; [eapply wt_eq; [apply write_byte_cwrites|by rewrite Hb|done]|]. eapply wt_eq; [apply wt_ret|done|]. by rewrite zlen_app.
Qed.

(** *** Fields *)

Abbreviation state bf bv st last := (bf : option (Z * Z), bv : option bool, st : list Z, last : Z).

(** A program that only changes the state. *)
Definition silent {A} (s : option (Z * Z) * option bool * list Z * Z) (m : M texn CP A) (a : A) (s' : option (Z * Z) * option bool * list Z * Z) : Prop :=
  ∀ p, c_state p = s → ∃ p', m p = Ret a p' ∧ c_trans p' = c_trans p ∧ c_state p' = s'.
Lemma silent_creads {A} s (m : M texn CP A) a s' : silent s m a s' → creads s m [] a s'.
Proof. intros Hm p rest Hok Hs Hin. destruct (Hm p Hs) as (p' & Hr & Ht & Hs'). exists p'. unfold c_ok, c_inp, c_out in *. by rewrite Ht. Qed.
Lemma silent_cwrites {A} s (m : M texn CP A) a s' : silent s m a s' → cwrites s m [] a s'.
Proof.
  intros Hm p Hok Hs Hroom. destruct (Hm p Hs) as (p' & Hr & Ht & Hs'). exists p'. unfold c_ok, c_room, c_out in *.
  rewrite Ht, app_nil_r, zlen_nil. split_and!; done || lia.
Qed.
Ltac silent := let p := fresh in intros p; destruct p; unfold c_state; cbn; intros [= -> -> -> ->]; eexists; split; [reflexivity|done].

Lemma set_field_silent bf bv st last id : silent (state bf bv st last) (set_lastFieldId id) tt (state bf bv st id).
Proof. silent. Qed.
Lemma get_last_silent bf bv st last : silent (state bf bv st last) (gets lastFieldId_) last (state bf bv st last).
Proof. silent. Qed.
Lemma set_value_silent bf bv st last v : silent (state bf bv st last) (set_boolValue v) tt (state bf v st last).
Proof. silent. Qed.
Lemma get_value_silent bf bv st last : silent (state bf bv st last) (gets boolValue_) bv (state bf bv st last).
Proof. silent. Qed.
Lemma set_pending_silent bf bv st last v : silent (state bf bv st last) (set_booleanField v) tt (state v bv st last).
Proof. silent. Qed.
Lemma get_pending_silent bf bv st last : silent (state bf bv st last) (gets booleanField_) bf (state bf bv st last).
Proof. silent. Qed.
(** Structs keep the number of the last field of the struct around them. *)
Lemma push_silent bf bv st last : silent (state bf bv st last) (push_field ;; mret 0) 0 (state bf bv (last :: st) 0).
Proof. silent. Qed.
Lemma pop_silent bf bv st last top : silent (state bf bv (top :: st) last) (pop_field ;; mret 0) 0 (state bf bv st top).
Proof. silent. Qed.

(** A header: the type [t] is 1 to 12. *)
Lemma header_cwrites bf bv st last id ty t over : 1 ≤ t ≤ 12 → (if over =? -1 then getCompactType (i8 ty) = Ok t else over = t) →
  cwrites (state bf bv st last) (writeFieldBeginInternal ty id over) (field_header last id t) (u32 (zlen (field_header last id t))) (state bf bv st id).
Proof.
  intros Ht Hty. unfold writeFieldBeginInternal, field_header.
  eapply wt_bind_nil; [|eapply wt_bind_nil; [apply silent_cwrites, get_last_silent|]].
  { destruct (over =? -1); [rewrite Hty|rewrite <- Hty]; apply wt_ret. }
  destruct ((last <? id) && (id - last <=? 15)) eqn:Hd.
  - apply andb_true_iff in Hd as [?%Z.ltb_lt ?%Z.leb_le]. destruct (two_parts (id - last) t ltac:(lia) ltac:(lia)) as (Hb & _).
    eapply wt_bind_last; [eapply wt_eq; [apply write_byte_cwrites|by rewrite Hb|done]|].
    eapply wt_bind_nil; [apply silent_cwrites, set_field_silent|]. apply wt_ret.
  - change (t :: varint 5 (zigzag 32 id)) with ([t] ++ varint 5 (zigzag 32 id)). eapply wt_bind_last.
    + eapply wt_bind; [eapply wt_eq; [apply write_byte_cwrites|by rewrite Z.mod_small by lia|done]|].
      eapply wt_bind_last; [apply write_i32_cwrites|]. apply wt_ret.
    + eapply wt_bind_nil; [apply silent_cwrites, set_field_silent|]. eapply wt_eq; [apply wt_ret|done|]. by rewrite zlen_app.
Qed.

Lemma header_creads bf st last id ty t : 1 ≤ t ≤ 12 → getTType t = Some ty → in_signed 16 id = true →
  creads (state bf None st last) read_field_begin (field_header last id t) (ty, id, u32 (zlen (field_header last id t)))
    (state bf (if (t =? 1) || (t =? 2) then Some (t =? 1) else None) st id).
Proof.
  intros Ht Hty Hid. unfold read_field_begin.
  assert (∀ n l, l = n → creads (state bf None st last) (let* fieldType := the_type t in
      (if (t =? 1) || (t =? 2) then set_boolValue (Some (t =? 1)) else mret tt) ;; set_lastFieldId id ;; mret (fieldType, id, u32 n))
    [] (ty, id, u32 l) (state bf (if (t =? 1) || (t =? 2) then Some (t =? 1) else None) st id)) as Hend.
  { intros n l ->. eapply rt_bind_nil; [by apply the_type_creads|]. eapply (rt_bind_nil _ _ _ _ _ (state bf (if (t =? 1) || (t =? 2) then Some (t =? 1) else None) st last)).
    - destruct (_ || _); [apply silent_creads, set_value_silent|apply rt_ret].
    - eapply rt_bind_nil; [apply silent_creads, set_field_silent|]. apply rt_ret. }
  unfold field_header. destruct ((last <? id) && (id - last <=? 15)) eqn:Hd.
  - apply andb_true_iff in Hd as [?%Z.ltb_lt ?%Z.leb_le]. destruct (two_parts (id - last) t ltac:(lia) ltac:(lia)) as (_ & Hb & H1' & H2' & _).
    eapply rt_bind_last; [by apply read_byte_creads|]. cbv beta iota zeta. rewrite H1', H2'. destruct (Z.eqb_spec t T_STOP) as [Hs|_]; [unfold T_STOP in Hs; lia|].
    destruct (Z.eqb_spec (id - last) 0); [lia|]. eapply rt_bind_nil.
    { eapply rt_bind_nil; [apply silent_creads, get_last_silent|]. replace (last + (id - last)) with id by lia. destruct (signed16 id Hid) as [_ ->]. apply rt_ret. }
    cbv beta iota. by apply Hend.
  - destruct (two_parts 0 t ltac:(lia) ltac:(lia)) as (_ & Hb & H1' & H2' & _). change (0 * 16 + t) with t in *.
    change (t :: varint 5 (zigzag 32 id)) with ([t] ++ varint 5 (zigzag 32 id)).
    eapply rt_bind; [by apply read_byte_creads|]. cbv beta iota zeta. rewrite H1', H2'. destruct (Z.eqb_spec t T_STOP) as [Hs|_]; [unfold T_STOP in Hs; lia|].
    cbn [Z.eqb]. eapply rt_bind_last; [by apply read_i16_creads|]. cbv beta iota. apply Hend. by rewrite zlen_app.
Qed.
Lemma stop_creads s : creads s read_field_begin [T_STOP] (T_STOP, 0, 1) s.
Proof. unfold read_field_begin. eapply rt_bind_last; [by apply read_byte_creads|]. apply rt_ret. Qed.

(** Booleans, alone and in a field. *)
Definition cbool (b : bool) : Z := if b then CT_BOOLEAN_TRUE else CT_BOOLEAN_FALSE.
Lemma write_bool_cwrites bv st last b : cwrites (state None bv st last) (write_bool b) [cbool b] 1 (state None bv st last).
Proof.
  eapply wt_bind_nil; [apply silent_cwrites, get_pending_silent|]. cbv beta iota. eapply wt_eq; [apply write_byte_cwrites|by destruct b|done].
Qed.
Lemma write_field_bool_cwrites bv st last id b : cwrites (state (Some (T_BOOL, id)) bv st last) (write_bool b) (field_header last id (cbool b))
  (u32 (zlen (field_header last id (cbool b)))) (state None bv st id).
Proof.
  eapply wt_bind_nil; [apply silent_cwrites, get_pending_silent|]. cbv beta iota.
  eapply wt_bind_last; [apply (header_cwrites _ _ _ _ _ _ (cbool b)); by destruct b|].
  eapply wt_bind_nil; [apply silent_cwrites, set_pending_silent|]. apply wt_ret.
Qed.
Lemma read_bool_creads bf st last b : creads (state bf None st last) read_bool [cbool b] (b, 1) (state bf None st last).
Proof.
  eapply rt_bind_nil; [apply silent_creads, get_value_silent|]. cbv beta iota. eapply rt_bind_last; [apply read_byte_creads; by destruct b|].
  eapply rt_eq; [apply rt_ret|done|by destruct b].
Qed.
Lemma read_field_bool_creads bf st last b : creads (state bf (Some b) st last) read_bool [] (b, 0) (state bf None st last).
Proof.
  eapply rt_bind_nil; [apply silent_creads, get_value_silent|]. cbv beta iota. eapply rt_bind_nil; [apply silent_creads, set_value_silent|]. apply rt_ret.
Qed.

(** *** Values *)

(** What the types of the protocol can represent, within the limits of the reader. *)
Fixpoint cwf (v : tval) : bool :=
  match v with
  | VBool _ => true
  | VByte z => in_signed 8 z
  | VI16 z => in_signed 16 z
  | VI32 z => in_signed 32 z
  | VI64 z => in_signed 64 z
  | VDouble z => (0 <=? z) && (z <? 2 ^ 64)
  | VString str => string_ok limits (zlen str)
  | VStruct fs => forallb (λ f, in_signed 16 f.1 && cwf f.2) fs
  | VMap kt vt l =>
      value_type kt && value_type vt && container_ok limits (zlen l) &&
      forallb (λ p, (type_of p.1 =? kt) && (type_of p.2 =? vt) && (cwf p.1 && cwf p.2)) l
  | VSet et l | VList et l => value_type et && container_ok limits (zlen l) && forallb (λ x, (type_of x =? et) && cwf x) l
  end.

(** A value of a field follows its header, except for a boolean. *)
Definition field_body (v : tval) : bytes := match v with VBool _ => [] | _ => cenc v end.
Definition one_field (last : Z) (f : Z * tval) : bytes := field_header last f.1 (field_type f.2) ++ field_body f.2.
Lemma cenc_fields_cons last id x fs : cenc_fields cenc last ((id, x) :: fs) = one_field last (id, x) ++ cenc_fields cenc id fs.
Proof. unfold one_field. cbn. rewrite <- app_assoc. by destruct x. Qed.
Fixpoint final_id (last : Z) (fs : list (Z * tval)) : Z := match fs with [] => last | f :: fs' => final_id f.1 fs' end.

Lemma not_bool v : (∀ b, v ≠ VBool b) → field_type v = ctype (type_of v) ∧ field_body v = cenc v ∧ type_of v ≠ T_BOOL.
Proof. intros Hn. destruct v; try done. by specialize (Hn b). Qed.

Definition writes_val (v : tval) : Prop := ∀ bv st last, cwrites (state None bv st last) (write_val v) (cenc v) (u32 (zlen (cenc v))) (state None bv st last).
Definition reads_val {A} (m : M texn CP A) (l : bytes) (a : A) : Prop := ∀ bf st last, creads (state bf None st last) m l a (state bf None st last).

Lemma write_field_cwrites bv st last id x : writes_val x →
  cwrites (state None bv st last) (let* a := writeFieldBegin [] (type_of x) id in let* b := write_val x in let* c := writeFieldEnd in mret (u32 (a + b + c)))
    (one_field last (id, x)) (u32 (zlen (one_field last (id, x)))) (state None bv st id).
Proof.
  intros Hx. unfold one_field. cbn [fst snd]. destruct (decide (type_of x = T_BOOL)) as [Hb|Hb].
  - destruct x; try done. cbn [field_body field_type type_of]. rewrite app_nil_r.
    eapply wt_bind_nil; [eapply wt_bind_nil; [apply silent_cwrites, set_pending_silent|apply wt_ret]|].
    eapply wt_bind_last; [apply write_field_bool_cwrites|]. eapply wt_bind_nil; [apply wt_ret|].
    eapply wt_eq; [apply wt_ret|done|]. fold (cbool b). rewrite Z.add_0_r, u32_add_r. done.
  - destruct (not_bool x) as (-> & -> & _); [by intros b ->|]. destruct (value_type_facts _ (type_of_value x)) as (Hc & Hr & _).
    eapply wt_bind.
    + cbn [writeFieldBegin the_compact compact_protocol]. unfold write_field_begin. rewrite (proj2 (Z.eqb_neq _ _) Hb). by apply (header_cwrites _ _ _ _ _ _ (ctype (type_of x))).
    + eapply wt_bind_last; [apply Hx|]. eapply wt_bind_nil; [apply wt_ret|]. eapply wt_eq; [apply wt_ret|done|].
      rewrite zlen_app. rewrite Z.add_0_r, u32_add_l, u32_add_r. done.
Qed.
Lemma write_fields_cwrites bv st fs : ∀ last, Forall (λ f, writes_val f.2) fs →
  cwrites (state None bv st last) (write_seq (λ f, let* a := writeFieldBegin [] (type_of f.2) f.1 in let* b := write_val f.2 in let* c := writeFieldEnd in mret (u32 (a + b + c))) fs)
    (cenc_fields cenc last fs) (u32 (zlen (cenc_fields cenc last fs))) (state None bv st (final_id last fs)).
Proof.
  induction fs as [|[id x] fs IH]; intros last Hfs; [apply wt_ret|]. apply Forall_cons in Hfs as [Hx Hfs].
  rewrite cenc_fields_cons. cbn [write_seq final_id fst snd]. eapply wt_bind; [by apply write_field_cwrites|].
  eapply wt_bind_last; [by apply IH|]. eapply wt_eq; [apply wt_ret|done|]. by rewrite u32_add_l, u32_add_r, zlen_app.
Qed.

Lemma varint5_fits n : u32 (zlen (varint 5 n)) = zlen (varint 5 n).
Proof. pose proof (zlen_varint 5 n). apply small_u32. lia. Qed.
Lemma varint10_fits n : u32 (zlen (varint 10 n)) = zlen (varint 10 n).
Proof. pose proof (zlen_varint 10 n). apply small_u32. lia. Qed.

Lemma write_elements_cwrites et l : Forall (λ x, cwf x = true → writes_val x) l → cwf (VList et l) = true → writes_val (VList et l).
Proof.
  intros IH Hwf bv st last. cbn [cwf] in Hwf. rewrite !andb_true_iff in Hwf. destruct Hwf as [[Het Hc] Hl]. pose proof (zlen_nonneg l). cbn [write_val cenc].
  eapply wt_bind; [by apply write_list_begin_cwrites|]. eapply wt_bind_last; [eapply (wt_seq _ _ _ _ _ _ cenc)|].
  - eapply Forall_forallb; [exact Hl|]. eapply Forall_impl; [exact IH|]. intros x Hx [_ Hw]%andb_true_iff. by apply Hx.
  - eapply wt_bind_nil; [apply wt_ret|]. eapply wt_eq; [apply wt_ret|done|]. by rewrite Z.add_0_r, u32_add_l, u32_add_r, zlen_app.
Qed.

Lemma write_val_cwrites v : cwf v = true → writes_val v.
Proof.
  induction v as [b|z|z|z|z|z|str|fs IH|kt vt l IH|et l IH|et l IH] using tval_ind'; cbn [cwf]; intros Hwf; try intros bv st last.
  - apply write_bool_cwrites.
  - apply write_cwrites.
  - cbn [cenc]. rewrite varint5_fits. apply write_i32_cwrites.
  - cbn [cenc]. rewrite varint5_fits. apply write_i32_cwrites.
  - cbn [cenc]. rewrite varint10_fits. apply write_i64_cwrites.
  - apply write_cwrites.
  - apply write_binary_cwrites. by apply string_limits in Hwf as [? _]; [|apply zlen_nonneg].
  - cbn [write_val cenc]. eapply wt_bind_nil; [apply silent_cwrites, push_silent|]. eapply wt_bind.
    + apply write_fields_cwrites. eapply Forall_forallb; [exact Hwf|]. eapply Forall_impl; [exact IH|]. intros f Hf [_ Hw]%andb_true_iff. by apply Hf.
    + eapply wt_bind_last; [apply (write_byte_cwrites _ T_STOP)|]. eapply wt_bind_nil; [apply silent_cwrites, pop_silent|].
      eapply wt_eq; [apply wt_ret|done|]. rewrite zlen_app. change (zlen [T_STOP]) with 1. by rewrite Z.add_0_l, Z.add_0_r, u32_add_l.
  - rewrite !andb_true_iff in Hwf. destruct Hwf as [[[Hkt Hvt] Hc] Hl]. pose proof (zlen_nonneg l). cbn [write_val cenc].
    eapply wt_bind; [by apply write_map_begin_cwrites|]. eapply wt_bind_last; [eapply (wt_seq _ _ _ _ _ _ (λ p, cenc p.1 ++ cenc p.2))|].
    + eapply Forall_forallb; [exact Hl|]. eapply Forall_impl; [exact IH|]. intros [k x] [Hk Hx]. rewrite !andb_true_iff. intros [_ [Hwk Hwx]]. cbn [fst snd] in *.
      eapply wt_bind; [by apply Hk|]. eapply wt_bind_last; [by apply Hx|]. eapply wt_eq; [apply wt_ret|done|]. by rewrite u32_add_l, u32_add_r, zlen_app.
    + eapply wt_bind_nil; [apply wt_ret|]. eapply wt_eq; [apply wt_ret|done|]. by rewrite Z.add_0_r, u32_add_l, u32_add_r, zlen_app.
  - by apply write_elements_cwrites.
  - by apply write_elements_cwrites.
Qed.

(** The same for the state in which a boolean has been read with its header. *)
Definition field_state (v : tval) : option bool := match v with VBool b => Some b | _ => None end.
Definition reads_field {A} (m : M texn CP A) (v : tval) (a : A) : Prop := ∀ bf st last,
  creads (state bf (field_state v) st last) m (field_body v) a (state bf None st last).
Lemma reads_other {A} (m : M texn CP A) v a : (∀ b, v ≠ VBool b) → reads_val m (cenc v) a → reads_field m v a.
Proof. intros Hn Hm bf st last. destruct (not_bool v Hn) as (_ & -> & _). assert (field_state v = None) as -> by (destruct v; try done; by specialize (Hn b)). apply Hm. Qed.

Lemma field_type_facts x : 1 ≤ field_type x ≤ 12 ∧ getTType (field_type x) = Some (type_of x) ∧
  (if (field_type x =? 1) || (field_type x =? 2) then Some (field_type x =? 1) else None) = field_state x.
Proof.
  destruct x as [b| | | | | | | | | |]; [by destruct b|..]; (split; [by vm_compute|split; reflexivity]).
Qed.
Lemma read_header_creads bf st last id x : in_signed 16 id = true →
  creads (state bf None st last) read_field_begin (field_header last id (field_type x)) (type_of x, id, u32 (zlen (field_header last id (field_type x)))) (state bf (field_state x) st id).
Proof. intros Hid. destruct (field_type_facts x) as (Hr & Ht & <-). by apply header_creads. Qed.

Lemma read_fields_creads (read : Z → M texn CP tval) bf st fs : ∀ fuel last, (length fs < fuel)%nat →
  Forall (λ f, in_signed 16 f.1 = true ∧ reads_field (read (type_of f.2)) f.2 (norm f.2)) fs →
  creads (state bf None st last) (read_fields fuel read) (cenc_fields cenc last fs ++ [T_STOP]) (map (λ f, (f.1, norm f.2)) fs) (state bf None st (final_id last fs)).
Proof.
  induction fs as [|[id x] fs IH]; intros [|fuel] last Hf Hfs; simpl in Hf; try lia; cbn [read_fields].
  - eapply rt_bind_last; [apply stop_creads|]. apply rt_ret.
  - apply Forall_cons in Hfs as [[Hid Hx] Hfs]. cbn [fst snd] in *. rewrite cenc_fields_cons. unfold one_field. cbn [fst snd]. rewrite <- !app_assoc.
    eapply rt_bind; [by apply read_header_creads|]. cbv beta iota. rewrite type_of_not_stop. eapply rt_bind; [apply Hx|].
    eapply rt_bind_nil; [apply rt_ret|]. eapply rt_bind_last; [apply IH; [lia|done]|]. apply rt_ret.
Qed.
Lemma skip_fields_creads (skip : Z → M texn CP Z) bf st fs : ∀ fuel last r, 0 ≤ r < 2 ^ 32 → (length fs < fuel)%nat →
  Forall (λ f, in_signed 16 f.1 = true ∧ reads_field (skip (type_of f.2)) f.2 (u32 (zlen (field_body f.2)))) fs →
  creads (state bf None st last) (skip_fields fuel skip r) (cenc_fields cenc last fs ++ [T_STOP]) (u32 (r + zlen (cenc_fields cenc last fs ++ [T_STOP])))
    (state bf None st (final_id last fs)).
Proof.
  induction fs as [|[id x] fs IH]; intros [|fuel] last r Hr Hf Hfs; simpl in Hf; try lia; cbn [skip_fields].
  - eapply rt_bind_last; [apply stop_creads|]. apply rt_ret.
  - apply Forall_cons in Hfs as [[Hid Hx] Hfs]. cbn [fst snd] in *. rewrite cenc_fields_cons. unfold one_field. cbn [fst snd]. rewrite <- !app_assoc.
    eapply rt_bind; [by apply read_header_creads|]. cbv beta iota. rewrite type_of_not_stop. eapply rt_bind; [apply Hx|].
    eapply rt_bind_nil; [apply rt_ret|]. eapply rt_eq; [apply IH; [by apply (wrapu_range 32)|lia|done]|done|].
    rewrite !zlen_app. u32_solve.
Qed.

(** The part common to sets and lists. *)
Lemma read_elements_creads {A} bf st last et l (Q : Z → M texn CP A) (g : tval → A) (fin : Z → list A → tval) :
  value_type et = true → container_ok limits (zlen l) = true →
  Forall (λ x, reads_val (Q et) (cenc x) (g x)) l →
  creads (state bf None st last) (let* '(et, size, _) := read_list_begin cfg in let* l := read_times (Z.to_nat size) (Q et) in let* _ := nothing in mret (fin et l))
    (collection_header et (zlen l) ++ flat_map cenc l) (fin et (map g l)) (state bf None st last).
Proof.
  intros Het Hc Hl. pose proof (zlen_nonneg l). eapply rt_bind; [by apply read_list_begin_creads|]. cbv beta iota.
  unfold zlen at 1. rewrite Nat2Z.id. eapply rt_bind_last; [apply (rt_times _ _ _ _ _ _ cenc g)|].
  - eapply Forall_impl; [exact Hl|]. intros x Hx. apply Hx.
  - eapply rt_bind_nil; [apply rt_ret|]. apply rt_ret.
Qed.
Lemma skip_elements_creads bf st last et l (Q : Z → M texn CP Z) :
  value_type et = true → container_ok limits (zlen l) = true →
  Forall (λ x, reads_val (Q et) (cenc x) (u32 (zlen (cenc x)))) l →
  creads (state bf None st last) (let* '(elemType, size, n) := read_list_begin cfg in let* result := skip_times (Z.to_nat size) (Q elemType) n in let* e := nothing in mret (u32 (result + e)))
    (collection_header et (zlen l) ++ flat_map cenc l) (u32 (zlen (collection_header et (zlen l) ++ flat_map cenc l))) (state bf None st last).
Proof.
  intros Het Hc Hl. pose proof (zlen_nonneg l). eapply rt_bind; [by apply read_list_begin_creads|]. cbv beta iota.
  unfold zlen at 1. rewrite Nat2Z.id. eapply rt_bind_last; [apply (rt_skips _ _ _ _ _ _ cenc); [by apply (wrapu_range 32)|]|].
  - eapply Forall_impl; [exact Hl|]. intros x Hx. apply Hx.
  - eapply rt_bind_nil; [apply rt_ret|]. eapply rt_eq; [apply rt_ret|done|]. by rewrite Z.add_0_r, u32_add_l, zlen_app; u32_solve.
Qed.

(** What the recursion gives for the parts of a value. *)
Abbreviation for_all_depths Q := (λ x, ∀ n, (depth x ≤ n)%nat → cwf x = true → Q n x).
Lemma celements_forall (Q : nat → tval → Prop) et l n :
  forallb (λ x, (type_of x =? et) && cwf x) l = true → Forall (for_all_depths Q) l → (list_max (map depth l) ≤ n)%nat → Forall (λ x, type_of x = et ∧ Q n x) l.
Proof.
  intros Hl IH Hn. eapply Forall_impl; [eapply (Forall_elements _ depth Q); [exact Hl| |exact Hn]|].
  - eapply Forall_impl; [exact IH|]. intros x Hx m Hm [_ Hw]%andb_true_iff. by apply Hx.
  - by intros x [[<-%Z.eqb_eq _]%andb_true_iff Hx].
Qed.
Lemma cpairs_forall (Q : nat → tval → Prop) kt vt l n :
  forallb (λ p, (type_of p.1 =? kt) && (type_of p.2 =? vt) && (cwf p.1 && cwf p.2)) l = true → Forall (λ p, for_all_depths Q p.1 ∧ for_all_depths Q p.2) l →
  (list_max (map (λ p, Nat.max (depth p.1) (depth p.2)) l) ≤ n)%nat → Forall (λ p, (type_of p.1 = kt ∧ Q n p.1) ∧ type_of p.2 = vt ∧ Q n p.2) l.
Proof.
  intros Hl IH Hn. eapply Forall_impl; [eapply (Forall_elements _ (λ p, Nat.max (depth p.1) (depth p.2)) (λ n p, Q n p.1 ∧ Q n p.2)); [exact Hl| |exact Hn]|].
  - eapply Forall_impl; [exact IH|]. intros [k x] [Hk Hx] m Hm. rewrite !andb_true_iff. intros [_ [Hwk Hwx]]. cbn [fst snd] in *. split; [apply Hk|apply Hx]; (done || lia).
  - intros [k x] [Hb [Hk Hx]]. rewrite !andb_true_iff, !Z.eqb_eq in Hb. by destruct Hb as [[<- <-] _].
Qed.
Lemma cfields_forall (Q : nat → tval → Prop) fs n :
  forallb (λ f, in_signed 16 f.1 && cwf f.2) fs = true → Forall (λ f, for_all_depths Q f.2) fs → (list_max (map (λ f, depth f.2) fs) ≤ n)%nat →
  Forall (λ f, in_signed 16 f.1 = true ∧ Q n f.2) fs.
Proof.
  intros Hl IH Hn. eapply Forall_impl; [eapply (Forall_elements _ (λ f, depth f.2) (λ n f, Q n f.2)); [exact Hl| |exact Hn]|].
  - eapply Forall_impl; [exact IH|]. intros [id x] Hx m Hm [_ Hw]%andb_true_iff. by apply Hx.
  - by intros [id x] [[Hid _]%andb_true_iff Hx].
Qed.

Definition val_read (n : nat) (v : tval) : Prop := reads_val (read_val n (type_of v)) (cenc v) (norm v) ∧ reads_field (read_val n (type_of v)) v (norm v).
Definition val_skipped (n : nat) (v : tval) : Prop :=
  reads_val (skip n (type_of v)) (cenc v) (u32 (zlen (cenc v))) ∧ reads_field (skip n (type_of v)) v (u32 (zlen (field_body v))).

Lemma read_val_creads v fuel : (depth v ≤ fuel)%nat → cwf v = true → val_read fuel v.
Proof.
  revert fuel. induction v as [b|z|z|z|z|z|str|fs IH|kt vt l IH|et l IH|et l IH] using tval_ind'; cbn [cwf depth]; intros [|fuel] Hfuel Hwf; try lia; apply le_S_n in Hfuel.
  1: { split; intros bf st last.
    - eapply rt_bind_last; [apply read_bool_creads|apply rt_ret].
    - eapply rt_bind_nil; [apply read_field_bool_creads|apply rt_ret]. }
  all: match goal with |- val_read _ ?v => enough (reads_val (read_val (S fuel) (type_of v)) (cenc v) (norm v)) by (split; [done|by apply reads_other]) end; intros bf st last.
  - eapply rt_bind_last; [by apply read_i8_creads|apply rt_ret].
  - eapply rt_bind_last; [by apply read_i16_creads|apply rt_ret].
  - eapply rt_bind_last; [by apply read_i32_creads|apply rt_ret].
  - eapply rt_bind_last; [by apply read_i64_creads|apply rt_ret].
  - apply andb_true_iff in Hwf as [H1'%Z.leb_le H2'%Z.ltb_lt]. eapply rt_bind_last; [by apply read_double_creads|apply rt_ret].
  - eapply rt_bind_last; [by apply read_binary_creads|apply rt_ret].
  - cbn [cenc norm]. eapply rt_bind_nil; [apply silent_creads, push_silent|].
    eapply rt_bind_last; [apply (read_fields_creads (read_val fuel)); [lia|]|].
    + eapply Forall_impl; [apply (cfields_forall val_read fs fuel); [done..|lia]|]. by intros f [? [_ ?]].
    + eapply rt_bind_nil; [apply silent_creads, pop_silent|]. apply rt_ret.
  - rewrite !andb_true_iff in Hwf. destruct Hwf as [[[Hkt Hvt] Hc] Hl]. pose proof (zlen_nonneg l). cbn [cenc].
    eapply rt_bind; [by apply read_map_begin_creads|]. cbv beta iota. destruct l as [|p0 l].
    + eapply rt_bind_nil; [apply rt_ret|]. eapply rt_bind_nil; [apply rt_ret|]. apply rt_ret.
    + set (l1 := p0 :: l) in *. destruct (Z.eqb_spec (zlen l1) 0) as [Hz|_]; [unfold zlen, l1 in Hz; cbn in Hz; lia|]. unfold zlen at 1. rewrite Nat2Z.id.
      eapply rt_bind_last; [apply (rt_times _ _ _ _ _ _ (λ p, cenc p.1 ++ cenc p.2) (λ p, (norm p.1, norm p.2)) l1)|].
      * eapply Forall_impl; [by apply (cpairs_forall val_read kt vt l1 fuel)|]. intros [k x] [[<- [Hk _]] [<- [Hx _]]]. cbn [fst snd] in *.
        eapply rt_bind; [apply Hk|]. eapply rt_bind_last; [apply Hx|]. apply rt_ret.
      * eapply rt_bind_nil; [apply rt_ret|]. apply rt_ret.
  - rewrite !andb_true_iff in Hwf. destruct Hwf as [[Het Hc] Hl]. apply (read_elements_creads _ _ _ et l (read_val fuel) norm VSet); [done..|].
    eapply Forall_impl; [by apply (celements_forall val_read et l fuel)|]. by intros x [<- [Hx _]].
  - rewrite !andb_true_iff in Hwf. destruct Hwf as [[Het Hc] Hl]. apply (read_elements_creads _ _ _ et l (read_val fuel) norm VList); [done..|].
    eapply Forall_impl; [by apply (celements_forall val_read et l fuel)|]. by intros x [<- [Hx _]].
Qed.

Lemma skip_val_creads v fuel : (depth v ≤ fuel)%nat → cwf v = true → val_skipped fuel v.
Proof.
  revert fuel. induction v as [b|z|z|z|z|z|str|fs IH|kt vt l IH|et l IH|et l IH] using tval_ind'; cbn [cwf depth]; intros [|fuel] Hfuel Hwf; try lia; apply le_S_n in Hfuel.
  1: { split; intros bf st last.
    - eapply rt_bind_last; [apply read_bool_creads|apply rt_ret].
    - eapply rt_bind_nil; [apply read_field_bool_creads|apply rt_ret]. }
  all: match goal with |- val_skipped _ ?v => enough (reads_val (skip (S fuel) (type_of v)) (cenc v) (u32 (zlen (cenc v)))) by (split; [done|by apply reads_other]) end; intros bf st last.
  - eapply rt_bind_last; [by apply read_i8_creads|apply rt_ret].
  - cbn [cenc]. rewrite varint5_fits. eapply rt_bind_last; [by apply read_i16_creads|apply rt_ret].
  - cbn [cenc]. rewrite varint5_fits. eapply rt_bind_last; [by apply read_i32_creads|apply rt_ret].
  - cbn [cenc]. rewrite varint10_fits. eapply rt_bind_last; [by apply read_i64_creads|apply rt_ret].
  - apply andb_true_iff in Hwf as [H1'%Z.leb_le H2'%Z.ltb_lt]. eapply rt_bind_last; [by apply read_double_creads|apply rt_ret].
  - eapply rt_bind_last; [by apply read_binary_creads|apply rt_ret].
  - cbn [cenc]. eapply rt_bind_nil; [apply silent_creads, push_silent|].
    eapply rt_bind_last; [apply (skip_fields_creads (skip fuel)); [lia|lia|]|].
    + eapply Forall_impl; [apply (cfields_forall val_skipped fs fuel); [done..|lia]|]. by intros f [? [_ ?]].
    + eapply rt_bind_nil; [apply silent_creads, pop_silent|]. eapply rt_eq; [apply rt_ret|done|]. by rewrite Z.add_0_r, Z.add_0_l; u32_solve.
  - rewrite !andb_true_iff in Hwf. destruct Hwf as [[[Hkt Hvt] Hc] Hl]. pose proof (zlen_nonneg l). cbn [cenc].
    eapply rt_bind; [by apply read_map_begin_creads|]. cbv beta iota. destruct l as [|p0 l].
    + eapply rt_bind_nil; [apply rt_ret|]. eapply rt_bind_nil; [apply rt_ret|]. apply rt_ret.
    + set (l1 := p0 :: l) in *. destruct (Z.eqb_spec (zlen l1) 0) as [Hz|_]; [unfold zlen, l1 in Hz; cbn in Hz; lia|]. unfold zlen at 1. rewrite Nat2Z.id.
      eapply rt_bind_last; [apply (rt_skips _ _ _ _ _ _ (λ p, cenc p.1 ++ cenc p.2) l1); [by apply (wrapu_range 32)|]|].
      * eapply Forall_impl; [by apply (cpairs_forall val_skipped kt vt l1 fuel)|]. intros [k x] [[<- [Hk _]] [<- [Hx _]]]. cbn [fst snd] in *.
        eapply rt_bind; [apply Hk|]. eapply rt_bind_last; [apply Hx|]. eapply rt_eq; [apply rt_ret|done|]. by rewrite u32_add_l, u32_add_r, zlen_app.
      * eapply rt_bind_nil; [apply rt_ret|]. eapply rt_eq; [apply rt_ret|done|]. rewrite zlen_app. u32_solve.
  - rewrite !andb_true_iff in Hwf. destruct Hwf as [[Het Hc] Hl]. apply (skip_elements_creads _ _ _ et l (skip fuel)); [done..|].
    eapply Forall_impl; [by apply (celements_forall val_skipped et l fuel)|]. by intros x [<- [Hx _]].
  - rewrite !andb_true_iff in Hwf. destruct Hwf as [[Het Hc] Hl]. apply (skip_elements_creads _ _ _ et l (skip fuel)); [done..|].
    eapply Forall_impl; [by apply (celements_forall val_skipped et l fuel)|]. by intros x [<- [Hx _]].
Qed.

(** *** Messages *)

Definition cenc_message (name : bytes) (type seqid : Z) : bytes := [130; 1 + type * 32] ++ varint 5 (u32 seqid) ++ cenc_string name.

Lemma message_byte type : 0 ≤ type < 8 →
  let w := i8 (Z.lor (Z.land VERSION_N VERSION_MASK) (Z.land (Z.shiftl type TYPE_SHIFT_AMOUNT) TYPE_MASK)) in
  w mod 256 = 1 + type * 32 ∧ i8 (Z.land (i8 (1 + type * 32)) VERSION_MASK) = VERSION_N ∧
  Z.land (Z.shiftr (i8 (1 + type * 32)) TYPE_SHIFT_AMOUNT) 3 = type mod 4.
Proof.
  intros Ht. pose proof (all_below (λ t, (i8 (Z.lor (Z.land VERSION_N VERSION_MASK) (Z.land (Z.shiftl t TYPE_SHIFT_AMOUNT) TYPE_MASK)) mod 256 =? 1 + t * 32) &&
    (i8 (Z.land (i8 (1 + t * 32)) VERSION_MASK) =? VERSION_N) && (Z.land (Z.shiftr (i8 (1 + t * 32)) TYPE_SHIFT_AMOUNT) 3 =? t mod 4)) 8
    ltac:(vm_compute; reflexivity) type ltac:(lia)) as Hb. cbv beta in Hb. rewrite !andb_true_iff, !Z.eqb_eq in Hb. by destruct Hb as [[? ?] ?].
Qed.

Lemma write_message_cwrites s name type seqid : 0 ≤ type < 8 → zlen name < 2 ^ 31 →
  cwrites s (write_message_begin name type seqid) (cenc_message name type seqid) (u32 (zlen (cenc_message name type seqid))) s.
Proof.
  intros Ht Hn. destruct (message_byte type Ht) as (Hb & _). unfold write_message_begin, cenc_message.
  change ([130; 1 + type * 32] ++ ?l) with ([130] ++ [1 + type * 32] ++ l).
  eapply wt_bind; [apply (write_byte_cwrites _ PROTOCOL_ID)|]. eapply wt_bind; [eapply wt_eq; [apply write_byte_cwrites|by rewrite Hb|done]|].
  eapply wt_bind; [by apply write_varint32_cwrites, (wrapu_range 32)|]. eapply wt_bind_last; [by apply write_binary_cwrites|].
  eapply wt_eq; [apply wt_ret|done|]. rewrite !zlen_app. change (zlen [130]) with 1. change (zlen [1 + type * 32]) with 1. u32_solve.
Qed.
Lemma read_message_creads s name type seqid : 0 ≤ type < 8 → string_ok limits (zlen name) = true → in_signed 32 seqid = true →
  creads s (read_message_begin cfg) (cenc_message name type seqid) (name, type mod 4, seqid, u32 (zlen (cenc_message name type seqid))) s.
Proof.
  intros Ht Hn Hs%in_signed_iff. destruct (message_byte type Ht) as (_ & Hv & Hty). unfold read_message_begin, cenc_message.
  change ([130; 1 + type * 32] ++ ?l) with ([130] ++ [1 + type * 32] ++ l).
  eapply rt_bind; [by apply read_byte_creads|]. cbv beta iota. change (i8 130 =? PROTOCOL_ID) with true. cbn [negb].
  eapply rt_bind; [apply read_byte_creads; lia|]. cbv beta iota zeta. rewrite Hv, Hty. change (VERSION_N =? VERSION_N) with true. cbn [negb].
  eapply rt_bind; [by apply readVarint32_creads, (wrapu_range 32)|]. cbv beta iota. eapply rt_bind_last; [by apply read_binary_creads|]. cbv beta iota.
  eapply rt_eq; [apply rt_ret|done|]. unfold i32, u32 at 1. rewrite wraps_wrapu, wraps_small by done.
  f_equal. rewrite !zlen_app. change (zlen [130]) with 1. change (zlen [1 + type * 32]) with 1. u32_solve.
Qed.

(** *** Theorems *)

(** C28: the compact protocol is lossless but for the types of empty maps: between fields, a
    value of any type and depth that the protocol can represent is written as [cenc v] and
    reported with its length, and a reader that finds these bytes gets [norm v], which is
    [v] with the types of the maps without entries set to [T_STOP], and stops behind them.
    [skip] passes over exactly these bytes and reports their number. Writer and reader end
    with the field numbers they had, and no boolean is left pending, so that the next value
    goes as well. *)
Theorem compact_roundtrip v p :
  cwf v = true → c_ok p → booleanField_ p = None → zlen (cenc v) ≤ c_room p →
  (∃ p', write_val v p = Ret (u32 (zlen (cenc v))) p' ∧ c_ok p' ∧ c_state p' = c_state p ∧ c_out p' = c_out p ++ cenc v) ∧
  (∀ q rest fuel, c_ok q → boolValue_ q = None → c_inp q = cenc v ++ rest → (depth v ≤ fuel)%nat →
     (∃ q', read_val fuel (type_of v) q = Ret (norm v) q' ∧ c_ok q' ∧ c_state q' = c_state q ∧ c_inp q' = rest) ∧
     (∃ q', skip fuel (type_of v) q = Ret (u32 (zlen (cenc v))) q' ∧ c_ok q' ∧ c_state q' = c_state q ∧ c_inp q' = rest)).
Proof.
  intros Hwf Hok Hnone Hroom. split.
  - destruct (write_val_cwrites v Hwf (boolValue_ p) (lastField_ p) (lastFieldId_ p) p Hok) as (p' & Hw & Hok' & Hs & Hout & _);
      [by unfold c_state; rewrite Hnone|done|].
    exists p'. split_and!; try done. rewrite Hs. unfold c_state. by rewrite Hnone.
  - intros q rest fuel Hokq Hnoneq Hin Hf.
    assert (c_state q = state (booleanField_ q) None (lastField_ q) (lastFieldId_ q)) as Hst by (unfold c_state; by rewrite Hnoneq). split.
    + destruct (proj1 (read_val_creads v fuel Hf Hwf) _ _ _ q rest Hokq Hst Hin) as (q' & Hr & Hok' & Hs & Hin' & _).
      exists q'. by rewrite Hst.
    + destruct (proj1 (skip_val_creads v fuel Hf Hwf) _ _ _ q rest Hokq Hst Hin) as (q' & Hr & Hok' & Hs & Hin' & _).
      exists q'. by rewrite Hst.
Qed.

(** The header of a message is read back with its name and its number, and with its type
    modulo four: calls, replies and exceptions survive. *)
Theorem compact_message name type seqid p :
  0 ≤ type < 8 → string_ok limits (zlen name) = true → in_signed 32 seqid = true → c_ok p → zlen (cenc_message name type seqid) ≤ c_room p →
  (∃ p' n, write_message_begin name type seqid p = Ret n p' ∧ c_ok p' ∧ c_out p' = c_out p ++ cenc_message name type seqid) ∧
  (∀ q rest, c_ok q → c_inp q = cenc_message name type seqid ++ rest →
     ∃ q' n, read_message_begin cfg q = Ret (name, type mod 4, seqid, n) q' ∧ c_inp q' = rest).
Proof.
  intros Ht Hn Hs Hok Hroom. split.
  - destruct (string_limits (zlen name) (zlen_nonneg name) Hn) as [Hlen _].
    destruct (write_message_cwrites (c_state p) name type seqid Ht Hlen p Hok eq_refl Hroom) as (p' & Hw & Hok' & _ & Hout & _). eauto.
  - intros q rest Hokq Hin.
    destruct (read_message_creads (c_state q) name type seqid Ht Hn Hs q rest Hokq eq_refl Hin) as (q' & Hr & _ & _ & Hin' & _). eauto.
Qed.

(** A oneway call arrives as a message of type 0, which is none of the types: the reader
    takes two of the three bits of the type that the writer sends. *)
Theorem oneway_lost name seqid q rest :
  string_ok limits (zlen name) = true → in_signed 32 seqid = true → c_ok q → c_inp q = cenc_message name T_ONEWAY seqid ++ rest →
  ∃ q' n, read_message_begin cfg q = Ret (name, 0, seqid, n) q'.
Proof.
  intros Hn Hs Hok Hin.
  destruct (read_message_creads (c_state q) name T_ONEWAY seqid ltac:(done) Hn Hs q rest Hok eq_refl Hin) as (q' & Hr & _). eauto.
Qed.

End Protocol.

(** ** The theorems at work, over a memory buffer *)
#[local] Instance compact_malloc : Malloc := λ _, true.
#[local] Instance compact_malloc_laws : MallocLaws.
Proof. by intros n. Qed.
#[local] Existing Instances MemoryBuffer.memory_buffer_transport memory_buffer_read_laws memory_buffer_write_laws.
Definition ex_config : CompactConfig := mkCompactConfig 0 0.
#[local] Instance ex_compact : Protocol (TCompactProtocol TMemoryBuffer) := compact_protocol ex_config.

(** A struct with two booleans, a distant field, a list of booleans and an inner struct
    with a map without entries. *)
Definition ex_compact_value : tval :=
  VStruct [(1, VBool true); (3, VI32 (-5)); (200, VString [104; 105]); (201, VList T_BOOL [VBool false; VBool true]);
    (5, VStruct [(1, VMap T_I32 T_STRING []); (2, VBool false)])].

Definition ex_cwriter : TCompactProtocol TMemoryBuffer := newCompact (MemoryBuffer.initCommon (fresh_block 8) 8 true 0).
Definition ex_creader (l : bytes) : TCompactProtocol TMemoryBuffer := newCompact (MemoryBuffer.initCommon l (zlen l) false (zlen l)).

Lemma ex_creader_ok l : zlen l < 2 ^ 32 → mb_ok (c_trans (ex_creader l)).
Proof. intros Hl. pose proof (zlen_nonneg l). split; simpl; lia. Qed.
Lemma ex_cwriter_ok : mb_ok (c_trans ex_cwriter).
Proof. split; vm_compute; intuition discriminate. Qed.

Lemma compact_roundtrip_witness :
  ∃ p' q', write_val ex_compact_value ex_cwriter = Ret 20 p' ∧
    read_val 20 T_STRUCT (ex_creader (cenc ex_compact_value ++ [9])) = Ret (norm ex_compact_value) q' ∧ mb_inp (c_trans q') = [9] ∧
    ∃ q'', skip 20 T_STRUCT (ex_creader (cenc ex_compact_value ++ [9])) = Ret 20 q''.
Proof.
  destruct (compact_roundtrip ex_config mb_inp mb_out mb_room mb_ok ex_compact_value ex_cwriter) as [(p' & Hw & _) Hread].
  - vm_compute. reflexivity.
  - apply ex_cwriter_ok.
  - reflexivity.
  - vm_compute. discriminate.
  - destruct (Hread (ex_creader (cenc ex_compact_value ++ [9])) [9] 20%nat) as [(q' & Hr & _ & _ & Hin) (q'' & Hsk & _)].
    + by apply ex_creader_ok.
    + reflexivity.
    + vm_compute. reflexivity.
    + vm_compute. lia.
    + exists p', q'. split; [exact Hw|]. split; [exact Hr|]. split; [exact Hin|]. exists q''. exact Hsk.
Defined.

Lemma oneway_lost_witness :
  ∃ q' n, read_message_begin ex_config (ex_creader (cenc_message [112; 117; 116] T_ONEWAY 3)) = Ret ([112; 117; 116], 0, 3, n) q'.
Proof.
  apply (oneway_lost ex_config mb_inp mb_out mb_ok [112; 117; 116] 3 _ []).
  - vm_compute. reflexivity.
  - vm_compute. reflexivity.
  - by apply ex_creader_ok.
  - vm_compute. reflexivity.
Defined.

End CompactTheorems.
