(* ===== verification/Socket.v ===== *)
(** * [TSocket]

    [transport/TSocket.{h,cpp}]: the transport on a connected TCP socket, the
    lowest layer under both the client's [TFramedTransport] and the connections
    of [TNonblockingServer].  The operating system is a parameter, the class
    [Kernel]; what a connected blocking socket guarantees is stated by
    [KernelStream], and the theorems discharge with it the interface
    [StreamLaws] on which the framed transport is built. *)

From S2P Require Import Prelude Bytes Transport BufferTransports LayeredTheorems.
From stdpp Require Import base list.
From Stdlib Require Import ZArith Lia.

Local Open Scope Z_scope.

(** The values of [errno] that the code tells apart; on Linux [EWOULDBLOCK] is
    [EAGAIN]. *)
Inductive errno := EAGAIN | EINTR | ECONNRESET | ENOTCONN | ETIMEDOUT | EPIPE | OTHER_ERRNO.

(** A system call delivers a value or sets [errno]. *)
Inductive sysret (A : Type) :=
| Sys (a : A)
| Err (e : errno).
Arguments Sys {A} a.
Arguments Err {A} e.

Inductive sockopt :=
| SO_LINGER (on : bool) (val : Z)
| TCP_NODELAY (on : bool)
| SO_RCVTIMEO (sec usec : Z)
| SO_SNDTIMEO (sec usec : Z).

(** The system calls, on a state [K] of the operating system: [recv] of at most
    so many bytes, [recv] with [MSG_PEEK], [send], [shutdown] followed by
    [close], [setsockopt], whose result is only logged, and [gettimeofday] with
    the seconds and the microseconds. *)
Class Kernel (K : Type) := {
  k_recv : Z → Z → K → sysret bytes * K;
  k_recv_peek : Z → Z → K → sysret bytes * K;
  k_send : Z → bytes → K → sysret Z * K;
  k_close : Z → K → K;
  k_setsockopt : Z → sockopt → K → K;
  k_gettimeofday : K → (Z * Z) * K }.

Record TSocket := mkSocket {
  socket_ : Z;
  connTimeout_ : Z; sendTimeout_ : Z; recvTimeout_ : Z;
  lingerOn_ : bool; lingerVal_ : Z; noDelay_ : bool;
  maxRecvRetries_ : Z }.

(** The constructors for a given descriptor and for none. *)
Definition TSocket_of (fd : Z) : TSocket := mkSocket fd 0 0 0 true 0 true 5.
Definition TSocket_new : TSocket := TSocket_of (-1).

Definition isOpen (s : TSocket) : bool := negb (socket_ s =? -1).

Module Socket.
Section Socket.
Context {K : Type} `{Kernel K}.

Abbreviation SK := (M texn (TSocket * K)).

Definition with_fd (fd : Z) (s : TSocket) : TSocket :=
  mkSocket fd (connTimeout_ s) (sendTimeout_ s) (recvTimeout_ s) (lingerOn_ s) (lingerVal_ s)
    (noDelay_ s) (maxRecvRetries_ s).

(** A system call in the monad. *)
Definition sys {A} (call : K → A * K) : SK A := λ '(s, k), let (a, k') := call k in Ret a (s, k').
Definition sys_ (call : K → K) : SK unit := λ '(s, k), Ret tt (s, call k).
Definition this : SK TSocket := gets fst.
Definition set_fields (f : TSocket → TSocket) : SK unit := modify (λ '(s, k), (f s, k)).

Definition peek : SK bool :=
  let* s := this in
  if negb (isOpen s) then mret false else
  let* r := sys (k_recv_peek (socket_ s) 1) in
  match r with
  | Err _ => throw (TTransportExn UNKNOWN)
  | Sys b => mret (0 <? zlen b)
  end.

Definition close : SK unit :=
  let* s := this in
  (when isOpen s then sys_ (k_close (socket_ s))) ;; set_fields (with_fd (-1)).

Definition setSocketFD (fd : Z) : SK unit :=
  let* s := this in
  (when isOpen s then close) ;; set_fields (with_fd fd).

(** What [errno] means for [recv], after the cases that are tried again. *)
Definition recv_error (e : errno) : texn :=
  match e with
  | ECONNRESET | ENOTCONN => TTransportExn NOT_OPEN
  | ETIMEDOUT => TTransportExn TIMED_OUT
  | _ => TTransportExn UNKNOWN
  end.

(** [(recvTimeout_*1000) / ((maxRecvRetries_>0) ? maxRecvRetries_ : 2)], an
    [int] converted to [uint32_t]. *)
Definition eagain_threshold (s : TSocket) : result Z :=
  if recvTimeout_ s =? 0 then Ok 0 else
  if i32 (recvTimeout_ s * 1000) =? recvTimeout_ s * 1000 then
    Ok (u32 (Z.quot (recvTimeout_ s * 1000) (if 0 <? maxRecvRetries_ s then maxRecvRetries_ s else 2)))
  else Fail SignedOverflow.

Definition elapsed_micros (b e : Z * Z) : Z := u32 ((e.1 - b.1) * 1000 * 1000 + (e.2 - b.2)).

(** The part from the label [try_again] on.  Every further round has incremented
    [retries], which [maxRecvRetries_] bounds. *)
Fixpoint read_try (fuel : nat) (threshold len retries : Z) : SK bytes :=
  match fuel with
  | O => stuck OutOfFuel
  | S fuel' =>
      let* s := this in
      let* begin := if 0 <? recvTimeout_ s then sys k_gettimeofday else mret (0, 0) in
      let* got := sys (k_recv (socket_ s) len) in
      match got with
      | Sys b => mret b
      | Err EAGAIN =>
          if recvTimeout_ s =? 0 then throw (TTransportExn TIMED_OUT) else
          let* now := sys k_gettimeofday in
          if (threshold =? 0) || (elapsed_micros begin now <? threshold) then
            if retries <? maxRecvRetries_ s then read_try fuel' threshold len (retries + 1)
            else throw (TTransportExn TIMED_OUT)
          else throw (TTransportExn TIMED_OUT)
      | Err EINTR =>
          if retries <? maxRecvRetries_ s then read_try fuel' threshold len (retries + 1)
          else throw (recv_error EINTR)
      | Err e => throw (recv_error e)
      end
  end.

Definition read (len : Z) : SK bytes :=
  let* s := this in
  if negb (isOpen s) then throw (TTransportExn NOT_OPEN) else
  let* threshold := lift_result (eagain_threshold s) in
  read_try (S (Z.to_nat (maxRecvRetries_ s))) threshold len 0.

Definition write_partial (data : bytes) : SK Z :=
  let* s := this in
  if negb (isOpen s) then throw (TTransportExn NOT_OPEN) else
  let* b := sys (k_send (socket_ s) data) in
  match b with
  | Err EAGAIN => mret 0
  | Err (EPIPE | ECONNRESET | ENOTCONN) => close ;; throw (TTransportExn NOT_OPEN)
  | Err _ => throw (TTransportExn UNKNOWN)
  | Sys n => if n =? 0 then throw (TTransportExn NOT_OPEN) else mret (u32 n)
  end.

(** Every round sends at least one byte. *)
Fixpoint write_loop (fuel : nat) (data : bytes) (sent : Z) : SK unit :=
  if sent <? zlen data then
    match fuel with
    | O => stuck OutOfFuel
    | S fuel' =>
        let* b := write_partial (zdrop sent data) in
        if b =? 0 then throw (TTransportExn TIMED_OUT) else write_loop fuel' data (u32 (sent + b))
    end
  else mret tt.
Definition write (data : bytes) : SK unit := write_loop (length data) data 0.

Definition setLinger (on : bool) (linger : Z) : SK unit :=
  set_fields (λ s, mkSocket (socket_ s) (connTimeout_ s) (sendTimeout_ s) (recvTimeout_ s) on linger
    (noDelay_ s) (maxRecvRetries_ s)) ;;
  let* s := this in
  when isOpen s then sys_ (k_setsockopt (socket_ s) (SO_LINGER on linger)).

(** [path_] is empty: only TCP sockets are modelled. *)
Definition setNoDelay (noDelay : bool) : SK unit :=
  set_fields (λ s, mkSocket (socket_ s) (connTimeout_ s) (sendTimeout_ s) (recvTimeout_ s)
    (lingerOn_ s) (lingerVal_ s) noDelay (maxRecvRetries_ s)) ;;
  let* s := this in
  when isOpen s then sys_ (k_setsockopt (socket_ s) (TCP_NODELAY noDelay)).

Definition setConnTimeout (ms : Z) : SK unit :=
  set_fields (λ s, mkSocket (socket_ s) ms (sendTimeout_ s) (recvTimeout_ s) (lingerOn_ s)
    (lingerVal_ s) (noDelay_ s) (maxRecvRetries_ s)).

Definition setRecvTimeout (ms : Z) : SK unit :=
  if ms <? 0 then mret tt else
  set_fields (λ s, mkSocket (socket_ s) (connTimeout_ s) (sendTimeout_ s) ms (lingerOn_ s)
    (lingerVal_ s) (noDelay_ s) (maxRecvRetries_ s)) ;;
  let* s := this in
  when isOpen s then
    sys_ (k_setsockopt (socket_ s) (SO_RCVTIMEO (Z.quot ms 1000) (Z.rem ms 1000 * 1000))).

Definition setSendTimeout (ms : Z) : SK unit :=
  if ms <? 0 then mret tt else
  set_fields (λ s, mkSocket (socket_ s) (connTimeout_ s) ms (recvTimeout_ s) (lingerOn_ s)
    (lingerVal_ s) (noDelay_ s) (maxRecvRetries_ s)) ;;
  let* s := this in
  when isOpen s then
    sys_ (k_setsockopt (socket_ s) (SO_SNDTIMEO (Z.quot ms 1000) (Z.rem ms 1000 * 1000))).

Definition setMaxRecvRetries (n : Z) : SK unit :=
  set_fields (λ s, mkSocket (socket_ s) (connTimeout_ s) (sendTimeout_ s) (recvTimeout_ s)
    (lingerOn_ s) (lingerVal_ s) (noDelay_ s) n).

(** The operations that [TSocket] inherits: the template [readAll], a [flush]
    that does nothing, a [borrow] that never lends and a [consume] that always
    throws. *)
#[export] Instance socket_transport : Transport (TSocket * K) := {
  t_read := read; t_readAll := readAll read; t_write := write;
  t_flush := mret tt; t_borrow _ := mret None;
  t_consume _ := throw (TTransportExn NOT_OPEN) }.

End Socket.
End Socket.

(** ** What a connected socket guarantees

    [kinp] are the bytes that the peer has sent and that have not been received,
    [kout] the bytes sent to the peer.  A call is interrupted at most [burst]
    times in a row: [intr] counts the interruptions still to come. *)
Class KernelStream (K : Type) `{Kernel K} (kinp kout : K → bytes) (kok : Z → K → Prop)
    (intr : K → Z) (burst : Z) := {
  intr_law : ∀ fd k, kok fd k → intr k ≤ burst;
  time_law : ∀ fd k, kok fd k → let k' := (k_gettimeofday k).2 in
    kok fd k' ∧ kinp k' = kinp k ∧ kout k' = kout k ∧ intr k' = intr k;
  recv_law : ∀ fd n k, kok fd k → 0 < n →
    match k_recv fd n k with
    | (Sys b, k') => kok fd k' ∧ kout k' = kout k ∧ kinp k = b ++ kinp k' ∧ zlen b ≤ n ∧
        (kinp k ≠ [] → b ≠ [])
    | (Err EINTR, k') => kok fd k' ∧ kinp k' = kinp k ∧ kout k' = kout k ∧ 0 ≤ intr k' < intr k
    | _ => False
    end;
  send_law : ∀ fd data k, kok fd k → data ≠ [] →
    match k_send fd data k with
    | (Sys n, k') => kok fd k' ∧ 0 < n ≤ zlen data ∧ kout k' = kout k ++ ztake n data ∧
        kinp k' = kinp k
    | _ => False
    end }.

(** The timeout in milliseconds fits an [int] in microseconds. *)
Definition timeouts_ok (s : TSocket) : Prop := 0 ≤ recvTimeout_ s ≤ 2147483.

Section SocketReads.
Import Socket.
Context {K : Type} `{Kernel K}.
Implicit Types (s : TSocket) (k : K).

Lemma eagain_threshold_ok s : timeouts_ok s → ∃ t, eagain_threshold s = Ok t.
Proof.
  intros Ht. unfold timeouts_ok in Ht. unfold eagain_threshold.
  destruct (recvTimeout_ s =? 0); [eauto|].
  unfold i32. rewrite wraps_small by lia. rewrite Z.eqb_refl. eauto.
Qed.

Lemma sys_bind {A B} (call : K → A * K) (f : A → M texn (TSocket * K) B) s k :
  mbind f (sys call) (s, k) = f (call k).1 (s, (call k).2).
Proof. unfold mbind, M_bind, sys. by destruct (call k). Qed.

(** A result of [read] that leaves the object as it was. *)
Definition read_outcome s (o : outcome texn (TSocket * K) bytes) : Prop :=
  match o with
  | Ret _ (s', _) => s' = s
  | Exn (TTransportExn _) (s', _) => s' = s
  | _ => False
  end.

(** One round of [read_try]. *)
Lemma read_try_S fuel t n r s k :
  let k1 := if 0 <? recvTimeout_ s then (k_gettimeofday k).2 else k in
  read_try (S fuel) t n r (s, k) =
  match k_recv (socket_ s) n k1 with
  | (Sys b, k2) => Ret b (s, k2)
  | (Err EAGAIN, k2) =>
      if recvTimeout_ s =? 0 then Exn (TTransportExn TIMED_OUT) (s, k2) else
      let begin := if 0 <? recvTimeout_ s then (k_gettimeofday k).1 else (0, 0) in
      if (t =? 0) || (elapsed_micros begin (k_gettimeofday k2).1 <? t) then
        if r <? maxRecvRetries_ s then read_try fuel t n (r + 1) (s, (k_gettimeofday k2).2)
        else Exn (TTransportExn TIMED_OUT) (s, (k_gettimeofday k2).2)
      else Exn (TTransportExn TIMED_OUT) (s, (k_gettimeofday k2).2)
  | (Err EINTR, k2) =>
      if r <? maxRecvRetries_ s then read_try fuel t n (r + 1) (s, k2)
      else Exn (recv_error EINTR) (s, k2)
  | (Err e, k2) => Exn (recv_error e) (s, k2)
  end.
Proof.
  cbv zeta. cbn [read_try]. unfold this.
  rewrite (M_bind_ret _ _ (s, k) s (s, k)) by done.
  destruct (0 <? recvTimeout_ s).
  - rewrite sys_bind, sys_bind. destruct (k_recv _ _ _) as [[b|[]] k2]; simpl; try done;
      repeat case_match; rewrite ?sys_bind in *; repeat case_match; try done; try congruence.
  - rewrite (M_bind_ret _ _ (s, k) (0, 0) (s, k)) by done. rewrite sys_bind.
    destruct (k_recv _ _ _) as [[b|[]] k2]; simpl; try done.
    all: repeat case_match; rewrite ?sys_bind in *; repeat case_match; try done; try congruence.
Qed.

Lemma read_try_total fuel t n r s k :
  Z.max 0 (maxRecvRetries_ s - r) < Z.of_nat fuel →
  read_outcome s (read_try fuel t n r (s, k)).
Proof.
  revert r k. induction fuel as [|fuel IH]; intros r k Hf; [lia|].
  rewrite read_try_S. cbv zeta.
  destruct (k_recv _ _ _) as [[b|[]] k2]; simpl; try done.
  - destruct (_ =? 0); [done|]. destruct (_ || _); [|done].
    destruct (Z.ltb_spec r (maxRecvRetries_ s)); [|done]. apply IH. lia.
  - destruct (Z.ltb_spec r (maxRecvRetries_ s)); [|done]. apply IH. lia.
Qed.

Lemma read_open n s k :
  isOpen s = true → timeouts_ok s →
  ∃ t, read n (s, k) = read_try (S (Z.to_nat (maxRecvRetries_ s))) t n 0 (s, k).
Proof.
  intros Ho Ht. destruct (eagain_threshold_ok s Ht) as [t Heq]. exists t. unfold read, this.
  rewrite (M_bind_ret _ _ (s, k) s (s, k)) by done. rewrite Ho. cbn [negb].
  by rewrite (M_bind_ret _ _ (s, k) t (s, k)) by (by rewrite Heq).
Qed.

Lemma read_closed n s k :
  isOpen s = false → read n (s, k) = Exn (TTransportExn NOT_OPEN) (s, k).
Proof.
  intros Ho. unfold read, this. rewrite (M_bind_ret _ _ (s, k) s (s, k)) by done. by rewrite Ho.
Qed.

Lemma read_outcome_total n s k : timeouts_ok s → read_outcome s (read n (s, k)).
Proof.
  intros Ht. destruct (isOpen s) eqn:Ho; [|by rewrite read_closed].
  destruct (read_open n s k Ho Ht) as [t ->]. apply read_try_total. lia.
Qed.

(** The bytes that [read] delivers come from one [recv]. *)
Lemma read_try_recv fuel t n r s k b sk :
  read_try fuel t n r (s, k) = Ret b sk → ∃ k1 k2, k_recv (socket_ s) n k1 = (Sys b, k2).
Proof.
  revert r k. induction fuel as [|fuel IH]; intros r k; [done|]. rewrite read_try_S. cbv zeta.
  match goal with |- context [k_recv ?fd ?m ?kk] => destruct (k_recv fd m kk) as [[b'|e] k2] eqn:Hr end.
  - intros [= <- _]. eauto.
  - destruct e; try done.
    + destruct (recvTimeout_ s =? 0); [discriminate|]. destruct (_ || _); [|discriminate].
      destruct (r <? maxRecvRetries_ s); [apply IH|discriminate].
    + destruct (r <? maxRecvRetries_ s); [apply IH|discriminate].
Qed.

Lemma read_recv n s k b sk :
  timeouts_ok s → read n (s, k) = Ret b sk → ∃ k1 k2, k_recv (socket_ s) n k1 = (Sys b, k2).
Proof.
  intros Ht. destruct (isOpen s) eqn:Ho; [|rewrite read_closed by done; discriminate].
  destruct (read_open n s k Ho Ht) as [t ->]. apply read_try_recv.
Qed.

(** [write_partial] reports what [send] took, nothing when it would block, or an
    exception, after which the socket may be closed. *)
Lemma write_partial_outcome data s k :
  match write_partial data (s, k) with
  | Ret n (s', _) => s' = s ∧
      (n = 0 ∨ ∃ m k', k_send (socket_ s) data k = (Sys m, k') ∧ n = u32 m)
  | Exn (TTransportExn _) (s', _) => s' = s ∨ s' = with_fd (-1) s
  | _ => False
  end.
Proof.
  unfold write_partial, this. rewrite (M_bind_ret _ _ (s, k) s (s, k)) by done.
  destruct (isOpen s) eqn:Ho; cbn [negb]; [|by left]. rewrite sys_bind.
  destruct (k_send _ _ _) as [[n|e] k2] eqn:Hs; simpl.
  - destruct (n =? 0); simpl; [by left|]. split; [done|]. right. eauto.
  - assert (∀ k0, (close ;; throw (A := Z) (TTransportExn NOT_OPEN)) (s, k0) =
      Exn (TTransportExn NOT_OPEN) (with_fd (-1) s, k_close (socket_ s) k0)) as Hc.
    { intros k0. unfold close, this. rewrite M_bind_eq.
      rewrite (M_bind_ret _ _ (s, k0) s (s, k0)) by done. by rewrite Ho. }
    destruct e; simpl; rewrite ?Hc; auto.
Qed.

(** [TSocket::read] always comes to an end, whatever the operating system
    does: with a timeout of at most 2147483 ms it delivers bytes or throws a
    [TTransportException] ([NOT_OPEN] when there is no socket), after at most
    [maxRecvRetries_ + 1] calls of [recv], and leaves the object as it is. *)
Theorem socket_read_total n s k :
  timeouts_ok s →
  read_outcome s (read n (s, k)) ∧
  (isOpen s = false → read n (s, k) = Exn (TTransportExn NOT_OPEN) (s, k)).
Proof. intros Ht. split; [by apply read_outcome_total|apply read_closed]. Qed.
End SocketReads.

Section SocketStream.
Import Socket.
Context {K : Type} `{KernelStream K kinp kout kok intr burst}.
Implicit Types (s : TSocket) (k : K).

(** An open socket that tries as often as calls are interrupted. *)
Definition sock_ok (sk : TSocket * K) : Prop :=
  isOpen sk.1 = true ∧ timeouts_ok sk.1 ∧ kok (socket_ sk.1) sk.2 ∧ burst ≤ maxRecvRetries_ sk.1.
Definition sock_inp (sk : TSocket * K) : bytes := kinp sk.2.
Definition sock_out (sk : TSocket * K) : bytes := kout sk.2.

Lemma read_try_stream fuel t n r s k :
  sock_ok (s, k) → 0 < n → intr k ≤ maxRecvRetries_ s - r →
  Z.max 0 (maxRecvRetries_ s - r) < Z.of_nat fuel →
  ∃ k' got, read_try fuel t n r (s, k) = Ret got (s, k') ∧ sock_ok (s, k') ∧ kout k' = kout k ∧
    kinp k = got ++ kinp k' ∧ zlen got ≤ n ∧ (kinp k ≠ [] → got ≠ []).
Proof.
  revert r k. induction fuel as [|fuel IH]; intros r k (Ho & Ht & Hk & Hb) Hn Hi Hf; [lia|].
  rewrite read_try_S. cbv zeta. simpl in *.
  set (k1 := if 0 <? recvTimeout_ s then (k_gettimeofday k).2 else k).
  assert (kok (socket_ s) k1 ∧ kinp k1 = kinp k ∧ kout k1 = kout k ∧ intr k1 = intr k)
    as (Hk1 & Hin1 & Hout1 & Hint1).
  { unfold k1. destruct (_ <? _); [by apply (time_law (socket_ s))|done]. }
  pose proof (recv_law (socket_ s) n k1 Hk1 Hn) as Hr.
  destruct (k_recv _ _ _) as [[b|e] k2]; [|destruct e; try done].
  - destruct Hr as (? & Ho2 & Hi2 & ? & ?). exists k2, b. rewrite <- Hin1, <- Hout1.
    by split_and!.
  - destruct Hr as (Hk2 & Hi2 & Ho2 & Hlt). destruct (Z.ltb_spec r (maxRecvRetries_ s)); [|lia].
    destruct (IH (r + 1) k2) as (k' & got & -> & Hok' & Hout' & Hin' & Hrest); [|lia..|].
    { by split_and!. }
    exists k', got. rewrite Hi2, Hin1 in Hin', Hrest.
    split; [done|]. split; [done|]. split; [congruence|]. by split.
Qed.

#[export] Instance socket_stream_read : StreamRead t_read sock_inp sock_out sock_ok.
Proof.
  intros [s k] n Hok Hn. destruct (Hok) as (Ho & Ht & Hk & Hb).
  destruct (read_open n s k Ho Ht) as [t Hr]. change (t_read n) with (read (K := K) n). rewrite Hr.
  destruct (read_try_stream (S (Z.to_nat (maxRecvRetries_ s))) t n 0 s k Hok Hn)
    as (k' & got & -> & Hrest); [|lia|].
  { simpl in Hk, Hb. pose proof (intr_law (socket_ s) k Hk). lia. }
  by exists (s, k'), got.
Qed.

Lemma write_partial_stream data s k :
  sock_ok (s, k) → data ≠ [] → zlen data < 2 ^ 32 →
  ∃ k' n, write_partial data (s, k) = Ret n (s, k') ∧ 0 < n ≤ zlen data ∧ sock_ok (s, k') ∧
    kout k' = kout k ++ ztake n data ∧ kinp k' = kinp k.
Proof.
  intros (Ho & Ht & Hk & Hb) Hne Hlen. unfold write_partial, this. simpl in *.
  rewrite (M_bind_ret _ _ (s, k) s (s, k)) by done. rewrite Ho. cbn [negb]. rewrite sys_bind.
  pose proof (send_law (socket_ s) data k Hk Hne) as Hs.
  destruct (k_send _ _ _) as [[n|[]] k2]; try done. destruct Hs as (Hk2 & Hn & Hout & Hin). simpl.
  destruct (Z.eqb_spec n 0); [lia|]. exists k2, n. unfold u32. rewrite wrapu_small by lia.
  by split_and!; try done; lia.
Qed.

Lemma write_loop_stream fuel data sent s k :
  sock_ok (s, k) → 0 ≤ sent ≤ zlen data → zlen data < 2 ^ 32 → zlen data - sent ≤ Z.of_nat fuel →
  ∃ k', write_loop fuel data sent (s, k) = Ret tt (s, k') ∧ sock_ok (s, k') ∧
    kout k' = kout k ++ zdrop sent data ∧ kinp k' = kinp k.
Proof.
  intros Hok Hs Hlen. revert sent k Hok Hs. induction fuel as [|fuel IH]; intros sent k Hok Hs Hf.
  all: cbn [write_loop]; destruct (Z.ltb_spec sent (zlen data)); try lia.
  1,3: exists k; rewrite zdrop_ge by lia; by rewrite app_nil_r.
  assert (zlen (zdrop sent data) = zlen data - sent) as Hd by (apply zlen_zdrop; lia).
  destruct (write_partial_stream (zdrop sent data) s k Hok) as (k1 & n & Hw & Hn & Hok1 & Hout & Hin).
  { intros Hnil. rewrite Hnil, zlen_nil in Hd. lia. }
  { lia. }
  rewrite (M_bind_ret _ _ _ _ _ Hw). destruct (Z.eqb_spec n 0); [lia|].
  unfold u32. rewrite wrapu_small by lia.
  destruct (IH (sent + n) k1 Hok1) as (k2 & -> & Hok2 & Hout2 & Hin2); [lia..|].
  exists k2. split; [done|]. split; [done|]. split; [|congruence].
  rewrite Hout2, Hout, <- app_assoc. f_equal.
  rewrite <- (zdrop_zdrop n sent data) by lia. apply ztake_zdrop.
Qed.

End SocketStream.

(** ** A concrete connection

    The peer's bytes arrive at most two at a time, every second [recv] is
    interrupted, and [send] takes at most three bytes. *)
Record Pipe := mkPipe { p_in : bytes; p_out : bytes; p_intr : bool }.

#[local] Instance pipe_kernel : Kernel Pipe := {
  k_recv _ n p :=
    if p_intr p then (Err EINTR, mkPipe (p_in p) (p_out p) false)
    else (Sys (ztake (Z.min n 2) (p_in p)), mkPipe (zdrop (Z.min n 2) (p_in p)) (p_out p) true);
  k_recv_peek _ n p := (Sys (ztake n (p_in p)), p);
  k_send _ data p :=
    (Sys (Z.min 3 (zlen data)), mkPipe (p_in p) (p_out p ++ ztake (Z.min 3 (zlen data)) data) (p_intr p));
  k_close _ p := p;
  k_setsockopt _ _ p := p;
  k_gettimeofday p := ((0, 0), p) }.

Definition pipe_intr (p : Pipe) : Z := if p_intr p then 1 else 0.

#[local] Instance pipe_stream : KernelStream Pipe p_in p_out (λ _ _, True) pipe_intr 1.
Proof.
  split; simpl.
  - intros _ p _. unfold pipe_intr. destruct (p_intr p); lia.
  - done.
  - intros _ n p _ Hn. unfold pipe_intr. destruct (p_intr p) eqn:Hp; simpl; [by split_and!|].
    rewrite ztake_zdrop, zlen_ztake_min by lia. split_and!; [done..|lia|].
    intros Hne Hnil. apply (f_equal (zlen (A := Z))) in Hnil.
    rewrite zlen_ztake_min, zlen_nil in Hnil by lia.
    apply Hne, zlen_zero_nil. pose proof (zlen_nonneg (p_in p)). lia.
  - intros _ data p _ Hne. assert (0 < zlen data).
    { pose proof (zlen_nonneg data). destruct (decide (zlen data = 0)) as [Hz|]; [|lia].
      by apply zlen_zero_nil in Hz. }
    split_and!; [done|lia..|done|done].
Qed.

#[local] Existing Instance Socket.socket_transport.

Lemma socket_read_total_witness :
  read_outcome (TSocket_of 7) (Socket.read 4 (TSocket_of 7, mkPipe [1; 2; 3] [] true)) ∧
  Socket.read 4 (TSocket_of 7, mkPipe [1; 2; 3] [] true) =
    Ret [1; 2] (TSocket_of 7, mkPipe [3] [] true).
Proof.
  split; [|vm_compute; reflexivity].
  apply (socket_read_total 4 (TSocket_of 7) (mkPipe [1; 2; 3] [] true)).
  unfold timeouts_ok. simpl. lia.
Defined.

