(* ===== verification/NonblockingServer.v ===== *)
(** * [TNonblockingServer]

    [server/TNonblockingServer.{h,cpp}]: the server in front of the storage
    servers and of the view service.  It accepts connections, collects the bytes
    of a frame as they arrive, hands the frame to the processor in a
    [TMemoryBuffer], and sends the reply as a frame.

    The objects of class [TConnection] live in the map [connections], so that the
    use of a deleted one is a fault; a pointer is a key of it.  libevent, the
    notification pipes, the processor that the thrift compiler generates and the
    thread manager are parameters.  The handlers of events run to their end one
    after the other, as they do in the one I/O thread of the default
    configuration.  The transport factories are the default ones, which hand out
    the transport they are given. *)

From S2P Require Import Prelude Bytes Transport BufferTransports Socket.
From stdpp Require Import base gmap list.
From Stdlib Require Import ZArith Lia.

Local Open Scope Z_scope.

Inductive TSocketState := SOCKET_RECV_FRAMING | SOCKET_RECV | SOCKET_SEND.

Inductive TAppState :=
| APP_INIT | APP_READ_FRAME_SIZE | APP_READ_REQUEST | APP_WAIT_TASK | APP_SEND_RESULT
| APP_CLOSE_CONNECTION.

Inductive TOverloadAction :=
| T_OVERLOAD_NO_ACTION | T_OVERLOAD_CLOSE_ON_ACCEPT | T_OVERLOAD_DRAIN_TASK_QUEUE.

#[export] Instance TSocketState_eq_dec : EqDecision TSocketState.
Proof. solve_decision. Defined.
#[export] Instance TAppState_eq_dec : EqDecision TAppState.
Proof. solve_decision. Defined.
#[export] Instance TOverloadAction_eq_dec : EqDecision TOverloadAction.
Proof. solve_decision. Defined.

(** The flags of libevent. *)
Definition EV_READ : Z := 2.
Definition EV_WRITE : Z := 4.
Definition EV_PERSIST : Z := 16.

(** ** Parameters *)

(** [event_set], [event_base_set] and [event_add] for the connection, the
    descriptor and the flags, and [event_del]; both report success. *)
Class Libevent (K : Type) := {
  ev_add : Z → Z → Z → K → bool * K;
  ev_del : Z → K → bool * K }.

(** Sending a pointer to an I/O thread through its pipe reports success;
    receiving one is possible, finds an incomplete pointer, a closed pipe, or an
    error other than [EWOULDBLOCK].  [::close] of a descriptor. *)
Inductive pipe_read := PipeReady | PipePartial | PipeClosed | PipeError.
Class Pipes (K : Type) := {
  k_pipe_send : Z → K → bool * K;
  k_pipe_recv : Z → K → pipe_read * K;
  k_close_fd : Z → K → K }.

(** [TServerEventHandler], which a server may do without. *)
Record EventHandler (P : Type) := mkEH {
  eh_createContext : P → P; eh_processContext : P → P; eh_deleteContext : P → P }.
Arguments eh_createContext {P}.
Arguments eh_processContext {P}.
Arguments eh_deleteContext {P}.

(** [TProcessor::process] reads a request from the input transport and writes the
    reply to the output transport. *)
Class Processor (P : Type) := {
  pr_process : M texn (P * TMemoryBuffer * TMemoryBuffer) bool;
  pr_handler : option (EventHandler P) }.

(** [ThreadManager::add] and [removeNextPending]; a task belongs to a
    connection. *)
Inductive tm_added (TM : Type) := Added (tm : TM) | IllegalState | TooManyPending.
Arguments Added {TM} tm.
Arguments IllegalState {TM}.
Arguments TooManyPending {TM}.
Class ThreadManager (TM : Type) := {
  tm_add : Z → TM → tm_added TM;
  tm_removeNextPending : TM → option Z * TM }.

(** ** State *)

(** [writeBuffer_] points into the block of [outputTransport_]: it is an offset
    there. *)
Record TConnection := mkConn {
  ioThread_ : option Z;
  tSocket_ : TSocket;
  eventFlags_ : Z;
  socketState_ : TSocketState;
  appState_ : TAppState;
  readWant_ : Z;
  readBufferPos_ : Z;
  readBuffer_ : bytes;
  readBufferSize_ : Z;
  writeBuffer_ : option Z;
  writeBufferSize_ : Z;
  writeBufferPos_ : Z;
  largestWriteBufferSize_ : Z;
  callsForResize_ : Z;
  inputTransport_ : TMemoryBuffer;
  outputTransport_ : TMemoryBuffer }.

Record Config := mkConfig {
  connectionStackLimit_ : Z;
  maxActiveProcessors_ : Z;
  maxConnections_ : Z;
  maxFrameSize_ : Z;
  overloadAction_ : TOverloadAction;
  writeBufferDefaultSize_ : Z;
  idleReadBufferLimit_ : Z;
  idleWriteBufferLimit_ : Z;
  resizeBufferEveryN_ : Z }.

(** The defaults that [init] sets. *)
Definition default_config : Config :=
  mkConfig 1024 (2 ^ 31 - 1) (2 ^ 31 - 1) (256 * 1024 * 1024) T_OVERLOAD_NO_ACTION 1024 1024 1024 512.

(** [ioThreads_] are the pointers in the notification pipes of the I/O threads,
    null among them; [nextId] is the next address for a new connection, [events]
    the events registered with libevent. *)
Record Server {P TM K : Type} := mkServer {
  cfg : Config;
  ioThreads_ : list (list (option Z));
  nextIOThread_ : Z;
  threadManager_ : option TM;
  numTConnections_ : Z;
  numActiveProcessors_ : Z;
  overloaded_ : bool;
  nConnectionsDropped_ : Z;
  nTotalConnectionsDropped_ : Z;
  connectionStack_ : list Z;
  connections : gmap Z TConnection;
  nextId : Z;
  events : gmap Z Z;
  processor_ : P;
  kernel : K }.
Arguments Server : clear implicits.
Arguments mkServer {P TM K}.

Module Conn.
Definition set_ioThread (v : option Z) (c : TConnection) : TConnection :=
  mkConn v (tSocket_ c) (eventFlags_ c) (socketState_ c) (appState_ c) (readWant_ c)
    (readBufferPos_ c) (readBuffer_ c) (readBufferSize_ c) (writeBuffer_ c) (writeBufferSize_ c)
    (writeBufferPos_ c) (largestWriteBufferSize_ c) (callsForResize_ c) (inputTransport_ c)
    (outputTransport_ c).
Definition set_tSocket (v : TSocket) (c : TConnection) : TConnection :=
  mkConn (ioThread_ c) v (eventFlags_ c) (socketState_ c) (appState_ c) (readWant_ c)
    (readBufferPos_ c) (readBuffer_ c) (readBufferSize_ c) (writeBuffer_ c) (writeBufferSize_ c)
    (writeBufferPos_ c) (largestWriteBufferSize_ c) (callsForResize_ c) (inputTransport_ c)
    (outputTransport_ c).
Definition set_eventFlags (v : Z) (c : TConnection) : TConnection :=
  mkConn (ioThread_ c) (tSocket_ c) v (socketState_ c) (appState_ c) (readWant_ c)
    (readBufferPos_ c) (readBuffer_ c) (readBufferSize_ c) (writeBuffer_ c) (writeBufferSize_ c)
    (writeBufferPos_ c) (largestWriteBufferSize_ c) (callsForResize_ c) (inputTransport_ c)
    (outputTransport_ c).
Definition set_socketState (v : TSocketState) (c : TConnection) : TConnection :=
  mkConn (ioThread_ c) (tSocket_ c) (eventFlags_ c) v (appState_ c) (readWant_ c)
    (readBufferPos_ c) (readBuffer_ c) (readBufferSize_ c) (writeBuffer_ c) (writeBufferSize_ c)
    (writeBufferPos_ c) (largestWriteBufferSize_ c) (callsForResize_ c) (inputTransport_ c)
    (outputTransport_ c).
Definition set_appState (v : TAppState) (c : TConnection) : TConnection :=
  mkConn (ioThread_ c) (tSocket_ c) (eventFlags_ c) (socketState_ c) v (readWant_ c)
    (readBufferPos_ c) (readBuffer_ c) (readBufferSize_ c) (writeBuffer_ c) (writeBufferSize_ c)
    (writeBufferPos_ c) (largestWriteBufferSize_ c) (callsForResize_ c) (inputTransport_ c)
    (outputTransport_ c).
Definition set_readWant (v : Z) (c : TConnection) : TConnection :=
  mkConn (ioThread_ c) (tSocket_ c) (eventFlags_ c) (socketState_ c) (appState_ c) v
    (readBufferPos_ c) (readBuffer_ c) (readBufferSize_ c) (writeBuffer_ c) (writeBufferSize_ c)
    (writeBufferPos_ c) (largestWriteBufferSize_ c) (callsForResize_ c) (inputTransport_ c)
    (outputTransport_ c).
Definition set_readBufferPos (v : Z) (c : TConnection) : TConnection :=
  mkConn (ioThread_ c) (tSocket_ c) (eventFlags_ c) (socketState_ c) (appState_ c) (readWant_ c) v
    (readBuffer_ c) (readBufferSize_ c) (writeBuffer_ c) (writeBufferSize_ c) (writeBufferPos_ c)
    (largestWriteBufferSize_ c) (callsForResize_ c) (inputTransport_ c) (outputTransport_ c).
Definition set_readBuffer (v : bytes) (c : TConnection) : TConnection :=
  mkConn (ioThread_ c) (tSocket_ c) (eventFlags_ c) (socketState_ c) (appState_ c) (readWant_ c)
    (readBufferPos_ c) v (readBufferSize_ c) (writeBuffer_ c) (writeBufferSize_ c)
    (writeBufferPos_ c) (largestWriteBufferSize_ c) (callsForResize_ c) (inputTransport_ c)
    (outputTransport_ c).
Definition set_readBufferSize (v : Z) (c : TConnection) : TConnection :=
  mkConn (ioThread_ c) (tSocket_ c) (eventFlags_ c) (socketState_ c) (appState_ c) (readWant_ c)
    (readBufferPos_ c) (readBuffer_ c) v (writeBuffer_ c) (writeBufferSize_ c) (writeBufferPos_ c)
    (largestWriteBufferSize_ c) (callsForResize_ c) (inputTransport_ c) (outputTransport_ c).
Definition set_writeBuffer (v : option Z) (c : TConnection) : TConnection :=
  mkConn (ioThread_ c) (tSocket_ c) (eventFlags_ c) (socketState_ c) (appState_ c) (readWant_ c)
    (readBufferPos_ c) (readBuffer_ c) (readBufferSize_ c) v (writeBufferSize_ c)
    (writeBufferPos_ c) (largestWriteBufferSize_ c) (callsForResize_ c) (inputTransport_ c)
    (outputTransport_ c).
Definition set_writeBufferSize (v : Z) (c : TConnection) : TConnection :=
  mkConn (ioThread_ c) (tSocket_ c) (eventFlags_ c) (socketState_ c) (appState_ c) (readWant_ c)
    (readBufferPos_ c) (readBuffer_ c) (readBufferSize_ c) (writeBuffer_ c) v (writeBufferPos_ c)
    (largestWriteBufferSize_ c) (callsForResize_ c) (inputTransport_ c) (outputTransport_ c).
Definition set_writeBufferPos (v : Z) (c : TConnection) : TConnection :=
  mkConn (ioThread_ c) (tSocket_ c) (eventFlags_ c) (socketState_ c) (appState_ c) (readWant_ c)
    (readBufferPos_ c) (readBuffer_ c) (readBufferSize_ c) (writeBuffer_ c) (writeBufferSize_ c) v
    (largestWriteBufferSize_ c) (callsForResize_ c) (inputTransport_ c) (outputTransport_ c).
Definition set_largestWriteBufferSize (v : Z) (c : TConnection) : TConnection :=
  mkConn (ioThread_ c) (tSocket_ c) (eventFlags_ c) (socketState_ c) (appState_ c) (readWant_ c)
    (readBufferPos_ c) (readBuffer_ c) (readBufferSize_ c) (writeBuffer_ c) (writeBufferSize_ c)
    (writeBufferPos_ c) v (callsForResize_ c) (inputTransport_ c) (outputTransport_ c).
Definition set_callsForResize (v : Z) (c : TConnection) : TConnection :=
  mkConn (ioThread_ c) (tSocket_ c) (eventFlags_ c) (socketState_ c) (appState_ c) (readWant_ c)
    (readBufferPos_ c) (readBuffer_ c) (readBufferSize_ c) (writeBuffer_ c) (writeBufferSize_ c)
    (writeBufferPos_ c) (largestWriteBufferSize_ c) v (inputTransport_ c) (outputTransport_ c).
Definition set_inputTransport (v : TMemoryBuffer) (c : TConnection) : TConnection :=
  mkConn (ioThread_ c) (tSocket_ c) (eventFlags_ c) (socketState_ c) (appState_ c) (readWant_ c)
    (readBufferPos_ c) (readBuffer_ c) (readBufferSize_ c) (writeBuffer_ c) (writeBufferSize_ c)
    (writeBufferPos_ c) (largestWriteBufferSize_ c) (callsForResize_ c) v (outputTransport_ c).
Definition set_outputTransport (v : TMemoryBuffer) (c : TConnection) : TConnection :=
  mkConn (ioThread_ c) (tSocket_ c) (eventFlags_ c) (socketState_ c) (appState_ c) (readWant_ c)
    (readBufferPos_ c) (readBuffer_ c) (readBufferSize_ c) (writeBuffer_ c) (writeBufferSize_ c)
    (writeBufferPos_ c) (largestWriteBufferSize_ c) (callsForResize_ c) (inputTransport_ c) v.
End Conn.

Module Srv.
Section Srv.
Context {P TM K : Type}.
Definition upd_ioThreads (v : list (list (option Z))) (s : Server P TM K) : Server P TM K :=
  mkServer (cfg s) v (nextIOThread_ s) (threadManager_ s) (numTConnections_ s)
    (numActiveProcessors_ s) (overloaded_ s) (nConnectionsDropped_ s)
    (nTotalConnectionsDropped_ s) (connectionStack_ s) (connections s) (nextId s) (events s)
    (processor_ s) (kernel s).
Definition upd_nextIOThread (v : Z) (s : Server P TM K) : Server P TM K :=
  mkServer (cfg s) (ioThreads_ s) v (threadManager_ s) (numTConnections_ s)
    (numActiveProcessors_ s) (overloaded_ s) (nConnectionsDropped_ s)
    (nTotalConnectionsDropped_ s) (connectionStack_ s) (connections s) (nextId s) (events s)
    (processor_ s) (kernel s).
Definition upd_threadManager (v : option TM) (s : Server P TM K) : Server P TM K :=
  mkServer (cfg s) (ioThreads_ s) (nextIOThread_ s) v (numTConnections_ s)
    (numActiveProcessors_ s) (overloaded_ s) (nConnectionsDropped_ s)
    (nTotalConnectionsDropped_ s) (connectionStack_ s) (connections s) (nextId s) (events s)
    (processor_ s) (kernel s).
Definition upd_numTConnections (v : Z) (s : Server P TM K) : Server P TM K :=
  mkServer (cfg s) (ioThreads_ s) (nextIOThread_ s) (threadManager_ s) v (numActiveProcessors_ s)
    (overloaded_ s) (nConnectionsDropped_ s) (nTotalConnectionsDropped_ s) (connectionStack_ s)
    (connections s) (nextId s) (events s) (processor_ s) (kernel s).
Definition upd_numActiveProcessors (v : Z) (s : Server P TM K) : Server P TM K :=
  mkServer (cfg s) (ioThreads_ s) (nextIOThread_ s) (threadManager_ s) (numTConnections_ s) v
    (overloaded_ s) (nConnectionsDropped_ s) (nTotalConnectionsDropped_ s) (connectionStack_ s)
    (connections s) (nextId s) (events s) (processor_ s) (kernel s).
Definition upd_overloaded (v : bool) (s : Server P TM K) : Server P TM K :=
  mkServer (cfg s) (ioThreads_ s) (nextIOThread_ s) (threadManager_ s) (numTConnections_ s)
    (numActiveProcessors_ s) v (nConnectionsDropped_ s) (nTotalConnectionsDropped_ s)
    (connectionStack_ s) (connections s) (nextId s) (events s) (processor_ s) (kernel s).
Definition upd_nConnectionsDropped (v : Z) (s : Server P TM K) : Server P TM K :=
  mkServer (cfg s) (ioThreads_ s) (nextIOThread_ s) (threadManager_ s) (numTConnections_ s)
    (numActiveProcessors_ s) (overloaded_ s) v (nTotalConnectionsDropped_ s) (connectionStack_ s)
    (connections s) (nextId s) (events s) (processor_ s) (kernel s).
Definition upd_nTotalConnectionsDropped (v : Z) (s : Server P TM K) : Server P TM K :=
  mkServer (cfg s) (ioThreads_ s) (nextIOThread_ s) (threadManager_ s) (numTConnections_ s)
    (numActiveProcessors_ s) (overloaded_ s) (nConnectionsDropped_ s) v (connectionStack_ s)
    (connections s) (nextId s) (events s) (processor_ s) (kernel s).
Definition upd_connectionStack (v : list Z) (s : Server P TM K) : Server P TM K :=
  mkServer (cfg s) (ioThreads_ s) (nextIOThread_ s) (threadManager_ s) (numTConnections_ s)
    (numActiveProcessors_ s) (overloaded_ s) (nConnectionsDropped_ s)
    (nTotalConnectionsDropped_ s) v (connections s) (nextId s) (events s) (processor_ s)
    (kernel s).
Definition upd_connections (v : gmap Z TConnection) (s : Server P TM K) : Server P TM K :=
  mkServer (cfg s) (ioThreads_ s) (nextIOThread_ s) (threadManager_ s) (numTConnections_ s)
    (numActiveProcessors_ s) (overloaded_ s) (nConnectionsDropped_ s)
    (nTotalConnectionsDropped_ s) (connectionStack_ s) v (nextId s) (events s) (processor_ s)
    (kernel s).
Definition upd_nextId (v : Z) (s : Server P TM K) : Server P TM K :=
  mkServer (cfg s) (ioThreads_ s) (nextIOThread_ s) (threadManager_ s) (numTConnections_ s)
    (numActiveProcessors_ s) (overloaded_ s) (nConnectionsDropped_ s)
    (nTotalConnectionsDropped_ s) (connectionStack_ s) (connections s) v (events s) (processor_ s)
    (kernel s).
Definition upd_events (v : gmap Z Z) (s : Server P TM K) : Server P TM K :=
  mkServer (cfg s) (ioThreads_ s) (nextIOThread_ s) (threadManager_ s) (numTConnections_ s)
    (numActiveProcessors_ s) (overloaded_ s) (nConnectionsDropped_ s)
    (nTotalConnectionsDropped_ s) (connectionStack_ s) (connections s) (nextId s) v (processor_ s)
    (kernel s).
Definition upd_processor (v : P) (s : Server P TM K) : Server P TM K :=
  mkServer (cfg s) (ioThreads_ s) (nextIOThread_ s) (threadManager_ s) (numTConnections_ s)
    (numActiveProcessors_ s) (overloaded_ s) (nConnectionsDropped_ s)
    (nTotalConnectionsDropped_ s) (connectionStack_ s) (connections s) (nextId s) (events s) v
    (kernel s).
Definition upd_kernel (v : K) (s : Server P TM K) : Server P TM K :=
  mkServer (cfg s) (ioThreads_ s) (nextIOThread_ s) (threadManager_ s) (numTConnections_ s)
    (numActiveProcessors_ s) (overloaded_ s) (nConnectionsDropped_ s)
    (nTotalConnectionsDropped_ s) (connectionStack_ s) (connections s) (nextId s) (events s)
    (processor_ s) v.
End Srv.
End Srv.
Import Conn Srv.

Module Nonblocking.
Section Nonblocking.
Context {P TM K : Type} `{Malloc} `{Kernel K} `{Libevent K} `{Pipes K} `{Processor P}
  `{ThreadManager TM}.
(** [hysteresis n max] is [n <= overloadHysteresis_ * max] in [double]s. *)
Context (hysteresis : Z → Z → bool).

Abbreviation Srv := (Server P TM K).
Abbreviation NB := (M texn Srv).

(** ** Access to the objects *)

Definition self : NB Srv := λ s, Ret s s.

Definition get_conn (c : Z) : NB TConnection := λ s,
  match connections s !! c with Some cn => Ret cn s | None => Stuck UseAfterFree end.

Definition upd_conn (c : Z) (f : TConnection → TConnection) : NB unit :=
  let* cn := get_conn c in modify (λ s, upd_connections (<[c := f cn]> (connections s)) s).

Definition on_kernel {A} (call : K → A * K) : NB A := λ s,
  let (a, k) := call (kernel s) in Ret a (upd_kernel k s).

(** An operation of the socket, or of the output buffer, of a connection. *)
Definition on_socket {A} (c : Z) (m : M texn (TSocket * K) A) : NB A := λ s,
  match connections s !! c with
  | None => Stuck UseAfterFree
  | Some cn =>
      let put sk := upd_kernel sk.2 (upd_connections (<[c := set_tSocket sk.1 cn]> (connections s)) s) in
      match m (tSocket_ cn, kernel s) with
      | Ret a sk => Ret a (put sk)
      | Exn e sk => Exn e (put sk)
      | Stuck f => Stuck f
      end
  end.

Definition on_output {A} (c : Z) (m : M texn TMemoryBuffer A) : NB A := λ s,
  match connections s !! c with
  | None => Stuck UseAfterFree
  | Some cn =>
      let put b := upd_connections (<[c := set_outputTransport b cn]> (connections s)) s in
      match m (outputTransport_ cn) with
      | Ret a b => Ret a (put b)
      | Exn e b => Exn e (put b)
      | Stuck f => Stuck f
      end
  end.

Definition on_handler (f : EventHandler P → P → P) : NB unit := modify (λ s,
  match pr_handler with Some h => upd_processor (f h (processor_ s)) s | None => s end).

(** ** The counter of active processors *)

Definition incrementActiveProcessors : NB unit :=
  modify (λ s, upd_numActiveProcessors (u64 (numActiveProcessors_ s + 1)) s).
Definition decrementActiveProcessors : NB unit := modify (λ s,
  if 0 <? numActiveProcessors_ s then upd_numActiveProcessors (numActiveProcessors_ s - 1) s else s).

(** ** Registration with libevent *)

Definition event_del (c : Z) : NB bool :=
  let* ok := on_kernel (ev_del c) in
  (when (ok : bool) then modify (λ s, upd_events (delete c (events s)) s)) ;; mret ok.

Definition event_add (c flags : Z) : NB unit :=
  let* cn := get_conn c in
  match ioThread_ cn with
  | None => stuck NullPointer
  | Some _ =>
      let* ok := on_kernel (ev_add c (socket_ (tSocket_ cn)) flags) in
      when (ok : bool) then modify (λ s, upd_events (<[c := flags]> (events s)) s)
  end.

Definition setFlags (c flags : Z) : NB unit :=
  let* cn := get_conn c in
  if eventFlags_ cn =? flags then mret tt else
  let* ok := if negb (eventFlags_ cn =? 0) then event_del c else mret true in
  if negb (ok : bool) then mret tt else
  upd_conn c (set_eventFlags flags) ;;
  if flags =? 0 then mret tt else event_add c flags.

Definition setRead (c : Z) : NB unit := setFlags c (Z.lor EV_READ EV_PERSIST).
Definition setWrite (c : Z) : NB unit := setFlags c (Z.lor EV_WRITE EV_PERSIST).
Definition setIdle (c : Z) : NB unit := setFlags c 0.

(** ** The pool of connections *)

Definition checkIdleBufferMemLimit (c readLimit writeLimit : Z) : NB unit :=
  let* cn := get_conn c in
  (when (0 <? readLimit) && (readLimit <? readBufferSize_ cn) then
     upd_conn c (λ cn, set_readBufferSize 0 (set_readBuffer [] cn))) ;;
  when (0 <? writeLimit) && (writeLimit <? largestWriteBufferSize_ cn) then
    (let* sz := gets (λ s, writeBufferDefaultSize_ (cfg s)) in
     on_output c (MemoryBuffer.resetBuffer_sized sz) ;;
     upd_conn c (set_largestWriteBufferSize 0)).

Definition returnConnection (c : Z) : NB unit :=
  let* s := self in
  if negb (connectionStackLimit_ (cfg s) =? 0) &&
     (connectionStackLimit_ (cfg s) <=? zlen (connectionStack_ s)) then
    get_conn c ;;
    modify (λ s, upd_connections (delete c (connections s)) s) ;;
    modify (λ s, upd_numTConnections (u64 (numTConnections_ s - 1)) s)
  else
    checkIdleBufferMemLimit c (idleReadBufferLimit_ (cfg s)) (idleWriteBufferLimit_ (cfg s)) ;;
    modify (λ s, upd_connectionStack (c :: connectionStack_ s) s).

Definition close (c : Z) : NB unit :=
  event_del c ;;
  on_handler eh_deleteContext ;;
  upd_conn c (set_ioThread None) ;;
  on_socket c Socket.close ;;
  returnConnection c.

Definition init (c socket thread : Z) : NB unit :=
  on_socket c (Socket.setSocketFD socket) ;;
  upd_conn c (λ cn,
    set_ioThread (Some thread) $ set_appState APP_INIT $ set_eventFlags 0 $
    set_readBufferPos 0 $ set_readWant 0 $
    set_writeBuffer None $ set_writeBufferSize 0 $ set_writeBufferPos 0 $
    set_largestWriteBufferSize 0 $
    set_socketState SOCKET_RECV_FRAMING $ set_callsForResize 0 cn) ;;
  on_handler eh_createContext.

(** [new TConnection]; the input transport observes the null pointer. *)
Definition new_TConnection (socket thread : Z) : NB Z :=
  let* s := self in
  match MemoryBuffer.TMemoryBuffer_sized (writeBufferDefaultSize_ (cfg s)) with
  | inl e => throw e
  | inr out =>
      let c := nextId s in
      let cn := mkConn (Some thread) TSocket_new 0 SOCKET_RECV_FRAMING APP_INIT 0 0 [] 0 None 0 0 0 0
                  (MemoryBuffer.initCommon [] 0 false 0) out in
      modify (λ s, upd_nextId (c + 1) (upd_connections (<[c := cn]> (connections s)) s)) ;;
      init c socket thread ;; mret c
  end.

Definition createConnection (socket : Z) : NB Z :=
  let* s := self in
  if negb (nextIOThread_ s <? zlen (ioThreads_ s)) then stuck AssertFailed else
  let selectedThreadIdx := nextIOThread_ s in
  modify (upd_nextIOThread (u32 (nextIOThread_ s + 1) mod zlen (ioThreads_ s))) ;;
  match connectionStack_ s with
  | [] =>
      let* c := new_TConnection socket selectedThreadIdx in
      modify (λ s, upd_numTConnections (u64 (numTConnections_ s + 1)) s) ;; mret c
  | c :: stack =>
      modify (upd_connectionStack stack) ;; init c socket selectedThreadIdx ;; mret c
  end.

(** [TNonblockingIOThread::notify]. *)
Definition notify (thread : Z) (conn : option Z) : NB bool :=
  let* ok := on_kernel (k_pipe_send thread) in
  (when (ok : bool) then modify (λ s,
     upd_ioThreads (alter (λ q, q ++ [conn]) (Z.to_nat thread) (ioThreads_ s)) s)) ;; mret ok.

Definition notifyIOThread (c : Z) : NB bool :=
  let* cn := get_conn c in
  match ioThread_ cn with None => stuck NullPointer | Some t => notify t (Some c) end.

Definition forceClose (c : Z) : NB unit :=
  upd_conn c (set_appState APP_CLOSE_CONNECTION) ;;
  let* ok := notifyIOThread c in
  if ok : bool then mret tt else throw TPlainExn.

(** ** The states of a connection *)

(** From the label [LABEL_APP_INIT] on. *)
Definition app_init (c : Z) : NB unit :=
  upd_conn c (λ cn,
    set_writeBuffer None $ set_writeBufferPos 0 $ set_writeBufferSize 0 $
    set_socketState SOCKET_RECV_FRAMING $ set_appState APP_READ_FRAME_SIZE $
    set_readBufferPos 0 cn) ;;
  setRead c.

(** [case APP_SEND_RESULT], which falls through. *)
Definition app_send_result (c : Z) : NB unit :=
  let* n := gets (λ s, resizeBufferEveryN_ (cfg s)) in
  upd_conn c (λ cn,
    if largestWriteBufferSize_ cn <? writeBufferSize_ cn
    then set_largestWriteBufferSize (writeBufferSize_ cn) cn else cn) ;;
  (when (0 <? n) then
     (upd_conn c (λ cn, set_callsForResize (callsForResize_ cn + 1) cn) ;;
      let* cn := get_conn c in
      when (n <=? callsForResize_ cn) then
        (let* r := gets (λ s, idleReadBufferLimit_ (cfg s)) in
         let* w := gets (λ s, idleWriteBufferLimit_ (cfg s)) in
         checkIdleBufferMemLimit c r w ;;
         upd_conn c (set_callsForResize 0)))) ;;
  app_init c.

(** [case APP_WAIT_TASK]: the reply is in the output transport. *)
Definition app_wait_task (c : Z) : NB unit :=
  decrementActiveProcessors ;;
  let* cn := get_conn c in
  let (ptr, size) := MemoryBuffer.getBuffer (outputTransport_ cn) in
  upd_conn c (λ cn, set_writeBuffer (Some ptr) (set_writeBufferSize size cn)) ;;
  if 4 <? size then
    upd_conn c (λ cn, set_writeBufferPos 0 (set_socketState SOCKET_SEND cn)) ;;
    on_output c (λ b,
      if ptr + 4 <=? zlen (buffer_ b) then
        Ret tt (mkMB (memcpy (buffer_ b) ptr (to_be 4 (u32 (size - 4)))) (bufferSize_ b) (rBase_ b)
                  (rBound_ b) (wBase_ b) (wBound_ b) (owner_ b))
      else Stuck OutOfBounds) ;;
    upd_conn c (set_appState APP_SEND_RESULT) ;;
    setWrite c
  else app_init c.

(** The call of the processor; every exception is caught. *)
Definition call_process (c : Z) : NB bool := λ s,
  match connections s !! c with
  | None => Stuck UseAfterFree
  | Some cn =>
      let p := match pr_handler with
               | Some h => eh_processContext h (processor_ s) | None => processor_ s end in
      let put '(p', i, o) := upd_processor p'
        (upd_connections (<[c := set_inputTransport i (set_outputTransport o cn)]> (connections s)) s) in
      match pr_process (p, inputTransport_ cn, outputTransport_ cn) with
      | Ret b pio => Ret b (put pio)
      | Exn e pio => Exn e (put pio)
      | Stuck f => Stuck f
      end
  end.

(** [case APP_READ_REQUEST]: the whole frame is in the read buffer. *)
Definition app_read_request (c : Z) : NB unit :=
  let* cn := get_conn c in
  let* i := (λ s, match MemoryBuffer.resetBuffer_of (ztake (readBufferPos_ cn) (readBuffer_ cn)) OBSERVE
                          (inputTransport_ cn) with
                  | Ret _ i => Ret i s | Exn e _ => Exn e s | Stuck f => Stuck f end) in
  upd_conn c (set_inputTransport i) ;;
  on_output c (modify MemoryBuffer.resetBuffer) ;;
  on_output c (MemoryBuffer.getWritePtr 4) ;;
  on_output c (MemoryBuffer.wroteBytes 4) ;;
  incrementActiveProcessors ;;
  let* tm := gets threadManager_ in
  match tm with
  | Some tm =>
      upd_conn c (set_appState APP_WAIT_TASK) ;;
      match tm_add c tm with
      | Added tm' => modify (upd_threadManager (Some tm'))
      | IllegalState => close c
      | TooManyPending => throw TPlainExn
      end ;;
      setIdle c
  | None =>
      let* ok := catch (call_process c ;; mret true)
                       (λ _, decrementActiveProcessors ;; close c ;; mret false) in
      if ok : bool then app_wait_task c else mret tt
  end.

(** The loop that doubles the size of the read buffer. *)
Fixpoint double_size (fuel : nat) (want newSize : Z) : option Z :=
  if newSize <? want then
    match fuel with O => None | S fuel' => double_size fuel' want (u32 (newSize * 2)) end
  else Some newSize.

(** [case APP_READ_FRAME_SIZE]: the size of the frame is known.  When the buffer
    is too small, 33 doublings reach every size up to 2 GiB. *)
Definition app_read_frame_size (c : Z) : NB unit :=
  let* cn := get_conn c in
  (when (readBufferSize_ cn <? readWant_ cn) then
     (let size0 := if readBufferSize_ cn =? 0 then 1 else readBufferSize_ cn in
      upd_conn c (set_readBufferSize size0) ;;
      match double_size 33 (readWant_ cn) size0 with
      | None => stuck OutOfFuel
      | Some newSize =>
          if malloc_ok newSize then
            upd_conn c (λ cn, set_readBuffer (MemoryBuffer.realloc (readBuffer_ cn) newSize)
                                (set_readBufferSize newSize cn))
          else throw TBadAlloc
      end)) ;;
  upd_conn c (λ cn,
    set_readBufferPos 0 $ set_socketState SOCKET_RECV $ set_appState APP_READ_REQUEST cn).

Definition transition (c : Z) : NB unit :=
  let* cn := get_conn c in
  match ioThread_ cn with
  | None => stuck AssertFailed
  | Some _ =>
      match appState_ cn with
      | APP_READ_REQUEST => app_read_request c
      | APP_WAIT_TASK => app_wait_task c
      | APP_SEND_RESULT => app_send_result c
      | APP_INIT => app_init c
      | APP_READ_FRAME_SIZE => app_read_frame_size c
      | APP_CLOSE_CONNECTION => decrementActiveProcessors ;; close c
      end
  end.

(** ** The socket of a connection is ready *)

Definition to_le (n : nat) (z : Z) : bytes := reverse (to_be n z).
Definition of_le (b : bytes) : Z := of_be (reverse b).

(** [tSocket_->read] into a block of [len] bytes; [None] stands for a caught
    exception. *)
Definition socket_read (c len : Z) : NB (option bytes) :=
  let* got := catch (let* b := on_socket c (Socket.read len) in mret (Some b)) (λ _, mret None) in
  match got with
  | Some b => if zlen b <=? len then mret (Some b) else stuck OutOfBounds
  | None => mret None
  end.

Definition work_recv_framing (c : Z) : NB unit :=
  let* cn := get_conn c in
  let buf := to_le 4 (readWant_ cn) in
  let* got := socket_read c (u32 (4 - readBufferPos_ cn)) in
  match got with
  | None => close c
  | Some [] => close c
  | Some b =>
      let pos := u32 (readBufferPos_ cn + zlen b) in
      let buf := memcpy buf (readBufferPos_ cn) b in
      upd_conn c (set_readBufferPos pos) ;;
      if pos <? 4 then upd_conn c (set_readWant (of_le buf)) else
      let want := of_be buf in
      upd_conn c (set_readWant want) ;;
      let* maxFrameSize := gets (λ s, maxFrameSize_ (cfg s)) in
      if maxFrameSize <? want then close c else transition c
  end.

Definition work_recv (c : Z) : NB unit :=
  let* cn := get_conn c in
  if negb (readBufferPos_ cn <? readWant_ cn) then stuck AssertFailed else
  let fetch := u32 (readWant_ cn - readBufferPos_ cn) in
  if zlen (readBuffer_ cn) <? readBufferPos_ cn + fetch then stuck OutOfBounds else
  let* got := socket_read c fetch in
  match got with
  | None => close c
  | Some b =>
      if 0 <? i32 (zlen b) then
        let pos := u32 (readBufferPos_ cn + zlen b) in
        upd_conn c (λ cn, set_readBufferPos pos
                            (set_readBuffer (memcpy (readBuffer_ cn) (readBufferPos_ cn) b) cn)) ;;
        if negb (pos <=? readWant_ cn) then stuck AssertFailed else
        if pos =? readWant_ cn then transition c else mret tt
      else close c
  end.

Definition work_send (c : Z) : NB unit :=
  let* cn := get_conn c in
  if negb (writeBufferPos_ cn <=? writeBufferSize_ cn) then stuck AssertFailed else
  if writeBufferPos_ cn =? writeBufferSize_ cn then transition c else
  match writeBuffer_ cn with
  | None => stuck NullPointer
  | Some ptr =>
      let left := i32 (writeBufferSize_ cn - writeBufferPos_ cn) in
      let block := buffer_ (outputTransport_ cn) in
      if zlen block <? ptr + writeBufferPos_ cn + u32 left then stuck OutOfBounds else
      let data := sub block (ptr + writeBufferPos_ cn) (u32 left) in
      let* sent := catch (let* n := on_socket c (Socket.write_partial data) in mret (Some n))
                         (λ _, mret None) in
      match sent with
      | None => close c
      | Some n =>
          let pos := u32 (writeBufferPos_ cn + i32 n) in
          upd_conn c (set_writeBufferPos pos) ;;
          if negb (pos <=? writeBufferSize_ cn) then stuck AssertFailed else
          if pos =? writeBufferSize_ cn then transition c else mret tt
      end
  end.

Definition workSocket (c : Z) : NB unit :=
  let* cn := get_conn c in
  match socketState_ cn with
  | SOCKET_RECV_FRAMING => work_recv_framing c
  | SOCKET_RECV => work_recv c
  | SOCKET_SEND => work_send c
  end.

(** [threadPoolProcessing_] says whether there is a thread manager. *)
Definition setThreadManager (tm : option TM) : NB unit := modify (upd_threadManager tm).

(** ** Overload *)

Definition serverOverloaded : NB bool :=
  let* s := self in
  let active := u64 (numTConnections_ s - zlen (connectionStack_ s)) in
  (if (maxActiveProcessors_ (cfg s) <? numActiveProcessors_ s) || (maxConnections_ (cfg s) <? active)
   then (when negb (overloaded_ s) then modify (upd_overloaded true))
   else when overloaded_ s && hysteresis (numActiveProcessors_ s) (maxActiveProcessors_ (cfg s)) &&
             hysteresis active (maxConnections_ (cfg s)) then
     modify (λ s, upd_nConnectionsDropped 0 (upd_overloaded false s))) ;;
  gets overloaded_.

Definition drainPendingTask : NB bool :=
  let* tm := gets threadManager_ in
  match tm with
  | None => mret false
  | Some tm =>
      let (task, tm') := tm_removeNextPending tm in
      modify (upd_threadManager (Some tm')) ;;
      match task with
      | None => mret false
      | Some c =>
          let* cn := get_conn c in
          if negb (bool_decide (appState_ cn = APP_WAIT_TASK)) then stuck AssertFailed else
          forceClose c ;; mret true
      end
  end.

Definition expireClose (c : Z) : NB unit :=
  let* cn := get_conn c in
  if negb (bool_decide (appState_ cn = APP_WAIT_TASK)) then stuck AssertFailed else forceClose c.

(** ** New clients

    [accepted] are the descriptors that [accept] delivers before it reports that
    there are no more, each with the success of making it non-blocking. *)
Fixpoint handleEvent (accepted : list (Z * bool)) : NB unit :=
  match accepted with
  | [] => mret tt
  | (clientSocket, nonblock_ok) :: accepted' =>
      let drop := on_kernel (λ k, (tt, k_close_fd clientSocket k)) in
      let* action := gets (λ s, overloadAction_ (cfg s)) in
      let* over := if bool_decide (action = T_OVERLOAD_NO_ACTION) then mret false
                   else serverOverloaded in
      let* refused :=
        if over : bool then
          modify (λ s, upd_nTotalConnectionsDropped (u64 (nTotalConnectionsDropped_ s + 1))
                         (upd_nConnectionsDropped (u32 (nConnectionsDropped_ s + 1)) s)) ;;
          match action with
          | T_OVERLOAD_CLOSE_ON_ACCEPT => mret true
          | T_OVERLOAD_DRAIN_TASK_QUEUE => let* drained := drainPendingTask in mret (negb drained)
          | T_OVERLOAD_NO_ACTION => mret false
          end
        else mret false in
      if refused : bool then drop else
      if negb nonblock_ok then drop else
      let* c := createConnection clientSocket in
      let* cn := get_conn c in
      match ioThread_ cn with
      | None => stuck NullPointer
      | Some t => if t =? 0 then transition c else (notifyIOThread c ;; mret tt)
      end ;;
      handleEvent accepted'
  end.

(** ** The I/O threads *)

(** The pointer that comes next in the pipe of a thread. *)
Definition pop_pipe (thread : Z) : NB (option (option Z)) := λ s,
  match ioThreads_ s !! Z.to_nat thread with
  | Some (x :: q) => Ret (Some x) (upd_ioThreads (<[Z.to_nat thread := q]> (ioThreads_ s)) s)
  | _ => Ret None s
  end.

(** Every round takes a pointer out of the pipe. *)
Fixpoint notifyHandler_loop (fuel : nat) (thread : Z) : NB unit :=
  match fuel with
  | O => stuck OutOfFuel
  | S fuel' =>
      let* r := on_kernel (k_pipe_recv thread) in
      match r with
      | PipePartial | PipeError => stuck Aborted
      | PipeClosed => mret tt
      | PipeReady =>
          let* x := pop_pipe thread in
          match x with
          | None => mret tt
          | Some None => mret tt
          | Some (Some c) => transition c ;; notifyHandler_loop fuel' thread
          end
      end
  end.

Definition notifyHandler (thread : Z) : NB unit :=
  let* s := self in
  notifyHandler_loop (S (length (default [] (ioThreads_ s !! Z.to_nat thread)))) thread.

(** ** A task in a worker thread

    [for (;;) if (!process(...) || !peek()) break;] and the notification.  Every
    request of the frame takes at least one byte. *)
Fixpoint run_loop (fuel : nat) (c : Z) : NB unit :=
  match fuel with
  | O => stuck OutOfFuel
  | S fuel' =>
      let* more := call_process c in
      let* cn := get_conn c in
      if more && MemoryBuffer.peek (inputTransport_ cn) then run_loop fuel' c else mret tt
  end.

Definition run (fuel : nat) (c : Z) : NB unit :=
  catch (run_loop fuel c)
    (λ e, match e with TBadAlloc => stuck Aborted | _ => mret tt end) ;;
  let* ok := notifyIOThread c in
  if ok : bool then mret tt else throw TPlainExn.

End Nonblocking.
End Nonblocking.
