(* ===== verification/NonblockingSteps.v ===== *)
(** * Symbolic execution of [TNonblockingServer]

    What every operation of a connection does to the state of the server, as
    equations on states in which one connection is singled out.  The theorems
    about the server are built from these lemmas. *)

From S2P Require Import Prelude Bytes Transport BufferTransports MemoryBufferTheorems Socket.
From S2P Require Import NonblockingServer.
From stdpp Require Import base gmap list.
From Stdlib Require Import ZArith Lia.

Local Open Scope Z_scope.
Import Conn Srv Nonblocking.

(** [event_del] of libevent succeeds. *)
Class LibeventLaws (K : Type) `{Libevent K} := ev_del_law : ∀ c k, (ev_del c k).1 = true.

Section Steps.
Context {P TM K : Type} `{Malloc} `{Kernel K} `{Libevent K} `{Pipes K} `{Processor P}
  `{ThreadManager TM} `{!LibeventLaws K} `{!MallocLaws}.
Abbreviation Srv := (Server P TM K).
Implicit Types (s : Srv) (cn : TConnection) (k : K) (p : P).

(** The server [s] with the given connection, kernel, registered events,
    processor and number of active processors. *)
Definition at_ s (c : Z) cn k (ev : gmap Z Z) p (na : Z) : Srv :=
  mkServer (cfg s) (ioThreads_ s) (nextIOThread_ s) (threadManager_ s) (numTConnections_ s) na
    (overloaded_ s) (nConnectionsDropped_ s) (nTotalConnectionsDropped_ s) (connectionStack_ s)
    (<[c := cn]> (connections s)) (nextId s) ev p k.

Lemma at_self s c cn :
  connections s !! c = Some cn →
  s = at_ s c cn (kernel s) (events s) (processor_ s) (numActiveProcessors_ s).
Proof. intros Hc. unfold at_. rewrite insert_id by done. by destruct s. Qed.

Lemma get_conn_at s c cn k ev p na : get_conn c (at_ s c cn k ev p na) = Ret cn (at_ s c cn k ev p na).
Proof. unfold get_conn, at_. simpl. by rewrite lookup_insert_eq. Qed.

Lemma upd_conn_at f s c cn k ev p na :
  upd_conn c f (at_ s c cn k ev p na) = Ret tt (at_ s c (f cn) k ev p na).
Proof.
  unfold upd_conn. rewrite (M_bind_ret _ _ _ _ _ (get_conn_at s c cn k ev p na)).
  unfold modify, upd_connections, at_. simpl. by rewrite insert_insert_eq.
Qed.

Lemma on_socket_at {A} (m : M texn (TSocket * K) A) s c cn k ev p na :
  on_socket c m (at_ s c cn k ev p na) =
  match m (tSocket_ cn, k) with
  | Ret a sk => Ret a (at_ s c (set_tSocket sk.1 cn) sk.2 ev p na)
  | Exn e sk => Exn e (at_ s c (set_tSocket sk.1 cn) sk.2 ev p na)
  | Stuck f => Stuck f
  end.
Proof.
  unfold on_socket, at_. simpl. rewrite lookup_insert_eq.
  destruct (m (tSocket_ cn, k)); unfold upd_kernel, upd_connections; simpl;
    by rewrite ?insert_insert_eq.
Qed.

Lemma on_output_at {A} (m : M texn TMemoryBuffer A) s c cn k ev p na a b :
  m (outputTransport_ cn) = Ret a b →
  on_output c m (at_ s c cn k ev p na) = Ret a (at_ s c (set_outputTransport b cn) k ev p na).
Proof.
  intros Hm. unfold on_output, at_. simpl. rewrite lookup_insert_eq, Hm.
  unfold upd_connections. simpl. by rewrite insert_insert_eq.
Qed.

Lemma bind_get {B} (f : TConnection → M texn Srv B) s c cn k ev p na :
  mbind f (get_conn c) (at_ s c cn k ev p na) = f cn (at_ s c cn k ev p na).
Proof. apply (M_bind_ret _ _ _ _ _ (get_conn_at s c cn k ev p na)). Qed.

Lemma bind_upd {B} (f : unit → M texn Srv B) g s c cn k ev p na :
  mbind f (upd_conn c g) (at_ s c cn k ev p na) = f tt (at_ s c (g cn) k ev p na).
Proof. apply (M_bind_ret _ _ _ _ _ (upd_conn_at g s c cn k ev p na)). Qed.

Lemma bind_gets {A B} (f : A → M texn Srv B) (g : Srv → A) s :
  mbind f (gets g) s = f (g s) s.
Proof. done. Qed.

Lemma on_kernel_at {A} (call : K → A * K) s c cn k ev p na :
  on_kernel call (at_ s c cn k ev p na) = Ret (call k).1 (at_ s c cn (call k).2 ev p na).
Proof. unfold on_kernel, at_. simpl. by destruct (call k). Qed.

(** ** libevent *)

Lemma event_del_at s c cn k ev p na :
  event_del c (at_ s c cn k ev p na) = Ret true (at_ s c cn (ev_del c k).2 (delete c ev) p na).
Proof.
  unfold event_del. rewrite (M_bind_ret _ _ _ _ _ (on_kernel_at _ s c cn k ev p na)).
  by rewrite ev_del_law.
Qed.

(** The events after [setFlags] of a connection differ at most in its own. *)
Definition events_for (c : Z) (ev ev' : gmap Z Z) : Prop := delete c ev' = delete c ev.

Lemma events_for_delete c ev : events_for c ev (delete c ev).
Proof. unfold events_for. by rewrite delete_delete_eq. Qed.
Lemma events_for_insert c fl ev : events_for c ev (<[c := fl]> ev).
Proof. unfold events_for. by rewrite delete_insert_eq. Qed.
Lemma events_for_trans c ev1 ev2 ev3 :
  events_for c ev1 ev2 → events_for c ev2 ev3 → events_for c ev1 ev3.
Proof. unfold events_for. congruence. Qed.

(** [I] holds of the kernel whatever is registered. *)
Definition ev_stable (I : K → Prop) : Prop :=
  ∀ k, I k → (∀ c fd fl, I (ev_add c fd fl k).2) ∧ (∀ c, I (ev_del c k).2).

Lemma setFlags_at I fl s c cn k ev p na t :
  ev_stable I → I k → ioThread_ cn = Some t →
  ∃ k' ev', setFlags c fl (at_ s c cn k ev p na) = Ret tt (at_ s c (set_eventFlags fl cn) k' ev' p na) ∧
    I k' ∧ events_for c ev ev'.
Proof.
  intros HI Hk Ht. unfold setFlags. rewrite bind_get.
  destruct (Z.eqb_spec (eventFlags_ cn) fl) as [Heq|Hne].
  { exists k, ev. split; [|done]. subst fl. by destruct cn. }
  assert (∃ k1 ev1, (if negb (eventFlags_ cn =? 0) then event_del c else mret true)
      (at_ s c cn k ev p na) = Ret true (at_ s c cn k1 ev1 p na) ∧ I k1 ∧ events_for c ev ev1)
    as (k1 & ev1 & Hd & Hk1 & Hev1).
  { destruct (eventFlags_ cn =? 0); cbn [negb]; [by exists k, ev|].
    rewrite event_del_at. eexists _, _. split; [done|]. split; [by apply HI|].
    apply events_for_delete. }
  rewrite (M_bind_ret _ _ _ _ _ Hd). cbn [negb]. rewrite bind_upd.
  destruct (fl =? 0); [by exists k1, ev1|].
  unfold event_add. rewrite bind_get. simpl. rewrite Ht.
  erewrite M_bind_ret by apply on_kernel_at.
  destruct (ev_add _ _ _ _) as [ok k2] eqn:Ha. simpl.
  assert (I k2) as Hk2 by (change k2 with (ok, k2).2; rewrite <- Ha; by apply HI).
  destruct ok.
  - exists k2, (<[c := fl]> ev1). split; [done|]. split; [done|].
    eapply events_for_trans; [done|]. apply events_for_insert.
  - by exists k2, ev1.
Qed.

(** ** From the reply to the next request *)

(** The connection is registered for reading and expects a new frame. *)
Definition to_framing cn : TConnection :=
  set_eventFlags (Z.lor EV_READ EV_PERSIST) $
  set_writeBuffer None $ set_writeBufferPos 0 $ set_writeBufferSize 0 $
  set_socketState SOCKET_RECV_FRAMING $ set_appState APP_READ_FRAME_SIZE $
  set_readBufferPos 0 cn.

Lemma app_init_at I s c cn k ev p na t :
  ev_stable I → I k → ioThread_ cn = Some t →
  ∃ k' ev', app_init c (at_ s c cn k ev p na) =
    Ret tt (at_ s c (to_framing cn) k' ev' p na) ∧
    I k' ∧ events_for c ev ev'.
Proof. intros HI Hk Ht. unfold app_init. rewrite bind_upd. by eapply setFlags_at. Qed.

(** ** Buffers *)

(** The output buffer: it is owned and nobody reads from it. *)
Definition out_ok (b : TMemoryBuffer) : Prop := mb_ok b ∧ owner_ b = true ∧ rBase_ b = 0.

Record buf_ok cn : Prop := {
  buf_read : readBufferSize_ cn = zlen (readBuffer_ cn) ∧ readBufferSize_ cn < 2 ^ 32;
  buf_out : out_ok (outputTransport_ cn);
  buf_socket : timeouts_ok (tSocket_ cn) }.

Record config_ok (g : Config) : Prop := {
  config_write : 0 < writeBufferDefaultSize_ g < 2 ^ 32;
  config_frame : 0 ≤ maxFrameSize_ g < 2 ^ 31;
  config_stack : 0 ≤ connectionStackLimit_ g }.

(** The connection with other buffers. *)
Definition rebuffered cn (rb : bytes) (n : Z) (o : TMemoryBuffer) (l : Z) : TConnection :=
  set_readBuffer rb $ set_readBufferSize n $ set_outputTransport o $ set_largestWriteBufferSize l cn.

Lemma rebuffered_id cn :
  cn = rebuffered cn (readBuffer_ cn) (readBufferSize_ cn) (outputTransport_ cn)
         (largestWriteBufferSize_ cn).
Proof. by destruct cn. Qed.

Lemma sized_out_ok n :
  0 < n < 2 ^ 32 →
  ∃ b, MemoryBuffer.TMemoryBuffer_sized n = inr b ∧ out_ok b.
Proof.
  intros Hn. unfold MemoryBuffer.TMemoryBuffer_sized. rewrite malloc_law, orb_true_r by done.
  eexists. split; [done|]. split; [|done]. split; simpl; [lia|].
  rewrite zlen_fresh_block; lia.
Qed.

Lemma checkIdle_at r w s c cn k ev p na :
  config_ok (cfg s) → buf_ok cn →
  ∃ rb n o l, checkIdleBufferMemLimit c r w (at_ s c cn k ev p na) =
      Ret tt (at_ s c (rebuffered cn rb n o l) k ev p na) ∧ buf_ok (rebuffered cn rb n o l).
Proof.
  intros Hcfg [Hread Hout Hsock]. unfold checkIdleBufferMemLimit. rewrite bind_get.
  assert (∃ rb n, (if (0 <? r) && (r <? readBufferSize_ cn) then
       upd_conn c (λ cn, set_readBufferSize 0 (set_readBuffer [] cn)) else mret tt)
      (at_ s c cn k ev p na) =
      Ret tt (at_ s c (set_readBufferSize n (set_readBuffer rb cn)) k ev p na) ∧
      n = zlen rb ∧ n < 2 ^ 32) as (rb & n & Hr & Hn & Hlt).
  { destruct (_ && _).
    - rewrite upd_conn_at. exists [], 0. by rewrite zlen_nil.
    - exists (readBuffer_ cn), (readBufferSize_ cn). split; [by destruct cn|done]. }
  rewrite (M_bind_ret _ _ _ _ _ Hr). destruct ((0 <? w) && _).
  - rewrite bind_gets. destruct (sized_out_ok _ (config_write _ Hcfg)) as (b & Hb & Hbok).
    erewrite M_bind_ret.
    2: { apply on_output_at. unfold MemoryBuffer.resetBuffer_sized. simpl. by rewrite Hb. }
    rewrite upd_conn_at. exists rb, n, b, 0. split; [by destruct cn|]. by split.
  - exists rb, n, (outputTransport_ cn), (largestWriteBufferSize_ cn).
    split; [by destruct cn|]. by split.
Qed.

Lemma app_send_result_at I s c cn k ev p na t :
  ev_stable I → I k → ioThread_ cn = Some t → config_ok (cfg s) → buf_ok cn →
  ∃ rb n o l calls k' ev',
    app_send_result c (at_ s c cn k ev p na) =
      Ret tt (at_ s c (to_framing (set_callsForResize calls (rebuffered cn rb n o l))) k' ev' p na) ∧
    buf_ok (rebuffered cn rb n o l) ∧ I k' ∧ events_for c ev ev'.
Proof.
  intros HI Hk Ht Hcfg Hbuf. unfold app_send_result. rewrite bind_gets, bind_upd.
  set (l0 := if largestWriteBufferSize_ cn <? writeBufferSize_ cn then writeBufferSize_ cn
             else largestWriteBufferSize_ cn).
  replace (if largestWriteBufferSize_ cn <? writeBufferSize_ cn then _ else cn)
    with (set_largestWriteBufferSize l0 cn)
    by (unfold l0; destruct (_ <? _); by destruct cn).
  assert (∃ rb n o l calls,
    (if 0 <? resizeBufferEveryN_ (cfg s) then
       (upd_conn c (λ cn, set_callsForResize (callsForResize_ cn + 1) cn) ;;
        let* cn := get_conn c in
        when (resizeBufferEveryN_ (cfg s) <=? callsForResize_ cn) then
          (let* r := gets (λ s, idleReadBufferLimit_ (cfg s)) in
           let* w := gets (λ s, idleWriteBufferLimit_ (cfg s)) in
           checkIdleBufferMemLimit c r w ;; upd_conn c (set_callsForResize 0))) else mret tt)
      (at_ s c (set_largestWriteBufferSize l0 cn) k ev p na) =
    Ret tt (at_ s c (set_callsForResize calls (rebuffered cn rb n o l)) k ev p na) ∧
    buf_ok (rebuffered cn rb n o l)) as (rb & n & o & l & calls & Hr & Hok).
  { assert (∃ calls, at_ s c (set_largestWriteBufferSize l0 cn) k ev p na =
      at_ s c (set_callsForResize calls (rebuffered cn (readBuffer_ cn) (readBufferSize_ cn)
        (outputTransport_ cn) l0)) k ev p na) as [calls0 Hsame]
      by (exists (callsForResize_ cn); by destruct cn).
    assert (buf_ok (rebuffered cn (readBuffer_ cn) (readBufferSize_ cn) (outputTransport_ cn) l0))
      as Hok0 by (destruct Hbuf; by split).
    destruct (0 <? _); [|by rewrite Hsame; eauto 10].
    rewrite bind_upd, bind_get. destruct (_ <=? _).
    - rewrite !bind_gets. simpl.
      destruct (checkIdle_at (idleReadBufferLimit_ (cfg s)) (idleWriteBufferLimit_ (cfg s)) s c
        (set_callsForResize (callsForResize_ cn + 1) (set_largestWriteBufferSize l0 cn)) k ev p na
        Hcfg) as (rb & n & o & l & Hch & Hok).
      { destruct Hbuf. by split. }
      rewrite (M_bind_ret _ _ _ _ _ Hch), upd_conn_at.
      exists rb, n, o, l, 0. split; [by destruct cn|]. destruct Hok. by split.
    - exists (readBuffer_ cn), (readBufferSize_ cn), (outputTransport_ cn), l0, (callsForResize_ cn + 1).
      split; [by destruct cn|done]. }
  rewrite (M_bind_ret _ _ _ _ _ Hr).
  destruct (app_init_at I s c (set_callsForResize calls (rebuffered cn rb n o l)) k ev p na t HI Hk Ht)
    as (k' & ev' & Hi & Hk' & Hev). by exists rb, n, o, l, calls, k', ev'.
Qed.

(** ** From the request to the reply *)

(** The output buffer with the size of the frame in its first four bytes. *)
Definition with_header (b : TMemoryBuffer) : TMemoryBuffer :=
  mkMB (memcpy (buffer_ b) 0 (to_be 4 (u32 (wBase_ b - 4)))) (bufferSize_ b) (rBase_ b) (rBound_ b)
    (wBase_ b) (wBound_ b) (owner_ b).

Lemma with_header_ok b : out_ok b → 4 < wBase_ b → out_ok (with_header b).
Proof.
  intros ([Ho Hs] & Hw & Hr) Hlt. split; [|done]. split; [done|].
  unfold with_header. cbn [buffer_ bufferSize_ wBound_].
  rewrite zlen_memcpy; [done|done|]. rewrite zlen_to_be. lia.
Qed.

(** The connection is registered for writing and has the frame to send. *)
Definition to_sending cn : TConnection :=
  set_eventFlags (Z.lor EV_WRITE EV_PERSIST) $ set_appState APP_SEND_RESULT $
  set_outputTransport (with_header (outputTransport_ cn)) $
  set_writeBufferPos 0 $ set_socketState SOCKET_SEND $
  set_writeBuffer (Some 0) $ set_writeBufferSize (wBase_ (outputTransport_ cn)) cn.

Definition decremented (na : Z) : Z := if 0 <? na then na - 1 else na.

Lemma decrement_at s c cn k ev p na :
  decrementActiveProcessors (at_ s c cn k ev p na) = Ret tt (at_ s c cn k ev p (decremented na)).
Proof. unfold decrementActiveProcessors, modify, decremented, at_. simpl. by destruct (0 <? na). Qed.

Lemma app_wait_task_at I s c cn k ev p na t :
  ev_stable I → I k → ioThread_ cn = Some t → out_ok (outputTransport_ cn) →
  ∃ k' ev', app_wait_task c (at_ s c cn k ev p na) =
    Ret tt (at_ s c (if 4 <? wBase_ (outputTransport_ cn) then to_sending cn else to_framing cn)
              k' ev' p (decremented na)) ∧
    I k' ∧ events_for c ev ev'.
Proof.
  intros HI Hk Ht Hok. pose proof Hok as ([Ho Hs] & _ & Hr). unfold app_wait_task.
  rewrite (M_bind_ret _ _ _ _ _ (decrement_at s c cn k ev p na)), bind_get. unfold MemoryBuffer.getBuffer.
  rewrite Hr, Z.sub_0_r.
  assert (u32 (wBase_ (outputTransport_ cn)) = wBase_ (outputTransport_ cn)) as ->
    by (apply wrapu_small; lia).
  rewrite bind_upd.
  destruct (Z.ltb_spec 4 (wBase_ (outputTransport_ cn))) as [Hlt|Hle].
  - rewrite bind_upd. erewrite M_bind_ret.
    2: { apply on_output_at. destruct (Z.leb_spec (0 + 4) (zlen (buffer_ (outputTransport_ cn)))).
         - rewrite (proj2 (Z.leb_le _ _)) by done. reflexivity.
         - lia. }
    rewrite bind_upd. by eapply setFlags_at.
  - replace (to_framing cn) with (to_framing (set_writeBuffer (Some 0)
      (set_writeBufferSize (wBase_ (outputTransport_ cn)) cn))) by (by destruct cn).
    by eapply app_init_at.
Qed.

(** The output buffer that the processor is given: four bytes are reserved. *)
Lemma reserve_at s c cn k ev p na :
  out_ok (outputTransport_ cn) →
  ∃ o, out_ok o ∧ wBase_ o = 4 ∧
    ∀ B (f : unit → M texn Srv B),
    (on_output c (modify MemoryBuffer.resetBuffer) ;;
     on_output c (MemoryBuffer.getWritePtr 4) ;;
     let* x := on_output c (MemoryBuffer.wroteBytes 4) in f x) (at_ s c cn k ev p na) =
    f tt (at_ s c (set_outputTransport o cn) k ev p na).
Proof.
  intros (Hok & Hown & Hr). pose proof Hok as [Ho Hs].
  set (b0 := MemoryBuffer.resetBuffer (outputTransport_ cn)).
  assert (b0 = mkMB (buffer_ (outputTransport_ cn)) (bufferSize_ (outputTransport_ cn)) 0 0 0
    (wBound_ (outputTransport_ cn)) true) as Hb0 by (unfold b0, MemoryBuffer.resetBuffer; by rewrite Hown).
  assert (mb_ok b0) as Hok0 by (rewrite Hb0; split; simpl; lia).
  destruct (ensureCanWrite_spec b0 4 Hok0) as (b1 & He & Hok1 & _ & Hw1 & Hr1 & Hrb1 & Hown1 & Hroom).
  { unfold mb_room. rewrite Hb0. simpl. lia. }
  rewrite Hb0 in Hw1, Hr1, Hrb1, Hown1. simpl in *.
  pose proof Hok1 as [Ho1 Hs1].
  exists (mkMB (buffer_ b1) (bufferSize_ b1) (rBase_ b1) (rBound_ b1) (wBase_ b1 + 4) (wBound_ b1)
    (owner_ b1)).
  split_and!; [split; [split; simpl; lia|done]|simpl; lia|]. intros B f.
  erewrite M_bind_ret by (by apply on_output_at). fold b0. simpl.
  erewrite M_bind_ret.
  2: { apply on_output_at. unfold MemoryBuffer.getWritePtr. simpl. fold b0.
       by rewrite (M_bind_ret _ _ _ _ _ He). }
  erewrite M_bind_ret.
  2: { apply on_output_at. unfold MemoryBuffer.wroteBytes. simpl.
       rewrite available_write_ok by done. destruct (Z.ltb_spec (wBound_ b1 - wBase_ b1) 4); [lia|].
       done. }
  by destruct cn.
Qed.

(** The processor's state once the event handler has been told of the call. *)
Definition told p : P := match pr_handler with Some h => eh_processContext h p | None => p end.

(** The input transport on the bytes of a request. *)
Definition request (b : bytes) : TMemoryBuffer := MemoryBuffer.initCommon b (zlen b) false (zlen b).

Lemma call_process_at s c cn k ev p na :
  call_process c (at_ s c cn k ev p na) =
  match pr_process (told p, inputTransport_ cn, outputTransport_ cn) with
  | Ret b (p', i', o') =>
      Ret b (at_ s c (set_inputTransport i' (set_outputTransport o' cn)) k ev p' na)
  | Exn e (p', i', o') =>
      Exn e (at_ s c (set_inputTransport i' (set_outputTransport o' cn)) k ev p' na)
  | Stuck f => Stuck f
  end.
Proof.
  unfold call_process, told, at_. simpl. rewrite lookup_insert_eq.
  destruct (pr_process _) as [b [[p' i'] o']|e [[p' i'] o']|f]; [| |done].
  all: unfold upd_processor, upd_connections; simpl; by rewrite insert_insert_eq.
Qed.

Lemma app_read_request_at s c cn k ev p na :
  threadManager_ s = None → out_ok (outputTransport_ cn) →
  ∃ o, out_ok o ∧ wBase_ o = 4 ∧
    app_read_request c (at_ s c cn k ev p na) =
    match pr_process (told p, request (ztake (readBufferPos_ cn) (readBuffer_ cn)), o) with
    | Ret _ (p', i', o') =>
        app_wait_task c
          (at_ s c (set_inputTransport i' (set_outputTransport o' cn)) k ev p' (u64 (na + 1)))
    | Exn _ (p', i', o') =>
        close c (at_ s c (set_inputTransport i' (set_outputTransport o' cn)) k ev p'
                   (decremented (u64 (na + 1))))
    | Stuck f => Stuck f
    end.
Proof.
  intros Htm Hout. set (req := ztake (readBufferPos_ cn) (readBuffer_ cn)).
  destruct (reserve_at s c (set_inputTransport (request req) cn) k ev p na Hout)
    as (o & Hok & Hw & Hres).
  exists o. split; [done|]. split; [done|]. unfold app_read_request. rewrite bind_get.
  erewrite M_bind_ret by reflexivity. rewrite bind_upd. fold req. rewrite Hres.
  set (cn1 := set_outputTransport o _).
  erewrite (M_bind_ret _ _ _ tt (at_ s c cn1 k ev p (u64 (na + 1)))) by reflexivity.
  rewrite bind_gets. change (threadManager_ (at_ _ _ _ _ _ _ _)) with (threadManager_ s). rewrite Htm.
  rewrite M_bind_eq. unfold catch. rewrite M_bind_eq, call_process_at.
  change (inputTransport_ cn1) with (request req). change (outputTransport_ cn1) with o.
  destruct (pr_process _) as [b [[p' i'] o']|e [[p' i'] o']|f] eqn:Hp; [by destruct cn| |done].
  rewrite (M_bind_ret _ _ _ _ _ (decrement_at s c _ k ev p' (u64 (na + 1)))).
  rewrite M_bind_eq. replace (set_inputTransport i' (set_outputTransport o' cn1)) with
    (set_inputTransport i' (set_outputTransport o' cn)) by (by destruct cn).
  by destruct (close c _) as [[]| |].
Qed.

(** ** The size of the frame is known *)

Lemma double_size_spec fuel want n :
  0 < n → want ≤ 2 ^ 31 → want ≤ n * 2 ^ Z.of_nat fuel →
  ∃ m, double_size fuel want n = Some m ∧ want ≤ m ∧ n ≤ m ∧ (m = n ∨ m < 2 * want).
Proof.
  revert n. induction fuel as [|fuel IH]; intros n Hn Hw Hp; cbn [double_size];
    destruct (Z.ltb_spec n want); try (exists n; split; [done|lia]).
  { simpl in Hp. lia. }
  unfold u32. rewrite wrapu_small by lia.
  destruct (IH (n * 2)) as (m & -> & Hm & Hnm & Hlt); [lia|done| |].
  { rewrite Nat2Z.inj_succ, Z.pow_succ_r in Hp by lia. lia. }
  exists m. split; [done|]. lia.
Qed.

(** The connection waits for the bytes of the frame in the given buffer. *)
Definition to_receiving (rb : bytes) cn : TConnection :=
  set_readBufferPos 0 $ set_socketState SOCKET_RECV $ set_appState APP_READ_REQUEST $
  set_readBuffer rb $ set_readBufferSize (zlen rb) cn.

Lemma app_read_frame_size_at s c cn k ev p na :
  buf_ok cn → 0 ≤ readWant_ cn ≤ 2 ^ 31 →
  ∃ rb, app_read_frame_size c (at_ s c cn k ev p na) = Ret tt (at_ s c (to_receiving rb cn) k ev p na) ∧
    readWant_ cn ≤ zlen rb < 2 ^ 32.
Proof.
  intros [[Hsize Hlt] _ _] Hwant. unfold app_read_frame_size. rewrite bind_get.
  destruct (Z.ltb_spec (readBufferSize_ cn) (readWant_ cn)) as [Hgrow|Hle].
  - pose proof (zlen_nonneg (readBuffer_ cn)).
    set (size0 := if readBufferSize_ cn =? 0 then 1 else readBufferSize_ cn).
    assert (0 < size0 ∧ size0 ≤ Z.max 1 (readBufferSize_ cn)) as [Hpos Hmax]
      by (unfold size0; destruct (Z.eqb_spec (readBufferSize_ cn) 0); lia).
    destruct (double_size_spec 33 (readWant_ cn) size0) as (m & Hd & Hm & _ & Hm2); [done|lia| |].
    { change (2 ^ Z.of_nat 33) with (2 ^ 33). lia. }
    erewrite M_bind_ret.
    2: { rewrite bind_upd. rewrite Hd, malloc_law by lia. apply upd_conn_at. }
    rewrite upd_conn_at. exists (MemoryBuffer.realloc (readBuffer_ cn) m).
    rewrite zlen_realloc by lia. split; [|lia].
    unfold to_receiving. rewrite zlen_realloc by lia. by destruct cn.
  - erewrite M_bind_ret by reflexivity. rewrite upd_conn_at. exists (readBuffer_ cn).
    split; [|lia]. unfold to_receiving. rewrite <- Hsize. by destruct cn.
Qed.

(** ** Closing *)

Definition forgotten p : P := match pr_handler with Some h => eh_deleteContext h p | None => p end.

(** The pool is full. *)
Definition pool_full s : bool :=
  negb (connectionStackLimit_ (cfg s) =? 0) &&
  (connectionStackLimit_ (cfg s) <=? zlen (connectionStack_ s)).

(** The server without the connection, and with the connection in the pool. *)
Definition dropped s (c : Z) k ev p na : Srv :=
  mkServer (cfg s) (ioThreads_ s) (nextIOThread_ s) (threadManager_ s) (u64 (numTConnections_ s - 1)) na
    (overloaded_ s) (nConnectionsDropped_ s) (nTotalConnectionsDropped_ s) (connectionStack_ s)
    (delete c (connections s)) (nextId s) ev p k.
Definition pooled s (c : Z) cn k ev p na : Srv :=
  mkServer (cfg s) (ioThreads_ s) (nextIOThread_ s) (threadManager_ s) (numTConnections_ s) na
    (overloaded_ s) (nConnectionsDropped_ s) (nTotalConnectionsDropped_ s) (c :: connectionStack_ s)
    (<[c := cn]> (connections s)) (nextId s) ev p k.

Lemma socket_close_eq sk : ∃ k', Socket.close (K := K) sk = Ret tt (Socket.with_fd (-1) sk.1, k').
Proof.
  destruct sk as [sk k]. unfold Socket.close, Socket.this. rewrite (M_bind_ret _ _ (sk, k) sk (sk, k)) by done.
  destruct (isOpen sk); eauto.
Qed.

Lemma close_at s c cn k ev p na :
  config_ok (cfg s) → buf_ok cn →
  ∃ k', if pool_full s
    then close c (at_ s c cn k ev p na) = Ret tt (dropped s c k' (delete c ev) (forgotten p) na)
    else ∃ cn', close c (at_ s c cn k ev p na) =
           Ret tt (pooled s c cn' k' (delete c ev) (forgotten p) na) ∧ buf_ok cn'.
Proof.
  intros Hcfg Hbuf. unfold close. rewrite (M_bind_ret _ _ _ _ _ (event_del_at s c cn k ev p na)).
  erewrite (M_bind_ret _ _ _ tt (at_ s c cn (ev_del c k).2 (delete c ev) (forgotten p) na)).
  2: { unfold on_handler, modify, forgotten, at_. simpl. by destruct pr_handler. }
  rewrite bind_upd. set (cn1 := set_ioThread None cn).
  destruct (socket_close_eq (tSocket_ cn1, (ev_del c k).2)) as [k' Hcl].
  erewrite M_bind_ret by (rewrite on_socket_at, Hcl; reflexivity). cbn [fst snd].
  exists k'. set (cn2 := set_tSocket _ cn1).
  assert (buf_ok cn2) as Hbuf2 by (destruct Hbuf; by split).
  unfold returnConnection, self. erewrite M_bind_ret by reflexivity.
  fold (pool_full (at_ s c cn2 k' (delete c ev) (forgotten p) na)).
  change (pool_full (at_ s c cn2 k' (delete c ev) (forgotten p) na)) with (pool_full s).
  destruct (pool_full s).
  - rewrite bind_get. erewrite M_bind_ret by reflexivity. unfold modify, dropped.
    unfold upd_connections, upd_numTConnections, at_. simpl. by rewrite delete_insert_eq.
  - destruct (checkIdle_at (idleReadBufferLimit_ (cfg s)) (idleWriteBufferLimit_ (cfg s)) s c cn2 k'
      (delete c ev) (forgotten p) na Hcfg Hbuf2) as (rb & n & o & l & Hch & Hok).
    erewrite M_bind_ret by exact Hch. by exists (rebuffered cn2 rb n o l).
Qed.

(** ** The socket is ready *)

Lemma transition_at s c cn k ev p na t :
  ioThread_ cn = Some t →
  transition c (at_ s c cn k ev p na) =
  match appState_ cn with
  | APP_READ_REQUEST => app_read_request c
  | APP_WAIT_TASK => app_wait_task c
  | APP_SEND_RESULT => app_send_result c
  | APP_INIT => app_init c
  | APP_READ_FRAME_SIZE => app_read_frame_size c
  | APP_CLOSE_CONNECTION => decrementActiveProcessors ;; close c
  end (at_ s c cn k ev p na).
Proof. intros Ht. unfold transition. rewrite bind_get, Ht. by destruct (appState_ cn). Qed.

(** What [socket_read] makes of [TSocket::read]. *)
Lemma socket_read_Ret n s c cn k ev p na b k' :
  Socket.read n (tSocket_ cn, k) = Ret b (tSocket_ cn, k') → zlen b ≤ n →
  socket_read c n (at_ s c cn k ev p na) = Ret (Some b) (at_ s c cn k' ev p na).
Proof.
  intros Hr Hb. unfold socket_read, catch. rewrite M_bind_eq, M_bind_eq, on_socket_at, Hr. simpl.
  destruct (Z.leb_spec (zlen b) n); [|lia]. by destruct cn.
Qed.

Lemma socket_read_Exn n s c cn k ev p na e k' :
  Socket.read n (tSocket_ cn, k) = Exn e (tSocket_ cn, k') →
  socket_read c n (at_ s c cn k ev p na) = Ret None (at_ s c cn k' ev p na).
Proof.
  intros Hr. unfold socket_read, catch. rewrite M_bind_eq, M_bind_eq, on_socket_at, Hr. simpl.
  by destruct cn.
Qed.

Lemma work_recv_framing_at s c cn k ev p na got k' :
  0 ≤ readBufferPos_ cn < 4 →
  socket_read c (4 - readBufferPos_ cn) (at_ s c cn k ev p na) = Ret got (at_ s c cn k' ev p na) →
  match got with Some b => zlen b ≤ 4 - readBufferPos_ cn | None => True end →
  work_recv_framing c (at_ s c cn k ev p na) =
  match got with
  | None | Some [] => close c (at_ s c cn k' ev p na)
  | Some b =>
      let pos := readBufferPos_ cn + zlen b in
      let buf := memcpy (to_le 4 (readWant_ cn)) (readBufferPos_ cn) b in
      if pos <? 4
      then Ret tt (at_ s c (set_readWant (of_le buf) (set_readBufferPos pos cn)) k' ev p na)
      else
        let st := at_ s c (set_readWant (of_be buf) (set_readBufferPos pos cn)) k' ev p na in
        if maxFrameSize_ (cfg s) <? of_be buf then close c st else transition c st
  end.
Proof.
  intros Hpos Hr Hb. unfold work_recv_framing. rewrite bind_get.
  assert (u32 (4 - readBufferPos_ cn) = 4 - readBufferPos_ cn) as ->
    by (apply wrapu_small; lia).
  rewrite (M_bind_ret _ _ _ _ _ Hr). destruct got as [[|x b]|]; [done| |done]. cbv zeta.
  assert (u32 (readBufferPos_ cn + zlen (x :: b)) = readBufferPos_ cn + zlen (x :: b)) as ->
    by (apply wrapu_small; pose proof (zlen_nonneg (x :: b)); lia).
  rewrite bind_upd. destruct (_ <? 4); [by rewrite upd_conn_at|].
  rewrite bind_upd, bind_gets. cbn [cfg at_]. by destruct (_ <? _).
Qed.

Lemma work_recv_at s c cn k ev p na got k' :
  0 ≤ readBufferPos_ cn < readWant_ cn → readWant_ cn ≤ zlen (readBuffer_ cn) →
  readWant_ cn < 2 ^ 31 →
  socket_read c (readWant_ cn - readBufferPos_ cn) (at_ s c cn k ev p na) =
    Ret got (at_ s c cn k' ev p na) →
  match got with Some b => zlen b ≤ readWant_ cn - readBufferPos_ cn | None => True end →
  work_recv c (at_ s c cn k ev p na) =
  match got with
  | None | Some [] => close c (at_ s c cn k' ev p na)
  | Some b =>
      let pos := readBufferPos_ cn + zlen b in
      let st := at_ s c (set_readBufferPos pos
                  (set_readBuffer (memcpy (readBuffer_ cn) (readBufferPos_ cn) b) cn)) k' ev p na in
      if pos =? readWant_ cn then transition c st else Ret tt st
  end.
Proof.
  intros Hpos Hlen Hwant Hr Hb. unfold work_recv. rewrite bind_get.
  destruct (Z.ltb_spec (readBufferPos_ cn) (readWant_ cn)); [|lia]. cbn [negb].
  assert (u32 (readWant_ cn - readBufferPos_ cn) = readWant_ cn - readBufferPos_ cn) as ->
    by (apply wrapu_small; lia).
  destruct (Z.ltb_spec (zlen (readBuffer_ cn)) (readBufferPos_ cn + (readWant_ cn - readBufferPos_ cn)));
    [lia|].
  rewrite (M_bind_ret _ _ _ _ _ Hr). destruct got as [[|x b]|]; [done| |done]. cbv zeta.
  assert (u32 (readBufferPos_ cn + zlen (x :: b)) = readBufferPos_ cn + zlen (x :: b)) as ->
    by (apply wrapu_small; pose proof (zlen_nonneg (x :: b)); lia).
  assert (i32 (zlen (x :: b)) = zlen (x :: b)) as ->
    by (apply wraps_small; pose proof (zlen_nonneg (x :: b)); lia).
  destruct (Z.ltb_spec 0 (zlen (x :: b))) as [_|Hbad].
  2: { rewrite zlen_cons in Hbad. pose proof (zlen_nonneg b). lia. }
  rewrite bind_upd. destruct (Z.leb_spec (readBufferPos_ cn + zlen (x :: b)) (readWant_ cn)); [|lia].
  cbn [negb]. by destruct (_ =? _).
Qed.

Lemma work_send_at s c cn k ev p na :
  writeBuffer_ cn = Some 0 → 0 ≤ writeBufferPos_ cn < writeBufferSize_ cn →
  writeBufferSize_ cn ≤ zlen (buffer_ (outputTransport_ cn)) → writeBufferSize_ cn < 2 ^ 32 →
  work_send c (at_ s c cn k ev p na) =
  match Socket.write_partial (sub (buffer_ (outputTransport_ cn)) (writeBufferPos_ cn)
          (writeBufferSize_ cn - writeBufferPos_ cn)) (tSocket_ cn, k) with
  | Ret n (sk', k') =>
      let pos := u32 (writeBufferPos_ cn + i32 n) in
      let st := at_ s c (set_writeBufferPos pos (set_tSocket sk' cn)) k' ev p na in
      if negb (pos <=? writeBufferSize_ cn) then Stuck AssertFailed else
      if pos =? writeBufferSize_ cn then transition c st else Ret tt st
  | Exn _ (sk', k') => close c (at_ s c (set_tSocket sk' cn) k' ev p na)
  | Stuck f => Stuck f
  end.
Proof.
  intros Hptr Hpos Hsize Hlt. unfold work_send. rewrite bind_get.
  destruct (Z.leb_spec (writeBufferPos_ cn) (writeBufferSize_ cn)); [|lia]. cbn [negb].
  destruct (Z.eqb_spec (writeBufferPos_ cn) (writeBufferSize_ cn)); [lia|]. rewrite Hptr.
  assert (u32 (i32 (writeBufferSize_ cn - writeBufferPos_ cn)) =
          writeBufferSize_ cn - writeBufferPos_ cn) as ->.
  { unfold u32, i32. rewrite wrapu_wraps by done. apply wrapu_small. lia. }
  rewrite Z.add_0_l.
  destruct (Z.ltb_spec (zlen (buffer_ (outputTransport_ cn)))
    (writeBufferPos_ cn + (writeBufferSize_ cn - writeBufferPos_ cn))); [lia|].
  rewrite M_bind_eq. unfold catch. rewrite M_bind_eq, on_socket_at.
  destruct (Socket.write_partial _ _) as [nsent [sk' k']|e [sk' k']|f]; [|done..]. cbn [fst snd].
  unfold mret, M_ret. rewrite bind_upd. cbv zeta. destruct (negb _); [done|]. by destruct (_ =? _).
Qed.

Lemma workSocket_at s c cn k ev p na :
  workSocket c (at_ s c cn k ev p na) =
  match socketState_ cn with
  | SOCKET_RECV_FRAMING => work_recv_framing c
  | SOCKET_RECV => work_recv c
  | SOCKET_SEND => work_send c
  end (at_ s c cn k ev p na).
Proof. unfold workSocket. rewrite bind_get. by destruct (socketState_ cn). Qed.

End Steps.
