(* ===== verification/NonblockingTheorems.v ===== *)
(** * Properties of [TNonblockingServer]

    The invariant of the server with one I/O thread and no thread manager, which
    is how the storage servers and the view service use it; that no handler of an
    event leaves the defined behaviour except on a frame of size zero; and that a
    request in a frame gets its reply in a frame. *)

From S2P Require Import Prelude Bytes Transport BufferTransports MemoryBufferTheorems.
From S2P Require Import LayeredTheorems Socket NonblockingServer NonblockingSteps.
From stdpp Require Import base gmap list.
From Stdlib Require Import ZArith Lia.

Local Open Scope Z_scope.
Import Conn Srv Nonblocking.

(** The operating system transfers bytes, at most as many as it is asked to, and
    less than 2 GiB at a time. *)
Class KernelBounds (K : Type) `{Kernel K} := {
  recv_bound : ∀ fd n k b k', 0 ≤ n → k_recv fd n k = (Sys b, k') → zlen b ≤ n ∧ Forall is_byte b;
  send_bound : ∀ fd data k n k', k_send fd data k = (Sys n, k') →
    0 ≤ n ≤ zlen data ∧ n < 2 ^ 31 }.

(** The processor may fail in any way that C++ defines; it only appends to the
    output transport. *)
Class ProcessorLaws (P : Type) `{Malloc} `{Processor P} :=
  process_law : ∀ p i o, mb_ok i → out_ok o →
    match pr_process (p, i, o) with
    | Ret _ (_, _, o') | Exn _ (_, _, o') => out_ok o'
    | Stuck _ => False
    end.

Section Invariant.
Context {P TM K : Type} `{Malloc} `{Kernel K} `{Libevent K} `{Pipes K} `{Processor P}
  `{ThreadManager TM} `{!LibeventLaws K} `{!MallocLaws} `{!KernelBounds K} `{!ProcessorLaws P}.
Abbreviation Srv := (Server P TM K).
Implicit Types (s : Srv) (cn : TConnection) (k : K) (p : P).

(** ** The invariant *)

(** What the fields of an active connection say in each of its states. *)
Definition conn_state (g : Config) cn : Prop :=
  ioThread_ cn = Some 0 ∧
  match appState_ cn with
  | APP_INIT | APP_READ_FRAME_SIZE =>
      socketState_ cn = SOCKET_RECV_FRAMING ∧ 0 ≤ readBufferPos_ cn < 4
  | APP_READ_REQUEST =>
      socketState_ cn = SOCKET_RECV ∧ readWant_ cn ≤ zlen (readBuffer_ cn) ∧
      readWant_ cn ≤ maxFrameSize_ g ∧
      (readBufferPos_ cn = 0 ∧ readWant_ cn = 0 ∨ 0 ≤ readBufferPos_ cn < readWant_ cn)
  | APP_SEND_RESULT =>
      socketState_ cn = SOCKET_SEND ∧ writeBuffer_ cn = Some 0 ∧
      0 ≤ writeBufferPos_ cn < writeBufferSize_ cn ∧
      writeBufferSize_ cn = wBase_ (outputTransport_ cn)
  | APP_WAIT_TASK | APP_CLOSE_CONNECTION => False
  end.

Record srv_wf s : Prop := {
  wf_cfg : config_ok (cfg s);
  wf_threads : ioThreads_ s = [[]] ∧ nextIOThread_ s = 0;
  wf_tm : threadManager_ s = None;
  wf_active : numActiveProcessors_ s = 0;
  wf_nodup : NoDup (connectionStack_ s);
  wf_stack : ∀ c, c ∈ connectionStack_ s → is_Some (connections s !! c) ∧ events s !! c = None;
  wf_conns : ∀ c cn, connections s !! c = Some cn →
    buf_ok cn ∧ c < nextId s ∧ (c ∉ connectionStack_ s → conn_state (cfg s) cn);
  wf_events : ∀ c, is_Some (events s !! c) → is_Some (connections s !! c);
  wf_count : numTConnections_ s = u64 (Z.of_nat (size (connections s)));
  wf_limit : connectionStackLimit_ (cfg s) = 0 ∨
    zlen (connectionStack_ s) ≤ connectionStackLimit_ (cfg s) }.

(** A connection that is in use. *)
Definition active s c cn : Prop := connections s !! c = Some cn ∧ c ∉ connectionStack_ s.

Lemma events_for_lookup c d (ev ev' : gmap Z Z) :
  events_for c ev ev' → d ≠ c → ev' !! d = ev !! d.
Proof.
  intros He Hne. assert (delete c ev' !! d = delete c ev !! d) as Hd by (by rewrite He).
  by rewrite !lookup_delete_ne in Hd by done.
Qed.

Lemma at_wf s c cn0 cn k ev p :
  srv_wf s → active s c cn0 → buf_ok cn → conn_state (cfg s) cn → events_for c (events s) ev →
  srv_wf (at_ s c cn k ev p 0).
Proof.
  intros [Hcfg Hth Htm Hact Hnd Hst Hcs Hev Hcount Hlim] [Hc Hns] Hbuf Hstate He.
  split; simpl; try done.
  - intros d Hd. assert (d ≠ c) by congruence. rewrite lookup_insert_ne by done.
    rewrite (events_for_lookup c d _ _ He) by done. by apply Hst.
  - intros d dn Hd. destruct (decide (d = c)) as [->|Hne].
    + rewrite lookup_insert_eq in Hd. injection Hd as <-. destruct (Hcs c cn0 Hc) as (_ & ? & _). done.
    + rewrite lookup_insert_ne in Hd by done. by apply Hcs.
  - intros d Hd. destruct (decide (d = c)) as [->|Hne]; [rewrite lookup_insert_eq; eauto|].
    rewrite lookup_insert_ne by done. apply Hev. by rewrite <- (events_for_lookup c d _ _ He).
  - rewrite map_size_insert_Some by (by rewrite Hc). done.
Qed.

Lemma pool_full_room s : srv_wf s → pool_full s = false →
  connectionStackLimit_ (cfg s) = 0 ∨ zlen (connectionStack_ s) < connectionStackLimit_ (cfg s).
Proof.
  intros Hwf. unfold pool_full. destruct (Z.eqb_spec (connectionStackLimit_ (cfg s)) 0); [by left|].
  cbn [negb andb]. intros Hle%Z.leb_gt. by right.
Qed.

Lemma close_wf s c cn0 cn k ev p :
  srv_wf s → active s c cn0 → buf_ok cn → events_for c (events s) ev →
  ∃ s', close c (at_ s c cn k ev p 0) = Ret tt s' ∧ srv_wf s' ∧ events s' !! c = None ∧
    (∀ d, d ≠ c → connections s' !! d = connections s !! d).
Proof.
  intros Hwf [Hc Hns] Hbuf He. pose proof Hwf as [Hcfg Hth Htm Hact Hnd Hst Hcs Hev Hcount Hlim].
  assert (∀ d, d ≠ c → delete c ev !! d = events s !! d) as Hed.
  { intros d Hd. rewrite lookup_delete_ne by done. by apply (events_for_lookup c d). }
  destruct (close_at s c cn k ev p 0 Hcfg Hbuf) as [k' Hcl].
  destruct (pool_full s) eqn:Hfull.
  - rewrite Hcl. eexists. split; [done|]. split; [|split; simpl].
    + split; simpl; try done.
      * intros d Hd. assert (d ≠ c) by congruence. rewrite lookup_delete_ne, Hed by done. by apply Hst.
      * intros d dn. rewrite lookup_delete_Some. intros [_ Hd]. by apply Hcs.
      * intros d. destruct (decide (d = c)) as [->|Hne]; [rewrite lookup_delete_eq; by intros [? ?]|].
        rewrite (lookup_delete_ne (connections s)), Hed by done. apply Hev.
      * rewrite Hcount, map_size_delete_Some by (by rewrite Hc).
        assert (size (connections s) ≠ 0%nat).
        { intros Hz%map_size_empty_inv. by rewrite Hz, lookup_empty in Hc. }
        unfold u64, wrapu. rewrite Zminus_mod_idemp_l. f_equal. lia.
    + by rewrite lookup_delete_eq.
    + intros d Hd. by rewrite lookup_delete_ne.
  - destruct Hcl as (cn' & Hcl & Hbuf'). rewrite Hcl. eexists. split; [done|].
    split; [|split; simpl].
    + split; simpl; try done.
      * by constructor.
      * intros d. rewrite elem_of_cons. intros [->|Hd].
        -- rewrite lookup_insert_eq, lookup_delete_eq. eauto.
        -- assert (d ≠ c) by congruence. rewrite lookup_insert_ne, Hed by done. by apply Hst.
      * intros d dn. destruct (decide (d = c)) as [->|Hne].
        -- rewrite lookup_insert_eq. intros [= <-]. split; [done|]. split; [by eapply Hcs|].
           intros Hni. by destruct Hni; left.
        -- rewrite lookup_insert_ne by done. intros Hd. destruct (Hcs d dn Hd) as (? & ? & Hs).
           split; [done|]. split; [done|]. intros Hni. apply Hs. intros ?. by apply Hni; right.
      * intros d. destruct (decide (d = c)) as [->|Hne]; [rewrite lookup_insert_eq; eauto|].
        rewrite lookup_insert_ne, Hed by done. apply Hev.
      * rewrite map_size_insert_Some by (by rewrite Hc). done.
      * rewrite zlen_cons. pose proof (pool_full_room s Hwf Hfull). lia.
    + by rewrite lookup_delete_eq.
    + intros d Hd. by rewrite lookup_insert_ne.
Qed.

(** ** Every handler keeps the invariant *)

(** The handler of an event of connection [c] ends normally, keeps the invariant
    and does not touch the other connections. *)
Definition handled s c (o : outcome texn Srv unit) : Prop :=
  ∃ s', o = Ret tt s' ∧ srv_wf s' ∧ ∀ d, d ≠ c → connections s' !! d = connections s !! d.

Lemma ev_stable_True : ev_stable (K := K) (λ _, True).
Proof. done. Qed.

Lemma at_handled s c cn0 cn k ev p :
  srv_wf s → active s c cn0 → buf_ok cn → conn_state (cfg s) cn → events_for c (events s) ev →
  handled s c (Ret tt (at_ s c cn k ev p 0)).
Proof.
  intros Hwf Ha Hb Hs He. eexists. split; [done|]. split; [by eapply at_wf|].
  intros d Hd. simpl. by rewrite lookup_insert_ne.
Qed.

Lemma close_handled s c cn0 cn k ev p :
  srv_wf s → active s c cn0 → buf_ok cn → events_for c (events s) ev →
  handled s c (close c (at_ s c cn k ev p 0)).
Proof.
  intros Hwf Ha Hb He. destruct (close_wf s c cn0 cn k ev p Hwf Ha Hb He) as (s' & -> & ? & _ & ?).
  by exists s'.
Qed.

Lemma to_framing_state g cn : ioThread_ cn = Some 0 → conn_state g (to_framing cn).
Proof. intros Ht. by split. Qed.

Lemma wait_task_handled s c cn0 cn k ev p :
  srv_wf s → active s c cn0 → buf_ok cn → ioThread_ cn = Some 0 → events_for c (events s) ev →
  handled s c (app_wait_task c (at_ s c cn k ev p 1)).
Proof.
  intros Hwf Ha Hbuf Ht He. pose proof Hbuf as [Hread Hout Hsock].
  destruct (app_wait_task_at (λ _, True) s c cn k ev p 1 0) as (k' & ev' & -> & _ & He');
    [done..|].
  change (decremented 1) with 0. apply (at_handled s c cn0); [done..| | |].
  - destruct (Z.ltb_spec 4 (wBase_ (outputTransport_ cn))); [|by split].
    split; [done|by apply with_header_ok|done].
  - destruct (Z.ltb_spec 4 (wBase_ (outputTransport_ cn))); [|by apply to_framing_state].
    split; [done|]. simpl. split_and!; done || lia.
  - by eapply events_for_trans.
Qed.

Lemma read_request_handled s c cn0 cn k ev p :
  srv_wf s → active s c cn0 → buf_ok cn → ioThread_ cn = Some 0 → events_for c (events s) ev →
  0 ≤ readBufferPos_ cn ≤ zlen (readBuffer_ cn) →
  handled s c (app_read_request c (at_ s c cn k ev p 0)).
Proof.
  intros Hwf Ha [Hread Hout Hsock] Ht He Hpos.
  destruct (app_read_request_at s c cn k ev p 0 (wf_tm s Hwf) Hout) as (o & Hok & _ & ->).
  set (req := ztake (readBufferPos_ cn) (readBuffer_ cn)).
  assert (mb_ok (request req)) as Hreq.
  { unfold req. pose proof (zlen_ztake (readBufferPos_ cn) (readBuffer_ cn) Hpos).
    split; simpl; lia. }
  pose proof (process_law (told p) (request req) o Hreq Hok) as Hp.
  change (u64 (0 + 1)) with 1. change (decremented 1) with 0.
  destruct (pr_process _) as [b [[p' i'] o']|e [[p' i'] o']|f]; [| |done].
  - apply (wait_task_handled s c cn0); [done..|by split|done|done].
  - apply (close_handled s c cn0); [done..|by split|done].
Qed.

Lemma read_frame_size_handled s c cn0 cn k ev p :
  srv_wf s → active s c cn0 → buf_ok cn → ioThread_ cn = Some 0 → events_for c (events s) ev →
  0 ≤ readWant_ cn ≤ maxFrameSize_ (cfg s) →
  handled s c (app_read_frame_size c (at_ s c cn k ev p 0)).
Proof.
  intros Hwf Ha Hbuf Ht He Hwant. pose proof (config_frame _ (wf_cfg s Hwf)).
  destruct (app_read_frame_size_at s c cn k ev p 0 Hbuf) as (rb & -> & Hrb); [lia|].
  apply (at_handled s c cn0); [done..| | |done].
  - destruct Hbuf. split; [split; [done|simpl; lia]|done|done].
  - split; [done|]. simpl. split_and!; [done|lia|lia|]. lia.
Qed.

Lemma send_result_handled s c cn0 cn k ev p :
  srv_wf s → active s c cn0 → buf_ok cn → ioThread_ cn = Some 0 → events_for c (events s) ev →
  handled s c (app_send_result c (at_ s c cn k ev p 0)).
Proof.
  intros Hwf Ha Hbuf Ht He.
  destruct (app_send_result_at (λ _, True) s c cn k ev p 0 0)
    as (rb & n & o & l & calls & k' & ev' & -> & Hok & _ & He'); [done..|apply Hwf|done|].
  apply (at_handled s c cn0); [done..| | |].
  - destruct Hok. by split.
  - by apply to_framing_state.
  - by eapply events_for_trans.
Qed.

Lemma app_init_handled s c cn0 cn k ev p :
  srv_wf s → active s c cn0 → buf_ok cn → ioThread_ cn = Some 0 → events_for c (events s) ev →
  handled s c (app_init c (at_ s c cn k ev p 0)).
Proof.
  intros Hwf Ha Hbuf Ht He.
  destruct (app_init_at (λ _, True) s c cn k ev p 0 0) as (k' & ev' & -> & _ & He'); [done..|].
  apply (at_handled s c cn0); [done..| | |].
  - destruct Hbuf. by split.
  - by apply to_framing_state.
  - by eapply events_for_trans.
Qed.

(** [TSocket::read] from a connection, on any operating system. *)
Lemma socket_read_any n s c cn k ev p na :
  0 ≤ n → buf_ok cn →
  ∃ got k', socket_read c n (at_ s c cn k ev p na) = Ret got (at_ s c cn k' ev p na) ∧
    match got with Some b => zlen b ≤ n ∧ Forall is_byte b | None => True end.
Proof.
  intros Hn [_ _ Hsock]. pose proof (read_outcome_total n (tSocket_ cn) k Hsock) as Ho.
  destruct (Socket.read n (tSocket_ cn, k)) as [b [sk k']|e [sk k']|f] eqn:Hr; [| |done].
  - simpl in Ho. subst sk. destruct (read_recv _ _ _ _ _ Hsock Hr) as (k1 & k2 & Hrecv).
    destruct (recv_bound _ _ _ _ _ Hn Hrecv). exists (Some b), k'. split; [|done].
    by apply socket_read_Ret.
  - destruct e; try done. simpl in Ho. subst sk. exists None, k'. split; [|done].
    by eapply socket_read_Exn.
Qed.

(** A frame of size zero has been announced. *)
Definition zero_frame cn : Prop := appState_ cn = APP_READ_REQUEST ∧ readWant_ cn = 0.

Lemma memcpy_bytes buf i b : Forall is_byte buf → Forall is_byte b → Forall is_byte (memcpy buf i b).
Proof.
  intros Hbuf Hb. unfold memcpy. rewrite !Forall_app. by split_and!; try apply Forall_take; try apply Forall_drop.
Qed.

Lemma framing_handled s c cn k :
  srv_wf s → active s c cn → buf_ok cn → ioThread_ cn = Some 0 →
  appState_ cn = APP_INIT ∨ appState_ cn = APP_READ_FRAME_SIZE → 0 ≤ readBufferPos_ cn < 4 →
  socketState_ cn = SOCKET_RECV_FRAMING →
  handled s c (work_recv_framing c (at_ s c cn k (events s) (processor_ s) 0)).
Proof.
  intros Hwf Ha Hbuf Ht Happ Hpos Hss.
  destruct (socket_read_any (4 - readBufferPos_ cn) s c cn k (events s) (processor_ s) 0 ltac:(lia) Hbuf)
    as (got & k' & Hr & Hgot).
  rewrite (work_recv_framing_at _ _ _ _ _ _ _ got k' Hpos Hr) by (by destruct got as [?|]; [apply Hgot|]).
  destruct got as [[|x b]|]; try by eapply close_handled. destruct Hgot as [Hlen Hbytes].
  cbv zeta. set (b' := x :: b). pose proof (zlen_nonneg b).
  assert (0 < zlen b') by (unfold b'; rewrite zlen_cons; lia).
  set (buf := memcpy (to_le 4 (readWant_ cn)) (readBufferPos_ cn) b').
  assert (zlen (to_le 4 (readWant_ cn)) = 4) as Hle.
  { unfold to_le, zlen. by rewrite length_reverse, to_be_length. }
  assert (0 ≤ of_be buf) as Hge.
  { apply of_be_range, memcpy_bytes; [|done]. unfold to_le. rewrite reverse_Permutation.
    apply to_be_bytes. }
  assert (∀ w q, buf_ok (set_readWant w (set_readBufferPos q cn))) as Hbuf'
    by (intros; destruct Hbuf; by split).
  destruct (Z.ltb_spec (readBufferPos_ cn + zlen b') 4).
  - apply (at_handled s c cn); [done..| |done]. split; [done|]. simpl.
    by destruct Happ as [-> | ->]; split; try lia.
  - destruct (Z.ltb_spec (maxFrameSize_ (cfg s)) (of_be buf)).
    + by apply (close_handled s c cn).
    + erewrite transition_at by done. simpl. destruct Happ as [-> | ->].
      * by apply (app_init_handled s c cn).
      * apply (read_frame_size_handled s c cn); [done..|]. simpl. lia.
Qed.

Lemma recv_handled s c cn k :
  srv_wf s → active s c cn → buf_ok cn → conn_state (cfg s) cn → appState_ cn = APP_READ_REQUEST →
  readWant_ cn ≠ 0 →
  handled s c (work_recv c (at_ s c cn k (events s) (processor_ s) 0)).
Proof.
  intros Hwf Ha Hbuf [Ht Hst] Happ Hnz. rewrite Happ in Hst.
  destruct Hst as (Hss & Hsize & Hmax & Hpos). assert (0 ≤ readBufferPos_ cn < readWant_ cn) by lia.
  pose proof (config_frame _ (wf_cfg s Hwf)).
  destruct (socket_read_any (readWant_ cn - readBufferPos_ cn) s c cn k (events s) (processor_ s) 0 ltac:(lia) Hbuf)
    as (got & k' & Hr & Hgot).
  rewrite (work_recv_at _ _ _ _ _ _ _ got k') by (try lia; try done; by destruct got as [?|]; [apply Hgot|]).
  destruct got as [[|x b]|]; try by eapply close_handled. destruct Hgot as [Hlen Hbytes].
  cbv zeta. set (b' := x :: b). pose proof (zlen_nonneg b').
  assert (zlen (memcpy (readBuffer_ cn) (readBufferPos_ cn) b') = zlen (readBuffer_ cn)) as Hmem
    by (apply zlen_memcpy; unfold b'; lia).
  set (cn1 := set_readBufferPos _ _).
  assert (buf_ok cn1) as Hbuf1.
  { destruct Hbuf as [[? ?] ? ?]. split; [|done|done]. simpl. by rewrite Hmem. }
  destruct (Z.eqb_spec (readBufferPos_ cn + zlen b') (readWant_ cn)).
  - erewrite transition_at by done. change (appState_ cn1) with (appState_ cn). rewrite Happ.
    apply (read_request_handled s c cn); [done..|]. simpl. lia.
  - apply (at_handled s c cn); [done..| |done]. split; [done|]. simpl. rewrite Happ.
    split_and!; [done|lia|lia|]. right. unfold b' in *. lia.
Qed.

Lemma send_handled s c cn k :
  srv_wf s → active s c cn → buf_ok cn → conn_state (cfg s) cn → appState_ cn = APP_SEND_RESULT →
  handled s c (work_send c (at_ s c cn k (events s) (processor_ s) 0)).
Proof.
  intros Hwf Ha Hbuf [Ht Hst] Happ. rewrite Happ in Hst. destruct Hst as (Hss & Hptr & Hpos & Hsize).
  pose proof Hbuf as [Hread ([Ho Hs] & Hown & Hrb) Hsock].
  rewrite work_send_at by (done || lia).
  set (data := sub _ _ _). pose proof (write_partial_outcome data (tSocket_ cn) k) as Hw.
  assert (zlen data = writeBufferSize_ cn - writeBufferPos_ cn) as Hdata
    by (apply zlen_sub; lia).
  assert (∀ sk, timeouts_ok sk → buf_ok (set_tSocket sk cn)) as Hbuf1 by (intros; by split).
  destruct (Socket.write_partial data (tSocket_ cn, k)) as [n [sk k']|e [sk k']|f]; [| |done].
  - destruct Hw as [-> Hn].
    assert (0 ≤ n ≤ writeBufferSize_ cn - writeBufferPos_ cn ∧ n < 2 ^ 31) as [Hn1 Hn2].
    { destruct Hn as [->|(m & k2 & Hsend & ->)]; [lia|].
      destruct (send_bound _ _ _ _ _ Hsend). unfold u32. rewrite wrapu_small; lia. }
    cbv zeta. assert (u32 (writeBufferPos_ cn + i32 n) = writeBufferPos_ cn + n) as ->.
    { unfold i32. rewrite wraps_small by lia. apply wrapu_small. lia. }
    destruct (Z.leb_spec (writeBufferPos_ cn + n) (writeBufferSize_ cn)); [|lia]. cbn [negb].
    set (cn1 := set_writeBufferPos _ _). assert (buf_ok cn1) as Hbuf2 by (by split).
    destruct (Z.eqb_spec (writeBufferPos_ cn + n) (writeBufferSize_ cn)).
    + erewrite transition_at by done. change (appState_ cn1) with (appState_ cn). rewrite Happ.
      by apply (send_result_handled s c cn).
    + apply (at_handled s c cn); [done..| |done]. split; [done|]. simpl. rewrite Happ.
      split_and!; done || lia.
  - destruct e; try done. apply (close_handled s c cn); [done..| |done]. apply Hbuf1.
    by destruct Hw as [-> | ->].
Qed.

Lemma workSocket_handled s c cn :
  srv_wf s → active s c cn → ¬ zero_frame cn → handled s c (workSocket c s).
Proof.
  intros Hwf Ha Hnz. pose proof Ha as [Hc Hns].
  destruct (wf_conns s Hwf c cn Hc) as (Hbuf & _ & Hst). specialize (Hst Hns).
  rewrite (at_self s c cn Hc) at 2. rewrite (wf_active s Hwf), workSocket_at.
  pose proof Hst as [Ht Hm]. destruct (appState_ cn) eqn:Happ; try done.
  - destruct Hm as [Hss Hpos]. rewrite Hss. apply framing_handled; auto.
  - destruct Hm as [Hss Hpos]. rewrite Hss. apply framing_handled; auto.
  - destruct Hm as (Hss & _). rewrite Hss. apply recv_handled; try done.
    intros Hz. by apply Hnz.
  - destruct Hm as (Hss & _). rewrite Hss. by apply send_handled.
Qed.

Lemma workSocket_zero_frame s c cn :
  srv_wf s → active s c cn → zero_frame cn → workSocket c s = Stuck AssertFailed.
Proof.
  intros Hwf Ha [Happ Hz]. pose proof Ha as [Hc Hns].
  destruct (wf_conns s Hwf c cn Hc) as (Hbuf & _ & Hst). destruct (Hst Hns) as [Ht Hm].
  rewrite Happ in Hm. destruct Hm as (Hss & _ & _ & Hpos).
  rewrite (at_self s c cn Hc), workSocket_at, Hss. unfold work_recv. rewrite bind_get.
  destruct (Z.ltb_spec (readBufferPos_ cn) (readWant_ cn)); [lia|done].
Qed.

(** ** New clients *)

(** A connection object that has just been initialised. *)
Definition opened s c stack nid num cn k p : Srv :=
  mkServer (cfg s) (ioThreads_ s) 0 (threadManager_ s) num (numActiveProcessors_ s)
    (overloaded_ s) (nConnectionsDropped_ s) (nTotalConnectionsDropped_ s) stack
    (<[c := cn]> (connections s)) nid (events s) p k.

Definition initialised (fd : Z) cn : TConnection :=
  set_ioThread (Some 0) $ set_appState APP_INIT $ set_eventFlags 0 $
  set_readBufferPos 0 $ set_readWant 0 $
  set_writeBuffer None $ set_writeBufferSize 0 $ set_writeBufferPos 0 $
  set_largestWriteBufferSize 0 $
  set_socketState SOCKET_RECV_FRAMING $ set_callsForResize 0 $
  set_tSocket (Socket.with_fd fd (tSocket_ cn)) cn.

Lemma setSocketFD_eq fd sk k :
  ∃ k', Socket.setSocketFD (K := K) fd (sk, k) = Ret tt (Socket.with_fd fd sk, k').
Proof.
  unfold Socket.setSocketFD, Socket.this. rewrite (M_bind_ret _ _ (sk, k) sk (sk, k)) by done.
  destruct (isOpen sk); [|eexists; reflexivity].
  destruct (socket_close_eq (sk, k)) as [k' Hc]. exists k'. by rewrite (M_bind_ret _ _ _ _ _ Hc).
Qed.

Lemma init_at fd s c cn k ev p na :
  ∃ k' p', init c fd 0 (at_ s c cn k ev p na) = Ret tt (at_ s c (initialised fd cn) k' ev p' na).
Proof.
  destruct (setSocketFD_eq fd (tSocket_ cn) k) as [k' Hfd]. unfold init.
  erewrite M_bind_ret by (rewrite on_socket_at, Hfd; reflexivity). rewrite bind_upd.
  unfold on_handler, modify. destruct pr_handler as [h|]; eauto.
Qed.

Lemma initialised_ok g fd cn : buf_ok cn → buf_ok (initialised fd cn) ∧ conn_state g (initialised fd cn).
Proof. intros [Hr Ho Hs]. split; [by split|]. split; [done|]. simpl. split; [done|lia]. Qed.

Lemma opened_fresh_wf s cn k p :
  srv_wf s → buf_ok cn → conn_state (cfg s) cn →
  srv_wf (opened s (nextId s) (connectionStack_ s) (nextId s + 1) (u64 (numTConnections_ s + 1)) cn k p).
Proof.
  intros [Hcfg [Hth Hnx] Htm Hact Hnd Hst Hcs Hev Hcount Hlim] Hbuf Hstate.
  assert (connections s !! nextId s = None) as Hfresh.
  { destruct (connections s !! nextId s) as [dn|] eqn:Hd; [|done].
    destruct (Hcs _ _ Hd) as (_ & ? & _). lia. }
  assert (∀ d, is_Some (connections s !! d) → is_Some (<[nextId s := cn]> (connections s) !! d)) as Hmono.
  { intros d Hd. rewrite lookup_insert. by case_decide. }
  split; simpl; try done.
  - intros d Hd. destruct (Hst d Hd). auto.
  - intros d dn Hd. destruct (decide (d = nextId s)) as [->|Hne].
    + rewrite lookup_insert_eq in Hd. injection Hd as <-. split; [done|]. split; [lia|done].
    + rewrite lookup_insert_ne in Hd by done. destruct (Hcs d dn Hd) as (? & ? & ?).
      split; [done|]. split; [lia|done].
  - intros d Hd. auto.
  - rewrite Hcount, map_size_insert_None by done. unfold u64, wrapu. rewrite Zplus_mod_idemp_l.
    f_equal. lia.
Qed.

Lemma opened_reused_wf s c stack cn k p :
  srv_wf s → connectionStack_ s = c :: stack → buf_ok cn → conn_state (cfg s) cn →
  srv_wf (opened s c stack (nextId s) (numTConnections_ s) cn k p).
Proof.
  intros [Hcfg [Hth Hnx] Htm Hact Hnd Hst Hcs Hev Hcount Hlim] Hstack Hbuf Hstate.
  rewrite Hstack in *. apply NoDup_cons in Hnd as [Hni Hnd].
  destruct (Hst c) as [[cn0 Hc0] _]; [by left|].
  split; simpl; try done.
  - intros d Hd. destruct (Hst d) as [? ?]; [by right|]. assert (d ≠ c) by congruence.
    by rewrite lookup_insert_ne.
  - intros d dn Hd. destruct (decide (d = c)) as [->|Hne].
    + rewrite lookup_insert_eq in Hd. injection Hd as <-. split; [done|].
      split; [by eapply Hcs|done].
    + rewrite lookup_insert_ne in Hd by done. destruct (Hcs d dn Hd) as (? & ? & Hs).
      split; [done|]. split; [done|]. intros Hnd'. apply Hs. rewrite elem_of_cons. by intros [?|?].
  - intros d Hd. rewrite lookup_insert. case_decide; [by eauto|]. by apply Hev.
  - rewrite map_size_insert_Some by (by rewrite Hc0). done.
  - rewrite zlen_cons in Hlim. lia.
Qed.

Lemma createConnection_wf fd s :
  srv_wf s →
  ∃ c cn s1, createConnection fd s = Ret c s1 ∧ srv_wf s1 ∧ active s1 c cn ∧
    appState_ cn = APP_INIT ∧ cfg s1 = cfg s.
Proof.
  intros Hwf. pose proof Hwf as [Hcfg [Hth Hnx] Htm Hact Hnd Hst Hcs Hev Hcount Hlim].
  unfold createConnection, self. erewrite M_bind_ret by reflexivity. rewrite Hth, Hnx.
  change (negb (0 <? zlen [[]])) with false. cbv iota. erewrite M_bind_ret by reflexivity.
  change (u32 (0 + 1) mod zlen [[]]) with 0.
  destruct (connectionStack_ s) as [|c stack] eqn:Hstack.
  - unfold new_TConnection, self. rewrite M_bind_eq. erewrite M_bind_ret by reflexivity. simpl.
    destruct (sized_out_ok _ (config_write _ Hcfg)) as (o & Ho & Hok). rewrite Ho.
    set (cn0 := mkConn _ _ _ _ _ _ _ _ _ _ _ _ _ _ _ _).
    assert (buf_ok cn0) as Hb0 by (split; [done|done|split; simpl; lia]).
    destruct (init_at fd (upd_nextId (nextId s + 1) (upd_nextIOThread 0 s)) (nextId s) cn0
      (kernel s) (events s) (processor_ s) (numActiveProcessors_ s)) as (k' & p' & Hi).
    destruct (initialised_ok (cfg s) fd cn0 Hb0) as [Hb1 Hs1].
    erewrite M_bind_ret by reflexivity. erewrite M_bind_ret by exact Hi.
    exists (nextId s), (initialised fd cn0). eexists. split; [reflexivity|].
    assert (srv_wf (opened s (nextId s) (connectionStack_ s) (nextId s + 1) (u64 (numTConnections_ s + 1))
      (initialised fd cn0) k' p')) as Hwf1 by (by apply opened_fresh_wf).
    split; [exact Hwf1|]. split; [|done]. split; simpl; [apply lookup_insert_eq|].
    rewrite Hstack. apply not_elem_of_nil.
  - destruct (Hst c) as [[cn0 Hc0] _]; [by left|].
    assert (srv_wf s) as Hwf0 by done. destruct (Hcs c cn0 Hc0) as (Hb0 & _ & _).
    destruct (init_at fd (upd_connectionStack stack (upd_nextIOThread 0 s)) c cn0
      (kernel s) (events s) (processor_ s) (numActiveProcessors_ s)) as (k' & p' & Hi).
    assert (at_ (upd_connectionStack stack (upd_nextIOThread 0 s)) c cn0 (kernel s) (events s)
      (processor_ s) (numActiveProcessors_ s) = upd_connectionStack stack (upd_nextIOThread 0 s)) as Heq
      by (unfold at_; simpl; by rewrite insert_id).
    rewrite Heq in Hi. destruct (initialised_ok (cfg s) fd cn0 Hb0) as [Hb1 Hs1].
    erewrite M_bind_ret by reflexivity. erewrite M_bind_ret by exact Hi.
    exists c, (initialised fd cn0). eexists. split; [reflexivity|].
    assert (srv_wf (opened s c stack (nextId s) (numTConnections_ s) (initialised fd cn0) k' p')) as Hwf1
      by (by apply opened_reused_wf).
    split; [exact Hwf1|]. split; [|done]. split; simpl; [apply lookup_insert_eq|].
    by apply NoDup_cons in Hnd as [? _].
Qed.

(** The counters of the overload control are not part of the invariant. *)
Definition with_counters s over dropped total k : Srv :=
  mkServer (cfg s) (ioThreads_ s) (nextIOThread_ s) (threadManager_ s) (numTConnections_ s)
    (numActiveProcessors_ s) over dropped total (connectionStack_ s) (connections s) (nextId s)
    (events s) (processor_ s) k.

Lemma with_counters_wf s over dropped total k : srv_wf s → srv_wf (with_counters s over dropped total k).
Proof. intros []. by split. Qed.

Context (hysteresis : Z → Z → bool).

Lemma serverOverloaded_eq s :
  ∃ over dropped, serverOverloaded hysteresis s =
    Ret over (with_counters s over dropped (nTotalConnectionsDropped_ s) (kernel s)).
Proof.
  unfold serverOverloaded, self. erewrite M_bind_ret by reflexivity. cbv zeta.
  destruct (_ || _).
  - exists true, (nConnectionsDropped_ s). destruct (overloaded_ s) eqn:Ho; cbn [negb].
    all: erewrite M_bind_ret by reflexivity; unfold gets, with_counters; rewrite <- ?Ho; by destruct s.
  - destruct (overloaded_ s && _ && _).
    + exists false, 0. by erewrite M_bind_ret by reflexivity.
    + exists (overloaded_ s), (nConnectionsDropped_ s). erewrite M_bind_ret by reflexivity.
      unfold gets, with_counters. by destruct s.
Qed.

Lemma handleEvent_wf l s : srv_wf s → ∃ s', handleEvent hysteresis l s = Ret tt s' ∧ srv_wf s'.
Proof.
  revert s. induction l as [|[fd ok] l IH]; intros s Hwf; cbn [handleEvent]; [by exists s|].
  rewrite bind_gets.
  assert (∀ s0, srv_wf s0 → ∃ s', on_kernel (λ k, (tt, k_close_fd fd k)) s0 = Ret tt s' ∧ srv_wf s')
    as Hdrop.
  { intros s0 Hwf0. eexists. split; [reflexivity|].
    apply (with_counters_wf s0 (overloaded_ s0) (nConnectionsDropped_ s0) (nTotalConnectionsDropped_ s0)).
    done. }
  assert (∃ over s1, (if bool_decide (overloadAction_ (cfg s) = T_OVERLOAD_NO_ACTION) then mret false
      else serverOverloaded hysteresis) s = Ret over s1 ∧ srv_wf s1 ∧ cfg s1 = cfg s)
    as (over & s1 & Hover & Hwf1 & Hcfg1).
  { destruct (bool_decide _); [by exists false, s|]. destruct (serverOverloaded_eq s) as (o & d & ->).
    eexists _, _. split; [done|]. split; [by apply with_counters_wf|done]. }
  rewrite (M_bind_ret _ _ _ _ _ Hover). cbv beta.
  match goal with |- context [mbind _ (if over then ?m else mret false)] =>
    assert (∃ refused s2, (if over then m else mret false) s1 = Ret refused s2 ∧ srv_wf s2)
      as (refused & s2 & Href & Hwf2) end.
  { destruct over; [|by exists false, s1]. erewrite M_bind_ret by reflexivity.
    set (s2 := upd_nTotalConnectionsDropped _ _).
    assert (srv_wf s2) as Hwf2 by (by apply (with_counters_wf s1)).
    destruct (overloadAction_ (cfg s)); [by exists false, s2|by exists true, s2|].
    unfold drainPendingTask. rewrite M_bind_eq, bind_gets, (wf_tm s2 Hwf2).
    by exists true, s2. }
  rewrite (M_bind_ret _ _ _ _ _ Href). destruct refused; [by apply Hdrop|].
  destruct ok; cbn [negb]; [|by apply Hdrop].
  destruct (createConnection_wf fd s2 Hwf2) as (c & cn & s3 & Hcr & Hwf3 & Ha & Happ & _).
  rewrite (M_bind_ret _ _ _ _ _ Hcr). pose proof Ha as [Hc Hns].
  destruct (wf_conns s3 Hwf3 c cn Hc) as (Hbuf & _ & Hst). destruct (Hst Hns) as [Ht _].
  assert (handled s3 c (transition c s3)) as (s4 & Htr & Hwf4 & _).
  { rewrite (at_self s3 c cn Hc) at 2. erewrite transition_at by done.
    rewrite Happ, (wf_active s3 Hwf3). by apply (app_init_handled s3 c cn). }
  assert (get_conn c s3 = Ret cn s3) as Hg by (unfold get_conn; by rewrite Hc).
  rewrite (M_bind_ret _ _ _ _ _ Hg), Ht. cbn [Z.eqb].
  rewrite (M_bind_ret _ _ _ _ _ Htr). by apply IH.
Qed.

(** ** The server as a system of events *)

(** The listening socket or the socket of a connection is ready; libevent reports
    only connections that are registered. *)
Inductive nb_step : Srv → Srv → Prop :=
| step_accept l s s' : handleEvent hysteresis l s = Ret tt s' → nb_step s s'
| step_ready c s s' : is_Some (events s !! c) → workSocket c s = Ret tt s' → nb_step s s'.

Definition initial_server (g : Config) p k : Srv :=
  mkServer g [[]] 0 None 0 0 false 0 0 [] ∅ 0 ∅ p k.

Lemma initial_server_wf g p k : config_ok g → srv_wf (initial_server g p k).
Proof.
  intros Hg. pose proof (config_stack g Hg). split; simpl; try done.
  - constructor.
  - by intros c ?%not_elem_of_nil.
  - intros c. rewrite lookup_empty. by intros [? ?].
  - rewrite zlen_nil. lia.
Qed.

Lemma events_active s c : srv_wf s → is_Some (events s !! c) → ∃ cn, active s c cn.
Proof.
  intros Hwf Hev. destruct (wf_events s Hwf c Hev) as [cn Hc]. exists cn. split; [done|].
  intros Hin. destruct (wf_stack s Hwf c Hin) as [_ Hn]. rewrite Hn in Hev. by destruct Hev.
Qed.

Lemma nb_step_wf s s' : srv_wf s → nb_step s s' → srv_wf s'.
Proof.
  intros Hwf Hstep. revert Hwf. destruct Hstep as [l s1 s2 Hh|c s1 s2 Hev Hh]; intros Hwf.
  - destruct (handleEvent_wf l s1 Hwf) as (s3 & Heq & ?). congruence.
  - destruct (events_active s1 c Hwf Hev) as [cn Ha].
    destruct (decide (appState_ cn = APP_READ_REQUEST ∧ readWant_ cn = 0)) as [Hz|Hz].
    + by rewrite (workSocket_zero_frame s1 c cn Hwf Ha Hz) in Hh.
    + destruct (workSocket_handled s1 c cn Hwf Ha Hz) as (s3 & Heq & ? & _). congruence.
Qed.

Lemma nb_reachable_wf g p k s : config_ok g → rtc nb_step (initial_server g p k) s → srv_wf s.
Proof.
  intros Hg Hr. assert (srv_wf (initial_server g p k)) as Hwf by (by apply initial_server_wf).
  induction Hr as [|s1 s2 s3 Hstep _ IH]; [done|]. apply IH. by eapply nb_step_wf.
Qed.


End Invariant.
