(* ===== verification/NonblockingReplies.v ===== *)
(** * [TNonblockingServer] answers requests

    What a client sees: a request sent as a frame, in whatever pieces it arrives,
    is handed to the processor once, and its reply comes back as a frame. *)

From S2P Require Import Prelude Bytes Transport BufferTransports MemoryBufferTheorems.
From S2P Require Import LayeredTheorems Socket NonblockingServer NonblockingSteps.
From stdpp Require Import base gmap list.
From Stdlib Require Import ZArith Lia.

Local Open Scope Z_scope.
Import Conn Srv Nonblocking.

(** On a request [m] the processor goes from [p] to [next p m] and appends
    [reply p m] to the output transport. *)
Class ProcessorSpec (P : Type) `{Malloc} `{Processor P} (reply : P → bytes → bytes)
    (next : P → bytes → P) :=
  process_spec : ∀ p i o m, mb_ok i → mb_inp i = m → out_ok o → wBase_ o + zlen (reply p m) ≤ 2 ^ 31 →
    ∃ b i' o', pr_process (p, i, o) = Ret b (next p m, i', o') ∧ out_ok o' ∧
      mb_out o' = mb_out o ++ reply p m.

(** Registering events does not touch the data of the sockets. *)
Class EventStream (K : Type) `{Libevent K} (kinp kout : K → bytes) (kok : Z → K → Prop) := {
  ev_add_stream : ∀ c d fl fd k, kok fd k → let k' := (ev_add c d fl k).2 in
    kok fd k' ∧ kinp k' = kinp k ∧ kout k' = kout k;
  ev_del_stream : ∀ c fd k, kok fd k → let k' := (ev_del c k).2 in
    kok fd k' ∧ kinp k' = kinp k ∧ kout k' = kout k }.

Section Replies.
Context {P TM K : Type} `{Malloc} `{Kernel K} `{Libevent K} `{Pipes K} `{Processor P}
  `{ThreadManager TM} `{!LibeventLaws K} `{!MallocLaws}
  {kinp kout : K → bytes} {kok : Z → K → Prop} {intr : K → Z} {burst : Z}
  `{!KernelStream K kinp kout kok intr burst} `{!EventStream K kinp kout kok}
  {reply : P → bytes → bytes} {next : P → bytes → P} `{!ProcessorSpec P reply next}.
Abbreviation Srv := (Server P TM K).
Implicit Types (s : Srv) (cn : TConnection) (k : K) (p : P).

(** [n] events of the connection, one after the other. *)
Fixpoint works (n : nat) (c : Z) : M texn Srv unit :=
  match n with O => mret tt | S n' => workSocket c ;; works n' c end.

Lemma works_trans n m c s s1 s2 :
  works n c s = Ret tt s1 → works m c s1 = Ret tt s2 → works (n + m) c s = Ret tt s2.
Proof.
  revert s. induction n as [|n IH]; intros s Hn Hm; [by injection Hn as ->|].
  cbn [works] in Hn. apply M_bind_inv in Hn as ([] & s0 & Hw & Hn).
  cbn [Nat.add works]. rewrite (M_bind_ret _ _ _ _ _ Hw). by apply IH.
Qed.

Lemma works_S n c s s1 s2 :
  workSocket c s = Ret tt s1 → works n c s1 = Ret tt s2 → works (S n) c s = Ret tt s2.
Proof. intros Hw Hn. cbn [works]. by rewrite (M_bind_ret _ _ _ _ _ Hw). Qed.

Lemma works_1 c s s1 : workSocket c s = Ret tt s1 → works 1 c s = Ret tt s1.
Proof. intros Hw. by apply (works_S 0 c s s1). Qed.

(** The socket of the connection is a lawful stream with the given data. *)
Definition stream (sk : TSocket) (inp out : bytes) k : Prop :=
  sock_ok (kok := kok) (burst := burst) (sk, k) ∧ kinp k = inp ∧ kout k = out.

Lemma stream_ev_stable sk inp out : ev_stable (stream sk inp out).
Proof.
  intros k [(Ho & Ht & Hk & Hb) [Hi Hout]]. simpl in *.
  split; intros; [destruct (ev_add_stream c fd fl (socket_ sk) k Hk) as (? & ? & ?)|
                  destruct (ev_del_stream c (socket_ sk) k Hk) as (? & ? & ?)].
  all: split; [by split_and!|]; split; congruence.
Qed.

Lemma stream_recv n s c cn k ev p na inp out :
  stream (tSocket_ cn) inp out k → 0 < n → inp ≠ [] →
  ∃ b inp' k', socket_read c n (at_ s c cn k ev p na) = Ret (Some b) (at_ s c cn k' ev p na) ∧
    stream (tSocket_ cn) inp' out k' ∧ inp = b ++ inp' ∧ 0 < zlen b ≤ n.
Proof.
  intros (Hok & <- & <-) Hn Hne.
  destruct (socket_stream_read (tSocket_ cn, k) n Hok Hn) as ([sk k'] & b & Hr & Hok' & Hout & Hin & Hlen & Hb).
  pose proof (read_outcome_total n (tSocket_ cn) k) as Hro. change (t_read n) with (Socket.read (K := K) n) in Hr.
  rewrite Hr in Hro. destruct Hok as (_ & Ht & _). specialize (Hro Ht). simpl in Hro. subst sk.
  exists b, (kinp k'), k'. split; [by apply socket_read_Ret|]. split; [by split|]. split; [done|].
  split; [|done]. specialize (Hb Hne). destruct b; [done|]. rewrite zlen_cons. pose proof (zlen_nonneg b). lia.
Qed.

(** The next bytes [b] of [full] go to the place behind the first [pos] ones. *)
Lemma received_more (full tail b inp' : bytes) pos :
  0 ≤ pos ≤ zlen full → zdrop pos full ++ tail = b ++ inp' → zlen b ≤ zlen full - pos →
  b = sub full pos (zlen b) ∧ inp' = zdrop (pos + zlen b) full ++ tail ∧
  ∀ buf, ztake pos buf = ztake pos full → pos ≤ zlen buf →
    ztake (pos + zlen b) (memcpy buf pos b) = ztake (pos + zlen b) full.
Proof.
  intros Hpos Hin Hb. pose proof (zlen_nonneg b).
  assert (zlen (zdrop pos full) = zlen full - pos) as Hd by (apply zlen_zdrop; lia).
  assert (b = sub full pos (zlen b)) as Hsub.
  { apply (f_equal (ztake (zlen b))) in Hin.
    rewrite ztake_app_le, (ztake_app (zlen b) b) in Hin by (done || lia). by rewrite sub_zdrop. }
  split; [done|]. split.
  { apply (f_equal (zdrop (zlen b))) in Hin.
    rewrite zdrop_app_le, (zdrop_app (zlen b) b), zdrop_zdrop in Hin by (done || lia). done. }
  intros buf Hpre Hlen. rewrite memcpy_prefix, Hpre by lia.
  rewrite <- (ztake_zdrop pos (ztake (pos + zlen b) full)), ztake_ztake_le by lia.
  f_equal. rewrite ztake_zdrop_comm by lia. done.
Qed.

(** ** The size of the frame *)

Lemma to_of_le buf : Forall is_byte buf → zlen buf = 4 → to_le 4 (of_le buf) = buf.
Proof.
  intros Hb Hlen. unfold to_le, of_le. assert (4%nat = length (reverse buf)) as ->.
  { rewrite length_reverse. unfold zlen in Hlen. lia. }
  rewrite to_be_of_be; [apply reverse_involutive|]. by rewrite reverse_Permutation.
Qed.

Lemma zlen_to_le z : zlen (to_le 4 z) = 4.
Proof. unfold to_le, zlen. by rewrite length_reverse, to_be_length. Qed.

Lemma to_le_bytes z : Forall is_byte (to_le 4 z).
Proof. unfold to_le. rewrite reverse_Permutation. apply to_be_bytes. Qed.

Lemma recv_header j s c cn k ev p na hdr tail out :
  zlen hdr = 4 → Forall is_byte hdr →
  socketState_ cn = SOCKET_RECV_FRAMING → appState_ cn = APP_READ_FRAME_SIZE → ioThread_ cn = Some 0 →
  0 ≤ readBufferPos_ cn < 4 → 4 - readBufferPos_ cn ≤ Z.of_nat j →
  ztake (readBufferPos_ cn) (to_le 4 (readWant_ cn)) = ztake (readBufferPos_ cn) hdr →
  stream (tSocket_ cn) (zdrop (readBufferPos_ cn) hdr ++ tail) out k →
  ∃ n k', stream (tSocket_ cn) tail out k' ∧
    let st := at_ s c (set_readWant (of_be hdr) (set_readBufferPos 4 cn)) k' ev p na in
    ∀ s', (if maxFrameSize_ (cfg s) <? of_be hdr then close c st else transition c st) = Ret tt s' →
          works n c (at_ s c cn k ev p na) = Ret tt s'.
Proof.
  intros Hlen Hbytes. revert cn k.
  induction j as [|j IH]; intros cn k Hss Happ Ht Hpos Hj Hpre Hst; [lia|].
  destruct (stream_recv (4 - readBufferPos_ cn) s c cn k ev p na _ _ Hst)
    as (b & inp' & k' & Hr & Hst' & Hin & Hb); [lia| |].
  { intros Hnil%(f_equal (zlen (A := Z))). rewrite zlen_app, zlen_zdrop, zlen_nil in Hnil by lia.
    pose proof (zlen_nonneg tail). lia. }
  pose proof (work_recv_framing_at s c cn k ev p na (Some b) k' Hpos Hr (proj2 Hb)) as Hw.
  destruct (received_more hdr tail b inp' (readBufferPos_ cn)) as (Hbsub & Hin' & Hmore); [lia|done|lia|].
  set (pos' := readBufferPos_ cn + zlen b) in *.
  set (buf := memcpy (to_le 4 (readWant_ cn)) (readBufferPos_ cn) b) in *.
  assert (zlen buf = 4) as Hbuf4 by (unfold buf; rewrite zlen_memcpy; rewrite ?zlen_to_le; lia).
  assert (ztake pos' buf = ztake pos' hdr) as Hpre' by (apply Hmore; [done|rewrite zlen_to_le; lia]).
  assert (Forall is_byte buf) as Hbufb.
  { unfold buf, memcpy. rewrite !Forall_app. split_and!; [apply Forall_take, to_le_bytes| |].
    - rewrite Hbsub. unfold sub. by apply Forall_take, Forall_drop.
    - apply Forall_drop, to_le_bytes. }
  destruct b as [|x b]; [rewrite zlen_nil in Hb; lia|].
  assert (workSocket c (at_ s c cn k ev p na) =
    work_recv_framing c (at_ s c cn k ev p na)) as Hws by (rewrite workSocket_at; by rewrite Hss).
  rewrite <- Hws in Hw. cbv zeta in Hw.
  destruct (Z.ltb_spec (readBufferPos_ cn + zlen (x :: b)) 4) as [Hpart|Hfull].
  - destruct (IH (set_readWant (of_le buf) (set_readBufferPos pos' cn)) k')
      as (n & k2 & Hst2 & Hrun); try done.
    + simpl. lia.
    + simpl. lia.
    + simpl. by rewrite to_of_le.
    + simpl. by rewrite <- Hin'.
    + exists (S n), k2. split; [done|]. cbv zeta. intros s' Hs'. eapply works_S; [exact Hw|].
      apply Hrun. etrans; [|exact Hs']. by destruct cn.
  - assert (buf = hdr) as Hbh.
    { rewrite !ztake_ge in Hpre' by (unfold pos'; lia). done. }
    fold buf in Hw. rewrite Hbh in Hw. exists 1%nat, k'. split.
    { rewrite Hin' in Hst'. rewrite zdrop_ge in Hst' by (unfold pos'; lia). done. }
    cbv zeta. intros s' Hs'. apply works_1. rewrite Hw. etrans; [|exact Hs'].
    assert (readBufferPos_ cn + zlen (x :: b) = 4) as -> by lia. done.
Qed.

(** ** The request *)

Lemma recv_request j s c cn k ev p na m rest out :
  socketState_ cn = SOCKET_RECV → appState_ cn = APP_READ_REQUEST → ioThread_ cn = Some 0 →
  readWant_ cn = zlen m → zlen m < 2 ^ 31 → zlen m ≤ zlen (readBuffer_ cn) →
  0 ≤ readBufferPos_ cn < zlen m → zlen m - readBufferPos_ cn ≤ Z.of_nat j →
  ztake (readBufferPos_ cn) (readBuffer_ cn) = ztake (readBufferPos_ cn) m →
  stream (tSocket_ cn) (zdrop (readBufferPos_ cn) m ++ rest) out k →
  ∃ n rb k', zlen rb = zlen (readBuffer_ cn) ∧ ztake (zlen m) rb = m ∧
    stream (tSocket_ cn) rest out k' ∧
    ∀ s', app_read_request c (at_ s c (set_readBufferPos (zlen m) (set_readBuffer rb cn)) k' ev p na) =
            Ret tt s' →
          works n c (at_ s c cn k ev p na) = Ret tt s'.
Proof.
  revert cn k. induction j as [|j IH]; intros cn k Hss Happ Ht Hwant Hm Hlen Hpos Hj Hpre Hst; [lia|].
  destruct (stream_recv (readWant_ cn - readBufferPos_ cn) s c cn k ev p na _ _ Hst)
    as (b & inp' & k' & Hr & Hst' & Hin & Hb); [lia| |].
  { intros Hnil%(f_equal (zlen (A := Z))). rewrite zlen_app, zlen_zdrop, zlen_nil in Hnil by lia.
    pose proof (zlen_nonneg rest). lia. }
  pose proof (work_recv_at s c cn k ev p na (Some b) k' ltac:(lia) ltac:(lia) ltac:(lia) Hr (proj2 Hb)) as Hw.
  destruct (received_more m rest b inp' (readBufferPos_ cn)) as (_ & Hin' & Hmore); [lia|done|lia|].
  specialize (Hmore _ Hpre ltac:(lia)).
  assert (zlen (memcpy (readBuffer_ cn) (readBufferPos_ cn) b) = zlen (readBuffer_ cn)) as Hmem
    by (apply zlen_memcpy; lia).
  destruct b as [|x b]; [rewrite zlen_nil in Hb; lia|].
  assert (workSocket c (at_ s c cn k ev p na) = work_recv c (at_ s c cn k ev p na)) as Hws
    by (rewrite workSocket_at; by rewrite Hss).
  rewrite <- Hws in Hw. cbv zeta in Hw. set (b' := x :: b) in *.
  set (rb := memcpy (readBuffer_ cn) (readBufferPos_ cn) b') in *.
  destruct (Z.eqb_spec (readBufferPos_ cn + zlen b') (readWant_ cn)) as [Hdone|Hmore2].
  - exists 1%nat, rb, k'. rewrite Hwant in Hdone. rewrite Hdone in *.
    split; [done|]. split; [rewrite Hmore; by apply ztake_ge|]. split.
    { by rewrite Hin', zdrop_ge in Hst' by lia. }
    intros s' Hs'. apply works_1. rewrite Hw. erewrite transition_at by done.
    change (appState_ (set_readBufferPos _ _)) with (appState_ cn). by rewrite Happ.
  - destruct (IH (set_readBufferPos (readBufferPos_ cn + zlen b') (set_readBuffer rb cn)) k')
      as (n & rb2 & k2 & Hlen2 & Htake & Hst2 & Hrun); try done.
    + simpl. lia.
    + simpl. lia.
    + simpl. lia.
    + simpl. by rewrite <- Hin'.
    + exists (S n), rb2, k2. simpl in Hlen2. split; [congruence|]. split; [done|]. split; [done|].
      intros s' Hs'. eapply works_S; [exact Hw|]. apply Hrun. etrans; [|exact Hs']. by destruct cn.
Qed.

(** ** The reply *)

Lemma send_reply j s c cn k ev p na inp out0 :
  socketState_ cn = SOCKET_SEND → appState_ cn = APP_SEND_RESULT → ioThread_ cn = Some 0 →
  writeBuffer_ cn = Some 0 → 0 ≤ writeBufferPos_ cn < writeBufferSize_ cn →
  writeBufferSize_ cn ≤ zlen (buffer_ (outputTransport_ cn)) → writeBufferSize_ cn ≤ 2 ^ 31 - 1 →
  writeBufferSize_ cn - writeBufferPos_ cn ≤ Z.of_nat j →
  stream (tSocket_ cn) inp (out0 ++ ztake (writeBufferPos_ cn) (buffer_ (outputTransport_ cn))) k →
  ∃ n k', stream (tSocket_ cn) inp
      (out0 ++ ztake (writeBufferSize_ cn) (buffer_ (outputTransport_ cn))) k' ∧
    ∀ s', app_send_result c (at_ s c (set_writeBufferPos (writeBufferSize_ cn) cn) k' ev p na) = Ret tt s' →
          works n c (at_ s c cn k ev p na) = Ret tt s'.
Proof.
  revert cn k. induction j as [|j IH]; intros cn k Hss Happ Ht Hptr Hpos Hsize Hmax Hj (Hok & Hi & Ho);
    [lia|].
  pose proof (work_send_at s c cn k ev p na Hptr Hpos Hsize ltac:(lia)) as Hw.
  set (data := sub _ _ _) in Hw.
  assert (zlen data = writeBufferSize_ cn - writeBufferPos_ cn) as Hdata by (apply zlen_sub; lia).
  destruct (write_partial_stream data (tSocket_ cn) k Hok) as (k' & sent & Hwp & Hsent & Hok' & Hout & Hinp).
  { intros Hnil. rewrite Hnil, zlen_nil in Hdata. lia. }
  { lia. }
  rewrite Hwp in Hw. cbv zeta in Hw.
  assert (u32 (writeBufferPos_ cn + i32 sent) = writeBufferPos_ cn + sent) as Hu.
  { unfold i32. rewrite wraps_small by lia. apply wrapu_small. lia. }
  rewrite Hu in Hw.
  destruct (Z.leb_spec (writeBufferPos_ cn + sent) (writeBufferSize_ cn)); [|lia]. cbn [negb] in Hw.
  assert (workSocket c (at_ s c cn k ev p na) = work_send c (at_ s c cn k ev p na)) as Hws
    by (rewrite workSocket_at; by rewrite Hss).
  rewrite <- Hws in Hw.
  assert (out0 ++ ztake (writeBufferPos_ cn + sent) (buffer_ (outputTransport_ cn)) = kout k') as Hout'.
  { rewrite Hout, Ho, <- app_assoc. f_equal.
    rewrite <- (ztake_zdrop (writeBufferPos_ cn) (ztake (writeBufferPos_ cn + sent) _)).
    rewrite ztake_ztake_le, ztake_zdrop_comm by lia. f_equal.
    unfold data. by rewrite ztake_sub by lia. }
  destruct (Z.eqb_spec (writeBufferPos_ cn + sent) (writeBufferSize_ cn)) as [Hdone|Hmore].
  - exists 1%nat, k'. rewrite Hdone in *. split; [split; [done|split; [congruence|done]]|].
    intros s' Hs'. apply works_1. rewrite Hw. erewrite transition_at by done.
    change (appState_ (set_writeBufferPos _ _)) with (appState_ cn). rewrite Happ.
    etrans; [|exact Hs']. by destruct cn.
  - destruct (IH (set_writeBufferPos (writeBufferPos_ cn + sent) cn) k')
      as (n & k2 & Hst2 & Hrun); try done.
    + simpl. lia.
    + simpl. lia.
    + split; [done|]. split; [congruence|done].
    + exists (S n), k2. split; [done|]. intros s' Hs'. eapply works_S; [exact Hw|].
      etrans; [|apply (Hrun s'); etrans; [|exact Hs']; by destruct cn]. by destruct cn.
Qed.

Lemma with_header_frame b o body :
  out_ok o → wBase_ o = 4 → out_ok b → mb_out b = mb_out o ++ body →
  wBase_ b = 4 + zlen body ∧ ztake (wBase_ b) (buffer_ (with_header b)) = frame body.
Proof.
  intros ([Ho Hos] & _ & _) Hw4 ([Hb Hbs] & _ & _) Hout.
  assert (zlen (mb_out o) = 4) as Ho4 by (unfold mb_out; rewrite zlen_ztake; lia).
  assert (wBase_ b = 4 + zlen body) as Hw.
  { apply (f_equal (zlen (A := Z))) in Hout. rewrite zlen_app, Ho4 in Hout. unfold mb_out in Hout.
    rewrite zlen_ztake in Hout; lia. }
  split; [done|]. pose proof (zlen_nonneg body).
  set (hdr := to_be 4 (u32 (wBase_ b - 4))).
  assert (zlen hdr = 4) as Hh by (apply zlen_to_be).
  assert (zlen (memcpy (buffer_ b) 0 hdr) = zlen (buffer_ b)) as Hlen by (apply zlen_memcpy; lia).
  change (buffer_ (with_header b)) with (memcpy (buffer_ b) 0 hdr).
  rewrite <- (ztake_zdrop 4 (ztake (wBase_ b) _)), ztake_ztake_le by lia.
  pose proof (memcpy_prefix_0 (buffer_ b) hdr) as Hp. rewrite Hh in Hp. rewrite Hp. unfold frame.
  f_equal.
  - unfold hdr. unfold u32. rewrite wrapu_small by lia. f_equal. lia.
  - assert (ztake (wBase_ b) (buffer_ b) = mb_out o ++ body) as Hbody by exact Hout.
    apply (f_equal (zdrop 4)) in Hbody. rewrite zdrop_app in Hbody by done. rewrite <- Hbody.
    replace (wBase_ b) with (4 + (wBase_ b - 4)) by lia. rewrite !ztake_zdrop_comm by lia. f_equal.
Qed.

(** The connection waits for a frame. *)
Definition idle s c cn : Prop :=
  connections s !! c = Some cn ∧ socketState_ cn = SOCKET_RECV_FRAMING ∧
  appState_ cn = APP_READ_FRAME_SIZE ∧ ioThread_ cn = Some 0 ∧ readBufferPos_ cn = 0 ∧ buf_ok cn.

Lemma buf_ok_calls n cn : buf_ok cn → buf_ok (set_callsForResize n cn).
Proof. intros []. by split. Qed.

Lemma at_framing_idle s c cn k ev p na :
  ioThread_ cn = Some 0 → buf_ok cn → idle (at_ s c (to_framing cn) k ev p na) c (to_framing cn).
Proof.
  intros Ht Hbuf. split; [apply lookup_insert_eq|]. do 4 (split; [done|]). destruct Hbuf. by split.
Qed.

(** The states of the connection from the frame's arrival to the processor. *)
Lemma receive_frame s c cn m rest out p na ev k :
  config_ok (cfg s) → idle s c cn → 0 < zlen m ≤ maxFrameSize_ (cfg s) →
  stream (tSocket_ cn) (frame m ++ rest) out k →
  ∃ n k' cn1, ioThread_ cn1 = Some 0 ∧ buf_ok cn1 ∧ tSocket_ cn1 = tSocket_ cn ∧
    ztake (readBufferPos_ cn1) (readBuffer_ cn1) = m ∧ stream (tSocket_ cn) rest out k' ∧
    ∀ s', app_read_request c (at_ s c cn1 k' ev p na) = Ret tt s' →
          works n c (at_ s c cn k ev p na) = Ret tt s'.
Proof.
  intros Hcfg (_ & Hss & Happ & Ht & Hpos & Hbuf) Hm Hst. pose proof (config_frame _ Hcfg).
  set (hdr := to_be 4 (zlen m)). assert (zlen hdr = 4) as Hh by (apply zlen_to_be).
  assert (of_be hdr = zlen m) as Hof.
  { unfold hdr. rewrite of_be_to_be. apply Z.mod_small. change (256 ^ Z.of_nat 4) with (2 ^ 32). lia. }
  assert (Forall is_byte hdr) as Hhb by apply to_be_bytes.
  assert (frame m ++ rest = zdrop 0 hdr ++ m ++ rest) as Hfr by (unfold frame; by rewrite <- app_assoc).
  destruct (recv_header 4 s c cn k ev p na hdr (m ++ rest) out) as (n1 & k1 & Hst1 & Hrun1);
    rewrite ?Hpos, <- ?Hfr; try done; try lia.
  rewrite Hof in Hrun1. destruct (Z.ltb_spec (maxFrameSize_ (cfg s)) (zlen m)); [lia|].
  destruct (app_read_frame_size_at s c (set_readWant (zlen m) (set_readBufferPos 4 cn)) k1 ev p na)
    as (rb & Hfs & Hrb); [destruct Hbuf; by split|simpl; lia|]. simpl in Hrb.
  assert (works n1 c (at_ s c cn k ev p na) =
    Ret tt (at_ s c (to_receiving rb (set_readWant (zlen m) cn)) k1 ev p na)) as Hw1.
  { apply Hrun1. erewrite transition_at by done. simpl. rewrite Happ, Hfs. by destruct cn. }
  destruct (recv_request (length m) s c (to_receiving rb (set_readWant (zlen m) cn)) k1 ev p na m rest out)
    as (n2 & rb2 & k2 & Hlen & Htake & Hst2 & Hrun); simpl; try done; try (unfold zlen in *; lia).
  exists (n1 + n2)%nat, k2. eexists. split; [|split; [|split; [|split; [|split; [exact Hst2|]]]]].
  5: { intros s' Hs'. eapply works_trans; [exact Hw1|]. apply Hrun. exact Hs'. }
  all: try done. destruct Hbuf as [? ? ?]. split; [|done|done]. simpl in *. split; [by rewrite Hlen|lia].
Qed.

(** Bytes that announce a frame lead to the check of its size. *)
Lemma announce s c cn hdr rest out :
  idle s c cn → zlen hdr = 4 → Forall is_byte hdr → stream (tSocket_ cn) (hdr ++ rest) out (kernel s) →
  ∃ n k', stream (tSocket_ cn) rest out k' ∧
    let st := at_ s c (set_readWant (of_be hdr) (set_readBufferPos 4 cn)) k' (events s) (processor_ s)
                (numActiveProcessors_ s) in
    ∀ s', (if maxFrameSize_ (cfg s) <? of_be hdr then close c st else transition c st) = Ret tt s' →
          works n c s = Ret tt s'.
Proof.
  intros (Hc & Hss & Happ & Ht & Hpos & Hbuf) Hlen Hb Hst.
  destruct (recv_header 4 s c cn (kernel s) (events s) (processor_ s) (numActiveProcessors_ s) hdr rest out)
    as (n & k' & Hst' & Hrun); try done; rewrite ?Hpos; try done; try lia.
  rewrite <- (at_self s c cn Hc) in Hrun. by exists n, k'.
Qed.

(** A client can stop the server.  Four zero bytes, which announce a frame of
    size zero, bring a connection that waits for a frame into a state in which the
    next event of its socket fails the assertion
    [readBufferPos_ < readWant_] of [workSocket]. *)
Theorem zero_frame_stops_server s c cn rest out :
  config_ok (cfg s) → idle s c cn →
  stream (tSocket_ cn) ([0; 0; 0; 0] ++ rest) out (kernel s) →
  ∃ n s', works n c s = Ret tt s' ∧ workSocket c s' = Stuck AssertFailed.
Proof.
  intros Hcfg Hidle Hst. pose proof Hidle as (Hc & Hss & Happ & Ht & Hpos & Hbuf).
  destruct (announce s c cn [0; 0; 0; 0] rest out Hidle) as (n & k' & _ & Hrun);
    [done|by repeat constructor|done|].
  change (of_be [0; 0; 0; 0]) with 0 in Hrun. pose proof (config_frame _ Hcfg).
  destruct (Z.ltb_spec (maxFrameSize_ (cfg s)) 0); [lia|].
  destruct (app_read_frame_size_at s c (set_readWant 0 (set_readBufferPos 4 cn)) k' (events s)
    (processor_ s) (numActiveProcessors_ s)) as (rb & Hfs & _); [destruct Hbuf; by split|simpl; lia|].
  exists n. eexists. split.
  - apply Hrun. erewrite transition_at by done. simpl. rewrite Happ. exact Hfs.
  - rewrite workSocket_at. simpl. unfold work_recv. by rewrite bind_get.
Qed.

(** A frame that is larger than [maxFrameSize_] is refused as soon as its size
    is known: the connection is closed and no longer registered, the processor is
    not called and nothing is sent. *)
Theorem large_frame_refused s c cn hdr rest out :
  config_ok (cfg s) → idle s c cn → zlen hdr = 4 → Forall is_byte hdr →
  maxFrameSize_ (cfg s) < of_be hdr →
  stream (tSocket_ cn) (hdr ++ rest) out (kernel s) →
  ∃ n s', works n c s = Ret tt s' ∧ events s' !! c = None ∧ processor_ s' = forgotten (processor_ s) ∧
    ∀ cn', connections s' !! c = Some cn' → connectionStack_ s' = c :: connectionStack_ s.
Proof.
  intros Hcfg Hidle Hlen Hb Hmax Hst. pose proof Hidle as (Hc & Hss & Happ & Ht & Hpos & Hbuf).
  destruct (announce s c cn hdr rest out Hidle Hlen Hb Hst) as (n & k' & _ & Hrun).
  destruct (Z.ltb_spec (maxFrameSize_ (cfg s)) (of_be hdr)); [|lia].
  destruct (close_at s c (set_readWant (of_be hdr) (set_readBufferPos 4 cn)) k' (events s)
    (processor_ s) (numActiveProcessors_ s) Hcfg) as [k2 Hcl]; [destruct Hbuf; by split|].
  exists n. destruct (pool_full s).
  - eexists. split; [apply Hrun; exact Hcl|]. simpl. rewrite !lookup_delete_eq. by split_and!.
  - destruct Hcl as (cn' & Hcl & _). eexists. split; [apply Hrun; exact Hcl|]. simpl.
    rewrite lookup_delete_eq. by split_and!.
Qed.


End Replies.
