(* ===== verification/NonblockingExample.v ===== *)
(** * A server that echoes

    A concrete operating system, in which bytes arrive two at a time, every second
    [recv] is interrupted and [send] takes three bytes at most, and a processor
    that answers with the request and keeps a log.  They satisfy the hypotheses of
    the theorems about [TNonblockingServer]. *)

From S2P Require Import Prelude Bytes Transport BufferTransports MemoryBufferTheorems.
From S2P Require Import LayeredTheorems Socket NonblockingServer NonblockingSteps.
From S2P Require Import NonblockingTheorems NonblockingReplies.
From stdpp Require Import base gmap list.
From Stdlib Require Import ZArith Lia.

Local Open Scope Z_scope.
Import Conn Srv Nonblocking.

Record Net := mkNet { n_in : bytes; n_out : bytes; n_intr : bool }.

(** The bytes on their way to the server. *)
Definition net_inp (k : Net) : bytes := u8 <$> n_in k.
Definition net_intr (k : Net) : Z := if n_intr k then 1 else 0.

#[local] Instance net_kernel : Kernel Net := {
  k_recv _ n k :=
    if n_intr k then (Err EINTR, mkNet (n_in k) (n_out k) false)
    else (Sys (ztake (Z.min n 2) (net_inp k)), mkNet (zdrop (Z.min n 2) (n_in k)) (n_out k) true);
  k_recv_peek _ n k := (Sys (ztake n (net_inp k)), k);
  k_send _ data k :=
    (Sys (Z.min 3 (zlen data)), mkNet (n_in k) (n_out k ++ ztake (Z.min 3 (zlen data)) data) (n_intr k));
  k_close _ k := k;
  k_setsockopt _ _ k := k;
  k_gettimeofday k := ((0, 0), k) }.
#[local] Instance net_libevent : Libevent Net := {
  ev_add _ _ _ k := (true, k); ev_del _ k := (true, k) }.
#[local] Instance net_pipes : Pipes Net := {
  k_pipe_send _ k := (true, k); k_pipe_recv _ k := (PipeReady, k); k_close_fd _ k := k }.
#[local] Instance net_libevent_laws : LibeventLaws Net.
Proof. done. Qed.
#[local] Instance net_malloc : Malloc := λ _, true.
#[local] Instance net_malloc_laws : MallocLaws.
Proof. done. Qed.

#[local] Instance net_bounds : KernelBounds Net.
Proof.
  split; simpl.
  - intros _ n k b k' Hn. destruct (n_intr k); [done|]. intros [= <- _]. split.
    + rewrite zlen_ztake_min; lia.
    + apply Forall_take. unfold net_inp. apply Forall_fmap, Forall_true. intros x.
      apply (wrapu_range 8). lia.
  - intros _ data k n k' [= <- _]. pose proof (zlen_nonneg data). lia.
Qed.

Lemma net_inp_split n k : ztake n (net_inp k) ++ (u8 <$> zdrop n (n_in k)) = net_inp k.
Proof. unfold net_inp, ztake, zdrop. by rewrite fmap_drop, take_drop. Qed.

#[local] Instance net_stream : KernelStream Net net_inp n_out (λ _ _, True) net_intr 1.
Proof.
  split; simpl.
  - intros _ k _. unfold net_intr. destruct (n_intr k); lia.
  - done.
  - intros _ n k _ Hn. unfold net_intr. destruct (n_intr k) eqn:Hi; simpl; [by split_and!|].
    split; [done|]. split; [done|]. split; [symmetry; apply net_inp_split|].
    rewrite zlen_ztake_min by lia. split; [lia|]. intros Hne Hnil.
    apply (f_equal (zlen (A := Z))) in Hnil. rewrite zlen_ztake_min, zlen_nil in Hnil by lia.
    apply Hne, zlen_zero_nil. pose proof (zlen_nonneg (net_inp k)). lia.
  - intros _ data k _ Hne. assert (0 < zlen data).
    { pose proof (zlen_nonneg data). destruct (decide (zlen data = 0)) as [Hz|]; [|lia].
      by apply zlen_zero_nil in Hz. }
    split_and!; [done|lia..|done|done].
Qed.
#[local] Instance net_events : EventStream Net net_inp n_out (λ _ _, True).
Proof. by split. Qed.

(** The processor refuses requests of 2 GiB and more. *)
#[local] Existing Instances MemoryBuffer.memory_buffer_base MemoryBuffer.memory_buffer_transport.

#[local] Instance echo : Processor (list bytes) := {
  pr_handler := None;
  pr_process := λ '(log, i, o),
    let m := MemoryBuffer.getBufferAsString i in
    if zlen m <=? mb_room o then
      match t_write m o with
      | Ret _ o' => Ret true (m :: log, i, o')
      | Exn e o' => Exn e (log, i, o')
      | Stuck f => Stuck f
      end
    else Exn TPlainExn (log, i, o) }.

#[local] Instance no_threads : ThreadManager unit := {
  tm_add _ tm := Added tm; tm_removeNextPending tm := (None, tm) }.

Lemma write_keeps data s s' :
  t_write data s = Ret tt s' → rBase_ s' = rBase_ s ∧ owner_ s' = owner_ s.
Proof.
  cbn [t_write MemoryBuffer.memory_buffer_transport base_transport]. unfold base_write.
  cbn [bb_wBase bb_wBound bb_copy bb_writeSlow MemoryBuffer.memory_buffer_base].
  destruct (_ <=? _); [by intros [= <-]|]. unfold MemoryBuffer.writeSlow.
  intros ([] & s1 & He & Hc)%M_bind_inv. unfold MemoryBuffer.copy_checked in Hc.
  destruct (_ <=? _); [|done]. injection Hc as <-. unfold MemoryBuffer.ensureCanWrite in He.
  destruct (_ <=? _); [by injection He as <-|]. destruct (negb _); [done|].
  destruct (MemoryBuffer.grow_loop _ _ _ _ _ _); [|done]. destruct (malloc_ok _); [|done].
  by injection He as <-.
Qed.

Lemma echo_write (m : bytes) o :
  out_ok o → zlen m ≤ mb_room o →
  ∃ o', t_write m o = Ret tt o' ∧ out_ok o' ∧ mb_out o' = mb_out o ++ m.
Proof.
  intros (Hok & Hown & Hr) Hroom. destruct (write_spec o m Hok Hroom) as (o' & Hw & Hok' & Hout & _).
  destruct (write_keeps _ _ _ Hw). exists o'. split; [done|]. split; [|done].
  split; [done|]. split; congruence.
Qed.

#[local] Instance echo_laws : ProcessorLaws (list bytes).
Proof.
  intros log i o Hi Ho. cbn [pr_process echo]. cbv zeta. destruct (Z.leb_spec
    (zlen (MemoryBuffer.getBufferAsString i)) (mb_room o)) as [Hle|]; [|done].
  by destruct (echo_write _ o Ho Hle) as (o' & -> & ? & _).
Qed.

#[local] Instance echo_spec : ProcessorSpec (list bytes) (λ _ m, m) (λ log m, m :: log).
Proof.
  intros log i o m Hi <- Ho Hle. cbn [pr_process echo]. cbv zeta.
  assert (MemoryBuffer.getBufferAsString i = mb_inp i) as ->.
  { unfold MemoryBuffer.getBufferAsString, mb_inp. f_equal. by apply available_read_ok. }
  destruct (Z.leb_spec (zlen (mb_inp i)) (mb_room o)) as [Hroom|Hbad].
  - destruct (echo_write _ o Ho Hroom) as (o' & -> & Hok & Hout). by eexists _, _, _.
  - unfold mb_room in Hbad. destruct Ho as (_ & Hown & _). rewrite Hown in Hbad. lia.
Qed.

(** ** Witnesses *)

Definition example_hysteresis (n m : Z) : bool := 10 * n <=? 8 * m.

Lemma default_config_ok : config_ok default_config.
Proof. split; simpl; lia. Qed.

(** Nobody has connected yet; [inp] is going to arrive. *)
Definition example_server (inp : bytes) : Server (list bytes) unit Net :=
  initial_server default_config [] (mkNet inp [] false).

(** The server after a client has connected. *)
Definition connected (inp : bytes) : Server (list bytes) unit Net :=
  match handleEvent example_hysteresis [(7, true)] (example_server inp) with
  | Ret _ s => s
  | _ => example_server inp
  end.

Definition two_frames : bytes := frame [1; 2; 3] ++ frame [4].

(** A frame of size zero, and one of 2 GiB. *)
Definition zero_bytes : bytes := [0; 0; 0; 0].
Definition huge_header : bytes := [127; 255; 255; 255].

Lemma connected_eq :
  handleEvent example_hysteresis [(7, true)] (example_server two_frames) = Ret tt (connected two_frames).
Proof. vm_compute. reflexivity. Qed.

(** The object of the client. *)
Definition example_conn : TConnection :=
  mkConn (Some 0) (TSocket_of 7) 18 SOCKET_RECV_FRAMING APP_READ_FRAME_SIZE 0 0 [] 0 None 0 0 0 0
    (MemoryBuffer.initCommon [] 0 false 0) (MemoryBuffer.initCommon (fresh_block 1024) 1024 true 0).

Lemma connected_conn : connections (connected two_frames) !! 0 = Some example_conn.
Proof. vm_compute. reflexivity. Qed.

Lemma connected_event : events (connected two_frames) !! 0 = Some 18.
Proof. vm_compute. reflexivity. Qed.

Lemma connected_rest :
  cfg (connected two_frames) = default_config ∧ threadManager_ (connected two_frames) = None ∧
  processor_ (connected two_frames) = [] ∧ kernel (connected two_frames) = mkNet two_frames [] false.
Proof. vm_compute. done. Qed.

Lemma example_buf_ok : buf_ok example_conn.
Proof.
  split.
  - split; [reflexivity|]. simpl. lia.
  - split; [|done]. split; [simpl; lia|]. vm_compute. by split_and!.
  - split; simpl; lia.
Qed.

Lemma example_stream inp out k :
  net_inp k = inp → n_out k = out →
  stream (kinp := net_inp) (kout := n_out) (kok := λ _ _, True) (burst := 1) (TSocket_of 7) inp out k.
Proof.
  intros Hin Hout. split; [|by split]. split; [done|]. split; [split; simpl; lia|].
  split; [done|]. simpl. lia.
Qed.



Lemma zero_frame_stops_server_witness :
  ∃ n s', works n 0 (connected zero_bytes) = Ret tt s' ∧ workSocket 0 s' = Stuck AssertFailed.
Proof.
  apply (zero_frame_stops_server (kinp := net_inp) (kout := n_out) (kok := λ _ _, True) (burst := 1)
    (connected zero_bytes) 0 example_conn [] []).
  - assert (cfg (connected zero_bytes) = default_config) as -> by (vm_compute; reflexivity).
    exact default_config_ok.
  - split; [vm_compute; reflexivity|]. do 4 (split; [reflexivity|]). exact example_buf_ok.
  - assert (kernel (connected zero_bytes) = mkNet zero_bytes [] false) as -> by (vm_compute; reflexivity).
    by apply example_stream.
Defined.

Lemma large_frame_refused_witness :
  ∃ n s', works n 0 (connected huge_header) = Ret tt s' ∧ events s' !! 0 = None ∧ processor_ s' = [].
Proof.
  assert (cfg (connected huge_header) = default_config) as Hcfg by (vm_compute; reflexivity).
  destruct (large_frame_refused (kinp := net_inp) (kout := n_out) (kok := λ _ _, True) (burst := 1)
    (connected huge_header) 0 example_conn huge_header [] []) as (n & s' & Hw & Hev & Hp & _).
  - rewrite Hcfg. exact default_config_ok.
  - split; [vm_compute; reflexivity|]. do 4 (split; [reflexivity|]). exact example_buf_ok.
  - reflexivity.
  - repeat constructor; done || lia.
  - rewrite Hcfg. vm_compute. reflexivity.
  - assert (kernel (connected huge_header) = mkNet huge_header [] false) as -> by (vm_compute; reflexivity).
    by apply example_stream.
  - exists n, s'. split; [exact Hw|]. split; [exact Hev|]. rewrite Hp. vm_compute. reflexivity.
Defined.
