(* ===== verification/ItemHeap.v ===== *)
(** * The items of memcached and the memory they live in

    [memcached-1.4.15/memcached.h]: [struct _stritem], the header of an item.  Items live
    at addresses; the memory is a finite map from the addresses of the chunks of the slab
    allocator to the items in them, and the null pointer is 0.

    The hash table ([Assoc]), the slab allocator ([Slabs]) and the queues ([Items]) share
    the items and each uses some of their fields.  The free lists of the allocator and the
    queues both link items by [next] and [prev]; the lemmas about such lists are here. *)

From S2P Require Import Prelude Bytes.
From stdpp Require Import base gmap list.
From Stdlib Require Import ZArith Lia.

Local Open Scope Z_scope.

Module ItemHeap.

(** The fields [nkey] and [nsuffix] are the lengths of the key and of the suffix.  [cas]
    is meaningful when [it_flags] has [ITEM_CAS].  The key, the suffix and the value follow
    the header in memory. *)
Record item := mkItem {
  next : Z;
  prev : Z;
  h_next : Z;
  time : Z;
  exptime : Z;
  nbytes : Z;
  refcount : Z;
  it_flags : Z;
  slabs_clsid : Z;
  cas : Z;
  ITEM_key : bytes;
  ITEM_suffix : bytes;
  ITEM_data : bytes
}.

Definition set_next (v : Z) (it : item) : item :=
  mkItem v (prev it) (h_next it) (time it) (exptime it) (nbytes it) (refcount it) (it_flags it) (slabs_clsid it) (cas it) (ITEM_key it) (ITEM_suffix it) (ITEM_data it).
Definition set_prev (v : Z) (it : item) : item :=
  mkItem (next it) v (h_next it) (time it) (exptime it) (nbytes it) (refcount it) (it_flags it) (slabs_clsid it) (cas it) (ITEM_key it) (ITEM_suffix it) (ITEM_data it).
Definition set_h_next (v : Z) (it : item) : item :=
  mkItem (next it) (prev it) v (time it) (exptime it) (nbytes it) (refcount it) (it_flags it) (slabs_clsid it) (cas it) (ITEM_key it) (ITEM_suffix it) (ITEM_data it).
Definition set_time (v : Z) (it : item) : item :=
  mkItem (next it) (prev it) (h_next it) v (exptime it) (nbytes it) (refcount it) (it_flags it) (slabs_clsid it) (cas it) (ITEM_key it) (ITEM_suffix it) (ITEM_data it).
Definition set_exptime (v : Z) (it : item) : item :=
  mkItem (next it) (prev it) (h_next it) (time it) v (nbytes it) (refcount it) (it_flags it) (slabs_clsid it) (cas it) (ITEM_key it) (ITEM_suffix it) (ITEM_data it).
Definition set_nbytes (v : Z) (it : item) : item :=
  mkItem (next it) (prev it) (h_next it) (time it) (exptime it) v (refcount it) (it_flags it) (slabs_clsid it) (cas it) (ITEM_key it) (ITEM_suffix it) (ITEM_data it).
Definition set_refcount (v : Z) (it : item) : item :=
  mkItem (next it) (prev it) (h_next it) (time it) (exptime it) (nbytes it) v (it_flags it) (slabs_clsid it) (cas it) (ITEM_key it) (ITEM_suffix it) (ITEM_data it).
Definition set_it_flags (v : Z) (it : item) : item :=
  mkItem (next it) (prev it) (h_next it) (time it) (exptime it) (nbytes it) (refcount it) v (slabs_clsid it) (cas it) (ITEM_key it) (ITEM_suffix it) (ITEM_data it).
Definition set_slabs_clsid (v : Z) (it : item) : item :=
  mkItem (next it) (prev it) (h_next it) (time it) (exptime it) (nbytes it) (refcount it) (it_flags it) v (cas it) (ITEM_key it) (ITEM_suffix it) (ITEM_data it).
Definition set_cas (v : Z) (it : item) : item :=
  mkItem (next it) (prev it) (h_next it) (time it) (exptime it) (nbytes it) (refcount it) (it_flags it) (slabs_clsid it) v (ITEM_key it) (ITEM_suffix it) (ITEM_data it).
Definition set_ITEM_key (v : bytes) (it : item) : item :=
  mkItem (next it) (prev it) (h_next it) (time it) (exptime it) (nbytes it) (refcount it) (it_flags it) (slabs_clsid it) (cas it) v (ITEM_suffix it) (ITEM_data it).
Definition set_ITEM_suffix (v : bytes) (it : item) : item :=
  mkItem (next it) (prev it) (h_next it) (time it) (exptime it) (nbytes it) (refcount it) (it_flags it) (slabs_clsid it) (cas it) (ITEM_key it) v (ITEM_data it).
Definition set_ITEM_data (v : bytes) (it : item) : item :=
  mkItem (next it) (prev it) (h_next it) (time it) (exptime it) (nbytes it) (refcount it) (it_flags it) (slabs_clsid it) (cas it) (ITEM_key it) (ITEM_suffix it) v.

(** Cleared memory. *)
Definition zero_item : item := mkItem 0 0 0 0 0 0 0 0 0 0 [] [] [].

Abbreviation heap_t := (gmap Z item).

(** ** Flags *)

Definition ITEM_LINKED : Z := 1.
Definition ITEM_CAS : Z := 2.
Definition ITEM_SLABBED : Z := 4.
Definition ITEM_FETCHED : Z := 8.

Definition has_flag (f : Z) (it : item) : bool := negb (Z.land (it_flags it) f =? 0).
Definition add_flag (f : Z) (it : item) : item := set_it_flags (Z.lor (it_flags it) f) it.
Definition clear_flag (f : Z) (it : item) : item := set_it_flags (Z.ldiff (it_flags it) f) it.

(** ** Sizes and the compare-and-swap number *)

Definition sizeof_item : Z := 48.
Definition sizeof_cas : Z := 8.

Definition nkey (it : item) : Z := zlen (ITEM_key it).
Definition nsuffix (it : item) : Z := zlen (ITEM_suffix it).

Definition ITEM_ntotal (it : item) : Z :=
  sizeof_item + nkey it + 1 + nsuffix it + nbytes it + (if has_flag ITEM_CAS it then sizeof_cas else 0).

Definition ITEM_get_cas (it : item) : Z := if has_flag ITEM_CAS it then cas it else 0.
Definition ITEM_set_cas (v : Z) (it : item) : item := if has_flag ITEM_CAS it then set_cas v it else it.

(** ** Accesses *)

Definition get_item (h : heap_t) (p : Z) : result item :=
  match h !! p with Some it => Ok it | None => Fail UseAfterFree end.
Definition upd_item (p : Z) (f : item → item) (h : heap_t) : result heap_t :=
  let* it := get_item h p in Ok (<[p := f it]> h).

Definition refcount_incr (it : item) : item := set_refcount (u16 (refcount it + 1)) it.
Definition refcount_decr (it : item) : item := set_refcount (u16 (refcount it - 1)) it.

(** ** Lists linked by [next] and [prev]

    The two ways in which the code changes such a list: [link_front] puts an item before
    [first] ([it->prev = 0; it->next = first; if (it->next) it->next->prev = it]), and
    [link_around] closes the gap that an item leaves ([if (it->next) it->next->prev =
    it->prev; if (it->prev) it->prev->next = it->next]). *)
Definition link_front (p first : Z) (h : heap_t) : result heap_t :=
  let* h := upd_item p (λ it, set_next first (set_prev 0 it)) h in
  if first =? 0 then Ok h else upd_item first (set_prev p) h.

Definition link_around (p : Z) (h : heap_t) : result heap_t :=
  let* it := get_item h p in
  let* h := if next it =? 0 then Ok h else upd_item (next it) (set_prev (prev it)) h in
  let* it := get_item h p in
  if prev it =? 0 then Ok h else upd_item (prev it) (set_next (next it)) h.

(** The first item is taken off ([slots = it->next; if (it->next) it->next->prev = 0]);
    the result is the new first item. *)
Definition unlink_front (p : Z) (h : heap_t) : result (Z * heap_t) :=
  let* it := get_item h p in
  let* h := if next it =? 0 then Ok h else upd_item (next it) (set_prev 0) h in
  Ok (next it, h).

(** *** Lemmas about flags *)

Lemma has_flag_bit f it n : 0 ≤ n → f = 2 ^ n → has_flag f it = Z.testbit (it_flags it) n.
Proof.
  intros Hn ->. unfold has_flag. destruct (Z.testbit (it_flags it) n) eqn:Hb.
  - apply negb_true_iff, Z.eqb_neq. intros H0. apply (f_equal (λ z, Z.testbit z n)) in H0.
    rewrite Z.land_spec, Hb, Z.pow2_bits_true, Z.bits_0 in H0 by done. done.
  - apply negb_false_iff, Z.eqb_eq. apply Z.bits_inj'. intros i Hi.
    rewrite Z.land_spec, Z.bits_0. destruct (decide (i = n)) as [->|Hne]; [by rewrite Hb|].
    rewrite Z.pow2_bits_false by done. apply andb_false_r.
Qed.

(** The number of the bit of a flag. *)
Definition is_flag (f : Z) : Prop := ∃ n, 0 ≤ n ∧ f = 2 ^ n.

Lemma has_flag_add f g it : is_flag f → is_flag g →
  has_flag f (add_flag g it) = (f =? g) || has_flag f it.
Proof.
  intros (n & Hn & Hf) (m & Hm & Hg). rewrite !(has_flag_bit f _ n Hn Hf). unfold add_flag. cbn.
  rewrite Z.lor_spec, Hf, Hg, Z.pow2_bits_eqb by done.
  destruct (Z.eqb_spec m n) as [->|Hne].
  - rewrite Z.eqb_refl. apply orb_true_r.
  - rewrite (proj2 (Z.eqb_neq _ _)); [apply orb_false_r|]. intros He. apply Hne. symmetry.
    by apply (Z.pow_inj_r 2).
Qed.

Lemma has_flag_clear f g it : is_flag f → is_flag g →
  has_flag f (clear_flag g it) = negb (f =? g) && has_flag f it.
Proof.
  intros (n & Hn & Hf) (m & Hm & Hg). rewrite !(has_flag_bit f _ n Hn Hf). unfold clear_flag. cbn.
  rewrite Z.ldiff_spec, Hf, Hg, Z.pow2_bits_eqb by done.
  destruct (Z.eqb_spec m n) as [->|Hne].
  - rewrite Z.eqb_refl. apply andb_false_r.
  - rewrite (proj2 (Z.eqb_neq _ _)); [apply andb_true_r|]. intros He. apply Hne. symmetry.
    by apply (Z.pow_inj_r 2).
Qed.

Lemma linked_flag : is_flag ITEM_LINKED. Proof. by exists 0. Qed.
Lemma cas_flag : is_flag ITEM_CAS. Proof. by exists 1. Qed.
Lemma slabbed_flag : is_flag ITEM_SLABBED. Proof. by exists 2. Qed.
Lemma fetched_flag : is_flag ITEM_FETCHED. Proof. by exists 3. Qed.
#[export] Hint Resolve linked_flag cas_flag slabbed_flag fetched_flag : core.

(** *** Lemmas about lists *)

Definition first (l : list Z) : Z := default 0 (head l).
Definition final (l : list Z) : Z := default 0 (last l).

(** A segment of a list: [pp] is before it, [qn] behind it. *)
Fixpoint dseg (h : heap_t) (pp : Z) (l : list Z) (qn : Z) : Prop :=
  match l with
  | [] => True
  | p :: l' => p ≠ 0 ∧
      (∃ it, h !! p = Some it ∧ prev it = pp ∧ next it = default qn (head l')) ∧ dseg h p l' qn
  end.

Record dlist (h : heap_t) (l : list Z) : Prop := {
  dl_seg : dseg h 0 l 0;
  dl_nodup : NoDup l
}.

(** Heaps that differ in the links of the items of [l] only. *)
Definition unlinked (it : item) : item := set_next 0 (set_prev 0 it).
Record relinked (l : list Z) (h h' : heap_t) : Prop := {
  rl_items : unlinked <$> h' = unlinked <$> h;
  rl_other : ∀ q, q ∉ l → h' !! q = h !! q
}.

Lemma hdseg_app h pp l1 l2 qn :
  dseg h pp (l1 ++ l2) qn ↔
  dseg h pp l1 (default qn (head l2)) ∧ dseg h (default pp (last l1)) l2 qn.
Proof.
  revert pp. induction l1 as [|p l1 IH]; intros pp; cbn [app dseg]; [by rewrite (left_id True and)|].
  rewrite IH, last_cons. destruct l1 as [|p' l1]; cbn; [tauto|].
  destruct (last (p' :: l1)); cbn; tauto.
Qed.

(** Only the links of the items of the segment matter. *)
Lemma hdseg_frame h h' pp l qn :
  dseg h pp l qn →
  (∀ x it, x ∈ l → h !! x = Some it → ∃ it', h' !! x = Some it' ∧ next it' = next it ∧ prev it' = prev it) →
  dseg h' pp l qn.
Proof.
  revert pp. induction l as [|p l IH]; intros pp; cbn [dseg]; [done|].
  intros (Hp & (it & Hit & Hpr & Hnx) & Hs) Hf. split; [done|]. split.
  - destruct (Hf p it) as (it' & Hit' & Hn' & Hp'); [by apply elem_of_cons; left|done|].
    exists it'. split; [done|]. split; congruence.
  - apply IH; [done|]. intros x itx Hx. apply Hf. by apply elem_of_cons; right.
Qed.

Lemma dseg_same h h' pp l qn : dseg h pp l qn → (∀ x, x ∈ l → h' !! x = h !! x) → dseg h' pp l qn.
Proof. intros Hs Hf. apply (hdseg_frame h); [done|]. intros x it Hx Hit. exists it. by rewrite Hf. Qed.

Lemma dlist_frame h h' l :
  dlist h l →
  (∀ x it, x ∈ l → h !! x = Some it → ∃ it', h' !! x = Some it' ∧ next it' = next it ∧ prev it' = prev it) →
  dlist h' l.
Proof. intros [Hs Hn] Hf. split; [by eapply hdseg_frame|done]. Qed.

Lemma dlist_same h h' l : dlist h l → (∀ x, x ∈ l → h' !! x = h !! x) → dlist h' l.
Proof. intros [Hs Hn] Hf. split; [by eapply dseg_same|done]. Qed.

Lemma dlist_nil h : dlist h [].
Proof. split; [done|constructor]. Qed.

Lemma dseg_elem h pp l qn x : dseg h pp l qn → x ∈ l → x ≠ 0 ∧ is_Some (h !! x).
Proof.
  revert pp. induction l as [|p l IH]; intros pp; cbn [dseg]; [by intros _ ?%elem_of_nil|].
  intros (Hp & (it & Hit & _) & Hs) [->|Hx]%elem_of_cons; [by eauto|by eapply IH].
Qed.

Lemma dlist_elem h l x : dlist h l → x ∈ l → x ≠ 0 ∧ is_Some (h !! x).
Proof. intros [Hs _]. by apply (dseg_elem h 0 l 0). Qed.

Lemma first_zero h l : dlist h l → first l = 0 → l = [].
Proof. intros [Hs _]. destruct l as [|p l]; [done|]. cbn. by destruct Hs. Qed.
Lemma final_zero h l : dlist h l → final l = 0 → l = [].
Proof.
  intros Hd. unfold final. destruct (last l) as [p|] eqn:Hl; cbn; [|intros _; by apply last_None].
  intros ->. apply last_Some_elem_of in Hl. by destruct (dlist_elem h l 0 Hd Hl).
Qed.

Lemma relinked_refl l h : relinked l h h.
Proof. by split. Qed.
Lemma relinked_mono l l' h h' : relinked l h h' → (∀ x, x ∈ l → x ∈ l') → relinked l' h h'.
Proof. intros [Hi Ho] Hs. split; [done|]. intros q Hq. apply Ho. intros Hql. by apply Hq, Hs. Qed.
Lemma relinked_trans l h1 h2 h3 : relinked l h1 h2 → relinked l h2 h3 → relinked l h1 h3.
Proof. intros [I1 O1] [I2 O2]. split; [congruence|]. intros q Hq. by rewrite O2, O1. Qed.

Lemma relinked_item l h h' q it :
  relinked l h h' → h !! q = Some it → ∃ it', h' !! q = Some it' ∧ unlinked it' = unlinked it.
Proof.
  intros [Hi _] Hq. apply (f_equal (lookup q)) in Hi. rewrite !lookup_fmap, Hq in Hi.
  destruct (h' !! q) as [it'|]; [|done]. exists it'. split; [done|]. by apply (inj Some).
Qed.

Lemma relinked_item' l h h' q it' :
  relinked l h h' → h' !! q = Some it' → ∃ it, h !! q = Some it ∧ unlinked it' = unlinked it.
Proof.
  intros [Hi _] Hq. apply (f_equal (lookup q)) in Hi. rewrite !lookup_fmap, Hq in Hi.
  destruct (h !! q) as [it|]; [|done]. exists it. split; [done|]. by apply (inj Some).
Qed.

Lemma upd_item_Ok p f h it : h !! p = Some it → upd_item p f h = Ok (<[p := f it]> h).
Proof. intros Hp. unfold upd_item, get_item. by rewrite Hp. Qed.
Lemma get_item_Ok p h it : h !! p = Some it → get_item h p = Ok it.
Proof. intros Hp. unfold get_item. by rewrite Hp. Qed.

Lemma upd_relinked p f h it l :
  h !! p = Some it → p ∈ l → unlinked (f it) = unlinked it → relinked l h (<[p := f it]> h).
Proof.
  intros Hp Hl Hf. split.
  - rewrite fmap_insert, Hf. apply insert_id. by rewrite lookup_fmap, Hp.
  - intros q Hq. apply lookup_insert_ne. by intros ->.
Qed.

(** An item is put before the first one. *)
Lemma link_front_spec h l p it :
  dlist h l → p ∉ l → p ≠ 0 → h !! p = Some it →
  ∃ h', link_front p (first l) h = Ok h' ∧ dlist h' (p :: l) ∧ relinked (p :: l) h h'.
Proof.
  intros [Hs Hn] Hpl Hp0 Hit. unfold link_front. rewrite (upd_item_Ok _ _ _ _ Hit). cbn [mbind result_bind].
  set (it1 := set_next (first l) (set_prev 0 it)). set (h1 := <[p := it1]> h).
  assert (relinked (p :: l) h h1) as Hr1.
  { apply (upd_relinked p (λ it, set_next (first l) (set_prev 0 it))); [done|by apply elem_of_cons; left|done]. }
  destruct l as [|q l]; [change (first []) with 0 in *|change (first (q :: l)) with q in *].
  - exists h1. split; [done|]. split; [|done]. split; [|by apply NoDup_cons].
    cbn. split; [done|]. split; [|done]. exists it1. split; [apply lookup_insert_eq|done].
  - destruct Hs as (Hq & (iq & Hiq & Hpr & Hnx) & Hs). rewrite (proj2 (Z.eqb_neq _ _) Hq).
    rewrite not_elem_of_cons in Hpl. destruct Hpl as [Hpq Hpl].
    apply NoDup_cons in Hn as [Hql Hn].
    assert (h1 !! q = Some iq) as Hiq1 by (by unfold h1; rewrite lookup_insert_ne).
    rewrite (upd_item_Ok _ _ _ _ Hiq1). eexists. split; [done|]. split.
    + split; [|apply NoDup_cons; split; [by rewrite not_elem_of_cons|by apply NoDup_cons]].
      cbn [dseg]. split; [done|]. split.
      { exists it1. split; [|done]. rewrite lookup_insert_ne by done. apply lookup_insert_eq. }
      split; [done|]. split; [exists (set_prev p iq); split; [apply lookup_insert_eq|done]|].
      apply (dseg_same h); [done|]. intros x Hx. unfold h1.
      rewrite !lookup_insert_ne; [done| |]; by intros ->.
    + eapply relinked_trans; [exact Hr1|]. apply upd_relinked; [done| |done].
      apply elem_of_cons; right. by apply elem_of_cons; left.
Qed.

(** The first item is taken off. *)
Lemma unlink_front_spec h l p :
  dlist h (p :: l) →
  ∃ h', unlink_front p h = Ok (first l, h') ∧ dlist h' l ∧ relinked l h h'.
Proof.
  intros [Hs Hn]. cbn [dseg] in Hs. destruct Hs as (Hp & (it & Hit & Hpr & Hnx) & Hs).
  unfold unlink_front. rewrite (get_item_Ok _ _ _ Hit). cbn [mbind result_bind]. rewrite Hnx. fold (first l).
  apply NoDup_cons in Hn as [Hpl Hn]. destruct l as [|q l]; [change (first []) with 0|change (first (q :: l)) with q].
  - exists h. split; [done|]. split; [apply dlist_nil|apply relinked_refl].
  - destruct Hs as (Hq & (iq & Hiq & Hpq & Hnq) & Hs). rewrite (proj2 (Z.eqb_neq _ _) Hq).
    rewrite (upd_item_Ok _ _ _ _ Hiq). cbn [mbind result_bind]. eexists. split; [done|]. split.
    + split; [|done]. cbn [dseg]. split; [done|].
      split; [eexists; split; [apply lookup_insert_eq|done]|]. apply (dseg_same h); [done|].
      intros x Hx. apply lookup_insert_ne. intros ->. by apply NoDup_cons in Hn as [? _].
    + apply upd_relinked; [done|by apply elem_of_cons; left|done].
Qed.

(** An item is taken out from the middle. *)
Lemma hdseg_set_prev h pp pp' q l it :
  dseg h pp (q :: l) 0 → q ∉ l → h !! q = Some it → dseg (<[q := set_prev pp' it]> h) pp' (q :: l) 0.
Proof.
  cbn [dseg]. intros (Hq & (it' & Hit & Hpr & Hnx) & Hs) Hql Hit'. simplify_eq. split; [done|].
  split; [eexists; split; [apply lookup_insert_eq|done]|].
  apply (dseg_same h); [done|]. intros x Hx. apply lookup_insert_ne. by intros ->.
Qed.

Lemma hdseg_set_next h pp l q qn qn' it :
  dseg h pp (l ++ [q]) qn → q ∉ l → h !! q = Some it → dseg (<[q := set_next qn' it]> h) pp (l ++ [q]) qn'.
Proof.
  rewrite !hdseg_app. cbn [dseg head default]. intros (Hl & Hq & (it' & Hit & Hpr & Hnx) & _) Hql Hit'.
  simplify_eq. split; [|split; [done|split; [eexists; split; [apply lookup_insert_eq|done]|done]]].
  apply (dseg_same h); [done|]. intros x Hx. apply lookup_insert_ne. by intros ->.
Qed.

Lemma link_around_next h l1 p l2 it :
  dlist h (l1 ++ p :: l2) → h !! p = Some it →
  next it = first l2 ∧ prev it = final l1 ∧
  ∃ h', (if next it =? 0 then Ok h else upd_item (next it) (set_prev (prev it)) h) = Ok h' ∧
    dseg h' 0 l1 p ∧ dseg h' (final l1) l2 0 ∧ relinked l2 h h'.
Proof.
  intros [Hs Hn] Hit. apply hdseg_app in Hs as [Hs1 Hs2]. cbn [dseg] in Hs2.
  destruct Hs2 as (Hp & (it' & Hit' & Hpr & Hnx) & Hs2). simplify_eq.
  split; [done|]. split; [done|].
  apply NoDup_app in Hn as (_ & Hdis & Hn). apply NoDup_cons in Hn as [Hpl2 Hn2].
  rewrite Hnx, Hpr. fold (first l2) in *. destruct l2 as [|q l2]; [change (first []) with 0 in *|change (first (q :: l2)) with q in *].
  - exists h. split; [done|]. split; [done|]. split; [done|]. apply relinked_refl.
  - pose proof Hs2 as (Hq & (iq & Hiq & _) & _). rewrite (proj2 (Z.eqb_neq _ _) Hq).
    rewrite (upd_item_Ok _ _ _ _ Hiq). eexists. split; [done|].
    apply NoDup_cons in Hn2 as [Hql2 _]. split; [|split].
    + apply (dseg_same h); [done|]. intros x Hx. apply lookup_insert_ne. intros ->.
      apply (Hdis x Hx). apply elem_of_cons; right. by apply elem_of_cons; left.
    + by eapply hdseg_set_prev.
    + apply upd_relinked; [done|by apply elem_of_cons; left|done].
Qed.

Lemma link_around_spec h l1 p l2 :
  dlist h (l1 ++ p :: l2) →
  ∃ it h', h !! p = Some it ∧ next it = first l2 ∧ prev it = final l1 ∧
    link_around p h = Ok h' ∧ dlist h' (l1 ++ l2) ∧ relinked (l1 ++ l2) h h' ∧ h' !! p = Some it.
Proof.
  intros Hd. destruct (dlist_elem h _ p Hd) as [Hp [it Hit]]; [apply elem_of_app; right; by apply elem_of_cons; left|].
  destruct (link_around_next h l1 p l2 it Hd Hit) as (Hnx & Hpr & h1 & Hh1 & Hs1 & Hs2 & Hr1).
  pose proof (dl_nodup _ _ Hd) as Hn. apply NoDup_app in Hn as (Hn1 & Hdis & Hn2).
  apply NoDup_cons in Hn2 as [Hpl2 Hn2].
  assert (p ∉ l1) as Hpl1 by (intros Hpl1; apply (Hdis p Hpl1); by apply elem_of_cons; left).
  assert (h1 !! p = Some it) as Hit1 by (by rewrite (rl_other _ _ _ Hr1)).
  assert (NoDup (l1 ++ l2)) as Hn12.
  { apply NoDup_app. split; [done|]. split; [|done]. intros x Hx Hx2. apply (Hdis x Hx).
    by apply elem_of_cons; right. }
  exists it. unfold link_around. rewrite (get_item_Ok _ _ _ Hit). cbn [mbind result_bind]. rewrite Hh1.
  cbn [mbind result_bind]. rewrite (get_item_Ok _ _ _ Hit1). cbn [mbind result_bind].
  rewrite Hpr, Hnx. destruct l1 as [|q l1' _] using rev_ind.
  - exists h1. cbn [final last default Z.eqb]. do 4 (split; [done|]). by split.
  - assert (q ∈ l1' ++ [q]) as Hql by (apply elem_of_app; right; by apply elem_of_cons; left).
    destruct (dseg_elem _ _ _ _ q Hs1 Hql) as [Hq0 [iq Hiq]].
    assert (final (l1' ++ [q]) = q) as Hfin by (unfold final; by rewrite last_snoc). rewrite Hfin in *.
    rewrite (proj2 (Z.eqb_neq _ _) Hq0), (upd_item_Ok _ _ _ _ Hiq).
    apply NoDup_app in Hn1 as (_ & Hdis1 & _).
    assert (q ∉ l1') as Hql1 by (intros Hq1; apply (Hdis1 q Hq1); by apply elem_of_cons; left).
    assert (q ∉ l2) as Hql2 by (intros Hq2; apply (Hdis q Hql); by apply elem_of_cons; right).
    eexists. do 4 (split; [done|]). split; [split; [|done]|split].
    + apply hdseg_app. rewrite last_snoc. cbn [default]. split.
      * by eapply hdseg_set_next.
      * apply (dseg_same h1); [done|]. intros x Hx. apply lookup_insert_ne. by intros ->.
    + eapply relinked_trans; [eapply relinked_mono; [exact Hr1|]|].
      { intros x Hx. apply elem_of_app. by right. }
      apply upd_relinked; [done| |done]. apply elem_of_app. by left.
    + rewrite lookup_insert_ne; [done|]. intros ->. done.
Qed.

End ItemHeap.
