(* ===== verification/McUtil.v ===== *)
(** * Numbers in the requests of memcached

    [memcached-1.4.15/util.c]: the conversions of the numbers in a request, and
    the byte order of numbers of 64 bits.  [long] has 64 bits. *)

From S2P Require Import Prelude Bytes CStrings.
From stdpp Require Import base list.
From Stdlib Require Import ZArith Lia.

Local Open Scope Z_scope.

Module McUtil.

(** ** The conversions of the C library *)

(** [strtoull]: the value, whether [errno] is [ERANGE], and [endptr]; nothing when
    [endptr] is the beginning of the string. *)
Definition strtoull (str : bytes) : option (Z * bool * bytes) :=
  '(neg, ds, endptr) ← scan str;
  let v := digits_value ds in
  Some (if 2 ^ 64 <=? v then (2 ^ 64 - 1, true, endptr)
        else (if neg : bool then u64 (- v) else v, false, endptr)).

(** [strtoll]. *)
Definition strtoll (str : bytes) : option (Z * bool * bytes) :=
  '(neg, ds, endptr) ← scan str;
  let v := if neg : bool then - digits_value ds else digits_value ds in
  Some (if v <? - 2 ^ 63 then (- 2 ^ 63, true, endptr)
        else if 2 ^ 63 <=? v then (2 ^ 63 - 1, true, endptr) else (v, false, endptr)).

(** ** [util.c] *)

(** [xisspace( *endptr) || *endptr == 0]. *)
Definition at_end (endptr : bytes) : bool :=
  match endptr with c :: _ => is_space c | [] => true end.

(** Each function returns whether it succeeds, and the value of [*out]. *)
Definition safe_strtoull (str : bytes) : bool * Z :=
  match strtoull str with
  | None => (false, 0)
  | Some (ull, erange, endptr) =>
      if erange then (false, 0)
      else if at_end endptr then
        if (i64 ull <? 0) && existsb (Z.eqb 45) str then (false, 0) else (true, ull)
      else (false, 0)
  end.

Definition safe_strtoll (str : bytes) : bool * Z :=
  match strtoll str with
  | None => (false, 0)
  | Some (ll, erange, endptr) =>
      if erange then (false, 0) else if at_end endptr then (true, ll) else (false, 0)
  end.

(** [unsigned long] has 64 bits, [*out] 32. *)
Definition safe_strtoul (str : bytes) : bool * Z :=
  match strtoull str with
  | None => (false, 0)
  | Some (l, erange, endptr) =>
      if erange then (false, 0)
      else if at_end endptr then
        if (i64 l <? 0) && existsb (Z.eqb 45) str then (false, 0) else (true, u32 l)
      else (false, 0)
  end.

Definition safe_strtol (str : bytes) : bool * Z :=
  match strtoll str with
  | None => (false, 0)
  | Some (l, erange, endptr) =>
      if erange then (false, 0) else if at_end endptr then (true, i32 l) else (false, 0)
  end.

(** The loop of [mc_swap64]. *)
Fixpoint swap_loop (i : nat) (rv inp : Z) : Z :=
  match i with
  | O => rv
  | S i' => swap_loop i' (i64 (Z.lor (Z.shiftl rv 8) (Z.land inp 0xff))) (Z.shiftr inp 8)
  end.
Definition mc_swap64 (inp : Z) : Z := u64 (swap_loop 8 0 inp).
Definition ntohll (val : Z) : Z := mc_swap64 val.
Definition htonll (val : Z) : Z := mc_swap64 val.

(** ** What is accepted *)

(** The number that a string denotes, its sign and digits up to the first character
    that ends it: what a reader of the string would expect. *)
Definition denotes (str : bytes) (neg : bool) (v : Z) : Prop :=
  ∃ ds endptr, scan str = Some (neg, ds, endptr) ∧ at_end endptr = true ∧ digits_value ds = v.

Lemma digits_value_nonneg ds : Forall (λ c, is_digit c = true) ds → 0 ≤ digits_value ds.
Proof.
  induction ds as [|c ds IH] using rev_ind; intros Hd; [done|].
  apply Forall_app in Hd as [Hd Hc%Forall_inv%is_digit_range]. rewrite digits_value_snoc. specialize (IH Hd). lia.
Qed.

Lemma take_while_Forall p l : Forall (λ c, p c = true) (take_while p l).
Proof. induction l as [|c l IH]; cbn; [done|]. destruct (p c) eqn:Hc; [by constructor|done]. Qed.

Lemma scan_is_digits str neg ds endptr : scan str = Some (neg, ds, endptr) → Forall (λ c, is_digit c = true) ds.
Proof.
  unfold scan. intros Hs.
  destruct (match skip_while is_space str with [] => _ | c :: s' => _ end) as [neg' s'].
  pose proof (take_while_Forall is_digit s') as Hf.
  destruct (take_while is_digit s') as [|c l]; [done|]. by injection Hs as <- <- <-.
Qed.

Lemma skip_while_elem p x l : p x = false → x ∈ l → x ∈ skip_while p l.
Proof.
  intros Hp. induction l as [|c l IH]; [done|]. intros [->|Hx]%elem_of_cons; cbn.
  - rewrite Hp. by apply elem_of_cons; left.
  - destruct (p c); [by apply IH|]. by apply elem_of_cons; right.
Qed.

Lemma skip_while_sub p x l : x ∈ skip_while p l → x ∈ l.
Proof.
  induction l as [|c l IH]; cbn; [done|]. destruct (p c); [|done]. intros Hx. apply elem_of_cons. right. by apply IH.
Qed.

(** A negative number has a minus sign. *)
Lemma scan_minus str ds endptr : scan str = Some (true, ds, endptr) → existsb (Z.eqb 45) str = true.
Proof.
  unfold scan. intros Hs. apply existsb_elem. exists 45. split; [|done].
  apply (skip_while_sub is_space). destruct (skip_while is_space str) as [|c s']; [done|].
  destruct (Z.eqb_spec c 45) as [->|]; [by apply elem_of_cons; left|].
  destruct (c =? 43); destruct (take_while _ _); done.
Qed.

Lemma i64_negative z : 0 ≤ z < 2 ^ 64 → (i64 z <? 0) = (2 ^ 63 <=? z).
Proof.
  intros Hz. unfold i64, wraps. change (2 ^ (64 - 1)) with (2 ^ 63).
  change (2 ^ 64) with 18446744073709551616 in *. change (2 ^ 63) with 9223372036854775808.
  destruct (Z.leb_spec 9223372036854775808 z); [apply Z.ltb_lt|apply Z.ltb_ge];
    Z.to_euclidean_division_equations; lia.
Qed.

(** The value that is stored for a string that denotes a number. *)
Lemma safe_strtoull_denotes (str : bytes) (neg : bool) (v : Z) (Hv : denotes str neg v) :
  safe_strtoull str =
  if neg then
    if v =? 0 then (true, 0) else if v <=? 2 ^ 63 then (false, 0)
    else if v <? 2 ^ 64 then (true, 2 ^ 64 - v) else (false, 0)
  else
    if v <? 2 ^ 63 then (true, v)
    else if (v <? 2 ^ 64) && negb (existsb (Z.eqb 45) str) then (true, v) else (false, 0).
Proof.
  destruct Hv as (ds & endptr & Hs & He & Hv). unfold safe_strtoull, strtoull. rewrite Hs. cbn [mbind option_bind].
  rewrite Hv. pose proof (digits_value_nonneg ds (scan_is_digits _ _ _ _ Hs)) as H0. rewrite Hv in H0.
  destruct (Z.leb_spec (2 ^ 64) v) as [Hbig|Hsmall].
  { destruct neg.
    - rewrite (proj2 (Z.eqb_neq _ _)), (proj2 (Z.leb_gt _ _)), (proj2 (Z.ltb_ge _ _)) by lia. done.
    - rewrite !(proj2 (Z.ltb_ge _ _)) by lia. done. }
  rewrite He. destruct neg.
  - rewrite (scan_minus _ _ _ Hs), andb_true_r, i64_negative by (apply wrapu_range; lia).
    destruct (Z.eqb_spec v 0) as [->|Hnz]; [done|].
    assert (u64 (- v) = 2 ^ 64 - v) as ->.
    { unfold u64, wrapu. symmetry. apply (Z.mod_unique _ _ (-1)); lia. }
    rewrite (proj2 (Z.ltb_lt v (2 ^ 64))) by lia.
    destruct (Z.leb_spec v (2 ^ 63)); [rewrite (proj2 (Z.leb_le _ _)) by lia|rewrite (proj2 (Z.leb_gt _ _)) by lia]; done.
  - rewrite i64_negative by lia. rewrite (proj2 (Z.ltb_lt v (2 ^ 64))) by lia.
    destruct (Z.ltb_spec v (2 ^ 63)); [rewrite (proj2 (Z.leb_gt _ _)) by lia; done|].
    rewrite (proj2 (Z.leb_le _ _)) by lia. cbn [andb]. by destruct (existsb _ _).
Qed.

(** What [safe_strtoull] accepts and the value it stores, for every string that
    denotes a number.  Numbers below [2 ^ 63] are stored as they are, those from
    [2 ^ 64] on are refused; of the negative ones, which all should be refused, 0 and
    those below [- 2 ^ 63] are accepted, the latter as the positive number [2 ^ 64 - v]. *)
Theorem safe_strtoull_accepts (str : bytes) (neg : bool) (v : Z) (Hv : denotes str neg v) :
  safe_strtoull str =
  if neg then
    if v =? 0 then (true, 0) else if v <=? 2 ^ 63 then (false, 0)
    else if v <? 2 ^ 64 then (true, 2 ^ 64 - v) else (false, 0)
  else
    if v <? 2 ^ 63 then (true, v)
    else if (v <? 2 ^ 64) && negb (existsb (Z.eqb 45) str) then (true, v) else (false, 0).
Proof. by apply safe_strtoull_denotes. Qed.

(** A string that denotes no number is refused. *)
Lemma safe_strtoull_refuses str :
  (∀ neg ds endptr, scan str = Some (neg, ds, endptr) → at_end endptr = false) →
  safe_strtoull str = (false, 0).
Proof.
  intros Hs. unfold safe_strtoull, strtoull. destruct (scan str) as [[[neg ds] endptr]|]; [|done]. cbn [mbind option_bind].
  destruct (2 ^ 64 <=? _); [done|]. by rewrite (Hs neg ds endptr eq_refl).
Qed.

Lemma decimal_denotes n endptr :
  0 ≤ n < 10 ^ 20 → at_end endptr = true → denotes (decimal n ++ endptr) false n.
Proof.
  intros Hn He. exists (decimal n), endptr. split; [|by split; [|apply decimal_value]].
  apply scan_decimal; [lia|]. destruct endptr as [|c endptr]; [done|]. cbn in *.
  apply not_true_is_false. intros Hd%not_space_digit. congruence.
Qed.

(** The conversions to 32 bits drop the upper half of the number: [safe_strtoul] and
    [safe_strtol] succeed on every number below [2 ^ 63] and store its residue. *)
Theorem safe_strtoul_truncates (n : Z) (Hn : 0 ≤ n < 2 ^ 63) :
  safe_strtoul (decimal n) = (true, u32 n) ∧ safe_strtol (decimal n) = (true, i32 n).
Proof.
  destruct (decimal_denotes n [] ltac:(lia) eq_refl) as (ds & endptr & Hs & He & Hv). rewrite app_nil_r in Hs.
  unfold safe_strtoul, safe_strtol, strtoull, strtoll. rewrite Hs. cbn [mbind option_bind]. rewrite Hv.
  rewrite (proj2 (Z.leb_gt _ _)), (proj2 (Z.ltb_ge n _)), (proj2 (Z.leb_gt (2 ^ 63) n)), He by lia.
  rewrite i64_negative by lia. rewrite (proj2 (Z.leb_gt (2 ^ 63) n)) by lia. done.
Qed.

(** [-18446744073709551615] is 1, [4294967297] is 1 and [4294967295] is -1. *)
Example safe_strtoull_accepts_witness : safe_strtoull (45 :: decimal (2 ^ 64 - 1)) = (true, 1).
Proof.
  apply (safe_strtoull_accepts (45 :: decimal (2 ^ 64 - 1)) true (2 ^ 64 - 1)).
  exists (decimal (2 ^ 64 - 1)), []. split_and!; reflexivity.
Defined.
Example safe_strtoul_truncates_witness :
  safe_strtoul (decimal 4294967297) = (true, 1) ∧ safe_strtol (decimal 4294967295) = (true, -1).
Proof.
  split.
  - apply (safe_strtoul_truncates 4294967297). lia.
  - apply (safe_strtoul_truncates 4294967295). lia.
Defined.

(** ** The byte order *)

(** The bytes of a number, the lowest one first. *)
Fixpoint to_le (n : nat) (x : Z) : bytes :=
  match n with O => [] | S n' => x mod 256 :: to_le n' (x / 256) end.

Lemma to_le_snoc n x : to_le (S n) x = to_le n x ++ [x / 256 ^ Z.of_nat n mod 256].
Proof.
  revert x. induction n as [|n IH]; intros x; [cbn; by rewrite Z.div_1_r|].
  change (to_le (S (S n)) x) with (x mod 256 :: to_le (S n) (x / 256)). rewrite IH. cbn [to_le app].
  rewrite Nat2Z.inj_succ, Z.pow_succ_r, Z.div_div by lia. done.
Qed.

Lemma to_le_rev n x : to_le n x = reverse (to_be n x).
Proof.
  induction n as [|n IH]; [done|]. rewrite to_le_snoc. cbn [to_be]. by rewrite reverse_cons, IH.
Qed.

Lemma shift_byte rv x : 0 ≤ x → Z.lor (Z.shiftl rv 8) (Z.land x 0xff) = rv * 256 + x mod 256.
Proof.
  intros Hx. change 0xff with (Z.ones 8). rewrite Z.land_ones by lia. change (2 ^ 8) with 256.
  rewrite <- Z.add_nocarry_lor.
  - rewrite Z.shiftl_mul_pow2 by lia. lia.
  - apply Z.bits_inj'. intros i Hi. rewrite Z.land_spec, Z.bits_0, Z.shiftl_spec by done.
    destruct (Z.ltb_spec i 8); [by rewrite Z.testbit_neg_r by lia|].
    change 256 with (2 ^ 8). rewrite Z.mod_pow2_bits_high by lia. apply andb_false_r.
Qed.

Lemma swap_loop_spec n rv x :
  0 ≤ x → u64 (swap_loop n rv x) = u64 (rv * 256 ^ Z.of_nat n + of_be (to_le n x)).
Proof.
  revert rv x. induction n as [|n IH]; intros rv x Hx; cbn [swap_loop to_le].
  - f_equal. change (of_be []) with 0. change (256 ^ Z.of_nat 0) with 1. lia.
  - rewrite IH by (apply Z.shiftr_nonneg; lia). rewrite shift_byte, Z.shiftr_div_pow2 by lia.
    change (2 ^ 8) with 256. rewrite of_be_cons, of_be_acc. unfold u64, wrapu, i64.
    assert (zlen (to_le n (x / 256)) = Z.of_nat n) as ->.
    { rewrite to_le_rev. unfold zlen. by rewrite length_reverse, to_be_length. }
    rewrite Nat2Z.inj_succ, Z.pow_succ_r by lia.
    rewrite <- (Zplus_mod_idemp_l (_ * _)), <- (Zmult_mod_idemp_l (wraps _ _)), wraps_mod by lia.
    rewrite Zmult_mod_idemp_l, Zplus_mod_idemp_l. f_equal. lia.
Qed.

(** [htonll] and [ntohll] undo one another and put the bytes in network order. *)
Theorem ntohll_htonll (val : Z) (Hval : 0 ≤ val < 2 ^ 64) :
  ntohll (htonll val) = val ∧ to_le 8 (htonll val) = to_be 8 val.
Proof.
  assert (∀ x, 0 ≤ x → mc_swap64 x = of_be (to_le 8 x)) as Hsw.
  { intros x Hx. unfold mc_swap64. rewrite swap_loop_spec by done. rewrite Z.mul_0_l, Z.add_0_l.
    apply wrapu_small. rewrite to_le_rev. pose proof (of_be_range (reverse (to_be 8 x))) as Hr.
    unfold zlen in Hr. rewrite length_reverse, to_be_length in Hr. apply Hr.
    apply Forall_reverse, to_be_bytes. }
  assert (to_be 8 (of_be (reverse (to_be 8 val))) = reverse (to_be 8 val)) as Hrt.
  { rewrite <- (to_be_of_be (reverse (to_be 8 val))) at 2; [|apply Forall_reverse, to_be_bytes].
    by rewrite length_reverse, to_be_length. }
  assert (to_le 8 (htonll val) = to_be 8 val) as Hle.
  { unfold htonll. rewrite Hsw, !to_le_rev, Hrt by lia. apply reverse_involutive. }
  split; [|done]. unfold ntohll. rewrite Hsw, Hle, of_be_to_be; [by apply Z.mod_small|].
  by apply (wrapu_range 64).
Qed.

Example ntohll_htonll_witness : ntohll (htonll 0x0102030405060708) = 0x0102030405060708.
Proof. apply (ntohll_htonll 0x0102030405060708). lia. Defined.

End McUtil.
