(* ===== verification/MemcachedHash.v ===== *)
(** * The hash function of memcached

    [memcached-1.4.15/hash.c], compiled for a little-endian machine: Bob Jenkins's
    hash of a key, read in words of 32 bits, of 16 bits or byte by byte, as the
    address of the key is aligned.  The three ways to read give the same hash
    ([hash_alignment]); [mix], the inner step, can be undone ([mix_reversible]).

    The memory is the list of the bytes from the first byte of the key on: the key
    and what lies behind it, because the first way reads the whole of the last word. *)

From S2P Require Import Prelude Bytes.
From stdpp Require Import base list.
From Stdlib Require Import ZArith Lia.

Local Open Scope Z_scope.

Module MemcachedHash.

Definition abc : Type := Z * Z * Z.

Definition rot (x k : Z) : Z := Z.lxor (u32 (Z.shiftl x k)) (Z.shiftr x (32 - k)).

(** One line of [mix]: [x -= z; x ^= rot(z,k); z += y]. *)
Definition mix_line (k x y z : Z) : Z * Z := (Z.lxor (u32 (x - z)) (rot z k), u32 (z + y)).

Definition mix '((a, b, c) : abc) : abc :=
  let '(a, c) := mix_line 4 a b c in
  let '(b, a) := mix_line 6 b c a in
  let '(c, b) := mix_line 8 c a b in
  let '(a, c) := mix_line 16 a b c in
  let '(b, a) := mix_line 19 b c a in
  let '(c, b) := mix_line 4 c a b in
  (a, b, c).

(** One step of [final]: [x ^= y; x -= rot(y,k)]. *)
Definition final_step (k x y : Z) : Z := u32 (Z.lxor x y - rot y k).

Definition final '((a, b, c) : abc) : abc :=
  let c := final_step 14 c b in
  let a := final_step 11 a c in
  let b := final_step 25 b a in
  let c := final_step 16 c b in
  let a := final_step 4 a c in
  let b := final_step 14 b a in
  let c := final_step 24 c b in
  (a, b, c).

(** ** Reading *)

(** [k[i]] for pointers to [uint8_t], [uint16_t] and [uint32_t]. *)
Definition k8 (m : bytes) (i : nat) : result Z :=
  match m !! i with Some x => Ok x | None => Fail OutOfBounds end.
Definition k16 (m : bytes) (i : nat) : result Z :=
  let* x := k8 m (2 * i) in let* y := k8 m (2 * i + 1) in Ok (x + 2 ^ 8 * y).
Definition k32 (m : bytes) (i : nat) : result Z :=
  let* x := k16 m (2 * i) in let* y := k16 m (2 * i + 1) in Ok (x + 2 ^ 16 * y).

Definition add_a (v : Z) '((a, b, c) : abc) : abc := (u32 (a + v), b, c).
Definition add_b (v : Z) '((a, b, c) : abc) : abc := (a, u32 (b + v), c).
Definition add_c (v : Z) '((a, b, c) : abc) : abc := (a, b, u32 (c + v)).

(** *** In words of 32 bits *)

Definition block32 (m : bytes) (s : abc) : result abc :=
  let* x := k32 m 0 in let* y := k32 m 1 in let* z := k32 m 2 in
  Ok (add_c z (add_b y (add_a x s))).

(** The [switch] on the length of the last block. *)
Definition last32 (length : Z) (m : bytes) (s : abc) : result abc :=
  let a s := let* x := k32 m 0 in Ok (add_a x s) in
  let b s := let* y := k32 m 1 in a (add_b y s) in
  let masked_a mask := let* x := k32 m 0 in Ok (add_a (Z.land x mask) s) in
  let masked_b mask := let* y := k32 m 1 in a (add_b (Z.land y mask) s) in
  let masked_c mask := let* z := k32 m 2 in b (add_c (Z.land z mask) s) in
  match length with
  | 12 => let* z := k32 m 2 in b (add_c z s)
  | 11 => masked_c 0xffffff | 10 => masked_c 0xffff | 9 => masked_c 0xff
  | 8 => b s
  | 7 => masked_b 0xffffff | 6 => masked_b 0xffff | 5 => masked_b 0xff
  | 4 => a s
  | 3 => masked_a 0xffffff | 2 => masked_a 0xffff | 1 => masked_a 0xff
  | _ => Ok s
  end.

(** *** In words of 16 bits *)

Definition pair16 (m : bytes) (i : nat) : result Z :=
  let* x := k16 m i in let* y := k16 m (i + 1) in Ok (u32 (x + Z.shiftl y 16)).

Definition block16 (m : bytes) (s : abc) : result abc :=
  let* x := pair16 m 0 in let* y := pair16 m 2 in let* z := pair16 m 4 in
  Ok (add_c z (add_b y (add_a x s))).

Definition last16 (length : Z) (m : bytes) (s : abc) : result abc :=
  let a s := let* x := pair16 m 0 in Ok (add_a x s) in
  let b s := let* y := pair16 m 2 in a (add_b y s) in
  match length with
  | 12 => let* z := pair16 m 4 in b (add_c z s)
  | 11 => let* z := k8 m 10 in let* z' := k16 m 4 in b (add_c z' (add_c (Z.shiftl z 16) s))
  | 10 => let* z := k16 m 4 in b (add_c z s)
  | 9 => let* z := k8 m 8 in b (add_c z s)
  | 8 => b s
  | 7 => let* y := k8 m 6 in let* y' := k16 m 2 in a (add_b y' (add_b (Z.shiftl y 16) s))
  | 6 => let* y := k16 m 2 in a (add_b y s)
  | 5 => let* y := k8 m 4 in a (add_b y s)
  | 4 => a s
  | 3 => let* x := k8 m 2 in let* x' := k16 m 0 in Ok (add_a x' (add_a (Z.shiftl x 16) s))
  | 2 => let* x := k16 m 0 in Ok (add_a x s)
  | 1 => let* x := k8 m 0 in Ok (add_a x s)
  | _ => Ok s
  end.

(** *** Byte by byte *)

Definition four8 (m : bytes) (i : nat) (add : Z → abc → abc) (s : abc) : result abc :=
  let* x := k8 m i in let* y := k8 m (i + 1) in let* z := k8 m (i + 2) in let* t := k8 m (i + 3) in
  Ok (add (Z.shiftl t 24) (add (Z.shiftl z 16) (add (Z.shiftl y 8) (add x s)))).

Definition block8 (m : bytes) (s : abc) : result abc :=
  let* s := four8 m 0 add_a s in let* s := four8 m 4 add_b s in four8 m 8 add_c s.

(** [case n] of the [switch], which falls through to [case n - 1]. *)
Definition case8 (n : nat) (m : bytes) (s : abc) : result abc :=
  let* x := k8 m (n - 1) in
  let v := Z.shiftl x (Z.of_nat (8 * ((n - 1) mod 4))) in
  Ok ((if (n <=? 4)%nat then add_a else if (n <=? 8)%nat then add_b else add_c) v s).
Fixpoint last8 (n : nat) (m : bytes) (s : abc) : result abc :=
  match n with
  | O => Ok s
  | S n' => let* s := case8 n m s in last8 n' m s
  end.

(** *** The loop, the last block and [final] *)

(** [while (length > 12)]: what is left of the length and of the memory. *)
Fixpoint blocks (fuel : nat) (block : bytes → abc → result abc) (length : Z) (m : bytes) (s : abc)
  : result (Z * bytes * abc) :=
  match fuel with
  | O => Fail OutOfFuel
  | S fuel' =>
      if 12 <? length then
        let* s := block m s in blocks fuel' block (length - 12) (zdrop 12 m) (mix s)
      else Ok (length, m, s)
  end.

(** The last block and the result; an empty last block is not mixed. *)
Definition finish (last : Z → bytes → abc → result abc) (r : Z * bytes * abc) : result Z :=
  let '(length, m, s) := r in
  if length =? 0 then Ok s.2 else let* s := last length m s in Ok (final s).2.

(** [hash(key, length, initval)]: [addr] is the address of the key and [m] the memory
    from there on. *)
Definition hash (addr : Z) (m : bytes) (length initval : Z) : result Z :=
  let iv := u32 (0xdeadbeef + u32 length + initval) in
  let fuel := S (Z.to_nat length) in
  if Z.land addr 3 =? 0 then
    let* r := blocks fuel block32 length m (iv, iv, iv) in finish last32 r
  else if Z.land addr 1 =? 0 then
    let* r := blocks fuel block16 length m (iv, iv, iv) in finish last16 r
  else
    let* r := blocks fuel block8 length m (iv, iv, iv) in finish (λ n, last8 (Z.to_nat n)) r.

(** ** A reference definition, without alignment

    The little-endian value of up to four bytes. *)
Definition le (l : bytes) : Z := foldr (λ b v, b + 256 * v) 0 l.

(** Up to twelve bytes are added to the state. *)
Definition absorb (l : bytes) '((a, b, c) : abc) : abc :=
  (u32 (a + le (take 4 l)), u32 (b + le (take 4 (drop 4 l))), u32 (c + le (drop 8 l))).

Fixpoint hash_ref_loop (fuel : nat) (key : bytes) (s : abc) : Z :=
  match fuel with
  | O => 0
  | S fuel' =>
      if 12 <? zlen key then hash_ref_loop fuel' (zdrop 12 key) (mix (absorb (ztake 12 key) s))
      else if zlen key =? 0 then s.2 else (final (absorb key s)).2
  end.
Definition hash_ref (key : bytes) (initval : Z) : Z :=
  let iv := u32 (0xdeadbeef + u32 (zlen key) + initval) in hash_ref_loop (S (length key)) key (iv, iv, iv).

(** *** The step [mix] can be undone *)

Definition u32s '((a, b, c) : abc) : Prop := 0 ≤ a < 2 ^ 32 ∧ 0 ≤ b < 2 ^ 32 ∧ 0 ≤ c < 2 ^ 32.

Definition unmix_line (k x y z : Z) : Z * Z :=
  let z := u32 (z - y) in (u32 (Z.lxor x (rot z k) + z), z).

Definition unmix '((a, b, c) : abc) : abc :=
  let '(c, b) := unmix_line 4 c a b in
  let '(b, a) := unmix_line 19 b c a in
  let '(a, c) := unmix_line 16 a b c in
  let '(c, b) := unmix_line 8 c a b in
  let '(b, a) := unmix_line 6 b c a in
  let '(a, c) := unmix_line 4 a b c in
  (a, b, c).

Lemma unmix_mix_line k x y z :
  0 ≤ x < 2 ^ 32 → 0 ≤ z < 2 ^ 32 →
  let '(x', z') := mix_line k x y z in unmix_line k x' y z' = (x, z).
Proof.
  intros Hx Hz. unfold mix_line, unmix_line.
  assert (u32 (u32 (z + y) - y) = z) as -> by u32_solve.
  rewrite Z.lxor_assoc, Z.lxor_nilpotent, Z.lxor_0_r. f_equal. u32_solve.
Qed.

Lemma lxor_range a b : 0 ≤ a < 2 ^ 32 → 0 ≤ b < 2 ^ 32 → 0 ≤ Z.lxor a b < 2 ^ 32.
Proof.
  intros Ha Hb. assert (0 ≤ Z.lxor a b) as Hn by (apply Z.lxor_nonneg; lia). split; [done|].
  destruct (decide (Z.lxor a b = 0)) as [->|Hz]; [lia|]. apply Z.log2_lt_pow2; [lia|].
  eapply Z.le_lt_trans; [apply Z.log2_lxor; lia|].
  assert (∀ c, 0 ≤ c < 2 ^ 32 → Z.log2 c < 32) as Hl.
  { intros c Hc. destruct (decide (c = 0)) as [->|]; [done|]. apply Z.log2_lt_pow2; lia. }
  pose proof (Hl a Ha). pose proof (Hl b Hb). lia.
Qed.

Lemma u32_range z : 0 ≤ u32 z < 2 ^ 32.
Proof. by apply wrapu_range. Qed.

Lemma rot_range x k : 0 ≤ x < 2 ^ 32 → 0 ≤ k ≤ 32 → 0 ≤ rot x k < 2 ^ 32.
Proof.
  intros Hx Hk. unfold rot. apply lxor_range; [apply u32_range|].
  rewrite Z.shiftr_div_pow2 by lia. pose proof (pow2_pos (32 - k) ltac:(lia)).
  split; [apply Z.div_pos; lia|]. apply Z.div_lt_upper_bound; nia.
Qed.

Lemma mix_line_range k x y z :
  0 ≤ k ≤ 32 → 0 ≤ z < 2 ^ 32 → 0 ≤ (mix_line k x y z).1 < 2 ^ 32 ∧ 0 ≤ (mix_line k x y z).2 < 2 ^ 32.
Proof.
  intros Hk Hz. split; [|apply u32_range].
  apply lxor_range; [apply u32_range|by apply rot_range].
Qed.

(** One line more of [mix] in front of a sequence of lines. *)
Ltac mix_step :=
  match goal with
  | |- context [mix_line ?k ?x ?y ?z] =>
      let Hu := fresh in let Hr1 := fresh in let Hr2 := fresh in
      pose proof (unmix_mix_line k x y z ltac:(assumption) ltac:(assumption)) as Hu;
      destruct (mix_line_range k x y z ltac:(lia) ltac:(assumption)) as [Hr1 Hr2];
      destruct (mix_line k x y z) as [? ?]; cbn [fst snd] in Hr1, Hr2
  end.

(** [mix] can be undone, as the comment in front of it says: no two states are mixed
    into one. *)
Theorem mix_reversible (s : abc) (Hs : u32s s) : unmix (mix s) = s ∧ u32s (mix s).
Proof.
  destruct s as [[a b] c]. destruct Hs as (Ha & Hb & Hc). unfold mix. do 6 mix_step.
  unfold unmix, u32s. split; [|done].
  repeat match goal with H : unmix_line _ _ _ _ = _ |- _ => rewrite H; clear H end. done.
Qed.

(** ** The three ways to read *)

Lemma land_ones_mod v n : 0 ≤ n → Z.land v (Z.ones n) = v mod 2 ^ n.
Proof. apply Z.land_ones. Qed.
Lemma mask24 v : Z.land v 0xffffff = v mod 2 ^ 24. Proof. by apply (Z.land_ones v 24). Qed.
Lemma mask16 v : Z.land v 0xffff = v mod 2 ^ 16. Proof. by apply (Z.land_ones v 16). Qed.
Lemma mask8 v : Z.land v 0xff = v mod 2 ^ 8. Proof. by apply (Z.land_ones v 8). Qed.

Lemma add_zero v w : 0 ≤ v < 2 ^ 32 → w = 0 → v = u32 (v + w).
Proof. intros Hv ->. rewrite Z.add_0_r. symmetry. by apply wrapu_small. Qed.

Lemma ok_abc (a a' b b' c c' : Z) : a = a' → b = b' → c = c' → Ok (a, b, c) = Ok (a', b', c').
Proof. congruence. Qed.

(** Equations between states that agree up to the order of the additions. *)
Ltac solve_words :=
  cbv [length Z.of_nat Pos.of_succ_nat Pos.succ];
  cbn -[Z.shiftl Z.land u32 Z.mul Z.add Z.pow];
  rewrite ?mask24, ?mask16, ?mask8;
  apply ok_abc; first [by apply add_zero | rewrite ?Z.shiftl_mul_pow2 by lia; u32_solve].

Ltac byte_ranges :=
  repeat match goal with
  | H : Forall is_byte (_ :: _) |- _ => apply Forall_cons in H as [? H]
  end; unfold is_byte in *.

Lemma last8_spec key tail s :
  zlen key ≤ 12 → Forall is_byte key → u32s s → last8 (length key) (key ++ tail) s = Ok (absorb key s).
Proof.
  intros Hl Hb Hs. destruct s as [[a b] c]. destruct Hs as (Ha & Hb' & Hc).
  unfold absorb.
  assert (length key ≤ 12)%nat as Hn by (unfold zlen in Hl; lia). clear Hl.
  do 12 (destruct key as [|? key]; [byte_ranges; solve_words|]).
  destruct key; [byte_ranges; solve_words|cbn in Hn; lia].
Qed.

(** The memory behind a key that reading by words touches: up to the next multiple of
    the size of a word. *)
Definition readable (word : Z) (key tail : bytes) : Prop :=
  Forall is_byte (key ++ tail) ∧ (- zlen key) mod word ≤ zlen tail.

Lemma last32_spec key tail s :
  zlen key ≤ 12 → readable 4 key tail → u32s s → last32 (zlen key) (key ++ tail) s = Ok (absorb key s).
Proof.
  intros Hl [Hb Ht] Hs. destruct s as [[a b] c]. destruct Hs as (Ha & Hb' & Hc). unfold absorb, zlen in *.
  do 12 (destruct key as [|? key];
    [do 3 (try (destruct tail as [|? tail]; [exfalso; apply Ht; reflexivity|])); cbn [app] in Hb; byte_ranges; solve_words|]).
  destruct key; [cbn [app] in Hb; byte_ranges; solve_words|cbn in Hl; lia].
Qed.

Lemma last16_spec key tail s :
  zlen key ≤ 12 → Forall is_byte key → u32s s → last16 (zlen key) (key ++ tail) s = Ok (absorb key s).
Proof.
  intros Hl Hb Hs. destruct s as [[a b] c]. destruct Hs as (Ha & Hb' & Hc). unfold absorb, zlen in *.
  do 12 (destruct key as [|? key]; [byte_ranges; solve_words|]).
  destruct key; [cbn [app] in Hb; byte_ranges; solve_words|cbn in Hl; lia].
Qed.
Ltac solve_block m Hl Hb :=
  do 12 (destruct m as [|? m]; [exfalso; apply Hl; reflexivity|]);
  unfold absorb; cbn [app] in Hb; byte_ranges; solve_words.

Lemma block32_spec m s :
  12 ≤ zlen m → Forall is_byte m → u32s s → block32 m s = Ok (absorb (take 12 m) s).
Proof. destruct s as [[a b] c]. intros Hl Hb (? & ? & ?). solve_block m Hl Hb. Qed.
Lemma block16_spec m s :
  12 ≤ zlen m → Forall is_byte m → u32s s → block16 m s = Ok (absorb (take 12 m) s).
Proof. destruct s as [[a b] c]. intros Hl Hb (? & ? & ?). solve_block m Hl Hb. Qed.
Lemma block8_spec m s :
  12 ≤ zlen m → Forall is_byte m → u32s s → block8 m s = Ok (absorb (take 12 m) s).
Proof. destruct s as [[a b] c]. intros Hl Hb (? & ? & ?). solve_block m Hl Hb. Qed.

Lemma to_nat_zlen (l : bytes) : Z.to_nat (zlen l) = length l.
Proof. unfold zlen. apply Nat2Z.id. Qed.

Lemma u32s_start z : u32s (u32 z, u32 z, u32 z).
Proof. split_and!; apply u32_range. Qed.
Lemma absorb_range l s : u32s (absorb l s).
Proof. destruct s as [[a b] c]. split_and!; apply u32_range. Qed.

Lemma readable_drop word key tail :
  (word | 12) → 12 < zlen key → readable word key tail → readable word (zdrop 12 key) tail.
Proof.
  intros [q Hq] Hl [Hb Ht]. split.
  - apply Forall_app in Hb as [Hk Htl]. apply Forall_app. split; [|done]. by apply Forall_drop.
  - rewrite zlen_zdrop by lia. replace (- (zlen key - 12)) with (- zlen key + q * word) by lia.
    by rewrite Z_mod_plus_full.
Qed.

(** ** One way to read: blocks of twelve bytes, and a last block *)
Section Reader.
Context (word : Z) (block : bytes → abc → result abc) (last : Z → bytes → abc → result abc).
Hypothesis word_divides : (word | 12).
Hypothesis block_spec : ∀ m s,
  12 ≤ zlen m → Forall is_byte m → u32s s → block m s = Ok (absorb (take 12 m) s).
Hypothesis last_spec : ∀ key tail s,
  zlen key ≤ 12 → readable word key tail → u32s s → last (zlen key) (key ++ tail) s = Ok (absorb key s).

Lemma reader_spec fuel key tail s :
  (length key < fuel)%nat → readable word key tail → u32s s →
  (let* r := blocks fuel block (zlen key) (key ++ tail) s in finish last r) = Ok (hash_ref_loop fuel key s).
Proof.
  revert key s. induction fuel as [|fuel IH]; intros key s Hf Hr Hs; [lia|]. cbn [blocks hash_ref_loop].
  destruct (Z.ltb_spec 12 (zlen key)) as [Hlt|Hge].
  - assert (12 ≤ length key)%nat as Hlen by (unfold zlen in Hlt; lia). rewrite block_spec; [|rewrite zlen_app; pose proof (zlen_nonneg tail); lia|apply Hr|done].
    cbn [mbind result_bind]. rewrite take_app_le by done.
    rewrite (zdrop_app_le 12) by lia. rewrite <- (zlen_zdrop 12 key) by lia.
    change (ztake 12 key) with (take 12 key). apply IH.
    + unfold zdrop. rewrite length_drop. lia.
    + by apply readable_drop.
    + apply (mix_reversible (absorb (take 12 key) s)), absorb_range.
  - cbn [mbind result_bind finish]. destruct (Z.eqb_spec (zlen key) 0); [done|].
    by rewrite last_spec.
Qed.

End Reader.

(** C22: The three ways to read a key, in words of 32 bits, of 16 bits and byte by byte,
    give the same hash, that of the definition without alignment: it depends on the
    bytes of the key and on nothing else, neither on the address nor on the bytes behind
    the key, of which at most those up to the end of the last word are read. *)
Theorem hash_alignment (addr : Z) (key tail : bytes) (initval : Z)
  (Htail : readable (if Z.land addr 3 =? 0 then 4 else 1) key tail) :
  hash addr (key ++ tail) (zlen key) initval = Ok (hash_ref key initval).
Proof.
  unfold hash, hash_ref. set (iv := u32 _).
  pose proof (u32s_start (0xdeadbeef + u32 (zlen key) + initval)) as Hiv. fold iv in Hiv.
  rewrite to_nat_zlen.
  destruct (Z.land addr 3 =? 0); [|destruct (Z.land addr 1 =? 0)].
  - apply (reader_spec 4); [by exists 3|apply block32_spec|apply last32_spec|lia|done|done].
  - apply (reader_spec 1); [by exists 12|apply block16_spec| |lia|done|done].
    intros k t s Hk [Hb _] Hs. apply Forall_app in Hb as [Hb _]. by apply last16_spec.
  - apply (reader_spec 1); [by exists 12|apply block8_spec| |lia|done|done].
    intros k t s Hk [Hb _] Hs. apply Forall_app in Hb as [Hb _].
    rewrite to_nat_zlen. by apply last8_spec.
Qed.

(** *** The test vector of the author of the function *)
Definition four_score : bytes :=
  [70; 111; 117; 114; 32; 115; 99; 111; 114; 101; 32; 97; 110; 100; 32;
   115; 101; 118; 101; 110; 32; 121; 101; 97; 114; 115; 32; 97; 103; 111].

Example hash_alignment_witness :
  hash 8 (four_score ++ [34; 0]) 30 0 = Ok 0x17770551 ∧ hash 9 (four_score ++ []) 30 0 = Ok 0x17770551.
Proof.
  split.
  - apply (hash_alignment 8 four_score [34; 0] 0). split; [|vm_compute; discriminate].
    repeat (constructor; [split; vm_compute; congruence|]); constructor.
  - apply (hash_alignment 9 four_score [] 0). split; [|vm_compute; discriminate].
    repeat (constructor; [split; vm_compute; congruence|]); constructor.
Defined.

Example mix_reversible_witness : unmix (mix (1, 2, 3)) = (1, 2, 3).
Proof. apply (mix_reversible (1, 2, 3)). repeat split; vm_compute; congruence. Defined.

(** A hash is an unsigned number of 32 bits. *)
Lemma hash_ref_range key initval : 0 ≤ hash_ref key initval < 2 ^ 32.
Proof.
  unfold hash_ref. set (iv := u32 _).
  pose proof (u32s_start (0xdeadbeef + u32 (zlen key) + initval)) as Hiv. fold iv in Hiv.
  revert Hiv. generalize (iv, iv, iv). generalize (S (length key)). intros fuel. clear iv.
  revert key. induction fuel as [|fuel IH]; intros key s Hs; cbn [hash_ref_loop]; [lia|].
  destruct (12 <? zlen key).
  - apply IH, (mix_reversible (absorb (ztake 12 key) s)), absorb_range.
  - destruct s as [[a b] c]. destruct (zlen key =? 0); [apply Hs|]. apply u32_range.
Qed.

End MemcachedHash.
