(* ===== verification/Assoc.v ===== *)
(** * The hash table of memcached

    [memcached-1.4.15/assoc.c]: a table of chained items that grows by a factor of two
    while it is in use.  During an expansion the table that is being left and the new
    one coexist; a maintenance thread moves one bucket after the other.

    Of an item ([ItemHeap]) the table only uses the key and the link [h_next].  Every operation runs
    under the locks that the callers hold, so that it is one step. *)

From S2P Require Import Prelude Bytes ItemHeap.
From stdpp Require Import base gmap list.
From Stdlib Require Import ZArith Lia.

Local Open Scope Z_scope.

Module Assoc.
Import ItemHeap.

Record table := mkTable {
  heap : gmap Z item;
  hashpower : Z;
  primary_hashtable : list Z;
  old_hashtable : list Z;
  hash_items : Z;
  expanding : bool;
  started_expanding : bool;
  expand_bucket : Z
}.

Definition hashsize (n : Z) : Z := Z.shiftl 1 n.
Definition hashmask (n : Z) : Z := hashsize n - 1.

Definition HASHPOWER_DEFAULT : Z := 16.

(** [assoc_init] with the memory for the table; the heap is that of the items. *)
Definition assoc_init (h : gmap Z item) (hashtable_init : Z) : table :=
  let power := if negb (hashtable_init =? 0) then hashtable_init else HASHPOWER_DEFAULT in
  mkTable h power (replicate (Z.to_nat (hashsize power)) 0) [] 0 false false 0.

(** *** Updates *)
Definition set_heap (h : gmap Z item) (t : table) : table :=
  mkTable h (hashpower t) (primary_hashtable t) (old_hashtable t) (hash_items t) (expanding t)
    (started_expanding t) (expand_bucket t).
Definition set_primary (l : list Z) (t : table) : table :=
  mkTable (heap t) (hashpower t) l (old_hashtable t) (hash_items t) (expanding t)
    (started_expanding t) (expand_bucket t).
Definition set_old (l : list Z) (t : table) : table :=
  mkTable (heap t) (hashpower t) (primary_hashtable t) l (hash_items t) (expanding t)
    (started_expanding t) (expand_bucket t).
Definition set_hash_items (n : Z) (t : table) : table :=
  mkTable (heap t) (hashpower t) (primary_hashtable t) (old_hashtable t) n (expanding t)
    (started_expanding t) (expand_bucket t).
Definition set_started (b : bool) (t : table) : table :=
  mkTable (heap t) (hashpower t) (primary_hashtable t) (old_hashtable t) (hash_items t) (expanding t)
    b (expand_bucket t).
Definition set_expand_bucket (n : Z) (t : table) : table :=
  mkTable (heap t) (hashpower t) (primary_hashtable t) (old_hashtable t) (hash_items t) (expanding t)
    (started_expanding t) n.

(** *** Pointers

    A [slot] is the address of an [item *]: an element of one of the two tables or the
    link of an item. *)
Inductive slot := InTable (old : bool) (bucket : Z) | InItem (p : Z).
#[export] Instance slot_eq_dec : EqDecision slot.
Proof. solve_decision. Defined.

Definition deref (p : Z) (t : table) : result item :=
  match heap t !! p with Some it => Ok it | None => Fail UseAfterFree end.

Definition load (sl : slot) (t : table) : result Z :=
  match sl with
  | InTable old b =>
      match (if old then old_hashtable t else primary_hashtable t) !! Z.to_nat b with
      | Some p => Ok p
      | None => Fail OutOfBounds
      end
  | InItem p => let* it := deref p t in Ok (h_next it)
  end.

Definition store (sl : slot) (v : Z) (t : table) : result table :=
  match sl with
  | InTable old b =>
      let* _ := load sl t in
      Ok (if old then set_old (<[Z.to_nat b := v]> (old_hashtable t)) t
          else set_primary (<[Z.to_nat b := v]> (primary_hashtable t)) t)
  | InItem p =>
      let* it := deref p t in Ok (set_heap (<[p := set_h_next v it]> (heap t)) t)
  end.

(** The bucket of a hash: in the table that is being left if the bucket has not been
    moved yet. *)
Definition bucket_slot (hv : Z) (t : table) : slot :=
  let oldbucket := Z.land hv (hashmask (hashpower t - 1)) in
  if expanding t && (expand_bucket t <=? oldbucket) then InTable true oldbucket
  else InTable false (Z.land hv (hashmask (hashpower t))).

(** ** Operations *)

(** The loop of [assoc_find]; 0 is returned if the key is not there. *)
Fixpoint find_loop (fuel : nat) (key : bytes) (p : Z) (t : table) : result Z :=
  match fuel with
  | O => Fail OutOfFuel
  | S fuel' =>
      if p =? 0 then Ok 0 else
      let* it := deref p t in
      if bool_decide (ITEM_key it = key) then Ok p else find_loop fuel' key (h_next it) t
  end.

(** A chain visits every item of the heap at most once. *)
Definition chain_fuel (t : table) : nat := S (size (heap t)).

Definition assoc_find (key : bytes) (hv : Z) (t : table) : result Z :=
  let* p := load (bucket_slot hv t) t in find_loop (chain_fuel t) key p t.

(** [_hashitem_before]. *)
Fixpoint before_loop (fuel : nat) (key : bytes) (pos : slot) (t : table) : result slot :=
  match fuel with
  | O => Fail OutOfFuel
  | S fuel' =>
      let* p := load pos t in
      if p =? 0 then Ok pos else
      let* it := deref p t in
      if bool_decide (ITEM_key it = key) then Ok pos else before_loop fuel' key (InItem p) t
  end.
Definition hashitem_before (key : bytes) (hv : Z) (t : table) : result slot :=
  before_loop (chain_fuel t) key (bucket_slot hv t) t.

Definition assoc_start_expand (t : table) : table :=
  if started_expanding t then t else set_started true t.

(** [assoc_expand]; [calloc_ok] says whether there is memory for the new table. *)
Definition assoc_expand (calloc_ok : bool) (t : table) : table :=
  if calloc_ok then
    mkTable (heap t) (hashpower t + 1) (replicate (Z.to_nat (hashsize (hashpower t + 1))) 0)
      (primary_hashtable t) (hash_items t) true (started_expanding t) 0
  else
    mkTable (heap t) (hashpower t) (primary_hashtable t) (primary_hashtable t) (hash_items t)
      (expanding t) (started_expanding t) (expand_bucket t).

Definition assoc_insert (it : Z) (hv : Z) (t : table) : result table :=
  let sl := bucket_slot hv t in
  let* first := load sl t in
  let* t := store (InItem it) first t in
  let* t := store sl it t in
  let t := set_hash_items (u32 (hash_items t + 1)) t in
  if negb (expanding t) && (hashsize (hashpower t) * 3 / 2 <? hash_items t)
  then Ok (assoc_start_expand t) else Ok t.

Definition assoc_delete (key : bytes) (hv : Z) (t : table) : result table :=
  let* before := hashitem_before key hv t in
  let* p := load before t in
  if p =? 0 then Fail AssertFailed else
  let t := set_hash_items (u32 (hash_items t - 1)) t in
  let* nxt := load (InItem p) t in
  let* t := store (InItem p) 0 t in
  store before nxt t.

(** ** The maintenance thread *)

Section Maintenance.
Context (hash : bytes → Z).

(** The loop over the items of a bucket. *)
Fixpoint move_loop (fuel : nat) (it : Z) (t : table) : result table :=
  match fuel with
  | O => Fail OutOfFuel
  | S fuel' =>
      if it =? 0 then Ok t else
      let* i := deref it t in
      let next := h_next i in
      let bucket := InTable false (Z.land (hash (ITEM_key i)) (hashmask (hashpower t))) in
      let* first := load bucket t in
      let* t := store (InItem it) first t in
      let* t := store bucket it t in
      move_loop fuel' next t
  end.

(** Moving one bucket. *)
Definition move_bucket (t : table) : result table :=
  let sl := InTable true (expand_bucket t) in
  let* it := load sl t in
  let* t := move_loop (chain_fuel t) it t in
  let* t := store sl 0 t in
  let t := set_expand_bucket (u32 (expand_bucket t + 1)) t in
  if expand_bucket t =? hashsize (hashpower t - 1) then
    Ok (mkTable (heap t) (hashpower t) (primary_hashtable t) [] (hash_items t) false
          (started_expanding t) (expand_bucket t))
  else Ok t.

(** The part of a round under the lock: [hash_bulk_move] buckets, while expanding. *)
Fixpoint bulk_move (hash_bulk_move : nat) (t : table) : result table :=
  match hash_bulk_move with
  | O => Ok t
  | S n => if expanding t then let* t := move_bucket t in bulk_move n t else Ok t
  end.

(** A round of the thread: the bulk move and, when nothing is being expanded any more,
    the wait for a signal and the beginning of the next expansion.  [calloc] says
    whether a table of some power can be allocated. *)
Definition maintenance_round (calloc : Z → bool) (hash_bulk_move : nat) (t : table) : result table :=
  let* t := bulk_move hash_bulk_move t in
  if expanding t then Ok t
  else Ok (assoc_expand (calloc (hashpower t + 1)) (set_started false t)).

End Maintenance.

End Assoc.
