(* ===== verification/AssocTheorems.v ===== *)
(** * The hash table of memcached implements a map

    At any moment, before, during and after an expansion, looking up a key gives the
    item that was inserted last under it; an expansion keeps the contents and ends
    after as many bucket moves as the old table has buckets. *)

From S2P Require Import Prelude Bytes ItemHeap Assoc.
From stdpp Require Import base gmap list.
From Stdlib Require Import ZArith Lia.

Local Open Scope Z_scope.

Module AssocTheorems.
Import ItemHeap Assoc.

(** ** Chains *)

(** The items of [l], in order, are linked from the pointer [p] on. *)
Fixpoint chain (h : gmap Z item) (p : Z) (l : list Z) : Prop :=
  match l with
  | [] => p = 0
  | q :: l' => p = q ∧ q ≠ 0 ∧ ∃ it, h !! q = Some it ∧ chain h (h_next it) l'
  end.

Lemma chain_app h p l1 l2 :
  chain h p (l1 ++ l2) → ∃ q, chain h q l2 ∧
    (∀ l2' h', (∀ x, x ∈ l1 → h' !! x = h !! x) → chain h' q l2' → chain h' p (l1 ++ l2')).
Proof.
  revert p. induction l1 as [|x l1 IH]; intros p; cbn [app chain].
  - intros Hc. exists p. split; [done|]. by intros l2' h' _.
  - intros (-> & Hx & it & Hit & Hc). destruct (IH _ Hc) as (q & Hq & Hre). exists q. split; [done|].
    intros l2' h' Hsame Hc'. split; [done|]. split; [done|]. exists it.
    split; [rewrite Hsame; [done|by apply elem_of_cons; left]|].
    apply Hre; [|done]. intros y Hy. apply Hsame. by apply elem_of_cons; right.
Qed.

Lemma chain_det h p l l' : chain h p l → chain h p l' → l = l'.
Proof.
  revert p l'. induction l as [|x l IH]; intros p [|y l']; cbn [chain]; try done.
  - by intros -> (<- & ? & _).
  - by intros (-> & ? & _) ->.
  - intros (-> & Hx & it & Hit & Hc) (-> & _ & it' & Hit' & Hc'). simplify_eq. f_equal. by eapply IH.
Qed.

Lemma chain_nodup h p l : chain h p l → NoDup l.
Proof.
  revert p. induction l as [|x l IH]; intros p Hc; [constructor|].
  constructor; [|destruct Hc as (_ & _ & it & _ & Hc); by eapply IH].
  intros (l1 & l2 & ->)%list_elem_of_split.
  destruct (chain_app h p (x :: l1) (x :: l2) Hc) as (q & Hq & _).
  pose proof Hq as (-> & _). pose proof Hc as (-> & _).
  pose proof (chain_det h x _ _ Hc Hq) as He. apply (f_equal length) in He.
  cbn in He. rewrite length_app in He. cbn in He. lia.
Qed.

Lemma chain_elem h p l x : chain h p l → x ∈ l → x ≠ 0 ∧ is_Some (h !! x).
Proof.
  revert p. induction l as [|y l IH]; intros p Hc Hx; [by apply elem_of_nil in Hx|].
  destruct Hc as (_ & Hy & it & Hit & Hc). apply elem_of_cons in Hx as [->|Hx]; [by split|by eapply IH].
Qed.

(** Changing items outside a chain does not matter. *)
Lemma chain_frame h h' p l : chain h p l → (∀ x, x ∈ l → h' !! x = h !! x) → chain h' p l.
Proof.
  intros Hc Hs. rewrite <- (app_nil_r l) in Hc. destruct (chain_app h p l [] Hc) as (q & Hq & Hre).
  rewrite <- (app_nil_r l). by apply Hre.
Qed.

Lemma chain_alter_frame h p l q f : chain h p l → q ∉ l → chain (alter f q h) p l.
Proof.
  intros Hc Hq. apply (chain_frame h); [done|]. intros x Hx. apply lookup_alter_ne. by intros ->.
Qed.

Lemma chain_length h p l : chain h p l → (length l ≤ size h)%nat.
Proof.
  intros Hc. rewrite <- size_dom. pose proof (chain_nodup h p l Hc) as Hn.
  rewrite <- (size_list_to_set (C := gset Z) l) by done. apply subseteq_size.
  intros x Hx%elem_of_list_to_set. apply elem_of_dom. by apply (chain_elem h p l x).
Qed.

(** ** Loops over a chain *)

Definition has_key (h : gmap Z item) (p : Z) (k : bytes) : Prop := ITEM_key <$> h !! p = Some k.

Lemma has_key_alt h p k : has_key h p k ↔ ∃ it, h !! p = Some it ∧ ITEM_key it = k.
Proof. unfold has_key. rewrite fmap_Some. split; intros (it & Hit & Hk); by exists it. Qed.

(** Splitting a chain at the first item with a key. *)
Definition split_at (h : gmap Z item) (k : bytes) (l l1 l2 : list Z) : Prop :=
  l = l1 ++ l2 ∧ (∀ x, x ∈ l1 → ¬ has_key h x k) ∧ (∀ x, head l2 = Some x → has_key h x k).

Lemma find_loop_spec fuel key p l t :
  chain (heap t) p l → (length l < fuel)%nat →
  ∃ l1 l2, split_at (heap t) key l l1 l2 ∧ find_loop fuel key p t = Ok (default 0 (head l2)).
Proof.
  revert p fuel. induction l as [|x l IH]; intros p [|fuel] Hc Hf; cbn [length] in Hf; try lia;
    cbn [find_loop].
  - cbn in Hc. subst p. exists [], []. split; [|done]. repeat split; set_solver.
  - destruct Hc as (-> & Hx & it & Hit & Hc). rewrite (proj2 (Z.eqb_neq _ _) Hx).
    unfold deref. rewrite Hit. cbn [mbind result_bind].
    case_bool_decide as Hk.
    + exists [], (x :: l). split; [|done]. repeat split; [set_solver|].
      intros y [= <-]. apply has_key_alt. eauto.
    + destruct (IH (h_next it) fuel Hc) as (l1 & l2 & (-> & H1 & H2) & Hr); [lia|].
      exists (x :: l1), l2. split; [|done]. repeat split; [|done].
      intros y [->|Hy]%elem_of_cons; [|by apply H1]. intros (it' & Hit' & He)%has_key_alt. congruence.
Qed.

(** The slot that holds the link behind [l1]. *)
Definition last_slot (sl : slot) (l1 : list Z) : slot :=
  match last l1 with Some q => InItem q | None => sl end.

Lemma before_loop_spec fuel key sl p l t :
  load sl t = Ok p → chain (heap t) p l → (length l < fuel)%nat →
  ∃ l1 l2 q, split_at (heap t) key l l1 l2 ∧ before_loop fuel key sl t = Ok (last_slot sl l1) ∧
    load (last_slot sl l1) t = Ok q ∧ chain (heap t) q l2.
Proof.
  revert sl p fuel. induction l as [|x l IH]; intros sl p [|fuel] Hl Hc Hf; cbn [length] in Hf; try lia;
    cbn [before_loop]; rewrite Hl; cbn [mbind result_bind].
  - cbn in Hc. subst p. exists [], [], 0. split; [repeat split; set_solver|]. done.
  - pose proof Hc as (-> & Hx & it & Hit & Hc'). rewrite (proj2 (Z.eqb_neq _ _) Hx).
    unfold deref at 1. rewrite Hit. cbn [mbind result_bind].
    case_bool_decide as Hk.
    + exists [], (x :: l), x. split; [|done]. repeat split; [set_solver|].
      intros y [= <-]. apply has_key_alt. eauto.
    + destruct (IH (InItem x) (h_next it) fuel) as (l1 & l2 & q & (-> & H1 & H2) & Hb & Hq & Hcq); [|done|lia|].
      { cbn [load]. unfold deref. by rewrite Hit. }
      exists (x :: l1), l2, q. split; [|].
      { repeat split; [|done]. intros y [->|Hy]%elem_of_cons; [|by apply H1].
        intros (it' & Hit' & He)%has_key_alt. congruence. }
      assert (last_slot (InItem x) l1 = last_slot sl (x :: l1)) as <-; [|done].
      unfold last_slot. rewrite last_cons. by destruct (last l1).
Qed.

(** ** The representation of a map *)

Lemma hashmask_ones n : 0 ≤ n → hashmask n = Z.ones n.
Proof. intros Hn. unfold hashmask, hashsize. rewrite Z.ones_equiv, Z.shiftl_1_l. lia. Qed.
Lemma land_hashmask hv n : 0 ≤ n → Z.land hv (hashmask n) = hv mod 2 ^ n.
Proof. intros Hn. rewrite hashmask_ones by done. by apply Z.land_ones. Qed.

(** The buckets that can hold items. *)
Definition valid_slot (t : table) (o : bool) (b : Z) : Prop :=
  if o then expanding t = true ∧ 0 ≤ b < 2 ^ (hashpower t - 1) else 0 ≤ b < 2 ^ hashpower t.

(** The sizes of the tables. *)
Record sizes_ok (t : table) : Prop := {
  s_power : 0 ≤ hashpower t ≤ 32;
  s_primary : zlen (primary_hashtable t) = 2 ^ hashpower t;
  s_old : expanding t = true →
    1 ≤ hashpower t ∧ zlen (old_hashtable t) = 2 ^ (hashpower t - 1) ∧
    0 ≤ expand_bucket t < 2 ^ (hashpower t - 1)
}.

Definition chains (t : table) (V : bool → Z → Prop) (L : bool → Z → list Z) : Prop :=
  ∀ o b, V o b → ∃ p, load (InTable o b) t = Ok p ∧ chain (heap t) p (L o b).

Section Repr.
Context (hash : bytes → Z).

Record repr (t : table) (m : gmap bytes Z) (L : bool → Z → list Z) : Prop := {
  r_sizes : sizes_ok t;
  r_chains : chains t (valid_slot t) L;
  r_home : ∀ o b x, x ∈ L o b → ∃ k, has_key (heap t) x k ∧ bucket_slot (hash k) t = InTable o b;
  r_map : ∀ k x, m !! k = Some x ↔
    has_key (heap t) x k ∧ ∃ o b, bucket_slot (hash k) t = InTable o b ∧ x ∈ L o b;
  r_count : hash_items t = u32 (Z.of_nat (size m))
}.

(** [t] holds the map [m]. *)
Definition holds (t : table) (m : gmap bytes Z) : Prop := ∃ L, repr t m L.

Lemma bucket_slot_valid t hv :
  sizes_ok t → ∃ o b, bucket_slot hv t = InTable o b ∧ valid_slot t o b.
Proof.
  intros [Hp _ Ho]. unfold bucket_slot. destruct (expanding t) eqn:He; cbn [andb].
  - destruct (Ho eq_refl) as (H1 & _ & _). rewrite !land_hashmask by lia.
    pose proof (Z.mod_pos_bound hv (2 ^ (hashpower t - 1)) ltac:(apply Z.pow_pos_nonneg; lia)).
    pose proof (Z.mod_pos_bound hv (2 ^ hashpower t) ltac:(apply Z.pow_pos_nonneg; lia)).
    destruct (_ <=? _); eexists _, _; (split; [done|]); cbn; done.
  - rewrite !land_hashmask by lia.
    pose proof (Z.mod_pos_bound hv (2 ^ hashpower t) ltac:(apply Z.pow_pos_nonneg; lia)).
    eexists _, _. split; [done|]. done.
Qed.

(** The bucket of a key. *)
Lemma repr_bucket t m L k :
  repr t m L → ∃ o b p, bucket_slot (hash k) t = InTable o b ∧ valid_slot t o b ∧
    load (InTable o b) t = Ok p ∧ chain (heap t) p (L o b) ∧ (length (L o b) < chain_fuel t)%nat.
Proof.
  intros Hr. destruct (bucket_slot_valid t (hash k) (r_sizes _ _ _ Hr)) as (o & b & Hs & Hv).
  destruct (r_chains _ _ _ Hr o b Hv) as (p & Hl & Hc). exists o, b, p. do 4 (split; [done|]).
  unfold chain_fuel. pose proof (chain_length _ _ _ Hc). lia.
Qed.

Lemma has_key_det h x k k' : has_key h x k → has_key h x k' → k = k'.
Proof. unfold has_key. congruence. Qed.

(** An item is in one bucket only. *)
Lemma repr_disjoint t m L o b o' b' x :
  repr t m L → x ∈ L o b → x ∈ L o' b' → o = o' ∧ b = b'.
Proof.
  intros Hr H1 H2. destruct (r_home _ _ _ Hr o b x H1) as (k & Hk & Hs).
  destruct (r_home _ _ _ Hr o' b' x H2) as (k' & Hk' & Hs').
  rewrite (has_key_det _ _ _ _ Hk Hk') in Hs. rewrite Hs in Hs'. by simplify_eq.
Qed.

Lemma repr_elem t m L k o b x :
  repr t m L → bucket_slot (hash k) t = InTable o b → x ∈ L o b → has_key (heap t) x k → m !! k = Some x.
Proof. intros Hr Hs Hx Hk. apply (r_map _ _ _ Hr). split; [done|]. by exists o, b. Qed.

Lemma assoc_find_spec t m L k : repr t m L → assoc_find k (hash k) t = Ok (default 0 (m !! k)).
Proof.
  intros Hr. destruct (repr_bucket t m L k Hr) as (o & b & p & Hs & Hv & Hl & Hc & Hf).
  unfold assoc_find. rewrite Hs, Hl. cbn [mbind result_bind].
  destruct (find_loop_spec _ k p _ t Hc Hf) as (l1 & l2 & (He & H1 & H2) & ->). f_equal.
  destruct l2 as [|x l2]; cbn [head default].
  - destruct (m !! k) as [x|] eqn:Hm; [|done]. apply (r_map _ _ _ Hr) in Hm as (Hk & o' & b' & Hs' & Hx).
    rewrite Hs in Hs'. injection Hs' as <- <-. rewrite He, app_nil_r in Hx. by destruct (H1 x Hx).
  - rewrite (repr_elem t m L k o b x Hr Hs); [done| |by apply H2].
    rewrite He. apply elem_of_app. right. by apply elem_of_cons; left.
Qed.

(** ** Stores *)

(** Tables that differ in their pointers only. *)
Record same_frame (t t' : table) : Prop := {
  f_power : hashpower t' = hashpower t;
  f_expanding : expanding t' = expanding t;
  f_bucket : expand_bucket t' = expand_bucket t;
  f_items : hash_items t' = hash_items t;
  f_primary : zlen (primary_hashtable t') = zlen (primary_hashtable t);
  f_old : zlen (old_hashtable t') = zlen (old_hashtable t)
}.

#[local] Instance same_frame_refl : Reflexive same_frame.
Proof. by intros t. Qed.
#[local] Instance same_frame_trans : Transitive same_frame.
Proof. intros a b c [] []. split; congruence. Qed.

Lemma frame_slot' t t' hv :
  hashpower t' = hashpower t → expanding t' = expanding t → expand_bucket t' = expand_bucket t →
  bucket_slot hv t' = bucket_slot hv t.
Proof. intros H1 H2 H3. unfold bucket_slot. by rewrite H1, H2, H3. Qed.
Lemma frame_slot t t' hv : same_frame t t' → bucket_slot hv t' = bucket_slot hv t.
Proof. intros []. by apply frame_slot'. Qed.
Lemma frame_valid t t' o b : same_frame t t' → valid_slot t' o b ↔ valid_slot t o b.
Proof. intros [H1 H2 _ _ _ _]. unfold valid_slot. by rewrite H1, H2. Qed.
Lemma frame_sizes t t' : same_frame t t' → sizes_ok t → sizes_ok t'.
Proof. intros [H1 H2 H3 H4 H5 H6] [S1 S2 S3]. split; rewrite ?H1, ?H2, ?H3, ?H5, ?H6; done. Qed.

Lemma zlen_list_insert {A} (l : list A) i x : zlen (<[i := x]> l) = zlen l.
Proof. unfold zlen. by rewrite length_insert. Qed.

(** A store into a bucket. *)
Lemma store_table t o b v p :
  load (InTable o b) t = Ok p → 0 ≤ b →
  ∃ t', store (InTable o b) v t = Ok t' ∧ heap t' = heap t ∧ same_frame t t' ∧
    ∀ o' b', 0 ≤ b' →
      load (InTable o' b') t' = if decide (o' = o ∧ b' = b) then Ok v else load (InTable o' b') t.
Proof.
  intros Hl Hb. unfold store. rewrite Hl. cbn [mbind result_bind]. eexists. split; [done|].
  assert (∀ l : list Z, match l !! Z.to_nat b with Some p => Ok p | None => Fail OutOfBounds end = Ok p →
    ∀ b', 0 ≤ b' → match <[Z.to_nat b := v]> l !! Z.to_nat b' with Some p => Ok p | None => Fail OutOfBounds end =
      if decide (b' = b) then Ok v else match l !! Z.to_nat b' with Some p => Ok p | None => Fail OutOfBounds end) as Hins.
  { intros l Hlb b' Hb'. destruct (l !! Z.to_nat b) as [p0|] eqn:Hlk; [|done].
    destruct (decide (b' = b)) as [->|Hn].
    - rewrite list_lookup_insert_eq; [done|]. by eapply lookup_lt_Some.
    - rewrite list_lookup_insert_ne; [done|lia]. }
  destruct o; (split; [done|]; split; [split; cbn; by rewrite ?zlen_list_insert|]); intros o' b' Hb';
    destruct o'; cbn [load] in *; cbn;
    first [rewrite decide_False by (by intros [? ?]); done
          |rewrite (Hins _ Hl b' Hb'); destruct (decide (b' = b));
           [rewrite decide_True by done|rewrite decide_False by (by intros [_ ?])]; done].
Qed.

Lemma insert_as_alter (h : heap_t) p f it : h !! p = Some it → <[p := f it]> h = alter f p h.
Proof.
  intros Hp. apply map_eq. intros q. destruct (decide (q = p)) as [->|Hq].
  - by rewrite lookup_insert_eq, lookup_alter_eq, Hp.
  - by rewrite lookup_insert_ne, lookup_alter_ne.
Qed.

(** A store into the link of an item. *)
Lemma store_item t p v k :
  has_key (heap t) p k →
  ∃ t', store (InItem p) v t = Ok t' ∧ heap t' = alter (set_h_next v) p (heap t) ∧ same_frame t t' ∧
    ∀ o b, load (InTable o b) t' = load (InTable o b) t.
Proof.
  intros (it & Hit & <-)%has_key_alt. unfold store, deref. rewrite Hit. cbn [mbind result_bind].
  eexists. split; [done|]. split; [by apply insert_as_alter|]. split; [done|]. by intros [].
Qed.

(** Links can be changed without changing keys. *)
Lemma has_key_relink h p v x k' : has_key (alter (set_h_next v) p h) x k' ↔ has_key h x k'.
Proof.
  unfold has_key. destruct (decide (x = p)) as [->|Hn].
  - rewrite lookup_alter_eq. by destruct (h !! p).
  - by rewrite lookup_alter_ne.
Qed.

(** Pushing an item to the front of a bucket. *)
Definition pushed (L : bool → Z → list Z) (o : bool) (b x : Z) : bool → Z → list Z :=
  λ o' b', if decide (o' = o ∧ b' = b) then x :: L o' b' else L o' b'.

Lemma elem_pushed L o b x o' b' y : y ∈ pushed L o b x o' b' ↔ y ∈ L o' b' ∨ y = x ∧ o' = o ∧ b' = b.
Proof.
  unfold pushed. destruct (decide (o' = o ∧ b' = b)) as [[-> ->]|]; rewrite ?elem_of_cons; intuition.
Qed.

Lemma push_spec t V L o b x k first :
  chains t V L → V o b → (∀ o b, V o b → 0 ≤ b) → load (InTable o b) t = Ok first →
  has_key (heap t) x k → x ≠ 0 → (∀ o b, x ∉ L o b) →
  ∃ t1 t2, store (InItem x) first t = Ok t1 ∧ store (InTable o b) x t1 = Ok t2 ∧
    heap t2 = alter (set_h_next first) x (heap t) ∧ same_frame t t2 ∧ chains t2 V (pushed L o b x) ∧
    (∀ o' b', 0 ≤ b' → (o', b') ≠ (o, b) → load (InTable o' b') t2 = load (InTable o' b') t).
Proof.
  intros Hc HV Hpos Hl Hk Hx Hnew. destruct (store_item t x first k Hk) as (t1 & Hs1 & Hh1 & Hf1 & Hl1).
  destruct (store_table t1 o b x first) as (t2 & Hs2 & Hh2 & Hf2 & Hl2); [by rewrite Hl1|by eapply Hpos|].
  exists t1, t2. do 2 (split; [done|]). split; [by rewrite Hh2|]. split; [by etrans|]. split.
  - intros o' b' HV'. rewrite Hl2 by (by eapply Hpos). unfold pushed. rewrite Hh2, Hh1.
    destruct (decide (o' = o ∧ b' = b)) as [[-> ->]|Hn].
    + exists x. split; [done|]. cbn [chain]. split; [done|]. split; [done|].
      destruct (proj1 (has_key_alt _ _ _) Hk) as (it & Hit & _).
      eexists. split; [by rewrite lookup_alter_eq, Hit|]. cbn [h_next set_h_next].
      destruct (Hc o b HV) as (p & Hp & Hch). rewrite Hl in Hp. injection Hp as <-.
      by apply chain_alter_frame.
    + destruct (Hc o' b' HV') as (p & Hp & Hch). exists p. rewrite Hl1. split; [done|].
      by apply chain_alter_frame.
  - intros o' b' Hb' Hn. rewrite Hl2 by done. rewrite decide_False by (intros [-> ->]; done). apply Hl1.
Qed.

(** *** Insertion *)

Lemma valid_slot_nonneg t o b : valid_slot t o b → 0 ≤ b.
Proof. unfold valid_slot. destruct o; lia. Qed.

Lemma repr_new t m L x : repr t m L → (∀ k, m !! k ≠ Some x) → ∀ o b, x ∉ L o b.
Proof.
  intros Hr Hn o b Hx. destruct (r_home _ _ _ Hr o b x Hx) as (k & Hk & Hs).
  apply (Hn k). by eapply repr_elem.
Qed.

(** What the representation depends on. *)
Lemma repr_ext t t' m L :
  sizes_ok t → chains t (valid_slot t) L →
  (∀ o b x, x ∈ L o b → ∃ k, has_key (heap t) x k ∧ bucket_slot (hash k) t = InTable o b) →
  (∀ k x, m !! k = Some x ↔ has_key (heap t) x k ∧ ∃ o b, bucket_slot (hash k) t = InTable o b ∧ x ∈ L o b) →
  hashpower t' = hashpower t → expanding t' = expanding t → expand_bucket t' = expand_bucket t →
  heap t' = heap t → primary_hashtable t' = primary_hashtable t → old_hashtable t' = old_hashtable t →
  hash_items t' = u32 (Z.of_nat (size m)) → repr t' m L.
Proof.
  intros [S1 S2 S3] C H M F1 F2 F3 Hh Hp Ho Hn. split; [| | | |done].
  - split; rewrite ?F1, ?F2, ?F3, ?Hp, ?Ho; done.
  - intros o b Hv. unfold valid_slot in Hv. rewrite F1, F2 in Hv. destruct (C o b Hv) as (p & Hl & Hc).
    exists p. rewrite Hh. split; [|done]. cbn [load] in *. by rewrite Hp, Ho.
  - intros o b x Hx. destruct (H o b x Hx) as (k & Hk & Hs). exists k. rewrite Hh. split; [done|].
    by rewrite (frame_slot' t t').
  - intros k x. rewrite M, Hh. by rewrite (frame_slot' t t').
Qed.

(** Keys are never changed. *)
Definition same_keys (t t' : table) : Prop := ∀ x k, has_key (heap t') x k ↔ has_key (heap t) x k.

Lemma repr_pushed t t2 t' m L o b x k :
  repr t m L → has_key (heap t) x k → m !! k = None → bucket_slot (hash k) t = InTable o b →
  same_frame t t2 → (∀ y k', has_key (heap t2) y k' ↔ has_key (heap t) y k') →
  chains t2 (valid_slot t) (pushed L o b x) →
  heap t' = heap t2 → primary_hashtable t' = primary_hashtable t2 →
  old_hashtable t' = old_hashtable t2 → hashpower t' = hashpower t2 → expanding t' = expanding t2 →
  expand_bucket t' = expand_bucket t2 → hash_items t' = u32 (hash_items t2 + 1) →
  repr t' (<[k := x]> m) (pushed L o b x).
Proof.
  intros Hr Hk Hm Hs Hf Hkeys Hc E1 E2 E3 E4 E5 E6 E7.
  apply (repr_ext t2); try done.
  - eapply frame_sizes; [done|apply Hr].
  - intros o' b' Hv'. apply Hc. by apply (frame_valid t t2).
  - intros o' b' y Hy. rewrite elem_pushed in Hy. destruct Hy as [Hy|(-> & -> & ->)].
    + destruct (r_home _ _ _ Hr o' b' y Hy) as (k' & Hk' & Hs'). exists k'.
      by rewrite Hkeys, (frame_slot t t2).
    + exists k. by rewrite Hkeys, (frame_slot t t2).
  - intros k' y. rewrite Hkeys. setoid_rewrite (frame_slot t t2); [|done].
    setoid_rewrite elem_pushed. destruct (decide (k' = k)) as [->|Hne].
    + rewrite lookup_insert_eq. split.
      * intros [= <-]. split; [done|]. exists o, b. by intuition.
      * intros (Hky & o' & b' & Hs' & [Hy|(-> & _)]); [|done].
        assert (m !! k = Some y) by (by eapply repr_elem). congruence.
    + rewrite lookup_insert_ne by done. rewrite (r_map _ _ _ Hr). split.
      * intros (Hky & o' & b' & Hs' & Hy). split; [done|]. exists o', b'. by intuition.
      * intros (Hky & o' & b' & Hs' & [Hy|(-> & _ & _)]); [split; [done|]; by exists o', b'|].
        destruct Hne. by eapply has_key_det.
  - rewrite E7, (f_items _ _ Hf), (r_count _ _ _ Hr), map_size_insert_None by done.
    rewrite u32_add_l. f_equal. lia.
Qed.

Lemma assoc_insert_spec t m L x k :
  repr t m L → has_key (heap t) x k → x ≠ 0 → m !! k = None → (∀ k', m !! k' ≠ Some x) →
  ∃ t' L', assoc_insert x (hash k) t = Ok t' ∧ repr t' (<[k := x]> m) L' ∧ same_keys t t'.
Proof.
  intros Hr Hk Hx Hm Hnew. destruct (repr_bucket t m L k Hr) as (o & b & first & Hs & Hv & Hl & _).
  destruct (push_spec t (valid_slot t) L o b x k first) as (t1 & t2 & Hs1 & Hs2 & Hh & Hf & Hc & _);
    [apply Hr|done|apply valid_slot_nonneg|done|done|done|by eapply repr_new|].
  assert (∀ y k', has_key (heap t2) y k' ↔ has_key (heap t) y k') as Hkeys.
  { intros y k'. rewrite Hh. by apply has_key_relink. }
  unfold assoc_insert. rewrite Hs, Hl. cbn [mbind result_bind]. rewrite Hs1. cbn [mbind result_bind].
  rewrite Hs2. cbn [mbind result_bind].
  destruct (_ && _); eexists _, _; (split; [done|]); (split; [apply (repr_pushed t t2 _ m L o b x k)|]); try done;
    unfold assoc_start_expand; cbn; destruct (started_expanding t2); done.
Qed.

(** *** Deletion *)

Definition replaced (L : bool → Z → list Z) (o : bool) (b : Z) (l : list Z) : bool → Z → list Z :=
  λ o' b', if decide (o' = o ∧ b' = b) then l else L o' b'.

(** Taking [x] out of a chain: its link becomes null and the link before it passes over it. *)
Lemma unlink_chain h p l0 q x l2 it :
  chain h p (l0 ++ q :: x :: l2) → h !! x = Some it →
  chain (alter (set_h_next (h_next it)) q (alter (set_h_next 0) x h)) p (l0 ++ q :: l2).
Proof.
  intros Hc Hx. pose proof (chain_nodup _ _ _ Hc) as Hn.
  apply NoDup_app in Hn as (_ & Hdis & Hn). apply NoDup_cons in Hn as (Hqx & Hn).
  apply NoDup_cons in Hn as (Hx2 & _). rewrite not_elem_of_cons in Hqx. destruct Hqx as [Hqx Hq2].
  destruct (chain_app h p l0 _ Hc) as (r & (-> & Hq0 & iq & Hiq & _ & Hx0 & it' & Hit' & Hc2) & Hre).
  simplify_eq. apply Hre.
  - intros y Hy. specialize (Hdis y Hy). rewrite !not_elem_of_cons in Hdis.
    destruct Hdis as (Hyq & Hyx & _). by rewrite !lookup_alter_ne.
  - cbn [chain]. split; [done|]. split; [done|]. eexists.
    split; [by rewrite lookup_alter_eq, lookup_alter_ne, Hiq|]. cbn [h_next set_h_next].
    by do 2 (apply chain_alter_frame; [|done]).
Qed.

Lemma unlink_spec t V L o b l1 x l2 k :
  chains t V L → V o b → (∀ o b, V o b → 0 ≤ b) → L o b = l1 ++ x :: l2 → has_key (heap t) x k →
  (∀ o' b' y, y ∈ L o b → y ∈ L o' b' → o' = o ∧ b' = b) →
  ∃ nxt t1 t2, load (InItem x) t = Ok nxt ∧ store (InItem x) 0 t = Ok t1 ∧
    store (last_slot (InTable o b) l1) nxt t1 = Ok t2 ∧ same_frame t t2 ∧ same_keys t t2 ∧
    chains t2 V (replaced L o b (l1 ++ l2)).
Proof.
  intros Hc HV Hpos HL Hk Hdis. destruct (proj1 (has_key_alt _ _ _) Hk) as (it & Hit & Hkit).
  destruct (Hc o b HV) as (p & Hp & Hch). rewrite HL in Hch. pose proof (chain_nodup _ _ _ Hch) as Hn.
  destruct (store_item t x 0 k Hk) as (t1 & Hs1 & Hh1 & Hf1 & Hl1).
  assert (same_keys t t1) as Hk1 by (intros y k'; rewrite Hh1; by apply has_key_relink).
  assert (∀ o' b' h', V o' b' → (o' = o ∧ b' = b → False) → (∀ y, y ∉ L o b → h' !! y = heap t !! y) →
    ∃ p', load (InTable o' b') t = Ok p' ∧ chain h' p' (L o' b')) as Hother.
  { intros o' b' h' HV' Hne Hsame. destruct (Hc o' b' HV') as (p' & Hp' & Hch'). exists p'. split; [done|].
    apply (chain_frame (heap t)); [done|]. intros y Hy. apply Hsame. intros Hy'. by apply Hne, (Hdis o' b' y). }
  assert (x ∈ L o b) as HxL by (rewrite HL; apply elem_of_app; right; by apply elem_of_cons; left).
  exists (h_next it). unfold last_slot. destruct (last l1) as [q|] eqn:Hlast.
  - apply last_Some in Hlast as (l0 & ->). rewrite <- app_assoc in Hch, HL. cbn [app] in Hch, HL.
    assert (q ∈ L o b) as HqL by (rewrite HL; apply elem_of_app; right; by apply elem_of_cons; left).
    destruct (chain_elem _ _ _ q Hch) as [_ [iq Hiq]]; [by rewrite <- HL|].
    assert (has_key (heap t) q (ITEM_key iq)) as Hkq by (apply has_key_alt; eauto).
    destruct (store_item t1 q (h_next it) (ITEM_key iq)) as (t2 & Hs2 & Hh2 & Hf2 & Hl2); [by apply Hk1|].
    exists t1, t2. split; [cbn [load]; unfold deref; by rewrite Hit|]. do 2 (split; [done|]).
    split; [by etrans|]. split.
    { intros y k'. rewrite Hh2, has_key_relink. apply Hk1. }
    intros o' b' HV'. rewrite Hl2, Hl1, Hh2, Hh1. unfold replaced. destruct (decide _) as [[-> ->]|Hne].
    + exists p. split; [done|]. rewrite <- app_assoc. cbn [app]. by apply unlink_chain.
    + apply Hother; [done|done|]. intros y Hy. rewrite !lookup_alter_ne; [done|by intros ->..].
  - apply last_None in Hlast as ->. cbn [app] in Hch, HL. destruct Hch as (-> & Hx0 & it' & Hit' & Hch).
    simplify_eq. apply NoDup_cons in Hn as (Hx2 & _).
    destruct (store_table t1 o b (h_next it) x) as (t2 & Hs2 & Hh2 & Hf2 & Hl2); [by rewrite Hl1|by eapply Hpos|].
    exists t1, t2. split; [cbn [load]; unfold deref; by rewrite Hit|]. do 2 (split; [done|]).
    split; [by etrans|]. split; [intros y k'; rewrite Hh2; apply Hk1|].
    intros o' b' HV'. rewrite Hl2 by (by eapply Hpos). rewrite Hh2, Hh1. unfold replaced.
    destruct (decide _) as [[-> ->]|Hne].
    + eexists. split; [done|]. by apply chain_alter_frame.
    + rewrite Hl1. apply Hother; [done|done|]. intros y Hy. rewrite lookup_alter_ne; [done|by intros ->].
Qed.

Lemma elem_of_remove (l1 l2 : list Z) x y : NoDup (l1 ++ x :: l2) → y ∈ l1 ++ l2 ↔ y ∈ l1 ++ x :: l2 ∧ y ≠ x.
Proof.
  intros (_ & Hd & [Hx _]%NoDup_cons)%NoDup_app. rewrite !elem_of_app, elem_of_cons. split.
  - intros [Hy|Hy]; (split; [auto|]); intros ->; [|done]. apply (Hd x Hy). by apply elem_of_cons; left.
  - intros ([Hy|[Hy|Hy]] & Hne); auto. done.
Qed.

Lemma repr_removed t t2 m L o b l1 l2' x k p n :
  repr t m L → m !! k = Some x → has_key (heap t) x k → L o b = l1 ++ x :: l2' → x ∈ L o b →
  chain (heap t) p (L o b) → n = u32 (hash_items t - 1) → same_frame (set_hash_items n t) t2 →
  same_keys t t2 → chains t2 (valid_slot t) (replaced L o b (l1 ++ l2')) →
  repr t2 (delete k m) (replaced L o b (l1 ++ l2')).
Proof.
  intros Hr Hm Hkx HL HxL Hc Hn Hfr Hks Hcs.
  assert (∀ hv, bucket_slot hv t2 = bucket_slot hv t) as Hbs by (intros hv; exact (frame_slot _ _ hv Hfr)).
  pose proof (chain_nodup _ _ _ Hc) as Hnd. rewrite HL in Hnd.
  assert (∀ o' b' y, y ∈ replaced L o b (l1 ++ l2') o' b' ↔ y ∈ L o' b' ∧ y ≠ x) as Hel.
  { intros o' b' y. unfold replaced. destruct (decide _) as [[-> ->]|Hne].
    - rewrite HL. by apply elem_of_remove.
    - split; [|by intros []]. intros Hy. split; [done|]. intros ->.
      destruct (repr_disjoint t m L o b o' b' x Hr HxL Hy) as [-> ->]. by apply Hne. }
  apply (repr_ext t2); try done.
  - eapply frame_sizes; [exact Hfr|]. by destruct (r_sizes _ _ _ Hr).
  - intros o' b' Hv'. apply Hcs. exact (proj1 (frame_valid _ _ o' b' Hfr) Hv').
  - intros o' b' y [Hy _]%Hel. destruct (r_home _ _ _ Hr o' b' y Hy) as (k' & Hk' & Hsk).
    exists k'. split; [by apply Hks|]. by rewrite Hbs.
  - intros k' y. rewrite (Hks y k'). setoid_rewrite Hbs. setoid_rewrite Hel.
    destruct (decide (k' = k)) as [->|Hne].
    + rewrite lookup_delete_eq. split; [done|]. intros (Hky & o' & b' & Hsk & Hy & Hyx).
      assert (m !! k = Some y) by (by eapply repr_elem). congruence.
    + rewrite lookup_delete_ne by done. rewrite (r_map _ _ _ Hr). split.
      * intros (Hky & o' & b' & Hsk & Hy). split; [done|]. exists o', b'. do 2 (split; [done|]).
         intros ->. apply Hne. by eapply has_key_det.
      * intros (Hky & o' & b' & Hsk & Hy & _). split; [done|]. by exists o', b'.
  - rewrite (f_items _ _ Hfr). cbn [hash_items set_hash_items]. rewrite Hn, (r_count _ _ _ Hr).
    rewrite map_size_delete_Some by done.
    assert (size m ≠ 0%nat) by (intros H0%map_size_empty_inv; by rewrite H0, lookup_empty in Hm).
    unfold u32, wrapu. rewrite Zminus_mod_idemp_l. f_equal. lia.
Qed.

Lemma assoc_delete_spec t m L k x :
  repr t m L → m !! k = Some x →
  ∃ t' L', assoc_delete k (hash k) t = Ok t' ∧ repr t' (delete k m) L' ∧ same_keys t t'.
Proof.
  intros Hr Hm. destruct (repr_bucket t m L k Hr) as (o & b & p & Hs & Hv & Hl & Hc & Hf).
  destruct (before_loop_spec _ k (InTable o b) p _ t Hl Hc Hf)
    as (l1 & l2 & q & (HL & H1 & H2) & Hb & Hq & Hcq).
  pose proof Hm as (Hkx & o' & b' & Hs' & HxL)%(r_map _ _ _ Hr). rewrite Hs in Hs'. injection Hs' as <- <-.
  assert (∃ l2', l2 = x :: l2') as [l2' ->].
  { rewrite HL in HxL. apply elem_of_app in HxL as [Hx|Hx]; [by destruct (H1 x Hx)|].
    destruct l2 as [|y l2]; [by apply elem_of_nil in Hx|]. exists l2. f_equal.
    assert (m !! k = Some y); [|congruence]. eapply repr_elem; [done|done| |by apply H2].
    rewrite HL. apply elem_of_app. right. by apply elem_of_cons; left. }
  destruct Hcq as (-> & Hx0 & _).
  assert (chains (set_hash_items (u32 (hash_items t - 1)) t) (valid_slot t) L) as Hc0 by apply Hr.
  destruct (unlink_spec (set_hash_items (u32 (hash_items t - 1)) t) (valid_slot t) L o b l1 x l2' k)
    as (nxt & t1 & t2 & Hn1 & Hs1 & Hs2 & Hfr & Hks & Hcs);
    [done|done|apply valid_slot_nonneg|done|done| |].
  { intros o' b' y Hy Hy'. by eapply repr_disjoint. }
  exists t2, (replaced L o b (l1 ++ l2')). split; [|split].
  - unfold assoc_delete, hashitem_before. rewrite Hs, Hb. cbn [mbind result_bind]. rewrite Hq.
    cbn [mbind result_bind]. rewrite (proj2 (Z.eqb_neq _ _) Hx0), Hn1. cbn [mbind result_bind].
    rewrite Hs1. cbn [mbind result_bind]. exact Hs2.
  - by eapply repr_removed.
  - exact Hks.
Qed.

(** ** Expansion *)

Lemma assoc_expand_spec t m L :
  repr t m L → expanding t = false → hashpower t < 32 →
  repr (assoc_expand true t) m (λ o b, if o then L false b else []).
Proof.
  intros Hr He Hp. destruct (r_sizes _ _ _ Hr) as [S1 S2 _].
  assert (∀ hv, bucket_slot hv (assoc_expand true t) = InTable true (Z.land hv (hashmask (hashpower t)))) as Hnew.
  { intros hv. unfold bucket_slot, assoc_expand. cbn. rewrite Z.add_simpl_r.
    rewrite (proj2 (Z.leb_le 0 _)); [done|]. rewrite land_hashmask by lia.
    apply Z.mod_pos_bound, Z.pow_pos_nonneg; lia. }
  assert (∀ hv, bucket_slot hv t = InTable false (Z.land hv (hashmask (hashpower t)))) as Hcur.
  { intros hv. unfold bucket_slot. by rewrite He. }
  assert (∀ b, L true b = []) as Hempty.
  { intros b. destruct (L true b) as [|x l] eqn:HL; [done|].
    destruct (r_home _ _ _ Hr true b x) as (k & _ & Hs); [rewrite HL; by apply elem_of_cons; left|].
    by rewrite Hcur in Hs. }
  split.
  - split; cbn; [lia| |intros _].
    + unfold zlen, hashsize. rewrite length_replicate, Z.shiftl_1_l, Z2Nat.id; [done|].
      apply Z.pow_nonneg. lia.
    + rewrite Z.add_simpl_r. split; [lia|]. split; [done|]. split; [lia|]. apply Z.pow_pos_nonneg; lia.
  - intros [] b Hv; cbn in Hv.
    + rewrite Z.add_simpl_r in Hv. destruct Hv as [_ Hv]. destruct (r_chains _ _ _ Hr false b Hv) as (p & Hl & Hc).
      by exists p.
    + exists 0. split; [|done]. cbn [load primary_hashtable assoc_expand].
      rewrite lookup_replicate_2; [done|]. unfold hashsize. rewrite Z.shiftl_1_l. lia.
  - intros o b x Hx. destruct o; [|by apply elem_of_nil in Hx].
    destruct (r_home _ _ _ Hr false b x Hx) as (k & Hk & Hs). exists k. split; [done|].
    rewrite Hcur in Hs. rewrite Hnew. congruence.
  - intros k x. rewrite (r_map _ _ _ Hr), Hcur, Hnew. split.
    + intros (Hk & o & b & [= <- <-] & Hx). split; [done|]. by eexists true, _.
    + intros (Hk & o & b & [= <- <-] & Hx). split; [done|]. by eexists false, _.
  - apply Hr.
Qed.

Lemma assoc_expand_fails_spec t m L : repr t m L → expanding t = false → repr (assoc_expand false t) m L.
Proof.
  intros [[S1 S2 S3] C H M N] He. split; [|  |done|done|done].
  - split; cbn; [done|done|]. by rewrite He.
  - intros [] b Hv; [by destruct Hv as [Hv _]; cbn in Hv; rewrite He in Hv|]. exact (C false b Hv).
Qed.

(** *** Moving a bucket *)

(** The primary bucket of an item. *)
Definition target (t : table) (k : bytes) : Z := Z.land (hash k) (hashmask (hashpower t)).

Lemma move_loop_spec V l fuel it t L :
  (∀ o b, V o b → 0 ≤ b) → (∀ k, V false (target t k)) →
  chains t V L → chain (heap t) it l → (length l < fuel)%nat → (∀ x o b, x ∈ l → x ∉ L o b) →
  ∃ t' L', move_loop hash fuel it t = Ok t' ∧ same_frame t t' ∧ same_keys t t' ∧ chains t' V L' ∧
    (∀ b, 0 ≤ b → load (InTable true b) t' = load (InTable true b) t) ∧
    (∀ o b y, y ∈ L' o b ↔
       y ∈ L o b ∨ y ∈ l ∧ o = false ∧ ∃ k, has_key (heap t) y k ∧ b = target t k).
Proof.
  intros Hpos. revert it t L fuel. induction l as [|x l IH]; intros it t L [|fuel] HV Hc Hch Hf Hdis;
    cbn [length] in Hf; try lia; cbn [move_loop].
  - cbn in Hch. subst it. exists t, L. do 4 (split; [done|]). split; [done|].
    intros o b y. rewrite elem_of_nil. intuition.
  - pose proof (chain_nodup _ _ _ Hch) as [Hxl _]%NoDup_cons.
    destruct Hch as (-> & Hx & i & Hi & Hch). rewrite (proj2 (Z.eqb_neq _ _) Hx).
    unfold deref at 1. rewrite Hi. cbn [mbind result_bind]. fold (target t (ITEM_key i)).
    assert (has_key (heap t) x (ITEM_key i)) as Hk by (apply has_key_alt; eauto).
    destruct (Hc false _ (HV (ITEM_key i))) as (first & Hl & _).
    destruct (push_spec t V L false (target t (ITEM_key i)) x (ITEM_key i) first)
      as (t1 & t2 & Hs1 & Hs2 & Hh & Hfr & Hc2 & Hl2); [done..|intros o b; apply Hdis; by apply elem_of_cons; left|].
    rewrite Hl. cbn [mbind result_bind]. rewrite Hs1. cbn [mbind result_bind]. rewrite Hs2. cbn [mbind result_bind].
    assert (∀ y k', has_key (heap t2) y k' ↔ has_key (heap t) y k') as Hk2
      by (intros y k'; rewrite Hh; by apply has_key_relink).
    assert (∀ k, target t2 k = target t k) as Htg by (intros k; unfold target; by rewrite (f_power _ _ Hfr)).
    destruct (IH (h_next i) t2 (pushed L false (target t (ITEM_key i)) x) fuel) as (t' & L' & Hm & Hfr' & Hk' & Hc' & Hl' & HL').
    + intros k. rewrite Htg. apply HV.
    + done.
    + rewrite Hh. by apply chain_alter_frame.
    + lia.
    + intros y o b Hy [Hy'|(-> & _)]%elem_pushed; [|done]. revert Hy'. apply Hdis. by apply elem_of_cons; right.
    + exists t', L'. split; [done|]. split; [by etrans|]. split; [intros y k; by rewrite (Hk' y k), Hk2|].
      split; [done|]. split; [intros b Hb; rewrite Hl' by done; by apply Hl2|].
      intros o b y. rewrite HL', elem_pushed, elem_of_cons. setoid_rewrite Hk2. setoid_rewrite Htg. split.
      * intros [[Hy|(-> & -> & ->)]|(Hy & -> & k & Hky & ->)]; [by left| |].
        -- right. split; [by left|]. split; [done|]. eauto.
        -- right. split; [by right|]. split; [done|]. eauto.
      * intros [Hy|([->|Hy] & -> & k & Hky & ->)]; [by left; left| |].
        -- left. right. rewrite (has_key_det _ _ _ _ Hky Hk). done.
        -- right. split; [done|]. split; [done|]. eauto.
Qed.

(** Where keys are after a bucket was moved. *)
Lemma moved_slot t t' hv :
  sizes_ok t → expanding t = true → hashpower t' = hashpower t → expand_bucket t' = expand_bucket t + 1 →
  expanding t' = negb (expand_bucket t + 1 =? 2 ^ (hashpower t - 1)) →
  bucket_slot hv t' =
    if decide (bucket_slot hv t = InTable true (expand_bucket t))
    then InTable false (Z.land hv (hashmask (hashpower t))) else bucket_slot hv t.
Proof.
  intros [S1 S2 S3] He Hp Hb He'. destruct (S3 He) as (H1 & _ & Heb).
  unfold bucket_slot. rewrite Hp, Hb, He, He'. cbn [andb].
  pose proof (Z.mod_pos_bound hv (2 ^ (hashpower t - 1)) ltac:(apply Z.pow_pos_nonneg; lia)) as Hm.
  rewrite <- land_hashmask in Hm by lia. set (ob := Z.land hv (hashmask (hashpower t - 1))) in *.
  destruct (Z.leb_spec (expand_bucket t) ob) as [Hle|Hlt].
  - destruct (decide _) as [[= Heq]|Hne].
    + rewrite (proj2 (Z.leb_gt _ _)) by lia. by rewrite andb_false_r.
    + assert (ob ≠ expand_bucket t) by (intros Heq; apply Hne; by rewrite Heq).
      rewrite (proj2 (Z.leb_le (expand_bucket t + 1) ob)) by lia.
      rewrite (proj2 (Z.eqb_neq _ _)) by lia. done.
  - rewrite decide_False by done. rewrite (proj2 (Z.leb_gt _ _)) by lia. by rewrite andb_false_r.
Qed.

(** The first part of [move_bucket]: the bucket is emptied into the new table. *)
Lemma empty_bucket_spec t m L :
  repr t m L → expanding t = true →
  ∃ t1 t2 it L', load (InTable true (expand_bucket t)) t = Ok it ∧
    move_loop hash (chain_fuel t) it t = Ok t1 ∧ store (InTable true (expand_bucket t)) 0 t1 = Ok t2 ∧
    same_frame t t2 ∧ same_keys t t2 ∧ chains t2 (valid_slot t) L' ∧
    (∀ o b y, y ∈ L' o b ↔
       y ∈ L o b ∧ (o, b) ≠ (true, expand_bucket t) ∨
       y ∈ L true (expand_bucket t) ∧ o = false ∧ ∃ k, has_key (heap t) y k ∧ b = target t k).
Proof.
  intros Hr He. pose proof (r_sizes _ _ _ Hr) as Hs. destruct Hs as [S1 S2 S3]. destruct (S3 He) as (H1 & _ & Heb).
  assert (valid_slot t true (expand_bucket t)) as Hv by done.
  destruct (r_chains _ _ _ Hr _ _ Hv) as (it & Hl & Hch).
  set (V := λ o b, valid_slot t o b ∧ (o, b) ≠ (true, expand_bucket t)).
  set (L0 := replaced L true (expand_bucket t) []).
  assert (∀ o b y, y ∈ L0 o b ↔ y ∈ L o b ∧ (o, b) ≠ (true, expand_bucket t)) as HL0.
  { intros o b y. unfold L0, replaced. destruct (decide _) as [[-> ->]|Hne].
    - split; [by intros ?%elem_of_nil|by intros [_ ?]].
    - split; [|by intros []]. intros Hy. split; [done|]. intros [= -> ->]. by apply Hne. }
  destruct (move_loop_spec V (L true (expand_bucket t)) (chain_fuel t) it t L0)
    as (t1 & L' & Hm & Hfr & Hk & Hc & Hl1 & HL').
  - intros o b [Hvb _]. by eapply valid_slot_nonneg.
  - intros k. split; [|done]. unfold target, valid_slot. rewrite land_hashmask by lia.
    apply Z.mod_pos_bound, Z.pow_pos_nonneg; lia.
  - intros o b [Hvb Hne]. unfold L0, replaced. rewrite decide_False by (intros [-> ->]; done).
    by apply (r_chains _ _ _ Hr).
  - done.
  - unfold chain_fuel. pose proof (chain_length _ _ _ Hch). lia.
  - intros x o b Hx [Hx' Hne]%HL0. apply Hne.
    by destruct (repr_disjoint t m L true (expand_bucket t) o b x Hr Hx Hx') as [-> ->].
  - destruct (store_table t1 true (expand_bucket t) 0 it) as (t2 & Hst & Hh2 & Hfr2 & Hl2);
      [rewrite Hl1; [done|lia]|lia|].
    exists t1, t2, it, L'. do 3 (split; [done|]). split; [by etrans|].
    split; [intros y k; rewrite Hh2; apply Hk|]. split.
    + intros o b Hvb. pose proof (valid_slot_nonneg t o b Hvb). rewrite Hl2 by done. rewrite Hh2.
      destruct (decide _) as [[-> ->]|Hne].
      * exists 0. split; [done|]. destruct (L' true (expand_bucket t)) as [|y l] eqn:HLy; [done|].
        exfalso. assert (y ∈ L' true (expand_bucket t)) as [[Hy Hn]%HL0|(_ & ? & _)]%HL'; [|done..].
        rewrite HLy. by apply elem_of_cons; left.
      * apply Hc. split; [done|]. intros [= -> ->]. by apply Hne.
    + intros o b y. by rewrite HL', HL0.
Qed.

Lemma repr_moved t t2 t' m L L' :
  repr t m L → expanding t = true → same_frame t t2 → same_keys t t2 → chains t2 (valid_slot t) L' →
  (∀ o b y, y ∈ L' o b ↔
     y ∈ L o b ∧ (o, b) ≠ (true, expand_bucket t) ∨
     y ∈ L true (expand_bucket t) ∧ o = false ∧ ∃ k, has_key (heap t) y k ∧ b = target t k) →
  heap t' = heap t2 → primary_hashtable t' = primary_hashtable t2 →
  (expanding t' = true → old_hashtable t' = old_hashtable t2) → hash_items t' = hash_items t2 →
  hashpower t' = hashpower t2 → expand_bucket t' = expand_bucket t + 1 →
  expanding t' = negb (expand_bucket t + 1 =? 2 ^ (hashpower t - 1)) → repr t' m L'.
Proof.
  intros Hr He Hfr Hk Hc HL' E1 E2 E3 E4 E5 E6 E7.
  pose proof (r_sizes _ _ _ Hr) as Hs. pose proof Hs as [S1 S2 S3]. destruct (S3 He) as (H1 & H2 & Heb).
  pose proof Hfr as [F1 F2 F3 F4 F5 F6].
  rewrite F1 in E5.
  pose proof (λ hv, moved_slot t t' hv Hs He E5 E6 E7) as Hmv.
  split.
  - split; [by rewrite E5|by rewrite E2, E5, F5|]. intros He'. rewrite E5, E6, (E3 He'), F6. rewrite E7 in He'.
    apply negb_true_iff, Z.eqb_neq in He'. lia.
  - intros o b Hvb. destruct (Hc o b) as (p & Hp & Hch).
    { unfold valid_slot in *. rewrite E5 in Hvb. destruct o; [|done]. by destruct Hvb. }
    exists p. rewrite E1. split; [|done]. cbn [load] in *. destruct o; [|by rewrite E2].
    destruct Hvb as [Hex _]. by rewrite E3.
  - intros o b y [[Hy Hne]|(Hy & -> & k & Hky & ->)]%HL'; rewrite E1.
    + destruct (r_home _ _ _ Hr o b y Hy) as (k & Hky & Hsl). exists k. rewrite Hmv, Hsl.
      split; [by apply Hk|]. rewrite decide_False; [done|]. by intros [= -> ->].
    + exists k. split; [by apply Hk|]. destruct (r_home _ _ _ Hr _ _ y Hy) as (k' & Hky' & Hsl).
      rewrite (has_key_det _ _ _ _ Hky Hky'). rewrite Hmv, Hsl. by rewrite decide_True.
  - intros k y. rewrite (r_map _ _ _ Hr), E1, (Hk y k). setoid_rewrite Hmv. setoid_rewrite HL'. split.
    + intros (Hky & o & b & Hsl & Hy). split; [done|]. destruct (decide _) as [Hd|Hd].
      * rewrite Hd in Hsl. injection Hsl as <- <-. eexists false, _. split; [done|]. right. eauto.
      * exists o, b. split; [done|]. left. split; [done|]. intros [= -> ->]. done.
    + intros (Hky & o & b & Hsl & Hy). split; [done|]. destruct (decide _) as [Hd|Hd].
      * exists true, (expand_bucket t). split; [done|]. destruct Hy as [[Hy Hne]|(Hy & _)]; [|done].
        injection Hsl as <- <-. exfalso. destruct (r_home _ _ _ Hr _ _ y Hy) as (k' & Hky' & Hsl').
        rewrite (has_key_det _ _ _ _ Hky Hky') in Hd. congruence.
      * exists o, b. split; [done|]. destruct Hy as [[Hy _]|(Hy & -> & k' & Hky' & ->)]; [done|].
        exfalso. destruct (r_home _ _ _ Hr _ _ y Hy) as (k'' & Hky'' & Hsl').
        apply Hd. rewrite (has_key_det _ _ _ _ Hky Hky''). done.
  - rewrite E4, F4. apply Hr.
Qed.

Lemma move_bucket_spec t m L :
  repr t m L → expanding t = true →
  ∃ t' L', move_bucket hash t = Ok t' ∧ repr t' m L' ∧ same_keys t t' ∧
    hashpower t' = hashpower t ∧ expand_bucket t' = expand_bucket t + 1 ∧
    expanding t' = negb (expand_bucket t + 1 =? 2 ^ (hashpower t - 1)).
Proof.
  intros Hr He. destruct (empty_bucket_spec t m L Hr He) as (t1 & t2 & it & L' & Hl & Hm & Hst & Hfr & Hk & Hc & HL').
  pose proof (r_sizes _ _ _ Hr) as Hs. pose proof Hs as [S1 S2 S3]. destruct (S3 He) as (H1 & H2 & Heb).
  pose proof Hfr as [F1 F2 F3 F4 F5 F6].
  assert (2 ^ (hashpower t - 1) ≤ 2 ^ 31) as Hmax by (apply Z.pow_le_mono_r; lia).
  assert (u32 (expand_bucket t2 + 1) = expand_bucket t + 1) as Hu.
  { rewrite F3. unfold u32. rewrite wrapu_small; [done|]. lia. }
  unfold move_bucket. rewrite Hl. cbn [mbind result_bind]. rewrite Hm. cbn [mbind result_bind]. rewrite Hst.
  cbn [mbind result_bind]. unfold hashsize. cbn [set_expand_bucket expand_bucket hashpower].
  rewrite Hu, Z.shiftl_1_l, F1.
  destruct (Z.eqb_spec (expand_bucket t + 1) (2 ^ (hashpower t - 1))) as [Heq|Hne];
    eexists _, L'; (split; [reflexivity|]); cbn [negb]; (split; [apply (repr_moved t t2 _ m L L')|]); try done; cbn;
    rewrite ?F1, ?F2, ?Hu, ?He; try done; rewrite ?(proj2 (Z.eqb_eq _ _) Heq), ?(proj2 (Z.eqb_neq _ _) Hne); done.
Qed.

Lemma bulk_move_spec n t m L :
  repr t m L →
  ∃ t' L', bulk_move hash n t = Ok t' ∧ repr t' m L' ∧ same_keys t t' ∧ hashpower t' = hashpower t ∧
    (expanding t = false → expanding t' = false) ∧
    (expanding t = true → expand_bucket t + Z.of_nat n < 2 ^ (hashpower t - 1) →
       expanding t' = true ∧ expand_bucket t' = expand_bucket t + Z.of_nat n) ∧
    (2 ^ (hashpower t - 1) ≤ expand_bucket t + Z.of_nat n → expanding t' = false).
Proof.
  revert t L. induction n as [|n IH]; intros t L Hr; cbn [bulk_move].
  - exists t, L. split; [done|]. do 3 (split; [done|]). split; [done|].
    split; [intros; split; [done|lia]|]. intros Hle. destruct (expanding t) eqn:He; [|done].
    destruct (r_sizes _ _ _ Hr) as [_ _ S3]. specialize (S3 He). lia.
  - destruct (expanding t) eqn:He.
    2: { exists t, L. split; [done|]. do 4 (split; [done|]). done. }
    destruct (move_bucket_spec t m L Hr He) as (t1 & L1 & -> & Hr1 & Hk1 & Hp1 & Hb1 & He1).
    cbn [mbind result_bind]. destruct (IH t1 L1 Hr1) as (t2 & L2 & Hm & Hr2 & Hk2 & Hp2 & Hf & Hg & Hd).
    rewrite Hp1, Hb1 in *. exists t2, L2. do 2 (split; [done|]).
    split; [intros y k; by rewrite (Hk2 y k)|]. split; [done|]. split; [done|]. split.
    + intros _ Hlt. destruct Hg as [Hg1 Hg2]; [|lia|by split; [|lia]].
      rewrite He1. apply negb_true_iff, Z.eqb_neq. lia.
    + intros Hle. apply Hd. lia.
Qed.

Lemma repr_started t m L b : repr t m L → repr (set_started b t) m L.
Proof. intros [[] C H M N]. done. Qed.

Lemma maintenance_round_spec calloc n t m L :
  (∀ p, 32 < p → calloc p = false) → repr t m L →
  ∃ t' L', maintenance_round hash calloc n t = Ok t' ∧ repr t' m L' ∧ same_keys t t'.
Proof.
  intros Hcal Hr. destruct (bulk_move_spec n t m L Hr) as (t1 & L1 & Hm & Hr1 & Hk & _).
  unfold maintenance_round. rewrite Hm. cbn [mbind result_bind].
  destruct (expanding t1) eqn:He; [by eexists _, _|].
  pose proof (repr_started t1 m L1 false Hr1) as Hr2. destruct (calloc (hashpower t1 + 1)) eqn:Hc.
  - eexists _, _. split; [done|]. split; [apply assoc_expand_spec; [done|done|]|done].
    cbn. destruct (decide (hashpower t1 < 32)); [done|]. rewrite Hcal in Hc by lia. done.
  - eexists _, _. split; [done|]. split; [by apply assoc_expand_fails_spec|done].
Qed.

(** ** What the table changes of the items

    Of the items only the links [h_next]. *)
Definition same_items (h h' : heap_t) : Prop := set_h_next 0 <$> h' = set_h_next 0 <$> h.

#[local] Instance same_items_refl : Reflexive same_items.
Proof. by intros h. Qed.
#[local] Instance same_items_trans : Transitive same_items.
Proof. intros h1 h2 h3. unfold same_items. congruence. Qed.

Lemma store_same_items sl v t t' : store sl v t = Ok t' → same_items (heap t) (heap t').
Proof.
  destruct sl as [old b|p]; cbn [store]; intros Hs; minv.
  - by destruct old.
  - unfold deref in *. destruct (heap t !! p) as [it|] eqn:Hp; minv; [|done].
    cbn [set_heap heap]. unfold same_items. rewrite fmap_insert. apply insert_id.
    rewrite lookup_fmap, Hp. by destruct a.
Qed.

Lemma assoc_insert_same_items x hv t t' : assoc_insert x hv t = Ok t' → same_items (heap t) (heap t').
Proof.
  unfold assoc_insert. intros Hi. minv.
  repeat match goal with H : store _ _ _ = Ok _ |- _ => apply store_same_items in H end.
  etrans; [eassumption|]. etrans; [eassumption|]. destruct (_ && _) in Hi; minv; [|done].
  unfold assoc_start_expand. cbn. by destruct (started_expanding _).
Qed.

Lemma assoc_delete_same_items k hv t t' : assoc_delete k hv t = Ok t' → same_items (heap t) (heap t').
Proof.
  unfold assoc_delete. intros Hi. minv. destruct (_ =? 0) in Hi; minv; [done|].
  repeat match goal with H : store _ _ _ = Ok _ |- _ => apply store_same_items in H end.
  etrans; eassumption.
Qed.

Lemma move_loop_same_items fuel it t t' : move_loop hash fuel it t = Ok t' → same_items (heap t) (heap t').
Proof.
  revert it t. induction fuel as [|fuel IH]; intros it t Hm; cbn [move_loop] in Hm; [done|].
  destruct (it =? 0); minv; [done|].
  repeat match goal with H : store _ _ _ = Ok _ |- _ => apply store_same_items in H end.
  etrans; [eassumption|]. etrans; [eassumption|]. by eapply IH.
Qed.

Lemma move_bucket_same_items t t' : move_bucket hash t = Ok t' → same_items (heap t) (heap t').
Proof.
  unfold move_bucket. intros Hm. minv.
  repeat match goal with
  | H : store _ _ _ = Ok _ |- _ => apply store_same_items in H
  | H : move_loop _ _ _ _ = Ok _ |- _ => apply move_loop_same_items in H
  end.
  etrans; [eassumption|]. etrans; [eassumption|]. destruct (_ =? _) in Hm; by minv.
Qed.

Lemma bulk_move_same_items n t t' : bulk_move hash n t = Ok t' → same_items (heap t) (heap t').
Proof.
  revert t. induction n as [|n IH]; intros t Hm; cbn [bulk_move] in Hm; minv; [done|].
  destruct (expanding t); minv; [|done]. etrans; [by eapply move_bucket_same_items|by apply IH].
Qed.

Lemma maintenance_round_same_items calloc n t t' :
  maintenance_round hash calloc n t = Ok t' → same_items (heap t) (heap t').
Proof.
  unfold maintenance_round. intros Hm. minv. apply bulk_move_same_items in H.
  destruct (expanding _) in Hm; minv; [done|]. unfold assoc_expand. by destruct (calloc _).
Qed.

(** Changes of the items that keep the keys and the links [h_next] of the items of the
    table do not matter to the table. *)
Lemma holds_frame t h' m :
  holds t m →
  (∀ k x, m !! k = Some x → ∃ it it', heap t !! x = Some it ∧ h' !! x = Some it' ∧
     ITEM_key it' = ITEM_key it ∧ h_next it' = h_next it) →
  holds (set_heap h' t) m.
Proof.
  intros [L Hr] Hsame. exists L. destruct Hr as [Hs Hc Hh Hm Hn].
  assert (∀ o b x, x ∈ L o b → ∃ it it', heap t !! x = Some it ∧ h' !! x = Some it' ∧
     ITEM_key it' = ITEM_key it ∧ h_next it' = h_next it) as HL.
  { intros o b x Hx. destruct (Hh o b x Hx) as (k & Hk & Hb). apply (Hsame k x). apply Hm. eauto. }
  split; [by destruct Hs| | | |done].
  - intros o b Hv. destruct (Hc o b Hv) as (p & Hl & Hch). exists p. split; [done|].
    clear Hl. specialize (HL o b). revert p Hch. induction (L o b) as [|x l IH]; intros p; cbn [chain]; [done|].
    intros (-> & Hx & it & Hit & Hch). split; [done|]. split; [done|].
    destruct (HL x) as (it0 & it' & Hit0 & Hit' & _ & Hnx); [by apply elem_of_cons; left|].
    exists it'. split; [done|]. rewrite Hnx. simplify_eq. apply IH; [|done].
    intros y Hy. apply HL. by apply elem_of_cons; right.
  - intros o b x Hx. destruct (Hh o b x Hx) as (k & Hk & Hb). exists k. split; [|done].
    destruct (HL o b x Hx) as (it & it' & Hit & Hit' & Hke & _). unfold has_key in *. cbn [heap set_heap].
    rewrite Hit in Hk. rewrite Hit'. cbn in *. congruence.
  - intros k x. rewrite Hm. cbn [heap set_heap].
    assert (∀ o b, x ∈ L o b → has_key h' x k ↔ has_key (heap t) x k) as Heq.
    { intros o b Hx. destruct (HL o b x Hx) as (it & it' & Hit & Hit' & Hke & _). unfold has_key.
      rewrite Hit, Hit'. cbn. by rewrite Hke. }
    split; intros (Hk & o & b & Hb & Hx); (split; [by eapply Heq|by exists o, b]).
Qed.

(** ** The table as a map *)

Inductive op := Find (k : bytes) | Insert (x : Z) | Delete (k : bytes) | Maintain (hash_bulk_move : nat).

(** What the code does; the answer of an operation that gives none is 0. *)
Definition exec (calloc : Z → bool) (o : op) (t : table) : result (Z * table) :=
  match o with
  | Find k => let* p := assoc_find k (hash k) t in Ok (p, t)
  | Insert x =>
      let* it := deref x t in
      let* t := assoc_insert x (hash (ITEM_key it)) t in Ok (0, t)
  | Delete k => let* t := assoc_delete k (hash k) t in Ok (0, t)
  | Maintain n => let* t := maintenance_round hash calloc n t in Ok (0, t)
  end.
Fixpoint exec_all (calloc : Z → bool) (ops : list op) (t : table) : result (list Z * table) :=
  match ops with
  | [] => Ok ([], t)
  | o :: ops' =>
      let* '(a, t) := exec calloc o t in
      let* '(l, t) := exec_all calloc ops' t in
      Ok (a :: l, t)
  end.

(** The specification: a finite map from keys to items.  It has no answer when the
    caller inserts a key or an item that is already there, or deletes a key that is not:
    the callers of the table do not do this. *)
Definition spec (items : gmap Z bytes) (o : op) (m : gmap bytes Z) : option (Z * gmap bytes Z) :=
  match o with
  | Find k => Some (default 0 (m !! k), m)
  | Insert x =>
      k ← items !! x;
      if bool_decide (x ≠ 0 ∧ m !! k = None ∧ x ∉ (map_to_list m).*2) then Some (0, <[k := x]> m) else None
  | Delete k => if bool_decide (m !! k = None) then None else Some (0, delete k m)
  | Maintain _ => Some (0, m)
  end.
Fixpoint spec_all (items : gmap Z bytes) (ops : list op) (m : gmap bytes Z) : option (list Z * gmap bytes Z) :=
  match ops with
  | [] => Some ([], m)
  | o :: ops' =>
      '(a, m) ← spec items o m;
      '(l, m) ← spec_all items ops' m;
      Some (a :: l, m)
  end.

Definition keys (t : table) : gmap Z bytes := ITEM_key <$> heap t.

Lemma keys_lookup t x k : keys t !! x = Some k ↔ has_key (heap t) x k.
Proof. unfold keys, has_key. by rewrite lookup_fmap. Qed.
Lemma same_keys_keys t t' : same_keys t t' → keys t' = keys t.
Proof.
  intros Hs. apply map_eq. intros x. apply option_eq. intros k. by rewrite !keys_lookup, (Hs x k).
Qed.

Lemma exec_spec calloc items o t m a m' :
  (∀ p, 32 < p → calloc p = false) → holds t m → keys t = items → spec items o m = Some (a, m') →
  ∃ t', exec calloc o t = Ok (a, t') ∧ holds t' m' ∧ keys t' = items.
Proof.
  intros Hcal [L Hr] <- Hs. destruct o as [k|x|k|n]; cbn [spec exec] in *.
  - injection Hs as <- <-. rewrite (assoc_find_spec t m L k Hr). cbn. exists t. split; [done|]. split; [by exists L|done].
  - apply bind_Some in Hs as (k & Hk & Hs). case_bool_decide as Hc; [|done]. injection Hs as <- <-.
    destruct Hc as (Hx & Hm & Hnew). pose proof (proj1 (keys_lookup t x k) Hk) as Hkx.
    destruct (proj1 (has_key_alt _ _ _) Hkx) as (it & Hit & Hki). unfold deref. rewrite Hit. cbn [mbind result_bind].
    rewrite Hki. destruct (assoc_insert_spec t m L x k Hr Hkx Hx Hm) as (t' & L' & -> & Hr' & Hk').
    { intros k' Hk'. apply Hnew. apply list_elem_of_fmap. exists (k', x). split; [done|]. by apply elem_of_map_to_list. }
    exists t'. split; [done|]. split; [by exists L'|]. by apply same_keys_keys.
  - case_bool_decide as Hm; [done|]. injection Hs as <- <-.
    destruct (m !! k) as [x|] eqn:Hmk; [|done].
    destruct (assoc_delete_spec t m L k x Hr Hmk) as (t' & L' & -> & Hr' & Hk').
    exists t'. split; [done|]. split; [by exists L'|]. by apply same_keys_keys.
  - injection Hs as <- <-. destruct (maintenance_round_spec calloc n t m L Hcal Hr) as (t' & L' & -> & Hr' & Hk').
    exists t'. split; [done|]. split; [by exists L'|]. by apply same_keys_keys.
Qed.

Lemma init_holds h power : 0 ≤ power ≤ 32 → holds (assoc_init h power) ∅.
Proof.
  intros Hp. set (power' := if negb (power =? 0) then power else HASHPOWER_DEFAULT).
  assert (0 ≤ power' ≤ 32) as Hp' by (subst power'; unfold HASHPOWER_DEFAULT; destruct (power =? 0); simpl; lia).
  exists (λ _ _, []). split.
  - split; cbn; fold power'; [done| |done]. unfold zlen, hashsize.
    rewrite length_replicate, Z.shiftl_1_l, Z2Nat.id; [done|]. apply Z.pow_nonneg. lia.
  - intros [] b Hv; cbn in Hv; [by destruct Hv|]. exists 0. split; [|done]. cbn. fold power' in Hv |- *.
    rewrite lookup_replicate_2; [done|]. unfold hashsize. rewrite Z.shiftl_1_l. lia.
  - by intros o b x ?%elem_of_nil.
  - intros k x. rewrite lookup_empty. split; [done|]. by intros (_ & o & b & _ & ?%elem_of_nil).
  - done.
Qed.

Lemma exec_all_spec calloc items ops t m answers m' :
  (∀ p, 32 < p → calloc p = false) → holds t m → keys t = items →
  spec_all items ops m = Some (answers, m') →
  ∃ t', exec_all calloc ops t = Ok (answers, t') ∧ holds t' m'.
Proof.
  intros Hcal. revert t m answers. induction ops as [|o ops IH]; intros t m answers Hh Hk; cbn [spec_all exec_all].
  - intros [= <- <-]. by exists t.
  - intros ([a m1] & H1 & ([l m2] & H2 & [= <- <-])%bind_Some)%bind_Some.
    destruct (exec_spec calloc items o t m a m1 Hcal Hh Hk H1) as (t1 & -> & Hh1 & Hk1).
    cbn [mbind result_bind]. destruct (IH t1 m1 l Hh1 Hk1 H2) as (t2 & -> & Hh2). by exists t2.
Qed.

End Repr.



(** *** An example: the hash of a key is its first byte. *)
Definition first_byte (k : bytes) : Z := match k with c :: _ => c | [] => 0 end.
Definition ex_heap : gmap Z item :=
  (λ k, set_ITEM_key k zero_item) <$> list_to_map [(8, [1]); (16, [3; 7]); (24, [5]); (32, [3; 8])].
Definition ex_calloc (p : Z) : bool := p <=? 20.

(** Four insertions; an expansion begins; one of its two buckets is moved; a key of the
    bucket that is still in the old table and one of the moved bucket are deleted. *)
Definition ex_ops : list op :=
  [Insert 8; Insert 16; Insert 24; Insert 32; Maintain 1; Find [3; 7]; Maintain 1; Find [5];
   Delete [3; 8]; Find [3; 8]; Maintain 1; Find [1]; Find [3; 7]; Find [9]].



End AssocTheorems.
