(* ===== verification/Slabs.v ===== *)
(** * The slab allocator of memcached

    [memcached-1.4.15/slabs.c]: memory is taken from the system in pages; a page belongs
    to a class and is divided into chunks of the size of the class; the free chunks of a
    class are linked into a list.  A page can be moved from one class to another; the part
    of that which looks at the items is in [Items].

    The chunks are the elements of the heap ([ItemHeap]): a page that is carved into chunks
    brings as many cleared items into the heap.  What the system returns ([malloc],
    [realloc], the lock of the rebalancing thread) is an argument of the operations.
    Statistics and messages are left out. *)

From S2P Require Import Prelude Bytes ItemHeap Rounding.
From stdpp Require Import base gmap list.
From Stdlib Require Import ZArith QArith Qround Lia.

Local Open Scope Z_scope.

Module Slabs.
Import ItemHeap.

Definition POWER_SMALLEST : Z := 1.
Definition POWER_LARGEST : Z := 200.
Definition CHUNK_ALIGN_BYTES : Z := 8.
Definition MAX_NUMBER_OF_SLAB_CLASSES : Z := POWER_LARGEST + 1.

(** The settings that the allocator and the items read. *)
Record settings_t := mkSettings {
  chunk_size : Z;
  item_size_max : Z;
  factor : Q;
  slab_reassign : bool;
  slab_automove : Z;
  evict_to_free : bool;
  use_cas : bool
}.

(** [slab_list] has [list_size] elements, of which the first [slabs] are in use. *)
Record slabclass_t := mkClass {
  size : Z;
  perslab : Z;
  slots : Z;
  sl_curr : Z;
  slabs : Z;
  slab_list : list Z;
  list_size : Z;
  killing : Z;
  requested : Z
}.
Definition set_size (v : Z) (x : slabclass_t) : slabclass_t :=
  mkClass v (perslab x) (slots x) (sl_curr x) (slabs x) (slab_list x) (list_size x) (killing x) (requested x).
Definition set_perslab (v : Z) (x : slabclass_t) : slabclass_t :=
  mkClass (size x) v (slots x) (sl_curr x) (slabs x) (slab_list x) (list_size x) (killing x) (requested x).
Definition set_slots (v : Z) (x : slabclass_t) : slabclass_t :=
  mkClass (size x) (perslab x) v (sl_curr x) (slabs x) (slab_list x) (list_size x) (killing x) (requested x).
Definition set_sl_curr (v : Z) (x : slabclass_t) : slabclass_t :=
  mkClass (size x) (perslab x) (slots x) v (slabs x) (slab_list x) (list_size x) (killing x) (requested x).
Definition set_slabs (v : Z) (x : slabclass_t) : slabclass_t :=
  mkClass (size x) (perslab x) (slots x) (sl_curr x) v (slab_list x) (list_size x) (killing x) (requested x).
Definition set_slab_list (v : list Z) (x : slabclass_t) : slabclass_t :=
  mkClass (size x) (perslab x) (slots x) (sl_curr x) (slabs x) v (list_size x) (killing x) (requested x).
Definition set_list_size (v : Z) (x : slabclass_t) : slabclass_t :=
  mkClass (size x) (perslab x) (slots x) (sl_curr x) (slabs x) (slab_list x) v (killing x) (requested x).
Definition set_killing (v : Z) (x : slabclass_t) : slabclass_t :=
  mkClass (size x) (perslab x) (slots x) (sl_curr x) (slabs x) (slab_list x) (list_size x) v (requested x).
Definition set_requested (v : Z) (x : slabclass_t) : slabclass_t :=
  mkClass (size x) (perslab x) (slots x) (sl_curr x) (slabs x) (slab_list x) (list_size x) (killing x) v.

Record slab_rebalance := mkRebal {
  slab_start : Z;
  slab_end : Z;
  slab_pos : Z;
  s_clsid : Z;
  d_clsid : Z;
  busy_items : Z;
  done : Z
}.
Definition set_slab_start (v : Z) (x : slab_rebalance) : slab_rebalance :=
  mkRebal v (slab_end x) (slab_pos x) (s_clsid x) (d_clsid x) (busy_items x) (done x).
Definition set_slab_end (v : Z) (x : slab_rebalance) : slab_rebalance :=
  mkRebal (slab_start x) v (slab_pos x) (s_clsid x) (d_clsid x) (busy_items x) (done x).
Definition set_slab_pos (v : Z) (x : slab_rebalance) : slab_rebalance :=
  mkRebal (slab_start x) (slab_end x) v (s_clsid x) (d_clsid x) (busy_items x) (done x).
Definition set_s_clsid (v : Z) (x : slab_rebalance) : slab_rebalance :=
  mkRebal (slab_start x) (slab_end x) (slab_pos x) v (d_clsid x) (busy_items x) (done x).
Definition set_d_clsid (v : Z) (x : slab_rebalance) : slab_rebalance :=
  mkRebal (slab_start x) (slab_end x) (slab_pos x) (s_clsid x) v (busy_items x) (done x).
Definition set_busy_items (v : Z) (x : slab_rebalance) : slab_rebalance :=
  mkRebal (slab_start x) (slab_end x) (slab_pos x) (s_clsid x) (d_clsid x) v (done x).
Definition set_done (v : Z) (x : slab_rebalance) : slab_rebalance :=
  mkRebal (slab_start x) (slab_end x) (slab_pos x) (s_clsid x) (d_clsid x) (busy_items x) v.

(** The variables of [slabs.c]; [pick_cur] is the static variable of
    [slabs_reassign_pick_any]. *)
Record pool := mkPool {
  slabclass : list slabclass_t;
  mem_limit : Z;
  mem_malloced : Z;
  power_largest : Z;
  mem_base : Z;
  mem_current : Z;
  mem_avail : Z;
  slab_rebal : slab_rebalance;
  slab_rebalance_signal : Z;
  pick_cur : Z
}.
Definition set_slabclass (v : list slabclass_t) (x : pool) : pool :=
  mkPool v (mem_limit x) (mem_malloced x) (power_largest x) (mem_base x) (mem_current x) (mem_avail x) (slab_rebal x) (slab_rebalance_signal x) (pick_cur x).
Definition set_mem_limit (v : Z) (x : pool) : pool :=
  mkPool (slabclass x) v (mem_malloced x) (power_largest x) (mem_base x) (mem_current x) (mem_avail x) (slab_rebal x) (slab_rebalance_signal x) (pick_cur x).
Definition set_mem_malloced (v : Z) (x : pool) : pool :=
  mkPool (slabclass x) (mem_limit x) v (power_largest x) (mem_base x) (mem_current x) (mem_avail x) (slab_rebal x) (slab_rebalance_signal x) (pick_cur x).
Definition set_power_largest (v : Z) (x : pool) : pool :=
  mkPool (slabclass x) (mem_limit x) (mem_malloced x) v (mem_base x) (mem_current x) (mem_avail x) (slab_rebal x) (slab_rebalance_signal x) (pick_cur x).
Definition set_mem_base (v : Z) (x : pool) : pool :=
  mkPool (slabclass x) (mem_limit x) (mem_malloced x) (power_largest x) v (mem_current x) (mem_avail x) (slab_rebal x) (slab_rebalance_signal x) (pick_cur x).
Definition set_mem_current (v : Z) (x : pool) : pool :=
  mkPool (slabclass x) (mem_limit x) (mem_malloced x) (power_largest x) (mem_base x) v (mem_avail x) (slab_rebal x) (slab_rebalance_signal x) (pick_cur x).
Definition set_mem_avail (v : Z) (x : pool) : pool :=
  mkPool (slabclass x) (mem_limit x) (mem_malloced x) (power_largest x) (mem_base x) (mem_current x) v (slab_rebal x) (slab_rebalance_signal x) (pick_cur x).
Definition set_slab_rebal (v : slab_rebalance) (x : pool) : pool :=
  mkPool (slabclass x) (mem_limit x) (mem_malloced x) (power_largest x) (mem_base x) (mem_current x) (mem_avail x) v (slab_rebalance_signal x) (pick_cur x).
Definition set_slab_rebalance_signal (v : Z) (x : pool) : pool :=
  mkPool (slabclass x) (mem_limit x) (mem_malloced x) (power_largest x) (mem_base x) (mem_current x) (mem_avail x) (slab_rebal x) v (pick_cur x).
Definition set_pick_cur (v : Z) (x : pool) : pool :=
  mkPool (slabclass x) (mem_limit x) (mem_malloced x) (power_largest x) (mem_base x) (mem_current x) (mem_avail x) (slab_rebal x) (slab_rebalance_signal x) v.

(** What the system answers to an operation: the address that [malloc] returns, 0 if it
    fails, and whether [realloc] succeeds. *)
Record env := mkEnv { malloc : Z; realloc_ok : bool }.

Record arena := mkArena { heap : heap_t; the_pool : pool }.
Abbreviation SM := (M Empty_set arena).

Definition assert (b : bool) : SM unit := if b then mret tt else stuck AssertFailed.
Definition on_heap (f : heap_t → result heap_t) : SM unit := λ ar,
  match f (heap ar) with Ok h => Ret tt (mkArena h (the_pool ar)) | Fail e => Stuck e end.
Definition load (p : Z) : SM item := λ ar,
  match get_item (heap ar) p with Ok it => Ret it ar | Fail e => Stuck e end.
(** [it] leaves the front of a free list; its successor is returned. *)
Definition unlink_slot (it : Z) : SM Z := λ ar,
  match unlink_front it (heap ar) with
  | Ok (nx, h) => Ret nx (mkArena h (the_pool ar))
  | Fail f => Stuck f
  end.
Definition gets_pool {A} (f : pool → A) : SM A := gets (f ∘ the_pool).
Definition upd_pool (f : pool → pool) : SM unit := modify (λ ar, mkArena (heap ar) (f (the_pool ar))).
(** [slabclass[id]]. *)
Definition class_at (id : Z) : SM slabclass_t :=
  let* l := gets_pool slabclass in lift_result (vec_at l id).
Definition upd_class (id : Z) (f : slabclass_t → slabclass_t) : SM unit :=
  let* p := class_at id in upd_pool (λ pl, set_slabclass (zinsert id (f p) (slabclass pl)) pl).

(** ** Classes *)

Fixpoint clsid_loop (fuel : nat) (pl : pool) (size_ res : Z) : result Z :=
  match fuel with
  | O => Fail OutOfFuel
  | S fuel' =>
      let* p := vec_at (slabclass pl) res in
      if size p <? size_ then
        if res =? power_largest pl then Ok 0 else clsid_loop fuel' pl size_ (res + 1)
      else Ok res
  end.
Definition slabs_clsid_of (size_ : Z) (pl : pool) : result Z :=
  if size_ =? 0 then Ok 0
  else clsid_loop (Z.to_nat MAX_NUMBER_OF_SLAB_CLASSES) pl size_ POWER_SMALLEST.

(** The loop of [slabs_init] over the classes: the new classes and the values of [i] and
    [size] behind the loop.  [size *= factor] multiplies in [double]. *)
Fixpoint init_loop (fuel : nat) (st : settings_t) (i sz : Z) (l : list slabclass_t)
  : result (list slabclass_t * Z) :=
  match fuel with
  | O => Fail OutOfFuel
  | S fuel' =>
      let i := i + 1 in
      if (i <? POWER_LARGEST) && Qle_bool (inject_Z sz) (to_double (inject_Z (item_size_max st) / factor st)%Q) then
        let sz := if sz mod CHUNK_ALIGN_BYTES =? 0 then sz
                  else u32 (sz + (CHUNK_ALIGN_BYTES - sz mod CHUNK_ALIGN_BYTES)) in
        if sz =? 0 then Fail DivisionByZero else
        let* p := vec_at l i in
        let l := zinsert i (set_perslab (item_size_max st / sz) (set_size sz p)) l in
        let product := Qfloor (to_double (inject_Z sz * factor st)) in
        if product <? 2 ^ 32 then init_loop fuel' st i product l else Fail BadConversion
      else Ok (l, i)
  end.

Definition zero_class : slabclass_t := mkClass 0 0 0 0 0 [] 0 0 0.
Definition zero_rebal : slab_rebalance := mkRebal 0 0 0 0 0 0 0.

(** The classes that [slabs_init] makes, and [power_largest]. *)
Definition init_classes (st : settings_t) : result (list slabclass_t * Z) :=
  let sz := u32 (sizeof_item + chunk_size st) in
  let zeros := replicate (Z.to_nat MAX_NUMBER_OF_SLAB_CLASSES) zero_class in
  let* '(l, i) := init_loop (Z.to_nat POWER_LARGEST) st (POWER_SMALLEST - 1) sz zeros in
  let* p := vec_at l i in
  Ok (zinsert i (set_perslab 1 (set_size (item_size_max st) p)) l, i).

(** ** Pages *)

(** The chunks of a page, cleared. *)
Definition chunks_of (ptr : Z) (p : slabclass_t) : list Z :=
  (λ x, ptr + Z.of_nat x * size p) <$> seq 0 (Z.to_nat (perslab p)).

(** [memset(ptr, 0, len)] on a page that is going to be carved into chunks of a class:
    whatever was in the page is gone and there are as many cleared chunks. *)
Definition clear_page (ptr len : Z) (p : slabclass_t) (h : heap_t) : heap_t :=
  list_to_map ((λ c, (c, zero_item)) <$> chunks_of ptr p) ∪
  filter (λ ci, ¬ (ptr ≤ ci.1 < ptr + len)) h.

Definition grow_slab_list (e : env) (id : Z) : SM bool :=
  let* p := class_at id in
  if slabs p =? list_size p then
    let new_size := if negb (list_size p =? 0) then u32 (list_size p * 2) else 16 in
    if realloc_ok e then
      upd_class id (λ p, set_slab_list (slab_list p ++ replicate (Z.to_nat (new_size - list_size p)) 0)
                           (set_list_size new_size p)) ;;
      mret true
    else mret false
  else mret true.

Definition memory_allocate (e : env) (size_ : Z) : SM Z :=
  let* pl := gets_pool id in
  if mem_base pl =? 0 then mret (malloc e)
  else
    let ret := mem_current pl in
    if mem_avail pl <? size_ then mret 0
    else
      let size_ := if size_ mod CHUNK_ALIGN_BYTES =? 0 then size_
                   else size_ + (CHUNK_ALIGN_BYTES - size_ mod CHUNK_ALIGN_BYTES) in
      upd_pool (λ pl, set_mem_current (mem_current pl + size_)
                        (set_mem_avail (if size_ <? mem_avail pl then mem_avail pl - size_ else 0) pl)) ;;
      mret ret.

(** ** Chunks *)

Definition do_slabs_free (ptr size_ id : Z) : SM unit :=
  let* it := load ptr in
  assert (slabs_clsid it =? 0) ;;
  let* pl := gets_pool power_largest in
  assert ((POWER_SMALLEST <=? id) && (id <=? pl)) ;;
  let* p := class_at id in
  on_heap (upd_item ptr (add_flag ITEM_SLABBED)) ;;
  on_heap (link_front ptr (slots p)) ;;
  upd_class id (λ p, set_slots ptr (set_sl_curr (u32 (sl_curr p + 1))
                       (set_requested (u64 (requested p - size_)) p))).

(** The loop runs [p->perslab] times; [ptr] advances by [p->size]. *)
Fixpoint split_loop (n : nat) (ptr id : Z) : SM unit :=
  match n with
  | O => mret tt
  | S n' =>
      do_slabs_free ptr 0 id ;;
      let* p := class_at id in
      split_loop n' (ptr + size p) id
  end.
Definition split_slab_page_into_freelist (ptr id : Z) : SM unit :=
  let* p := class_at id in split_loop (Z.to_nat (perslab p)) ptr id.

(** [p->slab_list[i] = v]. *)
Definition slab_list_set (id i v : Z) : SM unit :=
  let* p := class_at id in
  let* l := lift_result (vec_set (slab_list p) i v) in
  upd_class id (set_slab_list l).

Definition do_slabs_newslab (st : settings_t) (e : env) (id : Z) : SM bool :=
  let* p := class_at id in
  let* pl := gets_pool Datatypes.id in
  let len := if slab_reassign st then item_size_max st else size p * perslab p in
  if negb (mem_limit pl =? 0) && (mem_limit pl <? u64 (mem_malloced pl + len)) && (0 <? slabs p)
  then mret false else
  let* ok := grow_slab_list e id in
  if negb ok then mret false else
  let* ptr := memory_allocate e len in
  if ptr =? 0 then mret false else
  on_heap (λ h, Ok (clear_page ptr len p h)) ;;
  split_slab_page_into_freelist ptr id ;;
  let* p := class_at id in
  slab_list_set id (slabs p) ptr ;;
  upd_class id (λ p, set_slabs (u32 (slabs p + 1)) p) ;;
  upd_pool (λ pl, set_mem_malloced (u64 (mem_malloced pl + len)) pl) ;;
  mret true.

Definition do_slabs_alloc (st : settings_t) (e : env) (size_ id : Z) : SM Z :=
  let* pl := gets_pool power_largest in
  if (id <? POWER_SMALLEST) || (pl <? id) then mret 0 else
  let* p := class_at id in
  (if sl_curr p =? 0 then mret tt
   else let* it := load (slots p) in assert (slabs_clsid it =? 0)) ;;
  let* ok := if negb (sl_curr p =? 0) then mret true else do_slabs_newslab st e id in
  let* p := class_at id in
  let* ret :=
    if negb ok then mret 0
    else if negb (sl_curr p =? 0) then
      let it := slots p in
      let* nx := unlink_slot it in
      upd_class id (λ p, set_slots nx (set_sl_curr (u32 (sl_curr p - 1)) p)) ;;
      mret it
    else mret 0 in
  if negb (ret =? 0) then
    upd_class id (λ p, set_requested (u64 (requested p + size_)) p) ;; mret ret
  else mret ret.

Definition slabs_adjust_mem_requested (id old ntotal : Z) : SM unit :=
  let* pl := gets_pool power_largest in
  if (id <? POWER_SMALLEST) || (pl <? id) then stuck Aborted
  else upd_class id (λ p, set_requested (u64 (requested p - old + ntotal)) p).

(** ** Initialisation *)

(** The loop of [slabs_preallocate] from class [i] on; the process ends when a page
    cannot be had. *)
Fixpoint preallocate_loop (n : nat) (st : settings_t) (e : Z → env) (maxslabs i prealloc : Z) : SM unit :=
  match n with
  | O => mret tt
  | S n' =>
      if maxslabs <? prealloc + 1 then mret tt else
      let* ok := do_slabs_newslab st (e i) i in
      if ok : bool then preallocate_loop n' st e maxslabs (i + 1) (prealloc + 1) else stuck Aborted
  end.
Definition slabs_preallocate (st : settings_t) (e : Z → env) (maxslabs : Z) : SM unit :=
  preallocate_loop (Z.to_nat (POWER_LARGEST - POWER_SMALLEST + 1)) st e maxslabs POWER_SMALLEST 0.

(** [slabs_init]: [base] is the address of the big chunk when memory is preallocated, 0
    if there is none, [e i] what the system answers for the page of class [i] and
    [initial_malloc] the value of [T_MEMD_INITIAL_MALLOC]. *)
Definition slabs_init (st : settings_t) (limit : Z) (prealloc : bool) (base : Z) (e : Z → env)
  (initial_malloc : option Z) : result arena :=
  let* '(classes, largest) := init_classes st in
  let have := prealloc && negb (base =? 0) in
  let pl := mkPool classes limit (default 0 initial_malloc) largest
    (if have then base else 0) (if have then base else 0) (if have then limit else 0)
    zero_rebal 0 (POWER_SMALLEST - 1) in
  if prealloc then
    match slabs_preallocate st e largest (mkArena ∅ pl) with
    | Ret _ ar => Ok ar
    | Exn ex _ => match ex with end
    | Stuck f => Fail f
    end
  else Ok (mkArena ∅ pl).

(** ** Moving pages between classes

    The request: [slab_rebalance_signal] becomes 1 and wakes the rebalancing thread. *)

Inductive reassign_result_type :=
| REASSIGN_OK | REASSIGN_RUNNING | REASSIGN_BADCLASS | REASSIGN_NOSPARE | REASSIGN_SRC_DST_SAME.

Fixpoint pick_any_loop (tries : nat) (dst : Z) : SM Z :=
  match tries with
  | O => mret (-1)
  | S tries' =>
      let* pl := gets_pool id in
      let cur := pick_cur pl + 1 in
      let cur := if power_largest pl <? cur then POWER_SMALLEST else cur in
      upd_pool (set_pick_cur cur) ;;
      if cur =? dst then pick_any_loop tries' dst
      else
        let* p := class_at cur in
        if 1 <? slabs p then mret cur else pick_any_loop tries' dst
  end.
Definition slabs_reassign_pick_any (dst : Z) : SM Z :=
  let* pl := gets_pool power_largest in
  pick_any_loop (Z.to_nat (pl - POWER_SMALLEST + 1)) dst.

Definition do_slabs_reassign (src dst : Z) : SM reassign_result_type :=
  let* pl := gets_pool id in
  if negb (slab_rebalance_signal pl =? 0) then mret REASSIGN_RUNNING else
  if src =? dst then mret REASSIGN_SRC_DST_SAME else
  let* src := if src =? -1 then slabs_reassign_pick_any dst else mret src in
  if (src <? POWER_SMALLEST) || (power_largest pl <? src) || (dst <? POWER_SMALLEST) || (power_largest pl <? dst)
  then mret REASSIGN_BADCLASS else
  let* p := class_at src in
  if slabs p <? 2 then mret REASSIGN_NOSPARE else
  upd_pool (λ pl, set_slab_rebalance_signal 1
    (set_slab_rebal (set_s_clsid src (set_d_clsid dst (slab_rebal pl))) pl)) ;;
  mret REASSIGN_OK.

(** [lock_free]: [pthread_mutex_trylock(&slabs_rebalance_lock)] succeeds. *)
Definition slabs_reassign (lock_free : bool) (src dst : Z) : SM reassign_result_type :=
  if lock_free then do_slabs_reassign src dst else mret REASSIGN_RUNNING.

(** The result of [slab_rebalance_start]. *)
Definition slab_rebalance_start (e : env) : SM Z :=
  let* pl := gets_pool id in
  let rb := slab_rebal pl in
  let no_go :=
    if (s_clsid rb <? POWER_SMALLEST) || (power_largest pl <? s_clsid rb) || (d_clsid rb <? POWER_SMALLEST) ||
       (power_largest pl <? d_clsid rb) || (s_clsid rb =? d_clsid rb) then -2 else 0 in
  let* s_cls := class_at (s_clsid rb) in
  let* grown := grow_slab_list e (d_clsid rb) in
  let no_go := if grown : bool then no_go else -1 in
  let no_go := if slabs s_cls <? 2 then -3 else no_go in
  if negb (no_go =? 0) then mret no_go else
  upd_class (s_clsid rb) (set_killing 1) ;;
  let* start := lift_result (vec_at (slab_list s_cls) 0) in
  upd_pool (λ pl, set_slab_rebalance_signal 2
    (set_slab_rebal
       (set_slab_start start (set_slab_end (start + size s_cls * perslab s_cls)
          (set_slab_pos start (set_done 0 (slab_rebal pl))))) pl)) ;;
  mret 0.

Definition slab_rebalance_finish (st : settings_t) : SM unit :=
  let* pl := gets_pool id in
  let rb := slab_rebal pl in
  let* s_cls := class_at (s_clsid rb) in
  let* last := lift_result (vec_at (slab_list s_cls) (u32 (slabs s_cls - 1))) in
  slab_list_set (s_clsid rb) (u32 (killing s_cls - 1)) last ;;
  upd_class (s_clsid rb) (λ p, set_slabs (u32 (slabs p - 1)) (set_killing 0 p)) ;;
  let* d_cls := class_at (d_clsid rb) in
  on_heap (λ h, Ok (clear_page (slab_start rb) (item_size_max st) d_cls h)) ;;
  slab_list_set (d_clsid rb) (slabs d_cls) (slab_start rb) ;;
  upd_class (d_clsid rb) (λ p, set_slabs (u32 (slabs p + 1)) p) ;;
  split_slab_page_into_freelist (slab_start rb) (d_clsid rb) ;;
  upd_pool (λ pl, set_slab_rebalance_signal 0 (set_slab_rebal
    (mkRebal 0 0 0 0 0 (busy_items (slab_rebal pl)) 0) pl)).

End Slabs.
