(* ===== verification/SlabsTheorems.v ===== *)
(** * The slab allocator of memcached

    The classes that [slabs_init] computes, with its arithmetic in [double], and how
    [slabs_clsid] searches them; then the invariant of the allocator ([pool_ok]) and what
    its operations do: allocation and release of chunks, new pages. *)

From S2P Require Import Prelude Bytes ItemHeap Rounding Slabs.
From stdpp Require Import base gmap list.
From Stdlib Require Import ZArith QArith Qround Lia Lqa.

Local Open Scope Z_scope.

Module SlabsTheorems.
Import ItemHeap Slabs.

(** Arithmetic with the constants of the allocator. *)
Ltac slia :=
  unfold POWER_SMALLEST, MAX_NUMBER_OF_SLAB_CLASSES, POWER_LARGEST, sizeof_item in *; lia.

(** ** The classes *)

(** The settings that [main] lets through, with an item size that is a multiple of the
    alignment; a factor above 1 is at least the next number of type [double]. *)
Record settings_ok (st : settings_t) : Prop := {
  so_chunk : 0 < chunk_size st < 2 ^ 31 - sizeof_item;
  so_max : 1024 ≤ item_size_max st ≤ 2 ^ 27;
  so_align : (CHUNK_ALIGN_BYTES | item_size_max st);
  so_factor : (1 + (1 # 4503599627370496) <= factor st)%Q
}.

(** The sizes of a class. *)
Record class_dims (st : settings_t) (p : slabclass_t) : Prop := {
  cd_align : (CHUNK_ALIGN_BYTES | size p);
  cd_size : sizeof_item < size p ≤ item_size_max st;
  cd_perslab : 1 ≤ perslab p;
  cd_fits : size p * perslab p ≤ item_size_max st
}.

(** Nothing but the sizes of a class has been set. *)
Definition fresh_class (p : slabclass_t) : Prop := set_size 0 (set_perslab 0 p) = zero_class.

(** The first [n] classes of [l] are made; they ascend up to [top]. *)
Record classes_made (st : settings_t) (l : list slabclass_t) (n top : Z) : Prop := {
  cm_length : zlen l = MAX_NUMBER_OF_SLAB_CLASSES;
  cm_fresh : ∀ i p, zlookup l i = Some p → fresh_class p;
  cm_dims : ∀ i p, POWER_SMALLEST ≤ i ≤ n → zlookup l i = Some p → class_dims st p;
  cm_mono : ∀ i j p q, POWER_SMALLEST ≤ i → i ≤ j ≤ n → zlookup l i = Some p → zlookup l j = Some q →
    size p ≤ size q;
  cm_top : ∀ i p, POWER_SMALLEST ≤ i ≤ n → zlookup l i = Some p → size p ≤ top
}.

Lemma align_up sz :
  0 < sz < 2 ^ 31 →
  let sz' := if sz mod CHUNK_ALIGN_BYTES =? 0 then sz
             else u32 (sz + (CHUNK_ALIGN_BYTES - sz mod CHUNK_ALIGN_BYTES)) in
  (CHUNK_ALIGN_BYTES | sz') ∧ sz ≤ sz' < sz + CHUNK_ALIGN_BYTES.
Proof.
  intros Hsz. unfold CHUNK_ALIGN_BYTES. pose proof (Z.mod_pos_bound sz 8 ltac:(lia)).
  destruct (Z.eqb_spec (sz mod 8) 0) as [He|He]; cbv zeta.
  - split; [by apply Z.mod_divide|lia].
  - unfold u32. rewrite wrapu_small by lia. split; [|lia]. exists (sz / 8 + 1).
    pose proof (Z.div_mod sz 8 ltac:(lia)). lia.
Qed.

(** The condition of the loop, and the next size. *)
Lemma factor_bounds st sz :
  settings_ok st → sizeof_item < sz →
  (inject_Z sz <= to_double (inject_Z (item_size_max st) / factor st))%Q →
  sz < item_size_max st ∧
  (inject_Z sz * factor st <= inject_Z (item_size_max st) * (9007199254740993 # 9007199254740992))%Q.
Proof.
  intros [_ Hm _ Hf] Hsz Hc. pose proof (inject_Z_pos (item_size_max st) ltac:(lia)) as HM.
  assert (0 < inject_Z (item_size_max st) / factor st)%Q as Hq by (apply Qlt_shift_div_l; lra).
  destruct (double_bounds _ Hq) as [_ Hd].
  assert (inject_Z sz * factor st <= inject_Z (item_size_max st) * (9007199254740993 # 9007199254740992))%Q as Hb.
  { assert (inject_Z (item_size_max st) == inject_Z (item_size_max st) / factor st * factor st)%Q as He
      by (field; lra).
    rewrite He at 1. set (q := (inject_Z (item_size_max st) / factor st)%Q) in *.
    assert (inject_Z sz * factor st <= q * (9007199254740993 # 9007199254740992) * factor st)%Q
      by (apply Qmult_le_compat_r; lra). lra. }
  split; [|done]. apply Z.nle_gt. intros Hle. rewrite Zle_Qle in Hle.
  assert (inject_Z (item_size_max st) * factor st <= inject_Z sz * factor st)%Q by (apply Qmult_le_compat_r; lra).
  assert (inject_Z (item_size_max st) * (1 + (1 # 4503599627370496)) <= inject_Z (item_size_max st) * factor st)%Q
    by (apply Qmult_le_l; done).
  lra.
Qed.

Lemma next_size st sz sz' :
  settings_ok st → sizeof_item < sz → sz ≤ sz' < sz + CHUNK_ALIGN_BYTES →
  (inject_Z sz * factor st <= inject_Z (item_size_max st) * (9007199254740993 # 9007199254740992))%Q →
  sz' ≤ Qfloor (to_double (inject_Z sz' * factor st)) < 2 ^ 31.
Proof.
  intros [_ Hm _ Hf] Hsz Hsz' Hb. unfold sizeof_item, CHUNK_ALIGN_BYTES in *.
  pose proof (inject_Z_pos sz' ltac:(lia)) as Hp.
  assert (inject_Z 49 <= inject_Z sz)%Q as H49 by (rewrite <- Zle_Qle; lia).
  assert (inject_Z sz' <= inject_Z sz + 8)%Q as H8.
  { change 8%Q with (inject_Z 8). rewrite <- inject_Z_plus, <- Zle_Qle. lia. }
  assert (inject_Z (item_size_max st) <= inject_Z (2 ^ 27))%Q as HM by (rewrite <- Zle_Qle; lia).
  change (inject_Z 49) with 49%Q in *. change (inject_Z (2 ^ 27)) with 134217728%Q in *.
  assert (49 * factor st <= inject_Z sz * factor st)%Q by (apply Qmult_le_compat_r; lra).
  assert (inject_Z sz' * factor st <= (inject_Z sz + 8) * factor st)%Q by (apply Qmult_le_compat_r; lra).
  assert (inject_Z sz' * (1 + (1 # 4503599627370496)) <= inject_Z sz' * factor st)%Q by (by apply Qmult_le_l).
  assert (0 < inject_Z sz' * factor st)%Q as Hpos by lra.
  destruct (double_bounds _ Hpos) as [_ Hd]. split.
  - rewrite <- (Qfloor_Z sz') at 1. apply Qfloor_resp_le. apply rnd_ge_integer; [lia| |lra].
    split; [lia|]. assert (inject_Z sz' < inject_Z (2 ^ 53))%Q as Hlt; [|by rewrite <- Zlt_Qlt in Hlt].
    change (inject_Z (2 ^ 53)) with 9007199254740992%Q. lra.
  - rewrite Zlt_Qlt. eapply Qle_lt_trans; [apply Qfloor_le|]. change (inject_Z (2 ^ 31)) with 2147483648%Q. lra.
Qed.

Lemma made_class st l i sz p :
  classes_made st l i sz → zlookup l (i + 1) = Some p → 0 ≤ i →
  (CHUNK_ALIGN_BYTES | sz) → sizeof_item < sz ≤ item_size_max st →
  ∀ sz', sz ≤ sz' →
  classes_made st (zinsert (i + 1) (set_perslab (item_size_max st / sz) (set_size sz p)) l) (i + 1) sz'.
Proof.
  intros [Hl Hf Hd Hm Ht] Hp Hi Ha Hsz sz' Hsz'. unfold sizeof_item in *.
  set (q := set_perslab _ _). assert (∀ j x, zlookup (zinsert (i + 1) q l) j = Some x →
    (j = i + 1 ∧ x = q) ∨ (j ≠ i + 1 ∧ zlookup l j = Some x)) as Hlk.
  { intros j x. rewrite (zlookup_insert _ _ _ _ _ Hp). destruct (decide (i + 1 = j)) as [<-|Hne]; [|by right].
    intros [= <-]. by left. }
  assert (class_dims st q) as Hq.
  { split; cbn; [done|unfold sizeof_item; slia| |].
    - apply Z.div_le_lower_bound; slia.
    - apply Z.mul_div_le. slia. }
  unfold POWER_SMALLEST in *. split.
  - by rewrite zlen_insert.
  - intros j x [[-> ->]|[_ Hx]]%Hlk; [|by eapply Hf]. specialize (Hf _ _ Hp). by destruct p.
  - intros j x Hj [[-> ->]|[Hne Hx]]%Hlk; [done|]. apply (Hd j); [slia|done].
  - intros j k x y Hj Hjk [[-> ->]|[Hne Hx]]%Hlk [[-> ->]|[Hne' Hy]]%Hlk; [slia|slia| |].
    + cbn. apply (Ht j); [slia|done].
    + apply (Hm j k); [slia|slia|done|done].
  - intros j x Hj [[-> ->]|[Hne Hx]]%Hlk; [done|]. pose proof (Ht j x ltac:(slia) Hx). slia.
Qed.

Lemma zlookup_class {A} (l : list A) i :
  zlen l = MAX_NUMBER_OF_SLAB_CLASSES → 0 ≤ i ≤ POWER_LARGEST → ∃ p, zlookup l i = Some p.
Proof. intros Hl Hi. apply zlookup_is_Some. rewrite Hl. unfold MAX_NUMBER_OF_SLAB_CLASSES. slia. Qed.

Lemma init_loop_spec fuel st i sz l :
  settings_ok st → 0 ≤ i < POWER_LARGEST → POWER_LARGEST - i ≤ Z.of_nat fuel →
  sizeof_item < sz < 2 ^ 31 → classes_made st l i sz → (i = 0 ∨ True) →
  ∃ l' n, init_loop fuel st i sz l = Ok (l', n) ∧ i < n ≤ POWER_LARGEST ∧
    classes_made st l' (n - 1) (item_size_max st).
Proof.
  intros Hst. revert i sz l. induction fuel as [|fuel IH]; intros i sz l Hi Hf Hsz Hl _; [slia|].
  cbn [init_loop]. assert (classes_made st l i (item_size_max st)) as Hend.
  { destruct Hl as [H1 H2 H3 H4 H5]. split; try done. intros j p Hj Hp. apply (cd_size st p), (H3 j); [slia|done]. }
  destruct (Z.ltb_spec (i + 1) POWER_LARGEST) as [Hlt|Hge]; cbn [andb];
    [|exists l, (i + 1); split; [done|]; split; [slia|by rewrite Z.add_simpl_r]].
  destruct (Qle_bool _ _) eqn:Hq; cbn [andb];
    [|exists l, (i + 1); split; [done|]; split; [slia|by rewrite Z.add_simpl_r]].
  apply Qle_bool_iff in Hq. destruct (factor_bounds st sz Hst ltac:(slia) Hq) as [Hmax Hb].
  pose proof (align_up sz) as Hal. unfold sizeof_item in *. specialize (Hal ltac:(slia)). cbv zeta in Hal.
  set (sz1 := if sz mod CHUNK_ALIGN_BYTES =? 0 then sz else _) in *. destruct Hal as [Hdiv Hsz1].
  rewrite (proj2 (Z.eqb_neq sz1 0)) by slia.
  destruct (zlookup_class l (i + 1)) as [p Hp]; [apply Hl|slia|].
  rewrite (vec_at_Ok _ _ _ Hp). cbn [mbind result_bind].
  destruct (next_size st sz sz1 Hst) as [Hnx1 Hnx2]; [unfold sizeof_item; slia|done|done|].
  set (product := Qfloor _) in *. rewrite (proj2 (Z.ltb_lt product (2 ^ 32))) by slia.
  assert (sz1 ≤ item_size_max st) as Hsz1max.
  { destruct (so_align _ Hst) as [k Hk], Hdiv as [k' Hk']. unfold CHUNK_ALIGN_BYTES in *. slia. }
  destruct (IH (i + 1) product (zinsert (i + 1) (set_perslab (item_size_max st / sz1) (set_size sz1 p)) l))
    as (l' & n & Hok & Hn & Hl'); [slia|slia|slia| |by right|].
  - apply made_class; [|done|slia|done|unfold sizeof_item; slia|done].
    destruct Hl as [H1 H2 H3 H4 H5]. split; try done. intros j q Hj Hx. specialize (H5 j q Hj Hx). slia.
  - exists l', n. split; [done|]. split; [slia|done].
Qed.

(** The classes of an initialised allocator: the last one has the maximal size. *)
Record geometry (st : settings_t) (l : list slabclass_t) (largest : Z) : Prop := {
  ge_length : zlen l = MAX_NUMBER_OF_SLAB_CLASSES;
  ge_largest : POWER_SMALLEST ≤ largest ≤ POWER_LARGEST;
  ge_dims : ∀ i p, POWER_SMALLEST ≤ i ≤ largest → zlookup l i = Some p → class_dims st p;
  ge_mono : ∀ i j p q, POWER_SMALLEST ≤ i → i ≤ j ≤ largest →
    zlookup l i = Some p → zlookup l j = Some q → size p ≤ size q;
  ge_last : ∀ p, zlookup l largest = Some p → size p = item_size_max st ∧ perslab p = 1
}.

Lemma init_classes_spec st :
  settings_ok st →
  ∃ l n, init_classes st = Ok (l, n) ∧ geometry st l n ∧ ∀ i p, zlookup l i = Some p → fresh_class p.
Proof.
  intros Hst. unfold init_classes. pose proof (so_chunk _ Hst) as Hc. unfold sizeof_item in *.
  assert (u32 (48 + chunk_size st) = 48 + chunk_size st) as -> by (apply wrapu_small; slia).
  set (zeros := replicate _ zero_class).
  assert (classes_made st zeros 0 (48 + chunk_size st)) as H0.
  { split; unfold POWER_SMALLEST; try slia.
    - unfold zlen, zeros. by rewrite length_replicate.
    - intros i p ->%zlookup_replicate. done. }
  destruct (init_loop_spec (Z.to_nat POWER_LARGEST) st 0 (48 + chunk_size st) zeros) as (l & n & Hok & Hn & Hl);
    [done|unfold POWER_LARGEST; slia|unfold POWER_LARGEST; slia|unfold sizeof_item; slia|done|by left|].
  change (POWER_SMALLEST - 1) with 0. rewrite Hok. cbn [mbind result_bind].
  destruct (zlookup_class l n) as [p Hp]; [apply Hl|slia|]. rewrite (vec_at_Ok _ _ _ Hp). cbn [mbind result_bind].
  pose proof (so_max _ Hst) as Hmax. eexists _, n. split; [done|].
  set (q := set_perslab 1 _).
  assert (∀ j x, zlookup (zinsert n q l) j = Some x →
    (j = n ∧ x = q) ∨ (j ≠ n ∧ zlookup l j = Some x)) as Hlk.
  { intros j x. rewrite (zlookup_insert _ _ _ _ _ Hp). destruct (decide (n = j)) as [<-|Hne]; [|by right].
    intros [= <-]. by left. }
  assert (class_dims st q) as Hq.
  { split; cbn; [apply Hst|unfold sizeof_item; slia|slia|slia]. }
  destruct Hl as [H1 H2 H3 H4 H5]. unfold POWER_SMALLEST in *. split; [split|].
  - by rewrite zlen_insert.
  - unfold POWER_SMALLEST. slia.
  - intros j x Hj [[-> ->]|[Hne Hx]]%Hlk; [done|]. apply (H3 j); [slia|done].
  - intros j k x y Hj Hjk [[-> ->]|[Hne Hx]]%Hlk [[-> ->]|[Hne' Hy]]%Hlk; [slia|slia| |].
    + cbn. apply (H5 j); [slia|done].
    + apply (H4 j k); [slia|slia|done|done].
  - intros x [[_ ->]|[Hne _]]%Hlk; done.
  - intros j x [[-> ->]|[_ Hx]]%Hlk; [|by eapply H2]. specialize (H2 _ _ Hp). by destruct p.
Qed.

(** The classes of [slabs_init]: for every admissible setting the computation with
    rounding in [double] ends with at most 200 classes, every chunk is larger than the
    header of an item and aligned, a page holds at least one chunk and no more than fit
    into it, the sizes ascend, and the last class takes items of the maximal size. *)
Theorem slabs_init_geometry (st : settings_t) (Hst : settings_ok st) :
  ∃ l n, init_classes st = Ok (l, n) ∧ geometry st l n.
Proof. destruct (init_classes_spec st Hst) as (l & n & Hok & Hg & _). by exists l, n. Qed.

(** ** The class for a size *)

Lemma clsid_loop_spec fuel st pl sz i :
  geometry st (slabclass pl) (power_largest pl) →
  POWER_SMALLEST ≤ i ≤ power_largest pl → power_largest pl - i < Z.of_nat fuel →
  (∀ j p, POWER_SMALLEST ≤ j < i → zlookup (slabclass pl) j = Some p → size p < sz) →
  ∃ r, clsid_loop fuel pl sz i = Ok r ∧
    (item_size_max st < sz ∧ r = 0 ∨
     POWER_SMALLEST ≤ r ≤ power_largest pl ∧ (∀ p, zlookup (slabclass pl) r = Some p → sz ≤ size p) ∧
     ∀ j p, POWER_SMALLEST ≤ j < r → zlookup (slabclass pl) j = Some p → size p < sz).
Proof.
  intros Hg. pose proof (ge_largest _ _ _ Hg) as Hlg.
  revert i. induction fuel as [|fuel IH]; intros i Hi Hf Hb; [slia|]. cbn [clsid_loop].
  unfold POWER_SMALLEST in *.
  destruct (zlookup_class (slabclass pl) i) as [p Hp]; [apply Hg|slia|].
  rewrite (vec_at_Ok _ _ _ Hp). cbn [mbind result_bind]. destruct (Z.ltb_spec (size p) sz) as [Hlt|Hge].
  - destruct (Z.eqb_spec i (power_largest pl)) as [->|Hne].
    + exists 0. split; [done|]. left. split; [|done]. by rewrite <- (proj1 (ge_last _ _ _ Hg p Hp)).
    + apply IH; [slia|slia|]. intros j q Hj Hq. destruct (decide (j = i)) as [->|]; [congruence|].
      apply (Hb j); [slia|done].
  - exists i. split; [done|]. right. split; [done|]. split; [|done]. intros q Hq. congruence.
Qed.

(** [slabs_clsid] ends and returns the first class whose chunks are large enough; 0,
    the class of no chunk, exactly for a size of 0 and for sizes above the maximum. *)
Theorem slabs_clsid_smallest (st : settings_t) (pl : pool) (sz : Z)
  (Hg : geometry st (slabclass pl) (power_largest pl)) (Hsz : 0 ≤ sz) :
  ∃ r, slabs_clsid_of sz pl = Ok r ∧
    if (sz =? 0) || (item_size_max st <? sz) then r = 0
    else POWER_SMALLEST ≤ r ≤ power_largest pl ∧
         (∃ p, zlookup (slabclass pl) r = Some p ∧ sz ≤ size p) ∧
         ∀ j p, POWER_SMALLEST ≤ j < r → zlookup (slabclass pl) j = Some p → size p < sz.
Proof.
  unfold slabs_clsid_of. destruct (Z.eqb_spec sz 0); [by exists 0|]. cbn [orb].
  pose proof (ge_largest _ _ _ Hg) as Hlg. unfold POWER_SMALLEST in *.
  destruct (clsid_loop_spec (Z.to_nat MAX_NUMBER_OF_SLAB_CLASSES) st pl sz 1) as (r & Hr & Hc);
    [done|unfold POWER_SMALLEST; slia|unfold MAX_NUMBER_OF_SLAB_CLASSES, POWER_LARGEST in *; slia|unfold POWER_SMALLEST; slia|].
  exists r. split; [done|]. unfold POWER_SMALLEST in *. destruct Hc as [[Hbig ->]|(Hr1 & Hr2 & Hr3)].
  - by rewrite (proj2 (Z.ltb_lt _ _) Hbig).
  - destruct (zlookup_class (slabclass pl) r) as [p Hp]; [apply Hg|slia|]. pose proof (Hr2 p Hp).
    rewrite (proj2 (Z.ltb_ge _ _)).
    + split; [done|]. split; [by exists p|done].
    + pose proof (cd_size _ _ (ge_dims _ _ _ Hg r p Hr1 Hp)). slia.
Qed.

(** *** The default settings *)
Definition default_settings : settings_t := mkSettings 48 (1024 * 1024) (5 # 4) false 0 true true.

Lemma default_settings_ok : settings_ok default_settings.
Proof. split; cbn; [unfold sizeof_item; slia|slia|by exists 131072|lra]. Qed.

Example slabs_init_geometry_witness :
  ∃ l n, init_classes default_settings = Ok (l, n) ∧ geometry default_settings l n.
Proof. apply (slabs_init_geometry default_settings). apply default_settings_ok. Defined.

(** 42 classes; an item of 100 bytes goes to the second one, of 120 bytes. *)
Example default_classes :
  match init_classes default_settings with
  | Ok (l, n) => n = 42 ∧ (size <$> take 5 (drop 1 l)) = [96; 120; 152; 192; 240]
  | Fail _ => False
  end.
Proof. vm_compute. by split. Qed.

Definition default_pool : pool :=
  match slabs_init default_settings 67108864 false 0 (λ _, mkEnv 0 true) None with
  | Ok ar => the_pool ar
  | Fail _ => mkPool [] 0 0 0 0 0 0 zero_rebal 0 0
  end.

Example slabs_clsid_smallest_witness : slabs_clsid_of 100 default_pool = Ok 2.
Proof.
  destruct (slabs_clsid_smallest default_settings default_pool 100) as (r & Hr & _); [|slia|].
  - destruct (slabs_init_geometry default_settings default_settings_ok) as (l & n & Hok & Hg).
    assert (slabclass default_pool = l ∧ power_largest default_pool = n) as [-> ->]; [|exact Hg].
    unfold default_pool, slabs_init. rewrite Hok. cbn [mbind result_bind]. split; reflexivity.
  - exact (eq_trans Hr (eq_trans (eq_sym Hr) ltac:(vm_compute; reflexivity))).
Defined.

(** ** Settings that break the allocator *)

(** A growth factor that does not get the chunks past the alignment yields 200 classes:
    [power_largest] is then 200, which the arrays of the queues, with [LARGEST_ID] = 200
    elements, do not have ([Items]); nearly all classes have the same size. *)
Lemma small_factor_classes :
  match init_classes (mkSettings 48 (1024 * 1024) (101 # 100) false 0 true true) with
  | Ok (l, n) => n = POWER_LARGEST ∧ (size <$> zlookup l 1) = Some 96 ∧ (size <$> zlookup l 199) = Some 96
  | Fail _ => False
  end.
Proof. vm_compute. done. Qed.

(** [main] refuses a chunk size of 0 and no other: with [-n -48] the size of the chunks
    is 0, and [slabs_init] divides by it. *)
Lemma negative_chunk_size_divides_by_zero :
  init_classes (mkSettings (-48) (1024 * 1024) (5 # 4) false 0 true true) = Fail DivisionByZero.
Proof. vm_compute. reflexivity. Qed.

End SlabsTheorems.
