(* ===== verification/SlabsAlloc.v ===== *)
(** * Allocation and release of chunks

    The invariant of memcached's slab allocator and its operations on chunks and pages. *)

From S2P Require Import Prelude Bytes ItemHeap Rounding Slabs SlabsTheorems.
From stdpp Require Import base gmap list.
From Stdlib Require Import ZArith QArith Lia.

Local Open Scope Z_scope.

Module SlabsAlloc.
Import ItemHeap Slabs SlabsTheorems.

(** ** Single steps *)

Lemma run_load ar p it : heap ar !! p = Some it → load p ar = Ret it ar.
Proof. intros Hp. unfold load. by rewrite (get_item_Ok _ _ _ Hp). Qed.
Lemma run_class ar id p : zlookup (slabclass (the_pool ar)) id = Some p → class_at id ar = Ret p ar.
Proof. intros Hp. unfold class_at. rewrite M_bind_eq. cbn. by rewrite (vec_at_Ok _ _ _ Hp). Qed.
Lemma run_slab_assert b ar : b = true → assert b ar = Ret tt ar.
Proof. by intros ->. Qed.
Lemma run_slab_heap f ar h : f (heap ar) = Ok h → on_heap f ar = Ret tt (mkArena h (the_pool ar)).
Proof. intros Hf. unfold on_heap. by rewrite Hf. Qed.

(** A class is changed. *)
Definition class_upd (id : Z) (p : slabclass_t) (pl : pool) : pool :=
  set_slabclass (zinsert id p (slabclass pl)) pl.
Lemma run_upd_class ar id f p :
  zlookup (slabclass (the_pool ar)) id = Some p →
  upd_class id f ar = Ret tt (mkArena (heap ar) (class_upd id (f p) (the_pool ar))).
Proof. intros Hp. unfold upd_class. by rewrite (M_bind_ret _ _ _ _ _ (run_class _ _ _ Hp)). Qed.

Lemma class_upd_same id p q pl :
  zlookup (slabclass pl) id = Some q → zlookup (slabclass (class_upd id p pl)) id = Some p.
Proof. apply zlookup_insert_eq. Qed.
Lemma class_upd_other id j p pl : id ≠ j → zlookup (slabclass (class_upd id p pl)) j = zlookup (slabclass pl) j.
Proof. apply zlookup_insert_ne. Qed.
Lemma zinsert_twice {A} (l : list A) i x y : zinsert i x (zinsert i y l) = zinsert i x l.
Proof. unfold zinsert. destruct (0 <=? i); [|done]. apply list_insert_insert_eq. Qed.
Lemma class_upd_twice id p q pl : class_upd id p (class_upd id q pl) = class_upd id p pl.
Proof. unfold class_upd. cbn. by rewrite zinsert_twice. Qed.

Lemma class_upd_id id p pl : zlookup (slabclass pl) id = Some p → class_upd id p pl = pl.
Proof.
  unfold class_upd, zinsert, zlookup. intros Hp. destruct (0 <=? id); [|done].
  rewrite list_insert_id by done. by destruct pl.
Qed.

(** ** The invariant *)

Section Invariant.

(** The sizes of the classes, which never change. *)
Context (st : settings_t) (largest : Z) (sz ps : Z → Z).

Definition valid_class (id : Z) : Prop := POWER_SMALLEST ≤ id ≤ largest.

Record sizes_ok : Prop := {
  si_largest : POWER_SMALLEST ≤ largest ≤ POWER_LARGEST;
  si_max : 0 < item_size_max st ≤ 2 ^ 27;
  si_size : ∀ id, valid_class id → sizeof_item < sz id ≤ item_size_max st;
  si_perslab : ∀ id, valid_class id → 1 ≤ ps id ∧ sz id * ps id ≤ item_size_max st;
  si_mono : ∀ i j, valid_class i → valid_class j → i ≤ j → sz i ≤ sz j
}.
Context (Hsizes : sizes_ok).

(** The chunks of the page at [a] of a class, and the length of the page. *)
Definition chunks (a id : Z) : list Z := (λ x, a + Z.of_nat x * sz id) <$> seq 0 (Z.to_nat (ps id)).
Definition page_len (id : Z) : Z := if slab_reassign st then item_size_max st else sz id * ps id.

(** A free chunk. *)
Record free_item (it : item) : Prop := {
  fi_clsid : slabs_clsid it = 0;
  fi_refcount : refcount it = 0;
  fi_slabbed : has_flag ITEM_SLABBED it = true;
  fi_linked : has_flag ITEM_LINKED it = false
}.

(** The free list [fl] of a class. *)
Record list_ok (h : heap_t) (p : slabclass_t) (fl : list Z) : Prop := {
  lo_list : dlist h fl;
  lo_slots : slots p = first fl;
  lo_curr : sl_curr p = u32 (zlen fl);
  lo_free : ∀ x, x ∈ fl → ∃ it, h !! x = Some it ∧ free_item it
}.

(** The free lists of the classes are [F]; a chunk is in one of them at most. *)
Record lists_ok (ar : arena) (F : Z → list Z) : Prop := {
  ls_length : zlen (slabclass (the_pool ar)) = MAX_NUMBER_OF_SLAB_CLASSES;
  ls_largest : power_largest (the_pool ar) = largest;
  ls_dims : ∀ id p, valid_class id → zlookup (slabclass (the_pool ar)) id = Some p →
    size p = sz id ∧ perslab p = ps id;
  ls_list : ∀ id p, valid_class id → zlookup (slabclass (the_pool ar)) id = Some p →
    list_ok (heap ar) p (F id);
  ls_disjoint : ∀ i j x, valid_class i → valid_class j → x ∈ F i → x ∈ F j → i = j
}.

(** The pages of a class. *)
Record list_pages (p : slabclass_t) (P : gmap Z Z) (id : Z) : Prop := {
  lp_capacity : zlen (slab_list p) = list_size p;
  lp_slabs : 0 ≤ slabs p ≤ list_size p;
  lp_nodup : NoDup (ztake (slabs p) (slab_list p));
  lp_pages : ∀ a, a ∈ ztake (slabs p) (slab_list p) ↔ P !! a = Some id
}.

(** [P] says which pages there are and to which class they belong. *)
Record pages_ok (P : gmap Z Z) : Prop := {
  pg_valid : ∀ a id, P !! a = Some id → valid_class id ∧ 0 < a;
  pg_disjoint : ∀ a b i j, P !! a = Some i → P !! b = Some j → a ≠ b →
    a + page_len i ≤ b ∨ b + page_len j ≤ a
}.

Record pool_ok (ar : arena) (F : Z → list Z) (P : gmap Z Z) : Prop := {
  po_lists : lists_ok ar F;
  po_pages : pages_ok P;
  po_class : ∀ id p, valid_class id → zlookup (slabclass (the_pool ar)) id = Some p → list_pages p P id;
  po_chunks : ∀ x, is_Some (heap ar !! x) ↔ ∃ a id, P !! a = Some id ∧ x ∈ chunks a id;
  po_free : ∀ id x, valid_class id → x ∈ F id → ∃ a, P !! a = Some id ∧ x ∈ chunks a id;
  po_region : mem_base (the_pool ar) ≠ 0 →
    0 < mem_current (the_pool ar) ∧ ∀ a id, P !! a = Some id → a + page_len id ≤ mem_current (the_pool ar)
}.

(** ** Chunks and pages *)

Lemma elem_of_chunks a id x :
  x ∈ chunks a id ↔ ∃ n, 0 ≤ n < ps id ∧ x = a + n * sz id.
Proof.
  unfold chunks. rewrite list_elem_of_fmap. split.
  - intros (n & -> & Hn%elem_of_seq). exists (Z.of_nat n). split; [lia|done].
  - intros (n & Hn & ->). exists (Z.to_nat n). rewrite Z2Nat.id by lia. split; [done|]. apply elem_of_seq. lia.
Qed.

Lemma page_len_fits id : valid_class id → sz id * ps id ≤ page_len id.
Proof. intros Hv. unfold page_len. destruct (slab_reassign st); [|lia]. by apply Hsizes. Qed.

(** A chunk lies within its page. *)
Lemma chunk_in_page a id x : valid_class id → x ∈ chunks a id → a ≤ x ∧ x + sz id ≤ a + page_len id.
Proof.
  intros Hv (n & Hn & ->)%elem_of_chunks. pose proof (page_len_fits id Hv).
  destruct (si_size Hsizes id Hv) as [Hs _]. unfold sizeof_item in Hs. nia.
Qed.

Lemma chunks_nodup a id : valid_class id → NoDup (chunks a id).
Proof.
  intros Hv. destruct (si_size Hsizes id Hv) as [Hs _]. unfold sizeof_item in Hs.
  apply NoDup_fmap_2_strong; [|apply NoDup_seq]. intros x y _ _ He. nia.
Qed.

(** A chunk is in one page. *)
Lemma chunk_page P a b i j x :
  pages_ok P → P !! a = Some i → P !! b = Some j → x ∈ chunks a i → x ∈ chunks b j → a = b ∧ i = j.
Proof.
  intros HP Ha Hb Hx Hy. destruct (pg_valid _ HP a i Ha) as [Hvi _]. destruct (pg_valid _ HP b j Hb) as [Hvj _].
  destruct (chunk_in_page a i x Hvi Hx), (chunk_in_page b j x Hvj Hy).
  pose proof (proj1 (si_size Hsizes i Hvi)). pose proof (proj1 (si_size Hsizes j Hvj)). unfold sizeof_item in *.
  destruct (decide (a = b)) as [->|Hne]; [split; [done|congruence]|].
  destruct (pg_disjoint _ HP a b i j Ha Hb Hne); lia.
Qed.

(** Chunks do not overlap: not within a page, and not across pages. *)
Lemma chunks_apart P a b i j x y :
  pages_ok P → P !! a = Some i → P !! b = Some j → x ∈ chunks a i → y ∈ chunks b j → x ≠ y →
  x + sz i ≤ y ∨ y + sz j ≤ x.
Proof.
  intros HP Ha Hb Hx Hy Hne. destruct (pg_valid _ HP a i Ha) as [Hvi _]. destruct (pg_valid _ HP b j Hb) as [Hvj _].
  destruct (decide (a = b)) as [->|Hab].
  - assert (i = j) as -> by congruence. apply elem_of_chunks in Hx as (n & Hn & ->), Hy as (m & Hm & ->).
    destruct (si_size Hsizes j Hvj) as [Hs _]. unfold sizeof_item in Hs.
    destruct (decide (n = m)) as [->|]; [done|]. destruct (decide (n < m)); [left|right]; nia.
  - destruct (chunk_in_page a i x Hvi Hx), (chunk_in_page b j y Hvj Hy).
    destruct (pg_disjoint _ HP a b i j Ha Hb Hab); lia.
Qed.

Lemma valid_lookup ar F id :
  lists_ok ar F → valid_class id → ∃ p, zlookup (slabclass (the_pool ar)) id = Some p.
Proof.
  intros Hl [H1 H2]. apply zlookup_class; [apply Hl|]. pose proof (si_largest Hsizes). slia.
Qed.

(** ** Release *)

(** The free list of one class changes. *)
Definition upd_list (F : Z → list Z) (id : Z) (l : list Z) : Z → list Z :=
  λ j, if decide (j = id) then l else F j.

Lemma upd_list_eq F id l : upd_list F id l id = l.
Proof. unfold upd_list. by rewrite decide_True. Qed.
Lemma upd_list_ne F id l j : j ≠ id → upd_list F id l j = F j.
Proof. intros Hj. unfold upd_list. by rewrite decide_False. Qed.
Lemma upd_list_elem F id l j x : x ∈ upd_list F id l j ↔ (j = id ∧ x ∈ l) ∨ (j ≠ id ∧ x ∈ F j).
Proof.
  unfold upd_list. destruct (decide (j = id)) as [->|Hj].
  - split; [by left|]. by intros [[_ ?]|[? _]].
  - split; [by right|]. by intros [[? _]|[_ ?]].
Qed.

Lemma lists_ok_ext ar F F' : lists_ok ar F → (∀ j, F' j = F j) → lists_ok ar F'.
Proof.
  intros [H1 H2 H3 H4 H5] HF. split; try done.
  - intros id p Hv Hp. rewrite HF. by apply H4.
  - intros i j x Hi Hj. rewrite !HF. by apply H5.
Qed.

(** A class changes, and with it the heap: what has to be shown. *)
Lemma lists_ok_upd ar F id p p' h l :
  lists_ok ar F → valid_class id → zlookup (slabclass (the_pool ar)) id = Some p →
  size p' = size p → perslab p' = perslab p →
  list_ok h p' l → (∀ j, valid_class j → j ≠ id → ∀ x, x ∈ F j → h !! x = heap ar !! x) →
  (∀ x j, x ∈ l → valid_class j → j ≠ id → x ∉ F j) →
  lists_ok (mkArena h (class_upd id p' (the_pool ar))) (upd_list F id l).
Proof.
  intros [H1 H2 H3 H4 H5] Hv Hp Hs Hpl Hlo Hh Hd. split; cbn.
  - by rewrite zlen_insert.
  - done.
  - intros j q Hj Hq. rewrite (zlookup_insert _ _ _ _ _ Hp) in Hq. destruct (decide (id = j)) as [<-|Hne].
    + injection Hq as <-. rewrite Hs, Hpl. by apply H3.
    + by apply H3.
  - intros j q Hj Hq. rewrite (zlookup_insert _ _ _ _ _ Hp) in Hq. destruct (decide (id = j)) as [<-|Hne].
    + injection Hq as <-. by rewrite upd_list_eq.
    + rewrite upd_list_ne by done. destruct (H4 j q Hj Hq) as [L1 L2 L3 L4]. split; try done.
      * eapply dlist_same; [done|]. intros x Hx. by apply (Hh j).
      * intros x Hx. rewrite (Hh j) by done. by apply L4.
  - intros i j x Hi Hj [[-> Hx]|[Hne Hx]]%upd_list_elem [[-> Hy]|[Hne' Hy]]%upd_list_elem.
    + done.
    + by destruct (Hd x j Hx Hj Hne').
    + by destruct (Hd x i Hy Hi Hne).
    + by apply (H5 i j x).
Qed.

Lemma unlinked_free it it' : unlinked it' = unlinked it → free_item it → free_item it'.
Proof.
  intros He [F1 F2 F3 F4].
  assert (∀ {A} (f : item → A), (∀ i, f (unlinked i) = f i) → f it' = f it) as Hf.
  { intros A f Hu. by rewrite <- (Hu it), <- (Hu it'), He. }
  split.
  - by rewrite (Hf _ slabs_clsid).
  - by rewrite (Hf _ refcount).
  - by rewrite (Hf _ (has_flag ITEM_SLABBED)).
  - by rewrite (Hf _ (has_flag ITEM_LINKED)).
Qed.

(** The class after a release. *)
Definition class_freed (ptr size_ : Z) (p : slabclass_t) : slabclass_t :=
  set_slots ptr (set_sl_curr (u32 (sl_curr p + 1)) (set_requested (u64 (requested p - size_)) p)).

Lemma do_slabs_free_spec ar F id p ptr size_ it :
  lists_ok ar F → valid_class id → zlookup (slabclass (the_pool ar)) id = Some p →
  heap ar !! ptr = Some it → ptr ≠ 0 → slabs_clsid it = 0 → refcount it = 0 → has_flag ITEM_LINKED it = false →
  (∀ j, valid_class j → ptr ∉ F j) →
  ∃ h, do_slabs_free ptr size_ id ar = Ret tt (mkArena h (class_upd id (class_freed ptr size_ p) (the_pool ar))) ∧
    lists_ok (mkArena h (class_upd id (class_freed ptr size_ p) (the_pool ar))) (upd_list F id (ptr :: F id)) ∧
    relinked (ptr :: F id) (<[ptr := add_flag ITEM_SLABBED it]> (heap ar)) h.
Proof.
  intros Hl Hv Hp Hit Hptr Hcl Hrc Hln Hnew. destruct (ls_list _ _ Hl id p Hv Hp) as [L1 L2 L3 L4].
  set (h0 := <[ptr := add_flag ITEM_SLABBED it]> (heap ar)).
  assert (∀ x j, valid_class j → x ∈ F j → h0 !! x = heap ar !! x) as Hh0.
  { intros x j Hj Hx. apply lookup_insert_ne. intros <-. by apply (Hnew j). }
  destruct (link_front_spec h0 (F id) ptr (add_flag ITEM_SLABBED it)) as (h & Hlf & Hd & Hr).
  - apply (dlist_same (heap ar)); [done|]. intros x Hx. by apply (Hh0 x id).
  - by apply Hnew.
  - done.
  - apply lookup_insert_eq.
  - exists h. split; [|split; [|done]].
    + unfold do_slabs_free. rewrite (M_bind_ret _ _ _ _ _ (run_load _ _ _ Hit)), Hcl.
      erewrite M_bind_ret by (by apply run_slab_assert). erewrite M_bind_ret by reflexivity.
      cbn [compose]. rewrite (ls_largest _ _ Hl).
      erewrite M_bind_ret by (apply run_slab_assert; apply andb_true_iff; split; apply Z.leb_le; apply Hv).
      rewrite (M_bind_ret _ _ _ _ _ (run_class _ _ _ Hp)).
      erewrite M_bind_ret by (apply run_slab_heap; by apply upd_item_Ok).
      erewrite M_bind_ret by (apply run_slab_heap; cbn [heap]; rewrite L2; exact Hlf).
      exact (run_upd_class (mkArena h (the_pool ar)) id _ p Hp).
    + apply (lists_ok_upd ar F id p); try done.
      * split; cbn; [done|done| |].
        -- rewrite L3, u32_add_l. f_equal. rewrite zlen_cons. lia.
        -- intros x [->|Hx]%elem_of_cons.
           ++ destruct (relinked_item _ _ _ ptr _ Hr (lookup_insert_eq _ _ _)) as (it' & Hit' & Hu).
              exists it'. split; [done|]. eapply unlinked_free; [exact Hu|].
              split; [done|done| |]; rewrite has_flag_add by auto; [done|]. by rewrite Hln.
           ++ destruct (L4 x Hx) as (ix & Hix & Hfx). rewrite <- (Hh0 x id Hv Hx) in Hix.
              destruct (relinked_item _ _ _ x _ Hr Hix) as (it' & Hit' & Hu). exists it'. split; [done|].
              by eapply unlinked_free.
      * intros j Hj Hne x Hx. rewrite (rl_other _ _ _ Hr); [by apply (Hh0 x j)|].
        intros [->|Hx']%elem_of_cons; [by apply (Hnew j)|]. apply Hne. by apply (ls_disjoint _ _ Hl j id x).
      * intros x j [->|Hx]%elem_of_cons Hj Hne; [by apply Hnew|]. intros Hx'. apply Hne.
        by apply (ls_disjoint _ _ Hl j id x).
Qed.

(** What the other operations on the pool keep: the request of the rebalancing thread, and
    of every class the pages that it has. *)
Record class_frame (p p' : slabclass_t) : Prop := {
  cf_killing : killing p' = killing p;
  cf_slabs : slabs p ≤ slabs p';
  cf_pages : ztake (slabs p) (slab_list p') = ztake (slabs p) (slab_list p)
}.
Record pool_frame (pl pl' : pool) : Prop := {
  pf_rebal : slab_rebal pl' = slab_rebal pl;
  pf_base : mem_base pl' = mem_base pl;
  pf_pick : pick_cur pl' = pick_cur pl;
  pf_signal : slab_rebalance_signal pl' = slab_rebalance_signal pl;
  pf_class : ∀ id p, zlookup (slabclass pl) id = Some p →
    ∃ p', zlookup (slabclass pl') id = Some p' ∧ class_frame p p'
}.

Lemma class_frame_refl p : class_frame p p.
Proof. split; [done|lia|done]. Qed.
#[local] Instance pool_frame_refl : Reflexive pool_frame.
Proof. intros pl. split; [done..|]. intros id p Hp. exists p. split; [done|apply class_frame_refl]. Qed.
#[local] Instance pool_frame_trans : Transitive pool_frame.
Proof.
  intros pl1 pl2 pl3 [R1 B1 K1 S1 C1] [R2 B2 K2 S2 C2]. split; [congruence..|]. intros id p Hp.
  destruct (C1 id p Hp) as (p2 & Hp2 & [Q1 L1 P1]). destruct (C2 id p2 Hp2) as (p3 & Hp3 & [Q2 L2 P2]).
  exists p3. split; [done|]. split; [congruence|lia|].
  rewrite <- P1, <- (ztake_ztake_le (slabs p) (slabs p2) (slab_list p2)), <- P2 by done.
  by rewrite ztake_ztake_le.
Qed.

Lemma pool_frame_upd pl id p p' :
  zlookup (slabclass pl) id = Some p → class_frame p p' → pool_frame pl (class_upd id p' pl).
Proof.
  intros Hp Hf. split; [done..|]. intros j q Hq. destruct (decide (id = j)) as [<-|Hne].
  - exists p'. split; [by eapply class_upd_same|congruence].
  - exists q. split; [by rewrite class_upd_other|apply class_frame_refl].
Qed.

(** Heaps that differ in some items only. *)
Record heap_frame (l : list Z) (h h' : heap_t) : Prop := {
  hf_same : ∀ q, q ∉ l → h' !! q = h !! q;
  hf_dom : ∀ q, is_Some (h' !! q) ↔ is_Some (h !! q)
}.

Lemma heap_frame_refl l h : heap_frame l h h.
Proof. done. Qed.
Lemma heap_frame_trans l h1 h2 h3 : heap_frame l h1 h2 → heap_frame l h2 h3 → heap_frame l h1 h3.
Proof. intros [S1 D1] [S2 D2]. split; intros q; [intros Hq; by rewrite S2, S1|by rewrite D2, D1]. Qed.
Lemma heap_frame_mono l l' h h' : heap_frame l h h' → (∀ x, x ∈ l → x ∈ l') → heap_frame l' h h'.
Proof. intros [S D] Hs. split; [|done]. intros q Hq. apply S. intros Hl. by apply Hq, Hs. Qed.

Lemma relinked_frame l h h' : relinked l h h' → heap_frame l h h'.
Proof.
  intros Hr. split; [apply Hr|]. intros q. split; intros [it Hit].
  - destruct (relinked_item' _ _ _ _ _ Hr Hit) as (it' & ? & _). eauto.
  - destruct (relinked_item _ _ _ _ _ Hr Hit) as (it' & ? & _). eauto.
Qed.

Lemma insert_frame l h p it it' : h !! p = Some it → p ∈ l → heap_frame l h (<[p := it']> h).
Proof.
  intros Hp Hl. split; intros q.
  - intros Hq. apply lookup_insert_ne. by intros ->.
  - destruct (decide (q = p)) as [->|Hne]; [rewrite lookup_insert_eq, Hp|rewrite lookup_insert_ne by done]; naive_solver.
Qed.

(** ** Pages *)

(** A cleared item that is not in a free list yet. *)
Definition clean (h : heap_t) (x : Z) : Prop :=
  ∃ it, h !! x = Some it ∧ slabs_clsid it = 0 ∧ refcount it = 0 ∧ has_flag ITEM_LINKED it = false.

Lemma split_loop_spec n ar F id p ptr :
  lists_ok ar F → valid_class id → zlookup (slabclass (the_pool ar)) id = Some p → 0 < ptr →
  (∀ x, x ∈ (λ k, ptr + Z.of_nat k * sz id) <$> seq 0 n → clean (heap ar) x ∧ ∀ j, valid_class j → x ∉ F j) →
  ∃ h p', split_loop n ptr id ar = Ret tt (mkArena h (class_upd id p' (the_pool ar))) ∧
    lists_ok (mkArena h (class_upd id p' (the_pool ar)))
      (upd_list F id (reverse ((λ k, ptr + Z.of_nat k * sz id) <$> seq 0 n) ++ F id)) ∧
    heap_frame (((λ k, ptr + Z.of_nat k * sz id) <$> seq 0 n) ++ F id) (heap ar) h ∧
    slabs p' = slabs p ∧ slab_list p' = slab_list p ∧ list_size p' = list_size p ∧ killing p' = killing p.
Proof.
  revert ar F p ptr. induction n as [|n IH]; intros ar F p ptr Hl Hv Hp Hptr Hcl.
  - cbn [split_loop seq fmap list_fmap reverse]. exists (heap ar), p.
    assert (mkArena (heap ar) (class_upd id p (the_pool ar)) = ar) as -> by (rewrite class_upd_id by done; by destruct ar).
    split; [done|]. split; [|by split].
    apply (lists_ok_ext ar F); [done|]. intros j. unfold upd_list. by destruct (decide (j = id)) as [->|].
  - assert (∀ k, (λ x, ptr + Z.of_nat x * sz id) <$> seq 0 (S k) =
      ptr :: ((λ x, (ptr + sz id) + Z.of_nat x * sz id) <$> seq 0 k)) as Hseq.
    { intros k. cbn [seq]. rewrite fmap_cons, Z.mul_0_l, Z.add_0_r. f_equal.
      rewrite <- seq_shift, <- list_fmap_compose. apply list_fmap_ext. intros i x _. cbn. lia. }
    rewrite Hseq in Hcl |- *. set (cs := (λ x, (ptr + sz id) + Z.of_nat x * sz id) <$> seq 0 n) in *.
    destruct (Hcl ptr) as [(it & Hit & Hc & Hr & Hln) Hnew]; [by apply elem_of_cons; left|].
    destruct (do_slabs_free_spec ar F id p ptr 0 it) as (h1 & Hf & Hl1 & Hrl); [done..|lia|done|done|done|done|].
    set (p1 := class_freed ptr 0 p) in *. cbn [split_loop].
    rewrite (M_bind_ret _ _ _ _ _ Hf).
    assert (zlookup (slabclass (the_pool (mkArena h1 (class_upd id p1 (the_pool ar))))) id = Some p1) as Hp1
      by (by eapply class_upd_same).
    rewrite (M_bind_ret _ _ _ _ _ (run_class _ _ _ Hp1)).
    destruct (ls_dims _ _ Hl1 id p1 Hv Hp1) as [-> _].
    assert (0 < sz id) as Hsz by (pose proof (si_size Hsizes id Hv); slia).
    assert (ptr ∉ cs) as Hptrcs.
    { intros (k & Hk & _)%list_elem_of_fmap. nia. }
    assert (heap_frame (ptr :: F id) (heap ar) h1) as Hfr1.
    { eapply heap_frame_trans; [|by apply relinked_frame]. eapply insert_frame; [done|by apply elem_of_cons; left]. }
    destruct (IH (mkArena h1 (class_upd id p1 (the_pool ar))) (upd_list F id (ptr :: F id)) p1 (ptr + sz id))
      as (h & p' & Hok & Hl' & Hfr & Hsame); [done..|lia| |].
    { intros x Hx. destruct (Hcl x) as [(ix & Hix & Hcx) Hnx]; [by apply elem_of_cons; right|]. split.
      - exists ix. split; [|done]. cbn [heap]. rewrite (hf_same _ _ _ Hfr1); [done|].
        intros [->|Hx']%elem_of_cons; [done|]. by apply (Hnx id).
      - intros j Hj [[-> [->|Hx']%elem_of_cons]|[_ Hx']]%upd_list_elem; [done|by apply (Hnx id)|by apply (Hnx j)]. }
    exists h, p'. fold cs in Hl', Hfr. cbn [the_pool heap] in Hok, Hl', Hfr. rewrite class_upd_twice in Hok, Hl'.
    split; [done|]. split; [|split; [|exact Hsame]].
    + rewrite upd_list_eq in Hl'. rewrite reverse_cons, <- app_assoc. cbn [app].
      eapply lists_ok_ext; [exact Hl'|]. intros j. unfold upd_list. by destruct (decide (j = id)).
    + eapply heap_frame_trans; [eapply heap_frame_mono; [exact Hfr1|]|eapply heap_frame_mono; [exact Hfr|]].
      * intros x [->|Hx]%elem_of_cons; [by apply elem_of_cons; left|]. apply elem_of_app. by right.
      * rewrite upd_list_eq. intros x [Hx|[->|Hx]%elem_of_cons]%elem_of_app.
        -- apply elem_of_cons. right. apply elem_of_app. by left.
        -- by apply elem_of_cons; left.
        -- apply elem_of_cons. right. apply elem_of_app. by right.
Qed.

(** *** Clearing *)

Lemma list_to_zero_lookup l x :
  (list_to_map ((λ c, (c, zero_item)) <$> l) : heap_t) !! x = if decide (x ∈ l) then Some zero_item else None.
Proof.
  induction l as [|y l IH]; [by rewrite decide_False by (by intros ?%elem_of_nil)|].
  rewrite fmap_cons, list_to_map_cons. destruct (decide (x = y)) as [->|Hne].
  - rewrite lookup_insert_eq, decide_True; [done|by apply elem_of_cons; left].
  - rewrite lookup_insert_ne, IH by done. apply decide_ext.
    rewrite elem_of_cons. intuition.
Qed.

Lemma lookup_clear_page ptr len p h x :
  clear_page ptr len p h !! x =
    if decide (x ∈ chunks_of ptr p) then Some zero_item
    else if decide (ptr ≤ x < ptr + len) then None else h !! x.
Proof.
  unfold clear_page. rewrite lookup_union, list_to_zero_lookup.
  destruct (decide (x ∈ chunks_of ptr p)); [by rewrite union_Some_l|].
  rewrite (left_id_L None (∪)), map_lookup_filter. destruct (h !! x) as [it|]; cbn.
  - destruct (decide (ptr ≤ x < ptr + len)); [rewrite option_guard_False by tauto|rewrite option_guard_True by tauto]; done.
  - by destruct (decide _).
Qed.

(** What the system must not do for a new page: return a block that overlaps a page, or
    have room for [2 ^ 31] pages of one class. *)
Record env_ok (e : env) (P : gmap Z Z) (pl : pool) (id : Z) : Prop := {
  eo_fresh : mem_base pl = 0 → malloc e ≠ 0 → 0 < malloc e ∧
    ∀ b j, P !! b = Some j → malloc e + page_len id ≤ b ∨ b + page_len j ≤ malloc e;
  eo_few : ∀ p, zlookup (slabclass pl) id = Some p → slabs p < 2 ^ 31
}.

(** *** The list of pages *)

Definition same_list (p p' : slabclass_t) : Prop :=
  size p' = size p ∧ perslab p' = perslab p ∧ slots p' = slots p ∧ sl_curr p' = sl_curr p.

Lemma lists_ok_same ar F id p p' pl' :
  lists_ok ar F → valid_class id → zlookup (slabclass (the_pool ar)) id = Some p → same_list p p' →
  slabclass pl' = zinsert id p' (slabclass (the_pool ar)) → power_largest pl' = power_largest (the_pool ar) →
  lists_ok (mkArena (heap ar) pl') F.
Proof.
  intros Hl Hv Hp (S1 & S2 & S3 & S4) Hcl Hlg. destruct (ls_list _ _ Hl id p Hv Hp) as [L1 L2 L3 L4].
  destruct (lists_ok_upd ar F id p p' (heap ar) (F id)) as [H1 H2 H3 H4 H5]; try done.
  - split; [done|congruence|congruence|done].
  - intros x j Hx Hj Hne Hx'. apply Hne. by apply (ls_disjoint _ _ Hl j id x).
  - cbn in *. split; cbn; rewrite ?Hcl, ?Hlg; try done.
    + intros j q Hj Hq. specialize (H4 j q Hj Hq). unfold upd_list in H4.
      by destruct (decide (j = id)) as [->|].
    + intros i j x Hi Hj Hx Hy. by apply (ls_disjoint _ _ Hl i j x).
Qed.

Lemma grow_slab_list_spec e ar F P id p :
  lists_ok ar F → valid_class id → zlookup (slabclass (the_pool ar)) id = Some p →
  list_pages p P id → slabs p < 2 ^ 31 →
  ∃ b p', grow_slab_list e id ar = Ret b (mkArena (heap ar) (class_upd id p' (the_pool ar))) ∧
    (b = true → slabs p' < list_size p') ∧ list_pages p' P id ∧ same_list p p' ∧
    slabs p' = slabs p ∧ class_frame p p'.
Proof.
  intros Hl Hv Hp [C S N G] Hfew. unfold grow_slab_list.
  rewrite (M_bind_ret _ _ _ _ _ (run_class _ _ _ Hp)).
  destruct (Z.eqb_spec (slabs p) (list_size p)) as [He|Hne].
  - set (new_size := if negb (list_size p =? 0) then _ else _).
    assert (list_size p < new_size < 2 ^ 32 ∧ 0 < new_size) as [Hnew Hpos].
    { unfold new_size. destruct (Z.eqb_spec (list_size p) 0); cbn [negb]; [lia|].
      assert (list_size p < 2 ^ 31) by lia.
      destruct (decide (list_size p = 2 ^ 31)); [lia|]. unfold u32. rewrite wrapu_small by lia. lia. }
    destruct (realloc_ok e).
    + rewrite (M_bind_ret _ _ _ _ _ (run_upd_class _ _ _ _ Hp)). eexists true, _. split; [done|].
      cbn [slabs list_size set_slab_list set_list_size slab_list].
      assert (∀ n, 0 ≤ n ≤ slabs p → ztake n (slab_list p ++ replicate (Z.to_nat (new_size - list_size p)) 0) =
        ztake n (slab_list p)) as Htk by (intros n Hn; apply ztake_app_le; lia).
      split; [intros _; lia|]. split; [|split; [done|split; [done|]]].
      * split; cbn; [|lia| |]; rewrite ?Htk by lia; [|done|done].
        rewrite zlen_app, C. unfold zlen at 1. rewrite length_replicate. lia.
      * split; cbn; [done|lia|]. by apply Htk; lia.
    + exists false, p. rewrite class_upd_id by done. split; [by destruct ar|]. split; [done|].
      split; [done|]. split; [done|]. split; [done|apply class_frame_refl].
  - exists true, p. rewrite class_upd_id by done. split; [by destruct ar|]. split; [intros _; lia|].
    split; [done|]. split; [done|]. split; [done|apply class_frame_refl].
Qed.

Lemma memory_allocate_spec e ar F P id p :
  pool_ok ar F P → valid_class id → zlookup (slabclass (the_pool ar)) id = Some p → env_ok e P (the_pool ar) id →
  ∃ ptr c v, let pl' := set_mem_current c (set_mem_avail v (the_pool ar)) in
    memory_allocate e (page_len id) ar = Ret ptr (mkArena (heap ar) pl') ∧
    mem_current (the_pool ar) ≤ c ∧
    (ptr = 0 ∨ 0 < ptr ∧
       (∀ b j, P !! b = Some j → ptr + page_len id ≤ b ∨ b + page_len j ≤ ptr) ∧
       (mem_base (the_pool ar) ≠ 0 → ptr + page_len id ≤ c)).
Proof.
  intros Hok Hv Hp [Hfr _]. unfold memory_allocate.
  assert (0 < page_len id) as Hlen.
  { pose proof (page_len_fits id Hv). pose proof (si_size Hsizes id Hv). pose proof (si_perslab Hsizes id Hv). slia || nia. }
  rewrite M_bind_eq. cbn [gets_pool gets compose Datatypes.id].
  assert (∀ pl, set_mem_current (mem_current pl) (set_mem_avail (mem_avail pl) pl) = pl) as Hid by (by intros []).
  destruct (Z.eqb_spec (mem_base (the_pool ar)) 0) as [Hb|Hb].
  - exists (malloc e), (mem_current (the_pool ar)), (mem_avail (the_pool ar)). cbv zeta. rewrite Hid.
    split; [by destruct ar|]. split; [lia|]. destruct (decide (malloc e = 0)) as [->|Hne]; [by left|]. right.
    destruct (Hfr Hb Hne). split; [done|]. split; [done|]. done.
  - destruct (po_region _ _ _ Hok Hb) as [Hc Hreg].
    destruct (mem_avail (the_pool ar) <? page_len id) eqn:Ha.
    + exists 0, (mem_current (the_pool ar)), (mem_avail (the_pool ar)). cbv zeta. rewrite Hid.
      split; [by destruct ar|]. split; [lia|]. by left.
    + set (len := if _ =? 0 then _ else _).
      assert (page_len id ≤ len) as Hle.
      { unfold len, CHUNK_ALIGN_BYTES. pose proof (Z.mod_pos_bound (page_len id) 8 ltac:(lia)).
        destruct (_ =? 0); lia. }
      eexists (mem_current (the_pool ar)), _, _. cbv zeta. split; [reflexivity|].
      split; [lia|]. right. split; [done|]. split; [|lia].
      intros b j Hj. right. by apply Hreg.
Qed.

(** *** A new page *)

Lemma pool_ok_class ar F P id p p' :
  pool_ok ar F P → valid_class id → zlookup (slabclass (the_pool ar)) id = Some p →
  same_list p p' → list_pages p' P id →
  pool_ok (mkArena (heap ar) (class_upd id p' (the_pool ar))) F P.
Proof.
  intros [Hl Hpg Hc Hch Hf Hr] Hv Hp Hs Hlp. split; try done.
  - by eapply (lists_ok_same ar F id p p').
  - intros j q Hj Hq. cbn in Hq. rewrite (zlookup_insert _ _ _ _ _ Hp) in Hq.
    destruct (decide (id = j)) as [<-|Hne]; [by injection Hq as <-|by apply Hc].
Qed.

Lemma pool_ok_region ar F P c v :
  pool_ok ar F P → mem_current (the_pool ar) ≤ c →
  pool_ok (mkArena (heap ar) (set_mem_current c (set_mem_avail v (the_pool ar)))) F P.
Proof.
  intros [Hl Hpg Hc Hch Hf Hr] Hle. split; try done.
  - destruct Hl as [H1 H2 H3 H4 H5]. by split.
  - cbn. intros Hb. destruct (Hr Hb) as [H1 H2]. split; [lia|]. intros a j Ha. specialize (H2 a j Ha). lia.
Qed.

Lemma pages_ok_insert P ptr id :
  pages_ok P → valid_class id → 0 < ptr →
  (∀ b j, P !! b = Some j → ptr + page_len id ≤ b ∨ b + page_len j ≤ ptr) → pages_ok (<[ptr := id]> P).
Proof.
  intros [V D] Hv Hptr Hfr. split.
  - intros a j [[<- <-]|[_ Ha]]%lookup_insert_Some; [done|by apply V].
  - intros a b i j [[<- <-]|[Hna Ha]]%lookup_insert_Some [[<- <-]|[Hnb Hb]]%lookup_insert_Some Hab; [done| | |].
    + by apply Hfr.
    + destruct (Hfr a i Ha); auto.
    + by apply D.
Qed.

Lemma list_pages_push p P id ptr :
  list_pages p P id → slabs p < list_size p → P !! ptr = None →
  list_pages (set_slabs (slabs p + 1) (set_slab_list (zinsert (slabs p) ptr (slab_list p)) p)) (<[ptr := id]> P) id ∧
  ztake (slabs p) (zinsert (slabs p) ptr (slab_list p)) = ztake (slabs p) (slab_list p).
Proof.
  intros [C S N G] Hlt Hnew.
  assert (ztake (slabs p) (zinsert (slabs p) ptr (slab_list p)) = ztake (slabs p) (slab_list p)) as Hpre.
  { unfold ztake, zinsert. rewrite (proj2 (Z.leb_le 0 (slabs p))) by lia. by rewrite take_insert_ge by lia. }
  assert (ztake (slabs p + 1) (zinsert (slabs p) ptr (slab_list p)) = ztake (slabs p) (slab_list p) ++ [ptr]) as Htk.
  { rewrite <- Hpre. unfold ztake. rewrite Z2Nat.inj_add, Nat.add_1_r by lia. apply take_S_r.
    unfold zinsert. rewrite (proj2 (Z.leb_le 0 (slabs p))) by lia. apply list_lookup_insert_eq.
    unfold zlen in C. lia. }
  split; [|done]. split; cbn; rewrite ?Htk.
  - by rewrite zlen_insert.
  - lia.
  - apply NoDup_app. split; [done|]. split; [|apply NoDup_singleton].
    intros a Ha ->%list_elem_of_singleton. apply G in Ha. congruence.
  - intros a. rewrite elem_of_app, list_elem_of_singleton, G, lookup_insert_Some.
    split; [|by intros [[<- _]|[_ ?]]; [right|left]].
    intros [Ha| ->]; [|by left]. right. split; [|done]. intros ->. congruence.
Qed.

(** Pages of other classes are not concerned. *)
Lemma list_pages_other p P id j ptr :
  list_pages p P j → j ≠ id → P !! ptr = None → list_pages p (<[ptr := id]> P) j.
Proof.
  intros [C S N G] Hne Hnew. split; try done. intros a. rewrite G, lookup_insert_Some. split; [|intros [[_ ?]|[_ ?]]; congruence].
  intros Ha. right. split; [|done]. intros ->. congruence.
Qed.

(** The pool after a page was added to a class. *)
Lemma pool_ok_new_page ar F P id p ptr h p4 m :
  pool_ok ar F P → valid_class id → zlookup (slabclass (the_pool ar)) id = Some p →
  slabs p < list_size p → slabs p < 2 ^ 31 → 0 < ptr →
  (∀ b j, P !! b = Some j → ptr + page_len id ≤ b ∨ b + page_len j ≤ ptr) → P !! ptr = None →
  (mem_base (the_pool ar) ≠ 0 → ptr + page_len id ≤ mem_current (the_pool ar)) →
  lists_ok (mkArena h (class_upd id p4 (the_pool ar))) (upd_list F id (reverse (chunks ptr id) ++ F id)) →
  (∀ x, is_Some (h !! x) ↔ x ∈ chunks ptr id ∨ is_Some (heap ar !! x)) →
  slabs p4 = slabs p → slab_list p4 = slab_list p → list_size p4 = list_size p → killing p4 = killing p →
  let p6 := set_slabs (u32 (slabs p4 + 1)) (set_slab_list (zinsert (slabs p4) ptr (slab_list p4)) p4) in
  pool_ok (mkArena h (set_mem_malloced m (class_upd id p6 (the_pool ar))))
    (upd_list F id (reverse (chunks ptr id) ++ F id)) (<[ptr := id]> P) ∧ class_frame p p6.
Proof.
  intros [Hl Hpg Hc Hch Hf Hr] Hv Hp Hlt Hfew Hptr Hfr Hnew Hreg Hl4 Hdom E1 E2 E3 E4 p6.
  assert (u32 (slabs p4 + 1) = slabs p4 + 1) as Hu.
  { pose proof (lp_slabs _ _ _ (Hc id p Hv Hp)). apply wrapu_small. lia. }
  assert (list_pages p4 P id) as Hlp4.
  { destruct (Hc id p Hv Hp) as [C S N G]. split; rewrite ?E1, ?E2, ?E3; done. }
  destruct (list_pages_push p4 P id ptr Hlp4) as [Hlp6 Hpre]; [congruence|done|].
  split; [|unfold p6; split; cbn; rewrite ?E1, ?E2; [done| |]].
  - assert (zlookup (slabclass (class_upd id p4 (the_pool ar))) id = Some p4) as Hp4 by (by eapply class_upd_same).
    split.
    + assert (slabclass (class_upd id p6 (the_pool ar)) = zinsert id p6 (slabclass (class_upd id p4 (the_pool ar)))) as Hz
        by (cbn; by rewrite zinsert_twice).
      by eapply (lists_ok_same (mkArena h (class_upd id p4 (the_pool ar))) _ id p4 p6); [| |exact Hp4| |exact Hz|].
    + by apply pages_ok_insert.
    + intros j q Hj Hq. cbn in Hq. rewrite (zlookup_insert _ _ _ _ _ Hp) in Hq.
      destruct (decide (id = j)) as [<-|Hne].
      * injection Hq as <-. unfold p6. rewrite Hu. exact Hlp6.
      * apply list_pages_other; [by apply Hc|by intros ->|done].
    + intros x. cbn [heap]. rewrite Hdom, Hch. split.
      * intros [Hx|(a & j & Ha & Hx)]; [exists ptr, id; by rewrite lookup_insert_eq|].
        exists a, j. rewrite lookup_insert_ne; [done|]. intros ->. congruence.
      * intros (a & j & [[<- <-]|[_ Ha]]%lookup_insert_Some & Hx); [by left|]. right. eauto.
    + intros j x Hj [[-> [Hx|Hx]%elem_of_app]|[Hne Hx]]%upd_list_elem.
      * rewrite elem_of_reverse in Hx. exists ptr. split; [apply lookup_insert_eq|done].
      * destruct (Hf id x Hj Hx) as (a & Ha & Hxa). exists a. split; [|done]. rewrite lookup_insert_ne; [done|]. intros ->. congruence.
      * destruct (Hf j x Hj Hx) as (a & Ha & Hxa). exists a. split; [|done]. rewrite lookup_insert_ne; [done|]. intros ->. congruence.
    + cbn. intros Hb. destruct (Hr Hb) as [H1 H2]. split; [done|].
      intros a j [[<- <-]|[_ Ha]]%lookup_insert_Some; [by apply Hreg|by apply H2].
  - rewrite E1 in Hu. rewrite Hu. lia.
  - rewrite E1, E2 in Hpre. exact Hpre.
Qed.

(** Nothing but chunks of [F id] changes. *)
Record alloc_frame (F : Z → list Z) (id : Z) (ar ar' : arena) : Prop := {
  af_heap : ∀ q, is_Some (heap ar !! q) → q ∉ F id → heap ar' !! q = heap ar !! q;
  af_dom : ∀ q, is_Some (heap ar !! q) → is_Some (heap ar' !! q);
  af_pool : pool_frame (the_pool ar) (the_pool ar')
}.

Lemma chunks_of_dims p id ptr : size p = sz id → perslab p = ps id → chunks_of ptr p = chunks ptr id.
Proof. intros Hs Hp. unfold chunks_of, chunks. by rewrite Hs, Hp. Qed.

(** Carving a page that the system has just given: the part of [do_slabs_newslab] from the
    [memset] to the end of [split_slab_page_into_freelist]. *)
Lemma carve_spec ar F P id p ptr :
  pool_ok ar F P → valid_class id → zlookup (slabclass (the_pool ar)) id = Some p → 0 < ptr →
  (∀ b j, P !! b = Some j → ptr + page_len id ≤ b ∨ b + page_len j ≤ ptr) →
  let ar1 := mkArena (clear_page ptr (page_len id) p (heap ar)) (the_pool ar) in
  ∃ h p4, split_slab_page_into_freelist ptr id ar1 = Ret tt (mkArena h (class_upd id p4 (the_pool ar))) ∧
    lists_ok (mkArena h (class_upd id p4 (the_pool ar))) (upd_list F id (reverse (chunks ptr id) ++ F id)) ∧
    (∀ x, is_Some (h !! x) ↔ x ∈ chunks ptr id ∨ is_Some (heap ar !! x)) ∧
    (∀ q, is_Some (heap ar !! q) → q ∉ F id → h !! q = heap ar !! q) ∧
    slabs p4 = slabs p ∧ slab_list p4 = slab_list p ∧ list_size p4 = list_size p ∧ killing p4 = killing p.
Proof.
  intros Hok Hv Hp Hptr Hfr ar1. destruct (ls_dims _ _ (po_lists _ _ _ Hok) id p Hv Hp) as [Hsz Hps].
  assert (∀ x, is_Some (heap ar !! x) → (x ∉ chunks ptr id) ∧ ¬ (ptr ≤ x < ptr + page_len id)) as Hold.
  { intros x (b & j & Hb & Hx)%(po_chunks _ _ _ Hok). destruct (pg_valid _ (po_pages _ _ _ Hok) b j Hb) as [Hvj _].
    destruct (chunk_in_page b j x Hvj Hx) as [H1 H2]. pose proof (si_size Hsizes j Hvj).
    assert (¬ (ptr ≤ x < ptr + page_len id)) as Hout by (destruct (Hfr b j Hb); slia).
    split; [|done]. intros Hx'. destruct (chunk_in_page ptr id x Hv Hx') as [H3 H4].
    pose proof (si_size Hsizes id Hv). slia. }
  assert (∀ x, heap ar1 !! x = if decide (x ∈ chunks ptr id) then Some zero_item else heap ar !! x) as Hlk.
  { intros x. cbn [ar1 heap]. rewrite lookup_clear_page, (chunks_of_dims p id ptr Hsz Hps).
    destruct (decide (x ∈ chunks ptr id)); [done|]. destruct (decide (ptr ≤ x < ptr + page_len id)) as [Hin|]; [|done].
    destruct (heap ar !! x) eqn:Hx; [|done]. by destruct (Hold x). }
  assert (∀ x, is_Some (heap ar !! x) → heap ar1 !! x = heap ar !! x) as Hsame.
  { intros x Hx. rewrite Hlk, decide_False; [done|]. by destruct (Hold x Hx). }
  assert (∀ j x, valid_class j → x ∈ F j → is_Some (heap ar !! x)) as Hfree.
  { intros j x Hj Hx. destruct (po_free _ _ _ Hok j x Hj Hx) as (a & Ha & Hxa). apply (po_chunks _ _ _ Hok). eauto. }
  assert (lists_ok ar1 F) as Hl1.
  { destruct (po_lists _ _ _ Hok) as [H1 H2 H3 H4 H5]. split; try done.
    intros j q Hj Hq. destruct (H4 j q Hj Hq) as [L1 L2 L3 L4]. split; try done.
    - eapply dlist_same; [done|]. intros x Hx. apply Hsame. by apply (Hfree j).
    - intros x Hx. rewrite Hsame by (by apply (Hfree j)). by apply L4. }
  destruct (split_loop_spec (Z.to_nat (ps id)) ar1 F id p ptr) as (h & p4 & Hs & Hl4 & Hfr4 & E); [done..| |].
  { intros x Hx. change (x ∈ chunks ptr id) in Hx. split.
    - exists zero_item. rewrite Hlk, decide_True by done. done.
    - intros j Hj Hxj. destruct (Hold x (Hfree j x Hj Hxj)) as [Hn _]. done. }
  fold (chunks ptr id) in Hl4, Hfr4. exists h, p4. split; [|split; [done|split; [|split; [|done]]]].
  - unfold split_slab_page_into_freelist. assert (zlookup (slabclass (the_pool ar1)) id = Some p) as Hp1 by done.
    rewrite (M_bind_ret _ _ _ _ _ (run_class _ _ _ Hp1)), Hps. exact Hs.
  - intros x. rewrite (hf_dom _ _ _ Hfr4), Hlk. destruct (decide (x ∈ chunks ptr id)); [split; [by left|intros _; by eexists]|].
    split; [by right|]. by intros [?|?].
  - intros q Hq Hqf. rewrite (hf_same _ _ _ Hfr4); [by apply Hsame|]. intros [Hx|Hx]%elem_of_app; [|done].
    by destruct (Hold q Hq).
Qed.

Lemma do_slabs_newslab_spec e ar F P id :
  pool_ok ar F P → valid_class id → env_ok e P (the_pool ar) id →
  ∃ ok ar', do_slabs_newslab st e id ar = Ret ok ar' ∧ alloc_frame F id ar ar' ∧
    if (ok : bool)
    then ∃ a, P !! a = None ∧ pool_ok ar' (upd_list F id (reverse (chunks a id) ++ F id)) (<[a := id]> P)
    else pool_ok ar' F P ∧ heap ar' = heap ar.
Proof.
  intros Hok Hv He. destruct (valid_lookup ar F id (po_lists _ _ _ Hok) Hv) as [p Hp].
  destruct (ls_dims _ _ (po_lists _ _ _ Hok) id p Hv Hp) as [Hsz Hps].
  unfold do_slabs_newslab. rewrite (M_bind_ret _ _ _ _ _ (run_class _ _ _ Hp)).
  rewrite M_bind_eq. cbn [gets_pool gets compose Datatypes.id].
  assert ((if slab_reassign st then item_size_max st else size p * perslab p) = page_len id) as ->
    by (unfold page_len; by rewrite Hsz, Hps).
  destruct (_ && _ && _).
  { exists false, ar. split; [done|]. split; [by split|]. done. }
  destruct (grow_slab_list_spec e ar F P id p) as (b & p1 & Hg & Hb & Hlp1 & Hs1 & E1 & Hcf1);
    [apply Hok|done|done|by apply Hok|by apply (eo_few _ _ _ _ He)|].
  rewrite (M_bind_ret _ _ _ _ _ Hg). set (ar1 := mkArena _ _).
  assert (zlookup (slabclass (the_pool ar1)) id = Some p1) as Hp1 by (by eapply class_upd_same).
  assert (pool_ok ar1 F P) as Hok1 by (by eapply pool_ok_class).
  assert (pool_frame (the_pool ar) (the_pool ar1)) as Hpf1 by (by eapply pool_frame_upd).
  destruct b; cbn [negb]; [|exists false, ar1; split; [done|]; split; [by split|done]].
  destruct (memory_allocate_spec e ar1 F P id p1) as (ptr & c & v & Hm & Hc & Hptr); [done..| |].
  { split; [apply He|]. intros q Hq. assert (q = p1) as -> by congruence. rewrite E1. by apply (eo_few _ _ _ _ He). }
  cbv zeta in Hm. rewrite (M_bind_ret _ _ _ _ _ Hm). set (ar2 := mkArena (heap ar1) _).
  assert (pool_ok ar2 F P) as Hok2 by (by apply pool_ok_region).
  assert (pool_frame (the_pool ar) (the_pool ar2)) as Hpf2 by (etrans; [exact Hpf1|by destruct (reflexivity (R := pool_frame) (the_pool ar1))]).
  destruct Hptr as [->|(Hptr & Hfr & Hreg)]; [cbn [Z.eqb]; exists false, ar2; split; [done|]; split; [by split|done]|].
  rewrite (proj2 (Z.eqb_neq ptr 0)) by lia.
  assert (zlookup (slabclass (the_pool ar2)) id = Some p1) as Hp2 by done.
  assert (P !! ptr = None) as Hnew.
  { destruct (P !! ptr) as [j|] eqn:Hj; [|done]. destruct (pg_valid _ (po_pages _ _ _ Hok) ptr j Hj) as [Hvj _].
    pose proof (page_len_fits id Hv). pose proof (page_len_fits j Hvj). pose proof (si_size Hsizes id Hv).
    pose proof (si_size Hsizes j Hvj). pose proof (si_perslab Hsizes id Hv). pose proof (si_perslab Hsizes j Hvj).
    unfold sizeof_item in *. destruct (Hfr ptr j Hj); nia. }
  erewrite M_bind_ret by (by apply run_slab_heap).
  destruct (carve_spec ar2 F P id p1 ptr) as (h & p4 & Hsp & Hl4 & Hdom & Hsame & F1 & F2 & F3 & F4); [done..|].
  assert (clear_page ptr (page_len id) p (heap ar2) = clear_page ptr (page_len id) p1 (heap ar2)) as ->.
  { unfold clear_page. destruct Hs1 as (S1 & S2 & _). unfold chunks_of. by rewrite S1, S2. }
  rewrite (M_bind_ret _ _ _ _ _ Hsp). set (pl2 := the_pool ar2) in *.
  assert (zlookup (slabclass (class_upd id p4 pl2)) id = Some p4) as Hp4 by (by eapply class_upd_same).
  rewrite (M_bind_ret _ _ _ _ _ (run_class (mkArena h (class_upd id p4 pl2)) _ _ Hp4)).
  specialize (Hb eq_refl). pose proof (lp_slabs _ _ _ Hlp1) as Hsl.
  destruct (pool_ok_new_page ar2 F P id p1 ptr h p4 (u64 (mem_malloced pl2 + page_len id))) as [Hfin Hcf];
    [done|done|done|done|rewrite E1; by apply (eo_few _ _ _ _ He)|done|done|done|exact Hreg|done..|].
  cbv zeta in Hfin, Hcf. set (p6 := set_slabs _ _) in Hfin, Hcf.
  exists true. eexists. split; [|split; [|exists ptr; split; [exact Hnew|exact Hfin]]].
  - rewrite M_bind_eq. unfold slab_list_set.
    rewrite (M_bind_ret _ _ _ _ _ (run_class (mkArena h (class_upd id p4 pl2)) _ _ Hp4)).
    destruct (zlookup_is_Some (slab_list p4) (slabs p4)) as [x0 Hx0];
      [rewrite F2, F1, (lp_capacity _ _ _ Hlp1); lia|].
    rewrite M_bind_eq, (vec_set_Ok _ _ _ _ Hx0). cbn [lift_result mret M_ret].
    rewrite (run_upd_class (mkArena h (class_upd id p4 pl2)) _ _ p4 Hp4). cbn [heap the_pool].
    rewrite class_upd_twice, M_bind_eq.
    erewrite run_upd_class by (by eapply class_upd_same). cbn [heap the_pool]. rewrite class_upd_twice.
    reflexivity.
  - split.
    + intros q Hq Hqf. cbn [heap]. by apply Hsame.
    + intros q Hq. cbn [heap]. apply Hdom. by right.
    + etrans; [exact Hpf2|]. pose proof (pool_frame_upd pl2 id p1 p6 Hp2 Hcf) as [R B K S C]. by split.
Qed.

(** ** Allocation *)

(** What an allocation does to the free lists and the pages: a class may get a page, whose
    chunks are new, and the chunk that is returned is not free any more. *)
Record allocated (F F' : Z → list Z) (P P' : gmap Z Z) (id ret : Z) (h : heap_t) : Prop := {
  al_other : ∀ j, j ≠ id → F' j = F j;
  al_pages : P ⊆ P';
  al_from : ∀ x, x ∈ F' id → x ∈ F id ∨ h !! x = None;
  al_kept : ∀ x, x ∈ F id → x ∈ F' id ∨ x = ret;
  al_new : ∀ a j x, P' !! a = Some j → x ∈ chunks a j → P !! a = Some j ∨ j = id ∧ (x ∈ F' id ∨ x = ret)
}.

(** A chunk is taken from the free list. *)
Lemma pool_ok_pop ar F P id p l x h p' :
  pool_ok ar F P → valid_class id → zlookup (slabclass (the_pool ar)) id = Some p → F id = x :: l →
  dlist h l → relinked l (heap ar) h → same_list (set_slots (first l) (set_sl_curr (u32 (zlen l)) p)) p' →
  slabs p' = slabs p → slab_list p' = slab_list p → list_size p' = list_size p →
  pool_ok (mkArena h (class_upd id p' (the_pool ar))) (upd_list F id l) P.
Proof.
  intros Hok Hv Hp HF Hd Hrl (S1 & S2 & S3 & S4) E1 E2 E3. pose proof (po_lists _ _ _ Hok) as Hl.
  destruct (ls_list _ _ Hl id p Hv Hp) as [L1 L2 L3 L4].
  pose proof (relinked_frame _ _ _ Hrl) as Hfr. cbn in S1, S2, S3, S4. split.
  - apply (lists_ok_upd ar F id p); try done.
    + split; [done|done|done|]. intros y Hy. destruct (L4 y) as (it & Hit & Hfi); [rewrite HF; by apply elem_of_cons; right|].
      destruct (relinked_item _ _ _ _ _ Hrl Hit) as (it' & Hit' & Hu). exists it'. split; [done|]. by eapply unlinked_free.
    + intros j Hj Hne y Hy. apply (rl_other _ _ _ Hrl). intros Hyl. apply Hne.
      apply (ls_disjoint _ _ Hl j id y); try done. rewrite HF. by apply elem_of_cons; right.
    + intros y j Hy Hj Hne Hyj. apply Hne. apply (ls_disjoint _ _ Hl j id y); try done. rewrite HF. by apply elem_of_cons; right.
  - apply Hok.
  - intros j q Hj Hq. cbn in Hq. rewrite (zlookup_insert _ _ _ _ _ Hp) in Hq. destruct (decide (id = j)) as [<-|Hne].
    + injection Hq as <-. destruct (po_class _ _ _ Hok id p Hv Hp) as [C S N G]. split; rewrite ?E1, ?E2, ?E3; done.
    + by apply Hok.
  - intros y. cbn [heap]. rewrite (hf_dom _ _ _ Hfr). apply Hok.
  - intros j y Hj [[-> Hy]|[Hne Hy]]%upd_list_elem; [|by apply Hok].
    apply (po_free _ _ _ Hok); [done|]. rewrite HF. by apply elem_of_cons; right.
  - apply Hok.
Qed.

Lemma pool_ok_requested ar F P id p n :
  pool_ok ar F P → valid_class id → zlookup (slabclass (the_pool ar)) id = Some p →
  pool_ok (mkArena (heap ar) (class_upd id (set_requested n p) (the_pool ar))) F P ∧
  pool_frame (the_pool ar) (class_upd id (set_requested n p) (the_pool ar)).
Proof.
  intros Hok Hv Hp. split.
  - eapply pool_ok_class; [done..|]. by destruct (po_class _ _ _ Hok id p Hv Hp).
  - eapply pool_frame_upd; [done|]. split; cbn; [done|lia|done].
Qed.

(** The end of [do_slabs_alloc], when there is a free chunk. *)
Lemma run_pop ar id p x nx h size_ :
  zlookup (slabclass (the_pool ar)) id = Some p → unlink_front x (heap ar) = Ok (nx, h) → x ≠ 0 →
  (let* ret :=
     let* nx := unlink_slot x in
     upd_class id (λ p, set_slots nx (set_sl_curr (u32 (sl_curr p - 1)) p)) ;;
     mret x in
   if negb (ret =? 0) then
     upd_class id (λ p, set_requested (u64 (requested p + size_)) p) ;; mret ret
   else mret ret) ar =
  Ret x (mkArena h (class_upd id
    (set_requested (u64 (requested p + size_)) (set_slots nx (set_sl_curr (u32 (sl_curr p - 1)) p))) (the_pool ar))).
Proof.
  intros Hp Hu Hx.
  assert ((let* nx := unlink_slot x in
     upd_class id (λ p, set_slots nx (set_sl_curr (u32 (sl_curr p - 1)) p)) ;; mret x) ar =
    Ret x (mkArena h (class_upd id (set_slots nx (set_sl_curr (u32 (sl_curr p - 1)) p)) (the_pool ar)))) as Hr.
  { rewrite M_bind_eq. unfold unlink_slot. rewrite Hu, M_bind_eq.
    by rewrite (run_upd_class (mkArena h (the_pool ar)) id _ p Hp). }
  rewrite (M_bind_ret _ _ _ _ _ Hr), (proj2 (Z.eqb_neq x 0)) by done. cbn [negb].
  rewrite M_bind_eq. erewrite run_upd_class by (by eapply class_upd_same).
  cbn [heap the_pool]. by rewrite class_upd_twice.
Qed.

Lemma take_chunk_spec ar F P id p x l size_ :
  pool_ok ar F P → valid_class id → zlookup (slabclass (the_pool ar)) id = Some p → F id = x :: l →
  ∃ h p' , unlink_front x (heap ar) = Ok (first l, h) ∧
    p' = set_requested (u64 (requested p + size_)) (set_slots (first l) (set_sl_curr (u32 (sl_curr p - 1)) p)) ∧
    pool_ok (mkArena h (class_upd id p' (the_pool ar))) (upd_list F id l) P ∧
    heap_frame l (heap ar) h ∧ class_frame p p' ∧ (x ∉ l) ∧ x ≠ 0 ∧ ∃ it, h !! x = Some it ∧ free_item it.
Proof.
  intros Hok Hv Hp HF. destruct (ls_list _ _ (po_lists _ _ _ Hok) id p Hv Hp) as [L1 L2 L3 L4].
  rewrite HF in L1, L3, L4. destruct (unlink_front_spec _ _ _ L1) as (h & Hu & Hd & Hrl).
  pose proof (dl_nodup _ _ L1) as [Hxl _]%NoDup_cons.
  eexists h, _. split; [done|]. split; [done|]. split; [|split; [by apply relinked_frame|split; [split; cbn; [done|lia|done]|]]].
  - eapply pool_ok_pop; try done. split_and!; try done. cbn. rewrite L3.
    unfold u32, wrapu. rewrite Zminus_mod_idemp_l. f_equal. rewrite zlen_cons. lia.
  - split; [done|]. split; [by apply (dlist_elem (heap ar) (x :: l)); [|apply elem_of_cons; left]|].
    destruct (L4 x) as (it & Hit & Hfi); [by apply elem_of_cons; left|]. exists it. split; [|done].
    by rewrite (rl_other _ _ _ Hrl).
Qed.

Lemma do_slabs_alloc_spec e ar F P size_ id :
  pool_ok ar F P → valid_class id → env_ok e P (the_pool ar) id →
  ∃ ret ar' F' P', do_slabs_alloc st e size_ id ar = Ret ret ar' ∧ alloc_frame F id ar ar' ∧
    pool_ok ar' F' P' ∧ allocated F F' P P' id ret (heap ar) ∧
    (ret = 0 → u32 (zlen (F id)) = 0) ∧
    (ret ≠ 0 → (ret ∉ F' id) ∧ (ret ∈ F id ∨ heap ar !! ret = None) ∧
      ∃ it, heap ar' !! ret = Some it ∧ free_item it).
Proof.
  intros Hok Hv He. destruct (valid_lookup ar F id (po_lists _ _ _ Hok) Hv) as [p Hp].
  unfold do_slabs_alloc. rewrite M_bind_eq. cbn [gets_pool gets compose].
  rewrite (ls_largest _ _ (po_lists _ _ _ Hok)).
  assert ((id <? POWER_SMALLEST) || (largest <? id) = false) as ->.
  { apply orb_false_iff. destruct Hv. split; apply Z.ltb_ge; lia. }
  rewrite (M_bind_ret _ _ _ _ _ (run_class _ _ _ Hp)).
  destruct (ls_list _ _ (po_lists _ _ _ Hok) id p Hv Hp) as [L1 L2 L3 L4].
  (* an allocation from a pool whose free list is known *)
  assert (∀ ar1 F1 P1 p1 x l, pool_ok ar1 F1 P1 → zlookup (slabclass (the_pool ar1)) id = Some p1 → F1 id = x :: l →
    alloc_frame F id ar ar1 → (∀ j, j ≠ id → F1 j = F j) → P ⊆ P1 →
    (∀ y, y ∈ F1 id → y ∈ F id ∨ heap ar !! y = None) → (∀ y, y ∈ F id → y ∈ F1 id) →
    (∀ a j y, P1 !! a = Some j → y ∈ chunks a j → P !! a = Some j ∨ j = id ∧ y ∈ F1 id) →
    ∃ h p' , unlink_front x (heap ar1) = Ok (first l, h) ∧
      p' = set_requested (u64 (requested p1 + size_)) (set_slots (first l) (set_sl_curr (u32 (sl_curr p1 - 1)) p1)) ∧
      x ≠ 0 ∧
      let ar' := mkArena h (class_upd id p' (the_pool ar1)) in
      alloc_frame F id ar ar' ∧ pool_ok ar' (upd_list F1 id l) P1 ∧ allocated F (upd_list F1 id l) P P1 id x (heap ar) ∧
      (x ∉ upd_list F1 id l id) ∧ (x ∈ F id ∨ heap ar !! x = None) ∧ ∃ it, h !! x = Some it ∧ free_item it) as Htake.
  { intros ar1 F1 P1 p1 x l Hok1 Hp1 HF1 [A1 A2 A3] Hoth HP Hfrom Hkept Hpg.
    destruct (take_chunk_spec ar1 F1 P1 id p1 x l size_ Hok1 Hv Hp1 HF1)
      as (h & p' & Hu & Hp' & Hok' & Hfr & Hcf & Hxl & Hx0 & Hit).
    exists h, p'. do 3 (split; [done|]). cbv zeta. split; [|split; [done|split; [|split; [by rewrite upd_list_eq|split; [|done]]]]].
    - split; cbn [heap the_pool].
      + intros q Hq Hqf. rewrite (hf_same _ _ _ Hfr); [by apply A1|]. intros Hql.
        destruct (Hfrom q) as [?|Hn]; [rewrite HF1; by apply elem_of_cons; right|done|]. destruct Hq. congruence.
      + intros q Hq. apply (hf_dom _ _ _ Hfr). by apply A2.
      + etrans; [exact A3|]. by eapply pool_frame_upd.
    - split; [|done| | |].
      + intros j Hj. rewrite upd_list_ne by done. by apply Hoth.
      + intros y Hy. rewrite upd_list_eq in Hy. apply Hfrom. rewrite HF1. by apply elem_of_cons; right.
      + intros y Hy%Hkept. rewrite upd_list_eq. rewrite HF1 in Hy. apply elem_of_cons in Hy as [->|Hy]; auto.
      + intros a j y Ha Hy. rewrite upd_list_eq. destruct (Hpg a j y Ha Hy) as [?|[-> Hy']]; [by left|]. right. split; [done|].
        rewrite HF1 in Hy'. apply elem_of_cons in Hy' as [->|?]; auto.
    - apply Hfrom. rewrite HF1. by apply elem_of_cons; left. }
  destruct (Z.eqb_spec (sl_curr p) 0) as [H0|H0].
  - (* a new page *)
    rewrite M_bind_eq. cbn [mret M_ret negb].
    destruct (do_slabs_newslab_spec e ar F P id Hok Hv He) as (ok & ar1 & Hns & Hfr1 & Hcase).
    rewrite (M_bind_ret _ _ _ _ _ Hns). destruct ok.
    + destruct Hcase as (a & Hnew & Hok1). set (F1 := upd_list F id _) in *.
      destruct (valid_lookup ar1 F1 id (po_lists _ _ _ Hok1) Hv) as [p1 Hp1].
      rewrite (M_bind_ret _ _ _ _ _ (run_class _ _ _ Hp1)). cbn [negb].
      assert (∀ y, y ∈ F1 id → y ∈ F id ∨ heap ar !! y = None) as Hfrom.
      { intros y. unfold F1. rewrite upd_list_eq, elem_of_app, elem_of_reverse. intros [Hy|Hy]; [right|by left].
        destruct (heap ar !! y) as [it|] eqn:Hity; [|done].
        destruct (proj1 (po_chunks _ _ _ Hok y) (ex_intro _ it Hity)) as (b & j & Hb & Hyb).
        destruct (chunk_page (<[a := id]> P) a b id j y) as [-> _]; [apply Hok1|apply lookup_insert_eq| |done|done|congruence].
        rewrite lookup_insert_ne; [done|]. intros ->. congruence. }
      assert (∀ y, y ∈ F id → y ∈ F1 id) as Hkept.
      { intros y Hy. unfold F1. rewrite upd_list_eq. apply elem_of_app. by right. }
      assert (P ⊆ <[a := id]> P) as HP by (by apply insert_subseteq).
      assert (∀ j, j ≠ id → F1 j = F j) as Hoth by (intros j Hj; by apply upd_list_ne).
      assert (∀ b j y, <[a := id]> P !! b = Some j → y ∈ chunks b j → P !! b = Some j ∨ j = id ∧ y ∈ F1 id) as Hpg.
      { intros b j y [[<- <-]|[_ Hb]]%lookup_insert_Some Hy; [right|by left]. split; [done|].
        unfold F1. rewrite upd_list_eq. apply elem_of_app. left. by apply elem_of_reverse. }
      destruct (ls_list _ _ (po_lists _ _ _ Hok1) id p1 Hv Hp1) as [M1 M2 M3 M4].
      destruct (Z.eqb_spec (sl_curr p1) 0) as [H1|H1]; cbn [negb].
      * exists 0, ar1, F1, (<[a := id]> P). split; [done|]. split; [done|]. split; [done|]. split.
        { split; [done|done|done| |].
          - intros y Hy. left. by apply Hkept.
          - intros b j y Hb Hy. destruct (Hpg b j y Hb Hy) as [?|[-> ?]]; auto. }
        split; [|done]. intros _. by rewrite <- L3.
      * destruct (F1 id) as [|x l] eqn:HF1; [by rewrite M3 in H1|].
        destruct (Htake ar1 F1 (<[a := id]> P) p1 x l) as (h & p' & Hu & Hp' & Hx0 & Hfr' & Hok' & Hal & Hres);
          [done|done|done|done|done|done|by rewrite HF1|by rewrite HF1|by rewrite HF1|].
        eexists x, _, _, _. split; [|split; [exact Hfr'|split; [exact Hok'|split; [exact Hal|split; [done|intros _; exact Hres]]]]].
        rewrite M2. subst p'. by apply run_pop.
    + destruct Hcase as [Hok1 Hh]. destruct (valid_lookup ar1 F id (po_lists _ _ _ Hok1) Hv) as [p1 Hp1].
      rewrite (M_bind_ret _ _ _ _ _ (run_class _ _ _ Hp1)). cbn [negb].
      exists 0, ar1, F, P. split; [done|]. split; [done|]. split; [done|]. split; [split; auto|].
      split; [|done]. intros _. by rewrite <- L3.
  - destruct (F id) as [|x l] eqn:HF; [by rewrite L3 in H0|].
    destruct (Htake ar F P p x l) as (h & p' & Hu & Hp' & Hx0 & Hfr' & Hok' & Hal & Hres);
      [done|done|done|by split|done|done|intros y; rewrite HF; auto|intros y; by rewrite HF|auto|].
    rewrite L2. change (first (x :: l)) with x. destruct (L4 x) as (it & Hit & Hfi); [by apply elem_of_cons; left|].
    rewrite M_bind_eq, (M_bind_ret _ _ _ _ _ (run_load _ _ _ Hit)), run_slab_assert by (apply Z.eqb_eq, Hfi).
    cbn [negb]. rewrite M_bind_eq. cbn [mret M_ret]. rewrite (M_bind_ret _ _ _ _ _ (run_class _ _ _ Hp)).
    rewrite (proj2 (Z.eqb_neq (sl_curr p) 0)) by done. cbn [negb].
    eexists x, _, _, _. split; [|split; [exact Hfr'|split; [exact Hok'|split; [exact Hal|split; [done|intros _; exact Hres]]]]].
    rewrite L2. subst p'. by apply run_pop.
Qed.

(** The release of a chunk of a class. *)
Lemma pool_ok_free ar F P id p ptr size_ it :
  pool_ok ar F P → valid_class id → zlookup (slabclass (the_pool ar)) id = Some p →
  heap ar !! ptr = Some it → (∃ a, P !! a = Some id ∧ ptr ∈ chunks a id) →
  slabs_clsid it = 0 → refcount it = 0 → has_flag ITEM_LINKED it = false → (∀ j, valid_class j → ptr ∉ F j) →
  ∃ ar', do_slabs_free ptr size_ id ar = Ret tt ar' ∧ pool_ok ar' (upd_list F id (ptr :: F id)) P ∧
    heap_frame (ptr :: F id) (heap ar) (heap ar') ∧ pool_frame (the_pool ar) (the_pool ar').
Proof.
  intros Hok Hv Hp Hit (a & Ha & Hx) Hc Hrc Hln Hnf.
  assert (0 < ptr) as Hpos by (destruct (pg_valid _ (po_pages _ _ _ Hok) a id Ha), (chunk_in_page a id ptr Hv Hx); lia).
  destruct (do_slabs_free_spec ar F id p ptr size_ it) as (h & Hr & Hl & Hrl); try done; [apply Hok|lia|].
  assert (heap_frame (ptr :: F id) (heap ar) h) as Hfr.
  { eapply heap_frame_trans; [|by apply relinked_frame]. eapply insert_frame; [done|]. by apply elem_of_cons; left. }
  eexists. split; [exact Hr|]. split; [|split; [done|by eapply pool_frame_upd]].
  destruct Hok as [_ Hpg Hcl Hch Hf Hreg]. split; try done.
  - intros j q Hj Hq. cbn in Hq. rewrite (zlookup_insert _ _ _ _ _ Hp) in Hq. destruct (decide (id = j)) as [<-|Hne].
    + injection Hq as <-. destruct (Hcl id p Hv Hp). by split.
    + by apply Hcl.
  - intros y. cbn [heap]. rewrite (hf_dom _ _ _ Hfr). apply Hch.
  - intros j y Hj [[-> [->|Hy]%elem_of_cons]|[Hne Hy]]%upd_list_elem; [by exists a|by apply Hf..].
Qed.

Lemma slabs_adjust_spec ar F P id old ntotal :
  pool_ok ar F P → valid_class id →
  ∃ pl', slabs_adjust_mem_requested id old ntotal ar = Ret tt (mkArena (heap ar) pl') ∧
    pool_ok (mkArena (heap ar) pl') F P ∧ pool_frame (the_pool ar) pl'.
Proof.
  intros Hok Hv. destruct (valid_lookup ar F id (po_lists _ _ _ Hok) Hv) as [p Hp].
  unfold slabs_adjust_mem_requested. rewrite M_bind_eq. cbn [gets_pool gets compose].
  rewrite (ls_largest _ _ (po_lists _ _ _ Hok)).
  assert ((id <? POWER_SMALLEST) || (largest <? id) = false) as ->.
  { apply orb_false_iff. destruct Hv. split; apply Z.ltb_ge; lia. }
  rewrite (run_upd_class _ _ _ _ Hp). eexists. split; [done|]. by apply pool_ok_requested.
Qed.

End Invariant.

End SlabsAlloc.
