(* ===== verification/SlabsSafety.v ===== *)
(** * Chunks in use never overlap

    The allocator of [Slabs] seen by its client: the client obtains chunks, writes to the
    chunks that it holds and gives them back.  In every state that is reachable from the
    initialised allocator the chunks that are held do not overlap, no operation gets stuck
    on an assertion or an access out of bounds, and a page that the allocator has belongs
    to one class. *)

From S2P Require Import Prelude Bytes ItemHeap Rounding Slabs SlabsTheorems SlabsAlloc.
From stdpp Require Import base gmap list relations.
From Stdlib Require Import ZArith QArith Lia.

Local Open Scope Z_scope.

Module SlabsSafety.
Import ItemHeap Slabs SlabsTheorems SlabsAlloc.

(** ** The client *)

Definition size_of (pl : pool) (id : Z) : Z := default 0 (size <$> zlookup (slabclass pl) id).
Definition perslab_of (pl : pool) (id : Z) : Z := default 0 (perslab <$> zlookup (slabclass pl) id).
Definition page_of (pl : pool) (a id : Z) : Prop :=
  ∃ p, zlookup (slabclass pl) id = Some p ∧ a ∈ ztake (slabs p) (slab_list p).

(** What the system promises: [malloc] returns memory that no page of the allocator uses;
    and the class has room for the number of its pages. *)
Record system_ok (st : settings_t) (e : env) (pl : pool) (id : Z) : Prop := {
  sy_fresh : mem_base pl = 0 → malloc e ≠ 0 → 0 < malloc e ∧
    ∀ b j, valid_class (power_largest pl) j → page_of pl b j →
      malloc e + page_len st (size_of pl) (perslab_of pl) id ≤ b ∨
      b + page_len st (size_of pl) (perslab_of pl) j ≤ malloc e;
  sy_few : ∀ p, zlookup (slabclass pl) id = Some p → slabs p < 2 ^ 31
}.

(** What the client has to do to a chunk before it gives it back ([item_free]). *)
Definition released (it : item) : Prop := slabs_clsid it = 0 ∧ refcount it = 0 ∧ has_flag ITEM_LINKED it = false.

(** The state of allocator and client: the chunks that the client holds, with the class
    from which they come. *)
Inductive step (st : settings_t) : arena * gmap Z Z → arena * gmap Z Z → Prop :=
| step_alloc e n id ret ar ar' H :
    system_ok st e (the_pool ar) id →
    do_slabs_alloc st e n id ar = Ret ret ar' →
    step st (ar, H) (ar', if ret =? 0 then H else <[ret := id]> H)
| step_write x id it ar H :
    H !! x = Some id →
    step st (ar, H) (mkArena (<[x := it]> (heap ar)) (the_pool ar), H)
| step_free x n id it ar ar' H :
    H !! x = Some id → heap ar !! x = Some it → released it →
    do_slabs_free x n id ar = Ret tt ar' →
    step st (ar, H) (ar', delete x H).

(** ** The invariant *)

Section Invariant.
Context (st : settings_t) (largest : Z) (sz ps : Z → Z).
Context (Hsizes : sizes_ok st largest sz ps).

Abbreviation pool_ok := (pool_ok st largest sz ps).
Abbreviation valid := (valid_class largest).

(** The chunks of the client are those that are not free. *)
Definition holds_chunks (ar : arena) (H : gmap Z Z) : Prop :=
  ∃ F P, pool_ok ar F P ∧
    ∀ x id, H !! x = Some id ↔ ∃ a, P !! a = Some id ∧ x ∈ chunks sz ps a id ∧ x ∉ F id.

Lemma chunk_pos F P ar a id x : pool_ok ar F P → P !! a = Some id → x ∈ chunks sz ps a id → 0 < x.
Proof.
  intros Hok Ha Hx. destruct (pg_valid _ _ _ _ _ (po_pages _ _ _ _ _ _ _ Hok) a id Ha) as [Hv Hpos].
  destruct (chunk_in_page st largest sz ps Hsizes a id x Hv Hx). lia.
Qed.

Lemma dims_of ar F P id : pool_ok ar F P → valid id →
  size_of (the_pool ar) id = sz id ∧ perslab_of (the_pool ar) id = ps id.
Proof.
  intros Hok Hv. pose proof (po_lists _ _ _ _ _ _ _ Hok) as Hl.
  destruct (valid_lookup st largest sz ps Hsizes ar F id Hl Hv) as [p Hp].
  unfold size_of, perslab_of. rewrite Hp. by apply (ls_dims _ _ _ _ _ Hl).
Qed.

Lemma pages_iff ar F P a id : pool_ok ar F P → valid id → page_of (the_pool ar) a id ↔ P !! a = Some id.
Proof.
  intros Hok Hv. destruct (valid_lookup st largest sz ps Hsizes ar F id (po_lists _ _ _ _ _ _ _ Hok) Hv) as [p Hp].
  rewrite <- (lp_pages _ _ _ (po_class _ _ _ _ _ _ _ Hok id p Hv Hp)). split.
  - intros (q & Hq & Ha). congruence.
  - intros Ha. by exists p.
Qed.

Lemma system_env ar F P e id :
  pool_ok ar F P → valid id → system_ok st e (the_pool ar) id → env_ok st sz ps e P (the_pool ar) id.
Proof.
  intros Hok Hv [Hf Hw]. split; [|done]. intros Hb Hm. destruct (Hf Hb Hm) as [Hp Hd]. split; [done|].
  intros b j Hj. destruct (pg_valid _ _ _ _ _ (po_pages _ _ _ _ _ _ _ Hok) b j Hj) as [Hvj _].
  rewrite (ls_largest _ _ _ _ _ (po_lists _ _ _ _ _ _ _ Hok)) in Hd.
  specialize (Hd b j Hvj (proj2 (pages_iff ar F P b j Hok Hvj) Hj)). unfold page_len in *.
  destruct (dims_of ar F P j Hok Hvj) as [-> ->] in Hd. destruct (dims_of ar F P id Hok Hv) as [-> ->] in Hd. done.
Qed.

(** *** The steps *)

Lemma alloc_invalid e n id ar : power_largest (the_pool ar) = largest → ¬ valid id →
  do_slabs_alloc st e n id ar = Ret 0 ar.
Proof.
  intros Hl Hv. unfold do_slabs_alloc. rewrite M_bind_eq. cbn [gets_pool gets compose]. rewrite Hl.
  unfold valid_class in Hv.
  destruct (Z.ltb_spec id POWER_SMALLEST), (Z.ltb_spec largest id); cbn [orb]; try done. lia.
Qed.

Lemma held_not_free ar F P (H : gmap Z Z) x id : pool_ok ar F P →
  (∀ x id, H !! x = Some id ↔ ∃ a, P !! a = Some id ∧ x ∈ chunks sz ps a id ∧ x ∉ F id) →
  H !! x = Some id → ∀ j, valid j → x ∉ F j.
Proof.
  intros Hok HH (a & Ha & Hx & Hn)%HH j Hj Hxj.
  destruct (po_free _ _ _ _ _ _ _ Hok j x Hj Hxj) as (b & Hb & Hxb).
  destruct (chunk_page st largest sz ps Hsizes P a b id j x) as [_ ->]; try done. apply Hok.
Qed.

Lemma holds_chunks_alloc e n id ar H :
  holds_chunks ar H → system_ok st e (the_pool ar) id →
  ∃ ret ar', do_slabs_alloc st e n id ar = Ret ret ar' ∧
    holds_chunks ar' (if ret =? 0 then H else <[ret := id]> H) ∧
    (∀ x, is_Some (H !! x) → heap ar' !! x = heap ar !! x) ∧
    (ret ≠ 0 → H !! ret = None ∧ ∃ it, heap ar' !! ret = Some it ∧ free_item it) ∧
    pool_frame (the_pool ar) (the_pool ar').
Proof.
  intros (F & P & Hok & HH) Hsys. destruct (decide (valid id)) as [Hv|Hv].
  2: { exists 0, ar. rewrite alloc_invalid; [|apply (ls_largest _ _ _ _ _ (po_lists _ _ _ _ _ _ _ Hok))|done].
       split; [done|]. split; [by exists F, P|]. split; [done|]. split; [done|]. by split; [..|intros i p Hp; exists p]. }
  destruct (do_slabs_alloc_spec st largest sz ps Hsizes e ar F P n id Hok Hv)
    as (ret & ar' & F' & P' & Hr & Hfr & Hok' & [A1 A2 A3 A4 A5] & Hz & Hnz); [by eapply system_env|].
  exists ret, ar'. split; [done|].
  assert (∀ x, is_Some (H !! x) → heap ar' !! x = heap ar !! x) as Hheld.
  { intros x [j Hj]. apply (af_heap _ _ _ _ Hfr); [|by eapply held_not_free].
    apply HH in Hj as (a & Ha & Hx & _). apply (po_chunks _ _ _ _ _ _ _ Hok). by exists a, j. }
  pose proof (af_pool _ _ _ _ Hfr) as Hpf.
  assert (∀ x j, (∃ a, P !! a = Some j ∧ x ∈ chunks sz ps a j) → is_Some (heap ar !! x)) as Hin.
  { intros x j (a & Ha & Hx). apply (po_chunks _ _ _ _ _ _ _ Hok). by exists a, j. }
  assert (∀ x j, (∃ a, P !! a = Some j ∧ x ∈ chunks sz ps a j ∧ x ∉ F j) →
    ∃ a, P' !! a = Some j ∧ x ∈ chunks sz ps a j ∧ x ∉ F' j) as Hold.
  { intros x j (a & Ha & Hx & Hn). exists a. split; [by eapply lookup_weaken|]. split; [done|].
    destruct (decide (j = id)) as [->|Hj]; [|by rewrite A1]. intros Hf'. destruct (A3 x Hf') as [?|He]; [done|].
    destruct (Hin x id) as [it Hit]; [by exists a|congruence]. }
  assert (∀ x j, (∃ a, P' !! a = Some j ∧ x ∈ chunks sz ps a j ∧ x ∉ F' j) →
    (∃ a, P !! a = Some j ∧ x ∈ chunks sz ps a j ∧ x ∉ F j) ∨ (x = ret ∧ j = id ∧ ret ≠ 0)) as Hnew.
  { intros x j (a & Ha & Hx & Hn). pose proof (chunk_pos _ _ _ _ _ _ Hok' Ha Hx).
    destruct (A5 a j x Ha Hx) as [Ha'|[-> [?| ->]]]; [|done|by right; split_and!; [..|lia]].
    destruct (decide (x ∈ F j)) as [Hf|Hf]; [|left; by exists a]. right.
    destruct (decide (j = id)) as [->|Hj]; [|by rewrite A1 in Hn].
    destruct (A4 x Hf) as [?| ->]; [done|]. split_and!; [done|done|lia]. }
  destruct (Z.eqb_spec ret 0) as [H0|H0].
  - split; [|done]. exists F', P'. split; [done|]. intros x j. rewrite HH. split; [apply Hold|].
    intros [?|(_ & _ & ?)]%Hnew; done.
  - destruct (Hnz H0) as (Hn & Hfrom & it & Hit & Hfi).
    assert (∃ a, P' !! a = Some id ∧ ret ∈ chunks sz ps a id) as (ra & Hra & Hrx).
    { destruct Hfrom as [Hf|Hnone].
      - destruct (po_free _ _ _ _ _ _ _ Hok id ret Hv Hf) as (a & Ha & Hx). exists a. split; [by eapply lookup_weaken|done].
      - destruct (proj1 (po_chunks _ _ _ _ _ _ _ Hok' ret)) as (a & j & Ha & Hx); [by eexists|].
        destruct (A5 a j ret Ha Hx) as [Ha'|[-> _]]; [|by exists a].
        destruct (Hin ret j) as [? ?]; [by exists a|congruence]. }
    assert (H !! ret = None) as HHr.
    { destruct (H !! ret) as [j|] eqn:Hj; [|done]. apply HH in Hj as (a & Ha & Hx & Hnf).
      destruct Hfrom as [Hf|Hnone].
      - destruct (chunk_page st largest sz ps Hsizes P' a ra j id ret) as [_ ->]; try done; [apply Hok'|by eapply lookup_weaken].
      - destruct (Hin ret j) as [? ?]; [by exists a|congruence]. }
    split; [|split; [done|split; [|done]]]; [|by intros _; eauto]. exists F', P'. split; [done|]. intros x j. destruct (decide (x = ret)) as [->|Hx].
    + rewrite lookup_insert_eq. split.
      * intros [= <-]. by exists ra.
      * intros [Hh|(_ & -> & _)]%Hnew; [|done]. apply HH in Hh. congruence.
    + rewrite lookup_insert_ne by done. rewrite HH. split; [apply Hold|]. by intros [?|(? & _)]%Hnew.
Qed.

Lemma holds_chunks_write ar H x id it :
  holds_chunks ar H → H !! x = Some id → holds_chunks (mkArena (<[x := it]> (heap ar)) (the_pool ar)) H.
Proof.
  intros (F & P & Hok & HH) Hx. pose proof (held_not_free ar F P H x id Hok HH Hx) as Hnf.
  exists F, P. split; [|done]. apply HH in Hx as (a & Ha & Hx & _). destruct Hok as [Hl Hpg Hc Hch Hf Hr]. split; try done.
  - destruct Hl as [H1 H2 H3 H4 H5]. split; try done. intros j p Hj Hp. destruct (H4 j p Hj Hp) as [L1 L2 L3 L4].
    assert (∀ y, y ∈ F j → <[x := it]> (heap ar) !! y = heap ar !! y) as Hs.
    { intros y Hy. apply lookup_insert_ne. intros ->. by apply (Hnf j). }
    split; try done; [by eapply dlist_same|]. intros y Hy. cbn [heap]. rewrite Hs by done. by apply L4.
  - intros y. cbn [heap]. rewrite <- Hch, lookup_insert_is_Some. split; [|intros ?; destruct (decide (x = y)); auto].
    intros [<-|[_ ?]]; [|done]. apply Hch. by exists a, id.
Qed.

Lemma holds_chunks_free ar H x n id it :
  holds_chunks ar H → H !! x = Some id → heap ar !! x = Some it → released it →
  ∃ ar', do_slabs_free x n id ar = Ret tt ar' ∧ holds_chunks ar' (delete x H) ∧
    (∀ y, y ≠ x → is_Some (H !! y) → heap ar' !! y = heap ar !! y) ∧ pool_frame (the_pool ar) (the_pool ar').
Proof.
  intros (F & P & Hok & HH) Hx Hit (Hc & Hrc & Hln).
  pose proof (held_not_free ar F P H x id Hok HH Hx) as Hnf.
  pose proof (proj1 (HH x id) Hx) as (a & Ha & Hxa & _).
  destruct (pg_valid _ _ _ _ _ (po_pages _ _ _ _ _ _ _ Hok) a id Ha) as [Hv _].
  destruct (valid_lookup st largest sz ps Hsizes ar F id (po_lists _ _ _ _ _ _ _ Hok) Hv) as [p Hp].
  destruct (pool_ok_free st largest sz ps Hsizes ar F P id p x n it) as (ar' & Hr & Hok' & Hfr & Hpf); try done.
  { by exists a. }
  exists ar'. split; [done|]. split; [|split; [|done]].
  2: { intros y Hyx [j Hj]. apply (hf_same _ _ _ Hfr). intros [->|Hy]%elem_of_cons; [done|].
       by destruct (held_not_free ar F P H y j Hok HH Hj id Hv). }
  exists (upd_list F id (x :: F id)), P. split; [done|]. intros y j. split.
  - intros [Hyx Hy]%lookup_delete_Some. apply HH in Hy as (b & Hb & Hyb & Hn). exists b. do 2 (split; [done|]).
    intros [[-> [->|?]%elem_of_cons]|[_ ?]]%upd_list_elem; done.
  - intros (b & Hb & Hyb & Hn). rewrite (upd_list_elem F id (x :: F id) j y) in Hn. apply lookup_delete_Some.
    assert (x ≠ y) as Hxy.
    { intros ->. apply Hn. destruct (chunk_page st largest sz ps Hsizes P a b id j y) as [-> ->]; try done; [apply Hok|].
      left. split; [done|]. by apply elem_of_cons; left. }
    split; [done|]. apply HH. exists b. do 2 (split; [done|]). intros Hy. apply Hn.
    destruct (decide (j = id)) as [->|]; [left|by right]. split; [done|]. by apply elem_of_cons; right.
Qed.

Lemma holds_chunks_step ar H ar' H' : holds_chunks ar H → step st (ar, H) (ar', H') → holds_chunks ar' H'.
Proof.
  intros Hh. inversion 1 as [e n id ret ? ? ? Hsys Hr| |x n id it ? ? ? Hx Hit Hrel Hr]; subst.
  - destruct (holds_chunks_alloc e n id ar H Hh Hsys) as (ret' & ar'' & Hr' & Hh' & _). rewrite Hr in Hr'. by injection Hr' as <- <-.
  - by eapply holds_chunks_write.
  - destruct (holds_chunks_free ar H x n id it Hh Hx Hit Hrel) as (ar'' & Hr' & Hh' & _). rewrite Hr in Hr'. by injection Hr' as <-.
Qed.

Lemma holds_chunks_apart ar H x y i j :
  holds_chunks ar H → H !! x = Some i → H !! y = Some j → x ≠ y →
  x + size_of (the_pool ar) i ≤ y ∨ y + size_of (the_pool ar) j ≤ x.
Proof.
  intros (F & P & Hok & HH) (a & Ha & Hx & _)%HH (b & Hb & Hy & _)%HH Hne.
  destruct (pg_valid _ _ _ _ _ (po_pages _ _ _ _ _ _ _ Hok) a i Ha) as [Hvi _].
  destruct (pg_valid _ _ _ _ _ (po_pages _ _ _ _ _ _ _ Hok) b j Hb) as [Hvj _].
  destruct (dims_of ar F P i Hok Hvi) as [-> _]. destruct (dims_of ar F P j Hok Hvj) as [-> _].
  eapply (chunks_apart st largest sz ps Hsizes P a b); try done. apply Hok.
Qed.

End Invariant.

(** ** From the initialised allocator on *)

(** The sizes of the classes that [slabs_init] makes. *)
Lemma geometry_sizes st pl :
  settings_ok st → geometry st (slabclass pl) (power_largest pl) →
  sizes_ok st (power_largest pl) (size_of pl) (perslab_of pl).
Proof.
  intros Hst Hg.
  assert (∀ id, valid_class (power_largest pl) id → ∃ p, zlookup (slabclass pl) id = Some p ∧
    size_of pl id = size p ∧ perslab_of pl id = perslab p) as Hlk.
  { intros id [H1 H2]. destruct (zlookup_class (slabclass pl) id) as [p Hp];
      [apply Hg|pose proof (ge_largest _ _ _ Hg); slia|].
    exists p. unfold size_of, perslab_of. by rewrite Hp. }
  split.
  - apply Hg.
  - pose proof (so_max _ Hst). lia.
  - intros id Hv. destruct (Hlk id Hv) as (p & Hp & -> & _). by apply (ge_dims _ _ _ Hg id p).
  - intros id Hv. destruct (Hlk id Hv) as (p & Hp & -> & ->). destruct (ge_dims _ _ _ Hg id p Hv Hp). done.
  - intros i j Hi Hj Hij. destruct (Hlk i Hi) as (p & Hp & -> & _), (Hlk j Hj) as (q & Hq & -> & _).
    eapply (ge_mono _ _ _ Hg i j); try done; [apply Hi|]. split; [done|apply Hj].
Qed.

(** A pool without pages. *)
Lemma fresh_pool_ok st pl :
  geometry st (slabclass pl) (power_largest pl) → (∀ i p, zlookup (slabclass pl) i = Some p → fresh_class p) →
  (mem_base pl ≠ 0 → 0 < mem_current pl) →
  pool_ok st (power_largest pl) (size_of pl) (perslab_of pl) (mkArena ∅ pl) (λ _, []) ∅.
Proof.
  intros Hg Hf Hb. split; cbn.
  - split; cbn.
    + apply Hg.
    + done.
    + intros id p _ Hp. unfold size_of, perslab_of. by rewrite Hp.
    + intros id p _ Hp. specialize (Hf id p Hp). destruct p. injection Hf as -> -> -> -> -> -> ->. split; cbn; try done;
        [apply dlist_nil|].
      intros x Hx. by apply not_elem_of_nil in Hx.
    + intros i j x _ _ Hx. by apply not_elem_of_nil in Hx.
  - by split.
  - intros id p _ Hp. specialize (Hf id p Hp). destruct p. injection Hf as -> -> -> -> -> -> ->. split; cbn; try done.
    + constructor.
    + intros a. rewrite lookup_empty. split; [intros Hx; by apply not_elem_of_nil in Hx|done].
  - intros x. rewrite lookup_empty. split; [by intros [??]|]. intros (a & id & Ha & _). by rewrite lookup_empty in Ha.
  - intros id x _ Hx. by apply not_elem_of_nil in Hx.
  - intros Hne. split; [by apply Hb|]. intros a id Ha. by rewrite lookup_empty in Ha.
Qed.

(** The pages of the preallocation: every class gets one in turn. *)
Lemma preallocate_spec st largest sz ps (Hsizes : sizes_ok st largest sz ps) n e ar F P i k :
  pool_ok st largest sz ps ar F P → mem_base (the_pool ar) ≠ 0 →
  POWER_SMALLEST ≤ i → k = i - POWER_SMALLEST → (∀ a j, P !! a = Some j → j < i) →
  (∀ a j x, P !! a = Some j → x ∈ chunks sz ps a j → x ∈ F j) →
  preallocate_loop n st e largest i k ar = Stuck Aborted ∨
  ∃ ar' F' P', preallocate_loop n st e largest i k ar = Ret tt ar' ∧ pool_ok st largest sz ps ar' F' P' ∧
    (∀ a j x, P' !! a = Some j → x ∈ chunks sz ps a j → x ∈ F' j) ∧ pick_cur (the_pool ar') = pick_cur (the_pool ar).
Proof.
  revert ar F P i k. induction n as [|n IH]; intros ar F P i k Hok Hb Hi Hk HP Hfree; [right; by exists ar, F, P|].
  cbn [preallocate_loop]. destruct (Z.ltb_spec largest (k + 1)) as [Hlt|Hge]; [right; by exists ar, F, P|].
  assert (valid_class largest i) as Hv by (unfold valid_class; slia).
  destruct (do_slabs_newslab_spec st largest sz ps Hsizes (e i) ar F P i Hok Hv) as (ok & ar1 & Hr & Hfr & Hcase).
  { split; [done|]. intros p Hp. destruct (po_class _ _ _ _ _ _ _ Hok i p Hv Hp) as [_ S _ G].
    assert (slabs p = 0) as ->; [|lia]. destruct (ztake (slabs p) (slab_list p)) as [|a l] eqn:Ht.
    - apply (f_equal zlen) in Ht. rewrite zlen_ztake in Ht by (rewrite (lp_capacity _ _ _ (po_class _ _ _ _ _ _ _ Hok i p Hv Hp)); lia). done.
    - assert (P !! a = Some i) as Ha by (apply G; rewrite ?Ht; by apply elem_of_cons; left). specialize (HP a i Ha). lia. }
  rewrite (M_bind_ret _ _ _ _ _ Hr). destruct ok; [|by left].
  destruct Hcase as (a & Hnew & Hok1). rewrite <- (pf_pick _ _ (af_pool _ _ _ _ Hfr)).
  eapply IH; [exact Hok1| |lia|lia| |].
  - by rewrite (pf_base _ _ (af_pool _ _ _ _ Hfr)).
  - intros b j [[<- <-]|[_ Hb']]%lookup_insert_Some; [lia|]. specialize (HP b j Hb'). lia.
  - intros b j x [[<- <-]|[_ Hb']]%lookup_insert_Some Hx.
    + rewrite upd_list_eq. apply elem_of_app. left. by apply elem_of_reverse.
    + rewrite upd_list_ne; [by apply (Hfree b)|]. specialize (HP b j Hb'). lia.
Qed.

Lemma slabs_preallocate_spec st largest sz ps (Hsizes : sizes_ok st largest sz ps) e ar :
  pool_ok st largest sz ps ar (λ _, []) ∅ → mem_base (the_pool ar) ≠ 0 →
  slabs_preallocate st e largest ar = Stuck Aborted ∨
  ∃ ar' F P, slabs_preallocate st e largest ar = Ret tt ar' ∧ pool_ok st largest sz ps ar' F P ∧
    (∀ a j x, P !! a = Some j → x ∈ chunks sz ps a j → x ∈ F j) ∧ pick_cur (the_pool ar') = pick_cur (the_pool ar).
Proof.
  intros Hok Hb. unfold slabs_preallocate. generalize (Z.to_nat (POWER_LARGEST - POWER_SMALLEST + 1)). intros n.
  by eapply preallocate_spec.
Qed.

(** [slabs_init], when the classes are known. *)
Definition init_pool (l : list slabclass_t) (n limit : Z) (have : bool) (base : Z) (im : option Z) : pool :=
  mkPool l limit (default 0 im) n (if have then base else 0) (if have then base else 0) (if have then limit else 0)
    zero_rebal 0 (POWER_SMALLEST - 1).
Lemma slabs_init_eq st limit prealloc base e im l n :
  init_classes st = Ok (l, n) → (prealloc = true → 0 < base) →
  slabs_init st limit prealloc base e im =
    let ar := mkArena ∅ (init_pool l n limit prealloc base im) in
    if prealloc then
      match slabs_preallocate st e n ar with
      | Ret _ ar => Ok ar
      | Exn ex _ => match ex with end
      | Stuck f => Fail f
      end
    else Ok ar.
Proof.
  intros Hok Hbase. unfold slabs_init. rewrite Hok. cbn [mbind result_bind].
  assert (prealloc && negb (base =? 0) = prealloc) as ->; [|done].
  destruct prealloc; [|done]. specialize (Hbase eq_refl). by rewrite (proj2 (Z.eqb_neq base 0)) by lia.
Qed.

Lemma slabs_init_ok st limit prealloc base e im ar :
  settings_ok st → (prealloc = true → 0 < base) → slabs_init st limit prealloc base e im = Ok ar →
  ∃ sz ps, sizes_ok st (power_largest (the_pool ar)) sz ps ∧
    holds_chunks st (power_largest (the_pool ar)) sz ps ar ∅ ∧ pick_cur (the_pool ar) = 0.
Proof.
  intros Hst Hbase Hi. destruct (init_classes_spec st Hst) as (l & n & Hok & Hg & Hf).
  rewrite (slabs_init_eq _ _ _ _ _ _ _ _ Hok Hbase) in Hi. set (pl := init_pool _ _ _ _ _ _) in Hi.
  pose proof (geometry_sizes st pl Hst Hg) as Hsizes.
  assert (pool_ok st n (size_of pl) (perslab_of pl) (mkArena ∅ pl) (λ _, []) ∅) as Hp0.
  { apply (fresh_pool_ok st pl); [done|done|]. cbn. destruct prealloc; [intros _; by apply Hbase|done]. }
  exists (size_of pl), (perslab_of pl).
  assert (∀ ar' F P, pool_ok st n (size_of pl) (perslab_of pl) ar' F P →
    (∀ a j x, P !! a = Some j → x ∈ chunks (size_of pl) (perslab_of pl) a j → x ∈ F j) →
    pick_cur (the_pool ar') = 0 →
    sizes_ok st (power_largest (the_pool ar')) (size_of pl) (perslab_of pl) ∧
    holds_chunks st (power_largest (the_pool ar')) (size_of pl) (perslab_of pl) ar' ∅ ∧
    pick_cur (the_pool ar') = 0) as Hend.
  { intros ar' F P Hok' Hall Hpick. rewrite (ls_largest _ _ _ _ _ (po_lists _ _ _ _ _ _ _ Hok')). split; [done|].
    split; [|done]. exists F, P. split; [done|]. intros x id. rewrite lookup_empty. split; [done|].
    intros (a & Ha & Hx & Hn). destruct Hn. by apply (Hall a). }
  destruct prealloc.
  - destruct (slabs_preallocate_spec st n (size_of pl) (perslab_of pl) Hsizes e (mkArena ∅ pl) Hp0)
      as [Hr|(ar' & F & P & Hr & Hok' & Hall & Hpick)].
    + cbn. specialize (Hbase eq_refl). lia.
    + cbv zeta in Hi. by rewrite Hr in Hi.
    + cbv zeta in Hi. rewrite Hr in Hi. injection Hi as <-. by eapply Hend.
  - injection Hi as <-. eapply Hend; [exact Hp0| |done]. intros a j x Ha. by rewrite lookup_empty in Ha.
Qed.

Lemma reachable_holds st largest sz ps (Hsizes : sizes_ok st largest sz ps) s s' :
  rtc (step st) s s' → holds_chunks st largest sz ps s.1 s.2 → holds_chunks st largest sz ps s'.1 s'.2.
Proof.
  induction 1 as [|[ar H] [ar' H'] s' Hs _ IH]; [done|]. intros Hh. apply IH. cbn in *.
  by eapply holds_chunks_step.
Qed.

(** C16: The safety of the slab allocator ([do_slabs_alloc], [do_slabs_free],
    [do_slabs_newslab], [memory_allocate], [grow_slab_list]).  Whatever the client has
    allocated, written to its chunks and given back since [slabs_init]: two chunks that it
    holds do not overlap, the next allocation ends, with 0 or with a chunk that the client
    does not hold yet, and the release of a chunk that it holds ends as well: no assertion
    fails and no list or array is left. *)
Theorem slabs_safe (st : settings_t) (limit : Z) (prealloc : bool) (base : Z) (ei : Z → env) (im : option Z)
  (ar0 ar : arena) (H : gmap Z Z)
  (Hst : settings_ok st) (Hbase : prealloc = true → 0 < base)
  (Hinit : slabs_init st limit prealloc base ei im = Ok ar0)
  (Hreach : rtc (step st) (ar0, ∅) (ar, H)) :
  (∀ x y i j, H !! x = Some i → H !! y = Some j → x ≠ y →
     x + size_of (the_pool ar) i ≤ y ∨ y + size_of (the_pool ar) j ≤ x) ∧
  (∀ e n id, system_ok st e (the_pool ar) id →
     ∃ ret ar', do_slabs_alloc st e n id ar = Ret ret ar' ∧ (ret ≠ 0 → H !! ret = None)) ∧
  (∀ x n id, H !! x = Some id → ∃ it, heap ar !! x = Some it ∧
     (released it → ∃ ar', do_slabs_free x n id ar = Ret tt ar')).
Proof.
  destruct (slabs_init_ok _ _ _ _ _ _ _ Hst Hbase Hinit) as (sz & ps & Hsizes & H0 & _).
  pose proof (reachable_holds _ _ _ _ Hsizes _ _ Hreach H0) as Hh. cbn in Hh. split; [|split].
  - intros x y i j. by eapply holds_chunks_apart.
  - intros e n id Hsys. destruct (holds_chunks_alloc _ _ _ _ Hsizes e n id ar H Hh Hsys) as (ret & ar' & Hr & _ & _ & Hn & _).
    exists ret, ar'. split; [done|]. intros Hne. by apply Hn.
  - intros x n id Hx. pose proof Hh as (F & P & Hok & HH).
    pose proof (proj1 (HH x id) Hx) as (a & Ha & Hxa & _).
    destruct (proj2 (po_chunks _ _ _ _ _ _ _ Hok x)) as [it Hit]; [by exists a, id|]. exists it. split; [done|].
    intros Hrel. destruct (holds_chunks_free _ _ _ _ Hsizes ar H x n id it Hh Hx Hit Hrel) as (ar' & Hr & _). by exists ar'.
Qed.

(** *** An example: two chunks from a page of 1024 bytes *)

Definition small_settings : settings_t := mkSettings 48 1024 (5 # 4) false 0 true true.
Definition start : arena :=
  match slabs_init small_settings 65536 false 0 (λ _, mkEnv 0 true) None with
  | Ok ar => ar
  | Fail _ => mkArena ∅ (init_pool [] 0 0 false 0 None)
  end.
Definition after (e : env) (ar : arena) : arena :=
  match do_slabs_alloc small_settings e 70 1 ar with Ret _ ar' => ar' | _ => ar end.
Definition one : arena := after (mkEnv 4096 true) start.
Definition two : arena := after (mkEnv 0 true) one.

Lemma two_chunks :
  do_slabs_alloc small_settings (mkEnv 4096 true) 70 1 start = Ret 4960 one ∧
  do_slabs_alloc small_settings (mkEnv 0 true) 70 1 one = Ret 4864 two.
Proof. vm_compute. split; reflexivity. Qed.

Lemma small_settings_ok : settings_ok small_settings.
Proof. split; cbn; [unfold sizeof_item; lia|lia|by exists 128|by apply Qle_bool_iff]. Qed.

Lemma start_no_pages b j : ¬ page_of (the_pool start) b j.
Proof.
  intros (p & Hp & Hb). assert (forallb (λ p, slabs p =? 0) (slabclass (the_pool start)) = true) as Hall
    by (vm_compute; reflexivity).
  rewrite forallb_forall in Hall. unfold zlookup in Hp.
  destruct (0 <=? j); [|done].
  apply list_elem_of_lookup_2, list_elem_of_In, Hall, Z.eqb_eq in Hp. rewrite Hp in Hb. by apply not_elem_of_nil in Hb.
Qed.

Lemma class_one ar n e :
  option_map slabs (zlookup (slabclass (the_pool ar)) 1) = Some n → n < 2 ^ 31 →
  (mem_base (the_pool ar) = 0 → malloc e ≠ 0 → 0 < malloc e ∧ ∀ b j, ¬ page_of (the_pool ar) b j) →
  system_ok small_settings e (the_pool ar) 1.
Proof.
  intros Hq Hn Hm. split.
  - intros H1 H2. destruct (Hm H1 H2) as [Hp Hnone]. split; [done|]. intros b j _ Hb. by apply Hnone in Hb.
  - intros p Hp. rewrite Hp in Hq. by injection Hq as ->.
Qed.
Lemma few_pages :
  option_map slabs (zlookup (slabclass (the_pool start)) 1) = Some 0 ∧
  option_map slabs (zlookup (slabclass (the_pool one)) 1) = Some 1.
Proof. vm_compute. split; reflexivity. Qed.

Lemma two_reachable : rtc (step small_settings) (start, ∅) (two, <[4864 := 1]> (<[4960 := 1]> ∅)).
Proof.
  destruct two_chunks as [H1 H2], few_pages as [F1 F2].
  eapply rtc_l; [eapply (step_alloc _ (mkEnv 4096 true) 70 1 4960 start one); [|exact H1]|].
  - eapply class_one; [exact F1|lia|]. intros _ _. split; [apply Z.ltb_lt; reflexivity|apply start_no_pages].
  - apply rtc_once. eapply (step_alloc _ (mkEnv 0 true) 70 1 4864 one two); [|exact H2].
    eapply class_one; [exact F2|lia|]. intros _ Hne. by destruct Hne.
Qed.

Example slabs_safe_witness : 4864 + size_of (the_pool two) 1 ≤ 4960.
Proof.
  assert (slabs_init small_settings 65536 false 0 (λ _, mkEnv 0 true) None = Ok start) as Hi by (vm_compute; reflexivity).
  destruct (slabs_safe small_settings 65536 false 0 (λ _, mkEnv 0 true) None start two
    (<[4864 := 1]> (<[4960 := 1]> ∅)) small_settings_ok ltac:(done) Hi two_reachable) as (Hap & _ & _).
  destruct (Hap 4864 4960 1 1) as [Hl|Hl]; [done|done|lia|exact Hl|].
  exfalso. apply Hl. vm_compute. reflexivity.
Defined.

(** ** A page moved to a class that has grown meanwhile

    [slab_rebalance_start] makes room for one page in the list of the destination, and
    [slab_rebalance_finish] relies on it; but allocations go on while the page is moved,
    and a new page of the destination takes the room. *)

Definition rebalance_settings : settings_t := mkSettings 48 1024 (5 # 4) true 0 true true.
(** [n] pages of a class, at [base] and behind it. *)
Fixpoint new_pages (n : nat) (base id : Z) : SM unit :=
  match n with
  | O => mret tt
  | S n' => do_slabs_newslab rebalance_settings (mkEnv base true) id ;; new_pages n' (base + 1024) id
  end.
Definition moved_page (late_pages : nat) : result Z :=
  let* ar := slabs_init rebalance_settings 0 false 0 (λ _, mkEnv 0 true) None in
  match (new_pages 15 4096 1 ;; new_pages 2 65536 2 ;; do_slabs_reassign 2 1 ;;
         slab_rebalance_start (mkEnv 0 true) ;;
         new_pages late_pages 131072 1 ;;
         slab_rebalance_finish rebalance_settings ;;
         let* p := class_at 1 in mret (slabs p)) ar with
  | Ret n _ => Ok n
  | Exn e _ => match e with end
  | Stuck f => Fail f
  end.

Lemma rebalance_finish_out_of_bounds : moved_page 0 = Ok 16 ∧ moved_page 1 = Fail OutOfBounds.
Proof. vm_compute. split; reflexivity. Qed.

End SlabsSafety.
