(* ===== verification/ChunkAllocator.v ===== *)
(** * What the slab allocator promises to the items

    The interface between [Slabs] and [Items]: a class that states the operations of the
    allocator in terms of the chunks that its client holds, and its implementation by the
    invariant of [SlabsSafety]. *)

From S2P Require Import Prelude Bytes ItemHeap Rounding Slabs SlabsTheorems SlabsAlloc SlabsSafety.
From stdpp Require Import base gmap list.
From Stdlib Require Import ZArith Lia.

Local Open Scope Z_scope.

Module ChunkAllocator.
Import ItemHeap Slabs SlabsTheorems SlabsAlloc SlabsSafety.

(** Heaps that a client may exchange: the chunks that it does not hold are the same but
    for the link [h_next], which the allocator does not use. *)
Record client_frame (H : gmap Z Z) (h h' : heap_t) : Prop := {
  cf_dom : ∀ x, is_Some (h' !! x) ↔ is_Some (h !! x);
  cf_other : ∀ x it, H !! x = None → h !! x = Some it → ∃ v, h' !! x = Some (set_h_next v it)
}.

(** [Holds ar H]: the client of the allocator [ar] holds the chunks of [H], which maps a
    chunk to its class; [sz] is the size of the chunks of a class. *)
Class ChunkAllocator (st : settings_t) (largest : Z) (sz : Z → Z)
    (Holds : arena → gmap Z Z → Prop) : Prop := {
  ca_held ar H x id : Holds ar H → H !! x = Some id →
    valid_class largest id ∧ 0 < x ∧ is_Some (heap ar !! x);
  ca_small id : valid_class largest id → sz id ≤ 2 ^ 27;
  ca_frame ar H h : Holds ar H → client_frame H (heap ar) h → Holds (mkArena h (the_pool ar)) H;
  ca_clsid ar H n : Holds ar H →
    ∃ id, slabs_clsid_of n (the_pool ar) = Ok id ∧ (id ≠ 0 → valid_class largest id ∧ n ≤ sz id);
  ca_alloc ar H e n id : Holds ar H → system_ok st e (the_pool ar) id →
    ∃ ret ar', do_slabs_alloc st e n id ar = Ret ret ar' ∧
      Holds ar' (if ret =? 0 then H else <[ret := id]> H) ∧
      (∀ x, is_Some (H !! x) → heap ar' !! x = heap ar !! x) ∧
      (ret ≠ 0 → H !! ret = None ∧ ∃ it, heap ar' !! ret = Some it ∧ free_item it);
  ca_free ar H n x id it : Holds ar H → H !! x = Some id → heap ar !! x = Some it → released it →
    ∃ ar', do_slabs_free x n id ar = Ret tt ar' ∧ Holds ar' (delete x H) ∧
      (∀ y, y ≠ x → is_Some (H !! y) → heap ar' !! y = heap ar !! y);
  ca_adjust ar H id old n : Holds ar H → valid_class largest id →
    ∃ pl, slabs_adjust_mem_requested id old n ar = Ret tt (mkArena (heap ar) pl) ∧
      Holds (mkArena (heap ar) pl) H;
  ca_reassign ar H b src dst : Holds ar H →
    ∃ r pl, slabs_reassign b src dst ar = Ret r (mkArena (heap ar) pl) ∧ Holds (mkArena (heap ar) pl) H
}.

(** ** The implementation *)

Section Implementation.
Context (st : settings_t) (largest : Z) (sz ps : Z → Z) (Hsizes : sizes_ok st largest sz ps).

Abbreviation Holds := (holds_chunks st largest sz ps).

Lemma holds_client_frame ar H h : Holds ar H → client_frame H (heap ar) h → Holds (mkArena h (the_pool ar)) H.
Proof.
  intros (F & P & Hok & HH) [Hdom Hoth]. exists F, P. split; [|done].
  assert (∀ j x, valid_class largest j → x ∈ F j → H !! x = None) as Hfree.
  { intros j x Hj Hx. destruct (H !! x) as [id|] eqn:Hid; [|done].
    by destruct (held_not_free st largest sz ps Hsizes ar F P H x id Hok HH Hid j Hj). }
  destruct Hok as [Hl Hpg Hc Hch Hf Hr]. split; try done.
  - destruct Hl as [H1 H2 H3 H4 H5]. split; try done. intros j p Hj Hp. destruct (H4 j p Hj Hp) as [L1 L2 L3 L4].
    split; try done.
    + eapply dlist_frame; [done|]. intros x it Hx Hit.
      destruct (Hoth x it (Hfree j x Hj Hx) Hit) as [v Hv]. by eexists.
    + intros x Hx. destruct (L4 x Hx) as (it & Hit & [F1 F2 F3 F4]).
      destruct (Hoth x it (Hfree j x Hj Hx) Hit) as [v Hv]. eexists. split; [exact Hv|]. by split.
  - intros x. cbn [heap]. by rewrite Hdom.
Qed.

Lemma clsid_loop_total ar F n fuel i :
  lists_ok largest sz ps ar F → valid_class largest i → largest - i < Z.of_nat fuel →
  ∃ id, clsid_loop fuel (the_pool ar) n i = Ok id ∧ (id ≠ 0 → valid_class largest id ∧ n ≤ sz id).
Proof.
  intros Hl. revert i. induction fuel as [|fuel IH]; intros i Hi Hf; [unfold valid_class in Hi; lia|].
  cbn [clsid_loop]. destruct (valid_lookup st largest sz ps Hsizes ar F i Hl Hi) as [p Hp].
  rewrite (vec_at_Ok _ _ _ Hp). cbn [mbind result_bind]. destruct (ls_dims _ _ _ _ _ Hl i p Hi Hp) as [Hsz _].
  rewrite (ls_largest _ _ _ _ _ Hl). destruct (Z.ltb_spec (size p) n).
  - destruct (Z.eqb_spec i largest); [by exists 0|]. apply IH; unfold valid_class in *; lia.
  - exists i. split; [done|]. intros _. split; [done|lia].
Qed.

Lemma clsid_total ar H n : Holds ar H →
  ∃ id, slabs_clsid_of n (the_pool ar) = Ok id ∧ (id ≠ 0 → valid_class largest id ∧ n ≤ sz id).
Proof.
  intros (F & P & Hok & _). unfold slabs_clsid_of. destruct (n =? 0); [by exists 0|].
  pose proof (si_largest _ _ _ _ Hsizes). apply (clsid_loop_total ar F); [apply Hok|unfold valid_class; slia|].
  unfold MAX_NUMBER_OF_SLAB_CLASSES. slia.
Qed.

(** A change of the pool that concerns neither the classes nor the region. *)
Lemma holds_pool ar H pl :
  Holds ar H → slabclass pl = slabclass (the_pool ar) → power_largest pl = power_largest (the_pool ar) →
  mem_base pl = mem_base (the_pool ar) → mem_current pl = mem_current (the_pool ar) →
  Holds (mkArena (heap ar) pl) H.
Proof.
  intros (F & P & [[H1 H2 H3 H4 H5] Hpg Hc Hch Hf Hr] & HH) E1 E2 E3 E4. exists F, P. split; [|done].
  split; cbn; rewrite ?E1, ?E3, ?E4; try done. split; cbn; by rewrite ?E1, ?E2.
Qed.

(** The client's chunks, and the class at which the next search for a source begins. *)
Definition Holding (ar : arena) (H : gmap Z Z) : Prop := Holds ar H ∧ 0 ≤ pick_cur (the_pool ar).

Lemma holding_pool ar H pl :
  Holding ar H → slabclass pl = slabclass (the_pool ar) → power_largest pl = power_largest (the_pool ar) →
  mem_base pl = mem_base (the_pool ar) → mem_current pl = mem_current (the_pool ar) → 0 ≤ pick_cur pl →
  Holding (mkArena (heap ar) pl) H.
Proof. intros [Hh _] E1 E2 E3 E4 Hp. split; [by apply holds_pool|done]. Qed.

Lemma holding_largest ar H : Holding ar H → power_largest (the_pool ar) = largest.
Proof. intros [(F & P & Hok & _) _]. apply (ls_largest _ _ _ _ _ (po_lists _ _ _ _ _ _ _ Hok)). Qed.
Lemma holding_class ar H id : Holding ar H → valid_class largest id →
  ∃ p, zlookup (slabclass (the_pool ar)) id = Some p.
Proof. intros [(F & P & Hok & _) _] Hv. by eapply valid_lookup; [done|apply Hok|]. Qed.

Lemma pick_any_total n dst ar H :
  Holding ar H →
  ∃ r pl, pick_any_loop n dst ar = Ret r (mkArena (heap ar) pl) ∧ Holding (mkArena (heap ar) pl) H ∧
    slab_rebalance_signal pl = slab_rebalance_signal (the_pool ar).
Proof.
  revert ar. induction n as [|n IH]; intros ar Hh; cbn [pick_any_loop].
  - exists (-1), (the_pool ar). destruct ar. done.
  - rewrite M_bind_eq. cbn [gets_pool gets compose Datatypes.id].
    set (cur := if power_largest (the_pool ar) <? _ then _ else _).
    assert (valid_class largest cur) as Hv.
    { unfold cur. rewrite (holding_largest ar H Hh). pose proof (proj2 Hh). pose proof (si_largest _ _ _ _ Hsizes).
      unfold valid_class. destruct (Z.ltb_spec largest (pick_cur (the_pool ar) + 1)); slia. }
    rewrite M_bind_eq. cbn [upd_pool modify]. set (ar1 := mkArena (heap ar) (set_pick_cur cur (the_pool ar))).
    assert (Holding ar1 H) as Hh1.
    { apply (holding_pool ar H (set_pick_cur cur (the_pool ar)) Hh); try done. cbn. unfold valid_class in Hv. slia. }
    destruct (cur =? dst).
    { destruct (IH ar1 Hh1) as (r & pl & Hr & Hh' & Hs). by exists r, pl. }
    destruct (holding_class ar1 H cur Hh1 Hv) as [p Hp]. rewrite (M_bind_ret _ _ _ _ _ (run_class _ _ _ Hp)).
    destruct (1 <? slabs p); [by exists cur, (the_pool ar1)|].
    destruct (IH ar1 Hh1) as (r & pl & Hr & Hh' & Hs). by exists r, pl.
Qed.

Lemma reassign_total ar H b src dst :
  Holding ar H →
  ∃ r pl, slabs_reassign b src dst ar = Ret r (mkArena (heap ar) pl) ∧ Holding (mkArena (heap ar) pl) H.
Proof.
  intros Hh. assert (∀ r : reassign_result_type, ∃ r' pl, Ret (E := Empty_set) r ar = Ret r' (mkArena (heap ar) pl) ∧
    Holding (mkArena (heap ar) pl) H) as Hend by (intros r; exists r, (the_pool ar); by destruct ar).
  unfold slabs_reassign. destruct b; [|apply Hend].
  unfold do_slabs_reassign. rewrite M_bind_eq. cbn [gets_pool gets compose Datatypes.id].
  destruct (negb _); [apply Hend|]. destruct (src =? dst); [apply Hend|]. clear Hend.
  assert (∃ src' pl, (if src =? -1 then slabs_reassign_pick_any dst else mret src) ar =
    Ret src' (mkArena (heap ar) pl) ∧ Holding (mkArena (heap ar) pl) H) as (src' & pl & Hr & Hh').
  { destruct (src =? -1); [|exists src, (the_pool ar); by destruct ar].
    unfold slabs_reassign_pick_any. rewrite M_bind_eq. cbn [gets_pool gets compose].
    destruct (pick_any_total (Z.to_nat (power_largest (the_pool ar) - POWER_SMALLEST + 1)) dst ar H Hh)
      as (r & pl & Hr & Hh' & _). by exists r, pl. }
  rewrite (M_bind_ret _ _ _ _ _ Hr), (holding_largest ar H Hh).
  destruct (Z.ltb_spec src' POWER_SMALLEST); cbn [orb]; [by exists REASSIGN_BADCLASS, pl|].
  destruct (Z.ltb_spec largest src'); cbn [orb]; [by exists REASSIGN_BADCLASS, pl|].
  destruct (_ || _); [by exists REASSIGN_BADCLASS, pl|].
  destruct (holding_class _ _ src' Hh' ltac:(done)) as [p Hp]. rewrite (M_bind_ret _ _ _ _ _ (run_class _ _ _ Hp)).
  destruct (slabs p <? 2); [by exists REASSIGN_NOSPARE, pl|].
  eexists REASSIGN_OK, _. split; [reflexivity|]. destruct Hh' as [Hh1 Hp1].
  by apply (holding_pool (mkArena (heap ar) pl) H).
Qed.

Lemma adjust_total ar H id old n :
  Holding ar H → valid_class largest id →
  ∃ pl, slabs_adjust_mem_requested id old n ar = Ret tt (mkArena (heap ar) pl) ∧ Holding (mkArena (heap ar) pl) H.
Proof.
  intros [(F & P & Hok & HH) Hp] Hv.
  destruct (slabs_adjust_spec st largest sz ps Hsizes ar F P id old n Hok Hv) as (pl & Hr & Hok' & Hf).
  exists pl. split; [done|]. split; [by exists F, P|]. cbn. by rewrite (pf_pick _ _ Hf).
Qed.

#[export] Instance slab_allocator : ChunkAllocator st largest sz Holding.
Proof using Hsizes.
  split.
  - intros ar H x id [(F & P & Hok & HH) _] (a & Ha & Hx & Hn)%HH.
    destruct (pg_valid _ _ _ _ _ (po_pages _ _ _ _ _ _ _ Hok) a id Ha) as [Hv Hpos].
    destruct (chunk_in_page st largest sz ps Hsizes a id x Hv Hx).
    split; [done|]. split; [lia|]. apply (po_chunks _ _ _ _ _ _ _ Hok). by exists a, id.
  - intros id Hv. pose proof (si_size _ _ _ _ Hsizes id Hv). pose proof (si_max _ _ _ _ Hsizes). lia.
  - intros ar H h [Hh Hp] Hf. split; [by apply holds_client_frame|done].
  - intros ar H n [Hh _]. by eapply clsid_total.
  - intros ar H e n id [Hh Hp] Hsys.
    destruct (holds_chunks_alloc st largest sz ps Hsizes e n id ar H Hh Hsys) as (ret & ar' & Hr & Hh' & Hs & Hn & Hpf).
    exists ret, ar'. split; [done|]. split; [split; [done|by rewrite (pf_pick _ _ Hpf)]|]. done.
  - intros ar H n x id it [Hh Hp] Hx Hit Hrel.
    destruct (holds_chunks_free st largest sz ps Hsizes ar H x n id it Hh Hx Hit Hrel) as (ar' & Hr & Hh' & Hs & Hpf).
    exists ar'. split; [done|]. split; [split; [done|by rewrite (pf_pick _ _ Hpf)]|]. done.
  - apply adjust_total.
  - intros ar H b src dst Hh. by apply reassign_total.
Qed.

End Implementation.

(** The initialised allocator. *)
Lemma slabs_init_holding st limit prealloc base e im ar :
  settings_ok st → (prealloc = true → 0 < base) → slabs_init st limit prealloc base e im = Ok ar →
  ∃ sz ps, sizes_ok st (power_largest (the_pool ar)) sz ps ∧
    Holding st (power_largest (the_pool ar)) sz ps ar ∅.
Proof.
  intros Hst Hbase Hi. destruct (slabs_init_ok _ _ _ _ _ _ _ Hst Hbase Hi) as (sz & ps & Hsizes & Hh & Hp).
  exists sz, ps. split; [done|]. split; [done|]. by rewrite Hp.
Qed.

End ChunkAllocator.
