(* ===== verification/Items.v ===== *)
(** * The items of memcached

    [memcached-1.4.15/items.c] with the wrappers of [thread.c]: reference counted items,
    reachable by their key through the hash table ([Assoc]), kept in one queue per slab
    class from the most to the least recently used one, and stored in the chunks of the
    slab allocator ([Slabs]).  The three components share the items ([ItemHeap]).

    An operation runs under the locks that the code takes, as one step; a lock that the
    code only tries to get is had or not as an argument says ([sys]).  The statistics that
    only count requests are left out; those of the queues and the totals are there. *)

From S2P Require Import Prelude Bytes CStrings ItemHeap Assoc Slabs.
From stdpp Require Import base gmap list.
From Stdlib Require Import ZArith Lia.

Local Open Scope Z_scope.

Module Items.
Import ItemHeap.

(** ** State *)

Definition ITEM_UPDATE_INTERVAL : Z := 60.
Definition LARGEST_ID : Z := Slabs.POWER_LARGEST.
Definition TAIL_REPAIR_TIME : Z := 3 * 3600.

Record itemstats_t := mkItemstats {
  evicted : Z;
  evicted_nonzero : Z;
  evicted_time : Z;
  reclaimed : Z;
  outofmemory : Z;
  tailrepairs : Z;
  expired_unfetched : Z;
  evicted_unfetched : Z
}.
Definition zero_itemstats : itemstats_t := mkItemstats 0 0 0 0 0 0 0 0.
Definition count_evicted (x : itemstats_t) : itemstats_t :=
  mkItemstats (u64 (evicted x + 1)) (evicted_nonzero x) (evicted_time x) (reclaimed x) (outofmemory x) (tailrepairs x) (expired_unfetched x) (evicted_unfetched x).
Definition count_evicted_nonzero (x : itemstats_t) : itemstats_t :=
  mkItemstats (evicted x) (u64 (evicted_nonzero x + 1)) (evicted_time x) (reclaimed x) (outofmemory x) (tailrepairs x) (expired_unfetched x) (evicted_unfetched x).
Definition set_evicted_time (v : Z) (x : itemstats_t) : itemstats_t :=
  mkItemstats (evicted x) (evicted_nonzero x) v (reclaimed x) (outofmemory x) (tailrepairs x) (expired_unfetched x) (evicted_unfetched x).
Definition count_reclaimed (x : itemstats_t) : itemstats_t :=
  mkItemstats (evicted x) (evicted_nonzero x) (evicted_time x) (u64 (reclaimed x + 1)) (outofmemory x) (tailrepairs x) (expired_unfetched x) (evicted_unfetched x).
Definition count_outofmemory (x : itemstats_t) : itemstats_t :=
  mkItemstats (evicted x) (evicted_nonzero x) (evicted_time x) (reclaimed x) (u64 (outofmemory x + 1)) (tailrepairs x) (expired_unfetched x) (evicted_unfetched x).
Definition count_tailrepairs (x : itemstats_t) : itemstats_t :=
  mkItemstats (evicted x) (evicted_nonzero x) (evicted_time x) (reclaimed x) (outofmemory x) (u64 (tailrepairs x + 1)) (expired_unfetched x) (evicted_unfetched x).
Definition count_expired_unfetched (x : itemstats_t) : itemstats_t :=
  mkItemstats (evicted x) (evicted_nonzero x) (evicted_time x) (reclaimed x) (outofmemory x) (tailrepairs x) (u64 (expired_unfetched x + 1)) (evicted_unfetched x).
Definition count_evicted_unfetched (x : itemstats_t) : itemstats_t :=
  mkItemstats (evicted x) (evicted_nonzero x) (evicted_time x) (reclaimed x) (outofmemory x) (tailrepairs x) (expired_unfetched x) (u64 (evicted_unfetched x + 1)).

(** The variables of [items.c] with those that it uses: the hash table, which holds the
    items, the allocator, the totals, the clock and the setting [oldest_live]. *)
Record cache := mkCache {
  tbl : Assoc.table;
  the_pool : Slabs.pool;
  heads : list Z;
  tails : list Z;
  sizes : list Z;
  itemstats : list itemstats_t;
  curr_bytes : Z;
  curr_items : Z;
  total_items : Z;
  cas_id : Z;
  current_time : Z;
  oldest_live : Z
}.
Definition set_tbl (v : Assoc.table) (x : cache) : cache :=
  mkCache v (the_pool x) (heads x) (tails x) (sizes x) (itemstats x) (curr_bytes x) (curr_items x) (total_items x) (cas_id x) (current_time x) (oldest_live x).
Definition set_the_pool (v : Slabs.pool) (x : cache) : cache :=
  mkCache (tbl x) v (heads x) (tails x) (sizes x) (itemstats x) (curr_bytes x) (curr_items x) (total_items x) (cas_id x) (current_time x) (oldest_live x).
Definition set_heads (v : list Z) (x : cache) : cache :=
  mkCache (tbl x) (the_pool x) v (tails x) (sizes x) (itemstats x) (curr_bytes x) (curr_items x) (total_items x) (cas_id x) (current_time x) (oldest_live x).
Definition set_tails (v : list Z) (x : cache) : cache :=
  mkCache (tbl x) (the_pool x) (heads x) v (sizes x) (itemstats x) (curr_bytes x) (curr_items x) (total_items x) (cas_id x) (current_time x) (oldest_live x).
Definition set_sizes (v : list Z) (x : cache) : cache :=
  mkCache (tbl x) (the_pool x) (heads x) (tails x) v (itemstats x) (curr_bytes x) (curr_items x) (total_items x) (cas_id x) (current_time x) (oldest_live x).
Definition set_itemstats (v : list itemstats_t) (x : cache) : cache :=
  mkCache (tbl x) (the_pool x) (heads x) (tails x) (sizes x) v (curr_bytes x) (curr_items x) (total_items x) (cas_id x) (current_time x) (oldest_live x).
Definition set_totals (bytes items total : Z) (x : cache) : cache :=
  mkCache (tbl x) (the_pool x) (heads x) (tails x) (sizes x) (itemstats x) bytes items total (cas_id x) (current_time x) (oldest_live x).
Definition set_cas_id (v : Z) (x : cache) : cache :=
  mkCache (tbl x) (the_pool x) (heads x) (tails x) (sizes x) (itemstats x) (curr_bytes x) (curr_items x) (total_items x) v (current_time x) (oldest_live x).
Definition set_current_time (v : Z) (x : cache) : cache :=
  mkCache (tbl x) (the_pool x) (heads x) (tails x) (sizes x) (itemstats x) (curr_bytes x) (curr_items x) (total_items x) (cas_id x) v (oldest_live x).
Definition set_oldest_live (v : Z) (x : cache) : cache :=
  mkCache (tbl x) (the_pool x) (heads x) (tails x) (sizes x) (itemstats x) (curr_bytes x) (curr_items x) (total_items x) (cas_id x) (current_time x) v.
Definition heap_of (c : cache) : heap_t := Assoc.heap (tbl c).
Definition set_heap (h : heap_t) (c : cache) : cache := set_tbl (Assoc.set_heap h (tbl c)) c.

Abbreviation IM := (M Empty_set cache).

(** What the environment decides during an operation: the answers of the system to the
    allocator, the locks that can be had, and what is in memory that has been allocated
    and not yet written, or that belongs to somebody else. *)
Record sys := mkSys {
  s_env : Slabs.env;
  s_trylock : Z → bool;
  s_reassign_lock : bool;
  s_junk_data : bytes;
  s_junk_cas : Z;
  (** what lies in memory behind the value of an item *)
  s_beyond : Z → bytes
}.

Definition the_item (p : Z) : IM item := λ c,
  match get_item (heap_of c) p with Ok it => Ret it c | Fail f => Stuck f end.
Definition on_heap (f : heap_t → result heap_t) : IM unit := λ c,
  match f (heap_of c) with Ok h => Ret tt (set_heap h c) | Fail e => Stuck e end.
Definition on_item (p : Z) (f : item → item) : IM unit := on_heap (upd_item p f).
Definition on_table (f : Assoc.table → result Assoc.table) : IM unit := λ c,
  match f (tbl c) with Ok t => Ret tt (set_tbl t c) | Fail e => Stuck e end.
Definition on_arena {A} (m : M Empty_set Slabs.arena A) : IM A := λ c,
  match m (Slabs.mkArena (heap_of c) (the_pool c)) with
  | Ret a ar => Ret a (set_the_pool (Slabs.the_pool ar) (set_heap (Slabs.heap ar) c))
  | Exn e _ => match e with end
  | Stuck f => Stuck f
  end.
Definition assert (b : bool) : IM unit := if b then mret tt else stuck AssertFailed.
(** An element of one of the arrays of the queues. *)
Definition elem_at {A} (arr : cache → list A) (id : Z) : IM A :=
  let* l := gets arr in lift_result (vec_at l id).
Definition set_elem {A} (arr : cache → list A) (set : list A → cache → cache) (id : Z) (v : A) : IM unit :=
  let* l := gets arr in let* l := lift_result (vec_set l id v) in modify (set l).
Definition count (id : Z) (f : itemstats_t → itemstats_t) : IM unit :=
  let* x := elem_at itemstats id in set_elem itemstats set_itemstats id (f x).

Section Operations.
(** The settings that do not change, and the hash function. *)
Context (st : Slabs.settings_t) (hash : bytes → Z).

(** ** Sizes *)

(** [%d]. *)
Definition print_int (n : Z) : bytes := if n <? 0 then 45 :: decimal (- n) else decimal n.
(** The suffix and the size of an item; the numbers have at most eleven characters, so
    that the bound of 40 of [snprintf] is never reached. *)
Definition item_suffix (flags nbytes : Z) : bytes := (32 :: print_int flags) ++ (32 :: print_int (nbytes - 2)) ++ [13; 10].
Definition item_make_header (nkey flags nbytes : Z) : bytes * Z :=
  let suffix := item_suffix flags nbytes in
  (suffix, u64 (sizeof_item + u8 nkey + zlen suffix + nbytes)).
Definition item_ntotal (nkey flags nbytes : Z) : Z :=
  let ntotal := (item_make_header (nkey + 1) flags nbytes).2 in
  if Slabs.use_cas st then u64 (ntotal + sizeof_cas) else ntotal.
Definition item_size_ok (nkey flags nbytes : Z) : IM bool :=
  let* pl := gets the_pool in
  let* id := lift_result (Slabs.slabs_clsid_of (item_ntotal nkey flags nbytes) pl) in
  mret (negb (id =? 0)).

Definition get_cas_id : IM Z :=
  modify (λ c, set_cas_id (u64 (cas_id c + 1)) c) ;; gets cas_id.

(** ** Queues *)

Definition item_link_q (it : Z) : IM unit :=
  let* i := the_item it in
  assert (slabs_clsid i <? LARGEST_ID) ;;
  assert (negb (has_flag ITEM_SLABBED i)) ;;
  let* head := elem_at heads (slabs_clsid i) in
  let* tail := elem_at tails (slabs_clsid i) in
  assert (negb (it =? head)) ;;
  assert ((negb (head =? 0) && negb (tail =? 0)) || ((head =? 0) && (tail =? 0))) ;;
  on_heap (link_front it head) ;;
  set_elem heads set_heads (slabs_clsid i) it ;;
  (if tail =? 0 then set_elem tails set_tails (slabs_clsid i) it else mret tt) ;;
  let* n := elem_at sizes (slabs_clsid i) in
  set_elem sizes set_sizes (slabs_clsid i) (u32 (n + 1)).

Definition item_unlink_q (it : Z) : IM unit :=
  let* i := the_item it in
  assert (slabs_clsid i <? LARGEST_ID) ;;
  let* head := elem_at heads (slabs_clsid i) in
  let* tail := elem_at tails (slabs_clsid i) in
  (if head =? it then assert (prev i =? 0) ;; set_elem heads set_heads (slabs_clsid i) (next i) else mret tt) ;;
  (if tail =? it then assert (next i =? 0) ;; set_elem tails set_tails (slabs_clsid i) (prev i) else mret tt) ;;
  assert (negb (next i =? it)) ;;
  assert (negb (prev i =? it)) ;;
  on_heap (link_around it) ;;
  let* n := elem_at sizes (slabs_clsid i) in
  set_elem sizes set_sizes (slabs_clsid i) (u32 (n - 1)).

(** ** Release *)

Definition item_free (it : Z) : IM unit :=
  let* i := the_item it in
  let ntotal := ITEM_ntotal i in
  assert (negb (has_flag ITEM_LINKED i)) ;;
  let* head := elem_at heads (slabs_clsid i) in
  assert (negb (it =? head)) ;;
  let* tail := elem_at tails (slabs_clsid i) in
  assert (negb (it =? tail)) ;;
  assert (refcount i =? 0) ;;
  let clsid := slabs_clsid i in
  on_item it (set_slabs_clsid 0) ;;
  on_arena (Slabs.do_slabs_free it ntotal clsid).

Definition do_item_remove (it : Z) : IM unit :=
  let* i := the_item it in
  assert (negb (has_flag ITEM_SLABBED i)) ;;
  on_item it refcount_decr ;;
  let* i := the_item it in
  if refcount i =? 0 then item_free it else mret tt.

(** ** Linking *)

Definition do_item_link (it : Z) (hv : Z) : IM Z :=
  let* i := the_item it in
  assert (negb (has_flag ITEM_LINKED i) && negb (has_flag ITEM_SLABBED i)) ;;
  let* now := gets current_time in
  on_item it (λ i, set_time now (add_flag ITEM_LINKED i)) ;;
  let* i := the_item it in
  modify (λ c, set_totals (u64 (curr_bytes c + ITEM_ntotal i)) (u32 (curr_items c + 1)) (u32 (total_items c + 1)) c) ;;
  let* cas := if Slabs.use_cas st then get_cas_id else mret 0 in
  on_item it (ITEM_set_cas cas) ;;
  on_table (Assoc.assoc_insert it hv) ;;
  item_link_q it ;;
  on_item it refcount_incr ;;
  mret 1.

(** [do_item_unlink] does the same under [cache_lock]. *)
Definition do_item_unlink_nolock (it : Z) (hv : Z) : IM unit :=
  let* i := the_item it in
  if has_flag ITEM_LINKED i then
    on_item it (clear_flag ITEM_LINKED) ;;
    let* i := the_item it in
    modify (λ c, set_totals (u64 (curr_bytes c - ITEM_ntotal i)) (u32 (curr_items c - 1)) (total_items c) c) ;;
    on_table (Assoc.assoc_delete (ITEM_key i) hv) ;;
    item_unlink_q it ;;
    do_item_remove it
  else mret tt.
Definition do_item_unlink (it : Z) (hv : Z) : IM unit := do_item_unlink_nolock it hv.

Definition do_item_update (it : Z) : IM unit :=
  let* i := the_item it in
  let* now := gets current_time in
  if time i <? u32 (now - ITEM_UPDATE_INTERVAL) then
    assert (negb (has_flag ITEM_SLABBED i)) ;;
    if has_flag ITEM_LINKED i then
      item_unlink_q it ;;
      on_item it (set_time now) ;;
      item_link_q it
    else mret tt
  else mret tt.

Definition do_item_replace (it new_it : Z) (hv : Z) : IM Z :=
  let* i := the_item it in
  assert (negb (has_flag ITEM_SLABBED i)) ;;
  do_item_unlink it hv ;;
  do_item_link new_it hv.

(** ** Allocation *)

(** [item_trylock] for the item with the hash [hv], unless the caller holds that lock. *)
Definition locked_out (s : sys) (cur_hv hv : Z) : bool := negb (hv =? cur_hv) && negb (s_trylock s hv).

(** The item has expired or was flushed. *)
Definition expired_in_queue (now oldest : Z) (i : item) : bool :=
  (negb (exptime i =? 0) && (exptime i <? now)) || ((time i <=? oldest) && (oldest <=? now)).

(** The item at the end of the queue gives up its chunk for [ntotal] bytes. *)
Definition take_over (search hv ntotal : Z) : IM unit :=
  let* i := the_item search in
  on_arena (Slabs.slabs_adjust_mem_requested (slabs_clsid i) (ITEM_ntotal i) ntotal) ;;
  do_item_unlink_nolock search hv ;;
  on_item search (set_slabs_clsid 0).

(** The part of the loop for an item that nobody refers to: the chunk that has been found
    for the new item, 0 if there is none. *)
Definition try_item (s : sys) (search hv id ntotal : Z) : IM Z :=
  let* i := the_item search in
  let* now := gets current_time in
  let* oldest := gets oldest_live in
  if expired_in_queue now oldest i then
    count id count_reclaimed ;;
    (if has_flag ITEM_FETCHED i then mret tt else count id count_expired_unfetched) ;;
    take_over search hv ntotal ;;
    mret search
  else
    let* it := on_arena (Slabs.do_slabs_alloc st (s_env s) ntotal id) in
    if it =? 0 then
      if negb (Slabs.evict_to_free st) then count id count_outofmemory ;; mret 0
      else
        count id count_evicted ;;
        count id (set_evicted_time (u32 (now - time i))) ;;
        (if exptime i =? 0 then mret tt else count id count_evicted_nonzero) ;;
        (if has_flag ITEM_FETCHED i then mret tt else count id count_evicted_unfetched) ;;
        take_over search hv ntotal ;;
        (if Slabs.slab_automove st =? 2
         then let* _ := on_arena (Slabs.slabs_reassign (s_reassign_lock s) (-1) id) in mret tt
         else mret tt) ;;
        mret search
    else mret it.

(** The loop over the last [tries] items of a queue.  [None]: it ended without [break], so
    that the allocator is to be asked. *)
Fixpoint search_loop (tries : nat) (s : sys) (search cur_hv id ntotal : Z) : IM (option Z) :=
  match tries with
  | O => mret None
  | S tries' =>
      if search =? 0 then mret None else
      let* i := the_item search in
      let hv := hash (ITEM_key i) in
      if locked_out s cur_hv hv then search_loop tries' s (prev i) cur_hv id ntotal
      else
        on_item search refcount_incr ;;
        let* i := the_item search in
        if negb (refcount i =? 2) then
          on_item search refcount_decr ;;
          let* now := gets current_time in
          (if u32 (time i + TAIL_REPAIR_TIME) <? now then
             count id count_tailrepairs ;;
             on_item search (set_refcount 1) ;;
             do_item_unlink_nolock search hv
           else mret tt) ;;
          let* i := the_item search in
          search_loop tries' s (prev i) cur_hv id ntotal
        else
          let* it := try_item s search hv id ntotal in
          on_item search refcount_decr ;;
          mret (Some it)
  end.

(** The fields of a new item; its value and its number have not been written yet: they are
    what was in the memory before. *)
Definition init_item (s : sys) (id : Z) (key : bytes) (exptime nbytes : Z) (suffix : bytes) (i : item) : item :=
  mkItem 0 0 0 (time i) exptime nbytes (refcount i) (if Slabs.use_cas st then ITEM_CAS else 0) id
    (s_junk_cas s) key suffix (resize (Z.to_nat nbytes) 0 (s_junk_data s)).

Definition do_item_alloc (s : sys) (key : bytes) (flags exptime nbytes cur_hv : Z) : IM Z :=
  let suffix := (item_make_header (zlen key + 1) flags nbytes).1 in
  let ntotal := item_ntotal (zlen key) flags nbytes in
  let* pl := gets the_pool in
  let* id := lift_result (Slabs.slabs_clsid_of ntotal pl) in
  if id =? 0 then mret 0 else
  let* search := elem_at tails id in
  let* found := search_loop 5 s search cur_hv id ntotal in
  let* it := match found with
             | Some it => mret it
             | None => on_arena (Slabs.do_slabs_alloc st (s_env s) ntotal id)
             end in
  if it =? 0 then count id count_outofmemory ;; mret 0
  else
    let* i := the_item it in
    assert (slabs_clsid i =? 0) ;;
    let* head := elem_at heads id in
    assert (negb (it =? head)) ;;
    on_item it (set_refcount 1) ;;
    on_item it (init_item s id key exptime nbytes suffix) ;;
    mret it.

(** ** Lookup *)

(** The page of the item is being moved to another class. *)
Definition being_moved (pl : Slabs.pool) (it : Z) : bool :=
  negb (Slabs.slab_rebalance_signal pl =? 0) &&
  (Slabs.slab_start (Slabs.slab_rebal pl) <=? it) && (it <? Slabs.slab_end (Slabs.slab_rebal pl)).

Definition expired (now oldest : Z) (i : item) : bool :=
  (negb (oldest =? 0) && (oldest <=? now) && (time i <=? oldest)) ||
  (negb (exptime i =? 0) && (exptime i <=? now)).

Definition do_item_get (key : bytes) (hv : Z) : IM Z :=
  let* t := gets tbl in
  let* it := lift_result (Assoc.assoc_find key hv t) in
  let* it :=
    if it =? 0 then mret 0
    else
      on_item it refcount_incr ;;
      let* pl := gets the_pool in
      if being_moved pl it then do_item_unlink_nolock it hv ;; do_item_remove it ;; mret 0 else mret it in
  if it =? 0 then mret 0
  else
    let* i := the_item it in
    let* now := gets current_time in
    let* oldest := gets oldest_live in
    if expired now oldest i then do_item_unlink it hv ;; do_item_remove it ;; mret 0
    else on_item it (add_flag ITEM_FETCHED) ;; mret it.

Definition do_item_touch (key : bytes) (exptime hv : Z) : IM Z :=
  let* it := do_item_get key hv in
  if it =? 0 then mret 0 else on_item it (set_exptime exptime) ;; mret it.

(** ** Flushing *)

(** The loop over one queue. *)
Fixpoint flush_loop (fuel : nat) (iter : Z) : IM unit :=
  match fuel with
  | O => stuck OutOfFuel
  | S fuel' =>
      if iter =? 0 then mret tt else
      let* i := the_item iter in
      let* oldest := gets oldest_live in
      if oldest <=? time i then
        (if has_flag ITEM_SLABBED i then mret tt else do_item_unlink_nolock iter (hash (ITEM_key i))) ;;
        flush_loop fuel' (next i)
      else mret tt
  end.
(** The loop over the queues, from [id] on; a queue has no more items than there are. *)
Fixpoint flush_queues (n : nat) (id : Z) : IM unit :=
  match n with
  | O => mret tt
  | S n' =>
      let* head := elem_at heads id in
      let* h := gets heap_of in
      flush_loop (S (base.size h)) head ;;
      flush_queues n' (id + 1)
  end.
Definition do_item_flush_expired : IM unit :=
  let* oldest := gets oldest_live in
  if oldest =? 0 then mret tt else flush_queues (Z.to_nat LARGEST_ID) 0.

(** ** The wrappers of [thread.c] *)

Definition item_alloc (s : sys) (key : bytes) (flags exptime nbytes : Z) : IM Z :=
  do_item_alloc s key flags exptime nbytes 0.
Definition item_get (key : bytes) : IM Z := do_item_get key (hash key).
Definition item_touch (key : bytes) (exptime : Z) : IM Z := do_item_touch key exptime (hash key).
Definition item_link (it : Z) : IM Z := let* i := the_item it in do_item_link it (hash (ITEM_key i)).
Definition item_remove (it : Z) : IM unit := do_item_remove it.
Definition item_replace (old_it new_it hv : Z) : IM Z := do_item_replace old_it new_it hv.
Definition item_unlink (it : Z) : IM unit := let* i := the_item it in do_item_unlink it (hash (ITEM_key i)).
Definition item_update (it : Z) : IM unit := do_item_update it.
Definition item_flush_expired : IM unit := do_item_flush_expired.

Definition item_stats_reset : IM unit :=
  modify (λ c, set_itemstats (replicate (Z.to_nat LARGEST_ID) zero_itemstats) c).

End Operations.

(** The cache at the start: nothing is linked. *)
Definition item_init (ar : Slabs.arena) (hashtable_init now : Z) : cache :=
  let zeros := replicate (Z.to_nat LARGEST_ID) 0 in
  mkCache (Assoc.assoc_init (Slabs.heap ar) hashtable_init) (Slabs.the_pool ar) zeros zeros zeros
    (replicate (Z.to_nat LARGEST_ID) zero_itemstats) 0 0 0 0 now 0.

End Items.
