(* ===== verification/ItemsInv.v ===== *)
(** * The invariant of memcached's items

    What holds between two operations of [Items]: the chunks in use are those of the
    allocator's client; an item has as many references as are counted, one of them for the
    hash table and the queue when it is linked; the table holds exactly the linked items,
    under their keys, and the queue of a class those of the class, from the latest to the
    oldest; every item fits into its chunk. *)

From S2P Require Import Prelude Bytes CStrings ItemHeap Assoc AssocTheorems Slabs SlabsTheorems SlabsAlloc SlabsSafety ChunkAllocator Items.
From Stdlib Require Import ZArith Lia Sorted.
From stdpp Require Import base gmap list fin_maps functions sorting.

Local Open Scope Z_scope.

Module ItemsInv.
Import ItemHeap ChunkAllocator Items.

(** ** Items without their links *)

Definition core (it : item) : item := set_h_next 0 (unlinked it).
Definition core_at (h : heap_t) (x : Z) : option item := core <$> h !! x.

Lemma core_inv it it' : core it' = core it → ∃ n p h, it' = set_next n (set_prev p (set_h_next h it)).
Proof.
  destruct it, it'. cbn. intros [= <- <- <- <- <- <- <- <- <- <-]. by eexists _, _, _.
Qed.

(** The items of two heaps are the same but for the links. *)
Definition same_cores (h h' : heap_t) : Prop := ∀ x, core_at h' x = core_at h x.

#[export] Instance same_cores_refl : Reflexive same_cores.
Proof. by intros h x. Qed.
#[export] Instance same_cores_trans : Transitive same_cores.
Proof. intros h1 h2 h3 H12 H23 x. by rewrite H23. Qed.

Lemma relinked_cores l h h' : relinked l h h' → same_cores h h'.
Proof.
  intros [Hi _] x. apply (f_equal (lookup x)) in Hi. rewrite !lookup_fmap in Hi. unfold core_at.
  destruct (h' !! x), (h !! x); try done. apply (inj Some) in Hi. cbn. unfold core. by rewrite Hi.
Qed.
Lemma same_items_cores h h' : AssocTheorems.same_items h h' → same_cores h h'.
Proof.
  intros Hi x. apply (f_equal (lookup x)) in Hi. rewrite !lookup_fmap in Hi. unfold core_at.
  destruct (h' !! x) as [i'|], (h !! x) as [i|]; try done. apply (inj Some) in Hi. cbn. f_equal.
  destruct i, i'. cbn in Hi. unfold core. cbn. injection Hi as -> -> -> -> -> -> -> -> -> -> -> ->. done.
Qed.
Lemma same_cores_item h h' x it :
  same_cores h h' → h !! x = Some it → ∃ n p q, h' !! x = Some (set_next n (set_prev p (set_h_next q it))).
Proof.
  intros Hs Hx. specialize (Hs x). unfold core_at in Hs. rewrite Hx in Hs.
  destruct (h' !! x) as [it'|]; [|done]. apply (inj Some) in Hs.
  destruct (core_inv _ _ Hs) as (n & p & q & ->). by eexists _, _, _.
Qed.
Lemma same_cores_dom h h' x : same_cores h h' → is_Some (h' !! x) ↔ is_Some (h !! x).
Proof. intros Hs. specialize (Hs x). unfold core_at in Hs. destruct (h' !! x), (h !! x); try done. Qed.

Lemma same_items_item h h' x it :
  AssocTheorems.same_items h h' → h !! x = Some it → ∃ v, h' !! x = Some (set_h_next v it).
Proof.
  intros Hi Hx. apply (f_equal (lookup x)) in Hi. rewrite !lookup_fmap, Hx in Hi.
  destruct (h' !! x) as [i'|]; [|done]. apply (inj Some) in Hi. exists (h_next i'). f_equal.
  destruct it, i'. cbn in Hi. injection Hi as -> -> -> -> -> -> -> -> -> -> -> ->. done.
Qed.
Lemma dlist_same_items h h' l : AssocTheorems.same_items h h' → dlist h l → dlist h' l.
Proof.
  intros Hi Hd. eapply dlist_frame; [done|]. intros x it _ Hit.
  destruct (same_items_item _ _ _ _ Hi Hit) as [v Hv]. by eexists.
Qed.
(** A list is not touched by changes of links outside of it. *)
Lemma dlist_relinked h h' l l' : relinked l' h h' → (∀ x, x ∈ l → x ∉ l') → dlist h l → dlist h' l.
Proof. intros Hr Hd Hl. eapply dlist_same; [done|]. intros x Hx. by apply (rl_other _ _ _ Hr), Hd. Qed.

(** The operations of the table, as the items use them. *)
Lemma assoc_delete_holds hash t m k x :
  AssocTheorems.holds hash t m → m !! k = Some x →
  ∃ t', Assoc.assoc_delete k (hash k) t = Ok t' ∧ AssocTheorems.holds hash t' (delete k m) ∧
    AssocTheorems.same_items (Assoc.heap t) (Assoc.heap t').
Proof.
  intros [L Hr] Hm. destruct (AssocTheorems.assoc_delete_spec hash t m L k x Hr Hm) as (t' & L' & Ht & Hr' & _).
  exists t'. split; [done|]. split; [by exists L'|]. by eapply AssocTheorems.assoc_delete_same_items.
Qed.
Lemma assoc_insert_holds hash t m k x :
  AssocTheorems.holds hash t m → AssocTheorems.has_key (Assoc.heap t) x k → x ≠ 0 → m !! k = None → (∀ k', m !! k' ≠ Some x) →
  ∃ t', Assoc.assoc_insert x (hash k) t = Ok t' ∧ AssocTheorems.holds hash t' (<[k := x]> m) ∧
    AssocTheorems.same_items (Assoc.heap t) (Assoc.heap t').
Proof.
  intros [L Hr] Hk Hx Hm Hn. destruct (AssocTheorems.assoc_insert_spec hash t m L x k Hr Hk Hx Hm Hn) as (t' & L' & Ht & Hr' & _).
  exists t'. split; [done|]. split; [by exists L'|]. by eapply AssocTheorems.assoc_insert_same_items.
Qed.
Lemma assoc_find_holds hash t m k : AssocTheorems.holds hash t m → Assoc.assoc_find k (hash k) t = Ok (default 0 (m !! k)).
Proof. intros [L Hr]. by eapply AssocTheorems.assoc_find_spec. Qed.

(** What the allocator and the table need of a change of the heap. *)
Lemma client_relinked H l h h' : relinked l h h' → (∀ x, x ∈ l → is_Some (H !! x)) → client_frame H h h'.
Proof.
  intros Hr Hl. split.
  - intros x. apply same_cores_dom. by eapply relinked_cores.
  - intros x it Hx Hit. exists (h_next it). rewrite (rl_other _ _ _ Hr); [rewrite Hit; by destruct it|].
    intros Hxl. destruct (Hl x Hxl). congruence.
Qed.
Lemma client_same_items H h h' : AssocTheorems.same_items h h' → client_frame H h h'.
Proof.
  intros Hs. split.
  - intros x. apply same_cores_dom. by apply same_items_cores.
  - intros x it _ Hit. apply (f_equal (lookup x)) in Hs. rewrite !lookup_fmap, Hit in Hs.
    destruct (h' !! x) as [it'|] eqn:Hit'; [|done]. exists (h_next it'). f_equal. apply (inj Some) in Hs.
    destruct it, it'. cbn in Hs. injection Hs as -> -> -> -> -> -> -> -> -> -> -> ->. done.
Qed.
Lemma client_insert H h x it it' : h !! x = Some it → is_Some (H !! x) → client_frame H h (<[x := it']> h).
Proof.
  intros Hx [id Hid]. split.
  - intros y. rewrite lookup_insert_is_Some. destruct (decide (x = y)) as [<-|Hne]; [|by intuition].
    split; [intros _; by eexists|by left].
  - intros y ity Hy Hity. exists (h_next ity). rewrite lookup_insert_ne; [rewrite Hity; by destruct ity|]. congruence.
Qed.
Lemma client_trans H h1 h2 h3 : client_frame H h1 h2 → client_frame H h2 h3 → client_frame H h1 h3.
Proof.
  intros [D1 O1] [D2 O2]. split; [intros x; by rewrite D2, D1|]. intros x it Hx Hit.
  destruct (O1 x it Hx Hit) as [v Hv]. destruct (O2 x _ Hx Hv) as [w Hw]. by exists w.
Qed.

(** ** Queues *)

Record queue_ok (c : cache) (id : Z) (l : list Z) : Prop := {
  qo_list : dlist (heap_of c) l;
  qo_head : zlookup (heads c) id = Some (first l);
  qo_tail : zlookup (tails c) id = Some (final l);
  qo_size : zlookup (sizes c) id = Some (u32 (zlen l))
}.

(** The queue of a class becomes [l], in the heap [h]. *)
Definition queue_upd (id : Z) (l : list Z) (h : heap_t) (c : cache) : cache :=
  set_sizes (zinsert id (u32 (zlen l)) (sizes c))
    (set_tails (zinsert id (final l) (tails c))
      (set_heads (zinsert id (first l) (heads c)) (set_heap h c))).

Lemma zinsert_same {A} (l : list A) i x : zlookup l i = Some x → zinsert i x l = l.
Proof. unfold zlookup, zinsert. destruct (0 <=? i); [|done]. apply list_insert_id. Qed.

Lemma queue_ok_upd id l h c l0 :
  queue_ok c id l0 → dlist h l → queue_ok (queue_upd id l h c) id l.
Proof. intros [_ Qh Qt Qs] Hd. split; [done|..]; by eapply zlookup_insert_eq. Qed.
Lemma queue_ok_other id l h c j l' :
  j ≠ id → queue_ok c j l' → dlist h l' → queue_ok (queue_upd id l h c) j l'.
Proof. intros Hj [_ Qh Qt Qs] Hd. split; [done|..]; cbn; by rewrite zlookup_insert_ne. Qed.

(** *** Single steps *)

Lemma run_the_item c p it : heap_of c !! p = Some it → the_item p c = Ret it c.
Proof. intros Hp. unfold the_item. by rewrite (get_item_Ok _ _ _ Hp). Qed.
Lemma run_on_item c p it f : heap_of c !! p = Some it → on_item p f c = Ret tt (set_heap (<[p := f it]> (heap_of c)) c).
Proof. intros Hp. unfold on_item, on_heap. by rewrite (upd_item_Ok _ _ _ _ Hp). Qed.
Lemma run_assert b c : b = true → assert b c = Ret tt c.
Proof. by intros ->. Qed.
Lemma run_elem {A} (arr : cache → list A) id c x : zlookup (arr c) id = Some x → elem_at arr id c = Ret x c.
Proof. intros Hx. unfold elem_at. rewrite M_bind_eq. cbn. by rewrite (vec_at_Ok _ _ _ Hx). Qed.
Lemma run_set_elem {A} (arr : cache → list A) set id v c x :
  zlookup (arr c) id = Some x → set_elem arr set id v c = Ret tt (set (zinsert id v (arr c)) c).
Proof. intros Hx. unfold set_elem. rewrite M_bind_eq. cbn. by rewrite (vec_set_Ok _ _ _ _ Hx). Qed.
Lemma run_on_heap f c h : f (heap_of c) = Ok h → on_heap f c = Ret tt (set_heap h c).
Proof. intros Hf. unfold on_heap. by rewrite Hf. Qed.
Lemma run_on_table f c t : f (tbl c) = Ok t → on_table f c = Ret tt (set_tbl t c).
Proof. intros Hf. unfold on_table. by rewrite Hf. Qed.
Lemma run_on_arena {A} (m : M Empty_set Slabs.arena A) c a ar :
  m (Slabs.mkArena (heap_of c) (the_pool c)) = Ret a ar →
  on_arena m c = Ret a (set_the_pool (Slabs.the_pool ar) (set_heap (Slabs.heap ar) c)).
Proof. intros Hm. unfold on_arena. by rewrite Hm. Qed.

(** One step with the lemma that runs it. *)
Ltac run_step :=
  first [ apply run_the_item | apply run_on_item | apply run_elem | eapply run_set_elem | apply run_on_heap
        | apply run_on_table | apply run_on_arena ]; first [eassumption|done].
Ltac istep := erewrite M_bind_ret by run_step.
(** Two functions that are changed at one point agree. *)
Ltac fn_ext x :=
  let y := fresh in
  intros y; destruct (decide (y = x)) as [->|]; rewrite ?fn_lookup_insert, ?fn_lookup_insert_ne by done; try done.
Ltac iassert tac := erewrite M_bind_ret by (apply run_assert; tac).

Lemma u32_sub_l a b : u32 (u32 a - b) = u32 (a - b).
Proof. unfold u32, wrapu. by rewrite Zminus_mod_idemp_l. Qed.

Lemma elem_zero_first h l : dlist h l → (first l =? 0) = (final l =? 0).
Proof.
  intros Hd. destruct (Z.eqb_spec (first l) 0) as [Hf|Hf], (Z.eqb_spec (final l) 0) as [Hl|Hl]; try done.
  - apply (first_zero h) in Hf; [|done]. by subst l.
  - apply (final_zero h) in Hl; [|done]. by subst l.
Qed.
Lemma first_elem l : first l = 0 ∨ first l ∈ l.
Proof. destruct l; [by left|right]. by apply elem_of_cons; left. Qed.
Lemma final_elem l : final l = 0 ∨ final l ∈ l.
Proof.
  unfold final. destruct (last l) eqn:Hl; [right|by left]. by apply last_Some_elem_of.
Qed.

Lemma item_link_q_spec c x it l :
  heap_of c !! x = Some it → slabs_clsid it < LARGEST_ID → has_flag ITEM_SLABBED it = false →
  x ≠ 0 → x ∉ l → queue_ok c (slabs_clsid it) l →
  ∃ h, item_link_q x c = Ret tt (queue_upd (slabs_clsid it) (x :: l) h c) ∧
    dlist h (x :: l) ∧ relinked (x :: l) (heap_of c) h.
Proof.
  intros Hit Hid Hsl Hx Hxl [Qd Qh Qt Qs]. set (id := slabs_clsid it) in *.
  destruct (link_front_spec (heap_of c) l x it Qd Hxl Hx Hit) as (h & Hlf & Hd & Hr).
  exists h. split; [|done]. unfold item_link_q. istep. fold id.
  erewrite M_bind_ret by (apply run_assert; by apply Z.ltb_lt).
  erewrite M_bind_ret by (apply run_assert; by rewrite Hsl).
  istep. istep.
  erewrite M_bind_ret.
  2: { apply run_assert, negb_true_iff, Z.eqb_neq. intros ->. by destruct (first_elem l). }
  erewrite M_bind_ret.
  2: { apply run_assert. rewrite (elem_zero_first _ _ Qd). by destruct (final l =? 0). }
  erewrite M_bind_ret by (by apply run_on_heap).
  erewrite M_bind_ret by (by eapply run_set_elem).
  assert (∀ c1, tails c1 = tails c →
    (if final l =? 0 then set_elem tails set_tails id x else mret tt) c1 =
    Ret tt (set_tails (zinsert id (final (x :: l)) (tails c)) c1)) as Htail.
  { intros c1 Hc1. destruct (Z.eqb_spec (final l) 0) as [Hf|Hf].
    - apply (final_zero (heap_of c)) in Hf; [|done]. subst l. erewrite run_set_elem by (by rewrite Hc1). by rewrite Hc1.
    - assert (final (x :: l) = final l) as ->.
      { unfold final. rewrite last_cons. unfold final in Hf. by destruct (last l). }
      rewrite zinsert_same by done. rewrite <- Hc1. by destruct c1. }
  erewrite M_bind_ret by (by apply Htail).
  erewrite M_bind_ret by (by apply run_elem).
  erewrite run_set_elem by done. unfold queue_upd. cbn. do 3 f_equal.
  rewrite u32_add_l. f_equal. rewrite zlen_cons. lia.
Qed.

(** The test [*head == it] and its like on the tail. *)
Lemma first_app_eqb (l1 l2 : list Z) x : NoDup (l1 ++ x :: l2) → (first (l1 ++ x :: l2) =? x) = bool_decide (l1 = []).
Proof.
  intros Hn. destruct l1 as [|y l1]; [by rewrite bool_decide_true, Z.eqb_refl|].
  rewrite bool_decide_false by done. apply Z.eqb_neq. cbn. intros ->.
  apply NoDup_cons in Hn as [Hn _]. apply Hn, elem_of_app. right. by apply elem_of_cons; left.
Qed.
Lemma final_app_eqb (l1 l2 : list Z) x : NoDup (l1 ++ x :: l2) → (final (l1 ++ x :: l2) =? x) = bool_decide (l2 = []).
Proof.
  intros Hn. unfold final. rewrite last_app_cons. destruct l2 as [|y l2 _] using rev_ind.
  - cbn. by rewrite Z.eqb_refl.
  - rewrite bool_decide_false by (by destruct l2). rewrite app_comm_cons, last_snoc. cbn. apply Z.eqb_neq. intros ->.
    apply NoDup_app in Hn as (_ & _ & Hn). apply NoDup_cons in Hn as [Hn _]. apply Hn, elem_of_app. right.
    by apply elem_of_cons; left.
Qed.

Lemma item_unlink_q_spec c x it l1 l2 :
  heap_of c !! x = Some it → slabs_clsid it < LARGEST_ID → queue_ok c (slabs_clsid it) (l1 ++ x :: l2) →
  ∃ h, item_unlink_q x c = Ret tt (queue_upd (slabs_clsid it) (l1 ++ l2) h c) ∧
    dlist h (l1 ++ l2) ∧ relinked (l1 ++ l2) (heap_of c) h ∧ h !! x = Some it.
Proof.
  intros Hit Hid [Qd Qh Qt Qs]. set (id := slabs_clsid it) in *.
  destruct (link_around_spec (heap_of c) l1 x l2 Qd) as (it' & h & Hit' & Hnx & Hpr & Hla & Hd & Hr & Hx).
  assert (it' = it) as -> by congruence. clear Hit'. pose proof (dl_nodup _ _ Qd) as Hn.
  exists h. split; [|done]. unfold item_unlink_q. istep. fold id.
  erewrite M_bind_ret by (apply run_assert; by apply Z.ltb_lt). istep. istep.
  rewrite first_app_eqb, final_app_eqb by done.
  assert (∀ y, y ∈ l1 ++ l2 → y ≠ x) as Hne.
  { intros y Hy ->. apply NoDup_app in Hn as (_ & Hdis & Hn). apply NoDup_cons in Hn as [Hn _].
    apply elem_of_app in Hy as [Hy|Hy]; [|done]. apply (Hdis x Hy). by apply elem_of_cons; left. }
  assert (x ≠ 0) as Hx0 by (apply (dlist_elem _ _ x Qd), elem_of_app; right; by apply elem_of_cons; left).
  set (c1 := set_heads (zinsert id (first (l1 ++ l2)) (heads c)) c).
  assert ((if bool_decide (l1 = []) then assert (prev it =? 0) ;; set_elem heads set_heads id (next it) else mret tt) c =
    Ret tt c1) as Hhead.
  { case_bool_decide as Hl.
    - rewrite Hpr, Hl. erewrite M_bind_ret by (by apply run_assert). erewrite run_set_elem by done.
      unfold c1. by rewrite Hnx, Hl.
    - unfold c1. assert (first (l1 ++ l2) = first (l1 ++ x :: l2)) as -> by (by destruct l1).
      rewrite zinsert_same by done. by destruct c. }
  rewrite (M_bind_ret _ _ _ _ _ Hhead). clear Hhead. set (c2 := set_tails (zinsert id (final (l1 ++ l2)) (tails c)) c1).
  assert ((if bool_decide (l2 = []) then assert (next it =? 0) ;; set_elem tails set_tails id (prev it) else mret tt) c1 =
    Ret tt c2) as Htail.
  { case_bool_decide as Hl.
    - rewrite Hnx, Hl. erewrite M_bind_ret by (by apply run_assert). erewrite run_set_elem by done.
      rewrite Hpr. unfold c2. by rewrite Hl, app_nil_r.
    - unfold c2. assert (final (l1 ++ l2) = final (l1 ++ x :: l2)) as ->.
      { destruct l2 as [|y l2 _] using rev_ind; [done|]. unfold final. by rewrite app_comm_cons, !app_assoc, !last_snoc. }
      rewrite zinsert_same by done. by destruct c. }
  rewrite (M_bind_ret _ _ _ _ _ Htail).
  erewrite M_bind_ret.
  2: { apply run_assert, negb_true_iff, Z.eqb_neq. rewrite Hnx. intros He. destruct (first_elem l2) as [H0|Hf]; [congruence|].
       apply (Hne (first l2)); [apply elem_of_app; by right|done]. }
  erewrite M_bind_ret.
  2: { apply run_assert, negb_true_iff, Z.eqb_neq. rewrite Hpr. intros He. destruct (final_elem l1) as [H0|Hf]; [congruence|].
       apply (Hne (final l1)); [apply elem_of_app; by left|done]. }
  erewrite M_bind_ret by (by apply (run_on_heap _ c2)).
  erewrite M_bind_ret by (by apply run_elem).
  erewrite run_set_elem by done. unfold queue_upd. cbn. do 3 f_equal.
  rewrite u32_sub_l. f_equal. rewrite !zlen_app, zlen_cons. lia.
Qed.

(** ** The invariant *)

Definition linked_at (h : heap_t) (x : Z) : bool :=
  match h !! x with Some it => has_flag ITEM_LINKED it | None => false end.
Definition time_at (h : heap_t) (x : Z) : Z := match h !! x with Some it => time it | None => 0 end.
Abbreviation has_key := AssocTheorems.has_key.
Abbreviation holds := AssocTheorems.holds.

Lemma core_same h h' x : core_at h' x = core_at h x →
  linked_at h' x = linked_at h x ∧ time_at h' x = time_at h x ∧ (∀ k, has_key h' x k ↔ has_key h x k).
Proof.
  unfold core_at, linked_at, time_at, has_key. destruct (h' !! x) as [i'|], (h !! x) as [i|]; try done.
  intros Hc. apply (inj Some) in Hc. destruct (core_inv _ _ Hc) as (n & p & q & ->). by destruct i.
Qed.

Definition newest_first (h : heap_t) (l : list Z) : Prop := StronglySorted (λ x y, time_at h y ≤ time_at h x) l.

Lemma newest_first_remove h l1 x l2 : newest_first h (l1 ++ x :: l2) → newest_first h (l1 ++ l2).
Proof.
  induction l1 as [|y l1 IH]; cbn; intros Hs; apply StronglySorted_inv in Hs as [Hs Hf]; [done|].
  constructor; [by apply IH|]. rewrite !Forall_app, Forall_cons in *. naive_solver.
Qed.

Section Invariant.
Context (st : Slabs.settings_t) (hash : bytes → Z) (largest : Z) (sz : Z → Z).
Context (Holds : Slabs.arena → gmap Z Z → Prop) `{HA : !ChunkAllocator st largest sz Holds}.
(** Every class has a queue. *)
Context (Hlargest : largest < LARGEST_ID).

(** The parts of an item: a key of legal length, a value with its final CR LF, and the flags
    and the length of the value as text. *)
Record shaped (key : bytes) (nb : Z) (data suffix : bytes) : Prop := {
  sh_key : zlen key ≤ 250;
  sh_bytes : 2 ≤ nb < 2 ^ 31;
  sh_data : zlen data = nb;
  sh_suffix : ∃ flags, - 2 ^ 31 ≤ flags < 2 ^ 31 ∧ suffix = item_suffix flags nb
}.

(** An item of a class to which its users hold [r] references. *)
Record item_ok (r id : Z) (it : item) : Prop := {
  io_clsid : slabs_clsid it = id;
  io_slabbed : has_flag ITEM_SLABBED it = false;
  io_refs : 0 ≤ r;
  io_count : refcount it = r + (if has_flag ITEM_LINKED it then 1 else 0);
  io_bound : 1 ≤ refcount it < 2 ^ 16;
  io_fits : ITEM_ntotal it ≤ sz id;
  io_shape : shaped (ITEM_key it) (nbytes it) (ITEM_data it) (ITEM_suffix it)
}.

Definition has_queue (id : Z) : Prop := 0 ≤ id < LARGEST_ID.

(** [H] are the chunks in use, with their classes; those in [D] are between two owners, in
    the middle of an operation.  [L] are the queues, [m] the contents of the hash table,
    [R] the references that the users hold. *)
Record cache_ok (D : gset Z) (H : gmap Z Z) (L : Z → list Z) (m : gmap bytes Z) (R : Z → Z) (c : cache) : Prop := {
  co_holds : Holds (Slabs.mkArena (heap_of c) (the_pool c)) H;
  co_table : holds hash (tbl c) m;
  co_stats : zlen (itemstats c) = LARGEST_ID;
  co_queues : ∀ id, has_queue id → queue_ok c id (L id);
  co_linked : ∀ id x, has_queue id → x ∈ L id ↔ H !! x = Some id ∧ linked_at (heap_of c) x = true;
  co_index : ∀ k x, m !! k = Some x ↔ is_Some (H !! x) ∧ linked_at (heap_of c) x = true ∧ has_key (heap_of c) x k;
  co_items : ∀ x id, H !! x = Some id → x ∉ D → ∃ it, heap_of c !! x = Some it ∧ item_ok (R x) id it;
  co_limbo : ∀ x, x ∈ D → linked_at (heap_of c) x = false ∧ is_Some (H !! x);
  co_refs : ∀ x, H !! x = None ∨ x ∈ D → R x = 0;
  co_count : curr_items c = u32 (Z.of_nat (base.size m));
  co_sorted : ∀ id, has_queue id → newest_first (heap_of c) (L id);
  co_times : ∀ id x, has_queue id → x ∈ L id → time_at (heap_of c) x ≤ current_time c
}.

Lemma held_class D H L m R c x id : cache_ok D H L m R c → H !! x = Some id →
  has_queue id ∧ x ≠ 0 ∧ ∃ it, heap_of c !! x = Some it.
Proof.
  intros Hok Hx. destruct (ca_held _ _ _ _ (co_holds _ _ _ _ _ _ Hok) Hx) as ([H1 H2] & H3 & [it Hit]).
  unfold Slabs.POWER_SMALLEST in *. split; [unfold has_queue; lia|]. split; [lia|]. by exists it.
Qed.

Lemma newest_first_same h h' l : newest_first h l → (∀ x, x ∈ l → time_at h' x = time_at h x) → newest_first h' l.
Proof.
  intros Hs. induction Hs as [|x l Hs IH Hf]; intros Ht; [constructor|]. constructor.
  - apply IH. intros y Hy. apply Ht. by apply elem_of_cons; right.
  - apply Forall_forall. intros y Hy. rewrite !Ht by (apply elem_of_cons; auto).
    rewrite Forall_forall in Hf. by apply Hf.
Qed.

(** What may happen to one item [x]: [it] is what it becomes, [l'] the queue of its class
    and [m'] the contents of the table afterwards. *)
Record one_item_changes (H : gmap Z Z) (L : Z → list Z) (m : gmap bytes Z) (c c' : cache)
    (x id : Z) (it : item) (l' : list Z) (m' : gmap bytes Z) : Prop := {
  oc_frame : client_frame H (heap_of c) (heap_of c');
  oc_pool : the_pool c' = the_pool c;
  oc_table : holds hash (tbl c') m';
  oc_stats : itemstats c' = itemstats c;
  oc_item : heap_of c' !! x = Some it;
  oc_others : ∀ y, y ≠ x → core_at (heap_of c') y = core_at (heap_of c) y;
  oc_queue : queue_ok c' id l';
  oc_queues : ∀ j, has_queue j → j ≠ id → queue_ok c' j (L j);
  oc_members : ∀ y, y ∈ l' ↔ (y ≠ x ∧ y ∈ L id) ∨ (y = x ∧ has_flag ITEM_LINKED it = true);
  oc_index : ∀ k y, m' !! k = Some y ↔
    (y ≠ x ∧ m !! k = Some y) ∨ (y = x ∧ has_flag ITEM_LINKED it = true ∧ k = ITEM_key it);
  oc_count : curr_items c' = u32 (Z.of_nat (base.size m'));
  oc_sorted : newest_first (heap_of c') l';
  oc_time : has_flag ITEM_LINKED it = true → time it ≤ current_time c';
  oc_clock : current_time c' = current_time c
}.

Lemma one_item_ok D H L m R c c' x id it l' m' r :
  cache_ok D H L m R c → H !! x = Some id → one_item_changes H L m c c' x id it l' m' →
  (x ∉ D → item_ok r id it) → (x ∈ D → r = 0 ∧ has_flag ITEM_LINKED it = false) →
  cache_ok D H (<[id := l']> L) m' (<[x := r]> R) c'.
Proof.
  intros Hok Hx Hc Hin Hout. destruct (held_class _ _ _ _ _ _ _ _ Hok Hx) as (Hq & Hx0 & _).
  assert (∀ y, y ≠ x → linked_at (heap_of c') y = linked_at (heap_of c) y ∧
    time_at (heap_of c') y = time_at (heap_of c) y ∧ ∀ k, has_key (heap_of c') y k ↔ has_key (heap_of c) y k) as Hsame.
  { intros y Hy. apply core_same. by apply (oc_others _ _ _ _ _ _ _ _ _ _ Hc). }
  assert (linked_at (heap_of c') x = has_flag ITEM_LINKED it) as Hlx.
  { unfold linked_at. by rewrite (oc_item _ _ _ _ _ _ _ _ _ _ Hc). }
  assert (∀ j, has_queue j → j ≠ id → x ∉ L j) as Hxj.
  { intros j Hj Hne [Hxj _]%(co_linked _ _ _ _ _ _ Hok); [congruence|done]. }
  split.
  - rewrite (oc_pool _ _ _ _ _ _ _ _ _ _ Hc). by eapply (ca_frame _ H _ (co_holds _ _ _ _ _ _ Hok)), Hc.
  - apply Hc.
  - rewrite (oc_stats _ _ _ _ _ _ _ _ _ _ Hc). apply Hok.
  - intros j Hj. destruct (decide (j = id)) as [->|Hne].
    + rewrite fn_lookup_insert. apply Hc.
    + rewrite fn_lookup_insert_ne by done. by apply (oc_queues _ _ _ _ _ _ _ _ _ _ Hc).
  - intros j y Hj. destruct (decide (j = id)) as [->|Hne].
    + rewrite fn_lookup_insert, (oc_members _ _ _ _ _ _ _ _ _ _ Hc), (co_linked _ _ _ _ _ _ Hok) by done.
      destruct (decide (y = x)) as [->|Hy]; [rewrite Hlx|].
      * split; [by intros [[? _]|[_ ?]]|]. intros [_ ?]. by right.
      * destruct (Hsame y Hy) as (-> & _). split; [by intros [[_ ?]|[? _]]|]. intros ?. by left.
    + rewrite fn_lookup_insert_ne by done. rewrite (co_linked _ _ _ _ _ _ Hok) by done.
      destruct (decide (y = x)) as [->|Hy]; [|by destruct (Hsame y Hy) as (-> & _)].
      split; intros [Hxj' _]; congruence.
  - intros k y. rewrite (oc_index _ _ _ _ _ _ _ _ _ _ Hc), (co_index _ _ _ _ _ _ Hok).
    destruct (decide (y = x)) as [->|Hy].
    + rewrite Hlx. unfold has_key, AssocTheorems.has_key. rewrite (oc_item _ _ _ _ _ _ _ _ _ _ Hc). cbn.
      split; [intros [[? _]|(_ & ? & ->)]; [done|]; split_and!; eauto|]. intros (_ & Hl & Hk). injection Hk as <-. by right.
    + destruct (Hsame y Hy) as (-> & _ & ->). split; [by intros [[_ ?]|[? _]]|]. intros ?. by left.
  - intros y j Hy Hd. destruct (decide (y = x)) as [->|Hne].
    + rewrite fn_lookup_insert. exists it. split; [apply Hc|]. assert (j = id) as -> by congruence. by apply Hin.
    + rewrite fn_lookup_insert_ne by done. destruct (co_items _ _ _ _ _ _ Hok y j Hy Hd) as (ity & Hity & Hio).
      pose proof (oc_others _ _ _ _ _ _ _ _ _ _ Hc y Hne) as Hcore. unfold core_at in Hcore. rewrite Hity in Hcore.
      destruct (heap_of c' !! y) as [ity'|]; [|done]. apply (inj Some) in Hcore.
      exists ity'. split; [done|]. destruct (core_inv _ _ Hcore) as (n & p & q & ->). by destruct Hio.
  - intros y Hy. destruct (co_limbo _ _ _ _ _ _ Hok y Hy) as [Hl Hh]. split; [|done].
    destruct (decide (y = x)) as [->|Hne]; [rewrite Hlx; by apply Hout|]. by destruct (Hsame y Hne) as (-> & _).
  - intros y Hy. destruct (decide (y = x)) as [->|Hne].
    + rewrite fn_lookup_insert. destruct Hy as [Hy|Hy]; [congruence|]. by apply Hout.
    + rewrite fn_lookup_insert_ne by done. by apply Hok.
  - apply Hc.
  - intros j Hj. destruct (decide (j = id)) as [->|Hne]; [rewrite fn_lookup_insert; apply Hc|].
    rewrite fn_lookup_insert_ne by done. eapply newest_first_same; [by apply Hok|]. intros y Hy.
    apply Hsame. intros ->. by apply (Hxj j).
  - rewrite (oc_clock _ _ _ _ _ _ _ _ _ _ Hc). intros j y Hj Hy. destruct (decide (y = x)) as [->|Hne].
    + unfold time_at. rewrite (oc_item _ _ _ _ _ _ _ _ _ _ Hc). rewrite <- (oc_clock _ _ _ _ _ _ _ _ _ _ Hc).
      apply Hc. destruct (decide (j = id)) as [->|Hne]; [|rewrite fn_lookup_insert_ne in Hy by done; by destruct (Hxj j Hj Hne)].
      rewrite fn_lookup_insert in Hy. by apply (oc_members _ _ _ _ _ _ _ _ _ _ Hc) in Hy as [[? _]|[_ ?]].
    + destruct (Hsame y Hne) as (_ & -> & _). apply (co_times _ _ _ _ _ _ Hok j); [done|].
      destruct (decide (j = id)) as [->|Hne']; [|by rewrite fn_lookup_insert_ne in Hy].
      rewrite fn_lookup_insert in Hy. by apply (oc_members _ _ _ _ _ _ _ _ _ _ Hc) in Hy as [[_ ?]|[? _]].
Qed.

Lemma cache_ok_ext D H L L' m R R' c :
  cache_ok D H L m R c → (∀ id, L' id = L id) → (∀ x, R' x = R x) → cache_ok D H L' m R' c.
Proof.
  intros [C1 C2 C3 C4 C5 C6 C7 C8 C9 C10 C11 C12] HL HR. split; try done.
  - intros id Hq. rewrite HL. by apply C4.
  - intros id x Hq. rewrite HL. by apply C5.
  - intros x id Hx Hd. rewrite HR. by apply C7.
  - intros x Hx. rewrite HR. by apply C9.
  - intros id Hq. rewrite HL. by apply C11.
  - intros id x Hq. rewrite HL. by apply C12.
Qed.

(** Chunks come and go; the linked items are not concerned. *)
Lemma cache_ok_chunks D D' H H' L m R R' c h pl :
  cache_ok D H L m R c →
  Holds (Slabs.mkArena h pl) H' →
  (∀ y, linked_at (heap_of c) y = true → is_Some (H !! y) → h !! y = heap_of c !! y ∧ H' !! y = H !! y) →
  (∀ y, is_Some (H' !! y) → linked_at h y = true → is_Some (H !! y) ∧ linked_at (heap_of c) y = true) →
  (∀ y id, H' !! y = Some id → y ∉ D' → ∃ it, h !! y = Some it ∧ item_ok (R' y) id it) →
  (∀ y, y ∈ D' → linked_at h y = false ∧ is_Some (H' !! y)) →
  (∀ y, H' !! y = None ∨ y ∈ D' → R' y = 0) →
  cache_ok D' H' L m R' (set_the_pool pl (set_heap h c)).
Proof.
  intros Hok Hh Hl Hl' Hi Hd Hr.
  assert (∀ id y, has_queue id → y ∈ L id → h !! y = heap_of c !! y ∧ H' !! y = H !! y) as HL.
  { intros id y Hq [H1 H2]%(co_linked _ _ _ _ _ _ Hok); [|done]. apply Hl; [done|by eexists]. }
  assert (∀ id y, H' !! y = Some id → linked_at h y = true → H !! y = Some id) as Hback.
  { intros id y Hy Hly. destruct (Hl' y) as [H1 H2]; [by eexists|done|]. destruct (Hl y H2 H1) as [_ <-]. done. }
  split; try done.
  - eapply AssocTheorems.holds_frame; [apply Hok|]. intros k x Hx. apply (co_index _ _ _ _ _ _ Hok) in Hx as (H1 & H2 & H3).
    destruct (Hl x H2 H1) as [He _]. unfold heap_of in *. rewrite He. apply AssocTheorems.has_key_alt in H3 as (it & Hit & _).
    by exists it, it.
  - apply Hok.
  - intros id Hq. destruct (co_queues _ _ _ _ _ _ Hok id Hq) as [Qd Qh Qt Qs]. split; try done.
    eapply dlist_same; [done|]. intros y Hy. by apply (HL id).
  - intros id x Hq. rewrite (co_linked _ _ _ _ _ _ Hok) by done. change (heap_of (set_the_pool pl (set_heap h c))) with h. split.
    + intros [H1 H2]. destruct (Hl x H2) as [He1 He2]; [by eexists|]. rewrite He2. split; [done|].
      unfold linked_at in *. by rewrite He1.
    + intros [H1 H2]. split; [by apply Hback|]. destruct (Hl' x) as [_ ?]; [by eexists|done|done].
  - intros k x. rewrite (co_index _ _ _ _ _ _ Hok). change (heap_of (set_the_pool pl (set_heap h c))) with h. split.
    + intros (H1 & H2 & H3). destruct (Hl x H2 H1) as [He1 He2]. rewrite He2. unfold linked_at, has_key, AssocTheorems.has_key in *.
      by rewrite He1.
    + intros (H1 & H2 & H3). destruct (Hl' x H1 H2) as [H4 H5]. destruct (Hl x H5 H4) as [He1 He2].
      unfold has_key, AssocTheorems.has_key in *. by rewrite <- He1.
  - apply Hok.
  - intros id Hq. eapply newest_first_same; [by apply Hok|]. intros x Hx. unfold time_at.
    change (heap_of (set_the_pool pl (set_heap h c))) with h. by destruct (HL id x Hq Hx) as [-> _].
  - intros id x Hq Hx. unfold time_at. change (heap_of (set_the_pool pl (set_heap h c))) with h.
    destruct (HL id x Hq Hx) as [-> _]. by apply (co_times _ _ _ _ _ _ Hok id).
Qed.

(** A field of an item is set that neither the table nor the queues look at. *)
Record mild (it it' : item) : Prop := {
  mi_next : next it' = next it;
  mi_prev : prev it' = prev it;
  mi_h_next : h_next it' = h_next it;
  mi_time : time it' = time it;
  mi_key : ITEM_key it' = ITEM_key it;
  mi_linked : has_flag ITEM_LINKED it' = has_flag ITEM_LINKED it
}.

Lemma holds_set_heap t h m x it it' :
  holds hash t m → Assoc.heap t !! x = Some it → h = <[x := it']> (Assoc.heap t) →
  ITEM_key it' = ITEM_key it → h_next it' = h_next it →
  (∀ k y, m !! k = Some y → is_Some (Assoc.heap t !! y)) →
  holds hash (Assoc.set_heap h t) m.
Proof.
  intros Hh Hx -> Hk Hn Hm. eapply AssocTheorems.holds_frame; [done|]. intros k y Hy. destruct (Hm k y Hy) as [ity Hity].
  destruct (decide (x = y)) as [<-|Hne].
  - exists it, it'. by rewrite lookup_insert_eq.
  - exists ity, ity. by rewrite lookup_insert_ne.
Qed.

Lemma index_heap D H L m R c k y : cache_ok D H L m R c → m !! k = Some y → is_Some (heap_of c !! y).
Proof.
  intros Hok Hy. apply (co_index _ _ _ _ _ _ Hok) in Hy as (_ & _ & Hk). apply AssocTheorems.has_key_alt in Hk as (it & Hit & _).
  by eexists.
Qed.

Lemma cache_ok_set D H L m R c x id it it' r :
  cache_ok D H L m R c → H !! x = Some id → heap_of c !! x = Some it → mild it it' →
  (x ∉ D → item_ok r id it') → (x ∈ D → r = 0) →
  cache_ok D H L m (<[x := r]> R) (set_heap (<[x := it']> (heap_of c)) c).
Proof.
  intros Hok Hx Hit [M1 M2 M3 M4 M5 M6] Hin Hout.
  destruct (held_class _ _ _ _ _ _ _ _ Hok Hx) as (Hq & Hx0 & _).
  set (c' := set_heap (<[x := it']> (heap_of c)) c).
  assert (heap_of c' !! x = Some it') as Hx' by apply lookup_insert_eq.
  assert (∀ y, y ≠ x → heap_of c' !! y = heap_of c !! y) as Ho by (intros y Hy; by apply lookup_insert_ne).
  assert (linked_at (heap_of c) x = has_flag ITEM_LINKED it') as Hl by (unfold linked_at; by rewrite Hit, M6).
  apply (cache_ok_ext D H (<[id := L id]> L) L m (<[x := r]> R)); [|intros j; destruct (decide (j = id)) as [->|];
    by rewrite ?fn_lookup_insert, ?fn_lookup_insert_ne|done].
  apply (one_item_ok D H L m R c c' x id it'); try done.
  - assert (∀ j, has_queue j → queue_ok c' j (L j)) as Hqs.
    { intros j Hj. destruct (co_queues _ _ _ _ _ _ Hok j Hj) as [Qd Qh Qt Qs]. split; try done.
      eapply dlist_frame; [done|]. intros y ity Hy Hity. destruct (decide (y = x)) as [->|Hne].
      - exists it'. split; [done|]. assert (ity = it) as -> by congruence. done.
      - exists ity. by rewrite Ho. }
    split; try done.
    + by eapply client_insert.
    + eapply holds_set_heap; [apply Hok|done|done|done|done|]. intros k y. by eapply index_heap.
    + intros y Hy. unfold core_at. by rewrite Ho.
    + by apply Hqs.
    + intros j Hj _. by apply Hqs.
    + intros y. destruct (decide (y = x)) as [->|Hy].
      * rewrite (co_linked _ _ _ _ _ _ Hok), Hl by done. split; [intros [_ ?]; by right|by intros [[? _]|[_ ?]]].
      * split; [by left|by intros [[_ ?]|[? _]]].
    + intros k y. destruct (decide (y = x)) as [->|Hy].
      * rewrite (co_index _ _ _ _ _ _ Hok), Hl. unfold has_key, AssocTheorems.has_key. rewrite Hit. cbn. rewrite M5.
        split; [intros (_ & ? & ?); right; split_and!; [done|done|congruence]|].
        intros [[? _]|(_ & ? & ->)]; [done|]. split_and!; [by eexists|done|done].
      * split; [by left|by intros [[_ ?]|[? _]]].
    + apply Hok.
    + eapply newest_first_same; [by apply Hok|]. intros y Hy. unfold time_at. destruct (decide (y = x)) as [->|Hne].
      * by rewrite Hx', Hit.
      * by rewrite Ho.
    + intros Hli. assert (x ∈ L id) as Hxl by (apply (co_linked _ _ _ _ _ _ Hok); [done|by rewrite Hl]).
      pose proof (co_times _ _ _ _ _ _ Hok id x Hq Hxl) as Ht. unfold time_at in Ht. rewrite Hit in Ht. by rewrite M4.
  - intros Hd. split; [by apply Hout|]. rewrite <- Hl. by apply Hok.
Qed.

(** An item that is not linked leaves the invariant, or comes back. *)
Lemma cache_ok_limbo D D' H L m R c x it r :
  cache_ok D H L m R c → is_Some (H !! x) → heap_of c !! x = Some it → has_flag ITEM_LINKED it = false →
  (∀ y, y ≠ x → y ∈ D' ↔ y ∈ D) → (x ∈ D' → r = 0) → (x ∉ D' → ∀ id, H !! x = Some id → item_ok r id it) →
  cache_ok D' H L m (<[x := r]> R) c.
Proof.
  intros Hok Hx Hit Hl HD Hr Hi.
  assert (c = set_the_pool (the_pool c) (set_heap (heap_of c) c)) as Hc by (by destruct c as [[]]).
  rewrite Hc. eapply (cache_ok_chunks D D' H H L m R); try done; [apply Hok| | |].
  - intros y id Hy Hd. destruct (decide (y = x)) as [->|Hne].
    + rewrite fn_lookup_insert. exists it. split; [done|]. by apply Hi.
    + rewrite fn_lookup_insert_ne by done. apply (co_items _ _ _ _ _ _ Hok); [done|]. by rewrite <- HD.
  - intros y Hd. destruct (decide (y = x)) as [->|Hne]; [by unfold linked_at; rewrite Hit|]. apply (co_limbo _ _ _ _ _ _ Hok). by apply HD.
  - intros y Hy. destruct (decide (y = x)) as [->|Hne].
    + rewrite fn_lookup_insert. destruct Hy as [Hy|Hy]; [|by apply Hr]. destruct Hx. congruence.
    + rewrite fn_lookup_insert_ne by done. apply (co_refs _ _ _ _ _ _ Hok). by rewrite <- HD.
Qed.

End Invariant.

Arguments co_holds {hash sz Holds D H L m R c}.
Arguments co_table {hash sz Holds D H L m R c}.
Arguments co_stats {hash sz Holds D H L m R c}.
Arguments co_queues {hash sz Holds D H L m R c}.
Arguments co_linked {hash sz Holds D H L m R c}.
Arguments co_index {hash sz Holds D H L m R c}.
Arguments co_items {hash sz Holds D H L m R c}.
Arguments co_limbo {hash sz Holds D H L m R c}.
Arguments co_refs {hash sz Holds D H L m R c}.
Arguments co_count {hash sz Holds D H L m R c}.
Arguments co_sorted {hash sz Holds D H L m R c}.
Arguments co_times {hash sz Holds D H L m R c}.
Arguments io_clsid {sz r id it}.
Arguments io_slabbed {sz r id it}.
Arguments io_refs {sz r id it}.
Arguments io_count {sz r id it}.
Arguments io_bound {sz r id it}.
Arguments io_fits {sz r id it}.
Arguments io_shape {sz r id it}.
Arguments oc_frame {hash H L m c c' x id it l' m'}.
Arguments oc_pool {hash H L m c c' x id it l' m'}.
Arguments oc_table {hash H L m c c' x id it l' m'}.
Arguments oc_stats {hash H L m c c' x id it l' m'}.
Arguments oc_item {hash H L m c c' x id it l' m'}.
Arguments oc_others {hash H L m c c' x id it l' m'}.
Arguments oc_queue {hash H L m c c' x id it l' m'}.
Arguments oc_queues {hash H L m c c' x id it l' m'}.
Arguments oc_members {hash H L m c c' x id it l' m'}.
Arguments oc_index {hash H L m c c' x id it l' m'}.
Arguments oc_count {hash H L m c c' x id it l' m'}.
Arguments oc_sorted {hash H L m c c' x id it l' m'}.
Arguments oc_time {hash H L m c c' x id it l' m'}.
Arguments oc_clock {hash H L m c c' x id it l' m'}.
Arguments held_class {st hash largest sz Holds HA} Hlargest {D H L m R c x id}.
Arguments index_heap {hash sz Holds D H L m R c k y}.

Arguments cache_ok_ext {hash sz Holds D H L} L' {m R} R' {c}.
Arguments cache_ok_limbo {hash sz Holds D} D' {H L m R c x} it r.
Arguments cache_ok_chunks {hash sz Holds D} D' {H} H' {L m R} R' {c} h pl.
Arguments cache_ok_set {st hash largest sz Holds HA} Hlargest {D H L m R c x id} it it' r.
Arguments one_item_ok {st hash largest sz Holds HA} Hlargest {D H L m R c} c' {x id it l' m'} r.

End ItemsInv.
