(* ===== verification/ItemsOps.v ===== *)
(** * The operations on linked and unlinked items

    [do_item_remove], [do_item_link], [do_item_unlink] and [do_item_update] of [Items] keep the invariant of [ItemsInv];
    each lemma says what the operation does to the queues, the contents of the table and
    the references. *)

From S2P Require Import Prelude Bytes CStrings ItemHeap Assoc AssocTheorems Slabs SlabsTheorems SlabsAlloc SlabsSafety ChunkAllocator Items ItemsInv.
From Stdlib Require Import ZArith Lia Sorted.
From stdpp Require Import base gmap list fin_maps functions sorting.

Local Open Scope Z_scope.

Module ItemsOps.
Import ItemHeap ChunkAllocator Items ItemsInv.

(** What an operation leaves alone: the items in use other than those of [X], the clock
    and the settings. *)
Record frame (X : list Z) (H' : gmap Z Z) (c c' : cache) : Prop := {
  fr_core : ∀ y, y ∉ X → is_Some (H' !! y) → core_at (heap_of c') y = core_at (heap_of c) y;
  fr_clock : current_time c' = current_time c;
  fr_live : oldest_live c' = oldest_live c
}.

Lemma frame_refl X H' c : frame X H' c c.
Proof. done. Qed.
Lemma frame_trans X H1 H2 c1 c2 c3 :
  frame X H1 c1 c2 → frame X H2 c2 c3 → (∀ y, is_Some (H2 !! y) → is_Some (H1 !! y)) → frame X H2 c1 c3.
Proof.
  intros [F1 K1 V1] [F2 K2 V2] Hs. split; [|congruence..]. intros y Hy Hh. rewrite F2 by done. apply F1; [done|by apply Hs].
Qed.
Lemma frame_mono X X' H1 H2 c c' :
  frame X H1 c c' → (∀ y, y ∈ X → y ∈ X') → (∀ y, is_Some (H2 !! y) → is_Some (H1 !! y)) → frame X' H2 c c'.
Proof. intros [F K V] HX Hs. split; [|done..]. intros y Hy Hh. apply F; [|by apply Hs]. intros Hx. by apply Hy, HX. Qed.

Lemma frame_set x it c h X H' : h = <[x := it]> (heap_of c) → x ∈ X → frame X H' c (set_heap h c).
Proof.
  intros -> Hx. split; [|done..]. intros y Hy _. unfold core_at, heap_of. cbn. rewrite lookup_insert_ne; [done|]. by intros ->.
Qed.

Section Operations.
Context (st : Slabs.settings_t) (hash : bytes → Z) (largest : Z) (sz : Z → Z).
Context (Holds : Slabs.arena → gmap Z Z → Prop) `{HA : !ChunkAllocator st largest sz Holds}.
Context (Hlargest : largest < LARGEST_ID).

Abbreviation cache_ok := (cache_ok hash sz Holds).
Abbreviation item_ok := (item_ok sz).

(** ** Release *)

Lemma u16_pred n r : 1 ≤ n < 2 ^ 16 → n = r + 1 → u16 (n - 1) = r.
Proof. intros Hn ->. unfold u16. rewrite wrapu_small by lia. lia. Qed.

(** The item is in no queue: it is neither a head nor a tail. *)
Lemma unlinked_not_in D H L m R c x it id :
  cache_ok D H L m R c → heap_of c !! x = Some it → has_flag ITEM_LINKED it = false → has_queue id → x ∉ L id.
Proof.
  intros Hok Hit Hl Hq [_ Hx]%(co_linked Hok); [|done]. unfold linked_at in Hx. rewrite Hit in Hx. congruence.
Qed.

(** An item that nobody refers to any more, taken out of the invariant, is freed. *)
Lemma item_free_spec D H L m R c x id it :
  cache_ok D H L m R c → H !! x = Some id → heap_of c !! x = Some it → slabs_clsid it = id →
  has_flag ITEM_LINKED it = false → refcount it = 0 → x ∈ D →
  ∃ c', item_free x c = Ret tt c' ∧ cache_ok (D ∖ {[x]}) (delete x H) L m R c' ∧ frame [x] (delete x H) c c'.
Proof.
  intros Hok Hx Hit Hid Hl Hrc Hd. destruct (held_class Hlargest Hok Hx) as (Hq & Hx0 & _).
  destruct (co_queues Hok id Hq) as [Qd Qh Qt Qs].
  pose proof (unlinked_not_in D H L m R c x it id Hok Hit Hl Hq) as HxL.
  unfold item_free. istep. rewrite Hl, Hid. iassert done. istep.
  iassert ltac:(apply negb_true_iff, Z.eqb_neq; intros ->; by destruct (first_elem (L id))). istep.
  iassert ltac:(apply negb_true_iff, Z.eqb_neq; intros ->; by destruct (final_elem (L id))).
  iassert ltac:(by rewrite Hrc). istep.
  set (h := <[x := set_slabs_clsid 0 it]> (heap_of c)).
  assert (Holds (Slabs.mkArena h (the_pool c)) H) as Hh.
  { apply (ca_frame _ H h (co_holds Hok)). eapply client_insert; [done|by eexists]. }
  destruct (ca_free _ H (ITEM_ntotal it) x id (set_slabs_clsid 0 it) Hh Hx) as (ar & Hr & Hh' & Hs);
    [apply lookup_insert_eq|by split_and!|].
  erewrite run_on_arena by exact Hr. eexists. split; [reflexivity|].
  assert (∀ y, y ≠ x → is_Some (H !! y) → Slabs.heap ar !! y = heap_of c !! y) as Hsame.
  { intros y Hy Hh1. rewrite Hs by done. by apply lookup_insert_ne. }
  assert (∀ y, is_Some (delete x H !! y) → y ≠ x ∧ is_Some (H !! y)) as Hdel.
  { intros y [j [Hne Hj]%lookup_delete_Some]. split; [done|by eexists]. }
  split.
  - apply (cache_ok_chunks (D ∖ {[x]}) (delete x H) R (Slabs.heap ar) (Slabs.the_pool ar) Hok).
    + by destruct ar.
    + intros y Hly Hy. assert (y ≠ x) as Hne by (intros ->; unfold linked_at in Hly; rewrite Hit in Hly; congruence).
      rewrite Hsame by done. by rewrite lookup_delete_ne.
    + intros y [Hne Hy]%Hdel Hly. split; [done|]. unfold linked_at in *. by rewrite Hsame in Hly.
    + intros y j [Hne Hj]%lookup_delete_Some Hyd. rewrite Hsame by (try done; by eexists). apply (co_items Hok y j Hj).
      intros Hyd'. apply Hyd, elem_of_difference. split; [done|]. by apply not_elem_of_singleton.
    + intros y [Hyd Hne]%elem_of_difference. rewrite not_elem_of_singleton in Hne. destruct (co_limbo Hok y Hyd) as [Hly Hy].
      unfold linked_at in *. rewrite Hsame by done. by rewrite lookup_delete_ne.
    + intros y Hy. apply (co_refs Hok). destruct (decide (y = x)) as [->|Hne]; [by right|].
      rewrite lookup_delete_ne in Hy by done. destruct Hy as [Hy|[Hy _]%elem_of_difference]; auto.
  - split; [|done..]. intros y Hy [Hne Hh1]%Hdel. unfold core_at. cbn. by rewrite Hsame.
Qed.

(** A reference is given up: the item stays, or this was the last one. *)
Lemma do_item_remove_spec D H L m R c x id it :
  cache_ok D H L m R c → H !! x = Some id → x ∉ D → heap_of c !! x = Some it → 1 ≤ R x →
  ∃ c', do_item_remove x c = Ret tt c' ∧
    let H' := if (R x =? 1) && negb (has_flag ITEM_LINKED it) then delete x H else H in
    cache_ok D H' L m (<[x := R x - 1]> R) c' ∧ frame [x] H' c c' ∧
    (H' !! x ≠ None → heap_of c' !! x = Some (set_refcount (refcount it - 1) it)).
Proof.
  intros Hok Hx Hd Hit HR. destruct (co_items Hok x id Hx Hd) as (it0 & Hit0 & [I1 I2 I3 I4 I5 I6 I7]).
  assert (it0 = it) as -> by congruence. clear Hit0.
  unfold do_item_remove. istep. rewrite I2. iassert done. istep.
  set (h := <[x := refcount_decr it]> (heap_of c)). set (c1 := set_heap h c).
  assert (heap_of c1 !! x = Some (refcount_decr it)) as Hit1 by apply lookup_insert_eq.
  istep. assert (u16 (refcount it - 1) = refcount it - 1) as Hrc by (apply wrapu_small; lia).
  assert (refcount_decr it = set_refcount (refcount it - 1) it) as Hdec by (unfold refcount_decr; by rewrite Hrc).
  assert (mild it (refcount_decr it)) as Hmild by done.
  destruct (Z.eqb_spec (refcount (refcount_decr it)) 0) as [Hz|Hz]; rewrite Hdec in Hz; cbn in Hz.
  - (* the last reference *)
    destruct (has_flag ITEM_LINKED it) eqn:Hli; [lia|]. assert (R x = 1) as -> by lia. cbn [Z.eqb andb negb Pos.eqb].
    assert (cache_ok ({[x]} ∪ D) H L m (<[x := 0]> R) c1) as Hok1.
    { apply (cache_ok_ext (L := L) (R := <[x := 0]> (<[x := 0]> R)) L (<[x := 0]> R));
        [|done|fn_ext x].
      eapply (cache_ok_set Hlargest it); [|done|done|done|set_solver|done].
      eapply (cache_ok_limbo _ it); [done|by eexists|done|done|set_solver|done|set_solver]. }
    destruct (item_free_spec ({[x]} ∪ D) H L m (<[x := 0]> R) c1 x id (refcount_decr it) Hok1 Hx Hit1) as (c' & Hr & Hok' & Hfr);
      [done|done|rewrite Hdec; cbn; lia|set_solver|].
    exists c'. split; [done|]. split; [|split; [|by rewrite lookup_delete_eq]].
    + assert (({[x]} ∪ D) ∖ {[x]} = D) as <- by set_solver. done.
    + eapply frame_trans; [by eapply frame_set; [|apply elem_of_cons; left]|done|done].
  - assert ((R x =? 1) && negb (has_flag ITEM_LINKED it) = false) as ->.
    { destruct (Z.eqb_spec (R x) 1), (has_flag ITEM_LINKED it); try done. lia. }
    exists c1. split; [done|]. cbv zeta. split; [|split].
    + eapply (cache_ok_set Hlargest it); try done. intros _. rewrite Hdec.
      split; [done|done|lia| | |exact I6|exact I7]; change (refcount (set_refcount (refcount it - 1) it)) with (refcount it - 1); [|lia].
      change (has_flag ITEM_LINKED (set_refcount (refcount it - 1) it)) with (has_flag ITEM_LINKED it). lia.
    + eapply frame_set; [done|by apply elem_of_cons; left].
    + intros _. by rewrite <- Hdec.
Qed.

(** ** Unlinking *)

(** What an operation on the queues and the table does to one item. *)
Definition with_links (it it' : item) : Prop := ∃ n p q, it' = set_next n (set_prev p (set_h_next q it)).

Lemma relinked_with_links l h h' x it : relinked l h h' → h !! x = Some it → ∃ it', h' !! x = Some it' ∧ with_links it it'.
Proof.
  intros Hr Hx. destruct (same_cores_item h h' x it (relinked_cores _ _ _ Hr) Hx) as (n & p & q & Hq).
  eexists. split; [done|]. by exists n, p, q.
Qed.

(** The table after changes of links and of one item, whose key stays. *)
Lemma holds_relinked t m l h : holds hash t m → relinked l (Assoc.heap t) h → (∀ k y, m !! k = Some y → is_Some (Assoc.heap t !! y)) →
  holds hash (Assoc.set_heap h t) m.
Proof.
  intros Hh Hr Hm. eapply AssocTheorems.holds_frame; [done|]. intros k y Hy. destruct (Hm k y Hy) as [it Hit].
  destruct (relinked_item _ _ _ _ _ Hr Hit) as (it' & Hit' & Hu). exists it, it'. do 2 (split; [done|]).
  destruct it, it'. cbn in *. by injection Hu.
Qed.

(** The queue of the item's class with the item in it, and the table entry. *)
Lemma linked_place D H L m R c x id it :
  cache_ok D H L m R c → H !! x = Some id → heap_of c !! x = Some it → has_flag ITEM_LINKED it = true →
  (∃ l1 l2, L id = l1 ++ x :: l2) ∧ m !! ITEM_key it = Some x.
Proof.
  intros Hok Hx Hit Hl. destruct (held_class Hlargest Hok Hx) as (Hq & _ & _).
  assert (linked_at (heap_of c) x = true) as Hla by (unfold linked_at; by rewrite Hit). split.
  - apply list_elem_of_split, (co_linked Hok); done.
  - apply (co_index Hok). split; [by eexists|]. split; [done|]. unfold has_key, AssocTheorems.has_key. by rewrite Hit.
Qed.

(** The first part of [do_item_unlink]: the table and the queue give up their reference. *)
Lemma unlink_links_spec D H L m R c x id it l1 l2 :
  cache_ok D H L m R c → H !! x = Some id → x ∉ D → heap_of c !! x = Some it → has_flag ITEM_LINKED it = true →
  L id = l1 ++ x :: l2 →
  ∃ c' it', (∀ rest : IM unit, (on_item x (clear_flag ITEM_LINKED) ;;
     let* i := the_item x in
     modify (λ c, set_totals (u64 (curr_bytes c - ITEM_ntotal i)) (u32 (curr_items c - 1)) (total_items c) c) ;;
     on_table (Assoc.assoc_delete (ITEM_key i) (hash (ITEM_key it))) ;;
     item_unlink_q x ;; rest) c = rest c') ∧
    cache_ok D H (<[id := l1 ++ l2]> L) (delete (ITEM_key it) m) (<[x := R x + 1]> R) c' ∧
    frame [x] H c c' ∧ heap_of c' !! x = Some it' ∧ with_links (clear_flag ITEM_LINKED it) it'.
Proof.
  intros Hok Hx Hd Hit Hl HL. destruct (held_class Hlargest Hok Hx) as (Hq & Hx0 & _).
  destruct (co_items Hok x id Hx Hd) as (it0 & Hit0 & Hio). assert (it0 = it) as -> by congruence. clear Hit0.
  destruct (linked_place D H L m R c x id it Hok Hx Hit Hl) as [_ Hm]. set (k := ITEM_key it) in *.
  set (it1 := clear_flag ITEM_LINKED it). set (h1 := <[x := it1]> (heap_of c)).
  set (c1 := set_heap h1 c). assert (heap_of c1 !! x = Some it1) as Hit1 by apply lookup_insert_eq.
  set (c2 := set_totals (u64 (curr_bytes c1 - ITEM_ntotal it1)) (u32 (curr_items c1 - 1)) (total_items c1) c1).
  assert (holds hash (tbl c2) m) as Hh1.
  { change (holds hash (Assoc.set_heap h1 (tbl c)) m).
    eapply holds_set_heap; [apply Hok|done|done|done|done|]. intros k' y. apply (index_heap Hok). }
  destruct (assoc_delete_holds hash (tbl c2) m k x Hh1 Hm) as (t3 & Ht3 & Hh3 & Hsame3).
  set (c3 := set_tbl t3 c2).
  destruct (same_items_item _ _ x it1 Hsame3 Hit1) as (v & Hit3).
  destruct (co_queues Hok id Hq) as [Qd Qh Qt Qs]. rewrite HL in *.
  assert (∀ l, dlist (heap_of c) l → dlist (heap_of c3) l) as Hdl.
  { intros l Hd'. eapply dlist_same_items; [exact Hsame3|]. eapply dlist_frame; [exact Hd'|]. intros y ity _ Hity.
    change (Assoc.heap (tbl c2)) with h1. unfold h1.
    destruct (decide (y = x)) as [->|Hne]; [|by exists ity; rewrite lookup_insert_ne].
    exists it1. assert (ity = it) as -> by congruence. split; [apply lookup_insert_eq|done]. }
  destruct (item_unlink_q_spec c3 x (set_h_next v it1) l1 l2) as (h4 & Hr4 & Hd4 & Hrl4 & Hit4).
  { done. } { change (slabs_clsid it < LARGEST_ID). rewrite (io_clsid Hio). apply Hq. }
  { change (queue_ok c3 (slabs_clsid it) (l1 ++ x :: l2)). rewrite (io_clsid Hio). split; [by apply Hdl|done..]. }
  change (slabs_clsid (set_h_next v it1)) with (slabs_clsid it) in Hr4. rewrite (io_clsid Hio) in Hr4.
  set (c4 := queue_upd id (l1 ++ l2) h4 c3) in *. exists c4, (set_h_next v it1). split.
  { intros rest. erewrite M_bind_ret by (by apply run_on_item). fold it1 h1 c1. istep. erewrite M_bind_ret by reflexivity.
    fold c2. istep. fold c3. by rewrite (M_bind_ret _ _ _ _ _ Hr4). }
  assert (∀ y, y ∈ l1 ++ x :: l2 → is_Some (H !! y)) as HinH.
  { rewrite <- HL. intros y [Hy _]%(co_linked Hok); [by eexists|done]. }
  assert (∀ y, y ∈ l1 ++ l2 ↔ y ≠ x ∧ y ∈ L id) as Hmem.
  { intros y. rewrite HL. pose proof (dl_nodup _ _ Qd) as Hn. rewrite (AssocTheorems.elem_of_remove l1 l2 x y Hn). tauto. }
  assert (∀ y, y ≠ x → core_at h4 y = core_at (heap_of c) y) as Hcore.
  { intros y Hy. rewrite (relinked_cores _ _ _ Hrl4 y). change (core_at (Assoc.heap t3) y = core_at (heap_of c) y).
    rewrite (same_items_cores _ _ Hsame3 y). change (core_at h1 y = core_at (heap_of c) y).
    unfold core_at, h1. by rewrite lookup_insert_ne. }
  assert (has_flag ITEM_LINKED it1 = false) as Hl1.
  { unfold it1. rewrite has_flag_clear by auto. done. }
  split; [|split; [|split; [done|by exists (next it1), (prev it1), v; destruct it]]].
  2: { split; [|done..]. intros y Hy _. apply Hcore. intros ->. apply Hy. by apply elem_of_cons; left. }
  apply (one_item_ok Hlargest c4 (id := id) (it := set_h_next v it1) (R x + 1) Hok Hx); [|intros _|done].
  - assert (queue_ok c3 id (l1 ++ x :: l2)) as Hq3 by (split; [by apply Hdl|done..]).
    split; try done.
    + change (client_frame H (heap_of c) h4).
      eapply client_trans; [eapply (client_insert H (heap_of c) x it it1); [done|by eexists]|].
      eapply client_trans; [by apply client_same_items|]. eapply client_relinked; [exact Hrl4|].
      intros y Hy. apply HinH. rewrite Hmem in Hy. rewrite <- HL. by apply Hy.
    + change (holds hash (Assoc.set_heap h4 t3) (delete k m)). eapply holds_relinked; [done|exact Hrl4|].
      intros k' y Hy. apply lookup_delete_Some in Hy as [_ Hy]. apply (same_cores_dom _ _ _ (same_items_cores _ _ Hsame3)).
      change (is_Some (h1 !! y)). apply lookup_insert_is_Some. destruct (decide (x = y)); [by left|right]. split; [done|].
      by apply (index_heap Hok Hy).
    + eapply queue_ok_upd; [exact Hq3|done].
    + intros j Hj Hne. destruct (co_queues Hok j Hj) as [Jd Jh Jt Js].
      apply queue_ok_other; [done|split; [by apply Hdl|done..]|].
      eapply dlist_relinked; [exact Hrl4| |by apply Hdl]. intros y Hy Hy'. apply Hmem in Hy' as [_ Hy'].
      apply (co_linked Hok) in Hy as [Hy _]; [|done]. apply (co_linked Hok) in Hy' as [Hy' _]; [|done]. congruence.
    + intros y. rewrite Hmem. split; [by left|intros [?|[_ Hf]]; [done|]].
      change (has_flag ITEM_LINKED it1 = true) in Hf. congruence.
    + intros k' y. rewrite lookup_delete_Some. change (has_flag ITEM_LINKED (set_h_next v it1)) with (has_flag ITEM_LINKED it1).
      rewrite Hl1. split; [|intros [[Hne Hy]|(_ & ? & _)]; [|done]].
      * intros [Hk Hy]. left. split; [|done]. intros ->. apply (co_index Hok) in Hy as (_ & _ & Hky).
        unfold has_key, AssocTheorems.has_key in Hky. rewrite Hit in Hky. cbn in Hky. injection Hky as <-. by apply Hk.
      * split; [|done]. intros <-. congruence.
    + change (u32 (curr_items c - 1) = u32 (Z.of_nat (base.size (delete k m)))). rewrite (co_count Hok), u32_sub_l.
      f_equal. rewrite map_size_delete_Some by by eexists.
      assert (base.size m ≠ 0%nat) as Hne by (intros Hz; apply map_size_empty_inv in Hz; subst m; done). lia.
    + eapply newest_first_same; [eapply (newest_first_remove _ l1 x l2); rewrite <- HL; by apply Hok|].
      intros y Hy. apply Hmem in Hy as [Hy _]. apply core_same. by apply Hcore.
    + change (has_flag ITEM_LINKED (set_h_next v it1)) with (has_flag ITEM_LINKED it1). congruence.
  - destruct Hio as [I1 I2 I3 I4 I5 I6 I7]. rewrite Hl in I4.
    assert (has_flag ITEM_SLABBED it1 = false) as Hs1 by (unfold it1; by rewrite has_flag_clear by auto).
    assert (has_flag ITEM_CAS it1 = has_flag ITEM_CAS it) as Hc1 by (unfold it1; by rewrite has_flag_clear by auto).
    split; [done|exact Hs1|lia| |exact I5| |exact I7].
    + change (refcount it = R x + 1 + (if has_flag ITEM_LINKED it1 then 1 else 0)). rewrite Hl1. lia.
    + unfold ITEM_ntotal in *. change (has_flag ITEM_CAS (set_h_next v it1)) with (has_flag ITEM_CAS it1). by rewrite Hc1.
Qed.

Lemma with_links_flag f it it' : with_links it it' → has_flag f it' = has_flag f it.
Proof. by intros (n & p & q & ->). Qed.

(** [do_item_unlink] and [do_item_unlink_nolock]. *)
Lemma do_item_unlink_spec D H L m R c x id it l1 l2 :
  cache_ok D H L m R c → H !! x = Some id → x ∉ D → heap_of c !! x = Some it → has_flag ITEM_LINKED it = true →
  L id = l1 ++ x :: l2 →
  ∃ c', do_item_unlink_nolock x (hash (ITEM_key it)) c = Ret tt c' ∧
    let H' := if R x =? 0 then delete x H else H in
    cache_ok D H' (<[id := l1 ++ l2]> L) (delete (ITEM_key it) m) R c' ∧ frame [x] H' c c' ∧
    (R x ≠ 0 → ∃ it', heap_of c' !! x = Some it' ∧
       with_links (set_refcount (refcount it - 1) (clear_flag ITEM_LINKED it)) it').
Proof.
  intros Hok Hx Hd Hit Hl HL.
  destruct (unlink_links_spec D H L m R c x id it l1 l2 Hok Hx Hd Hit Hl HL) as (c1 & it1 & Hr1 & Hok1 & Hf1 & Hit1 & Hw).
  destruct (co_items Hok x id Hx Hd) as (it0 & Hit0 & Hio). pose proof (io_refs Hio) as HR. clear Hio Hit0 it0.
  assert (has_flag ITEM_LINKED it1 = false) as Hl1.
  { rewrite (with_links_flag _ _ _ Hw), has_flag_clear by auto. done. }
  destruct (do_item_remove_spec D H _ _ _ c1 x id it1 Hok1 Hx Hd Hit1) as (c' & Hr & Hok' & Hf & Hkeep).
  { rewrite fn_lookup_insert. lia. }
  rewrite fn_lookup_insert, Hl1 in Hok', Hf, Hkeep. cbn [negb andb] in Hok', Hf, Hkeep. rewrite andb_true_r in Hok', Hf, Hkeep.
  assert ((R x + 1 =? 1) = (R x =? 0)) as Heq by (destruct (Z.eqb_spec (R x + 1) 1), (Z.eqb_spec (R x) 0); lia).
  rewrite Heq in Hok', Hf, Hkeep. exists c'. split; [|split; [|split]].
  - unfold do_item_unlink_nolock. istep. rewrite Hl.
    by rewrite Hr1.
  - cbv zeta. eapply (cache_ok_ext (L := <[id := l1 ++ l2]> L)); [exact Hok'|done|]. fn_ext x. lia.
  - cbv zeta. eapply frame_trans; [exact Hf1|exact Hf|]. destruct (R x =? 0); [|done].
    intros y [j [_ Hj]%lookup_delete_Some]. by eexists.
  - intros HR0. rewrite (proj2 (Z.eqb_neq _ _) HR0) in Hkeep. rewrite Hkeep by congruence.
    eexists. split; [done|]. destruct Hw as (n & p & q & ->). by exists n, p, q.
Qed.

(** ** Linking *)

Lemma ITEM_set_cas_fields v it :
  ∃ w, ITEM_set_cas v it = set_cas w it ∧ w = (if has_flag ITEM_CAS it then v else cas it).
Proof. unfold ITEM_set_cas. destruct (has_flag ITEM_CAS it); [by exists v|]. exists (cas it). by destruct it. Qed.

(** A new number, if the numbers are in use. *)
Lemma run_cas_id c :
  ∃ v n, (if Slabs.use_cas st then get_cas_id else mret 0) c = Ret v (set_cas_id n c) ∧
    v = (if Slabs.use_cas st then u64 (cas_id c + 1) else 0).
Proof.
  destruct (Slabs.use_cas st).
  - eexists _, _. split; [reflexivity|]. done.
  - exists 0, (cas_id c). split; [by destruct c|done].
Qed.

(** The fields of a linked item before it gets its second reference. *)
Definition linked_item (now v : Z) (it : item) : item := ITEM_set_cas v (set_time now (add_flag ITEM_LINKED it)).

Lemma linked_item_fields now v it :
  ∃ w, linked_item now v it = set_cas w (set_time now (add_flag ITEM_LINKED it)) ∧
    w = (if has_flag ITEM_CAS it then v else cas it).
Proof.
  unfold linked_item. destruct (ITEM_set_cas_fields v (set_time now (add_flag ITEM_LINKED it))) as (w & -> & ->).
  eexists. split; [done|]. change (has_flag ITEM_CAS (set_time now (add_flag ITEM_LINKED it))) with (has_flag ITEM_CAS (add_flag ITEM_LINKED it)).
  by rewrite has_flag_add by auto.
Qed.

Lemma link_changes D H L m R c x id it itM n b i t t5 h6 :
  cache_ok D H L m R c → H !! x = Some id → heap_of c !! x = Some it → has_flag ITEM_LINKED it = false →
  next itM = next it → prev itM = prev it → ITEM_key itM = ITEM_key it →
  has_flag ITEM_LINKED itM = true → time itM = current_time c → m !! ITEM_key it = None →
  let h4 := <[x := itM]> (heap_of c) in
  let c4 := set_heap h4 (set_cas_id n (set_totals b (u32 (curr_items c + 1)) i (set_heap t c))) in
  AssocTheorems.same_items h4 (Assoc.heap t5) → holds hash t5 (<[ITEM_key it := x]> m) →
  relinked (x :: L id) (Assoc.heap t5) h6 → dlist h6 (x :: L id) →
  let c6 := queue_upd id (x :: L id) h6 (set_tbl t5 c4) in
  ∃ it6, with_links itM it6 ∧ one_item_changes hash H L m c c6 x id it6 (x :: L id) (<[ITEM_key it := x]> m).
Proof.
  intros Hok Hx Hit Hl Hnx Hpr Hke HlM HtM Hm h4 c4 Hsame Hholds Hrl Hd c6.
  destruct (held_class Hlargest Hok Hx) as (Hq & Hx0 & _).
  pose proof (unlinked_not_in D H L m R c x it id Hok Hit Hl Hq) as HxL.
  assert (h4 !! x = Some itM) as Hit4 by apply lookup_insert_eq.
  destruct (same_items_item _ _ _ _ Hsame Hit4) as (v & Hit5).
  destruct (relinked_with_links _ _ _ _ _ Hrl Hit5) as (it6 & Hit6 & Hw).
  exists it6. assert (with_links itM it6) as HwM by (destruct Hw as (n' & p & q & ->); by exists n', p, q).
  split; [done|].
  assert (∀ y, y ≠ x → core_at h6 y = core_at (heap_of c) y) as Hcore.
  { intros y Hy. rewrite (relinked_cores _ _ _ Hrl y), (same_items_cores _ _ Hsame y). unfold core_at, h4.
    by rewrite lookup_insert_ne. }
  assert (∀ l, dlist (heap_of c) l → dlist (Assoc.heap t5) l) as Hdl.
  { intros l Hd'. eapply dlist_same_items; [exact Hsame|]. eapply dlist_frame; [exact Hd'|]. intros y ity _ Hity. unfold h4.
    destruct (decide (y = x)) as [->|Hne]; [|by exists ity; rewrite lookup_insert_ne].
    exists itM. assert (ity = it) as -> by congruence. split; [apply lookup_insert_eq|done]. }
  destruct (co_queues Hok id Hq) as [Qd Qh Qt Qs].
  assert (has_flag ITEM_LINKED it6 = true) as Hl6 by (by rewrite (with_links_flag _ _ _ HwM)).
  assert (∀ y, y ∈ L id → y ≠ x) as Hne by (intros y Hy ->; done).
  assert (queue_ok (set_tbl t5 c4) id (L id)) as Hq5 by (split; [by apply Hdl|done..]).
  split; try done.
  - change (client_frame H (heap_of c) h6).
    eapply client_trans; [eapply (client_insert H (heap_of c) x it itM); [done|by eexists]|].
    eapply client_trans; [by apply client_same_items|]. eapply client_relinked; [exact Hrl|].
    intros y [->|Hy]%elem_of_cons; [by eexists|]. apply (co_linked Hok) in Hy as [Hy _]; [by eexists|done].
  - change (holds hash (Assoc.set_heap h6 t5) (<[ITEM_key it := x]> m)). eapply holds_relinked; [done|exact Hrl|].
    intros k' y Hy. apply (same_cores_dom _ _ _ (same_items_cores _ _ Hsame)). unfold h4. rewrite lookup_insert_is_Some.
    destruct (decide (x = y)) as [|Hxy]; [by left|right]. split; [done|].
    apply lookup_insert_Some in Hy as [[_ ?]|[_ Hy]]; [done|]. by apply (index_heap Hok Hy).
  - eapply queue_ok_upd; [exact Hq5|done].
  - intros j Hj Hjid. destruct (co_queues Hok j Hj) as [Jd Jh Jt Js].
    apply queue_ok_other; [done|split; [by apply Hdl|done..]|].
    eapply dlist_relinked; [exact Hrl| |by apply Hdl]. intros y Hy Hy'.
    pose proof Hy as [Hyj _]%(co_linked Hok); [|done]. apply elem_of_cons in Hy' as [->|Hy']; [congruence|].
    apply (co_linked Hok) in Hy' as [Hy' _]; [|done]. congruence.
  - intros y. rewrite elem_of_cons. split.
    + intros [->|Hy]; [by right|left]. split; [by apply Hne|done].
    + intros [[_ ?]|[-> _]]; auto.
  - intros k y. assert (ITEM_key it6 = ITEM_key it) as -> by (destruct HwM as (n' & p & q & ->); exact Hke).
    rewrite lookup_insert_Some. split.
    + intros [[<- <-]|[Hk Hy]]; [by right|left]. split; [|done]. intros ->. apply (co_index Hok) in Hy as (_ & Hla & _).
      unfold linked_at in Hla. rewrite Hit in Hla. congruence.
    + intros [[Hyx Hy]|(-> & _ & ->)]; [right|by left]. split; [|done]. intros <-. congruence.
  - change (u32 (curr_items c + 1) = u32 (Z.of_nat (base.size (<[ITEM_key it := x]> m)))).
    rewrite (co_count Hok), u32_add_l, map_size_insert_None by done. f_equal. lia.
  - assert (time_at h6 x = current_time c) as Htx.
    { unfold time_at. rewrite Hit6. destruct HwM as (n' & p & q & ->). exact HtM. }
    constructor.
    + eapply newest_first_same; [by apply Hok|]. intros y Hy. apply core_same. apply Hcore. by apply Hne.
    + apply Forall_forall. intros y Hy. change (time_at h6 y ≤ time_at h6 x). rewrite Htx.
      destruct (core_same _ _ y (Hcore y (Hne y Hy))) as (_ & -> & _). by apply (co_times Hok id).
  - intros _. change (time it6 ≤ current_time c). destruct HwM as (n' & p & q & ->).
    change (time itM ≤ current_time c). lia.
Qed.

Lemma linked_item_ok now v it r id :
  item_ok r id it → has_flag ITEM_LINKED it = false → 1 ≤ r → item_ok (r - 1) id (linked_item now v it).
Proof.
  intros [I1 I2 I3 I4 I5 I6 I7] Hl Hr. destruct (linked_item_fields now v it) as (w & -> & _). rewrite Hl in I4.
  assert (∀ f, is_flag f → has_flag f (set_cas w (set_time now (add_flag ITEM_LINKED it))) = (f =? ITEM_LINKED) || has_flag f it) as Hf.
  { intros f Hf. change (has_flag f (set_cas w (set_time now (add_flag ITEM_LINKED it)))) with (has_flag f (add_flag ITEM_LINKED it)).
    by rewrite has_flag_add by auto. }
  split; [exact I1|by rewrite Hf by auto|lia| |exact I5| |exact I7].
  - rewrite Hf by auto. change (refcount it = r - 1 + 1). lia.
  - unfold ITEM_ntotal in *. by rewrite Hf by auto.
Qed.

Lemma item_ok_links r id it it' : with_links it it' → item_ok r id it → item_ok r id it'.
Proof. intros (n & p & q & ->) [I1 I2 I3 I4 I5 I6 I7]. by split. Qed.

Lemma u16_succ n : 1 ≤ n + 1 < 2 ^ 16 → u16 (n + 1) = n + 1.
Proof. intros Hn. unfold u16. rewrite wrapu_small; lia. Qed.

Lemma refcount_incr_ok r id it : item_ok r id it → refcount it + 1 < 2 ^ 16 → item_ok (r + 1) id (refcount_incr it).
Proof.
  intros [I1 I2 I3 I4 I5 I6 I7] Hb.
  assert (refcount_incr it = set_refcount (refcount it + 1) it) as -> by (unfold refcount_incr; by rewrite u16_succ by lia).
  split; [done|done|lia| | |exact I6|exact I7].
  - change (refcount it + 1 = r + 1 + (if has_flag ITEM_LINKED it then 1 else 0)). lia.
  - change (1 ≤ refcount it + 1 < 2 ^ 16). lia.
Qed.

Lemma do_item_link_spec D H L m R c x id it :
  cache_ok D H L m R c → H !! x = Some id → x ∉ D → heap_of c !! x = Some it → has_flag ITEM_LINKED it = false →
  m !! ITEM_key it = None → 1 ≤ R x → refcount it + 1 < 2 ^ 16 →
  ∃ c' it', do_item_link st x (hash (ITEM_key it)) c = Ret 1 c' ∧
    cache_ok D H (<[id := x :: L id]> L) (<[ITEM_key it := x]> m) R c' ∧ frame [x] H c c' ∧
    heap_of c' !! x = Some it' ∧
    with_links (set_refcount (refcount it + 1)
      (linked_item (current_time c) (if Slabs.use_cas st then u64 (cas_id c + 1) else 0) it)) it'.
Proof.
  intros Hok Hx Hd Hit Hl Hm HR Hb. destruct (held_class Hlargest Hok Hx) as (Hq & Hx0 & _).
  destruct (co_items Hok x id Hx Hd) as (it0 & Hit0 & Hio). assert (it0 = it) as -> by congruence. clear Hit0.
  unfold do_item_link. istep. rewrite Hl, (io_slabbed Hio). iassert done. erewrite M_bind_ret by reflexivity. cbv beta.
  istep. set (it1 := set_time (current_time c) (add_flag ITEM_LINKED it)). set (c1 := set_heap (<[x := it1]> (heap_of c)) c).
  assert (heap_of c1 !! x = Some it1) as Hit1 by apply lookup_insert_eq. istep.
  erewrite M_bind_ret by reflexivity. set (c2 := set_totals _ _ _ c1).
  destruct (run_cas_id c2) as (v & n & Hcas & Hv). rewrite (M_bind_ret _ _ _ _ _ Hcas).
  change (cas_id c2) with (cas_id c) in Hv. set (c3 := set_cas_id n c2).
  assert (heap_of c3 !! x = Some it1) as Hit3 by apply lookup_insert_eq. istep.
  change (ITEM_set_cas v it1) with (linked_item (current_time c) v it). set (itM := linked_item (current_time c) v it).
  assert (<[x := itM]> (heap_of c3) = <[x := itM]> (heap_of c)) as -> by apply insert_insert_eq.
  set (c4 := set_heap (<[x := itM]> (heap_of c)) c3).
  destruct (linked_item_fields (current_time c) v it) as (w & HM & _). fold itM in HM.
  assert (ITEM_key itM = ITEM_key it) as Hke by (by rewrite HM).
  assert (has_flag ITEM_LINKED itM = true) as HlM.
  { rewrite HM. change (has_flag ITEM_LINKED (add_flag ITEM_LINKED it) = true). by rewrite has_flag_add by auto. }
  assert (heap_of c4 !! x = Some itM) as Hit4 by apply lookup_insert_eq.
  destruct (assoc_insert_holds hash (tbl c4) m (ITEM_key it) x) as (t5 & Ht5 & Hh5 & Hsame).
  { change (holds hash (Assoc.set_heap (<[x := itM]> (heap_of c)) (tbl c)) m).
    eapply holds_set_heap; [apply Hok|done|done|done|by rewrite HM|]. intros k y. apply (index_heap Hok). }
  { apply AssocTheorems.has_key_alt. by exists itM. } { done. } { done. }
  { intros k Hk. apply (co_index Hok) in Hk as (_ & Hla & _). unfold linked_at in Hla. rewrite Hit in Hla. congruence. }
  istep. set (c5 := set_tbl t5 c4).
  destruct (same_items_item _ _ _ _ Hsame Hit4) as (v5 & Hit5).
  assert (slabs_clsid (set_h_next v5 itM) = id) as Hcls by (rewrite HM; apply (io_clsid Hio)).
  pose proof (unlinked_not_in D H L m R c x it id Hok Hit Hl Hq) as HxL.
  destruct (co_queues Hok id Hq) as [Qd Qh Qt Qs].
  destruct (item_link_q_spec c5 x (set_h_next v5 itM) (L id)) as (h6 & Hr6 & Hd6 & Hrl6); [done| | |done|done| |].
  { rewrite Hcls. apply Hq. }
  { change (has_flag ITEM_SLABBED itM = false). rewrite HM. change (has_flag ITEM_SLABBED (add_flag ITEM_LINKED it) = false).
    rewrite has_flag_add by auto. apply (io_slabbed Hio). }
  { rewrite Hcls. split; [|done..]. eapply dlist_same_items; [exact Hsame|]. eapply dlist_same; [exact Qd|].
    intros y Hy. change (<[x := itM]> (heap_of c) !! y = heap_of c !! y). apply lookup_insert_ne. by intros ->. }
  rewrite Hcls in Hr6. rewrite (M_bind_ret _ _ _ _ _ Hr6). set (c6 := queue_upd id (x :: L id) h6 c5).
  destruct (link_changes D H L m R c x id it itM n (curr_bytes c2) (total_items c2) (heap_of c1) t5 h6 Hok Hx Hit Hl)
    as (it6 & Hw & Hch); [by rewrite HM|by rewrite HM|done|done|by rewrite HM|done|done|done|done|done|].
  assert (cache_ok D H (<[id := x :: L id]> L) (<[ITEM_key it := x]> m) (<[x := R x - 1]> R) c6) as Hok6.
  { eapply (one_item_ok Hlargest c6 (R x - 1) Hok Hx Hch); [|done]. intros _. eapply item_ok_links; [exact Hw|].
    by apply linked_item_ok. }
  assert (heap_of c6 !! x = Some it6) as Hit6 by apply Hch. istep.
  assert (refcount it6 = refcount it) as Hrc by (destruct Hw as (n' & p & q & ->); by rewrite HM).
  eexists _, (refcount_incr it6). split; [reflexivity|]. split; [|split; [|split; [apply lookup_insert_eq|]]].
  - apply (cache_ok_ext (L := <[id := x :: L id]> L) (R := <[x := R x]> (<[x := R x - 1]> R)) (<[id := x :: L id]> L) R);
      [|done|fn_ext x].
    eapply (cache_ok_set Hlargest it6); [exact Hok6|done|done|done| |done]. intros _.
    assert (R x = (R x - 1) + 1) as -> by lia. apply refcount_incr_ok; [|lia].
    destruct (co_items Hok6 x id Hx Hd) as (it6' & Hit6' & Hio6). rewrite fn_lookup_insert in Hio6. by simplify_eq.
  - eapply (frame_trans _ H H _ c6); [|by eapply frame_set; [|apply elem_of_cons; left]|done].
    split; [|done..]. intros y Hy _. apply (oc_others Hch). intros ->. apply Hy. by apply elem_of_cons; left.
  - unfold refcount_incr. rewrite Hrc, u16_succ by (pose proof (io_bound Hio); lia).
    rewrite <- Hv. fold itM. destruct Hw as (n' & p & q & ->). by exists n', p, q.
Qed.

(** ** Moving an item to the front of its queue *)

Lemma requeue_spec D H L m R c x id it l1 l2 :
  cache_ok D H L m R c → H !! x = Some id → x ∉ D → heap_of c !! x = Some it → has_flag ITEM_LINKED it = true →
  L id = l1 ++ x :: l2 →
  ∃ c' it', (item_unlink_q x ;; on_item x (set_time (current_time c)) ;; item_link_q x) c = Ret tt c' ∧
    cache_ok D H (<[id := x :: l1 ++ l2]> L) m R c' ∧ frame [x] H c c' ∧
    heap_of c' !! x = Some it' ∧ with_links (set_time (current_time c) it) it'.
Proof.
  intros Hok Hx Hd Hit Hl HL. destruct (held_class Hlargest Hok Hx) as (Hq & Hx0 & _).
  destruct (co_items Hok x id Hx Hd) as (it0 & Hit0 & Hio). assert (it0 = it) as -> by congruence. clear Hit0.
  destruct (linked_place D H L m R c x id it Hok Hx Hit Hl) as [_ Hm].
  pose proof (co_queues Hok id Hq) as Hqu. rewrite HL in Hqu. pose proof (io_clsid Hio) as Hcls.
  destruct (item_unlink_q_spec c x it l1 l2) as (h1 & Hr1 & Hd1 & Hrl1 & Hit1);
    [done|rewrite Hcls; apply Hq|by rewrite Hcls|]. rewrite Hcls in Hr1. rewrite (M_bind_ret _ _ _ _ _ Hr1).
  set (c1 := queue_upd id (l1 ++ l2) h1 c). change (heap_of c1 !! x = Some it) in Hit1. istep.
  set (it2 := set_time (current_time c) it). set (c2 := set_heap (<[x := it2]> (heap_of c1)) c1).
  assert (heap_of c2 !! x = Some it2) as Hit2 by apply lookup_insert_eq.
  assert (x ∉ l1 ++ l2) as Hxl.
  { pose proof (dl_nodup _ _ (qo_list _ _ _ Hqu)) as Hn. intros Hxl. by apply (AssocTheorems.elem_of_remove l1 l2 x x Hn) in Hxl as [_ ?]. }
  assert (∀ y, y ≠ x → heap_of c2 !! y = h1 !! y) as Ho2 by (intros y Hy; by apply lookup_insert_ne).
  assert (dlist (heap_of c2) (l1 ++ l2)) as Hd2.
  { eapply dlist_same; [exact Hd1|]. intros y Hy. apply Ho2. by intros ->. }
  assert (queue_ok c2 id (l1 ++ l2)) as Hq2.
  { destruct (queue_ok_upd id (l1 ++ l2) h1 c _ Hqu Hd1) as [_ Qh Qt Qs]. by split. }
  destruct (item_link_q_spec c2 x it2 (l1 ++ l2)) as (h3 & Hr3 & Hd3 & Hrl3);
    [done|change (slabs_clsid it < LARGEST_ID); rewrite Hcls; apply Hq|apply (io_slabbed Hio)|done|done|
     by change (slabs_clsid it2) with (slabs_clsid it); rewrite Hcls|].
  change (slabs_clsid it2) with (slabs_clsid it) in Hr3. rewrite Hcls in Hr3.
  destruct (relinked_with_links _ _ _ _ _ Hrl3 Hit2) as (it3 & Hit3 & Hw).
  set (c3 := queue_upd id (x :: l1 ++ l2) h3 c2) in *. exists c3, it3. split; [done|].
  assert (∀ y, y ≠ x → core_at h3 y = core_at (heap_of c) y) as Hcore.
  { intros y Hy. rewrite (relinked_cores _ _ _ Hrl3 y). rewrite <- (relinked_cores _ _ _ Hrl1 y). unfold core_at. by rewrite Ho2. }
  assert (∀ y, y ∈ x :: l1 ++ l2 ↔ y ∈ L id) as Hmem.
  { intros y. rewrite HL. rewrite elem_of_cons, !elem_of_app, elem_of_cons. tauto. }
  assert (has_flag ITEM_LINKED it3 = true) as Hl3 by (by rewrite (with_links_flag _ _ _ Hw)).
  assert (∀ y, y ∈ x :: l1 ++ l2 → is_Some (H !! y)) as HinH.
  { intros y [Hy _]%Hmem%(co_linked Hok); [by eexists|done]. }
  split; [|split; [|split; [done|done]]].
  2: { split; [|done..]. intros y Hy _. apply Hcore. intros ->. apply Hy. by apply elem_of_cons; left. }
  apply (cache_ok_ext (L := <[id := x :: l1 ++ l2]> L) (R := <[x := R x]> R) (<[id := x :: l1 ++ l2]> L) R); [|done|fn_ext x].
  apply (one_item_ok Hlargest c3 (id := id) (it := it3) (R x) Hok Hx); [|intros _|done].
  - assert (∀ j l, has_queue j → j ≠ id → dlist (heap_of c) l → (∀ y, y ∈ l → y ∈ L j) → dlist h3 l) as Hoth.
    { intros j l Hj Hne Hd' Hl'. eapply dlist_same; [exact Hd'|]. intros y Hy. pose proof (Hl' y Hy) as [Hyj _]%(co_linked Hok); [|done].
      assert (y ∉ x :: l1 ++ l2) as Hy'.
      { intros Hy'. apply Hmem, (co_linked Hok) in Hy' as [Hy' _]; [|done]. congruence. }
      rewrite (rl_other _ _ _ Hrl3) by done. rewrite Ho2 by (intros ->; apply Hy'; by apply elem_of_cons; left).
      apply (rl_other _ _ _ Hrl1). intros ?. apply Hy'. by apply elem_of_cons; right. }
    split; try done.
    + change (client_frame H (heap_of c) h3).
      eapply client_trans; [by eapply client_relinked; [exact Hrl1|intros y Hy; apply HinH; by apply elem_of_cons; right]|].
      eapply client_trans; [eapply (client_insert H h1 x it it2); [done|by eexists]|]. by eapply client_relinked.
    + change (holds hash (Assoc.set_heap h3 (tbl c2)) m). eapply holds_relinked; [|exact Hrl3|].
      * change (holds hash (Assoc.set_heap (<[x := it2]> h1) (Assoc.set_heap h1 (tbl c))) m).
        eapply holds_set_heap; [|exact Hit1|reflexivity|done|done|].
        -- eapply holds_relinked; [apply Hok|exact Hrl1|]. intros k y. apply (index_heap Hok).
        -- intros k y Hy. apply (same_cores_dom _ _ _ (relinked_cores _ _ _ Hrl1)). by apply (index_heap Hok Hy).
      * intros k y Hy. change (is_Some (<[x := it2]> h1 !! y)). rewrite lookup_insert_is_Some.
        destruct (decide (x = y)) as [|Hne]; [by left|right]. split; [done|].
        apply (same_cores_dom _ _ _ (relinked_cores _ _ _ Hrl1)). by apply (index_heap Hok Hy).
    + eapply queue_ok_upd; [exact Hq2|done].
    + intros j Hj Hne. destruct (co_queues Hok j Hj) as [Jd Jh Jt Js].
      apply queue_ok_other; [done| |by apply (Hoth j)]. split; [|cbn; by rewrite zlookup_insert_ne..].
      change (dlist (<[x := it2]> h1) (L j)). eapply dlist_same; [exact Jd|]. intros y Hy.
      pose proof Hy as [Hyj _]%(co_linked Hok); [|done]. rewrite lookup_insert_ne by congruence.
      apply (rl_other _ _ _ Hrl1). intros Hy'. assert (y ∈ L id) as Hyid by (apply Hmem; by apply elem_of_cons; right).
      apply (co_linked Hok) in Hyid as [Hyid _]; [|done]. congruence.
    + intros y. rewrite Hmem. destruct (decide (y = x)) as [->|Hne].
      * split; [by right|intros _]. rewrite HL. apply elem_of_app. right. by apply elem_of_cons; left.
      * split; [by left|by intros [[_ ?]|[? _]]].
    + intros k y. assert (ITEM_key it3 = ITEM_key it) as -> by (by destruct Hw as (n' & p & q & ->)).
      destruct (decide (y = x)) as [->|Hne]; [|split; [by left|by intros [[_ ?]|[? _]]]].
      split; [|intros [[? _]|(_ & _ & ->)]; done]. intros Hk. right. split; [done|]. split; [done|].
      apply (co_index Hok) in Hk as (_ & _ & Hk). unfold has_key, AssocTheorems.has_key in Hk. rewrite Hit in Hk. by injection Hk.
    + apply Hok.
    + assert (time_at h3 x = current_time c) as Htx.
      { unfold time_at. rewrite Hit3. by destruct Hw as (n' & p & q & ->). }
      constructor.
      * eapply newest_first_same; [eapply (newest_first_remove _ l1 x l2); rewrite <- HL; by apply Hok|].
        intros y Hy. apply core_same, Hcore. by intros ->.
      * apply Forall_forall. intros y Hy. change (time_at h3 y ≤ time_at h3 x). rewrite Htx.
        assert (y ≠ x) as Hne by (by intros ->). destruct (core_same _ _ y (Hcore y Hne)) as (_ & -> & _).
        apply (co_times Hok id); [done|]. apply Hmem. by apply elem_of_cons; right.
    + intros _. change (time it3 ≤ current_time c). destruct Hw as (n' & p & q & ->). change (current_time c ≤ current_time c). lia.
  - eapply item_ok_links; [exact Hw|]. by destruct Hio.
Qed.

Lemma do_item_update_spec D H L m R c x id it :
  cache_ok D H L m R c → H !! x = Some id → x ∉ D → heap_of c !! x = Some it →
  ∃ c' L' it', do_item_update x c = Ret tt c' ∧ cache_ok D H L' m R c' ∧ frame [x] H c c' ∧
    heap_of c' !! x = Some it' ∧
    with_links (if has_flag ITEM_LINKED it && (time it <? u32 (current_time c - ITEM_UPDATE_INTERVAL))
                then set_time (current_time c) it else it) it'.
Proof.
  intros Hok Hx Hd Hit. destruct (co_items Hok x id Hx Hd) as (it0 & Hit0 & Hio).
  assert (it0 = it) as -> by congruence. clear Hit0.
  assert (∃ c' L' it', Ret (E := Empty_set) tt c = Ret tt c' ∧ cache_ok D H L' m R c' ∧ frame [x] H c c' ∧
    heap_of c' !! x = Some it' ∧ with_links it it') as Hsame.
  { exists c, L, it. do 4 (split; [done|]). exists (next it), (prev it), (h_next it). by destruct it. }
  unfold do_item_update. istep. erewrite M_bind_ret by reflexivity. cbv beta.
  destruct (Z.ltb_spec (time it) (u32 (current_time c - ITEM_UPDATE_INTERVAL))); [|by rewrite andb_false_r].
  rewrite (io_slabbed Hio). iassert done. destruct (has_flag ITEM_LINKED it) eqn:Hl; [|done]. cbn [andb].
  destruct (linked_place D H L m R c x id it Hok Hx Hit Hl) as [(l1 & l2 & HL) _].
  destruct (requeue_spec D H L m R c x id it l1 l2 Hok Hx Hd Hit Hl HL) as (c' & it' & Hr & Hok' & Hf & Hit' & Hw).
  by eexists c', _, it'.
Qed.

End Operations.

Arguments unlinked_not_in {hash sz Holds D H L m R c x it id}.
Arguments linked_place {st hash largest sz Holds HA} Hlargest {D H L m R c x id it}.
Arguments do_item_unlink_spec {st hash largest sz Holds HA} Hlargest {D H L m R c x id it l1 l2}.
Arguments do_item_remove_spec {st hash largest sz Holds HA} Hlargest {D H L m R c x id it}.
Arguments do_item_link_spec {st hash largest sz Holds HA} Hlargest {D H L m R c x id it}.
Arguments do_item_update_spec {st hash largest sz Holds HA} Hlargest {D H L m R c x id it}.

End ItemsOps.
