(* ===== verification/ItemsAlloc.v ===== *)
(** * Allocation and lookup of items

    [do_item_alloc], [do_item_get] and [do_item_touch] of [Items] keep the invariant of
    [ItemsInv]. *)

From S2P Require Import Prelude Bytes CStrings ItemHeap Assoc AssocTheorems Slabs SlabsTheorems SlabsAlloc SlabsSafety ChunkAllocator Items ItemsInv ItemsOps.
From Stdlib Require Import ZArith Lia Sorted.
From stdpp Require Import base gmap list fin_maps functions sorting.

Local Open Scope Z_scope.

Module ItemsAlloc.
Import ItemHeap ChunkAllocator Items ItemsInv ItemsOps.

Section Operations.
Context (st : Slabs.settings_t) (hash : bytes → Z) (largest : Z) (sz : Z → Z).
Context (Holds : Slabs.arena → gmap Z Z → Prop) `{HA : !ChunkAllocator st largest sz Holds}.
Context (Hlargest : largest < LARGEST_ID).

Abbreviation cache_ok := (cache_ok hash sz Holds).
Abbreviation item_ok := (item_ok sz).

(** ** Small steps *)

(** A change of the pool that the client of the allocator does not notice. *)
Lemma cache_ok_pool D H L m R c pl :
  cache_ok D H L m R c → Holds (Slabs.mkArena (heap_of c) pl) H →
  cache_ok D H L m R (set_the_pool pl (set_heap (heap_of c) c)).
Proof.
  intros Hok Hh. apply (cache_ok_chunks D H R (heap_of c) pl Hok Hh); try done.
  - intros y id. apply (co_items Hok).
  - apply (co_limbo Hok).
  - apply (co_refs Hok).
Qed.

Lemma run_count D H L m R c id f :
  cache_ok D H L m R c → has_queue id →
  ∃ l, count id f c = Ret tt (set_itemstats l c) ∧ cache_ok D H L m R (set_itemstats l c).
Proof.
  intros Hok Hq. destruct (zlookup_is_Some (itemstats c) id) as [x Hx]; [rewrite (co_stats Hok); apply Hq|].
  exists (zinsert id (f x) (itemstats c)). split.
  - unfold count. istep. exact (run_set_elem itemstats set_itemstats id (f x) c x Hx).
  - destruct Hok as [C1 C2 C3 C4 C5 C6 C7 C8 C9 C10 C11 C12]. split; try done.
    + cbn. by rewrite zlen_insert.
    + intros j Hj. by destruct (C4 j Hj).
Qed.

Lemma frame_stats X H' c l : frame X H' c (set_itemstats l c).
Proof. done. Qed.

(** A reference is taken for a while. *)
Lemma run_incr_decr c x it :
  heap_of c !! x = Some it → 0 ≤ refcount it → refcount it + 1 < 2 ^ 16 →
  set_heap (<[x := refcount_decr (refcount_incr it)]> (<[x := refcount_incr it]> (heap_of c)))
    (set_heap (<[x := refcount_incr it]> (heap_of c)) c) = c.
Proof.
  intros Hx H0 Hb. rewrite insert_insert_eq.
  assert (refcount_decr (refcount_incr it) = it) as ->.
  { unfold refcount_decr, refcount_incr. rewrite u16_succ by lia. cbn. rewrite Z.add_simpl_r.
    unfold u16. rewrite wrapu_small by lia. by destruct it. }
  rewrite insert_id by done. by destruct c as [[]].
Qed.

Lemma incr_spec D H L m R c x id it :
  cache_ok D H L m R c → H !! x = Some id → x ∉ D → heap_of c !! x = Some it → refcount it + 1 < 2 ^ 16 →
  cache_ok D H L m (<[x := R x + 1]> R) (set_heap (<[x := refcount_incr it]> (heap_of c)) c).
Proof.
  intros Hok Hx Hd Hit Hb. eapply (cache_ok_set Hlargest it); try done. intros _.
  destruct (co_items Hok x id Hx Hd) as (it0 & Hit0 & Hio). assert (it0 = it) as -> by congruence.
  by apply refcount_incr_ok.
Qed.

(** ** Giving up a chunk *)

Lemma take_over_spec H L m R c x id it l1 l2 ntotal :
  cache_ok ∅ H L m R c → H !! x = Some id → heap_of c !! x = Some it → has_flag ITEM_LINKED it = true →
  L id = l1 ++ x :: l2 → R x = 1 →
  ∃ c' it', take_over x (hash (ITEM_key it)) ntotal c = Ret tt c' ∧
    cache_ok {[x]} H (<[id := l1 ++ l2]> L) (delete (ITEM_key it) m) (<[x := 0]> R) c' ∧
    frame [x] H c c' ∧ heap_of c' !! x = Some it' ∧ slabs_clsid it' = 0 ∧ has_flag ITEM_LINKED it' = false.
Proof.
  intros Hok Hx Hit Hl HL HR. destruct (co_items Hok x id Hx) as (it0 & Hit0 & Hio); [set_solver|].
  assert (it0 = it) as -> by congruence. clear Hit0. unfold take_over. istep. rewrite (io_clsid Hio).
  destruct (ca_held _ _ _ _ (co_holds Hok) Hx) as (Hv & _ & _).
  destruct (ca_adjust _ H id (ITEM_ntotal it) ntotal (co_holds Hok) Hv) as (pl & Hadj & Hh).
  erewrite M_bind_ret by (apply run_on_arena; exact Hadj). cbn [Slabs.the_pool Slabs.heap].
  set (c1 := set_the_pool pl (set_heap (heap_of c) c)).
  assert (cache_ok ∅ H L m R c1) as Hok1 by (by apply cache_ok_pool).
  assert (frame [x] H c c1) as Hf1 by done.
  destruct (do_item_unlink_spec Hlargest (it := it) (l1 := l1) (l2 := l2) Hok1 Hx) as (c2 & Hr2 & Hok2 & Hf2 & Hx2);
    [set_solver|done|done|done|].
  rewrite HR in Hok2, Hf2. cbn [Z.eqb] in Hok2, Hf2. destruct Hx2 as (it2 & Hit2 & Hw2); [lia|].
  rewrite (M_bind_ret _ _ _ _ _ Hr2). erewrite run_on_item by done.
  set (it3 := set_slabs_clsid 0 it2). eexists _, it3. split; [reflexivity|].
  assert (has_flag ITEM_LINKED it2 = false) as Hl2.
  { rewrite (with_links_flag _ _ _ Hw2). change (has_flag ITEM_LINKED (clear_flag ITEM_LINKED it) = false).
    by rewrite has_flag_clear by auto. }
  split; [|split; [|split; [apply lookup_insert_eq|by split]]].
  - apply (cache_ok_ext (L := <[id := l1 ++ l2]> L) (R := <[x := 0]> (<[x := 0]> R)) (<[id := l1 ++ l2]> L) (<[x := 0]> R));
      [|done|fn_ext x].
    eapply (cache_ok_set Hlargest it2); [|done|done|done|set_solver|done].
    eapply (cache_ok_limbo _ it2); [exact Hok2|by eexists|done|done|set_solver|done|set_solver].
  - eapply frame_trans; [exact Hf1| |done]. eapply frame_trans; [exact Hf2|by eapply frame_set; [|apply elem_of_cons; left]|done].
Qed.

(** ** A chunk from the allocator *)

(** What becomes of the cache when a chunk [ret] of class [id] has been found: it is new, or
    an item that nobody used has been evicted from it. *)
Record found (H : gmap Z Z) (m : gmap bytes Z) (R : Z → Z) (c c' : cache) (id ret : Z) : Prop := {
  fo_cache : ∃ H' L' m', cache_ok {[ret]} H' L' m' R c' ∧ H' !! ret = Some id ∧ (∀ y, y ≠ ret → H' !! y = H !! y) ∧
    frame [ret] H' c c' ∧ (m' = m ∨ ∃ k, m !! k = Some ret ∧ m' = delete k m);
  fo_item : ∃ it, heap_of c' !! ret = Some it ∧ slabs_clsid it = 0 ∧ has_flag ITEM_LINKED it = false;
  fo_free : ret ≠ 0 ∧ R ret = 0
}.

Lemma slabs_alloc_spec H L m R c e n id :
  cache_ok ∅ H L m R c → SlabsSafety.system_ok st e (the_pool c) id →
  ∃ ret c', on_arena (Slabs.do_slabs_alloc st e n id) c = Ret ret c' ∧
    (∀ x, is_Some (H !! x) → heap_of c' !! x = heap_of c !! x) ∧
    ((ret = 0 ∧ cache_ok ∅ H L m R c' ∧ frame [] H c c') ∨ (H !! ret = None ∧ found H m R c c' id ret)).
Proof.
  intros Hok Hsys. destruct (ca_alloc (Slabs.mkArena (heap_of c) (the_pool c)) H e n id (co_holds Hok) Hsys) as (ret & ar & Hr & Hh & Hsame & Hnew).
  exists ret, (set_the_pool (Slabs.the_pool ar) (set_heap (Slabs.heap ar) c)). split; [by apply run_on_arena|]. split; [done|].
  assert (frame [] H c (set_the_pool (Slabs.the_pool ar) (set_heap (Slabs.heap ar) c))) as Hf.
  { split; [|done..]. intros y _ Hy. unfold core_at. cbn. by rewrite Hsame. }
  destruct (Z.eqb_spec ret 0) as [->|Hne].
  - left. split; [done|]. split; [|done].
    apply (cache_ok_chunks ∅ H R (Slabs.heap ar) (Slabs.the_pool ar) Hok); [by destruct ar|..].
    + intros y Hl Hy. split; [by apply Hsame|done].
    + intros y Hy Hl. split; [done|]. unfold linked_at in *. by rewrite Hsame in Hl.
    + intros y j Hy _. rewrite Hsame by by eexists. apply (co_items Hok); [done|set_solver].
    + set_solver.
    + apply (co_refs Hok).
  - destruct (Hnew Hne) as (Hnone & it & Hit & [I1 I2 I3 I4]). right. split; [done|].
    assert (∀ y, is_Some (H !! y) → y ≠ ret) as Hret by (intros y [j Hj] ->; congruence).
    assert (R ret = 0) as HR by (apply (co_refs Hok); by left).
    split; [|by exists it|done].
    exists (<[ret := id]> H), L, m. split; [|split; [apply lookup_insert_eq|split; [intros y Hy; by apply lookup_insert_ne|split; [|by left]]]].
    + apply (cache_ok_chunks {[ret]} (<[ret := id]> H) R (Slabs.heap ar) (Slabs.the_pool ar) Hok); [by destruct ar|..].
      * intros y Hl Hy. split; [by apply Hsame|]. apply lookup_insert_ne. intros <-. by apply (Hret ret).
      * intros y Hy Hl. apply lookup_insert_is_Some in Hy as [<-|[_ Hy]].
        { unfold linked_at in Hl. rewrite Hit in Hl. congruence. }
        split; [done|]. unfold linked_at in *. by rewrite Hsame in Hl.
      * intros y j [[<- <-]|[_ Hy]]%lookup_insert_Some Hd; [set_solver|]. rewrite Hsame by by eexists.
        apply (co_items Hok); [done|set_solver].
      * intros y ->%elem_of_singleton. split; [unfold linked_at; by rewrite Hit|]. rewrite lookup_insert_eq. by eexists.
      * intros y [Hy| ->%elem_of_singleton]; [|done]. apply (co_refs Hok). left.
        by apply lookup_insert_None in Hy as [? _].
    + split; [|done..]. intros y Hy Hh'. unfold core_at. cbn. rewrite Hsame; [done|].
      apply lookup_insert_is_Some in Hh' as [<-|[_ ?]]; [|done]. exfalso. apply Hy. by apply elem_of_cons; left.
Qed.

(** *** The item at the end of a queue *)

Lemma frame_nil X H' c c' : frame [] H' c c' → frame X H' c c'.
Proof. intros Hf. eapply frame_mono; [exact Hf| |done]. intros y Hy. by apply elem_of_nil in Hy. Qed.

Lemma try_item_spec H L m R c s x id it ntotal :
  cache_ok ∅ H L m R c → SlabsSafety.system_ok st (s_env s) (the_pool c) id →
  H !! x = Some id → heap_of c !! x = Some it → has_flag ITEM_LINKED it = true → R x = 1 →
  ∃ ret c', try_item st s x (hash (ITEM_key it)) id ntotal c = Ret ret c' ∧
    ((ret = 0 ∧ cache_ok ∅ H L m R c' ∧ frame [] H c c') ∨
     (ret ≠ x ∧ H !! ret = None ∧ found H m R c c' id ret) ∨
     (ret = x ∧ found H m (<[x := 0]> R) c c' id x)).
Proof.
  intros Hok Hsys Hx Hit Hl HR. destruct (held_class Hlargest Hok Hx) as (Hq & Hx0 & _).
  destruct (linked_place Hlargest Hok Hx Hit Hl) as [(l1 & l2 & HL) Hm].
  (* an item that is evicted, after some statistics have been counted *)
  assert (∀ c1, cache_ok ∅ H L m R c1 → heap_of c1 !! x = Some it → frame [] H c c1 →
    ∃ c', take_over x (hash (ITEM_key it)) ntotal c1 = Ret tt c' ∧ found H m (<[x := 0]> R) c c' id x) as Htake.
  { intros c1 Hok1 Hit1 Hf1.
    destruct (take_over_spec H L m R c1 x id it l1 l2 ntotal Hok1 Hx Hit1 Hl HL HR) as (c' & it' & Hr & Hok' & Hf' & Hit' & Hc & Hu).
    exists c'. split; [done|]. split; [|by exists it'|by rewrite fn_lookup_insert].
    eexists H, _, _. split; [exact Hok'|]. split; [done|]. split; [done|]. split; [|right; by eexists].
    eapply frame_trans; [by apply frame_nil|exact Hf'|done]. }
  assert (∀ c1 f, cache_ok ∅ H L m R c1 ∧ heap_of c1 !! x = Some it ∧ frame [] H c c1 →
    ∃ c2, count id f c1 = Ret tt c2 ∧ cache_ok ∅ H L m R c2 ∧ heap_of c2 !! x = Some it ∧ frame [] H c c2) as Hcount.
  { intros c1 f (Hok1 & Hit1 & Hf1). destruct (run_count ∅ H L m R c1 id f Hok1 Hq) as (l & Hr & Hok2).
    exists (set_itemstats l c1). split; [done|]. split; [done|]. split; [done|]. eapply frame_trans; [exact Hf1|apply frame_stats|done]. }
  assert (∀ (b : bool) c1 f, cache_ok ∅ H L m R c1 ∧ heap_of c1 !! x = Some it ∧ frame [] H c c1 →
    ∃ c2, (if b then mret tt else count id f) c1 = Ret tt c2 ∧
      cache_ok ∅ H L m R c2 ∧ heap_of c2 !! x = Some it ∧ frame [] H c c2) as Hcount'.
  { intros [|] c1 f H1; [by exists c1|by apply Hcount]. }
  unfold try_item. istep. erewrite M_bind_ret by reflexivity. cbv beta. erewrite M_bind_ret by reflexivity. cbv beta.
  assert (cache_ok ∅ H L m R c ∧ heap_of c !! x = Some it ∧ frame [] H c c) as H0 by done.
  destruct (expired_in_queue _ _ it).
  - destruct (Hcount c count_reclaimed H0) as (c1 & Hr1 & H1). rewrite (M_bind_ret _ _ _ _ _ Hr1).
    destruct (Hcount' (has_flag ITEM_FETCHED it) c1 count_expired_unfetched H1) as (c2 & Hr2 & Hok2 & Hit2 & Hf2).
    rewrite (M_bind_ret _ _ _ _ _ Hr2). destruct (Htake c2 Hok2 Hit2 Hf2) as (c' & Hr & Hfo).
    rewrite (M_bind_ret _ _ _ _ _ Hr). exists x, c'. split; [done|]. by right; right.
  - destruct (slabs_alloc_spec H L m R c (s_env s) ntotal id Hok Hsys) as (ret & c1 & Hr1 & Hsame & Hcase).
    rewrite (M_bind_ret _ _ _ _ _ Hr1). destruct (Z.eqb_spec ret 0) as [->|Hret].
    2: { destruct Hcase as [[? _]|[Hn Hfo]]; [done|]. exists ret, c1. split; [done|]. right; left.
         split; [|done]. intros ->. congruence. }
    assert (cache_ok ∅ H L m R c1 ∧ heap_of c1 !! x = Some it ∧ frame [] H c c1) as H1.
    { destruct Hcase as [(_ & Hok1 & Hf1)|[_ Hfo]]; [|by destruct (fo_free _ _ _ _ _ _ _ Hfo)].
      split; [done|]. split; [|done]. rewrite Hsame; [done|by eexists]. }
    destruct (negb (Slabs.evict_to_free st)).
    { destruct (Hcount c1 count_outofmemory H1) as (c2 & Hr2 & Hok2 & _ & Hf2). rewrite (M_bind_ret _ _ _ _ _ Hr2).
      exists 0, c2. split; [done|]. by left. }
    destruct (Hcount c1 count_evicted H1) as (c2 & Hr2 & H2). rewrite (M_bind_ret _ _ _ _ _ Hr2).
    destruct (Hcount c2 (set_evicted_time (u32 (current_time c - time it))) H2) as (c3 & Hr3 & H3). rewrite (M_bind_ret _ _ _ _ _ Hr3).
    destruct (Hcount' (exptime it =? 0) c3 count_evicted_nonzero H3) as (c4 & Hr4 & H4). rewrite (M_bind_ret _ _ _ _ _ Hr4).
    destruct (Hcount' (has_flag ITEM_FETCHED it) c4 count_evicted_unfetched H4) as (c5 & Hr5 & Hok5 & Hit5 & Hf5).
    rewrite (M_bind_ret _ _ _ _ _ Hr5). destruct (Htake c5 Hok5 Hit5 Hf5) as (c6 & Hr6 & Hfo).
    rewrite (M_bind_ret _ _ _ _ _ Hr6).
    assert (∃ c', (if Slabs.slab_automove st =? 2
         then let* _ := on_arena (Slabs.slabs_reassign (s_reassign_lock s) (-1) id) in mret tt
         else mret tt) c6 = Ret tt c' ∧ found H m (<[x := 0]> R) c c' id x) as (c' & Hr & Hfo').
    { destruct (Slabs.slab_automove st =? 2); [|by exists c6].
      destruct Hfo as [(H' & L' & m' & Hok' & HHx & HHo & Hf' & Hm') (it' & Hit' & Hi) Hfree].
      destruct (ca_reassign _ H' (s_reassign_lock s) (-1) id (co_holds Hok')) as (r & pl & Hrr & Hh).
      erewrite M_bind_ret by (apply run_on_arena; exact Hrr). eexists. split; [reflexivity|]. cbn [Slabs.the_pool Slabs.heap].
      split; [|by exists it'|done]. exists H', L', m'. split; [by apply cache_ok_pool|]. do 2 (split; [done|]).
      split; [by destruct Hf'|done]. }
    rewrite (M_bind_ret _ _ _ _ _ Hr). exists x, c'. split; [done|]. by right; right.
Qed.

(** *** The walk along a queue *)

(** What is expected of the users: they hold fewer than 2^16 - 2 references to an item, and
    none for more than three hours after the item was put to the front of its queue. *)
Record users_ok (R : Z → Z) (c : cache) : Prop := {
  uo_few : ∀ x, R x + 2 < 2 ^ 16;
  uo_prompt : ∀ x it, heap_of c !! x = Some it → 1 ≤ R x → current_time c ≤ u32 (time it + TAIL_REPAIR_TIME)
}.

Lemma decr_ok r id it : item_ok r id it → 1 ≤ r → 2 ≤ refcount it → item_ok (r - 1) id (refcount_decr it).
Proof.
  intros [I1 I2 I3 I4 I5 I6 I7] Hr Hb.
  assert (refcount_decr it = set_refcount (refcount it - 1) it) as ->.
  { unfold refcount_decr, u16. by rewrite wrapu_small by lia. }
  split; [done|done|lia| | |exact I6|exact I7].
  - change (refcount it - 1 = r - 1 + (if has_flag ITEM_LINKED it then 1 else 0)). lia.
  - change (1 ≤ refcount it - 1 < 2 ^ 16). lia.
Qed.

Lemma decr_incr it : 0 ≤ refcount it → refcount it + 1 < 2 ^ 16 → refcount_decr (refcount_incr it) = it.
Proof.
  intros H0 Hb. unfold refcount_decr, refcount_incr. rewrite u16_succ by lia. cbn. rewrite Z.add_simpl_r.
  unfold u16. rewrite wrapu_small by lia. by destruct it.
Qed.
Lemma core_decr it it' : core it' = core it → core (refcount_decr it') = core (refcount_decr it).
Proof. intros Hc. destruct (core_inv _ _ Hc) as (n & p & q & ->). by destruct it. Qed.

Lemma search_loop_spec H L m R c s cur_hv id ntotal tries l1 l2 :
  cache_ok ∅ H L m R c → users_ok R c → SlabsSafety.system_ok st (s_env s) (the_pool c) id → has_queue id →
  L id = l1 ++ l2 →
  ∃ r c', search_loop st hash tries s (final l1) cur_hv id ntotal c = Ret r c' ∧
    ((r = None ∧ c' = c) ∨
     ∃ ret, r = Some ret ∧ ((ret = 0 ∧ cache_ok ∅ H L m R c' ∧ frame [] H c c') ∨ found H m R c c' id ret)).
Proof.
  intros Hok [Hfew Hprompt] Hsys Hq. revert l1 l2. induction tries as [|tries IH]; intros l1 l2 HL.
  { exists None, c. split; [done|]. by left. }
  cbn [search_loop]. destruct (Z.eqb_spec (final l1) 0) as [|Hne0]; [exists None, c; split; [done|by left]|].
  destruct l1 as [|x l1 _] using rev_ind; [done|]. rewrite <- app_assoc in HL. cbn [app] in HL.
  assert (final (l1 ++ [x]) = x) as Hfin by (unfold final; by rewrite last_snoc). rewrite Hfin in *.
  assert (x ∈ L id) as Hxl by (rewrite HL; apply elem_of_app; right; by apply elem_of_cons; left).
  pose proof (proj1 (co_linked Hok id x Hq) Hxl) as [Hx Hla].
  destruct (co_items Hok x id Hx) as (it & Hit & Hio); [set_solver|].
  assert (has_flag ITEM_LINKED it = true) as Hl by (unfold linked_at in Hla; by rewrite Hit in Hla).
  pose proof (io_count Hio) as Hrc. rewrite Hl in Hrc. pose proof (io_refs Hio) as HR0. specialize (Hfew x).
  assert (prev it = final l1) as Hprev.
  { pose proof (qo_list _ _ _ (co_queues Hok id Hq)) as Hd. rewrite HL in Hd.
    by destruct (link_around_next _ _ _ _ _ Hd Hit) as (_ & ? & _). }
  specialize (IH l1 (x :: l2) HL). istep.
  destruct (locked_out s cur_hv (hash (ITEM_key it))); [by rewrite Hprev|].
  istep. set (c1 := set_heap (<[x := refcount_incr it]> (heap_of c)) c).
  assert (heap_of c1 !! x = Some (refcount_incr it)) as Hit1 by apply lookup_insert_eq. istep.
  assert (refcount (refcount_incr it) = refcount it + 1) as Hrc1 by (unfold refcount_incr; cbn; rewrite u16_succ; lia).
  destruct (Z.eqb_spec (refcount (refcount_incr it)) 2) as [H2|H2]; cbn [negb].
  - (* the item is not in use *)
    assert (R x = 0) as HR by lia.
    assert (cache_ok ∅ H L m (<[x := 1]> R) c1) as Hok1.
    { pose proof (incr_spec ∅ H L m R c x id it Hok Hx ltac:(set_solver) Hit ltac:(lia)) as Hi. by rewrite HR in Hi. }
    destruct (try_item_spec H L m (<[x := 1]> R) c1 s x id (refcount_incr it) ntotal Hok1 Hsys Hx Hit1 Hl)
      as (ret & c2 & Hr2 & Hcase); [by rewrite fn_lookup_insert|].
    change (ITEM_key (refcount_incr it)) with (ITEM_key it) in Hr2. rewrite (M_bind_ret _ _ _ _ _ Hr2).
    (* the reference is given back *)
    assert (∀ it2, core it2 = core (refcount_incr it) → core (refcount_decr it2) = core it) as Hback.
    { intros it2 Hc. rewrite (core_decr _ _ Hc), decr_incr by lia. done. }
    assert (∀ D H' L' m' X, cache_ok D H' L' m' (<[x := 1]> R) c2 → H' !! x = Some id → x ∉ D → x ∉ X → frame X H' c1 c2 →
      ∃ c3, on_item x refcount_decr c2 = Ret tt c3 ∧ cache_ok D H' L' m' R c3 ∧ frame X H' c c3 ∧
        (∀ y, y ≠ x → heap_of c3 !! y = heap_of c2 !! y)) as Hdecr.
    { intros D H' L' m' X Hok2 HHx HD HX Hf. destruct (co_items Hok2 x id HHx HD) as (it2 & Hit2 & Hio2).
      rewrite fn_lookup_insert in Hio2.
      assert (core it2 = core (refcount_incr it)) as Hc2.
      { pose proof (fr_core _ _ _ _ Hf x HX (mk_is_Some _ _ HHx)) as Hc. unfold core_at in Hc.
        rewrite Hit1, Hit2 in Hc. by apply (inj Some). }
      assert (refcount it2 = 2) as Hrc2 by (destruct (core_inv _ _ Hc2) as (n & p & q & ->); exact H2).
      eexists. split; [by apply run_on_item|]. split; [|split].
      - apply (cache_ok_ext (L := L') (R := <[x := 1 - 1]> (<[x := 1]> R)) L' R); [|done|fn_ext x].
        eapply (cache_ok_set Hlargest it2); try done. intros _. apply decr_ok; [done|lia|lia].
      - destruct Hf as [Hf1 Hf2 Hf3]. split; [|done..]. intros y Hy Hh. unfold core_at. cbn [heap_of].
        destruct (decide (y = x)) as [->|Hyx].
        + change (core <$> <[x := refcount_decr it2]> (heap_of c2) !! x = core <$> heap_of c !! x).
          rewrite lookup_insert_eq, Hit. cbn. f_equal. by apply Hback.
        + change (core <$> <[x := refcount_decr it2]> (heap_of c2) !! y = core <$> heap_of c !! y).
          rewrite lookup_insert_ne by done. fold (core_at (heap_of c2) y). rewrite Hf1 by done.
          change (core <$> <[x := refcount_incr it]> (heap_of c) !! y = core <$> heap_of c !! y).
          by rewrite lookup_insert_ne.
      - intros y Hy. by apply lookup_insert_ne. }
    destruct Hcase as [(-> & Hok2 & Hf2)|[(Hne & Hnone & Hfo)|(-> & Hfo)]].
    + destruct (Hdecr ∅ H L m [] Hok2 Hx) as (c3 & Hr3 & Hok3 & Hf3 & _); [set_solver|by intros ?%elem_of_nil|done|].
      rewrite (M_bind_ret _ _ _ _ _ Hr3). eexists _, c3. split; [done|]. right. exists 0. split; [done|]. by left.
    + destruct Hfo as [(H' & L' & m' & Hok2 & HHr & HHo & Hf2 & Hm2) (itr & Hitr & Hir) [Hr0 HRr]].
      destruct (Hdecr {[ret]} H' L' m' [ret] Hok2) as (c3 & Hr3 & Hok3 & Hf3 & Ho3);
        [by rewrite HHo|set_solver|by intros ?%list_elem_of_singleton|done|].
      rewrite (M_bind_ret _ _ _ _ _ Hr3). eexists _, c3. split; [done|]. right. exists ret. split; [done|]. right.
      split; [by exists H', L', m'|exists itr; by rewrite Ho3|]. split; [done|]. by rewrite fn_lookup_insert_ne in HRr.
    + destruct Hfo as [(H' & L' & m' & Hok2 & HHr & HHo & Hf2 & Hm2) (itr & Hitr & Hir) [Hr0 HRr]].
      erewrite M_bind_ret by (by apply run_on_item). eexists _, _. split; [done|]. right. exists x. split; [done|]. right.
      split; [|exists (refcount_decr itr); split; [apply lookup_insert_eq|done]|done].
      exists H', L', m'. split; [|do 2 (split; [done|]); split; [|done]].
      * apply (cache_ok_ext (L := L') (R := <[x := 0]> (<[x := 0]> (<[x := 1]> R))) L' R); [|done|fn_ext x].
        eapply (cache_ok_set Hlargest itr); [exact Hok2|done|done|done|set_solver|done].
      * eapply frame_trans; [|eapply frame_trans; [exact Hf2|by eapply frame_set; [|apply elem_of_cons; left]|done]|done].
        by eapply frame_set; [|apply elem_of_cons; left].
  - (* the item is in use *)
    istep. assert (set_heap (<[x := refcount_decr (refcount_incr it)]> (heap_of c1)) c1 = c) as ->
      by (apply (run_incr_decr c x it); [done|lia|lia]). erewrite M_bind_ret by reflexivity. cbv beta.
    change (time (refcount_incr it)) with (time it).
    rewrite (proj2 (Z.ltb_ge (u32 (time it + TAIL_REPAIR_TIME)) (current_time c))) by (apply (Hprompt x it Hit); lia).
    erewrite M_bind_ret by reflexivity. istep. by rewrite Hprev.
Qed.

(** ** Allocation *)

Lemma zlen_decimal_digits fuel n : zlen (decimal_digits fuel n) ≤ Z.of_nat fuel.
Proof.
  revert n. induction fuel as [|fuel IH]; intros n; cbn [decimal_digits]; [done|]. rewrite zlen_app.
  change (zlen [48 + n mod 10]) with 1. specialize (IH (n / 10)). destruct (n <? 10); [change (zlen (@nil Z)) with 0; lia|lia].
Qed.
Lemma zlen_print_int n : zlen (print_int n) ≤ 21.
Proof.
  unfold print_int, decimal. pose proof (zlen_decimal_digits 20 (- n)). pose proof (zlen_decimal_digits 20 n).
  destruct (n <? 0); [rewrite zlen_cons|]; lia.
Qed.

(** Arguments that the callers use: the value has room for its CR LF. *)
Record alloc_args (key : bytes) (flags nbytes : Z) : Prop := {
  aa_key : zlen key ≤ 250;
  aa_bytes : 2 ≤ nbytes < 2 ^ 31;
  aa_flags : - 2 ^ 31 ≤ flags < 2 ^ 31
}.

Lemma init_item_shaped s id key flags exptime nbytes i : alloc_args key flags nbytes →
  let it := init_item st s id key exptime nbytes (item_make_header (zlen key + 1) flags nbytes).1 i in
  shaped (ITEM_key it) (ItemHeap.nbytes it) (ITEM_data it) (ITEM_suffix it).
Proof.
  intros [Hk Hb Hf]. split; cbn [ITEM_key ItemHeap.nbytes ITEM_data ITEM_suffix init_item]; [done|done| |by exists flags].
  unfold zlen. rewrite length_resize. lia.
Qed.

(** The size for which the chunk was asked is that of the new item. *)
Lemma init_item_size s id key flags exptime nbytes i :
  zlen key ≤ 250 → 0 ≤ nbytes < 2 ^ 31 →
  ITEM_ntotal (init_item st s id key exptime nbytes (item_make_header (zlen key + 1) flags nbytes).1 i) =
  item_ntotal st (zlen key) flags nbytes.
Proof.
  intros Hk Hn. unfold ITEM_ntotal, item_ntotal, item_make_header, nkey, nsuffix. cbn [fst snd init_item ITEM_key ITEM_suffix ItemHeap.nbytes].
  set (suffix := item_suffix flags nbytes). assert (0 ≤ zlen suffix ≤ 50) as Hs.
  { unfold suffix, item_suffix. rewrite zlen_app, zlen_cons, zlen_app, zlen_cons. change (zlen [13; 10]) with 2.
    pose proof (zlen_print_int flags). pose proof (zlen_print_int (nbytes - 2)). unfold zlen in *. lia. }
  assert (0 ≤ zlen key) by (unfold zlen; lia). unfold sizeof_item, sizeof_cas, u8, u64 in *.
  rewrite (wrapu_small 8 (zlen key + 1)) by lia.
  rewrite (wrapu_small 64 (48 + (zlen key + 1) + zlen suffix + nbytes)) by lia.
  unfold has_flag, init_item. cbn [it_flags]. destruct (Slabs.use_cas st); [rewrite wrapu_small by lia|];
    change (negb (Z.land ITEM_CAS ITEM_CAS =? 0)) with true; change (negb (Z.land 0 ITEM_CAS =? 0)) with false; cbv iota; lia.
Qed.

(** The outcome of an allocation. *)
Definition alloc_outcome (H : gmap Z Z) (m : gmap bytes Z) (R : Z → Z) (c c' : cache) (s : sys)
    (key : bytes) (flags exptime nbytes ret : Z) : Prop :=
  ∃ H' L' m' id i, cache_ok ∅ H' L' m' (<[ret := 1]> R) c' ∧ ret ≠ 0 ∧ R ret = 0 ∧ H' !! ret = Some id ∧
    (∀ y, y ≠ ret → H' !! y = H !! y) ∧ frame [ret] H' c c' ∧ (m' = m ∨ ∃ k, m !! k = Some ret ∧ m' = delete k m) ∧
    heap_of c' !! ret = Some (init_item st s id key exptime nbytes (item_make_header (zlen key + 1) flags nbytes).1
                                (set_refcount 1 i)).

Lemma do_item_alloc_spec H L m R c s key flags exptime nbytes cur_hv :
  cache_ok ∅ H L m R c → users_ok R c → (∀ id, SlabsSafety.system_ok st (s_env s) (the_pool c) id) →
  alloc_args key flags nbytes →
  ∃ ret c', do_item_alloc st hash s key flags exptime nbytes cur_hv c = Ret ret c' ∧
    ((ret = 0 ∧ cache_ok ∅ H L m R c' ∧ frame [] H c c') ∨ alloc_outcome H m R c c' s key flags exptime nbytes ret).
Proof.
  intros Hok Husers Hsys [Hkey Hnb Hfl]. unfold do_item_alloc. set (ntotal := item_ntotal _ _ _ _).
  erewrite M_bind_ret by reflexivity. cbv beta.
  destruct (ca_clsid (Slabs.mkArena (heap_of c) (the_pool c)) H ntotal (co_holds Hok)) as (id & Hid & Hvalid).
  cbn [Slabs.the_pool] in Hid. rewrite Hid. erewrite M_bind_ret by reflexivity. cbv beta.
  destruct (Z.eqb_spec id 0) as [|Hid0]; [exists 0, c; split; [done|by left]|].
  destruct (Hvalid Hid0) as [Hv Hfits].
  assert (has_queue id) as Hq by (unfold has_queue, SlabsAlloc.valid_class, Slabs.POWER_SMALLEST in *; lia).
  destruct (co_queues Hok id Hq) as [_ _ Qt _]. istep.
  destruct (search_loop_spec H L m R c s cur_hv id ntotal 5 (L id) [] Hok Husers (Hsys id) Hq) as (r & c1 & Hr1 & Hcase1);
    [by rewrite app_nil_r|]. rewrite (M_bind_ret _ _ _ _ _ Hr1).
  assert (∃ it c2, match r with Some it => mret it | None => on_arena (Slabs.do_slabs_alloc st (s_env s) ntotal id) end c1 = Ret it c2 ∧
    ((it = 0 ∧ cache_ok ∅ H L m R c2 ∧ frame [] H c c2) ∨ found H m R c c2 id it)) as (it & c2 & Hr2 & Hcase).
  { destruct Hcase1 as [[-> ->]|(ret & -> & Hc)]; [|by exists ret, c1].
    destruct (slabs_alloc_spec H L m R c (s_env s) ntotal id Hok (Hsys id)) as (ret & c2 & Hr2 & _ & Hc).
    exists ret, c2. split; [done|]. destruct Hc as [?|[_ ?]]; [by left|by right]. }
  rewrite (M_bind_ret _ _ _ _ _ Hr2). clear Hr1 Hcase1 Hr2.
  destruct Hcase as [(-> & Hok2 & Hf2)|[(H' & L' & m' & Hok2 & HHr & HHo & Hf2 & Hm2) (i & Hi & Hic & Hil) [Hne HR]]].
  { destruct (run_count ∅ H L m R c2 id count_outofmemory Hok2 Hq) as (l & Hr3 & Hok3). cbn [Z.eqb].
    rewrite (M_bind_ret _ _ _ _ _ Hr3). eexists 0, _. split; [done|]. left. split; [done|]. split; [done|].
    eapply frame_trans; [exact Hf2|apply frame_stats|done]. }
  rewrite (proj2 (Z.eqb_neq it 0)) by done. istep. rewrite Hic. iassert done.
  destruct (co_queues Hok2 id Hq) as [Qd2 Qh2 _ _]. istep.
  pose proof (unlinked_not_in Hok2 Hi Hil Hq) as Hnl.
  iassert ltac:(apply negb_true_iff, Z.eqb_neq; intros ->; by destruct (first_elem (L' id))).
  istep. erewrite M_bind_ret by (apply run_on_item, lookup_insert_eq).
  eexists it, _. split; [reflexivity|]. right.
  set (it' := init_item st s id key exptime nbytes (item_make_header (zlen key + 1) flags nbytes).1 (set_refcount 1 i)).
  assert (heap_of (set_heap (<[it := set_refcount 1 i]> (heap_of c2)) c2) = <[it := set_refcount 1 i]> (heap_of c2)) as -> by done.
  rewrite insert_insert_eq. set (h := <[it := it']> (heap_of c2)).
  assert (has_flag ITEM_LINKED it' = false ∧ has_flag ITEM_SLABBED it' = false) as [Hl' Hs'].
  { unfold has_flag, it'. cbn. by destruct (Slabs.use_cas st). }
  exists H', L', m', id, i. split; [|do 4 (split; [done|]); split; [|split; [done|apply lookup_insert_eq]]].
  - assert (cache_ok ∅ H' L' m' (<[it := 1]> R) (set_the_pool (the_pool c2) (set_heap h c2))) as Hfin; [|exact Hfin].
    apply (cache_ok_chunks ∅ H' (<[it := 1]> R) h (the_pool c2) Hok2).
    + apply (ca_frame _ H' h (co_holds Hok2)). eapply client_insert; [done|by eexists].
    + intros y Hly Hy. split; [|done]. apply lookup_insert_ne. intros <-. unfold linked_at in Hly. rewrite Hi in Hly. congruence.
    + intros y Hy Hly. split; [done|]. unfold linked_at in *. destruct (decide (y = it)) as [->|Hyi].
      * unfold h in Hly. rewrite lookup_insert_eq in Hly. congruence.
      * unfold h in Hly. by rewrite lookup_insert_ne in Hly.
    + intros y j Hy _. destruct (decide (y = it)) as [->|Hyi].
      * rewrite fn_lookup_insert. exists it'. split; [apply lookup_insert_eq|]. assert (j = id) as -> by congruence.
        split; [done|done|lia| |done| |].
        -- rewrite Hl'. done.
        -- unfold it'. rewrite init_item_size by (done || lia). exact Hfits.
        -- by apply init_item_shaped.
      * rewrite fn_lookup_insert_ne by done. unfold h. rewrite lookup_insert_ne by done. apply (co_items Hok2); [done|set_solver].
    + set_solver.
    + intros y [Hy|Hy]; [|set_solver]. rewrite fn_lookup_insert_ne by (intros ->; congruence). apply (co_refs Hok2). by left.
  - assert (frame [it] H' c2 (set_heap h c2)) as [Hf3 K V] by (by eapply (frame_set it it'); [|apply elem_of_cons; left]).
    eapply frame_trans; [exact Hf2| |done]. by split.
Qed.

(** ** Lookup *)

(** What is left of an item that is given up. *)
Definition held_after (R : Z → Z) (x : Z) (H : gmap Z Z) : gmap Z Z := if R x =? 0 then delete x H else H.

(** The item loses its links and the reference that the lookup has taken. *)
Lemma drop_item_spec H L m R c x id it :
  cache_ok ∅ H L m R c → H !! x = Some id → heap_of c !! x = Some it → has_flag ITEM_LINKED it = true → 1 ≤ R x →
  ∃ c' L', (do_item_unlink_nolock x (hash (ITEM_key it)) ;; do_item_remove x ;; mret 0) c = Ret 0 c' ∧
    let H' := if R x =? 1 then delete x H else H in
    cache_ok ∅ H' L' (delete (ITEM_key it) m) (<[x := R x - 1]> R) c' ∧ frame [x] H' c c'.
Proof.
  intros Hok Hx Hit Hl HR.
  destruct (linked_place Hlargest Hok Hx Hit Hl) as [(l1 & l2 & HL) Hm].
  destruct (do_item_unlink_spec Hlargest (it := it) (l1 := l1) (l2 := l2) Hok Hx) as (c1 & Hr1 & Hok1 & Hf1 & Hx1);
    [set_solver|done|done|done|].
  rewrite (proj2 (Z.eqb_neq (R x) 0)) in Hok1, Hf1 by lia. destruct Hx1 as (it1 & Hit1 & Hw1); [lia|].
  assert (has_flag ITEM_LINKED it1 = false) as Hl1.
  { rewrite (with_links_flag _ _ _ Hw1). change (has_flag ITEM_LINKED (clear_flag ITEM_LINKED it) = false).
    by rewrite has_flag_clear by auto. }
  destruct (do_item_remove_spec Hlargest (it := it1) Hok1 Hx) as (c2 & Hr2 & Hok2 & Hf2 & _);
    [set_solver|done|done|]. rewrite Hl1 in Hok2, Hf2. cbn [negb] in Hok2, Hf2. rewrite andb_true_r in Hok2, Hf2.
  exists c2, (<[id := l1 ++ l2]> L). split; [by rewrite (M_bind_ret _ _ _ _ _ Hr1), (M_bind_ret _ _ _ _ _ Hr2)|].
  split; [exact Hok2|]. eapply frame_trans; [exact Hf1|exact Hf2|]. destruct (R x =? 1); [|done].
  intros y [j [_ Hj]%lookup_delete_Some]. by eexists.
Qed.

Lemma do_item_get_spec H L m R c key :
  cache_ok ∅ H L m R c → (∀ x, R x + 2 < 2 ^ 16) →
  ∃ ret c', do_item_get key (hash key) c = Ret ret c' ∧
    match m !! key with
    | None => ret = 0 ∧ c' = c
    | Some x => ∃ it id, heap_of c !! x = Some it ∧ H !! x = Some id ∧ ITEM_key it = key ∧ x ≠ 0 ∧
        if being_moved (the_pool c) x || expired (current_time c) (oldest_live c) it
        then ret = 0 ∧ ∃ L', cache_ok ∅ (held_after R x H) L' (delete key m) R c' ∧ frame [x] (held_after R x H) c c'
        else ret = x ∧ cache_ok ∅ H L m (<[x := R x + 1]> R) c' ∧ frame [x] H c c' ∧
             heap_of c' !! x = Some (add_flag ITEM_FETCHED (refcount_incr it)) ∧ the_pool c' = the_pool c
    end.
Proof.
  intros Hok Hfew. unfold do_item_get. erewrite M_bind_ret by reflexivity. cbv beta.
  rewrite (assoc_find_holds hash (tbl c) m key (co_table Hok)). erewrite M_bind_ret by reflexivity. cbv beta.
  destruct (m !! key) as [x|] eqn:Hm; cbn [default from_option Datatypes.id]; [|by exists 0, c].
  pose proof (proj1 (co_index Hok key x) Hm) as ([id Hx] & Hla & Hk).
  apply AssocTheorems.has_key_alt in Hk as (it & Hit & Hkey).
  assert (has_flag ITEM_LINKED it = true) as Hl by (unfold linked_at in Hla; by rewrite Hit in Hla).
  destruct (held_class Hlargest Hok Hx) as (Hq & Hx0 & _). rewrite (proj2 (Z.eqb_neq x 0)) by done.
  destruct (co_items Hok x id Hx) as (it0 & Hit0 & Hio); [set_solver|]. assert (it0 = it) as -> by congruence. clear Hit0.
  pose proof (io_count Hio) as Hrc. rewrite Hl in Hrc. pose proof (io_refs Hio) as HR0. specialize (Hfew x).
  set (c1 := set_heap (<[x := refcount_incr it]> (heap_of c)) c).
  assert (cache_ok ∅ H L m (<[x := R x + 1]> R) c1) as Hok1 by (apply (incr_spec ∅ H L m R c x id it); [done|done|set_solver|done|lia]).
  assert (heap_of c1 !! x = Some (refcount_incr it)) as Hit1 by apply lookup_insert_eq.
  assert (frame [x] H c c1) as Hf1 by (by eapply frame_set; [|apply elem_of_cons; left]).
  destruct (drop_item_spec H L m (<[x := R x + 1]> R) c1 x id (refcount_incr it) Hok1 Hx Hit1 Hl) as (c2 & L' & Hdrop & Hok2 & Hf2);
    [rewrite fn_lookup_insert; lia|].
  change (ITEM_key (refcount_incr it)) with (ITEM_key it) in Hdrop, Hok2. rewrite Hkey in Hdrop, Hok2. rewrite fn_lookup_insert in Hok2, Hf2.
  assert ((R x + 1 =? 1) = (R x =? 0)) as Heq by (destruct (Z.eqb_spec (R x + 1) 1), (Z.eqb_spec (R x) 0); lia).
  rewrite Heq in Hok2, Hf2. fold (held_after R x H) in Hok2, Hf2.
  assert (cache_ok ∅ (held_after R x H) L' (delete key m) R c2 ∧ frame [x] (held_after R x H) c c2) as Hgone.
  { split.
    - apply (cache_ok_ext (L := L') (R := <[x := R x + 1 - 1]> (<[x := R x + 1]> R)) L' R); [exact Hok2|done|fn_ext x; lia].
    - eapply frame_trans; [exact Hf1|exact Hf2|]. unfold held_after. destruct (R x =? 0); [|done].
      intros y [j [_ Hj]%lookup_delete_Some]. by eexists. }
  assert (∀ c3, (on_item x refcount_incr ;; let* pl := gets the_pool in
      if being_moved pl x then do_item_unlink_nolock x (hash key) ;; do_item_remove x ;; mret 0 else mret x) c =
    c3 ↔ (if being_moved (the_pool c) x then Ret 0 c2 else Ret x c1) = c3) as Hfirst.
  { intros c3. erewrite M_bind_ret by (by apply run_on_item). fold c1. erewrite M_bind_ret by reflexivity. cbv beta.
    change (the_pool c1) with (the_pool c). destruct (being_moved (the_pool c) x); [by rewrite Hdrop|done]. }
  destruct (being_moved (the_pool c) x); cbn [orb].
  - rewrite (M_bind_ret _ _ _ _ _ (proj2 (Hfirst _) eq_refl)). exists 0, c2. split; [done|]. exists it, id. do 4 (split; [done|]).
    split; [done|]. by exists L'.
  - rewrite (M_bind_ret _ _ _ _ _ (proj2 (Hfirst _) eq_refl)). cbv beta. rewrite (proj2 (Z.eqb_neq x 0)) by done. istep.
    erewrite M_bind_ret by reflexivity. cbv beta. erewrite M_bind_ret by reflexivity. cbv beta.
    change (expired (current_time c1) (oldest_live c1) (refcount_incr it)) with (expired (current_time c) (oldest_live c) it).
    destruct (expired (current_time c) (oldest_live c) it) eqn:He.
    + unfold do_item_unlink. rewrite Hdrop. exists 0, c2. split; [done|]. exists it, id. do 4 (split; [done|]). rewrite He. split; [done|]. by exists L'.
    + erewrite M_bind_ret by (by apply run_on_item). eexists x, _. split; [reflexivity|]. exists it, id. do 4 (split; [done|]). rewrite He.
      split; [done|]. split; [|split; [|split; [apply lookup_insert_eq|done]]].
      * apply (cache_ok_ext (L := L) (R := <[x := R x + 1]> (<[x := R x + 1]> R)) L (<[x := R x + 1]> R)); [|done|fn_ext x].
        assert (∀ f, is_flag f → f ≠ ITEM_FETCHED → has_flag f (add_flag ITEM_FETCHED (refcount_incr it)) = has_flag f it) as Hfl.
        { intros f Hf Hne. rewrite has_flag_add by auto. by rewrite (proj2 (Z.eqb_neq _ _) Hne). }
        eapply (cache_ok_set Hlargest (refcount_incr it)); [exact Hok1|done|done| | |done].
        -- split; try done. by rewrite Hfl by (auto; done).
        -- intros _. destruct (refcount_incr_ok sz (R x) id it Hio ltac:(lia)) as [I1 I2 I3 I4 I5 I6 I7].
           split; [done|by rewrite Hfl by (auto; done)|lia| |done| |exact I7].
           ++ rewrite Hfl by (auto; done). exact I4.
           ++ unfold ITEM_ntotal in *. by rewrite Hfl by (auto; done).
      * eapply frame_trans; [exact Hf1|by eapply frame_set; [|apply elem_of_cons; left]|done].
Qed.

End Operations.

End ItemsAlloc.
