(* ===== verification/ItemsRefs.v ===== *)
(** * References to items

    What a user can do with an item to which it holds a reference: read and write it, let it
    take the place of another one, and give the reference up. *)

From S2P Require Import Prelude Bytes CStrings ItemHeap Assoc AssocTheorems Slabs SlabsTheorems SlabsAlloc SlabsSafety ChunkAllocator Items ItemsInv ItemsOps ItemsAlloc.
From Stdlib Require Import ZArith Lia Sorted.
From stdpp Require Import base gmap list fin_maps functions sorting.

Local Open Scope Z_scope.

Module ItemsRefs.
Import ItemHeap ChunkAllocator Items ItemsInv ItemsOps ItemsAlloc.

Section References.
Context {st : Slabs.settings_t} {hash : bytes → Z} {largest : Z} {sz : Z → Z}.
Context {Holds : Slabs.arena → gmap Z Z → Prop} `{HA : !ChunkAllocator st largest sz Holds}.
Context (Hlargest : largest < LARGEST_ID).

Abbreviation cache_ok := (cache_ok hash sz Holds).

Lemma referenced {D H L m R c x} : cache_ok D H L m R c → 1 ≤ R x → x ∉ D ∧ ∃ id it, H !! x = Some id ∧ heap_of c !! x = Some it ∧ item_ok sz (R x) id it.
Proof.
  intros Hok HR. assert (x ∉ D) as Hd by (intros Hd; rewrite (co_refs Hok) in HR by (by right); lia). split; [done|].
  destruct (H !! x) as [id|] eqn:Hx; [|rewrite (co_refs Hok) in HR by (by left); lia].
  destruct (co_items Hok x id Hx Hd) as (it & Hit & Hio). by exists id, it.
Qed.

Lemma refs_nonneg {D H L m R c} x : cache_ok D H L m R c → 0 ≤ R x.
Proof.
  intros Hok. destruct (decide (x ∈ D)) as [Hd|Hd]; [rewrite (co_refs Hok); [done|by right]|].
  destruct (H !! x) as [id|] eqn:Hx; [|rewrite (co_refs Hok); [done|by left]].
  destruct (co_items Hok x id Hx Hd) as (it & _ & Hio). apply (io_refs Hio).
Qed.

Lemma replace_ok {H L m R c x y i j} :
  cache_ok ∅ H L m R c → (∀ x, R x + 2 < 2 ^ 16) → 1 ≤ R x → 1 ≤ R y → heap_of c !! x = Some i → heap_of c !! y = Some j →
  has_flag ITEM_LINKED j = false → ITEM_key j = ITEM_key i → has_flag ITEM_LINKED i = true ∨ m !! ITEM_key j = None →
  ∃ c' L' v j', do_item_replace st x y (hash (ITEM_key i)) c = Ret 1 c' ∧ cache_ok ∅ H L' (<[ITEM_key i := y]> m) R c' ∧
    frame [x; y] H c c' ∧ heap_of c' !! y = Some j' ∧
    with_links (set_refcount (refcount j + 1) (linked_item (current_time c) v j)) j'.
Proof.
  intros Hok Hfew HRx HRy Hi Hj Hlj Hk Hcase.
  destruct (referenced Hok HRx) as (_ & id & i0 & Hx & Hi0 & Hio). assert (i0 = i) as -> by congruence. clear Hi0.
  destruct (referenced Hok HRy) as (_ & jd & j0 & Hy & Hj0 & Hjo). assert (j0 = j) as -> by congruence. clear Hj0.
  assert (∃ c1 L1, do_item_unlink x (hash (ITEM_key i)) c = Ret tt c1 ∧ cache_ok ∅ H L1 (delete (ITEM_key i) m) R c1 ∧
    frame [x] H c c1 ∧ ∃ j1, heap_of c1 !! y = Some j1 ∧ core j1 = core j) as (c1 & L1 & Hr1 & Hok1 & Hf1 & j1 & Hj1 & Hcj).
  { destruct (has_flag ITEM_LINKED i) eqn:Hli.
    - destruct (linked_place Hlargest Hok Hx Hi Hli) as [(l1 & l2 & HL) Hm].
      destruct (do_item_unlink_spec Hlargest (it := i) (l1 := l1) (l2 := l2) Hok Hx) as (c1 & Hr1 & Hok1 & Hf1 & _);
        [set_solver|done|done|done|]. rewrite (proj2 (Z.eqb_neq (R x) 0)) in Hok1, Hf1 by lia.
      eexists c1, _. split; [exact Hr1|]. split; [exact Hok1|]. split; [done|].
      pose proof (fr_core _ _ _ _ Hf1 y) as Hc. unfold core_at in Hc. rewrite Hj in Hc.
      destruct (heap_of c1 !! y) as [j1|]; [exists j1; split; [done|]; apply (inj Some), Hc|]; try by eexists.
      + intros ->%list_elem_of_singleton. congruence.
      + exfalso. enough (None = Some (core j)) by done. apply Hc; [|by eexists]. intros ->%list_elem_of_singleton. congruence.
    - exists c, L. destruct Hcase as [?|Hm]; [done|]. rewrite Hk in Hm. split.
      + unfold do_item_unlink, do_item_unlink_nolock. istep. by rewrite Hli.
      + split; [by rewrite delete_id|]. split; [done|]. by exists j. }
  destruct (core_inv _ _ Hcj) as (n & p & q & Hj1').
  destruct (do_item_link_spec Hlargest (it := j1) Hok1 Hy) as (c2 & j2 & Hr2 & Hok2 & Hf2 & Hj2 & Hw2).
  { set_solver. } { done. } { by rewrite Hj1'. }
  { rewrite Hj1'. change (delete (ITEM_key i) m !! ITEM_key j = None). by rewrite Hk, lookup_delete_eq. }
  { done. } { rewrite Hj1'. change (refcount j + 1 < 2 ^ 16). rewrite (io_count Hjo), Hlj. specialize (Hfew y). lia. }
  assert (ITEM_key j1 = ITEM_key i) as Hk1 by (by rewrite Hj1'). rewrite Hk1 in Hr2, Hok2. rewrite insert_delete_eq in Hok2.
  exists c2, (<[jd := y :: L1 jd]> L1), (if Slabs.use_cas st then u64 (cas_id c1 + 1) else 0), j2.
  split; [|split; [exact Hok2|split; [|split; [done|]]]].
  - unfold do_item_replace. istep. rewrite (io_slabbed Hio). iassert done. by rewrite (M_bind_ret _ _ _ _ _ Hr1).
  - eapply frame_trans; [eapply frame_mono; [exact Hf1| |done]|eapply frame_mono; [exact Hf2| |done]|done];
      intros z ->%list_elem_of_singleton; set_solver.
  - rewrite (fr_clock _ _ _ _ Hf1) in Hw2. destruct Hw2 as (n2 & p2 & q2 & ->). rewrite Hj1'.
    destruct (linked_item_fields (current_time c) (if Slabs.use_cas st then u64 (cas_id c1 + 1) else 0)
      (set_next n (set_prev p (set_h_next q j)))) as (w & -> & Hw).
    destruct (linked_item_fields (current_time c) (if Slabs.use_cas st then u64 (cas_id c1 + 1) else 0) j) as (w' & -> & Hw').
    assert (w' = w) as -> by (rewrite Hw, Hw'; done). by exists n2, p2, q2.
Qed.

End References.

End ItemsRefs.
