(* ===== verification/Store.v ===== *)
(** * Storing values in memcached

    [do_store_item] and [do_add_delta] of [memcached-1.4.15/memcached.c], with their wrappers
    of [thread.c]: the commands that store, append to and count with the items of [Items].
    Each runs under the lock of its key, as one step. *)

From S2P Require Import Prelude Bytes CStrings McUtil ItemHeap Assoc Slabs Items.
From stdpp Require Import base gmap list.
From Stdlib Require Import ZArith Lia.

Local Open Scope Z_scope.

Module Store.
Import ItemHeap Items.

Inductive nread := NREAD_ADD | NREAD_SET | NREAD_REPLACE | NREAD_APPEND | NREAD_PREPEND | NREAD_CAS.
#[export] Instance nread_eq_dec : EqDecision nread.
Proof. solve_decision. Defined.

Inductive store_item_type := NOT_STORED | STORED | EXISTS | NOT_FOUND.
#[export] Instance store_item_type_eq_dec : EqDecision store_item_type.
Proof. solve_decision. Defined.

Inductive delta_result_type := OK | NON_NUMERIC | EOM | DELTA_ITEM_NOT_FOUND | DELTA_ITEM_CAS_MISMATCH.

(** ** Memory

    The value of an item is read and written within its [nbytes] bytes. *)

Definition read_data (p n : Z) : IM bytes :=
  let* i := the_item p in
  if (0 <=? n) && (n <=? zlen (ITEM_data i)) then mret (ztake n (ITEM_data i)) else stuck OutOfBounds.
Definition write_data (p off : Z) (d : bytes) : IM unit :=
  let* i := the_item p in
  if (0 <=? off) && (off + zlen d <=? zlen (ITEM_data i))
  then on_item p (λ i, set_ITEM_data (memcpy (ITEM_data i) off d) i) else stuck OutOfBounds.

(** A string of C ends at its first zero. *)
Definition c_string (l : bytes) : bytes := take_while (λ c, negb (c =? 0)) l.

(** [(int) strtol(s, NULL, 10)] and [atoi(s)]. *)
Definition int_of_string (s : bytes) : Z :=
  match McUtil.strtoll s with Some (v, _, _) => i32 v | None => 0 end.

Section Operations.
Context (st : Slabs.settings_t) (hash : bytes → Z).

(** ** [do_store_item] *)

(** A new item with the two values one after the other; 0 if there is no memory. *)
Definition concatenation (s : sys) (it old_it : Z) (comm : nread) (hv : Z) : IM Z :=
  let* i := the_item it in
  let* o := the_item old_it in
  let flags := int_of_string (ITEM_suffix o) in
  let* new_it := do_item_alloc st hash s (ITEM_key i) flags (exptime o) (i32 (nbytes i + nbytes o - 2)) hv in
  if new_it =? 0 then mret 0
  else
    let* i := the_item it in
    let* o := the_item old_it in
    (if decide (comm = NREAD_APPEND) then
       let* d := read_data old_it (nbytes o) in
       write_data new_it 0 d ;;
       let* d := read_data it (nbytes i) in
       write_data new_it (nbytes o - 2) d
     else
       let* d := read_data it (nbytes i) in
       write_data new_it 0 d ;;
       let* d := read_data old_it (nbytes o) in
       write_data new_it (nbytes i - 2) d) ;;
    mret new_it.

(** The items that are released at the end; [cas] is [c->cas], which becomes the number of
    the item that has been stored. *)
Definition finish_store (stored : store_item_type) (it old_it new_it cas : Z) : IM (store_item_type * Z) :=
  (if old_it =? 0 then mret tt else do_item_remove old_it) ;;
  (if new_it =? 0 then mret tt else do_item_remove new_it) ;;
  if decide (stored = STORED) then let* i := the_item it in mret (STORED, ITEM_get_cas i) else mret (stored, cas).

(** The item [it] takes the place of [old_it], or is new. *)
Definition link_or_replace (old_it it hv : Z) : IM unit :=
  (if old_it =? 0 then do_item_link st it hv else item_replace st old_it it hv) ;; mret tt.

Definition do_store_item (s : sys) (it : Z) (comm : nread) (cas hv : Z) : IM (store_item_type * Z) :=
  let* i := the_item it in
  let* old_it := do_item_get (ITEM_key i) hv in
  if negb (old_it =? 0) && bool_decide (comm = NREAD_ADD) then
    do_item_update old_it ;; finish_store NOT_STORED it old_it 0 cas
  else if (old_it =? 0) && bool_decide (comm = NREAD_REPLACE ∨ comm = NREAD_APPEND ∨ comm = NREAD_PREPEND) then
    finish_store NOT_STORED it old_it 0 cas
  else if bool_decide (comm = NREAD_CAS) then
    if old_it =? 0 then finish_store NOT_FOUND it old_it 0 cas
    else
      let* i := the_item it in
      let* o := the_item old_it in
      if ITEM_get_cas i =? ITEM_get_cas o
      then item_replace st old_it it hv ;; finish_store STORED it old_it 0 cas
      else finish_store EXISTS it old_it 0 cas
  else if bool_decide (comm = NREAD_APPEND ∨ comm = NREAD_PREPEND) then
    let* i := the_item it in
    let* o := the_item old_it in
    if negb (ITEM_get_cas i =? 0) && negb (ITEM_get_cas i =? ITEM_get_cas o)
    then finish_store EXISTS it old_it 0 cas
    else
      let* new_it := concatenation s it old_it comm hv in
      if new_it =? 0 then do_item_remove old_it ;; mret (NOT_STORED, cas)
      else link_or_replace old_it new_it hv ;; finish_store STORED new_it old_it new_it cas
  else link_or_replace old_it it hv ;; finish_store STORED it old_it 0 cas.

(** ** [do_add_delta] *)

(** The value of a counter after an increment or a decrement; [delta] is of the type
    [int64_t], but is compared and added as an unsigned number. *)
Definition new_value (incr : bool) (value delta : Z) : Z :=
  if incr then u64 (value + delta) else if value <? u64 delta then 0 else u64 (value - delta).

(** The result, the text for the client, and the number of the item, if it was asked for. *)
Definition do_add_delta (s : sys) (key : bytes) (incr : bool) (delta : Z) (cas : option Z) (hv : Z)
  : IM (delta_result_type * bytes * option Z) :=
  let* it := do_item_get key hv in
  if it =? 0 then mret (DELTA_ITEM_NOT_FOUND, [], cas)
  else
    let* i := the_item it in
    if (match cas with Some v => negb (v =? 0) && negb (ITEM_get_cas i =? v) | None => false end)
    then do_item_remove it ;; mret (DELTA_ITEM_CAS_MISMATCH, [], cas)
    else
      let '(ok, value) := McUtil.safe_strtoull (c_string (ITEM_data i ++ s_beyond s it)) in
      if negb ok then do_item_remove it ;; mret (NON_NUMERIC, [], cas)
      else
        let buf := decimal (new_value incr value delta) in
        let res := zlen buf in
        let* fine :=
          if (nbytes i <? res + 2) || negb (refcount i =? 1) then
            let* new_it := do_item_alloc st hash s (ITEM_key i) (int_of_string (tail (ITEM_suffix i))) (exptime i) (res + 2) hv in
            if new_it =? 0 then do_item_remove it ;; mret false
            else
              write_data new_it 0 buf ;;
              write_data new_it res [13; 10] ;;
              item_replace st it new_it hv ;;
              let* n := the_item new_it in
              on_item it (ITEM_set_cas (if Slabs.use_cas st then ITEM_get_cas n else 0)) ;;
              do_item_remove new_it ;; mret true
          else
            let* v := if Slabs.use_cas st then get_cas_id else mret 0 in
            on_item it (ITEM_set_cas v) ;;
            write_data it 0 buf ;;
            write_data it res (replicate (Z.to_nat (nbytes i - res - 2)) 32) ;;
            do_item_update it ;; mret true in
        if (fine : bool) then
          let* i := the_item it in
          do_item_remove it ;;
          mret (OK, buf, match cas with Some _ => Some (ITEM_get_cas i) | None => None end)
        else mret (EOM, [], cas).

(** ** The wrappers of [thread.c] *)

Definition store_item (s : sys) (it : Z) (comm : nread) (cas : Z) : IM (store_item_type * Z) :=
  let* i := the_item it in do_store_item s it comm cas (hash (ITEM_key i)).
Definition add_delta (s : sys) (key : bytes) (incr : bool) (delta : Z) (cas : option Z)
  : IM (delta_result_type * bytes * option Z) :=
  do_add_delta s key incr delta cas (hash key).

End Operations.

End Store.
