(* ===== verification/StoreOps.v ===== *)
(** * Storing keeps the invariant

    [do_store_item] and [do_add_delta] of [Store], from the invariant of [ItemsInv]: what they
    answer, what the table has under the key afterwards, and that nothing else changes but
    for the eviction of an item by an allocation. *)

From S2P Require Import Prelude Bytes CStrings McUtil ItemHeap Assoc AssocTheorems Slabs SlabsTheorems SlabsAlloc SlabsSafety ChunkAllocator Items ItemsInv ItemsOps ItemsAlloc ItemsRefs Store.
From Stdlib Require Import ZArith Lia Sorted.
From stdpp Require Import base gmap list fin_maps functions sorting.

Local Open Scope Z_scope.

Module StoreOps.
Import ItemHeap ChunkAllocator Items ItemsInv ItemsOps ItemsAlloc ItemsRefs Store.

(** ** What is kept

    The items that are found under a key or to which somebody holds a reference. *)
Definition used (m : gmap bytes Z) (R : Z → Z) (y : Z) : Prop := 1 ≤ R y ∨ ∃ k, m !! k = Some y.

(** The items other than those of [X] are the same but for their links. *)
Record kept (X : list Z) (m : gmap bytes Z) (R : Z → Z) (c c' : cache) : Prop := {
  kp_core : ∀ y, y ∉ X → used m R y → core_at (heap_of c') y = core_at (heap_of c) y;
  kp_clock : current_time c' = current_time c;
  kp_live : oldest_live c' = oldest_live c
}.

Lemma kept_trans X m1 R1 m2 R2 c1 c2 c3 :
  kept X m1 R1 c1 c2 → kept X m2 R2 c2 c3 → (∀ y, y ∉ X → used m2 R2 y → used m1 R1 y) → kept X m2 R2 c1 c3.
Proof.
  intros [A1 B1 C1] [A2 B2 C2] Hu. split; [|congruence..]. intros y Hy Hyu. rewrite A2 by done. by apply A1; [|apply Hu].
Qed.
Lemma kept_mono X X' m1 R1 m2 R2 c c' :
  kept X m1 R1 c c' → (∀ y, y ∈ X → y ∈ X') → (∀ y, y ∉ X' → used m2 R2 y → used m1 R1 y) → kept X' m2 R2 c c'.
Proof.
  intros [A B C] HX Hu. split; [|done..]. intros y Hy Hyu. apply A; [|by apply Hu]. intros Hx. by apply Hy, HX.
Qed.
Lemma kept_refl X m R c : kept X m R c c.
Proof. done. Qed.
Lemma kept_item X m R c c' y it : kept X m R c c' → y ∉ X → used m R y → heap_of c !! y = Some it →
  ∃ it', heap_of c' !! y = Some it' ∧ with_links it it'.
Proof.
  intros [A _ _] Hy Hu Hit. specialize (A y Hy Hu). unfold core_at in A. rewrite Hit in A.
  destruct (heap_of c' !! y) as [it'|]; [|done]. exists it'. split; [done|]. apply core_inv. by apply (inj Some) in A.
Qed.

(** ** Numbers in the suffix of an item *)

Lemma int_of_string_range s : - 2 ^ 31 ≤ int_of_string s < 2 ^ 31.
Proof.
  unfold int_of_string. destruct (McUtil.strtoll s) as [[[v ?] ?]|]; [|lia].
  pose proof (wraps_range 32 v ltac:(lia)). unfold i32. change (2 ^ (32 - 1)) with (2 ^ 31) in *. lia.
Qed.

Lemma scan_print_int f rest : - 2 ^ 31 ≤ f < 2 ^ 31 → starts_with_digit rest = false →
  ∃ ds, scan (print_int f ++ rest) = Some (f <? 0, ds, rest) ∧ digits_value ds = Z.abs f.
Proof.
  intros Hf Hr. unfold print_int. destruct (Z.ltb_spec f 0).
  - exists (decimal (- f)). split; [|rewrite decimal_value; lia]. cbn [app].
    apply scan_negative; [apply decimal_is_digits; lia|apply decimal_not_nil|done].
  - exists (decimal f). split; [apply scan_decimal; [lia|done]|rewrite decimal_value; lia].
Qed.

Lemma int_of_print_int f rest : - 2 ^ 31 ≤ f < 2 ^ 31 → starts_with_digit rest = false → int_of_string (print_int f ++ rest) = f.
Proof.
  intros Hf Hr. destruct (scan_print_int f rest Hf Hr) as (ds & Hs & Hd). unfold int_of_string, McUtil.strtoll.
  rewrite Hs. cbn [mbind option_bind]. rewrite Hd.
  assert ((if f <? 0 then - Z.abs f else Z.abs f) = f) as -> by (destruct (Z.ltb_spec f 0); lia).
  rewrite (proj2 (Z.ltb_ge f (- 2 ^ 63))), (proj2 (Z.leb_gt (2 ^ 63) f)) by lia. by apply wraps_small.
Qed.

(** The flags are read from the suffix as they were written. *)
Lemma flags_of_suffix f nb : - 2 ^ 31 ≤ f < 2 ^ 31 → int_of_string (item_suffix f nb) = f.
Proof.
  intros Hf. transitivity (int_of_string (print_int f ++ (32 :: print_int (nb - 2)) ++ [13; 10])).
  - unfold int_of_string, McUtil.strtoll, scan, item_suffix. done.
  - by apply int_of_print_int.
Qed.
Lemma flags_of_suffix_tail f nb : - 2 ^ 31 ≤ f < 2 ^ 31 → int_of_string (tail (item_suffix f nb)) = f.
Proof. intros Hf. by apply (int_of_print_int f ((32 :: print_int (nb - 2)) ++ [13; 10])). Qed.

(** The value, the flags and the expiration time of an item. *)
Definition value_of (it : item) : bytes * Z * Z := (ITEM_data it, int_of_string (ITEM_suffix it), exptime it).

Lemma value_of_links it it' : with_links it it' → value_of it' = value_of it.
Proof. by intros (n & p & q & ->). Qed.

(** ** The operations of [Items], seen by one user *)

(** A test of the command. *)
Ltac decide_name := match goal with |- context [@bool_decide ?P ?d] =>
  let b := eval vm_compute in (@bool_decide P d) in change (@bool_decide P d) with b; cbn [andb] end.

Lemma bind_ret_unit {A B : Type} (f : IM A) (k : IM B) c : ((f ;; mret tt) ;; k) c = (f ;; k) c.
Proof. rewrite !M_bind_eq. by destruct (f c). Qed.

Section Operations.
Context {st : Slabs.settings_t} {hash : bytes → Z} {largest : Z} {sz : Z → Z}.
Context {Holds : Slabs.arena → gmap Z Z → Prop} `{HA : !ChunkAllocator st largest sz Holds}.
Context (Hlargest : largest < LARGEST_ID).

Abbreviation cache_ok := (cache_ok hash sz Holds).

Definition ok (m : gmap bytes Z) (R : Z → Z) (c : cache) : Prop := ∃ H L, cache_ok ∅ H L m R c.

Lemma ok_ext m R R' c : ok m R c → (∀ x, R' x = R x) → ok m R' c.
Proof. intros (H & L & Hok) HR. exists H, L. by apply (cache_ok_ext (L := L) (R := R) L R'). Qed.

Lemma used_held {H L m R c y} : cache_ok ∅ H L m R c → used m R y → is_Some (H !! y).
Proof.
  intros Hok [HR|[k Hk]].
  - destruct (referenced Hok HR) as (_ & id & _ & Hy & _). by eexists.
  - by apply (co_index Hok) in Hk as [? _].
Qed.
Lemma frame_kept {H L m R c' X c} : cache_ok ∅ H L m R c' → frame X H c c' → kept X m R c c'.
Proof. intros Hok [F K V]. split; [|done..]. intros y Hy Hu. apply F; [done|]. by apply (used_held Hok). Qed.

(** An item to which there is a reference, and one that is in the table. *)
Lemma ok_item m R c x : ok m R c → 1 ≤ R x →
  ∃ it, heap_of c !! x = Some it ∧ refcount it = R x + (if has_flag ITEM_LINKED it then 1 else 0) ∧ x ≠ 0 ∧
    shaped (ITEM_key it) (nbytes it) (ITEM_data it) (ITEM_suffix it) ∧ nbytes it ≤ 2 ^ 27.
Proof.
  intros (H & L & Hok) HR. destruct (referenced Hok HR) as (_ & id & it & Hx & Hit & Hio). exists it.
  destruct (held_class Hlargest Hok Hx) as (_ & Hx0 & _). split; [done|]. split; [apply (io_count Hio)|]. split; [done|].
  split; [apply (io_shape Hio)|]. pose proof (io_fits Hio) as Hf. pose proof (sh_bytes _ _ _ _ (io_shape Hio)).
  pose proof (ca_small _ (proj1 (ca_held _ _ _ _ (co_holds Hok) Hx))). unfold ITEM_ntotal, sizeof_item in Hf.
  assert (0 ≤ nkey it ∧ 0 ≤ nsuffix it) by (unfold nkey, nsuffix, zlen; lia). destruct (has_flag ITEM_CAS it); unfold sizeof_cas in *; lia.
Qed.
Lemma ok_linked m R c k x : ok m R c → m !! k = Some x →
  ∃ it, heap_of c !! x = Some it ∧ ITEM_key it = k ∧ has_flag ITEM_LINKED it = true ∧ x ≠ 0 ∧ 0 ≤ R x.
Proof.
  intros (H & L & Hok) Hk. pose proof (refs_nonneg x Hok). apply (co_index Hok) in Hk as ([id Hx] & Hl & Hk).
  destruct (held_class Hlargest Hok Hx) as (_ & Hx0 & _). apply AssocTheorems.has_key_alt in Hk as (it & Hit & <-).
  exists it. unfold linked_at in Hl. rewrite Hit in Hl. done.
Qed.
Lemma ok_index m R c x it : ok m R c → 1 ≤ R x → heap_of c !! x = Some it → has_flag ITEM_LINKED it = true → m !! ITEM_key it = Some x.
Proof.
  intros (H & L & Hok) HR Hit Hl. destruct (referenced Hok HR) as (_ & id & it' & Hx & Hit' & Hio).
  assert (it' = it) as -> by congruence. by destruct (linked_place Hlargest Hok Hx Hit Hl).
Qed.
Lemma ok_index_inv m R c k x it : ok m R c → m !! k = Some x → heap_of c !! x = Some it → ITEM_key it = k ∧ has_flag ITEM_LINKED it = true.
Proof. intros Hok Hk Hit. destruct (ok_linked m R c k x Hok Hk) as (it' & Hit' & ? & ? & _). assert (it' = it) as -> by congruence. done. Qed.

(** *** Writing *)

Lemma set_data_ok m R c x it d : ok m R c → 1 ≤ R x → heap_of c !! x = Some it → zlen d = nbytes it →
  ok m R (set_heap (<[x := set_ITEM_data d it]> (heap_of c)) c).
Proof.
  intros (H & L & Hok) HR Hit Hd. destruct (referenced Hok HR) as (_ & id & it' & Hx & Hit' & [I1 I2 I3 I4 I5 I6 [S1 S2 S3 S4]]).
  assert (it' = it) as -> by congruence. exists H, L.
  apply (cache_ok_ext (L := L) (R := <[x := R x]> R) L R); [|done|fn_ext x].
  eapply (cache_ok_set Hlargest it); [done|done|done|by split| |done]. intros _. by split.
Qed.
Lemma set_cas_ok m R c x it v : ok m R c → 1 ≤ R x → heap_of c !! x = Some it →
  ok m R (set_heap (<[x := ITEM_set_cas v it]> (heap_of c)) c).
Proof.
  intros (H & L & Hok) HR Hit. destruct (referenced Hok HR) as (_ & id & it' & Hx & Hit' & [I1 I2 I3 I4 I5 I6 I7]).
  assert (it' = it) as -> by congruence. exists H, L. destruct (ITEM_set_cas_fields v it) as (w & -> & _).
  apply (cache_ok_ext (L := L) (R := <[x := R x]> R) L R); [|done|fn_ext x].
  eapply (cache_ok_set Hlargest it); [done|done|done|by split| |done]. intros _. by split.
Qed.

Lemma kept_set m R c x it it' : heap_of c !! x = Some it → kept [x] m R c (set_heap (<[x := it']> (heap_of c)) c).
Proof.
  intros _. split; [|done..]. intros y Hy _. unfold core_at. cbn. rewrite lookup_insert_ne; [done|]. intros ->. apply Hy. by apply elem_of_cons; left.
Qed.

Lemma read_data_ok c x it n : heap_of c !! x = Some it → 0 ≤ n ≤ zlen (ITEM_data it) → read_data x n c = Ret (ztake n (ITEM_data it)) c.
Proof. intros Hit Hn. unfold read_data. istep. by rewrite !(proj2 (Z.leb_le _ _)) by lia. Qed.
Lemma write_data_ok m R c x it off d :
  ok m R c → 1 ≤ R x → heap_of c !! x = Some it → 0 ≤ off → off + zlen d ≤ nbytes it →
  let it' := set_ITEM_data (memcpy (ITEM_data it) off d) it in
  let c' := set_heap (<[x := it']> (heap_of c)) c in
  write_data x off d c = Ret tt c' ∧ ok m R c' ∧ kept [x] m R c c' ∧ heap_of c' !! x = Some it'.
Proof.
  intros Hok HR Hit Ho Hd it' c'. destruct (ok_item m R c x Hok HR) as (it0 & Hit0 & _ & _ & [S1 S2 S3 S4] & _).
  assert (it0 = it) as -> by congruence. split; [|split; [|split; [by eapply kept_set|apply lookup_insert_eq]]].
  - unfold write_data. istep. rewrite !(proj2 (Z.leb_le _ _)) by lia.
    exact (run_on_item c x it (λ i, set_ITEM_data (memcpy (ITEM_data i) off d) i) Hit).
  - apply set_data_ok; [done|done|done|]. rewrite zlen_memcpy by lia. done.
Qed.

(** *** References and links *)

Lemma remove_ok m R c x it : ok m R c → 1 ≤ R x → heap_of c !! x = Some it →
  ∃ c', do_item_remove x c = Ret tt c' ∧ ok m (<[x := R x - 1]> R) c' ∧ kept [x] m (<[x := R x - 1]> R) c c' ∧
    (1 < R x ∨ has_flag ITEM_LINKED it = true → heap_of c' !! x = Some (set_refcount (refcount it - 1) it)).
Proof.
  intros (H & L & Hok) HR Hit. destruct (referenced Hok HR) as (Hd & id & it' & Hx & Hit' & _).
  assert (it' = it) as -> by congruence.
  destruct (do_item_remove_spec Hlargest Hok Hx Hd Hit HR) as (c' & Hr & Hok' & Hf & Hi). exists c'. split; [done|].
  split; [by eexists _, _|]. split; [by eapply frame_kept|]. intros Hcase. apply Hi.
  assert ((R x =? 1) && negb (has_flag ITEM_LINKED it) = false) as ->; [|congruence].
  destruct Hcase as [Hc| ->]; [|by rewrite andb_false_r]. by rewrite (proj2 (Z.eqb_neq (R x) 1)) by lia.
Qed.

Lemma update_ok m R c x it : ok m R c → 1 ≤ R x → heap_of c !! x = Some it →
  ∃ c' it', do_item_update x c = Ret tt c' ∧ ok m R c' ∧ kept [x] m R c c' ∧ heap_of c' !! x = Some it' ∧
    value_of it' = value_of it ∧ has_flag ITEM_LINKED it' = has_flag ITEM_LINKED it.
Proof.
  intros (H & L & Hok) HR Hit. destruct (referenced Hok HR) as (Hd & id & it' & Hx & Hit' & _).
  assert (it' = it) as -> by congruence.
  destruct (do_item_update_spec Hlargest Hok Hx Hd Hit) as (c' & L' & it' & Hr & Hok' & Hf & Hi & Hw).
  exists c', it'. split; [done|]. split; [by eexists _, _|]. split; [by eapply frame_kept|]. split; [done|].
  destruct Hw as (n & p & q & ->). by destruct (_ && _).
Qed.

Lemma link_ok m R c x it : ok m R c → 1 ≤ R x → R x + 1 < 2 ^ 16 → heap_of c !! x = Some it →
  has_flag ITEM_LINKED it = false → m !! ITEM_key it = None →
  ∃ c' it', do_item_link st x (hash (ITEM_key it)) c = Ret 1 c' ∧ ok (<[ITEM_key it := x]> m) R c' ∧
    kept [x] (<[ITEM_key it := x]> m) R c c' ∧ heap_of c' !! x = Some it' ∧ value_of it' = value_of it ∧
    has_flag ITEM_LINKED it' = true.
Proof.
  intros (H & L & Hok) HR Hb Hit Hl Hm. destruct (referenced Hok HR) as (Hd & id & it' & Hx & Hit' & Hio).
  assert (it' = it) as -> by congruence.
  destruct (do_item_link_spec Hlargest Hok Hx Hd Hit Hl Hm HR) as (c' & it' & Hr & Hok' & Hf & Hi & Hw).
  { rewrite (io_count Hio), Hl. lia. }
  exists c', it'. split; [done|]. split; [by eexists _, _|]. split; [by eapply frame_kept|]. split; [done|].
  rewrite (with_links_flag _ _ _ Hw), (value_of_links _ _ Hw).
  destruct (linked_item_fields (current_time c) (if Slabs.use_cas st then u64 (cas_id c + 1) else 0) it) as (w & -> & _).
  split; [done|]. change (has_flag ITEM_LINKED (add_flag ITEM_LINKED it) = true). by rewrite has_flag_add by auto.
Qed.

Lemma replace_item_ok m R c x y i j : ok m R c → (∀ z, R z + 2 < 2 ^ 16) → 1 ≤ R x → 1 ≤ R y →
  heap_of c !! x = Some i → heap_of c !! y = Some j → has_flag ITEM_LINKED j = false → ITEM_key j = ITEM_key i →
  has_flag ITEM_LINKED i = true →
  ∃ c' j', item_replace st x y (hash (ITEM_key i)) c = Ret 1 c' ∧ ok (<[ITEM_key i := y]> m) R c' ∧
    kept [x; y] (<[ITEM_key i := y]> m) R c c' ∧ heap_of c' !! y = Some j' ∧ value_of j' = value_of j ∧
    has_flag ITEM_LINKED j' = true.
Proof.
  intros (H & L & Hok) Hfew HRx HRy Hi Hj Hlj Hk Hli.
  destruct (replace_ok Hlargest Hok Hfew HRx HRy Hi Hj Hlj Hk (or_introl Hli)) as (c' & L' & v & j' & Hr & Hok' & Hf & Hj' & Hw).
  exists c', j'. split; [done|]. split; [by eexists _, _|]. split; [by eapply frame_kept|]. split; [done|].
  rewrite (with_links_flag _ _ _ Hw), (value_of_links _ _ Hw). destruct (linked_item_fields (current_time c) v j) as (w & -> & _).
  split; [done|]. change (has_flag ITEM_LINKED (add_flag ITEM_LINKED j) = true). by rewrite has_flag_add by auto.
Qed.

(** *** Lookup and allocation *)

(** The item that [do_item_get] returns for a key. *)
Definition live (m : gmap bytes Z) (c : cache) (key : bytes) : option (Z * item) :=
  x ← m !! key; it ← heap_of c !! x;
  if being_moved (the_pool c) x || expired (current_time c) (oldest_live c) it then None else Some (x, it).
Definition indexed (m : gmap bytes Z) (key : bytes) : list Z := option_list (m !! key).

Lemma elem_of_indexed m key x : x ∈ indexed m key ↔ m !! key = Some x.
Proof.
  unfold indexed. destruct (m !! key) as [y|]; cbn; [rewrite list_elem_of_singleton; split; [by intros ->|by intros [= ->]]|].
  split; [by intros ?%elem_of_nil|done].
Qed.
Lemma used_delete m R key y : used (delete key m) R y → used m R y.
Proof. intros [?|[k Hk]]; [by left|right]. exists k. by apply lookup_delete_Some in Hk as [_ ?]. Qed.

Lemma get_live m R c key : ok m R c → (∀ x, R x + 2 < 2 ^ 16) →
  ∃ c', match live m c key with
  | Some (x, it) => do_item_get key (hash key) c = Ret x c' ∧ ok m (<[x := R x + 1]> R) c' ∧ m !! key = Some x ∧
      kept (indexed m key) m (<[x := R x + 1]> R) c c' ∧ heap_of c !! x = Some it ∧
      heap_of c' !! x = Some (add_flag ITEM_FETCHED (refcount_incr it)) ∧ the_pool c' = the_pool c
  | None => do_item_get key (hash key) c = Ret 0 c' ∧ ok (delete key m) R c' ∧ kept (indexed m key) (delete key m) R c c'
  end.
Proof.
  intros (H & L & Hok) Hfew. destruct (do_item_get_spec st hash largest sz Holds Hlargest H L m R c key Hok Hfew) as (ret & c' & Hr & Hc).
  exists c'. unfold live, indexed. destruct (m !! key) as [x|] eqn:Hm; cbn [mbind option_bind].
  - destruct Hc as (it & id & Hit & Hx & Hk & Hx0 & Hc). rewrite Hit. cbn. destruct (_ || _).
    + destruct Hc as (-> & L' & Hok' & Hf). split; [done|]. split; [by eexists _, _|]. by eapply frame_kept.
    + destruct Hc as (-> & Hok' & Hf & Hi). split; [done|]. split; [by eexists _, _|]. split; [done|].
      split; [by eapply frame_kept|]. done.
  - destruct Hc as [-> ->]. rewrite delete_id by done. split; [done|]. split; [by exists H, L|done].
Qed.

(** The allocation of [n] may have evicted the item that was there: [m2] is the table then. *)
Definition evicts (m : gmap bytes Z) (n : Z) (m2 : gmap bytes Z) : Prop := m2 = m ∨ ∃ k, m !! k = Some n ∧ m2 = delete k m.

Lemma alloc_ok m R c s key flags exptime nbytes cur_hv :
  ok m R c → users_ok R c → (∀ id, SlabsSafety.system_ok st (s_env s) (the_pool c) id) → alloc_args key flags nbytes →
  ∃ ret c' m', do_item_alloc st hash s key flags exptime nbytes cur_hv c = Ret ret c' ∧
    if ret =? 0 then m' = m ∧ ok m R c' ∧ kept [] m R c c'
    else R ret = 0 ∧ ok m' (<[ret := 1]> R) c' ∧ kept [ret] m' (<[ret := 1]> R) c c' ∧
      evicts m ret m' ∧
      ∃ it, heap_of c' !! ret = Some it ∧ ITEM_key it = key ∧ ItemHeap.nbytes it = nbytes ∧ ItemHeap.exptime it = exptime ∧
        ITEM_suffix it = item_suffix flags nbytes ∧ has_flag ITEM_LINKED it = false.
Proof.
  intros (H & L & Hok) Hu Hsys Ha.
  destruct (do_item_alloc_spec st hash largest sz Holds Hlargest H L m R c s key flags exptime nbytes cur_hv Hok Hu Hsys Ha)
    as (ret & c' & Hr & [(-> & Hok' & Hf)|(H' & L' & m' & id & i & Hok' & Hne & HR & Hx & HH & Hf & Hm & Hi)]).
  - exists 0, c', m. split; [done|]. split; [done|]. split; [by eexists _, _|by eapply frame_kept].
  - exists ret, c', m'. split; [done|]. rewrite (proj2 (Z.eqb_neq ret 0)) by done. split; [done|]. split; [by eexists _, _|].
    split; [by eapply frame_kept|]. split; [done|]. eexists. split; [exact Hi|]. do 4 (split; [done|]).
    unfold has_flag, init_item. cbn. by destruct (Slabs.use_cas st).
Qed.

(** A reference that was taken is given up. *)
Lemma release_ok m R c x it : ok m (<[x := R x + 1]> R) c → 0 ≤ R x → heap_of c !! x = Some it →
  ∃ c', do_item_remove x c = Ret tt c' ∧ ok m R c' ∧ kept [x] m R c c' ∧
    ∀ k y j, m !! k = Some y → heap_of c !! y = Some j → ∃ j', heap_of c' !! y = Some j' ∧ value_of j' = value_of j.
Proof.
  intros Hok HR Hit. set (R1 := <[x := R x + 1]> R) in *.
  assert (R1 x = R x + 1) as HR1 by (unfold R1; by rewrite fn_lookup_insert).
  assert (∀ y, R y = (<[x := R1 x - 1]> R1) y) as Hext by (unfold R1; fn_ext x; lia).
  destruct (remove_ok m R1 c x it Hok ltac:(lia) Hit) as (c' & Hr & Hok' & [K T V] & Hi). exists c'. split; [done|].
  split; [by eapply ok_ext|]. assert (kept [x] m R c c') as Hk.
  { split; [|done..]. intros y Hy Hu. apply K; [done|]. destruct Hu as [Hu|Hu]; [left; by rewrite <- Hext|by right]. }
  split; [done|]. intros k y j Hy Hj. destruct (decide (y = x)) as [->|Hne].
  - assert (j = it) as -> by congruence. eexists. split; [apply Hi; right; apply (ok_index_inv m _ c k x it Hok Hy Hit)|done].
  - destruct (kept_item _ _ _ _ _ y j Hk) as (j' & Hj' & Hw); [by rewrite list_elem_of_singleton|right; by exists k|done|].
    exists j'. split; [done|by apply value_of_links].
Qed.

(** ** [do_store_item] *)

Definition concatenates (comm : nread) : bool := bool_decide (comm = NREAD_APPEND ∨ comm = NREAD_PREPEND).

(** The answer to a command that stores [i], when [old] is the item under the key. *)
Definition store_result (comm : nread) (i : item) (old : option item) : store_item_type :=
  match comm, old with
  | NREAD_ADD, Some _ => NOT_STORED
  | (NREAD_REPLACE | NREAD_APPEND | NREAD_PREPEND), None => NOT_STORED
  | NREAD_CAS, None => NOT_FOUND
  | NREAD_CAS, Some o => if ITEM_get_cas i =? ITEM_get_cas o then STORED else EXISTS
  | (NREAD_APPEND | NREAD_PREPEND), Some o =>
      if negb (ITEM_get_cas i =? 0) && negb (ITEM_get_cas i =? ITEM_get_cas o) then EXISTS else STORED
  | _, _ => STORED
  end.

(** The value without its CR LF. *)
Definition chop (it : item) : bytes := ztake (nbytes it - 2) (ITEM_data it).

(** What is stored: the value, the flags and the expiration time. *)
Definition stored_value (comm : nread) (i : item) (old : option item) : bytes * Z * Z :=
  match comm, old with
  | NREAD_APPEND, Some o => (chop o ++ ITEM_data i, int_of_string (ITEM_suffix o), exptime o)
  | NREAD_PREPEND, Some o => (chop i ++ ITEM_data o, int_of_string (ITEM_suffix o), exptime o)
  | _, _ => value_of i
  end.

Record store_outcome (m : gmap bytes Z) (R : Z → Z) (c : cache) (it : Z) (i : item) (comm : nread) (cas : Z)
    (stored : store_item_type) (cas' : Z) (m' : gmap bytes Z) (c' : cache) : Prop := {
  so_ok : ok m' R c';
  so_kept : kept (it :: indexed m (ITEM_key i) ++ indexed m' (ITEM_key i)) m' R c c';
  so_result : stored = store_result comm i (snd <$> live m c (ITEM_key i)) ∨ concatenates comm = true ∧ stored = NOT_STORED;
  so_stored : stored = STORED → ∃ y j, m' !! ITEM_key i = Some y ∧ heap_of c' !! y = Some j ∧
    value_of j = stored_value comm i (snd <$> live m c (ITEM_key i)) ∧ cas' = ITEM_get_cas j;
  so_refused : stored ≠ STORED → cas' = cas ∧ m' !! ITEM_key i = fst <$> live m c (ITEM_key i) ∧
    ∀ x o, live m c (ITEM_key i) = Some (x, o) → ∃ j, heap_of c' !! x = Some j ∧ value_of j = value_of o;
  so_others : ∀ k, k ≠ ITEM_key i → m' !! k = m !! k ∨
    concatenates comm = true ∧ m' !! k = None ∧ ∃ y, m !! k = Some y ∧ R y = 0
}.

(** The state after the lookup, when it has found [x]. *)
Record got (m : gmap bytes Z) (R : Z → Z) (c c1 : cache) (key : bytes) (x : Z) (o : item) : Prop := {
  gt_ok : ok m (<[x := R x + 1]> R) c1;
  gt_live : live m c key = Some (x, o);
  gt_index : m !! key = Some x;
  gt_kept : kept [x] m (<[x := R x + 1]> R) c c1;
  gt_key : ITEM_key o = key;
  gt_pool : the_pool c1 = the_pool c;
  gt_item : heap_of c1 !! x = Some (add_flag ITEM_FETCHED (refcount_incr o));
  gt_refs : 0 ≤ R x
}.

Lemma fetched_same o : value_of (add_flag ITEM_FETCHED (refcount_incr o)) = value_of o ∧
  ITEM_get_cas (add_flag ITEM_FETCHED (refcount_incr o)) = ITEM_get_cas o ∧
  ITEM_key (add_flag ITEM_FETCHED (refcount_incr o)) = ITEM_key o ∧
  nbytes (add_flag ITEM_FETCHED (refcount_incr o)) = nbytes o ∧
  chop (add_flag ITEM_FETCHED (refcount_incr o)) = chop o.
Proof.
  split; [done|]. split; [|done]. unfold ITEM_get_cas.
  by rewrite has_flag_add by auto.
Qed.

(** The items [it] of the user and [x] under its key are two. *)
Lemma got_other {m R c c1 key x o it i} : got m R c c1 key x o → ok m R c → 1 ≤ R it → heap_of c !! it = Some i →
  has_flag ITEM_LINKED i = false → it ≠ x ∧ ∃ i1, heap_of c1 !! it = Some i1 ∧ with_links i i1.
Proof.
  intros Hg Hok HR Hi Hl. assert (it ≠ x) as Hne.
  { intros ->. destruct (ok_linked m R c key x Hok (gt_index _ _ _ _ _ _ _ Hg)) as (j & Hj & _ & Hlj & _). congruence. }
  split; [done|]. eapply kept_item; [apply Hg|by rewrite list_elem_of_singleton| |done].
  left. by rewrite fn_lookup_insert_ne.
Qed.

(** A command that leaves the item under the key as it is; [upd] is the update of its place in the queue. *)
Lemma store_refused m R c c1 key x o it i comm cas stored c2 :
  got m R c c1 key x o → key = ITEM_key i → ok m (<[x := R x + 1]> R) c2 → kept [x] m (<[x := R x + 1]> R) c1 c2 →
  (∃ o2, heap_of c2 !! x = Some o2 ∧ value_of o2 = value_of o) →
  stored = store_result comm i (Some o) → stored ≠ STORED →
  ∃ c', finish_store stored it x 0 cas c2 = Ret (stored, cas) c' ∧ store_outcome m R c it i comm cas stored cas m c'.
Proof.
  intros Hg -> Hok2 Hk2 (o2 & Ho2 & Hv) Hres Hne. pose proof (gt_index _ _ _ _ _ _ _ Hg) as Hx.
  destruct (release_ok m R c2 x o2 Hok2 (gt_refs _ _ _ _ _ _ _ Hg) Ho2) as (c3 & Hr & Hok3 & Hk3 & Hvals).
  assert (x ≠ 0) as Hx0 by (by destruct (ok_linked _ _ _ _ _ Hok2 Hx) as (? & _ & _ & _ & ? & _)).
  exists c3. split.
  - unfold finish_store. rewrite (proj2 (Z.eqb_neq x 0)) by done. rewrite (M_bind_ret _ _ _ _ _ Hr).
    erewrite M_bind_ret by reflexivity. by rewrite decide_False.
  - assert (kept [x] m R c c3) as Hk.
    { assert (∀ y, y ∉ [x] → used m R y → used m (<[x := R x + 1]> R) y) as Hu.
      { intros y Hy [Hr1|?]; [left|by right]. rewrite fn_lookup_insert_ne; [done|]. intros ->. apply Hy. by apply elem_of_cons; left. }
      eapply kept_trans; [|exact Hk3|exact Hu]. eapply kept_trans; [apply Hg|exact Hk2|done]. }
    split; [done| |left; by rewrite (gt_live _ _ _ _ _ _ _ Hg)|done| |by left].
    + eapply kept_mono; [exact Hk| |done]. intros y ->%list_elem_of_singleton.
      rewrite elem_of_cons, elem_of_app, !elem_of_indexed. auto.
    + intros _. rewrite (gt_live _ _ _ _ _ _ _ Hg). split; [done|]. split; [done|]. intros x' o' [= <- <-].
      destruct (Hvals _ x o2 Hx Ho2) as (j & Hj & Hvj). exists j. split; [done|congruence].
Qed.

(** The end of a command that has stored the item [y]. *)
Lemma finish_stored m R c x o key y j cas :
  ok m (<[x := R x + 1]> R) c → 0 ≤ R x → x ≠ 0 → heap_of c !! x = Some o → m !! key = Some y → heap_of c !! y = Some j →
  ∃ c' j', finish_store STORED y x 0 cas c = Ret (STORED, ITEM_get_cas j') c' ∧ ok m R c' ∧ kept [x] m R c c' ∧
    heap_of c' !! y = Some j' ∧ value_of j' = value_of j.
Proof.
  intros Hok HR Hx0 Ho Hy Hj. destruct (release_ok m R c x o Hok HR Ho) as (c' & Hr & Hok' & Hk & Hvals).
  destruct (Hvals key y j Hy Hj) as (j' & Hj' & Hv). exists c', j'. split; [|done].
  unfold finish_store. rewrite (proj2 (Z.eqb_neq x 0)) by done. rewrite (M_bind_ret _ _ _ _ _ Hr).
  erewrite M_bind_ret by reflexivity. rewrite decide_True by done. by istep.
Qed.

(** A command that puts [it] in the place of the item under the key. *)
Lemma store_over m R c c1 x o it i comm cas :
  got m R c c1 (ITEM_key i) x o → ok m R c → (∀ z, R z + 3 < 2 ^ 16) → 1 ≤ R it → heap_of c !! it = Some i →
  has_flag ITEM_LINKED i = false → store_result comm i (Some o) = STORED → concatenates comm = false →
  ∃ c2 c' cas' m', item_replace st x it (hash (ITEM_key i)) c1 = Ret 1 c2 ∧
    finish_store STORED it x 0 cas c2 = Ret (STORED, cas') c' ∧ store_outcome m R c it i comm cas STORED cas' m' c'.
Proof.
  intros Hg Hok Hfew HR Hi Hl Hres Hcat. pose proof (gt_index _ _ _ _ _ _ _ Hg) as Hx. pose proof (gt_refs _ _ _ _ _ _ _ Hg) as HRx.
  destruct (got_other Hg Hok HR Hi Hl) as (Hne & i1 & Hi1 & Hw). destruct (fetched_same o) as (_ & _ & Hko & _).
  rewrite (gt_key _ _ _ _ _ _ _ Hg) in Hko. set (o1 := add_flag ITEM_FETCHED (refcount_incr o)) in *.
  assert (ITEM_key i1 = ITEM_key i ∧ has_flag ITEM_LINKED i1 = false ∧ value_of i1 = value_of i) as (Hk1 & Hl1 & Hv1).
  { rewrite (with_links_flag _ _ _ Hw), (value_of_links _ _ Hw). destruct Hw as (n & p & q & ->). done. }
  set (R1 := <[x := R x + 1]> R). assert (R1 x = R x + 1) as HR1 by (unfold R1; by rewrite fn_lookup_insert).
  assert (R1 it = R it) as HR1i by (unfold R1; by rewrite fn_lookup_insert_ne).
  destruct (replace_item_ok m R1 c1 x it o1 i1 (gt_ok _ _ _ _ _ _ _ Hg)) as (c2 & j & Hr & Hok2 & Hk2 & Hj & Hv & Hlj);
    [|lia|lia|apply Hg|done|done|congruence| |].
  { intros z. specialize (Hfew z). unfold R1. destruct (decide (z = x)) as [->|]; rewrite ?fn_lookup_insert, ?fn_lookup_insert_ne by done; lia. }
  { apply (ok_index_inv m R1 c1 (ITEM_key i) x); [apply Hg|done|apply Hg]. }
  rewrite Hko in Hr, Hok2, Hk2. assert (used (<[ITEM_key i := it]> m) R1 x) as Hux by (left; lia).
  assert (∃ o2, heap_of c2 !! x = Some o2) as [o2 Ho2].
  { destruct (ok_item _ _ _ x Hok2 ltac:(lia)) as (o2 & Ho2 & _). by exists o2. }
  destruct (ok_linked m R1 c1 _ x (gt_ok _ _ _ _ _ _ _ Hg) Hx) as (_ & _ & _ & _ & Hx0 & _).
  destruct (finish_stored (<[ITEM_key i := it]> m) R c2 x o2 (ITEM_key i) it j cas Hok2 HRx Hx0 Ho2 ltac:(by rewrite lookup_insert_eq) Hj)
    as (c3 & j' & Hfin & Hok3 & Hk3 & Hj' & Hvj').
  exists c2, c3, (ITEM_get_cas j'), (<[ITEM_key i := it]> m). split; [done|]. split; [done|].
  split; [done| |left; by rewrite (gt_live _ _ _ _ _ _ _ Hg)| |done|].
  - eapply (kept_mono [x; it]); [|intros y|done].
    2: { rewrite !elem_of_cons, !elem_of_app, !elem_of_indexed, lookup_insert_eq. intros [->|[->|Hn]]; [auto..|by apply elem_of_nil in Hn]. }
    assert (∀ y, y ∉ [x; it] → used (<[ITEM_key i := it]> m) R y → used (<[ITEM_key i := it]> m) R1 y) as Hu.
    { intros y Hy [Hy1|?]; [left|by right]. unfold R1. rewrite fn_lookup_insert_ne; [done|]. intros ->. apply Hy. by apply elem_of_cons; left. }
    eapply kept_trans; [|eapply kept_mono; [exact Hk3| |done]|exact Hu].
    2: { intros y ->%list_elem_of_singleton. by apply elem_of_cons; left. }
    eapply kept_trans; [eapply kept_mono; [apply (gt_kept _ _ _ _ _ _ _ Hg)| |]|exact Hk2|].
    + intros y ->%list_elem_of_singleton. by apply elem_of_cons; left.
    + intros y Hy Huy. exact Huy.
    + intros y Hy [Hy1|[k Hk]]; [by left|right]. exists k. rewrite lookup_insert_Some in Hk. destruct Hk as [[_ <-]|[_ ?]]; [|done].
      exfalso. apply Hy. rewrite !elem_of_cons. auto.
  - intros _. exists it, j'. split; [by rewrite lookup_insert_eq|]. split; [done|]. split; [|done]. rewrite (gt_live _ _ _ _ _ _ _ Hg).
    rewrite Hvj', Hv, Hv1. by destruct comm.
  - intros k Hk. left. by rewrite lookup_insert_ne.
Qed.

(** Nothing is found: the item is new, or the command fails. *)
Lemma store_missing m R c c1 it i comm cas stored :
  ok (delete (ITEM_key i) m) R c1 → kept (indexed m (ITEM_key i)) (delete (ITEM_key i) m) R c c1 → live m c (ITEM_key i) = None →
  stored = store_result comm i None → stored ≠ STORED →
  finish_store stored it 0 0 cas c1 = Ret (stored, cas) c1 ∧ store_outcome m R c it i comm cas stored cas (delete (ITEM_key i) m) c1.
Proof.
  intros Hok1 Hk Hlive Hres Hne. split.
  - unfold finish_store. do 2 (erewrite M_bind_ret by reflexivity). by rewrite decide_False.
  - split; [done| |left; by rewrite Hlive|done| |].
    + eapply kept_mono; [exact Hk| |done]. intros y Hy. rewrite elem_of_cons, elem_of_app. auto.
    + intros _. rewrite Hlive, lookup_delete_eq. done.
    + intros k Hk'. left. by rewrite lookup_delete_ne.
Qed.

Lemma store_new m R c c1 it i comm cas :
  ok m R c → ok (delete (ITEM_key i) m) R c1 → kept (indexed m (ITEM_key i)) (delete (ITEM_key i) m) R c c1 →
  live m c (ITEM_key i) = None → (∀ z, R z + 3 < 2 ^ 16) → 1 ≤ R it → heap_of c !! it = Some i →
  has_flag ITEM_LINKED i = false → store_result comm i None = STORED →
  ∃ c2 c' cas' m', do_item_link st it (hash (ITEM_key i)) c1 = Ret 1 c2 ∧
    finish_store STORED it 0 0 cas c2 = Ret (STORED, cas') c' ∧ store_outcome m R c it i comm cas STORED cas' m' c'.
Proof.
  intros Hok Hok1 Hk Hlive Hfew HR Hi Hl Hres. set (key := ITEM_key i) in *.
  assert (it ∉ indexed m key) as Hni.
  { rewrite elem_of_indexed. intros Hx. destruct (ok_index_inv m R c key it i Hok Hx Hi). congruence. }
  destruct (kept_item _ _ _ _ _ it i Hk Hni (or_introl HR) Hi) as (i1 & Hi1 & Hw).
  assert (ITEM_key i1 = key ∧ has_flag ITEM_LINKED i1 = false ∧ value_of i1 = value_of i) as (Hk1 & Hl1 & Hv1).
  { rewrite (with_links_flag _ _ _ Hw), (value_of_links _ _ Hw). destruct Hw as (n & p & q & ->). done. }
  destruct (link_ok (delete key m) R c1 it i1 Hok1 HR) as (c2 & j & Hr & Hok2 & Hk2 & Hj & Hv & Hlj);
    [specialize (Hfew it); lia|done|done|by rewrite Hk1, lookup_delete_eq|].
  rewrite Hk1 in Hr, Hok2, Hk2. rewrite insert_delete_eq in Hok2, Hk2.
  exists c2, c2, (ITEM_get_cas j), (<[key := it]> m). split; [done|]. split.
  { unfold finish_store. do 2 (erewrite M_bind_ret by reflexivity). rewrite decide_True by done. by istep. }
  split; fold key; [done| |left; by rewrite Hlive| |done|].
  - eapply kept_trans; [eapply kept_mono; [exact Hk| |]|eapply kept_mono; [exact Hk2| |done]|].
    + intros y Hy. rewrite elem_of_cons, elem_of_app. auto.
    + intros y _ Hu. exact Hu.
    + intros y ->%list_elem_of_singleton. by apply elem_of_cons; left.
    + intros y Hy [Hy1|[k Hy1]]; [by left|right]. exists k. rewrite lookup_insert_Some in Hy1.
      destruct Hy1 as [[_ <-]|[Hne ?]]; [by destruct Hy; apply elem_of_cons; left|by rewrite lookup_delete_ne].
  - intros _. exists it, j. split; [by rewrite lookup_insert_eq|]. split; [done|]. split; [|done]. rewrite Hlive, Hv, Hv1.
    by destruct comm.
  - intros k Hk'. left. by rewrite lookup_insert_ne.
Qed.

(** *** Appending and prepending *)

(** The second copy overwrites the CR LF of the first. *)
Lemma combined_data d a b :
  2 ≤ zlen a → 2 ≤ zlen b → zlen d = zlen a + zlen b - 2 →
  memcpy (memcpy d 0 a) (zlen a - 2) b = ztake (zlen a - 2) a ++ b.
Proof.
  intros Ha Hb Hd. unfold memcpy, ztake. change (Z.to_nat 0) with 0%nat. rewrite take_0. cbn [app Nat.add].
  assert (zlen a = Z.of_nat (length a)) as Hla by done. assert (zlen b = Z.of_nat (length b)) as Hlb by done.
  assert (zlen d = Z.of_nat (length d)) as Hld by done. rewrite take_app_le by lia. f_equal.
  rewrite drop_app, (drop_ge a), (drop_ge (drop _ _)); [by rewrite app_nil_r|rewrite length_drop; lia|lia].
Qed.

Lemma memcpy_both d a b : zlen d = zlen a + zlen b → memcpy (memcpy d 0 a) (zlen a) b = a ++ b.
Proof.
  intros Hd. unfold memcpy. change (Z.to_nat 0) with 0%nat. rewrite take_0. cbn [app Nat.add]. unfold zlen in *. rewrite Nat2Z.id.
  rewrite take_app_length. f_equal. rewrite drop_ge; [by rewrite app_nil_r|]. rewrite length_app, length_drop. lia.
Qed.

(** Two copies into a new item. *)
Lemma copy_both m R c n x y ni xi yi :
  ok m R c → 1 ≤ R n → heap_of c !! n = Some ni → heap_of c !! x = Some xi → heap_of c !! y = Some yi → n ≠ x → n ≠ y →
  2 ≤ nbytes xi → 2 ≤ nbytes yi → zlen (ITEM_data xi) = nbytes xi → zlen (ITEM_data yi) = nbytes yi →
  nbytes ni = nbytes xi + nbytes yi - 2 →
  ∃ c', (let* d := read_data x (nbytes xi) in write_data n 0 d ;;
         let* d := read_data y (nbytes yi) in write_data n (nbytes xi - 2) d) c = Ret tt c' ∧
    ok m R c' ∧ kept [n] m R c c' ∧ heap_of c' !! n = Some (set_ITEM_data (chop xi ++ ITEM_data yi) ni).
Proof.
  intros Hok HR Hn Hx Hy Hnx Hny H2x H2y Hdx Hdy Hlen.
  destruct (ok_item m R c n Hok HR) as (ni' & Hn' & _ & _ & [_ _ Hdn _] & _). assert (ni' = ni) as -> by congruence.
  rewrite (M_bind_ret _ _ _ _ _ (read_data_ok c x xi (nbytes xi) Hx ltac:(lia))). rewrite (ztake_ge (nbytes xi) (ITEM_data xi)) by lia.
  destruct (write_data_ok m R c n ni 0 (ITEM_data xi) Hok HR Hn) as (Hr1 & Hok1 & Hk1 & Hn1); [done|lia|].
  rewrite (M_bind_ret _ _ _ _ _ Hr1). set (n1 := set_ITEM_data _ _) in *. set (c1 := set_heap _ _) in *.
  assert (heap_of c1 !! y = Some yi) as Hy1 by (unfold c1; cbn; by rewrite lookup_insert_ne).
  rewrite (M_bind_ret _ _ _ _ _ (read_data_ok c1 y yi (nbytes yi) Hy1 ltac:(lia))). rewrite (ztake_ge (nbytes yi) (ITEM_data yi)) by lia.
  destruct (write_data_ok m R c1 n n1 (nbytes xi - 2) (ITEM_data yi) Hok1 HR Hn1) as (Hr2 & Hok2 & Hk2 & Hn2); [lia| |].
  { change (nbytes n1) with (nbytes ni). lia. }
  eexists. split; [exact Hr2|]. split; [done|]. split; [eapply kept_trans; [exact Hk1|exact Hk2|done]|].
  rewrite Hn2. f_equal. change (set_ITEM_data ?d n1) with (set_ITEM_data d ni). f_equal.
  change (ITEM_data n1) with (memcpy (ITEM_data ni) 0 (ITEM_data xi)). unfold chop. rewrite <- Hdx. apply combined_data; lia.
Qed.

(** The users and the one that has just looked up [x]. *)
Lemma got_users {m R c c1 key x o} : got m R c c1 key x o → users_ok R c → (∀ z, R z + 3 < 2 ^ 16) →
  current_time c ≤ u32 (time o + TAIL_REPAIR_TIME) → ok m R c → users_ok (<[x := R x + 1]> R) c1.
Proof.
  intros Hg [_ Hu] Hfew Ht Hok. split.
  - intros z. specialize (Hfew z). destruct (decide (z = x)) as [->|]; rewrite ?fn_lookup_insert, ?fn_lookup_insert_ne by done; lia.
  - intros z zi Hz HRz. rewrite (kp_clock _ _ _ _ _ (gt_kept _ _ _ _ _ _ _ Hg)). destruct (decide (z = x)) as [->|Hne].
    + rewrite (gt_item _ _ _ _ _ _ _ Hg) in Hz. by injection Hz as <-.
    + rewrite fn_lookup_insert_ne in HRz by done. destruct (ok_item m R c z Hok HRz) as (zi0 & Hz0 & _).
      destruct (kept_item _ _ _ _ _ z zi0 (gt_kept _ _ _ _ _ _ _ Hg)) as (zi' & Hz' & Hw); [by rewrite list_elem_of_singleton|left|done|].
      { by rewrite fn_lookup_insert_ne. }
      assert (zi' = zi) as -> by congruence. specialize (Hu z zi0 Hz0 HRz). destruct Hw as (n & p & q & ->). exact Hu.
Qed.

(** The items whose values are combined, whatever has happened to their links. *)
Definition same_parts (it it' : item) : Prop :=
  value_of it' = value_of it ∧ nbytes it' = nbytes it ∧ ITEM_key it' = ITEM_key it ∧ ITEM_data it' = ITEM_data it ∧ 
  ITEM_suffix it' = ITEM_suffix it ∧ exptime it' = exptime it ∧ chop it' = chop it ∧ ITEM_get_cas it' = ITEM_get_cas it.
Lemma with_links_parts it it' : with_links it it' → same_parts it it'.
Proof. by intros (n & p & q & ->). Qed.
Lemma fetched_parts o : same_parts o (add_flag ITEM_FETCHED (refcount_incr o)).
Proof. destruct (fetched_same o) as (? & ? & ? & ? & ?). done. Qed.
Lemma same_parts_trans a b d : same_parts a b → same_parts b d → same_parts a d.
Proof. unfold same_parts. intuition congruence. Qed.

Lemma copy_values m R c n it x comm ni i o i' o' :
  ok m R c → 1 ≤ R n → heap_of c !! n = Some ni → heap_of c !! it = Some i' → heap_of c !! x = Some o' → n ≠ it → n ≠ x →
  same_parts i i' → same_parts o o' → shaped (ITEM_key i) (nbytes i) (ITEM_data i) (ITEM_suffix i) →
  shaped (ITEM_key o) (nbytes o) (ITEM_data o) (ITEM_suffix o) → concatenates comm = true → nbytes ni = nbytes i + nbytes o - 2 →
  int_of_string (ITEM_suffix ni) = int_of_string (ITEM_suffix o) → exptime ni = exptime o →
  ∃ c' ni', (if decide (comm = NREAD_APPEND) then
       let* d := read_data x (nbytes o') in write_data n 0 d ;;
       let* d := read_data it (nbytes i') in write_data n (nbytes o' - 2) d
     else
       let* d := read_data it (nbytes i') in write_data n 0 d ;;
       let* d := read_data x (nbytes o') in write_data n (nbytes i' - 2) d) c = Ret tt c' ∧
    ok m R c' ∧ kept [n] m R c c' ∧ heap_of c' !! n = Some ni' ∧ value_of ni' = stored_value comm i (Some o) ∧
    ITEM_key ni' = ITEM_key ni ∧ has_flag ITEM_LINKED ni' = has_flag ITEM_LINKED ni.
Proof.
  intros Hok HR Hn Hi Ho Hni Hno (_ & Hbi & _ & Hdi & _ & _ & Hci & _) (_ & Hbo & _ & Hdo & _ & _ & Hco & _)
    [_ S2 S3 _] [_ T2 T3 _] Hcat Hlen Hfl He. rewrite Hbi, Hbo.
  unfold concatenates in Hcat. apply bool_decide_eq_true_1 in Hcat. destruct Hcat as [-> | ->].
  - rewrite decide_True by done. rewrite <- Hbo, <- Hbi.
    destruct (copy_both m R c n x it ni o' i' Hok HR Hn Ho Hi Hno Hni) as (c' & Hr & Hok' & Hk & Hn'); try congruence; try lia.
    eexists c', _. split; [exact Hr|]. split; [done|]. split; [done|]. split; [exact Hn'|]. split; [|done].
    unfold value_of. cbn. congruence.
  - rewrite decide_False by done. rewrite <- Hbo, <- Hbi.
    destruct (copy_both m R c n it x ni i' o' Hok HR Hn Hi Ho Hni Hno) as (c' & Hr & Hok' & Hk & Hn'); try congruence; try lia.
    eexists c', _. split; [exact Hr|]. split; [done|]. split; [done|]. split; [exact Hn'|]. split; [|done].
    unfold value_of. cbn. congruence.
Qed.

Definition system_ready (s : sys) (c : cache) : Prop := ∀ id, SlabsSafety.system_ok st (s_env s) (the_pool c) id.

Lemma concatenation_ok m R c c1 s it i x o comm hv :
  got m R c c1 (ITEM_key i) x o → ok m R c → (∀ z, R z + 3 < 2 ^ 16) → 1 ≤ R it → heap_of c !! it = Some i →
  has_flag ITEM_LINKED i = false → users_ok R c → system_ready s c → current_time c ≤ u32 (time o + TAIL_REPAIR_TIME) →
  concatenates comm = true →
  ∃ ret c2 m2, concatenation st hash s it x comm hv c1 = Ret ret c2 ∧
    let R1 := <[x := R x + 1]> R in
    if ret =? 0 then m2 = m ∧ ok m R1 c2 ∧ kept [] m R1 c1 c2
    else R1 ret = 0 ∧ ok m2 (<[ret := 1]> R1) c2 ∧ kept [ret] m2 (<[ret := 1]> R1) c1 c2 ∧
      evicts m ret m2 ∧
      ∃ ni, heap_of c2 !! ret = Some ni ∧ ITEM_key ni = ITEM_key i ∧ has_flag ITEM_LINKED ni = false ∧
        value_of ni = stored_value comm i (Some o).
Proof.
  intros Hg Hok Hfew HR Hi Hl Husers Hsys Ht Hcat. destruct (got_other Hg Hok HR Hi Hl) as (Hne & i1 & Hi1 & Hw).
  pose proof (with_links_parts _ _ Hw) as Hpi. pose proof (fetched_parts o) as Hpo. set (o1 := add_flag ITEM_FETCHED (refcount_incr o)) in *.
  pose proof (gt_ok _ _ _ _ _ _ _ Hg) as Hok1. pose proof (gt_item _ _ _ _ _ _ _ Hg) as Ho1. fold o1 in Ho1.
  set (R1 := <[x := R x + 1]> R) in *. pose proof (gt_refs _ _ _ _ _ _ _ Hg) as HRx.
  assert (R1 x = R x + 1 ∧ R1 it = R it) as [HR1x HR1i] by (unfold R1; by rewrite fn_lookup_insert, fn_lookup_insert_ne).
  destruct (ok_item m R1 c1 it Hok1 ltac:(lia)) as (? & Hq & _ & _ & Hsi & Hbi). assert (x0 = i1) as -> by congruence. clear Hq.
  destruct (ok_item m R1 c1 x Hok1 ltac:(lia)) as (? & Hq & _ & _ & Hso & Hbo). assert (x0 = o1) as -> by congruence. clear Hq.
  unfold concatenation. istep. istep.
  assert (i32 (nbytes i1 + nbytes o1 - 2) = nbytes i1 + nbytes o1 - 2) as ->.
  { apply wraps_small; [done|]. pose proof (sh_bytes _ _ _ _ Hsi). pose proof (sh_bytes _ _ _ _ Hso). lia. }
  destruct (alloc_ok m R1 c1 s (ITEM_key i1) (int_of_string (ITEM_suffix o1)) (exptime o1) (nbytes i1 + nbytes o1 - 2) hv Hok1)
    as (ret & c2 & m2 & Hr2 & Hcase).
  { by eapply got_users. } { intros id. rewrite (gt_pool _ _ _ _ _ _ _ Hg). apply Hsys. }
  { split; [apply Hsi| |apply int_of_string_range]. pose proof (sh_bytes _ _ _ _ Hsi). pose proof (sh_bytes _ _ _ _ Hso). lia. }
  rewrite (M_bind_ret _ _ _ _ _ Hr2). destruct (Z.eqb_spec ret 0) as [->|Hret]; [by exists 0, c2, m2|].
  destruct Hcase as (HRr & Hok2 & Hk2 & Hm2 & n & Hn & Hkn & Hbn & Hen & Hsn & Hln).
  set (R2 := <[ret := 1]> R1) in *. assert (ret ≠ x ∧ ret ≠ it) as [Hrx Hrit] by (split; intros ->; lia).
  assert (R2 x = R1 x ∧ R2 it = R1 it ∧ R2 ret = 1) as (HR2x & HR2i & HR2r).
  { unfold R2. by rewrite !fn_lookup_insert_ne, fn_lookup_insert by done. }
  destruct (kept_item _ _ _ _ _ it i1 Hk2) as (i2 & Hi2 & Hw2); [by rewrite list_elem_of_singleton|left; lia|done|].
  destruct (kept_item _ _ _ _ _ x o1 Hk2) as (o2 & Ho2 & Hwo2); [by rewrite list_elem_of_singleton|left; lia|done|].
  istep. istep.
  destruct (copy_values m2 R2 c2 ret it x comm n i1 o1 i2 o2 Hok2 ltac:(lia) Hn Hi2 Ho2 Hrit Hrx) as (c3 & n3 & Hr3 & Hok3 & Hk3 & Hn3 & Hv3 & Hkn3 & Hln3);
    [by apply with_links_parts|by apply with_links_parts|done|done|done|done| |done|].
  { rewrite Hsn. by apply flags_of_suffix, int_of_string_range. }
  rewrite (M_bind_ret _ _ _ _ _ Hr3). exists ret, c3, m2. split; [done|]. cbv zeta. rewrite (proj2 (Z.eqb_neq ret 0)) by done.
  split; [done|]. split; [done|]. split; [eapply kept_trans; [exact Hk2|exact Hk3|done]|]. split; [done|].
  exists n3. split; [done|]. destruct Hpi as (_ & _ & Hki & Hdi & _ & _ & Hci & _). destruct Hpo as (_ & _ & _ & Hdo & Hso' & Heo & Hco & _).
  split; [congruence|]. split; [congruence|]. rewrite Hv3. unfold stored_value. rewrite Hdi, Hci, Hdo, Hso', Heo, Hco. 
  unfold concatenates in Hcat. apply bool_decide_eq_true_1 in Hcat. by destruct Hcat as [-> | ->].
Qed.

(** The rest of a command after the concatenation. *)
Definition after_concatenation (x new_it hv cas : Z) : IM (store_item_type * Z) :=
  if new_it =? 0 then do_item_remove x ;; mret (NOT_STORED, cas)
  else link_or_replace st x new_it hv ;; finish_store STORED new_it x new_it cas.

(** There was no memory for the new item. *)
Lemma concat_refused m R c c1 c2 it i x o comm cas :
  got m R c c1 (ITEM_key i) x o → ok m (<[x := R x + 1]> R) c2 → kept [] m (<[x := R x + 1]> R) c1 c2 → concatenates comm = true →
  ∃ c', after_concatenation x 0 (hash (ITEM_key i)) cas c2 = Ret (NOT_STORED, cas) c' ∧ store_outcome m R c it i comm cas NOT_STORED cas m c'.
Proof.
  intros Hg Hok2 Hk2 Hcat. pose proof (gt_index _ _ _ _ _ _ _ Hg) as Hx. pose proof (gt_refs _ _ _ _ _ _ _ Hg) as HRx.
  destruct (kept_item _ _ _ _ _ x _ Hk2 ltac:(by apply not_elem_of_nil) ltac:(right; by eexists) (gt_item _ _ _ _ _ _ _ Hg)) as (o2 & Ho2 & Hwo).
  destruct (release_ok m R c2 x o2 Hok2 HRx Ho2) as (c3 & Hr & Hok3 & Hk3 & Hvals). exists c3. split.
  { unfold after_concatenation. cbn [Z.eqb]. by rewrite (M_bind_ret _ _ _ _ _ Hr). }
  split; [done| |by right|done| |by left].
  - eapply (kept_mono [x]); [| |done].
    2: { intros y ->%list_elem_of_singleton. rewrite elem_of_cons, elem_of_app, !elem_of_indexed. auto. }
    assert (∀ y, y ∉ [x] → used m R y → used m (<[x := R x + 1]> R) y) as Hu.
    { intros y Hy [Hy1|?]; [left|by right]. rewrite fn_lookup_insert_ne; [done|]. intros ->. apply Hy. by apply elem_of_cons; left. }
    eapply kept_trans; [|exact Hk3|exact Hu]. eapply kept_trans; [apply Hg|eapply kept_mono; [exact Hk2| |done]|done].
    intros y Hy. by apply elem_of_nil in Hy.
  - intros _. rewrite (gt_live _ _ _ _ _ _ _ Hg). split; [done|]. split; [done|]. intros x' o' [= <- <-].
    destruct (Hvals _ x o2 Hx Ho2) as (j & Hj & Hv). exists j. split; [done|]. rewrite Hv, (value_of_links _ _ Hwo). by destruct (fetched_same o).
Qed.

(** *** The new item of a command takes the place of the old one *)

Lemma evicts_others m n m2 key : evicts m n m2 →
  ∀ k, k ≠ key → <[key := n]> m2 !! k = m !! k ∨ <[key := n]> m2 !! k = None ∧ ∃ y, m !! k = Some y ∧ y = n.
Proof.
  intros Hm2 k Hk. rewrite lookup_insert_ne by done. destruct Hm2 as [->|(k0 & Hk0 & ->)]; [by left|].
  destruct (decide (k = k0)) as [->|]; [right; rewrite lookup_delete_eq; split; [done|by exists n]|left; by rewrite lookup_delete_ne].
Qed.

Lemma kept_replaced m R c c1 c2 c3 m2 key x o n :
  got m R c c1 key x o → evicts m n m2 → n ≠ x →
  kept [n] m2 (<[n := 1]> (<[x := R x + 1]> R)) c1 c2 → kept [x; n] (<[key := n]> m2) (<[n := 1]> (<[x := R x + 1]> R)) c2 c3 →
  kept [x; n] (<[key := n]> m2) R c c3.
Proof.
  intros Hg Hm2 Hnx Hk2 Hk3. set (R1 := <[x := R x + 1]> R) in *. set (R2 := <[n := 1]> R1) in *. set (m3 := <[key := n]> m2) in *.
  assert (∀ y, y ∉ [x; n] → y ≠ x ∧ y ≠ n) as Hxn.
  { intros y Hy. split; intros ->; apply Hy; rewrite !elem_of_cons; auto. }
  assert (∀ y, y ∉ [x; n] → used m3 R y → used m3 R2 y) as Hu1.
  { intros y Hy [Hy1|?]; [left|by right]. destruct (Hxn y Hy). unfold R2, R1. by rewrite !fn_lookup_insert_ne. }
  assert (∀ y, y ∉ [x; n] → used m3 R2 y → used m2 R2 y) as Hu2.
  { intros y Hy [Hy1|[k Hk]]; [by left|right]. destruct (Hxn y Hy). exists k. unfold m3 in Hk. rewrite lookup_insert_Some in Hk.
    destruct Hk as [[_ <-]|[_ ?]]; done. }
  assert (∀ y, y ∉ [x; n] → used m2 R2 y → used m R1 y) as Hu3.
  { intros y Hy [Hy1|[k Hk]]; [left|right].
    - destruct (Hxn y Hy). unfold R2 in Hy1. by rewrite fn_lookup_insert_ne in Hy1.
    - exists k. destruct Hm2 as [->|(k0 & _ & ->)]; [done|]. by apply lookup_delete_Some in Hk as [_ ?]. }
  eapply kept_mono; [|by intros y Hy|exact Hu1]. eapply kept_trans; [|exact Hk3|exact Hu2].
  eapply kept_trans; [eapply kept_mono; [apply (gt_kept _ _ _ _ _ _ _ Hg)| |]|eapply kept_mono; [exact Hk2| |done]|exact Hu3].
  - intros y ->%list_elem_of_singleton. by apply elem_of_cons; left.
  - intros y _ Hy. exact Hy.
  - intros y ->%list_elem_of_singleton. apply elem_of_cons; right. by apply elem_of_cons; left.
Qed.

Lemma replace_got m R c c1 c2 m2 key x o n ni :
  got m R c c1 key x o → (∀ z, R z + 3 < 2 ^ 16) → n ≠ 0 → (<[x := R x + 1]> R) n = 0 → evicts m n m2 →
  ok m2 (<[n := 1]> (<[x := R x + 1]> R)) c2 → kept [n] m2 (<[n := 1]> (<[x := R x + 1]> R)) c1 c2 →
  heap_of c2 !! n = Some ni → ITEM_key ni = key → has_flag ITEM_LINKED ni = false →
  n ≠ x ∧ x ≠ 0 ∧ R n = 0 ∧ ∃ c3 j o3, item_replace st x n (hash key) c2 = Ret 1 c3 ∧
    ok (<[key := n]> m2) (<[n := 1]> (<[x := R x + 1]> R)) c3 ∧ kept [x; n] (<[key := n]> m2) R c c3 ∧
    heap_of c3 !! n = Some j ∧ value_of j = value_of ni ∧ heap_of c3 !! x = Some o3.
Proof.
  intros Hg Hfew Hn0 HRn Hm2 Hok2 Hk2 Hn Hkn Hln.
  pose proof (gt_index _ _ _ _ _ _ _ Hg) as Hx. pose proof (gt_refs _ _ _ _ _ _ _ Hg) as HRx.
  set (R1 := <[x := R x + 1]> R) in *. set (R2 := <[n := 1]> R1) in *.
  assert (R1 x = R x + 1) as HR1x by (unfold R1; by rewrite fn_lookup_insert). assert (n ≠ x) as Hnx by (intros ->; lia).
  assert (R2 x = R1 x ∧ R2 n = 1 ∧ R n = 0) as (HR2x & HR2n & HRn0).
  { unfold R2. rewrite fn_lookup_insert_ne, fn_lookup_insert by done. unfold R1 in HRn. by rewrite fn_lookup_insert_ne in HRn. }
  destruct (kept_item _ _ _ _ _ x _ Hk2 ltac:(by rewrite list_elem_of_singleton) ltac:(left; lia) (gt_item _ _ _ _ _ _ _ Hg)) as (o2 & Ho2 & Hwo).
  assert (ITEM_key o2 = key) as Hko.
  { destruct Hwo as (a & b & d & ->). apply (gt_key _ _ _ _ _ _ _ Hg). }
  assert (m2 !! key = Some x) as Hx2.
  { destruct Hm2 as [->|(k0 & Hk0 & ->)]; [done|]. rewrite lookup_delete_ne; [done|]. intros ->. congruence. }
  destruct (replace_item_ok m2 R2 c2 x n o2 ni Hok2) as (c3 & j & Hr3 & Hok3 & Hk3 & Hj & Hvj & _);
    [|lia|lia|done|done|done|congruence|by apply (ok_index_inv m2 R2 c2 key x)|].
  { intros z. specialize (Hfew z). unfold R2, R1. destruct (decide (z = n)) as [->|]; [rewrite fn_lookup_insert; lia|rewrite fn_lookup_insert_ne by done].
    destruct (decide (z = x)) as [->|]; rewrite ?fn_lookup_insert, ?fn_lookup_insert_ne by done; lia. }
  rewrite Hko in Hr3, Hok3, Hk3. destruct (ok_linked m2 R2 c2 _ x Hok2 Hx2) as (_ & _ & _ & _ & Hx0 & _).
  destruct (ok_item _ R2 c3 x Hok3 ltac:(lia)) as (o3 & Ho3 & _).
  split; [done|]. split; [done|]. split; [done|]. exists c3, j, o3. split; [done|]. split; [done|]. split; [|done].
  by eapply kept_replaced.
Qed.

(** Both references are given up. *)
Lemma release_both m R c x n o j key : ok m (<[n := 1]> (<[x := R x + 1]> R)) c → 0 ≤ R x → R n = 0 → n ≠ x →
  heap_of c !! x = Some o → m !! key = Some n → heap_of c !! n = Some j →
  ∃ c' j', (do_item_remove x ;; do_item_remove n) c = Ret tt c' ∧ ok m R c' ∧ kept [x; n] m R c c' ∧
    heap_of c' !! n = Some j' ∧ value_of j' = value_of j.
Proof.
  intros Hok HRx HRn Hne Ho Hn Hj. set (R' := <[n := 1]> R).
  assert (R' x = R x) as HR'x by (unfold R'; by rewrite fn_lookup_insert_ne).
  assert (ok m (<[x := R' x + 1]> R') c) as Hok1.
  { eapply ok_ext; [exact Hok|]. intros y. rewrite HR'x. unfold R'. destruct (decide (y = x)) as [->|].
    - by rewrite fn_lookup_insert, fn_lookup_insert_ne, fn_lookup_insert.
    - rewrite fn_lookup_insert_ne by done. destruct (decide (y = n)) as [->|]; [by rewrite !fn_lookup_insert|by rewrite !fn_lookup_insert_ne]. }
  destruct (release_ok m R' c x o Hok1 ltac:(lia) Ho) as (c1 & Hr1 & Hok2 & Hk1 & Hv1).
  destruct (Hv1 key n j Hn Hj) as (j1 & Hj1 & Hvj1).
  assert (ok m (<[n := R n + 1]> R) c1) as Hok3 by (eapply ok_ext; [exact Hok2|]; intros y; by rewrite HRn).
  destruct (release_ok m R c1 n j1 Hok3 ltac:(lia) Hj1) as (c2 & Hr2 & Hok4 & Hk2 & Hv2).
  destruct (Hv2 key n j1 Hn Hj1) as (j2 & Hj2 & Hvj2). exists c2, j2. split; [by rewrite (M_bind_ret _ _ _ _ _ Hr1)|].
  split; [done|]. split; [|split; [done|congruence]].
  eapply kept_trans; [eapply kept_mono; [exact Hk1| |done]|eapply kept_mono; [exact Hk2| |done]|].
  - intros y ->%list_elem_of_singleton. by apply elem_of_cons; left.
  - intros y ->%list_elem_of_singleton. apply elem_of_cons; right. by apply elem_of_cons; left.
  - intros y Hy [HRy|?]; [left|by right]. unfold R'. rewrite fn_lookup_insert_ne; [done|]. intros ->. apply Hy.
    apply elem_of_cons; right. by apply elem_of_cons; left.
Qed.

Lemma concat_stored m R c c1 c2 m2 it i x o comm cas n ni :
  got m R c c1 (ITEM_key i) x o → ok m R c → (∀ z, R z + 3 < 2 ^ 16) → n ≠ 0 → (<[x := R x + 1]> R) n = 0 →
  ok m2 (<[n := 1]> (<[x := R x + 1]> R)) c2 → kept [n] m2 (<[n := 1]> (<[x := R x + 1]> R)) c1 c2 → evicts m n m2 →
  heap_of c2 !! n = Some ni → ITEM_key ni = ITEM_key i → has_flag ITEM_LINKED ni = false →
  value_of ni = stored_value comm i (Some o) → concatenates comm = true →
  store_result comm i (Some o) = STORED →
  ∃ c' cas' m', after_concatenation x n (hash (ITEM_key i)) cas c2 = Ret (STORED, cas') c' ∧ store_outcome m R c it i comm cas STORED cas' m' c'.
Proof.
  intros Hg Hok Hfew Hn0 HRn Hok2 Hk2 Hm2 Hn Hkn Hln Hvn Hcat Hres.
  destruct (replace_got m R c c1 c2 m2 _ x o n ni Hg Hfew Hn0 HRn Hm2 Hok2 Hk2 Hn Hkn Hln)
    as (Hnx & Hx0 & HRn0 & c3 & j & o3 & Hr3 & Hok3 & Hk3 & Hj & Hvj & Ho3).
  set (m3 := <[ITEM_key i := n]> m2) in *.
  destruct (release_both m3 R c3 x n o3 j (ITEM_key i) Hok3 (gt_refs _ _ _ _ _ _ _ Hg) HRn0 Hnx Ho3) as (c4 & j' & Hr4 & Hok4 & Hk4 & Hj' & Hvj');
    [by apply lookup_insert_eq|done|].
  exists c4, (ITEM_get_cas j'), m3. split.
  { unfold after_concatenation, link_or_replace, finish_store. rewrite (proj2 (Z.eqb_neq n 0)), (proj2 (Z.eqb_neq x 0)) by done.
    rewrite bind_ret_unit, (M_bind_ret _ _ _ _ _ Hr3). rewrite M_bind_eq in Hr4. rewrite M_bind_eq.
    destruct (do_item_remove x c3) as [[] c3'| |]; [|done..]. rewrite (M_bind_ret _ _ _ _ _ Hr4), decide_True by done. by istep. }
  split; [done| |left; by rewrite (gt_live _ _ _ _ _ _ _ Hg)| |done|].
  - eapply (kept_mono [x; n]); [eapply kept_trans; [exact Hk3|exact Hk4|done]| |done].
    intros y. unfold m3. rewrite !elem_of_cons, !elem_of_app, !elem_of_indexed, lookup_insert_eq, (gt_index _ _ _ _ _ _ _ Hg).
    intros [->|[->|Hy]]; [auto..|by apply elem_of_nil in Hy].
  - intros _. exists n, j'. split; [by apply lookup_insert_eq|]. split; [done|]. split; [|done]. rewrite (gt_live _ _ _ _ _ _ _ Hg). cbn [fmap option_fmap option_map snd].
    congruence.
  - intros k Hk. destruct (evicts_others m n m2 _ Hm2 k Hk) as [?|(? & y & ? & ->)]; [by left|right; by eauto].
Qed.

(** An append or a prepend when there is an item under the key. *)
Lemma store_concat m R c c1 s it i x o comm cas :
  got m R c c1 (ITEM_key i) x o → ok m R c → (∀ z, R z + 3 < 2 ^ 16) → 1 ≤ R it → heap_of c !! it = Some i →
  has_flag ITEM_LINKED i = false → users_ok R c → system_ready s c → current_time c ≤ u32 (time o + TAIL_REPAIR_TIME) →
  concatenates comm = true → store_result comm i (Some o) = STORED →
  ∃ stored cas' m' c',
    (let* new_it := concatenation st hash s it x comm (hash (ITEM_key i)) in
     after_concatenation x new_it (hash (ITEM_key i)) cas) c1 = Ret (stored, cas') c' ∧
    store_outcome m R c it i comm cas stored cas' m' c'.
Proof.
  intros Hg Hok Hfew HR Hi Hl Husers Hsys Ht Hcat Hres.
  destruct (concatenation_ok m R c c1 s it i x o comm (hash (ITEM_key i)) Hg Hok Hfew HR Hi Hl Husers Hsys Ht Hcat)
    as (ret & c2 & m2 & Hr & Hc).
  rewrite (M_bind_ret _ _ _ _ _ Hr). cbv zeta in Hc. destruct (Z.eqb_spec ret 0) as [->|Hne].
  - destruct Hc as (-> & Hok2 & Hk2). destruct (concat_refused m R c c1 c2 it i x o comm cas Hg Hok2 Hk2 Hcat) as (c' & Hr' & Ho).
    by exists NOT_STORED, cas, m, c'.
  - destruct Hc as (HRn & Hok2 & Hk2 & Hm2 & ni & Hn & Hkn & Hln & Hvn).
    destruct (concat_stored m R c c1 c2 m2 it i x o comm cas ret ni Hg Hok Hfew Hne HRn Hok2 Hk2 Hm2 Hn Hkn Hln Hvn Hcat Hres)
      as (c' & cas' & m' & Hr' & Ho). by exists STORED, cas', m', c'.
Qed.

Lemma get_got m R c key x o : live m c key = Some (x, o) → ok m R c → (∀ z, R z + 2 < 2 ^ 16) →
  ∃ c', do_item_get key (hash key) c = Ret x c' ∧ got m R c c' key x o.
Proof.
  intros Hlive Hok Hfew. destruct (get_live m R c key Hok Hfew) as (c' & Hc). rewrite Hlive in Hc.
  destruct Hc as (Hr & Hok' & Hx & Hk & Ho & Ho' & Hp). exists c'. split; [done|].
  destruct (ok_linked m R c key x Hok Hx) as (o0 & Ho0 & Hko & _ & _ & HRx). assert (o0 = o) as -> by congruence.
  split; [done..| |done|done|done|done]. unfold indexed in Hk. by rewrite Hx in Hk.
Qed.

(** There is an item under the key. *)
Lemma store_found m R c s it i x o comm cas :
  live m c (ITEM_key i) = Some (x, o) → ok m R c → (∀ z, R z + 3 < 2 ^ 16) → 1 ≤ R it →
  heap_of c !! it = Some i → has_flag ITEM_LINKED i = false →
  (concatenates comm = true → users_ok R c ∧ system_ready s c ∧ current_time c ≤ u32 (time o + TAIL_REPAIR_TIME)) →
  ∃ stored cas' m' c', do_store_item st hash s it comm cas (hash (ITEM_key i)) c = Ret (stored, cas') c' ∧
    store_outcome m R c it i comm cas stored cas' m' c'.
Proof.
  intros Hlive Hok Hfew HR Hi Hl Ht.
  destruct (get_got m R c _ x o Hlive Hok) as (c1 & Hr & Hg); [intros z; specialize (Hfew z); lia|].
  unfold do_store_item. istep. rewrite (M_bind_ret _ _ _ _ _ Hr).
  pose proof (gt_ok _ _ _ _ _ _ _ Hg) as Hok1. pose proof (gt_item _ _ _ _ _ _ _ Hg) as Ho1. pose proof (gt_refs _ _ _ _ _ _ _ Hg) as HRx.
  destruct (fetched_same o) as (Hvo & Hco & _). set (o1 := add_flag ITEM_FETCHED (refcount_incr o)) in *.
  assert (x ≠ 0) as Hx0 by (by destruct (ok_linked m _ c1 _ x Hok1 (gt_index _ _ _ _ _ _ _ Hg)) as (? & _ & _ & _ & ? & _)).
  rewrite (proj2 (Z.eqb_neq x 0)) by done. cbn [negb andb].
  destruct (got_other Hg Hok HR Hi Hl) as (Hne & i1 & Hi1 & Hw).
  assert (ITEM_get_cas i1 = ITEM_get_cas i) as Hci by (destruct Hw as (? & ? & ? & ->); done).
  assert (∀ stored, stored = store_result comm i (Some o) → stored ≠ STORED → ∃ stored0 cas' m' c',
    finish_store stored it x 0 cas c1 = Ret (stored0, cas') c' ∧ store_outcome m R c it i comm cas stored0 cas' m' c') as Hrefuse.
  { intros stored Hs Hns. destruct (store_refused m R c c1 _ x o it i comm cas stored c1 Hg eq_refl Hok1 (kept_refl _ _ _ _)) as (c' & Hr' & Hout);
      [by exists o1|done|done|by exists stored, cas, m, c']. }
  assert (store_result comm i (Some o) = STORED → concatenates comm = false → ∃ stored cas' m' c',
    (item_replace st x it (hash (ITEM_key i)) ;; finish_store STORED it x 0 cas) c1 = Ret (stored, cas') c' ∧
    store_outcome m R c it i comm cas stored cas' m' c') as Hover.
  { intros Hs Hc. destruct (store_over m R c c1 x o it i comm cas Hg Hok Hfew HR Hi Hl Hs Hc) as (c2 & c' & cas' & m' & Hr1 & Hr2 & Hout).
    exists STORED, cas', m', c'. by rewrite (M_bind_ret _ _ _ _ _ Hr1). }
  pose proof (λ Hu Hsys H1 H2 H3, store_concat m R c c1 s it i x o comm cas Hg Hok Hfew HR Hi Hl Hu Hsys H1 H2 H3) as Hconcat.
  assert (∀ A (k : IM A), (link_or_replace st x it (hash (ITEM_key i)) ;; k) c1 = (item_replace st x it (hash (ITEM_key i)) ;; k) c1) as Hlink.
  { intros A k. unfold link_or_replace. rewrite (proj2 (Z.eqb_neq x 0)) by done. by apply bind_ret_unit. }
  assert (∀ A (k : item → item → IM A), (let* i' := the_item it in let* o' := the_item x in k i' o') c1 = k i1 o1 c1) as Hitems.
  { intros A k. by istep; istep. }
  destruct comm; repeat decide_name; cbn [store_result concatenates] in *; rewrite ?Hitems, ?Hlink, ?Hci, ?Hco; [|by apply Hover..| | |].
  - destruct (update_ok m _ c1 x o1 Hok1) as (c2 & o2 & Hr2 & Hok2 & Hk2 & Ho2 & Hv2 & _); [rewrite fn_lookup_insert; lia|done|].
    rewrite (M_bind_ret _ _ _ _ _ Hr2).
    destruct (store_refused m R c c1 _ x o it i NREAD_ADD cas NOT_STORED c2 Hg eq_refl Hok2 Hk2) as (c' & Hr' & Hout);
      [exists o2; split; [done|congruence]|done|done|by exists NOT_STORED, cas, m, c'].
  - cbn [store_result] in *. destruct (_ && _); [by apply Hrefuse|]. by apply Hconcat; [apply Ht..| |].
  - destruct (_ && _); [by apply Hrefuse|]. by apply Hconcat; [apply Ht..| |].
  - destruct (_ =? _); [by apply Hover|by apply Hrefuse].
Qed.

(** There is nothing under the key. *)
Lemma store_not_found m R c s it i comm cas :
  live m c (ITEM_key i) = None → ok m R c → (∀ z, R z + 3 < 2 ^ 16) → 1 ≤ R it → heap_of c !! it = Some i →
  has_flag ITEM_LINKED i = false →
  ∃ stored cas' m' c', do_store_item st hash s it comm cas (hash (ITEM_key i)) c = Ret (stored, cas') c' ∧
    store_outcome m R c it i comm cas stored cas' m' c'.
Proof.
  intros Hlive Hok Hfew HR Hi Hl.
  destruct (get_live m R c (ITEM_key i) Hok) as (c1 & Hc); [intros z; specialize (Hfew z); lia|]. rewrite Hlive in Hc.
  destruct Hc as (Hr & Hok1 & Hk1). unfold do_store_item. istep. rewrite (M_bind_ret _ _ _ _ _ Hr). cbn [Z.eqb negb andb].
  assert (∀ stored, stored = store_result comm i None → stored ≠ STORED → ∃ stored0 cas' m' c',
    finish_store stored it 0 0 cas c1 = Ret (stored0, cas') c' ∧ store_outcome m R c it i comm cas stored0 cas' m' c') as Hrefuse.
  { intros stored Hs Hns. destruct (store_missing m R c c1 it i comm cas stored Hok1 Hk1 Hlive Hs Hns) as (Hr' & Hout).
    by exists stored, cas, (delete (ITEM_key i) m), c1. }
  assert (store_result comm i None = STORED → ∃ stored cas' m' c',
    (link_or_replace st 0 it (hash (ITEM_key i)) ;; finish_store STORED it 0 0 cas) c1 = Ret (stored, cas') c' ∧
    store_outcome m R c it i comm cas stored cas' m' c') as Hnew.
  { intros Hs. destruct (store_new m R c c1 it i comm cas Hok Hok1 Hk1 Hlive Hfew HR Hi Hl Hs) as (c2 & c' & cas' & m' & Hr1 & Hr2 & Hout).
    exists STORED, cas', m', c'. unfold link_or_replace. cbn [Z.eqb]. by rewrite bind_ret_unit, (M_bind_ret _ _ _ _ _ Hr1). }
  destruct comm; repeat decide_name; first [by apply Hrefuse|by apply Hnew].
Qed.

Lemma do_store_item_spec m R c s it i comm cas :
  ok m R c → (∀ z, R z + 3 < 2 ^ 16) → 1 ≤ R it → heap_of c !! it = Some i → has_flag ITEM_LINKED i = false →
  (∀ x o, concatenates comm = true → live m c (ITEM_key i) = Some (x, o) →
    users_ok R c ∧ system_ready s c ∧ current_time c ≤ u32 (time o + TAIL_REPAIR_TIME)) →
  ∃ stored cas' m' c', do_store_item st hash s it comm cas (hash (ITEM_key i)) c = Ret (stored, cas') c' ∧
    store_outcome m R c it i comm cas stored cas' m' c'.
Proof.
  intros Hok Hfew HR Hi Hl Ht. destruct (live m c (ITEM_key i)) as [[x o]|] eqn:Hlive.
  - eapply store_found; [exact Hlive|done..|]. intros Hcat. by eapply Ht.
  - by apply store_not_found.
Qed.

(** ** [do_add_delta] *)

(** Did the client ask for an item of another number? *)
Definition mismatch (cas : option Z) (o : item) : bool :=
  match cas with Some v => negb (v =? 0) && negb (ITEM_get_cas o =? v) | None => false end.
(** The number in an item: [strtoull] reads on after the end of the value. *)
Definition counter (s : sys) (x : Z) (o : item) : bool * Z := McUtil.safe_strtoull (c_string (ITEM_data o ++ s_beyond s x)).

Record delta_outcome (m : gmap bytes Z) (R : Z → Z) (c : cache) (s : sys) (key : bytes) (incr : bool) (delta : Z) (cas : option Z)
    (r : delta_result_type) (text : bytes) (cas' : option Z) (m' : gmap bytes Z) (c' : cache) : Prop := {
  dl_ok : ok m' R c';
  dl_kept : kept (indexed m key ++ indexed m' key) m' R c c';
  dl_result : match live m c key with
    | None => r = DELTA_ITEM_NOT_FOUND
    | Some (x, o) => if mismatch cas o then r = DELTA_ITEM_CAS_MISMATCH
        else if (counter s x o).1 then r = OK ∨ r = EOM else r = NON_NUMERIC
    end;
  dl_counted : r = OK → ∃ x o y j, live m c key = Some (x, o) ∧ m' !! key = Some y ∧ heap_of c' !! y = Some j ∧
    text = decimal (new_value incr (counter s x o).2 delta) ∧
    value_of j = (text ++ [13; 10], int_of_string (ITEM_suffix o), exptime o);
  dl_refused : r ≠ OK → text = [] ∧ cas' = cas ∧ m' !! key = fst <$> live m c key ∧
    ∀ x o, live m c key = Some (x, o) → ∃ j, heap_of c' !! x = Some j ∧ value_of j = value_of o;
  dl_others : ∀ k, k ≠ key → m' !! k = m !! k ∨ m' !! k = None ∧ ∃ y, m !! k = Some y ∧ R y = 0
}.

(** The command leaves the counter as it is; the table after the lookup is kept. *)
Lemma delta_refused m R c c1 c2 s key incr delta cas x o r :
  got m R c c1 key x o → ok m (<[x := R x + 1]> R) c2 → kept [] m (<[x := R x + 1]> R) c1 c2 → r ≠ OK →
  (if mismatch cas o then r = DELTA_ITEM_CAS_MISMATCH else if (counter s x o).1 then r = OK ∨ r = EOM else r = NON_NUMERIC) →
  ∃ c', do_item_remove x c2 = Ret tt c' ∧ delta_outcome m R c s key incr delta cas r [] cas m c'.
Proof.
  intros Hg Hok2 Hk2 Hne Hres. pose proof (gt_index _ _ _ _ _ _ _ Hg) as Hx.
  destruct (kept_item _ _ _ _ _ x _ Hk2 ltac:(by apply not_elem_of_nil) ltac:(right; by eexists) (gt_item _ _ _ _ _ _ _ Hg)) as (o2 & Ho2 & Hwo).
  destruct (release_ok m R c2 x o2 Hok2 (gt_refs _ _ _ _ _ _ _ Hg) Ho2) as (c3 & Hr & Hok3 & Hk3 & Hvals). exists c3. split; [done|].
  split; [done| |by rewrite (gt_live _ _ _ _ _ _ _ Hg)|done| |by left].
  - assert (∀ y, y ∉ [x] → used m R y → used m (<[x := R x + 1]> R) y) as Hu.
    { intros y Hy [Hy1|?]; [left|by right]. rewrite fn_lookup_insert_ne; [done|]. intros ->. apply Hy. by apply elem_of_cons; left. }
    unfold indexed. rewrite Hx. eapply (kept_mono [x]); [|by intros y Hy; apply elem_of_app; left|done].
    eapply kept_trans; [|exact Hk3|exact Hu]. eapply kept_trans; [apply Hg|eapply kept_mono; [exact Hk2| |done]|done].
    intros y Hy. by apply elem_of_nil in Hy.
  - intros _. rewrite (gt_live _ _ _ _ _ _ _ Hg). split; [done|]. split; [done|]. split; [done|]. intros x' o' [= <- <-].
    destruct (Hvals _ x o2 Hx Ho2) as (j & Hj & Hv). exists j. split; [done|]. rewrite Hv, (value_of_links _ _ Hwo). by destruct (fetched_same o).
Qed.

(** The text of the new value is written to the new item. *)
Lemma write_counter m R c n ni buf :
  ok m R c → 1 ≤ R n → heap_of c !! n = Some ni → nbytes ni = zlen buf + 2 →
  ∃ c', (write_data n 0 buf ;; write_data n (zlen buf) [13; 10]) c = Ret tt c' ∧ ok m R c' ∧ kept [n] m R c c' ∧
    heap_of c' !! n = Some (set_ITEM_data (buf ++ [13; 10]) ni).
Proof.
  intros Hok HR Hn Hlen. destruct (ok_item m R c n Hok HR) as (ni' & Hn' & _ & _ & [_ _ Hdn _] & _). assert (ni' = ni) as -> by congruence.
  assert (0 ≤ zlen buf) by (unfold zlen; lia).
  destruct (write_data_ok m R c n ni 0 buf Hok HR Hn) as (Hr1 & Hok1 & Hk1 & Hn1); [done|lia|].
  rewrite (M_bind_ret _ _ _ _ _ Hr1). set (n1 := set_ITEM_data _ _) in *. set (c1 := set_heap _ _) in *.
  destruct (write_data_ok m R c1 n n1 (zlen buf) [13; 10] Hok1 HR Hn1) as (Hr2 & Hok2 & Hk2 & Hn2); [lia| |].
  { change (nbytes n1) with (nbytes ni). change (zlen [13; 10]) with 2. lia. }
  eexists. split; [exact Hr2|]. split; [done|]. split; [eapply kept_trans; [exact Hk1|exact Hk2|done]|].
  rewrite Hn2. f_equal. change (set_ITEM_data ?d n1) with (set_ITEM_data d ni). f_equal.
  change (ITEM_data n1) with (memcpy (ITEM_data ni) 0 buf). apply memcpy_both. change (zlen [13; 10]) with 2. lia.
Qed.

(** What the command does when the item under the key is a number and a new item could be allocated: [n] is written, and
    takes the place of [x]. *)
Lemma delta_stored m R c c1 c2 m2 s key incr delta cas x o n ni buf :
  got m R c c1 key x o → (∀ z, R z + 3 < 2 ^ 16) → n ≠ 0 → (<[x := R x + 1]> R) n = 0 → evicts m n m2 →
  ok m2 (<[n := 1]> (<[x := R x + 1]> R)) c2 → kept [n] m2 (<[n := 1]> (<[x := R x + 1]> R)) c1 c2 →
  heap_of c2 !! n = Some ni → ITEM_key ni = key → has_flag ITEM_LINKED ni = false → nbytes ni = zlen buf + 2 →
  exptime ni = exptime o → int_of_string (ITEM_suffix ni) = int_of_string (ITEM_suffix o) →
  mismatch cas o = false → (counter s x o).1 = true → buf = decimal (new_value incr (counter s x o).2 delta) →
  ∃ c' cas' m',
    (write_data n 0 buf ;; write_data n (zlen buf) [13; 10] ;; item_replace st x n (hash key) ;;
     let* n' := the_item n in
     on_item x (ITEM_set_cas (if Slabs.use_cas st then ITEM_get_cas n' else 0)) ;; do_item_remove n ;;
     let* i := the_item x in
     do_item_remove x ;; mret (OK, buf, match cas with Some _ => Some (ITEM_get_cas i) | None => None end)) c2 =
      Ret (OK, buf, cas') c' ∧
    delta_outcome m R c s key incr delta cas OK buf cas' m' c'.
Proof.
  intros Hg Hfew Hn0 HRn Hm2 Hok2 Hk2 Hn Hkn Hln Hnb He Hfl Hcas Hct Hbuf.
  set (R1 := <[x := R x + 1]> R) in *. set (R2 := <[n := 1]> R1) in *. pose proof (gt_refs _ _ _ _ _ _ _ Hg) as HRx.
  destruct (write_counter m2 R2 c2 n ni buf Hok2) as (c3 & Hw & Hok3 & Hk3 & Hn3); [unfold R2; rewrite fn_lookup_insert; lia|done|done|].
  rewrite M_bind_eq in Hw. rewrite M_bind_eq. destruct (write_data n 0 buf c2) as [[] c2'| |]; [|done..]. rewrite (M_bind_ret _ _ _ _ _ Hw).
  destruct (replace_got m R c c1 c3 m2 key x o n _ Hg Hfew Hn0 HRn Hm2 Hok3 (kept_trans _ _ _ _ _ _ _ _ Hk2 Hk3 ltac:(done)) Hn3 Hkn Hln)
    as (Hnx & Hx0 & HRn0 & c4 & j & o4 & Hr4 & Hok4 & Hk4 & Hj & Hvj & Ho4).
  rewrite (M_bind_ret _ _ _ _ _ Hr4). istep. set (m4 := <[key := n]> m2) in *. fold R1 R2 in Hok4.
  set (v := if Slabs.use_cas st then ITEM_get_cas j else 0).
  rewrite (M_bind_ret _ _ _ _ _ (run_on_item c4 x o4 (ITEM_set_cas v) Ho4)).
  pose proof (set_cas_ok m4 R2 c4 x o4 v Hok4 ltac:(unfold R2, R1; rewrite fn_lookup_insert_ne, fn_lookup_insert by done; lia) Ho4) as Hok5.
  pose proof (kept_set m4 R c4 x o4 (ITEM_set_cas v o4) Ho4) as Hk5. set (c5 := set_heap _ _) in *.
  assert (heap_of c5 !! n = Some j) as Hj5 by (unfold c5; cbn; by rewrite lookup_insert_ne).
  assert (m4 !! key = Some n) as Hm4 by apply lookup_insert_eq.
  assert (R1 n = 0) as HR1n by (unfold R1; by rewrite fn_lookup_insert_ne).
  destruct (release_ok m4 R1 c5 n j) as (c6 & Hr6 & Hok6 & Hk6 & Hv6); [by eapply ok_ext; [exact Hok5|]; intros y; rewrite HR1n|lia|done|].
  destruct (Hv6 key n j Hm4 Hj5) as (j6 & Hj6 & Hvj6). rewrite (M_bind_ret _ _ _ _ _ Hr6).
  destruct (ok_item m4 R1 c6 x Hok6) as (o6 & Ho6 & _); [unfold R1; rewrite fn_lookup_insert; lia|]. istep.
  destruct (release_ok m4 R c6 x o6 Hok6 HRx Ho6) as (c7 & Hr7 & Hok7 & Hk7 & Hv7).
  destruct (Hv7 key n j6 Hm4 Hj6) as (j7 & Hj7 & Hvj7). rewrite (M_bind_ret _ _ _ _ _ Hr7).
  eexists c7, _, m4. split; [reflexivity|]. split; [done| | | |done|].
  - eapply (kept_mono [x; n]); [| |done].
    2: { intros y. unfold indexed at 2. rewrite Hm4. unfold indexed. rewrite (gt_index _ _ _ _ _ _ _ Hg). cbn. done. }
    eapply kept_trans; [|eapply kept_mono; [exact Hk7| |done]|done].
    2: { intros y ->%list_elem_of_singleton. by apply elem_of_cons; left. }
    assert (∀ y, y ∉ [x; n] → used m4 R y → used m4 R1 y) as Hu.
    { intros y Hy [Hy1|?]; [left|by right]. unfold R1. rewrite fn_lookup_insert_ne; [done|]. intros ->. apply Hy. by apply elem_of_cons; left. }
    eapply kept_trans; [eapply kept_trans; [exact Hk4|eapply kept_mono; [exact Hk5| |done]|done]|eapply kept_mono; [exact Hk6| |exact Hu]|done].
    + intros y ->%list_elem_of_singleton. by apply elem_of_cons; left.
    + intros y ->%list_elem_of_singleton. apply elem_of_cons; right. by apply elem_of_cons; left.
  - rewrite (gt_live _ _ _ _ _ _ _ Hg), Hcas, Hct. by left.
  - intros _. exists x, o, n, j7. split; [apply Hg|]. split; [done|]. split; [done|]. split; [done|].
    rewrite Hvj7, Hvj6, Hvj. unfold value_of. cbn. congruence.
  - intros k Hk. destruct (evicts_others m n m2 _ Hm2 k Hk) as [?|(? & y & ? & ->)]; [by left|right; by eauto].
Qed.

(** The counter is a number: a new item takes its place, or there is no memory for it. *)
Lemma delta_counts m R c c1 s key incr delta cas x o hv buf :
  got m R c c1 key x o → ok m R c → (∀ z, R z + 3 < 2 ^ 16) → users_ok R c → system_ready s c →
  current_time c ≤ u32 (time o + TAIL_REPAIR_TIME) →
  mismatch cas o = false → (counter s x o).1 = true → buf = decimal (new_value incr (counter s x o).2 delta) →
  hv = hash key → let o1 := add_flag ITEM_FETCHED (refcount_incr o) in
  ∃ r text cas' m' c',
    (let* fine := (let* new_it := do_item_alloc st hash s (ITEM_key o1) (int_of_string (tail (ITEM_suffix o1))) (exptime o1) (zlen buf + 2) hv in
       if new_it =? 0 then do_item_remove x ;; mret false
       else
         write_data new_it 0 buf ;;
         write_data new_it (zlen buf) [13; 10] ;;
         item_replace st x new_it hv ;;
         let* n := the_item new_it in
         on_item x (ITEM_set_cas (if Slabs.use_cas st then ITEM_get_cas n else 0)) ;;
         do_item_remove new_it ;; mret true) in
     if (fine : bool) then
       let* i := the_item x in
       do_item_remove x ;;
       mret (OK, buf, match cas with Some _ => Some (ITEM_get_cas i) | None => None end)
     else mret (EOM, [], cas)) c1 = Ret (r, text, cas') c' ∧
    delta_outcome m R c s key incr delta cas r text cas' m' c'.
Proof.
  intros Hg Hok Hfew Hu Hsys Ht Hcas Hct Hbuf -> o1. pose proof (gt_item _ _ _ _ _ _ _ Hg) as Ho1. fold o1 in Ho1.
  pose proof (gt_ok _ _ _ _ _ _ _ Hg) as Hok1. set (R1 := <[x := R x + 1]> R) in *. pose proof (gt_refs _ _ _ _ _ _ _ Hg) as HRx.
  destruct (ok_item m R1 c1 x Hok1) as (? & Hq & _ & _ & Hso & _); [unfold R1; rewrite fn_lookup_insert; lia|].
  assert (x0 = o1) as -> by congruence. clear Hq.
  assert (zlen buf ≤ 20) by (rewrite Hbuf; apply (zlen_decimal_digits 20)). assert (0 ≤ zlen buf) by (unfold zlen; lia).
  destruct (sh_suffix _ _ _ _ Hso) as (f & Hf & Hsuf).
  assert (int_of_string (tail (ITEM_suffix o1)) = f) as Htail by (rewrite Hsuf; by apply flags_of_suffix_tail).
  assert (int_of_string (ITEM_suffix o) = f) as Hfo by (change (ITEM_suffix o) with (ITEM_suffix o1); rewrite Hsuf; by apply flags_of_suffix).
  destruct (alloc_ok m R1 c1 s (ITEM_key o1) (int_of_string (tail (ITEM_suffix o1))) (exptime o1) (zlen buf + 2) (hash key) Hok1)
    as (ret & c2 & m2 & Hr2 & Hcase).
  { by eapply got_users. } { intros id. rewrite (gt_pool _ _ _ _ _ _ _ Hg). apply Hsys. }
  { split; [apply Hso|lia|by rewrite Htail]. }
  rewrite M_bind_assoc, (M_bind_ret _ _ _ _ _ Hr2). destruct (Z.eqb_spec ret 0) as [->|Hret].
  - destruct Hcase as (-> & Hok2 & Hk2).
    destruct (delta_refused m R c c1 c2 s key incr delta cas x o EOM Hg Hok2 Hk2) as (c' & Hr & Hout); [done|rewrite Hcas, Hct; by right|].
    rewrite M_bind_assoc, (M_bind_ret _ _ _ _ _ Hr). by exists EOM, [], cas, m, c'.
  - destruct Hcase as (HRr & Hok2 & Hk2 & Hm2 & n & Hn & Hkn & Hbn & Hen & Hsn & Hln).
    destruct (delta_stored m R c c1 c2 m2 s key incr delta cas x o ret n buf Hg Hfew Hret HRr Hm2 Hok2 Hk2 Hn) as (c' & cas' & m' & Hr & Hout);
      [rewrite Hkn; apply (gt_key _ _ _ _ _ _ _ Hg)|done|done|done| |done|done|done|].
    { rewrite Hsn, Hfo. rewrite Htail. by apply flags_of_suffix. }
    exists OK, buf, cas', m', c'. split; [|done]. rewrite <- Hr. by do 6 (rewrite M_bind_assoc; apply M_bind_ext; intros ??).
Qed.

Lemma do_add_delta_spec m R c s key incr delta cas :
  ok m R c → users_ok R c → system_ready s c → (∀ z, R z + 3 < 2 ^ 16) →
  (∀ x o, live m c key = Some (x, o) → current_time c ≤ u32 (time o + TAIL_REPAIR_TIME)) →
  ∃ r text cas' m' c', do_add_delta st hash s key incr delta cas (hash key) c = Ret (r, text, cas') c' ∧
    delta_outcome m R c s key incr delta cas r text cas' m' c'.
Proof.
  intros Hok Hu Hsys Hfew Ht. destruct (live m c key) as [[x o]|] eqn:Hlive.
  - destruct (get_got m R c key x o Hlive Hok) as (c1 & Hr & Hg); [intros z; specialize (Hfew z); lia|].
    pose proof (gt_ok _ _ _ _ _ _ _ Hg) as Hok1. pose proof (gt_item _ _ _ _ _ _ _ Hg) as Ho1.
    destruct (fetched_same o) as (_ & Hco & _). set (o1 := add_flag ITEM_FETCHED (refcount_incr o)) in *.
    destruct (ok_linked m _ c1 _ x Hok1 (gt_index _ _ _ _ _ _ _ Hg)) as (_ & _ & _ & _ & Hx0 & _).
    destruct (ok_item m _ c1 x Hok1) as (? & Hq & Hcount & _); [rewrite fn_lookup_insert; pose proof (gt_refs _ _ _ _ _ _ _ Hg); lia|].
    assert (x0 = o1) as -> by congruence. clear Hq.
    unfold do_add_delta. rewrite (M_bind_ret _ _ _ _ _ Hr), (proj2 (Z.eqb_neq x 0)) by done. istep. fold (mismatch cas o1).
    assert (mismatch cas o1 = mismatch cas o) as -> by (unfold mismatch; by rewrite Hco).
    destruct (mismatch cas o) eqn:Hcas.
    { destruct (delta_refused m R c c1 c1 s key incr delta cas x o DELTA_ITEM_CAS_MISMATCH Hg Hok1 (kept_refl _ _ _ _)) as (c' & Hr' & Hout);
        [done|by rewrite Hcas|]. rewrite (M_bind_ret _ _ _ _ _ Hr'). by exists DELTA_ITEM_CAS_MISMATCH, [], cas, m, c'. }
    change (ITEM_data o1) with (ITEM_data o). fold (counter s x o). destruct (counter s x o) as [fine value] eqn:Hct.
    destruct fine; cbn [negb].
    2: { destruct (delta_refused m R c c1 c1 s key incr delta cas x o NON_NUMERIC Hg Hok1 (kept_refl _ _ _ _)) as (c' & Hr' & Hout);
        [done|by rewrite Hcas, Hct|]. rewrite (M_bind_ret _ _ _ _ _ Hr'). by exists NON_NUMERIC, [], cas, m, c'. }
    assert ((nbytes o1 <? zlen (decimal (new_value incr value delta)) + 2) || negb (refcount o1 =? 1) = true) as ->.
    { apply orb_true_iff. right. rewrite (proj2 (Z.eqb_neq (refcount o1) 1)); [done|].
      assert (has_flag ITEM_LINKED o1 = true) as Hlo by (by apply (ok_index_inv m _ c1 key x o1 Hok1 (gt_index _ _ _ _ _ _ _ Hg))).
      rewrite Hcount, Hlo, fn_lookup_insert. pose proof (gt_refs _ _ _ _ _ _ _ Hg). lia. }
    eapply delta_counts; [exact Hg|done..| |exact Hcas| | |done]; [by eapply Ht|by rewrite Hct|by rewrite Hct].
  - destruct (get_live m R c key Hok) as (c1 & Hc); [intros z; specialize (Hfew z); lia|]. rewrite Hlive in Hc.
    destruct Hc as (Hr & Hok1 & Hk1). exists DELTA_ITEM_NOT_FOUND, [], cas, (delete key m), c1. split.
    { unfold do_add_delta. by rewrite (M_bind_ret _ _ _ _ _ Hr). }
    split; [done| |by rewrite Hlive|done| |].
    + eapply kept_mono; [exact Hk1| |done]. intros y Hy. by apply elem_of_app; left.
    + intros _. rewrite Hlive, lookup_delete_eq. done.
    + intros k Hk. left. by rewrite lookup_delete_ne.
Qed.

End Operations.

End StoreOps.
