(* ===== verification/ItemsFlush.v ===== *)
(** * Flushing

    [do_item_flush_expired] of [Items] unlinks exactly the items that are not older than
    [oldest_live]: it relies on the order of the queues. *)

From S2P Require Import Prelude Bytes CStrings ItemHeap Assoc AssocTheorems Slabs SlabsTheorems SlabsAlloc SlabsSafety ChunkAllocator Items ItemsInv ItemsOps.
From Stdlib Require Import ZArith Lia Sorted.
From stdpp Require Import base gmap list fin_maps functions sorting.

Local Open Scope Z_scope.

Module ItemsFlush.
Import ItemHeap ChunkAllocator Items ItemsInv ItemsOps.

Lemma list_in_heap (h : heap_t) (l : list Z) :
  NoDup l → (∀ x, x ∈ l → is_Some (h !! x)) → (length l ≤ base.size h)%nat.
Proof.
  intros Hn Hl. rewrite <- size_dom. rewrite <- (size_list_to_set (C := gset Z) l) by done. apply subseteq_size.
  intros x Hx%elem_of_list_to_set. by apply elem_of_dom, Hl.
Qed.

Section Flush.
Context (st : Slabs.settings_t) (hash : bytes → Z) (largest : Z) (sz : Z → Z).
Context (Holds : Slabs.arena → gmap Z Z → Prop) `{HA : !ChunkAllocator st largest sz Holds}.
Context (Hlargest : largest < LARGEST_ID).

Abbreviation cache_ok := (cache_ok hash sz Holds).

(** The items of [X] have been unlinked. *)
Record flushed (X : list Z) (H : gmap Z Z) (m : gmap bytes Z) (c : cache)
    (H' : gmap Z Z) (m' : gmap bytes Z) (c' : cache) : Prop := {
  fl_linked : ∀ x, x ∈ X → ∃ k, m !! k = Some x;
  fl_new : ∀ x, x ∈ X → oldest_live c ≤ time_at (heap_of c) x;
  fl_chunks : ∀ y id, H' !! y = Some id → H !! y = Some id;
  fl_index : ∀ k x, m' !! k = Some x ↔ m !! k = Some x ∧ x ∉ X;
  fl_frame : frame X H' c c'
}.

Lemma flushed_nil H m c : flushed [] H m c H m c.
Proof.
  split; try done.
  - intros x Hx. by apply elem_of_nil in Hx.
  - intros x Hx. by apply elem_of_nil in Hx.
  - intros k x. split; [|by intros [? _]]. intros Hk. split; [done|]. by intros ?%elem_of_nil.
Qed.

Lemma flushed_app X Y H1 m1 c1 H2 m2 c2 H3 m3 c3 :
  flushed X H1 m1 c1 H2 m2 c2 → flushed Y H2 m2 c2 H3 m3 c3 → (∀ k y, m2 !! k = Some y → is_Some (H2 !! y)) →
  flushed (X ++ Y) H1 m1 c1 H3 m3 c3.
Proof.
  intros [K1 N1 C1 I1 F1] [K2 N2 C2 I2 F2] Hd. split.
  - intros x [Hx|Hx]%elem_of_app; [by apply K1|]. destruct (K2 x Hx) as [k Hk]. exists k. by apply I1 in Hk as [? _].
  - intros x [Hx|Hx]%elem_of_app; [by apply N1|]. specialize (N2 x Hx). destruct (K2 x Hx) as [k Hk].
    pose proof (Hd k x Hk) as Hs. apply I1 in Hk as [_ HxX].
    rewrite (fr_live _ _ _ _ F1) in N2. destruct (core_same _ _ x (fr_core _ _ _ _ F1 x HxX Hs)) as (_ & <- & _). done.
  - intros y id Hy. by apply C1, C2.
  - intros k x. rewrite I2, I1, elem_of_app. tauto.
  - eapply frame_trans; [eapply frame_mono; [exact F1|intros y Hy; apply elem_of_app; by left|done]| |].
    + eapply frame_mono; [exact F2|intros y Hy; apply elem_of_app; by right|done].
    + intros y [id Hy]. by exists id; apply C2.
Qed.

(** One item is unlinked. *)
Lemma flush_one H L m R c x id it l :
  cache_ok ∅ H L m R c → has_queue id → L id = x :: l → heap_of c !! x = Some it → oldest_live c ≤ time it →
  ∃ c' H' L' m', do_item_unlink_nolock x (hash (ITEM_key it)) c = Ret tt c' ∧ cache_ok ∅ H' L' m' R c' ∧
    L' id = l ∧ (∀ j, j ≠ id → L' j = L j) ∧ flushed [x] H m c H' m' c'.
Proof.
  intros Hok Hq HL Hit Ht. assert (x ∈ L id) as Hxl by (rewrite HL; by apply elem_of_cons; left).
  pose proof (proj1 (co_linked Hok id x Hq) Hxl) as [Hx Hla].
  assert (has_flag ITEM_LINKED it = true) as Hl by (unfold linked_at in Hla; by rewrite Hit in Hla).
  destruct (linked_place Hlargest Hok Hx Hit Hl) as [_ Hm].
  destruct (do_item_unlink_spec Hlargest (it := it) (l1 := []) (l2 := l) Hok Hx) as (c' & Hr & Hok' & Hf & _);
    [set_solver|done|done|done|].
  eexists c', _, _, _. split; [exact Hr|]. split; [exact Hok'|]. rewrite fn_lookup_insert. split; [done|]. split.
  { intros j Hj. by rewrite fn_lookup_insert_ne. }
  split.
  - intros y ->%list_elem_of_singleton. by eexists.
  - intros y ->%list_elem_of_singleton. unfold time_at. by rewrite Hit.
  - intros y j. destruct (R x =? 0); [|done]. by intros [_ ?]%lookup_delete_Some.
  - intros k y. rewrite lookup_delete_Some, list_elem_of_singleton. split.
    + intros [Hk Hy]. split; [done|]. intros ->. apply (co_index Hok) in Hy as (_ & _ & Hy). apply Hk.
      unfold has_key, AssocTheorems.has_key in Hy. rewrite Hit in Hy. by injection Hy.
    + intros [Hy Hne]. split; [|done]. intros <-. congruence.
  - exact Hf.
Qed.

Lemma flush_loop_spec fuel H L m R c id :
  cache_ok ∅ H L m R c → has_queue id → (length (L id) < fuel)%nat →
  ∃ c' H' L' m' X, flush_loop hash fuel (first (L id)) c = Ret tt c' ∧ cache_ok ∅ H' L' m' R c' ∧
    L id = X ++ L' id ∧ (∀ j, j ≠ id → L' j = L j) ∧ (∀ x, x ∈ L' id → time_at (heap_of c') x < oldest_live c) ∧
    flushed X H m c H' m' c'.
Proof.
  revert H L m c. induction fuel as [|fuel IH]; intros H L m c Hok Hq Hlen; [lia|]. cbn [flush_loop].
  destruct (L id) as [|x l] eqn:HL.
  { change (first []) with 0. exists c, H, L, m, []. split; [done|]. split; [done|]. rewrite HL. split; [done|]. split; [done|].
    split; [intros y Hy; by apply elem_of_nil in Hy|apply flushed_nil]. }
  change (first (x :: l)) with x. assert (x ∈ L id) as Hxl by (rewrite HL; by apply elem_of_cons; left).
  pose proof (proj1 (co_linked Hok id x Hq) Hxl) as [Hx Hla].
  destruct (held_class Hlargest Hok Hx) as (_ & Hx0 & it & Hit). rewrite (proj2 (Z.eqb_neq x 0)) by done. istep.
  erewrite M_bind_ret by reflexivity. cbv beta. destruct (Z.leb_spec (oldest_live c) (time it)) as [Hle|Hgt].
  - destruct (co_items Hok x id Hx) as (it0 & Hit0 & Hio); [set_solver|]. assert (it0 = it) as -> by congruence.
    rewrite (io_slabbed Hio).
    pose proof (qo_list _ _ _ (co_queues Hok id Hq)) as Hd. rewrite HL in Hd.
    assert (next it = first l) as ->.
    { destruct Hd as [Hs _]. cbn [dseg] in Hs. destruct Hs as (_ & (it1 & Hit1 & _ & Hn) & _).
      assert (it1 = it) as -> by congruence. exact Hn. }
    destruct (flush_one H L m R c x id it l Hok Hq HL Hit Hle) as (c1 & H1 & L1 & m1 & Hr1 & Hok1 & HL1 & Ho1 & Hf1).
    rewrite (M_bind_ret _ _ _ _ _ Hr1). destruct (IH H1 L1 m1 c1 Hok1 Hq) as (c2 & H2 & L2 & m2 & X & Hr2 & Hok2 & HX & Ho2 & Ht2 & Hf2).
    { rewrite HL1. cbn [length] in Hlen. lia. }
    rewrite HL1 in Hr2, HX. exists c2, H2, L2, m2, (x :: X). split; [done|]. split; [done|]. split; [by rewrite HX|].
    split; [intros j Hj; by rewrite Ho2, Ho1|]. rewrite <- (fr_live _ _ _ _ (fl_frame _ _ _ _ _ _ _ Hf1)). split; [done|].
    change (x :: X) with ([x] ++ X). eapply flushed_app; [exact Hf1|exact Hf2|]. by intros k y [Hy _]%(co_index Hok1).
  - exists c, H, L, m, []. split; [done|]. split; [done|]. rewrite HL. split; [done|]. split; [done|].
    split; [|apply flushed_nil]. intros y Hy. pose proof (co_sorted Hok id Hq) as Hs. rewrite HL in Hs.
    apply StronglySorted_inv in Hs as [_ Hs]. rewrite Forall_forall in Hs.
    assert (time_at (heap_of c) x = time it) as Htx by (unfold time_at; by rewrite Hit).
    apply elem_of_cons in Hy as [->|Hy]; [lia|]. specialize (Hs y Hy). lia.
Qed.

Lemma flush_queues_spec n id0 H L m R c :
  cache_ok ∅ H L m R c → 0 ≤ id0 → id0 + Z.of_nat n = LARGEST_ID →
  (∀ j x, has_queue j → j < id0 → x ∈ L j → time_at (heap_of c) x < oldest_live c) →
  ∃ c' H' L' m' X, flush_queues hash n id0 c = Ret tt c' ∧ cache_ok ∅ H' L' m' R c' ∧
    (∀ j x, has_queue j → x ∈ L' j → time_at (heap_of c') x < oldest_live c) ∧ flushed X H m c H' m' c'.
Proof.
  revert id0 H L m c. induction n as [|n IH]; intros id0 H L m c Hok H0 Hn Hdone; cbn [flush_queues].
  { exists c, H, L, m, []. split; [done|]. split; [done|]. split; [|apply flushed_nil].
    intros j x Hj. apply Hdone; [done|]. unfold has_queue in Hj. lia. }
  assert (has_queue id0) as Hq by (unfold has_queue; lia).
  destruct (co_queues Hok id0 Hq) as [Qd Qh _ _]. istep. erewrite M_bind_ret by reflexivity. cbv beta.
  destruct (flush_loop_spec (S (base.size (heap_of c))) H L m R c id0 Hok Hq) as (c1 & H1 & L1 & m1 & X & Hr1 & Hok1 & HX & Ho1 & Ht1 & Hf1).
  { apply Nat.lt_succ_r. apply list_in_heap; [apply Qd|]. intros x Hx. by apply (dlist_elem _ _ x Qd). }
  rewrite (M_bind_ret _ _ _ _ _ Hr1). pose proof (fl_frame _ _ _ _ _ _ _ Hf1) as Hfr1.
  destruct (IH (id0 + 1) H1 L1 m1 c1 Hok1) as (c2 & H2 & L2 & m2 & Y & Hr2 & Hok2 & Ht2 & Hf2); [lia|lia| |].
  { intros j x Hj Hlt Hx. rewrite (fr_live _ _ _ _ Hfr1). destruct (decide (j = id0)) as [->|Hne]; [by apply Ht1|].
    pose proof Hx as [Hxh _]%(co_linked Hok1); [|done].
    assert (x ∉ X) as HxX.
    { intros HxX. assert (x ∈ L id0) as Hxl by (rewrite HX; apply elem_of_app; by left).
      apply (co_linked Hok) in Hxl as [Hxl _]; [|done]. apply (fl_chunks _ _ _ _ _ _ _ Hf1) in Hxh. congruence. }
    rewrite Ho1 in Hx by done. destruct (core_same _ _ x (fr_core _ _ _ _ Hfr1 x HxX (mk_is_Some _ _ Hxh))) as (_ & -> & _).
    apply (Hdone j); [done|lia|done]. }
  rewrite (fr_live _ _ _ _ Hfr1) in Ht2. exists c2, H2, L2, m2, (X ++ Y). split; [done|]. split; [done|]. split; [done|].
  eapply flushed_app; [exact Hf1|exact Hf2|].
  by intros k y [Hy _]%(co_index Hok1).
Qed.

Lemma do_item_flush_expired_spec H L m R c :
  cache_ok ∅ H L m R c →
  ∃ c' H' L' m' X, do_item_flush_expired hash c = Ret tt c' ∧ cache_ok ∅ H' L' m' R c' ∧ flushed X H m c H' m' c' ∧
    (oldest_live c ≠ 0 → ∀ k x, m' !! k = Some x → time_at (heap_of c') x < oldest_live c) ∧
    (oldest_live c = 0 → X = []).
Proof.
  intros Hok. unfold do_item_flush_expired. erewrite M_bind_ret by reflexivity. cbv beta.
  destruct (Z.eqb_spec (oldest_live c) 0) as [Hz|Hz].
  { exists c, H, L, m, []. split; [done|]. split; [done|]. split; [apply flushed_nil|]. done. }
  destruct (flush_queues_spec (Z.to_nat LARGEST_ID) 0 H L m R c Hok) as (c' & H' & L' & m' & X & Hr & Hok' & Ht & Hf);
    [lia|done|intros j x Hj; unfold has_queue in Hj; lia|].
  exists c', H', L', m', X. split; [done|]. split; [done|]. split; [done|]. split; [|done]. intros _ k x Hk.
  apply (co_index Hok') in Hk as ([id Hx] & Hl & _). destruct (held_class Hlargest Hok' Hx) as (Hq & _).
  apply (Ht id); [done|]. by apply (co_linked Hok').
Qed.

End Flush.

End ItemsFlush.
