(* ===== verification/ItemsRequests.v ===== *)
(** * The users of memcached's items

    The users of [Items] - the connections of memcached - hold references to items and
    call the operations in any order; in between the clock ticks, the hash table grows and
    pages are requested.  Every request that its caller may make keeps the invariant of
    [ItemsInv]. *)

From S2P Require Import Prelude Bytes CStrings ItemHeap Assoc AssocTheorems Slabs SlabsTheorems SlabsAlloc SlabsSafety ChunkAllocator Items ItemsInv ItemsOps ItemsAlloc ItemsRefs Store StoreOps ItemsFlush.
From Stdlib Require Import ZArith Lia Sorted.
From stdpp Require Import base gmap list fin_maps functions sorting relations.

Local Open Scope Z_scope.

Module ItemsRequests.
Import ItemHeap ChunkAllocator Items ItemsInv ItemsOps ItemsAlloc ItemsRefs Store ItemsFlush.

(** ** The users *)

Inductive request :=
| Alloc (key : bytes) (flags exptime nbytes : Z)
| Get (key : bytes)
| Touch (key : bytes) (exptime : Z)
| Link (it : Z)
| Remove (it : Z)
| Unlink (it : Z)
| Update (it : Z)
| Replace (old_it new_it : Z)
| FlushExpired
| StatsReset
(** The value and the number of an item are written. *)
| Write (it : Z) (data : bytes) (cas : Z)
| StoreItem (it : Z) (comm : nread) (cas : Z)
| AddDelta (key : bytes) (incr : bool) (delta : Z) (cas : option Z)
| Tick (now : Z)
| SetOldestLive (t : Z)
| Maintain (hash_bulk_move : nat)
| Reassign (src dst : Z).

(** What a lookup in the table finds. *)
Definition find (hash : bytes → Z) (c : cache) (key : bytes) : result Z := Assoc.assoc_find key (hash key) (tbl c).

Lemma find_eq {hash sz Holds D H L m R c} k : cache_ok hash sz Holds D H L m R c → find hash c k = Ok (default 0 (m !! k)).
Proof. intros Hok. apply assoc_find_holds, (co_table Hok). Qed.

Section Users.
Context (st : Slabs.settings_t) (hash : bytes → Z) (calloc : Z → bool).

Definition no_result (m : IM unit) : IM Z := m ;; mret 0.

Definition exec (s : sys) (r : request) : IM Z :=
  match r with
  | Alloc key flags exptime nbytes => item_alloc st hash s key flags exptime nbytes
  | Get key => item_get hash key
  | Touch key exptime => item_touch hash key exptime
  | Link it => item_link st hash it
  | Remove it => no_result (item_remove it)
  | Unlink it => no_result (item_unlink hash it)
  | Update it => no_result (item_update it)
  | Replace old_it new_it => let* i := the_item old_it in item_replace st old_it new_it (hash (ITEM_key i))
  | FlushExpired => no_result (item_flush_expired hash)
  | StatsReset => no_result item_stats_reset
  | Write it data cas => no_result (on_item it (λ i, ITEM_set_cas cas (set_ITEM_data data i)))
  | StoreItem it comm cas => no_result (let* _ := store_item st hash s it comm cas in mret tt)
  | AddDelta key incr delta cas => no_result (let* _ := add_delta st hash s key incr delta cas in mret tt)
  | Tick now => no_result (modify (set_current_time now))
  | SetOldestLive t => no_result (modify (set_oldest_live t))
  | Maintain n => no_result (on_table (Assoc.maintenance_round hash calloc n))
  | Reassign src dst => no_result (let* _ := on_arena (Slabs.slabs_reassign (s_reassign_lock s) src dst) in mret tt)
  end.

(** No item with the key of [it] is in the table. *)
Definition key_absent (c : cache) (it : item) : Prop := find hash c (ITEM_key it) = Ok 0.
(** The item under a key, if there is one, was used within the last three hours. *)
Definition recently_used (c : cache) (key : bytes) : Prop :=
  ∀ x o, find hash c key = Ok x → heap_of c !! x = Some o → current_time c ≤ u32 (time o + TAIL_REPAIR_TIME).

(** What the caller of an operation that allocates sees to. *)
Definition may_allocate (s : sys) (R : Z → Z) (c : cache) : Prop :=
  users_ok R c ∧ ∀ id, SlabsSafety.system_ok st (s_env s) (the_pool c) id.
Definition may_store (s : sys) (R : Z → Z) (c : cache) (it : Z) (comm : nread) : Prop :=
  (∀ x, R x + 3 < 2 ^ 16) ∧ may_allocate s R c ∧ 1 ≤ R it ∧
  ∃ i, heap_of c !! it = Some i ∧ has_flag ITEM_LINKED i = false ∧
    (StoreOps.concatenates comm = true → recently_used c (ITEM_key i)).

(** What the callers see to: they pass items to which they hold a reference, link or
    store an item only if it is not linked, and link it only if no other one has its key;
    they do not hold references for hours, and append to or count with items that were used
    within three hours only; keys and values have a legal length. *)
Definition requires (s : sys) (R : Z → Z) (c : cache) (r : request) : Prop :=
  (∀ x, R x + 2 < 2 ^ 16) ∧
  match r with
  | Alloc key flags exptime nbytes =>
      users_ok R c ∧ (∀ id, SlabsSafety.system_ok st (s_env s) (the_pool c) id) ∧ alloc_args key flags nbytes
  | Link it => 1 ≤ R it ∧ ∃ i, heap_of c !! it = Some i ∧ has_flag ITEM_LINKED i = false ∧ key_absent c i
  | Remove it | Unlink it | Update it => 1 ≤ R it
  | Write it data _ => 1 ≤ R it ∧ ∃ i, heap_of c !! it = Some i ∧ zlen data = nbytes i
  | Replace old_it new_it => 1 ≤ R old_it ∧ 1 ≤ R new_it ∧ ∃ i j, heap_of c !! old_it = Some i ∧ heap_of c !! new_it = Some j ∧
      has_flag ITEM_LINKED j = false ∧ ITEM_key j = ITEM_key i ∧ (has_flag ITEM_LINKED i = true ∨ key_absent c j)
  | StoreItem it comm _ => may_store s R c it comm
  | AddDelta key _ _ _ => (∀ x, R x + 3 < 2 ^ 16) ∧ may_allocate s R c ∧ recently_used c key
  | Tick now => current_time c ≤ now
  | _ => True
  end.

(** The references afterwards, when the operation has returned [ret]. *)
Definition refs_after (r : request) (ret : Z) (R : Z → Z) : Z → Z :=
  match r with
  | Alloc _ _ _ _ | Get _ | Touch _ _ => if ret =? 0 then R else <[ret := R ret + 1]> R
  | Remove it => <[it := R it - 1]> R
  | _ => R
  end.

Inductive step : cache * (Z → Z) → cache * (Z → Z) → Prop :=
| step_request s r ret c c' R :
    requires s R c r → exec s r c = Ret ret c' → step (c, R) (c', refs_after r ret R).

(** ** Every request keeps the invariant *)

Context (largest : Z) (sz : Z → Z) (Holds : Slabs.arena → gmap Z Z → Prop) `{HA : !ChunkAllocator st largest sz Holds}.
Context (Hlargest : largest < LARGEST_ID) (Hcalloc : ∀ p, 32 < p → calloc p = false).

Abbreviation cache_ok := (cache_ok hash sz Holds).

(** The maintenance of the table changes links only. *)
Lemma cache_ok_table D H L m R c t :
  cache_ok D H L m R c → AssocTheorems.holds hash t m → AssocTheorems.same_items (heap_of c) (Assoc.heap t) →
  cache_ok D H L m R (set_tbl t c).
Proof.
  intros Hok Ht Hs. pose proof (same_items_cores _ _ Hs) as Hc.
  assert (∀ x, linked_at (Assoc.heap t) x = linked_at (heap_of c) x ∧ time_at (Assoc.heap t) x = time_at (heap_of c) x ∧
    ∀ k, has_key (Assoc.heap t) x k ↔ has_key (heap_of c) x k) as Hsame by (intros x; apply core_same, Hc).
  assert (heap_of (set_tbl t c) = Assoc.heap t) as Hheap by done.
  split; rewrite ?Hheap; try apply Hok; try done.
  - apply (ca_frame _ H _ (co_holds Hok)). by apply client_same_items.
  - intros id Hq. destruct (co_queues Hok id Hq) as [Qd Qh Qt Qs]. split; try done. by eapply dlist_same_items.
  - intros id x Hq. rewrite (co_linked Hok) by done. by destruct (Hsame x) as (-> & _).
  - intros k x. rewrite (co_index Hok). by destruct (Hsame x) as (-> & _ & ->).
  - intros x id Hx Hd. destruct (co_items Hok x id Hx Hd) as (it & Hit & Hio).
    destruct (same_items_item _ _ _ _ Hs Hit) as [v Hv]. eexists. split; [exact Hv|]. by destruct Hio.
  - intros x Hx. destruct (co_limbo Hok x Hx) as [Hl Hh]. by destruct (Hsame x) as (-> & _).
  - intros id Hq. eapply newest_first_same; [by apply Hok|]. intros x _. apply Hsame.
  - intros id x Hq Hx. destruct (Hsame x) as (_ & -> & _). by apply (co_times Hok id).
Qed.

Lemma maintenance_ok H L m R c n : cache_ok ∅ H L m R c →
  ∃ c', on_table (Assoc.maintenance_round hash calloc n) c = Ret tt c' ∧ cache_ok ∅ H L m R c'.
Proof.
  intros Hok. destruct (co_table Hok) as [La Hr].
  destruct (AssocTheorems.maintenance_round_spec hash calloc n (tbl c) m La Hcalloc Hr) as (t & L' & Ht & Hr' & _).
  eexists. split; [by apply run_on_table|]. apply cache_ok_table; [done|by exists L'|].
  by eapply AssocTheorems.maintenance_round_same_items.
Qed.

Lemma write_ok H L m R c x data cas i : cache_ok ∅ H L m R c → 1 ≤ R x → heap_of c !! x = Some i → zlen data = nbytes i →
  ∃ c', on_item x (λ i, ITEM_set_cas cas (set_ITEM_data data i)) c = Ret tt c' ∧ cache_ok ∅ H L m R c'.
Proof.
  intros Hok HR Hi Hdata. destruct (referenced Hok HR) as (Hd & id & it & Hx & Hit & [I1 I2 I3 I4 I5 I6 [S1 S2 S3 S4]]).
  assert (i = it) as -> by congruence. clear Hi.
  eexists. split; [by apply run_on_item|]. destruct (ITEM_set_cas_fields cas (set_ITEM_data data it)) as (w & Hw & _).
  apply (cache_ok_ext (L := L) (R := <[x := R x]> R) L R); [|done|fn_ext x].
  eapply (cache_ok_set Hlargest it); [done|done|done| | |done]; rewrite Hw; [by destruct it|]. intros _. by destruct it.
Qed.

Lemma touch_ok H L m R c x exptime : cache_ok ∅ H L m R c → 1 ≤ R x →
  ∃ c', on_item x (set_exptime exptime) c = Ret tt c' ∧ cache_ok ∅ H L m R c'.
Proof.
  intros Hok HR. destruct (referenced Hok HR) as (Hd & id & it & Hx & Hit & [I1 I2 I3 I4 I5 I6 I7]).
  eexists. split; [by apply run_on_item|].
  apply (cache_ok_ext (L := L) (R := <[x := R x]> R) L R); [|done|fn_ext x].
  eapply (cache_ok_set Hlargest it); [done|done|done| | |done]; [by destruct it|]. intros _. by destruct it.
Qed.

Lemma absent_index H L m R c it : cache_ok ∅ H L m R c → key_absent c it → m !! ITEM_key it = None.
Proof.
  intros Hok Ha. unfold key_absent in Ha. rewrite (find_eq _ Hok) in Ha.
  destruct (m !! ITEM_key it) as [x|] eqn:Hx; [|done]. injection Ha as Ha. cbn in Ha.
  apply (co_index Hok) in Hx as ([id Hx] & _). destruct (held_class Hlargest Hok Hx) as (_ & ? & _). done.
Qed.

(** ** Every request that is allowed ends *)

(** The outcome of a request. *)
Definition ends (s : sys) (R : Z → Z) (c : cache) (r : request) : Prop :=
  ∃ ret c' H' L' m', exec s r c = Ret ret c' ∧ cache_ok ∅ H' L' m' (refs_after r ret R) c'.

Lemma no_result_ends s r (prog : IM unit) c c' H' L' m' R :
  exec s r = no_result prog → prog c = Ret tt c' → cache_ok ∅ H' L' m' (refs_after r 0 R) c' → ends s R c r.
Proof.
  intros He Hr Hok. exists 0, c', H', L', m'. rewrite He. unfold no_result. by rewrite (M_bind_ret _ _ _ _ _ Hr).
Qed.

Lemma alloc_ends H L m R c s key flags exptime nbytes :
  cache_ok ∅ H L m R c → requires s R c (Alloc key flags exptime nbytes) → ends s R c (Alloc key flags exptime nbytes).
Proof.
  intros Hok (_ & Hu & Hsys & Ha).
  destruct (do_item_alloc_spec st hash largest sz Holds Hlargest H L m R c s key flags exptime nbytes 0 Hok Hu Hsys Ha)
    as (ret & c' & Hr & [(-> & Hok' & _)|(H' & L' & m' & id & i & Hok' & Hne & HR & _)]).
  - by exists 0, c', H, L, m.
  - exists ret, c', H', L', m'. split; [done|]. cbn. by rewrite (proj2 (Z.eqb_neq ret 0)), HR.
Qed.

(** What [do_item_get] leaves. *)
Lemma get_ok H L m R c key : cache_ok ∅ H L m R c → (∀ x, R x + 2 < 2 ^ 16) →
  ∃ ret c' H' L' m', do_item_get key (hash key) c = Ret ret c' ∧
    cache_ok ∅ H' L' m' (if ret =? 0 then R else <[ret := R ret + 1]> R) c'.
Proof.
  intros Hok Hfew. destruct (do_item_get_spec st hash largest sz Holds Hlargest H L m R c key Hok Hfew) as (ret & c' & Hr & Hc).
  destruct (m !! key) as [x|].
  - destruct Hc as (it & id & Hit & Hx & Hk & Hx0 & Hc). destruct (_ || _).
    + destruct Hc as (-> & L' & Hok' & _). by eexists 0, c', _, L', _.
    + destruct Hc as (-> & Hok' & _). exists x, c', H, L, m. by rewrite (proj2 (Z.eqb_neq x 0)).
  - destruct Hc as [-> ->]. by exists 0, c, H, L, m.
Qed.

Lemma touch_ends H L m R c s key exptime :
  cache_ok ∅ H L m R c → (∀ x, R x + 2 < 2 ^ 16) → ends s R c (Touch key exptime).
Proof.
  intros Hok Hfew. destruct (get_ok H L m R c key Hok Hfew) as (ret & c1 & H1 & L1 & m1 & Hr & Hok1).
  unfold ends. cbn [exec refs_after]. unfold item_touch, do_item_touch. rewrite (M_bind_ret _ _ _ _ _ Hr).
  destruct (Z.eqb_spec ret 0) as [->|Hne]; [by exists 0, c1, H1, L1, m1|].
  destruct (touch_ok H1 L1 m1 _ c1 ret exptime Hok1) as (c2 & Hr2 & Hok2).
  { rewrite fn_lookup_insert. pose proof (refs_nonneg ret Hok). lia. }
  rewrite (M_bind_ret _ _ _ _ _ Hr2). exists ret, c2, H1, L1, m1. split; [done|].
  by rewrite (proj2 (Z.eqb_neq ret 0)).
Qed.

Lemma link_ends H L m R c s x :
  cache_ok ∅ H L m R c → requires s R c (Link x) → ends s R c (Link x).
Proof.
  intros Hok (Hfew & HR & i & Hi & Hl & Ha). destruct (referenced Hok HR) as (Hd & id & i0 & Hx & Hi0 & Hio).
  assert (i0 = i) as -> by congruence. clear Hi0.
  destruct (do_item_link_spec Hlargest (it := i) Hok Hx Hd Hi Hl) as (c' & it' & Hr & Hok' & _); [|done| |].
  - by eapply absent_index.
  - rewrite (io_count Hio), Hl. specialize (Hfew x). lia.
  - eexists 1, c', _, _, _. split; [|exact Hok']. cbn [exec]. unfold item_link. istep. exact Hr.
Qed.

Lemma unlink_ends H L m R c s x : cache_ok ∅ H L m R c → 1 ≤ R x → ends s R c (Unlink x).
Proof.
  intros Hok HR. destruct (referenced Hok HR) as (Hd & id & i & Hx & Hi & Hio).
  destruct (has_flag ITEM_LINKED i) eqn:Hl.
  - destruct (linked_place Hlargest Hok Hx Hi Hl) as [(l1 & l2 & HL) _].
    destruct (do_item_unlink_spec Hlargest Hok Hx Hd Hi Hl HL) as (c' & Hr & Hok' & _).
    eapply no_result_ends; [reflexivity| |exact Hok']. unfold item_unlink. istep. exact Hr.
  - eapply no_result_ends; [reflexivity| |exact Hok]. unfold item_unlink, do_item_unlink, do_item_unlink_nolock. istep. istep.
    by rewrite Hl.
Qed.

Lemma replace_ends H L m R c s x y :
  cache_ok ∅ H L m R c → requires s R c (Replace x y) → ends s R c (Replace x y).
Proof.
  intros Hok (Hfew & HRx & HRy & i & j & Hi & Hj & Hl & Hk & Hcase).
  destruct (replace_ok Hlargest Hok Hfew HRx HRy Hi Hj Hl Hk) as (c' & L' & v & j' & Hr & Hok' & _).
  - destruct Hcase as [?|Ha]; [by left|right]. by eapply absent_index.
  - eexists 1, c', H, L', _. split; [|exact Hok']. cbn [exec]. istep. exact Hr.
Qed.

Lemma recently_live H L m R c key x o :
  cache_ok ∅ H L m R c → recently_used c key → StoreOps.live m c key = Some (x, o) → current_time c ≤ u32 (time o + TAIL_REPAIR_TIME).
Proof.
  intros Hok Hrec Hlive. unfold StoreOps.live in Hlive. destruct (m !! key) as [y|] eqn:Hm; [|done]. cbn in Hlive.
  destruct (heap_of c !! y) as [oy|] eqn:Hy; [|done]. cbn in Hlive. destruct (_ || _); [done|]. injection Hlive as -> ->.
  apply (Hrec x); [by rewrite (find_eq _ Hok), Hm|done].
Qed.

Lemma store_ends H L m R c s x comm cas :
  cache_ok ∅ H L m R c → may_store s R c x comm → ends s R c (StoreItem x comm cas).
Proof.
  intros Hok (Hfew & [Hu Hsys] & HR & i & Hi & Hl & Hrec).
  destruct (StoreOps.do_store_item_spec (hash := hash) Hlargest m R c s x i comm cas) as (stored & cas' & m' & c' & Hr & [(H' & L' & Hok') _ _ _ _ _]);
    [by exists H, L|done..| |].
  - intros y o Hcat Hlive. split; [done|]. split; [done|]. by eapply recently_live; [exact Hok|apply Hrec|exact Hlive].
  - eapply no_result_ends; [reflexivity| |exact Hok']. unfold store_item. rewrite M_bind_assoc. istep. by rewrite (M_bind_ret _ _ _ _ _ Hr).
Qed.

Lemma delta_ends H L m R c s key incr delta cas :
  cache_ok ∅ H L m R c → requires s R c (AddDelta key incr delta cas) → ends s R c (AddDelta key incr delta cas).
Proof.
  intros Hok (_ & Hfew & [Hu Hsys] & Hrec).
  destruct (StoreOps.do_add_delta_spec (hash := hash) Hlargest m R c s key incr delta cas) as (r & text & cas' & m' & c' & Hr & [(H' & L' & Hok') _ _ _ _ _]);
    [by exists H, L|done..| |].
  - intros y o Hlive. by eapply recently_live.
  - eapply no_result_ends; [reflexivity| |exact Hok']. unfold add_delta. by rewrite (M_bind_ret _ _ _ _ _ Hr).
Qed.

(** The reasons why a change of the other variables does not matter. *)
Lemma cache_ok_clock D H L m R c now : cache_ok D H L m R c → current_time c ≤ now → cache_ok D H L m R (set_current_time now c).
Proof.
  intros [C1 C2 C3 C4 C5 C6 C7 C8 C9 C10 C11 C12] Hn. split; try done.
  - intros id Hq. by destruct (C4 id Hq).
  - intros id x Hq Hx. specialize (C12 id x Hq Hx). cbn. unfold time_at in *. lia || (etrans; [exact C12|done]).
Qed.
Lemma cache_ok_live D H L m R c t : cache_ok D H L m R c → cache_ok D H L m R (set_oldest_live t c).
Proof. intros [C1 C2 C3 C4 C5 C6 C7 C8 C9 C10 C11 C12]. split; try done. intros id Hq. by destruct (C4 id Hq). Qed.
Lemma cache_ok_stats D H L m R c l : cache_ok D H L m R c → zlen l = LARGEST_ID → cache_ok D H L m R (set_itemstats l c).
Proof. intros [C1 C2 C3 C4 C5 C6 C7 C8 C9 C10 C11 C12] Hl. split; try done. intros id Hq. by destruct (C4 id Hq). Qed.

(** Every request that is allowed ends, and keeps the invariant. *)
Lemma exec_ok H L m R c s r : cache_ok ∅ H L m R c → requires s R c r → ends s R c r.
Proof.
  intros Hok Hreq. pose proof Hreq as [Hfew Hreq'].
  destruct r as [key flags exptime nbytes|key|key exptime|x|x|x|x|x y| | |x data cas|x comm cas|key incr delta cas|now|t|n|src dst]; cbn in Hreq'.
  - by eapply alloc_ends.
  - destruct (get_ok H L m R c key Hok Hfew) as (ret & c' & H' & L' & m' & Hr & Hok'). by exists ret, c', H', L', m'.
  - by eapply touch_ends.
  - by eapply link_ends.
  - destruct (referenced Hok Hreq') as (Hd & id & i & Hx & Hi & _).
    destruct (do_item_remove_spec Hlargest Hok Hx Hd Hi Hreq') as (c' & Hr & Hok' & _).
    by eapply no_result_ends.
  - by eapply unlink_ends.
  - destruct (referenced Hok Hreq') as (Hd & id & i & Hx & Hi & _).
    destruct (do_item_update_spec Hlargest Hok Hx Hd Hi) as (c' & L' & it' & Hr & Hok' & _). by eapply no_result_ends.
  - by eapply replace_ends.
  - destruct (do_item_flush_expired_spec st hash largest sz Holds Hlargest H L m R c Hok) as (c' & H' & L' & m' & X & Hr & Hok' & _).
    by eapply no_result_ends.
  - eapply no_result_ends; [reflexivity|reflexivity|]. by apply (cache_ok_stats ∅ H L m R).
  - destruct Hreq' as (HR & i & Hi & Hdata). destruct (write_ok H L m R c x data cas i Hok HR Hi Hdata) as (c' & Hr & Hok').
    by eapply no_result_ends.
  - by eapply store_ends.
  - by eapply delta_ends.
  - eapply no_result_ends; [reflexivity|reflexivity|]. by apply (cache_ok_clock ∅ H L m R).
  - eapply no_result_ends; [reflexivity|reflexivity|]. by apply (cache_ok_live ∅ H L m R).
  - destruct (maintenance_ok H L m R c n Hok) as (c' & Hr & Hok'). by eapply no_result_ends.
  - destruct (ca_reassign _ H (s_reassign_lock s) src dst (co_holds Hok)) as (res & pl & Hr & Hh).
    eapply no_result_ends; [reflexivity| |by eapply cache_ok_pool].
    erewrite M_bind_ret by (by apply run_on_arena). done.
Qed.

(** ** The start, and what can be reached from it *)

Lemma init_cache_ok ar power now : Holds ar ∅ → 0 ≤ power ≤ 32 →
  cache_ok ∅ ∅ (λ _, []) ∅ (λ _, 0) (item_init ar power now).
Proof.
  intros Hh Hp. split; try done.
  - by destruct ar.
  - by apply AssocTheorems.init_holds.
  - intros id Hq. unfold has_queue in Hq. split; [apply dlist_nil|..]; apply zlookup_replicate_2; lia.
  - intros id x _. rewrite lookup_empty. split; [by intros ?%elem_of_nil|by intros [? _]].
  - intros k x. rewrite !lookup_empty. split; [done|]. by intros [[? ?] _].
  - intros id _. constructor.
  - by intros id x _ Hx%elem_of_nil.
Qed.

Lemma step_ok H L m cR cR' : cache_ok ∅ H L m cR.2 cR.1 → step cR cR' → ∃ H' L' m', cache_ok ∅ H' L' m' cR'.2 cR'.1.
Proof.
  intros Hok Hs. destruct Hs as [s r ret c c' R Hreq Hr]. cbn in *.
  destruct (exec_ok H L m R c s r Hok Hreq) as (ret' & c'' & H' & L' & m' & Hr' & Hok').
  rewrite Hr in Hr'. injection Hr' as <- <-. by exists H', L', m'.
Qed.

Lemma steps_ok H L m cR cR' : cache_ok ∅ H L m cR.2 cR.1 → rtc step cR cR' → ∃ H' L' m', cache_ok ∅ H' L' m' cR'.2 cR'.1.
Proof.
  intros Hok Hs. revert H L m Hok. induction Hs as [|a b d Hab _ IH]; intros H L m Hok; [by exists H, L, m|].
  destruct (step_ok H L m a b Hok Hab) as (H' & L' & m' & Hok'). by apply (IH H' L' m').
Qed.

End Users.

(** The states of a server that has been started with the settings [st]: its classes have
    a queue, and its hash table at most [2 ^ 32] buckets; [calloc] finds no memory for more
    (which would be 32 GB). *)
Definition reachable (st : Slabs.settings_t) (hash : bytes → Z) (calloc : Z → bool) (c : cache) (R : Z → Z) : Prop :=
  SlabsTheorems.settings_ok st ∧ (∀ p, 32 < p → calloc p = false) ∧
  ∃ limit prealloc base ei im ar power now,
    (prealloc = true → 0 < base) ∧ Slabs.slabs_init st limit prealloc base ei im = Ok ar ∧
    Slabs.power_largest (Slabs.the_pool ar) < LARGEST_ID ∧ 0 ≤ power ≤ 32 ∧
    rtc (step st hash calloc) (item_init ar power now, λ _, 0) (c, R).

(** What a server can rely on: an allocator, and the invariant. *)
Record server_ok (st : Slabs.settings_t) (hash : bytes → Z) (largest : Z) (sz : Z → Z)
    (Holds : Slabs.arena → gmap Z Z → Prop) (c : cache) (R : Z → Z) : Prop := {
  sv_allocator : ChunkAllocator st largest sz Holds;
  sv_largest : largest < LARGEST_ID;
  sv_cache : ∃ H L m, cache_ok hash sz Holds ∅ H L m R c
}.

Lemma reachable_ok st hash calloc c R : reachable st hash calloc c R → ∃ largest sz Holds, server_ok st hash largest sz Holds c R.
Proof.
  intros (Hst & Hcalloc & limit & prealloc & base & ei & im & ar & power & now & Hbase & Hi & Hl & Hp & Hs).
  destruct (slabs_init_holding st limit prealloc base ei im ar Hst Hbase Hi) as (sz & ps & Hsizes & Hh).
  pose proof (slab_allocator st _ sz ps Hsizes) as HA.
  exists (Slabs.power_largest (Slabs.the_pool ar)), sz, (Holding st (Slabs.power_largest (Slabs.the_pool ar)) sz ps).
  split; [done|done|].
  eapply (steps_ok st hash calloc) in Hs; [exact Hs|done..|]. by apply init_cache_ok.
Qed.

End ItemsRequests.
