(* ===== verification/ItemsTheorems.v ===== *)
(** * The items of memcached in use

    In every state that the requests of [ItemsRequests] can reach each operation that its
    callers may use ends, and the references are counted exactly; an allocation evicts no
    item that is in use, a lookup does not return an expired one, and a flush removes
    exactly the items that are young enough. *)

From S2P Require Import Prelude Bytes CStrings ItemHeap Assoc AssocTheorems Slabs SlabsTheorems SlabsAlloc SlabsSafety ChunkAllocator Items ItemsInv ItemsOps ItemsAlloc ItemsRefs ItemsFlush ItemsRequests.
From Stdlib Require Import ZArith Lia Sorted.
From stdpp Require Import base gmap list fin_maps functions sorting relations.

Local Open Scope Z_scope.

Module ItemsTheorems.
Import ItemHeap ChunkAllocator Items ItemsInv ItemsOps ItemsAlloc ItemsRefs ItemsFlush ItemsRequests.

Section Server.
Context (st : Slabs.settings_t) (hash : bytes → Z) (largest : Z) (sz : Z → Z).
Context (Holds : Slabs.arena → gmap Z Z → Prop) `{HA : !ChunkAllocator st largest sz Holds}.
Context (Hlargest : largest < LARGEST_ID).

Abbreviation cache_ok := (cache_ok hash sz Holds).

Lemma found_item H L m R c k x :
  cache_ok ∅ H L m R c → m !! k = Some x →
  ∃ id it, H !! x = Some id ∧ has_queue id ∧ x ∈ L id ∧ x ≠ 0 ∧ heap_of c !! x = Some it ∧ ITEM_key it = k ∧
    has_flag ITEM_LINKED it = true ∧ item_ok sz (R x) id it.
Proof.
  intros Hok Hk. apply (co_index Hok) in Hk as ([id Hx] & Hl & Hk). destruct (held_class Hlargest Hok Hx) as (Hq & Hx0 & _).
  destruct (co_items Hok x id Hx) as (it & Hit & Hio); [set_solver|]. exists id, it. do 2 (split; [done|]).
  split; [by apply (co_linked Hok)|]. do 2 (split; [done|]). apply AssocTheorems.has_key_alt in Hk as (it' & Hit' & <-).
  assert (it' = it) as -> by congruence. split; [done|]. split; [|done]. unfold linked_at in Hl. by rewrite Hit in Hl.
Qed.

(** The queues and the table describe the same items. *)
Record consistent (c : cache) (R : Z → Z) (L : Z → list Z) : Prop := {
  cs_queue : ∀ id, has_queue id → queue_ok c id (L id) ∧ newest_first (heap_of c) (L id);
  cs_linked : ∀ id x, has_queue id → x ∈ L id →
    ∃ it, heap_of c !! x = Some it ∧ has_flag ITEM_LINKED it = true ∧ slabs_clsid it = id ∧ refcount it = R x + 1 ∧
      find hash c (ITEM_key it) = Ok x;
  cs_found : ∀ k, ∃ x, find hash c k = Ok x ∧
    (x ≠ 0 → ∃ id it, has_queue id ∧ x ∈ L id ∧ heap_of c !! x = Some it ∧ ITEM_key it = k)
}.

Lemma cache_consistent H L m R c : cache_ok ∅ H L m R c → consistent c R L.
Proof.
  intros Hok. split.
  - intros id Hq. split; by apply Hok.
  - intros id x Hq Hx. pose proof (proj1 (co_linked Hok id x Hq) Hx) as [Hh Hl].
    destruct (co_items Hok x id Hh) as (it & Hit & Hio); [set_solver|]. exists it. split; [done|].
    assert (has_flag ITEM_LINKED it = true) as Hli by (unfold linked_at in Hl; by rewrite Hit in Hl).
    split; [done|]. split; [apply (io_clsid Hio)|]. split; [rewrite (io_count Hio), Hli; done|].
    rewrite (find_eq _ Hok). destruct (linked_place Hlargest Hok Hh Hit Hli) as [_ ->]. done.
  - intros k. rewrite (find_eq _ Hok). eexists. split; [done|]. destruct (m !! k) as [x|] eqn:Hk; [|done]. intros _.
    destruct (found_item H L m R c k x Hok Hk) as (id & it & _ & Hq & Hx & _ & Hit & Hki & _). by exists id, it.
Qed.

(** An allocation, in terms of what can be found. *)
Lemma alloc_finds H L m R c s key flags exptime nbytes :
  cache_ok ∅ H L m R c → requires st hash s R c (Alloc key flags exptime nbytes) →
  ∃ ret c', item_alloc st hash s key flags exptime nbytes c = Ret ret c' ∧
    (∀ y, 1 ≤ R y → core_at (heap_of c') y = core_at (heap_of c) y) ∧
    if ret =? 0 then ∀ k, find hash c' k = find hash c k
    else R ret = 0 ∧ (∃ it, heap_of c' !! ret = Some it ∧ ITEM_key it = key ∧ ItemHeap.nbytes it = nbytes ∧
        ItemHeap.exptime it = exptime ∧ refcount it = 1 ∧ has_flag ITEM_LINKED it = false) ∧
      ∀ k, find hash c' k = find hash c k ∨ find hash c k = Ok ret ∧ find hash c' k = Ok 0.
Proof.
  intros Hok (_ & Hu & Hsys & Ha).
  destruct (do_item_alloc_spec st hash largest sz Holds Hlargest H L m R c s key flags exptime nbytes 0 Hok Hu Hsys Ha)
    as (ret & c' & Hr & Hc). exists ret, c'. split; [done|].
  destruct Hc as [(-> & Hok' & Hf)|(H' & L' & m' & id & i & Hok' & Hne & HR & Hx & HH & Hf & Hm & Hi)].
  - split; [|intros k; by rewrite (find_eq _ Hok), (find_eq _ Hok')]. intros y HRy.
    destruct (referenced Hok HRy) as (_ & id & it & Hy & _).
    apply (fr_core _ _ _ _ Hf); [by apply not_elem_of_nil|by eexists].
  - rewrite (proj2 (Z.eqb_neq ret 0)) by done. split; [|split; [done|split]].
    + intros y HRy. destruct (referenced Hok HRy) as (_ & jd & it & Hy & _).
      assert (y ≠ ret) as Hyr by (intros ->; lia).
      apply (fr_core _ _ _ _ Hf); [by rewrite list_elem_of_singleton|]. rewrite HH by done. by eexists.
    + eexists. split; [exact Hi|]. do 4 (split; [done|]). unfold has_flag, init_item. cbn. by destruct (Slabs.use_cas st).
    + intros k. rewrite (find_eq _ Hok), (find_eq _ Hok'). destruct Hm as [->|(k' & Hk' & ->)]; [by left|].
      destruct (decide (k = k')) as [->|Hkk]; [right; by rewrite Hk', lookup_delete_eq|left].
      by rewrite lookup_delete_ne.
Qed.

(** A lookup. *)
Lemma get_finds H L m R c key :
  cache_ok ∅ H L m R c → (∀ x, R x + 2 < 2 ^ 16) →
  ∃ ret c' x, item_get hash key c = Ret ret c' ∧ find hash c key = Ok x ∧
    (∀ k, k ≠ key → find hash c' k = find hash c k) ∧
    if x =? 0 then ret = 0 ∧ c' = c
    else ∃ it, heap_of c !! x = Some it ∧ ITEM_key it = key ∧
      if being_moved (the_pool c) x || expired (current_time c) (oldest_live c) it
      then ret = 0 ∧ find hash c' key = Ok 0
      else ret = x ∧ find hash c' key = Ok x ∧ heap_of c' !! x = Some (add_flag ITEM_FETCHED (refcount_incr it)).
Proof.
  intros Hok Hfew. destruct (do_item_get_spec st hash largest sz Holds Hlargest H L m R c key Hok Hfew) as (ret & c' & Hr & Hc).
  exists ret, c', (default 0 (m !! key)). split; [done|]. split; [by rewrite (find_eq _ Hok)|].
  destruct (m !! key) as [x|] eqn:Hm; cbn [default from_option Datatypes.id].
  - destruct Hc as (it & id & Hit & Hx & Hk & Hx0 & Hc). rewrite (proj2 (Z.eqb_neq x 0)) by done. destruct (_ || _) eqn:Hd.
    + destruct Hc as (-> & L' & Hok' & _). split.
      * intros k Hne. rewrite (find_eq _ Hok), (find_eq _ Hok'). by rewrite lookup_delete_ne.
      * exists it. rewrite Hd. split; [done|]. split; [done|]. split; [done|]. by rewrite (find_eq _ Hok'), lookup_delete_eq.
    + destruct Hc as (-> & Hok' & _ & Hit' & _). split; [intros k _; by rewrite (find_eq _ Hok), (find_eq _ Hok')|].
      exists it. rewrite Hd. split; [done|]. split; [done|]. split; [done|]. by rewrite (find_eq _ Hok'), Hm.
  - destruct Hc as [-> ->]. done.
Qed.

(** A flush. *)
Lemma flush_finds H L m R c :
  cache_ok ∅ H L m R c →
  ∃ c', item_flush_expired hash c = Ret tt c' ∧ ∀ k, ∃ x, find hash c k = Ok x ∧
    find hash c' k = Ok (if negb (oldest_live c =? 0) && (oldest_live c <=? time_at (heap_of c) x) then 0 else x).
Proof.
  intros Hok. destruct (do_item_flush_expired_spec st hash largest sz Holds Hlargest H L m R c Hok)
    as (c' & H' & L' & m' & X & Hr & Hok' & [K N C I F] & Hold & Hnone).
  exists c'. split; [done|]. intros k. exists (default 0 (m !! k)). split; [by apply (find_eq _ Hok)|]. rewrite (find_eq _ Hok').
  destruct (Z.eqb_spec (oldest_live c) 0) as [Hz|Hz]; cbn [negb andb].
  - rewrite (Hnone Hz) in I. f_equal. f_equal. apply option_eq. intros x. rewrite I. split; [by intros [? _]|].
    intros ?. split; [done|by apply not_elem_of_nil].
  - destruct (m' !! k) as [x|] eqn:Hk'.
    + pose proof Hk' as [Hk HxX]%I. rewrite Hk. cbn [default from_option Datatypes.id].
      pose proof Hk' as (Hs & _)%(co_index Hok'). pose proof (Hold Hz k x Hk') as Ht.
      destruct (core_same _ _ x (F.(fr_core _ _ _ _) x HxX Hs)) as (_ & Htx & _). rewrite Htx in Ht.
      by rewrite (proj2 (Z.leb_gt _ _) Ht).
    + destruct (m !! k) as [x|] eqn:Hk; cbn [default from_option Datatypes.id]; [|by destruct (_ <=? _)].
      destruct (decide (x ∈ X)) as [HxX|HxX]; [by rewrite (proj2 (Z.leb_le _ _) (N x HxX))|].
      assert (m' !! k = Some x) by (by apply I). congruence.
Qed.

End Server.

(** ** The theorems *)

(** C15: The safety of the items of memcached ([items.c], with the hash table and the slab
    allocator below).  In every state that requests of users have reached since the start -
    with the clock, the growth of the table and the requests for pages in between -
    every request that its caller may make ends: no assertion fails, and no memory is used
    that is not an item.  An item has as many references as its users hold, and one for
    the table when it is linked; and the queues of the classes, each from the latest to the
    oldest item, and the table hold the same items. *)
Theorem items_safe (st : Slabs.settings_t) (hash : bytes → Z) (calloc : Z → bool) (c : cache) (R : Z → Z)
  (Hreach : reachable st hash calloc c R) :
  (∀ s r, requires st hash s R c r → ∃ ret c', exec st hash calloc s r c = Ret ret c') ∧
  (∀ x, 1 ≤ R x → ∃ it, heap_of c !! x = Some it ∧
     refcount it = R x + (if has_flag ITEM_LINKED it then 1 else 0)) ∧
  ∃ L, consistent hash c R L.
Proof.
  pose proof Hreach as (_ & Hcalloc & _).
  destruct (reachable_ok _ _ _ _ _ Hreach) as (largest & sz & Holds & [HA Hl (H & L & m & Hok)]). split; [|split].
  - intros s r Hreq. destruct (exec_ok st hash calloc largest sz Holds Hl Hcalloc H L m R c s r Hok Hreq)
      as (ret & c' & _ & _ & _ & Hr & _). by exists ret, c'.
  - intros x HR. destruct (referenced Hok HR) as (_ & id & it & _ & Hit & Hio).
    exists it. split; [done|]. apply (io_count Hio).
  - exists L. by eapply cache_consistent.
Qed.



(** C19: [item_flush_expired], which reads each queue only up to the first item that is too
    old, removes from the table exactly the items that were last used at [oldest_live] or
    later, whatever was done before. *)
Theorem flush_expired_exact (st : Slabs.settings_t) (hash : bytes → Z) (calloc : Z → bool) (c : cache) (R : Z → Z)
  (Hreach : reachable st hash calloc c R) :
  ∃ c', item_flush_expired hash c = Ret tt c' ∧ ∀ k, ∃ x, find hash c k = Ok x ∧
    find hash c' k = Ok (if negb (oldest_live c =? 0) && (oldest_live c <=? time_at (heap_of c) x) then 0 else x).
Proof.
  destruct (reachable_ok _ _ _ _ _ Hreach) as (largest & sz & Holds & [HA Hl (H & L & m & Hok)]).
  by eapply flush_finds.
Qed.

(** *** An example: an item is allocated and linked, and everything is flushed *)

Definition small_hash : bytes → Z := zlen.
Definition small_calloc (p : Z) : bool := p <=? 32.
Definition small_sys : sys := mkSys (Slabs.mkEnv 4096 true) (λ _, true) true [] 0 (λ _, []).
Definition run_request (r : request) (c : cache) : cache :=
  match exec SlabsSafety.small_settings small_hash small_calloc small_sys r c with Ret _ c' => c' | _ => c end.

Definition at_start : cache := item_init SlabsSafety.start 2 100.
Definition new_item : request := Alloc [107] 0 0 2.
Definition allocated : cache := run_request new_item at_start.
Definition linked : cache := run_request (Link 4960) allocated.
Definition flushing : cache := run_request (SetOldestLive 50) linked.
Definition one_reference : Z → Z := <[4960 := 1]> (λ _, 0).

Lemma example_runs :
  exec SlabsSafety.small_settings small_hash small_calloc small_sys new_item at_start = Ret 4960 allocated ∧
  exec SlabsSafety.small_settings small_hash small_calloc small_sys (Link 4960) allocated = Ret 1 linked ∧
  exec SlabsSafety.small_settings small_hash small_calloc small_sys (SetOldestLive 50) linked = Ret 0 flushing.
Proof. vm_compute. split_and!; reflexivity. Qed.

Lemma allocated_item :
  match heap_of allocated !! 4960 with
  | Some i => has_flag ITEM_LINKED i = false ∧ find small_hash allocated (ITEM_key i) = Ok 0
  | None => False
  end.
Proof. vm_compute. split; reflexivity. Qed.

Lemma start_system_ok id : SlabsSafety.system_ok SlabsSafety.small_settings (s_env small_sys) (the_pool at_start) id.
Proof.
  split.
  - intros _ _. split; [apply Z.ltb_lt; reflexivity|]. intros b j _ Hb. by apply SlabsSafety.start_no_pages in Hb.
  - intros p Hp. assert (forallb (λ p, Slabs.slabs p <? 2 ^ 31) (Slabs.slabclass (the_pool at_start)) = true) as Hall
      by (vm_compute; reflexivity).
    rewrite forallb_forall in Hall. unfold zlookup in Hp. destruct (0 <=? id); [|done].
    by apply list_elem_of_lookup_2, list_elem_of_In, Hall, Z.ltb_lt in Hp.
Qed.

Lemma one_reference_few x : one_reference x + 2 < 2 ^ 16.
Proof. unfold one_reference. revert x. refine (λ x, _). destruct (decide (x = 4960)) as [->|]; [by rewrite fn_lookup_insert|by rewrite fn_lookup_insert_ne]. Qed.
Lemma one_reference_at : one_reference 4960 = 1.
Proof. unfold one_reference. by rewrite fn_lookup_insert. Qed.

Lemma new_item_allowed : requires SlabsSafety.small_settings small_hash small_sys (λ _, 0) at_start new_item.
Proof. split; [done|]. split; [split; [done|lia]|]. split; [apply start_system_ok|]. split; [done|lia|lia]. Qed.

Lemma link_allowed : requires SlabsSafety.small_settings small_hash small_sys one_reference allocated (Link 4960).
Proof.
  split; [apply one_reference_few|]. split; [by rewrite one_reference_at|]. pose proof allocated_item as Hi.
  destruct (heap_of allocated !! 4960) as [i|]; [|by destruct Hi]. exists i. split; [done|apply Hi].
Qed.

Lemma example_reachable c R :
  rtc (step SlabsSafety.small_settings small_hash small_calloc) (at_start, λ _, 0) (c, R) →
  reachable SlabsSafety.small_settings small_hash small_calloc c R.
Proof.
  intros Hs. split; [apply SlabsSafety.small_settings_ok|]. split; [intros p Hp; apply Z.leb_gt; lia|].
  exists 65536, false, 0, (λ _, Slabs.mkEnv 0 true), None, SlabsSafety.start, 2, 100.
  split; [done|]. split; [vm_compute; reflexivity|]. split; [apply Z.ltb_lt; vm_compute; reflexivity|]. split; [lia|exact Hs].
Qed.

Lemma linked_steps : rtc (step SlabsSafety.small_settings small_hash small_calloc) (at_start, λ _, 0) (linked, one_reference).
Proof.
  destruct example_runs as (H1 & H2 & _).
  eapply rtc_l; [exact (step_request _ _ _ _ _ _ _ _ _ new_item_allowed H1)|]. apply rtc_once.
  exact (step_request _ _ _ _ _ _ _ _ _ link_allowed H2).
Qed.
Lemma linked_reachable : reachable SlabsSafety.small_settings small_hash small_calloc linked one_reference.
Proof. apply example_reachable, linked_steps. Qed.
Lemma flushing_reachable : reachable SlabsSafety.small_settings small_hash small_calloc flushing one_reference.
Proof.
  destruct example_runs as (_ & _ & H3). apply example_reachable. eapply rtc_r; [exact linked_steps|].
  refine (step_request _ _ _ _ _ _ _ _ _ _ H3). split; [apply one_reference_few|done].
Qed.
Lemma start_reachable : reachable SlabsSafety.small_settings small_hash small_calloc at_start (λ _, 0).
Proof. apply example_reachable. reflexivity. Qed.

Example items_safe_witness :
  ∃ it, heap_of linked !! 4960 = Some it ∧ refcount it = one_reference 4960 + (if has_flag ITEM_LINKED it then 1 else 0).
Proof. apply (items_safe _ _ _ _ _ linked_reachable). rewrite one_reference_at. lia. Defined.



Lemma flushing_finds : find small_hash flushing [107] = Ok 4960 ∧
  negb (oldest_live flushing =? 0) && (oldest_live flushing <=? time_at (heap_of flushing) 4960) = true.
Proof. vm_compute. split; reflexivity. Qed.

Example flush_expired_exact_witness :
  find small_hash flushing [107] = Ok 4960 ∧
  ∃ c', item_flush_expired small_hash flushing = Ret tt c' ∧ find small_hash c' [107] = Ok 0.
Proof.
  destruct flushing_finds as [Hf Ht].
  destruct (flush_expired_exact _ _ _ _ _ flushing_reachable) as (c' & Hr & Hk). destruct (Hk [107]) as (x & Hx & Hx').
  split; [exact Hf|]. exists c'. split; [exact Hr|]. rewrite Hf in Hx. injection Hx as <-. rewrite Ht in Hx'. exact Hx'.
Defined.

(** *** Tail repair

    The condition on the users that they hold no reference to an item for three hours after
    its last use ([users_ok]) is needed: an allocation that meets such an item at the end
    of the queue takes it for leaked, frees it, and here even returns its chunk, to which
    the first user still holds a reference. *)
Definition three_hours_later : cache := run_request (Tick (100 + TAIL_REPAIR_TIME + 1)) linked.

Lemma tail_repair_reuses_item_in_use :
  match item_alloc SlabsSafety.small_settings small_hash small_sys [108] 0 0 2 three_hours_later with
  | Ret ret _ => ret = 4960 | _ => False
  end.
Proof. vm_compute. reflexivity. Qed.

End ItemsTheorems.
