(* ===== verification/StoreTheorems.v ===== *)
(** * Storing and counting in memcached

    What [store_item] and [add_delta] answer and leave in the table, in every state that the
    requests of [ItemsRequests] can reach; and what goes wrong when the item under the key
    was not used for three hours. *)

From S2P Require Import Prelude Bytes CStrings McUtil ItemHeap Assoc Slabs SlabsSafety ChunkAllocator Items ItemsInv ItemsOps ItemsAlloc ItemsRefs Store StoreOps ItemsRequests ItemsTheorems.
From Stdlib Require Import ZArith Lia.
From stdpp Require Import base gmap list fin_maps functions relations.

Local Open Scope Z_scope.

Module StoreTheorems.
Import ItemHeap ChunkAllocator Items ItemsInv ItemsOps ItemsAlloc ItemsRefs Store StoreOps ItemsRequests ItemsTheorems.

(** ** What a client sees under a key *)

(** The item that a lookup would return, with its place. *)
Definition found_live (hash : bytes → Z) (c : cache) (key : bytes) : option (Z * item) :=
  match find hash c key with
  | Ok x => if x =? 0 then None else
      it ← heap_of c !! x;
      if being_moved (the_pool c) x || expired (current_time c) (oldest_live c) it then None else Some (x, it)
  | _ => None
  end.

(** The value, flags and expiration time under a key; 0 is the place of no item. *)
Definition holds_value (hash : bytes → Z) (c : cache) (key : bytes) (v : bytes * Z * Z) (number : Z) : Prop :=
  ∃ y j, find hash c key = Ok y ∧ y ≠ 0 ∧ heap_of c !! y = Some j ∧ value_of j = v ∧ ITEM_get_cas j = number.

(** A command on [key] leaves the other keys alone, but for one whose item an allocation may
    evict, if nobody uses it. *)
Definition others_kept (hash : bytes → Z) (R : Z → Z) (c c' : cache) (key : bytes) : Prop :=
  ∀ k, k ≠ key →
    (find hash c' k = find hash c k ∧ ∀ y, find hash c k = Ok y → y ≠ 0 → core_at (heap_of c') y = core_at (heap_of c) y) ∨
    find hash c' k = Ok 0 ∧ ∃ y, find hash c k = Ok y ∧ R y = 0.

(** What is refused leaves the value under the key. *)
Definition value_kept (hash : bytes → Z) (c c' : cache) (key : bytes) : Prop :=
  find hash c' key = Ok (default 0 (fst <$> found_live hash c key)) ∧
  ∀ x o, found_live hash c key = Some (x, o) → ∃ j, heap_of c' !! x = Some j ∧ value_of j = value_of o.

Section Server.
Context {st : Slabs.settings_t} {hash : bytes → Z} {largest : Z} {sz : Z → Z}.
Context {Holds : Slabs.arena → gmap Z Z → Prop} `{HA : !ChunkAllocator st largest sz Holds}.
Context (Hlargest : largest < LARGEST_ID).

Abbreviation ok := (ok (hash := hash) (sz := sz) (Holds := Holds)).

Lemma ok_find m R c k : ok m R c → find hash c k = Ok (default 0 (m !! k)).
Proof. intros (H & L & Hok). by eapply find_eq. Qed.

Lemma ok_find_some m R c k y : ok m R c → find hash c k = Ok y → y ≠ 0 → m !! k = Some y.
Proof. intros Hok Hf Hy. rewrite (ok_find m R c k Hok) in Hf. destruct (m !! k); [by injection Hf as ->|]. injection Hf as <-. done. Qed.

Lemma found_live_eq m R c k : ok m R c → found_live hash c k = live m c k.
Proof.
  intros Hok. unfold found_live, live. rewrite (ok_find m R c k Hok). destruct (m !! k) as [x|] eqn:Hk; [|done].
  destruct (ok_linked Hlargest m R c k x Hok Hk) as (it & _ & _ & _ & Hx0 & _). cbn. by rewrite (proj2 (Z.eqb_neq x 0)).
Qed.

(** The other keys, from the description of the table. *)
Lemma others_kept_from m m' R c c' key it X :
  ok m R c → ok m' R c' → kept X m' R c c' →
  (∀ y, y ∈ X → y = it ∨ y ∈ indexed m key ∨ y ∈ indexed m' key) →
  (∀ k, m !! k = Some it → k = key) →
  (∀ k, k ≠ key → m' !! k = m !! k ∨ m' !! k = None ∧ ∃ y, m !! k = Some y ∧ R y = 0) →
  others_kept hash R c c' key.
Proof.
  intros Hok Hok' Hk HX Hit Ho k Hne. rewrite (ok_find m' R c' k Hok'), (ok_find m R c k Hok).
  destruct (Ho k Hne) as [He|[Hn (y & Hy & HR)]]; [left|right].
  - rewrite He. split; [done|]. intros y Hy Hy0. destruct (m !! k) as [y'|] eqn:Hm; [|by injection Hy as <-]. cbn in Hy. injection Hy as ->.
    apply (kp_core _ _ _ _ _ Hk); [|right; by exists k]. intros Hin%HX. rewrite !elem_of_indexed in Hin.
    assert (∀ m0 c0, ok m0 R c0 → m0 !! k = Some y → m0 !! key = Some y → False) as Hinj.
    { intros m0 c0 Hok0 H1 H2. apply Hne. destruct (ok_linked Hlargest m0 R c0 k y Hok0 H1) as (i1 & Hi1 & <- & _).
      destruct (ok_linked Hlargest m0 R c0 key y Hok0 H2) as (i2 & Hi2 & <- & _). congruence. }
    destruct Hin as [->|[Hin|Hin]]; [by apply Hne, Hit|by eapply (Hinj m)|eapply (Hinj m'); [done|by rewrite He|done]].
  - rewrite Hn. split; [done|]. exists y. by rewrite Hy.
Qed.

(** *** [store_item] *)

Lemma store_item_finds m R c s it i comm cas :
  ok m R c → may_store st hash s R c it comm → heap_of c !! it = Some i →
  let key := ITEM_key i in let old := snd <$> found_live hash c key in
  ∃ stored cas' c', store_item st hash s it comm cas c = Ret (stored, cas') c' ∧
    (stored = store_result comm i old ∨ concatenates comm = true ∧ stored = NOT_STORED) ∧
    (stored = STORED → holds_value hash c' key (stored_value comm i old) cas') ∧
    (stored ≠ STORED → cas' = cas ∧ value_kept hash c c' key) ∧
    others_kept hash R c c' key.
Proof.
  intros Hok (Hfew & [Hu Hsys] & HR & i0 & Hi0 & Hl & Hrec) Hi key old. assert (i0 = i) as -> by congruence. clear Hi0.
  destruct (do_store_item_spec (hash := hash) Hlargest m R c s it i comm cas) as (stored & cas' & m' & c' & Hr & Hout); try done.
  { intros x o Hcat Hlive. split; [done|]. split; [done|]. destruct Hok as (H & L & Hok). by eapply recently_live; [exact Hok|apply Hrec|exact Hlive]. }
  exists stored, cas', c'. split; [unfold store_item; by istep|]. unfold old, value_kept. rewrite (found_live_eq m R c _ Hok).
  destruct Hout as [Hok' Hk Hres Hst Href Hoth]. fold key in Hk, Hres, Hst, Href, Hoth |- *.
  split; [done|]. split; [|split; [|]].
  - intros Hs. destruct (Hst Hs) as (y & j & Hy & Hj & Hv & Hc). exists y, j. rewrite (ok_find m' R c' key Hok'), Hy.
    split; [done|]. split; [|done]. by destruct (ok_linked Hlargest m' R c' key y Hok' Hy) as (_ & _ & _ & _ & ? & _).
  - intros Hs. destruct (Href Hs) as (Hc & Hm & Hv). rewrite (ok_find m' R c' key Hok'), Hm. done.
  - eapply (others_kept_from m m' R c c' key it); [done|done|exact Hk| | |].
    + intros y. rewrite elem_of_cons, elem_of_app. tauto.
    + intros k Hmk. destruct (ok_linked Hlargest m R c k it Hok Hmk) as (i1 & Hi1 & _ & Hl1 & _). congruence.
    + intros k Hne. destruct (Hoth k Hne) as [?|(_ & ? & ?)]; [by left|by right].
Qed.

(** *** [add_delta] *)

Lemma add_delta_finds m R c s key incr delta cas :
  ok m R c → requires st hash s R c (AddDelta key incr delta cas) →
  ∃ r text cas' c', add_delta st hash s key incr delta cas c = Ret (r, text, cas') c' ∧
    match found_live hash c key with
    | None => r = DELTA_ITEM_NOT_FOUND
    | Some (x, o) => if mismatch cas o then r = DELTA_ITEM_CAS_MISMATCH
        else if (counter s x o).1 then
          r = EOM ∨ r = OK ∧ text = decimal (new_value incr (counter s x o).2 delta) ∧
            ∃ number, holds_value hash c' key (text ++ [13; 10], int_of_string (ITEM_suffix o), exptime o) number
        else r = NON_NUMERIC
    end ∧
    (r ≠ OK → text = [] ∧ cas' = cas ∧ value_kept hash c c' key) ∧
    others_kept hash R c c' key.
Proof.
  intros Hok (_ & Hfew & [Hu Hsys] & Hrec).
  destruct (do_add_delta_spec (hash := hash) Hlargest m R c s key incr delta cas) as (r & text & cas' & m' & c' & Hr & Hout); try done.
  { intros x o Hlive. destruct Hok as (H & L & Hok). by eapply recently_live. }
  exists r, text, cas', c'. split; [done|]. unfold value_kept. rewrite (found_live_eq m R c _ Hok).
  destruct Hout as [Hok' Hk Hres Hst Href Hoth]. split; [|split].
  - destruct (live m c key) as [[x o]|] eqn:Hlive; [|done]. destruct (mismatch cas o); [done|].
    destruct (counter s x o).1 eqn:Hct; [|done]. destruct Hres as [Hs| ->]; [right|by left]. split; [done|].
    destruct (Hst Hs) as (x' & o' & y & j & [= <- <-] & Hy & Hj & Ht & Hv). split; [done|]. exists (ITEM_get_cas j), y, j.
    rewrite (ok_find m' R c' key Hok'), Hy. split; [done|]. split; [|done].
    by destruct (ok_linked Hlargest m' R c' key y Hok' Hy) as (_ & _ & _ & _ & ? & _).
  - intros Hs. destruct (Href Hs) as (Ht & Hc & Hm & Hv). rewrite (ok_find m' R c' key Hok'), Hm. done.
  - eapply (others_kept_from m m' R c c' key 0); [done|done|exact Hk| | |done].
    + intros y. rewrite elem_of_app. tauto.
    + intros k Hmk. by destruct (ok_linked Hlargest m R c k 0 Hok Hmk) as (_ & _ & _ & _ & ? & _).
Qed.

End Server.

(** *** Numbers *)

Lemma safe_strtoull_range str : 0 ≤ (McUtil.safe_strtoull str).2 < 2 ^ 64.
Proof.
  unfold McUtil.safe_strtoull, McUtil.strtoull. destruct (scan str) as [[[neg ds] endptr]|] eqn:Hs; [|done]. cbn [mbind option_bind].
  pose proof (McUtil.digits_value_nonneg ds (McUtil.scan_is_digits _ _ _ _ Hs)). destruct (Z.leb_spec (2 ^ 64) (digits_value ds)); [done|].
  destruct (McUtil.at_end endptr); [|done]. destruct (_ && _); [done|]. cbn.
  destruct neg; [|lia]. unfold u64. apply wrapu_range. lia.
Qed.

(** What [incr] and [decr] compute, for the numbers below [2 ^ 64]. *)
Definition counted (incr : bool) (v delta : Z) : Z :=
  if incr then (v + delta) `mod` 2 ^ 64 else Z.max 0 (v - delta `mod` 2 ^ 64).
Lemma new_value_counted incr v delta : 0 ≤ v < 2 ^ 64 → new_value incr v delta = counted incr v delta.
Proof.
  intros Hv. unfold new_value, counted, u64, wrapu. destruct incr; [done|]. pose proof (Z.mod_pos_bound delta (2 ^ 64) ltac:(lia)).
  destruct (Z.ltb_spec v (delta `mod` 2 ^ 64)); [lia|]. rewrite Zminus_mod, (Z.mod_small v) by lia. rewrite Z.mod_small by lia. lia.
Qed.

(** ** The theorems *)



(** The number that [add_delta] has written is the number that the next command reads,
    whatever follows the item in memory, when it is below [2 ^ 63]; numbers from there on
    are also read when there is no minus sign up to the next zero in memory. *)
Theorem counter_reads_back (s : sys) (x : Z) (o : item) (v : Z)
  (Hv : 0 ≤ v < 2 ^ 64) (Ho : ITEM_data o = decimal v ++ [13; 10]) :
  v < 2 ^ 63 ∨ existsb (Z.eqb 45) (c_string (s_beyond s x)) = false → counter s x o = (true, v).
Proof.
  intros Hcase. unfold counter. rewrite Ho.
  assert (Forall (λ c, negb (c =? 0) = true) (decimal v)) as Hd.
  { eapply Forall_impl; [apply decimal_is_digits; lia|]. cbn. unfold is_digit. intros d. lia. }
  assert (c_string ((decimal v ++ [13; 10]) ++ s_beyond s x) = decimal v ++ 13 :: 10 :: c_string (s_beyond s x)) as ->.
  { unfold c_string. rewrite <- app_assoc. clear Hcase Ho. induction Hd as [|d l H _ IH]; cbn [app take_while]; [done|].
    rewrite H. by f_equal. }
  rewrite (McUtil.safe_strtoull_denotes _ false v); [|by apply McUtil.decimal_denotes; [lia|]]. cbv iota.
  destruct (Z.ltb_spec v (2 ^ 63)); [done|]. destruct Hcase as [?|Hc]; [lia|].
  rewrite (proj2 (Z.ltb_lt v (2 ^ 64))) by lia. rewrite existsb_app. cbn [existsb]. rewrite Hc.
  assert (existsb (Z.eqb 45) (decimal v) = false) as ->; [|done].
  pose proof (decimal_is_digits v ltac:(lia)) as Hds. clear -Hds. induction Hds as [|d l H _ IH]; [done|]. cbn [existsb]. rewrite IH.
  unfold is_digit in H. destruct (Z.eqb_spec 45 d); [subst d; done|done].
Qed.

(** *** An example: a counter is stored and incremented

    After the first allocation [malloc] has no more memory. *)

Definition later_sys : sys := mkSys (Slabs.mkEnv 0 true) (λ _, true) true [] 0 (λ _, []).
Definition run_later (r : request) (c : cache) : cache :=
  match exec SlabsSafety.small_settings small_hash small_calloc later_sys r c with Ret _ c' => c' | _ => c end.

Definition new_counter : request := Alloc [107] 0 0 3.
Definition counter_allocated : cache := run_request new_counter at_start.
Definition counter_written : cache := run_later (Write 4960 [53; 13; 10] 0) counter_allocated.
Definition counter_stored : cache := run_later (StoreItem 4960 NREAD_SET 0) counter_written.

Lemma counter_runs :
  exec SlabsSafety.small_settings small_hash small_calloc small_sys new_counter at_start = Ret 4960 counter_allocated ∧
  exec SlabsSafety.small_settings small_hash small_calloc later_sys (Write 4960 [53; 13; 10] 0) counter_allocated = Ret 0 counter_written ∧
  exec SlabsSafety.small_settings small_hash small_calloc later_sys (StoreItem 4960 NREAD_SET 0) counter_written = Ret 0 counter_stored.
Proof. vm_compute. split_and!; reflexivity. Qed.

(** The conditions of [requires], as tests of a state. *)
Definition few_pages (c : cache) : bool := forallb (λ p, Slabs.slabs p <? 2 ^ 31) (Slabs.slabclass (the_pool c)).
Definition prompt (c : cache) (x : Z) : bool :=
  match heap_of c !! x with Some i => current_time c <=? u32 (time i + TAIL_REPAIR_TIME) | None => true end.
Definition found_prompt (c : cache) (key : bytes) : bool :=
  match find small_hash c key with Ok x => prompt c x | _ => true end.

Lemma prompt_iff c x : prompt c x = true ↔ ∀ i, heap_of c !! x = Some i → current_time c ≤ u32 (time i + TAIL_REPAIR_TIME).
Proof.
  unfold prompt. destruct (heap_of c !! x) as [i|]; [|done]. rewrite Z.leb_le. split; [by intros ? ? [= <-]|]. intros H. by apply H.
Qed.

Lemma later_may_allocate c : few_pages c = true → prompt c 4960 = true →
  may_allocate SlabsSafety.small_settings later_sys one_reference c.
Proof.
  intros Hp Hu. split; [split; [apply one_reference_few|]|].
  - intros x it Hx HR. destruct (decide (x = 4960)) as [->|Hne]; [by apply (proj1 (prompt_iff c 4960) Hu)|].
    unfold one_reference in HR. by rewrite fn_lookup_insert_ne in HR.
  - intros id. split; [by intros _ ?|]. intros p Hpid. unfold few_pages in Hp. rewrite forallb_forall in Hp.
    unfold zlookup in Hpid. destruct (0 <=? id); [|done].
    by apply list_elem_of_lookup_2, list_elem_of_In, Hp, Z.ltb_lt in Hpid.
Qed.
Lemma one_reference_fewer x : one_reference x + 3 < 2 ^ 16.
Proof.
  unfold one_reference. revert x. refine (λ x, _).
  destruct (decide (x = 4960)) as [->|]; [by rewrite fn_lookup_insert|by rewrite fn_lookup_insert_ne].
Qed.
Lemma found_prompt_used c key : found_prompt c key = true → recently_used small_hash c key.
Proof. unfold found_prompt, recently_used. intros Hp x o Hx. rewrite Hx in Hp. by apply (proj1 (prompt_iff c x) Hp). Qed.

Lemma counter_tests :
  few_pages counter_written = true ∧ prompt counter_written 4960 = true ∧
  few_pages counter_stored = true ∧ prompt counter_stored 4960 = true ∧ found_prompt counter_stored [107] = true.
Proof. vm_compute. split_and!; reflexivity. Qed.
Lemma counter_items :
  match heap_of counter_allocated !! 4960 with Some i => nbytes i = 3 | None => False end ∧
  match heap_of counter_written !! 4960 with
  | Some i => has_flag ITEM_LINKED i = false ∧ ITEM_key i = [107] ∧ value_of i = ([53; 13; 10], 0, 0) | None => False end.
Proof. vm_compute. split_and!; reflexivity. Qed.

Lemma new_counter_allowed : requires SlabsSafety.small_settings small_hash small_sys (λ _, 0) at_start new_counter.
Proof. split; [done|]. split; [split; [done|lia]|]. split; [apply start_system_ok|]. split; [done|lia|lia]. Qed.
Lemma write_allowed : requires SlabsSafety.small_settings small_hash later_sys one_reference counter_allocated (Write 4960 [53; 13; 10] 0).
Proof.
  split; [apply one_reference_few|]. split; [by rewrite one_reference_at|]. destruct counter_items as [Hi _].
  destruct (heap_of counter_allocated !! 4960) as [i|]; [|done]. by exists i.
Qed.
Lemma store_allowed : may_store SlabsSafety.small_settings small_hash later_sys one_reference counter_written 4960 NREAD_SET.
Proof.
  destruct counter_tests as (H1 & H2 & _). split; [apply one_reference_fewer|]. split; [by apply later_may_allocate|].
  split; [by rewrite one_reference_at|]. destruct counter_items as [_ Hi].
  destruct (heap_of counter_written !! 4960) as [i|]; [|destruct Hi]. exists i. split; [reflexivity|].
  split; [exact (proj1 Hi)|intros Hcat; discriminate Hcat].
Qed.
Lemma increment_allowed :
  requires SlabsSafety.small_settings small_hash later_sys one_reference counter_stored (AddDelta [107] true 7 None).
Proof.
  destruct counter_tests as (_ & _ & H3 & H4 & H5). split; [apply one_reference_few|]. split; [apply one_reference_fewer|].
  split; [by apply later_may_allocate|by apply found_prompt_used].
Qed.

Abbreviation example_step := (step SlabsSafety.small_settings small_hash small_calloc).
Lemma example_step_intro s r ret c c' R R' :
  requires SlabsSafety.small_settings small_hash s R c r → exec SlabsSafety.small_settings small_hash small_calloc s r c = Ret ret c' →
  R' = refs_after r ret R → example_step (c, R) (c', R').
Proof. intros Hreq Hr ->. by eapply step_request. Qed.

Lemma written_steps : rtc example_step (at_start, λ _, 0) (counter_written, one_reference).
Proof.
  destruct counter_runs as (H1 & H2 & _). apply (rtc_l _ _ (counter_allocated, one_reference)).
  - exact (example_step_intro _ _ _ _ _ _ one_reference new_counter_allowed H1 eq_refl).
  - apply rtc_once. exact (example_step_intro _ _ _ _ _ _ one_reference write_allowed H2 eq_refl).
Qed.
Lemma written_reachable : reachable SlabsSafety.small_settings small_hash small_calloc counter_written one_reference.
Proof. apply example_reachable, written_steps. Qed.
Lemma stored_reachable : reachable SlabsSafety.small_settings small_hash small_calloc counter_stored one_reference.
Proof.
  destruct counter_runs as (_ & _ & H3). apply example_reachable. eapply rtc_r; [exact written_steps|].
  apply (example_step_intro later_sys (StoreItem 4960 NREAD_SET 0) 0 _ _ one_reference one_reference (conj one_reference_few store_allowed) H3 eq_refl).
Qed.


Lemma counter_found :
  match found_live small_hash counter_stored [107] with
  | Some (x, o) => counter later_sys x o = (true, 5) ∧ int_of_string (ITEM_suffix o) = 0 ∧ exptime o = 0 | None => False end.
Proof. vm_compute. split_and!; reflexivity. Qed.


Definition twelve : item := mkItem 0 0 0 0 0 4 1 0 1 0 [107] [32; 48; 32; 50; 13; 10] [49; 50; 13; 10].
Example counter_reads_back_witness : counter later_sys 0 twelve = (true, 12).
Proof. apply (counter_reads_back later_sys 0 twelve 12); [lia|reflexivity|left; lia]. Defined.

(** *** Tail repair

    The condition that the item was used within three hours is needed: the allocation of
    the new value meets the old item at the end of the queue, takes the reference of the
    command itself for leaked and frees the item that the command is working on. *)
Definition counter_at_rest : cache := run_later (Remove 4960) counter_stored.
Definition counter_idle : cache := run_later (Tick (100 + TAIL_REPAIR_TIME + 1)) counter_at_rest.

Lemma increment_of_idle_counter_fails :
  match add_delta SlabsSafety.small_settings small_hash later_sys [107] true 7 None counter_at_rest with
  | Ret (r, text, _) _ => r = OK ∧ text = [49; 50] | _ => False end ∧
  add_delta SlabsSafety.small_settings small_hash later_sys [107] true 7 None counter_idle = Stuck AssertFailed.
Proof. vm_compute. split_and!; reflexivity. Qed.

End StoreTheorems.
