(* ===== verification/Tokens.v ===== *)
(** * The words of a command line

    [tokenize_command] of [memcached-1.4.15/memcached.c] cuts a command line at its spaces,
    at most seven words at a time.  A reference definition of the words of a line, and the
    proof that the tokens are the words. *)

From S2P Require Import Prelude Bytes CStrings.
From stdpp Require Import base list.
From Stdlib Require Import ZArith Lia.

Local Open Scope Z_scope.

Module Tokens.

Definition MAX_TOKENS : Z := 8.

(** [tok_value] is the string of C to which the pointer points, [None] the null pointer: the
    function has put a zero behind every token but a last one, where the line ends. *)
Record token_t := mkToken { tok_value : option bytes; tok_length : Z }.

(** ** [tokenize_command] *)

(** The positions [s] and [e] and the tokens so far; [true] when the loop was left. *)
Definition zslice (l : bytes) (s e : Z) : bytes := ztake (e - s) (zdrop s l).
Definition token_at (command : bytes) (s e : Z) : token_t := mkToken (Some (zslice command s e)) (e - s).

Fixpoint tokenize_loop (command : bytes) (max_tokens : Z) (n : nat) (s e : Z) (tokens : list token_t) : Z * Z * list token_t :=
  match n with
  | O => (s, e, tokens)
  | S n' =>
      if default 0 (zlookup command e) =? 32 then
        if s =? e then tokenize_loop command max_tokens n' (e + 1) (e + 1) tokens
        else
          let tokens' := tokens ++ [token_at command s e] in
          if zlen tokens' =? max_tokens - 1 then (e + 1, e + 1, tokens')
          else tokenize_loop command max_tokens n' (e + 1) (e + 1) tokens'
      else tokenize_loop command max_tokens n' s (e + 1) tokens
  end.

(** The last token is the terminal one: its value is the part of the line that is left. *)
Definition tokenize_command (command : bytes) (max_tokens : Z) : list token_t :=
  let '(s, e, tokens) := tokenize_loop command max_tokens (length command) 0 0 [] in
  let tokens := if s =? e then tokens else tokens ++ [token_at command s e] in
  tokens ++ [mkToken (if e =? zlen command then None else Some (zdrop e command)) 0].

(** ** The words of a line *)

(** The pieces between the spaces, and those that are not empty. *)
Fixpoint pieces (l : bytes) : list bytes :=
  match l with
  | [] => [[]]
  | c :: l' =>
      if c =? 32 then [] :: pieces l'
      else match pieces l' with w :: ws => (c :: w) :: ws | [] => [[c]] end
  end.
Definition words (l : bytes) : list bytes := filter (λ w, w ≠ []) (pieces l).

Definition word (w : bytes) : Prop := w ≠ [] ∧ Forall (λ c, c ≠ 32) w.
Definition token_of (w : bytes) : token_t := mkToken (Some w) (zlen w).
(** The words that a piece without spaces makes. *)
Definition one_word (cur : bytes) : list bytes := if decide (cur = []) then [] else [cur].

Lemma pieces_app cur l : Forall (λ c, c ≠ 32) cur → pieces (cur ++ 32 :: l) = cur :: pieces l.
Proof.
  induction 1 as [|c cur Hc _ IH]; [done|]. cbn [app pieces]. by rewrite IH, (proj2 (Z.eqb_neq c 32)).
Qed.
Lemma pieces_no_space cur : Forall (λ c, c ≠ 32) cur → pieces cur = [cur].
Proof. induction 1 as [|c cur Hc _ IH]; [done|]. cbn [pieces]. by rewrite IH, (proj2 (Z.eqb_neq c 32)). Qed.
Lemma words_app cur l : Forall (λ c, c ≠ 32) cur → words (cur ++ 32 :: l) = one_word cur ++ words l.
Proof.
  intros Hc. unfold words, one_word. rewrite pieces_app by done. rewrite filter_cons. destruct (decide (cur = [])); by case_decide.
Qed.
Lemma words_no_space cur : Forall (λ c, c ≠ 32) cur → words cur = one_word cur.
Proof. intros Hc. unfold words, one_word. rewrite pieces_no_space by done. rewrite filter_cons. destruct (decide (cur = [])); by case_decide. Qed.

Lemma words_are_words l w : w ∈ words l → word w.
Proof.
  unfold words. rewrite list_elem_of_filter. intros [Hw Hin]. split; [done|]. clear Hw. revert w Hin.
  induction l as [|c l IH]; intros w; cbn [pieces].
  - by intros ->%list_elem_of_singleton.
  - destruct (Z.eqb_spec c 32).
    + intros [->|?]%elem_of_cons; [done|by apply IH].
    + destruct (pieces l) as [|w' ws]; [intros ->%list_elem_of_singleton; by constructor|].
      intros [->|Hin]%elem_of_cons; [constructor; [done|]|]; apply IH, elem_of_cons; [by left|by right].
Qed.

(** ** The tokens are the words *)

Lemma zslice_snoc l s e c : 0 ≤ s ≤ e → zlookup l e = Some c → zslice l s (e + 1) = zslice l s e ++ [c].
Proof.
  intros Hse Hc. apply zlookup_nat in Hc. unfold zslice, ztake, zdrop. replace (e + 1 - s) with (e - s + 1) by lia.
  rewrite Z2Nat.inj_add, Nat.add_1_r by lia. erewrite take_S_r; [done|]. rewrite lookup_drop.
  replace (Z.to_nat s + Z.to_nat (e - s))%nat with (Z.to_nat e) by lia. done.
Qed.
Lemma zslice_drop l s e : 0 ≤ s ≤ e → zdrop s l = zslice l s e ++ zdrop e l.
Proof.
  intros Hse. unfold zslice, ztake, zdrop. rewrite <- (take_drop (Z.to_nat (e - s)) (drop (Z.to_nat s) l)) at 1. f_equal.
  rewrite drop_drop. f_equal. lia.
Qed.
Lemma zslice_nil l s : zslice l s s = [].
Proof. unfold zslice, ztake. by rewrite Z.sub_diag. Qed.
Lemma zlen_zslice l s e : 0 ≤ s ≤ e → e ≤ zlen l → zlen (zslice l s e) = e - s.
Proof. intros Hse He. unfold zslice, ztake, zdrop, zlen in *. rewrite length_take, length_drop. lia. Qed.
Lemma zdrop_lookup l e c : zlookup l e = Some c → zdrop e l = c :: zdrop (e + 1) l.
Proof.
  intros Hc. pose proof (zlookup_Some_range _ _ _ Hc). apply zlookup_nat in Hc. unfold zdrop.
  rewrite (drop_S _ _ _ Hc). do 2 f_equal. lia.
Qed.
Lemma zdrop_all l : zdrop (zlen l) l = [].
Proof. unfold zdrop, zlen. rewrite Nat2Z.id. apply drop_all. Qed.

(** The loop from the positions [s] and [e]. *)
Lemma tokenize_loop_words command max_tokens n s e tokens :
  0 ≤ s ≤ e → e + Z.of_nat n = zlen command → Forall (λ c, c ≠ 32) (zslice command s e) →
  zlen tokens < max_tokens - 1 →
  ∃ s' e' ws, tokenize_loop command max_tokens n s e tokens = (s', e', tokens ++ map token_of ws) ∧
    s ≤ s' ≤ e' ∧ e' ≤ zlen command ∧ words (zdrop s command) = ws ++ words (zdrop s' command) ∧
    Forall (λ c, c ≠ 32) (zslice command s' e') ∧
    (e' = zlen command ∧ zlen tokens + zlen ws < max_tokens - 1 ∨
     s' = e' ∧ 0 < e' ∧ zlen tokens + zlen ws = max_tokens - 1).
Proof.
  revert s e tokens. induction n as [|n IH]; intros s e tokens Hse Hn Hcur Htok; cbn [tokenize_loop].
  - exists s, e, []. rewrite app_nil_r. split_and!; try done; try lia. left. split; [lia|]. change (zlen []) with 0. lia.
  - destruct (zlookup_is_Some command e) as [c Hc]; [lia|]. rewrite Hc. cbn [default from_option Datatypes.id].
    destruct (Z.eqb_spec c 32) as [->|Hne].
    + assert (words (zdrop s command) = one_word (zslice command s e) ++ words (zdrop (e + 1) command)) as Hw.
      { rewrite (zslice_drop command s e), (zdrop_lookup _ _ _ Hc) by done. by apply words_app. }
      destruct (Z.eqb_spec s e) as [->|Hlt].
      * rewrite zslice_nil in Hw. cbn [one_word decide app] in Hw.
        destruct (IH (e + 1) (e + 1) tokens) as (s' & e' & ws & Hr & H1 & H2 & H3 & H4); [lia|lia|by rewrite zslice_nil|done|].
        exists s', e', ws. split; [done|]. split; [lia|]. split; [done|]. split; [|done]. rewrite Hw. exact H3.
      * assert (token_at command s e = token_of (zslice command s e)) as -> by (unfold token_at, token_of; rewrite zlen_zslice; [done|lia|lia]).
        assert (one_word (zslice command s e) = [zslice command s e]) as Ho.
        { unfold one_word. rewrite decide_False; [done|]. intros Hnil. pose proof (zlen_zslice command s e Hse ltac:(lia)) as Hl. rewrite Hnil in Hl. change (zlen []) with 0 in Hl. lia. }
        rewrite Ho in Hw. assert (zlen (tokens ++ [token_of (zslice command s e)]) = zlen tokens + 1) as Hlen.
        { unfold zlen. rewrite length_app. cbn. lia. }
        destruct (Z.eqb_spec (zlen (tokens ++ [token_of (zslice command s e)])) (max_tokens - 1)) as [Hm|Hm].
        -- exists (e + 1), (e + 1), [zslice command s e]. split; [done|]. split; [lia|]. split; [lia|]. split; [done|].
           split; [by rewrite zslice_nil|]. right. change (zlen [_]) with 1. lia.
        -- destruct (IH (e + 1) (e + 1) (tokens ++ [token_of (zslice command s e)])) as (s' & e' & ws & Hr & H1 & H2 & H3 & H4 & H5);
             [lia|lia|by rewrite zslice_nil|lia|].
           exists s', e', (zslice command s e :: ws). rewrite Hr, <- app_assoc. split; [done|]. split; [lia|]. split; [done|].
           split; [rewrite Hw, H3; done|]. split; [done|]. unfold zlen in *. cbn [length] in *. lia.
    + apply IH; [lia|lia| |done]. rewrite (zslice_snoc command s e c) by done. apply Forall_app. by split; [|constructor].
Qed.

Lemma tokenize_command_spec (command : bytes) (max_tokens : Z) (Hmax : 1 < max_tokens) :
  ∃ ws rest, tokenize_command command max_tokens = map token_of ws ++ [mkToken rest 0] ∧ Forall word ws ∧ zlen ws < max_tokens ∧
    match rest with
    | None => words command = ws
    | Some r => words command = ws ++ words r ∧ zlen ws = max_tokens - 1 ∧ zlen r < zlen command
    end.
Proof.
  destruct (tokenize_loop_words command max_tokens (length command) 0 0 []) as (s & e & ws & Hr & Hse & He & Hw & Hcur & Hend);
    [lia|done|by rewrite zslice_nil|change (zlen []) with 0; lia|].
  change (zdrop 0 command) with command in Hw. change (zlen []) with 0 in Hend.
  unfold tokenize_command. rewrite Hr. cbn [app].
  assert (∀ ws', words command = ws' ++ words (zdrop e command) → Forall word ws') as Hall.
  { intros ws' Hws'. apply Forall_forall. intros w Hin. apply (words_are_words command). rewrite Hws'. apply elem_of_app. by left. }
  destruct (Z.eqb_spec s e) as [->|Hlt].
  - exists ws. destruct (Z.eqb_spec e (zlen command)) as [->|Hne].
    + exists None. split; [done|]. split; [by apply Hall|]. split; [lia|]. rewrite Hw, zdrop_all. apply app_nil_r.
    + exists (Some (zdrop e command)). split; [done|]. split; [by apply Hall|]. split; [lia|]. split; [done|]. split; [lia|].
      unfold zdrop, zlen in *. rewrite length_drop. lia.
  - destruct Hend as [[-> Hmax']|[-> _]]; [|done]. rewrite Z.eqb_refl.
    assert (token_at command s (zlen command) = token_of (zslice command s (zlen command))) as ->.
    { unfold token_at, token_of. by rewrite zlen_zslice by lia. }
    assert (words (zdrop s command) = [zslice command s (zlen command)]) as Hlast.
    { rewrite (zslice_drop command s (zlen command)), zdrop_all, app_nil_r by lia. rewrite words_no_space by done.
      unfold one_word. rewrite decide_False; [done|]. intros Hnil. pose proof (zlen_zslice command s (zlen command) ltac:(lia) ltac:(lia)) as Hl.
      rewrite Hnil in Hl. change (zlen []) with 0 in Hl. lia. }
    rewrite Hlast in Hw. exists (ws ++ [zslice command s (zlen command)]), None. rewrite map_app.
    split; [done|]. split; [apply Hall; by rewrite zdrop_all, app_nil_r|]. split; [|done].
    unfold zlen in *. rewrite length_app. cbn. lia.
Qed.

(** C24: The tokens of [tokenize_command] are the words of the line, at most [max_tokens - 1]
    of them; the terminal token is empty and leads to the rest of the line, whose words
    are those that are missing. *)
Theorem tokenize_command_words (command : bytes) (max_tokens : Z) (Hmax : 1 < max_tokens) :
  ∃ ws rest, tokenize_command command max_tokens = map token_of ws ++ [mkToken rest 0] ∧ Forall word ws ∧ zlen ws < max_tokens ∧
    match rest with
    | None => words command = ws
    | Some r => words command = ws ++ words r ∧ zlen ws = max_tokens - 1 ∧ zlen r < zlen command
    end.
Proof. by apply tokenize_command_spec. Qed.

Example tokenize_command_words_witness :
  ∃ ws, tokenize_command [103; 101; 116; 32; 32; 107; 32] MAX_TOKENS = map token_of ws ++ [mkToken None 0] ∧ ws = [[103; 101; 116]; [107]].
Proof.
  destruct (tokenize_command_words [103; 101; 116; 32; 32; 107; 32] MAX_TOKENS ltac:(unfold MAX_TOKENS; lia)) as (ws & rest & Ht & _ & _ & Hr).
  exists ws. destruct rest as [r|]; [destruct Hr as (_ & Hz & _)|].
  - exfalso. vm_compute in Ht. destruct ws as [|w1 [|w2 [|w3 ws]]]; try discriminate; injection Ht; intros; discriminate.
  - split; [exact Ht|]. symmetry. exact Hr.
Defined.

End Tokens.
