(* ===== verification/Connection.v ===== *)
(** * Connections of memcached

    The part of [struct conn] of [memcached-1.4.15/memcached.h] that the text protocol over
    TCP uses, and the functions of [memcached.c] that queue output and end a command.
    Output is queued as pieces of memory, in messages that [sendmsg] takes one by one. *)

From S2P Require Import Prelude Bytes CStrings ItemHeap Items Store.
From stdpp Require Import base gmap list.
From Stdlib Require Import ZArith Lia String Ascii.

Local Open Scope Z_scope.

Module Connection.
Import ItemHeap Items Store.

(** A string literal. *)
Definition str (s : string) : bytes := map (λ a, Z.of_N (N_of_ascii a)) (list_ascii_of_string s).
Definition CRLF : bytes := [13; 10].

Definition DATA_BUFFER_SIZE : Z := 2048.
Definition UDP_MAX_PAYLOAD_SIZE : Z := 1400.
Definition ITEM_LIST_INITIAL : Z := 200.
Definition SUFFIX_LIST_INITIAL : Z := 20.
Definition IOV_LIST_INITIAL : Z := 400.
Definition MSG_LIST_INITIAL : Z := 10.
Definition READ_BUFFER_HIGHWAT : Z := 8192.
Definition ITEM_LIST_HIGHWAT : Z := 400.
Definition IOV_LIST_HIGHWAT : Z := 600.
Definition MSG_LIST_HIGHWAT : Z := 100.
(** The limit of the system for one message. *)
Definition IOV_MAX : Z := 1024.

(** ** Data *)

Inductive conn_states :=
| conn_listening | conn_new_cmd | conn_waiting | conn_read | conn_parse_cmd | conn_write
| conn_nread | conn_swallow | conn_closing | conn_mwrite.
#[export] Instance conn_states_eq_dec : EqDecision conn_states.
Proof. solve_decision. Defined.

(** Where queued output lies: text that is not changed while it is queued, the key of an
    item, its suffix with the value behind it, or its value. *)
Inductive source := Text (b : bytes) | KeyOf (it : Z) | SuffixOf (it : Z) | DataOf (it : Z).

Record iovec := mkIovec { iov_base : source; iov_off : Z; iov_len : Z }.
Definition msghdr : Type := list iovec.

(** The bytes of the read buffer from [rcurr] on, [rbytes] of them, have not been parsed;
    [rsize] is the length of [rbuf].  [wcurr] is the text of [wbytes] bytes at [wcurr].
    [ritem] is a position in the value of [c_item], 0 where the code has a null pointer.
    [msgused] is the length of [msglist], [isize] that of [ilist].  [realloc_answers] are
    the answers of [malloc] and [realloc] that are still to come, after which there is
    always memory; [verbose] and [slab_automove] are the fields of [settings] that
    commands change. *)
Record conn := mkConn {
  state : conn_states;
  rbuf : bytes;
  rcurr : Z;
  rbytes : Z;
  wcurr : bytes;
  write_and_go : conn_states;
  ritem : Z;
  rlbytes : Z;
  c_item : Z;
  sbytes : Z;
  iovsize : Z;
  iovused : Z;
  msglist : list msghdr;
  msgsize : Z;
  msgcurr : Z;
  msgbytes : Z;
  ilist : list Z;
  icurr : Z;
  ileft : Z;
  suffixsize : Z;
  suffixleft : Z;
  noreply : bool;
  cmd : option nread;
  c_cas : Z;
  realloc_answers : list bool;
  verbose : Z;
  slab_automove : Z
}.

Definition set_state (v : conn_states) (c : conn) : conn :=
  mkConn v (rbuf c) (rcurr c) (rbytes c) (wcurr c) (write_and_go c) (ritem c) (rlbytes c) (c_item c) (sbytes c) (iovsize c) (iovused c) (msglist c) (msgsize c) (msgcurr c) (msgbytes c) (ilist c) (icurr c) (ileft c) (suffixsize c) (suffixleft c) (noreply c) (cmd c) (c_cas c) (realloc_answers c) (verbose c) (slab_automove c).
Definition set_rbuf (v : bytes) (c : conn) : conn :=
  mkConn (state c) v (rcurr c) (rbytes c) (wcurr c) (write_and_go c) (ritem c) (rlbytes c) (c_item c) (sbytes c) (iovsize c) (iovused c) (msglist c) (msgsize c) (msgcurr c) (msgbytes c) (ilist c) (icurr c) (ileft c) (suffixsize c) (suffixleft c) (noreply c) (cmd c) (c_cas c) (realloc_answers c) (verbose c) (slab_automove c).
Definition set_rcurr (v : Z) (c : conn) : conn :=
  mkConn (state c) (rbuf c) v (rbytes c) (wcurr c) (write_and_go c) (ritem c) (rlbytes c) (c_item c) (sbytes c) (iovsize c) (iovused c) (msglist c) (msgsize c) (msgcurr c) (msgbytes c) (ilist c) (icurr c) (ileft c) (suffixsize c) (suffixleft c) (noreply c) (cmd c) (c_cas c) (realloc_answers c) (verbose c) (slab_automove c).
Definition set_rbytes (v : Z) (c : conn) : conn :=
  mkConn (state c) (rbuf c) (rcurr c) v (wcurr c) (write_and_go c) (ritem c) (rlbytes c) (c_item c) (sbytes c) (iovsize c) (iovused c) (msglist c) (msgsize c) (msgcurr c) (msgbytes c) (ilist c) (icurr c) (ileft c) (suffixsize c) (suffixleft c) (noreply c) (cmd c) (c_cas c) (realloc_answers c) (verbose c) (slab_automove c).
Definition set_wcurr (v : bytes) (c : conn) : conn :=
  mkConn (state c) (rbuf c) (rcurr c) (rbytes c) v (write_and_go c) (ritem c) (rlbytes c) (c_item c) (sbytes c) (iovsize c) (iovused c) (msglist c) (msgsize c) (msgcurr c) (msgbytes c) (ilist c) (icurr c) (ileft c) (suffixsize c) (suffixleft c) (noreply c) (cmd c) (c_cas c) (realloc_answers c) (verbose c) (slab_automove c).
Definition set_write_and_go (v : conn_states) (c : conn) : conn :=
  mkConn (state c) (rbuf c) (rcurr c) (rbytes c) (wcurr c) v (ritem c) (rlbytes c) (c_item c) (sbytes c) (iovsize c) (iovused c) (msglist c) (msgsize c) (msgcurr c) (msgbytes c) (ilist c) (icurr c) (ileft c) (suffixsize c) (suffixleft c) (noreply c) (cmd c) (c_cas c) (realloc_answers c) (verbose c) (slab_automove c).
Definition set_ritem (v : Z) (c : conn) : conn :=
  mkConn (state c) (rbuf c) (rcurr c) (rbytes c) (wcurr c) (write_and_go c) v (rlbytes c) (c_item c) (sbytes c) (iovsize c) (iovused c) (msglist c) (msgsize c) (msgcurr c) (msgbytes c) (ilist c) (icurr c) (ileft c) (suffixsize c) (suffixleft c) (noreply c) (cmd c) (c_cas c) (realloc_answers c) (verbose c) (slab_automove c).
Definition set_rlbytes (v : Z) (c : conn) : conn :=
  mkConn (state c) (rbuf c) (rcurr c) (rbytes c) (wcurr c) (write_and_go c) (ritem c) v (c_item c) (sbytes c) (iovsize c) (iovused c) (msglist c) (msgsize c) (msgcurr c) (msgbytes c) (ilist c) (icurr c) (ileft c) (suffixsize c) (suffixleft c) (noreply c) (cmd c) (c_cas c) (realloc_answers c) (verbose c) (slab_automove c).
Definition set_c_item (v : Z) (c : conn) : conn :=
  mkConn (state c) (rbuf c) (rcurr c) (rbytes c) (wcurr c) (write_and_go c) (ritem c) (rlbytes c) v (sbytes c) (iovsize c) (iovused c) (msglist c) (msgsize c) (msgcurr c) (msgbytes c) (ilist c) (icurr c) (ileft c) (suffixsize c) (suffixleft c) (noreply c) (cmd c) (c_cas c) (realloc_answers c) (verbose c) (slab_automove c).
Definition set_sbytes (v : Z) (c : conn) : conn :=
  mkConn (state c) (rbuf c) (rcurr c) (rbytes c) (wcurr c) (write_and_go c) (ritem c) (rlbytes c) (c_item c) v (iovsize c) (iovused c) (msglist c) (msgsize c) (msgcurr c) (msgbytes c) (ilist c) (icurr c) (ileft c) (suffixsize c) (suffixleft c) (noreply c) (cmd c) (c_cas c) (realloc_answers c) (verbose c) (slab_automove c).
Definition set_iovsize (v : Z) (c : conn) : conn :=
  mkConn (state c) (rbuf c) (rcurr c) (rbytes c) (wcurr c) (write_and_go c) (ritem c) (rlbytes c) (c_item c) (sbytes c) v (iovused c) (msglist c) (msgsize c) (msgcurr c) (msgbytes c) (ilist c) (icurr c) (ileft c) (suffixsize c) (suffixleft c) (noreply c) (cmd c) (c_cas c) (realloc_answers c) (verbose c) (slab_automove c).
Definition set_iovused (v : Z) (c : conn) : conn :=
  mkConn (state c) (rbuf c) (rcurr c) (rbytes c) (wcurr c) (write_and_go c) (ritem c) (rlbytes c) (c_item c) (sbytes c) (iovsize c) v (msglist c) (msgsize c) (msgcurr c) (msgbytes c) (ilist c) (icurr c) (ileft c) (suffixsize c) (suffixleft c) (noreply c) (cmd c) (c_cas c) (realloc_answers c) (verbose c) (slab_automove c).
Definition set_msglist (v : list msghdr) (c : conn) : conn :=
  mkConn (state c) (rbuf c) (rcurr c) (rbytes c) (wcurr c) (write_and_go c) (ritem c) (rlbytes c) (c_item c) (sbytes c) (iovsize c) (iovused c) v (msgsize c) (msgcurr c) (msgbytes c) (ilist c) (icurr c) (ileft c) (suffixsize c) (suffixleft c) (noreply c) (cmd c) (c_cas c) (realloc_answers c) (verbose c) (slab_automove c).
Definition set_msgsize (v : Z) (c : conn) : conn :=
  mkConn (state c) (rbuf c) (rcurr c) (rbytes c) (wcurr c) (write_and_go c) (ritem c) (rlbytes c) (c_item c) (sbytes c) (iovsize c) (iovused c) (msglist c) v (msgcurr c) (msgbytes c) (ilist c) (icurr c) (ileft c) (suffixsize c) (suffixleft c) (noreply c) (cmd c) (c_cas c) (realloc_answers c) (verbose c) (slab_automove c).
Definition set_msgcurr (v : Z) (c : conn) : conn :=
  mkConn (state c) (rbuf c) (rcurr c) (rbytes c) (wcurr c) (write_and_go c) (ritem c) (rlbytes c) (c_item c) (sbytes c) (iovsize c) (iovused c) (msglist c) (msgsize c) v (msgbytes c) (ilist c) (icurr c) (ileft c) (suffixsize c) (suffixleft c) (noreply c) (cmd c) (c_cas c) (realloc_answers c) (verbose c) (slab_automove c).
Definition set_msgbytes (v : Z) (c : conn) : conn :=
  mkConn (state c) (rbuf c) (rcurr c) (rbytes c) (wcurr c) (write_and_go c) (ritem c) (rlbytes c) (c_item c) (sbytes c) (iovsize c) (iovused c) (msglist c) (msgsize c) (msgcurr c) v (ilist c) (icurr c) (ileft c) (suffixsize c) (suffixleft c) (noreply c) (cmd c) (c_cas c) (realloc_answers c) (verbose c) (slab_automove c).
Definition set_ilist (v : list Z) (c : conn) : conn :=
  mkConn (state c) (rbuf c) (rcurr c) (rbytes c) (wcurr c) (write_and_go c) (ritem c) (rlbytes c) (c_item c) (sbytes c) (iovsize c) (iovused c) (msglist c) (msgsize c) (msgcurr c) (msgbytes c) v (icurr c) (ileft c) (suffixsize c) (suffixleft c) (noreply c) (cmd c) (c_cas c) (realloc_answers c) (verbose c) (slab_automove c).
Definition set_icurr (v : Z) (c : conn) : conn :=
  mkConn (state c) (rbuf c) (rcurr c) (rbytes c) (wcurr c) (write_and_go c) (ritem c) (rlbytes c) (c_item c) (sbytes c) (iovsize c) (iovused c) (msglist c) (msgsize c) (msgcurr c) (msgbytes c) (ilist c) v (ileft c) (suffixsize c) (suffixleft c) (noreply c) (cmd c) (c_cas c) (realloc_answers c) (verbose c) (slab_automove c).
Definition set_ileft (v : Z) (c : conn) : conn :=
  mkConn (state c) (rbuf c) (rcurr c) (rbytes c) (wcurr c) (write_and_go c) (ritem c) (rlbytes c) (c_item c) (sbytes c) (iovsize c) (iovused c) (msglist c) (msgsize c) (msgcurr c) (msgbytes c) (ilist c) (icurr c) v (suffixsize c) (suffixleft c) (noreply c) (cmd c) (c_cas c) (realloc_answers c) (verbose c) (slab_automove c).
Definition set_suffixsize (v : Z) (c : conn) : conn :=
  mkConn (state c) (rbuf c) (rcurr c) (rbytes c) (wcurr c) (write_and_go c) (ritem c) (rlbytes c) (c_item c) (sbytes c) (iovsize c) (iovused c) (msglist c) (msgsize c) (msgcurr c) (msgbytes c) (ilist c) (icurr c) (ileft c) v (suffixleft c) (noreply c) (cmd c) (c_cas c) (realloc_answers c) (verbose c) (slab_automove c).
Definition set_suffixleft (v : Z) (c : conn) : conn :=
  mkConn (state c) (rbuf c) (rcurr c) (rbytes c) (wcurr c) (write_and_go c) (ritem c) (rlbytes c) (c_item c) (sbytes c) (iovsize c) (iovused c) (msglist c) (msgsize c) (msgcurr c) (msgbytes c) (ilist c) (icurr c) (ileft c) (suffixsize c) v (noreply c) (cmd c) (c_cas c) (realloc_answers c) (verbose c) (slab_automove c).
Definition set_noreply (v : bool) (c : conn) : conn :=
  mkConn (state c) (rbuf c) (rcurr c) (rbytes c) (wcurr c) (write_and_go c) (ritem c) (rlbytes c) (c_item c) (sbytes c) (iovsize c) (iovused c) (msglist c) (msgsize c) (msgcurr c) (msgbytes c) (ilist c) (icurr c) (ileft c) (suffixsize c) (suffixleft c) v (cmd c) (c_cas c) (realloc_answers c) (verbose c) (slab_automove c).
Definition set_cmd (v : option nread) (c : conn) : conn :=
  mkConn (state c) (rbuf c) (rcurr c) (rbytes c) (wcurr c) (write_and_go c) (ritem c) (rlbytes c) (c_item c) (sbytes c) (iovsize c) (iovused c) (msglist c) (msgsize c) (msgcurr c) (msgbytes c) (ilist c) (icurr c) (ileft c) (suffixsize c) (suffixleft c) (noreply c) v (c_cas c) (realloc_answers c) (verbose c) (slab_automove c).
Definition set_c_cas (v : Z) (c : conn) : conn :=
  mkConn (state c) (rbuf c) (rcurr c) (rbytes c) (wcurr c) (write_and_go c) (ritem c) (rlbytes c) (c_item c) (sbytes c) (iovsize c) (iovused c) (msglist c) (msgsize c) (msgcurr c) (msgbytes c) (ilist c) (icurr c) (ileft c) (suffixsize c) (suffixleft c) (noreply c) (cmd c) v (realloc_answers c) (verbose c) (slab_automove c).
Definition set_realloc_answers (v : list bool) (c : conn) : conn :=
  mkConn (state c) (rbuf c) (rcurr c) (rbytes c) (wcurr c) (write_and_go c) (ritem c) (rlbytes c) (c_item c) (sbytes c) (iovsize c) (iovused c) (msglist c) (msgsize c) (msgcurr c) (msgbytes c) (ilist c) (icurr c) (ileft c) (suffixsize c) (suffixleft c) (noreply c) (cmd c) (c_cas c) v (verbose c) (slab_automove c).
Definition set_verbose (v : Z) (c : conn) : conn :=
  mkConn (state c) (rbuf c) (rcurr c) (rbytes c) (wcurr c) (write_and_go c) (ritem c) (rlbytes c) (c_item c) (sbytes c) (iovsize c) (iovused c) (msglist c) (msgsize c) (msgcurr c) (msgbytes c) (ilist c) (icurr c) (ileft c) (suffixsize c) (suffixleft c) (noreply c) (cmd c) (c_cas c) (realloc_answers c) v (slab_automove c).
Definition set_slab_automove (v : Z) (c : conn) : conn :=
  mkConn (state c) (rbuf c) (rcurr c) (rbytes c) (wcurr c) (write_and_go c) (ritem c) (rlbytes c) (c_item c) (sbytes c) (iovsize c) (iovused c) (msglist c) (msgsize c) (msgcurr c) (msgbytes c) (ilist c) (icurr c) (ileft c) (suffixsize c) (suffixleft c) (noreply c) (cmd c) (c_cas c) (realloc_answers c) (verbose c) v.

Definition rsize (c : conn) : Z := zlen (rbuf c).
Definition msgused (c : conn) : Z := zlen (msglist c).
Definition isize (c : conn) : Z := zlen (ilist c).

Definition conn_set_state (st : conn_states) (c : conn) : conn := set_state st c.

(** [realloc]: whether it succeeds. *)
Definition try_realloc (c : conn) : bool * conn :=
  match realloc_answers c with
  | [] => (true, c)
  | b :: answers => (b, set_realloc_answers answers c)
  end.

(** A connection as [conn_new] makes it. *)
Definition conn_new (init_state : conn_states) (read_buffer_size : Z) (answers : list bool) (verbose slab_automove : Z) : conn :=
  mkConn init_state (replicate (Z.to_nat read_buffer_size) 0) 0 0 [] init_state 0 0 0 0 IOV_LIST_INITIAL 0 [] MSG_LIST_INITIAL 0 0
    (replicate (Z.to_nat ITEM_LIST_INITIAL) 0) 0 0 SUFFIX_LIST_INITIAL 0 false None 0 answers verbose slab_automove.

(** ** Queueing output *)

(** 0 and -1 of the code are [true] and [false]. *)
Definition add_msghdr (c : conn) : bool * conn :=
  let '(ok, c) :=
    if msgsize c =? msgused c then
      let '(ok, c) := try_realloc c in (ok, if ok : bool then set_msgsize (msgsize c * 2) c else c)
    else (true, c) in
  if (ok : bool) then (true, set_msgbytes 0 (set_msglist (msglist c ++ [[]]) c)) else (false, c).

Definition ensure_iov_space (c : conn) : bool * conn :=
  if iovsize c <=? iovused c then
    let '(ok, c) := try_realloc c in (ok, if ok : bool then set_iovsize (iovsize c * 2) c else c)
  else (true, c).

(** A piece at the end of the last message. *)
Definition push_iov (m : msghdr) (v : iovec) (c : conn) : conn :=
  set_msglist (zinsert (msgused c - 1) (m ++ [v]) (msglist c))
    (set_iovused (iovused c + 1) (set_msgbytes (msgbytes c + iov_len v) c)).

(** The first message is limited to a packet; what does not fit is put into the next. *)
Fixpoint add_iov_loop (fuel : nat) (src : source) (off len : Z) (c : conn) : result (bool * conn) :=
  match fuel with
  | O => Fail OutOfFuel
  | S fuel' =>
      let* m := vec_at (msglist c) (msgused c - 1) in
      let limit_to_mtu := 1 =? msgused c in
      let c := if (zlen m =? IOV_MAX) || (limit_to_mtu && (UDP_MAX_PAYLOAD_SIZE <=? msgbytes c)) then snd (add_msghdr c) else c in
      let '(ok, c) := ensure_iov_space c in
      if negb ok then Ok (false, c)
      else
        let leftover :=
          if limit_to_mtu && (UDP_MAX_PAYLOAD_SIZE <? len + msgbytes c) then len + msgbytes c - UDP_MAX_PAYLOAD_SIZE else 0 in
        let len := len - leftover in
        let* m := vec_at (msglist c) (msgused c - 1) in
        let c := push_iov m (mkIovec src off len) c in
        if 0 <? leftover then add_iov_loop fuel' src (off + len) leftover c else Ok (true, c)
  end.
Definition add_iov (src : source) (off len : Z) (c : conn) : result (bool * conn) :=
  add_iov_loop (3 + List.length (realloc_answers c)) src off len c.

(** [out_string]. *)
Definition out_string (text : bytes) (c : conn) : conn :=
  if noreply c then conn_set_state conn_new_cmd (set_noreply false c)
  else
    let c := snd (add_msghdr (set_iovused 0 (set_msglist [] (set_msgcurr 0 c)))) in
    let text := if DATA_BUFFER_SIZE <? zlen text + 2 then str "SERVER_ERROR output line too long" else text in
    set_write_and_go conn_new_cmd (conn_set_state conn_write (set_wcurr (text ++ CRLF) c)).

(** [write_and_free]; the empty pointer is [None]. *)
Definition write_and_free (buf : option bytes) (c : conn) : conn :=
  match buf with
  | Some b => set_write_and_go conn_new_cmd (conn_set_state conn_write (set_wcurr b c))
  | None => out_string (str "SERVER_ERROR out of memory writing stats") c
  end.

(** ** The end of a command *)

(** The part of [conn_shrink] for one array: it is made smaller when it has grown. *)
Definition shrink (big : bool) (f : conn → conn) (c : conn) : conn :=
  if big then let '(ok, c) := try_realloc c in if ok : bool then f c else c else c.

Definition conn_shrink (c : conn) : conn :=
  let c :=
    if (READ_BUFFER_HIGHWAT <? rsize c) && (rbytes c <? DATA_BUFFER_SIZE) then
      let c := set_rbuf (memcpy (rbuf c) 0 (sub (rbuf c) (rcurr c) (rbytes c))) c in
      set_rcurr 0 (shrink true (λ c, set_rbuf (ztake DATA_BUFFER_SIZE (rbuf c)) c) c)
    else c in
  let c := shrink (ITEM_LIST_HIGHWAT <? isize c) (λ c, set_ilist (take (Z.to_nat ITEM_LIST_INITIAL) (ilist c)) c) c in
  let c := shrink (MSG_LIST_HIGHWAT <? msgsize c) (set_msgsize MSG_LIST_INITIAL) c in
  shrink (IOV_LIST_HIGHWAT <? iovsize c) (set_iovsize IOV_LIST_INITIAL) c.

(** The reference to the item that is being read is given up. *)
Definition drop_item (c : conn) : IM conn :=
  if c_item c =? 0 then mret c else item_remove (c_item c) ;; mret (set_c_item 0 c).

Definition reset_cmd_handler (c : conn) : IM conn :=
  let* c := drop_item (set_cmd None c) in
  let c := conn_shrink c in
  mret (conn_set_state (if 0 <? rbytes c then conn_parse_cmd else conn_waiting) c).

(** The references to the items that are being sent are given up. *)
Fixpoint release_items (n : nat) (c : conn) : IM conn :=
  match n with
  | O => mret c
  | S n' =>
      let* it := lift_result (vec_at (ilist c) (icurr c)) in
      item_remove it ;;
      release_items n' (set_icurr (icurr c + 1) (set_ileft (ileft c - 1) c))
  end.

Definition conn_cleanup (c : conn) : IM conn :=
  let* c := drop_item c in
  let* c := release_items (Z.to_nat (ileft c)) c in
  mret (set_suffixleft 0 c).

End Connection.
