(* ===== verification/Commands.v ===== *)
(** * The commands of memcached's text protocol

    [process_command] of [memcached-1.4.15/memcached.c] and what it calls, and
    [complete_nread_ascii], which ends a storage command when its value has been read.  A
    command works on a [conn] and, in the monad of [Items], on the cache. *)

From S2P Require Import Prelude Bytes CStrings McUtil ItemHeap Slabs Items Store Tokens Connection.
From stdpp Require Import base gmap list.
From Stdlib Require Import ZArith Lia String.

Local Open Scope Z_scope.

Module Commands.
Import ItemHeap Items Store Tokens Connection.

Definition REALTIME_MAXDELTA : Z := 60 * 60 * 24 * 30.
Definition KEY_MAX_LENGTH : Z := 250.
Definition MAX_VERBOSITY_LEVEL : Z := 2.

(** What a command finds outside of the cache and the connection: the start of the process
    in seconds, whether [errno] is [ERANGE] from a call before, the version that the build
    defines, and the texts of the statistics, by the words behind [stats]. *)
Record globals := mkGlobals {
  process_started : Z;
  errno_erange : bool;
  VERSION : bytes;
  stats_text : list bytes → option bytes
}.

(** [(time_t)] to [(rel_time_t)]: 30 days at most count from now, more are a date. *)
Definition realtime (started now exptime : Z) : Z :=
  if exptime =? 0 then 0
  else if REALTIME_MAXDELTA <? exptime then
    if exptime <=? started then 1 else u32 (exptime - started)
  else u32 (exptime + now).

(** ** Tokens *)

Definition value_at (tokens : list token_t) (n : Z) : IM bytes :=
  match zlookup tokens n with
  | Some t => match tok_value t with Some v => mret v | None => stuck NullPointer end
  | None => stuck OutOfBounds
  end.
Definition length_at (tokens : list token_t) (n : Z) : IM Z :=
  match zlookup tokens n with Some t => mret (tok_length t) | None => stuck OutOfBounds end.
(** [strcmp(tokens[n].value, name) == 0], for a token that is there. *)
Definition token_is (tokens : list token_t) (n : Z) (name : string) : bool :=
  match zlookup tokens n with
  | Some t => bool_decide (tok_value t = Some (str name))
  | None => false
  end.

(** Whether the command has [noreply], which [out_string] clears. *)
Definition set_noreply_maybe (tokens : list token_t) (c : conn) : conn :=
  if token_is tokens (zlen tokens - 2) "noreply" then set_noreply true c else c.

(** [strtol(s, NULL, 10)]: the value, and whether it sets [errno] to [ERANGE]. *)
Definition strtol (s : bytes) : Z * bool :=
  match McUtil.strtoll s with Some (v, erange, _) => (v, erange) | None => (0, false) end.
(** [strtoul(s, NULL, 10)] as an [unsigned int]. *)
Definition strtoul32 (s : bytes) : Z :=
  match McUtil.strtoull s with Some (v, _, _) => u32 v | None => 0 end.

Definition bad_format : bytes := str "CLIENT_ERROR bad command line format".

Section Commands.
Context (st : Slabs.settings_t) (hash : bytes → Z) (g : globals) (s : sys).

(** ** [get] and [gets] *)

(** Pieces of output, up to the first for which there is no memory. *)
Fixpoint add_iovs (l : list (source * Z * Z)) (c : conn) : IM (bool * conn) :=
  match l with
  | [] => mret (true, c)
  | (src, off, len) :: l' =>
      let* '(ok, c) := lift_result (add_iov src off len c) in
      if (ok : bool) then add_iovs l' c else mret (false, c)
  end.

Inductive get_step := GetNext (i : Z) | GetBreak | GetReturn.

(** Room for an element [i]. *)
Definition grow_ilist (i : Z) (c : conn) : bool * conn :=
  if isize c <=? i then
    let '(ok, c) := try_realloc c in
    (ok, if ok : bool then set_ilist (ilist c ++ replicate (Z.to_nat (isize c)) 0) c else c)
  else (true, c).
Definition grow_suffixlist (i : Z) (c : conn) : bool * conn :=
  if suffixsize c <=? i then
    let '(ok, c) := try_realloc c in (ok, if ok : bool then set_suffixsize (suffixsize c * 2) c else c)
  else (true, c).

(** The output for a hit. *)
Definition value_pieces (it : Z) (i : item) : list (source * Z * Z) :=
  [(Text (str "VALUE "), 0, 6); (KeyOf it, 0, nkey i); (SuffixOf it, 0, nsuffix i + nbytes i)].
Definition cas_suffix (i : item) : bytes := 32 :: decimal (ITEM_get_cas i) ++ CRLF.
Definition value_pieces_cas (it : Z) (i : item) : list (source * Z * Z) :=
  [(Text (str "VALUE "), 0, 6); (KeyOf it, 0, nkey i); (SuffixOf it, 0, nsuffix i - 2);
   (Text (cas_suffix i), 0, zlen (cas_suffix i)); (DataOf it, 0, nbytes i)].

(** The output is complete: the item joins the list of those that are being sent. *)
Definition queue_item (it i : Z) (c : conn) : IM (conn * get_step) :=
  item_update it ;;
  let* l := lift_result (vec_set (ilist c) i it) in
  mret (set_ilist l c, GetNext (i + 1)).

Definition queue_value (return_cas : bool) (it i : Z) (c : conn) : IM (conn * get_step) :=
  let* x := the_item it in
  let* '(ok, c) := add_iovs (if return_cas then value_pieces_cas it x else value_pieces it x) c in
  if (ok : bool) then queue_item it i c else item_remove it ;; mret (c, GetBreak).

Definition get_key (return_cas : bool) (key : bytes) (i : Z) (c : conn) : IM (conn * get_step) :=
  if KEY_MAX_LENGTH <? zlen key then mret (out_string bad_format c, GetReturn)
  else
    let* it := item_get hash key in
    if it =? 0 then mret (c, GetNext i)
    else
      let '(ok, c) := grow_ilist i c in
      if negb ok then item_remove it ;; mret (c, GetBreak)
      else if return_cas then
        let '(ok, c) := grow_suffixlist i c in
        if negb ok then item_remove it ;; mret (c, GetBreak)
        else
          let '(ok, c) := try_realloc c in
          if negb ok then
            let c := out_string (str "SERVER_ERROR out of memory making CAS suffix") c in
            item_remove it ;; mret (c, GetReturn)
          else queue_value true it i c
      else queue_value false it i c.

(** The inner loop: the token that ends it is left, or nothing when the function returns. *)
Fixpoint get_keys (return_cas : bool) (tokens : list token_t) (i : Z) (c : conn) : IM (conn * Z * option (option bytes)) :=
  match tokens with
  | [] => stuck OutOfBounds
  | t :: tokens' =>
      if tok_length t =? 0 then mret (c, i, Some (tok_value t))
      else
        match tok_value t with
        | None => stuck NullPointer
        | Some key =>
            let* '(c, r) := get_key return_cas key i c in
            match r with
            | GetNext i => get_keys return_cas tokens' i c
            | GetBreak => mret (c, i, Some (Some key))
            | GetReturn => mret (c, i, None)
            end
        end
  end.
(** The outer loop: as long as there is a part of the line that has not been cut. *)
Fixpoint get_loop (fuel : nat) (return_cas : bool) (tokens : list token_t) (i : Z) (c : conn) : IM (conn * option Z) :=
  match fuel with
  | O => stuck OutOfFuel
  | S fuel' =>
      let* '(c, i, r) := get_keys return_cas tokens i c in
      match r with
      | None => mret (c, None)
      | Some None => mret (c, Some i)
      | Some (Some rest) => get_loop fuel' return_cas (tokenize_command rest MAX_TOKENS) i c
      end
  end.

Definition process_get_command (fuel : nat) (tokens : list token_t) (return_cas : bool) (c : conn) : IM conn :=
  let* '(c, r) := get_loop fuel return_cas (drop 1 tokens) 0 c in
  match r with
  | None => mret c
  | Some i =>
      let c := set_ileft i (set_icurr 0 c) in
      let c := if return_cas then set_suffixleft i c else c in
      let* '(ok, c) := lift_result (add_iov (Text (str "END" ++ CRLF)) 0 5 c) in
      if (ok : bool) then mret (set_msgcurr 0 (conn_set_state conn_mwrite c))
      else mret (out_string (str "SERVER_ERROR out of memory writing get response") c)
  end.

(** ** Storage commands *)

(** The item could not be allocated: the value is to be skipped, and after a [set] the old
    value must not stay. *)
Definition refuse_update (comm : nread) (key : bytes) (flags vlen : Z) (c : conn) : IM conn :=
  let* size_ok := item_size_ok st (zlen key) flags vlen in
  let c := out_string (if (size_ok : bool) then str "SERVER_ERROR out of memory storing object"
                       else str "SERVER_ERROR object too large for cache") c in
  let c := set_sbytes vlen (set_write_and_go conn_swallow c) in
  (if decide (comm = NREAD_SET) then
     let* it := item_get hash key in
     if it =? 0 then mret tt else item_unlink hash it ;; item_remove it
   else mret tt) ;;
  mret c.

Definition process_update_command (tokens : list token_t) (comm : nread) (handle_cas : bool) (c : conn) : IM conn :=
  let c := set_noreply_maybe tokens c in
  let* nkey := length_at tokens 1 in
  if KEY_MAX_LENGTH <? nkey then mret (out_string bad_format c)
  else
    let* key := value_at tokens 1 in
    let* t2 := value_at tokens 2 in
    let* t3 := value_at tokens 3 in
    let* t4 := value_at tokens 4 in
    let '(ok2, flags) := McUtil.safe_strtoul t2 in
    let '(ok3, exptime_int) := McUtil.safe_strtol t3 in
    let '(ok4, vlen) := McUtil.safe_strtol t4 in
    if negb (ok2 && ok3 && ok4) then mret (out_string bad_format c)
    else
      let exptime := if exptime_int <? 0 then REALTIME_MAXDELTA + 1 else exptime_int in
      let* '(ok5, req_cas_id) :=
        if handle_cas then let* t5 := value_at tokens 5 in mret (McUtil.safe_strtoull t5) else mret (true, 0) in
      if negb ok5 then mret (out_string bad_format c)
      else
        let vlen := i32 (vlen + 2) in
        if (vlen <? 0) || (i32 (vlen - 2) <? 0) then mret (out_string bad_format c)
        else
          let* now := gets current_time in
          let* it := item_alloc st hash s key (i32 flags) (realtime (process_started g) now exptime) vlen in
          if it =? 0 then refuse_update comm key (i32 flags) vlen c
          else
            on_item it (ITEM_set_cas req_cas_id) ;;
            let* i := the_item it in
            mret (conn_set_state conn_nread (set_cmd (Some comm) (set_rlbytes (nbytes i) (set_ritem 0 (set_c_item it c))))).

(** [complete_nread_ascii], when the value has been read. *)
Definition complete_nread_ascii (c : conn) : IM conn :=
  let* i := the_item (c_item c) in
  let* c :=
    if decide (sub (ITEM_data i) (nbytes i - 2) 2 = CRLF) then
      match cmd c with
      | None => stuck BadConversion
      | Some comm =>
          let* '(ret, cas) := store_item st hash s (c_item c) comm (c_cas c) in
          mret (out_string (match ret with
            | STORED => str "STORED" | EXISTS => str "EXISTS"
            | NOT_FOUND => str "NOT_FOUND" | NOT_STORED => str "NOT_STORED" end) (set_c_cas cas c))
      end
    else mret (out_string (str "CLIENT_ERROR bad data chunk") c) in
  item_remove (c_item c) ;;
  mret (set_c_item 0 c).

(** ** The other commands *)

Definition process_touch_command (tokens : list token_t) (c : conn) : IM conn :=
  let c := set_noreply_maybe tokens c in
  let* nkey := length_at tokens 1 in
  if KEY_MAX_LENGTH <? nkey then mret (out_string bad_format c)
  else
    let* key := value_at tokens 1 in
    let* t2 := value_at tokens 2 in
    let '(ok, exptime_int) := McUtil.safe_strtol t2 in
    if negb ok then mret (out_string (str "CLIENT_ERROR invalid exptime argument") c)
    else
      let* now := gets current_time in
      let* it := item_touch hash key (realtime (process_started g) now exptime_int) in
      if it =? 0 then mret (out_string (str "NOT_FOUND") c)
      else
        item_update it ;;
        let c := out_string (str "TOUCHED") c in
        item_remove it ;;
        mret c.

Definition process_arithmetic_command (tokens : list token_t) (incr : bool) (c : conn) : IM conn :=
  let c := set_noreply_maybe tokens c in
  let* nkey := length_at tokens 1 in
  if KEY_MAX_LENGTH <? nkey then mret (out_string bad_format c)
  else
    let* key := value_at tokens 1 in
    let* t2 := value_at tokens 2 in
    let '(ok, delta) := McUtil.safe_strtoull t2 in
    if negb ok then mret (out_string (str "CLIENT_ERROR invalid numeric delta argument") c)
    else
      let* '(r, temp, _) := add_delta st hash s key incr (i64 delta) None in
      mret match r with
      | OK => out_string temp c
      | NON_NUMERIC => out_string (str "CLIENT_ERROR cannot increment or decrement non-numeric value") c
      | EOM => out_string (str "SERVER_ERROR out of memory") c
      | DELTA_ITEM_NOT_FOUND => out_string (str "NOT_FOUND") c
      | DELTA_ITEM_CAS_MISMATCH => c
      end.

Definition process_delete_command (tokens : list token_t) (c : conn) : IM conn :=
  let ntokens := zlen tokens in
  let '(valid, c) :=
    if 3 <? ntokens then
      let hold_is_zero := token_is tokens 2 "0" in
      let c := set_noreply_maybe tokens c in
      let sets_noreply := noreply c in
      (((ntokens =? 4) && (hold_is_zero || sets_noreply)) || ((ntokens =? 5) && hold_is_zero && sets_noreply), c)
    else (true, c) in
  if negb valid then mret (out_string (str "CLIENT_ERROR bad command line format.  Usage: delete <key> [noreply]") c)
  else
    let* key := value_at tokens 1 in
    let* nkey := length_at tokens 1 in
    if KEY_MAX_LENGTH <? nkey then mret (out_string bad_format c)
    else
      let* it := item_get hash key in
      if it =? 0 then mret (out_string (str "NOT_FOUND") c)
      else
        item_unlink hash it ;;
        item_remove it ;;
        mret (out_string (str "DELETED") c).

Definition process_verbosity_command (tokens : list token_t) (c : conn) : IM conn :=
  let c := set_noreply_maybe tokens c in
  let* t1 := value_at tokens 1 in
  let level := strtoul32 t1 in
  mret (out_string (str "OK") (set_verbose (if MAX_VERBOSITY_LEVEL <? level then MAX_VERBOSITY_LEVEL else level) c)).

Definition process_slabs_automove_command (tokens : list token_t) (c : conn) : IM conn :=
  let c := set_noreply_maybe tokens c in
  let* t2 := value_at tokens 2 in
  let level := strtoul32 t2 in
  if level =? 0 then mret (out_string (str "OK") (set_slab_automove 0 c))
  else if (level =? 1) || (level =? 2) then mret (out_string (str "OK") (set_slab_automove level c))
  else mret (out_string (str "ERROR") c).

(** [flush_all]. *)
Definition process_flush_command (tokens : list token_t) (c : conn) : IM conn :=
  let c := set_noreply_maybe tokens c in
  let* now := gets current_time in
  if zlen tokens =? (if noreply c then 3 else 2) then
    modify (set_oldest_live (u32 (now - 1))) ;; item_flush_expired hash ;; mret (out_string (str "OK") c)
  else
    let* t1 := value_at tokens 1 in
    let '(exptime, erange) := strtol t1 in
    if errno_erange g || erange then mret (out_string bad_format c)
    else
      modify (set_oldest_live (u32 ((if 0 <? exptime then realtime (process_started g) now exptime else now) - 1))) ;;
      item_flush_expired hash ;;
      mret (out_string (str "OK") c).

(** [slabs reassign] and [slabs automove]. *)
Definition process_slabs_command (tokens : list token_t) (c : conn) : IM conn :=
  if (zlen tokens =? 5) && token_is tokens 1 "reassign" then
    if negb (Slabs.slab_reassign st) then mret (out_string (str "CLIENT_ERROR slab reassignment disabled") c)
    else
      let* t2 := value_at tokens 2 in
      let* t3 := value_at tokens 3 in
      let '(src, erange2) := strtol t2 in
      let '(dst, erange3) := strtol t3 in
      if errno_erange g || erange2 || erange3 then mret (out_string bad_format c)
      else
        let* rv := on_arena (Slabs.slabs_reassign (s_reassign_lock s) (i32 src) (i32 dst)) in
        mret (out_string match rv with
          | Slabs.REASSIGN_OK => str "OK"
          | Slabs.REASSIGN_RUNNING => str "BUSY currently processing reassign request"
          | Slabs.REASSIGN_BADCLASS => str "BADCLASS invalid src or dst class id"
          | Slabs.REASSIGN_NOSPARE => str "NOSPARE source class has no spare pages"
          | Slabs.REASSIGN_SRC_DST_SAME => str "SAME src and dst class are identical"
          end c)
  else if (zlen tokens =? 4) && token_is tokens 1 "automove" then process_slabs_automove_command tokens c
  else mret (out_string (str "ERROR") c).

(** [stats_reset], as far as the counters are part of [cache]. *)
Definition stats_reset : IM unit := modify (λ c, set_totals (curr_bytes c) (curr_items c) 0 c) ;; item_stats_reset.

(** [process_stat], with [process_stats_detail] and the names that [get_stats] knows; the
    statistics appear as texts. *)
Definition process_stat (tokens : list token_t) (c : conn) : IM conn :=
  let ntokens := zlen tokens in
  let text (words : list bytes) := mret (write_and_free (stats_text g words) c) in
  if ntokens =? 2 then text []
  else
    let* subcommand := value_at tokens 1 in
    if token_is tokens 1 "reset" then stats_reset ;; mret (out_string (str "RESET") c)
    else if token_is tokens 1 "detail" then
      if (3 <? ntokens) && (token_is tokens 2 "on" || token_is tokens 2 "off") then mret (out_string (str "OK") c)
      else if (3 <? ntokens) && token_is tokens 2 "dump" then text [subcommand]
      else mret (out_string (str "CLIENT_ERROR usage: stats detail on|off|dump") c)
    else if token_is tokens 1 "settings" then text [subcommand]
    else if token_is tokens 1 "cachedump" then
      if ntokens <? 5 then mret (out_string (str "CLIENT_ERROR bad command line") c)
      else
        let* t2 := value_at tokens 2 in
        let* t3 := value_at tokens 3 in
        let '(ok2, id) := McUtil.safe_strtoul t2 in
        let '(ok3, limit) := McUtil.safe_strtoul t3 in
        if negb (ok2 && ok3) then mret (out_string bad_format c)
        else if Slabs.POWER_LARGEST <=? id then mret (out_string (str "CLIENT_ERROR Illegal slab id") c)
        else text [subcommand; t2; t3]
    else if token_is tokens 1 "items" || token_is tokens 1 "slabs" || token_is tokens 1 "sizes" then text [subcommand]
    else mret (out_string (str "ERROR") c).

(** ** [process_command] *)

Definition storage_command (tokens : list token_t) : option nread :=
  if token_is tokens 0 "add" then Some NREAD_ADD
  else if token_is tokens 0 "set" then Some NREAD_SET
  else if token_is tokens 0 "replace" then Some NREAD_REPLACE
  else if token_is tokens 0 "prepend" then Some NREAD_PREPEND
  else if token_is tokens 0 "append" then Some NREAD_APPEND
  else None.

(** The command that a line is, by its number of tokens and its first word. *)
Definition dispatch (fuel : nat) (tokens : list token_t) (c : conn) : IM conn :=
  let ntokens := zlen tokens in
  if (3 <=? ntokens) && (token_is tokens 0 "get" || token_is tokens 0 "bget") then process_get_command fuel tokens false c
  else
    match (if (ntokens =? 6) || (ntokens =? 7) then storage_command tokens else None) with
    | Some comm => process_update_command tokens comm false c
    | None =>
      if ((ntokens =? 7) || (ntokens =? 8)) && token_is tokens 0 "cas" then process_update_command tokens NREAD_CAS true c
      else if ((ntokens =? 4) || (ntokens =? 5)) && token_is tokens 0 "incr" then process_arithmetic_command tokens true c
      else if (3 <=? ntokens) && token_is tokens 0 "gets" then process_get_command fuel tokens true c
      else if ((ntokens =? 4) || (ntokens =? 5)) && token_is tokens 0 "decr" then process_arithmetic_command tokens false c
      else if (3 <=? ntokens) && (ntokens <=? 5) && token_is tokens 0 "delete" then process_delete_command tokens c
      else if ((ntokens =? 4) || (ntokens =? 5)) && token_is tokens 0 "touch" then process_touch_command tokens c
      else if (2 <=? ntokens) && token_is tokens 0 "stats" then process_stat tokens c
      else if (2 <=? ntokens) && (ntokens <=? 4) && token_is tokens 0 "flush_all" then process_flush_command tokens c
      else if (ntokens =? 2) && token_is tokens 0 "version" then mret (out_string (str "VERSION " ++ VERSION g) c)
      else if (ntokens =? 2) && token_is tokens 0 "quit" then mret (conn_set_state conn_closing c)
      else if (1 <? ntokens) && token_is tokens 0 "slabs" then process_slabs_command tokens c
      else if ((ntokens =? 3) || (ntokens =? 4)) && token_is tokens 0 "verbosity" then process_verbosity_command tokens c
      else mret (out_string (str "ERROR") c)
    end.

Definition process_command (command : bytes) (c : conn) : IM conn :=
  let '(ok, c) := add_msghdr (set_iovused 0 (set_msglist [] (set_msgcurr 0 c))) in
  if negb ok then mret (out_string (str "SERVER_ERROR out of memory preparing response") c)
  else dispatch (2 + List.length command + List.length (realloc_answers c)) (tokenize_command command MAX_TOKENS) c.

End Commands.

End Commands.
