(* ===== verification/Machine.v ===== *)
(** * The connection's state machine in memcached

    [try_read_command], [try_read_network], [transmit] and [drive_machine] of
    [memcached-1.4.15/memcached.c], for a TCP connection that speaks the text protocol
    ([ascii_prot]).  One step is one turn of the loop of [drive_machine]; the answers of the
    system calls of the turn are its input. *)

From S2P Require Import Prelude Bytes CStrings ItemHeap Slabs Items Store Tokens Connection Commands.
From stdpp Require Import base gmap list.
From Stdlib Require Import ZArith Lia String.

Local Open Scope Z_scope.

Module Machine.
Import ItemHeap Items Store Tokens Connection Commands.

(** ** The system *)

(** [read]: no data is the end of the stream. *)
Inductive read_answer := ReadData (b : bytes) | ReadWouldBlock | ReadFails.
(** [sendmsg], with the number of bytes that were sent. *)
Inductive send_answer := Sent (n : Z) | SendWouldBlock | SendFails.

(** The answers during one turn: of the calls of [read] in their order, of [sendmsg], and
    whether [update_event] succeeds. *)
Record io := mkIo { reads : list read_answer; sends : send_answer; event_ok : bool }.

Inductive try_read_result := READ_DATA_RECEIVED | READ_NO_DATA_RECEIVED | READ_ERROR | READ_MEMORY_ERROR.
Inductive transmit_result := TRANSMIT_COMPLETE | TRANSMIT_INCOMPLETE | TRANSMIT_SOFT_ERROR | TRANSMIT_HARD_ERROR.
#[export] Instance transmit_result_eq_dec : EqDecision transmit_result.
Proof. solve_decision. Defined.

Section Machine.
Context (st : Slabs.settings_t) (hash : bytes → Z) (g : globals) (s : sys).

(** ** [try_read_command] *)

(** [memchr(buf, '\n', len)], as a position. *)
Fixpoint find_newline (l : bytes) : option Z :=
  match l with
  | [] => None
  | c :: l' => if c =? 10 then Some 0 else option_map (Z.add 1) (find_newline l')
  end.

Definition starts_with (name : string) (l : bytes) : bool := bool_decide (take (String.length name) l = str name).

(** A long line without an end is only accepted from a [get].  The scan for spaces stops
    at the end of the buffer only. *)
Definition long_line_ok (c : conn) : result bool :=
  let line := zdrop (rcurr c) (rbuf c) in
  let ptr := skip_while (Z.eqb 32) line in
  match ptr with
  | [] => Fail OutOfBounds
  | _ => Ok (negb ((100 <? zlen line - zlen ptr) || negb (starts_with "get " ptr || starts_with "gets " ptr)))
  end.

(** [false] when more data is needed. *)
Definition try_read_command (c : conn) : IM (bool * conn) :=
  assert (rcurr c <=? rsize c) ;;
  assert (0 <? rbytes c) ;;
  let line := sub (rbuf c) (rcurr c) (rbytes c) in
  match find_newline line with
  | None =>
      if 1024 <? rbytes c then
        let* fine := lift_result (long_line_ok c) in
        mret (if fine : bool then (false, c) else (true, conn_set_state conn_closing c))
      else mret (false, c)
  | Some el =>
      let cont := el + 1 in
      let el := if (1 <? el) && bool_decide (zlookup line (el - 1) = Some 13) then el - 1 else el in
      let c := set_rbuf (zinsert (rcurr c + el) 0 (rbuf c)) c in
      assert (cont <=? rbytes c) ;;
      let* c := process_command st hash g s (c_string (ztake el line)) c in
      let c := set_rcurr (rcurr c + cont) (set_rbytes (rbytes c - cont) c) in
      assert (rcurr c <=? rsize c) ;;
      mret (true, c)
  end.

(** ** [try_read_network] *)

Fixpoint read_loop (answers : list read_answer) (num_allocs : Z) (gotdata : try_read_result) (c : conn) : try_read_result * conn :=
  match answers with
  | [] => (gotdata, c)
  | a :: answers' =>
      let full := rsize c <=? rbytes c in
      if full && (num_allocs =? 4) then (gotdata, c)
      else
        let '(ok, c) := if full then try_realloc c else (true, c) in
        if negb ok then
          (READ_MEMORY_ERROR,
           set_write_and_go conn_closing (out_string (str "SERVER_ERROR out of memory reading request") (set_rbytes 0 c)))
        else
          let c := if full then set_rcurr 0 (set_rbuf (rbuf c ++ replicate (Z.to_nat (rsize c)) 0) c) else c in
          let num_allocs := if full then num_allocs + 1 else num_allocs in
          let avail := rsize c - rbytes c in
          match a with
          | ReadData b =>
              let b := ztake avail b in
              if zlen b =? 0 then (READ_ERROR, c)
              else
                let c := set_rbytes (rbytes c + zlen b) (set_rbuf (memcpy (rbuf c) (rbytes c) b) c) in
                if zlen b =? avail then read_loop answers' num_allocs READ_DATA_RECEIVED c else (READ_DATA_RECEIVED, c)
          | ReadWouldBlock => (gotdata, c)
          | ReadFails => (READ_ERROR, c)
          end
  end.

Definition try_read_network (answers : list read_answer) (c : conn) : try_read_result * conn :=
  let c := set_rcurr 0 (set_rbuf (memcpy (rbuf c) 0 (sub (rbuf c) (rcurr c) (rbytes c))) c) in
  read_loop answers 0 READ_NO_DATA_RECEIVED c.

(** ** [transmit] *)

Definition source_bytes (src : source) : IM bytes :=
  match src with
  | Text b => mret b
  | KeyOf it => let* i := the_item it in mret (ITEM_key i)
  | SuffixOf it => let* i := the_item it in mret (ITEM_suffix i ++ ITEM_data i)
  | DataOf it => let* i := the_item it in mret (ITEM_data i)
  end.
Definition iovec_bytes (v : iovec) : IM bytes :=
  let* b := source_bytes (iov_base v) in
  if (0 <=? iov_off v) && (0 <=? iov_len v) && (iov_off v + iov_len v <=? zlen b)
  then mret (sub b (iov_off v) (iov_len v)) else stuck OutOfBounds.
Fixpoint msghdr_bytes (m : msghdr) : IM bytes :=
  match m with
  | [] => mret []
  | v :: m' => let* b := iovec_bytes v in let* b' := msghdr_bytes m' in mret (b ++ b')
  end.

(** The rest of a message of which [res] bytes have been sent. *)
Fixpoint consume (res : Z) (m : msghdr) : msghdr :=
  match m with
  | [] => []
  | v :: m' =>
      if iov_len v <=? res then consume (res - iov_len v) m'
      else if 0 <? res then mkIovec (iov_base v) (iov_off v + res) (iov_len v - res) :: m' else m
  end.

(** The result, and the bytes that have been sent. *)
Definition transmit (a : send_answer) (event_ok : bool) (c : conn) : IM (transmit_result * conn * bytes) :=
  let c :=
    match zlookup (msglist c) (msgcurr c) with
    | Some [] => set_msgcurr (msgcurr c + 1) c
    | _ => c
    end in
  match zlookup (msglist c) (msgcurr c) with
  | None => mret (TRANSMIT_COMPLETE, c, [])
  | Some m =>
      let* b := msghdr_bytes m in
      match a with
      | Sent n =>
          let out := ztake n b in
          if zlen out =? 0 then mret (TRANSMIT_HARD_ERROR, conn_set_state conn_closing c, [])
          else mret (TRANSMIT_INCOMPLETE, set_msglist (zinsert (msgcurr c) (consume (zlen out) m) (msglist c)) c, out)
      | SendWouldBlock =>
          if event_ok then mret (TRANSMIT_SOFT_ERROR, c, [])
          else mret (TRANSMIT_HARD_ERROR, conn_set_state conn_closing c, [])
      | SendFails => mret (TRANSMIT_HARD_ERROR, conn_set_state conn_closing c, [])
      end
  end.

(** ** [drive_machine] *)

(** How a turn of the loop ends: the loop goes on, it waits for the next event, or the
    connection has been closed. *)
Inductive verdict := Continue | Stop | Closed.

Definition goto (state : conn_states) (c : conn) : IM (verdict * conn * bytes) := mret (Continue, conn_set_state state c, []).
(** [update_event] fails: the connection is closed. *)
Definition wait_for_event (event_ok : bool) (c : conn) : IM (verdict * conn * bytes) :=
  if event_ok then mret (Stop, c, []) else goto conn_closing c.

(** The items that have been sent are released ([conn_mwrite]). *)
Fixpoint release_sent (n : nat) (c : conn) : IM conn :=
  match n with
  | O => mret c
  | S n' =>
      let* it := lift_result (vec_at (ilist c) (icurr c)) in
      let* i := the_item it in
      assert (negb (has_flag ITEM_SLABBED i)) ;;
      item_remove it ;;
      release_sent n' (set_icurr (icurr c + 1) (set_ileft (ileft c - 1) c))
  end.

Definition drive_write (e : io) (c : conn) : IM (verdict * conn * bytes) :=
  let* '(r, c, out) := transmit (sends e) (event_ok e) c in
  match r with
  | TRANSMIT_COMPLETE =>
      if decide (state c = conn_mwrite) then
        let* c := release_sent (Z.to_nat (ileft c)) c in
        mret (Continue, conn_set_state conn_new_cmd (set_suffixleft 0 c), out)
      else mret (Continue, conn_set_state (write_and_go c) c, out)
  | TRANSMIT_INCOMPLETE | TRANSMIT_HARD_ERROR => mret (Continue, c, out)
  | TRANSMIT_SOFT_ERROR => mret (Stop, c, out)
  end.

(** The answer of the next [read] when one is made. *)
Definition first_read (e : io) : read_answer := default ReadWouldBlock (head (reads e)).

Definition drive_nread (e : io) (c : conn) : IM (verdict * conn * bytes) :=
  if rlbytes c =? 0 then let* c := complete_nread_ascii st hash s c in mret (Continue, c, [])
  else
    let tocopy := if 0 <? rbytes c then Z.min (rbytes c) (rlbytes c) else 0 in
    (if 0 <? rbytes c then write_data (c_item c) (ritem c) (sub (rbuf c) (rcurr c) tocopy) else mret tt) ;;
    let c := set_ritem (ritem c + tocopy) (set_rlbytes (rlbytes c - tocopy)
      (set_rcurr (rcurr c + tocopy) (set_rbytes (rbytes c - tocopy) c))) in
    if rlbytes c =? 0 then mret (Continue, c, [])
    else
      match first_read e with
      | ReadData b =>
          let b := ztake (rlbytes c) b in
          if zlen b =? 0 then goto conn_closing c
          else
            write_data (c_item c) (ritem c) b ;;
            mret (Continue, set_ritem (ritem c + zlen b) (set_rlbytes (rlbytes c - zlen b) c), [])
      | ReadWouldBlock => wait_for_event (event_ok e) c
      | ReadFails => goto conn_closing c
      end.

Definition drive_swallow (e : io) (c : conn) : IM (verdict * conn * bytes) :=
  if sbytes c =? 0 then goto conn_new_cmd c
  else if 0 <? rbytes c then
    let tocopy := Z.min (rbytes c) (sbytes c) in
    mret (Continue, set_sbytes (sbytes c - tocopy) (set_rcurr (rcurr c + tocopy) (set_rbytes (rbytes c - tocopy) c)), [])
  else
    match first_read e with
    | ReadData b =>
        let b := ztake (Z.min (sbytes c) (rsize c)) b in
        if zlen b =? 0 then goto conn_closing c
        else mret (Continue, set_sbytes (sbytes c - zlen b) (set_rbuf (memcpy (rbuf c) 0 b) c), [])
    | ReadWouldBlock => wait_for_event (event_ok e) c
    | ReadFails => goto conn_closing c
    end.

(** One turn; [nreqs] is the number of commands that may still be handled. *)
Definition drive_step (e : io) (nreqs : Z) (c : conn) : IM (Z * (verdict * conn * bytes)) :=
  match state c with
  | conn_listening => stuck AssertFailed
  | conn_waiting =>
      let* r := if event_ok e then mret (Stop, conn_set_state conn_read c, []) else goto conn_closing c in mret (nreqs, r)
  | conn_read =>
      let '(r, c) := try_read_network (reads e) c in
      let* r := match r with
        | READ_NO_DATA_RECEIVED => goto conn_waiting c
        | READ_DATA_RECEIVED => goto conn_parse_cmd c
        | READ_ERROR => goto conn_closing c
        | READ_MEMORY_ERROR => mret (Continue, c, [])
        end in
      mret (nreqs, r)
  | conn_parse_cmd =>
      let* '(ok, c) := try_read_command c in
      mret (nreqs, (Continue, if ok : bool then c else conn_set_state conn_waiting c, []))
  | conn_new_cmd =>
      let nreqs := nreqs - 1 in
      if 0 <=? nreqs then let* c := reset_cmd_handler c in mret (nreqs, (Continue, c, []))
      else if (0 <? rbytes c) && negb (event_ok e) then mret (nreqs, (Stop, conn_set_state conn_closing c, []))
      else mret (nreqs, (Stop, c, []))
  | conn_nread => let* r := drive_nread e c in mret (nreqs, r)
  | conn_swallow => let* r := drive_swallow e c in mret (nreqs, r)
  | conn_write =>
      let* '(ok, c) :=
        if iovused c =? 0 then lift_result (add_iov (Text (wcurr c)) 0 (zlen (wcurr c)) c) else mret (true, c) in
      let* r := if (ok : bool) then drive_write e c else goto conn_closing c in
      mret (nreqs, r)
  | conn_mwrite => let* r := drive_write e c in mret (nreqs, r)
  | conn_closing => let* c := conn_cleanup c in mret (nreqs, (Closed, c, []))
  end.

End Machine.

End Machine.
