(* ===== verification/Output.v ===== *)
(** * Output of a memcached connection

    Queued output and what [sendmsg] takes of it, as byte streams: [add_iov] cuts a piece
    of memory into packets without losing a byte, and [transmit] sends exactly what is
    queued, in order, however the system cuts it. *)

From S2P Require Import Prelude Bytes CStrings ItemHeap Slabs Items ItemsInv Store Tokens Connection Commands Machine.
From stdpp Require Import base gmap list.
From Stdlib Require Import ZArith Lia.

Local Open Scope Z_scope.

Module Output.
Import ItemHeap Items ItemsInv Store Connection Commands Machine.

(** ** Pieces of memory *)

(** The bytes of a piece, when [rho] is what lies at the sources. *)
Definition piece (rho : source → bytes) (v : iovec) : bytes := sub (rho (iov_base v)) (iov_off v) (iov_len v).
Definition pieces_bytes (rho : source → bytes) (m : msghdr) : bytes := concat (map (piece rho) m).
Definition queued (rho : source → bytes) (l : list msghdr) : bytes := concat (map (pieces_bytes rho) l).

Definition in_bounds (rho : source → bytes) (v : iovec) : Prop :=
  0 ≤ iov_off v ∧ 0 ≤ iov_len v ∧ iov_off v + iov_len v ≤ zlen (rho (iov_base v)).

Lemma sub_zero b off : sub b off 0 = [].
Proof. done. Qed.

Lemma pieces_bytes_app rho m1 m2 : pieces_bytes rho (m1 ++ m2) = pieces_bytes rho m1 ++ pieces_bytes rho m2.
Proof. unfold pieces_bytes. by rewrite map_app, concat_app. Qed.
Lemma queued_app rho l1 l2 : queued rho (l1 ++ l2) = queued rho l1 ++ queued rho l2.
Proof. unfold queued. by rewrite map_app, concat_app. Qed.
Lemma queued_snoc rho l m : queued rho (l ++ [m]) = queued rho l ++ pieces_bytes rho m.
Proof. rewrite queued_app. unfold queued at 2. cbn. by rewrite app_nil_r. Qed.

Lemma vec_at_last {A} (l : list A) x : vec_at (l ++ [x]) (zlen (l ++ [x]) - 1) = Ok x.
Proof.
  unfold vec_at, zlookup, zlen. rewrite length_app. cbn [length]. rewrite (proj2 (Z.leb_le 0 _)) by lia.
  replace (Z.to_nat _) with (length l) by lia. by rewrite list_lookup_middle.
Qed.
Lemma zinsert_last {A} (l : list A) x y : zinsert (zlen (l ++ [x]) - 1) y (l ++ [x]) = l ++ [y].
Proof.
  unfold zinsert, zlen. rewrite length_app. cbn [length]. rewrite (proj2 (Z.leb_le 0 _)) by lia.
  replace (Z.to_nat _) with (length l) by lia. by rewrite insert_app_r_alt, Nat.sub_diag by lia.
Qed.

(** ** [add_iov] *)

(** What [add_iov] does not change. *)
Record same_but_output (c c' : conn) : Prop := {
  sb_state : state c' = state c;
  sb_rbuf : rbuf c' = rbuf c ∧ rcurr c' = rcurr c ∧ rbytes c' = rbytes c;
  sb_wcurr : wcurr c' = wcurr c ∧ write_and_go c' = write_and_go c;
  sb_item : c_item c' = c_item c ∧ ritem c' = ritem c ∧ rlbytes c' = rlbytes c ∧ sbytes c' = sbytes c ∧ cmd c' = cmd c;
  sb_lists : ilist c' = ilist c ∧ icurr c' = icurr c ∧ ileft c' = ileft c;
  sb_noreply : noreply c' = noreply c;
  sb_memory : realloc_answers c' = realloc_answers c;
  sb_msgcurr : msgcurr c' = msgcurr c
}.
Lemma same_but_output_refl c : same_but_output c c.
Proof. done. Qed.
Lemma same_but_output_trans c1 c2 c3 : same_but_output c1 c2 → same_but_output c2 c3 → same_but_output c1 c3.
Proof. intros [? (?&?&?) (?&?) (?&?&?&?&?) (?&?&?) ? ? ?] [? (?&?&?) (?&?) (?&?&?&?&?) (?&?&?) ? ? ?]. split; split_and?; congruence. Qed.

Lemma add_msghdr_ok c : realloc_answers c = [] →
  ∃ c', add_msghdr c = (true, c') ∧ msglist c' = msglist c ++ [[]] ∧ msgbytes c' = 0 ∧ same_but_output c c'.
Proof.
  intros Hmem. unfold add_msghdr, try_realloc. rewrite Hmem. destruct (msgsize c =? msgused c); eexists; done.
Qed.
Lemma ensure_iov_space_ok c : realloc_answers c = [] →
  ∃ c', ensure_iov_space c = (true, c') ∧ msglist c' = msglist c ∧ msgbytes c' = msgbytes c ∧ same_but_output c c'.
Proof.
  intros Hmem. unfold ensure_iov_space, try_realloc. rewrite Hmem. destruct (iovsize c <=? iovused c); eexists; done.
Qed.

(** The bytes of the first message never exceed a packet. *)
Definition packet_ok (c : conn) : Prop := msgused c = 1 → 0 ≤ msgbytes c ≤ UDP_MAX_PAYLOAD_SIZE.

Lemma push_last c l m v : msglist c = l ++ [m] →
  msglist (push_iov m v c) = l ++ [m ++ [v]] ∧ same_but_output c (push_iov m v c) ∧ msgbytes (push_iov m v c) = msgbytes c + iov_len v.
Proof. intros Hl. unfold push_iov. cbn. split; [|done]. unfold msgused. by rewrite Hl, zinsert_last. Qed.

Lemma last_message c l m : msglist c = l ++ [m] → vec_at (msglist c) (msgused c - 1) = Ok m.
Proof. intros Hl. unfold msgused. rewrite Hl. apply vec_at_last. Qed.

(** One turn of the loop: a piece of the length [n] is queued. *)
Lemma add_iov_turn rho src off len c l m :
  msglist c = l ++ [m] → realloc_answers c = [] → packet_ok c → 0 ≤ off → 0 ≤ len → off + len ≤ zlen (rho src) →
  let limit := 1 =? msgused c in
  ∃ c1 c' n, 0 ≤ n ≤ len ∧
    (∀ fuel, add_iov_loop (S fuel) src off len c = if 0 <? len - n then add_iov_loop fuel src (off + n) (len - n) c' else Ok (true, c')) ∧
    msgused c ≤ msgused c' ∧ (msgused c = 1 → UDP_MAX_PAYLOAD_SIZE ≤ msgbytes c → msgused c' = 2) ∧
    n = (if limit then Z.min len (UDP_MAX_PAYLOAD_SIZE - msgbytes c1) else len) ∧
    queued rho (msglist c') = queued rho (msglist c) ++ sub (rho src) off n ∧
    (∃ l' m', msglist c' = l' ++ [m']) ∧ packet_ok c' ∧ same_but_output c c' ∧ msgbytes c' = msgbytes c1 + n ∧
    (Forall (in_bounds rho) (concat (msglist c)) → Forall (in_bounds rho) (concat (msglist c'))) ∧
    (∀ v, v ∈ concat (msglist c') → v ∈ concat (msglist c) ∨ iov_base v = src).
Proof.
  intros Hl Hmem Hpk Ho Hlen Hb limit.
  set (full := (zlen m =? IOV_MAX) || (limit && (UDP_MAX_PAYLOAD_SIZE <=? msgbytes c))).
  assert (∃ l0 m0, let c0 := if full then snd (add_msghdr c) else c in msglist c0 = l0 ++ [m0] ∧ same_but_output c c0 ∧
    queued rho (msglist c0) = queued rho (msglist c) ∧ concat (msglist c0) = concat (msglist c) ∧
    (limit = true → 0 ≤ msgbytes c0 < UDP_MAX_PAYLOAD_SIZE)) as (l0 & m0 & Hl0 & Hs0 & Hq0 & Hc0 & Hb0).
  { destruct full eqn:Hf.
    - destruct (add_msghdr_ok c Hmem) as (c' & -> & Hm' & Hb' & Hs'). exists (l ++ [m]), []. cbn [snd]. rewrite Hm', Hl.
      split; [done|]. split; [done|]. split; [by rewrite (queued_snoc rho (l ++ [m])), app_nil_r|].
      split; [by rewrite concat_app, app_nil_r|]. intros _. rewrite Hb'. done.
    - exists l, m. split; [done|]. split; [done|]. split; [done|]. split; [done|]. intros Hlim. subst full. rewrite Hlim in Hf.
      apply orb_false_iff in Hf as [_ Hf]. cbn [andb] in Hf. apply Z.leb_gt in Hf. unfold limit in Hlim.
      specialize (Hpk (eq_sym (proj1 (Z.eqb_eq _ _) Hlim))). lia. }
  cbv zeta in *. set (c0 := if full then snd (add_msghdr c) else c) in *.
  destruct (ensure_iov_space_ok c0) as (c1 & He & Hm1 & Hmb1 & Hs1); [by destruct Hs0 as [_ _ _ _ _ _ -> _]|].
  set (n := if limit then Z.min len (UDP_MAX_PAYLOAD_SIZE - msgbytes c1) else len).
  assert (0 ≤ n ≤ len ∧ (limit = true → 0 ≤ msgbytes c1 + n ≤ UDP_MAX_PAYLOAD_SIZE)) as [Hn Hnb].
  { unfold n. rewrite Hmb1. destruct limit; [specialize (Hb0 eq_refl); lia|lia]. }
  assert (len - (if limit && (UDP_MAX_PAYLOAD_SIZE <? len + msgbytes c1) then len + msgbytes c1 - UDP_MAX_PAYLOAD_SIZE else 0) = n) as Hleft.
  { unfold n. destruct limit; cbn [andb]; [|lia]. destruct (Z.ltb_spec UDP_MAX_PAYLOAD_SIZE (len + msgbytes c1)); lia. }
  assert (msglist c1 = l0 ++ [m0]) as Hl1 by congruence.
  destruct (push_last c1 l0 m0 (mkIovec src off n) Hl1) as (Hp & Hsp & Hbp). set (c' := push_iov m0 (mkIovec src off n) c1) in *.
  exists c1, c', n. split; [done|]. split.
  { intros fuel. cbn [add_iov_loop]. rewrite (last_message c l m Hl). cbn [mbind result_bind]. fold limit full c0.
    rewrite He. cbn [negb]. rewrite (last_message c1 l0 m0 Hl1). cbn [mbind result_bind]. rewrite Hleft. fold c'.
    replace (if limit && _ then _ else 0) with (len - n) by lia. done. }
  assert (msgused c' = if full then msgused c + 1 else msgused c) as Hu'.
  { transitivity (zlen (l0 ++ [m0])); [unfold msgused, zlen; rewrite Hp, !length_app; done|]. rewrite <- Hl0. unfold c0.
    destruct full; [|done]. destruct (add_msghdr_ok c Hmem) as (? & -> & Hm' & _). cbn [snd]. unfold msgused, zlen. rewrite Hm', length_app. cbn. lia. }
  split; [rewrite Hu'; destruct full; lia|]. split.
  { intros Hone Hbig. rewrite Hu'. unfold full, limit. rewrite Hone. cbn [Z.eqb Pos.eqb andb]. rewrite (proj2 (Z.leb_le _ _)), orb_true_r by done. done. }
  split; [done|]. rewrite Hp, <- Hq0, <- Hc0, Hl0.
  split. { rewrite !queued_snoc, pieces_bytes_app. unfold pieces_bytes at 3. cbn. by rewrite app_nil_r, app_assoc. }
  split; [by eexists _, _|]. split.
  { intros Hone. rewrite Hbp. destruct limit eqn:Hlim; [by apply Hnb|]. exfalso. unfold limit in Hlim. apply Z.eqb_neq in Hlim.
    assert (1 ≤ msgused c) by (unfold msgused, zlen; rewrite Hl, length_app; cbn; lia). destruct full; lia. }
  split; [by do 2 (eapply same_but_output_trans; [done|])|]. split; [done|].
  rewrite !concat_app. cbn [concat]. rewrite !app_nil_r, !Forall_app. split.
  - intros [? ?]. split; [done|]. split; [done|]. constructor; [|done]. split; cbn; lia.
  - intros v. rewrite !elem_of_app, list_elem_of_singleton. intros [?|[?| ->]]; auto.
Qed.

(** When there is memory, [add_iov] queues the bytes of the piece. *)
Lemma add_iov_queues rho src off len c l m :
  msglist c = l ++ [m] → realloc_answers c = [] → packet_ok c → 0 ≤ off → 0 ≤ len → off + len ≤ zlen (rho src) →
  ∃ c' l' m', add_iov src off len c = Ok (true, c') ∧ msglist c' = l' ++ [m'] ∧ packet_ok c' ∧ same_but_output c c' ∧
    queued rho (msglist c') = queued rho (msglist c) ++ sub (rho src) off len ∧
    (Forall (in_bounds rho) (concat (msglist c)) → Forall (in_bounds rho) (concat (msglist c'))) ∧
    (∀ v, v ∈ concat (msglist c') → v ∈ concat (msglist c) ∨ iov_base v = src).
Proof.
  intros Hl Hmem Hpk Ho Hlen Hb. unfold add_iov. rewrite Hmem. change (3 + List.length [])%nat with 3%nat.
  destruct (add_iov_turn rho src off len c l m Hl Hmem Hpk Ho Hlen Hb)
    as (c1 & c2 & n1 & Hn1 & Hr1 & _ & Htwo & Hd1 & Hq1 & (l2 & m2 & Hl2) & Hp1 & Hs1 & Hb1 & HB1 & HV1).
  rewrite Hr1. destruct (Z.ltb_spec 0 (len - n1)).
  2: { assert (n1 = len) as -> by lia. by exists c2, l2, m2. }
  assert (realloc_answers c2 = []) as Hmem2 by (by destruct Hs1 as [_ _ _ _ _ _ -> _]).
  assert (msgused c = 1 ∧ msgbytes c2 = UDP_MAX_PAYLOAD_SIZE) as [Hone Hfull].
  { destruct (Z.eqb_spec 1 (msgused c)); [split; [done|]; lia|lia]. }
  destruct (add_iov_turn rho src (off + n1) (len - n1) c2 l2 m2 Hl2 Hmem2 Hp1 ltac:(lia) ltac:(lia) ltac:(lia))
    as (c3 & c4 & n2 & Hn2 & Hr2 & Hge2 & Htwo2 & Hd2 & Hq2 & (l4 & m4 & Hl4) & Hp2 & Hs2 & Hb2 & HB2 & HV2).
  pose proof (same_but_output_trans _ _ _ Hs1 Hs2) as Hs12.
  assert (queued rho (msglist c4) = queued rho (msglist c) ++ sub (rho src) off (n1 + n2)) as Hq12.
  { rewrite Hq2, Hq1, <- app_assoc. f_equal. rewrite (sub_split _ off (n1 + n2) n1) by lia. do 2 f_equal. lia. }
  assert (∀ v, v ∈ concat (msglist c4) → v ∈ concat (msglist c) ∨ iov_base v = src) as HV12.
  { intros v Hv. destruct (HV2 v Hv) as [Hv1|?]; [by apply HV1|by right]. }
  rewrite Hr2. destruct (Z.ltb_spec 0 (len - n1 - n2)).
  2: { assert (n2 = len - n1) as -> by lia. exists c4, l4, m4. rewrite Hq12. replace (n1 + (len - n1)) with len by lia. split_and!; auto. }
  assert (realloc_answers c4 = []) as Hmem4 by (by destruct Hs12 as [_ _ _ _ _ _ -> _]).
  assert (msgused c4 = 2) as Hu4.
  { destruct (Z.eqb_spec 1 (msgused c2)); [|lia]. apply Htwo2; lia. }
  destruct (add_iov_turn rho src (off + n1 + n2) (len - n1 - n2) c4 l4 m4 Hl4 Hmem4 Hp2 ltac:(lia) ltac:(lia) ltac:(lia))
    as (c5 & c6 & n3 & Hn3 & Hr3 & _ & _ & Hd3 & Hq3 & (l6 & m6 & Hl6) & Hp3 & Hs3 & Hb3 & HB3 & HV3).
  rewrite Hu4 in Hd3. change (1 =? 2) with false in Hd3. cbv iota in Hd3. subst n3.
  rewrite Hr3, (proj2 (Z.ltb_ge 0 _)) by lia. exists c6, l6, m6. split; [done|]. split; [done|]. split; [done|].
  split; [by eapply same_but_output_trans|]. split; [|split; [auto|]].
  - rewrite Hq3, Hq12, <- app_assoc. f_equal. rewrite (sub_split _ off len (n1 + n2)) by lia. do 2 f_equal; lia.
  - intros v Hv. destruct (HV3 v Hv) as [Hv1|?]; [by apply HV12|by right].
Qed.

(** ** [transmit] *)

(** What lies at the sources now. *)
Definition memory (x : cache) (src : source) : bytes :=
  match src with
  | Text b => b
  | KeyOf it => match heap_of x !! it with Some i => ITEM_key i | None => [] end
  | SuffixOf it => match heap_of x !! it with Some i => ITEM_suffix i ++ ITEM_data i | None => [] end
  | DataOf it => match heap_of x !! it with Some i => ITEM_data i | None => [] end
  end.
(** The item of a source is there. *)
Definition present (x : cache) (src : source) : Prop :=
  match src with Text _ => True | KeyOf it | SuffixOf it | DataOf it => is_Some (heap_of x !! it) end.
Definition readable (x : cache) (v : iovec) : Prop := in_bounds (memory x) v ∧ present x (iov_base v).

Lemma source_bytes_run x src : present x src → source_bytes src x = Ret (memory x src) x.
Proof. destruct src as [b|it|it|it]; cbn [present source_bytes memory]; [done|intros [i Hi]; rewrite Hi; by istep..]. Qed.
Lemma iovec_bytes_run x v : readable x v → iovec_bytes v x = Ret (piece (memory x) v) x.
Proof.
  intros [(H1 & H2 & H3) Hp]. unfold iovec_bytes. rewrite (M_bind_ret _ _ _ _ _ (source_bytes_run x _ Hp)).
  by rewrite !(proj2 (Z.leb_le _ _)) by lia.
Qed.
Lemma msghdr_bytes_run x m : Forall (readable x) m → msghdr_bytes m x = Ret (pieces_bytes (memory x) m) x.
Proof.
  induction 1 as [|v m Hv _ IH]; [done|]. cbn [msghdr_bytes].
  by rewrite (M_bind_ret _ _ _ _ _ (iovec_bytes_run x v Hv)), (M_bind_ret _ _ _ _ _ IH).
Qed.

Lemma consume_drops x res m : 0 ≤ res → Forall (readable x) m →
  pieces_bytes (memory x) (consume res m) = zdrop res (pieces_bytes (memory x) m) ∧ Forall (readable x) (consume res m).
Proof.
  intros Hres Hm. revert res Hres. induction Hm as [|v m [(H1 & H2 & H3) Hp] Hm IH]; intros res Hres; cbn [consume].
  - split; [symmetry; apply drop_nil|done].
  - change (pieces_bytes (memory x) (v :: m)) with (piece (memory x) v ++ pieces_bytes (memory x) m).
    assert (zlen (piece (memory x) v) = iov_len v) as Hl by (by apply zlen_sub).
    destruct (Z.leb_spec (iov_len v) res).
    + destruct (IH (res - iov_len v)) as [-> Hf]; [lia|]. split; [|done]. unfold zdrop. rewrite drop_app_ge by (unfold zlen in Hl; lia).
      f_equal. unfold zlen in Hl. lia.
    + destruct (Z.ltb_spec 0 res).
      * split; [|constructor; [|done]; by split; [split_and!; cbn; lia|]].
        change (pieces_bytes (memory x) (?w :: m)) with (piece (memory x) w ++ pieces_bytes (memory x) m). unfold piece. cbn.
        rewrite (sub_split _ (iov_off v) (iov_len v) res) by lia. unfold zdrop. rewrite <- app_assoc.
        assert (zlen (sub (memory x (iov_base v)) (iov_off v) res) = res) as Hz by (apply zlen_sub; lia).
        rewrite drop_app_ge by (unfold zlen in Hz; lia). unfold zlen in Hz. by replace (Z.to_nat res - _)%nat with O by lia.
      * assert (res = 0) as -> by lia. split; [done|]. constructor; [by split|done].
Qed.

Lemma drop_take_drop_min n (l : bytes) : l = take n l ++ drop (n `min` length l) l.
Proof.
  destruct (Nat.le_ge_cases n (length l)); [rewrite Nat.min_l by done; by rewrite take_drop|].
  rewrite Nat.min_r by done. by rewrite take_ge, drop_all, app_nil_r by done.
Qed.

(** What is still to be sent. *)
Definition pending (x : cache) (c : conn) : bytes := queued (memory x) (drop (Z.to_nat (msgcurr c)) (msglist c)).

Record output_ok (x : cache) (c : conn) : Prop := {
  oo_readable : Forall (readable x) (concat (msglist c));
  oo_msgcurr : 0 ≤ msgcurr c
}.

Lemma elem_of_concat {A} (x : A) ls : x ∈ concat ls ↔ ∃ l, x ∈ l ∧ l ∈ ls.
Proof.
  induction ls as [|l ls IH]; cbn [concat].
  - split; [by intros ?%elem_of_nil|by intros (? & _ & ?%elem_of_nil)].
  - rewrite elem_of_app, IH. setoid_rewrite elem_of_cons. split.
    + intros [?|(l' & ? & ?)]; [exists l; auto|exists l'; auto].
    + intros (l' & Hx & [->|?]); [by left|right; by exists l'].
Qed.
Lemma readable_message x l n m : Forall (readable x) (concat l) → l !! n = Some m → Forall (readable x) m.
Proof. intros Hf Hm. rewrite Forall_forall in Hf |- *. intros v Hv. apply Hf. apply elem_of_concat. exists m. by split; [|eapply list_elem_of_lookup_2]. Qed.
Lemma readable_insert x l n m : Forall (readable x) (concat l) → Forall (readable x) m → Forall (readable x) (concat (<[n := m]> l)).
Proof.
  intros Hf Hm. rewrite Forall_forall in Hf |- *. intros v. rewrite elem_of_concat. intros (m' & Hv & Hin).
  apply list_elem_of_lookup in Hin as [k Hk]. rewrite list_lookup_insert_Some in Hk.
  destruct Hk as [(_ & <- & _)|[_ Hk]]; [by rewrite Forall_forall in Hm; apply Hm|].
  apply Hf, elem_of_concat. exists m'. by split; [|eapply list_elem_of_lookup_2].
Qed.

(** What [transmit] does not change: all but the queue and the state. *)
Record same_but_sent (c c' : conn) : Prop := {
  ss_rbuf : rbuf c' = rbuf c ∧ rcurr c' = rcurr c ∧ rbytes c' = rbytes c;
  ss_wcurr : wcurr c' = wcurr c ∧ write_and_go c' = write_and_go c;
  ss_item : c_item c' = c_item c ∧ ritem c' = ritem c ∧ rlbytes c' = rlbytes c ∧ sbytes c' = sbytes c ∧ cmd c' = cmd c;
  ss_lists : ilist c' = ilist c ∧ icurr c' = icurr c ∧ ileft c' = ileft c;
  ss_noreply : noreply c' = noreply c;
  ss_memory : realloc_answers c' = realloc_answers c;
  ss_messages : length (msglist c') = length (msglist c) ∧ msgbytes c' = msgbytes c;
  ss_sources : ∀ v, v ∈ concat (msglist c') → ∃ w, w ∈ concat (msglist c) ∧ iov_base v = iov_base w
}.

Lemma consume_sources res m v : v ∈ consume res m → ∃ w, w ∈ m ∧ iov_base v = iov_base w.
Proof.
  revert res. induction m as [|u m IH]; intros res; cbn [consume]; [by intros ?%elem_of_nil|].
  destruct (_ <=? _); [|destruct (0 <? res)].
  - intros Hv. destruct (IH _ Hv) as (w & Hw & ?). exists w. by rewrite elem_of_cons; auto.
  - intros [->|Hv]%elem_of_cons; [exists u|exists v]; rewrite elem_of_cons; auto.
  - intros Hv. by exists v.
Qed.
Lemma insert_sources (l : list msghdr) n m m' v : l !! n = Some m → (∀ v, v ∈ m' → ∃ w, w ∈ m ∧ iov_base v = iov_base w) →
  v ∈ concat (<[n := m']> l) → ∃ w, w ∈ concat l ∧ iov_base v = iov_base w.
Proof.
  intros Hm Hv. rewrite elem_of_concat. intros (k & Hvk & Hk). apply list_elem_of_lookup in Hk as [i Hi].
  rewrite list_lookup_insert_Some in Hi. destruct Hi as [(-> & <- & _)|[_ Hi]].
  - destruct (Hv v Hvk) as (w & Hw & ?). exists w. split; [|done]. apply elem_of_concat. exists m. by split; [|eapply list_elem_of_lookup_2].
  - exists v. split; [|done]. apply elem_of_concat. exists k. by split; [|eapply list_elem_of_lookup_2].
Qed.

Lemma transmit_spec a ev x c : output_ok x c →
  ∃ r c' out, transmit a ev c x = Ret (r, c', out) x ∧ pending x c = out ++ pending x c' ∧ output_ok x c' ∧ same_but_sent c c' ∧
    (r = TRANSMIT_COMPLETE → pending x c' = []) ∧ state c' = (if decide (r = TRANSMIT_HARD_ERROR) then conn_closing else state c).
Proof.
  intros [Hr Hc]. unfold transmit.
  set (c1 := match zlookup (msglist c) (msgcurr c) with Some [] => _ | _ => c end).
  assert (∀ v, v ∈ concat (msglist c) → ∃ w, w ∈ concat (msglist c) ∧ iov_base v = iov_base w) as Hsame0 by (intros v ?; by exists v).
  assert (pending x c = pending x c1 ∧ msglist c1 = msglist c ∧ 0 ≤ msgcurr c1 ∧ same_but_sent c c1 ∧ state c1 = state c)
    as (Hp1 & Hl1 & Hc1 & Hs1 & Hst1).
  { assert (same_but_sent c c) as Hrefl by (by split).
    subst c1. destruct (zlookup (msglist c) (msgcurr c)) as [[|v m]|] eqn:Hm; [|done..].
    split; [|split; [done|split; [cbn; lia|split; [by split|done]]]].
    unfold pending. cbn. apply zlookup_nat in Hm. rewrite (drop_S _ _ _ Hm). by replace (Z.to_nat (msgcurr c + 1)) with (S (Z.to_nat (msgcurr c))) by lia. }
  rewrite Hp1. assert (output_ok x c1) as Hok1 by (split; [by rewrite Hl1|done]).
  destruct (zlookup (msglist c1) (msgcurr c1)) as [m|] eqn:Hm.
  - assert (Forall (readable x) m) as Hrm by (eapply readable_message; [apply Hok1|by apply zlookup_nat]).
    rewrite (M_bind_ret _ _ _ _ _ (msghdr_bytes_run x m Hrm)).
    set (m_bytes := pieces_bytes (memory x) m).
    assert (output_ok x (conn_set_state conn_closing c1)) as Hclosing by (split; apply Hok1).
    assert (∀ c2, c2 = c1 ∨ c2 = conn_set_state conn_closing c1 → same_but_sent c c2) as Hsame by (intros c2 [->| ->]; destruct Hs1; by split).
    destruct a as [n| |]; [|destruct ev|];
      try (eexists _, _, []; split; [reflexivity|]; split; [done|]; split; [done|]; split; [by apply Hsame; auto|done]).
    destruct (Z.eqb_spec (zlen (ztake n m_bytes)) 0) as [Hz|Hz];
      [eexists _, _, []; split; [reflexivity|]; split; [done|]; split; [done|]; split; [by apply Hsame; auto|done]|].
    pose proof (zlen_nonneg (ztake n m_bytes)) as Hnn. destruct (consume_drops x (zlen (ztake n m_bytes)) m Hnn Hrm) as [Hd Hrc].
    eexists _, _, (ztake n m_bytes). split; [reflexivity|]. split.
    + unfold pending. cbn. assert (Hm' := Hm). apply zlookup_nat in Hm'. unfold zinsert. rewrite (proj2 (Z.leb_le 0 _)) by done.
      rewrite (drop_S _ _ _ Hm'). assert (Z.to_nat (msgcurr c1) < length (msglist c1))%nat as Hlt by (by eapply lookup_lt_Some).
      rewrite (drop_S (<[_ := _]> _) (consume (zlen (ztake n m_bytes)) m) (Z.to_nat (msgcurr c1))) by (by apply list_lookup_insert_eq).
      rewrite (drop_insert_lt (msglist c1)) by lia. unfold queued. cbn [map concat]. fold m_bytes in Hd |- *. rewrite Hd, app_assoc. f_equal.
      unfold zdrop, zlen. rewrite Nat2Z.id. unfold ztake. rewrite length_take. apply drop_take_drop_min.
    + split; [|split; [|done]].
      2: { destruct Hs1 as [S1 S2 S3 S4 S5 S6 [S7 S8] S9]. split; try done.
           - split; [|exact S8]. cbn. unfold zinsert. by destruct (0 <=? _); rewrite ?length_insert.
           - intros v Hv. cbn in Hv. unfold zinsert in Hv. destruct (0 <=? _); [|by apply S9].
             apply (insert_sources _ _ m) in Hv as (w & Hw & ->); [by apply S9|by apply zlookup_nat|]. intros u. apply consume_sources. }
      split; [|done]. cbn. unfold zinsert. rewrite (proj2 (Z.leb_le 0 _)) by done.
      apply readable_insert; [apply Hok1|done].
  - eexists _, c1, []. split; [reflexivity|]. split; [done|]. split; [done|]. split; [done|]. split; [|done]. intros _.
    unfold pending, zlookup in *. rewrite (proj2 (Z.leb_le 0 _)) in Hm by done. apply lookup_ge_None in Hm. by rewrite drop_ge.
Qed.

(** ** Queueing several pieces *)

(** A connection whose output can be queued: there is memory and a message. *)
Record can_queue (x : cache) (c : conn) : Prop := {
  cq_memory : realloc_answers c = [];
  cq_message : ∃ l m, msglist c = l ++ [m];
  cq_packet : packet_ok c;
  cq_readable : Forall (readable x) (concat (msglist c))
}.
Definition iovec_of (p : source * Z * Z) : iovec := let '(src, off, len) := p in mkIovec src off len.

Lemma add_iov_readable x src off len c :
  can_queue x c → readable x (mkIovec src off len) →
  ∃ c', add_iov src off len c = Ok (true, c') ∧ can_queue x c' ∧ same_but_output c c' ∧
    queued (memory x) (msglist c') = queued (memory x) (msglist c) ++ piece (memory x) (mkIovec src off len) ∧
    (∀ v, v ∈ concat (msglist c') → v ∈ concat (msglist c) ∨ iov_base v = src).
Proof.
  intros [Hmem (l & m & Hl) Hpk Hr] [(H1 & H2 & H3) Hp].
  destruct (add_iov_queues (memory x) src off len c l m Hl Hmem Hpk H1 H2 H3) as (c' & l' & m' & Ha & Hl' & Hpk' & Hs & Hq & Hb & Hv).
  exists c'. split; [done|]. split; [|done]. split; [by destruct Hs as [_ _ _ _ _ _ -> _]|by eexists _, _|done|].
  assert (Forall (in_bounds (memory x)) (concat (msglist c))) as Hb0 by (eapply Forall_impl; [exact Hr|by intros v []]).
  specialize (Hb Hb0). rewrite Forall_forall in Hb, Hr |- *. intros v Hin. split; [by apply Hb|].
  destruct (Hv v Hin) as [Hin'| ->]; [by apply Hr|done].
Qed.

Lemma add_iovs_queue x l c : can_queue x c → Forall (readable x) (map iovec_of l) →
  ∃ c', add_iovs l c x = Ret (true, c') x ∧ can_queue x c' ∧ same_but_output c c' ∧
    queued (memory x) (msglist c') = queued (memory x) (msglist c) ++ pieces_bytes (memory x) (map iovec_of l) ∧
    (∀ v, v ∈ concat (msglist c') → v ∈ concat (msglist c) ∨ ∃ p, p ∈ l ∧ iov_base v = p.1.1).
Proof.
  intros Hc Hl. revert c Hc. induction l as [|[[src off] len] l IH]; intros c Hc; cbn [add_iovs].
  - exists c. split; [done|]. split; [done|]. split; [done|]. split; [by rewrite app_nil_r|]. by left.
  - apply Forall_cons in Hl as [Hp Hl].
    destruct (add_iov_readable x src off len c Hc Hp) as (c1 & Ha & Hc1 & Hs1 & Hq1 & Hv1).
    erewrite M_bind_ret by (unfold lift_result; rewrite Ha; reflexivity). cbv iota beta.
    destruct (IH Hl c1 Hc1) as (c2 & Hr2 & Hc2 & Hs2 & Hq2 & Hv2). exists c2. split; [done|]. split; [done|].
    split; [by eapply same_but_output_trans|]. split.
    + rewrite Hq2, Hq1, <- app_assoc. done.
    + intros v Hv. destruct (Hv2 v Hv) as [Hv'|(p & Hp' & ?)]; [|right; exists p; split; [by apply elem_of_cons; right|done]].
      destruct (Hv1 v Hv') as [?|Hb]; [by left|right]. exists (src, off, len). split; [by apply elem_of_cons; left|done].
Qed.

(** ** The stream that the client gets *)

(** [transmit] is called until everything is sent or the connection is given up. *)
Fixpoint transmit_all (answers : list (send_answer * bool)) (c : conn) : IM (conn * bytes * option transmit_result) :=
  match answers with
  | [] => mret (c, [], None)
  | (a, ev) :: answers' =>
      let* '(r, c, out) := transmit a ev c in
      match r with
      | TRANSMIT_COMPLETE | TRANSMIT_HARD_ERROR => mret (c, out, Some r)
      | _ => let* '(c, out', r) := transmit_all answers' c in mret (c, out ++ out', r)
      end
  end.

Lemma transmit_all_spec answers x c : output_ok x c →
  ∃ c' out r, transmit_all answers c x = Ret (c', out, r) x ∧ pending x c = out ++ pending x c' ∧
    (r = Some TRANSMIT_COMPLETE → pending x c' = []).
Proof.
  revert c. induction answers as [|[a ev] answers IH]; intros c Hok; cbn [transmit_all]; [by exists c, [], None|].
  destruct (transmit_spec a ev x c Hok) as (r & c1 & out & Hr & Hp & Hok1 & _ & Hdone & _).
  rewrite (M_bind_ret _ _ _ _ _ Hr). cbv iota beta.
  destruct r; try (exists c1, out, (Some TRANSMIT_COMPLETE); split; [done|]; split; [done|]; intros _; by apply Hdone);
    try (exists c1, out, (Some TRANSMIT_HARD_ERROR); by split);
    destruct (IH c1 Hok1) as (c2 & out2 & r2 & Hr2 & Hp2 & Hdone2); rewrite (M_bind_ret _ _ _ _ _ Hr2);
    exists c2, (out ++ out2), r2; (split; [done|]); (split; [|done]); by rewrite Hp, Hp2, app_assoc.
Qed.

(** C23: Output of a connection, when there is memory for the lists: the pieces of memory that
    [add_iov] has queued, cut into packets and messages, are sent by [transmit] byte for
    byte in their order, whatever part of a message each [sendmsg] takes; when [transmit]
    reports that it is complete, everything has been sent. *)
Theorem output_exact (x : cache) (c : conn) (l : list (source * Z * Z)) (answers : list (send_answer * bool))
  (Hmem : realloc_answers c = []) (Hl : Forall (readable x) (map iovec_of l)) :
  let c0 := snd (add_msghdr (set_iovused 0 (set_msglist [] (set_msgcurr 0 c)))) in
  ∃ c1 c2 out r, add_iovs l c0 x = Ret (true, c1) x ∧ transmit_all answers c1 x = Ret (c2, out, r) x ∧
    pieces_bytes (memory x) (map iovec_of l) = out ++ pending x c2 ∧
    (r = Some TRANSMIT_COMPLETE → out = pieces_bytes (memory x) (map iovec_of l)).
Proof.
  intros c0. destruct (add_msghdr_ok (set_iovused 0 (set_msglist [] (set_msgcurr 0 c))) Hmem) as (c' & Ha & Hm & Hb & Hs).
  assert (c0 = c') as -> by (unfold c0; by rewrite Ha). cbn in Hm.
  assert (can_queue x c') as Hc.
  { split; [by destruct Hs as [_ _ _ _ _ _ -> _]|by exists [], []|intros _; by rewrite Hb|by rewrite Hm]. }
  destruct (add_iovs_queue x l c' Hc Hl) as (c1 & Hr1 & Hc1 & Hs1 & Hq1 & _). rewrite Hm in Hq1.
  assert (msgcurr c1 = 0) as Hz.
  { destruct Hs1 as [_ _ _ _ _ _ _ ->], Hs as [_ _ _ _ _ _ _ ->]. done. }
  destruct (transmit_all_spec answers x c1) as (c2 & out & r & Hr2 & Hp & Hdone); [split; [apply Hc1|lia]|].
  assert (pending x c1 = pieces_bytes (memory x) (map iovec_of l)) as Hp1 by (unfold pending; rewrite Hz; exact Hq1).
  exists c1, c2, out, r. split; [done|]. split; [done|]. rewrite <- Hp1. split; [done|]. intros Hc2. by rewrite Hp, (Hdone Hc2), app_nil_r.
Qed.

End Output.
