(* ===== verification/ItemBodies.v ===== *)
(** * The contents of items

    Which operations of [Items] and [Store] leave the key, the suffix and the value of an
    item alone, and do not link it: all but those that write into it, allocate it or link
    it.  A program is decomposed along its binds, whatever the invariant. *)

From S2P Require Import Prelude Bytes CStrings ItemHeap Assoc AssocTheorems Slabs Items ItemsInv Store.
From stdpp Require Import base gmap list fin_maps.
From Stdlib Require Import ZArith Lia.

Local Open Scope Z_scope.

Module ItemBodies.
Import ItemHeap Items ItemsInv Store.

(** What is read of an item when it is sent. *)
Definition body (i : item) : bytes * bytes * bytes * Z := (ITEM_key i, ITEM_suffix i, ITEM_data i, nbytes i).

Record same_body (i i' : item) : Prop := {
  sbd_body : body i' = body i;
  sbd_unlinked : has_flag ITEM_LINKED i = false → has_flag ITEM_LINKED i' = false
}.
#[export] Instance same_body_refl : Reflexive same_body.
Proof. by intros i. Qed.
#[export] Instance same_body_trans : Transitive same_body.
Proof. intros i1 i2 i3 [B1 U1] [B2 U2]. split; [congruence|auto]. Qed.

(** The items of [P] stay what they are. *)
Definition stays (P : Z → Prop) (h h' : heap_t) : Prop :=
  ∀ x i, P x → h !! x = Some i → ∃ i', h' !! x = Some i' ∧ same_body i i'.

#[export] Instance stays_refl P : Reflexive (stays P).
Proof. intros h x i _ Hi. by exists i. Qed.
#[export] Instance stays_trans P : Transitive (stays P).
Proof.
  intros h1 h2 h3 H12 H23 x i Hx Hi. destruct (H12 x i Hx Hi) as (i2 & Hi2 & Hs2).
  destruct (H23 x i2 Hx Hi2) as (i3 & Hi3 & Hs3). exists i3. split; [done|]. by etrans.
Qed.
Lemma stays_mono (P Q : Z → Prop) h h' : stays P h h' → (∀ x, Q x → P x) → stays Q h h'.
Proof. intros Hs HQ x i Hx. by apply Hs, HQ. Qed.

Lemma stays_insert (P : Z → Prop) h p i i' : h !! p = Some i → (P p → same_body i i') → stays P h (<[p := i']> h).
Proof.
  intros Hp Hs x j Hx Hj. destruct (decide (p = x)) as [<-|Hne].
  - exists i'. split; [apply lookup_insert_eq|]. assert (j = i) as -> by congruence. by apply Hs.
  - exists j. by rewrite lookup_insert_ne.
Qed.
(** Changes of links. *)
Lemma stays_cores P h h' : same_cores h h' → stays P h h'.
Proof.
  intros Hc x i _ Hi. destruct (same_cores_item h h' x i Hc Hi) as (n & p & q & Hi'). by eexists.
Qed.

(** That, and no page begins or ends to be moved. *)
Record undisturbed (P : Z → Prop) (c c' : cache) : Prop := {
  ud_stays : stays P (heap_of c) (heap_of c');
  ud_moved : ∀ x, being_moved (the_pool c') x = being_moved (the_pool c) x
}.
#[export] Instance undisturbed_refl P : Reflexive (undisturbed P).
Proof. by intros c. Qed.
#[export] Instance undisturbed_trans P : Transitive (undisturbed P).
Proof. intros c1 c2 c3 [S1 M1] [S2 M2]. split; [by etrans|]. intros x. by rewrite M2, M1. Qed.

Definition steady {A} (P : Z → Prop) (p : IM A) : Prop := ∀ c a c', p c = Ret a c' → undisturbed P c c'.

Lemma steady_ret {A} P (a : A) : steady P (mret a).
Proof. intros c b c' [= _ <-]. done. Qed.
Lemma steady_stuck {A} P f : steady P (stuck f : IM A).
Proof. by intros c b c' ?. Qed.
Lemma steady_bind {A B} P (p : IM A) (k : A → IM B) : steady P p → (∀ a, steady P (k a)) → steady P (mbind k p).
Proof. intros Hp Hk c b c' Hr. apply M_bind_inv in Hr as (a & c1 & H1 & H2). etrans; [by eapply Hp|by eapply Hk]. Qed.
Lemma steady_gets {A} P (f : cache → A) : steady P (gets f).
Proof. intros c b c' [= _ <-]. done. Qed.
Lemma steady_lift {A} P (r : result A) : steady P (lift_result r : IM A).
Proof. intros c a c' Hr. destruct r; [by injection Hr as _ <-|done]. Qed.
Lemma steady_modify P f : (∀ c, heap_of (f c) = heap_of c ∧ the_pool (f c) = the_pool c) → steady P (modify f).
Proof. intros Hf c b c' [= _ <-]. destruct (Hf c) as [Hh Hp]. split; [by rewrite Hh|by rewrite Hp]. Qed.
Lemma steady_the_item P x : steady P (the_item x).
Proof. intros c b c' Hr. unfold the_item in Hr. destruct (get_item _ _); [by injection Hr as _ <-|done]. Qed.
Lemma steady_assert P b : steady P (assert b).
Proof. destruct b; [apply steady_ret|apply steady_stuck]. Qed.
Lemma steady_elem {A} P (arr : cache → list A) id : steady P (elem_at arr id).
Proof. apply steady_bind; [apply steady_gets|intros; apply steady_lift]. Qed.
Lemma steady_set_elem {A} P (arr : cache → list A) set id v :
  (∀ l c, heap_of (set l c) = heap_of c ∧ the_pool (set l c) = the_pool c) → steady P (set_elem arr set id v).
Proof.
  intros Hs. apply steady_bind; [apply steady_gets|]. intros l. apply steady_bind; [apply steady_lift|]. intros l'. by apply steady_modify.
Qed.
Lemma steady_heads P id v : steady P (set_elem heads set_heads id v). Proof. by apply steady_set_elem. Qed.
Lemma steady_tails P id v : steady P (set_elem tails set_tails id v). Proof. by apply steady_set_elem. Qed.
Lemma steady_sizes P id v : steady P (set_elem sizes set_sizes id v). Proof. by apply steady_set_elem. Qed.

Lemma steady_on_heap P f : (∀ h h', f h = Ok h' → stays P h h') → steady P (on_heap f).
Proof.
  intros Hf c a c' Hr. unfold on_heap in Hr. destruct (f (heap_of c)) as [h|] eqn:Hh; [|done]. injection Hr as _ <-. split; [|done]. by apply Hf.
Qed.
Lemma steady_on_item (P : Z → Prop) x f : (∀ i, P x → same_body i (f i)) → steady P (on_item x f).
Proof.
  intros Hf. apply steady_on_heap. intros h h' Hu. unfold upd_item, get_item in Hu. destruct (h !! x) as [i|] eqn:Hx; [|done].
  injection Hu as <-. apply (stays_insert P h x i); [done|apply Hf].
Qed.
Lemma upd_item_stays P p f h h' : (∀ i, same_body i (f i)) → upd_item p f h = Ok h' → stays P h h'.
Proof.
  intros Hf Hu. unfold upd_item, get_item in Hu. destruct (h !! p) as [i|] eqn:Hp; [|done]. injection Hu as <-.
  apply (stays_insert P h p i); [done|auto].
Qed.
Lemma link_front_stays P p q h h' : link_front p q h = Ok h' → stays P h h'.
Proof.
  unfold link_front. intros Hl. apply result_bind_inv in Hl as (h1 & H1 & H2).
  etrans; [by eapply upd_item_stays, H1|].
  destruct (q =? 0); [by injection H2 as <-|]. by eapply upd_item_stays, H2.
Qed.
Lemma link_around_stays P p h h' : link_around p h = Ok h' → stays P h h'.
Proof.
  unfold link_around. intros Hl. apply result_bind_inv in Hl as (i & _ & Hl). apply result_bind_inv in Hl as (h1 & H1 & Hl).
  apply result_bind_inv in Hl as (i2 & _ & H2). trans h1.
  - destruct (next i =? 0); [by injection H1 as <-|]. by eapply upd_item_stays, H1.
  - destruct (prev i2 =? 0); [by injection H2 as <-|]. by eapply upd_item_stays, H2.
Qed.
Lemma steady_on_table P f : (∀ t t', f t = Ok t' → AssocTheorems.same_items (Assoc.heap t) (Assoc.heap t')) → steady P (on_table f).
Proof.
  intros Hf c a c' Hr. unfold on_table in Hr. destruct (f (tbl c)) as [t|] eqn:Ht; [|done]. injection Hr as _ <-. split; [|done].
  apply stays_cores, same_items_cores. by apply Hf.
Qed.

(** The same for the allocator. *)
Definition steady_arena {A} (P : Z → Prop) (p : M Empty_set Slabs.arena A) : Prop :=
  ∀ ar a ar', p ar = Ret a ar' → stays P (Slabs.heap ar) (Slabs.heap ar') ∧
    ∀ x, being_moved (Slabs.the_pool ar') x = being_moved (Slabs.the_pool ar) x.
Lemma steady_on_arena {A} P (p : M Empty_set Slabs.arena A) : steady_arena P p → steady P (on_arena p).
Proof.
  intros Hp c a c' Hr. unfold on_arena in Hr. destruct (p _) as [a1 ar|[]|] eqn:Ha; [|done]. injection Hr as _ <-.
  destruct (Hp _ _ _ Ha). by split.
Qed.

Lemma clear_linked_body i : same_body i (clear_flag ITEM_LINKED i).
Proof. split; [done|]. intros _. by rewrite has_flag_clear by auto. Qed.
Lemma add_flag_body f i : is_flag f → f ≠ ITEM_LINKED → same_body i (add_flag f i).
Proof. intros Hf Hne. split; [done|]. intros Hl. rewrite has_flag_add, Hl by auto. rewrite orb_false_r. apply Z.eqb_neq. done. Qed.
Lemma set_cas_body v i : same_body i (ITEM_set_cas v i).
Proof. unfold ITEM_set_cas. by destruct (has_flag ITEM_CAS i). Qed.

Create HintDb steady.
#[export] Hint Resolve steady_ret steady_stuck steady_gets steady_lift steady_the_item steady_assert steady_elem steady_heads steady_tails
  steady_sizes : steady.
#[export] Hint Resolve clear_linked_body set_cas_body : steady.

(** A program is taken apart at its binds and tests. *)
Ltac steady :=
  repeat first
    [ progress intros
    | solve [eauto with steady]
    | apply steady_bind
    | apply steady_modify; done
    | apply steady_on_item; intros; solve [done | eauto with steady | apply add_flag_body; [eauto|done] | tauto]
    | apply steady_on_heap; intros; solve [eapply link_front_stays; eassumption | eapply link_around_stays; eassumption]
    | apply steady_on_table; intros;
      solve [eapply AssocTheorems.assoc_insert_same_items; eassumption | eapply AssocTheorems.assoc_delete_same_items; eassumption]
    | match goal with
      | |- steady _ (let '(_, _) := ?x in _) => destruct x
      | |- steady _ (if ?b then _ else _) => destruct b
      | |- steady _ (match ?x with _ => _ end) => destruct x
      end ].

(** ** Chunks that are given back *)

Lemma arena_bind {A B} P (p : M Empty_set Slabs.arena A) (k : A → M Empty_set Slabs.arena B) :
  steady_arena P p → (∀ a, steady_arena P (k a)) → steady_arena P (mbind k p).
Proof.
  intros Hp Hk c b c' Hr. apply M_bind_inv in Hr as (a & c1 & H1 & H2). destruct (Hp _ _ _ H1) as [S1 M1], (Hk _ _ _ _ H2) as [S2 M2].
  split; [by etrans|]. intros x. by rewrite M2, M1.
Qed.
Lemma arena_class_at P id : steady_arena P (Slabs.class_at id).
Proof.
  intros ar a ar' Hr. unfold Slabs.class_at in Hr. apply M_bind_inv in Hr as (l & ar1 & [= <- <-] & Hl).
  destruct (vec_at _ _); [by injection Hl as _ <-|done].
Qed.
Lemma arena_upd_class P id f : steady_arena P (Slabs.upd_class id f).
Proof. apply arena_bind; [apply arena_class_at|]. intros p ar a ar' [= _ <-]. done. Qed.
Lemma arena_on_heap P f : (∀ h h', f h = Ok h' → stays P h h') → steady_arena P (Slabs.on_heap f).
Proof.
  intros Hf ar a ar' Hr. unfold Slabs.on_heap in Hr. destruct (f (Slabs.heap ar)) as [h|] eqn:Hh; [|done]. injection Hr as _ <-.
  split; [by apply Hf|done].
Qed.
Lemma slabs_free_steady P ptr size id : steady P (on_arena (Slabs.do_slabs_free ptr size id)).
Proof.
  apply steady_on_arena. unfold Slabs.do_slabs_free.
  apply arena_bind; [intros ar a ar' Hr; unfold Slabs.load in Hr; destruct (get_item _ _); [by injection Hr as _ <-|done]|]. intros i.
  apply arena_bind; [intros ar a ar' Hr; destruct (slabs_clsid i =? 0); [by injection Hr as _ <-|done]|]. intros [].
  apply arena_bind; [by intros ar a ar' [= _ <-]|]. intros pl.
  apply arena_bind; [intros ar a ar' Hr; destruct (_ && _); [by injection Hr as _ <-|done]|]. intros [].
  apply arena_bind; [apply arena_class_at|]. intros p.
  apply arena_bind; [|intros _; apply arena_bind; [|intros _; apply arena_upd_class]].
  - apply arena_on_heap. intros h h'. apply upd_item_stays. intros j. by apply add_flag_body.
  - apply arena_on_heap. intros h h'. apply link_front_stays.
Qed.
#[export] Hint Resolve slabs_free_steady : steady.

(** ** The operations *)

Section Operations.
Context (st : Slabs.settings_t) (hash : bytes → Z) (P : Z → Prop).

Lemma link_q_steady it : steady P (item_link_q it).
Proof. unfold item_link_q. steady. Qed.
Lemma unlink_q_steady it : steady P (item_unlink_q it).
Proof. unfold item_unlink_q. steady. Qed.
#[local] Hint Resolve link_q_steady unlink_q_steady : steady.

Lemma item_free_steady it : steady P (item_free it).
Proof. unfold item_free. steady. Qed.
#[local] Hint Resolve item_free_steady : steady.
Lemma remove_steady it : steady P (do_item_remove it).
Proof. unfold do_item_remove. steady. Qed.
#[local] Hint Resolve remove_steady : steady.
Lemma unlink_steady it hv : steady P (do_item_unlink_nolock it hv).
Proof. unfold do_item_unlink_nolock. steady. Qed.
Lemma update_steady it : steady P (do_item_update it).
Proof. unfold do_item_update. steady. Qed.
#[local] Hint Resolve unlink_steady update_steady : steady.
Lemma get_cas_id_steady : steady P get_cas_id.
Proof. unfold get_cas_id. steady. Qed.
#[local] Hint Resolve get_cas_id_steady : steady.

(** An item that is linked is to be none of [P]. *)
Lemma link_steady it hv : ¬ P it → steady P (do_item_link st it hv).
Proof. intros Hit. unfold do_item_link. steady. Qed.
Lemma replace_steady it new_it hv : ¬ P new_it → steady P (do_item_replace st it new_it hv).
Proof. intros Hit. unfold do_item_replace, do_item_unlink. pose proof (link_steady new_it hv Hit). steady. Qed.

Lemma get_steady key hv : steady P (do_item_get key hv).
Proof. unfold do_item_get, do_item_unlink. steady. Qed.
#[local] Hint Resolve get_steady : steady.
Lemma touch_steady key exptime hv : steady P (do_item_touch key exptime hv).
Proof. unfold do_item_touch. steady. Qed.
Lemma item_unlink_steady it : steady P (item_unlink hash it).
Proof. unfold item_unlink, do_item_unlink. steady. Qed.

Lemma flush_loop_steady fuel it : steady P (flush_loop hash fuel it).
Proof. revert it. induction fuel as [|fuel IH]; intros it; cbn [flush_loop]; steady. Qed.
#[local] Hint Resolve flush_loop_steady : steady.
Lemma flush_queues_steady n id : steady P (flush_queues hash n id).
Proof. revert id. induction n as [|n IH]; intros id; cbn [flush_queues]; steady. Qed.
#[local] Hint Resolve flush_queues_steady : steady.
Lemma flush_steady : steady P (do_item_flush_expired hash).
Proof. unfold do_item_flush_expired. steady. Qed.

Lemma write_steady it off d : ¬ P it → steady P (write_data it off d).
Proof. intros Hit. unfold write_data. steady. Qed.

Lemma finish_store_steady stored it old_it new_it cas : steady P (finish_store stored it old_it new_it cas).
Proof. unfold finish_store. steady. Qed.
Lemma link_or_replace_steady old_it it hv : ¬ P it → steady P (link_or_replace st old_it it hv).
Proof.
  intros Hit. unfold link_or_replace, item_replace. pose proof (link_steady it hv Hit). pose proof (replace_steady old_it it hv Hit). steady.
Qed.

End Operations.
#[export] Hint Resolve link_q_steady unlink_q_steady item_free_steady remove_steady unlink_steady update_steady get_cas_id_steady
  link_steady replace_steady get_steady touch_steady item_unlink_steady flush_steady write_steady finish_store_steady
  link_or_replace_steady : steady.

End ItemBodies.
