(* ===== verification/ItemUse.v ===== *)
(** * The cache as a connection uses it

    The operations of [Items] and [Store] that the commands call, for a user who holds some
    references while others hold the rest: each ends, counts the references exactly, leaves
    the contents of the items in use alone, and a lookup changes no answer. *)

From S2P Require Import Prelude Bytes CStrings McUtil ItemHeap Assoc AssocTheorems Slabs SlabsTheorems SlabsAlloc SlabsSafety ChunkAllocator Items ItemsInv ItemsOps ItemsAlloc ItemsRefs Store StoreOps ItemsFlush ItemsRequests StoreTheorems ItemBodies.
From Stdlib Require Import ZArith Lia Sorted.
From stdpp Require Import base gmap list fin_maps functions sorting.

Local Open Scope Z_scope.

Module ItemUse.
Import ItemHeap ChunkAllocator Items ItemsInv ItemsOps ItemsAlloc ItemsRefs Store StoreOps ItemsRequests StoreTheorems ItemBodies.

(** ** References *)

(** The references [R] of the others with those of a user, who holds the items of [l]. *)
Definition with_refs (R : Z → Z) (l : list Z) : Z → Z := λ x, R x + Z.of_nat (count_occ Z.eq_dec l x).

Lemma with_refs_nil R x : with_refs R [] x = R x.
Proof. unfold with_refs. cbn. lia. Qed.
Lemma with_refs_app R l1 l2 x : with_refs R (l1 ++ l2) x = with_refs (with_refs R l1) l2 x.
Proof. unfold with_refs. rewrite count_occ_app. lia. Qed.
Lemma with_refs_one R x y : with_refs R [x] y = (<[x := R x + 1]> R) y.
Proof.
  unfold with_refs. cbn. destruct (Z.eq_dec x y) as [->|Hne]; [by rewrite fn_lookup_insert|rewrite fn_lookup_insert_ne by done; lia].
Qed.
Lemma with_refs_snoc R l x y : with_refs R (l ++ [x]) y = (<[x := with_refs R l x + 1]> (with_refs R l)) y.
Proof. by rewrite with_refs_app, with_refs_one. Qed.
Lemma with_refs_drop R l x y : with_refs R l y = (<[x := with_refs R (x :: l) x - 1]> (with_refs R (x :: l))) y.
Proof.
  unfold with_refs. destruct (decide (x = y)) as [->|Hne].
  - rewrite fn_lookup_insert. cbn. destruct (Z.eq_dec y y); [lia|done].
  - rewrite fn_lookup_insert_ne by done. cbn. by destruct (Z.eq_dec x y).
Qed.
Lemma with_refs_held R l x : 0 ≤ R x → x ∈ l → 1 ≤ with_refs R l x.
Proof. intros HR Hx. apply list_elem_of_In, (count_occ_In Z.eq_dec) in Hx. unfold with_refs. lia. Qed.
Lemma with_refs_ge R l x : R x ≤ with_refs R l x.
Proof. unfold with_refs. lia. Qed.

(** ** Answers *)

(** What a lookup shows of an item. *)
Definition shown (i : item) : bytes * bytes * bytes * Z * Z := (body i, ITEM_get_cas i).
Definition answer (hash : bytes → Z) (c : cache) (key : bytes) : option (bytes * bytes * bytes * Z * Z) :=
  (shown ∘ snd) <$> found_live hash c key.

Lemma shown_links i i' : with_links i i' → shown i' = shown i.
Proof. by intros (n & p & q & ->). Qed.
Lemma expired_links now oldest i i' : with_links i i' → expired now oldest i' = expired now oldest i.
Proof. by intros (n & p & q & ->). Qed.
Lemma same_body_links i i' : with_links i i' → same_body i i'.
Proof. by intros (n & p & q & ->). Qed.
Lemma shown_fetched o : shown (add_flag ITEM_FETCHED (refcount_incr o)) = shown o.
Proof. unfold shown. destruct (fetched_same o) as (_ & -> & _). done. Qed.

Lemma kept_stays X m R c c' (P : Z → Prop) :
  kept X m R c c' → (∀ y, P y → (y ∉ X) ∧ 1 ≤ R y) → stays P (heap_of c) (heap_of c').
Proof.
  intros Hk HP x i Hx Hi. destruct (HP x Hx) as [HxX HxR].
  destruct (kept_item _ _ _ _ _ x i Hk HxX (or_introl HxR) Hi) as (i' & Hi' & Hw). exists i'. split; [done|by apply same_body_links].
Qed.

(** What an operation that only looks up, holds and releases items does to the others. *)
Record quiet (hash : bytes → Z) (c c' : cache) : Prop := {
  qt_undisturbed : undisturbed (λ _, True) c c';
  qt_answers : ∀ k, answer hash c' k = answer hash c k;
  qt_clock : current_time c' = current_time c;
  qt_live : oldest_live c' = oldest_live c
}.
#[export] Instance quiet_refl hash : Reflexive (quiet hash).
Proof. by intros c. Qed.
#[export] Instance quiet_trans hash : Transitive (quiet hash).
Proof. intros c1 c2 c3 [U1 A1 T1 L1] [U2 A2 T2 L2]. split; [by etrans|intros k; by rewrite A2|congruence..]. Qed.

Section Use.
Context {st : Slabs.settings_t} {hash : bytes → Z} {largest : Z} {sz : Z → Z}.
Context {Holds : Slabs.arena → gmap Z Z → Prop} `{HA : !ChunkAllocator st largest sz Holds}.
Context (Hlargest : largest < LARGEST_ID).

Abbreviation ok := (ok (hash := hash) (sz := sz) (Holds := Holds)).

Abbreviation got := (got (hash := hash) (sz := sz) (Holds := Holds)).

Definition inside (R : Z → Z) (c : cache) : Prop := ∃ m, ok m R c.

Lemma inside_ext R R' c : inside R c → (∀ x, R' x = R x) → inside R' c.
Proof. intros [m Hok] HR. exists m. by eapply ok_ext. Qed.
Lemma inside_nonneg R c x : inside R c → 0 ≤ R x.
Proof. intros (m & H & L & Hok). by apply (refs_nonneg x Hok). Qed.
Lemma inside_item R c x : inside R c → 1 ≤ R x →
  ∃ i, heap_of c !! x = Some i ∧ x ≠ 0 ∧ shaped (ITEM_key i) (nbytes i) (ITEM_data i) (ITEM_suffix i).
Proof. intros [m Hok] HR. destruct (ok_item Hlargest m R c x Hok HR) as (i & Hi & _ & Hx0 & Hs & _). by exists i. Qed.

Lemma inside_slabbed R c x i : inside R c → 1 ≤ R x → heap_of c !! x = Some i → has_flag ITEM_SLABBED i = false.
Proof. intros (m & H & L & Hok) HR Hi. destruct (referenced Hok HR) as (_ & id & i' & _ & Hi' & Hio). assert (i' = i) as -> by congruence. apply (io_slabbed Hio). Qed.

(** The lookup of [k] gives the same when the item under it has not changed much. *)
Lemma answer_same m R m' R' c c' k :
  ok m R c → ok m' R' c' → m' !! k = m !! k → current_time c' = current_time c → oldest_live c' = oldest_live c →
  (∀ x, being_moved (the_pool c') x = being_moved (the_pool c) x) →
  (∀ y i, m !! k = Some y → heap_of c !! y = Some i → ∃ i', heap_of c' !! y = Some i' ∧ shown i' = shown i ∧
     expired (current_time c) (oldest_live c) i' = expired (current_time c) (oldest_live c) i) →
  answer hash c' k = answer hash c k.
Proof.
  intros Hok Hok' Hm Ht Hl Hmv Hi. unfold answer. rewrite (found_live_eq Hlargest m R c k Hok), (found_live_eq Hlargest m' R' c' k Hok').
  unfold live. rewrite Hm. destruct (m !! k) as [y|] eqn:Hy; [|done]. cbn.
  destruct (ok_linked Hlargest m R c k y Hok Hy) as (i & Hy' & _). destruct (Hi y i eq_refl Hy') as (i' & Hy'' & Hs & He).
  rewrite Hy', Hy''. cbn. rewrite Ht, Hl, Hmv, He. destruct (_ || _); [done|]. cbn. by rewrite Hs.
Qed.
(** A kept item is one of those. *)
Lemma kept_answer X m R c c' k y i : kept X m R c c' → m !! k = Some y → y ∉ X → heap_of c !! y = Some i →
  ∃ i', heap_of c' !! y = Some i' ∧ shown i' = shown i ∧ expired (current_time c) (oldest_live c) i' = expired (current_time c) (oldest_live c) i.
Proof.
  intros Hk Hy HX Hi. destruct (kept_item _ _ _ _ _ y i Hk HX (or_intror (ex_intro _ k Hy)) Hi) as (i' & Hi' & Hw).
  exists i'. split; [done|]. split; [by apply shown_links|by apply expired_links].
Qed.

Lemma index_inj m R c k k' x : ok m R c → m !! k = Some x → m !! k' = Some x → k' = k.
Proof.
  intros Hok Hk Hk'. destruct (ok_linked Hlargest m R c k x Hok Hk) as (i & Hi & <- & _).
  by destruct (ok_index_inv Hlargest m R c k' x i Hok Hk' Hi).
Qed.

(** *** Lookup *)

Lemma use_get R c key : inside R c → (∀ x, R x + 2 < 2 ^ 16) →
  ∃ x c', item_get hash key c = Ret x c' ∧ quiet hash c c' ∧
    match answer hash c key with
    | None => x = 0 ∧ inside R c'
    | Some a => x ≠ 0 ∧ inside (<[x := R x + 1]> R) c' ∧
        ∃ i, heap_of c' !! x = Some i ∧ shown i = a ∧ has_flag ITEM_LINKED i = true ∧ ITEM_key i = key ∧
          expired (current_time c') (oldest_live c') i = false
    end.
Proof.
  intros [m Hok] Hfew. pose proof (get_steady (λ _, True) key (hash key) c) as Hs.
  destruct (get_live Hlargest m R c key Hok Hfew) as (c' & Hc). unfold answer.
  rewrite (found_live_eq Hlargest m R c key Hok). destruct (live m c key) as [[x o]|] eqn:Hlive.
  - destruct Hc as (Hr & Hok' & Hx & Hk & Ho & Ho' & _). unfold indexed in Hk. rewrite Hx in Hk. cbn in Hk.
    specialize (Hs _ _ Hr). exists x, c'. split; [done|].
    destruct (ok_linked Hlargest m _ c' key x Hok' Hx) as (o' & Ho'' & Hko & Hlo & Hx0 & _). rewrite Ho' in Ho''. injection Ho'' as <-.
    split; [split; [done| |apply Hk|apply Hk]|cbn].
    + intros k. eapply answer_same; [exact Hok|exact Hok'|done|apply Hk|apply Hk|apply (ud_moved _ _ _ Hs)|].
      intros y i Hy Hi. destruct (decide (y = x)) as [->|Hne]; [|by eapply kept_answer; [exact Hk|exact Hy|by rewrite list_elem_of_singleton|]].
      assert (i = o) as -> by congruence. eexists. split; [exact Ho'|]. split; [apply shown_fetched|done].
    + split; [done|]. split; [by exists m|]. eexists. split; [exact Ho'|]. split; [apply shown_fetched|]. split; [done|]. split; [done|].
      unfold live in Hlive. rewrite Hx in Hlive. cbn in Hlive. rewrite Ho in Hlive. cbn in Hlive.
      destruct (_ || expired _ _ _) eqn:He in Hlive; [done|]. apply orb_false_iff in He as [_ He].
      by rewrite (kp_clock _ _ _ _ _ Hk), (kp_live _ _ _ _ _ Hk).
  - destruct Hc as (Hr & Hok' & Hk). specialize (Hs _ _ Hr). exists 0, c'. split; [done|]. split; [|split; [done|by exists (delete key m)]].
    split; [done| |apply Hk..]. intros k. destruct (decide (k = key)) as [->|Hne].
    + unfold answer. rewrite (found_live_eq Hlargest m R c key Hok), Hlive, (found_live_eq Hlargest _ R c' key Hok').
      unfold live. by rewrite lookup_delete_eq.
    + eapply answer_same; [exact Hok|exact Hok'|by rewrite lookup_delete_ne|apply Hk|apply Hk|apply (ud_moved _ _ _ Hs)|].
      intros y i Hy Hi. eapply (kept_answer _ _ _ _ _ k); [exact Hk|by rewrite lookup_delete_ne| |done].
      rewrite elem_of_indexed. intros Hy'. exact (Hne (index_inj m R c key k y Hok Hy' Hy)).
Qed.

(** *** Holding and releasing *)

Lemma update_undisturbed R c x : inside R c → 1 ≤ R x →
  ∃ c', item_update x c = Ret tt c' ∧ inside R c' ∧ undisturbed (λ _, True) c c'.
Proof.
  intros [m Hok] HR. destruct (ok_item Hlargest m R c x Hok HR) as (i & Hi & _).
  destruct (update_ok Hlargest m R c x i Hok HR Hi) as (c' & i' & Hr & Hok' & _). exists c'. split; [done|]. split; [by exists m|].
  exact (update_steady (λ _, True) x c _ c' Hr).
Qed.

Lemma expired_updated now oldest i : time i ≤ now → expired now oldest i = false → expired now oldest (set_time now i) = false.
Proof.
  unfold expired. cbn. intros Ht He. apply orb_false_iff in He as [H1 ->]. rewrite orb_false_r.
  destruct (Z.eqb_spec oldest 0); [done|]. destruct (Z.leb_spec oldest now); [|done]. cbn in *. apply Z.leb_gt in H1. apply Z.leb_gt. lia.
Qed.

(** An update of an item that has just been found. *)
Lemma use_update R c x i : inside R c → 1 ≤ R x → heap_of c !! x = Some i → has_flag ITEM_LINKED i = true →
  expired (current_time c) (oldest_live c) i = false →
  ∃ c', item_update x c = Ret tt c' ∧ inside R c' ∧ quiet hash c c'.
Proof.
  intros (m & H & L & Hok) HR Hi Hl He. destruct (referenced Hok HR) as (Hd & id & i0 & Hx & Hi0 & _).
  assert (i0 = i) as -> by congruence. clear Hi0.
  destruct (do_item_update_spec Hlargest Hok Hx Hd Hi) as (c' & L' & i' & Hr & Hok' & Hf & Hi' & Hw).
  exists c'. split; [done|]. split; [by exists m, H, L'|].
  pose proof (update_steady (λ _, True) x c _ c' Hr) as Hu. split; [done| |apply Hf|apply Hf]. intros k.
  assert (kept [x] m R c c') as Hk by (by eapply frame_kept).
  eapply answer_same; [by exists H, L|by exists H, L'|done|apply Hf|apply Hf|apply (ud_moved _ _ _ Hu)|]. intros y j Hy Hj.
  destruct (decide (y = x)) as [->|Hne]; [|by eapply kept_answer; [exact Hk|exact Hy|by rewrite list_elem_of_singleton|]].
  assert (j = i) as -> by congruence. exists i'. split; [done|].
  rewrite (shown_links _ _ Hw), (expired_links _ _ _ _ Hw), Hl. cbn [andb]. destruct (_ <? _); [|done]. split; [done|].
  rewrite He. apply expired_updated; [|done]. destruct (held_class Hlargest Hok Hx) as (Hq & _).
  pose proof (co_times Hok id x Hq) as Ht. unfold time_at in Ht. rewrite Hi in Ht. apply Ht, (co_linked Hok); [done|].
  split; [done|]. unfold linked_at. by rewrite Hi.
Qed.

Lemma use_remove R c x : inside R c → 1 ≤ R x →
  ∃ c', item_remove x c = Ret tt c' ∧ inside (<[x := R x - 1]> R) c' ∧ undisturbed (λ _, True) c c'.
Proof.
  intros [m Hok] HR. destruct (ok_item Hlargest m R c x Hok HR) as (i & Hi & _).
  destruct (remove_ok Hlargest m R c x i Hok HR Hi) as (c' & Hr & Hok' & _). exists c'. split; [done|]. split; [by exists m|].
  exact (remove_steady (λ _, True) x c _ c' Hr).
Qed.

(** The requests of [ItemsRequests]. *)
Lemma use_exec s r R c : inside R c → requires st hash s R c r →
  ∃ ret c', exec st hash (λ p, p <=? 32) s r c = Ret ret c' ∧ inside (refs_after r ret R) c'.
Proof.
  intros (m & H & L & Hok) Hreq.
  destruct (exec_ok st hash (λ p, p <=? 32) largest sz Holds Hlargest ltac:(intros p Hp; by apply Z.leb_gt) H L m R c s r Hok Hreq)
    as (ret & c' & H' & L' & m' & Hr & Hok'). exists ret, c'. split; [done|]. by exists m', H', L'.
Qed.
Lemma no_result_inv (p : IM unit) ret c c' : no_result p c = Ret ret c' → p c = Ret tt c'.
Proof. unfold no_result. intros Hr. by apply M_bind_inv in Hr as ([] & c1 & Hr & [= _ <-]). Qed.

Lemma use_unlink R c x : inside R c → (∀ x, R x + 2 < 2 ^ 16) → 1 ≤ R x →
  ∃ c', item_unlink hash x c = Ret tt c' ∧ inside R c' ∧ undisturbed (λ _, True) c c'.
Proof.
  intros Hin Hfew HR. destruct (use_exec (mkSys (Slabs.mkEnv 0 false) (λ _, false) false [] 0 (λ _, [])) (Unlink x) R c Hin) as (ret & c' & Hr & Hin'); [done|].
  apply no_result_inv in Hr. exists c'. split; [done|]. split; [done|]. exact (item_unlink_steady hash (λ _, True) x c _ c' Hr).
Qed.

Lemma use_touch R c key exptime : inside R c → (∀ x, R x + 2 < 2 ^ 16) →
  ∃ x c', item_touch hash key exptime c = Ret x c' ∧ inside (if x =? 0 then R else <[x := R x + 1]> R) c' ∧ undisturbed (λ _, True) c c'.
Proof.
  intros Hin Hfew.
  destruct (use_exec (mkSys (Slabs.mkEnv 0 false) (λ _, false) false [] 0 (λ _, [])) (Touch key exptime) R c Hin) as (ret & c' & Hr & Hin'); [done|].
  exists ret, c'. split; [done|]. split; [done|]. exact (touch_steady (λ _, True) key exptime (hash key) c _ c' Hr).
Qed.

Lemma use_flush R c : inside R c → (∀ x, R x + 2 < 2 ^ 16) →
  ∃ c', item_flush_expired hash c = Ret tt c' ∧ inside R c' ∧ undisturbed (λ _, True) c c'.
Proof.
  intros Hin Hfew. destruct (use_exec (mkSys (Slabs.mkEnv 0 false) (λ _, false) false [] 0 (λ _, [])) FlushExpired R c Hin) as (ret & c' & Hr & Hin'); [done|].
  apply no_result_inv in Hr. exists c'. split; [done|]. split; [done|]. exact (flush_steady hash (λ _, True) c _ c' Hr).
Qed.

(** *** Allocation *)

Lemma use_alloc R c s key flags exptime nbytes : inside R c → may_allocate st s R c → alloc_args key flags nbytes →
  ∃ x c', item_alloc st hash s key flags exptime nbytes c = Ret x c' ∧ stays (λ y, 1 ≤ R y) (heap_of c) (heap_of c') ∧
    if x =? 0 then inside R c'
    else R x = 0 ∧ inside (<[x := R x + 1]> R) c' ∧ ∃ i, heap_of c' !! x = Some i ∧ ITEM_key i = key ∧ ItemHeap.nbytes i = nbytes ∧
      ItemHeap.exptime i = exptime ∧ ITEM_suffix i = item_suffix flags nbytes ∧ has_flag ITEM_LINKED i = false.
Proof.
  intros [m Hok] [Hu Hsys] Ha.
  destruct (alloc_ok Hlargest m R c s key flags exptime nbytes 0 Hok Hu Hsys Ha) as (x & c' & m' & Hr & Hc).
  exists x, c'. split; [done|]. destruct (x =? 0).
  - destruct Hc as (-> & Hok' & Hk). split; [|by exists m]. eapply kept_stays; [exact Hk|]. intros y Hy. split; [apply not_elem_of_nil|done].
  - destruct Hc as (HR & Hok' & Hk & _ & Hi). split; [|split; [done|]; split; [exists m'; by rewrite HR|done]].
    eapply kept_stays; [exact Hk|]. intros y Hy. assert (y ≠ x) by (intros ->; lia).
    rewrite list_elem_of_singleton, fn_lookup_insert_ne by done. done.
Qed.

(** *** Storing and counting *)

Lemma steady_run {A} (P : Z → Prop) (p : IM A) c0 a c' : p c0 = Ret a c' → steady P p → stays P (heap_of c0) (heap_of c').
Proof. intros Hr Hs. exact (ud_stays _ _ _ (Hs c0 a c' Hr)). Qed.

Lemma got_others m R c c1 key x o (P : Z → Prop) : got m R c c1 key x o → (∀ y, P y → 1 ≤ R y) → ∀ y, P y → 1 ≤ (<[x := R x + 1]> R) y.
Proof.
  intros Hg HP y Hy. specialize (HP y Hy). destruct (decide (y = x)) as [->|Hne]; [rewrite fn_lookup_insert; lia|by rewrite fn_lookup_insert_ne].
Qed.

(** What follows the concatenation of two values in [do_store_item]. *)
Lemma concatenation_stays m R c c1 s it i x o comm cas stored cas' c' (P : Z → Prop) :
  got m R c c1 (ITEM_key i) x o → ok m R c → (∀ z, R z + 3 < 2 ^ 16) → 1 ≤ R it → heap_of c !! it = Some i →
  has_flag ITEM_LINKED i = false → users_ok R c → system_ready (st := st) s c → current_time c ≤ u32 (time o + TAIL_REPAIR_TIME) →
  concatenates comm = true → (∀ y, P y → 1 ≤ R y) →
  (let* new_it := concatenation st hash s it x comm (hash (ITEM_key i)) in
   if new_it =? 0 then do_item_remove x ;; mret (NOT_STORED, cas)
   else link_or_replace st x new_it (hash (ITEM_key i)) ;; finish_store STORED new_it x new_it cas) c1 = Ret (stored, cas') c' →
  stays P (heap_of c1) (heap_of c').
Proof.
  intros Hg Hok Hfew HR Hi Hl Hu Hsys Ht Hcat HP Hr. pose proof (got_others m R c c1 _ x o P Hg HP) as HP1.
  destruct (concatenation_ok Hlargest m R c c1 s it i x o comm (hash (ITEM_key i)) Hg Hok Hfew HR Hi Hl Hu Hsys Ht Hcat)
    as (n & c2 & m2 & Hr2 & Hc). apply M_bind_inv in Hr as (n' & c2' & Hr2' & Hr). rewrite Hr2 in Hr2'. injection Hr2' as <- <-.
  assert (¬ P n ∨ n = 0) as HPn.
  { destruct (Z.eqb_spec n 0); [by right|left]. destruct Hc as (HRn & _). intros Hn. specialize (HP1 n Hn). lia. }
  trans (heap_of c2).
  - destruct (n =? 0); [destruct Hc as (_ & _ & Hk)|destruct Hc as (HRn & _ & Hk & _)]; eapply kept_stays; try exact Hk; intros y Hy.
    + split; [apply not_elem_of_nil|by apply HP1].
    + specialize (HP1 y Hy). assert (y ≠ n) by (intros ->; lia). rewrite list_elem_of_singleton, fn_lookup_insert_ne by done. done.
  - apply (steady_run _ _ _ _ _ Hr). destruct (n =? 0) eqn:Hn; [steady|]. destruct HPn as [HPn| ->]; [|done]. steady.
Qed.

Lemma store_stays m R c s it i comm cas stored cas' c' (P : Z → Prop) :
  ok m R c → users_ok R c → system_ready (st := st) s c → (∀ z, R z + 3 < 2 ^ 16) → 1 ≤ R it → heap_of c !! it = Some i →
  has_flag ITEM_LINKED i = false →
  (∀ x o, concatenates comm = true → live m c (ITEM_key i) = Some (x, o) → current_time c ≤ u32 (time o + TAIL_REPAIR_TIME)) →
  (∀ y, P y → 1 ≤ R y) → ¬ P it →
  do_store_item st hash s it comm cas (hash (ITEM_key i)) c = Ret (stored, cas') c' → stays P (heap_of c) (heap_of c').
Proof.
  intros Hok Hu Hsys Hfew HR Hi Hl Ht HP Hit Hr. unfold do_store_item in Hr.
  rewrite (M_bind_ret _ _ _ _ _ (run_the_item c it i Hi)) in Hr. apply M_bind_inv in Hr as (x & c1 & Hr1 & Hr).
  pose proof (get_steady P (ITEM_key i) (hash (ITEM_key i)) c x c1 Hr1) as [Hs1 _]. etrans; [exact Hs1|].
  destruct (decide (concatenates comm = true ∧ x ≠ 0)) as [[Hcat Hx]|Hno].
  - destruct (live m c (ITEM_key i)) as [[x' o]|] eqn:Hlive.
    2: { destruct (get_live Hlargest m R c (ITEM_key i) Hok) as (c2 & Hc); [intros z; specialize (Hfew z); lia|].
         rewrite Hlive in Hc. destruct Hc as (Hr2 & _). congruence. }
    destruct (get_got Hlargest m R c (ITEM_key i) x' o Hlive Hok) as (c2 & Hr2 & Hg); [intros z; specialize (Hfew z); lia|].
    rewrite Hr1 in Hr2. injection Hr2 as <- <-.
    pose proof (concatenation_stays m R c c1 s it i x o comm cas stored cas' c' P Hg Hok Hfew HR Hi Hl Hu Hsys (Ht x o Hcat eq_refl) Hcat HP) as Hc.
    rewrite (proj2 (Z.eqb_neq x 0)) in Hr by done. cbn [negb andb] in Hr.
    unfold concatenates in Hcat. apply bool_decide_eq_true_1 in Hcat.
    assert (bool_decide (comm = NREAD_ADD) = false ∧ bool_decide (comm = NREAD_CAS) = false ∧
      bool_decide (comm = NREAD_APPEND ∨ comm = NREAD_PREPEND) = true) as (E1 & E2 & E3) by (destruct Hcat as [-> | ->]; done).
    rewrite E1, E2, E3 in Hr. apply M_bind_inv in Hr as (i1 & c1' & Hi1 & Hr). apply M_bind_inv in Hr as (o1 & c1'' & Ho1 & Hr).
    assert (c1' = c1 ∧ c1'' = c1) as [-> ->].
    { unfold the_item in *. destruct (get_item _ it); [|done]. injection Hi1 as _ <-. destruct (get_item _ x); [|done]. by injection Ho1 as _ <-. }
    destruct (_ && _) in Hr; [|by apply Hc].
    exact (ud_stays _ _ _ (finish_store_steady P _ _ _ _ _ c1 _ c' Hr)).
  - apply (steady_run _ _ _ _ _ Hr). unfold concatenates in Hno.
    destruct (Z.eqb_spec x 0); destruct comm; repeat decide_name; try steady; destruct Hno; done.
Qed.

(** The part of [do_add_delta] that puts a new item in the place of the old one. *)
Lemma new_counter_stays m R c c1 s key x o buf fine c' (P : Z → Prop) :
  got m R c c1 key x o → ok m R c → (∀ z, R z + 3 < 2 ^ 16) → users_ok R c → system_ready (st := st) s c →
  current_time c ≤ u32 (time o + TAIL_REPAIR_TIME) → zlen buf ≤ 20 → (∀ y, P y → 1 ≤ R y) →
  let o1 := add_flag ITEM_FETCHED (refcount_incr o) in
  (let* new_it := do_item_alloc st hash s (ITEM_key o1) (int_of_string (tail (ITEM_suffix o1))) (exptime o1) (zlen buf + 2) (hash key) in
   if new_it =? 0 then do_item_remove x ;; mret false
   else
     write_data new_it 0 buf ;;
     write_data new_it (zlen buf) [13; 10] ;;
     item_replace st x new_it (hash key) ;;
     let* n := the_item new_it in
     on_item x (ITEM_set_cas (if Slabs.use_cas st then ITEM_get_cas n else 0)) ;;
     do_item_remove new_it ;; mret true) c1 = Ret fine c' →
  stays P (heap_of c1) (heap_of c').
Proof.
  intros Hg Hok Hfew Hu Hsys Ht Hbuf HP o1 Hr. pose proof (got_others m R c c1 key x o P Hg HP) as HP1.
  pose proof (gt_item _ _ _ _ _ _ _ Hg) as Ho1. fold o1 in Ho1. pose proof (gt_ok _ _ _ _ _ _ _ Hg) as Hok1.
  set (R1 := <[x := R x + 1]> R) in *. pose proof (gt_refs _ _ _ _ _ _ _ Hg) as HRx.
  destruct (ok_item Hlargest m R1 c1 x Hok1) as (? & Hq & _ & _ & Hso & _); [unfold R1; rewrite fn_lookup_insert; lia|].
  assert (x0 = o1) as -> by congruence. clear Hq. pose proof (int_of_string_range (tail (ITEM_suffix o1))).
  assert (0 ≤ zlen buf) by (unfold zlen; lia). apply M_bind_inv in Hr as (n & c2 & Hr2 & Hr).
  destruct (alloc_ok Hlargest m R1 c1 s (ITEM_key o1) (int_of_string (tail (ITEM_suffix o1))) (exptime o1) (zlen buf + 2) (hash key) Hok1)
    as (n' & c2' & m2 & Hr2' & Hc).
  { by eapply got_users. } { intros id. rewrite (gt_pool _ _ _ _ _ _ _ Hg). apply Hsys. }
  { split; [apply Hso|lia|lia]. }
  rewrite Hr2 in Hr2'. injection Hr2' as <- <-. destruct (n =? 0).
  - destruct Hc as (_ & _ & Hk). etrans; [|apply (steady_run _ _ _ _ _ Hr); steady].
    eapply kept_stays; [exact Hk|]. intros y Hy. split; [apply not_elem_of_nil|by apply HP1].
  - destruct Hc as (HRn & _ & Hk & _). assert (¬ P n) as HPn by (intros Hn; specialize (HP1 n Hn); lia).
    etrans; [|apply (steady_run _ _ _ _ _ Hr); unfold item_replace; steady].
    eapply kept_stays; [exact Hk|]. intros y Hy. assert (y ≠ n) by congruence. specialize (HP1 y Hy).
    rewrite list_elem_of_singleton, fn_lookup_insert_ne by done. done.
Qed.

Lemma delta_stays m R c s key incr delta cas res c' (P : Z → Prop) :
  ok m R c → users_ok R c → system_ready (st := st) s c → (∀ z, R z + 3 < 2 ^ 16) →
  (∀ x o, live m c key = Some (x, o) → current_time c ≤ u32 (time o + TAIL_REPAIR_TIME)) → (∀ y, P y → 1 ≤ R y) →
  do_add_delta st hash s key incr delta cas (hash key) c = Ret res c' → stays P (heap_of c) (heap_of c').
Proof.
  intros Hok Hu Hsys Hfew Ht HP Hr. unfold do_add_delta in Hr. apply M_bind_inv in Hr as (x & c1 & Hr1 & Hr).
  etrans; [exact (ud_stays _ _ _ (get_steady P key (hash key) c x c1 Hr1))|].
  destruct (live m c key) as [[x' o]|] eqn:Hlive.
  2: { destruct (get_live Hlargest m R c key Hok) as (c2 & Hc); [intros z; specialize (Hfew z); lia|].
       rewrite Hlive in Hc. destruct Hc as (Hr2 & _). rewrite Hr1 in Hr2. injection Hr2 as -> ->. by injection Hr as _ <-. }
  destruct (get_got Hlargest m R c key x' o Hlive Hok) as (c2 & Hr2 & Hg); [intros z; specialize (Hfew z); lia|].
  rewrite Hr1 in Hr2. injection Hr2 as <- <-. pose proof (gt_item _ _ _ _ _ _ _ Hg) as Ho1.
  destruct (x =? 0); [by injection Hr as _ <-|]. rewrite (M_bind_ret _ _ _ _ _ (run_the_item c1 x _ Ho1)) in Hr.
  set (o1 := add_flag ITEM_FETCHED (refcount_incr o)) in *.
  destruct (match cas with Some _ => _ | None => _ end) in Hr; [apply (steady_run _ _ _ _ _ Hr); steady|].
  destruct (McUtil.safe_strtoull _) as [fine value] eqn:Hct in Hr. destruct fine; [|apply (steady_run _ _ _ _ _ Hr); cbn [negb]; steady].
  cbn [negb] in Hr. cbv zeta in Hr.
  assert (zlen (decimal (new_value incr value delta)) ≤ 20) as Hbuf by apply (zlen_decimal_digits 20).
  assert ((nbytes o1 <? zlen (decimal (new_value incr value delta)) + 2) || negb (refcount o1 =? 1) = true) as Hfresh.
  { apply orb_true_iff. right. pose proof (gt_refs _ _ _ _ _ _ _ Hg). pose proof (gt_ok _ _ _ _ _ _ _ Hg) as Hok1.
    destruct (ok_item Hlargest m _ c1 x Hok1) as (? & Hq & Hcount & _); [rewrite fn_lookup_insert; lia|].
    assert (x0 = o1) as -> by congruence. rewrite (proj2 (Z.eqb_neq (refcount o1) 1)); [done|].
    assert (has_flag ITEM_LINKED o1 = true) as Hlo by (by apply (ok_index_inv Hlargest m _ c1 key x o1 Hok1 (gt_index _ _ _ _ _ _ _ Hg))).
    rewrite Hcount, Hlo, fn_lookup_insert. lia. }
  rewrite Hfresh in Hr. apply M_bind_inv in Hr as (fine & c2 & Hr2 & Hr).
  trans (heap_of c2); [|apply (steady_run _ _ _ _ _ Hr); steady].
  by eapply new_counter_stays; [exact Hg|done..|apply (Ht x o eq_refl)|exact Hbuf|done|exact Hr2].
Qed.

(** The two commands, as a user calls them. *)
Lemma use_store R c s it i comm cas : inside R c → may_store st hash s R c it comm → heap_of c !! it = Some i →
  ∃ stored cas' c', store_item st hash s it comm cas c = Ret (stored, cas') c' ∧ inside R c' ∧
    stays (λ y, 1 ≤ R y ∧ y ≠ it) (heap_of c) (heap_of c').
Proof.
  intros [m Hok] (Hfew & [Hu Hsys] & HR & i' & Hi' & Hl & Hrec) Hi. assert (i' = i) as -> by congruence.
  assert (∀ x o, concatenates comm = true → live m c (ITEM_key i) = Some (x, o) →
    users_ok R c ∧ system_ready (st := st) s c ∧ current_time c ≤ u32 (time o + TAIL_REPAIR_TIME)) as Ht.
  { intros x o Hcat Hlive. split; [done|]. split; [done|]. destruct Hok as (H & L & Hok). by eapply recently_live; [exact Hok|apply Hrec|exact Hlive]. }
  destruct (do_store_item_spec (hash := hash) Hlargest m R c s it i comm cas Hok Hfew HR Hi Hl Ht) as (stored & cas' & m' & c' & Hr & Ho).
  exists stored, cas', c'. split; [unfold store_item; by istep|]. split; [exists m'; apply Ho|].
  eapply (store_stays m R c s it i comm cas _ _ _ (λ y, 1 ≤ R y ∧ y ≠ it)); try done; [intros y o H1 H2; by apply (Ht y o)|by intros y [? _]|by intros [_ ?]].
Qed.

Lemma use_delta R c s key incr delta cas : inside R c → may_allocate st s R c → (∀ x, R x + 3 < 2 ^ 16) → recently_used hash c key →
  ∃ res c', add_delta st hash s key incr delta cas c = Ret res c' ∧ inside R c' ∧ stays (λ y, 1 ≤ R y) (heap_of c) (heap_of c') ∧
    (cas = None → res.1.1 ≠ DELTA_ITEM_CAS_MISMATCH).
Proof.
  intros [m Hok] [Hu Hsys] Hfew Hrec.
  assert (∀ x o, live m c key = Some (x, o) → current_time c ≤ u32 (time o + TAIL_REPAIR_TIME)) as Ht.
  { intros x o Hlive. destruct Hok as (H & L & Hok). by eapply recently_live; [exact Hok|exact Hrec|exact Hlive]. }
  destruct (do_add_delta_spec (hash := hash) Hlargest m R c s key incr delta cas Hok Hu Hsys Hfew Ht) as (r & text & cas' & m' & c' & Hr & Ho).
  exists (r, text, cas'), c'. split; [done|]. split; [exists m'; apply Ho|]. split; [by eapply delta_stays|].
  intros ->. pose proof (dl_result _ _ _ _ _ _ _ _ _ _ _ _ _ Ho) as Hres. cbn. intros ->.
  destruct (live m c key) as [[x o]|]; [|done]. cbn in Hres. destruct (counter s x o).1; [by destruct Hres|done].
Qed.

Lemma use_set_cas R c x v : inside R c → 1 ≤ R x → ∃ c', on_item x (ITEM_set_cas v) c = Ret tt c' ∧ inside R c' ∧
  undisturbed (λ _, True) c c'.
Proof.
  intros [m Hok] HR. destruct (ok_item Hlargest m R c x Hok HR) as (i & Hi & _). eexists. split; [by apply run_on_item|].
  split; [exists m; by apply set_cas_ok|]. assert (steady (λ _, True) (on_item x (ITEM_set_cas v))) as Hs by steady.
  exact (Hs c _ _ (run_on_item c x i (ITEM_set_cas v) Hi)).
Qed.

(** A part of the value is written. *)
Lemma use_write R c x i off d : inside R c → 1 ≤ R x → heap_of c !! x = Some i → 0 ≤ off → off + zlen d ≤ nbytes i →
  ∃ c', write_data x off d c = Ret tt c' ∧ inside R c' ∧ undisturbed (λ y, y ≠ x) c c' ∧
    heap_of c' !! x = Some (set_ITEM_data (memcpy (ITEM_data i) off d) i).
Proof.
  intros [m Hok] HR Hi Ho Hd. destruct (write_data_ok Hlargest m R c x i off d Hok HR Hi Ho Hd) as (Hr & Hok' & _ & Hi').
  eexists. split; [exact Hr|]. split; [by exists m|]. split; [|done]. exact (write_steady (λ y, y ≠ x) x off d ltac:(auto) c _ _ Hr).
Qed.

End Use.

End ItemUse.
