(* ===== verification/ConnInv.v ===== *)
(** * The invariant of a memcached connection

    What holds between two turns of a connection's state machine: the positions in its
    buffers, the items to which it holds references - the one whose value is being read,
    those whose values are being sent - and that all queued output can be read. *)

From S2P Require Import Prelude Bytes CStrings ItemHeap Slabs ChunkAllocator Items ItemsInv Store StoreOps ItemBodies ItemUse Tokens Connection Commands Machine Output.
From stdpp Require Import base gmap functions list.
From Stdlib Require Import ZArith Lia.

Local Open Scope Z_scope.

Module ConnInv.
Import ItemHeap ChunkAllocator Items ItemsInv Store ItemBodies ItemUse Connection Commands Machine Output.

(** ** Queued output stays readable *)

Definition source_item (src : source) : option Z :=
  match src with Text _ => None | KeyOf it | SuffixOf it | DataOf it => Some it end.
(** The items of the list are the only ones that a piece of output refers to. *)
Definition about (l : list Z) (v : iovec) : Prop :=
  match source_item (iov_base v) with Some it => it ∈ l | None => True end.

Lemma about_mono l l' v : about l v → (∀ x, x ∈ l → x ∈ l') → about l' v.
Proof. unfold about. destruct (source_item _); auto. Qed.

Lemma body_parts i i' : body i' = body i → ITEM_key i' = ITEM_key i ∧ ITEM_suffix i' = ITEM_suffix i ∧ ITEM_data i' = ITEM_data i ∧ nbytes i' = nbytes i.
Proof. by intros [= -> -> -> ->]. Qed.

Lemma memory_stays (P : Z → Prop) x x' src : stays P (heap_of x) (heap_of x') →
  (∀ it, source_item src = Some it → P it) → present x src → memory x' src = memory x src ∧ present x' src.
Proof.
  intros Hs HP Hp. destruct src as [b|it|it|it]; [done|..]; destruct Hp as [i Hi];
    destruct (Hs it i (HP it eq_refl) Hi) as (i' & Hi' & [Hb _]); destruct (body_parts _ _ Hb) as (Hk & Hsu & Hd & _);
    cbn [memory present]; rewrite Hi, Hi', ?Hk, ?Hsu, ?Hd; by split; [|eexists].
Qed.
Lemma readable_stays (P : Z → Prop) x x' v : stays P (heap_of x) (heap_of x') →
  (∀ it, source_item (iov_base v) = Some it → P it) → readable x v → readable x' v ∧ piece (memory x') v = piece (memory x) v.
Proof.
  intros Hs HP [Hb Hp]. destruct (memory_stays P x x' _ Hs HP Hp) as [Hm Hp']. unfold piece. rewrite Hm. split; [|done].
  split; [|done]. unfold in_bounds in *. by rewrite Hm.
Qed.
Lemma pieces_stays (P : Z → Prop) x x' l m : stays P (heap_of x) (heap_of x') → (∀ y, y ∈ l → P y) →
  Forall (readable x) m → Forall (about l) m →
  Forall (readable x') m ∧ pieces_bytes (memory x') m = pieces_bytes (memory x) m.
Proof.
  intros Hs HP Hr Ha. induction Hr as [|v m Hv Hr IH]; [done|]. apply list.Forall_cons in Ha as [Hav Ha]. destruct (IH Ha) as [Hr' Hb].
  destruct (readable_stays P x x' v Hs) as [Hv' Hp]; [|done|].
  - intros it Hit. unfold about in Hav. rewrite Hit in Hav. by apply HP.
  - split; [by constructor|]. unfold pieces_bytes in *. cbn [map concat]. by rewrite Hp, Hb.
Qed.
Lemma queued_stays (P : Z → Prop) x x' l q : stays P (heap_of x) (heap_of x') → (∀ y, y ∈ l → P y) →
  Forall (readable x) (concat q) → Forall (about l) (concat q) →
  Forall (readable x') (concat q) ∧ queued (memory x') q = queued (memory x) q.
Proof.
  intros Hs HP. induction q as [|m q IH]; [done|]. cbn [concat]. rewrite !Forall_app. intros [Hm Hq] [Am Aq].
  destruct (pieces_stays P x x' l m Hs HP Hm Am) as [Hm' Hb]. destruct (IH Hq Aq) as [Hq' Hbq].
  split; [done|]. unfold queued in *. cbn [map concat]. by rewrite Hb, Hbq.
Qed.

(** ** The references of a connection *)

Definition window (c : conn) : list Z := take (Z.to_nat (ileft c)) (drop (Z.to_nat (icurr c)) (ilist c)).
Definition held (c : conn) : list Z := (if c_item c =? 0 then [] else [c_item c]) ++ window c.

Lemma window_empty c : ileft c = 0 → window c = [].
Proof. intros H. unfold window. by rewrite H. Qed.

(** ** The invariant

    [R] are the references of the others. *)

Record being_read (x : cache) (R : Z → Z) (c : conn) : Prop := {
  br_item : c_item c ≠ 0;
  br_private : R (c_item c) = 0;
  br_cmd : cmd c ≠ None;
  br_value : ∃ i, heap_of x !! c_item c = Some i ∧ has_flag ITEM_LINKED i = false ∧
    0 ≤ ritem c ∧ 0 ≤ rlbytes c ∧ ritem c + rlbytes c = nbytes i
}.
Record sending (x : cache) (c : conn) : Prop := {
  sd_output : output_ok x c;
  sd_about : Forall (about (window c)) (concat (msglist c));
  sd_packet : packet_ok c;
  sd_message : ∃ l m, msglist c = l ++ [m]
}.

Record buffer_ok (c : conn) : Prop := {
  bf_rcurr : 0 ≤ rcurr c;
  bf_rbytes : 0 ≤ rbytes c;
  bf_fits : rcurr c + rbytes c ≤ rsize c;
  bf_size : 0 < rsize c
}.

(** The invariant but for the read buffer. *)
Record conn_fine (x : cache) (R : Z → Z) (c : conn) : Prop := {
  cn_memory : realloc_answers c = [];
  cn_lists : 0 < isize c ∧ 0 ≤ ileft c ∧ (ileft c ≠ 0 → 0 ≤ icurr c ∧ icurr c + ileft c ≤ isize c);
  cn_window : ileft c ≠ 0 → state c = conn_mwrite ∨ state c = conn_closing;
  cn_item : c_item c ≠ 0 → state c = conn_nread ∨ state c = conn_closing;
  cn_nread : state c = conn_nread → being_read x R c;
  cn_sending : state c = conn_write ∨ state c = conn_mwrite → sending x c;
  cn_noreply : noreply c = true → state c = conn_nread ∨ state c = conn_closing;
  cn_go : state c = conn_write → write_and_go c = conn_new_cmd ∨ write_and_go c = conn_swallow ∨ write_and_go c = conn_closing;
  cn_swallow : 0 ≤ sbytes c;
  cn_state : state c ≠ conn_listening
}.
Record conn_ok (x : cache) (R : Z → Z) (c : conn) : Prop := {
  ck_fine : conn_fine x R c;
  ck_buffer : buffer_ok c;
  ck_parse : state c = conn_parse_cmd → 0 < rbytes c
}.

(** The parts that a command does not change. *)
Definition same_buffer (c c' : conn) : Prop := rbuf c' = rbuf c ∧ rcurr c' = rcurr c ∧ rbytes c' = rbytes c.
Lemma same_buffer_ok c c' : same_buffer c c' → buffer_ok c → buffer_ok c'.
Proof. intros (H1 & H2 & H3) [B1 B2 B3 B4]. split; unfold rsize in *; by rewrite ?H1, ?H2, ?H3. Qed.

(** A connection that is between two requests. *)
Record idle (c : conn) : Prop := {
  id_memory : realloc_answers c = [];
  id_lists : 0 < isize c ∧ ileft c = 0;
  id_item : c_item c = 0;
  id_swallow : 0 ≤ sbytes c
}.
Lemma idle_held c : idle c → held c = [].
Proof. intros [_ [_ Hl] Hi _]. unfold held. rewrite Hi, window_empty by done. done. Qed.

(** A connection without items in the states in which nothing has to hold. *)
Lemma idle_fine x R c : idle c → noreply c = false →
  state c = conn_new_cmd ∨ state c = conn_waiting ∨ state c = conn_read ∨ state c = conn_parse_cmd ∨ state c = conn_swallow ∨ state c = conn_closing →
  conn_fine x R c.
Proof.
  intros [Hm [Hs Hl] Hi Hw] Hn Hst.
  assert (state c ≠ conn_nread ∧ state c ≠ conn_write ∧ state c ≠ conn_mwrite ∧ state c ≠ conn_listening) as (H1 & H2 & H3 & H4).
  { destruct Hst as [->|[->|[->|[->|[->| ->]]]]]; done. }
  split; try done; try (by rewrite ?Hl, ?Hi, ?Hn). by intros [?|?].
Qed.

(** A reply of one line. *)
Record replied (c c' : conn) : Prop := {
  rp_idle : idle c';
  rp_buffer : same_buffer c c';
  rp_noreply : noreply c' = false;
  rp_state : state c' = conn_new_cmd ∨ state c' = conn_write;
  rp_messages : state c' = conn_write → msglist c' = [[]] ∧ msgcurr c' = 0 ∧ msgbytes c' = 0
}.

Lemma out_string_replied text c : idle c → replied c (out_string text c).
Proof.
  intros [Hm [Hs Hl] Hi Hw]. unfold out_string. destruct (noreply c) eqn:Hn; [by split; [split|..]; auto|].
  destruct (add_msghdr_ok (set_iovused 0 (set_msglist [] (set_msgcurr 0 c))) Hm) as (c' & -> & Hl' & Hb' & [S1 S2 S3 S4 S5 S6 S7 S8]).
  cbn [snd]. destruct S2 as (? & ? & ?), S4 as (? & ? & ? & ? & ?), S5 as (Hil & ? & ?). cbn in *.
  split; [split|split_and!|..]; cbn; try done; try congruence; auto. 
  unfold isize in *. cbn. rewrite Hil. split; [done|congruence].
Qed.

Lemma out_string_go text c : state (out_string text c) = conn_write → noreply c = false → write_and_go (out_string text c) = conn_new_cmd.
Proof. unfold out_string. intros _ ->. done. Qed.
Lemma out_string_silent text c : noreply c = true → state (out_string text c) = conn_new_cmd.
Proof. unfold out_string. by intros ->. Qed.

Lemma replied_fine x R c c' : replied c c' →
  (state c' = conn_write → write_and_go c' = conn_new_cmd ∨ write_and_go c' = conn_swallow ∨ write_and_go c' = conn_closing) → conn_fine x R c'.
Proof.
  intros [Hi Hb Hn Hst Hm] Hgo. destruct Hst as [Hst|Hst]; [apply idle_fine; auto|].
  destruct (Hm Hst) as (Hl & Hc & Hmb). destruct Hi as [Hmem [Hs Hil] Hit Hw].
  assert (sending x c') as Hsd.
  { split; [split; [by rewrite Hl|by rewrite Hc]|by rewrite Hl|intros _; rewrite Hmb; done|]. by exists [], []. }
  split; try done; try (by rewrite ?Hil, ?Hit, ?Hn); by rewrite Hst.
Qed.

End ConnInv.
