(* ===== verification/CommandOps.v ===== *)
(** * The commands keep the invariant

    Every command of [Commands] but [get], from a connection that is between two requests:
    it ends, the references are exact, and the connection is as [ConnInv] says. *)

From S2P Require Import Prelude Bytes CStrings McUtil ItemHeap Slabs SlabsSafety ChunkAllocator Items ItemsInv ItemsAlloc Store StoreOps ItemsRequests ItemBodies ItemUse Tokens Connection Commands Machine Output ConnInv.
From stdpp Require Import base gmap functions list.
From Stdlib Require Import ZArith Lia String.

Local Open Scope Z_scope.

Module CommandOps.
Import ItemHeap ChunkAllocator Items ItemsInv ItemsAlloc Store StoreOps ItemsRequests ItemBodies ItemUse Tokens Connection Commands Machine Output ConnInv.

(** ** The words of a command *)

Abbreviation tokens_of ws t := (map token_of ws ++ [t]).

Lemma zlen_tokens ws t : zlen (tokens_of ws t) = zlen ws + 1.
Proof. unfold zlen. rewrite length_app, length_map. cbn. lia. Qed.
Lemma token_lookup ws t n w : zlookup ws n = Some w → zlookup (tokens_of ws t) n = Some (token_of w).
Proof.
  unfold zlookup. destruct (0 <=? n); [|done]. intros Hw. rewrite lookup_app_l; [|rewrite length_map; by eapply lookup_lt_Some].
  by rewrite list_lookup_fmap, Hw.
Qed.
Lemma value_at_word ws t n w x : zlookup ws n = Some w → value_at (tokens_of ws t) n x = Ret w x.
Proof. intros Hw. unfold value_at. by rewrite (token_lookup _ _ _ _ Hw). Qed.
Lemma length_at_word ws t n w x : zlookup ws n = Some w → length_at (tokens_of ws t) n x = Ret (zlen w) x.
Proof. intros Hw. unfold length_at. by rewrite (token_lookup _ _ _ _ Hw). Qed.

Lemma set_noreply_fields tokens c :
  set_noreply_maybe tokens c = c ∨ set_noreply_maybe tokens c = set_noreply true c.
Proof. unfold set_noreply_maybe. destruct (token_is _ _ _); auto. Qed.
Lemma set_noreply_idle tokens c : idle c → idle (set_noreply_maybe tokens c) ∧ same_buffer c (set_noreply_maybe tokens c).
Proof. intros Hi. destruct (set_noreply_fields tokens c) as [-> | ->]; [done|]. split; [|done]. by destruct Hi. Qed.

(** One word after the other. *)
Ltac word n w := let H := fresh "Hw" in
  match goal with |- context [tokens_of ?ws _] => destruct (zlookup_is_Some ws n) as [w H]; [lia|] end.
Ltac at_word := first [erewrite M_bind_ret by (eapply value_at_word; eassumption)|erewrite M_bind_ret by (eapply length_at_word; eassumption)].

Section Commands.
Context {st : Slabs.settings_t} {hash : bytes → Z} {largest : Z} {sz : Z → Z}.
Context {Holds : Slabs.arena → gmap Z Z → Prop} `{HA : !ChunkAllocator st largest sz Holds}.
Context (Hlargest : largest < LARGEST_ID) (g : globals) (s : sys).

Abbreviation inside := (inside (hash := hash) (sz := sz) (Holds := Holds)).

(** What a command leaves; [lost] are references that nobody will give up. *)
Record command_done (x : cache) (R : Z → Z) (c : conn) (x' : cache) (c' : conn) (lost : list Z) : Prop := {
  dn_inside : inside (with_refs R (lost ++ held c')) x';
  dn_fine : conn_fine x' (with_refs R lost) c';
  dn_buffer : same_buffer c c';
  dn_state : state c' ≠ conn_parse_cmd;
  dn_others : stays (λ y, 1 ≤ R y) (heap_of x) (heap_of x');
  dn_private : ∀ y i, 1 ≤ R y → heap_of x !! y = Some i → has_flag ITEM_LINKED i = false → y ∉ lost ++ held c'
}.

Lemma refs_nil R y : with_refs R [] y = R y.
Proof. apply with_refs_nil. Qed.

(** The command ends with one line. *)
Lemma reply_done x R c x' c' : inside R x' → stays (λ y, 1 ≤ R y) (heap_of x) (heap_of x') → replied c c' →
  (state c' = conn_write → write_and_go c' = conn_new_cmd ∨ write_and_go c' = conn_swallow ∨ write_and_go c' = conn_closing) →
  command_done x R c x' c' [].
Proof.
  intros Hin Hst Hr Hgo. pose proof (idle_held c' (rp_idle _ _ Hr)) as Hh. split; [|by eapply replied_fine|apply Hr| |done|].
  - rewrite Hh. eapply inside_ext; [exact Hin|apply refs_nil].
  - by destruct (rp_state _ _ Hr) as [-> | ->].
  - intros y i _ _ _. rewrite Hh. apply not_elem_of_nil.
Qed.
Lemma said x R c c0 x' text : idle c → same_buffer c0 c → inside R x' → stays (λ y, 1 ≤ R y) (heap_of x) (heap_of x') →
  command_done x R c0 x' (out_string text c) [].
Proof.
  intros Hi Hb Hin Hst. pose proof (out_string_replied text c Hi) as Hr. apply reply_done; [done|done| |].
  - destruct Hr as [R1 R2 R3 R4 R5]. split; try done. destruct Hb as (? & ? & ?), R2 as (? & ? & ?). split_and!; congruence.
  - intros Hw. left. apply out_string_go; [done|]. destruct (noreply c) eqn:Hn; [|done]. by rewrite out_string_silent in Hw.
Qed.

(** A reference is taken and given up again. *)
Lemma taken_and_released R x y : inside (<[y := (<[y := R y + 1]> R) y - 1]> (<[y := R y + 1]> R)) x → inside R x.
Proof. intros Hin. eapply inside_ext; [exact Hin|]. intros z. destruct (decide (z = y)) as [->|]; rewrite !fn_lookup_insert, ?fn_lookup_insert_ne by done; [lia|done]. Qed.

(** ** [touch] *)

Lemma touch_command_ok R x c ws t : idle c → inside R x → (∀ y, R y + 2 < 2 ^ 16) → 3 ≤ zlen ws →
  ∃ c' x', process_touch_command hash g (tokens_of ws t) c x = Ret c' x' ∧ command_done x R c x' c' [].
Proof.
  intros Hi Hin Hfew Hws. unfold process_touch_command.
  destruct (set_noreply_idle (tokens_of ws t) c Hi) as [Hi' Hb]. set (c1 := set_noreply_maybe _ c) in *.
  word 1 key. word 2 exp. at_word. destruct (KEY_MAX_LENGTH <? zlen key); [eexists _, _; split; [reflexivity|by apply said]|].
  at_word. at_word. destruct (McUtil.safe_strtol exp) as [fine e]. destruct fine; [|eexists _, _; split; [reflexivity|by apply said]]. cbn [negb].
  erewrite M_bind_ret by reflexivity.
  destruct (use_touch (st := st) Hlargest R x key (realtime (process_started g) (current_time x) e) Hin Hfew) as (y & x1 & Hr1 & Hin1 & [Hs1 _]).
  rewrite (M_bind_ret _ _ _ _ _ Hr1). destruct (Z.eqb_spec y 0) as [->|Hy].
  - eexists _, _. split; [reflexivity|]. apply said; [done|done|done|]. by eapply stays_mono.
  - pose proof (inside_nonneg R x y Hin).
    destruct (update_undisturbed Hlargest _ x1 y Hin1) as (x2 & Hr2 & Hin2 & [Hs2 _]); [rewrite fn_lookup_insert; lia|].
    rewrite (M_bind_ret _ _ _ _ _ Hr2).
    destruct (use_remove Hlargest _ x2 y Hin2) as (x3 & Hr3 & Hin3 & [Hs3 _]); [rewrite fn_lookup_insert; lia|].
    rewrite (M_bind_ret _ _ _ _ _ Hr3). eexists _, _. split; [reflexivity|].
    apply said; [done|done|by eapply taken_and_released|]. eapply stays_mono; [by do 2 (etrans; [eassumption|])|done].
Qed.

(** ** [incr] and [decr] *)

Lemma arithmetic_ok R x c ws t incr : idle c → inside R x → (∀ y, R y + 3 < 2 ^ 16) → may_allocate st s R x → 3 ≤ zlen ws →
  (∀ key, zlookup ws 1 = Some key → recently_used hash x key) →
  ∃ c' x', process_arithmetic_command st hash s (tokens_of ws t) incr c x = Ret c' x' ∧ command_done x R c x' c' [].
Proof.
  intros Hi Hin Hfew Hmay Hws Hrec. unfold process_arithmetic_command.
  destruct (set_noreply_idle (tokens_of ws t) c Hi) as [Hi' Hb]. set (c1 := set_noreply_maybe _ c) in *.
  word 1 key. word 2 num. at_word. destruct (KEY_MAX_LENGTH <? zlen key); [eexists _, _; split; [reflexivity|by apply said]|].
  at_word. at_word. destruct (McUtil.safe_strtoull num) as [fine d]. destruct fine; [|eexists _, _; split; [reflexivity|by apply said]]. cbn [negb].
  destruct (use_delta Hlargest R x s key incr (i64 d) None Hin Hmay Hfew) as ([[r text] cas] & x1 & Hr1 & Hin1 & Hs1 & Hne); [by apply Hrec|].
  rewrite (M_bind_ret _ _ _ _ _ Hr1). cbv iota beta. specialize (Hne eq_refl). cbn in Hne.
  eexists _, _. split; [reflexivity|]. destruct r; try done; by apply said.
Qed.

(** ** [delete] *)

(** An item that has been found is unlinked and released. *)
Lemma unlink_found R x y : inside (<[y := R y + 1]> R) x → (∀ z, R z + 3 < 2 ^ 16) → 0 ≤ R y →
  ∃ x', (item_unlink hash y ;; item_remove y) x = Ret tt x' ∧ inside R x' ∧ undisturbed (λ _, True) x x'.
Proof.
  intros Hin Hfew HR.
  destruct (use_unlink (st := st) Hlargest _ x y Hin) as (x1 & Hr1 & Hin1 & Hs1).
  { intros z. specialize (Hfew z). destruct (decide (z = y)) as [->|]; rewrite ?fn_lookup_insert, ?fn_lookup_insert_ne by done; lia. }
  { rewrite fn_lookup_insert. lia. }
  rewrite (M_bind_ret _ _ _ _ _ Hr1).
  destruct (use_remove Hlargest _ x1 y Hin1) as (x2 & Hr2 & Hin2 & Hs2); [rewrite fn_lookup_insert; lia|].
  exists x2. split; [done|]. split; [by eapply taken_and_released|]. by etrans.
Qed.

Lemma delete_ok R x c ws t : idle c → inside R x → (∀ y, R y + 3 < 2 ^ 16) → 2 ≤ zlen ws →
  ∃ c' x', process_delete_command hash (tokens_of ws t) c x = Ret c' x' ∧ command_done x R c x' c' [].
Proof.
  intros Hi Hin Hfew Hws. unfold process_delete_command.
  destruct (if 3 <? _ then _ else _) as [valid c1] eqn:Hc1.
  assert (idle c1 ∧ same_buffer c c1) as [Hi' Hb].
  { destruct (3 <? _) in Hc1; injection Hc1 as _ <-; [by apply set_noreply_idle|done]. }
  destruct valid; [|eexists _, _; split; [reflexivity|by apply said]]. cbn [negb].
  word 1 key. at_word. at_word. destruct (KEY_MAX_LENGTH <? zlen key); [eexists _, _; split; [reflexivity|by apply said]|].
  destruct (use_get Hlargest R x key Hin) as (y & x1 & Hr1 & [[Hs1 _] _ _ _] & Hc); [intros z; specialize (Hfew z); lia|].
  rewrite (M_bind_ret _ _ _ _ _ Hr1). destruct (answer hash x key); [destruct Hc as (Hy & Hin1 & _)|destruct Hc as [-> Hin1]].
  - rewrite (proj2 (Z.eqb_neq y 0)) by done.
    destruct (unlink_found R x1 y Hin1 Hfew (inside_nonneg R x y Hin)) as (x2 & Hr2 & Hin2 & [Hs2 _]).
    rewrite <- M_bind_assoc, (M_bind_ret _ _ _ _ _ Hr2). eexists _, _. split; [reflexivity|].
    apply said; [done|done|done|]. eapply stays_mono; [by etrans|done].
  - eexists _, _. split; [reflexivity|]. apply said; [done|done|done|]. by eapply stays_mono.
Qed.

(** ** The commands without items *)

Lemma verbosity_ok R x c ws t : idle c → inside R x → 2 ≤ zlen ws →
  ∃ c' x', process_verbosity_command (tokens_of ws t) c x = Ret c' x' ∧ command_done x R c x' c' [].
Proof.
  intros Hi Hin Hws. unfold process_verbosity_command. destruct (set_noreply_idle (tokens_of ws t) c Hi) as [Hi' Hb].
  word 1 level. at_word. eexists _, _. split; [reflexivity|]. apply said; [by destruct Hi'|done..].
Qed.

Lemma automove_ok R x c ws t : idle c → inside R x → 3 ≤ zlen ws →
  ∃ c' x', process_slabs_automove_command (tokens_of ws t) c x = Ret c' x' ∧ command_done x R c x' c' [].
Proof.
  intros Hi Hin Hws. unfold process_slabs_automove_command. destruct (set_noreply_idle (tokens_of ws t) c Hi) as [Hi' Hb].
  word 2 level. at_word. destruct (_ =? 0); [|destruct (_ || _)]; eexists _, _; (split; [reflexivity|]); apply said; try done; by destruct Hi'.
Qed.

Lemma oldest_live_ok R x v : inside R x → (∀ y, R y + 2 < 2 ^ 16) → inside R (set_oldest_live v x).
Proof.
  intros Hin Hfew. destruct (use_exec (st := st) Hlargest s (SetOldestLive v) R x Hin) as (ret & x' & Hr & Hin'); [done|].
  apply no_result_inv in Hr. by injection Hr as <-.
Qed.

(** The end of [flush_all]. *)
Lemma flush_from R x c c0 v : idle c → same_buffer c0 c → inside R x → (∀ y, R y + 2 < 2 ^ 16) →
  ∃ c' x', (modify (set_oldest_live v) ;; item_flush_expired hash ;; mret (out_string (str "OK") c)) x = Ret c' x' ∧ command_done x R c0 x' c' [].
Proof.
  intros Hi Hb Hin Hfew. erewrite M_bind_ret by reflexivity.
  destruct (use_flush (st := st) (hash := hash) (sz := sz) (Holds := Holds) Hlargest R (set_oldest_live v x)) as (x1 & Hr1 & Hin1 & [Hs1 _]); [by apply oldest_live_ok|done|].
  rewrite (M_bind_ret _ _ _ _ _ Hr1). eexists _, _. split; [reflexivity|]. apply said; [done|done|done|]. by eapply stays_mono.
Qed.
Lemma flush_ok R x c ws t : idle c → noreply c = false → inside R x → (∀ y, R y + 2 < 2 ^ 16) → 1 ≤ zlen ws → token_is (tokens_of ws t) 0 "flush_all" = true →
  ∃ c' x', process_flush_command hash g (tokens_of ws t) c x = Ret c' x' ∧ command_done x R c x' c' [].
Proof.
  intros Hi Hn Hin Hfew Hws Hname. unfold process_flush_command.
  destruct (set_noreply_idle (tokens_of ws t) c Hi) as [Hi' Hb].
  erewrite M_bind_ret by reflexivity. rewrite zlen_tokens.
  destruct (Z.eqb_spec (zlen ws + 1) (if noreply (set_noreply_maybe (tokens_of ws t) c) then 3 else 2)) as [He|He]; [by apply flush_from|].
  assert (2 ≤ zlen ws) as Hws2.
  { destruct (Z.eqb_spec (zlen ws) 1) as [H1|]; [exfalso|lia]. apply He. rewrite H1. unfold set_noreply_maybe. rewrite zlen_tokens, H1.
    change (1 + 1 - 2) with 0. unfold token_is in *. destruct (zlookup _ 0) as [w|]; [|done]. apply bool_decide_eq_true_1 in Hname.
    rewrite Hname, bool_decide_false by done. by rewrite Hn. }
  word 1 e. at_word. destruct (strtol e) as [exp erange]. destruct (_ || _); [eexists _, _; split; [reflexivity|by apply said]|].
  by apply flush_from.
Qed.

(** *** [slabs] *)

(** The request to move a page leaves the memory alone. *)
Definition keeps_heap {A} (p : M Empty_set Slabs.arena A) : Prop := ∀ ar a ar', p ar = Ret a ar' → Slabs.heap ar' = Slabs.heap ar.
Lemma keeps_bind {A B} (p : M Empty_set Slabs.arena A) (k : A → M Empty_set Slabs.arena B) :
  keeps_heap p → (∀ a, keeps_heap (k a)) → keeps_heap (mbind k p).
Proof. intros Hp Hk ar b ar' Hr. apply M_bind_inv in Hr as (a & ar1 & H1 & H2). rewrite (Hk _ _ _ _ H2). by eapply Hp. Qed.
Lemma keeps_ret {A} (a : A) : keeps_heap (mret a).
Proof. by intros ar b ar' [= _ <-]. Qed.
Lemma keeps_gets {A} (f : Slabs.pool → A) : keeps_heap (Slabs.gets_pool f).
Proof. by intros ar b ar' [= _ <-]. Qed.
Lemma keeps_upd f : keeps_heap (Slabs.upd_pool f).
Proof. by intros ar b ar' [= _ <-]. Qed.
Lemma keeps_class id : keeps_heap (Slabs.class_at id).
Proof. apply keeps_bind; [apply keeps_gets|]. intros l ar b ar' Hr. destruct (vec_at l id); [by injection Hr as _ <-|done]. Qed.
#[local] Hint Resolve keeps_ret keeps_gets keeps_upd keeps_class : steady.
Ltac keeps := repeat first [progress intros|solve [eauto with steady]|apply keeps_bind|match goal with |- keeps_heap (if ?b then _ else _) => destruct b end].

Lemma pick_any_keeps n dst : keeps_heap (Slabs.pick_any_loop n dst).
Proof. induction n as [|n IH]; cbn [Slabs.pick_any_loop]; keeps. Qed.
#[local] Hint Resolve pick_any_keeps : steady.
Lemma reassign_keeps free src dst : keeps_heap (Slabs.slabs_reassign free src dst).
Proof. unfold Slabs.slabs_reassign, Slabs.do_slabs_reassign, Slabs.slabs_reassign_pick_any. keeps. Qed.

Lemma use_reassign R x src dst : inside R x → (∀ y, R y + 2 < 2 ^ 16) →
  ∃ rv x', on_arena (Slabs.slabs_reassign (s_reassign_lock s) src dst) x = Ret rv x' ∧ inside R x' ∧ heap_of x' = heap_of x.
Proof.
  intros Hin Hfew. destruct (use_exec (st := st) Hlargest s (Reassign src dst) R x Hin) as (ret & x' & Hr & Hin'); [done|].
  apply no_result_inv in Hr. apply M_bind_inv in Hr as (rv & x1 & Hr & [= <-]). exists rv, x1. split; [done|]. split; [done|].
  unfold on_arena in Hr. destruct (Slabs.slabs_reassign _ _ _ _) as [a ar|[]|] eqn:Ha; [|done]. injection Hr as <- <-.
  by apply reassign_keeps in Ha.
Qed.

Lemma slabs_ok R x c ws t : idle c → inside R x → (∀ y, R y + 2 < 2 ^ 16) →
  ∃ c' x', process_slabs_command st g s (tokens_of ws t) c x = Ret c' x' ∧ command_done x R c x' c' [].
Proof.
  intros Hi Hin Hfew. unfold process_slabs_command. rewrite zlen_tokens. destruct (Z.eqb_spec (zlen ws + 1) 5) as [H5|H5]; cbn [andb].
  - destruct (token_is _ 1 "reassign").
    + destruct (negb _); [eexists _, _; split; [reflexivity|by apply said]|]. word 2 a. word 3 b. at_word. at_word.
      destruct (strtol a) as [src e1], (strtol b) as [dst e2]. destruct (_ || _); [eexists _, _; split; [reflexivity|by apply said]|].
      destruct (use_reassign R x (i32 src) (i32 dst) Hin Hfew) as (rv & x1 & Hr1 & Hin1 & Hh). rewrite (M_bind_ret _ _ _ _ _ Hr1).
      eexists _, _. split; [reflexivity|]. apply said; [done|done|done|by rewrite Hh].
    + rewrite (proj2 (Z.eqb_neq (zlen ws + 1) 4)) by lia. eexists _, _. split; [reflexivity|by apply said].
  - destruct (Z.eqb_spec (zlen ws + 1) 4) as [H4|H4]; cbn [andb]; [|eexists _, _; split; [reflexivity|by apply said]].
    destruct (token_is _ 1 "automove"); [apply automove_ok; [done|done|lia]|eexists _, _; split; [reflexivity|by apply said]].
Qed.

(** *** [stats] *)

Lemma totals_ok R x total : inside R x → inside R (set_totals (curr_bytes x) (curr_items x) total x).
Proof.
  intros (m & H & L & [C1 C2 C3 C4 C5 C6 C7 C8 C9 C10 C11 C12]). exists m, H, L. split; try done. intros id Hq. by destruct (C4 id Hq).
Qed.
Lemma stats_reset_ok R x : inside R x → (∀ y, R y + 2 < 2 ^ 16) →
  ∃ x', stats_reset x = Ret tt x' ∧ inside R x' ∧ heap_of x' = heap_of x.
Proof.
  intros Hin Hfew. destruct (use_exec (st := st) Hlargest s StatsReset R _ (totals_ok R x 0 Hin)) as (ret & x' & Hr & Hin'); [done|].
  apply no_result_inv in Hr. exists x'. split; [exact Hr|]. split; [done|]. by injection Hr as <-.
Qed.

Lemma write_and_free_done R x c buf : idle c → noreply c = false → inside R x → msglist c = [[]] → msgcurr c = 0 → msgbytes c = 0 →
  command_done x R c x (write_and_free buf c) [].
Proof.
  intros Hi Hn Hin Hl Hc Hb. unfold write_and_free. destruct buf as [b|]; [|by apply said].
  apply reply_done; [done|done| |by auto]. split; try done; [by destruct Hi|by right].
Qed.

Lemma stat_ok R x c ws t : idle c → noreply c = false → inside R x → msglist c = [[]] → msgcurr c = 0 → msgbytes c = 0 →
  (∀ y, R y + 2 < 2 ^ 16) → 1 ≤ zlen ws →
  ∃ c' x', process_stat g (tokens_of ws t) c x = Ret c' x' ∧ command_done x R c x' c' [].
Proof.
  intros Hi Hn Hin Hl Hc Hb Hfew Hws. unfold process_stat. rewrite zlen_tokens.
  assert (∀ l, ∃ c' x', (mret (write_and_free (stats_text g l) c) : IM conn) x = Ret c' x' ∧ command_done x R c x' c' []) as Htext.
  { intros l. eexists _, _. split; [reflexivity|by apply write_and_free_done]. }
  assert (∀ l, ∃ c' x', (mret (out_string l c) : IM conn) x = Ret c' x' ∧ command_done x R c x' c' []) as Hsay.
  { intros l. eexists _, _. split; [reflexivity|by apply said]. }
  destruct (Z.eqb_spec (zlen ws + 1) 2); [done|]. word 1 name. at_word.
  destruct (token_is _ 1 "reset").
  { destruct (stats_reset_ok R x Hin Hfew) as (x1 & Hr1 & Hin1 & Hh). rewrite (M_bind_ret _ _ _ _ _ Hr1).
    eexists _, _. split; [reflexivity|]. apply said; [done|done|done|by rewrite Hh]. }
  destruct (token_is _ 1 "detail"); [destruct (_ && _); [done|]; by destruct (_ && _)|].
  destruct (token_is _ 1 "settings"); [done|]. destruct (token_is _ 1 "cachedump").
  { destruct (Z.ltb_spec (zlen ws + 1) 5); [done|]. word 2 a. word 3 b. at_word. at_word.
    destruct (McUtil.safe_strtoul a) as [ok2 id], (McUtil.safe_strtoul b) as [ok3 limit]. destruct (negb _); [done|]. by destruct (_ <=? _). }
  by destruct (_ || _).
Qed.

(** ** Storage commands *)

Lemma size_ok_ok R x nkey flags nbytes : inside R x → ∃ b, item_size_ok st nkey flags nbytes x = Ret b x.
Proof.
  intros (m & H & L & Hok). destruct (ca_clsid (Slabs.mkArena (heap_of x) (the_pool x)) H (item_ntotal st nkey flags nbytes) (co_holds Hok)) as (id & Hid & _).
  unfold item_size_ok. erewrite M_bind_ret by reflexivity. unfold lift_result. cbn in Hid. rewrite Hid. by eexists.
Qed.

Lemma refuse_ok R x x0 c c0 comm key flags vlen : idle c → same_buffer c0 c → inside R x → (∀ y, R y + 3 < 2 ^ 16) → 0 ≤ vlen →
  stays (λ y, 1 ≤ R y) (heap_of x0) (heap_of x) →
  ∃ c' x', refuse_update st hash comm key flags vlen c x = Ret c' x' ∧ command_done x0 R c0 x' c' [].
Proof.
  intros Hi Hb Hin Hfew Hv Hs. unfold refuse_update. destruct (size_ok_ok R x (zlen key) flags vlen Hin) as [b Hb1]. rewrite (M_bind_ret _ _ _ _ _ Hb1).
  set (text := if b then _ else _). pose proof (out_string_replied text c Hi) as [[R1 R2 R3 R4] R5 R6 R7 R8].
  set (c1 := out_string text c) in *.
  assert (∃ x', (if decide (comm = NREAD_SET) then
     let* it := item_get hash key in if it =? 0 then mret tt else item_unlink hash it ;; item_remove it else mret tt) x = Ret tt x' ∧
     inside R x' ∧ undisturbed (λ _, True) x x') as (x1 & Hr1 & Hin1 & [Hs1 _]).
  { destruct (decide _); [|by exists x]. destruct (use_get Hlargest R x key Hin) as (y & x1 & Hr1 & [Hs1 _ _ _] & Hc); [intros z; specialize (Hfew z); lia|].
    rewrite (M_bind_ret _ _ _ _ _ Hr1). destruct (answer hash x key); [destruct Hc as (Hy & Hin1 & _)|destruct Hc as [-> Hin1]; by exists x1].
    rewrite (proj2 (Z.eqb_neq y 0)) by done. destruct (unlink_found R x1 y Hin1 Hfew (inside_nonneg R x y Hin)) as (x2 & Hr2 & Hin2 & Hs2).
    exists x2. split; [exact Hr2|]. split; [done|]. by etrans. }
  rewrite (M_bind_ret _ _ _ _ _ Hr1). eexists _, _. split; [reflexivity|].
  apply reply_done; [done|etrans; [exact Hs|by eapply stays_mono]| |by auto].
  split; try done. destruct Hb as (? & ? & ?), R5 as (? & ? & ?). cbn in *. split_and!; cbn; congruence.
Qed.

(** The length of a value with its CR LF, when it is accepted. *)
Lemma accepted_length v : (i32 (v + 2) <? 0) || (i32 (i32 (v + 2) - 2) <? 0) = false → 2 ≤ i32 (v + 2) < 2 ^ 31.
Proof.
  intros Hv. apply orb_false_iff in Hv as [H1 H2]. apply Z.ltb_ge in H1, H2.
  pose proof (wraps_range 32 (v + 2) ltac:(lia)) as Hr. fold (i32 (v + 2)) in Hr. change (2 ^ (32 - 1)) with (2 ^ 31) in *.
  assert (i32 (i32 (v + 2) - 2) = i32 (v + 2) - 2) as He by (apply wraps_small; [done|]; change (2 ^ (32 - 1)) with (2 ^ 31); lia). lia.
Qed.

(** The item of a storage command has been allocated: its value is read next. *)
Definition reading_state (c : conn) (comm : nread) (it nb : Z) : conn :=
  conn_set_state conn_nread (set_cmd (Some comm) (set_rlbytes nb (set_ritem 0 (set_c_item it c)))).

Lemma reading_fine x R c comm it i : idle c → it ≠ 0 → R it = 0 → heap_of x !! it = Some i → has_flag ITEM_LINKED i = false → 2 ≤ nbytes i →
  conn_fine x R (reading_state c comm it (nbytes i)) ∧ held (reading_state c comm it (nbytes i)) = [it].
Proof.
  intros [Hm [Hs Hl] Hc Hw] H0 HR Hi Hu Hn. split.
  - split; try done; cbn; auto; try (by intros [?|?]); [by rewrite Hl|].
    intros _. split; try done. exists i. cbn. split_and!; try done; lia.
  - unfold held, window. cbn. by rewrite (proj2 (Z.eqb_neq it 0)), Hl by done.
Qed.

(** The part of a storage command behind the checks: an item is taken for the value. *)
Abbreviation take_item comm key flags e vlen cas c :=
  (let* it := item_alloc st hash s key flags e vlen in
   if it =? 0 then refuse_update st hash comm key flags vlen c
   else
     on_item it (ITEM_set_cas cas) ;;
     let* i := the_item it in
     mret (conn_set_state conn_nread (set_cmd (Some comm) (set_rlbytes (nbytes i) (set_ritem 0 (set_c_item it c)))))).

(** Either there is no memory, or the value of the new item is read next. *)
Record takes (x : cache) (R : Z → Z) (c : conn) (comm : nread) (key : bytes) (flags e vlen : Z) (x' : cache) (c' : conn) (it : Z) (i : item) : Prop := {
  tk_state : c' = reading_state c comm it vlen;
  tk_item : it ≠ 0 ∧ R it = 0 ∧ heap_of x' !! it = Some i;
  tk_fields : ITEM_key i = key ∧ nbytes i = vlen ∧ exptime i = e ∧ ITEM_suffix i = item_suffix flags vlen ∧ has_flag ITEM_LINKED i = false
}.
Lemma take_item_ok R x c c1 comm key flags e vlen cas : idle c1 → same_buffer c c1 → inside R x → (∀ y, R y + 3 < 2 ^ 16) → may_allocate st s R x →
  alloc_args key flags vlen → ∃ it x1 c' x', item_alloc st hash s key flags e vlen x = Ret it x1 ∧ inside (if it =? 0 then R else <[it := R it + 1]> R) x1 ∧
    take_item comm key flags e vlen cas c1 x = Ret c' x' ∧ command_done x R c x' c' [] ∧
    if it =? 0 then refuse_update st hash comm key flags vlen c1 x1 = Ret c' x'
    else ∃ i, takes x R c1 comm key flags e vlen x' c' it i ∧ on_item it (ITEM_set_cas cas) x1 = Ret tt x'.
Proof.
  intros Hi Hb Hin Hfew Hmay Hargs. pose proof (aa_bytes _ _ _ Hargs).
  destruct (use_alloc Hlargest R x s key flags e vlen Hin Hmay Hargs) as (it & x1 & Hr1 & Hs1 & Hc).
  rewrite (M_bind_ret _ _ _ _ _ Hr1). exists it, x1. destruct (Z.eqb_spec it 0) as [->|Hit].
  - destruct (refuse_ok R x1 x c1 c comm key flags vlen Hi Hb Hc Hfew ltac:(lia) Hs1) as (c' & x' & Hr & Hd). by exists c', x'.
  - destruct Hc as (HR & Hin1 & i & Hit1 & Hk & Hn & He & Hsf & Hu).
    destruct (use_set_cas Hlargest _ x1 it cas Hin1) as (x2 & Hr2 & Hin2 & [Hs2 _]); [rewrite fn_lookup_insert; lia|].
    pose proof (run_on_item x1 it i (ITEM_set_cas cas) Hit1) as Hr2'. assert (heap_of x2 !! it = Some (ITEM_set_cas cas i)) as Hi2.
    { rewrite Hr2 in Hr2'. injection Hr2' as ->. apply lookup_insert_eq. }
    rewrite (M_bind_ret _ _ _ _ _ Hr2). destruct (set_cas_body cas i) as [Hb2 Hu2]. istep.
    destruct (body_parts _ _ Hb2) as (Hk2 & Hsf2 & _ & Hn2). assert (exptime (ITEM_set_cas cas i) = e) as He2 by (rewrite <- He; unfold ITEM_set_cas; by destruct (has_flag ITEM_CAS i)).
    set (i2 := ITEM_set_cas cas i) in *. assert (nbytes i2 = vlen) as Hlen by congruence. rewrite Hlen.
    destruct (reading_fine x2 R c1 comm it i2 Hi Hit HR Hi2 (Hu2 Hu)) as [Hfine Hheld]; [lia|]. rewrite Hlen in Hfine, Hheld. fold (reading_state c1 comm it vlen).
    exists (reading_state c1 comm it vlen), x2. split; [done|]. split; [done|]. split; [done|]. split.
    + split; [| |done|done| |].
      * rewrite Hheld. eapply inside_ext; [exact Hin2|]. apply with_refs_one.
      * destruct (reading_fine x2 (with_refs R []) c1 comm it i2 Hi Hit) as [Hf ?]; try done; [by rewrite refs_nil|by auto|lia|]. by rewrite Hlen in Hf.
      * etrans; [exact Hs1|]. by eapply stays_mono.
      * intros y j Hy _ _. rewrite Hheld. intros ->%list_elem_of_singleton. lia.
    + exists i2. split; [|done]. split; [done|done|]. split_and!; [congruence|done|done|congruence|by auto].
Qed.

Lemma update_command_ok R x c ws t comm handle_cas : idle c → inside R x → (∀ y, R y + 3 < 2 ^ 16) → may_allocate st s R x → 5 ≤ zlen ws →
  (handle_cas = true → 6 ≤ zlen ws) →
  ∃ c' x', process_update_command st hash g s (tokens_of ws t) comm handle_cas c x = Ret c' x' ∧ command_done x R c x' c' [].
Proof.
  intros Hi Hin Hfew Hmay Hws Hcas. unfold process_update_command.
  destruct (set_noreply_idle (tokens_of ws t) c Hi) as [Hi' Hb]. set (c1 := set_noreply_maybe _ c) in *.
  assert (∀ l, ∃ c' x', (mret (out_string l c1) : IM conn) x = Ret c' x' ∧ command_done x R c x' c' []) as Hsay.
  { intros l. eexists _, _. split; [reflexivity|by apply said]. }
  word 1 key. word 2 t2. word 3 t3. word 4 t4. at_word. destruct (Z.ltb_spec KEY_MAX_LENGTH (zlen key)) as [|Hkey]; [done|].
  at_word. at_word. at_word. at_word.
  destruct (McUtil.safe_strtoul t2) as [ok2 flags], (McUtil.safe_strtol t3) as [ok3 e], (McUtil.safe_strtol t4) as [ok4 v].
  destruct (negb _); [done|].
  assert (∃ ok5 req, (if handle_cas then let* t5 := value_at (tokens_of ws t) 5 in mret (McUtil.safe_strtoull t5) else mret (true, 0)) x = Ret (ok5, req) x)
    as (ok5 & req & Hr5).
  { destruct handle_cas; [|by eexists _, _]. specialize (Hcas eq_refl). word 5 t5. at_word. by destruct (McUtil.safe_strtoull t5) as [a b]; exists a, b. }
  rewrite (M_bind_ret _ _ _ _ _ Hr5). cbv iota beta. destruct (negb ok5); [done|].
  destruct (_ || _) eqn:Hv in |- *; [done|]. apply accepted_length in Hv. set (vlen := i32 (v + 2)) in *.
  erewrite M_bind_ret by reflexivity.
  pose proof (wraps_range 32 flags ltac:(lia)) as Hf. fold (i32 flags) in Hf.
  destruct (take_item_ok R x c c1 comm key (i32 flags) (realtime (process_started g) (current_time x) (if e <? 0 then REALTIME_MAXDELTA + 1 else e)) vlen req)
    as (_ & _ & c' & x' & _ & _ & Hr & Hd & _); try done; by exists c', x'.
Qed.

Lemma out_string_item text c : set_c_item 0 (out_string text c) = out_string text (set_c_item 0 c).
Proof.
  unfold out_string, add_msghdr, try_realloc, msgused. destruct c as [? ? ? ? ? ? ? ? ? ? ? ? ? ms ? ? ? ? ? ? ? [] ? ? ra ? ?]; cbn; [done|].
  destruct (ms =? zlen []); [|done]. by destruct ra as [|[] ra].
Qed.
Lemma out_string_keeps_item text c : c_item (out_string text c) = c_item c.
Proof.
  unfold out_string, add_msghdr, try_realloc, msgused. destruct c as [? ? ? ? ? ? ? ? ? ? ? ? ? ms ? ? ? ? ? ? ? [] ? ? ra ? ?]; cbn; [done|].
  destruct (ms =? zlen []); [|done]. by destruct ra as [|[] ra].
Qed.

(** A connection that is reading a value holds just its item. *)
Lemma reading_held x R c : conn_fine x R c → state c = conn_nread → held c = [c_item c] ∧ ileft c = 0.
Proof.
  intros Hf Hst. assert (ileft c = 0) as Hl.
  { destruct (Z.eqb_spec (ileft c) 0) as [|Hne]; [done|]. destruct (cn_window _ _ _ Hf Hne) as [Hw|Hw]; by rewrite Hw in Hst. }
  split; [|done]. unfold held. rewrite window_empty by done. rewrite (proj2 (Z.eqb_neq _ _)); [done|].
  apply (br_item _ _ _ (cn_nread _ _ _ Hf Hst)).
Qed.

Lemma item_given_up R x it : inside (with_refs R [it]) x → 0 ≤ R it →
  ∃ x', item_remove it x = Ret tt x' ∧ inside R x' ∧ undisturbed (λ _, True) x x'.
Proof.
  intros Hin HR. destruct (use_remove Hlargest _ x it Hin) as (x' & Hr & Hin' & Hs); [apply with_refs_held; [done|by apply elem_of_cons; left]|].
  exists x'. split; [done|]. split; [|done]. eapply inside_ext; [exact Hin'|]. intros y. rewrite <- with_refs_drop. by rewrite refs_nil.
Qed.

Lemma complete_ok R x c : conn_fine x R c → state c = conn_nread → inside (with_refs R (held c)) x → (∀ y, 0 ≤ R y) →
  (∀ comm, cmd c = Some comm → may_store st hash s (with_refs R (held c)) x (c_item c) comm) →
  ∃ c' x', complete_nread_ascii st hash s c x = Ret c' x' ∧ command_done x R c x' c' [].
Proof.
  intros Hf Hst Hin HR Hmay. destruct (reading_held x R c Hf Hst) as [Hh Hl]. rewrite Hh in *.
  destruct (cn_nread _ _ _ Hf Hst) as [Hi0 Hpriv Hcmd (i & Hi & Hu & _ & _ & _)]. set (it := c_item c) in *.
  assert (∀ v, idle (set_c_item 0 (set_c_cas v c)) ∧ idle (set_c_item 0 c)) as Hidle.
  { intros v. destruct (cn_lists _ _ _ Hf) as (? & _). by split; split; try apply Hf. }
  assert (∀ x1 text c1, idle (set_c_item 0 c1) → same_buffer c (set_c_item 0 c1) → c_item c1 = it → inside (with_refs R [it]) x1 → stays (λ y, 1 ≤ R y) (heap_of x) (heap_of x1) →
    ∃ c' x', (item_remove it ;; mret (set_c_item 0 (out_string text c1))) x1 = Ret c' x' ∧ command_done x R c x' c' []) as Hend.
  { intros x1 text c1 Hid Hb _ Hin1 Hs1. destruct (item_given_up R x1 it Hin1 (HR it)) as (x2 & Hr2 & Hin2 & [Hs2 _]).
    rewrite (M_bind_ret _ _ _ _ _ Hr2). eexists _, _. split; [reflexivity|]. rewrite out_string_item.
    apply said; [done|done|done|]. etrans; [exact Hs1|by eapply stays_mono]. }
  unfold complete_nread_ascii. fold it. istep. destruct (decide _).
  - destruct (cmd c) as [comm|] eqn:Hc; [|done].
    destruct (use_store Hlargest _ x s it i comm (c_cas c) Hin (Hmay comm eq_refl) Hi) as (stored & cas & x1 & Hr1 & Hin1 & Hs1).
    rewrite !M_bind_assoc, (M_bind_ret _ _ _ _ _ Hr1). cbv iota beta. erewrite M_bind_ret by reflexivity. rewrite out_string_keeps_item. change (c_item (set_c_cas cas c)) with it.
    apply Hend; [apply Hidle|done|done|done|]. eapply stays_mono; [exact Hs1|]. intros y Hy. cbn in Hy. split.
    + pose proof (with_refs_ge R [it] y). lia.
    + intros ->. lia.
  - erewrite M_bind_ret by reflexivity. rewrite out_string_keeps_item. fold it. apply Hend; try done. by apply Hidle.
Qed.

End Commands.

End CommandOps.
