(* ===== verification/GetOps.v ===== *)
(** * [get] and [gets]

    The commands that answer with the values of several keys: the words of the line, however
    many, are looked up one by one; what is queued is the answer for each of them, and the
    items stay in use until it has been sent. *)

From S2P Require Import Prelude Bytes CStrings ItemHeap Slabs SlabsSafety ChunkAllocator Items ItemsInv ItemsAlloc Store StoreOps ItemsRequests ItemBodies ItemUse Tokens Connection Commands Machine Output ConnInv CommandOps.
From stdpp Require Import base gmap functions list.
From Stdlib Require Import ZArith Lia String.

Local Open Scope Z_scope.

Module GetOps.
Import ItemHeap ChunkAllocator Items ItemsInv ItemsAlloc Store StoreOps ItemsRequests ItemBodies ItemUse Tokens Connection Commands Machine Output ConnInv CommandOps.

(** ** The answer for a key *)

Definition get_reply (return_cas : bool) (a : option (bytes * bytes * bytes * Z * Z)) : bytes :=
  match a with
  | None => []
  | Some (key, suffix, data, _, cas) =>
      str "VALUE " ++ key ++
      (if return_cas then ztake (zlen suffix - 2) suffix ++ (32 :: decimal cas ++ CRLF) ++ data else suffix ++ data)
  end.

Lemma sub_all b : sub b 0 (zlen b) = b.
Proof. unfold sub, zlen. rewrite drop_0, Nat2Z.id. apply take_ge. done. Qed.
Lemma sub_app_l b b' n : 0 ≤ n ≤ zlen b → sub (b ++ b') 0 n = ztake n b.
Proof. intros Hn. unfold sub, ztake, zlen in *. rewrite drop_0. apply take_app_le. lia. Qed.

Lemma suffix_long key nb data suffix : shaped key nb data suffix → 2 ≤ zlen suffix.
Proof.
  intros [_ _ _ (f & _ & ->)]. unfold item_suffix. rewrite !zlen_app. change (zlen [13; 10]) with 2.
  pose proof (zlen_nonneg (32 :: print_int f)). pose proof (zlen_nonneg (32 :: print_int (nb - 2))). lia.
Qed.

Definition pieces_for (return_cas : bool) (it : Z) (i : item) : list (source * Z * Z) :=
  if return_cas then value_pieces_cas it i else value_pieces it i.

Lemma value_pieces_ok x it i return_cas : heap_of x !! it = Some i → shaped (ITEM_key i) (nbytes i) (ITEM_data i) (ITEM_suffix i) →
  Forall (readable x) (map iovec_of (pieces_for return_cas it i)) ∧
  pieces_bytes (memory x) (map iovec_of (pieces_for return_cas it i)) = get_reply return_cas (Some (shown i)) ∧
  ∀ p, p ∈ pieces_for return_cas it i → source_item p.1.1 = None ∨ source_item p.1.1 = Some it.
Proof.
  intros Hi Hsh. pose proof (suffix_long _ _ _ _ Hsh) as Hsu. pose proof (sh_data _ _ _ _ Hsh) as Hd. pose proof (sh_bytes _ _ _ _ Hsh) as Hnb.
  pose proof (zlen_nonneg (ITEM_key i)). assert (is_Some (heap_of x !! it)) as Hp by (by exists i).
  assert (zlen (ITEM_suffix i ++ ITEM_data i) = nsuffix i + nbytes i) as Hl by (unfold nsuffix; rewrite zlen_app; lia).
  destruct return_cas; unfold pieces_for, value_pieces, value_pieces_cas.
  - split; [|split].
    + repeat constructor; unfold readable, in_bounds; cbn [iovec_of iov_base iov_off iov_len memory present]; rewrite ?Hi; try done;
        unfold nkey, nsuffix in *; rewrite ?zlen_app; try (cbn; lia); lia.
    + unfold pieces_bytes, piece. cbn [map iovec_of iov_base iov_off iov_len memory List.concat]. rewrite !Hi.
      unfold nkey, nsuffix. rewrite <- Hd, !sub_all, (sub_app_l _ _ (zlen (ITEM_suffix i) - 2)) by lia.
      change (sub (str "VALUE ") 0 6) with (str "VALUE "). by rewrite app_nil_r.
    + intros p. rewrite !elem_of_cons. intros [->|[->|[->|[->|[->|?%elem_of_nil]]]]]; cbn; auto. done.
  - split; [|split].
    + repeat constructor; unfold readable, in_bounds; cbn [iovec_of iov_base iov_off iov_len memory present]; rewrite ?Hi; try done;
        unfold nkey, nsuffix in *; rewrite ?zlen_app; try (cbn; lia); lia.
    + unfold pieces_bytes, piece. cbn [map iovec_of iov_base iov_off iov_len memory List.concat]. rewrite !Hi.
      rewrite <- Hl. unfold nkey. rewrite !sub_all. change (sub (str "VALUE ") 0 6) with (str "VALUE "). by rewrite app_nil_r.
    + intros p. rewrite !elem_of_cons. intros [->|[->|[->|?%elem_of_nil]]]; cbn; auto. done.
Qed.

Section Get.
Context {st : Slabs.settings_t} {hash : bytes → Z} {largest : Z} {sz : Z → Z}.
Context {Holds : Slabs.arena → gmap Z Z → Prop} `{HA : !ChunkAllocator st largest sz Holds}.
Context (Hlargest : largest < LARGEST_ID).

Abbreviation inside := (inside (hash := hash) (sz := sz) (Holds := Holds)).

(** ** One key *)

(** The command, which has begun in [x0], is at work: the items of [l] and the bytes [out]
    are queued. *)
Record getting (x0 x : cache) (c : conn) (l : list Z) (out : bytes) : Prop := {
  gg_idle : idle c;
  gg_noreply : noreply c = false;
  gg_queue : can_queue x c;
  gg_about : Forall (about l) (List.concat (msglist c));
  gg_list : ∃ rest, ilist c = l ++ rest;
  gg_out : queued (memory x) (msglist c) = out;
  gg_quiet : quiet hash x0 x;
  gg_private : ∀ y i, heap_of x0 !! y = Some i → has_flag ITEM_LINKED i = false → y ∉ l
}.

(** What the command does not change until the end. *)
Record same_but_queue (c c' : conn) : Prop := {
  sq_buffer : same_buffer c c';
  sq_msgcurr : msgcurr c' = msgcurr c;
  sq_state : state c' = state c
}.
#[export] Instance same_but_queue_refl : Reflexive same_but_queue.
Proof. by intros c. Qed.
#[export] Instance same_but_queue_trans : Transitive same_but_queue.
Proof. intros c1 c2 c3 [(?&?&?) ? ?] [(?&?&?) ? ?]. split; [split_and!|..]; congruence. Qed.

(** The cache changes, but not for the items in use. *)
Lemma getting_quiet x0 x x' c l out : getting x0 x c l out → quiet hash x x' → getting x0 x' c l out.
Proof.
  intros [G1 G2 [Q1 Q2 Q3 Q4] G4 G5 G6 G8 G9] Hq. destruct Hq as [[Hs Hm] A T L] eqn:Hqe. clear Hqe.
  destruct (queued_stays (λ _, True) x x' l (msglist c) Hs ltac:(done) Q4 G4) as [Hr Hb].
  split; try done; [by rewrite Hb|]. etrans; [exact G8|by split].
Qed.

(** Room for one more item. *)
Lemma grow_ilist_ok c l rest : realloc_answers c = [] → 0 < isize c → ilist c = l ++ rest →
  ∃ c' y rest', grow_ilist (zlen l) c = (true, c') ∧ ilist c' = l ++ y :: rest' ∧ c' = set_ilist (ilist c') c.
Proof.
  intros Hm Hs Hl. unfold grow_ilist, try_realloc. destruct (Z.leb_spec (isize c) (zlen l)) as [Hle|Hlt].
  - rewrite Hm. assert (rest = []) as ->.
    { unfold isize, zlen in Hle. rewrite Hl, length_app in Hle. apply length_zero_iff_nil. lia. }
    rewrite app_nil_r in Hl. cbv iota beta. destruct (Z.to_nat (isize c)) as [|n] eqn:Hn; [lia|].
    eexists _, 0, (replicate n 0). split; [reflexivity|]. cbn. by rewrite Hl.
  - destruct rest as [|y rest]; [rewrite app_nil_r in Hl; unfold isize in Hlt; rewrite Hl in Hlt; lia|].
    exists c, y, rest. split; [done|]. split; [done|]. by destruct c.
Qed.
Lemma grow_suffixlist_ok c i : realloc_answers c = [] → ∃ v, grow_suffixlist i c = (true, set_suffixsize v c).
Proof.
  intros Hm. unfold grow_suffixlist, try_realloc. destruct (suffixsize c <=? i); [rewrite Hm; by eexists|].
  exists (suffixsize c). by destruct c.
Qed.
Lemma vec_set_middle {A} (l : list A) y rest z : vec_set (l ++ y :: rest) (zlen l) z = Ok (l ++ z :: rest).
Proof.
  erewrite vec_set_Ok by (unfold zlen; rewrite zlookup_of_nat; apply list_lookup_middle; done).
  unfold zinsert, zlen. rewrite (proj2 (Z.leb_le 0 _)) by lia. rewrite Nat2Z.id. by rewrite insert_app_r_alt, Nat.sub_diag by lia.
Qed.

(** An item that has been found is queued: its pieces, then itself. *)
Lemma queue_value_ok x0 x R c l out return_cas it i y rest : (∀ y, 0 ≤ R y) →
  getting x0 x c l out → ilist c = l ++ y :: rest → inside (with_refs R (l ++ [it])) x → heap_of x !! it = Some i →
  has_flag ITEM_LINKED i = true → expired (current_time x) (oldest_live x) i = false →
  ∃ c' x', queue_value return_cas it (zlen l) c x = Ret (c', GetNext (zlen (l ++ [it]))) x' ∧
    getting x0 x' c' (l ++ [it]) (out ++ get_reply return_cas (Some (shown i))) ∧ inside (with_refs R (l ++ [it])) x' ∧ same_but_queue c c'.
Proof.
  intros HR [G1 G2 G3 G4 G5 G6 G8 G9] Hl Hin Hi Hlk He.
  assert (1 ≤ with_refs R (l ++ [it]) it) as HRit by (apply with_refs_held; [done|]; apply elem_of_app; right; by apply elem_of_cons; left).
  destruct (inside_item Hlargest _ x it Hin HRit) as (i' & Hi' & _ & Hsh). assert (i' = i) as -> by congruence.
  destruct (value_pieces_ok x it i return_cas Hi Hsh) as (Hrd & Hbytes & Hsrc).
  destruct (add_iovs_queue x (pieces_for return_cas it i) c G3 Hrd) as (c1 & Hr1 & Hq1 & [S1 S2 S3 S4 S5 S6 S7 S8] & Hout & Hv).
  unfold queue_value. istep. unfold pieces_for in Hr1. rewrite (M_bind_ret _ _ _ _ _ Hr1). cbv iota beta.
  destruct S2 as (? & ? & ?), S4 as (Hci & ? & ? & Hsb & ?), S5 as (Hil & ? & Hle).
  destruct (use_update Hlargest _ x it i Hin HRit Hi Hlk He) as (x1 & Hr2 & Hin1 & Hq).
  unfold queue_item. rewrite (M_bind_ret _ _ _ _ _ Hr2). unfold lift_result. rewrite Hil, Hl, vec_set_middle. erewrite M_bind_ret by reflexivity.
  assert (zlen (l ++ [it]) = zlen l + 1) as Hlen by (unfold zlen; rewrite length_app; cbn; lia). rewrite Hlen.
  eexists _, x1. split; [reflexivity|]. split; [|split; [done|split; [split_and!; cbn; congruence|done|done]]].
  destruct G1 as [Im [Is Il] Ii Iw].
  apply (getting_quiet x0 x); [|exact Hq]. split; try done.
  - split; cbn; [congruence| |congruence|congruence]. split; [|congruence]. unfold isize, zlen in *. cbn. rewrite length_app. cbn. lia.
  - cbn. congruence.
  - by destruct Hq1.
  - cbn [msglist set_ilist]. rewrite Forall_forall in G4 |- *. intros v Hin'. destruct (Hv v Hin') as [Hv'|(p & Hp & Hb)].
    + eapply about_mono; [by apply G4|]. intros z Hz. by apply elem_of_app; left.
    + unfold about. rewrite Hb. destruct (Hsrc p Hp) as [-> | ->]; [done|]. apply elem_of_app; right. by apply elem_of_cons; left.
  - cbn. exists rest. by rewrite <- app_assoc.
  - cbn [msglist set_ilist]. by rewrite Hout, G6, Hbytes.
  - intros z j Hz Hzl. rewrite elem_of_app, list_elem_of_singleton. intros [?| ->]; [by eapply G9|].
    destruct (ud_stays _ _ _ (qt_undisturbed _ _ _ G8) it j I Hz) as (j' & Hj' & [_ Hu]). assert (j' = i) as -> by congruence.
    by rewrite (Hu Hzl) in Hlk.
Qed.

(** One more key. *)
Lemma get_key_ok x0 x R c l out return_cas key : (∀ y, 0 ≤ R y) → (∀ y, with_refs R l y + 2 < 2 ^ 16) → zlen key ≤ KEY_MAX_LENGTH →
  getting x0 x c l out → inside (with_refs R l) x →
  ∃ c' x' l', get_key hash return_cas key (zlen l) c x = Ret (c', GetNext (zlen l')) x' ∧
    getting x0 x' c' l' (out ++ get_reply return_cas (answer hash x0 key)) ∧ inside (with_refs R l') x' ∧ same_but_queue c c' ∧ ∀ y, with_refs R l' y ≤ with_refs R l y + 1.
Proof.
  intros HR Hfew Hkey Hg Hin. unfold get_key. rewrite (proj2 (Z.ltb_ge KEY_MAX_LENGTH (zlen key))) by done.
  destruct (use_get Hlargest _ x key Hin Hfew) as (it & x1 & Hr1 & Hq & Hc). rewrite (M_bind_ret _ _ _ _ _ Hr1).
  rewrite <- (qt_answers _ _ _ (gg_quiet _ _ _ _ _ Hg) key). apply (getting_quiet _ _ _ _ _ _ Hg) in Hq as Hg1.
  destruct (answer hash x key) as [a|] eqn:Ha.
  2: { destruct Hc as [-> Hin1]. exists c, x1, l. split; [done|]. split; [by rewrite app_nil_r|]. split; [done|]. split; [done|]. intros; lia. }
  destruct Hc as (Hit & Hin1 & i & Hi & <- & Hlk & _ & He). rewrite (proj2 (Z.eqb_neq it 0)) by done.
  assert (inside (with_refs R (l ++ [it])) x1) as Hin2 by (eapply inside_ext; [exact Hin1|]; apply with_refs_snoc).
  destruct (gg_list _ _ _ _ _ Hg1) as (rest & Hl). pose proof (gg_idle _ _ _ _ _ Hg1) as [Hmem [Hs _] _ _].
  destruct (grow_ilist_ok c l rest Hmem Hs Hl) as (c1 & y & rest' & -> & Hl1 & Hc1). cbn [negb].
  assert (getting x0 x1 c1 l out ∧ same_but_queue c c1) as [Hg2 Hsame].
  { rewrite Hc1. destruct Hg1 as [[? [? ?] ? ?] ? [? ? ? ?] ? ? ? ? ?]. split; [|done]. split; try done; [split; try done|by exists (y :: rest')].
    split; [|done]. unfold isize. cbn. rewrite Hl1. unfold zlen. rewrite length_app. cbn. lia. }
  assert (∀ c2, getting x0 x1 c2 l out → same_but_queue c c2 → ilist c2 = l ++ y :: rest' →
    ∃ c' x' l', queue_value return_cas it (zlen l) c2 x1 = Ret (c', GetNext (zlen l')) x' ∧
    getting x0 x' c' l' (out ++ get_reply return_cas (Some (shown i))) ∧ inside (with_refs R l') x' ∧ same_but_queue c c' ∧ ∀ y, with_refs R l' y ≤ with_refs R l y + 1) as Hend.
  { intros c2 Hg3 Hs2 Hl2. destruct (queue_value_ok x0 x1 R c2 l out return_cas it i y rest' HR Hg3 Hl2 Hin2 Hi Hlk He) as (c3 & x3 & Hr3 & Hg4 & Hin3 & Hs3).
    exists c3, x3, (l ++ [it]). split; [done|]. split; [done|]. split; [done|]. split; [by etrans|]. intros z. rewrite with_refs_app, with_refs_one. destruct (decide (z = it)) as [->|]; rewrite ?fn_lookup_insert, ?fn_lookup_insert_ne by done; lia. }
  destruct return_cas; [|by apply Hend].
  pose proof (gg_idle _ _ _ _ _ Hg2) as [Hmem1 _ _ _].
  destruct (grow_suffixlist_ok c1 (zlen l) Hmem1) as [v ->]. cbn [negb]. unfold try_realloc. cbn [realloc_answers set_suffixsize]. rewrite Hmem1. cbn [negb].
  apply Hend; [|by destruct Hsame as [(? & ? & ?) ? ?]|done]. by destruct Hg2 as [[? [? ?] ? ?] ? [? ? ? ?] ? ? ? ? ?].
Qed.

(** ** The words of a line *)

(** What the keys of a line are answered with. *)
Definition replies (return_cas : bool) (x : cache) (keys : list bytes) : bytes :=
  List.concat (map (λ key, get_reply return_cas (answer hash x key)) keys).

Lemma word_length w : word w → (zlen w =? 0) = false.
Proof. intros [Hw _]. destruct w; [done|]. apply Z.eqb_neq. unfold zlen. cbn. lia. Qed.

(** Whether [get] accepts the keys. *)
Definition accepts_keys (keys : list bytes) : bool := forallb (λ key, zlen key <=? KEY_MAX_LENGTH) keys.

Lemma replies_app return_cas x ks1 ks2 : replies return_cas x (ks1 ++ ks2) = replies return_cas x ks1 ++ replies return_cas x ks2.
Proof. unfold replies. by rewrite map_app, List.concat_app. Qed.

(** The inner loop: all keys are looked up, or it stops at the first that is too long. *)
Lemma get_keys_ok x0 R return_cas rest ws : (∀ y, 0 ≤ R y) → Forall word ws →
  ∀ x c l out, (∀ y, with_refs R l y + zlen ws + 2 < 2 ^ 16) → getting x0 x c l out → inside (with_refs R l) x →
  ∃ c1 x' l' out', getting x0 x' c1 l' out' ∧ inside (with_refs R l') x' ∧ same_but_queue c c1 ∧
    (∀ y, with_refs R l' y ≤ with_refs R l y + zlen ws) ∧
    if accepts_keys ws then
      get_keys hash return_cas (tokens_of ws (mkToken rest 0)) (zlen l) c x = Ret (c1, zlen l', Some rest) x' ∧ out' = out ++ replies return_cas x0 ws
    else get_keys hash return_cas (tokens_of ws (mkToken rest 0)) (zlen l) c x = Ret (out_string bad_format c1, zlen l', None) x'.
Proof.
  intros HR Hw. induction Hw as [|w ws Hw1 Hw IH]; intros x c l out Hfew Hg Hin.
  - exists c, x, l, out. split; [done|]. split; [done|]. split; [done|]. split; [intros y; change (zlen []) with 0; lia|]. split; [done|by rewrite app_nil_r].
  - cbn [map app get_keys token_of tok_length tok_value accepts_keys forallb]. rewrite (word_length w Hw1).
    assert (zlen (w :: ws) = 1 + zlen ws) as Hlen by (unfold zlen; cbn; lia). assert (0 ≤ zlen ws) by (unfold zlen; lia).
    destruct (Z.leb_spec (zlen w) KEY_MAX_LENGTH) as [Hk|Hk]; cbn [andb].
    + destruct (get_key_ok x0 x R c l out return_cas w HR) as (c1 & x1 & l1 & Hr1 & Hg1 & Hin1 & Hs1 & Hc1); [|done..|].
      { intros y. specialize (Hfew y). lia. }
      rewrite (M_bind_ret _ _ _ _ _ Hr1). cbv iota beta.
      destruct (IH x1 c1 l1 _ ltac:(intros y; specialize (Hfew y); specialize (Hc1 y); lia) Hg1 Hin1) as (c2 & x2 & l2 & out2 & Hg2 & Hin2 & Hs2 & Hc2 & Hr2).
      exists c2, x2, l2, out2. split; [done|]. split; [done|]. split; [by etrans|]. split; [intros y; specialize (Hc1 y); specialize (Hc2 y); lia|].
      change (forallb _ ws) with (accepts_keys ws). destruct (accepts_keys ws); [|done]. destruct Hr2 as [Hr2 ->]. split; [done|]. by rewrite <- app_assoc.
    + exists c, x, l, out. split; [done|]. split; [done|]. split; [done|]. split; [intros y; lia|].
      unfold get_key. by rewrite (proj2 (Z.ltb_lt _ _)) by done.
Qed.

(** All keys of the line, with the rest of it that has not been cut. *)
Definition all_words (ws : list bytes) (rest : option bytes) : list bytes := ws ++ match rest with Some r => words r | None => [] end.
Definition rest_length (rest : option bytes) : nat := match rest with Some r => S (List.length r) | None => 0 end.

Lemma accepts_keys_app ks1 ks2 : accepts_keys (ks1 ++ ks2) = accepts_keys ks1 && accepts_keys ks2.
Proof. apply forallb_app. Qed.
Lemma zlen_words ws rest : zlen (all_words ws rest) = zlen ws + zlen (match rest with Some r => words r | None => [] end).
Proof. unfold all_words, zlen. rewrite length_app. lia. Qed.

Lemma get_loop_ok x0 R return_cas fuel : (∀ y, 0 ≤ R y) →
  ∀ ws rest x c l out, (rest_length rest < fuel)%nat → Forall word ws → (∀ y, with_refs R l y + zlen (all_words ws rest) + 2 < 2 ^ 16) →
  getting x0 x c l out → inside (with_refs R l) x →
  ∃ c1 x' l' out', getting x0 x' c1 l' out' ∧ inside (with_refs R l') x' ∧ same_but_queue c c1 ∧
    if accepts_keys (all_words ws rest) then
      get_loop hash fuel return_cas (tokens_of ws (mkToken rest 0)) (zlen l) c x = Ret (c1, Some (zlen l')) x' ∧ out' = out ++ replies return_cas x0 (all_words ws rest)
    else get_loop hash fuel return_cas (tokens_of ws (mkToken rest 0)) (zlen l) c x = Ret (out_string bad_format c1, None) x'.
Proof.
  intros HR. induction fuel as [|fuel IH]; intros ws rest x c l out Hfuel Hw Hfew Hg Hin; [lia|].
  rewrite zlen_words in Hfew. set (more := match rest with Some r => words r | None => [] end) in *. assert (0 ≤ zlen more) by (unfold zlen; lia).
  destruct (get_keys_ok x0 R return_cas rest ws HR Hw x c l out) as (c1 & x1 & l1 & out1 & Hg1 & Hin1 & Hs1 & Hc1 & Hr1); [|done..|].
  { intros y. specialize (Hfew y). lia. }
  unfold all_words. fold more. rewrite accepts_keys_app, replies_app. cbn [get_loop]. destruct (accepts_keys ws); cbn [andb].
  2: { exists c1, x1, l1, out1. split; [done|]. split; [done|]. split; [done|]. by rewrite (M_bind_ret _ _ _ _ _ Hr1). }
  destruct Hr1 as [Hr1 ->]. rewrite (M_bind_ret _ _ _ _ _ Hr1). cbv iota beta. destruct rest as [r|].
  - destruct (tokenize_command_spec r MAX_TOKENS ltac:(unfold MAX_TOKENS; lia)) as (ws2 & rest2 & -> & Hw2 & _ & Hr2).
    assert (more = all_words ws2 rest2) as Hmore by (unfold more, all_words; destruct rest2; [by destruct Hr2|by rewrite app_nil_r]). rewrite Hmore in *.
    destruct (IH ws2 rest2 x1 c1 l1 (out ++ replies return_cas x0 ws)) as (c2 & x2 & l2 & out2 & Hg2 & Hin2 & Hs2 & Hr3); [|done| |done|done|].
    { cbn in Hfuel. destruct rest2 as [r2|]; cbn; [|lia]. destruct Hr2 as (_ & _ & Hlt). unfold zlen in Hlt. lia. }
    { intros y. specialize (Hfew y). specialize (Hc1 y). lia. }
    exists c2, x2, l2, out2. split; [done|]. split; [done|]. split; [by etrans|].
    destruct (accepts_keys _); [|done]. destruct Hr3 as [Hr3 ->]. split; [done|]. by rewrite app_assoc.
  - exists c1, x1, l1, (out ++ replies return_cas x0 ws). split; [done|]. split; [done|]. split; [done|]. cbn. split; [done|]. by rewrite app_nil_r.
Qed.

(** ** The command *)

Lemma getting_start x c : idle c → noreply c = false → msglist c = [[]] → msgbytes c = 0 → getting x x c [] [].
Proof.
  intros Hi Hn Hl Hb. split; rewrite ?Hl; [done|done| |by constructor|by exists (ilist c)|done|done|intros; apply not_elem_of_nil].
  split; rewrite ?Hl; [apply Hi|by exists [], []|intros _; by rewrite Hb|by constructor].
Qed.

Lemma window_prefix c l rest : ilist c = l ++ rest → icurr c = 0 → ileft c = zlen l → window c = l.
Proof. intros Hl Hi Hn. unfold window. rewrite Hl, Hi, Hn, drop_0. unfold zlen. rewrite Nat2Z.id. by rewrite take_app_length. Qed.

(** Everything has been found and queued: [END] follows. *)
Lemma get_end x0 x R c0 c l out return_cas : getting x0 x c l out → inside (with_refs R l) x → same_but_queue c0 c → (∀ y, 0 ≤ R y) →
  ∃ c', ((let c := set_ileft (zlen l) (set_icurr 0 c) in
         let c := if return_cas : bool then set_suffixleft (zlen l) c else c in
         let* '(ok, c) := lift_result (add_iov (Text (str "END" ++ CRLF)) 0 5 c) in
         if ok : bool then mret (set_msgcurr 0 (conn_set_state conn_mwrite c))
         else mret (out_string (str "SERVER_ERROR out of memory writing get response") c)) : IM conn) x = Ret c' x ∧
    command_done (hash := hash) (sz := sz) (Holds := Holds) x0 R c0 x c' [] ∧ state c' = conn_mwrite ∧ pending x c' = out ++ str "END" ++ CRLF.
Proof.
  intros [[Im [Is Il] Ii Iw] G2 [Q1 Q2 Q3 Q4] G4 (rest & G5) G6 [[G8 _] _ _ _] G9] Hin [(B1 & B2 & B3) Hmc Hst] HR. cbv zeta.
  set (c1 := if return_cas then _ else _).
  assert (can_queue x c1 ∧ same_buffer c0 c1 ∧ ilist c1 = ilist c ∧ icurr c1 = 0 ∧ ileft c1 = zlen l ∧ c_item c1 = 0 ∧ sbytes c1 = sbytes c ∧
    noreply c1 = false ∧ msglist c1 = msglist c) as (Hq & (C1 & C2 & C3) & C4 & C5 & C6 & C7 & C8 & C9 & C10).
  { by destruct return_cas; split_and!. }
  destruct (add_iov_readable x (Text (str "END" ++ CRLF)) 0 5 c1 Hq) as (c2 & Ha & Hq2 & [S1 (S2a & S2b & S2c) S3 (S4a & S4b & S4c & S4d & S4e) (S5a & S5b & S5c) S6 S7 S8] & Hout & Hv); [done|].
  erewrite M_bind_ret by (unfold lift_result; rewrite Ha; reflexivity). cbv iota beta.
  eexists. split; [reflexivity|]. set (c' := set_msgcurr 0 (conn_set_state conn_mwrite c2)).
  assert (window c' = l) as Hwin by (apply (window_prefix _ _ rest); cbn; congruence).
  assert (held c' = l) as Hheld by (unfold held; rewrite Hwin; cbn; by rewrite S4a, C7).
  destruct Hq2 as [Q1' Q2' Q3' Q4'].
  assert (pending x c' = out ++ str "END" ++ CRLF) as Hp.
  { unfold pending. cbn. rewrite drop_0. rewrite Hout, C10, G6. done. }
  split; [|by split]. split.
  - rewrite Hheld. done.
  - assert (zlen l ≤ isize c') as Hfit by (unfold isize; cbn; rewrite S5a, C4, G5; unfold zlen; rewrite length_app; lia).
    assert (0 ≤ zlen l) by (unfold zlen; lia). assert (0 < isize c') by (unfold isize in *; cbn; by rewrite S5a, C4).
    split; try done; cbn; auto.
    + split; [done|]. rewrite S5c, C6. split; [done|]. intros _. rewrite S5b, C5. lia.
    + by rewrite S4a, C7.
    + intros _. split; [split; [done|done]| |exact Q3'|exact Q2'].
      rewrite Hwin. rewrite Forall_forall in G4 |- *. intros v Hin'. cbn in Hin'. destruct (Hv v Hin') as [Hv'|Hb]; [apply G4; by rewrite <- C10|].
      unfold about. by rewrite Hb.
    + by rewrite S6, C9.
    + rewrite S4d, C8. done.
  - split_and!; cbn; congruence.
  - done.
  - eapply stays_mono; [exact G8|done].
  - rewrite Hheld. intros y i _ Hy Hl. by eapply G9.
Qed.

Lemma get_command_ok x R c ws rest fuel return_cas : idle c → noreply c = false → msglist c = [[]] → msgbytes c = 0 → inside R x → (∀ y, 0 ≤ R y) →
  Forall word ws → (rest_length rest < fuel)%nat → 
  let keys := all_words (tail ws) rest in
  1 ≤ zlen ws → (∀ y, R y + zlen keys + 2 < 2 ^ 16) →
  ∃ c' x' lost, process_get_command hash fuel (tokens_of ws (mkToken rest 0)) return_cas c x = Ret c' x' ∧ command_done (hash := hash) (sz := sz) (Holds := Holds) x R c x' c' lost ∧
    if accepts_keys keys then lost = [] ∧ state c' = conn_mwrite ∧ pending x' c' = replies return_cas x keys ++ str "END" ++ CRLF
    else state c' = conn_write ∧ wcurr c' = bad_format ++ CRLF.
Proof.
  intros Hi Hn Hl Hb Hin HR Hw Hfuel keys Hws Hfew. unfold process_get_command.
  destruct ws as [|name ws]; [done|]. cbn [map app drop tail] in *. apply list.Forall_cons in Hw as [_ Hw].
  destruct (get_loop_ok x R return_cas fuel HR ws rest x c [] [] Hfuel Hw) as (c1 & x1 & l & out & Hg & Hin1 & Hs1 & Hr1).
  { intros y. rewrite with_refs_nil. apply Hfew. }
  { by apply getting_start. }
  { eapply inside_ext; [exact Hin|apply with_refs_nil]. }
  fold keys in Hr1. destruct (accepts_keys keys).
  - destruct Hr1 as [Hr1 ->]. rewrite (M_bind_ret _ _ _ _ _ Hr1). cbv iota beta.
    destruct (get_end x x1 R c c1 l _ return_cas Hg Hin1 Hs1 HR) as (c2 & Hr2 & Hd & Hst & Hp).
    exists c2, x1, []. split; [exact Hr2|]. split; [done|]. by split.
  - rewrite (M_bind_ret _ _ _ _ _ Hr1). cbv iota beta. exists (out_string bad_format c1), x1, l. split; [reflexivity|].
    pose proof (out_string_replied bad_format c1 (gg_idle _ _ _ _ _ Hg)) as Hrep. pose proof (gg_noreply _ _ _ _ _ Hg) as Hn1.
    assert (state (out_string bad_format c1) = conn_write ∧ wcurr (out_string bad_format c1) = bad_format ++ CRLF) as [Hst Hwc].
    { unfold out_string. rewrite Hn1. done. }
    split; [|done]. pose proof (idle_held _ (rp_idle _ _ Hrep)) as Hh. split.
    + by rewrite Hh, app_nil_r.
    + eapply replied_fine; [exact Hrep|]. intros _. left. by apply out_string_go.
    + destruct (rp_buffer _ _ Hrep) as (? & ? & ?), Hs1 as [(? & ? & ?) _ _]. split_and!; congruence.
    + by rewrite Hst.
    + destruct (gg_quiet _ _ _ _ _ Hg) as [[Hs _] _ _ _]. by eapply stays_mono.
    + rewrite Hh, app_nil_r. intros y i _. apply (gg_private _ _ _ _ _ Hg).
Qed.

End Get.

End GetOps.
