(* ===== verification/LineOps.v ===== *)
(** * Command lines

    [process_command] of [memcached-1.4.15/memcached.c]: whatever a line says, its command
    ends and keeps the invariant of the connection and of the cache, and a [get] is
    answered with the values of its keys. *)

From S2P Require Import Prelude Bytes CStrings ItemHeap Slabs ChunkAllocator Items ItemsInv Store StoreOps ItemsRequests ItemBodies ItemUse Tokens Connection Commands Machine Output ConnInv CommandOps GetOps.
From stdpp Require Import base gmap functions list.
From Stdlib Require Import ZArith Lia String.

Local Open Scope Z_scope.

Module LineOps.
Import ItemHeap ChunkAllocator Items ItemsInv Store StoreOps ItemsRequests ItemBodies ItemUse Tokens Connection Commands Machine Output ConnInv CommandOps GetOps.

(** ** Which commands a line can be *)

(** A [get] with a key that is too long gives up in the middle of its work. *)
Definition get_names : list bytes := [str "get"; str "bget"; str "gets"].
Definition gives_up (line : bytes) : bool :=
  match words line with
  | name :: keys => bool_decide (name ∈ get_names) && negb (accepts_keys keys)
  | [] => false
  end.

Lemma token_is_first w ws t name : token_is (tokens_of (w :: ws) t) 0 name = bool_decide (w = str name).
Proof. unfold token_is. cbn. apply bool_decide_ext. split; [by intros [= ->]|by intros ->]. Qed.

Lemma tokens_of_line line : ∃ ws rest,
  tokenize_command line MAX_TOKENS = tokens_of ws (mkToken rest 0) ∧ Forall word ws ∧ words line = all_words ws rest ∧
  (rest_length rest ≤ S (List.length line))%nat ∧ (rest ≠ None → zlen ws = 7).
Proof.
  destruct (tokenize_command_spec line MAX_TOKENS ltac:(unfold MAX_TOKENS; lia)) as (ws & rest & Ht & Hw & _ & Hr).
  exists ws, rest. split; [done|]. split; [done|]. unfold all_words. destruct rest as [r|].
  - destruct Hr as (-> & Hl & Hlt). split; [done|]. split; [unfold zlen in Hlt; cbn; lia|]. done.
  - rewrite app_nil_r. split; [done|]. split; [cbn; lia|]. done.
Qed.

Section Lines.
Context {st : Slabs.settings_t} {hash : bytes → Z} {largest : Z} {sz : Z → Z}.
Context {Holds : Slabs.arena → gmap Z Z → Prop} `{HA : !ChunkAllocator st largest sz Holds}.
Context (Hlargest : largest < LARGEST_ID) (g : globals) (s : sys).

Abbreviation inside := (inside (hash := hash) (sz := sz) (Holds := Holds)).
Abbreviation command_done := (command_done (hash := hash) (sz := sz) (Holds := Holds)).

(** What the cache and the system are like when the line is handled: no item has nearly
    as many references as its counter can hold, items are not held for hours, and a
    key that is named has been used within three hours. *)
Record line_env (R : Z → Z) (x : cache) (line : bytes) : Prop := {
  le_refs : ∀ y, R y + zlen (words line) + 3 < 2 ^ 16;
  le_alloc : may_allocate st s R x;
  le_recent : ∀ key, key ∈ words line → recently_used hash x key
}.

Lemma command_done_buffer x R c0 c x' c' lost : command_done x R c x' c' lost → same_buffer c0 c → command_done x R c0 x' c' lost.
Proof. intros [D1 D2 (? & ? & ?) D4 D5 D6] (? & ? & ?). split; try done. split_and!; congruence. Qed.

(** The state of the connection at the start of a command. *)
Record at_command (c : conn) : Prop := {
  ac_idle : idle c;
  ac_noreply : noreply c = false;
  ac_messages : msglist c = [[]];
  ac_position : msgcurr c = 0 ∧ msgbytes c = 0
}.

Lemma quit_done R x c : idle c → noreply c = false → inside R x → command_done x R c x (conn_set_state conn_closing c) [].
Proof.
  intros Hi Hn Hin. assert (idle (conn_set_state conn_closing c)) as Hi' by (by destruct Hi). pose proof (idle_held _ Hi') as Hh. split.
  - rewrite Hh. eapply inside_ext; [exact Hin|apply with_refs_nil].
  - apply idle_fine; [done|done|by do 5 right].
  - done.
  - done.
  - done.
  - intros. rewrite Hh. apply not_elem_of_nil.
Qed.

(** The line is a [get] when its first word says so and there is a key. *)
Lemma dispatch_get fuel w k ws t c : w ∈ get_names →
  dispatch st hash g s fuel (tokens_of (w :: k :: ws) t) c =
    process_get_command hash fuel (tokens_of (w :: k :: ws) t) (bool_decide (w = str "gets")) c.
Proof.
  intros Hw. assert ((3 <=? zlen (tokens_of (w :: k :: ws) t)) = true) as H3.
  { apply Z.leb_le. rewrite zlen_tokens. unfold zlen. cbn. lia. }
  unfold get_names in Hw. rewrite !elem_of_cons in Hw. unfold dispatch, storage_command. rewrite !token_is_first, H3.
  destruct Hw as [->|[->|[->|?%elem_of_nil]]]; [| | |done];
    repeat match goal with |- context [bool_decide (str ?a = str ?b)] =>
      let v := eval vm_compute in (bool_decide (str a = str b)) in change (bool_decide (str a = str b)) with v end;
    cbn [andb orb]; rewrite ?andb_false_r; try done.
  by destruct ((_ =? 6) || _).
Qed.

(** Everything but [get]. *)
Lemma dispatch_other_ok R x c fuel ws rest line : at_command c → inside R x → line_env R x line → words line = all_words ws rest →
  (3 ≤ zlen ws + 1 → ∀ name, name ∈ ["get"; "bget"; "gets"]%string → token_is (tokens_of ws (mkToken rest 0)) 0 name = false) →
  ∃ c' x', dispatch st hash g s fuel (tokens_of ws (mkToken rest 0)) c x = Ret c' x' ∧ command_done x R c x' c' [].
Proof.
  intros [Hi Hn Hl [Hmc Hmb]] Hin [Hrefs Hmay Hrec] Hwords Hget. set (t := mkToken rest 0) in *.
  assert (0 ≤ zlen (words line)) as Hpos by (unfold zlen; lia).
  assert (∀ y, R y + 3 < 2 ^ 16) as Hfew3 by (intros y; specialize (Hrefs y); lia).
  assert (∀ y, R y + 2 < 2 ^ 16) as Hfew2 by (intros y; specialize (Hrefs y); lia).
  assert (∀ key, zlookup ws 1 = Some key → recently_used hash x key) as Hrec1.
  { intros key Hk. apply Hrec. rewrite Hwords. unfold all_words. apply elem_of_app. left. apply zlookup_nat in Hk. by eapply list_elem_of_lookup_2. }
  assert (∀ name b, name ∈ ["get"; "bget"; "gets"]%string → ((3 <=? zlen ws + 1) && token_is (tokens_of ws t) 0 name) = b → b = false) as Hno.
  { intros name b Hname <-. destruct (Z.leb_spec 3 (zlen ws + 1)) as [H3|]; [|done]. cbn. by apply Hget. }
  unfold dispatch. rewrite zlen_tokens.
  assert ((3 <=? zlen ws + 1) && (token_is (tokens_of ws t) 0 "get" || token_is (tokens_of ws t) 0 "bget") = false) as ->.
  { rewrite andb_orb_distrib_r. apply orb_false_iff. split; (eapply Hno; [|reflexivity]); rewrite !elem_of_cons; auto. }
  destruct (if _ : bool then storage_command _ else None) as [comm|] eqn:Hst.
  { destruct (Z.eqb_spec (zlen ws + 1) 6) as [|]; destruct (Z.eqb_spec (zlen ws + 1) 7) as [|]; cbn [orb] in Hst; try done;
      apply (update_command_ok Hlargest); try done; lia. }
  clear Hst. destruct (_ && token_is _ 0 "cas") eqn:E1.
  { apply andb_true_iff in E1 as [E1 _]. apply orb_true_iff in E1. rewrite !Z.eqb_eq in E1. apply (update_command_ok Hlargest); try done; lia. }
  destruct (_ && token_is _ 0 "incr") eqn:E2.
  { apply andb_true_iff in E2 as [E2 _]. apply orb_true_iff in E2. rewrite !Z.eqb_eq in E2. apply (arithmetic_ok Hlargest); try done; lia. }
  assert ((3 <=? zlen ws + 1) && token_is (tokens_of ws t) 0 "gets" = false) as -> by (eapply Hno; [|reflexivity]; rewrite !elem_of_cons; auto).
  destruct (_ && token_is _ 0 "decr") eqn:E3.
  { apply andb_true_iff in E3 as [E3 _]. apply orb_true_iff in E3. rewrite !Z.eqb_eq in E3. apply (arithmetic_ok Hlargest); try done; lia. }
  destruct (_ && token_is _ 0 "delete") eqn:E4.
  { apply andb_true_iff in E4 as [E4 _]. apply andb_true_iff in E4 as [E4 _]. apply Z.leb_le in E4. apply (delete_ok Hlargest); try done; lia. }
  destruct (_ && token_is _ 0 "touch") eqn:E5.
  { apply andb_true_iff in E5 as [E5 _]. apply orb_true_iff in E5. rewrite !Z.eqb_eq in E5. apply (touch_command_ok Hlargest); try done; lia. }
  destruct (_ && token_is _ 0 "stats") eqn:E6.
  { apply andb_true_iff in E6 as [E6 _]. apply Z.leb_le in E6. apply (stat_ok Hlargest); try done; lia. }
  destruct (_ && token_is _ 0 "flush_all") eqn:E7.
  { apply andb_true_iff in E7 as [E7 Hname]. apply andb_true_iff in E7 as [E7 _]. apply Z.leb_le in E7. apply (flush_ok Hlargest); try done; lia. }
  destruct (_ && token_is _ 0 "version"); [eexists _, _; split; [reflexivity|by apply said]|].
  destruct (_ && token_is _ 0 "quit"); [eexists _, _; split; [reflexivity|by apply quit_done]|].
  destruct (_ && token_is _ 0 "slabs"); [by apply (slabs_ok Hlargest)|].
  destruct (_ && token_is _ 0 "verbosity") eqn:E8.
  { apply andb_true_iff in E8 as [E8 _]. apply orb_true_iff in E8. rewrite !Z.eqb_eq in E8. apply verbosity_ok; try done; lia. }
  eexists _, _. split; [reflexivity|by apply said].
Qed.

(** A [get], whatever its keys. *)
Lemma dispatch_get_ok R x c fuel w keys ws rest line : at_command c → inside R x → (∀ y, R y + zlen (words line) + 3 < 2 ^ 16) →
  words line = all_words ws rest → Forall word ws → (rest_length rest < fuel)%nat → (2 ≤ zlen ws) →
  words line = w :: keys → w ∈ get_names →
  ∃ c' x' lost, dispatch st hash g s fuel (tokens_of ws (mkToken rest 0)) c x = Ret c' x' ∧ command_done x R c x' c' lost ∧
    if accepts_keys keys then lost = [] ∧ state c' = conn_mwrite ∧
      pending x' c' = replies (hash := hash) (bool_decide (w = str "gets")) x keys ++ str "END" ++ CRLF
    else state c' = conn_write ∧ wcurr c' = bad_format ++ CRLF.
Proof.
  intros [Hi Hn Hl [Hmc Hmb]] Hin Hrefs Hwords Hw Hfuel H2 Hline Hname.
  destruct ws as [|w' [|k ws]]; [done|done|]. rewrite Hwords in Hline. unfold all_words in Hline. cbn [app] in Hline. injection Hline as -> Hkeys.
  rewrite (dispatch_get fuel w k ws _ c Hname).
  assert (all_words (tail (w :: k :: ws)) rest = keys) as Hall by (unfold all_words; by rewrite <- Hkeys).
  assert (∀ y, 0 ≤ R y) as HR by (intros y; by apply (inside_nonneg (hash := hash) (sz := sz) (Holds := Holds) R x)).
  destruct (get_command_ok Hlargest x R c (w :: k :: ws) rest fuel (bool_decide (w = str "gets")) Hi Hn Hl Hmb Hin HR Hw Hfuel)
    as (c' & x' & lost & Hr & Hd & Hres); [lia| |].
  { intros y. rewrite Hall. specialize (Hrefs y). rewrite Hwords in Hrefs. unfold all_words in Hrefs. cbn [app] in Hrefs. rewrite Hkeys in Hrefs.
    unfold zlen in *. cbn in Hrefs. lia. }
  rewrite Hall in Hres. by exists c', x', lost.
Qed.

(** ** The whole line *)

Lemma at_command_start c c1 : idle c → noreply c = false → add_msghdr (set_iovused 0 (set_msglist [] (set_msgcurr 0 c))) = (true, c1) →
  at_command c1 ∧ same_buffer c c1.
Proof.
  intros [Hm [Hs Hl] Hi Hw] Hn Ha. destruct (add_msghdr_ok (set_iovused 0 (set_msglist [] (set_msgcurr 0 c))) Hm) as (c' & Ha' & Hml & Hmb & [S1 S2 S3 S4 S5 S6 S7 S8]).
  rewrite Ha in Ha'. injection Ha' as ->. destruct S2 as (? & ? & ?), S4 as (? & ? & ? & ? & ?), S5 as (Hil & ? & ?). cbn in *.
  split; [|by split_and!]. split; [split| | |split]; try done; try congruence. split; [unfold isize in *; by rewrite Hil|congruence].
Qed.

(** A line that is a [get] with a key. *)
Lemma process_get_ok R x c line w k keys : idle c → noreply c = false → inside R x → (∀ y, R y + zlen (words line) + 3 < 2 ^ 16) →
  words line = w :: k :: keys → w ∈ get_names →
  ∃ c' x' lost, process_command st hash g s line c x = Ret c' x' ∧ command_done x R c x' c' lost ∧
    if accepts_keys (k :: keys) then lost = [] ∧ state c' = conn_mwrite ∧
      pending x' c' = replies (hash := hash) (bool_decide (w = str "gets")) x (k :: keys) ++ str "END" ++ CRLF
    else state c' = conn_write ∧ wcurr c' = bad_format ++ CRLF.
Proof.
  intros Hi Hn Hin Hrefs Hline Hname. unfold process_command. pose proof (id_memory c Hi) as Hmem.
  destruct (add_msghdr_ok (set_iovused 0 (set_msglist [] (set_msgcurr 0 c))) Hmem) as (c1 & Ha & _). rewrite Ha. cbn [negb].
  destruct (at_command_start c c1 Hi Hn Ha) as [Hat Hbuf].
  destruct (tokens_of_line line) as (ws & rest & -> & Hw & Hwords & Hrest & Hseven). set (fuel := (2 + _ + _)%nat).
  assert (rest_length rest < fuel)%nat as Hfuel by (unfold fuel; lia).
  assert (2 ≤ zlen ws) as H2.
  { destruct rest as [r|]; [by rewrite Hseven|]. unfold all_words in Hwords. rewrite app_nil_r in Hwords. rewrite <- Hwords, Hline. unfold zlen. cbn. lia. }
  destruct (dispatch_get_ok R x c1 fuel w (k :: keys) ws rest line Hat Hin Hrefs Hwords Hw Hfuel H2 Hline Hname) as (c' & x' & lost & Hr & Hd & Hres).
  exists c', x', lost. split; [done|]. split; [by eapply command_done_buffer|done].
Qed.

(** A line that is not. *)
Lemma process_other_ok R x c line : idle c → noreply c = false → inside R x → line_env R x line →
  (∀ w k keys, words line = w :: k :: keys → w ∉ get_names) →
  ∃ c' x', process_command st hash g s line c x = Ret c' x' ∧ command_done x R c x' c' [].
Proof.
  intros Hi Hn Hin Henv Hno. unfold process_command. pose proof (id_memory c Hi) as Hmem.
  destruct (add_msghdr_ok (set_iovused 0 (set_msglist [] (set_msgcurr 0 c))) Hmem) as (c1 & Ha & _). rewrite Ha. cbn [negb].
  destruct (at_command_start c c1 Hi Hn Ha) as [Hat Hbuf].
  destruct (tokens_of_line line) as (ws & rest & -> & Hw & Hwords & Hrest & Hseven). set (fuel := (2 + _ + _)%nat).
  destruct (dispatch_other_ok R x c1 fuel ws rest line Hat Hin Henv Hwords) as (c' & x' & Hr & Hd).
  - intros H3 name Hname. destruct ws as [|w [|k ws']]; [done|done|]. rewrite token_is_first. apply bool_decide_false. intros ->.
    apply (Hno (str name) k (ws' ++ match rest with Some r => words r | None => [] end)); [by rewrite Hwords|]. unfold get_names. rewrite !elem_of_cons. rewrite !elem_of_cons in Hname.
    destruct Hname as [->|[->|[->|?%elem_of_nil]]]; [by left|by right; left|by right; right; left|done].
  - exists c', x'. split; [done|]. by eapply command_done_buffer.
Qed.

(** Any line. *)
Lemma process_command_ok R x c line : idle c → noreply c = false → inside R x → line_env R x line →
  ∃ c' x' lost, process_command st hash g s line c x = Ret c' x' ∧ command_done x R c x' c' lost ∧ (lost ≠ [] → gives_up line = true).
Proof.
  intros Hi Hn Hin Henv.
  assert ((∀ w k keys, words line = w :: k :: keys → w ∉ get_names) → ∃ c' x' lost, process_command st hash g s line c x = Ret c' x' ∧
    command_done x R c x' c' lost ∧ (lost ≠ [] → gives_up line = true)) as Hother.
  { intros Hno. destruct (process_other_ok R x c line Hi Hn Hin Henv Hno) as (c' & x' & Hr & Hd). by exists c', x', []. }
  destruct (words line) as [|w [|k keys]] eqn:Hline; [by apply Hother|by apply Hother|].
  destruct (decide (w ∈ get_names)) as [Hname|Hname]; [|by apply Hother; intros ? ? ? [= <- <- <-]].
  destruct (process_get_ok R x c line w k keys Hi Hn Hin (le_refs _ _ _ Henv) Hline Hname) as (c' & x' & lost & Hr & Hd & Hres).
  exists c', x', lost. split; [done|]. split; [done|]. unfold gives_up. rewrite Hline, bool_decide_true by done.
  destruct (accepts_keys (k :: keys)); [by destruct Hres as [-> _]|done].
Qed.

End Lines.

End LineOps.
