(* ===== verification/MachineOps.v ===== *)
(** * The turns of a connection keep the invariant

    Every turn of [drive_machine] in [memcached-1.4.15/memcached.c], whatever the system
    answers: it ends, within its buffers and without a failed assertion, and the references
    of the connection are exact. *)

From S2P Require Import Prelude Bytes CStrings ItemHeap Slabs ChunkAllocator Items ItemsInv Store StoreOps ItemsRequests ItemBodies ItemUse Tokens Connection Commands Machine Output ConnInv CommandOps GetOps LineOps.
From stdpp Require Import base gmap functions list.
From Stdlib Require Import ZArith Lia String.

Local Open Scope Z_scope.

Module MachineOps.
Import ItemHeap ChunkAllocator Items ItemsInv Store StoreOps ItemsRequests ItemBodies ItemUse Tokens Connection Commands Machine Output ConnInv CommandOps GetOps LineOps.

(** ** Changes that the invariant does not see *)

(** In the states without items a connection is between two requests. *)
Lemma fine_idle x R c : conn_fine x R c → state c ≠ conn_nread → state c ≠ conn_mwrite → state c ≠ conn_closing → idle c ∧ noreply c = false.
Proof.
  intros [F1 [F2 [F3 F4]] F5 F6 F7 F8 F9 F10 F11 F12] H1 H2 H3. split; [split; try done|].
  - split; [done|]. destruct (Z.eqb_spec (ileft c) 0) as [|Hne]; [done|]. by destruct (F5 Hne).
  - destruct (Z.eqb_spec (c_item c) 0) as [|Hne]; [done|]. by destruct (F6 Hne).
  - destruct (noreply c) eqn:Hn; [|done]. by destruct (F9 eq_refl).
Qed.

Lemma ok_idle x R c : conn_ok x R c → state c ≠ conn_nread → state c ≠ conn_mwrite → state c ≠ conn_closing → idle c ∧ noreply c = false ∧ held c = [].
Proof. intros [Hf _ _] H1 H2 H3. destruct (fine_idle x R c Hf H1 H2 H3) as [Hi Hn]. split; [done|]. split; [done|by apply idle_held]. Qed.

(** The states between two requests. *)
Definition free_state (st : conn_states) : Prop :=
  st = conn_new_cmd ∨ st = conn_waiting ∨ st = conn_read ∨ st = conn_swallow ∨ st = conn_closing.

Lemma idle_ok x R c : idle c → noreply c = false → buffer_ok c → free_state (state c) ∨ (state c = conn_parse_cmd ∧ 0 < rbytes c) → conn_ok x R c.
Proof.
  intros Hi Hn Hb Hst. split; [apply idle_fine; [done|done|]|done|].
  - destruct Hst as [[->|[->|[->|[->| ->]]]]|[-> _]]; auto 10.
  - intros Hp. destruct Hst as [[Hs|[Hs|[Hs|[Hs|Hs]]]]|[_ ?]]; congruence.
Qed.

Lemma fine_ext x R R' c : conn_fine x R c → (∀ y, R' y = R y) → conn_fine x R' c.
Proof. intros [F1 F2 F3 F4 F5 F6 F7 F8 F9 F10] HR. split; try done. intros Hs. destruct (F5 Hs) as [? ? ? ?]. split; try done. by rewrite HR. Qed.

(** Only the read buffer changes. *)
Record only_buffer (c c' : conn) : Prop := {
  ob_eq : c' = set_rbuf (rbuf c') (set_rcurr (rcurr c') (set_rbytes (rbytes c') c))
}.
#[export] Instance only_buffer_refl : Reflexive only_buffer.
Proof. intros c. split. by destruct c. Qed.
#[export] Instance only_buffer_trans : Transitive only_buffer.
Proof. intros c1 c2 c3 [H1] [H2]. split. rewrite H2, H1. done. Qed.

Lemma only_buffer_idle c c' : only_buffer c c' → idle c → idle c' ∧ noreply c' = noreply c ∧ state c' = state c.
Proof. intros [->] Hi. by destruct Hi. Qed.
Lemma only_buffer_fine x R c c' : only_buffer c c' → conn_fine x R c → conn_fine x R c' ∧ held c' = held c.
Proof.
  intros [->] [F1 F2 F3 F4 F5 F6 F7 F8 F9 F10]. split; [|done]. split; try done.
  - intros Hs. by destruct (F5 Hs).
  - intros Hs. destruct (F6 Hs) as [[O1 O2] S2 S3 S4]. split; [by split|exact S2|exact S3|exact S4].
Qed.

(** ** [try_read_network] *)

Lemma zlen_memcpy_fits buf at_ d : 0 ≤ at_ → at_ + zlen d ≤ zlen buf → zlen (memcpy buf at_ d) = zlen buf.
Proof. intros. by apply zlen_memcpy. Qed.

Lemma read_loop_ok answers : ∀ n got c, realloc_answers c = [] → rcurr c = 0 → buffer_ok c → (got = READ_DATA_RECEIVED → 0 < rbytes c) → got = READ_DATA_RECEIVED ∨ got = READ_NO_DATA_RECEIVED →
  let '(r, c') := read_loop answers n got c in
  only_buffer c c' ∧ buffer_ok c' ∧ r ≠ READ_MEMORY_ERROR ∧ (r = READ_DATA_RECEIVED → 0 < rbytes c').
Proof.
  induction answers as [|a answers IH]; intros n got c Hm Hz Hb Hgot Hk; cbn [read_loop]; [by destruct Hk as [-> | ->]|].
  destruct Hb as [B1 B2 B3 B4].
  assert (∀ (r : try_read_result), r = got → only_buffer c c ∧ buffer_ok c ∧ r ≠ READ_MEMORY_ERROR ∧ (r = READ_DATA_RECEIVED → 0 < rbytes c)) as Hend.
  { intros r ->. split; [done|]. split; [by split|]. split; [by destruct Hk as [-> | ->]|done]. }
  set (full := rsize c <=? rbytes c). destruct (full && (n =? 4)); [by apply Hend|].
  assert ((if full then try_realloc c else (true, c)) = (true, c)) as -> by (unfold try_realloc; rewrite Hm; by destruct full). cbn [negb].
  set (c1 := if full then set_rcurr 0 (set_rbuf (rbuf c ++ replicate (Z.to_nat (rsize c)) 0) c) else c).
  assert (only_buffer c c1 ∧ rcurr c1 = 0 ∧ rbytes c1 = rbytes c ∧ rbytes c1 < rsize c1) as (Ho & Hz1 & Hr1 & Hlt).
  { subst c1 full. destruct (Z.leb_spec (rsize c) (rbytes c)); [|split; [done|]; split; [done|]; split; [done|]; lia].
    split; [split; cbn; done|]. split; [done|]. split; [done|]. unfold rsize, zlen in *. cbn. rewrite length_app, length_replicate. lia. }
  assert (buffer_ok c1) as Hb1 by (split; lia).
  assert (∀ r, r = got ∨ r = READ_ERROR → only_buffer c c1 ∧ buffer_ok c1 ∧ r ≠ READ_MEMORY_ERROR ∧ (r = READ_DATA_RECEIVED → 0 < rbytes c1)) as Hend1.
  { intros r Hr. split; [done|]. split; [done|]. split; [destruct Hr as [->| ->]; [by destruct Hk as [->| ->]|done]|]. rewrite Hr1. destruct Hr as [->| ->]; done. }
  destruct a as [b| |]; [|by apply Hend1; left|by apply Hend1; right].
  destruct (Z.eqb_spec (zlen (ztake (rsize c1 - rbytes c1) b)) 0) as [|Hne]; [by apply Hend1; right|].
  set (d := ztake (rsize c1 - rbytes c1) b) in *. pose proof (zlen_nonneg d) as Hd.
  assert (zlen d ≤ rsize c1 - rbytes c1) as Hfit by (unfold d, ztake, zlen; rewrite length_take; lia).
  set (c2 := set_rbytes (rbytes c1 + zlen d) (set_rbuf (memcpy (rbuf c1) (rbytes c1) d) c1)).
  assert (rsize c2 = rsize c1) as Hrs by (unfold rsize; apply zlen_memcpy_fits; unfold rsize in *; lia).
  assert (only_buffer c c2) as Ho2 by (etrans; [exact Ho|by split]).
  assert (buffer_ok c2 ∧ 0 < rbytes c2) as [Hb2 Hp2] by (split; [split|]; rewrite ?Hrs; cbn; lia).
  destruct (zlen d =? rsize c1 - rbytes c1).
  - specialize (IH (if full then n + 1 else n) READ_DATA_RECEIVED c2).
    assert (realloc_answers c2 = []) as Hm2 by (destruct Ho2 as [->]; exact Hm).
    specialize (IH Hm2 Hz1 Hb2 (λ _, Hp2) (or_introl eq_refl)). destruct (read_loop _ _ _ c2) as [r c']. destruct IH as (Ho' & ? & ? & ?).
    split; [by etrans|done].
  - done.
Qed.

Lemma try_read_network_ok answers c : realloc_answers c = [] → buffer_ok c →
  let '(r, c') := try_read_network answers c in
  only_buffer c c' ∧ buffer_ok c' ∧ r ≠ READ_MEMORY_ERROR ∧ (r = READ_DATA_RECEIVED → 0 < rbytes c').
Proof.
  intros Hm [B1 B2 B3 B4]. unfold try_read_network. set (c1 := set_rcurr 0 _).
  assert (zlen (sub (rbuf c) (rcurr c) (rbytes c)) = rbytes c) as Hs by (by apply zlen_sub).
  assert (rsize c1 = rsize c) as Hrs by (unfold rsize; cbn; apply zlen_memcpy_fits; unfold rsize in *; lia).
  assert (buffer_ok c1) as Hb1 by (split; rewrite ?Hrs; cbn; lia).
  pose proof (read_loop_ok answers 0 READ_NO_DATA_RECEIVED c1 Hm eq_refl Hb1 ltac:(done) (or_intror eq_refl)) as Hr.
  destruct (read_loop _ _ _ c1) as [r c']. destruct Hr as (Ho & ? & ? & ?). split; [|done]. etrans; [|exact Ho]. done.
Qed.

(** ** The command line in the buffer *)

Lemma find_newline_range l n : find_newline l = Some n → 0 ≤ n < zlen l.
Proof.
  revert n. induction l as [|c l IH]; intros n; cbn [find_newline]; [done|].
  assert (zlen (c :: l) = zlen l + 1) as Hl by (unfold zlen; cbn; lia). pose proof (zlen_nonneg l).
  destruct (c =? 10); [intros [= <-]; lia|]. destruct (find_newline l) as [k|]; [|done]. intros [= <-]. specialize (IH k eq_refl). lia.
Qed.

(** The line whose command is next. *)
Definition next_line (c : conn) : option bytes :=
  let line := sub (rbuf c) (rcurr c) (rbytes c) in
  match find_newline line with
  | None => None
  | Some el => Some (c_string (ztake (if (1 <? el) && bool_decide (zlookup line (el - 1) = Some 13) then el - 1 else el) line))
  end.

Lemma skip_spaces_ok l : Exists (λ z, z ≠ 32) l → skip_while (Z.eqb 32) l ≠ [].
Proof.
  induction 1 as [z l Hz|z l _ IH]; cbn [skip_while]; [by rewrite (proj2 (Z.eqb_neq 32 z))|]. by destruct (32 =? z).
Qed.
Lemma long_line_ends c : Exists (λ z, z ≠ 32) (zdrop (rcurr c) (rbuf c)) → ∃ b, long_line_ok c = Ok b.
Proof. intros Hs. apply skip_spaces_ok in Hs. unfold long_line_ok. destruct (skip_while _ _); [done|by eexists]. Qed.

Section Turns.
Context {st : Slabs.settings_t} {hash : bytes → Z} {largest : Z} {sz : Z → Z}.
Context {Holds : Slabs.arena → gmap Z Z → Prop} `{HA : !ChunkAllocator st largest sz Holds}.
Context (Hlargest : largest < LARGEST_ID) (g : globals) (s : sys).

Abbreviation inside := (inside (hash := hash) (sz := sz) (Holds := Holds)).
Abbreviation command_done := (command_done (hash := hash) (sz := sz) (Holds := Holds)).

(** What a turn leaves. *)
Record turn_done (x : cache) (R : Z → Z) (c : conn) (x' : cache) (c' : conn) (lost : list Z) : Prop := {
  td_inside : inside (with_refs R (lost ++ held c')) x';
  td_ok : conn_ok x' (with_refs R lost) c';
  td_others : stays (λ y, 1 ≤ R y) (heap_of x) (heap_of x');
  td_private : ∀ y i, 1 ≤ R y → heap_of x !! y = Some i → has_flag ITEM_LINKED i = false → y ∉ held c → y ∉ lost ++ held c'
}.

(** The connection is between two requests. *)
Lemma free_turn x R c x' c' : inside R x' → stays (λ y, 1 ≤ R y) (heap_of x) (heap_of x') → idle c' → noreply c' = false → buffer_ok c' →
  free_state (state c') ∨ (state c' = conn_parse_cmd ∧ 0 < rbytes c') → turn_done x R c x' c' [].
Proof.
  intros Hin Hs Hi Hn Hb Hst. pose proof (idle_held _ Hi) as Hh. split; [|by apply idle_ok|done|]; rewrite Hh.
  - eapply inside_ext; [exact Hin|apply with_refs_nil].
  - intros. apply not_elem_of_nil.
Qed.

Lemma command_turn x R c x' c1 c' lost : command_done x R c x' c1 lost → only_buffer c1 c' → buffer_ok c' → turn_done x R c x' c' lost.
Proof.
  intros [D1 D2 D3 D4 D5 D6] Ho Hb. destruct (only_buffer_fine _ _ _ _ Ho D2) as [Hf Hh]. split.
  - by rewrite Hh.
  - split; [done|done|]. intros Hs. exfalso. apply D4. by rewrite (ob_eq _ _ Ho) in Hs.
  - done.
  - rewrite Hh. intros y i H1 H2 H3 _. by eapply D6.
Qed.

Lemma turn_from x R c0 c x' c' lost : held c0 = held c → turn_done x R c0 x' c' lost → turn_done x R c x' c' lost.
Proof. intros Hh [T1 T2 T3 T4]. split; [done..|by rewrite <- Hh]. Qed.

(** *** [try_read_command] *)

Lemma zlen_zinsert n (v : Z) l : zlen (zinsert n v l) = zlen l.
Proof. unfold zinsert, zlen. destruct (0 <=? n); [by rewrite length_insert|done]. Qed.

Lemma try_read_command_ok R x c : idle c → noreply c = false → buffer_ok c → 0 < rbytes c → inside R x →
  (∀ line, next_line c = Some line → line_env (st := st) (hash := hash) s R x line) →
  (next_line c = None → Exists (λ z, z ≠ 32) (zdrop (rcurr c) (rbuf c))) →
  ∃ ok c' x' lost, try_read_command st hash g s c x = Ret (ok, c') x' ∧
    turn_done x R c x' (if ok then c' else conn_set_state conn_waiting c') lost ∧
    (lost ≠ [] → ∃ line, next_line c = Some line ∧ gives_up line = true).
Proof.
  intros Hi Hn Hb Hpos Hin Henv Hlong. pose proof Hb as [B1 B2 B3 B4]. unfold try_read_command, next_line in *.
  iassert ltac:(apply Z.leb_le; lia). iassert ltac:(by apply Z.ltb_lt).
  assert (zlen (sub (rbuf c) (rcurr c) (rbytes c)) = rbytes c) as Hl by (by apply zlen_sub).
  assert (∀ c', idle c' → noreply c' = false → buffer_ok c' → free_state (state c') → turn_done x R c x c' []) as Hfree by (intros; apply free_turn; [done|done|auto..]).
  destruct (find_newline _) as [el|] eqn:Hel.
  - apply find_newline_range in Hel. rewrite Hl in Hel. cbv zeta in *. set (el' := if (1 <? el) && _ then el - 1 else el) in *.
    iassert ltac:(apply Z.leb_le; cbn; lia). set (line := c_string _) in *.
    set (c0 := set_rbuf (zinsert (rcurr c + el') 0 (rbuf c)) c).
    assert (only_buffer c c0) as Ho0 by (by split). destruct (only_buffer_idle c c0 Ho0 Hi) as (Hi0 & Hn0 & _).
    assert (buffer_ok c0) as Hb0 by (split; unfold rsize in *; cbn; rewrite ?zlen_zinsert; lia).
    destruct (process_command_ok Hlargest g s R x c0 line Hi0 ltac:(by rewrite Hn0) Hin (Henv _ eq_refl)) as (c1 & x1 & lost & Hr & Hd & Hlost).
    rewrite (M_bind_ret _ _ _ _ _ Hr). pose proof (dn_buffer _ _ _ _ _ _ Hd) as (E1 & E2 & E3).
    set (c2 := set_rcurr _ (set_rbytes _ c1)). assert (buffer_ok c2) as Hb2.
    { destruct Hb0 as [B1' B2' B3' B4']. split; unfold rsize in *; cbn; rewrite ?E1, ?E2, ?E3; cbn in *; lia. }
    iassert ltac:(destruct Hb2; apply Z.leb_le; lia).
    exists true, c2, x1, lost. split; [reflexivity|]. split; [|intros Hne; exists line; split; [done|by apply Hlost]].
    apply (turn_from _ _ c0); [done|]. by eapply command_turn; [exact Hd|by split|].
  - destruct (Z.ltb_spec 1024 (rbytes c)).
    + destruct (long_line_ends c (Hlong eq_refl)) as [b Hb']. unfold lift_result. rewrite Hb'. erewrite M_bind_ret by reflexivity.
      destruct b; [exists false, c, x, []|exists true, (conn_set_state conn_closing c), x, []]; (split; [reflexivity|]); (split; [|done]); apply Hfree;
        try done; try (by destruct Hi); try (by destruct Hb); unfold free_state; cbn; auto 10.
    + exists false, c, x, []. split; [reflexivity|]. split; [|done]. apply Hfree; try done; try (by destruct Hi); try (by destruct Hb); unfold free_state; cbn; auto 10.
Qed.

(** ** The end of a command *)

(** What [conn_shrink] keeps. *)
Definition shrinks (c c' : conn) : Prop := idle c' ∧ buffer_ok c' ∧ noreply c' = noreply c ∧ rbytes c' = rbytes c.

Lemma shrink_shrinks c b f c1 : shrinks c c1 → (b = true → shrinks c c1 → shrinks c (f c1)) → shrinks c (shrink b f c1).
Proof. intros Hs Hf. unfold shrink, try_realloc. rewrite (id_memory c1) by apply Hs. destruct b; auto. Qed.

Lemma conn_shrink_ok c : idle c → buffer_ok c → shrinks c (conn_shrink c).
Proof.
  intros Hi Hb. unfold conn_shrink. apply shrink_shrinks; [apply shrink_shrinks; [apply shrink_shrinks|]|].
  - destruct (Z.ltb_spec READ_BUFFER_HIGHWAT (rsize c)) as [Hbig|]; [|done]. destruct (Z.ltb_spec (rbytes c) DATA_BUFFER_SIZE) as [Hfew|]; [|done]. cbn [andb].
    cbv zeta. unfold shrink, try_realloc. cbn [realloc_answers set_rbuf]. rewrite (id_memory c Hi). split; [by destruct Hi|]. split; [|done].
    destruct Hb as [B1 B2 B3 B4]. assert (zlen (sub (rbuf c) (rcurr c) (rbytes c)) = rbytes c) as Hl by (by apply zlen_sub).
    assert (zlen (ztake DATA_BUFFER_SIZE (memcpy (rbuf c) 0 (sub (rbuf c) (rcurr c) (rbytes c)))) = DATA_BUFFER_SIZE) as Hz.
    { apply zlen_ztake. rewrite zlen_memcpy_fits; unfold rsize, READ_BUFFER_HIGHWAT, DATA_BUFFER_SIZE in *; lia. }
    split; unfold rsize; cbn [rcurr rbytes rbuf set_rcurr set_rbuf]; rewrite ?Hz; unfold DATA_BUFFER_SIZE in *; lia.
  - intros Hbig%Z.ltb_lt (Hi1 & Hb1 & Hn1 & Hr1). destruct Hi1 as [I1 [I2 I3] I4 I5]. split; [|split; [by destruct Hb1|done]].
    split; try done. split; [|done]. unfold isize, zlen, ITEM_LIST_HIGHWAT, ITEM_LIST_INITIAL in *. cbn [ilist set_ilist]. rewrite length_take. lia.
  - intros _ (Hi1 & Hb1 & Hn1 & Hr1). split; [by destruct Hi1|]. split; [by destruct Hb1|done].
  - intros _ (Hi1 & Hb1 & Hn1 & Hr1). split; [by destruct Hi1|]. split; [by destruct Hb1|done].
Qed.

Lemma reset_cmd_handler_ok R x c : idle c → noreply c = false → buffer_ok c → inside R x →
  ∃ c', reset_cmd_handler c x = Ret c' x ∧ turn_done x R c x c' [].
Proof.
  intros Hi Hn Hb Hin. unfold reset_cmd_handler, drop_item. cbn [c_item set_cmd]. rewrite (id_item c Hi). cbn [Z.eqb]. erewrite M_bind_ret by reflexivity.
  assert (idle (set_cmd None c)) as Hi0 by (by destruct Hi). assert (buffer_ok (set_cmd None c)) as Hb0 by (by destruct Hb).
  destruct (conn_shrink_ok (set_cmd None c) Hi0 Hb0) as (Hi1 & Hb1 & Hn1 & Hr1). set (c1 := conn_shrink _) in *. cbn in Hn1.
  eexists. split; [reflexivity|]. apply free_turn; [done|done|by destruct Hi1|by rewrite <- Hn, <- Hn1|by destruct Hb1|].
  cbn. destruct (Z.ltb_spec 0 (rbytes c1)); [by right|left]. unfold free_state. auto.
Qed.

(** ** Sending *)

Lemma sending_sent x c c' : sending x c → same_but_sent c c' → output_ok x c' → sending x c'.
Proof.
  intros [S1 S2 S3 (l & m & S4)] [T1 T2 T3 (T4 & T5 & T6) T7 T8 [T9 T10] T11] Ho.
  assert (window c' = window c) as Hw by (unfold window; congruence). split; [done| | |].
  - rewrite Hw. rewrite Forall_forall in S2 |- *. intros v Hv. destruct (T11 v Hv) as (w & Hin & Hb). specialize (S2 w Hin).
    unfold about in *. by rewrite Hb.
  - unfold packet_ok, msgused, zlen in *. by rewrite T9, T10.
  - rewrite S4, length_app in T9. destruct (msglist c') as [|m' l'] using rev_ind; [cbn in T9; lia|by eexists _, _].
Qed.

Lemma sent_fine x R c c' : conn_fine x R c → state c = conn_write ∨ state c = conn_mwrite → same_but_sent c c' → output_ok x c' →
  state c' = state c ∨ state c' = conn_closing → conn_fine x R c' ∧ held c' = held c ∧ same_buffer c c'.
Proof.
  intros Hf Hst Hs Ho Hst'. pose proof (cn_sending _ _ _ Hf Hst) as Hsd. pose proof (sending_sent _ _ _ Hsd Hs Ho) as Hsd'.
  destruct Hf as [F1 F2 F3 F4 F5 F6 F7 F8 F9 F10], Hs as [T1 [T2 T2'] (T3 & T3' & T3'' & T3c & T3d) (T4 & T5 & T6) T7 T8 T9 T11].
  assert (state c ≠ conn_nread ∧ state c' ≠ conn_nread ∧ state c ≠ conn_closing) as (N1 & N2 & N3) by (destruct Hst as [E|E], Hst' as [E'|E']; split_and!; congruence).
  assert (∀ P : Prop, (P → state c = conn_nread ∨ state c = conn_closing) → P → state c' = conn_nread ∨ state c' = conn_closing) as Hno.
  { intros P HP H. destruct (HP H); congruence. }
  split; [|split; [|done]].
  - split; try done.
    + by rewrite T8.
    + unfold isize in *. by rewrite T4, T5, T6.
    + rewrite T6. intros H. destruct Hst' as [-> |]; [by apply F3|by right].
    + rewrite T3. by apply Hno.
    + rewrite T7. by apply Hno.
    + intros Hw. rewrite T2'. apply F8. destruct Hst' as [<-|]; congruence.
    + by rewrite T3c.
    + destruct Hst' as [-> | ->]; done.
  - unfold held, window. by rewrite T3, T4, T5, T6.
Qed.

(** *** The items that have been sent are released *)

Definition next_item (c : conn) : conn := set_icurr (icurr c + 1) (set_ileft (ileft c - 1) c).
Definition window_ok (c : conn) : Prop := 0 ≤ ileft c ∧ (ileft c ≠ 0 → 0 ≤ icurr c ∧ icurr c + ileft c ≤ isize c).

Lemma window_next c : window_ok c → 0 < ileft c →
  ∃ it, vec_at (ilist c) (icurr c) = Ok it ∧ window c = it :: window (next_item c) ∧ window_ok (next_item c).
Proof.
  intros [Hl Hw] Hpos. destruct (Hw ltac:(lia)) as [Hc Hfit]. unfold isize in Hfit.
  destruct (zlookup_is_Some (ilist c) (icurr c)) as [it Hit]; [lia|]. exists it. split; [unfold vec_at; by rewrite Hit|]. split.
  - unfold window. cbn. apply zlookup_nat in Hit. rewrite (drop_S _ _ _ Hit).
    replace (Z.to_nat (ileft c)) with (S (Z.to_nat (ileft c - 1))) by lia. cbn. do 2 f_equal. f_equal. lia.
  - split; cbn; [lia|]. intros _. unfold isize. cbn. lia.
Qed.

(** The part of a connection that the loops change. *)
Definition only_window (c c' : conn) : Prop := c' = set_icurr (icurr c') (set_ileft 0 c).

Lemma release_one R x c : window_ok c → 0 < ileft c → inside (with_refs R (window c)) x → (∀ y, 0 ≤ R y) →
  ∃ it i x', vec_at (ilist c) (icurr c) = Ok it ∧ heap_of x !! it = Some i ∧ has_flag ITEM_SLABBED i = false ∧
    item_remove it x = Ret tt x' ∧ inside (with_refs R (window (next_item c))) x' ∧ undisturbed (λ _, True) x x' ∧ window_ok (next_item c).
Proof.
  intros Hw Hpos Hin HR. destruct (window_next c Hw Hpos) as (it & Hit & Hwin & Hw'). rewrite Hwin in Hin.
  assert (1 ≤ with_refs R (it :: window (next_item c)) it) as H1 by (apply with_refs_held; [done|by apply elem_of_cons; left]).
  destruct (inside_item Hlargest _ x it Hin H1) as (i & Hi & _). destruct (use_remove Hlargest _ x it Hin H1) as (x' & Hr & Hin' & Hs).
  exists it, i, x'. split; [done|]. split; [done|]. split; [exact (inside_slabbed _ x it i Hin H1 Hi)|]. split; [done|]. split; [|done].
  eapply inside_ext; [exact Hin'|]. intros y. apply with_refs_drop.
Qed.

Lemma release_sent_ok R n : (∀ y, 0 ≤ R y) → ∀ c x, window_ok c → ileft c = Z.of_nat n → inside (with_refs R (window c)) x →
  ∃ c' x', release_sent n c x = Ret c' x' ∧ inside R x' ∧ undisturbed (λ _, True) x x' ∧ only_window c c'.
Proof.
  intros HR. induction n as [|n IH]; intros c x Hw Hl Hin; cbn [release_sent].
  - exists c, x. split; [done|]. split; [|split; [done|]].
    + eapply inside_ext; [exact Hin|]. intros y. by rewrite window_empty, with_refs_nil.
    + unfold only_window. change 0 with (Z.of_nat 0). rewrite <- Hl. by destruct c.
  - destruct (release_one R x c Hw ltac:(lia) Hin HR) as (it & i & x1 & Hit & Hi & Hsl & Hr & Hin1 & Hs1 & Hw1).
    unfold lift_result. rewrite Hit. erewrite M_bind_ret by reflexivity. istep. iassert ltac:(by rewrite Hsl). rewrite (M_bind_ret _ _ _ _ _ Hr).
    destruct (IH (next_item c) x1 Hw1 ltac:(cbn; lia) Hin1) as (c' & x' & Hr' & Hin' & Hs' & Ho).
    exists c', x'. split; [exact Hr'|]. split; [done|]. split; [by etrans|]. exact Ho.
Qed.
Lemma release_items_ok R n : (∀ y, 0 ≤ R y) → ∀ c x, window_ok c → ileft c = Z.of_nat n → inside (with_refs R (window c)) x →
  ∃ c' x', release_items n c x = Ret c' x' ∧ inside R x' ∧ undisturbed (λ _, True) x x' ∧ only_window c c'.
Proof.
  intros HR. induction n as [|n IH]; intros c x Hw Hl Hin; cbn [release_items].
  - exists c, x. split; [done|]. split; [|split; [done|]].
    + eapply inside_ext; [exact Hin|]. intros y. by rewrite window_empty, with_refs_nil.
    + unfold only_window. change 0 with (Z.of_nat 0). rewrite <- Hl. by destruct c.
  - destruct (release_one R x c Hw ltac:(lia) Hin HR) as (it & i & x1 & Hit & Hi & Hsl & Hr & Hin1 & Hs1 & Hw1).
    unfold lift_result. rewrite Hit. erewrite M_bind_ret by reflexivity. rewrite (M_bind_ret _ _ _ _ _ Hr).
    destruct (IH (next_item c) x1 Hw1 ltac:(cbn; lia) Hin1) as (c' & x' & Hr' & Hin' & Hs' & Ho).
    exists c', x'. split; [exact Hr'|]. split; [done|]. split; [by etrans|]. exact Ho.
Qed.

(** *** [transmit] and what follows *)

Lemma drive_write_ok R x c e : conn_ok x R c → state c = conn_write ∨ state c = conn_mwrite → inside (with_refs R (held c)) x → (∀ y, 0 ≤ R y) →
  ∃ v c' out x', drive_write e c x = Ret (v, c', out) x' ∧ turn_done x R c x' c' [] ∧ v ≠ Closed.
Proof.
  intros Hok Hst Hin HR. pose proof Hok as [Hf Hb Hp]. unfold drive_write.
  destruct (transmit_spec (sends e) (event_ok e) x c (sd_output _ _ (cn_sending _ _ _ Hf Hst))) as (r & c1 & out & Hr & _ & Ho1 & Hs1 & _ & Hst1).
  rewrite (M_bind_ret _ _ _ _ _ Hr). cbv iota beta.
  destruct (sent_fine x R c c1 Hf Hst Hs1 Ho1) as (Hf1 & Hh1 & Hb1); [destruct (decide _); auto|].
  assert (buffer_ok c1) as Hbuf1 by (by eapply same_buffer_ok).
  assert (r ≠ TRANSMIT_COMPLETE → turn_done x R c x c1 []) as Hsame.
  { intros _. split; rewrite ?Hh1; [done| |done|by auto]. split; [|done|].
    - eapply fine_ext; [exact Hf1|]. intros y. by rewrite with_refs_nil.
    - rewrite Hst1. intros Hc. destruct (decide _) in Hc; [done|]. destruct Hst as [E|E]; congruence. }
  destruct r; try (by eexists _, _, _, _; split; [reflexivity|]; split; [apply Hsame|]).
  rewrite decide_False in Hst1 by done. destruct (decide (state c1 = conn_mwrite)) as [Hmw|Hmw].
  - destruct (cn_lists _ _ _ Hf1) as (H0 & Hl0 & Hw).
    assert (c_item c1 = 0) as Hi1.
    { destruct (Z.eqb_spec (c_item c1) 0) as [|Hne]; [done|]. destruct (cn_item _ _ _ Hf1 Hne); congruence. }
    assert (held c1 = window c1) as Hhw by (unfold held; by rewrite Hi1).
    rewrite <- Hh1, Hhw in Hin.
    destruct (release_sent_ok R (Z.to_nat (ileft c1)) HR c1 x) as (c2 & x2 & Hr2 & Hin2 & [Hs2 _] & Ho2); [by split|lia|done|].
    rewrite (M_bind_ret _ _ _ _ _ Hr2). eexists _, _, _, _. split; [reflexivity|]. split; [|done].
    assert (noreply c1 = false) as Hn1.
    { destruct (noreply c1) eqn:Hn; [|done]. destruct (cn_noreply _ _ _ Hf1 Hn); congruence. }
    apply free_turn; [done|by eapply stays_mono|..].
    + rewrite Ho2. by split; try apply Hf1.
    + by rewrite Ho2.
    + rewrite Ho2. by destruct Hbuf1.
    + left. by left.
  - destruct (fine_idle x R c1 Hf1) as [Hi1 Hn1]; [rewrite Hst1; destruct Hst; congruence..|].
    eexists _, _, _, _. split; [reflexivity|]. split; [|done]. assert (state c1 = conn_write) as Hw1 by (destruct Hst; congruence).
    apply free_turn; [|done|by destruct Hi1|done|by destruct Hbuf1|].
    + rewrite <- Hh1, (idle_held _ Hi1) in Hin. eapply inside_ext; [exact Hin|]. intros y. by rewrite with_refs_nil.
    + left. cbn. destruct (cn_go _ _ _ Hf1 Hw1) as [->|[->| ->]]; unfold free_state; auto 10.
Qed.

(** The connection keeps what it holds. *)
Lemma same_held_turn x R c x' c' : inside (with_refs R (held c)) x' → stays (λ y, 1 ≤ R y) (heap_of x) (heap_of x') →
  conn_fine x' R c' → held c' = held c → buffer_ok c' → state c' ≠ conn_parse_cmd → turn_done x R c x' c' [].
Proof.
  intros Hin Hs Hf Hh Hb Hst. split; rewrite ?Hh; [done| |done|by auto].
  split; [|done|done]. eapply fine_ext; [exact Hf|]. intros y. by rewrite with_refs_nil.
Qed.

Lemma fine_closing x R c : conn_fine x R c → conn_fine x R (conn_set_state conn_closing c).
Proof. intros [F1 F2 F3 F4 F5 F6 F7 F8 F9 F10]. split; try done; cbn; auto. by intros [?|?]. Qed.

Lemma inside_nil R x : inside (with_refs R []) x → inside R x.
Proof. intros Hin. eapply inside_ext; [exact Hin|]. intros y. by rewrite with_refs_nil. Qed.

Lemma conn_write_ok R x c e : conn_ok x R c → state c = conn_write → inside (with_refs R (held c)) x → (∀ y, 0 ≤ R y) →
  ∃ v c' out x', (let* '(ok, c) := if iovused c =? 0 then lift_result (add_iov (Text (wcurr c)) 0 (zlen (wcurr c)) c) else mret (true, c) in
    if ok : bool then drive_write e c else goto conn_closing c) x = Ret (v, c', out) x' ∧ turn_done x R c x' c' [] ∧ v ≠ Closed.
Proof.
  intros Hok Hst Hin HR. destruct (iovused c =? 0); [|erewrite M_bind_ret by reflexivity; by apply drive_write_ok; auto].
  pose proof Hok as [Hf Hb Hp]. destruct (cn_sending _ _ _ Hf (or_introl Hst)) as [[O1 O2] S2 S3 S4].
  assert (can_queue x c) as Hq by (split; [apply Hf|done..]).
  destruct (add_iov_readable x (Text (wcurr c)) 0 (zlen (wcurr c)) c Hq) as (c1 & Ha & Hq1 & [T1 (T2a & T2b & T2c) [T3 T3'] (T4a & T4b & T4c & T4d & T4e) (T5a & T5b & T5c) T6 T7 T8] & _ & Hv).
  { split; [split; cbn; [lia|split; [apply zlen_nonneg|lia]]|done]. }
  erewrite M_bind_ret by (unfold lift_result; rewrite Ha; reflexivity). cbv iota beta.
  destruct Hq1 as [Q1 Q2 Q3 Q4].
  assert (window c1 = window c) as Hwin by (unfold window; congruence).
  assert (held c1 = held c) as Hh by (unfold held; by rewrite T4a, Hwin).
  assert (conn_ok x R c1) as Hok1.
  { destruct Hf as [F1 F2 F3 F4 F5 F6 F7 F8 F9 F10]. split.
    - split; rewrite ?T1, ?T3', ?T4a, ?T4d, ?T5b, ?T5c, ?T6; try done; [by unfold isize in *; rewrite T5a|by rewrite Hst|].
      intros _. split; [split; [done|by rewrite T8]| |done|done]. rewrite Hwin. rewrite Forall_forall in S2 |- *.
      intros v Hin'. destruct (Hv v Hin') as [Hv'|Hbase]; [by apply S2|]. unfold about. by rewrite Hbase.
    - by eapply same_buffer_ok.
    - by rewrite T1, T2c. }
  rewrite <- Hh in Hin. destruct (drive_write_ok R x c1 e Hok1 ltac:(left; congruence) Hin HR) as (v & c' & out & x' & Hr & Ht & Hne).
  exists v, c', out, x'. split; [done|]. split; [|done]. by eapply turn_from.
Qed.

(** ** Reading a value *)

(** The fields that reading changes. *)
Definition advanced (n : Z) (c : conn) : conn := set_ritem (ritem c + n) (set_rlbytes (rlbytes c - n) c).

Lemma write_part R x c d : conn_fine x R c → state c = conn_nread → inside (with_refs R (held c)) x → (∀ y, 0 ≤ R y) → zlen d ≤ rlbytes c →
  ∃ x', write_data (c_item c) (ritem c) d x = Ret tt x' ∧ inside (with_refs R (held c)) x' ∧ stays (λ y, 1 ≤ R y) (heap_of x) (heap_of x') ∧
    conn_fine x' R (advanced (zlen d) c).
Proof.
  intros Hf Hst Hin HR Hd. destruct (reading_held x R c Hf Hst) as [Hh Hl]. rewrite Hh in *. pose proof (zlen_nonneg d).
  destruct (cn_nread _ _ _ Hf Hst) as [Hi0 Hpriv Hcmd (i & Hi & Hu & H1 & H2 & H3)].
  assert (1 ≤ with_refs R [c_item c] (c_item c)) as Hone by (apply with_refs_held; [done|by apply elem_of_cons; left]).
  destruct (use_write Hlargest _ x (c_item c) i (ritem c) d Hin Hone Hi H1 ltac:(lia)) as (x' & Hr & Hin' & [Hs _] & Hi').
  exists x'. split; [done|]. split; [done|]. split; [eapply stays_mono; [exact Hs|]; intros y Hy ->; cbn in Hy; lia|].
  destruct Hf as [F1 F2 F3 F4 F5 F6 F7 F8 F9 F10]. split; try done; cbn.
  - intros _. split; try done. eexists. split; [exact Hi'|]. cbn. split; [done|]. lia.
  - rewrite Hst. by intros [?|?].
Qed.

Lemma advanced_turn R x0 x c c0 n : conn_fine x R (advanced n c) → state c = conn_nread → inside (with_refs R (held c)) x → held c0 = held c →
  stays (λ y, 1 ≤ R y) (heap_of x0) (heap_of x) → buffer_ok c → turn_done x0 R c0 x (advanced n c) [] ∧ turn_done x0 R c0 x (conn_set_state conn_closing (advanced n c)) [].
Proof.
  intros Hf Hst Hin Hh Hs Hb. rewrite <- Hh in Hin.
  split; (apply same_held_turn; [done|done| |by rewrite Hh|by destruct Hb|cbn; congruence]); [done|by apply fine_closing].
Qed.

Lemma drive_nread_ok R x c e : conn_ok x R c → state c = conn_nread → inside (with_refs R (held c)) x → (∀ y, 0 ≤ R y) →
  (∀ comm, cmd c = Some comm → may_store st hash s (with_refs R (held c)) x (c_item c) comm) →
  ∃ v c' out x', drive_nread st hash s e c x = Ret (v, c', out) x' ∧ turn_done x R c x' c' [] ∧ v ≠ Closed.
Proof.
  intros [Hf Hb Hp] Hst Hin HR Hmay. unfold drive_nread. destruct (Z.eqb_spec (rlbytes c) 0) as [Hz|Hz].
  - destruct (complete_ok Hlargest s R x c Hf Hst Hin HR Hmay) as (c' & x' & Hr & Hd). rewrite (M_bind_ret _ _ _ _ _ Hr).
    eexists _, _, _, _. split; [reflexivity|]. split; [|done]. eapply command_turn; [exact Hd|done|].
    eapply same_buffer_ok; [apply Hd|done].
  - pose proof Hb as [B1 B2 B3 B4]. destruct (br_value _ _ _ (cn_nread _ _ _ Hf Hst)) as (_ & _ & _ & _ & Hrl & _).
    set (n := if 0 <? rbytes c then _ else 0).
    assert (0 ≤ n ≤ rlbytes c ∧ n ≤ rbytes c) as [Hn Hnb] by (unfold n; destruct (Z.ltb_spec 0 (rbytes c)); lia).
    assert (∃ x1, (if 0 <? rbytes c then write_data (c_item c) (ritem c) (sub (rbuf c) (rcurr c) n) else mret tt) x = Ret tt x1 ∧
      inside (with_refs R (held c)) x1 ∧ stays (λ y, 1 ≤ R y) (heap_of x) (heap_of x1) ∧ conn_fine x1 R (advanced n c)) as (x1 & Hr1 & Hin1 & Hs1 & Hf1).
    { assert (zlen (sub (rbuf c) (rcurr c) n) = n) as Hl by (apply zlen_sub; unfold rsize in *; lia).
      pose proof (write_part R x c _ Hf Hst Hin HR (eq_ind_r (λ z, z ≤ rlbytes c) (proj2 Hn) Hl)) as Hw. rewrite Hl in Hw.
      destruct (0 <? rbytes c) eqn:Hrb; [done|]. exists x. split; [done|]. split; [done|]. split; [done|].
      assert (advanced n c = c) as ->; [|done]. unfold n, advanced. rewrite Z.add_0_r, Z.sub_0_r. by destruct c. }
    rewrite (M_bind_ret _ _ _ _ _ Hr1). cbv zeta. set (c1 := set_ritem _ _).
    assert (only_buffer (advanced n c) c1) as Ho1 by (by split).
    destruct (only_buffer_fine _ _ _ _ Ho1 Hf1) as [Hf2 Hh2]. assert (held c1 = held c) as Hh1 by done.
    assert (buffer_ok c1) as Hb1 by (split; unfold rsize in *; cbn; lia).
    assert (state c1 = conn_nread) as Hst1 by done.
    assert (turn_done x R c x1 c1 [] ∧ turn_done x R c x1 (conn_set_state conn_closing c1) []) as [Hsame Hclose].
    { split; (apply same_held_turn; [done|done| |done|by destruct Hb1|cbn; congruence]); [done|by apply fine_closing]. }
    destruct (rlbytes c1 =? 0); [by eexists _, _, _, _|].
    destruct (first_read e) as [b| |]; [|unfold wait_for_event; destruct (event_ok e); by eexists _, _, _, _|by eexists _, _, _, _].
    destruct (Z.eqb_spec (zlen (ztake (rlbytes c1) b)) 0); [by eexists _, _, _, _|]. set (d := ztake (rlbytes c1) b) in *.
    assert (0 ≤ rlbytes c1) as Hrl1 by (cbn; lia).
    assert (zlen d ≤ rlbytes c1) as Hd by (unfold d, ztake, zlen; rewrite length_take; lia).
    destruct (write_part R x1 c1 d Hf2 Hst1 ltac:(by rewrite Hh1) HR Hd) as (x2 & Hr2 & Hin2 & Hs2 & Hf3).
    rewrite (M_bind_ret _ _ _ _ _ Hr2). eexists _, _, _, _. split; [reflexivity|]. split; [|done].
    apply (advanced_turn R x x2 c1 c (zlen d) Hf3 Hst1 Hin2 ltac:(done)); [by etrans|done].
Qed.

(** ** Skipping a value *)

Lemma drive_swallow_ok R x c e : conn_ok x R c → state c = conn_swallow → inside (with_refs R (held c)) x →
  ∃ v c' out, drive_swallow e c x = Ret (v, c', out) x ∧ turn_done x R c x c' [] ∧ v ≠ Closed.
Proof.
  intros Hok Hst Hin. destruct (ok_idle x R c Hok) as (Hi & Hn & Hh); [congruence..|]. rewrite Hh in Hin. apply inside_nil in Hin.
  pose proof Hok as [_ Hb _]. pose proof Hb as [B1 B2 B3 B4]. pose proof (id_swallow c Hi) as Hsb.
  assert (∀ c', idle c' → noreply c' = false → buffer_ok c' → free_state (state c') → turn_done x R c x c' []) as Hfree.
  { intros c' ? ? ? ?. apply free_turn; [done|done|done|done|done|by left]. }
  assert (turn_done x R c x (conn_set_state conn_closing c) []) as Hclose.
  { apply Hfree; [by destruct Hi|done|by destruct Hb|]. unfold free_state. cbn. auto 10. }
  unfold drive_swallow. destruct (Z.eqb_spec (sbytes c) 0).
  - eexists _, _, _. split; [reflexivity|]. split; [|done]. apply Hfree; [by destruct Hi|done|by destruct Hb|by left].
  - destruct (Z.ltb_spec 0 (rbytes c)).
    + eexists _, _, _. split; [reflexivity|]. split; [|done]. apply Hfree; try done; [|split; unfold rsize in *; cbn; lia|unfold free_state; cbn; rewrite Hst; auto 10].
      destruct Hi as [I1 I2 I3 I4]. split; try done. cbn. lia.
    + destruct (first_read e) as [b| |]; [| |eexists _, _, _; by split; [reflexivity|]].
      * destruct (Z.eqb_spec (zlen (ztake (Z.min (sbytes c) (rsize c)) b)) 0); [eexists _, _, _; by split; [reflexivity|]|].
        set (d := ztake _ b) in *. pose proof (zlen_nonneg d).
        assert (zlen d ≤ Z.min (sbytes c) (rsize c)) as Hd by (unfold d, ztake, zlen; rewrite length_take; lia).
        eexists _, _, _. split; [reflexivity|]. split; [|done]. apply Hfree; try done.
        -- destruct Hi as [I1 I2 I3 I4]. split; try done. cbn. lia.
        -- split; unfold rsize in *; cbn; rewrite ?zlen_memcpy_fits by lia; lia.
        -- unfold free_state. cbn. rewrite Hst. auto 10.
      * unfold wait_for_event. destruct (event_ok e); [|eexists _, _, _; by split; [reflexivity|]].
        eexists _, _, _. split; [reflexivity|]. split; [|done]. apply Hfree; try done. unfold free_state. rewrite Hst. auto 10.
Qed.

(** ** Closing *)

(** Nothing is held by a connection without items that is closing. *)
Lemma closed_ok x R c : realloc_answers c = [] → 0 < isize c → ileft c = 0 → c_item c = 0 → 0 ≤ sbytes c → buffer_ok c → state c = conn_closing →
  conn_ok x R c ∧ held c = [].
Proof.
  intros Hm Hs Hl Hi Hw Hb Hst. split; [|unfold held; by rewrite Hi, window_empty].
  split; [|done|by rewrite Hst]. split; rewrite ?Hl, ?Hi, ?Hst; try done; auto. by intros [?|?].
Qed.

Lemma conn_cleanup_ok R x c : conn_ok x R c → state c = conn_closing → inside (with_refs R (held c)) x → (∀ y, 0 ≤ R y) →
  ∃ c' x', conn_cleanup c x = Ret c' x' ∧ turn_done x R c x' c' [] ∧ held c' = [].
Proof.
  intros [Hf Hb _] Hst Hin HR. unfold conn_cleanup, drop_item. destruct (cn_lists _ _ _ Hf) as (Hs & Hl & Hw).
  assert (∃ c1 x1, (if c_item c =? 0 then mret c else item_remove (c_item c) ;; mret (set_c_item 0 c)) x = Ret c1 x1 ∧ c1 = set_c_item 0 c ∧
    inside (with_refs R (window c)) x1 ∧ undisturbed (λ _, True) x x1) as (c1 & x1 & Hr1 & -> & Hin1 & [Hs1 _]).
  { unfold held in Hin. destruct (Z.eqb_spec (c_item c) 0) as [Hz|Hz].
    - exists c, x. split; [done|]. split; [|by split]. rewrite <- Hz. by destruct c.
    - cbn [app] in Hin. destruct (use_remove Hlargest _ x (c_item c) Hin) as (x1 & Hr1 & Hin1 & Hu); [apply with_refs_held; [done|by apply elem_of_cons; left]|].
      eexists _, x1. split; [by rewrite (M_bind_ret _ _ _ _ _ Hr1)|]. split; [done|]. split; [|done].
      eapply inside_ext; [exact Hin1|]. intros y. apply with_refs_drop. }
  rewrite (M_bind_ret _ _ _ _ _ Hr1).
  destruct (release_items_ok R (Z.to_nat (ileft (set_c_item 0 c))) HR (set_c_item 0 c) x1) as (c2 & x2 & Hr2 & Hin2 & [Hs2 _] & Ho); [done|cbn; lia|exact Hin1|].
  rewrite (M_bind_ret _ _ _ _ _ Hr2). eexists _, x2. split; [reflexivity|]. unfold only_window in Ho.
  destruct (closed_ok x2 (with_refs R []) (set_suffixleft 0 c2)) as [Hok2 Hh2]; try (by rewrite Ho); try (rewrite Ho; apply Hf); [by rewrite Ho; destruct Hb|].
  split; [|done]. split; rewrite ?Hh2; [eapply inside_ext; [exact Hin2|]; intros y; by rewrite with_refs_nil|done| |intros; apply not_elem_of_nil].
  eapply stays_mono; [by etrans|done].
Qed.

(** ** A turn *)

(** What a connection finds in a turn. *)
Record turn_env (R : Z → Z) (x : cache) (c : conn) : Prop := {
  te_line : state c = conn_parse_cmd → ∀ line, next_line c = Some line → line_env (st := st) (hash := hash) s R x line;
  te_spaces : state c = conn_parse_cmd → next_line c = None → Exists (λ z, z ≠ 32) (zdrop (rcurr c) (rbuf c));
  te_refs : state c = conn_nread → ∀ y, with_refs R (held c) y + 3 < 2 ^ 16;
  te_alloc : state c = conn_nread → may_allocate st s (with_refs R (held c)) x;
  te_recent : state c = conn_nread → ∀ i comm, heap_of x !! c_item c = Some i → cmd c = Some comm → concatenates comm = true →
    recently_used hash x (ITEM_key i)
}.

Lemma drive_step_ok R x c e nreqs : conn_ok x R c → inside (with_refs R (held c)) x → (∀ y, 0 ≤ R y) → turn_env R x c →
  ∃ n v c' out x' lost, drive_step st hash g s e nreqs c x = Ret (n, (v, c', out)) x' ∧ turn_done x R c x' c' lost ∧
    (lost ≠ [] → state c = conn_parse_cmd ∧ ∃ line, next_line c = Some line ∧ gives_up line = true) ∧ (v = Closed → held c' = []).
Proof.
  intros Hok Hin HR [Hline Hspaces Hrefs Halloc Hrecent]. unfold drive_step. pose proof Hok as [Hf Hb Hp].
  assert (state c ≠ conn_nread → state c ≠ conn_mwrite → state c ≠ conn_closing → idle c ∧ noreply c = false ∧ inside R x) as Hidle.
  { intros H1 H2 H3. destruct (ok_idle x R c Hok H1 H2 H3) as (Hi & Hn & Hh). rewrite Hh in Hin. by apply inside_nil in Hin. }
  assert (∀ c', only_buffer c c' → buffer_ok c' → idle c → noreply c = false → inside R x → ∀ st', free_state st' ∨ (st' = conn_parse_cmd ∧ 0 < rbytes c') →
    turn_done x R c x (conn_set_state st' c') []) as Hfree.
  { intros c' Ho Hb' Hi Hn HinR st' Hst'. destruct (only_buffer_idle _ _ Ho Hi) as (Hi' & Hn' & _).
    apply free_turn; [done|done|by destruct Hi'|by rewrite <- Hn, <- Hn'|by destruct Hb'|done]. }
  destruct (state c) eqn:Hst.
  - by destruct (cn_state _ _ _ Hf).
  - (* conn_new_cmd *) destruct Hidle as (Hi & Hn & HinR); [done..|]. destruct (0 <=? nreqs - 1).
    + destruct (reset_cmd_handler_ok R x c Hi Hn Hb HinR) as (c' & Hr & Ht). rewrite (M_bind_ret _ _ _ _ _ Hr). by eexists _, _, _, _, _, [].
    + destruct (_ && _); eexists _, _, _, _, _, []; (split; [reflexivity|]); (split; [|done]).
      * apply Hfree; auto; [done|]. left. unfold free_state. auto 10.
      * replace c with (conn_set_state conn_new_cmd c) at 2 by (rewrite <- Hst; by destruct c). apply Hfree; auto; [done|]. by left; left.
  - (* conn_waiting *) destruct Hidle as (Hi & Hn & HinR); [done..|].
    destruct (event_ok e); eexists _, _, _, _, _, []; (split; [reflexivity|]); (split; [|done]); apply Hfree; auto; try done; left; unfold free_state; auto 10.
  - (* conn_read *) destruct Hidle as (Hi & Hn & HinR); [done..|].
    pose proof (try_read_network_ok (reads e) c (id_memory c Hi) Hb) as Hr. destruct (try_read_network (reads e) c) as [r c1]. destruct Hr as (Ho & Hb1 & Hne & Hd).
    destruct r; [| | |done]; eexists _, _, _, _, _, []; (split; [reflexivity|]); (split; [|done]); apply Hfree; auto; left; unfold free_state; auto 10.
  - (* conn_parse_cmd *) destruct Hidle as (Hi & Hn & HinR); [done..|].
    destruct (try_read_command_ok R x c Hi Hn Hb (Hp eq_refl) HinR (Hline eq_refl) (Hspaces eq_refl)) as (ok & c' & x' & lost & Hr & Ht & Hl).
    rewrite (M_bind_ret _ _ _ _ _ Hr). eexists _, _, _, _, _, lost. split; [reflexivity|]. split; [done|]. split; [|done]. intros Hne. split; [done|by apply Hl].
  - (* conn_write *) destruct (conn_write_ok R x c e Hok Hst Hin HR) as (v & c' & out & x' & Hr & Ht & Hne).
    apply M_bind_inv in Hr as ([ok c1] & x1 & Hr1 & Hr). rewrite (M_bind_ret _ _ _ _ _ Hr1). cbv iota beta. rewrite (M_bind_ret _ _ _ _ _ Hr).
    by eexists _, _, _, _, _, [].
  - (* conn_nread *) destruct (drive_nread_ok R x c e Hok Hst Hin HR) as (v & c' & out & x' & Hr & Ht & Hne).
    { intros comm Hcomm. destruct (cn_nread _ _ _ Hf Hst) as [_ _ _ (i & Hi & Hu & _)]. destruct (reading_held x R c Hf Hst) as [Hh _].
      split; [by apply Hrefs|]. split; [by apply Halloc|]. split; [rewrite Hh; apply with_refs_held; [done|by apply elem_of_cons; left]|].
      exists i. split; [done|]. split; [done|]. by apply Hrecent. }
    rewrite (M_bind_ret _ _ _ _ _ Hr). by eexists _, _, _, _, _, [].
  - (* conn_swallow *) destruct (drive_swallow_ok R x c e Hok Hst Hin) as (v & c' & out & Hr & Ht & Hne).
    rewrite (M_bind_ret _ _ _ _ _ Hr). by eexists _, _, _, _, _, [].
  - (* conn_closing *) destruct (conn_cleanup_ok R x c Hok Hst Hin HR) as (c' & x' & Hr & Ht & Hh).
    rewrite (M_bind_ret _ _ _ _ _ Hr). by eexists _, _, _, _, _, [].
  - (* conn_mwrite *) destruct (drive_write_ok R x c e Hok (or_intror Hst) Hin HR) as (v & c' & out & x' & Hr & Ht & Hne).
    rewrite (M_bind_ret _ _ _ _ _ Hr). by eexists _, _, _, _, _, [].
Qed.

End Turns.

End MachineOps.
