(* ===== verification/ReadValue.v ===== *)
(** * How a value is read

    The turns of [drive_machine] in [memcached-1.4.15/memcached.c] in the state [conn_nread]:
    the value of an item is what comes next from the client, first what is in the buffer,
    then what [read] delivers, in whatever pieces. *)

From S2P Require Import Prelude Bytes CStrings ItemHeap Slabs ChunkAllocator Items ItemsInv Store StoreOps ItemsRequests ItemBodies ItemUse Tokens Connection Commands Machine Output ConnInv CommandOps GetOps LineOps MachineOps.
From stdpp Require Import base gmap functions list.
From Stdlib Require Import ZArith Lia.

Local Open Scope Z_scope.

Module ReadValue.
Import ItemHeap ChunkAllocator Items ItemsInv Store StoreOps ItemsRequests ItemBodies ItemUse Tokens Connection Commands Machine Output ConnInv CommandOps GetOps LineOps MachineOps.

(** The cache in which an item has another value. *)
Definition with_data (it : Z) (i : item) (d : bytes) (x : cache) : cache := set_heap (<[it := set_ITEM_data d i]> (heap_of x)) x.

Lemma with_data_same it i x : heap_of x !! it = Some i → with_data it i (ITEM_data i) x = x.
Proof.
  intros Hi. unfold with_data. assert (set_ITEM_data (ITEM_data i) i = i) as -> by (by destruct i). rewrite insert_id by done. by destruct x as [[]].
Qed.
Lemma with_data_again it i d d' x : with_data it (set_ITEM_data d i) d' (with_data it i d x) = with_data it i d' x.
Proof. unfold with_data. cbn. rewrite insert_insert_eq. by destruct x as [[]]. Qed.
Lemma with_data_item it i d x : heap_of (with_data it i d x) !! it = Some (set_ITEM_data d i).
Proof. apply lookup_insert_eq. Qed.

(** What has not been parsed. *)
Definition unparsed (c : conn) : bytes := sub (rbuf c) (rcurr c) (rbytes c).

Section Reading.
Context {st : Slabs.settings_t} {hash : bytes → Z} {largest : Z} {sz : Z → Z}.
Context {Holds : Slabs.arena → gmap Z Z → Prop} `{HA : !ChunkAllocator st largest sz Holds}.
Context (Hlargest : largest < LARGEST_ID) (s : sys).

Abbreviation inside := (inside (hash := hash) (sz := sz) (Holds := Holds)).

(** A connection that reads the value of [i]. *)
Record reads_value (R : Z → Z) (x : cache) (c : conn) (i : item) : Prop := {
  rv_fine : conn_fine x R c;
  rv_state : state c = conn_nread;
  rv_buffer : buffer_ok c;
  rv_inside : inside (with_refs R (held c)) x;
  rv_item : heap_of x !! c_item c = Some i
}.

(** Bytes are written behind those that are there. *)
Lemma write_next R x c i d : reads_value R x c i → (∀ y, 0 ≤ R y) → zlen d ≤ rlbytes c →
  let d' := memcpy (ITEM_data i) (ritem c) d in let x' := with_data (c_item c) i d' x in
  write_data (c_item c) (ritem c) d x = Ret tt x' ∧ reads_value R x' (advanced (zlen d) c) (set_ITEM_data d' i) ∧
  zlen d' = nbytes i ∧ ztake (ritem c + zlen d) d' = ztake (ritem c) (ITEM_data i) ++ d.
Proof.
  intros [Hf Hst Hb Hin Hi] HR Hd d' x'. destruct (reading_held x R c Hf Hst) as [Hh _]. pose proof (zlen_nonneg d).
  destruct (cn_nread _ _ _ Hf Hst) as [Hi0 Hpriv Hcmd (i' & Hi' & Hu & H1 & H2 & H3)]. assert (i' = i) as -> by congruence.
  assert (1 ≤ with_refs R (held c) (c_item c)) as Hone by (rewrite Hh; apply with_refs_held; [done|by apply elem_of_cons; left]).
  destruct (inside_item Hlargest _ x _ Hin Hone) as (i' & Hi2 & _ & [_ _ K3 _]). assert (i' = i) as -> by congruence.
  destruct Hin as [m Hok]. destruct (write_data_ok Hlargest m _ x (c_item c) i (ritem c) d Hok Hone Hi H1 ltac:(lia)) as (Hr & Hok' & _ & Hi3).
  split; [done|]. split; [|split; [unfold d'; rewrite zlen_memcpy; lia|apply memcpy_prefix; lia]].
  split; [|done|by destruct Hb|by exists m|done].
  destruct Hf as [F1 F2 F3 F4 F5 F6 F7 F8 F9 F10]. split; try done; cbn.
  - intros _. split; try done. exists (set_ITEM_data d' i). split; [done|]. cbn. split; [done|]. lia.
  - rewrite Hst. by intros [?|?].
Qed.

Lemma reads_value_buffer R x c c' i : reads_value R x c i → only_buffer c c' → buffer_ok c' → reads_value R x c' i.
Proof.
  intros [Hf Hst Hb Hin Hi] Ho Hb'. destruct (only_buffer_fine _ _ _ _ Ho Hf) as [Hf' Hh'].
  split; [done| |done|by rewrite Hh'|]; rewrite (ob_eq _ _ Ho); done.
Qed.

(** One turn: [n] bytes of the buffer and [m] of the next [read]. *)
Lemma read_turn R x c i e b : reads_value R x c i → (∀ y, 0 ≤ R y) → rlbytes c ≠ 0 → first_read e = ReadData b → (rlbytes c ≠ Z.min (rbytes c) (rlbytes c) → b ≠ []) →
  let n := Z.min (rbytes c) (rlbytes c) in let m := if rlbytes c - n =? 0 then 0 else Z.min (rlbytes c - n) (zlen b) in
  let c' := set_ritem (ritem c + n + m) (set_rlbytes (rlbytes c - n - m) (set_rcurr (rcurr c + n) (set_rbytes (rbytes c - n) c))) in
  ∃ d', drive_nread st hash s e c x = Ret (Continue, c', []) (with_data (c_item c) i d' x) ∧
    reads_value R (with_data (c_item c) i d' x) c' (set_ITEM_data d' i) ∧ zlen d' = nbytes i ∧
    ztake (ritem c + n + m) d' = ztake (ritem c) (ITEM_data i) ++ sub (rbuf c) (rcurr c) n ++ ztake m b.
Proof.
  intros Hrv HR Hz Hread Hb n m c'. pose proof Hrv as [Hf Hst [B1 B2 B3 B4] Hin Hi].
  destruct (br_value _ _ _ (cn_nread _ _ _ Hf Hst)) as (i' & Hi' & Hu & H1 & H2 & H3). assert (i' = i) as -> by congruence.
  assert (0 ≤ n ≤ rlbytes c ∧ n ≤ rbytes c) as [Hn Hnb] by lia.
  assert (zlen (sub (rbuf c) (rcurr c) n) = n) as Hl by (apply zlen_sub; unfold rsize in *; lia).
  set (c1 := set_rcurr (rcurr c + n) (set_rbytes (rbytes c - n) c)).
  assert (∃ d1, (if 0 <? rbytes c then write_data (c_item c) (ritem c) (sub (rbuf c) (rcurr c) n) else mret tt) x = Ret tt (with_data (c_item c) i d1 x) ∧
    reads_value R (with_data (c_item c) i d1 x) (advanced n c1) (set_ITEM_data d1 i) ∧ zlen d1 = nbytes i ∧
    ztake (ritem c + n) d1 = ztake (ritem c) (ITEM_data i) ++ sub (rbuf c) (rcurr c) n) as (d1 & Hr1 & Hrv1 & Hl1 & Hd1).
  { assert (∀ d1 x1, reads_value R x1 (advanced n c) (set_ITEM_data d1 i) → reads_value R x1 (advanced n c1) (set_ITEM_data d1 i)) as Hbuf.
    { intros d1 x1 Hr. eapply reads_value_buffer; [exact Hr|by split|]. split; unfold rsize in *; cbn; lia. }
    destruct (write_next R x c i (sub (rbuf c) (rcurr c) n) Hrv HR ltac:(lia)) as (Hr & Hv & Hlen & Hd). rewrite Hl in Hv, Hd.
    destruct (Z.ltb_spec 0 (rbytes c)); [eexists; split; [exact Hr|]; split; [by apply Hbuf|done]|].
    assert (n = 0) as -> by lia. exists (ITEM_data i). rewrite with_data_same by done. split; [done|].
    assert (set_ITEM_data (ITEM_data i) i = i) as Heta by (by destruct i).
    split; [apply Hbuf; rewrite Heta|split; [|by rewrite Z.add_0_r, app_nil_r]].
    - assert (advanced 0 c = c) as ->; [|done]. unfold advanced. rewrite Z.add_0_r, Z.sub_0_r. by destruct c.
    - destruct (reading_held x R c Hf Hst) as [Hh _]. destruct (inside_item Hlargest _ x (c_item c) Hin) as (i' & Hi2 & _ & [_ _ K3 _]);
        [rewrite Hh; apply with_refs_held; [done|by apply elem_of_cons; left]|]. congruence. }
  assert ((if 0 <? rbytes c then Z.min (rbytes c) (rlbytes c) else 0) = n) as Htocopy by (destruct (Z.ltb_spec 0 (rbytes c)); lia).
  unfold drive_nread. rewrite (proj2 (Z.eqb_neq (rlbytes c) 0)), Htocopy by done. rewrite (M_bind_ret _ _ _ _ _ Hr1). cbv zeta.
  set (c2 := set_ritem (ritem c + n) _). assert (c2 = advanced n c1) as Hc2 by done. clearbody c2. subst c2.
  change (rlbytes (advanced n c1)) with (rlbytes c - n).
  subst m c'. destruct (Z.eqb_spec (rlbytes c - n) 0) as [Hfull|Hmore].
  - exists d1. rewrite Z.add_0_r, Z.sub_0_r. change (ztake 0 b) with (@nil Z). rewrite app_nil_r. split; [reflexivity|]. split; [exact Hrv1|done].
  - assert (0 < zlen b) as Hlb by (specialize (Hb ltac:(lia)); destruct b; [done|unfold zlen; cbn; lia]).
    rewrite Hread. set (d := ztake (rlbytes c - n) b).
    assert (zlen d = Z.min (rlbytes c - n) (zlen b)) as Hld by (unfold d, ztake, zlen; rewrite length_take; lia).
    assert (ztake (Z.min (rlbytes c - n) (zlen b)) b = d) as Htd.
    { unfold d. destruct (Z.min_spec (rlbytes c - n) (zlen b)) as [[_ ->]|[Hge ->]]; [done|]. unfold ztake, zlen in *. rewrite !take_ge by lia. done. }
    rewrite (proj2 (Z.eqb_neq (zlen d) 0)) by lia.
    destruct (write_next R _ (advanced n c1) (set_ITEM_data d1 i) d Hrv1 HR ltac:(cbn; lia)) as (Hr2 & Hv2 & Hl2 & Hd2).
    change (c_item (advanced n c1)) with (c_item c) in Hr2, Hv2. rewrite with_data_again in Hr2, Hv2. set (d2 := memcpy _ _ d) in *.
    exists d2. rewrite (M_bind_ret _ _ _ _ _ Hr2). split; [by rewrite <- Hld|]. split; [rewrite <- Hld; exact Hv2|]. split; [exact Hl2|].
    rewrite Htd, <- Hld. change (ritem (advanced n c1)) with (ritem c + n) in Hd2. rewrite Hd2. change (ITEM_data (set_ITEM_data d1 i)) with d1. by rewrite Hd1, <- app_assoc.
Qed.

(** ** All turns

    The client sends [rest]; the reads deliver at most [ks] bytes of it.  The result are the
    connection and what has not been delivered yet. *)
Fixpoint read_value (ks : list Z) (rest : bytes) (c : conn) : IM (conn * bytes) :=
  match ks with
  | [] => mret (c, rest)
  | k :: ks' =>
      if rlbytes c =? 0 then mret (c, rest)
      else
        let* '(_, c', _) := drive_nread st hash s (mkIo [ReadData (ztake k rest)] SendWouldBlock true) c in
        read_value ks' (zdrop (ritem c' - ritem c - Z.min (rbytes c) (rlbytes c)) rest) c'
  end.

(** The part of a stream that one turn takes. *)
Lemma stream_turn (u rest : bytes) k rl : 0 < k → 0 ≤ rl → rl ≤ zlen u + zlen rest →
  let n := Z.min (zlen u) rl in let m := if rl - n =? 0 then 0 else Z.min (rl - n) (zlen (ztake k rest)) in
  0 ≤ n ∧ 0 ≤ m ∧ n + m ≤ rl ∧ (rl ≠ 0 → 1 ≤ n + m) ∧ m ≤ zlen rest ∧ (rl ≠ n → ztake k rest ≠ []) ∧
  ztake n u ++ ztake m (ztake k rest) = ztake (n + m) (u ++ rest) ∧ zdrop n u ++ zdrop m rest = zdrop (n + m) (u ++ rest).
Proof.
  intros Hk Hrl Hfit n m. pose proof (zlen_nonneg u). pose proof (zlen_nonneg rest).
  assert (zlen (ztake k rest) = Z.min k (zlen rest)) as Hlk by (unfold ztake, zlen; rewrite length_take; lia).
  assert (0 ≤ n ∧ 0 ≤ m ∧ n + m ≤ rl ∧ (rl ≠ 0 → 1 ≤ n + m) ∧ m ≤ zlen rest ∧ m ≤ k ∧ (m = 0 ∨ n = zlen u)) as (H1 & H2 & H3 & H4 & H5 & H6 & H7).
  { subst m. destruct (Z.eqb_spec (rl - n) 0); lia. }
  do 5 (split; [done|]). split.
  { intros Hne Hnil. rewrite Hnil in Hlk. change (zlen []) with 0 in Hlk. lia. }
  assert (ztake m (ztake k rest) = ztake m rest) as -> by (unfold ztake; rewrite take_take; f_equal; lia).
  destruct H7 as [-> | Hn].
  - rewrite Z.add_0_r. change (ztake 0 rest) with (@nil Z). change (zdrop 0 rest) with rest. unfold ztake, zdrop, zlen in *. rewrite app_nil_r.
    split; [by rewrite take_app_le by lia|by rewrite drop_app_le by lia].
  - rewrite Hn. unfold ztake, zdrop, zlen in *. rewrite Z2Nat.inj_add, Nat2Z.id by lia.
    rewrite take_ge, drop_ge, take_app_add', drop_app_add' by done. done.
Qed.

Lemma ztake_zdrop_app a b (l : bytes) : 0 ≤ a → 0 ≤ b → ztake a l ++ ztake b (zdrop a l) = ztake (a + b) l.
Proof. intros. unfold ztake, zdrop. rewrite Z2Nat.inj_add by done. apply take_take_drop. Qed.

Lemma zlen_unparsed R x c i : reads_value R x c i → zlen (unparsed c) = rbytes c.
Proof. intros [_ _ [B1 B2 B3 B4] _ _]. apply zlen_sub; unfold rsize in *; lia. Qed.
Lemma reads_value_length R x c i : reads_value R x c i → (∀ y, 0 ≤ R y) → zlen (ITEM_data i) = nbytes i ∧ 0 ≤ ritem c ∧ 0 ≤ rlbytes c ∧ ritem c + rlbytes c = nbytes i.
Proof.
  intros [Hf Hst _ Hin Hi] HR. destruct (br_value _ _ _ (cn_nread _ _ _ Hf Hst)) as (i' & Hi' & _ & H). assert (i' = i) as -> by congruence. split; [|done].
  destruct (reading_held x R c Hf Hst) as [Hh _]. destruct (inside_item Hlargest _ x (c_item c) Hin) as (j & Hj & _ & [_ _ K3 _]);
    [rewrite Hh; apply with_refs_held; [done|by apply elem_of_cons; left]|]. congruence.
Qed.

(** What reading does not change. *)
Record same_command (c c' : conn) : Prop := {
  sc_item : c_item c' = c_item c;
  sc_cmd : cmd c' = cmd c;
  sc_noreply : noreply c' = noreply c
}.
#[export] Instance same_command_refl : Reflexive same_command.
Proof. by intros c. Qed.

(** The whole value is read, exactly it, and no byte more. *)
Lemma read_value_exact ks : ∀ rest R x c i, reads_value R x c i → (∀ y, 0 ≤ R y) → Forall (λ k, 0 < k) ks →
  rlbytes c ≤ zlen (unparsed c ++ rest) → rlbytes c ≤ zlen ks →
  let d := ztake (ritem c) (ITEM_data i) ++ ztake (rlbytes c) (unparsed c ++ rest) in
  ∃ c' rest', read_value ks rest c x = Ret (c', rest') (with_data (c_item c) i d x) ∧
    reads_value R (with_data (c_item c) i d x) c' (set_ITEM_data d i) ∧ rlbytes c' = 0 ∧ same_command c c' ∧
    unparsed c' ++ rest' = zdrop (rlbytes c) (unparsed c ++ rest).
Proof.
  induction ks as [|k ks IH]; intros rest R x c i Hrv HR Hks Hfit Hlen d;
    destruct (reads_value_length _ _ _ _ Hrv HR) as (Hl & H1 & H2 & H3); pose proof (rv_item _ _ _ _ Hrv) as Hi.
  all: assert (rlbytes c = 0 → d = ITEM_data i) as Hdone
    by (intros H0; unfold d; rewrite H0; change (ztake 0 (unparsed c ++ rest)) with (@nil Z); rewrite app_nil_r; unfold ztake; apply take_ge; unfold zlen in Hl; lia).
  all: assert (set_ITEM_data (ITEM_data i) i = i) as Heta by (by destruct i).
  - change (zlen []) with 0 in Hlen. assert (rlbytes c = 0) as H0 by lia. rewrite (Hdone H0), with_data_same, Heta, H0 by done. by exists c, rest.
  - cbn [read_value]. destruct (Z.eqb_spec (rlbytes c) 0) as [H0|Hne].
    { rewrite (Hdone H0), with_data_same, Heta, H0 by done. by exists c, rest. }
    apply Forall_cons in Hks as [Hk Hks]. rewrite zlen_app in Hfit.
    destruct (stream_turn (unparsed c) rest k (rlbytes c) Hk H2 Hfit) as (Hn & Hm & Hnm & Hpos & Hmr & Hsome & Ht & Hdr).
    rewrite (zlen_unparsed _ _ _ _ Hrv) in *. set (n := Z.min (rbytes c) (rlbytes c)) in *. set (m := if rlbytes c - n =? 0 then 0 else _) in *.
    destruct (read_turn R x c i (mkIo [ReadData (ztake k rest)] SendWouldBlock true) (ztake k rest) Hrv HR Hne eq_refl Hsome) as (d1 & Hr & Hrv1 & Hl1 & Hd1).
    fold n in Hr, Hrv1, Hd1. fold m in Hr, Hrv1, Hd1. set (c1 := set_ritem _ _) in *.
    rewrite (M_bind_ret _ _ _ _ _ Hr). cbv iota beta. change (ritem c1) with (ritem c + n + m). replace (ritem c + n + m - ritem c - n) with m by lia.
    assert (unparsed c1 = zdrop n (unparsed c)) as Hu1.
    { unfold unparsed. change (rbuf c1) with (rbuf c). change (rcurr c1) with (rcurr c + n). change (rbytes c1) with (rbytes c - n).
      unfold sub, zdrop. pose proof (rv_buffer _ _ _ _ Hrv) as [B1 B2 B3 B4]. rewrite skipn_firstn_comm, skipn_skipn. f_equal; [lia|f_equal; lia]. }
    assert (rlbytes c1 = rlbytes c - (n + m)) as Hrl1 by (change (rlbytes c1) with (rlbytes c - n - m); lia).
    assert (unparsed c1 ++ zdrop m rest = zdrop (n + m) (unparsed c ++ rest)) as Hs1 by (by rewrite Hu1).
    destruct (IH (zdrop m rest) R _ c1 _ Hrv1 HR Hks) as (c' & rest' & Hr2 & Hrv2 & H0 & [S1 S2 S3] & Hleft).
    { rewrite Hs1, Hrl1, zlen_zdrop, zlen_app, (zlen_unparsed _ _ _ _ Hrv); [lia|]. rewrite zlen_app, (zlen_unparsed _ _ _ _ Hrv). lia. }
    { rewrite Hrl1. change (zlen (k :: ks)) with (Z.of_nat (S (length ks))) in Hlen. unfold zlen. specialize (Hpos Hne). lia. }
    assert (ztake (ritem c1) d1 ++ ztake (rlbytes c1) (unparsed c1 ++ zdrop m rest) = d) as Heq.
    { change (ritem c1) with (ritem c + n + m). rewrite Hd1, Hs1, Hrl1, <- app_assoc. unfold d. f_equal.
      assert (sub (rbuf c) (rcurr c) n = ztake n (unparsed c)) as -> by (unfold unparsed, sub, ztake; rewrite take_take; f_equal; lia).
      rewrite Ht, ztake_zdrop_app by lia. f_equal. lia. }
    change (c_item c1) with (c_item c) in *. change (ITEM_data (set_ITEM_data d1 i)) with d1 in *. rewrite Heq in *. rewrite with_data_again in Hr2, Hrv2.
    exists c', rest'. split; [exact Hr2|]. split; [exact Hrv2|]. split; [done|]. split; [by split|].
    rewrite Hleft, Hs1, Hrl1, zdrop_zdrop by lia. f_equal. lia.
Qed.

End Reading.

End ReadValue.
