(* ===== verification/SetCommand.v ===== *)
(** * A [set] from its line to its value

    [process_command] of [memcached-1.4.15/memcached.c] on the line of a [set]: the item
    that is made for it, and what making it leaves as it was. *)

From S2P Require Import Prelude Bytes CStrings McUtil ItemHeap Slabs ChunkAllocator Items ItemsInv ItemsAlloc Store StoreOps ItemsRequests ItemBodies ItemUse Tokens Connection Commands Machine Output ConnInv CommandOps GetOps LineOps MachineOps ReadValue.
From stdpp Require Import base gmap functions list.
From Stdlib Require Import ZArith Lia String.

Local Open Scope Z_scope.

Module SetCommand.
Import ItemHeap ChunkAllocator Items ItemsInv ItemsAlloc Store StoreOps ItemsRequests ItemBodies ItemUse Tokens Connection Commands Machine Output ConnInv CommandOps GetOps LineOps MachineOps ReadValue.

(** ** Allocation and moves

    An allocation does not begin or end the move of a page, unless pages are moved
    whenever an item is evicted ([slab_automove] is 2). *)

Definition nowhere : Z → Prop := λ _, False.
Lemma stays_nowhere h h' : stays nowhere h h'.
Proof. by intros x i []. Qed.

Lemma arena_unmoved {A} (p : M Empty_set Slabs.arena A) : (∀ ar a ar', p ar = Ret a ar' → Slabs.slab_rebal (Slabs.the_pool ar') = Slabs.slab_rebal (Slabs.the_pool ar) ∧
  Slabs.slab_rebalance_signal (Slabs.the_pool ar') = Slabs.slab_rebalance_signal (Slabs.the_pool ar)) → steady_arena nowhere p.
Proof. intros Hp ar a ar' Hr. split; [apply stays_nowhere|]. intros x. destruct (Hp _ _ _ Hr) as [E1 E2]. unfold being_moved. by rewrite E1, E2. Qed.
Lemma arena_pure {A} P (p : M Empty_set Slabs.arena A) : (∀ ar a ar', p ar = Ret a ar' → ar' = ar) → steady_arena P p.
Proof. intros Hp ar a ar' Hr. by rewrite (Hp _ _ _ Hr). Qed.

Lemma arena_ret {A} (a : A) : steady_arena nowhere (mret a).
Proof. apply arena_pure. by intros ar b ar' [= _ <-]. Qed.
Lemma arena_assert b : steady_arena nowhere (Slabs.assert b).
Proof. apply arena_pure. intros ar a ar'. unfold Slabs.assert. destruct b; [by intros [= _ <-]|done]. Qed.
Lemma arena_stuck {A} f : steady_arena nowhere (stuck f : M Empty_set Slabs.arena A).
Proof. by intros ar a ar' ?. Qed.
Lemma arena_lift {A} (r : result A) : steady_arena nowhere (lift_result r).
Proof. apply arena_pure. intros ar a ar'. destruct r; [by intros [= _ <-]|done]. Qed.
Lemma arena_gets {A} (f : Slabs.pool → A) : steady_arena nowhere (Slabs.gets_pool f).
Proof. apply arena_pure. by intros ar a ar' [= _ <-]. Qed.
Lemma arena_load p : steady_arena nowhere (Slabs.load p).
Proof. apply arena_pure. intros ar a ar'. unfold Slabs.load. destruct (get_item _ _); [by intros [= _ <-]|done]. Qed.
Lemma arena_heap f : steady_arena nowhere (Slabs.on_heap f).
Proof. apply arena_on_heap. intros. apply stays_nowhere. Qed.
Lemma arena_class id f : steady_arena nowhere (Slabs.upd_class id f).
Proof. apply arena_upd_class. Qed.
Lemma arena_at id : steady_arena nowhere (Slabs.class_at id).
Proof. apply arena_class_at. Qed.
Lemma arena_slot it : steady_arena nowhere (Slabs.unlink_slot it).
Proof. apply arena_unmoved. intros ar a ar'. unfold Slabs.unlink_slot. destruct (unlink_front _ _) as [[nx h]|]; [by intros [= _ <-]|done]. Qed.
Lemma arena_pool f : (∀ pl, Slabs.slab_rebal (f pl) = Slabs.slab_rebal pl ∧ Slabs.slab_rebalance_signal (f pl) = Slabs.slab_rebalance_signal pl) →
  steady_arena nowhere (Slabs.upd_pool f).
Proof. intros Hf. apply arena_unmoved. intros ar a ar' [= _ <-]. apply Hf. Qed.

Create HintDb unmoved.
#[export] Hint Resolve arena_ret arena_assert arena_stuck arena_lift arena_gets arena_load arena_heap arena_class arena_at arena_slot : unmoved.
(** A program of the allocator is taken apart. *)
Ltac unmoved :=
  repeat first
    [ progress intros
    | solve [eauto with unmoved]
    | apply arena_bind
    | apply arena_pool; done
    | match goal with
      | |- steady_arena _ (if ?b then _ else _) => destruct b
      | |- steady_arena _ (let '(_, _) := ?x in _) => destruct x
      end ].

Lemma free_unmoved ptr n id : steady_arena nowhere (Slabs.do_slabs_free ptr n id).
Proof. unfold Slabs.do_slabs_free. unmoved. Qed.
#[local] Hint Resolve free_unmoved : unmoved.
Lemma split_unmoved n ptr id : steady_arena nowhere (Slabs.split_loop n ptr id).
Proof. revert ptr. induction n as [|n IH]; intros ptr; cbn [Slabs.split_loop]; unmoved. Qed.
#[local] Hint Resolve split_unmoved : unmoved.
Lemma newslab_unmoved st e id : steady_arena nowhere (Slabs.do_slabs_newslab st e id).
Proof. unfold Slabs.do_slabs_newslab, Slabs.grow_slab_list, Slabs.memory_allocate, Slabs.split_slab_page_into_freelist, Slabs.slab_list_set. unmoved. Qed.
#[local] Hint Resolve newslab_unmoved : unmoved.
Lemma slabs_alloc_unmoved st e n id : steady_arena nowhere (Slabs.do_slabs_alloc st e n id).
Proof. unfold Slabs.do_slabs_alloc. unmoved. Qed.
Lemma adjust_unmoved id old n : steady_arena nowhere (Slabs.slabs_adjust_mem_requested id old n).
Proof. unfold Slabs.slabs_adjust_mem_requested. unmoved. Qed.
#[export] Hint Resolve slabs_alloc_unmoved adjust_unmoved : unmoved.

Section Alloc.
Context (st : Slabs.settings_t) (hash : bytes → Z) (s : sys) (Hauto : Slabs.slab_automove st ≠ 2).

Lemma take_over_unmoved it hv n : steady nowhere (take_over it hv n).
Proof. unfold take_over. steady; apply steady_on_arena; eauto with unmoved. Qed.
#[local] Hint Resolve take_over_unmoved : steady.
Lemma count_unmoved id f : steady nowhere (count id f).
Proof. unfold count. steady. Qed.
#[local] Hint Resolve count_unmoved : steady.
Lemma try_item_unmoved it hv id n : steady nowhere (try_item st s it hv id n).
Proof. unfold try_item. rewrite (proj2 (Z.eqb_neq _ 2)) by done. steady. all: apply steady_on_arena; eauto with unmoved. Qed.
#[local] Hint Resolve try_item_unmoved : steady.
Lemma search_unmoved tries search cur id n : steady nowhere (search_loop st hash tries s search cur id n).
Proof. revert search. induction tries as [|tries IH]; intros search; cbn [search_loop]; steady. Qed.
#[local] Hint Resolve search_unmoved : steady.
Lemma item_alloc_unmoved key flags e n : steady nowhere (item_alloc st hash s key flags e n).
Proof. unfold item_alloc, do_item_alloc. steady. apply steady_on_arena; eauto with unmoved. Qed.

End Alloc.

(** ** The line *)

(** [set <key> <flags> 0 <length>]. *)
Record set_line (line key : bytes) (flags len : Z) : Prop := {
  sl_words : ∃ t2 t4, words line = [str "set"; key; t2; str "0"; t4] ∧ McUtil.safe_strtoul t2 = (true, flags) ∧ McUtil.safe_strtol t4 = (true, len);
  sl_key : zlen key ≤ KEY_MAX_LENGTH;
  sl_length : 0 ≤ len < 2 ^ 31 - 2
}.

Section Line.
Context {st : Slabs.settings_t} {hash : bytes → Z} {largest : Z} {sz : Z → Z}.
Context {Holds : Slabs.arena → gmap Z Z → Prop} `{HA : !ChunkAllocator st largest sz Holds}.
Context (Hlargest : largest < LARGEST_ID) (g : globals) (s : sys).

Abbreviation inside := (inside (hash := hash) (sz := sz) (Holds := Holds)).
Abbreviation command_done := (command_done (hash := hash) (sz := sz) (Holds := Holds)).

Lemma alloc_live R x key flags e n it x1 : inside R x → may_allocate st s R x → alloc_args key flags n →
  item_alloc st hash s key flags e n x = Ret it x1 → oldest_live x1 = oldest_live x.
Proof.
  intros [m Hok] [Hu Hsys] Ha Hr. destruct (alloc_ok Hlargest m R x s key flags e n 0 Hok Hu Hsys Ha) as (it' & x' & m' & Hr' & Hc).
  unfold item_alloc in Hr. rewrite Hr in Hr'. injection Hr' as <- <-. destruct (it =? 0); [by destruct Hc as (_ & _ & [_ _ Hl])|by destruct Hc as (_ & _ & [_ _ Hl] & _)].
Qed.

Lemma set_line_args line key flags len : set_line line key flags len → alloc_args key (i32 flags) (len + 2).
Proof. intros [_ Hkey Hlen]. pose proof (wraps_range 32 flags ltac:(lia)). split; [unfold KEY_MAX_LENGTH in *; lia|lia|done]. Qed.
Lemma alloc_quiet (Hauto : Slabs.slab_automove st ≠ 2) R x line key flags len it x1 : inside R x → may_allocate st s R x → set_line line key flags len →
  item_alloc st hash s key (i32 flags) 0 (len + 2) x = Ret it x1 →
  oldest_live x1 = oldest_live x ∧ ∀ y, being_moved (the_pool x1) y = being_moved (the_pool x) y.
Proof.
  intros Hin Hmay Ha Hr. split; [by eapply alloc_live; [exact Hin|exact Hmay|by eapply set_line_args|exact Hr]|].
  apply (ud_moved _ _ _ (item_alloc_unmoved st hash s Hauto key (i32 flags) 0 (len + 2) x it x1 Hr)).
Qed.

Lemma dispatch_set fuel key t2 t3 t4 t c : dispatch st hash g s fuel (tokens_of [str "set"; key; t2; t3; t4] t) c =
  process_update_command st hash g s (tokens_of [str "set"; key; t2; t3; t4] t) NREAD_SET false c.
Proof.
  unfold dispatch, storage_command. rewrite !token_is_first.
  repeat match goal with |- context [bool_decide (str ?a = str ?b)] =>
    let v := eval vm_compute in (bool_decide (str a = str b)) in change (bool_decide (str a = str b)) with v end. done.
Qed.

Lemma set_line_ok R x c line key flags len : idle c → noreply c = false → inside R x → (∀ y, R y + 3 < 2 ^ 16) → may_allocate st s R x →
  set_line line key flags len →
  ∃ c1 it x1 c' x', at_command c1 ∧ same_buffer c c1 ∧ item_alloc st hash s key (i32 flags) 0 (len + 2) x = Ret it x1 ∧
    inside (if it =? 0 then R else <[it := R it + 1]> R) x1 ∧
    process_command st hash g s line c x = Ret c' x' ∧ command_done x R c x' c' [] ∧
    if it =? 0 then refuse_update st hash NREAD_SET key (i32 flags) (len + 2) c1 x1 = Ret c' x'
    else ∃ i, takes x R c1 NREAD_SET key (i32 flags) 0 (len + 2) x' c' it i ∧ on_item it (ITEM_set_cas 0) x1 = Ret tt x'.
Proof.
  intros Hi Hn Hin Hfew Hmay Hset. pose proof (set_line_args _ _ _ _ Hset) as Hargs. destruct Hset as [(t2 & t4 & Hline & H2 & H4) Hkey Hlen]. unfold process_command. pose proof (id_memory c Hi) as Hmem.
  destruct (add_msghdr_ok (set_iovused 0 (set_msglist [] (set_msgcurr 0 c))) Hmem) as (c1 & Ha & _). rewrite Ha. cbn [negb].
  destruct (at_command_start c c1 Hi Hn Ha) as [Hat Hbuf].
  destruct (tokens_of_line line) as (ws & rest & -> & Hw & Hwords & _ & Hseven). set (fuel := (2 + _ + _)%nat).
  assert (ws = [str "set"; key; t2; str "0"; t4]) as ->.
  { rewrite Hline in Hwords. destruct rest as [r|]; [|unfold all_words in Hwords; by rewrite app_nil_r in Hwords].
    specialize (Hseven ltac:(done)). apply (f_equal zlen) in Hwords. rewrite zlen_words in Hwords. pose proof (zlen_nonneg (words r)).
    change (zlen [_; _; _; _; _]) with 5 in Hwords. lia. }
  rewrite dispatch_set. unfold process_update_command.
  assert (set_noreply_maybe (tokens_of [str "set"; key; t2; str "0"; t4] (mkToken rest 0)) c1 = c1) as ->.
  { unfold set_noreply_maybe, token_is. rewrite (token_lookup _ _ _ t4) by done. rewrite bool_decide_false; [done|]. intros [= ->]. by vm_compute in H4. }
  destruct (take_item_ok Hlargest s R x c c1 NREAD_SET key (i32 flags) 0 (len + 2) 0 (ac_idle _ Hat) Hbuf Hin Hfew Hmay Hargs)
    as (it & x1 & c' & x' & Hr1 & Hin1 & Hr & Hd & Hres).
  exists c1, it, x1, c', x'. do 4 (split; [done|]). split; [|done].
  set (ws := [str "set"; key; t2; str "0"; t4]) in *.
  assert (zlookup ws 1 = Some key ∧ zlookup ws 2 = Some t2 ∧ zlookup ws 3 = Some (str "0") ∧ zlookup ws 4 = Some t4) as (W1 & W2 & W3 & W4) by done.
  at_word. rewrite (proj2 (Z.ltb_ge _ _)) by done. do 4 at_word.
  rewrite H2, H4. change (McUtil.safe_strtol (str "0")) with (true, 0). cbn [negb andb]. erewrite M_bind_ret by reflexivity. cbv iota beta. cbn [negb].
  assert (i32 (len + 2) = len + 2) as Hi32 by (apply wraps_small; change (2 ^ (32 - 1)) with (2 ^ 31); lia).
  assert (i32 (len + 2 - 2) = len) as Hi32' by (replace (len + 2 - 2) with len by lia; apply wraps_small; change (2 ^ (32 - 1)) with (2 ^ 31); lia).
  rewrite Hi32, Hi32', !(proj2 (Z.ltb_ge _ _)) by lia. cbn [orb]. erewrite M_bind_ret by reflexivity. exact Hr.
Qed.

(** Without memory the client is told so, and the value is swallowed. *)
Record refused (len : Z) (c : conn) : Prop := {
  rf_state : state c = conn_write ∧ write_and_go c = conn_swallow ∧ sbytes c = len;
  rf_text : wcurr c = str "SERVER_ERROR out of memory storing object" ++ CRLF ∨ wcurr c = str "SERVER_ERROR object too large for cache" ++ CRLF
}.
Lemma refuse_refused comm key flags len c x c' x' : noreply c = false → refuse_update st hash comm key flags len c x = Ret c' x' → refused len c'.
Proof.
  intros Hn Hr. unfold refuse_update in Hr. apply M_bind_inv in Hr as (b & x1 & _ & Hr). apply M_bind_inv in Hr as ([] & x2 & _ & [= <- _]).
  assert (∀ t, (DATA_BUFFER_SIZE <? zlen t + 2) = false → state (out_string t c) = conn_write ∧ wcurr (out_string t c) = t ++ CRLF) as Hout
    by (intros t Ht; unfold out_string; by rewrite Hn, Ht).
  split; [split; [|done]|]; cbn; destruct b; [by apply Hout..|left|right]; by apply Hout.
Qed.

End Line.

End SetCommand.
