(* ===== verification/Worker.v ===== *)
(** * A worker of memcached and its connections

    The connections of one worker thread of [memcached-1.4.15] over the cache: the event
    library calls [event_handler], and with it [drive_machine], for one connection at a
    time.  The turns of the connections may come in any order; each finds the cache as the
    others have left it. *)

From S2P Require Import Prelude Bytes CStrings ItemHeap Assoc Slabs ChunkAllocator Items ItemsInv ItemsAlloc Store StoreOps ItemsRequests ItemBodies ItemUse Tokens Connection Commands Machine Output ConnInv CommandOps GetOps LineOps MachineOps.
From stdpp Require Import base gmap functions list.
From Stdlib Require Import ZArith Lia String.

Local Open Scope Z_scope.

Module Worker.
Import ItemHeap ChunkAllocator Items ItemsInv ItemsAlloc Store StoreOps ItemsRequests ItemBodies ItemUse Tokens Connection Commands Machine Output ConnInv CommandOps GetOps LineOps MachineOps.

(** ** The worker *)

(** The connections by their socket. *)
Record worker := mkWorker { w_cache : cache; w_conns : gmap Z conn }.

(** A turn of a connection, with the system and what its calls answer; a new connection
    that [dispatch_conn_new] has sent to the worker; and the clock. *)
Inductive event :=
| Turn (sfd : Z) (s : sys) (e : io) (nreqs : Z)
| Accept (sfd : Z)
| Tick (now : Z).

Section Worker.
Context (st : Slabs.settings_t) (hash : bytes → Z) (g : globals).

(** [None]: there is no such connection, or the code would fail. *)
Definition worker_step (ev : event) (w : worker) : option worker :=
  match ev with
  | Turn sfd s e nreqs =>
      c ← w_conns w !! sfd;
      match drive_step st hash g s e nreqs c (w_cache w) with
      | Ret (_, (v, c', _)) x' =>
          Some (mkWorker x' (match v with Closed => delete sfd (w_conns w) | _ => <[sfd := c']> (w_conns w) end))
      | _ => None
      end
  | Accept sfd =>
      match w_conns w !! sfd with
      | Some _ => None
      | None => Some (mkWorker (w_cache w) (<[sfd := conn_new conn_new_cmd DATA_BUFFER_SIZE [] 0 0]> (w_conns w)))
      end
  | Tick now => Some (mkWorker (set_current_time now (w_cache w)) (w_conns w))
  end.
Fixpoint worker_run (evs : list event) (w : worker) : option worker :=
  match evs with
  | [] => Some w
  | ev :: evs' => w' ← worker_step ev w; worker_run evs' w'
  end.

(** ** References *)

(** How often the items of a list are held. *)
Definition refs_of (l : list Z) : Z → Z := with_refs (λ _, 0) l.
(** What the connections hold. *)
Definition all_held (cs : gmap Z conn) : list Z := List.concat (map (held ∘ snd) (map_to_list cs)).
Abbreviation others cs sfd := (refs_of (all_held (delete sfd cs))).

Lemma refs_of_nonneg l y : 0 ≤ refs_of l y.
Proof. unfold refs_of, with_refs. lia. Qed.
Lemma refs_perm l l' y : l ≡ₚ l' → refs_of l y = refs_of l' y.
Proof.
  intros Hp. unfold refs_of, with_refs. f_equal. f_equal. by apply Permutation_count_occ.
Qed.
Lemma refs_zero l y : refs_of l y = 0 → y ∉ l.
Proof.
  intros H Hin. pose proof (with_refs_held (λ _, 0) l y ltac:(lia) Hin). unfold refs_of in H. lia.
Qed.
Lemma refs_absent l y : y ∉ l → refs_of l y = 0.
Proof. intros H. unfold refs_of, with_refs. rewrite (proj1 (count_occ_not_In _ l y)); [done|]. by rewrite <- list_elem_of_In. Qed.
Lemma refs_one l y : y ∈ l → 1 ≤ refs_of l y.
Proof. intros H. apply with_refs_held; [lia|done]. Qed.

Lemma concat_perm {A} (l l' : list (list A)) : l ≡ₚ l' → List.concat l ≡ₚ List.concat l'.
Proof.
  induction 1 as [|? ? ? _ IH|x y l|]; cbn; [done|by rewrite IH| |by etrans].
  by rewrite !app_assoc, (Permutation_app_comm x y).
Qed.
Lemma all_held_insert cs sfd c : cs !! sfd = None → all_held (<[sfd := c]> cs) ≡ₚ held c ++ all_held cs.
Proof.
  intros H. unfold all_held. rewrite (concat_perm _ (map (held ∘ snd) ((sfd, c) :: map_to_list cs))); [done|].
  apply Permutation_map. by apply map_to_list_insert.
Qed.
Lemma all_held_at cs sfd c : cs !! sfd = Some c → all_held cs ≡ₚ held c ++ all_held (delete sfd cs).
Proof. intros H. rewrite <- (insert_delete_id cs sfd c H) at 1. apply all_held_insert, lookup_delete_eq. Qed.
Lemma elem_of_all_held cs y : y ∈ all_held cs ↔ ∃ sfd c, cs !! sfd = Some c ∧ y ∈ held c.
Proof.
  unfold all_held. rewrite elem_of_concat. split.
  - intros (l & Hy & Hl). apply list_elem_of_fmap in Hl as ([sfd c] & -> & Hin). exists sfd, c. split; [by apply elem_of_map_to_list|done].
  - intros (sfd & c & Hc & Hy). exists (held c). split; [done|]. apply list_elem_of_fmap. exists (sfd, c). by split; [|apply elem_of_map_to_list].
Qed.

(** ** What the connections see to *)

Definition event_ok (ev : event) (w : worker) : Prop :=
  match ev with
  | Turn sfd s _ _ => ∃ c, w_conns w !! sfd = Some c ∧
      turn_env (st := st) (hash := hash) s (others (w_conns w) sfd) (w_cache w) c ∧
      (state c = conn_parse_cmd → ∀ line, next_line c = Some line → gives_up line = false)
  | Accept sfd => w_conns w !! sfd = None
  | Tick now => current_time (w_cache w) ≤ now ∧ ∀ y, refs_of (all_held (w_conns w)) y + 2 < 2 ^ 16
  end.
Fixpoint events_ok (evs : list event) (w : worker) : Prop :=
  match evs with
  | [] => True
  | ev :: evs' => event_ok ev w ∧ match worker_step ev w with Some w' => events_ok evs' w' | None => True end
  end.

Section Ok.
Context {largest : Z} {sz : Z → Z} {Holds : Slabs.arena → gmap Z Z → Prop} `{HA : !ChunkAllocator st largest sz Holds}.
Context (Hlargest : largest < LARGEST_ID).

Abbreviation inside := (inside (hash := hash) (sz := sz) (Holds := Holds)).

Record worker_ok (w : worker) : Prop := {
  wk_inside : inside (refs_of (all_held (w_conns w))) (w_cache w);
  wk_conns : ∀ sfd c, w_conns w !! sfd = Some c → conn_ok (w_cache w) (others (w_conns w) sfd) c
}.

(** The invariant of a connection while another one has its turn. *)
Lemma conn_ok_stays x x' R R' c : conn_ok x R c → stays (λ y, y ∈ held c) (heap_of x) (heap_of x') →
  (state c = conn_nread → R' (c_item c) = 0) → conn_ok x' R' c.
Proof.
  intros [Hf Hb Hp] Hs HR. split; [|done|done].
  assert (∀ y, y ∈ window c → y ∈ held c) as Hwin by (intros y Hy; unfold held; apply elem_of_app; by right).
  pose proof Hf as [F1 F2 F3 F4 F5 F6 F7 F8 F9 F10]. split; try done.
  - intros Hst. destruct (F5 Hst) as [B1 B2 B3 (i & Hi & Hu & Hrest)]. destruct (reading_held x R c Hf Hst) as [Hh _].
    destruct (Hs (c_item c) i) as (i' & Hi' & [Hbody Hul]); [rewrite Hh; by apply elem_of_cons; left|done|].
    destruct (body_parts _ _ Hbody) as (_ & _ & _ & Hn). split; [done|by apply HR|done|]. exists i'. rewrite Hn. auto.
  - intros Hst. destruct (F6 Hst) as [[O1 O2] S2 S3 S4].
    destruct (queued_stays _ x x' (window c) (msglist c) Hs Hwin O1 S2) as [O1' _]. by split; [split|..].
Qed.

Lemma conn_new_fine x R : conn_ok x R (conn_new conn_new_cmd DATA_BUFFER_SIZE [] 0 0) ∧ held (conn_new conn_new_cmd DATA_BUFFER_SIZE [] 0 0) = [].
Proof.
  split; [|done]. apply idle_ok; [by split|done|by split|]. left. by left.
Qed.

(** *** A turn *)

Lemma conn_ok_ext x R R' c : conn_ok x R c → (∀ y, R' y = R y) → conn_ok x R' c.
Proof. intros [Hf Hb Hp] HR. split; [by eapply fine_ext|done|done]. Qed.

Lemma others_with cs sfd c y : cs !! sfd = Some c → with_refs (others cs sfd) (held c) y = refs_of (all_held cs) y.
Proof.
  intros Hc. rewrite (refs_perm (all_held cs) (all_held (delete sfd cs) ++ held c)); [by unfold refs_of; rewrite with_refs_app|].
  rewrite (all_held_at cs sfd c Hc). apply Permutation_app_comm.
Qed.

(** The other connections are not disturbed by the turn of [c]. *)
Lemma others_stay cs cs' sfd c x c' x' : cs !! sfd = Some c → (∀ j, j ≠ sfd → cs' !! j = cs !! j) → (∀ e, cs' !! sfd = Some e → e = c') →
  turn_done (hash := hash) (sz := sz) (Holds := Holds) x (others cs sfd) c x' c' [] →
  ∀ j d, j ≠ sfd → cs !! j = Some d → conn_ok x (others cs j) d → conn_ok x' (others cs' j) d.
Proof.
  intros Hc Hsame Hnew [T1 T2 T3 T4] j d Hj Hd Hok. eapply conn_ok_stays; [exact Hok|eapply stays_mono; [exact T3|]|].
  { intros y Hy. apply refs_one, elem_of_all_held. exists j, d. by rewrite lookup_delete_ne. }
  intros Hst. pose proof (ck_fine _ _ _ Hok) as Hf. destruct (reading_held _ _ _ Hf Hst) as [Hh _].
  destruct (cn_nread _ _ _ Hf Hst) as [_ Hpriv%refs_zero _ (i & Hi & Hu & _)]. apply refs_absent. rewrite elem_of_all_held in Hpriv |- *.
  intros (k & e & Hk & Hy). apply lookup_delete_Some in Hk as [Hkj Hk]. destruct (decide (k = sfd)) as [->|Hne].
  - rewrite (Hnew e Hk) in Hy. apply (T4 (c_item d) i); [|done|done| |done].
    + apply refs_one, elem_of_all_held. exists j, d. rewrite lookup_delete_ne by done. split; [done|]. rewrite Hh. by apply elem_of_cons; left.
    + intros Hyc. apply Hpriv. exists sfd, c. by rewrite lookup_delete_ne.
  - apply Hpriv. exists k, e. rewrite lookup_delete_ne by done. by rewrite <- Hsame.
Qed.

Lemma turn_step w sfd s e nreqs : worker_ok w → event_ok (Turn sfd s e nreqs) w →
  ∃ w', worker_step (Turn sfd s e nreqs) w = Some w' ∧ worker_ok w'.
Proof.
  destruct w as [x cs]. intros [Hin Hcs] (c & Hc & Henv & Hline). cbn [w_cache w_conns] in *.
  pose proof (Hcs sfd c Hc) as Hok. set (R := others cs sfd) in *.
  assert (inside (with_refs R (held c)) x) as Hin1 by (eapply inside_ext; [exact Hin|]; intros y; by apply others_with).
  destruct (drive_step_ok Hlargest g s R x c e nreqs Hok Hin1 ltac:(intros y; apply refs_of_nonneg) Henv)
    as (n & v & c' & out & x' & lost & Hr & Ht & Hlost & Hclosed).
  assert (lost = []) as ->.
  { destruct lost; [done|]. destruct (Hlost ltac:(done)) as (Hst & line & Hl & Hg). by rewrite (Hline Hst line Hl) in Hg. }
  set (cs' := match v with Closed => delete sfd cs | _ => <[sfd := c']> cs end).
  exists (mkWorker x' cs'). split; [cbn; rewrite Hc; cbn; by rewrite Hr|].
  assert ((∀ j, j ≠ sfd → cs' !! j = cs !! j) ∧ (∀ d, cs' !! sfd = Some d → d = c') ∧ delete sfd cs' = delete sfd cs ∧
    all_held cs' ≡ₚ all_held (delete sfd cs) ++ held c') as (Hsame & Hnew & Hdel & Hall).
  { assert (∀ cs1, cs1 = <[sfd := c']> cs → (∀ j, j ≠ sfd → cs1 !! j = cs !! j) ∧ (∀ d, cs1 !! sfd = Some d → d = c') ∧ delete sfd cs1 = delete sfd cs ∧
      all_held cs1 ≡ₚ all_held (delete sfd cs) ++ held c') as Hins.
    { intros cs1 ->. split; [intros j Hj; by rewrite lookup_insert_ne|]. split; [intros d; rewrite lookup_insert_eq; congruence|].
      split; [by rewrite delete_insert_eq|]. rewrite <- (insert_delete_eq cs sfd c'), all_held_insert by apply lookup_delete_eq. apply Permutation_app_comm. }
    destruct v; [by apply Hins|by apply Hins|]. subst cs'. split; [intros j Hj; by rewrite lookup_delete_ne|]. split; [intros d; by rewrite lookup_delete_eq|].
    split; [by rewrite delete_delete_eq|]. by rewrite (Hclosed eq_refl), app_nil_r. }
  split; cbn [w_cache w_conns].
  - eapply inside_ext; [apply Ht|]. intros y. cbn [app]. unfold R. rewrite (refs_perm _ _ y Hall). unfold refs_of. by rewrite with_refs_app.
  - intros j d Hd. destruct (decide (j = sfd)) as [->|Hj].
    + rewrite (Hnew d Hd), Hdel. eapply conn_ok_ext; [apply Ht|]. intros y. by rewrite with_refs_nil.
    + rewrite Hsame in Hd by done. by eapply others_stay; [exact Hc|exact Hsame|exact Hnew|exact Ht|exact Hj|exact Hd|apply Hcs].
Qed.

(** *** The other events *)

Lemma accept_step w sfd : worker_ok w → event_ok (Accept sfd) w → ∃ w', worker_step (Accept sfd) w = Some w' ∧ worker_ok w'.
Proof.
  destruct w as [x cs]. intros [Hin Hcs] Hn. cbn [event_ok w_cache w_conns] in *.
  destruct (conn_new_fine x (others (<[sfd := conn_new conn_new_cmd DATA_BUFFER_SIZE [] 0 0]> cs) sfd)) as [Hnew Hh].
  eexists. split; [cbn; by rewrite Hn|]. set (c := conn_new _ _ _ _ _) in *. split; cbn [w_cache w_conns].
  - eapply inside_ext; [exact Hin|]. intros y. apply refs_perm. by rewrite all_held_insert, Hh.
  - intros j d Hd. destruct (decide (j = sfd)) as [->|Hj]; [rewrite lookup_insert_eq in Hd; by injection Hd as <-|].
    rewrite lookup_insert_ne in Hd by done. eapply conn_ok_ext; [by apply Hcs|]. intros y. apply refs_perm.
    rewrite delete_insert_ne by done. rewrite all_held_insert by (by rewrite lookup_delete_ne). by rewrite Hh.
Qed.

Lemma tick_step w now : worker_ok w → event_ok (Tick now) w → ∃ w', worker_step (Tick now) w = Some w' ∧ worker_ok w'.
Proof.
  destruct w as [x cs]. intros [Hin Hcs] [Ht Hfew]. cbn [w_cache w_conns] in *.
  destruct (use_exec (st := st) Hlargest (mkSys (Slabs.mkEnv 0 false) (λ _, false) false [] 0 (λ _, [])) (ItemsRequests.Tick now) _ x Hin) as (ret & x' & Hr & Hin'); [by split|].
  apply no_result_inv in Hr. injection Hr as <-. eexists. split; [reflexivity|]. split; [exact Hin'|].
  intros j d Hd. eapply conn_ok_stays; [by apply Hcs|done|]. intros Hst.
  apply (br_private _ _ _ (cn_nread _ _ _ (ck_fine _ _ _ (Hcs j d Hd)) Hst)).
Qed.

Lemma worker_step_ok w ev : worker_ok w → event_ok ev w → ∃ w', worker_step ev w = Some w' ∧ worker_ok w'.
Proof. destruct ev; [apply turn_step|apply accept_step|apply tick_step]. Qed.

Lemma worker_run_ok evs : ∀ w, worker_ok w → events_ok evs w → ∃ w', worker_run evs w = Some w' ∧ worker_ok w'.
Proof.
  induction evs as [|ev evs IH]; intros w Hok; cbn [events_ok worker_run]; [by exists w|]. intros [He Hevs].
  destruct (worker_step_ok w ev Hok He) as (w1 & Hs & Hok1). rewrite Hs in *. by apply IH.
Qed.

End Ok.
End Worker.
End Worker.
