(* ===== verification/ProtocolTheorems.v ===== *)
(** * memcached as its clients see it

    The lines of the text protocol over a cache that requests have reached: what a [get] is
    answered, that a value comes back as it was set, and that any number of connections
    with any input keep the server safe and the references exact. *)

From S2P Require Import Prelude Bytes CStrings ItemHeap Assoc Slabs SlabsSafety ChunkAllocator Items ItemsInv ItemsAlloc Store StoreOps ItemsRequests ItemsTheorems StoreTheorems ItemBodies ItemUse Tokens Connection Commands Machine Output ConnInv CommandOps GetOps LineOps MachineOps Worker ReadValue SetCommand.
From stdpp Require Import base gmap functions relations list.
From Stdlib Require Import ZArith Lia String.

Local Open Scope Z_scope.

Module ProtocolTheorems.
Import ItemHeap ChunkAllocator Items ItemsInv ItemsAlloc Store StoreOps ItemsRequests ItemsTheorems StoreTheorems ItemBodies ItemUse Tokens Connection Commands Machine Output ConnInv CommandOps GetOps LineOps MachineOps Worker ReadValue SetCommand.

(** ** Answers to [get] *)


(** ** A value comes back *)

Section Set_.
Context {st : Slabs.settings_t} {hash : bytes → Z} {largest : Z} {sz : Z → Z}.
Context {Holds : Slabs.arena → gmap Z Z → Prop} `{HA : !ChunkAllocator st largest sz Holds}.
Context (Hlargest : largest < LARGEST_ID) (s : sys).

Abbreviation ok := (ok (hash := hash) (sz := sz) (Holds := Holds)).

(** The item under a key. *)
Lemma ok_shaped m R c k y : ok m R c → m !! k = Some y →
  ∃ j, heap_of c !! y = Some j ∧ ITEM_key j = k ∧ has_flag ITEM_LINKED j = true ∧ refcount j = R y + 1 ∧
    shaped (ITEM_key j) (nbytes j) (ITEM_data j) (ITEM_suffix j).
Proof.
  intros (H & L & Hok) Hk. destruct (found_item st hash largest sz Holds Hlargest H L m R c k y Hok Hk) as (id & j & _ & _ & _ & _ & Hj & Hkey & Hl & Hio).
  exists j. pose proof (io_count Hio) as Hc. rewrite Hl in Hc. split_and!; try done. apply (io_shape Hio).
Qed.

(** The value, the flags and the key make the bytes that are sent. *)
Lemma same_value i j : shaped (ITEM_key i) (nbytes i) (ITEM_data i) (ITEM_suffix i) → shaped (ITEM_key j) (nbytes j) (ITEM_data j) (ITEM_suffix j) →
  ITEM_key j = ITEM_key i → value_of j = value_of i → body j = body i.
Proof.
  intros [_ _ D1 (f1 & F1 & S1)] [_ _ D2 (f2 & F2 & S2)] Hk [= Hd Hs He]. unfold body. rewrite S1, S2 in *. rewrite !flags_of_suffix in Hs by done.
  assert (nbytes j = nbytes i) as Hn by (by rewrite <- D1, <- D2, Hd). by rewrite Hk, Hd, Hn, Hs.
Qed.

(** The reference of a connection to the item that it has stored is given up. *)
Lemma remove_stored m R c it k y i j : ok m (with_refs R [it]) c → (∀ z, 0 ≤ R z) → m !! k = Some y → heap_of c !! y = Some j →
  shaped (ITEM_key i) (nbytes i) (ITEM_data i) (ITEM_suffix i) → ITEM_key i = k → value_of j = value_of i → exptime i = 0 →
  oldest_live c = 0 → being_moved (the_pool c) y = false →
  ∃ c', item_remove it c = Ret tt c' ∧ ∃ m' : gmap bytes Z, ok m' R c' ∧ ∃ cas, answer hash c' k = Some (body i, cas).
Proof.
  intros Hok HR Hy Hj Hsi Hki Hv He Hold Hmv.
  assert (1 ≤ with_refs R [it] it) as H1 by (apply with_refs_held; [done|by apply elem_of_cons; left]).
  destruct (ok_item Hlargest m _ c it Hok H1) as (o & Ho & _).
  destruct (remove_ok Hlargest m _ c it o Hok H1 Ho) as (c' & Hr & Hok' & Hk & Hsame). exists c'. split; [done|].
  assert (ok m R c') as Hok2 by (eapply ok_ext; [exact Hok'|]; intros z; rewrite <- with_refs_drop; by rewrite with_refs_nil).
  exists m. split; [done|]. destruct (ok_shaped m _ c k y Hok Hy) as (j0 & Hj0 & Hkj & Hlj & _ & Hsj). assert (j0 = j) as -> by congruence.
  assert (∃ j', heap_of c' !! y = Some j' ∧ body j' = body j ∧ exptime j' = exptime j) as (j' & Hj' & Hb & Hx).
  { destruct (decide (y = it)) as [->|Hne].
    - assert (o = j) as -> by congruence. eexists. split; [apply Hsame; by right|done].
    - destruct (kept_item _ _ _ _ _ y j Hk) as (j' & Hj' & n & p & q & ->); [by rewrite list_elem_of_singleton|right; by exists k|done|]. by eexists. }
  exists (ITEM_get_cas j'). unfold answer. rewrite (found_live_eq Hlargest m R c' k Hok2). unfold live. rewrite Hy. cbn. rewrite Hj'. cbn.
  rewrite (ud_moved _ _ _ (remove_steady (λ _, True) it c _ c' Hr)), Hmv. unfold expired. rewrite (kp_live _ _ _ _ _ Hk), Hold. cbn [Z.eqb negb andb orb].
  assert (exptime j' = 0) as -> by (injection Hv as _ _ Hej; congruence). cbn. unfold shown.
  rewrite Hb, (same_value i j); [done..|congruence|done].
Qed.

(** A [set] does not begin or end the move of a page. *)
Lemma set_steady it cas hv : steady (λ z, z ≠ it) (do_store_item st hash s it NREAD_SET cas hv).
Proof. unfold do_store_item. repeat decide_name. steady. Qed.

(** The storage command is completed. *)
Lemma complete_set R x c i : conn_fine x R c → state c = conn_nread → inside (hash := hash) (sz := sz) (Holds := Holds) (with_refs R (held c)) x →
  (∀ y, 0 ≤ R y) → cmd c = Some NREAD_SET → (∀ y, with_refs R (held c) y + 3 < 2 ^ 16) →
  heap_of x !! c_item c = Some i → sub (ITEM_data i) (nbytes i - 2) 2 = CRLF → exptime i = 0 → oldest_live x = 0 →
  (∀ y, being_moved (the_pool x) y = false) →
  ∃ c' x', complete_nread_ascii st hash s c x = Ret c' x' ∧ inside (hash := hash) (sz := sz) (Holds := Holds) R x' ∧
    (noreply c = false → state c' = conn_write ∧ wcurr c' = str "STORED" ++ CRLF) ∧ ∃ cas, answer hash x' (ITEM_key i) = Some (body i, cas).
Proof.
  intros Hf Hst [m Hok] HR Hcmd Hfew Hi Hend He Hold Hmv.
  destruct (br_value _ _ _ (cn_nread _ _ _ Hf Hst)) as (i' & Hi' & Hl & _). assert (i' = i) as -> by congruence. clear Hi'.
  destruct (reading_held x R c Hf Hst) as [Hh _]. rewrite Hh in *. set (it := c_item c) in *.
  assert (1 ≤ with_refs R [it] it) as H1 by (apply with_refs_held; [done|by apply elem_of_cons; left]).
  destruct (do_store_item_spec (hash := hash) Hlargest m _ x s it i NREAD_SET (c_cas c) Hok Hfew H1 Hi Hl) as (stored & cas & m1 & x1 & Hr1 & [O1 O2 O3 O4 O5 O6]); [done|].
  assert (stored = STORED) as -> by (by destruct O3 as [-> |[? _]]).
  destruct (O4 eq_refl) as (y & j & Hy & Hj & Hv & _). cbn [stored_value] in Hv.
  pose proof (set_steady it (c_cas c) (hash (ITEM_key i)) x _ x1 Hr1) as Hs1.
  destruct (inside_item Hlargest _ x it (ex_intro _ m Hok) H1) as (i2 & Hi2 & _ & Hsh). assert (i2 = i) as -> by congruence.
  destruct (remove_stored m1 R x1 it (ITEM_key i) y i j O1 HR Hy Hj Hsh eq_refl Hv He) as (x2 & Hr2 & m2 & Hok2 & Ha).
  { by rewrite (kp_live _ _ _ _ _ O2). } { by rewrite (ud_moved _ _ _ Hs1). }
  unfold complete_nread_ascii. fold it. istep. rewrite decide_True by done. rewrite Hcmd, M_bind_assoc.
  assert (store_item st hash s it NREAD_SET (c_cas c) x = Ret (STORED, cas) x1) as Hst1 by (unfold store_item; by istep).
  rewrite (M_bind_ret _ _ _ _ _ Hst1). cbv iota beta. erewrite M_bind_ret by reflexivity. rewrite out_string_keeps_item. change (c_item (set_c_cas cas c)) with it.
  rewrite (M_bind_ret _ _ _ _ _ Hr2). eexists _, x2. split; [reflexivity|]. split; [by exists m2|]. split; [|done].
  intros Hn. rewrite out_string_item. unfold out_string. cbn [noreply set_c_item set_c_cas]. by rewrite Hn.
Qed.

End Set_.

(** The line of a [get]. *)
Definition get_line (key : bytes) : bytes := str "get " ++ key.
Lemma get_line_words key : word key → words (get_line key) = [str "get"; key].
Proof.
  intros [Hne Hs]. change (get_line key) with (str "get" ++ 32 :: key). rewrite words_app by (repeat constructor; done).
  rewrite words_no_space by done. unfold one_word. by rewrite !decide_False.
Qed.

(** The value has been read: it is stored, and it is what a [get] is answered. *)
Lemma stored_then_get {st : Slabs.settings_t} {hash : bytes → Z} {largest : Z} {sz : Z → Z} {Holds : Slabs.arena → gmap Z Z → Prop}
  `{HA : !ChunkAllocator st largest sz Holds} (Hl : largest < LARGEST_ID) (g : globals) (s : sys) R x c d i v flags :
  reads_value (hash := hash) (sz := sz) (Holds := Holds) R x c i → (∀ y, 0 ≤ R y ∧ R y + 5 < 2 ^ 16) → cmd c = Some NREAD_SET → noreply c = false →
  word (ITEM_key i) → ITEM_data i = v ++ CRLF → ITEM_suffix i = item_suffix flags (zlen v + 2) → exptime i = 0 → oldest_live x = 0 →
  (∀ y, being_moved (the_pool x) y = false) → idle d → noreply d = false →
  ∃ c1 x1 d1 x2, complete_nread_ascii st hash s c x = Ret c1 x1 ∧ state c1 = conn_write ∧ wcurr c1 = str "STORED" ++ CRLF ∧
    process_command st hash g s (get_line (ITEM_key i)) d x1 = Ret d1 x2 ∧ state d1 = conn_mwrite ∧
    pending x2 d1 = str "VALUE " ++ ITEM_key i ++ item_suffix flags (zlen v + 2) ++ v ++ CRLF ++ str "END" ++ CRLF.
Proof.
  intros [Hc Hread Hb Hin Hi] HR Hset Hreply Hkey Hdata Hflags Hexp Hflush Hmv Hd Hquiet.
  destruct (reading_held x R c Hc Hread) as [Hh _].
  assert (1 ≤ with_refs R (held c) (c_item c)) as H1 by (rewrite Hh; apply with_refs_held; [apply HR|by apply elem_of_cons; left]).
  destruct (inside_item Hl _ x _ Hin H1) as (i' & Hi' & _ & Hsh). assert (i' = i) as -> by congruence. destruct Hsh as [K1 K2 K3 _].
  assert (nbytes i = zlen v + 2) as Hnb by (rewrite <- K3, Hdata, zlen_app; done).
  destruct (complete_set Hl s R x c i Hc Hread Hin ltac:(intros y; apply HR) Hset) as (c1 & x1 & Hr1 & Hin1 & Hsaid & cas & Ha); try done.
  { intros y. rewrite Hh. specialize (HR y). rewrite with_refs_one. destruct (decide (y = c_item c)) as [->|]; [rewrite fn_lookup_insert; lia|rewrite fn_lookup_insert_ne by done; lia]. }
  { rewrite Hnb, Hdata. replace (zlen v + 2 - 2) with (zlen v) by lia. unfold sub, zlen. by rewrite Nat2Z.id, drop_app_length. }
  destruct (Hsaid Hreply) as [Hst1 Hw1]. pose proof (get_line_words _ Hkey) as Hwords.
  destruct (process_get_ok Hl g s R x1 d (get_line (ITEM_key i)) (str "get") (ITEM_key i) [] Hd Hquiet Hin1) as (d1 & x2 & lost & Hr2 & _ & Hres);
    [intros y; rewrite Hwords; change (zlen _) with 2; specialize (HR y); lia|done|unfold get_names; rewrite !elem_of_cons; by left|].
  unfold accepts_keys in Hres. cbn [forallb] in Hres. rewrite (proj2 (Z.leb_le (zlen (ITEM_key i)) KEY_MAX_LENGTH)) in Hres by (unfold KEY_MAX_LENGTH; lia).
  cbn [andb] in Hres. destruct Hres as (_ & Hst2 & Hp). exists c1, x1, d1, x2. do 5 (split; [done|]).
  rewrite Hp. unfold replies. cbn [map List.concat]. rewrite Ha, app_nil_r. unfold body. rewrite bool_decide_false by done.
  cbn [get_reply]. by rewrite Hflags, Hdata, <- !app_assoc.
Qed.

(** The line of a [set] that gets memory: its value is read next, and the cache is in a
    state in which it can be stored. *)
Lemma set_line_reads {st : Slabs.settings_t} {hash : bytes → Z} {largest : Z} {sz : Z → Z} {Holds : Slabs.arena → gmap Z Z → Prop}
  `{HA : !ChunkAllocator st largest sz Holds} (Hl : largest < LARGEST_ID) (g : globals) (s : sys) R x c line key flags len :
  idle c → noreply c = false → buffer_ok c → inside (hash := hash) (sz := sz) (Holds := Holds) R x → (∀ y, R y + 3 < 2 ^ 16) → may_allocate st s R x →
  Slabs.slab_automove st ≠ 2 → set_line line key flags len →
  ∃ c1 x1, process_command st hash g s line c x = Ret c1 x1 ∧ (refused (len + 2) c1 ∨ ∃ i,
    reads_value (hash := hash) (sz := sz) (Holds := Holds) R x1 c1 i ∧ cmd c1 = Some NREAD_SET ∧ noreply c1 = false ∧ ritem c1 = 0 ∧ rlbytes c1 = len + 2 ∧
    unparsed c1 = unparsed c ∧ ITEM_key i = key ∧ ITEM_suffix i = item_suffix (i32 flags) (len + 2) ∧ exptime i = 0 ∧ oldest_live x1 = oldest_live x ∧
    ∀ y, being_moved (the_pool x1) y = being_moved (the_pool x) y).
Proof.
  intros Hi Hn Hb Hin Hfew Hmay Hauto Hline.
  destruct (set_line_ok Hl g s R x c line key flags len Hi Hn Hin Hfew Hmay Hline) as (c1 & it & x1 & c' & x' & Hat & Hbuf & Ha & Hin1 & Hr & Hd & Hres).
  exists c', x'. split; [done|]. destruct (Z.eqb_spec it 0) as [|Hit].
  { left. eapply refuse_refused; [|exact Hres]. apply Hat. }
  destruct Hres as (i & [-> (_ & HR & Hi1) (Hk & Hlen & Hx & Hsf & Hu)] & Hcas). right. exists i.
  destruct (alloc_quiet Hl s Hauto R x line key flags len it x1 Hin Hmay Hline Ha) as [Hlive Hmv].
  assert (oldest_live x' = oldest_live x1 ∧ ∀ y, being_moved (the_pool x') y = being_moved (the_pool x1) y) as [Hlive' Hmv'].
  { unfold on_item, on_heap in Hcas. destruct (upd_item _ _ _); [|done]. by injection Hcas as <-. }
  destruct Hd as [D1 D2 D3 _ _ _]. split.
  { split; [|done|by eapply same_buffer_ok| |done].
    - destruct (reading_fine x' R c1 NREAD_SET it i (ac_idle _ Hat) Hit HR Hi1 Hu) as [Hf _]; [rewrite Hlen; destruct Hline; lia|]. by rewrite Hlen in Hf.
    - rewrite app_nil_l in D1. exact D1. }
  do 4 (split; [done || apply Hat|]). destruct D3 as (E1 & E2 & E3). split; [unfold unparsed; congruence|].
  do 3 (split; [done|]). split; [congruence|]. intros y. by rewrite Hmv', Hmv.
Qed.


(** ** The server *)


(** ** Examples

    With the memory and the states of the examples of [ItemsTheorems] and [StoreTheorems];
    all values of the statistics are empty. *)

Definition small_globals : globals := mkGlobals 0 false (str "1.4.15") (λ _, None).
Definition a_client : conn := conn_new conn_new_cmd DATA_BUFFER_SIZE [] 0 0.
Lemma client_idle : idle a_client.
Proof. by split. Qed.

(** A counter is set on an empty cache, its value comes in three pieces, the next command
    behind it; the next client is sent the value. *)
Definition set_text : bytes := str "set k 0 0 1".
Lemma set_text_line : set_line set_text [107] 0 (zlen [53]).
Proof. split; [exists (str "0"), (str "1"); split_and!; reflexivity|discriminate|split; [discriminate|reflexivity]]. Qed.
Lemma set_text_taken :
  match process_command SlabsSafety.small_settings small_hash small_globals small_sys set_text a_client at_start with Ret c _ => state c | _ => conn_closing end = conn_nread.
Proof. vm_compute. reflexivity. Qed.
Lemma start_quiet : oldest_live at_start = 0 ∧ Slabs.slab_rebalance_signal (the_pool at_start) = 0.
Proof. vm_compute. split; reflexivity. Qed.
Lemma start_may_allocate : may_allocate SlabsSafety.small_settings small_sys (λ _, 0) at_start.
Proof. split; [split; [done|lia]|apply start_system_ok]. Qed.
Lemma client_buffer : buffer_ok a_client.
Proof. split; vm_compute; congruence. Qed.


Lemma linked_reply : replies (hash := small_hash) true linked [[107]; [108]] ++ str "END" ++ CRLF =
  str "VALUE k 0 0 1" ++ CRLF ++ [0; 0] ++ str "END" ++ CRLF.
Proof. vm_compute. reflexivity. Qed.


(** The key, the suffix and the value of an item, however [sendmsg] takes them. *)
Definition counter_pieces : list (source * Z * Z) := [(Text (str "VALUE "), 0, 6); (KeyOf 4960, 0, 1); (SuffixOf 4960, 0, 9)].
Lemma counter_readable : Forall (readable counter_at_rest) (map iovec_of counter_pieces) ∧
  pieces_bytes (memory counter_at_rest) (map iovec_of counter_pieces) = str "VALUE k 0 1" ++ CRLF ++ str "5" ++ CRLF.
Proof.
  assert (match heap_of counter_at_rest !! 4960 with Some i => (zlen (ITEM_key i) =? 1) && (zlen (ITEM_suffix i ++ ITEM_data i) =? 9) | None => false end = true) as Hi
    by (vm_compute; reflexivity).
  split; [|vm_compute; reflexivity]. unfold counter_pieces, readable, in_bounds.
  destruct (heap_of counter_at_rest !! 4960) as [i|] eqn:He; [|discriminate Hi]. apply andb_true_iff in Hi as [H1%Z.eqb_eq H2%Z.eqb_eq].
  repeat apply Forall_cons_2; [..|apply Forall_nil_2]; unfold readable, in_bounds; cbn [iovec_of iov_base iov_off iov_len memory present]; rewrite ?He, ?H1, ?H2;
    (split; [split; [|split]; [lia|lia|]|]); try lia; try (by exists i); try exact I. change (0 + 6 ≤ 6). lia.
Qed.

Example output_exact_witness : ∃ c1 c2 out r,
  add_iovs counter_pieces (snd (add_msghdr (set_iovused 0 (set_msglist [] (set_msgcurr 0 a_client))))) counter_at_rest = Ret (true, c1) counter_at_rest ∧
  transmit_all [(Sent 7, true); (Sent 100, true); (Sent 1, true)] c1 counter_at_rest = Ret (c2, out, r) counter_at_rest ∧
  str "VALUE k 0 1" ++ CRLF ++ str "5" ++ CRLF = out ++ pending counter_at_rest c2.
Proof.
  destruct counter_readable as [Hr Hb].
  destruct (output_exact counter_at_rest a_client counter_pieces [(Sent 7, true); (Sent 100, true); (Sent 1, true)] eq_refl Hr) as (c1 & c2 & out & r & H1 & H2 & H3 & _).
  exists c1, c2, out, r. split; [exact H1|]. split; [exact H2|]. rewrite <- Hb. exact H3.
Defined.

(** A client connects, asks for the counter and is sent its value. *)
Definition the_io (answers : list read_answer) : io := mkIo answers (Sent 100) true.
Definition a_turn (answers : list read_answer) : event := Turn 7 later_sys (the_io answers) 20.
Definition a_visit : list event :=
  [Accept 7; a_turn []; a_turn []; a_turn [ReadData (str "get k" ++ CRLF)]; a_turn []; a_turn []; a_turn []].
Abbreviation visit_step := (worker_step SlabsSafety.small_settings small_hash small_globals).
Definition after_step (ev : event) (w : worker) : worker := default w (visit_step ev w).
Definition waiting_worker : worker := mkWorker counter_at_rest ∅.
Definition accepted : worker := after_step (Accept 7) waiting_worker.
Definition first_turn : worker := after_step (a_turn []) accepted.
Definition second_turn : worker := after_step (a_turn []) first_turn.
Definition has_read : worker := after_step (a_turn [ReadData (str "get k" ++ CRLF)]) second_turn.
Definition has_parsed : worker := after_step (a_turn []) has_read.
Definition has_sent : worker := after_step (a_turn []) has_parsed.
Definition has_released : worker := after_step (a_turn []) has_sent.

Definition state_at (w : worker) (sfd : Z) : option conn_states := state <$> w_conns w !! sfd.

(** Most turns need nothing. *)
Lemma turn_allowed w sfd s e nreqs q : state_at w sfd = Some q → q ≠ conn_parse_cmd → q ≠ conn_nread →
  event_ok SlabsSafety.small_settings small_hash (Turn sfd s e nreqs) w.
Proof.
  unfold state_at. destruct (w_conns w !! sfd) as [c|] eqn:Hc; [|done]. cbn. intros [= Hst] H1 H2. exists c. split; [done|].
  split; [split; congruence|congruence].
Qed.

Lemma step_runs ev w : match visit_step ev w with Some _ => true | None => false end = true → visit_step ev w = Some (after_step ev w).
Proof. unfold after_step. by destruct (visit_step ev w). Qed.
Lemma visit_states :
  state_at accepted 7 = Some conn_new_cmd ∧ state_at first_turn 7 = Some conn_waiting ∧ state_at second_turn 7 = Some conn_read ∧
  state_at has_read 7 = Some conn_parse_cmd ∧ state_at has_parsed 7 = Some conn_mwrite ∧ state_at has_sent 7 = Some conn_mwrite.
Proof. vm_compute. split_and!; reflexivity. Qed.
Lemma visit_line :
  (next_line <$> w_conns has_read !! 7) = Some (Some (str "get k")) ∧ delete 7 (w_conns has_read) = ∅ ∧
  few_pages (w_cache has_read) = true ∧ found_prompt (w_cache has_read) (str "get") = true ∧ found_prompt (w_cache has_read) [107] = true.
Proof. vm_compute. split_and!; reflexivity. Qed.

Lemma unused_may_allocate R c : few_pages c = true → (∀ y, R y = 0) → may_allocate SlabsSafety.small_settings later_sys R c.
Proof.
  intros Hp HR. split; [split; [intros y; by rewrite HR|intros y it _ Hy; rewrite HR in Hy; lia]|].
  intros id. split; [by intros _ ?|]. intros p Hpid. unfold few_pages in Hp. rewrite forallb_forall in Hp. unfold zlookup in Hpid.
  destruct (0 <=? id); [|done]. by apply list_elem_of_lookup_2, list_elem_of_In, Hp, Z.ltb_lt in Hpid.
Qed.

Lemma parse_allowed : event_ok SlabsSafety.small_settings small_hash (a_turn []) has_read.
Proof.
  destruct visit_line as (Hl & Hd & Hp & H1 & H2). pose proof visit_states as (_ & _ & _ & Hst & _). unfold state_at in Hst. unfold a_turn. cbn [event_ok].
  destruct (w_conns has_read !! 7) as [c|]; [|done]. injection Hl as Hl. injection Hst as Hst. exists c. split; [done|]. rewrite Hd, Hst, Hl.
  assert (words (str "get k") = [str "get"; [107]]) as Hw by reflexivity.
  split; [|intros _ line [= <-]; reflexivity]. split; rewrite ?Hl, ?Hst; [|intros _ He; discriminate He|intros He; discriminate He..]. intros _ line [= <-]. split; rewrite ?Hw.
  - intros y. reflexivity.
  - by apply unused_may_allocate.
  - intros key. rewrite !elem_of_cons. intros [->|[->|Hn%elem_of_nil]]; [exact (found_prompt_used _ _ H1)|exact (found_prompt_used _ _ H2)|destruct Hn].
Qed.

Lemma events_ok_step evs ev w w' : event_ok SlabsSafety.small_settings small_hash ev w → visit_step ev w = Some w' →
  events_ok SlabsSafety.small_settings small_hash small_globals evs w' → events_ok SlabsSafety.small_settings small_hash small_globals (ev :: evs) w.
Proof. intros Hev Hs Hevs. split; [done|]. by rewrite Hs. Qed.

Lemma visit_ok : events_ok SlabsSafety.small_settings small_hash small_globals a_visit waiting_worker.
Proof.
  destruct visit_states as (S1 & S2 & S3 & _ & S5 & S6).
  apply (events_ok_step _ _ _ accepted); [reflexivity|apply step_runs; vm_compute; reflexivity|].
  apply (events_ok_step _ _ _ first_turn); [eapply turn_allowed; [exact S1|done|done]|apply step_runs; vm_compute; reflexivity|].
  apply (events_ok_step _ _ _ second_turn); [eapply turn_allowed; [exact S2|done|done]|apply step_runs; vm_compute; reflexivity|].
  apply (events_ok_step _ _ _ has_read); [eapply turn_allowed; [exact S3|done|done]|apply step_runs; vm_compute; reflexivity|].
  apply (events_ok_step _ _ _ has_parsed); [exact parse_allowed|apply step_runs; vm_compute; reflexivity|].
  apply (events_ok_step _ _ _ has_sent); [eapply turn_allowed; [exact S5|done|done]|apply step_runs; vm_compute; reflexivity|].
  by apply (events_ok_step _ _ _ has_released); [eapply turn_allowed; [exact S6|done|done]|apply step_runs; vm_compute; reflexivity|].
Qed.

Lemma rest_runs : exec SlabsSafety.small_settings small_hash small_calloc later_sys (Remove 4960) counter_stored = Ret 0 counter_at_rest.
Proof. vm_compute. reflexivity. Qed.
Lemma rest_reachable : ∃ R, reachable SlabsSafety.small_settings small_hash small_calloc counter_at_rest R ∧ ∀ y, R y = 0.
Proof.
  exists (refs_after (Remove 4960) 0 one_reference). split.
  - destruct counter_runs as (_ & _ & H3). apply example_reachable. eapply rtc_r; [eapply rtc_r; [exact written_steps|]|].
    + exact (example_step_intro later_sys (StoreItem 4960 NREAD_SET 0) 0 _ _ one_reference one_reference (conj one_reference_few store_allowed) H3 eq_refl).
    + refine (example_step_intro later_sys (Remove 4960) 0 _ _ one_reference _ (conj one_reference_few _) rest_runs eq_refl). by rewrite one_reference_at.
  - intros y. unfold refs_after. rewrite one_reference_at. destruct (decide (y = 4960)) as [->|]; [by rewrite fn_lookup_insert|].
    rewrite fn_lookup_insert_ne by done. unfold one_reference. by rewrite fn_lookup_insert_ne.
Qed.


End ProtocolTheorems.
