(* ===== verification/Sessions.v ===== *)
(** * Sessions with memcached

    Lines of the text protocol that are run on the cache of the examples, and what they
    show: the way of a value through [set] and [gets], and the places where the commands of
    [memcached-1.4.15/memcached.c] do not do what they mean to. *)

From S2P Require Import Prelude Bytes CStrings ItemHeap Assoc Slabs SlabsSafety Items Store ItemsRequests ItemsTheorems StoreTheorems Tokens Connection Commands Machine Output ConnInv LineOps ProtocolTheorems.
From stdpp Require Import base gmap list.
From Stdlib Require Import ZArith Lia String.

Local Open Scope string_scope.
Local Open Scope Z_scope.

Module Sessions.
Import ItemHeap Items Store ItemsRequests ItemsTheorems StoreTheorems Tokens Connection Commands Machine Output ConnInv LineOps ProtocolTheorems.

(** ** Running a connection *)

(** Turns until the connection waits, the system being willing: what is sent. *)
Fixpoint drive (fuel : nat) (s : sys) (input : bytes) (nreqs : Z) (c : conn) : IM (conn * bytes) :=
  match fuel with
  | O => mret (c, [])
  | S fuel' =>
      let* '(nreqs, (v, c, out)) := drive_step SlabsSafety.small_settings small_hash small_globals s (mkIo [ReadData input] (Sent 1000) true) nreqs c in
      match v with
      | Continue => let* '(c, out') := drive fuel' s input nreqs c in mret (c, (out ++ out')%list)
      | _ => mret (c, out)
      end
  end.
(** A client that is waiting sends [input]. *)
Definition waiting_client : conn := set_state conn_read a_client.
Definition session (s : sys) (input : bytes) (x : cache) : option (bytes * conn * cache) :=
  match drive 60 s input 20 waiting_client x with Ret (c, out) x' => Some (out, c, x') | _ => None end.
Definition sent (r : option (bytes * conn * cache)) : option bytes := (λ '(out, _, _), out) <$> r.

Definition lines (l : list string) : bytes := (List.concat (map (λ t, str t ++ CRLF) l))%list.

(** A value is set and asked for, with the number of its change. *)
Example set_and_gets :
  sent (session small_sys (lines ["set k 5 0 3"; "abc"; "gets k l"]) at_start) = Some (lines ["STORED"; "VALUE k 5 3 1"; "abc"; "END"]).
Proof. vm_compute. reflexivity. Qed.

(** ** What goes wrong *)

(** A key that is too long behind one that has been found: the references to the items that
    have been found are not given up, since [ileft] has not been set yet. *)
Definition too_long : bytes := (str "get k " ++ replicate 251 120 ++ CRLF)%list.
Example long_key_leaks :
  match session later_sys too_long counter_at_rest with
  | Some (out, c, x) => out = lines ["CLIENT_ERROR bad command line format"] ∧ held c = [] ∧ option_map refcount (heap_of x !! 4960) = Some 2
  | None => False
  end ∧ option_map refcount (heap_of counter_at_rest !! 4960) = Some 1.
Proof. vm_compute. split_and!; reflexivity. Qed.

(** A value that is refused is skipped - but not after [noreply]: [out_string] has already
    changed the state, so that the value is executed as a command. *)
Example refused_value_is_skipped :
  sent (session small_sys (lines ["set k 0 0 2000000"; "version"]) at_start) = Some (lines ["SERVER_ERROR object too large for cache"]).
Proof. vm_compute. reflexivity. Qed.
Example refused_value_is_executed :
  sent (session small_sys (lines ["set k 0 0 2000000 noreply"; "version"]) at_start) = Some (lines ["VERSION 1.4.15"]).
Proof. vm_compute. reflexivity. Qed.

(** Flags of more than 31 bits come back negative. *)
Example flags_change :
  sent (session small_sys (lines ["set k 4294967295 0 1"; "a"; "get k"]) at_start) = Some (lines ["STORED"; "VALUE k -1 1"; "a"; "END"]).
Proof. vm_compute. reflexivity. Qed.

(** A negative time: [set] takes it for a time in the past, [touch] in the first seconds of
    the server for one in the far future. *)
Example touch_makes_immortal :
  realtime 0 100 (-200) = 2 ^ 32 - 100 ∧
  match session later_sys (lines ["touch k -200"]) counter_at_rest with
  | Some (out, _, x) => out = lines ["TOUCHED"] ∧ option_map exptime (heap_of x !! 4960) = Some (2 ^ 32 - 100)
  | None => False
  end.
Proof. vm_compute. split_and!; reflexivity. Qed.

End Sessions.
