(* ===== verification/ThreadManager.v ===== *)
(** * The thread manager of thrift

    [concurrency/ThreadManager.cpp]: a queue of tasks and a pool of worker threads
    that run them, with [Monitor]s on which idle workers, callers of [add] and callers
    of [addWorker] and [removeWorker] sleep.

    The manager's fields are shared; [mutex_] protects them and is the mutex of both
    [monitor_] and [maxMonitor_], so that a critical section is one step of the model.
    [workerMonitor_] has a mutex of its own.  A step belongs to one thread: the
    program counters below name the points between the critical sections.  Which
    sleeping thread a [notify] wakes is not determined, so it is part of the label of
    a step; sleeping threads may also wake up by themselves.  The counters are
    [size_t]: that they are never decremented at zero is one of the theorems. *)

From S2P Require Import Prelude.
From stdpp Require Import base list.
From Stdlib Require Import ZArith Lia.

Local Open Scope Z_scope.

Module ThreadPool.

(** ** Data *)

Inductive STATE := UNINITIALIZED | STARTING | STARTED | JOINING | STOPPING | STOPPED.
#[export] Instance STATE_eq_dec : EqDecision STATE.
Proof. solve_decision. Defined.

(** [ThreadManager::Task]; a runnable is known by a number. *)
Inductive task_state := WAITING | EXECUTING | CANCELLED | COMPLETE.
Record Task := mkTask { runnable_ : Z; task_state_ : task_state; expireTime_ : Z }.

(** [Task::Task]. *)
Definition new_task (now runnable expiration : Z) : Task :=
  mkTask runnable WAITING (if negb (expiration =? 0) then now + expiration else 0).

(** How a task leaves the queue. *)
Inductive fate := Dispatched | Expired | Removed.

(** The fields of [ThreadManager::Impl].  [added_] and [left_] are the history: what
    was put into the queue and what left it, in order; [expired_] is what the
    expiration callback was called with, [completed_] the tasks whose [run] ended. *)
Record Impl := mkImpl {
  workerCount_ : Z;
  workerMaxCount_ : Z;
  idleCount_ : Z;
  pendingTaskCountMax_ : Z;
  expiredCount_ : Z;
  expireCallback_ : bool;
  state_ : STATE;
  threadFactory_ : bool;
  tasks_ : list Task;
  added_ : list Z;
  left_ : list (Z * fate);
  expired_ : list Z;
  completed_ : list Z
}.

Definition new_impl : Impl := mkImpl 0 0 0 0 0 false UNINITIALIZED false [] [] [] [] [].

(** Where a worker is in [Worker::run]. *)
Inductive wpc :=
| WEntry                       (* before the first critical section *)
| WTell                        (* about to notify [workerMonitor_] *)
| WLoop                        (* at the head of [while (active)] *)
| WWait                        (* asleep in [monitor_.wait()] *)
| WWoken                       (* about to return from [monitor_.wait()] *)
| WRun (task : Task)           (* outside the mutex, with a task *)
| WLeave (notifyManager : bool) (* behind the loop *)
| WExited.

(** What a caller that waits for [workerCount_ == workerMaxCount_] does next. *)
Inductive waiting := ForAdd | ForRemove | ForStop.

Inductive call_result :=
| ROk
| RTask (runnable : option Z)
| RTimedOut
| RIllegalState
| RTooManyPendingTasks
| RInvalidArgument.

(** Where a thread is that calls the manager. *)
Inductive cpc :=
| CIdle
| CAddSleep (value timeout expiration : Z)  (* asleep in [maxMonitor_.wait(timeout)] *)
| CAddWoken (value timeout expiration : Z)
| CStopRead                                 (* [stopImpl] before [removeWorker(workerCount_)] *)
| CRemove (value : Z) (k : waiting)         (* at the entry of [removeWorker] *)
| CCheck (k : waiting)                      (* about to test the condition under [workerMonitor_] *)
| CSleep (k : waiting)                      (* asleep in [workerMonitor_.wait()] *)
| CStopLast                                 (* [stopImpl] before its last critical section *)
| CDone (r : call_result).

(** The pool: the manager, its worker threads, the threads that call it, and the
    time. *)
Record pool := mkPool {
  impl : Impl;
  workers : list wpc;
  callers : list cpc;
  deadWorkers_ : list nat;
  workers_ : list nat;
  now_ : Z
}.

(** *** Updates *)

Definition set_counts (wc wm ic : Z) (m : Impl) : Impl :=
  mkImpl wc wm ic (pendingTaskCountMax_ m) (expiredCount_ m) (expireCallback_ m) (state_ m)
    (threadFactory_ m) (tasks_ m) (added_ m) (left_ m) (expired_ m) (completed_ m).
Definition set_state (st : STATE) (m : Impl) : Impl :=
  mkImpl (workerCount_ m) (workerMaxCount_ m) (idleCount_ m) (pendingTaskCountMax_ m)
    (expiredCount_ m) (expireCallback_ m) st (threadFactory_ m) (tasks_ m) (added_ m)
    (left_ m) (expired_ m) (completed_ m).
Definition set_config (pmax : Z) (cb factory : bool) (m : Impl) : Impl :=
  mkImpl (workerCount_ m) (workerMaxCount_ m) (idleCount_ m) pmax (expiredCount_ m) cb (state_ m)
    factory (tasks_ m) (added_ m) (left_ m) (expired_ m) (completed_ m).
Definition push (t : Task) (m : Impl) : Impl :=
  mkImpl (workerCount_ m) (workerMaxCount_ m) (idleCount_ m) (pendingTaskCountMax_ m)
    (expiredCount_ m) (expireCallback_ m) (state_ m) (threadFactory_ m) (tasks_ m ++ [t])
    (added_ m ++ [runnable_ t]) (left_ m) (expired_ m) (completed_ m).
(** [tasks_.pop()], with the rest of the queue given. *)
Definition pop (t : Task) (rest : list Task) (f : fate) (m : Impl) : Impl :=
  mkImpl (workerCount_ m) (workerMaxCount_ m) (idleCount_ m) (pendingTaskCountMax_ m)
    (expiredCount_ m) (expireCallback_ m) (state_ m) (threadFactory_ m) rest
    (added_ m) (left_ m ++ [(runnable_ t, f)]) (expired_ m) (completed_ m).
Definition count_expired (n : Z) (calls : list Z) (m : Impl) : Impl :=
  mkImpl (workerCount_ m) (workerMaxCount_ m) (idleCount_ m) (pendingTaskCountMax_ m) n
    (expireCallback_ m) (state_ m) (threadFactory_ m) (tasks_ m) (added_ m) (left_ m) calls
    (completed_ m).
Definition complete (t : Task) (m : Impl) : Impl :=
  mkImpl (workerCount_ m) (workerMaxCount_ m) (idleCount_ m) (pendingTaskCountMax_ m)
    (expiredCount_ m) (expireCallback_ m) (state_ m) (threadFactory_ m) (tasks_ m) (added_ m)
    (left_ m) (expired_ m) (completed_ m ++ [runnable_ t]).

Definition set_impl (m : Impl) (s : pool) : pool :=
  mkPool m (workers s) (callers s) (deadWorkers_ s) (workers_ s) (now_ s).
Definition set_workers (ws : list wpc) (s : pool) : pool :=
  mkPool (impl s) ws (callers s) (deadWorkers_ s) (workers_ s) (now_ s).
Definition set_callers (cs : list cpc) (s : pool) : pool :=
  mkPool (impl s) (workers s) cs (deadWorkers_ s) (workers_ s) (now_ s).
Definition set_threads (dead alive : list nat) (s : pool) : pool :=
  mkPool (impl s) (workers s) (callers s) dead alive (now_ s).
Definition set_now (t : Z) (s : pool) : pool :=
  mkPool (impl s) (workers s) (callers s) (deadWorkers_ s) (workers_ s) t.

(** ** Queries *)

Definition idleWorkerCount (m : Impl) : Z := idleCount_ m.
Definition pendingTaskCount (m : Impl) : Z := zlen (tasks_ m).
Definition totalTaskCount (m : Impl) : Z := zlen (tasks_ m) + workerCount_ m - idleCount_ m.
Definition expiredTaskCount (m : Impl) : Z * Impl := (expiredCount_ m, count_expired 0 (expired_ m) m).

(** [Worker::isActive]. *)
Definition isActive (m : Impl) : bool :=
  (workerCount_ m <=? workerMaxCount_ m) ||
  (bool_decide (state_ m = JOINING) && negb (bool_decide (tasks_ m = []))).

(** ** Expired tasks *)

(** The loop of [removeExpiredTasks] over the queue, which stops at the first task that
    does not expire or is not due. *)
Fixpoint remove_expired (now : Z) (q : list Task) (m : Impl) : Impl :=
  match q with
  | [] => m
  | t :: q' =>
      if expireTime_ t =? 0 then m
      else if now <? expireTime_ t then m
      else
        let calls := if expireCallback_ m then expired_ m ++ [runnable_ t] else expired_ m in
        remove_expired now q' (count_expired (expiredCount_ m + 1) calls (pop t q' Expired m))
  end.
Definition removeExpiredTasks (now : Z) (m : Impl) : Impl := remove_expired now (tasks_ m) m.

(** ** Condition variables

    [pthread_cond_signal] wakes one of the threads that wait, if there are any.
    [choice] says which; a choice is legal when it names a waiting thread or there is
    none. *)

Definition is_waiting (w : wpc) : bool := match w with WWait => true | _ => false end.

Definition notify (choice : nat) (ws : list wpc) : option (list wpc) :=
  if forallb (negb ∘ is_waiting) ws then Some ws
  else match ws !! choice with
       | Some WWait => Some (<[choice := WWoken]> ws)
       | _ => None
       end.
Definition notifyAll (ws : list wpc) : list wpc := (λ w, if is_waiting w then WWoken else w) <$> ws.

(** [notify] as often as there are choices. *)
Fixpoint notify_times (choices : list nat) (ws : list wpc) : option (list wpc) :=
  match choices with
  | [] => Some ws
  | c :: cs => notify c ws ≫= notify_times cs
  end.

(** The callers that sleep on [maxMonitor_] and on [workerMonitor_]. *)
Definition wake_add (c : cpc) : option cpc :=
  match c with CAddSleep v t e => Some (CAddWoken v t e) | _ => None end.
Definition wake_check (c : cpc) : option cpc :=
  match c with CSleep k => Some (CCheck k) | _ => None end.

Definition notify_caller (wake : cpc → option cpc) (choice : nat) (cs : list cpc) : option (list cpc) :=
  if forallb (λ c, match wake c with Some _ => false | None => true end) cs then Some cs
  else c ← cs !! choice; c' ← wake c; Some (<[choice := c']> cs).

(** ** The steps of a worker *)

Definition set_worker (i : nat) (w : wpc) (s : pool) : pool := set_workers (<[i := w]> (workers s)) s.
Definition set_caller (c : nat) (p : cpc) (s : pool) : pool := set_callers (<[c := p]> (callers s)) s.

(** The first critical section of [Worker::run]. *)
Definition worker_entry (m : Impl) : Impl * wpc :=
  if workerCount_ m <? workerMaxCount_ m then
    let m' := set_counts (workerCount_ m + 1) (workerMaxCount_ m) (idleCount_ m) m in
    (m', if workerCount_ m' =? workerMaxCount_ m' then WTell else WLoop)
  else (m, WLeave false).

(** The critical section of the loop, from the test of the inner [while] on.  The third
    component says whether [maxMonitor_] is notified. *)
Definition worker_section (now : Z) (m : Impl) : Impl * wpc * bool :=
  if isActive m then
    match tasks_ m with
    | [] => (set_counts (workerCount_ m) (workerMaxCount_ m) (idleCount_ m + 1) m, WWait, false)
    | _ :: _ =>
        let m := removeExpiredTasks now m in
        match tasks_ m with
        | [] => (m, WLoop, false)
        | t :: q =>
            let m := pop t q Dispatched m in
            let t := mkTask (runnable_ t) EXECUTING (expireTime_ t) in
            (m, WRun t, negb (pendingTaskCountMax_ m =? 0) && (zlen q <=? pendingTaskCountMax_ m - 1))
        end
    end
  else
    let m := set_counts (workerCount_ m - 1) (workerMaxCount_ m) (idleCount_ m) m in
    (m, WLeave (workerCount_ m =? workerMaxCount_ m), false).

(** Worker [i] enters the section; [wake] is who gets the notification. *)
Definition run_section (i wake : nat) (m : Impl) (s : pool) : option pool :=
  let '(m, pc, tell) := worker_section (now_ s) m in
  cs ← (if tell then notify_caller wake_add wake (callers s) else Some (callers s));
  Some (set_worker i pc (set_callers cs (set_impl m s))).

(** The next step of worker [i], if it is not asleep. *)
Definition worker_step (i wake : nat) (s : pool) : option pool :=
  match workers s !! i with
  | Some WEntry =>
      let (m, pc) := worker_entry (impl s) in Some (set_worker i pc (set_impl m s))
  | Some WTell =>
      cs ← notify_caller wake_check wake (callers s); Some (set_worker i WLoop (set_callers cs s))
  | Some WLoop => run_section i wake (impl s) s
  | Some WWoken =>
      let m := impl s in
      run_section i wake (set_counts (workerCount_ m) (workerMaxCount_ m) (idleCount_ m - 1) m) s
  | Some (WRun t) => Some (set_worker i WLoop (set_impl (complete t (impl s)) s))
  | Some (WLeave tell) =>
      cs ← (if tell then notify_caller wake_check wake (callers s) else Some (callers s));
      Some (set_worker i WExited (set_callers cs (set_threads (i :: deadWorkers_ s) (workers_ s) s)))
  | _ => None
  end.

(** ** The calls *)

Definition finish (c : nat) (r : call_result) (s : pool) : pool := set_caller c (CDone r) s.

(** The end of [add]: the task is queued and an idle worker is notified. *)
Definition enqueue (c : nat) (value expiration : Z) (wake : nat) (s : pool) : option pool :=
  let m := push (new_task (now_ s) value expiration) (impl s) in
  ws ← (if 0 <? idleCount_ m then notify wake (workers s) else Some (workers s));
  Some (finish c ROk (set_workers ws (set_impl m s))).

Definition queue_full (m : Impl) : bool :=
  (0 <? pendingTaskCountMax_ m) && (pendingTaskCountMax_ m <=? zlen (tasks_ m)).

(** [add], by a thread that has acquired the mutex; [canSleep] is false for a worker. *)
Definition add (c : nat) (value timeout expiration : Z) (canSleep : bool) (wake : nat) (s : pool) :
    option pool :=
  if negb (bool_decide (state_ (impl s) = STARTED)) then Some (finish c RIllegalState s) else
  let s := set_impl (removeExpiredTasks (now_ s) (impl s)) s in
  if queue_full (impl s) then
    if canSleep && (0 <=? timeout) then Some (set_caller c (CAddSleep value timeout expiration) s)
    else Some (finish c RTooManyPendingTasks s)
  else enqueue c value expiration wake s.

(** [add] after [maxMonitor_.wait(timeout)] returned. *)
Definition add_resume (c : nat) (value timeout expiration : Z) (wake : nat) (s : pool) : option pool :=
  if queue_full (impl s) then Some (set_caller c (CAddSleep value timeout expiration) s)
  else enqueue c value expiration wake s.

(** [removeNextPending]. *)
Definition removeNextPending (m : Impl) : call_result * Impl :=
  if negb (bool_decide (state_ m = STARTED)) then (RIllegalState, m) else
  match tasks_ m with
  | [] => (RTask None, m)
  | t :: q => (RTask (Some (runnable_ t)), pop t q Removed m)
  end.

(** [remove], which checks the state and does nothing. *)
Definition remove (m : Impl) : call_result :=
  if negb (bool_decide (state_ m = STARTED)) then RIllegalState else ROk.

(** [start]; no code sets the state [STARTING], for which it would wait. *)
Definition start (c : nat) (s : pool) : pool :=
  match state_ (impl s) with
  | UNINITIALIZED =>
      if threadFactory_ (impl s)
      then finish c ROk (set_workers (notifyAll (workers s)) (set_impl (set_state STARTED (impl s)) s))
      else finish c RInvalidArgument s
  | _ => finish c ROk s
  end.

(** [addWorker] up to the wait for the workers: the threads are created, counted and
    started. *)
Definition addWorker (c : nat) (value : nat) (s : pool) : pool :=
  let m := impl s in
  let fresh := seq (length (workers s)) value in
  set_caller c (CCheck ForAdd)
    (set_threads (deadWorkers_ s) (workers_ s ++ fresh)
       (set_workers (workers s ++ replicate value WEntry)
          (set_impl (set_counts (workerCount_ m) (workerMaxCount_ m + Z.of_nat value) (idleCount_ m) m) s))).

(** The first critical section of [removeWorker]; [wakes] are the choices of the
    notifications. *)
Definition removeWorker (c : nat) (value : Z) (k : waiting) (wakes : list nat) (s : pool) : option pool :=
  let m := impl s in
  if workerMaxCount_ m <? value then Some (finish c RInvalidArgument s) else
  ws ← (if idleCount_ m <? value
        then if bool_decide (Z.of_nat (length wakes) = idleCount_ m)
             then notify_times wakes (workers s) else None
        else Some (notifyAll (workers s)));
  Some (set_caller c (CCheck k)
          (set_workers ws
             (set_impl (set_counts (workerCount_ m) (workerMaxCount_ m - value) (idleCount_ m) m) s))).

(** The loop of [addWorker] and [removeWorker] around [workerMonitor_.wait()], and what
    follows it. *)
Definition check_workers (c : nat) (k : waiting) (s : pool) : pool :=
  if negb (workerCount_ (impl s) =? workerMaxCount_ (impl s)) then set_caller c (CSleep k) s else
  match k with
  | ForAdd => finish c ROk s
  | ForRemove | ForStop =>
      let s' := set_threads [] (filter (λ i, i ∉ deadWorkers_ s) (workers_ s)) s in
      match k with ForStop => set_caller c CStopLast s' | _ => finish c ROk s' end
  end.

(** [stopImpl] up to the end of its first critical section. *)
Definition stopImpl (c : nat) (join : bool) (s : pool) : pool :=
  match state_ (impl s) with
  | STOPPED => finish c ROk s
  | STOPPING | JOINING => set_caller c CStopLast s
  | _ => set_caller c CStopRead (set_impl (set_state (if join then JOINING else STOPPING) (impl s)) s)
  end.

(** ** The system *)

Inductive label :=
| LWorker (i wake : nat)
| LWorkerSpurious (i : nat)
| LTime (t : Z)
| LConfig (pmax : Z) (cb factory : bool)
| LStart (c : nat)
| LAdd (c : nat) (value timeout expiration : Z) (canSleep : bool) (wake : nat)
| LAddNoLock (c : nat) (value timeout expiration : Z)
| LAddResume (c wake : nat)
| LAddTimeout (c : nat)
| LAddSpurious (c : nat)
| LRemoveNext (c : nat)
| LRemove (c : nat)
| LAddWorker (c value : nat)
| LRemoveWorker (c : nat) (value : Z)
| LRemoveSection (c : nat) (wakes : list nat)
| LCheck (c : nat)
| LCheckSpurious (c : nat)
| LStop (c : nat) (join : bool)
| LStopRead (c : nat)
| LStopLast (c : nat).

(** A thread that is not in a call may begin one. *)
Definition ready (c : nat) (s : pool) : option unit :=
  match callers s !! c with
  | Some CIdle | Some (CDone _) => Some tt
  | _ => None
  end.

Definition step (l : label) (s : pool) : option pool :=
  match l with
  | LWorker i wake => worker_step i wake s
  | LWorkerSpurious i =>
      match workers s !! i with Some WWait => Some (set_worker i WWoken s) | _ => None end
  | LTime t => if now_ s <=? t then Some (set_now t s) else None
  | LConfig pmax cb factory =>
      if 0 <=? pmax then Some (set_impl (set_config pmax cb factory (impl s)) s) else None
  | LStart c =>
      _ ← ready c s; if bool_decide (state_ (impl s) = STARTING) then None else Some (start c s)
  | LAdd c value timeout expiration canSleep wake =>
      _ ← ready c s; add c value timeout expiration canSleep wake s
  | LAddNoLock c value timeout expiration =>
      _ ← ready c s; if timeout =? 0 then None else Some (finish c RTimedOut s)
  | LAddResume c wake =>
      match callers s !! c with
      | Some (CAddWoken value timeout expiration) => add_resume c value timeout expiration wake s
      | _ => None
      end
  | LAddTimeout c =>
      match callers s !! c with
      | Some (CAddSleep _ timeout _) => if timeout =? 0 then None else Some (finish c RTimedOut s)
      | _ => None
      end
  | LAddSpurious c =>
      match callers s !! c with
      | Some (CAddSleep v t e) => Some (set_caller c (CAddWoken v t e) s)
      | _ => None
      end
  | LRemoveNext c =>
      _ ← ready c s; let (r, m) := removeNextPending (impl s) in Some (finish c r (set_impl m s))
  | LRemove c => _ ← ready c s; Some (finish c (remove (impl s)) s)
  | LAddWorker c value => _ ← ready c s; if threadFactory_ (impl s) then Some (addWorker c value s) else None
  | LRemoveWorker c value =>
      _ ← ready c s; if 0 <=? value then Some (set_caller c (CRemove value ForRemove) s) else None
  | LRemoveSection c wakes =>
      match callers s !! c with
      | Some (CRemove value k) => removeWorker c value k wakes s
      | _ => None
      end
  | LCheck c =>
      match callers s !! c with Some (CCheck k) => Some (check_workers c k s) | _ => None end
  | LCheckSpurious c =>
      match callers s !! c with Some (CSleep k) => Some (set_caller c (CCheck k) s) | _ => None end
  | LStop c join => _ ← ready c s; Some (stopImpl c join s)
  | LStopRead c =>
      match callers s !! c with
      | Some CStopRead => Some (set_caller c (CRemove (workerCount_ (impl s)) ForStop) s)
      | _ => None
      end
  | LStopLast c =>
      match callers s !! c with
      | Some CStopLast => Some (finish c ROk (set_impl (set_state STOPPED (impl s)) s))
      | _ => None
      end
  end.

(** A pool with [n] threads that may call it. *)
Definition initial (n : nat) : pool := mkPool new_impl [] (replicate n CIdle) [] [] 0.

Fixpoint run_labels (ls : list label) (s : pool) : option pool :=
  match ls with
  | [] => Some s
  | l :: ls' => step l s ≫= run_labels ls'
  end.

(** [SimpleThreadManager::start], by caller [c], as far as the wait for the workers. *)
Definition SimpleThreadManager_start (c workerCount : nat) (pendingTaskCountMax : Z) (s : pool) : option pool :=
  run_labels [LConfig pendingTaskCountMax (expireCallback_ (impl s)) (threadFactory_ (impl s));
              LStart c; LAddWorker c workerCount] s.

Inductive reachable (n : nat) : pool → Prop :=
| reach_init : reachable n (initial n)
| reach_step l s s' : reachable n s → step l s = Some s' → reachable n s'.

End ThreadPool.
