(* ===== verification/ThreadManagerTheorems.v ===== *)
(** * Correctness of the thread manager

    The counters are right and never decremented at zero; tasks leave the queue in
    the order in which they were added, each of them once; no wake-up of a worker is
    lost, so that the workers always drain the queue.  Wake-ups of callers, on the
    other hand, can be lost. *)

From S2P Require Import Prelude ThreadManager.
From stdpp Require Import base list.
From Stdlib Require Import ZArith Lia.

Local Open Scope Z_scope.

Module ThreadPoolTheorems.
Import ThreadPool.

(** ** Counting workers *)

(** Workers that [idleCount_] counts, those that [workerCount_] counts, and those that
    will look at the queue without being woken. *)
Definition is_idle (w : wpc) : bool := match w with WWait | WWoken => true | _ => false end.
Definition is_active (w : wpc) : bool :=
  match w with WTell | WLoop | WWait | WWoken | WRun _ => true | _ => false end.
Definition is_awake (w : wpc) : bool :=
  match w with WTell | WLoop | WWoken | WRun _ => true | _ => false end.

Definition b2z (b : bool) : Z := if b then 1 else 0.
Definition count (p : wpc → bool) (ws : list wpc) : Z := foldr (λ w n, b2z (p w) + n) 0 ws.

Lemma count_app p ws1 ws2 : count p (ws1 ++ ws2) = count p ws1 + count p ws2.
Proof. induction ws1 as [|w ws1 IH]; simpl; [done|]. rewrite IH. lia. Qed.

Lemma count_nonneg p ws : 0 ≤ count p ws.
Proof. induction ws as [|w ws IH]; simpl; [lia|]. unfold b2z. destruct (p w); lia. Qed.

Lemma count_insert p ws i w w' :
  ws !! i = Some w → count p (<[i := w']> ws) = count p ws - b2z (p w) + b2z (p w').
Proof.
  revert i. induction ws as [|x ws IH]; intros [|i] Hi; simplify_eq/=; [lia|]. rewrite (IH i Hi). lia.
Qed.

Lemma count_pos p ws i w : ws !! i = Some w → p w = true → 1 ≤ count p ws.
Proof.
  revert i. induction ws as [|x ws IH]; intros [|i] Hi Hp; simplify_eq/=.
  - rewrite Hp. pose proof (count_nonneg p ws). simpl. lia.
  - pose proof (IH i Hi Hp). unfold b2z. destruct (p x); lia.
Qed.

Lemma count_zero p ws : count p ws = 0 ↔ ∀ i w, ws !! i = Some w → p w = false.
Proof.
  split.
  - intros H i w Hi. destruct (p w) eqn:Hp; [|done]. pose proof (count_pos p ws i w Hi Hp). lia.
  - induction ws as [|x ws IH]; intros H; simpl; [done|]. rewrite (H 0%nat x eq_refl). simpl.
    apply IH. intros i. apply (H (S i)).
Qed.

Lemma count_le p q ws : (∀ w, p w = true → q w = true) → count p ws ≤ count q ws.
Proof.
  intros H. induction ws as [|w ws IH]; simpl; [lia|]. specialize (H w). unfold b2z.
  destruct (p w), (q w); naive_solver lia.
Qed.

Lemma count_replicate p n w : count p (replicate n w) = b2z (p w) * Z.of_nat n.
Proof. induction n as [|n IH]; simpl; [lia|]. rewrite IH. lia. Qed.

Lemma idle_waiting ws : count is_waiting ws ≤ count is_idle ws.
Proof. apply count_le. by intros []. Qed.

(** *** Notifications *)

Definition counts_kept (ws ws' : list wpc) : Prop :=
  count is_idle ws' = count is_idle ws ∧ count is_active ws' = count is_active ws ∧
  count is_awake ws ≤ count is_awake ws' ∧ length ws' = length ws.

Lemma not_waiting_count ws : forallb (negb ∘ is_waiting) ws = true ↔ count is_waiting ws = 0.
Proof.
  rewrite forallb_forall, count_zero. split.
  - intros H i w Hi. apply negb_true_iff. apply (H w). apply list_elem_of_In. by eapply list_elem_of_lookup_2.
  - intros H w [i Hi]%list_elem_of_In%list_elem_of_lookup_1. simpl. by rewrite (H i w Hi).
Qed.

Lemma notify_spec choice ws ws' :
  notify choice ws = Some ws' →
  counts_kept ws ws' ∧
  (count is_waiting ws = 0 ∧ ws' = ws ∨
   count is_waiting ws' = count is_waiting ws - 1 ∧ 1 ≤ count is_awake ws').
Proof.
  unfold notify, counts_kept. destruct (forallb _ ws) eqn:Hf.
  - intros [= <-]. apply not_waiting_count in Hf. repeat split; try lia. by left.
  - destruct (ws !! choice) as [[]|] eqn:Hc; try done. intros [= <-].
    rewrite !(count_insert _ _ _ _ _ Hc), length_insert. simpl.
    pose proof (count_nonneg is_awake ws). lia.
Qed.

Lemma notify_enabled ws : ∃ choice ws', notify choice ws = Some ws'.
Proof.
  unfold notify. destruct (forallb _ ws) eqn:Hf; [by exists 0%nat, ws|].
  assert (¬ (∀ i w, ws !! i = Some w → is_waiting w = false)) as Hn.
  { rewrite <- count_zero, <- not_waiting_count. by rewrite Hf. }
  destruct (list_find (λ w, is_waiting w = true) ws) as [[i w]|] eqn:Hl.
  - apply list_find_Some in Hl as (Hi & Hw & _). destruct w; try done. exists i. by rewrite Hi; eauto.
  - apply list_find_None in Hl. destruct Hn. intros i w Hi. rewrite Forall_lookup in Hl.
    specialize (Hl i w Hi). by destruct (is_waiting w).
Qed.

Lemma counts_kept_trans a b c : counts_kept a b → counts_kept b c → counts_kept a c.
Proof. unfold counts_kept. intros. lia. Qed.

Lemma notify_times_spec choices ws ws' :
  notify_times choices ws = Some ws' →
  counts_kept ws ws' ∧ count is_waiting ws' ≤ Z.max 0 (count is_waiting ws - Z.of_nat (length choices)).
Proof.
  revert ws. induction choices as [|c cs IH]; intros ws; cbn [notify_times].
  - intros [= <-]. split; [unfold counts_kept; lia|]. simpl. lia.
  - intros (ws1 & H1 & H2)%bind_Some. apply notify_spec in H1 as [Hk Hw].
    apply IH in H2 as [Hk' Hw']. split; [by eapply counts_kept_trans|]. cbn [length].
    pose proof (count_nonneg is_waiting ws). destruct Hw as [[? ->]|[? _]]; lia.
Qed.

Lemma notifyAll_spec ws : counts_kept ws (notifyAll ws) ∧ count is_waiting (notifyAll ws) = 0.
Proof.
  unfold counts_kept, notifyAll. induction ws as [|w ws IH]; [simpl; lia|].
  rewrite fmap_cons. cbn [count foldr length] in *. fold (count is_idle) in *.
  destruct w; cbn; unfold count in *; lia.
Qed.

(** ** The invariant *)

(** The tasks that workers hold, and those that were given to workers. *)
Definition running_of (w : wpc) : list Z := match w with WRun t => [runnable_ t] | _ => [] end.
Definition running (ws : list wpc) : list Z := ws ≫= running_of.
Definition dispatched (l : list (Z * fate)) : list Z :=
  l ≫= λ x, match x.2 with Dispatched => [x.1] | _ => [] end.

Record inv (m : Impl) (ws : list wpc) : Prop := {
  i_idle : idleCount_ m = count is_idle ws;
  i_count : workerCount_ m = count is_active ws;
  i_max : 0 ≤ workerMaxCount_ m;
  (* while workers have to leave, none of them sleeps *)
  i_over : workerMaxCount_ m < workerCount_ m → count is_waiting ws = 0;
  (* while there are tasks, a sleeping worker has a colleague who is awake *)
  i_awake : tasks_ m ≠ [] → count is_waiting ws = 0 ∨ 1 ≤ count is_awake ws;
  i_fifo : added_ m = (left_ m).*1 ++ (runnable_ <$> tasks_ m);
  i_done : Permutation (dispatched (left_ m)) (completed_ m ++ running ws)
}.

Lemma running_insert ws i w w' :
  ws !! i = Some w → Permutation (running_of w ++ running (<[i := w']> ws)) (running_of w' ++ running ws).
Proof.
  intros Hi. pose proof (lookup_lt_Some _ _ _ Hi) as Hl.
  assert (<[i := w']> ws = take i ws ++ w' :: drop (S i) ws) as -> by (by apply insert_take_drop).
  assert (running ws = running (take i ws ++ w :: drop (S i) ws)) as -> by (by rewrite take_drop_middle).
  unfold running. rewrite !bind_app, !bind_cons. solve_Permutation.
Qed.

Lemma running_insert_plain ws i w w' :
  ws !! i = Some w → running_of w = [] → running_of w' = [] →
  Permutation (running (<[i := w']> ws)) (running ws).
Proof. intros Hi Hw Hw'. pose proof (running_insert ws i w w' Hi) as H. by rewrite Hw, Hw' in H. Qed.

Lemma dispatched_snoc l x f :
  dispatched (l ++ [(x, f)]) = dispatched l ++ match f with Dispatched => [x] | _ => [] end.
Proof. unfold dispatched. rewrite bind_app, bind_cons. by destruct f. Qed.

Lemma running_notify choice ws ws' : notify choice ws = Some ws' → Permutation (running ws') (running ws).
Proof.
  unfold notify. destruct (forallb _ ws); [by intros [= <-]|].
  destruct (ws !! choice) as [[]|] eqn:Hc; try done. intros [= <-]. by eapply running_insert_plain.
Qed.
Lemma running_notify_times choices ws ws' :
  notify_times choices ws = Some ws' → Permutation (running ws') (running ws).
Proof.
  revert ws. induction choices as [|c cs IH]; intros ws; cbn [notify_times]; [by intros [= <-]|].
  intros (ws1 & H1 & H2)%bind_Some. rewrite (IH _ H2). by eapply running_notify.
Qed.
Lemma running_notifyAll ws : running (notifyAll ws) = running ws.
Proof.
  unfold running, notifyAll. induction ws as [|w ws IH]; [done|].
  rewrite fmap_cons, !bind_cons, IH. by destruct w.
Qed.

(** Waking workers keeps the invariant. *)
Lemma inv_wake m ws ws' :
  inv m ws → counts_kept ws ws' → count is_waiting ws' ≤ count is_waiting ws →
  Permutation (running ws') (running ws) → inv m ws'.
Proof.
  intros [H1 H2 H3 H4 H5 H6 H7] (K1 & K2 & K3 & _) Hw Hr. pose proof (count_nonneg is_waiting ws').
  split; [lia|lia|done|intros; lia|intros Ht; destruct (H5 Ht); lia|done|by rewrite Hr].
Qed.

Lemma inv_spurious m ws i : inv m ws → ws !! i = Some WWait → inv m (<[i := WWoken]> ws).
Proof.
  intros Hi Hw. apply (inv_wake m ws); [done|..].
  - unfold counts_kept. rewrite !(count_insert _ _ _ _ _ Hw), length_insert. simpl. lia.
  - rewrite (count_insert _ _ _ _ _ Hw). simpl. lia.
  - by eapply running_insert_plain.
Qed.

Lemma inv_notifyAll m ws : inv m ws → inv m (notifyAll ws).
Proof.
  intros Hi. destruct (notifyAll_spec ws) as [Hk Hw]. apply (inv_wake m ws); [done|done| |].
  - pose proof (count_nonneg is_waiting ws). lia.
  - by rewrite running_notifyAll.
Qed.

(** Changes of the manager that touch neither the queue nor the counters. *)
Lemma inv_state m ws st : inv m ws → inv (set_state st m) ws.
Proof. by intros []. Qed.
Lemma inv_config m ws a b c : inv m ws → inv (set_config a b c m) ws.
Proof. by intros []. Qed.

(** *** The queue *)

Lemma inv_pop m ws t q :
  inv m ws → tasks_ m = t :: q → inv (pop t q Expired m) ws ∧ inv (pop t q Removed m) ws.
Proof.
  intros [H1 H2 H3 H4 H5 H6 H7] Ht.
  split; (split; cbn; [done|done|done|done| | |]);
    [intros _; apply H5; by rewrite Ht| | |intros _; apply H5; by rewrite Ht| |];
    rewrite ?dispatched_snoc, ?app_nil_r; try done;
    rewrite H6, Ht, fmap_app; cbn; by rewrite <- app_assoc.
Qed.

Lemma inv_count_expired m ws n calls : inv m ws → inv (count_expired n calls m) ws.
Proof. by intros []. Qed.

Lemma remove_expired_inv now q m ws : inv m ws → tasks_ m = q → inv (remove_expired now q m) ws.
Proof.
  revert m. induction q as [|t q IH]; intros m Hi Hq; cbn [remove_expired]; [done|].
  destruct (expireTime_ t =? 0); [done|]. destruct (now <? expireTime_ t); [done|].
  apply IH; [|done]. apply inv_count_expired. by apply (inv_pop m ws t q).
Qed.

(** What expiring tasks does to the rest of the manager. *)
Lemma remove_expired_frame now q m :
  tasks_ m = q →
  let m' := remove_expired now q m in
  workerCount_ m' = workerCount_ m ∧ workerMaxCount_ m' = workerMaxCount_ m ∧
  idleCount_ m' = idleCount_ m ∧ state_ m' = state_ m ∧ pendingTaskCountMax_ m' = pendingTaskCountMax_ m ∧
  added_ m' = added_ m ∧ completed_ m' = completed_ m ∧ ∃ gone, q = gone ++ tasks_ m'.
Proof.
  revert m. induction q as [|t q IH]; intros m Hq; cbn [remove_expired].
  - repeat split; try done. by exists [].
  - destruct (expireTime_ t =? 0); [repeat split; try done; by exists []|].
    destruct (now <? expireTime_ t); [repeat split; try done; by exists []|].
    destruct (IH (count_expired (expiredCount_ m + 1)
      (if expireCallback_ m then expired_ m ++ [runnable_ t] else expired_ m) (pop t q Expired m)) eq_refl)
      as (-> & -> & -> & -> & -> & -> & -> & gone & Hg).
    repeat split; try done. exists (t :: gone). cbn. by rewrite <- Hg.
Qed.

Lemma inv_push m ws ws' t wake :
  inv m ws →
  (if 0 <? idleCount_ m then notify wake ws else Some ws) = Some ws' → inv (push t m) ws'.
Proof.
  intros [H1 H2 H3 H4 H5 H6 H7] Hn.
  assert (counts_kept ws ws' ∧ Permutation (running ws') (running ws) ∧
          (count is_waiting ws' = 0 ∨ 1 ≤ count is_awake ws') ∧
          count is_waiting ws' ≤ count is_waiting ws) as ((K1 & K2 & K3 & _) & Hr & Hw & Hle).
  { destruct (Z.ltb_spec 0 (idleCount_ m)).
    - pose proof (running_notify _ _ _ Hn). apply notify_spec in Hn as [Hk [[Hz ->]|[Hz Ha]]].
      + repeat split; try apply Hk; try done. by left.
      + repeat split; try apply Hk; try done; [by right|lia].
    - injection Hn as <-. repeat split; try done; try lia. left.
      pose proof (idle_waiting ws). pose proof (count_nonneg is_waiting ws). lia. }
  pose proof (count_nonneg is_waiting ws').
  split; cbn; [lia|lia|done|intros; lia|done| |by rewrite Hr].
  rewrite H6, fmap_app. by rewrite app_assoc.
Qed.

(** *** The workers *)

(** A worker that holds no task moves to a place where it holds none. *)
Lemma inv_move m ws i w w' wc wm ic :
  inv m ws → ws !! i = Some w → running_of w = [] → running_of w' = [] →
  wc = workerCount_ m - b2z (is_active w) + b2z (is_active w') → 0 ≤ wm →
  ic = idleCount_ m - b2z (is_idle w) + b2z (is_idle w') →
  (wm < wc → count is_waiting ws - b2z (is_waiting w) + b2z (is_waiting w') = 0) →
  (tasks_ m ≠ [] → count is_waiting ws - b2z (is_waiting w) + b2z (is_waiting w') = 0 ∨
     1 ≤ count is_awake ws - b2z (is_awake w) + b2z (is_awake w')) →
  inv (set_counts wc wm ic m) (<[i := w']> ws).
Proof.
  intros [H1 H2 H3 H4 H5 H6 H7] Hi Hr Hr' Hwc Hwm Hic Ho Ha.
  split; cbn; rewrite ?(count_insert _ _ _ _ _ Hi); [lia|lia|done|done|done|done|].
  by rewrite (running_insert_plain ws i w w' Hi Hr Hr').
Qed.

Lemma set_counts_id m : m = set_counts (workerCount_ m) (workerMaxCount_ m) (idleCount_ m) m.
Proof. by destruct m. Qed.

Lemma inv_worker_entry m ws i m' pc :
  inv m ws → ws !! i = Some WEntry → worker_entry m = (m', pc) → inv m' (<[i := pc]> ws).
Proof.
  intros Hi Hw. pose proof (i_awake _ _ Hi) as Ha. pose proof (i_max _ _ Hi).
  unfold worker_entry. destruct (Z.ltb_spec (workerCount_ m) (workerMaxCount_ m)); intros [= <- <-].
  - assert (∀ pc', is_active pc' = true → is_awake pc' = true → is_waiting pc' = false → is_idle pc' = false →
      running_of pc' = [] →
      inv (set_counts (workerCount_ m + 1) (workerMaxCount_ m) (idleCount_ m) m) (<[i := pc']> ws)) as Hm.
    { intros pc' E1 E2 E3 E4 E5. eapply inv_move; try done; rewrite ?E1, ?E2, ?E3, ?E4; simpl; try lia.
      pose proof (count_nonneg is_awake ws). lia. }
    destruct (_ =? _); by apply Hm.
  - rewrite (set_counts_id m).
    eapply inv_move; try done; simpl; try lia.
    + intros Ho. pose proof (i_over _ _ Hi). lia.
    + intros Ht. destruct (Ha Ht); lia.
Qed.

Lemma inv_dispatch m ws i t q :
  inv m ws → ws !! i = Some WLoop → tasks_ m = t :: q →
  inv (pop t q Dispatched m) (<[i := WRun (mkTask (runnable_ t) EXECUTING (expireTime_ t))]> ws).
Proof.
  intros [H1 H2 H3 H4 H5 H6 H7] Hi Ht.
  split; cbn; rewrite ?(count_insert _ _ _ _ _ Hi); simpl; [lia|lia|done|naive_solver lia| | |].
  - intros _. destruct H5 as [|]; [by rewrite Ht|left; lia|right; lia].
  - rewrite H6, Ht, fmap_app. cbn. by rewrite <- app_assoc.
  - rewrite dispatched_snoc, H7.
    pose proof (running_insert ws i WLoop (WRun (mkTask (runnable_ t) EXECUTING (expireTime_ t))) Hi) as Hr.
    cbn [running_of app runnable_] in Hr. rewrite Hr. solve_Permutation.
Qed.

Lemma isActive_false m : isActive m = false → workerMaxCount_ m < workerCount_ m.
Proof. unfold isActive. intros [H _]%orb_false_iff. by apply Z.leb_gt. Qed.
Lemma isActive_empty m : isActive m = true → tasks_ m = [] → workerCount_ m ≤ workerMaxCount_ m.
Proof.
  unfold isActive. intros [H|H]%orb_true_iff Ht; [by apply Z.leb_le|].
  rewrite (bool_decide_eq_true_2 (tasks_ m = [])) in H by done. by rewrite andb_false_r in H.
Qed.

Lemma inv_worker_section now m ws i m' pc tell :
  inv m ws → ws !! i = Some WLoop → worker_section now m = (m', pc, tell) → inv m' (<[i := pc]> ws).
Proof.
  intros Hi Hw. pose proof (i_max _ _ Hi). unfold worker_section. destruct (isActive m) eqn:Ha.
  - destruct (tasks_ m) as [|t0 q0] eqn:Ht.
    + intros [= <- <- _]. pose proof (isActive_empty m Ha Ht).
      eapply inv_move; try done; simpl; lia.
    + assert (inv (removeExpiredTasks now m) ws) as Hi' by (by apply remove_expired_inv).
      destruct (tasks_ (removeExpiredTasks now m)) as [|t q] eqn:Ht'; intros [= <- <- _].
      * by rewrite list_insert_id.
      * by apply inv_dispatch.
  - intros [= <- <- _]. pose proof (isActive_false m Ha) as Ho. pose proof (i_over _ _ Hi Ho).
    eapply inv_move; try done; simpl; lia || by left.
Qed.

Lemma inv_woken m ws i :
  inv m ws → ws !! i = Some WWoken →
  inv (set_counts (workerCount_ m) (workerMaxCount_ m) (idleCount_ m - 1) m) (<[i := WLoop]> ws).
Proof.
  intros Hi Hw. pose proof (i_max _ _ Hi). pose proof (i_over _ _ Hi) as Ho.
  pose proof (i_awake _ _ Hi) as Ha.
  eapply inv_move; try done; simpl; try lia. intros Ht. destruct (Ha Ht); lia.
Qed.

Lemma inv_complete m ws i t :
  inv m ws → ws !! i = Some (WRun t) → inv (complete t m) (<[i := WLoop]> ws).
Proof.
  intros [H1 H2 H3 H4 H5 H6 H7] Hi.
  split; cbn; rewrite ?(count_insert _ _ _ _ _ Hi); simpl; [lia|lia|done|naive_solver lia| |done|].
  - intros Ht. destruct (H5 Ht); [left; lia|right; lia].
  - rewrite H7. pose proof (running_insert ws i _ WLoop Hi) as Hr. cbn [running_of app] in Hr.
    rewrite <- Hr. solve_Permutation.
Qed.

(** *** All steps *)

Definition pool_inv (s : pool) : Prop := inv (impl s) (workers s).

Lemma run_section_inv i wake m s s' :
  inv m (<[i := WLoop]> (workers s)) → (i < length (workers s))%nat →
  run_section i wake m s = Some s' → pool_inv s'.
Proof.
  intros Hi Hl. unfold run_section. destruct (worker_section (now_ s) m) as [[m' pc] tell] eqn:Hs.
  intros (cs & _ & [= <-])%bind_Some. unfold pool_inv. cbn.
  rewrite <- (list_insert_insert_eq (workers s) i pc WLoop).
  eapply inv_worker_section; [done| |done]. by apply list_lookup_insert_eq.
Qed.

Lemma worker_step_inv i wake s s' : pool_inv s → worker_step i wake s = Some s' → pool_inv s'.
Proof.
  unfold pool_inv, worker_step. intros Hi. destruct (workers s !! i) as [w|] eqn:Hw; [|done].
  pose proof (lookup_lt_Some _ _ _ Hw) as Hl. pose proof (i_max _ _ Hi). pose proof (i_over _ _ Hi) as Ho.
  pose proof (i_awake _ _ Hi) as Ha. destruct w as [| | | | |t|tell|]; try done.
  - destruct (worker_entry (impl s)) as [m pc] eqn:He. intros [= <-]. by eapply inv_worker_entry.
  - intros (cs & _ & [= <-])%bind_Some. cbn.
    rewrite (set_counts_id (impl s)).
    eapply inv_move; try done; simpl; try lia; intros Ht; destruct (Ha Ht); lia.
  - apply run_section_inv; [|done]. by rewrite list_insert_id.
  - apply run_section_inv; [|done]. by apply inv_woken.
  - intros [= <-]. by eapply inv_complete.
  - intros (cs & _ & [= <-])%bind_Some. cbn.
    rewrite (set_counts_id (impl s)).
    eapply inv_move; try done; simpl; try lia; intros Ht; destruct (Ha Ht); lia.
Qed.

Lemma enqueue_inv c value expiration wake s s' :
  pool_inv s → enqueue c value expiration wake s = Some s' → pool_inv s'.
Proof.
  unfold enqueue, pool_inv. intros Hi (ws & Hn & [= <-])%bind_Some. cbn. by eapply inv_push.
Qed.

Lemma add_inv c value timeout expiration canSleep wake s s' :
  pool_inv s → add c value timeout expiration canSleep wake s = Some s' → pool_inv s'.
Proof.
  intros Hi. unfold add. destruct (negb _); [by intros [= <-]|].
  assert (pool_inv (set_impl (removeExpiredTasks (now_ s) (impl s)) s)) as Hi'
    by (by apply remove_expired_inv).
  destruct (queue_full _); [|by apply enqueue_inv].
  destruct (_ && _); by intros [= <-].
Qed.

Lemma addWorker_inv c value s : pool_inv s → pool_inv (addWorker c value s).
Proof.
  unfold pool_inv. intros [H1 H2 H3 H4 H5 H6 H7]. cbn.
  assert (∀ p, p WEntry = false → count p (workers s ++ replicate value WEntry) = count p (workers s)) as Hc.
  { intros p Hp. rewrite count_app, count_replicate, Hp. simpl. lia. }
  split; cbn; rewrite ?Hc by done; [done|done|lia|naive_solver lia|done|done|].
  rewrite H7. unfold running. rewrite bind_app.
  assert (replicate value WEntry ≫= running_of = []) as ->; [|by rewrite app_nil_r].
  clear. by induction value.
Qed.

Lemma removeWorker_inv c value k wakes s s' :
  pool_inv s → removeWorker c value k wakes s = Some s' → pool_inv s'.
Proof.
  unfold pool_inv, removeWorker. intros Hi.
  destruct (Z.ltb_spec (workerMaxCount_ (impl s)) value); [by intros [= <-]|].
  intros (ws & Hn & [= <-])%bind_Some. cbn.
  assert (inv (impl s) ws ∧ count is_waiting ws = 0) as [[H1 H2 H3 H4 H5 H6 H7] Hz].
  { pose proof (idle_waiting (workers s)) as Hid. pose proof (i_idle _ _ Hi) as Hic.
    destruct (idleCount_ (impl s) <? value).
    - destruct (bool_decide_reflect (Z.of_nat (length wakes) = idleCount_ (impl s))) as [Hl|]; [|done].
      pose proof (notify_times_spec _ _ _ Hn) as [Hk Hw]. pose proof (count_nonneg is_waiting ws).
      pose proof (count_nonneg is_waiting (workers s)).
      split; [|lia]. apply (inv_wake _ (workers s)); [done|done|lia|]. by eapply running_notify_times.
    - injection Hn as <-. split; [by apply inv_notifyAll|apply notifyAll_spec]. }
  split; cbn; [done|done|lia|done|by left|done|done].
Qed.

(** Every step of the system keeps the invariant. *)
Lemma step_inv l s s' : pool_inv s → step l s = Some s' → pool_inv s'.
Proof.
  intros Hi. destruct l; cbn [step].
  - by apply worker_step_inv.
  - destruct (workers s !! i) as [[]|] eqn:Hw; try done. intros [= <-]. by apply inv_spurious.
  - destruct (_ <=? _); [|done]. by intros [= <-].
  - destruct (_ <=? _); [|done]. intros [= <-]. by apply inv_config.
  - intros (? & _ & H)%bind_Some. destruct (bool_decide _); [done|]. injection H as <-.
    unfold start. destruct (state_ (impl s)); try done. destruct (threadFactory_ _); [|done].
    apply inv_notifyAll, inv_state, Hi.
  - intros (? & _ & H)%bind_Some. by eapply add_inv.
  - intros (? & _ & H)%bind_Some. destruct (_ =? _); [done|]. by injection H as <-.
  - destruct (callers s !! c) as [[]|]; try done. unfold add_resume.
    destruct (queue_full _); [by intros [= <-]|]. by apply enqueue_inv.
  - destruct (callers s !! c) as [[]|]; try done. destruct (_ =? _); [done|]. by intros [= <-].
  - destruct (callers s !! c) as [[]|]; try done. by intros [= <-].
  - intros (? & _ & H)%bind_Some. unfold removeNextPending in H. destruct (negb _).
    { by injection H as <-. }
    destruct (tasks_ (impl s)) as [|t q] eqn:Ht; injection H as <-; [done|].
    by apply (inv_pop (impl s) (workers s)).
  - intros (? & _ & H)%bind_Some. by injection H as <-.
  - intros (? & _ & H)%bind_Some. destruct (threadFactory_ _); [|done]. injection H as <-.
    by apply addWorker_inv.
  - intros (? & _ & H)%bind_Some. destruct (_ <=? _); [|done]. by injection H as <-.
  - destruct (callers s !! c) as [[]|]; try done. by apply removeWorker_inv.
  - destruct (callers s !! c) as [[]|]; try done. intros [= <-]. unfold check_workers.
    destruct (negb _); [done|]. by destruct k.
  - destruct (callers s !! c) as [[]|]; try done. by intros [= <-].
  - intros (? & _ & H)%bind_Some. injection H as <-. unfold stopImpl.
    destruct (state_ (impl s)); try done; by apply inv_state.
  - destruct (callers s !! c) as [[]|]; try done. by intros [= <-].
  - destruct (callers s !! c) as [[]|]; try done. intros [= <-]. by apply inv_state.
Qed.

Lemma reachable_inv n s : reachable n s → pool_inv s.
Proof. induction 1 as [|l s s' _ IH Hs]; [by split|by eapply step_inv]. Qed.

(** ** The theorems *)

(** C37: In every reachable state of the pool, whatever the workers, the callers and the
    scheduler did, the counters are exact: [idleCount_] is the number of workers in
    [monitor_.wait()] and [workerCount_] the number of workers in their loop, so that
    neither is ever decremented at zero; and the tasks are accounted for: those added
    are, in order, those that left the queue followed by those pending (first in,
    first out, nothing lost and nothing twice), and those given to workers are those
    completed and those running. *)
Theorem pool_reachable_safe (n : nat) (s : pool) (Hr : reachable n s) :
  let m := impl s in
  idleCount_ m = count is_idle (workers s) ∧ workerCount_ m = count is_active (workers s) ∧
  (∀ i, workers s !! i = Some WWoken → 1 ≤ idleCount_ m) ∧
  (∀ i, workers s !! i = Some WLoop ∨ workers s !! i = Some WWoken → 1 ≤ workerCount_ m) ∧
  0 ≤ workerMaxCount_ m ∧ 0 ≤ totalTaskCount m ∧
  added_ m = (left_ m).*1 ++ (runnable_ <$> tasks_ m) ∧
  Permutation (dispatched (left_ m)) (completed_ m ++ running (workers s)).
Proof.
  destruct (reachable_inv n s Hr) as [H1 H2 H3 H4 H5 H6 H7]. cbv zeta.
  assert (count is_idle (workers s) ≤ count is_active (workers s)) by (apply count_le; by intros []).
  repeat split; try done.
  - intros i Hi. rewrite H1. by eapply count_pos.
  - intros i [Hi|Hi]; rewrite H2; by eapply count_pos.
  - unfold totalTaskCount, zlen. lia.
Qed.

(** *** The workers drain the queue *)

Definition weight (w : wpc) : nat :=
  match w with
  | WEntry => 5 | WTell => 4 | WLoop => 3 | WWoken => 3 | WRun _ => 4 | WLeave _ => 1
  | WWait | WExited => 0
  end.
Definition weights (ws : list wpc) : nat := sum_list_with weight ws.
Definition work_left (s : pool) : nat := weights (workers s) + 2 * length (tasks_ (impl s)).

Lemma weights_insert ws i w w' :
  ws !! i = Some w → (weights (<[i := w']> ws) + weight w = weights ws + weight w')%nat.
Proof.
  unfold weights. revert i. induction ws as [|x ws IH]; intros [|i] Hi; simplify_eq/=; [lia|].
  specialize (IH i Hi). lia.
Qed.

(** What a section leaves of the queue and how far the worker got. *)
Lemma worker_section_measure now m m' pc tell :
  worker_section now m = (m', pc, tell) →
  (weight pc + 2 * length (tasks_ m') < 3 + 2 * length (tasks_ m))%nat ∧
  workerMaxCount_ m' = workerMaxCount_ m ∧ added_ m' = added_ m ∧
  (1 ≤ workerMaxCount_ m → 1 ≤ workerCount_ m → 1 ≤ workerCount_ m').
Proof.
  unfold worker_section. destruct (isActive m) eqn:Ha.
  - destruct (tasks_ m) as [|t0 q0] eqn:Ht; [intros [= <- <- _]; cbn; rewrite Ht; split; [simpl; lia|done]|].
    destruct (remove_expired_frame now (tasks_ m) m eq_refl)
      as (Hwc & Hwm & _ & _ & _ & Had & _ & gone & Hg).
    fold (removeExpiredTasks now m) in *. rewrite Ht in Hg. apply (f_equal length) in Hg.
    rewrite length_app in Hg. simpl in Hg.
    destruct (tasks_ (removeExpiredTasks now m)) as [|t q] eqn:Ht'; intros [= <- <- _]; cbn.
    + rewrite Ht'. simpl. rewrite Hwm, Had, Hwc. split; [lia|]. done.
    + rewrite Hwm, Had, Hwc. simpl in *. split; [lia|]. done.
  - intros [= <- <- _]. apply isActive_false in Ha. cbn. split; [lia|]. repeat split. lia.
Qed.

Lemma worker_step_measure i wake s s' :
  worker_step i wake s = Some s' →
  (work_left s' < work_left s)%nat ∧ workerMaxCount_ (impl s') = workerMaxCount_ (impl s) ∧
  added_ (impl s') = added_ (impl s) ∧
  (1 ≤ workerMaxCount_ (impl s) → 1 ≤ workerCount_ (impl s) → 1 ≤ workerCount_ (impl s')).
Proof.
  unfold worker_step. destruct (workers s !! i) as [w|] eqn:Hw; [|done].
  pose proof (λ w', weights_insert (workers s) i w w' Hw) as Hi. unfold weights in Hi.
  assert (∀ m s', weight w = 3%nat → tasks_ m = tasks_ (impl s) → workerMaxCount_ m = workerMaxCount_ (impl s) →
    added_ m = added_ (impl s) → workerCount_ m = workerCount_ (impl s) →
    run_section i wake m s = Some s' →
    (work_left s' < work_left s)%nat ∧ workerMaxCount_ (impl s') = workerMaxCount_ (impl s) ∧
    added_ (impl s') = added_ (impl s) ∧
    (1 ≤ workerMaxCount_ (impl s) → 1 ≤ workerCount_ (impl s) → 1 ≤ workerCount_ (impl s'))) as Hsec.
  { intros m s1 Hwt Ht Hm Ha Hc. unfold run_section.
    destruct (worker_section (now_ s) m) as [[m' pc] tell] eqn:Hs.
    intros (cs & _ & [= <-])%bind_Some. apply worker_section_measure in Hs as (K1 & K2 & K3 & K4).
    unfold work_left. cbn. specialize (Hi pc). rewrite Ht in K1. rewrite Hm in K2, K4. rewrite Hc in K4.
    unfold weights. split; [lia|]. split; [done|]. split; [by rewrite K3|done]. }
  destruct w as [| | | | |t|tell|]; try done.
  - unfold worker_entry. destruct (Z.ltb_spec (workerCount_ (impl s)) (workerMaxCount_ (impl s)));
      intros [= <-]; unfold work_left, weights; cbn.
    + split; [|split; [done|split; [done|lia]]].
      destruct (_ =? _); [specialize (Hi WTell)|specialize (Hi WLoop)]; simpl in *; lia.
    + specialize (Hi (WLeave false)). simpl in *. split; [lia|done].
  - intros (cs & _ & [= <-])%bind_Some. specialize (Hi WLoop). unfold work_left, weights. simpl in *. split; [lia|done].
  - by apply Hsec.
  - by apply Hsec.
  - intros [= <-]. specialize (Hi WLoop). unfold work_left, weights. simpl in *. split; [lia|done].
  - intros (cs & _ & [= <-])%bind_Some. specialize (Hi WExited). unfold work_left, weights. simpl in *. split; [lia|done].
Qed.

Lemma notify_caller_enabled wake cs : ∃ choice cs', notify_caller wake choice cs = Some cs'.
Proof.
  unfold notify_caller. destruct (forallb _ cs) eqn:Hf; [by exists 0%nat, cs|].
  destruct (list_find (λ c, is_Some (wake c)) cs) as [[i c]|] eqn:Hl.
  - apply list_find_Some in Hl as (Hi & [c' Hc] & _). exists i, (<[i := c']> cs). by rewrite Hi; cbn; rewrite Hc.
  - apply list_find_None in Hl. exfalso. apply not_true_iff_false in Hf. apply Hf.
    apply forallb_forall. intros c Hc%list_elem_of_In. rewrite Forall_forall in Hl. specialize (Hl c Hc).
    destruct (wake c); [by destruct Hl|done].
Qed.

(** A worker that does not sleep and has not left can go on. *)
Lemma worker_enabled i w s :
  workers s !! i = Some w → w ≠ WWait → w ≠ WExited → ∃ wake s', worker_step i wake s = Some s'.
Proof.
  intros Hw H1 H2. unfold worker_step. rewrite Hw.
  assert (∀ m, ∃ wake s', run_section i wake m s = Some s') as Hsec.
  { intros m. unfold run_section. destruct (worker_section (now_ s) m) as [[m' pc] tell].
    destruct (notify_caller_enabled wake_add (callers s)) as (choice & cs & Hc).
    exists choice. destruct tell; [rewrite Hc|]; cbn; eauto. }
  destruct w as [| | | | |t|tell|]; try done.
  - exists 0%nat. destruct (worker_entry (impl s)); eauto.
  - destruct (notify_caller_enabled wake_check (callers s)) as (choice & cs & Hc).
    exists choice. rewrite Hc. cbn. eauto.
  - exists 0%nat. eauto.
  - destruct (notify_caller_enabled wake_check (callers s)) as (choice & cs & Hc).
    exists choice. destruct tell; [rewrite Hc|]; cbn; eauto.
Qed.

(** Steps of workers only, while time may pass; [k] of them are steps of workers. *)
Inductive worker_run : nat → pool → pool → Prop :=
| run_done s : worker_run 0 s s
| run_worker k i wake s s' s'' :
    step (LWorker i wake) s = Some s' → worker_run k s' s'' → worker_run (S k) s s''
| run_time k t s s' s'' :
    step (LTime t) s = Some s' → worker_run k s' s'' → worker_run k s s''.

(** No worker can take a step without being woken. *)
Definition quiescent (s : pool) : Prop := ∀ i wake, step (LWorker i wake) s = None.

Lemma worker_run_spec k s s' :
  worker_run k s s' → pool_inv s → 1 ≤ workerMaxCount_ (impl s) → 1 ≤ workerCount_ (impl s) →
  (k + work_left s' ≤ work_left s)%nat ∧ pool_inv s' ∧ 1 ≤ workerCount_ (impl s') ∧
  added_ (impl s') = added_ (impl s).
Proof.
  induction 1 as [s|k i wake s s1 s2 Hs _ IH|k t s s1 s2 Hs _ IH]; intros Hi Hm Hc; [done| |].
  - pose proof (worker_step_measure i wake s s1 Hs) as (K1 & K2 & K3 & K4).
    pose proof (step_inv _ _ _ Hi Hs) as Hi1. destruct IH as (J1 & J2 & J3 & J4); [done|lia|by apply K4|].
    split; [lia|]. split; [done|]. split; [done|]. by rewrite J4.
  - pose proof (step_inv _ _ _ Hi Hs) as Hi1. cbn [step] in Hs. destruct (_ <=? _); [|done].
    injection Hs as <-. by destruct (IH Hi1 Hm Hc).
Qed.

Lemma quiescent_spec s :
  pool_inv s → quiescent s → 1 ≤ workerCount_ (impl s) → tasks_ (impl s) = [] ∧ running (workers s) = [].
Proof.
  intros [H1 H2 H3 H4 H5 H6 H7] Hq Hc.
  assert (∀ i w, workers s !! i = Some w → w = WWait ∨ w = WExited) as Hw.
  { intros i w Hi. pose proof (worker_enabled i w s Hi) as He.
    destruct w; auto; (destruct He as (wake & s' & Hs); [done..|]; unfold quiescent in Hq; cbn [step] in Hq;
      by rewrite (Hq i wake) in Hs). }
  assert (count is_awake (workers s) = 0) as Ha.
  { apply count_zero. intros i w Hi. by destruct (Hw i w Hi) as [->| ->]. }
  assert (count is_active (workers s) ≤ count is_waiting (workers s) + count is_awake (workers s)) as Hs.
  { clear. induction (workers s) as [|w ws IH]; simpl; [lia|]. destruct w; simpl; lia. }
  split.
  - destruct (tasks_ (impl s)); [done|]. destruct H5; [done|lia..].
  - unfold running. clear -Hw. induction (workers s) as [|w ws IH]; [done|].
    rewrite bind_cons, IH; [|intros i; apply (Hw (S i))]. by destruct (Hw 0%nat w eq_refl) as [->| ->].
Qed.


Lemma run_labels_reachable n ls s s' : reachable n s → run_labels ls s = Some s' → reachable n s'.
Proof.
  revert s. induction ls as [|l ls IH]; intros s Hr; cbn [run_labels]; [by intros [= <-]|].
  intros (s1 & H1 & H2)%bind_Some. apply (IH s1); [by eapply reach_step|done].
Qed.

(** One worker that sleeps; two tasks are added. *)
Definition two_tasks : list label :=
  [LConfig 0 false true; LStart 0; LAddWorker 0 1; LWorker 0 0; LWorker 0 0; LCheck 0;
   LWorker 0 0; LAdd 0 100 0 0 true 0; LAdd 0 101 0 0 true 0].

(** The state a sequence of labels leads to. *)
Definition after (ls : list label) (s : pool) : pool := default s (run_labels ls s).
Definition two_tasks_pool : pool := Eval vm_compute in after two_tasks (initial 1).
Definition drained_pool : pool :=
  Eval vm_compute in after (replicate 5 (LWorker 0 0)) two_tasks_pool.

Lemma two_tasks_reachable : reachable 1 two_tasks_pool.
Proof.
  apply (run_labels_reachable 1 two_tasks (initial 1)); [apply reach_init|]. vm_compute. reflexivity.
Qed.

Example pool_reachable_safe_witness :
  added_ (impl two_tasks_pool) = [100; 101] ∧
  added_ (impl two_tasks_pool) =
    (left_ (impl two_tasks_pool)).*1 ++ (runnable_ <$> tasks_ (impl two_tasks_pool)).
Proof.
  split; [reflexivity|]. apply (pool_reachable_safe 1 two_tasks_pool two_tasks_reachable).
Defined.

Lemma drained_run : worker_run 5 two_tasks_pool drained_pool.
Proof.
  do 5 (eapply (run_worker _ 0 0); [vm_compute; reflexivity|]). apply run_done.
Qed.
Lemma drained_quiescent : quiescent drained_pool.
Proof. intros [|i] wake; [reflexivity|]. by destruct i. Qed.


(** *** Callers that are forgotten *)

(** The pool is at rest and caller [c] sleeps. *)
Definition forgotten (c : nat) (s : pool) : Prop :=
  quiescent s ∧
  match callers s !! c with Some (CAddSleep _ 0 _) | Some (CSleep _) => True | _ => False end.

(** The queue is limited to one task; the pending task of caller 0 expires while
    caller 1 waits for room. *)
Definition expired_trace : list label :=
  [LConfig 1 false true; LStart 0; LAddWorker 0 1; LWorker 0 0; LWorker 0 0; LCheck 0;
   LAdd 0 100 0 0 true 0; LWorker 0 0; LAdd 0 101 0 5 true 0; LAdd 1 102 0 0 true 0; LTime 10;
   LWorker 0 0; LWorker 0 0; LWorker 0 0].

(** Two threads add a worker each. *)
Definition two_adders_trace : list label :=
  [LConfig 0 false true; LStart 0; LAddWorker 0 1; LAddWorker 1 1; LCheck 0; LCheck 1;
   LWorker 0 0; LWorker 1 0; LWorker 1 0; LCheck 0; LWorker 0 0; LWorker 1 0].

(** Caller 0 stops the manager while caller 1 waits for room in the queue. *)
Definition stopped_trace : list label :=
  [LConfig 1 false true; LStart 0; LAddWorker 0 1; LWorker 0 0; LWorker 0 0; LCheck 0;
   LAdd 0 100 0 0 true 0; LWorker 0 0; LAdd 0 101 0 0 true 0; LAdd 1 102 0 0 true 0;
   LStop 0 false; LStopRead 0; LRemoveSection 0 []; LCheck 0; LWorker 0 0; LWorker 0 0; LWorker 0 0;
   LCheck 0; LStopLast 0].

(** Wake-ups of callers are lost in three situations, each of which leaves a thread
    asleep for good: (1) the expiry of a pending task makes room in a full queue, but
    only taking a task notifies [maxMonitor_], so a caller of [add] sleeps although the
    queue is empty and the worker idle; (2) of two callers of [addWorker] only one is
    notified when the workers have started; (3) after [stop] a caller of [add] that
    waits for room is never woken, and the pending task never runs. *)
Theorem callers_forgotten :
  (∃ s, run_labels expired_trace (initial 2) = Some s ∧ forgotten 1 s ∧ tasks_ (impl s) = [] ∧
        queue_full (impl s) = false ∧ idleCount_ (impl s) = 1) ∧
  (∃ s, run_labels two_adders_trace (initial 2) = Some s ∧ forgotten 1 s ∧
        workerCount_ (impl s) = workerMaxCount_ (impl s)) ∧
  (∃ s, run_labels stopped_trace (initial 2) = Some s ∧ forgotten 1 s ∧ state_ (impl s) = STOPPED ∧
        workerCount_ (impl s) = 0 ∧ runnable_ <$> tasks_ (impl s) = [101]).
Proof.
  split; [|split]; eexists; (split; [vm_compute; reflexivity|]);
    (split; [split; [|exact I]; intros [|[|[]]] wake; reflexivity|]); done.
Qed.

End ThreadPoolTheorems.
